(* ===== verification/_CoqProject ===== *)
-Q . S2P
Prelude.v
Utf8.v
SourceText.v
LineIndex.v
Snapshot.v
SourceStore.v
SyntaxKind.v
SyntaxToken.v
DiagnosticKind.v
Diagnostic.v
DiagnosticBag.v
LexText.v
LexTrivia.v
LexLiteral.v
LexScanner.v
LexGrammar.v
CommentGrammar.v
CommentSuggestion.v
TokenSource.v
Lexer.v
Graph.v
Order.v
Base.v
TestModel.v
TestCatalog.v
TestSchedule.v
TestCodec.v
TestWire.v
TestMessages.v
TestRunner.v
GreenTree.v
SyntaxWalk.v
SyntaxUnit.v
ParserDiagnostic.v
ParserCursor.v
ParserState.v
ParserList.v
ParserExpression.v
BigFloat.v
NumericFormat.v
NumericRatio.v
NumericComplex.v
NumericPower.v
InterfaceFormat.v
InterfaceArtifact.v
InterfaceEnvelope.v
InterfaceSections.v
InterfaceRoundTrip.v
InterfaceCorrect.v
