(* ===== verification/Prelude.v ===== *)
(** * Bray: the source, diagnostics, syntax and test layers

    Bray is a compiler written in Rust (the workspace under [src/crates]).  A
    compilation reads source inputs into immutable snapshots, lexes and parses
    them into lossless syntax, discovers declarations, binds, checks, lowers and
    emits.  Every phase reports structured diagnostics that point into the
    snapshots.  This library models the layers that all others stand on: source
    text ([bray-source]), the syntax vocabulary, tokens and trees ([bray-syntax]),
    diagnostics ([bray-diagnostics]), the lexer and the parser's cursor and state
    ([bray-parser]) and shared helpers ([bray-base]); and, at the other end, the
    test system: the protocol between the test runner and the native test hosts
    ([bray-test-protocol]) and the runner itself ([bray/src/tack/testing]).  Of
    the later phases it models the arithmetic with which the checker evaluates
    constants of the real and complex types ([bray-numeric]) and the envelope of
    the binary interfaces of packages ([bray-package-interface]).

    ** Parts, files and how they interact

    - [Prelude] (this file): machine integers as [Z] with their ranges and
      checked operations, Rust's [Result] as [result], computations that return,
      panic or run out of fuel as [outcome], the rule for total correctness of
      loops, byte slices with [usize] indices.
    - [Utf8]: what the sources use of Rust's [str] and [char]: encoding,
      validity, scalar boundaries, slicing, [char_indices], and the byte-level
      validator of [str::from_utf8].
    - [SourceText]: source ids and identities in their stored and generated
      domains ([domain.rs], [id.rs], [identity.rs]), versions, 32-bit text
      sizes, ranges and spans ([text.rs], [span.rs]), line breaks ([newline.rs]).
    - [LineIndex]: the index from byte offsets to lines, scalar columns and
      UTF-16 columns and back ([line_index.rs]).
    - [Snapshot]: snapshots with their checksum ([snapshot.rs]), edits
      ([edit.rs]), the byte-order mark ([encoding.rs]), origins ([origin.rs]).
    - [SourceStore]: inputs ([input.rs]), the loader ([loader.rs]), the store
      ([store.rs]) and the resolution of spans to locations ([location.rs]).  It
      calls [Snapshot] to make snapshots and [LineIndex] to resolve them.
    - [SyntaxKind]: the syntax vocabulary ([kind.rs]) and the table of fixed
      spellings ([fixed_text.rs]); [SyntaxToken]: tokens and trivia
      ([token.rs], [trivia.rs]).
    - [DiagnosticKind]: the vocabularies of diagnostics; [Diagnostic]: records,
      builders, suggestions, and the lexical diagnostics of
      [lexer/diagnostic.rs]; [DiagnosticBag]: the shared, mergeable collections
      of [bag.rs].  Heap nodes carry an address, so that the identity tests of
      the iterator and of merging are modelled, and an allocation takes the
      address it returns as an argument.
    - The interface between bags and the lexer is the class [DiagnosticSink]
      (operations) with [DiagnosticSinkLaws] (contents after each operation);
      [DiagnosticBag] discharges the laws, and everything about the lexer is
      proved against them.
    - [LexText] ([text.rs], [scan.rs]), [LexTrivia] ([trivia.rs]), [LexLiteral]
      ([literal/numeric.rs], [literal/quoted.rs]), [LexScanner] ([scanner.rs]):
      the scanners, each with the contract the next one uses.
    - [LexGrammar], [CommentGrammar]: the documented lexical grammar as
      predicates on positions, and the agreement of the scanners with it;
      [CommentSuggestion]: the edit that the lexer suggests for an unterminated
      comment, applied with [Snapshot].
    - [TokenSource]: the lazy token source with its lookahead cache
      ([token_source.rs]) and the driver ([stream.rs]); [Lexer]: the abstract
      machine it refines and the guarantees of the lexer.
    - [GreenTree]: the width-only tree behind every syntax node, its iterators
      and builders ([green.rs], [builder.rs], [list/storage.rs]); [SyntaxWalk]:
      node views, the walk with its explicit stack, source units and the node
      index of a tree ([walk.rs], [node], [syntax/unit.rs], [tree.rs]);
      [SyntaxUnit]: lexing composed with building a source unit, and fragments
      rebuilt from events ([fragment.rs]).
    - [ParserDiagnostic]: the diagnostics of the parser
      ([bray-parser/src/diagnostic.rs]); [ParserCursor]: the cursor with expected
      tokens and skipping ([cursor.rs]); [ParserState]: the parser around it
      ([parser/state.rs], [parser/delimiter.rs]), and programs over its calls,
      which is what the productions of the grammar are; [ParserList]: recovery
      into builders and the loop of separated lists ([parser/recovery.rs],
      [parser/separated.rs]), proved against the contracts of its closures and
      its builder; [ParserExpression]: the precedence engine of expressions
      ([parser/expression/operator.rs]) over parameters for operands, patterns
      and the end of the expression, and the documented precedence ladder.
    - [Graph]: reachability and strongly connected components
      ([bray-base/src/graph.rs]); [Order]: orders, stable sorting, binary search
      and ordered maps as the sources use them of the standard library; [Base]:
      hexadecimal text, paths, slices and non-empty text.
    - [TestModel]: the data of [bray-test-protocol] and the names of
      [bray-symbols] it uses; [TestCatalog]: catalogs, selection and batches
      ([catalog.rs], [filter.rs], [batch.rs]); [TestSchedule]: execution plans
      and the admission schedule ([scheduling.rs]); [TestCodec]: the encoders
      and decoders ([codec/support.rs], [codec/host.rs], [codec/catalog.rs]),
      with the streams they write to and read from as the classes [Writer] and
      [Reader]; [TestWire]: the wire formats, stated apart from the code, and
      that each encoder writes and each decoder reads its format;
      [TestMessages]: the round trips that follow.
    - [TestRunner]: the runner over all of these ([execution/host.rs],
      [execution/scheduling.rs], [report.rs]).
    - [BigFloat]: the arbitrary-precision floats of a library, as a class of
      operations ([BigFloat]) and a class of laws ([BigFloatLaws]), with an
      instance of both; [NumericFormat]: the IEEE formats, decoding and encoding
      ([bray-numeric/src/format.rs]); [NumericRatio]: rounding of quotients;
      [NumericComplex]: complex products and quotients ([complex.rs]);
      [NumericPower]: real and complex powers ([real.rs], [power.rs]).
    - [InterfaceFormat]: the format of package interfaces: wire, header,
      directory entries, limits, digests, stored encodings, budgets ([wire.rs],
      [framing.rs], [header.rs], [section.rs], [limits.rs], [hash.rs],
      [encoding.rs], [decode.rs]), with the digest, the compressor and the
      allocator as classes; [InterfaceArtifact]: assembling an artifact
      ([artifact.rs]) and validating and reading one ([validation.rs]);
      [InterfaceEnvelope]: the bytes that validation accepts, stated apart from
      the code; [InterfaceSections]: the cells of decoded sections and what a
      section returns; [InterfaceRoundTrip]: what was assembled is an envelope
      and reads back; [InterfaceCorrect]: the theorems, and sample libraries.

    Methods take their receiver and return its new value; a [&mut self] method
    that also returns a value returns the pair.  A Rust method [T::m] is [m], or
    [T_m] where the name is taken.

    ** What the theorems show

    - Source text: ids partition the 32-bit space; [cover] is a least upper
      bound; line indexes are total up to the 32-bit limit, agree with a direct
      count over the scalars, and round-trip with LSP positions (at the offset
      [2^32 - 1] a position may be missing); edits are exact
      on every branch and can be undone; a store keeps its invariant under every
      sequence of insertions, and each insertion is exact, failures included;
      spans resolve exactly, and LSP ranges are legal edits.
    - Vocabulary: syntax kinds are partitioned, spellings are a bijection, keys
      and diagnostic codes are unique.
    - Diagnostics: the stack iterator over the shared graph terminates and
      equals the reference flattening, without repeats where a bag has sources;
      merging and adding have the contents of an ordered union without
      duplicates; collected diagnostics come back in order; edit sets are accepted exactly when pairwise compatible.
    - Lexer: a source unit is lexed in full, losslessly and without panic, and
      every invalid token is reported; the caching token source refines a
      machine that has only a cursor and a list of diagnostics, under any
      sequence of calls, so that the cache policy cannot be observed; words and
      operators are scanned to their longest extent and named by the spelling
      table, every fixed spelling lexes to its own kind, digit sequences and
      Unicode escapes are accepted exactly by their grammars.
    - Lexical grammar: numeric and string literals and nested block comments
      are accepted exactly where the documented grammar derives them.  The
      machine-applicable edit for an unterminated comment closes it exactly when
      the text does not end in a slash read on its own.
    - Syntax trees: a tree built from tokens that cover a text gives back those
      tokens and that text, at its own start or moved to any other; the walk is
      the recursive traversal for every visitor; looking a node up returns the
      first match; lexing followed by building is lossless; the events accepted
      as a fragment are exactly the listings of one tree, and are read back.
    - Parser: skipping ends and takes exactly the tokens before the first
      recovery token, braces balanced where asked for; an expected token that is
      not there becomes one missing token and one error; and whatever program
      over the parser runs, with forks and nesting, its tokens stand for the text
      it has passed, what is invalid or missing is reported, and any tree built
      over a whole text writes that text back.  A separated list ends whatever
      its items do, and its node writes the text it has gone over.  Over parsers
      of operands that do so, the expression parser returns a node that writes
      its text whatever comes, and every expression of the documented ladder is
      parsed to its own tree.
    - Graphs: both traversals terminate on every finite graph; the components
      are the classes of mutual reachability, in an order that every edge
      respects.
    - Test protocol: catalogs are accepted exactly when they are consistent,
      whatever the order of their entries; shards partition a selection; the
      schedule keeps to its concurrency, its capture budget and the serial
      barrier under every sequence of calls, and each call is exact; a frame
      is read exactly if it is what is written for a value within the limits, and
      of the results that are written exactly those anchored in generated text or
      with too many suppressed incidents are refused.
    - Test runner: whatever the workers observe and in whatever order they
      finish, a run in which enough of them report ends with exactly one result
      per selected test, in catalog order, without panic; the report accounts
      for each of them once.
    - Numbers: every bit pattern of a format is decoded exactly and encoded
      back; encoding rounds once, to nearest even, over underflow, subnormal
      numbers and overflow; the components of complex products and quotients of
      finite numbers are the exact ones rounded once, for quotients because no
      midpoint of the format lies between the exact quotient and the one at the
      working precision; the real power follows its table of special cases, and
      the sign of an integral exponent's parity.
    - Package interfaces: validation of untrusted bytes is total and accepts
      exactly the envelopes; what is encoded is accepted exactly if the limits of
      the policy admit it, and read back section by section, compressed or not; the cells that keep decoded sections cannot be
      observed, although they are shared and filled on demand; what is handed out
      has its declared length and digest and stays within the limit; the budget
      of a decoder is exact although its sums saturate.
    - Where code and documentation differ on concrete inputs, a theorem shows
      it: duplicates that survive a merge, the end-of-file token that depends on
      the cache, a suggested quote that a backslash escapes, catalogs accepted
      out of order, comparisons that chain behind a logical operator, sections
      that share their bytes.

    ** Integers, fuel and assumptions

    Offsets are 32-bit, indices and lengths 64-bit; every checked operation of
    the sources is a checked operation here, and an unchecked one that could
    overflow is an [outcome].  A loop over a text has the fuel [text_fuel], two
    more than the number of bytes: each turn consumes a byte or ends.  The
    iterator of a bag has the size of the collection graph, the cache loop the
    requested distance.  A traversal of a graph has its vertices and edges
    ([graph_size]), the admission loop one turn per entry and one to stop.  The
    loop of the runner waits for its environment: it is given a list of turns,
    and [OutOfFuel] means that it is still waiting when the list ends.  The
    iterators and walks over a syntax tree have the size of what is left of the
    tree on their stacks; a skip of the parser has the fuel of the text, since
    each turn consumes a token, and a separated list three times that.  The
    calls of the expression parser inside each other have one more than the
    nesting limit ([nesting_fuel]): the call beyond the limit does not recurse.
    Repeated squaring of a 64-bit count has 65 turns.  Theorems about these
    computations say that they [return], so that neither a panic nor exhausted
    fuel can occur.
    [char::is_alphanumeric] beyond ASCII is Unicode data: it is an argument of
    the scanners and the theorems hold for every choice.  Texts are valid UTF-8
    because Rust's [str] is ([WfSnapshot] for snapshots, which the store
    establishes).  The stable digest of a byte string comes from a hashing
    library and is an argument.  The float library is a parameter with its
    documented laws: results are exact where the requested precision admits it
    and otherwise within the precision's relative error; [model_laws] proves them
    for the floats of [model_float].  Its elementary functions are parameters
    without laws.  Of BLAKE3 the round trip assumes digests of 32 bytes
    ([Blake3Laws]), of Zstandard that its frames record their size and length,
    have the configured descriptor and decompress to what was compressed
    ([ZstdLaws]); [InterfaceCorrect.Sample] satisfies both.  Nothing is assumed
    of the allocator unless a theorem says so, and no theorem needs that digests
    do not collide.

    ** Not modelled

    File and terminal input and output, display names and URIs of origins, the
    typed payloads of diagnostic arguments other than the lexer's, the polling
    of host processes and the rendering of reports: effects on the outside, or
    text without a contract.  The typed syntax nodes (macro generated wrappers
    over green nodes) but for expressions, and which tree the productions other
    than operator expressions and lists build: what holds of all productions
    ([parser_session_lossless]) holds of them.  The accuracy of powers that go
    through the exponential and the logarithm, which the float library does not
    promise.  The contents of the sections of a package interface, and binding,
    checking, lowering, code generation and the runtime, which stand on symbol
    tables and semantic types that are not modelled. *)

From Stdlib Require Import ZArith Lia.
From stdpp Require Import base list numbers option.

Open Scope Z_scope.

(** ** Machine integers

    Rust's fixed-width integers are carried as [Z] together with the range
    that the width imposes.  [usize] is the 64-bit one of the hosts that the
    toolchain supports. *)

Declare Scope bray_scope.
Delimit Scope bray_scope with bray.
Open Scope bray_scope.

Abbreviation u8 := Z.
Abbreviation u32 := Z.
Abbreviation u64 := Z.
Abbreviation usize := Z.

Definition U32_MAX : Z := 4294967295.
Definition U64_MAX : Z := 18446744073709551615.
Definition USIZE_MAX : Z := 18446744073709551615.

Definition in_u8 (x : Z) : Prop := 0 <= x <= 255.
Definition in_u32 (x : Z) : Prop := 0 <= x <= U32_MAX.
Definition in_u64 (x : Z) : Prop := 0 <= x <= U64_MAX.

(** [checked_*] and [try_from] of the integer types: [None] where the exact
    result does not fit. *)
Definition checked (max : Z) (exact : Z) : option Z :=
  if (0 <=? exact) && (exact <=? max) then Some exact else None.

Definition u32_checked_add (a b : u32) : option u32 := checked U32_MAX (a + b).
Definition u32_checked_mul (a b : u32) : option u32 := checked U32_MAX (a * b).
Definition u32_try_from (a : Z) : option u32 := checked U32_MAX a.
Definition u64_checked_add (a b : u64) : option u64 := checked U64_MAX (a + b).
Definition usize_checked_add (a b : usize) : option usize := checked USIZE_MAX (a + b).
Definition usize_checked_sub (a b : usize) : option usize := checked USIZE_MAX (a - b).
Definition usize_try_from (a : Z) : option usize := checked USIZE_MAX a.

Lemma checked_Some max x y : checked max x = Some y <-> y = x /\ 0 <= x <= max.
Proof.
  unfold checked. destruct (0 <=? x) eqn:E1; destruct (x <=? max) eqn:E2;
    simpl; split; intros H; simplify_eq; try split; try lia; try (destruct H; subst; f_equal; lia).
Qed.

Lemma checked_None max x : checked max x = None <-> x < 0 \/ max < x.
Proof.
  unfold checked. destruct (0 <=? x) eqn:E1; destruct (x <=? max) eqn:E2;
    simpl; split; intros H; simplify_eq; lia || done.
Qed.

Lemma checked_ok max x : 0 <= x <= max -> checked max x = Some x.
Proof. intros H. apply checked_Some. auto. Qed.

(** ** Results

    Rust's [Result<T, E>]. *)
Inductive result (A E : Type) : Type :=
| Ok (a : A)
| Err (e : E).
Arguments Ok {A E} a.
Arguments Err {A E} e.

Definition result_bind {A B E} (m : result A E) (k : A -> result B E) : result B E :=
  match m with Ok a => k a | Err e => Err e end.

Definition map_err {A E F} (f : E -> F) (m : result A E) : result A F :=
  match m with Ok a => Ok a | Err e => Err (f e) end.

Definition ok_or {A E} (o : option A) (e : E) : result A E :=
  match o with Some a => Ok a | None => Err e end.

Definition result_ok {A E} (m : result A E) : option A :=
  match m with Ok a => Some a | Err _ => None end.

Notation "'let?' x ':=' m 'in' k" := (result_bind m (fun x => k))
  (at level 10, x pattern, m at level 100, k at level 200) : bray_scope.

(** ** Computations that may panic

    A Rust function either returns, panics, or runs forever.  A loop is given
    a fuel budget, and exhausting it is a third outcome that is told apart
    from a panic.  A theorem that a computation [returns] excludes both. *)
Inductive outcome (A : Type) : Type :=
| Ret (a : A)
| Panic
| OutOfFuel.
Arguments Ret {A} a.
Arguments Panic {A}.
Arguments OutOfFuel {A}.

Definition outcome_bind {A B} (m : outcome A) (k : A -> outcome B) : outcome B :=
  match m with
  | Ret a => k a
  | Panic => Panic
  | OutOfFuel => OutOfFuel
  end.

Notation "'let!' x ':=' m 'in' k" := (outcome_bind m (fun x => k))
  (at level 10, x pattern, m at level 100, k at level 200) : bray_scope.

(** [unwrap]/[expect] and the [None => panic!(..)] arms of the sources. *)
Definition expect {A} (o : option A) : outcome A :=
  match o with Some a => Ret a | None => Panic end.

(** [assert!(b)]. *)
Definition assert_ (b : bool) : outcome unit :=
  if b then Ret tt else Panic.

(** Total correctness: the computation returns, and its value satisfies [Q]. *)
Definition returns {A} (m : outcome A) (Q : A -> Prop) : Prop :=
  exists a, m = Ret a /\ Q a.

Lemma returns_ret {A} (a : A) (Q : A -> Prop) : Q a -> returns (Ret a) Q.
Proof. exists a; auto. Qed.

Lemma returns_bind {A B} (m : outcome A) (k : A -> outcome B) P Q :
  returns m P -> (forall a, P a -> returns (k a) Q) -> returns (outcome_bind m k) Q.
Proof. intros (a & -> & HP) Hk. simpl. auto. Qed.

Lemma returns_mono {A} (m : outcome A) (P Q : A -> Prop) :
  returns m P -> (forall a, P a -> Q a) -> returns m Q.
Proof. intros (a & -> & HP) H. exists a; auto. Qed.

Lemma returns_conj {A} (m : outcome A) (P Q : A -> Prop) :
  returns m P -> returns m Q -> returns m (fun a => P a /\ Q a).
Proof. intros (a & Ha & HP) (b & Hb & HQ). exists a. split; [done|]. split; congruence. Qed.

Lemma returns_expect {A} (o : option A) a (Q : A -> Prop) :
  o = Some a -> Q a -> returns (expect o) Q.
Proof. intros -> H. exists a; auto. Qed.

Lemma returns_assert (b : bool) (Q : unit -> Prop) :
  b = true -> Q tt -> returns (assert_ b) Q.
Proof. intros -> H. exists tt; auto. Qed.

Lemma returns_det {A} (m : outcome A) (Q : A -> Prop) a : returns m Q -> m = Ret a -> Q a.
Proof. intros (b & Hb & HQ) Ha. congruence. Qed.

(** [while]/[loop]: the body either continues with a new loop state or breaks
    with a value. *)
Section loops.
Context {S R : Type}.

Fixpoint loop (fuel : nat) (body : S -> outcome (S + R)) (s : S) : outcome R :=
  match fuel with
  | O => OutOfFuel
  | Datatypes.S fuel' =>
      outcome_bind (body s) (fun step =>
        match step with
        | inl s' => loop fuel' body s'
        | inr r => Ret r
        end)
  end.

(** The rule for total correctness of a loop: an invariant that the body
    maintains, a natural measure that every continuing step decreases, and
    more fuel than the measure of the entry state. *)
Lemma loop_rule (Inv : S -> Prop) (measure : S -> nat) (Q : R -> Prop) body :
  (forall s, Inv s -> returns (body s) (fun step =>
     match step with
     | inl s' => Inv s' /\ (measure s' < measure s)%nat
     | inr r => Q r
     end)) ->
  forall fuel s, Inv s -> (measure s < fuel)%nat -> returns (loop fuel body s) Q.
Proof.
  intros Hbody fuel. induction fuel as [|fuel IH]; intros s HI Hm; [lia|].
  simpl. eapply returns_bind; [by apply Hbody|].
  intros [s'|r]; [|intros HQ; by apply returns_ret].
  intros [HI' Hlt]. apply IH; [done|lia].
Qed.
End loops.

(** Continue or break, the two ends of a loop body. *)
Abbreviation continue_ s := (Ret (inl s)).
Abbreviation break_ r := (Ret (inr r)).

(** ** Slices

    [<[T]>::get], [len] and range indexing with [usize] indices. *)
Section slices.
Context {A : Type}.
Implicit Types l : list A.

Definition zlen l : Z := Z.of_nat (length l).
Definition ztake (n : Z) l : list A := take (Z.to_nat n) l.
Definition zdrop (n : Z) l : list A := drop (Z.to_nat n) l.

Definition get l (i : Z) : option A :=
  if 0 <=? i then l !! Z.to_nat i else None.

(** [slice.get(a..b)]. *)
Definition get_range l (a b : Z) : option (list A) :=
  if (0 <=? a) && (a <=? b) && (b <=? zlen l)
  then Some (ztake (b - a) (zdrop a l)) else None.

Lemma zlen_nonneg l : 0 <= zlen l.
Proof. unfold zlen; lia. Qed.

Lemma zlen_nil : zlen (@nil A) = 0.
Proof. done. Qed.

Lemma zlen_cons x l : zlen (x :: l) = 1 + zlen l.
Proof. unfold zlen; simpl length; lia. Qed.

Lemma zlen_app l1 l2 : zlen (l1 ++ l2) = zlen l1 + zlen l2.
Proof. unfold zlen; rewrite length_app; lia. Qed.

Lemma zlen_ztake n l : 0 <= n <= zlen l -> zlen (ztake n l) = n.
Proof. unfold zlen, ztake; rewrite length_take; lia. Qed.

Lemma zlen_zdrop n l : 0 <= n <= zlen l -> zlen (zdrop n l) = zlen l - n.
Proof. unfold zlen, zdrop; rewrite length_drop; lia. Qed.

Lemma zlen_zero_inv l : zlen l = 0 -> l = [].
Proof. destruct l; [done|]. rewrite zlen_cons. pose proof (zlen_nonneg l). lia. Qed.

Lemma get_neg l i : i < 0 -> get l i = None.
Proof. intros H. unfold get. destruct (0 <=? i) eqn:E; [lia|done]. Qed.

Lemma get_nonneg l i : 0 <= i -> get l i = l !! Z.to_nat i.
Proof. intros H. unfold get. destruct (0 <=? i) eqn:E; [done|lia]. Qed.

Lemma get_Some_range l i x : get l i = Some x -> 0 <= i < zlen l.
Proof.
  unfold get, zlen. destruct (0 <=? i) eqn:E; [|done].
  intros H%lookup_lt_Some. lia.
Qed.

Lemma get_None l i : get l i = None <-> i < 0 \/ zlen l <= i.
Proof.
  unfold get, zlen. destruct (0 <=? i) eqn:E; [|split; [lia|done]].
  rewrite lookup_ge_None. lia.
Qed.

Lemma get_is_Some l i : 0 <= i < zlen l -> exists x, get l i = Some x.
Proof.
  intros H. destruct (get l i) eqn:E; [eauto|]. apply get_None in E. lia.
Qed.

Lemma get_app_l l1 l2 i : i < zlen l1 -> get (l1 ++ l2) i = get l1 i.
Proof.
  unfold get, zlen. intros H. destruct (0 <=? i) eqn:E; [|done].
  apply lookup_app_l. lia.
Qed.

Lemma get_app_r l1 l2 i : zlen l1 <= i -> get (l1 ++ l2) i = get l2 (i - zlen l1).
Proof.
  unfold get, zlen. intros H.
  destruct (0 <=? i) eqn:E; destruct (0 <=? i - _) eqn:E'; try lia; try done.
  rewrite lookup_app_r by lia. f_equal. lia.
Qed.

Lemma get_cons_0 x l : get (x :: l) 0 = Some x.
Proof. done. Qed.

Lemma get_cons_S x l i : 0 < i -> get (x :: l) i = get l (i - 1).
Proof.
  intros H. rewrite !get_nonneg by lia.
  replace (Z.to_nat i) with (S (Z.to_nat (i - 1))) by lia. done.
Qed.

Lemma get_zdrop n l i : 0 <= n -> 0 <= i -> get (zdrop n l) i = get l (n + i).
Proof.
  intros ??. rewrite !get_nonneg by lia. unfold zdrop. rewrite lookup_drop.
  f_equal. lia.
Qed.

Lemma get_ztake n l i : i < n -> get (ztake n l) i = get l i.
Proof.
  intros H. unfold get. destruct (0 <=? i) eqn:E; [|done].
  unfold ztake. rewrite lookup_take_lt by lia. done.
Qed.

Lemma ztake_zdrop n l : ztake n l ++ zdrop n l = l.
Proof. apply take_drop. Qed.

Lemma zdrop_app n l1 l2 : n = zlen l1 -> zdrop n (l1 ++ l2) = l2.
Proof. intros ->. unfold zdrop, zlen. rewrite Nat2Z.id. apply drop_app_length. Qed.

Lemma ztake_app n l1 l2 : n = zlen l1 -> ztake n (l1 ++ l2) = l1.
Proof. intros ->. unfold ztake, zlen. rewrite Nat2Z.id. apply take_app_length. Qed.

Lemma zdrop_0 l : zdrop 0 l = l.
Proof. apply drop_0. Qed.

Lemma zdrop_zdrop a b l : 0 <= a -> 0 <= b -> zdrop a (zdrop b l) = zdrop (b + a) l.
Proof.
  intros ??. unfold zdrop. rewrite drop_drop. f_equal. lia.
Qed.

Lemma zdrop_cons_get l i x : get l i = Some x -> zdrop i l = x :: zdrop (i + 1) l.
Proof.
  intros H. pose proof (get_Some_range _ _ _ H). unfold get in H.
  destruct (0 <=? i) eqn:E; [|done]. unfold zdrop.
  rewrite (drop_S l x (Z.to_nat i)) by done. do 2 f_equal. lia.
Qed.

Lemma zdrop_all l n : zlen l <= n -> zdrop n l = [].
Proof. intros H. unfold zdrop, zlen in *. apply drop_ge. lia. Qed.

Lemma ztake_all l n : zlen l <= n -> ztake n l = l.
Proof. intros H. unfold ztake, zlen in *. apply take_ge. lia. Qed.

Lemma get_range_Some l a b r :
  get_range l a b = Some r <->
  0 <= a <= b /\ b <= zlen l /\ r = ztake (b - a) (zdrop a l).
Proof.
  unfold get_range. destruct (0 <=? a) eqn:E1; destruct (a <=? b) eqn:E2;
    destruct (b <=? zlen l) eqn:E3; simpl; split; intros H; simplify_eq;
    try lia; try (destruct H as (?&?&->); done || lia); split_and!; auto; lia.
Qed.

Lemma get_range_ok l a b :
  0 <= a <= b -> b <= zlen l -> get_range l a b = Some (ztake (b - a) (zdrop a l)).
Proof. intros ??. apply get_range_Some. auto. Qed.

(** Adjacent ranges join, which is what makes concatenating the texts of
    consecutive tokens meaningful. *)
Lemma ztake_zdrop_join l a b c :
  0 <= a <= b -> b <= c <= zlen l ->
  ztake (b - a) (zdrop a l) ++ ztake (c - b) (zdrop b l) = ztake (c - a) (zdrop a l).
Proof.
  intros ??. unfold ztake, zdrop.
  replace (drop (Z.to_nat b) l) with (drop (Z.to_nat (b - a)) (drop (Z.to_nat a) l))
    by (rewrite drop_drop; f_equal; lia).
  rewrite <- (take_drop (Z.to_nat (b - a)) (take (Z.to_nat (c - a)) (drop (Z.to_nat a) l))).
  f_equal; [rewrite take_take | rewrite skipn_firstn_comm]; f_equal; lia.
Qed.
End slices.

Lemma get_map {A B} (f : A -> B) (l : list A) i : get (map f l) i = option_map f (get l i).
Proof.
  unfold get. destruct (0 <=? i); [|done].
  change (map f l) with (f <$> l). rewrite list_lookup_fmap. by destruct (l !! _).
Qed.

Create HintDb bray.
Create Rewrite HintDb zlen.
#[export] Hint Rewrite @zlen_nil @zlen_cons @zlen_app : zlen.
#[export] Hint Resolve zlen_nonneg : bray.

(** ** Binary search

    [slice::binary_search_by] of the Rust standard library: halve the size of
    the candidate window while it holds more than one element, then compare
    once more.  The fuel is the window's size, which every step decreases. *)
Fixpoint binary_search_window (fuel : nat) (l : list Z) (x : Z) (base size : Z) : Z :=
  match fuel with
  | O => base
  | S fuel' =>
      if size <=? 1 then base
      else
        let half := size / 2 in
        let mid := base + half in
        let base' := match get l mid with
                     | Some y => if x <? y then base else mid
                     | None => base
                     end in
        binary_search_window fuel' l x base' (size - half)
  end.

Definition binary_search (l : list Z) (x : Z) : result usize usize :=
  if zlen l =? 0 then Err 0
  else
    let base := binary_search_window (length l) l x 0 (zlen l) in
    match get l base with
    | Some y => if y =? x then Ok base else Err (base + (if y <? x then 1 else 0))
    | None => Err base
    end.

Definition binary_search_by_key {A} (key : A -> Z) (l : list A) (x : Z) : result usize usize :=
  binary_search (map key l) x.

Definition strictly_increasing (l : list Z) : Prop :=
  forall i j x y, get l i = Some x -> get l j = Some y -> i < j -> x < y.

Section binary_search_spec.
Context (l : list Z) (x : Z) (Hsorted : strictly_increasing l).

(** Everything before the window is at most [x]'s slot, everything after it
    is above [x]. *)
Lemma binary_search_window_spec fuel base size :
  0 <= base -> 1 <= size -> base + size <= zlen l -> size <= Z.of_nat fuel ->
  (forall y, 0 < base -> get l base = Some y -> y <= x) ->
  (forall j y, base + size <= j -> get l j = Some y -> x < y) ->
  let b := binary_search_window fuel l x base size in
  0 <= b < zlen l /\
  (forall y, 0 < b -> get l b = Some y -> y <= x) /\
  (forall j y, b + 1 <= j -> get l j = Some y -> x < y).
Proof.
  revert base size. induction fuel as [|fuel IH]; intros base size ??? Hf Hlo Hhi; [lia|].
  simpl. destruct (size <=? 1) eqn:Esize.
  { replace (base + size) with (base + 1) in Hhi by lia. split_and!; auto; lia. }
  pose proof (Z.div_lt size 2). pose proof (Z.div_le_lower_bound size 2 1).
  pose proof (Z.mul_div_le size 2).
  destruct (get_is_Some l (base + size / 2)) as [y Hy]; [lia|]. rewrite Hy.
  destruct (x <? y) eqn:Exy; apply IH; try lia; auto.
  - intros j z Hj Hz. destruct (decide (j = base + size / 2)) as [->|]; [simplify_eq; lia|].
    destruct (Z_lt_le_dec j (base + size)); [|apply (Hhi j z); [lia|done]].
    pose proof (Hsorted _ _ _ _ Hy Hz ltac:(lia)). lia.
  - intros z _ Hz. simplify_eq. lia.
  - intros j z Hj Hz. apply (Hhi j z); [lia|done].
Qed.

(** The documented contract of [binary_search] on a sorted slice. *)
Lemma binary_search_Ok i : binary_search l x = Ok i -> get l i = Some x.
Proof.
  unfold binary_search. destruct (zlen l =? 0); [done|].
  destruct (get l _) as [y|] eqn:Hy; [|done].
  destruct (y =? x) eqn:E; [|done]. intros ?; simplify_eq.
  apply Z.eqb_eq in E. by subst.
Qed.

Lemma binary_search_Err i :
  binary_search l x = Err i ->
  0 <= i <= zlen l /\
  (forall j y, j < i -> get l j = Some y -> y < x) /\
  (forall j y, i <= j -> get l j = Some y -> x < y).
Proof.
  unfold binary_search. destruct (zlen l =? 0) eqn:El.
  { intros ?; simplify_eq. apply Z.eqb_eq, zlen_zero_inv in El. subst l.
    split_and!; [done|done| |]; intros j y _ Hj; apply get_Some_range in Hj;
      unfold zlen in Hj; simpl in Hj; lia. }
  pose proof (zlen_nonneg l).
  destruct (binary_search_window_spec (length l) 0 (zlen l)) as (Hb & Hlo & Hhi);
    try (unfold zlen in *; lia); [intros j y ? Hj%get_Some_range; lia|].
  destruct (get_is_Some _ _ Hb) as [y Hy]. rewrite Hy.
  destruct (y =? x) eqn:Eyx; [done|]. intros ?; simplify_eq.
  set (b := binary_search_window _ _ _ _ _) in *.
  destruct (y <? x) eqn:Elt.
  - split_and!; try lia.
    + intros j z Hj Hz. destruct (decide (j = b)) as [->|]; [simplify_eq; lia|].
      pose proof (Hsorted j b z y Hz Hy). lia.
    + intros j z Hj Hz. apply (Hhi j z); [lia|done].
  - assert (b = 0) as Hb0.
    { destruct (decide (b = 0)); [done|]. pose proof (Hlo y ltac:(lia) Hy). lia. }
    split_and!; try lia.
    + intros j z Hj Hz%get_Some_range. lia.
    + intros j z Hj Hz. destruct (decide (j = b)) as [->|]; [simplify_eq; lia|].
      apply (Hhi j z); [lia|done].
Qed.

(** Conversely, a present key is found at its only position. *)
Lemma binary_search_found i : get l i = Some x -> binary_search l x = Ok i.
Proof.
  intros Hi. destruct (binary_search l x) as [j|j] eqn:E.
  - pose proof (binary_search_Ok _ E) as Hj. f_equal.
    destruct (Z.lt_trichotomy i j) as [Hlt|[->|Hlt]]; [|done|].
    + pose proof (Hsorted _ _ _ _ Hi Hj Hlt). lia.
    + pose proof (Hsorted _ _ _ _ Hj Hi Hlt). lia.
  - destruct (binary_search_Err _ E) as (_ & Hlo & Hhi).
    destruct (Z_lt_le_dec i j) as [H|H];
      [pose proof (Hlo i x H Hi) | pose proof (Hhi i x H Hi)]; lia.
Qed.
End binary_search_spec.

(** ** Integers as little-endian bytes *)

(** [to_le_bytes] of a [width]-byte value. *)
Fixpoint to_le_bytes (width : nat) (value : Z) : list u8 :=
  match width with
  | O => []
  | S width => value mod 256 :: to_le_bytes width (value / 256)
  end.

Definition from_le_bytes (bytes : list u8) : Z := foldr (fun byte value => byte + 256 * value) 0 bytes.

Lemma to_le_bytes_length width v : length (to_le_bytes width v) = width.
Proof. revert v. induction width as [|w IH]; intros v; simpl; [done|]. by rewrite IH. Qed.

Lemma from_to_le_bytes width v : 0 <= v < 256 ^ Z.of_nat width -> from_le_bytes (to_le_bytes width v) = v.
Proof.
  revert v. induction width as [|w IH]; intros v Hv.
  - change (256 ^ Z.of_nat 0) with 1 in Hv. simpl. lia.
  - rewrite Nat2Z.inj_succ, Z.pow_succ_r in Hv by lia. cbn [to_le_bytes from_le_bytes foldr]. fold (from_le_bytes (to_le_bytes w (v / 256))).
    rewrite IH; [pose proof (Z.div_mod v 256); lia|]. split; [apply Z.div_pos; lia|]. apply Z.div_lt_upper_bound; lia.
Qed.

Lemma from_le_bytes_range bytes : Forall in_u8 bytes -> 0 <= from_le_bytes bytes < 256 ^ zlen bytes.
Proof.
  induction 1 as [|b bytes Hb _ IH]; [done|]. rewrite zlen_cons. cbn [from_le_bytes foldr]. fold (from_le_bytes bytes).
  pose proof (zlen_nonneg bytes). unfold in_u8 in Hb. replace (1 + zlen bytes) with (Z.succ (zlen bytes)) by lia.
  rewrite Z.pow_succ_r by lia. lia.
Qed.

Lemma to_from_le_bytes bytes : Forall in_u8 bytes -> to_le_bytes (length bytes) (from_le_bytes bytes) = bytes.
Proof.
  induction 1 as [|b bytes Hb _ IH]; [done|]. cbn [length to_le_bytes from_le_bytes foldr]. fold (from_le_bytes bytes).
  unfold in_u8 in Hb. rewrite (Z.mul_comm 256), Z.div_add, Z.mod_add, Z.div_small, Z.mod_small, Z.add_0_l by lia. by rewrite IH.
Qed.

Lemma to_le_bytes_bytes width v : Forall in_u8 (to_le_bytes width v).
Proof.
  revert v. induction width as [|w IH]; intros v; simpl; constructor; [|done]. pose proof (Z.mod_pos_bound v 256). unfold in_u8. lia.
Qed.
