(* ===== verification/Utf8.v ===== *)
(** * UTF-8 text

    What the front end uses of Rust's [char] and [str]: scalar values, their
    encodings, decoding of the scalar at the front of a slice, character
    boundaries, [str::get] and the validating constructor
    [String::from_utf8].  A [str] is its list of bytes.  A byte list is valid
    ([valid_utf8]) when it is the encoding of a list of Unicode scalar values,
    and an offset is a [boundary] when it splits that list.  The lemmas of the
    second half are the ones the lexer and the source components rest on. *)

From Stdlib Require Import ZArith Lia String Ascii.
From stdpp Require Import base list numbers option.
From S2P Require Import Prelude.

Abbreviation char := Z.
Abbreviation str := (list Z).

(** The bytes of a literal. *)
Definition lit (s : string) : str :=
  map (fun a => Z.of_N (N_of_ascii a)) (list_ascii_of_string s).

(** ** Scalars and their encodings *)

Definition is_scalar (c : char) : bool :=
  ((0 <=? c) && (c <? 0xD800)) || ((0xE000 <=? c) && (c <=? 0x10FFFF)).

(** [char::from_u32]. *)
Definition char_from_u32 (x : u32) : option char :=
  if is_scalar x then Some x else None.

Definition len_utf8 (c : char) : usize :=
  if c <? 0x80 then 1 else if c <? 0x800 then 2 else if c <? 0x10000 then 3 else 4.

Definition len_utf16 (c : char) : usize :=
  if c <? 0x10000 then 1 else 2.

Definition cont_byte (c : Z) (shift : Z) : u8 :=
  Z.lor (Z.land (Z.shiftr c shift) 0x3F) 0x80.

Definition encode_utf8 (c : char) : list u8 :=
  if c <? 0x80 then [c]
  else if c <? 0x800 then
    [Z.lor (Z.land (Z.shiftr c 6) 0x1F) 0xC0; cont_byte c 0]
  else if c <? 0x10000 then
    [Z.lor (Z.land (Z.shiftr c 12) 0x0F) 0xE0; cont_byte c 6; cont_byte c 0]
  else
    [Z.lor (Z.land (Z.shiftr c 18) 0x07) 0xF0; cont_byte c 12; cont_byte c 6; cont_byte c 0].

Definition utf8 (cs : list char) : str := concat (map encode_utf8 cs).

Definition scalars (cs : list char) : Prop := Forall (fun c => is_scalar c = true) cs.

Definition valid_utf8 (bs : str) : Prop := exists cs, scalars cs /\ bs = utf8 cs.

(** [str::chars().next()]: decode the leading scalar. *)
Definition acc_cont (acc y : Z) : Z := Z.lor (Z.shiftl acc 6) (Z.land y 0x3F).

Definition first_char (bs : str) : option char :=
  match bs with
  | [] => None
  | x :: rest =>
      if x <? 0x80 then Some x
      else
        let init := Z.land x 0x1F in
        match rest with
        | [] => None
        | y :: rest =>
            if x <? 0xE0 then Some (acc_cont init y)
            else match rest with
                 | [] => None
                 | z :: rest =>
                     let y_z := acc_cont (Z.land y 0x3F) z in
                     if x <? 0xF0 then Some (Z.lor (Z.shiftl init 12) y_z)
                     else match rest with
                          | [] => None
                          | w :: _ =>
                              Some (Z.lor (Z.shiftl (Z.land init 7) 18) (acc_cont y_z w))
                          end
                 end
        end
  end.

(** [str::char_indices()], as the list of byte offsets with their scalars. *)
Fixpoint char_indices_from (fuel : nat) (offset : Z) (bs : str) : list (Z * char) :=
  match fuel with
  | O => []
  | S fuel' =>
      match first_char bs with
      | None => []
      | Some c => (offset, c) :: char_indices_from fuel' (offset + len_utf8 c) (zdrop (len_utf8 c) bs)
      end
  end.

Definition char_indices (bs : str) : list (Z * char) := char_indices_from (length bs) 0 bs.

(** ** Boundaries and slicing *)

Definition is_cont (b : u8) : bool := (0x80 <=? b) && (b <? 0xC0).

(** [str::is_char_boundary]. *)
Definition is_char_boundary (bs : str) (i : Z) : bool :=
  if i =? 0 then true
  else match get bs i with
       | Some b => negb (is_cont b)
       | None => i =? zlen bs
       end.

(** [text.get(i..)], [text.get(..i)] and [text.get(a..b)]. *)
Definition str_get_from (bs : str) (i : Z) : option str :=
  if (0 <=? i) && (i <=? zlen bs) && is_char_boundary bs i then Some (zdrop i bs) else None.

Definition str_get_to (bs : str) (i : Z) : option str :=
  if (0 <=? i) && (i <=? zlen bs) && is_char_boundary bs i then Some (ztake i bs) else None.

Definition str_get (bs : str) (a b : Z) : option str :=
  if is_char_boundary bs a && is_char_boundary bs b then get_range bs a b else None.

(** [str::starts_with]. *)
Fixpoint starts_with (bs prefix : str) {struct prefix} : bool :=
  match prefix, bs with
  | [], _ => true
  | p :: prefix', b :: bs' => (p =? b) && starts_with bs' prefix'
  | _ :: _, [] => false
  end.

(** ** Validation: [core::str::from_utf8]

    An error carries the length of the longest valid prefix and the length of
    the offending sequence, [None] when the input ends inside a sequence. *)
Record Utf8Error := { valid_up_to : Z; error_len : option Z }.

Definition in_range (lo hi b : Z) : bool := (lo <=? b) && (b <=? hi).

Definition utf8_char_width (b : u8) : Z :=
  if b <? 0x80 then 1
  else if in_range 0xC2 0xDF b then 2
  else if in_range 0xE0 0xEF b then 3
  else if in_range 0xF0 0xF4 b then 4
  else 0.

Definition second_of_three (first second : u8) : bool :=
  ((first =? 0xE0) && in_range 0xA0 0xBF second)
  || (in_range 0xE1 0xEC first && in_range 0x80 0xBF second)
  || ((first =? 0xED) && in_range 0x80 0x9F second)
  || (in_range 0xEE 0xEF first && in_range 0x80 0xBF second).

Definition second_of_four (first second : u8) : bool :=
  ((first =? 0xF0) && in_range 0x90 0xBF second)
  || (in_range 0xF1 0xF3 first && in_range 0x80 0xBF second)
  || ((first =? 0xF4) && in_range 0x80 0x8F second).

(** One sequence at [index]: its width, or the [error_len] of the failure. *)
Definition validate_sequence (v : str) (index : Z) (first : u8) : result Z (option Z) :=
  let next k := ok_or (get v (index + k)) None in
  let cont k width := let? b := next k in
                      if is_cont b then Ok width else Err (Some k) in
  match utf8_char_width first with
  | 1 => Ok 1
  | 2 => cont 1 2
  | 3 => let? second := next 1 in
         if second_of_three first second then cont 2 3 else Err (Some 1)
  | 4 => let? second := next 1 in
         if second_of_four first second
         then let? _ := cont 2 3 in cont 3 4
         else Err (Some 1)
  | _ => Err (Some 1)
  end.

Fixpoint run_utf8_validation (fuel : nat) (v : str) (index : Z) : result unit Utf8Error :=
  match fuel with
  | O => Ok tt
  | S fuel' =>
      match get v index with
      | None => Ok tt
      | Some first =>
          match validate_sequence v index first with
          | Ok width => run_utf8_validation fuel' v (index + width)
          | Err len => Err {| valid_up_to := index; error_len := len |}
          end
      end
  end.

Definition from_utf8 (v : list u8) : result str Utf8Error :=
  let? _ := run_utf8_validation (S (length v)) v 0 in Ok v.

(** ** Arithmetic of the encoding

    The bit operations above, as arithmetic on the base-64 digits of the
    scalar, which [lia] decides. *)

#[local] Ltac Zify.zify_post_hook ::= Z.to_euclidean_division_equations.

Lemma land_disjoint a b k : 0 <= k -> 0 <= a < 2 ^ k -> Z.land a (b * 2 ^ k) = 0.
Proof.
  intros Hk Ha. apply Z.bits_inj'. intros n Hn. rewrite Z.land_spec, Z.bits_0.
  destruct (Z_lt_le_dec n k) as [H|H].
  - rewrite Z.mul_pow2_bits_low by lia. apply andb_false_r.
  - rewrite <- (Z.mod_small a (2 ^ k)), Z.mod_pow2_bits_high by lia. done.
Qed.

Lemma lor_disjoint a b k : 0 <= k -> 0 <= a < 2 ^ k -> Z.lor a (b * 2 ^ k) = a + b * 2 ^ k.
Proof.
  intros Hk Ha. pose proof (land_disjoint a b k Hk Ha) as Hl.
  rewrite (Z.add_nocarry_lxor _ _ Hl). symmetry. by apply Z.lxor_lor.
Qed.

Lemma land_ones_mod a k : 0 <= k -> Z.land a (2 ^ k - 1) = a mod 2 ^ k.
Proof. intros H. rewrite <- Z.land_ones by lia. f_equal. rewrite Z.ones_equiv. lia. Qed.

Lemma land_3f a : Z.land a 0x3F = a mod 64.
Proof. by apply (land_ones_mod a 6). Qed.

Lemma land_1f a : Z.land a 0x1F = a mod 32.
Proof. by apply (land_ones_mod a 5). Qed.

Lemma land_7 a : Z.land a 7 = a mod 8.
Proof. by apply (land_ones_mod a 3). Qed.

Lemma cont_payload a : (128 + a mod 64) mod 64 = a mod 64.
Proof. lia. Qed.

Lemma cont_byte_arith c s : 0 <= s -> cont_byte c s = 128 + c / 2 ^ s mod 64.
Proof.
  intros Hs. unfold cont_byte. rewrite Z.shiftr_div_pow2 by lia.
  rewrite (land_ones_mod _ 6) by lia.
  rewrite (lor_disjoint _ 2 6) by lia. lia.
Qed.

Lemma acc_cont_arith acc y : 0 <= acc -> acc_cont acc y = acc * 64 + y mod 64.
Proof.
  intros Ha. unfold acc_cont. rewrite (land_ones_mod _ 6), Z.shiftl_mul_pow2 by lia.
  rewrite Z.lor_comm, lor_disjoint by lia. lia.
Qed.

Lemma lead_byte_arith c s k t :
  0 <= c -> 0 <= s -> 0 <= k -> c / 2 ^ s < 2 ^ k ->
  Z.lor (Z.land (Z.shiftr c s) (2 ^ k - 1)) (t * 2 ^ k) = t * 2 ^ k + c / 2 ^ s.
Proof.
  intros Hc Hs Hk Hlt. rewrite Z.shiftr_div_pow2, land_ones_mod by lia.
  pose proof (Z.div_pos c (2 ^ s) Hc ltac:(lia)).
  rewrite Z.mod_small by lia. rewrite lor_disjoint by lia. lia.
Qed.

Inductive encoding (c : char) : list u8 -> Prop :=
| encoding_1 : 0 <= c < 0x80 -> encoding c [c]
| encoding_2 b1 b2 :
    0x80 <= c < 0x800 -> b1 = 192 + c / 64 -> b2 = 128 + c mod 64 ->
    encoding c [b1; b2]
| encoding_3 b1 b2 b3 :
    0x800 <= c < 0xD800 \/ 0xE000 <= c < 0x10000 ->
    b1 = 224 + c / 64 / 64 -> b2 = 128 + c / 64 mod 64 -> b3 = 128 + c mod 64 ->
    encoding c [b1; b2; b3]
| encoding_4 b1 b2 b3 b4 :
    0x10000 <= c <= 0x10FFFF ->
    b1 = 240 + c / 64 / 64 / 64 -> b2 = 128 + c / 64 / 64 mod 64 ->
    b3 = 128 + c / 64 mod 64 -> b4 = 128 + c mod 64 ->
    encoding c [b1; b2; b3; b4].

Lemma is_scalar_range c :
  is_scalar c = true <-> 0 <= c < 0xD800 \/ 0xE000 <= c <= 0x10FFFF.
Proof. unfold is_scalar. lia. Qed.

Lemma encode_utf8_encoding c : is_scalar c = true -> encoding c (encode_utf8 c).
Proof.
  intros Hc%is_scalar_range. unfold encode_utf8.
  rewrite !cont_byte_arith by lia. rewrite Z.pow_0_r, Z.div_1_r.
  destruct (c <? 0x80) eqn:E1; [apply encoding_1; lia|].
  destruct (c <? 0x800) eqn:E2.
  { apply encoding_2; [lia| |lia]. etransitivity; [apply (lead_byte_arith c 6 5 6)|]; lia. }
  destruct (c <? 0x10000) eqn:E3.
  { apply encoding_3; [lia| |done|lia]. etransitivity; [apply (lead_byte_arith c 12 4 14)|]; lia. }
  apply encoding_4; [lia| |lia|done|lia]. etransitivity; [apply (lead_byte_arith c 18 3 30)|]; lia.
Qed.

Lemma encoding_len c bs : encoding c bs -> zlen bs = len_utf8 c.
Proof. unfold len_utf8, zlen. intros []; simpl; repeat case_match; lia. Qed.

Lemma encode_utf8_len c : is_scalar c = true -> zlen (encode_utf8 c) = len_utf8 c.
Proof. intros H. by apply encoding_len, encode_utf8_encoding. Qed.

Lemma len_utf8_range c : 1 <= len_utf8 c <= 4.
Proof. unfold len_utf8. repeat case_match; lia. Qed.

Lemma len_utf16_le_utf8 c : 1 <= len_utf16 c <= len_utf8 c.
Proof. unfold len_utf8, len_utf16. repeat case_match; lia. Qed.

(** Decoding inverts encoding, whatever follows. *)
Lemma first_char_encoding c bs rest : encoding c bs -> first_char (bs ++ rest) = Some c.
Proof.
  intros []; simpl; subst;
    repeat match goal with |- context [?a <? ?b] =>
             let E := fresh in destruct (a <? b) eqn:E; [try lia|try lia] end;
    try done; f_equal;
    rewrite ?land_1f, ?land_3f, ?land_7;
    rewrite ?acc_cont_arith, ?cont_payload by lia; rewrite ?Z.shiftl_mul_pow2 by lia.
  - lia.
  - rewrite Z.lor_comm, lor_disjoint; change (2 ^ 12) with 4096; lia.
  - rewrite (acc_cont_arith (_ mod 64)), !acc_cont_arith, !cont_payload by lia.
    replace ((240 + c / 64 / 64 / 64) mod 32 mod 8) with (c / 64 / 64 / 64) by lia.
    rewrite Z.lor_comm, lor_disjoint; change (2 ^ 18) with 262144; lia.
Qed.

Lemma first_char_encode c rest :
  is_scalar c = true -> first_char (encode_utf8 c ++ rest) = Some c.
Proof. intros H. by apply first_char_encoding, encode_utf8_encoding. Qed.

(** ** Boundaries *)

Lemma utf8_cons c cs : utf8 (c :: cs) = encode_utf8 c ++ utf8 cs.
Proof. done. Qed.

Lemma utf8_nil : utf8 [] = [].
Proof. done. Qed.

Lemma utf8_single c : utf8 [c] = encode_utf8 c.
Proof. rewrite utf8_cons, utf8_nil. apply app_nil_r. Qed.

Lemma utf8_app cs1 cs2 : utf8 (cs1 ++ cs2) = utf8 cs1 ++ utf8 cs2.
Proof. unfold utf8. by rewrite map_app, concat_app. Qed.

Lemma first_char_valid c cs : scalars (c :: cs) -> first_char (utf8 (c :: cs)) = Some c.
Proof. intros H. apply first_char_encode. by inversion H. Qed.

(** An offset that splits the scalars of a text. *)
Definition boundary (bs : str) (i : Z) : Prop :=
  exists pre post, scalars pre /\ scalars post /\ bs = utf8 pre ++ utf8 post /\ i = zlen (utf8 pre).

Lemma boundary_range bs i : boundary bs i -> 0 <= i <= zlen bs.
Proof.
  intros (pre & post & _ & _ & -> & ->). rewrite zlen_app.
  pose proof (zlen_nonneg (utf8 pre)). pose proof (zlen_nonneg (utf8 post)). lia.
Qed.

Lemma boundary_valid bs i : boundary bs i -> valid_utf8 bs.
Proof.
  intros (pre & post & H1 & H2 & -> & _). exists (pre ++ post).
  split; [by apply Forall_app|by rewrite utf8_app].
Qed.

Lemma boundary_0 bs : valid_utf8 bs -> boundary bs 0.
Proof. intros (cs & H & ->). exists [], cs. split_and!; try done. by constructor. Qed.

Lemma boundary_len bs : valid_utf8 bs -> boundary bs (zlen bs).
Proof.
  intros (cs & H & ->). exists cs, []. split_and!; try done; [by constructor|].
  by rewrite app_nil_r.
Qed.

Lemma boundary_zdrop_valid bs i : boundary bs i -> valid_utf8 (zdrop i bs).
Proof.
  intros (pre & post & _ & H & -> & ->). rewrite zdrop_app by done. by exists post.
Qed.

Lemma boundary_ztake_valid bs i : boundary bs i -> valid_utf8 (ztake i bs).
Proof.
  intros (pre & post & H & _ & -> & ->). rewrite ztake_app by done. by exists pre.
Qed.

(** The scalar at a boundary, and the boundary after it. *)
Lemma boundary_step bs i :
  boundary bs i -> i < zlen bs ->
  exists c, first_char (zdrop i bs) = Some c /\ is_scalar c = true /\ boundary bs (i + len_utf8 c).
Proof.
  intros (pre & post & Hpre & Hpost & -> & ->) Hlt. rewrite zdrop_app by done.
  destruct post as [|c post]; [rewrite zlen_app, utf8_nil, zlen_nil in Hlt; lia|].
  exists c. inversion Hpost as [|? ? Hc Hpost']; subst. split_and!; [by apply first_char_valid|done|].
  exists (pre ++ [c]), post. split_and!; [by apply Forall_app; split; [|constructor]|done| |].
  - by rewrite utf8_app, utf8_single, utf8_cons, <- app_assoc.
  - by rewrite utf8_app, zlen_app, utf8_single, encode_utf8_len.
Qed.

Lemma first_char_None_len bs i : boundary bs i -> first_char (zdrop i bs) = None -> i = zlen bs.
Proof.
  intros Hb Hf. pose proof (boundary_range _ _ Hb).
  destruct (Z_lt_le_dec i (zlen bs)) as [H'|]; [|lia].
  destruct (boundary_step _ _ Hb H') as (c & Hc & _). congruence.
Qed.

(** Lead bytes are not continuation bytes, the other bytes of an encoding
    are. *)
Lemma encoding_lead c bs : encoding c bs ->
  exists b rest, bs = b :: rest /\ is_cont b = false /\ (b < 128 -> b = c /\ rest = []) /\
  (128 <= b -> 128 <= c).
Proof. intros []; subst; eexists _, _; split_and!; try done; unfold is_cont; lia. Qed.

Lemma encoding_cont c bs i b :
  encoding c bs -> 0 < i -> get bs i = Some b -> is_cont b = true.
Proof.
  intros H Hi Hb. pose proof (get_Some_range _ _ _ Hb) as Hr.
  destruct H as [|b1 b2|b1 b2 b3|b1 b2 b3 b4]; unfold zlen in Hr; simpl in Hr; [lia| | |];
    assert (i = 1 \/ i = 2 \/ i = 3) as [-> | [-> | ->]] by lia; try lia;
    cbv in Hb; simplify_eq; unfold is_cont; lia.
Qed.

Lemma boundary_is_char_boundary bs i : boundary bs i -> is_char_boundary bs i = true.
Proof.
  intros Hb. unfold is_char_boundary. destruct (i =? 0); [done|].
  destruct (get bs i) as [b|] eqn:Hg.
  - destruct Hb as (pre & post & _ & Hpost & -> & ->).
    rewrite get_app_r, Z.sub_diag in Hg by lia.
    destruct post as [|c post]; [done|]. inversion Hpost as [|? ? Hc]; subst.
    destruct (encoding_lead _ _ (encode_utf8_encoding c Hc)) as (b' & r & He & Hn & _).
    rewrite utf8_cons, He in Hg. simpl in Hg. rewrite get_cons_0 in Hg. simplify_eq.
    by rewrite Hn.
  - apply get_None in Hg. pose proof (boundary_range _ _ Hb). lia.
Qed.

Lemma is_char_boundary_boundary bs i :
  valid_utf8 bs -> 0 <= i <= zlen bs -> is_char_boundary bs i = true -> boundary bs i.
Proof.
  intros (cs & Hcs & ->). revert i. induction cs as [|c cs IH]; intros i Hr Hb.
  { unfold utf8, zlen in Hr. simpl in Hr. replace i with 0 by lia.
    apply boundary_0. by exists []. }
  inversion Hcs as [|? ? Hc Hcs']; subst.
  destruct (decide (i = 0)) as [->|Hi]; [apply boundary_0; by exists (c :: cs)|].
  rewrite utf8_cons, zlen_app in *. pose proof (encode_utf8_len c Hc) as Hl.
  unfold is_char_boundary in Hb. destruct (i =? 0) eqn:Ei; [lia|].
  destruct (Z_lt_le_dec i (len_utf8 c)) as [Hlt|Hge].
  { rewrite get_app_l in Hb by lia.
    destruct (get_is_Some (encode_utf8 c) i) as [b Hg]; [lia|]. rewrite Hg in Hb.
    rewrite (encoding_cont c (encode_utf8 c) i b) in Hb;
      [done|by apply encode_utf8_encoding|lia|done]. }
  destruct (IH Hcs' (i - len_utf8 c)) as (pre & post & Hpre & Hpost & Heq & Hz).
  - lia.
  - unfold is_char_boundary. destruct (i - len_utf8 c =? 0) eqn:E0; [done|].
    rewrite get_app_r in Hb by lia. rewrite Hl in Hb.
    destruct (get (utf8 cs) (i - len_utf8 c)); [done|rewrite zlen_app in Hb; lia].
  - exists (c :: pre), post. split_and!; [by constructor|done| |].
    + rewrite utf8_cons, <- app_assoc. by rewrite Heq.
    + rewrite utf8_cons, zlen_app. lia.
Qed.

(** Byte-oriented scanning stays on boundaries: an ASCII byte is a whole
    scalar wherever it occurs in a valid text. *)
Lemma ascii_boundary bs i b : valid_utf8 bs -> get bs i = Some b -> b < 128 -> boundary bs i.
Proof.
  intros Hv Hg Hb. pose proof (get_Some_range _ _ _ Hg).
  apply is_char_boundary_boundary; [done|lia|]. unfold is_char_boundary.
  destruct (i =? 0); [done|]. rewrite Hg. unfold is_cont. lia.
Qed.

Lemma boundary_first bs i b :
  boundary bs i -> get bs i = Some b ->
  exists c, first_char (zdrop i bs) = Some c /\ is_scalar c = true /\
    boundary bs (i + len_utf8 c) /\ (b < 128 -> c = b) /\ (128 <= b -> 128 <= c).
Proof.
  intros Hb Hg. pose proof (get_Some_range _ _ _ Hg).
  destruct (boundary_step _ _ Hb ltac:(lia)) as (c & Hf & Hc & Hn).
  exists c. split_and!; try done.
  - intros Hlt. rewrite (zdrop_cons_get _ _ _ Hg) in Hf. simpl in Hf.
    destruct (b <? 128) eqn:E; [by simplify_eq|lia].
  - destruct Hb as (pre & post & _ & Hpost & -> & ->).
    rewrite zdrop_app in Hf by done. rewrite get_app_r, Z.sub_diag in Hg by lia.
    destruct post as [|c' post]; [done|]. rewrite first_char_valid in Hf by done. simplify_eq.
    destruct (encoding_lead _ _ (encode_utf8_encoding c Hc)) as (b' & r & He & _ & _ & Hge).
    rewrite utf8_cons, He in Hg. simpl in Hg. rewrite get_cons_0 in Hg. by simplify_eq.
Qed.

Lemma ascii_next_boundary bs i b :
  valid_utf8 bs -> get bs i = Some b -> 0 <= b < 128 -> boundary bs (i + 1).
Proof.
  intros Hv Hg Hb. pose proof (ascii_boundary _ _ _ Hv Hg ltac:(lia)) as Hi.
  destruct (boundary_first _ _ _ Hi Hg) as (c & _ & _ & Hn & Hc & _).
  rewrite Hc in Hn by lia. unfold len_utf8 in Hn. destruct (b <? 128) eqn:E; [done|lia].
Qed.

Lemma valid_bytes bs i b : valid_utf8 bs -> get bs i = Some b -> 0 <= b < 256.
Proof.
  intros (cs & Hcs & ->). revert i. induction Hcs as [|c cs Hc Hcs IH]; intros i Hg.
  { apply get_Some_range in Hg. change (zlen (utf8 [])) with 0 in Hg. lia. }
  rewrite utf8_cons in Hg. destruct (Z_lt_le_dec i (zlen (encode_utf8 c))) as [H|H];
    [|rewrite get_app_r in Hg by done; by eapply IH].
  rewrite get_app_l in Hg by done. apply encode_utf8_encoding in Hc.
  pose proof (get_Some_range _ _ _ Hg) as Hr.
  destruct Hc as [|b1 b2|b1 b2 b3|b1 b2 b3 b4]; unfold zlen in Hr; simpl in Hr;
    assert (i = 0 \/ i = 1 \/ i = 2 \/ i = 3) as [-> | [-> | [-> | ->]]] by lia; try lia;
    cbv in Hg; simplify_eq; lia.
Qed.

(** Two boundaries delimit a valid substring. *)
Lemma boundary_drop bs a b :
  boundary bs a -> boundary bs b -> a <= b -> boundary (zdrop a bs) (b - a).
Proof.
  intros Ha Hb Hle. pose proof (boundary_range _ _ Ha). pose proof (boundary_range _ _ Hb).
  apply is_char_boundary_boundary; [by apply boundary_zdrop_valid|rewrite zlen_zdrop; lia|].
  pose proof (boundary_is_char_boundary _ _ Hb) as H'. unfold is_char_boundary in *.
  destruct (b - a =? 0) eqn:E0; [done|]. destruct (b =? 0) eqn:E1; [lia|].
  rewrite get_zdrop by lia. replace (a + (b - a)) with b by lia.
  destruct (get bs b); [done|]. rewrite zlen_zdrop by lia. lia.
Qed.

Lemma str_get_from_boundary bs i : boundary bs i -> str_get_from bs i = Some (zdrop i bs).
Proof.
  intros H. unfold str_get_from. rewrite boundary_is_char_boundary by done.
  pose proof (boundary_range _ _ H). destruct (0 <=? i) eqn:?, (i <=? zlen bs) eqn:?; done || lia.
Qed.

Lemma str_get_to_boundary bs i : boundary bs i -> str_get_to bs i = Some (ztake i bs).
Proof.
  intros H. unfold str_get_to. rewrite boundary_is_char_boundary by done.
  pose proof (boundary_range _ _ H). destruct (0 <=? i) eqn:?, (i <=? zlen bs) eqn:?; done || lia.
Qed.

Lemma str_get_boundary bs a b :
  boundary bs a -> boundary bs b -> a <= b ->
  str_get bs a b = Some (ztake (b - a) (zdrop a bs)).
Proof.
  intros Ha Hb Hle. unfold str_get. rewrite !boundary_is_char_boundary by done. simpl.
  pose proof (boundary_range _ _ Ha). pose proof (boundary_range _ _ Hb).
  apply get_range_ok; lia.
Qed.

Lemma str_get_from_Some bs i r :
  valid_utf8 bs -> str_get_from bs i = Some r -> boundary bs i /\ r = zdrop i bs.
Proof.
  unfold str_get_from. intros Hv. destruct (0 <=? i) eqn:?, (i <=? zlen bs) eqn:?; try done.
  simpl. destruct (is_char_boundary bs i) eqn:E; [|done]. intros ?; simplify_eq.
  split; [|done]. apply is_char_boundary_boundary; [done|lia|done].
Qed.

Lemma str_get_to_Some bs i r :
  valid_utf8 bs -> str_get_to bs i = Some r -> boundary bs i /\ r = ztake i bs.
Proof.
  unfold str_get_to. intros Hv. destruct (0 <=? i) eqn:?, (i <=? zlen bs) eqn:?; try done.
  simpl. destruct (is_char_boundary bs i) eqn:E; [|done]. intros ?; simplify_eq.
  split; [|done]. apply is_char_boundary_boundary; [done|lia|done].
Qed.

Lemma str_get_Some bs a b r :
  valid_utf8 bs -> str_get bs a b = Some r ->
  boundary bs a /\ boundary bs b /\ a <= b /\ r = ztake (b - a) (zdrop a bs).
Proof.
  unfold str_get. intros Hv. destruct (is_char_boundary bs a) eqn:Ea; [|done].
  destruct (is_char_boundary bs b) eqn:Eb; [|done]. simpl.
  intros (? & ? & ->)%get_range_Some.
  split_and!; [apply is_char_boundary_boundary; [done|lia|done]..|lia|done].
Qed.

Lemma valid_utf8_app bs1 bs2 : valid_utf8 bs1 -> valid_utf8 bs2 -> valid_utf8 (bs1 ++ bs2).
Proof.
  intros (cs1 & H1 & ->) (cs2 & H2 & ->). exists (cs1 ++ cs2).
  split; [by apply Forall_app|by rewrite utf8_app].
Qed.

#[export] Hint Resolve boundary_range boundary_valid boundary_0 boundary_len : bray.

(** ** Correctness of the validator *)

Lemma encoding_det c bs1 bs2 : encoding c bs1 -> encoding c bs2 -> bs1 = bs2.
Proof. intros [] []; subst; done || lia. Qed.

Lemma encoding_encode c bs : encoding c bs -> is_scalar c = true /\ bs = encode_utf8 c.
Proof.
  intros H. assert (is_scalar c = true) as Hc by (apply is_scalar_range; destruct H; lia).
  split; [done|]. by eapply encoding_det, encode_utf8_encoding.
Qed.

Lemma utf8_char_width_cases b : in_u8 b ->
  (utf8_char_width b = 1 /\ b < 0x80) \/ (utf8_char_width b = 2 /\ 0xC2 <= b <= 0xDF) \/
  (utf8_char_width b = 3 /\ 0xE0 <= b <= 0xEF) \/ (utf8_char_width b = 4 /\ 0xF0 <= b <= 0xF4) \/
  (utf8_char_width b = 0).
Proof. unfold utf8_char_width, in_range, in_u8. repeat case_match; lia. Qed.

Lemma utf8_char_width_lead c b rest :
  encoding c (b :: rest) -> utf8_char_width b = len_utf8 c.
Proof.
  unfold utf8_char_width, in_range, len_utf8.
  intros H; inversion H; subst; repeat case_match; lia.
Qed.

Lemma validate_sequence_shift v index first :
  0 <= index -> validate_sequence v index first = validate_sequence (zdrop index v) 0 first.
Proof.
  intros Hi. unfold validate_sequence, result_bind.
  by rewrite !get_zdrop, !Z.add_0_l by lia.
Qed.

(** Evaluate the constant indices of [validate_sequence] in a literal list. *)
Ltac get_literal :=
  repeat match goal with
  | |- context [get (?a :: ?b :: ?r) (0 + 1)] =>
      change (get (a :: b :: r) (0 + 1)) with (Some b)
  | |- context [get (?a :: ?b :: ?c :: ?r) (0 + 2)] =>
      change (get (a :: b :: c :: r) (0 + 2)) with (Some c)
  | |- context [get (?a :: ?b :: ?c :: ?d :: ?r) (0 + 3)] =>
      change (get (a :: b :: c :: d :: r) (0 + 3)) with (Some d)
  | |- context [get [?a] (0 + 1)] => change (get [a] (0 + 1)) with (@None Z)
  | |- context [get [?a; ?b] (0 + 2)] => change (get [a; b] (0 + 2)) with (@None Z)
  | |- context [get [?a; ?b; ?c] (0 + 3)] => change (get [a; b; c] (0 + 3)) with (@None Z)
  end; simpl.

(** What [validate_sequence] accepts is exactly one encoded scalar. *)
Lemma validate_sequence_complete c bs post first :
  encoding c bs -> get bs 0 = Some first ->
  validate_sequence (bs ++ post) 0 first = Ok (len_utf8 c).
Proof.
  intros He Hf. destruct bs as [|b rest]; [inversion He|].
  rewrite get_cons_0 in Hf. simplify_eq.
  unfold validate_sequence. rewrite (utf8_char_width_lead _ _ _ He).
  unfold second_of_three, second_of_four, in_range, is_cont.
  inversion He; subst; unfold len_utf8; repeat case_match; try lia; try done; simpl app; get_literal;
    repeat (match goal with |- context [if ?b then _ else _] => destruct b eqn:?; [|lia] end; simpl);
    done.
Qed.

Lemma validate_sequence_sound bs first width :
  Forall in_u8 bs -> get bs 0 = Some first -> validate_sequence bs 0 first = Ok width ->
  exists c post, is_scalar c = true /\ bs = encode_utf8 c ++ post /\ width = len_utf8 c.
Proof.
  intros Hu Hf Hw.
  enough (exists c e post, encoding c e /\ bs = e ++ post /\ zlen e = width)
    as (c & e & post & He & -> & <-).
  { destruct (encoding_encode _ _ He) as [Hc ->]. exists c, post.
    split_and!; [done|done|by apply encode_utf8_len]. }
  destruct bs as [|b1 bs]; [done|]. rewrite get_cons_0 in Hf. simplify_eq.
  assert (in_u8 first) as Hb1 by (by inversion Hu). clear Hu.
  unfold validate_sequence in Hw.
  destruct (utf8_char_width_cases first Hb1) as [[Hc ?]|[[Hc ?]|[[Hc ?]|[[Hc ?]|Hc]]]];
    rewrite Hc in Hw; [| | | |done]; clear Hc.
  { simplify_eq. unfold in_u8 in Hb1. exists first, [first], bs.
    split_and!; [constructor; lia|done|done]. }
  all: revert Hw; destruct bs as [|b2 bs]; get_literal; [done|].
  { destruct (is_cont b2) eqn:H2; [|done]. intros; simplify_eq. unfold is_cont in H2.
    exists ((first - 192) * 64 + (b2 - 128)), [first; b2], bs.
    split_and!; [constructor; lia|done|done]. }
  { destruct (second_of_three first b2) eqn:H2; [|done].
    destruct bs as [|b3 bs]; get_literal; [done|].
    destruct (is_cont b3) eqn:H3; [|done]. intros; simplify_eq.
    unfold second_of_three, in_range in H2. unfold is_cont in H3.
    exists (((first - 224) * 64 + (b2 - 128)) * 64 + (b3 - 128)), [first; b2; b3], bs.
    split_and!; [constructor; lia|done|done]. }
  destruct (second_of_four first b2) eqn:H2; [|done].
  destruct bs as [|b3 bs]; get_literal; [done|]. destruct (is_cont b3) eqn:H3; [|done].
  destruct bs as [|b4 bs]; get_literal; [done|]. destruct (is_cont b4) eqn:H4; [|done].
  intros; simplify_eq. unfold second_of_four, in_range in H2. unfold is_cont in H3, H4.
  exists ((((first - 240) * 64 + (b2 - 128)) * 64 + (b3 - 128)) * 64 + (b4 - 128)),
    [first; b2; b3; b4], bs.
  split_and!; [constructor; lia|done|done].
Qed.

Lemma utf8_head_inv cs c post :
  scalars cs -> is_scalar c = true -> utf8 cs = encode_utf8 c ++ post ->
  exists cs', scalars cs' /\ post = utf8 cs'.
Proof.
  intros Hcs Hc Heq. pose proof (first_char_encode c post Hc) as Hf. rewrite <- Heq in Hf.
  destruct cs as [|c' cs]; [done|]. rewrite first_char_valid in Hf by done. simplify_eq.
  rewrite utf8_cons in Heq. exists cs. split; [by inversion Hcs|]. by simplify_list_eq.
Qed.

Lemma utf8_prefix_inv cs pre rest :
  scalars cs -> scalars pre -> utf8 cs = utf8 pre ++ rest ->
  exists post, scalars post /\ rest = utf8 post.
Proof.
  intros Hcs Hpre. revert cs Hcs. induction Hpre as [|c pre Hc Hpre IH]; intros cs Hcs Heq.
  { by exists cs. }
  rewrite utf8_cons, <- app_assoc in Heq.
  destruct (utf8_head_inv cs c _ Hcs Hc Heq) as (cs' & Hcs' & H'). by apply (IH cs').
Qed.

Lemma run_utf8_validation_spec fuel v index pre :
  Forall in_u8 v -> scalars pre -> v = utf8 pre ++ zdrop index v -> index = zlen (utf8 pre) ->
  zlen v - index < Z.of_nat fuel ->
  match run_utf8_validation fuel v index with
  | Ok _ => valid_utf8 v
  | Err e => ~ valid_utf8 v /\ index <= valid_up_to e < zlen v /\ valid_utf8 (ztake (valid_up_to e) v)
  end.
Proof.
  revert index pre. induction fuel as [|fuel IH]; intros index pre Hu Hpre Hv Hi Hfuel; simpl.
  { exists pre. split; [done|]. rewrite Hv at 1. rewrite zdrop_all by lia. by rewrite app_nil_r. }
  pose proof (zlen_nonneg (utf8 pre)).
  destruct (get v index) as [first|] eqn:Hf.
  2: { apply get_None in Hf as [Hf|Hf]; [lia|]. exists pre. split; [done|].
       rewrite Hv at 1. rewrite zdrop_all by lia. by rewrite app_nil_r. }
  pose proof (get_Some_range _ _ _ Hf).
  assert (get (zdrop index v) 0 = Some first) as Hf0 by (rewrite get_zdrop, Z.add_0_r by lia; done).
  rewrite validate_sequence_shift by lia.
  destruct (validate_sequence (zdrop index v) 0 first) as [width|len] eqn:Hw.
  - destruct (validate_sequence_sound (zdrop index v) first width) as (c & post & Hc & Hd & ->);
      [by apply Forall_drop|done|done|].
    pose proof (len_utf8_range c). pose proof (encode_utf8_len c Hc).
    assert (zdrop (index + len_utf8 c) v = post) as Hpost.
    { rewrite <- zdrop_zdrop, Hd by lia. by apply zdrop_app. }
    specialize (IH (index + len_utf8 c) (pre ++ [c]) Hu).
    rewrite utf8_app, utf8_single, zlen_app, Hpost, <- app_assoc, <- Hd in IH.
    specialize (IH ltac:(apply Forall_app; split; [done|by constructor]) Hv ltac:(lia) ltac:(lia)).
    destruct (run_utf8_validation fuel v _); [done|]. destruct IH as (? & ? & ?). split_and!; done || lia.
  - simpl. split_and!; [|lia|lia|].
    2: { rewrite Hv. rewrite ztake_app by done. by exists pre. }
    intros (cs & Hcs & Hcs'). rewrite Hcs' in Hv at 1.
    destruct (utf8_prefix_inv cs pre _ Hcs Hpre Hv) as (post & Hpost & Hd).
    rewrite Hd in Hf0, Hw. destruct post as [|c post]; [done|].
    inversion Hpost as [|? ? Hc Hpost']; subst. rewrite utf8_cons in Hf0, Hw.
    apply encode_utf8_encoding in Hc. pose proof (encoding_len _ _ Hc). pose proof (len_utf8_range c).
    rewrite get_app_l in Hf0 by lia.
    by rewrite (validate_sequence_complete c _ _ _ Hc Hf0) in Hw.
Qed.

(** [from_utf8] accepts exactly the valid texts, unchanged; a rejection
    reports a valid prefix of the input. *)
Lemma from_utf8_spec v :
  Forall in_u8 v ->
  match from_utf8 v with
  | Ok s => s = v /\ valid_utf8 v
  | Err e => ~ valid_utf8 v /\ 0 <= valid_up_to e < zlen v /\ valid_utf8 (ztake (valid_up_to e) v)
  end.
Proof.
  intros Hu. pose proof (run_utf8_validation_spec (S (length v)) v 0 [] Hu) as H.
  unfold from_utf8. destruct (run_utf8_validation _ _ _); simpl;
    (split; [done|]) || idtac; apply H; try done; unfold zlen; try lia; by constructor.
Qed.

Lemma from_utf8_valid v : Forall in_u8 v -> valid_utf8 v -> from_utf8 v = Ok v.
Proof.
  intros Hu Hv. pose proof (from_utf8_spec v Hu) as H. destruct (from_utf8 v); [by destruct H as [-> _]|by destruct H].
Qed.

Lemma valid_utf8_bytes v : valid_utf8 v -> Forall in_u8 v.
Proof.
  intros Hv. apply Forall_lookup. intros i b Hb. unfold in_u8.
  enough (0 <= b < 256) by lia. apply (valid_bytes v (Z.of_nat i)); [done|].
  rewrite get_nonneg, Nat2Z.id by lia. done.
Qed.

(** The offsets that [char_indices] yields, on the scalars themselves. *)
Fixpoint scalar_indices (offset : Z) (cs : list char) : list (Z * char) :=
  match cs with
  | [] => []
  | c :: cs' => (offset, c) :: scalar_indices (offset + len_utf8 c) cs'
  end.

Lemma zlen_utf8_ge cs : scalars cs -> zlen cs <= zlen (utf8 cs).
Proof.
  induction 1 as [|c cs Hc _ IH]; [done|]. rewrite utf8_cons, zlen_app, zlen_cons.
  rewrite encode_utf8_len by done. pose proof (len_utf8_range c). lia.
Qed.

Lemma char_indices_from_utf8 cs fuel offset :
  scalars cs -> (length cs <= fuel)%nat ->
  char_indices_from fuel offset (utf8 cs) = scalar_indices offset cs.
Proof.
  revert cs offset. induction fuel as [|fuel IH]; intros cs offset Hcs Hlen.
  { destruct cs; simpl in *; [done|lia]. }
  destruct cs as [|c cs]; [done|]. simpl. rewrite first_char_valid by done.
  inversion Hcs as [|? ? Hc Hcs']; subst. f_equal.
  rewrite utf8_cons, zdrop_app by (by rewrite encode_utf8_len).
  apply IH; [done|simpl in Hlen; lia].
Qed.

Lemma char_indices_utf8 cs : scalars cs -> char_indices (utf8 cs) = scalar_indices 0 cs.
Proof.
  intros H. apply char_indices_from_utf8; [done|].
  pose proof (zlen_utf8_ge cs H). unfold zlen in *. lia.
Qed.
