(* ===== verification/SourceText.v ===== *)
(** * Source positions

    The value types of [bray-source]: source identities and their domain
    split ([domain.rs], [id.rs], [identity.rs], [version.rs]), byte offsets and
    ranges ([text.rs]), spans ([span.rs]) and newline policy ([newline.rs]). *)

From Stdlib Require Import ZArith Lia String.
From stdpp Require Import base list numbers option.
From S2P Require Import Prelude Utf8.

(** ** Stored and generated source domains *)

Definition GENERATED_SOURCE_BIT : u32 := Z.shiftl 1 31.

Definition is_generated (raw : u32) : bool := negb (Z.land raw GENERATED_SOURCE_BIT =? 0).

Definition is_stored (raw : u32) : bool := negb (is_generated raw).

Definition stored (raw : u32) : option u32 := if is_stored raw then Some raw else None.

Definition generated (ordinal : u32) : option u32 :=
  if ordinal <? GENERATED_SOURCE_BIT then Some (Z.lor GENERATED_SOURCE_BIT ordinal) else None.

(** [SourceId] names one snapshot, [SourceIdentity] one logical source; both
    wrap a [u32]. *)
Record SourceId := { SourceId_raw : u32 }.
Record SourceIdentity := { SourceIdentity_raw : u32 }.

#[export] Instance SourceId_eq_dec : EqDecision SourceId.
Proof. solve_decision. Defined.
#[export] Instance SourceIdentity_eq_dec : EqDecision SourceIdentity.
Proof. solve_decision. Defined.

Definition SourceId_new (raw : u32) : outcome SourceId :=
  let! _ := assert_ (is_stored raw) in Ret {| SourceId_raw := raw |}.

Definition SourceId_stored (raw : u32) : option SourceId :=
  match stored raw with
  | Some raw => Some {| SourceId_raw := raw |}
  | None => None
  end.

Definition SourceId_generated (ordinal : u32) : option SourceId :=
  match generated ordinal with
  | Some raw => Some {| SourceId_raw := raw |}
  | None => None
  end.

Definition SourceId_is_generated (id : SourceId) : bool := is_generated (SourceId_raw id).

Definition SourceId_to_index (id : SourceId) : option usize :=
  if SourceId_is_generated id then None else usize_try_from (SourceId_raw id).

Definition SourceIdentity_new (raw : u32) : outcome SourceIdentity :=
  let! _ := assert_ (is_stored raw) in Ret {| SourceIdentity_raw := raw |}.

Definition SourceIdentity_generated (ordinal : u32) : option SourceIdentity :=
  match generated ordinal with
  | Some raw => Some {| SourceIdentity_raw := raw |}
  | None => None
  end.

Definition SourceIdentity_is_generated (id : SourceIdentity) : bool :=
  is_generated (SourceIdentity_raw id).

Record SourceVersion := { SourceVersion_raw : u64 }.

#[export] Instance SourceVersion_eq_dec : EqDecision SourceVersion.
Proof. solve_decision. Defined.

Definition SourceVersion_checked_next (v : SourceVersion) : option SourceVersion :=
  match u64_checked_add (SourceVersion_raw v) 1 with
  | Some raw => Some {| SourceVersion_raw := raw |}
  | None => None
  end.

(** ** Byte offsets and ranges *)

Abbreviation TextSize := u32 (only parsing).

Record TextSizeOverflow := { TextSizeOverflow_bytes : usize }.

Definition TextSize_checked_add (self rhs : TextSize) : option TextSize := u32_checked_add self rhs.

Definition TextSize_try_from (bytes : usize) : result TextSize TextSizeOverflow :=
  match u32_try_from bytes with
  | Some bytes => Ok bytes
  | None => Err {| TextSizeOverflow_bytes := bytes |}
  end.

Record TextRange := { start : TextSize; end_ : TextSize }.

#[export] Instance TextRange_eq_dec : EqDecision TextRange.
Proof. solve_decision. Defined.

Definition TextRange_EMPTY : TextRange := {| start := 0; end_ := 0 |}.

Definition TextRange_new (start end_ : TextSize) : outcome TextRange :=
  let! _ := assert_ (start <=? end_) in Ret {| start := start; end_ := end_ |}.

Definition TextRange_try_new (start end_ : TextSize) : option TextRange :=
  if start <=? end_ then Some {| start := start; end_ := end_ |} else None.

Definition TextRange_empty (offset : TextSize) : TextRange :=
  {| start := offset; end_ := offset |}.

Definition TextRange_with_len (start len : TextSize) : option TextRange :=
  match TextSize_checked_add start len with
  | Some e => Some {| start := start; end_ := e |}
  | None => None
  end.

Definition TextRange_len (r : TextRange) : TextSize := end_ r - start r.

Definition TextRange_is_empty (r : TextRange) : bool := start r =? end_ r.

Definition TextRange_to_usize_range (r : TextRange) : option (usize * usize) :=
  match usize_try_from (start r), usize_try_from (end_ r) with
  | Some a, Some b => Some (a, b)
  | _, _ => None
  end.

Definition TextRange_slice_str (r : TextRange) (text : str) : option str :=
  match TextRange_to_usize_range r with
  | Some (a, b) => str_get text a b
  | None => None
  end.

Definition TextRange_slice_bytes (r : TextRange) (bytes : list u8) : option (list u8) :=
  match TextRange_to_usize_range r with
  | Some (a, b) => get_range bytes a b
  | None => None
  end.

Definition TextRange_contains (r : TextRange) (offset : TextSize) : bool :=
  (start r <=? offset) && (offset <? end_ r).

Definition TextRange_contains_range (r range : TextRange) : bool :=
  (start r <=? start range) && (end_ range <=? end_ r).

Definition TextRange_cover (r range : TextRange) : TextRange :=
  {| start := if start r <=? start range then start r else start range;
     end_ := if end_ range <=? end_ r then end_ r else end_ range |}.

(** ** Spans *)

Record SourceSpan := { SourceSpan_source_id : SourceId; SourceSpan_range : TextRange }.

#[export] Instance SourceSpan_eq_dec : EqDecision SourceSpan.
Proof. solve_decision. Defined.

Definition SourceSpan_new (source_id : SourceId) (range : TextRange) : SourceSpan :=
  {| SourceSpan_source_id := source_id; SourceSpan_range := range |}.

Definition SourceSpan_empty (source_id : SourceId) (offset : TextSize) : SourceSpan :=
  {| SourceSpan_source_id := source_id; SourceSpan_range := TextRange_empty offset |}.

Definition SourceSpan_start (s : SourceSpan) : TextSize := start (SourceSpan_range s).
Definition SourceSpan_end (s : SourceSpan) : TextSize := end_ (SourceSpan_range s).
Definition SourceSpan_len (s : SourceSpan) : TextSize := TextRange_len (SourceSpan_range s).
Definition SourceSpan_is_empty (s : SourceSpan) : bool := TextRange_is_empty (SourceSpan_range s).

(** ** Newlines *)

Inductive SourceNewlinePolicy := PreserveExactText.

Inductive SourceLineBreakKind := LineFeed | CarriageReturnLineFeed.

#[export] Instance SourceLineBreakKind_eq_dec : EqDecision SourceLineBreakKind.
Proof. solve_decision. Defined.

Definition SourceNewlinePolicy_DEFAULT : SourceNewlinePolicy := PreserveExactText.

Definition preserves_exact_text (p : SourceNewlinePolicy) : bool :=
  match p with PreserveExactText => true end.

Definition normalize_text (p : SourceNewlinePolicy) (text : str) : str :=
  match p with PreserveExactText => text end.

Definition treats_lone_cr_as_line_break (p : SourceNewlinePolicy) : bool :=
  match p with PreserveExactText => false end.

Definition CR : char := 13.
Definition LF : char := 10.

Definition line_break_kind (p : SourceNewlinePolicy) (character : char)
    (next_character : option char) : option SourceLineBreakKind :=
  match p with
  | PreserveExactText =>
      if (character =? CR) && bool_decide (next_character = Some LF)
      then Some CarriageReturnLineFeed
      else if character =? LF then Some LineFeed
      else None
  end.

Definition SourceLineBreakKind_byte_len (k : SourceLineBreakKind) : usize :=
  match k with LineFeed => 1 | CarriageReturnLineFeed => 2 end.

(** ** Well-formed ranges *)

Definition range_wf (r : TextRange) : Prop := 0 <= start r <= end_ r /\ end_ r <= U32_MAX.

Lemma usize_try_from_u32 x : in_u32 x -> usize_try_from x = Some x.
Proof. intros H. apply checked_ok. unfold in_u32, U32_MAX, USIZE_MAX in *. lia. Qed.

Lemma range_wf_usize r : range_wf r -> TextRange_to_usize_range r = Some (start r, end_ r).
Proof.
  intros [H1 H2]. unfold TextRange_to_usize_range.
  rewrite !usize_try_from_u32 by (unfold in_u32; lia). done.
Qed.

Lemma range_wf_slice_str r text : range_wf r -> TextRange_slice_str r text = str_get text (start r) (end_ r).
Proof. intros H. unfold TextRange_slice_str. by rewrite range_wf_usize. Qed.

Lemma range_wf_slice_bytes r bs : range_wf r -> TextRange_slice_bytes r bs = get_range bs (start r) (end_ r).
Proof. intros H. unfold TextRange_slice_bytes. by rewrite range_wf_usize. Qed.

Lemma returns_TextRange_new a b (Q : TextRange -> Prop) :
  a <= b -> Q {| start := a; end_ := b |} -> returns (TextRange_new a b) Q.
Proof.
  intros H HQ. unfold TextRange_new. destruct (a <=? b) eqn:E; [|lia]. by apply returns_ret.
Qed.

Lemma TextSize_try_from_ok n : in_u32 n -> TextSize_try_from n = Ok n.
Proof.
  intros H. unfold TextSize_try_from, u32_try_from. by rewrite checked_ok by (unfold in_u32 in H; lia).
Qed.

Lemma TextSize_try_from_Ok n m : TextSize_try_from n = Ok m -> m = n /\ in_u32 n.
Proof.
  unfold TextSize_try_from, u32_try_from. destruct (checked _ _) eqn:E; [|done].
  intros ?; simplify_eq. apply checked_Some in E as [-> ?]. done.
Qed.

(** ** The two id domains *)

Lemma is_generated_spec raw : in_u32 raw -> is_generated raw = (GENERATED_SOURCE_BIT <=? raw).
Proof.
  intros Hraw. unfold is_generated, in_u32, U32_MAX in *.
  change GENERATED_SOURCE_BIT with (1 * 2 ^ 31).
  destruct (1 * 2 ^ 31 <=? raw) eqn:E; simpl in E.
  - replace raw with (Z.lor (raw - 1 * 2 ^ 31) (1 * 2 ^ 31))
      by (rewrite lor_disjoint; simpl; lia).
    rewrite Z.land_lor_distr_l, Z.land_diag, land_disjoint by (simpl; lia). done.
  - rewrite land_disjoint by (simpl; lia). done.
Qed.

Lemma generated_spec ordinal :
  0 <= ordinal ->
  generated ordinal =
  if ordinal <? GENERATED_SOURCE_BIT then Some (ordinal + GENERATED_SOURCE_BIT) else None.
Proof.
  intros H. unfold generated. destruct (ordinal <? GENERATED_SOURCE_BIT) eqn:E; [|done].
  change GENERATED_SOURCE_BIT with (1 * 2 ^ 31) in *. simpl in E.
  rewrite Z.lor_comm, lor_disjoint by (simpl; lia). done.
Qed.

Lemma SourceId_stored_spec raw :
  in_u32 raw ->
  SourceId_stored raw =
  if raw <? GENERATED_SOURCE_BIT then Some {| SourceId_raw := raw |} else None.
Proof.
  intros H. unfold SourceId_stored, stored, is_stored. rewrite is_generated_spec by done.
  by rewrite <- Z.ltb_antisym; destruct (raw <? GENERATED_SOURCE_BIT).
Qed.

Lemma SourceId_to_index_spec id :
  in_u32 (SourceId_raw id) ->
  SourceId_to_index id =
  if SourceId_raw id <? GENERATED_SOURCE_BIT then Some (SourceId_raw id) else None.
Proof.
  intros H. unfold SourceId_to_index, SourceId_is_generated. rewrite is_generated_spec by done.
  rewrite usize_try_from_u32 by done.
  rewrite Z.leb_antisym. by destruct (SourceId_raw id <? GENERATED_SOURCE_BIT).
Qed.

(** Stored and generated ids partition the 32-bit id space: every raw
    value is either a stored id, which indexes the source store at its own
    value, or the image of exactly one generated ordinal, which has no index. *)
Theorem source_id_domains_partition raw :
  in_u32 raw ->
  (SourceId_stored raw = Some {| SourceId_raw := raw |} /\
   SourceId_to_index {| SourceId_raw := raw |} = Some raw /\
   forall ordinal, in_u32 ordinal -> SourceId_generated ordinal <> Some {| SourceId_raw := raw |}) \/
  (SourceId_stored raw = None /\ SourceId_to_index {| SourceId_raw := raw |} = None /\
   exists ordinal, in_u32 ordinal /\ SourceId_generated ordinal = Some {| SourceId_raw := raw |} /\
     forall o', in_u32 o' -> SourceId_generated o' = Some {| SourceId_raw := raw |} -> o' = ordinal).
Proof.
  intros Hraw. rewrite SourceId_stored_spec, SourceId_to_index_spec by done. cbn [SourceId_raw].
  assert (forall o, in_u32 o -> SourceId_generated o = Some {| SourceId_raw := raw |} <->
            o < GENERATED_SOURCE_BIT /\ raw = o + GENERATED_SOURCE_BIT) as Hgen.
  { intros o [Ho _]. unfold SourceId_generated. rewrite generated_spec by done.
    destruct (o <? GENERATED_SOURCE_BIT) eqn:E; split; intros H; simplify_eq; try lia; try done.
    - destruct H as [_ ->]. done. }
  unfold in_u32, U32_MAX in *. change GENERATED_SOURCE_BIT with 2147483648 in *.
  destruct (raw <? 2147483648) eqn:E.
  - left. split_and!; [done|done|]. intros o Ho. rewrite Hgen by done. lia.
  - right. split_and!; [done|done|]. exists (raw - 2147483648).
    split_and!; [lia|lia|apply Hgen; lia|]. intros o' Ho' H. apply Hgen in H; lia.
Qed.


(** [cover] is the least upper bound of two well-formed ranges: it contains
    both, is well formed, and lies inside every range that contains both. *)
Theorem text_range_cover_lub a b :
  range_wf a -> range_wf b ->
  range_wf (TextRange_cover a b) /\
  TextRange_contains_range (TextRange_cover a b) a = true /\
  TextRange_contains_range (TextRange_cover a b) b = true /\
  forall c, TextRange_contains_range c a = true -> TextRange_contains_range c b = true ->
    TextRange_contains_range c (TextRange_cover a b) = true.
Proof.
  destruct a as [a1 a2], b as [b1 b2].
  unfold range_wf, TextRange_contains_range, TextRange_cover. simpl. intros [Ha1 Ha2] [Hb1 Hb2].
  destruct (a1 <=? b1) eqn:E1, (b2 <=? a2) eqn:E2; split_and!; intros; lia.
Qed.

