(* ===== verification/LineIndex.v ===== *)
(** * Line index

    [bray-source/src/line_index.rs]: the derived index from byte offsets to
    one-based line/column pairs and zero-based LSP positions, and back.

    The specification ([locate]) walks the scalars of a text from its start,
    counting line breaks, columns and UTF-16 units; [metrics_of] and
    [spec_lines] describe the table that [LineIndex_new] must build.  The
    theorems show that construction never panics, that it builds the specified
    table, that a lookup agrees with [locate], and that the two directions of
    the LSP mapping are mutually inverse. *)

From Stdlib Require Import ZArith Lia.
From stdpp Require Import base list numbers option.
From S2P Require Import Prelude Utf8 SourceText.

(** ** Positions *)

Record LineColumn := { LineColumn_line : u32; LineColumn_column : u32 }.

Definition LineColumn_new (line column : u32) : outcome LineColumn :=
  let! _ := assert_ (0 <? line) in
  let! _ := assert_ (0 <? column) in
  Ret {| LineColumn_line := line; LineColumn_column := column |}.

Record LspPosition := { LspPosition_line : u32; LspPosition_character : u32 }.

Definition LspPosition_new (line character : u32) : LspPosition :=
  {| LspPosition_line := line; LspPosition_character := character |}.

(** The derived lexicographic order of [LspPosition]. *)
Definition LspPosition_gt (a b : LspPosition) : bool :=
  (LspPosition_line b <? LspPosition_line a)
  || ((LspPosition_line a =? LspPosition_line b)
      && (LspPosition_character b <? LspPosition_character a)).

Record ResolvedPosition := { line_column_of : LineColumn; lsp_position_of : LspPosition }.

(** ** Line breaks *)

Record IndexedLineBreak := { byte_len : usize; consumes_next_character : bool }.

Definition source_line_break (newline_policy : SourceNewlinePolicy) (character : char)
    (next_character : option char) : option IndexedLineBreak :=
  if (character =? CR) && negb (bool_decide (next_character = Some LF))
  then Some {| byte_len := 1; consumes_next_character := false |}
  else
    match line_break_kind newline_policy character next_character with
    | None => None
    | Some kind =>
        Some {| byte_len := SourceLineBreakKind_byte_len kind;
                consumes_next_character := bool_decide (kind = CarriageReturnLineFeed) |}
    end.

(** ** Metrics of one line *)

Record LineMetrics := {
  lm_start : TextSize;
  lm_end : TextSize;
  character_offsets : list TextSize;
  utf16_columns : list u32;
  utf16_len : u32;
}.

Definition LineMetrics_new (start : TextSize) : LineMetrics :=
  {| lm_start := start; lm_end := start; character_offsets := []; utf16_columns := [];
     utf16_len := 0 |}.

Definition set_end (m : LineMetrics) (e : TextSize) : LineMetrics :=
  {| lm_start := lm_start m; lm_end := e; character_offsets := character_offsets m;
     utf16_columns := utf16_columns m; utf16_len := utf16_len m |}.

(** [self.utf16_len += units] overflows into a panic. *)
Definition push_character (m : LineMetrics) (offset : TextSize) (character : char)
    : outcome LineMetrics :=
  let units := if len_utf16 character =? 1 then 1 else 2 in
  let! len := expect (u32_checked_add (utf16_len m) units) in
  Ret {| lm_start := lm_start m; lm_end := lm_end m;
         character_offsets := character_offsets m ++ [offset];
         utf16_columns := utf16_columns m ++ [utf16_len m];
         utf16_len := len |}.

Definition LineMetrics_position (m : LineMetrics) (offset : TextSize) (line_number : u32)
    : outcome (option ResolvedPosition) :=
  if (offset <? lm_start m) || (lm_end m <? offset) then Ret None
  else
    let character_index :=
      match binary_search (character_offsets m) offset with
      | Ok index => Some index
      | Err index => if offset =? lm_end m then Some index else None
      end in
    match character_index with
    | None => Ret None
    | Some character_index =>
        match u32_try_from character_index with
        | None => Ret None
        | Some zero_based_column =>
            match u32_checked_add line_number 1 with
            | None => Ret None
            | Some line =>
                match u32_checked_add zero_based_column 1 with
                | None => Ret None
                | Some column =>
                    let! line_column := LineColumn_new line column in
                    let utf16_column := match get (utf16_columns m) character_index with
                                        | Some column => column
                                        | None => utf16_len m
                                        end in
                    Ret (Some {| line_column_of := line_column;
                                 lsp_position_of := LspPosition_new line_number utf16_column |})
                end
            end
        end
    end.

Definition offset_for_lsp_character (m : LineMetrics) (character : u32) : option TextSize :=
  match binary_search (utf16_columns m) character with
  | Ok index => get (character_offsets m) index
  | Err index =>
      if (index =? zlen (utf16_columns m)) && (character =? utf16_len m)
      then Some (lm_end m) else None
  end.

(** ** The index *)

Record LineIndex := { li_text_len : TextSize; lines : list LineMetrics }.

(** The [while let] loop of [LineIndex::new], over the remaining
    [char_indices]. *)
Fixpoint line_index_loop (policy : SourceNewlinePolicy) (characters : list (Z * char))
    (lines : list LineMetrics) (current_line : LineMetrics)
    : outcome (result (list LineMetrics * LineMetrics) TextSizeOverflow) :=
  match characters with
  | [] => Ret (Ok (lines, current_line))
  | (byte_index, character) :: rest =>
      match TextSize_try_from byte_index with
      | Err e => Ret (Err e)
      | Ok offset =>
          let next_character := match rest with
                                | (_, next) :: _ => Some next
                                | [] => None
                                end in
          match source_line_break policy character next_character with
          | Some line_break =>
              let lines' := lines ++ [set_end current_line offset] in
              match TextSize_try_from (byte_index + byte_len line_break) with
              | Err e => Ret (Err e)
              | Ok next_line_start =>
                  match consumes_next_character line_break, rest with
                  | true, _ :: rest' =>
                      line_index_loop policy rest' lines' (LineMetrics_new next_line_start)
                  | _, _ =>
                      line_index_loop policy rest lines' (LineMetrics_new next_line_start)
                  end
              end
          | None =>
              let! current_line := push_character current_line offset character in
              line_index_loop policy rest lines current_line
          end
      end
  end.

Definition LineIndex_new (text : str) : outcome (result LineIndex TextSizeOverflow) :=
  match TextSize_try_from (zlen text) with
  | Err e => Ret (Err e)
  | Ok text_len =>
      let! loop := line_index_loop SourceNewlinePolicy_DEFAULT (char_indices text) []
                     (LineMetrics_new 0) in
      match loop with
      | Err e => Ret (Err e)
      | Ok (lines, current_line) =>
          Ret (Ok {| li_text_len := text_len; lines := lines ++ [set_end current_line text_len] |})
      end
  end.

Definition LineIndex_line_count (idx : LineIndex) : usize := zlen (lines idx).

Definition LineIndex_line_start (idx : LineIndex) (line : u32) : option TextSize :=
  match usize_try_from line with
  | None => None
  | Some index => option_map lm_start (get (lines idx) index)
  end.

Definition line_index_for_offset (idx : LineIndex) (offset : TextSize) : option usize :=
  match binary_search_by_key lm_start (lines idx) offset with
  | Ok index => Some index
  | Err index => if index =? 0 then None else Some (index - 1)
  end.

Definition LineIndex_position (idx : LineIndex) (offset : TextSize)
    : outcome (option ResolvedPosition) :=
  if li_text_len idx <? offset then Ret None
  else
    match line_index_for_offset idx offset with
    | None => Ret None
    | Some line_index =>
        match get (lines idx) line_index with
        | None => Ret None
        | Some metrics =>
            match u32_try_from line_index with
            | None => Ret None
            | Some line_number => LineMetrics_position metrics offset line_number
            end
        end
    end.

Definition LineIndex_line_column (idx : LineIndex) (offset : TextSize) : outcome (option LineColumn) :=
  let! p := LineIndex_position idx offset in Ret (option_map line_column_of p).

Definition LineIndex_lsp_position (idx : LineIndex) (offset : TextSize) : outcome (option LspPosition) :=
  let! p := LineIndex_position idx offset in Ret (option_map lsp_position_of p).

Definition offset_for_lsp_position (idx : LineIndex) (position : LspPosition) : option TextSize :=
  match usize_try_from (LspPosition_line position) with
  | None => None
  | Some line_index =>
      match get (lines idx) line_index with
      | None => None
      | Some metrics => offset_for_lsp_character metrics (LspPosition_character position)
      end
  end.

Definition text_range_for_lsp_range (idx : LineIndex) (start end_ : LspPosition) : option TextRange :=
  if LspPosition_gt start end_ then None
  else
    match offset_for_lsp_position idx start, offset_for_lsp_position idx end_ with
    | Some a, Some b => TextRange_try_new a b
    | _, _ => None
    end.

(** ** Specification *)

Definition bytes_of (cs : list char) : Z := zlen (utf8 cs).

Definition units_of (cs : list char) : Z := fold_right Z.add 0 (map len_utf16 cs).

Fixpoint unit_indices (column : Z) (cs : list char) : list Z :=
  match cs with
  | [] => []
  | c :: cs' => column :: unit_indices (column + len_utf16 c) cs'
  end.

(** The metrics of the line that starts at [start] and holds [cs]. *)
Definition metrics_of (start : Z) (cs : list char) : LineMetrics :=
  {| lm_start := start; lm_end := start + bytes_of cs;
     character_offsets := map fst (scalar_indices start cs);
     utf16_columns := unit_indices 0 cs;
     utf16_len := units_of cs |}.

(** The width in scalars of the line break in front of a text, if any: CRLF,
    LF, or a lone CR. *)
Definition break_here (cs : list char) : option nat :=
  match cs with
  | c :: rest =>
      if c =? CR then match rest with
                      | d :: _ => if d =? LF then Some 2%nat else Some 1%nat
                      | [] => Some 1%nat
                      end
      else if c =? LF then Some 1%nat else None
  | [] => None
  end.

(** The lines of a text, [cur] being what the current line already holds. *)
Fixpoint spec_lines (fuel : nat) (start : Z) (cur cs : list char) : list LineMetrics :=
  match fuel, cs with
  | S fuel', c :: rest =>
      match break_here cs with
      | Some w => metrics_of start cur
                    :: spec_lines fuel' (start + bytes_of cur + Z.of_nat w) [] (drop w cs)
      | None => spec_lines fuel' start (cur ++ [c]) rest
      end
  | _, _ => [metrics_of start cur]
  end.

(** Line, column and UTF-16 column after reading [cs]. *)
Fixpoint locate (fuel : nat) (line column units : Z) (cs : list char) : Z * Z * Z :=
  match fuel, cs with
  | S fuel', c :: rest =>
      match break_here cs with
      | Some w => locate fuel' (line + 1) 0 0 (drop w cs)
      | None => locate fuel' line (column + 1) (units + len_utf16 c) rest
      end
  | _, _ => (line, column, units)
  end.

(** A text position is addressable unless it falls inside a CRLF. *)
Definition splits_crlf (pre post : list char) : Prop :=
  list.last pre = Some CR /\ list.head post = Some LF.

(** ** Arithmetic of line contents *)

Lemma bytes_of_nil : bytes_of [] = 0.
Proof. done. Qed.

Lemma bytes_of_app cs1 cs2 : bytes_of (cs1 ++ cs2) = bytes_of cs1 + bytes_of cs2.
Proof. unfold bytes_of. by rewrite utf8_app, zlen_app. Qed.

Lemma bytes_of_cons c cs : is_scalar c = true -> bytes_of (c :: cs) = len_utf8 c + bytes_of cs.
Proof. intros H. unfold bytes_of. by rewrite utf8_cons, zlen_app, encode_utf8_len. Qed.

Lemma bytes_of_nonneg cs : 0 <= bytes_of cs.
Proof. apply zlen_nonneg. Qed.

Lemma units_of_cons c cs : units_of (c :: cs) = len_utf16 c + units_of cs.
Proof. done. Qed.

Lemma units_of_app cs1 cs2 : units_of (cs1 ++ cs2) = units_of cs1 + units_of cs2.
Proof.
  induction cs1 as [|c cs1 IH]; [done|]. rewrite <- app_comm_cons, !units_of_cons, IH. lia.
Qed.

Lemma units_of_le_bytes cs : scalars cs -> 0 <= units_of cs <= bytes_of cs.
Proof.
  induction 1 as [|c cs Hc _ IH]; [done|]. rewrite units_of_cons, bytes_of_cons by done.
  pose proof (len_utf16_le_utf8 c). lia.
Qed.

Lemma zlen_le_bytes cs : scalars cs -> zlen cs <= bytes_of cs.
Proof. apply zlen_utf8_ge. Qed.

Lemma scalar_indices_app off cs1 cs2 :
  scalars cs1 ->
  scalar_indices off (cs1 ++ cs2) = scalar_indices off cs1 ++ scalar_indices (off + bytes_of cs1) cs2.
Proof.
  intros H. revert off. induction H as [|c cs1 Hc _ IH]; intros off; simpl.
  - f_equal. rewrite bytes_of_nil. lia.
  - rewrite IH, bytes_of_cons by done. do 3 f_equal. lia.
Qed.

Lemma unit_indices_app col cs1 cs2 :
  unit_indices col (cs1 ++ cs2) = unit_indices col cs1 ++ unit_indices (col + units_of cs1) cs2.
Proof.
  revert col. induction cs1 as [|c cs1 IH]; intros col; simpl.
  - f_equal. unfold units_of. simpl. lia.
  - rewrite IH, units_of_cons. do 3 f_equal. lia.
Qed.

Lemma zlen_scalar_indices off cs : zlen (map fst (scalar_indices off cs)) = zlen cs.
Proof. revert off. induction cs as [|c cs IH]; intros off; simpl; rewrite ?zlen_cons, ?IH; done. Qed.

Lemma zlen_unit_indices col cs : zlen (unit_indices col cs) = zlen cs.
Proof. revert col. induction cs as [|c cs IH]; intros col; simpl; rewrite ?zlen_cons, ?IH; done. Qed.

Lemma len_utf8_break c : c = CR \/ c = LF -> len_utf8 c = 1 /\ is_scalar c = true.
Proof. by intros [-> | ->]. Qed.

(** ** Construction builds the specified table *)

Lemma source_line_break_spec policy cs c rest :
  cs = c :: rest ->
  source_line_break policy c (list.head rest) =
  match break_here cs with
  | Some w => Some {| byte_len := Z.of_nat w; consumes_next_character := bool_decide (w = 2%nat) |}
  | None => None
  end.
Proof.
  intros ->. destruct policy. unfold source_line_break, line_break_kind, break_here.
  destruct (c =? CR) eqn:Ecr; simpl.
  - destruct rest as [|d rest]; simpl; [done|].
    destruct (d =? LF) eqn:Elf; simpl.
    + apply Z.eqb_eq in Elf. subst. by rewrite bool_decide_eq_true_2.
    + rewrite bool_decide_eq_false_2; [done|]. intros ?; simplify_eq; lia.
  - by destruct (c =? LF).
Qed.

Lemma push_character_spec start cur c e :
  scalars (cur ++ [c]) -> 0 <= start -> start + bytes_of (cur ++ [c]) <= U32_MAX ->
  push_character (set_end (metrics_of start cur) e) (start + bytes_of cur) c
  = Ret (set_end (metrics_of start (cur ++ [c])) e).
Proof.
  intros Hs Hstart Hmax. pose proof (units_of_le_bytes _ Hs) as Hu.
  apply Forall_app in Hs as [Hcur Hc].
  unfold push_character. simpl utf16_len.
  assert ((if len_utf16 c =? 1 then 1 else 2) = len_utf16 c) as ->
    by (unfold len_utf16; by destruct (c <? 65536)).
  rewrite units_of_app in Hu.
  unfold u32_checked_add. rewrite checked_ok.
  2: { pose proof (units_of_le_bytes _ Hcur). rewrite units_of_cons in Hu.
       change (units_of []) with 0 in Hu. pose proof (bytes_of_nonneg cur). lia. }
  simpl. unfold set_end, metrics_of. simpl. f_equal. f_equal.
  - rewrite scalar_indices_app, map_app by done. done.
  - rewrite unit_indices_app. simpl. by rewrite Z.add_0_l.
  - rewrite units_of_app. unfold units_of. simpl. lia.
Qed.

Lemma line_index_loop_spec policy fuel cs start cur acc :
  (length cs <= fuel)%nat -> scalars cs -> scalars cur -> 0 <= start ->
  start + bytes_of cur + bytes_of cs <= U32_MAX ->
  exists fin s' cur',
    line_index_loop policy (scalar_indices (start + bytes_of cur) cs) acc
      (set_end (metrics_of start cur) start)
    = Ret (Ok (acc ++ fin, set_end (metrics_of s' cur') s')) /\
    spec_lines fuel start cur cs = fin ++ [metrics_of s' cur'] /\
    s' + bytes_of cur' = start + bytes_of cur + bytes_of cs.
Proof.
  revert cs start cur acc. induction fuel as [|fuel IH]; intros cs start cur acc Hf Hcs Hcur Hstart Hmax.
  { destruct cs; simpl in Hf; [|lia]. exists [], start, cur. rewrite app_nil_r, bytes_of_nil.
    split_and!; done || lia. }
  destruct cs as [|c rest].
  { exists [], start, cur. rewrite app_nil_r, bytes_of_nil. split_and!; done || lia. }
  inversion Hcs as [|? ? Hc Hrest]; subst. pose proof (bytes_of_nonneg cur).
  pose proof (bytes_of_nonneg rest). pose proof (len_utf8_range c).
  rewrite bytes_of_cons in * by done. simpl scalar_indices. cbn [line_index_loop].
  rewrite TextSize_try_from_ok by (unfold in_u32; lia).
  replace (match scalar_indices (start + bytes_of cur + len_utf8 c) rest with
           | [] => None | (_, next) :: _ => Some next end) with (list.head rest)
    by (by destruct rest).
  rewrite (source_line_break_spec policy (c :: rest)) by done.
  cbn [spec_lines]. destruct (break_here (c :: rest)) as [w|] eqn:Ebr.
  - (* a line break: close the line *)
    assert (c = CR \/ c = LF) as Hbr.
    { unfold break_here in Ebr. destruct (c =? CR) eqn:E1; [left; by apply Z.eqb_eq|].
      destruct (c =? LF) eqn:E2; [right; by apply Z.eqb_eq|done]. }
    destruct (len_utf8_break c Hbr) as [Hl _].
    assert (w = 1%nat \/ w = 2%nat /\ exists r, rest = LF :: r) as Hw.
    { unfold break_here in Ebr. repeat case_match; simplify_eq; auto.
      right. split; [done|]. eexists. f_equal. by apply Z.eqb_eq. }
    assert (Z.of_nat w + bytes_of (drop w (c :: rest)) = len_utf8 c + bytes_of rest) as Hb.
    { destruct Hw as [-> | [-> [r ->]]].
      - change (drop 1 (c :: rest)) with rest. lia.
      - change (drop 2 (c :: LF :: r)) with r. rewrite (bytes_of_cons LF) by done.
        change (len_utf8 LF) with 1. lia. }
    assert (scalars (drop w (c :: rest))) as Hd by (by apply Forall_drop).
    pose proof (bytes_of_nonneg (drop w (c :: rest))).
    cbn [byte_len consumes_next_character]. rewrite TextSize_try_from_ok by (unfold in_u32; lia).
    destruct (IH (drop w (c :: rest)) (start + bytes_of cur + Z.of_nat w) []
                (acc ++ [metrics_of start cur])) as (fin & s' & cur' & Hloop & Hspec & Hend).
    { rewrite length_drop. simpl in Hf. destruct Hw as [-> | [-> _]]; simpl; lia. }
    1-4: rewrite ?bytes_of_nil; try done; try lia; by constructor.
    exists (metrics_of start cur :: fin), s', cur'. rewrite bytes_of_nil in *. split_and!.
    + replace (set_end (set_end (metrics_of start cur) start) (start + bytes_of cur))
        with (metrics_of start cur) by done.
      rewrite Z.add_0_r in Hloop. rewrite <- app_assoc in Hloop. simpl in Hloop.
      rewrite <- Hloop, Hl. destruct Hw as [-> | [-> [r ->]]]; [done|].
      change (drop 2 (c :: LF :: r)) with r. simpl scalar_indices.
      change (len_utf8 LF) with 1. cbn [bool_decide decide decide_rel Nat.eq_dec].
      replace (start + bytes_of cur + Z.of_nat 2) with (start + bytes_of cur + 1 + 1) by lia.
      done.
    + by rewrite Hspec.
    + lia.
  - (* an ordinary scalar *)
    assert (scalars (cur ++ [c])) as Hcc by (apply Forall_app; split; [done|by constructor]).
    assert (bytes_of (cur ++ [c]) = bytes_of cur + len_utf8 c) as Hb.
    { rewrite bytes_of_app, bytes_of_cons, bytes_of_nil by done. lia. }
    rewrite push_character_spec by (done || lia). simpl outcome_bind.
    destruct (IH rest start (cur ++ [c]) acc) as (fin & s' & cur' & Hloop & Hspec & Hend);
      [simpl in Hf; lia|done|done|lia|lia|].
    exists fin, s', cur'. rewrite Hb, Z.add_assoc in Hloop. split_and!; [done|done|lia].
Qed.

(** The text length that fits, and the table. *)
Lemma LineIndex_new_spec cs :
  scalars cs -> bytes_of cs <= U32_MAX ->
  LineIndex_new (utf8 cs) =
  Ret (Ok {| li_text_len := bytes_of cs; lines := spec_lines (length cs) 0 [] cs |}).
Proof.
  intros Hcs Hmax. pose proof (bytes_of_nonneg cs).
  unfold LineIndex_new. fold (bytes_of cs).
  rewrite TextSize_try_from_ok by (unfold in_u32; lia). rewrite char_indices_utf8 by done.
  destruct (line_index_loop_spec SourceNewlinePolicy_DEFAULT (length cs) cs 0 [] [])
    as (fin & s' & cur' & Hloop & Hspec & Hend); try done; [by constructor|].
  change (LineMetrics_new 0) with (set_end (metrics_of 0 []) 0).
  change (0 + bytes_of []) with 0 in Hloop. rewrite Hloop. simpl. rewrite Hspec.
  assert (set_end (set_end (metrics_of s' cur') s') (bytes_of cs) = metrics_of s' cur') as ->; [|done].
  unfold set_end, metrics_of. simpl. rewrite bytes_of_nil in Hend. f_equal. lia.
Qed.

(** ** Lookups inside one line *)

Lemma get_scalar_offsets off cs i x :
  scalars cs -> get (map fst (scalar_indices off cs)) i = Some x ->
  exists a c b, cs = a ++ c :: b /\ i = zlen a /\ x = off + bytes_of a.
Proof.
  intros Hcs Hg. pose proof (get_Some_range _ _ _ Hg) as Hr. rewrite zlen_scalar_indices in Hr.
  destruct (get_is_Some cs i Hr) as [c Hc].
  pose proof (ztake_zdrop i cs) as Hsplit. rewrite (zdrop_cons_get _ _ _ Hc) in Hsplit.
  exists (ztake i cs), c, (zdrop (i + 1) cs). rewrite zlen_ztake by lia.
  split_and!; [done|done|]. rewrite <- Hsplit in Hg.
  rewrite scalar_indices_app, map_app in Hg by (by apply Forall_take).
  rewrite get_app_r in Hg by (rewrite zlen_scalar_indices, zlen_ztake; lia).
  rewrite zlen_scalar_indices, zlen_ztake, Z.sub_diag in Hg by lia. simpl in Hg.
  rewrite get_cons_0 in Hg. by simplify_eq.
Qed.

Lemma get_scalar_offset off a c b :
  scalars a -> get (map fst (scalar_indices off (a ++ c :: b))) (zlen a) = Some (off + bytes_of a).
Proof.
  intros Ha. rewrite scalar_indices_app, map_app by done.
  rewrite get_app_r by (rewrite zlen_scalar_indices; lia).
  by rewrite zlen_scalar_indices, Z.sub_diag.
Qed.

Lemma get_unit_indices col cs i x :
  get (unit_indices col cs) i = Some x ->
  exists a c b, cs = a ++ c :: b /\ i = zlen a /\ x = col + units_of a.
Proof.
  intros Hg. pose proof (get_Some_range _ _ _ Hg) as Hr. rewrite zlen_unit_indices in Hr.
  destruct (get_is_Some cs i Hr) as [c Hc].
  pose proof (ztake_zdrop i cs) as Hsplit. rewrite (zdrop_cons_get _ _ _ Hc) in Hsplit.
  exists (ztake i cs), c, (zdrop (i + 1) cs). rewrite zlen_ztake by lia.
  split_and!; [done|done|]. rewrite <- Hsplit, unit_indices_app in Hg.
  rewrite get_app_r in Hg by (rewrite zlen_unit_indices, zlen_ztake; lia).
  rewrite zlen_unit_indices, zlen_ztake, Z.sub_diag in Hg by lia. simpl in Hg.
  rewrite get_cons_0 in Hg. by simplify_eq.
Qed.

Lemma get_unit_index col a c b :
  get (unit_indices col (a ++ c :: b)) (zlen a) = Some (col + units_of a).
Proof.
  rewrite unit_indices_app, get_app_r by (rewrite zlen_unit_indices; lia).
  by rewrite zlen_unit_indices, Z.sub_diag.
Qed.

(** A longer prefix of a line is strictly wider in bytes and in units. *)
Lemma prefix_split (a b a' b' : list char) c1 c2 :
  a ++ c1 :: b = a' ++ c2 :: b' -> zlen a < zlen a' -> exists m, a' = a ++ c1 :: m.
Proof.
  revert a'. induction a as [|x a IH]; intros [|y a'] Heq Hlt; simpl in Heq;
    rewrite ?zlen_cons in Hlt; try (unfold zlen in Hlt; simpl in Hlt; lia).
  - simplify_eq. by exists a'.
  - injection Heq as -> Heq. destruct (IH a' Heq ltac:(lia)) as [m ->]. by exists m.
Qed.

Lemma scalar_offsets_increasing off cs :
  scalars cs -> strictly_increasing (map fst (scalar_indices off cs)).
Proof.
  intros Hcs i j x y Hx Hy Hij.
  destruct (get_scalar_offsets _ _ _ _ Hcs Hx) as (a & c1 & b & H1 & -> & ->).
  destruct (get_scalar_offsets _ _ _ _ Hcs Hy) as (a' & c2 & b' & H2 & -> & ->).
  rewrite H1 in H2. destruct (prefix_split _ _ _ _ _ _ H2 Hij) as [m ->].
  rewrite H1 in Hcs. apply Forall_app in Hcs as [_ Hcs]. inversion Hcs as [|? ? Hc _]; subst.
  rewrite bytes_of_app, bytes_of_cons by done.
  pose proof (len_utf8_range c1). pose proof (bytes_of_nonneg m). lia.
Qed.

Lemma units_of_nonneg cs : 0 <= units_of cs.
Proof.
  induction cs as [|c cs IH]; [done|]. rewrite units_of_cons. pose proof (len_utf16_le_utf8 c). lia.
Qed.

Lemma unit_indices_increasing col cs : strictly_increasing (unit_indices col cs).
Proof.
  intros i j x y Hx Hy Hij.
  destruct (get_unit_indices _ _ _ _ Hx) as (a & c1 & b & H1 & -> & ->).
  destruct (get_unit_indices _ _ _ _ Hy) as (a' & c2 & b' & H2 & -> & ->).
  rewrite H1 in H2. destruct (prefix_split _ _ _ _ _ _ H2 Hij) as [m ->].
  rewrite units_of_app, units_of_cons.
  pose proof (len_utf16_le_utf8 c1). pose proof (units_of_nonneg m). lia.
Qed.

(** The line and column reported for a position [a|b] of a line. *)
Definition position_at (k : Z) (a : list char) : ResolvedPosition :=
  {| line_column_of := {| LineColumn_line := k + 1; LineColumn_column := zlen a + 1 |};
     lsp_position_of := {| LspPosition_line := k; LspPosition_character := units_of a |} |}.

(** The insertion point of a key that every element is below is the end. *)
Lemma binary_search_past l x :
  strictly_increasing l -> (forall j y, get l j = Some y -> y < x) ->
  binary_search l x = Err (zlen l).
Proof.
  intros Hs Hall. destruct (binary_search l x) as [i|i] eqn:E.
  - apply binary_search_Ok in E. pose proof (Hall _ _ E). lia.
  - apply binary_search_Err in E as (Hr & Hlo & Hhi); [|done]. f_equal.
    destruct (Z_lt_le_dec i (zlen l)) as [H|H]; [|lia].
    destruct (get_is_Some l i ltac:(lia)) as [y Hy].
    pose proof (Hall _ _ Hy). pose proof (Hhi i y ltac:(lia) Hy). lia.
Qed.

Lemma search_offset s a b :
  scalars (a ++ b) ->
  binary_search (map fst (scalar_indices s (a ++ b))) (s + bytes_of a) =
  if bool_decide (b = []) then Err (zlen a) else Ok (zlen a).
Proof.
  intros Hs. pose proof (scalar_offsets_increasing s _ Hs) as Hinc.
  destruct b as [|c b].
  - rewrite app_nil_r in *. rewrite binary_search_past; [by rewrite zlen_scalar_indices|done|].
    intros j y Hy. destruct (get_scalar_offsets _ _ _ _ Hs Hy) as (a1 & c & b & -> & _ & ->).
    apply Forall_app in Hs as [_ Hs]. inversion Hs; subst.
    rewrite bytes_of_app, bytes_of_cons by done.
    pose proof (len_utf8_range c). pose proof (bytes_of_nonneg b). lia.
  - apply binary_search_found; [done|]. apply get_scalar_offset. by apply Forall_app in Hs as [? _].
Qed.

Lemma search_units a b :
  binary_search (unit_indices 0 (a ++ b)) (units_of a) =
  if bool_decide (b = []) then Err (zlen a) else Ok (zlen a).
Proof.
  pose proof (unit_indices_increasing 0 (a ++ b)) as Hinc.
  destruct b as [|c b].
  - rewrite app_nil_r in *. rewrite binary_search_past; [by rewrite zlen_unit_indices|done|].
    intros j y Hy. destruct (get_unit_indices _ _ _ _ Hy) as (a1 & c & b & -> & _ & ->).
    rewrite units_of_app, units_of_cons.
    pose proof (len_utf16_le_utf8 c). pose proof (units_of_nonneg b). lia.
  - apply binary_search_found; [done|]. apply get_unit_index.
Qed.

(** The one-based line and column are numbers of 32 bits. *)
Definition numbered (line column : Z) : bool := (line <? U32_MAX) && (column <? U32_MAX).

Lemma LineMetrics_position_spec s a b k :
  scalars (a ++ b) -> 0 <= k <= U32_MAX -> zlen a <= U32_MAX ->
  LineMetrics_position (metrics_of s (a ++ b)) (s + bytes_of a) k = Ret (if numbered k (zlen a) then Some (position_at k a) else None).
Proof.
  intros Hs Hk Ha. pose proof (zlen_nonneg a). pose proof (bytes_of_nonneg a).
  pose proof (bytes_of_nonneg b). unfold LineMetrics_position. cbn [lm_start lm_end metrics_of].
  rewrite bytes_of_app.
  destruct ((s + bytes_of a <? s) || (s + (bytes_of a + bytes_of b) <? s + bytes_of a)) eqn:E; [lia|].
  cbn [character_offsets utf16_columns utf16_len metrics_of]. rewrite search_offset by done.
  replace (match (if bool_decide (b = []) then Err (zlen a) else Ok (zlen a)) with
           | Ok index => Some index
           | Err index => if s + bytes_of a =? s + (bytes_of a + bytes_of b) then Some index else None
           end) with (Some (zlen a)).
  2: { case_bool_decide; [|done]. subst. rewrite bytes_of_nil, Z.add_0_r, Z.eqb_refl. done. }
  unfold u32_try_from, u32_checked_add, numbered. rewrite (checked_ok _ (zlen a)) by lia.
  destruct (k <? U32_MAX) eqn:Ek; [|by rewrite (proj2 (checked_None U32_MAX (k + 1))) by lia]. rewrite (checked_ok _ (k + 1)) by lia.
  destruct (zlen a <? U32_MAX) eqn:Ea; [|by rewrite (proj2 (checked_None U32_MAX (zlen a + 1))) by lia]. rewrite checked_ok by lia. cbn [andb].
  unfold LineColumn_new. destruct (0 <? k + 1) eqn:E1; [|lia]. destruct (0 <? zlen a + 1) eqn:E2; [|lia].
  simpl. unfold position_at, LspPosition_new. do 4 f_equal.
  destruct b as [|c b]; [|by rewrite get_unit_index].
  rewrite (proj2 (get_None _ _)) by (rewrite zlen_unit_indices, app_nil_r; lia). by rewrite app_nil_r.
Qed.

Lemma LineMetrics_position_inv s cs o k p :
  scalars cs -> LineMetrics_position (metrics_of s cs) o k = Ret (Some p) ->
  exists a b, cs = a ++ b /\ o = s + bytes_of a.
Proof.
  intros Hcs. unfold LineMetrics_position. cbn [lm_start lm_end character_offsets metrics_of].
  destruct (_ || _) eqn:E; [done|].
  destruct (binary_search _ o) as [i|i] eqn:Eb.
  - intros _. apply binary_search_Ok in Eb.
    destruct (get_scalar_offsets _ _ _ _ Hcs Eb) as (a & c & b & -> & _ & ->). eauto.
  - destruct (o =? _) eqn:Eo; [|done]. intros _. exists cs, []. rewrite app_nil_r.
    split; [done|lia].
Qed.

Lemma offset_for_lsp_character_spec s a b :
  scalars (a ++ b) ->
  offset_for_lsp_character (metrics_of s (a ++ b)) (units_of a) = Some (s + bytes_of a).
Proof.
  intros Hs. unfold offset_for_lsp_character.
  cbn [utf16_columns character_offsets utf16_len lm_end metrics_of]. rewrite search_units.
  destruct b as [|c b]; simpl.
  - rewrite zlen_unit_indices, app_nil_r, !Z.eqb_refl. done.
  - apply get_scalar_offset. by apply Forall_app in Hs as [? _].
Qed.

Lemma offset_for_lsp_character_inv s cs ch o :
  offset_for_lsp_character (metrics_of s cs) ch = Some o ->
  exists a b, cs = a ++ b /\ ch = units_of a.
Proof.
  unfold offset_for_lsp_character. cbn [utf16_columns character_offsets utf16_len lm_end metrics_of].
  destruct (binary_search _ ch) as [i|i] eqn:Eb.
  - intros _. apply binary_search_Ok in Eb.
    destruct (get_unit_indices _ _ _ _ Eb) as (a & c & b & -> & _ & ->).
    exists a, (c :: b). split; [done|lia].
  - destruct (_ && _) eqn:E; [|done]. intros _. exists cs, []. rewrite app_nil_r.
    apply andb_true_iff in E as [_ E]. apply Z.eqb_eq in E. done.
Qed.

(** Lookups never panic: the one-based coordinates are positive. *)
Lemma LineMetrics_position_total m o k : 0 <= k -> exists r, LineMetrics_position m o k = Ret r.
Proof.
  intros Hk. unfold LineMetrics_position. destruct (_ || _); [eauto|].
  destruct (match binary_search _ _ with Ok _ => _ | Err _ => _ end) as [i|]; [|eauto].
  destruct (u32_try_from i) as [c|] eqn:Ec; [|eauto]. apply checked_Some in Ec as [-> Hi].
  unfold u32_checked_add. destruct (checked _ (k + 1)) as [l|] eqn:El; [|eauto].
  destruct (checked _ (i + 1)) as [c'|] eqn:Ec'; [|eauto].
  apply checked_Some in El as [-> _]. apply checked_Some in Ec' as [-> _].
  unfold LineColumn_new. destruct (0 <? k + 1) eqn:E1; [|lia]. destruct (0 <? i + 1) eqn:E2; [|lia].
  simpl. eauto.
Qed.

Lemma LineIndex_position_total idx o : exists r, LineIndex_position idx o = Ret r.
Proof.
  unfold LineIndex_position. destruct (_ <? _); [eauto|]. destruct (line_index_for_offset _ _) as [k|]; [|eauto].
  destruct (get _ _); [|eauto]. destruct (u32_try_from k) as [k'|] eqn:Ek; [|eauto].
  apply checked_Some in Ek as [-> ?]. apply LineMetrics_position_total. lia.
Qed.

(** ** Invariant of the table

    Lines start at [s], are separated by a non-empty break, and the last one
    ends at [hi]. *)
Inductive lines_ok (hi : Z) : Z -> list LineMetrics -> Prop :=
| lines_last s cs :
    scalars cs -> s + bytes_of cs = hi -> lines_ok hi s [metrics_of s cs]
| lines_more s cs s' L :
    scalars cs -> s + bytes_of cs < s' -> lines_ok hi s' L ->
    lines_ok hi s (metrics_of s cs :: L).

Lemma spec_lines_ok fuel start cur cs :
  (length cs <= fuel)%nat -> scalars cur -> scalars cs ->
  lines_ok (start + bytes_of cur + bytes_of cs) start (spec_lines fuel start cur cs).
Proof.
  revert start cur cs. induction fuel as [|fuel IH]; intros start cur cs Hf Hcur Hcs;
    (destruct cs as [|c rest]; [constructor; [done|rewrite bytes_of_nil; lia]|]);
    [simpl in Hf; lia|].
  inversion Hcs as [|? ? Hc Hrest]; subst. cbn [spec_lines].
  destruct (break_here (c :: rest)) as [w|] eqn:Ebr.
  - assert (0 < Z.of_nat w /\ Z.of_nat w + bytes_of (drop w (c :: rest)) = bytes_of (c :: rest))
      as [Hw Hb].
    { unfold break_here in Ebr. rewrite bytes_of_cons by done.
      destruct (c =? CR) eqn:E1; [apply Z.eqb_eq in E1|destruct (c =? LF) eqn:E2; [apply Z.eqb_eq in E2|done]];
        subst; [destruct rest as [|d rest]; [|destruct (d =? LF) eqn:E3]|]; simplify_eq; simpl drop;
        try (split; [lia|done]).
      apply Z.eqb_eq in E3. subst. inversion Hrest; subst. rewrite bytes_of_cons by done.
      split; [lia|]. rewrite drop_0. change (len_utf8 CR) with 1. change (len_utf8 LF) with 1. lia. }
    apply lines_more with (s' := start + bytes_of cur + Z.of_nat w); [done|lia|].
    replace (start + bytes_of cur + bytes_of (c :: rest))
      with (start + bytes_of cur + Z.of_nat w + bytes_of [] + bytes_of (drop w (c :: rest)))
      by (rewrite bytes_of_nil; lia).
    apply IH; [|by constructor|by apply Forall_drop]. rewrite length_drop. simpl in *. lia.
  - replace (start + bytes_of cur + bytes_of (c :: rest))
      with (start + bytes_of (cur ++ [c]) + bytes_of rest)
      by (rewrite bytes_of_app, !bytes_of_cons, bytes_of_nil by done; lia).
    apply IH; [simpl in Hf; lia| |done]. apply Forall_app; split; [done|by constructor].
Qed.

Section table.
Context (hi : Z).

Lemma lines_ok_le s L : lines_ok hi s L -> s <= hi.
Proof.
  induction 1 as [s cs Hcs Hend|s cs s' L Hcs Hlt H IH]; pose proof (bytes_of_nonneg cs); lia.
Qed.

Lemma lines_ok_get s L i m :
  lines_ok hi s L -> get L i = Some m ->
  exists s' cs, m = metrics_of s' cs /\ scalars cs /\ s <= s' /\ s' + bytes_of cs <= hi.
Proof.
  intros H. revert i. induction H as [s cs Hcs Hend|s cs s' L Hcs Hlt H IH]; intros i Hg;
    pose proof (get_Some_range _ _ _ Hg) as Hr; pose proof (bytes_of_nonneg cs);
    (destruct (decide (i = 0)) as [->|Hi];
     [|rewrite zlen_cons in Hr; rewrite get_cons_S in Hg by lia]).
  - rewrite get_cons_0 in Hg. simplify_eq. exists s, cs. split_and!; done || lia.
  - unfold zlen in Hr. simpl in Hr. lia.
  - rewrite get_cons_0 in Hg. simplify_eq. apply lines_ok_le in H.
    exists s, cs. split_and!; done || lia.
  - destruct (IH _ Hg) as (s1 & cs1 & -> & ? & ? & ?). exists s1, cs1. split_and!; done || lia.
Qed.

Lemma lines_ok_apart s L i j m m' :
  lines_ok hi s L -> get L i = Some m -> get L j = Some m' -> i < j -> lm_end m < lm_start m'.
Proof.
  intros H. revert i j. induction H as [s cs Hcs Hend|s cs s' L Hcs Hlt H IH]; intros i j Hi Hj Hij;
    pose proof (get_Some_range _ _ _ Hi) as Hri; pose proof (get_Some_range _ _ _ Hj) as Hrj.
  - unfold zlen in *. simpl in *. lia.
  - rewrite get_cons_S in Hj by lia. destruct (decide (i = 0)) as [->|].
    + rewrite get_cons_0 in Hi. simplify_eq.
      destruct (lines_ok_get _ _ _ _ H Hj) as (s1 & cs1 & -> & _ & ? & _). simpl. lia.
    + rewrite get_cons_S in Hi by lia. apply (IH (i - 1) (j - 1)); done || lia.
Qed.

Lemma lines_ok_count s L : lines_ok hi s L -> 1 <= zlen L <= hi - s + 1.
Proof.
  induction 1 as [s cs Hcs Hend|s cs s' L Hcs Hlt H IH]; rewrite zlen_cons;
    pose proof (bytes_of_nonneg cs); [|lia]. change (zlen (@nil LineMetrics)) with 0. lia.
Qed.

Lemma lines_ok_start s L i m : lines_ok hi s L -> get L i = Some m -> s + i <= lm_start m.
Proof.
  intros H. revert i. induction H as [s cs Hcs Hend|s cs s' L Hcs Hlt H IH]; intros i Hg; pose proof (get_Some_range _ _ _ Hg) as Hr; pose proof (bytes_of_nonneg cs);
    (destruct (decide (i = 0)) as [->|Hi]; [rewrite get_cons_0 in Hg; simplify_eq; cbn [lm_start metrics_of]; lia|rewrite zlen_cons in Hr; rewrite get_cons_S in Hg by lia]).
  - unfold zlen in Hr. simpl in Hr. lia.
  - apply IH in Hg. lia.
Qed.

Lemma lines_ok_start_le s L i m :
  lines_ok hi s L -> get L i = Some m -> lm_start m <= lm_end m.
Proof.
  intros H Hg. destruct (lines_ok_get _ _ _ _ H Hg) as (s1 & cs1 & -> & _ & _ & _).
  simpl. pose proof (bytes_of_nonneg cs1). lia.
Qed.
End table.

(** Binary search finds the line whose closed extent contains the offset. *)
Lemma line_index_for_offset_spec idx hi s k m o :
  lines_ok hi s (lines idx) -> get (lines idx) k = Some m -> lm_start m <= o <= lm_end m ->
  line_index_for_offset idx o = Some k.
Proof.
  intros Hok Hk Ho. unfold line_index_for_offset, binary_search_by_key.
  assert (strictly_increasing (map lm_start (lines idx))) as Hinc.
  { intros i j x y Hx Hy Hij. rewrite get_map in Hx, Hy.
    destruct (get (lines idx) i) as [mi|] eqn:Ei; [|done].
    destruct (get (lines idx) j) as [mj|] eqn:Ej; [|done]. simpl in *. simplify_eq.
    pose proof (lines_ok_apart _ _ _ _ _ _ _ Hok Ei Ej Hij).
    pose proof (lines_ok_start_le _ _ _ _ _ Hok Ei). lia. }
  destruct (binary_search _ o) as [i|i] eqn:E.
  - apply binary_search_Ok in E. rewrite get_map in E.
    destruct (get (lines idx) i) as [mi|] eqn:Ei; [|done]. simpl in E. simplify_eq. f_equal.
    pose proof (lines_ok_start_le _ _ _ _ _ Hok Ei).
    destruct (Z.lt_trichotomy i k) as [H1|[->|H1]]; [|done|].
    + pose proof (lines_ok_apart _ _ _ _ _ _ _ Hok Ei Hk H1). lia.
    + pose proof (lines_ok_apart _ _ _ _ _ _ _ Hok Hk Ei H1). lia.
  - apply binary_search_Err in E as (Hr & Hlo & Hhi); [|done].
    pose proof (get_Some_range _ _ _ Hk) as Hkr.
    assert (k < i) as Hki.
    { destruct (Z_lt_le_dec k i) as [|Hge]; [done|].
      pose proof (Hhi k (lm_start m) Hge) as H'. rewrite get_map, Hk in H'. specialize (H' eq_refl). lia. }
    destruct (i =? 0) eqn:E0; [lia|]. f_equal.
    destruct (Z_lt_le_dec k (i - 1)) as [Hlt|]; [|lia].
    unfold zlen in Hr. rewrite length_map in Hr. fold (zlen (lines idx)) in Hr.
    destruct (get_is_Some (lines idx) (i - 1)) as [mi Ei]; [lia|].
    pose proof (Hlo (i - 1) (lm_start mi) ltac:(lia)) as H'. rewrite get_map, Ei in H'.
    specialize (H' eq_refl). pose proof (lines_ok_apart _ _ _ _ _ _ _ Hok Hk Ei Hlt). lia.
Qed.

(** ** Agreement with [locate] *)

Lemma spec_lines_head fuel start cur cs :
  scalars cs ->
  exists b L, spec_lines fuel start cur cs = metrics_of start (cur ++ b) :: L /\ scalars b.
Proof.
  revert cur cs. induction fuel as [|fuel IH]; intros cur cs Hcs.
  { exists [], []. rewrite app_nil_r. by split; [|constructor]. }
  destruct cs as [|c rest]; [exists [], []; rewrite app_nil_r; by split; [|constructor]|].
  cbn [spec_lines]. destruct (break_here (c :: rest)) as [w|].
  - eexists [], _. rewrite app_nil_r. by split; [|constructor].
  - inversion Hcs; subst. destruct (IH (cur ++ [c]) rest) as (b & L & -> & Hb); [done|].
    exists (c :: b), L. rewrite <- app_assoc. by split; [|constructor].
Qed.

Lemma break_here_app pre post :
  pre <> [] -> ~ splits_crlf pre post -> break_here (pre ++ post) = break_here pre.
Proof.
  intros Hne Hns. destruct pre as [|c [|d pre]]; [done| |done].
  simpl. destruct post as [|d post]; [done|]. destruct (c =? CR) eqn:E1; [|done].
  destruct (d =? LF) eqn:E2; [|done]. exfalso. apply Hns.
  apply Z.eqb_eq in E1, E2. subst. by split.
Qed.

Lemma break_here_width cs w :
  break_here cs = Some w -> (0 < w <= length cs)%nat.
Proof.
  destruct cs as [|c cs]; [done|]. unfold break_here. intros H.
  repeat case_match; simplify_eq; simpl; lia.
Qed.

Lemma splits_crlf_drop w pre post : splits_crlf (drop w pre) post -> splits_crlf pre post.
Proof.
  intros [H1 H2]. split; [|done]. rewrite <- (take_drop w pre), last_app, H1. done.
Qed.

Lemma break_bytes cs w :
  scalars cs -> break_here cs = Some w -> Z.of_nat w + bytes_of (drop w cs) = bytes_of cs.
Proof.
  intros Hcs Hw. pose proof (spec_lines_ok 1 0 [] (take w cs)).
  destruct cs as [|c rest]; [done|]. inversion Hcs as [|? ? Hc Hrest]; subst.
  unfold break_here in Hw. rewrite bytes_of_cons by done.
  destruct (c =? CR) eqn:E1; [apply Z.eqb_eq in E1|destruct (c =? LF) eqn:E2; [apply Z.eqb_eq in E2|done]];
    subst; [destruct rest as [|d rest]; [|destruct (d =? LF) eqn:E3]|]; simplify_eq; simpl drop; try done.
  apply Z.eqb_eq in E3. subst. rewrite bytes_of_cons by done. by rewrite drop_0, Z.add_assoc.
Qed.

Lemma locate_spec fuel pre : forall fuel' start cur line post line' col units,
  (length pre <= fuel)%nat -> (length (pre ++ post) <= fuel')%nat ->
  scalars cur -> scalars (pre ++ post) -> ~ splits_crlf pre post ->
  locate fuel line (zlen cur) (units_of cur) pre = (line', col, units) ->
  exists s' a b,
    line <= line' /\
    get (spec_lines fuel' start cur (pre ++ post)) (line' - line) = Some (metrics_of s' (a ++ b)) /\
    scalars (a ++ b) /\ zlen a = col /\ units_of a = units /\
    s' + bytes_of a = start + bytes_of cur + bytes_of pre.
Proof.
  revert pre. induction fuel as [|fuel IH];
    intros pre fuel' start cur line post line' col units Hf Hf' Hcur Hs Hns Hloc;
    (destruct pre as [|c rest];
     [simpl in Hloc; simplify_eq; destruct (spec_lines_head fuel' start cur post Hs) as (b & L & HL & Hb);
      exists start, cur, b; simpl app; rewrite HL, Z.sub_diag, bytes_of_nil;
      split_and!; try (done || lia); by apply Forall_app|]);
    [simpl in Hf; lia|].
  destruct fuel' as [|fuel']; [simpl in Hf'; lia|].
  change ((c :: rest) ++ post) with (c :: (rest ++ post)) in *. cbn [spec_lines].
  pose proof (break_here_app (c :: rest) post ltac:(done) Hns) as Hbr.
  change ((c :: rest) ++ post) with (c :: (rest ++ post)) in Hbr.
  cbn [locate] in Hloc. rewrite Hbr.
  assert (scalars (c :: rest)) as Hpre by (by apply (Forall_app _ (c :: rest) post) in Hs as [? _]).
  destruct (break_here (c :: rest)) as [w|] eqn:Ew.
  - pose proof (break_here_width _ _ Ew) as Hw.
    assert (drop w (c :: rest ++ post) = drop w (c :: rest) ++ post) as Hd.
    { change (c :: rest ++ post) with ((c :: rest) ++ post). rewrite drop_app_le by lia. done. }
    destruct (IH (drop w (c :: rest)) fuel' (start + bytes_of cur + Z.of_nat w) [] (line + 1) post
                line' col units) as (s' & a & b & Hle & Hg & ? & ? & ? & Hb).
    { rewrite length_drop. simpl in *. lia. }
    { rewrite length_app, length_drop. simpl in *. rewrite length_app in Hf'. lia. }
    { by constructor. }
    { rewrite <- Hd. by apply Forall_drop. }
    { intros H. apply Hns. by eapply splits_crlf_drop. }
    { done. }
    exists s', a, b. rewrite Hd, get_cons_S by lia.
    replace (line' - line - 1) with (line' - (line + 1)) by lia.
    pose proof (break_bytes _ _ Hpre Ew). rewrite bytes_of_nil in Hb. split_and!; done || lia.
  - inversion Hpre as [|? ? Hc Hrest]; subst.
    replace (zlen cur + 1) with (zlen (cur ++ [c])) in Hloc by (rewrite zlen_app; done).
    replace (units_of cur + len_utf16 c) with (units_of (cur ++ [c])) in Hloc
      by (rewrite units_of_app; unfold units_of; simpl; lia).
    destruct (IH rest fuel' start (cur ++ [c]) line post line' col units)
      as (s' & a & b & Hle & Hg & ? & ? & ? & Hb); try done.
    { simpl in Hf; lia. }
    { simpl in Hf'; lia. }
    { apply Forall_app; split; [done|by constructor]. }
    { by inversion Hs. }
    { intros H. apply Hns. by apply (splits_crlf_drop 1). }
    exists s', a, b. rewrite bytes_of_app in Hb. rewrite !bytes_of_cons, bytes_of_nil in * by done.
    split_and!; done || lia.
Qed.

(** Each line of the table is a piece of the text at its offset. *)
Lemma spec_lines_content fuel start cur cs k m :
  (length cs <= fuel)%nat -> scalars cs -> get (spec_lines fuel start cur cs) k = Some m ->
  exists pre ls post, cur ++ cs = pre ++ ls ++ post /\ m = metrics_of (start + bytes_of pre) ls.
Proof.
  revert start cur cs k. induction fuel as [|fuel IH]; intros start cur cs k Hf Hcs Hg;
    (destruct cs as [|c rest];
     [cbn [spec_lines] in Hg; pose proof (get_Some_range _ _ _ Hg) as Hr; unfold zlen in Hr; simpl in Hr;
      assert (k = 0) as -> by lia; rewrite get_cons_0 in Hg; simplify_eq;
      exists [], cur, []; rewrite bytes_of_nil, Z.add_0_r; by simplify_list_eq|]);
    [simpl in Hf; lia|].
  cbn [spec_lines] in Hg. destruct (break_here (c :: rest)) as [w|] eqn:Ebr.
  - destruct (decide (k = 0)) as [->|Hk].
    { rewrite get_cons_0 in Hg. simplify_eq. exists [], cur, (c :: rest).
      by rewrite bytes_of_nil, Z.add_0_r. }
    pose proof (get_Some_range _ _ _ Hg). rewrite get_cons_S in Hg by lia.
    pose proof (break_here_width _ _ Ebr) as Hw.
    apply IH in Hg as (pre & ls & post & Heq & ->);
      [|rewrite length_drop; simpl in *; lia|by apply Forall_drop].
    exists (cur ++ take w (c :: rest) ++ pre), ls, post. split.
    + rewrite <- !app_assoc, <- Heq. f_equal. cbn [app]. by rewrite take_drop.
    + f_equal. pose proof (break_bytes _ _ Hcs Ebr) as Hb.
      rewrite <- (take_drop w (c :: rest)) in Hb at 2. rewrite bytes_of_app in Hb.
      rewrite !bytes_of_app. lia.
  - apply IH in Hg as (pre & ls & post & Heq & ->); [|simpl in Hf; lia|by inversion Hcs].
    exists pre, ls, post. rewrite <- Heq, <- app_assoc. done.
Qed.

(** ** Whole-index lookups *)

Section built.
Context (cs : list char) (idx : LineIndex).
Context (Hcs : scalars cs).
Context (Hnew : LineIndex_new (utf8 cs) = Ret (Ok idx)).

Lemma built_max : bytes_of cs <= U32_MAX.
Proof.
  destruct (Z_le_gt_dec (bytes_of cs) U32_MAX) as [H|H]; [done|]. revert Hnew. unfold LineIndex_new, TextSize_try_from, u32_try_from.
  rewrite (proj2 (checked_None U32_MAX (zlen (utf8 cs)))) by (unfold bytes_of in H; lia). done.
Qed.

Lemma built_index : idx = {| li_text_len := bytes_of cs; lines := spec_lines (length cs) 0 [] cs |}.
Proof. pose proof built_max. rewrite LineIndex_new_spec in Hnew by (done || lia). by simplify_eq. Qed.

Lemma built_lines_ok : lines_ok (bytes_of cs) 0 (lines idx).
Proof.
  rewrite built_index. simpl. pose proof (spec_lines_ok (length cs) 0 [] cs) as H.
  rewrite bytes_of_nil in H. apply H; done || by constructor.
Qed.

Lemma built_line k m :
  get (lines idx) k = Some m ->
  exists s ls, m = metrics_of s ls /\ scalars ls /\ 0 <= k <= s /\ s + bytes_of ls <= bytes_of cs.
Proof.
  intros Hk. destruct (lines_ok_get _ _ _ _ _ built_lines_ok Hk) as (s & ls & -> & ? & ? & ?).
  pose proof (lines_ok_start _ _ _ _ _ built_lines_ok Hk) as Hstart. pose proof (get_Some_range _ _ _ Hk). cbn [lm_start metrics_of] in Hstart.
  exists s, ls. split_and!; done || lia.
Qed.

(** The position of the offset [a] bytes into line [k]. *)
Lemma built_position k s a b :
  get (lines idx) k = Some (metrics_of s (a ++ b)) -> scalars (a ++ b) ->
  LineIndex_position idx (s + bytes_of a) = Ret (if numbered k (zlen a) then Some (position_at k a) else None) /\
  (s + bytes_of a < U32_MAX -> numbered k (zlen a) = true).
Proof.
  pose proof built_max as Hmax. intros Hk Hab. destruct (built_line _ _ Hk) as (s1 & ls & Heq & Hls & Hs & Hle).
  assert (s1 = s /\ bytes_of ls = bytes_of (a ++ b)) as [-> Hb].
  { unfold metrics_of in Heq. simplify_eq. lia. }
  rewrite bytes_of_app in Hb. pose proof (bytes_of_nonneg a). pose proof (bytes_of_nonneg b).
  assert (scalars a) as Ha by (by apply Forall_app in Hab as [? _]).
  pose proof (zlen_le_bytes a Ha). split; [|unfold numbered; lia]. unfold LineIndex_position.
  replace (li_text_len idx) with (bytes_of cs) by (by rewrite built_index).
  destruct (bytes_of cs <? s + bytes_of a) eqn:E; [lia|].
  rewrite (line_index_for_offset_spec idx _ _ k _ _ built_lines_ok Hk)
    by (cbn [lm_start lm_end metrics_of]; rewrite bytes_of_app; lia).
  rewrite Hk. unfold u32_try_from. rewrite checked_ok by lia.
  apply LineMetrics_position_spec; done || lia.
Qed.

(** Every resolvable offset is such a position. *)
Lemma built_position_inv o p :
  LineIndex_position idx o = Ret (Some p) ->
  exists k s a b, get (lines idx) k = Some (metrics_of s (a ++ b)) /\ scalars (a ++ b) /\
    o = s + bytes_of a /\ p = position_at k a.
Proof.
  intros H. pose proof H as Hp. unfold LineIndex_position in H.
  destruct (_ <? o); [done|]. destruct (line_index_for_offset idx o) as [k|]; [|done].
  destruct (get (lines idx) k) as [m|] eqn:Hk; [|done].
  destruct (u32_try_from k) as [n|]; [|done].
  destruct (built_line _ _ Hk) as (s & ls & -> & Hls & _).
  destruct (LineMetrics_position_inv _ _ _ _ _ Hls H) as (a & b & -> & ->).
  exists k, s, a, b. split_and!; try done.
  destruct (built_position k s a b Hk Hls) as [E _]. rewrite E in Hp. by destruct (numbered k (zlen a)); [congruence|].
Qed.

Lemma built_offset k s a b :
  get (lines idx) k = Some (metrics_of s (a ++ b)) -> scalars (a ++ b) ->
  offset_for_lsp_position idx {| LspPosition_line := k; LspPosition_character := units_of a |}
  = Some (s + bytes_of a).
Proof.
  pose proof built_max as Hmax. intros Hk Hab. destruct (built_line _ _ Hk) as (s1 & ls & _ & _ & Hs & Hle). pose proof (bytes_of_nonneg ls).
  unfold offset_for_lsp_position. simpl.
  rewrite usize_try_from_u32 by (unfold in_u32; lia). rewrite Hk.
  by apply offset_for_lsp_character_spec.
Qed.

Lemma built_offset_inv p o :
  offset_for_lsp_position idx p = Some o ->
  exists k s a b, get (lines idx) k = Some (metrics_of s (a ++ b)) /\ scalars (a ++ b) /\
    o = s + bytes_of a /\ p = {| LspPosition_line := k; LspPosition_character := units_of a |}.
Proof.
  intros H. unfold offset_for_lsp_position in H. destruct p as [k ch]. simpl in H.
  destruct (usize_try_from k) as [k'|] eqn:Ek; [|done].
  apply checked_Some in Ek as [-> _].
  destruct (get (lines idx) k) as [m|] eqn:Hk; [|done].
  destruct (built_line _ _ Hk) as (s & ls & -> & Hls & _).
  destruct (offset_for_lsp_character_inv _ _ _ _ H) as (a & b & -> & ->).
  exists k, s, a, b. split_and!; try done.
  rewrite offset_for_lsp_character_spec in H by done. congruence.
Qed.

(** An LSP position only ever resolves to a scalar boundary. *)
Lemma built_offset_boundary p o :
  offset_for_lsp_position idx p = Some o -> boundary (utf8 cs) o.
Proof.
  intros H. unfold offset_for_lsp_position in H.
  destruct (usize_try_from _) as [k|]; [|done].
  destruct (get (lines idx) k) as [m|] eqn:Hk; [|done].
  rewrite built_index in Hk. cbn [lines] in Hk.
  apply spec_lines_content in Hk as (pre & ls & post & Heq & ->); [|done|done].
  simpl in Heq. rewrite Heq in Hcs.
  destruct (offset_for_lsp_character_inv _ _ _ _ H) as (a & b & -> & Hu).
  rewrite Hu, offset_for_lsp_character_spec in H
    by (apply Forall_app in Hcs as [_ Hcs']; by apply Forall_app in Hcs' as [? _]).
  injection H as <-. exists (pre ++ a), (b ++ post).
  rewrite <- app_assoc, app_assoc in Hcs. apply Forall_app in Hcs as [Hc1 Hc2].
  split_and!; [done|done| |].
  - by rewrite Heq, <- utf8_app, <- !app_assoc.
  - change (zlen (utf8 (pre ++ a))) with (bytes_of (pre ++ a)). rewrite bytes_of_app. lia.
Qed.
End built.

(** ** Theorems *)

(** Building the index of a valid UTF-8 text never panics: it succeeds
    exactly when the text length fits a [TextSize], and otherwise reports that
    length. *)
Theorem line_index_new_total text :
  valid_utf8 text ->
  returns (LineIndex_new text) (fun r =>
    match r with
    | Ok idx => zlen text <= U32_MAX /\ li_text_len idx = zlen text
    | Err e => U32_MAX < zlen text /\ TextSizeOverflow_bytes e = zlen text
    end).
Proof.
  intros (cs & Hcs & ->). destruct (Z_le_gt_dec (bytes_of cs) U32_MAX) as [H|H].
  - rewrite LineIndex_new_spec by done. apply returns_ret. by split.
  - unfold LineIndex_new, TextSize_try_from, u32_try_from.
    rewrite (proj2 (checked_None U32_MAX (zlen (utf8 cs)))) by (unfold bytes_of in H; lia).
    apply returns_ret. unfold bytes_of in H. simpl. split; lia.
Qed.


(** C26. Functional correctness of lookups: for every text of which an index can be
    built (at most [2^32 - 1] bytes), split as [pre ++ post] at a scalar boundary
    that is not inside a CRLF, the index reports the line, column and UTF-16 column
    that [locate] counts while reading [pre].  The one exception is the offset
    [2^32 - 1], which is the end of a text of that length: where its one-based line
    or column is not a number of 32 bits, both lookups return [None]. *)
Theorem line_index_position_correct pre post idx line col units :
  scalars (pre ++ post) -> ~ splits_crlf pre post ->
  LineIndex_new (utf8 (pre ++ post)) = Ret (Ok idx) ->
  locate (length pre) 0 0 0 pre = (line, col, units) ->
  LineIndex_line_column idx (bytes_of pre)
    = Ret (if numbered line col then Some {| LineColumn_line := line + 1; LineColumn_column := col + 1 |} else None) /\
  LineIndex_lsp_position idx (bytes_of pre)
    = Ret (if numbered line col then Some {| LspPosition_line := line; LspPosition_character := units |} else None) /\
  (bytes_of pre < U32_MAX -> numbered line col = true).
Proof.
  intros Hs Hns Hnew Hloc.
  destruct (locate_spec (length pre) pre (length (pre ++ post)) 0 [] 0 post line col units)
    as (s' & a & b & _ & Hg & Hab & <- & <- & Hb); try done; [by constructor|].
  rewrite bytes_of_nil, !Z.add_0_l, Z.sub_0_r in *.
  pose proof (built_index _ _ Hs Hnew) as Hidx.
  destruct (built_position _ _ Hs Hnew line s' a b) as [Hp Hn]; [by rewrite Hidx|done|]. rewrite Hb in Hp, Hn.
  unfold LineIndex_line_column, LineIndex_lsp_position. rewrite Hp. by destruct (numbered line (zlen a)).
Qed.

(** C30. The LSP mapping round-trips on every text of which an index can be built:
    the position of an offset maps back to the offset, and an offset that a position
    maps to has that position, except that the offset [2^32 - 1] at the end of a text
    of that length may have none. *)
Theorem lsp_position_round_trip text idx o p :
  valid_utf8 text -> LineIndex_new text = Ret (Ok idx) ->
  (LineIndex_lsp_position idx o = Ret (Some p) -> offset_for_lsp_position idx p = Some o) /\
  (offset_for_lsp_position idx p = Some o ->
     LineIndex_lsp_position idx o = Ret (Some p) \/
     o = U32_MAX /\ zlen text = U32_MAX /\ LineIndex_lsp_position idx o = Ret None).
Proof.
  intros (cs & Hcs & ->) Hnew. unfold LineIndex_lsp_position. split.
  - destruct (LineIndex_position idx o) as [r| |] eqn:E; simpl; [|done..].
    destruct r as [q|]; [|done]. intros Heq.
    destruct (built_position_inv _ _ Hcs Hnew _ _ E) as (k & s & a & b & Hk & Hab & -> & ->).
    simpl in Heq. simplify_eq. by apply (built_offset _ _ Hcs Hnew _ _ _ b).
  - intros H. destruct (built_offset_inv _ _ Hcs Hnew _ _ H) as (k & s & a & b & Hk & Hab & -> & ->).
    destruct (built_position _ _ Hcs Hnew _ _ _ _ Hk Hab) as [-> Hn]. destruct (numbered k (zlen a)); [by left|right].
    destruct (boundary_range _ _ (built_offset_boundary _ _ Hcs Hnew _ _ H)) as [_ Hr]. pose proof (built_max _ _ Hnew) as Hm. unfold bytes_of in Hm at 1.
    destruct (Z_lt_le_dec (s + bytes_of a) U32_MAX); [by apply Hn in l|]. split_and!; [lia|lia|done].
Qed.

(** A two-line sample with a CRLF and a supplementary-plane scalar. *)
Definition sample_pre : list char := [97; 13; 10; 0x1F600].
Definition sample_post : list char := [98].

Definition sample_index : LineIndex :=
  match LineIndex_new (utf8 (sample_pre ++ sample_post)) with
  | Ret (Ok idx) => idx
  | _ => {| li_text_len := 0; lines := [] |}
  end.

Lemma sample_not_split : ~ splits_crlf sample_pre sample_post.
Proof. intros [H _]. vm_compute in H. discriminate. Qed.

Lemma line_index_position_correct_witness :
  LineIndex_line_column sample_index (bytes_of sample_pre)
    = Ret (Some {| LineColumn_line := 2; LineColumn_column := 2 |}) /\
  LineIndex_lsp_position sample_index (bytes_of sample_pre)
    = Ret (Some {| LspPosition_line := 1; LspPosition_character := 2 |}).
Proof.
  destruct (line_index_position_correct sample_pre sample_post sample_index 1 1 2) as (H1 & H2 & _).
  - repeat constructor.
  - exact sample_not_split.
  - vm_compute. reflexivity.
  - vm_compute. reflexivity.
  - split; [exact H1|exact H2].
Defined.

Lemma lsp_position_round_trip_witness :
  LineIndex_lsp_position sample_index 7
    = Ret (Some {| LspPosition_line := 1; LspPosition_character := 2 |}) /\
  offset_for_lsp_position sample_index {| LspPosition_line := 1; LspPosition_character := 2 |} = Some 7.
Proof.
  split; [vm_compute; reflexivity|].
  apply (lsp_position_round_trip (utf8 (sample_pre ++ sample_post))).
  - exists (sample_pre ++ sample_post). split; [repeat constructor|reflexivity].
  - vm_compute. reflexivity.
  - vm_compute. reflexivity.
Defined.
