(* ===== verification/Snapshot.v ===== *)
(** * Source snapshots and edits

    [bray-source]: the origin of a source ([origin.rs], data only), immutable snapshots with their checksum ([snapshot.rs]), the
    byte-order-mark handling of [encoding.rs] and byte-range edits ([edit.rs]).

    [WfSnapshot] is the interface between the producers of snapshots and their
    consumers: the text is valid UTF-8 and its recorded length and checksum
    are those of the text.  Loading and editing establish it, line indexing
    and lexing rely on it. *)

From Stdlib Require Import ZArith Lia String.
From stdpp Require Import base list numbers option.
From S2P Require Import Prelude Utf8 SourceText.

(** ** Origins *)

Inductive SourceOrigin :=
| OriginFile (path : list u8)
| OriginVirtual (name : str)
| OriginGenerated (name : str)
| OriginLspDocument (uri : str)
| OriginTestFixture (name : str)
| OriginStdin.

Inductive SourceOriginKind :=
| KindFile | KindVirtual | KindGenerated | KindLspDocument | KindTestFixture | KindStdin.

Definition SourceOrigin_kind (o : SourceOrigin) : SourceOriginKind :=
  match o with
  | OriginFile _ => KindFile
  | OriginVirtual _ => KindVirtual
  | OriginGenerated _ => KindGenerated
  | OriginLspDocument _ => KindLspDocument
  | OriginTestFixture _ => KindTestFixture
  | OriginStdin => KindStdin
  end.

(** ** Byte order marks *)

Definition UTF8_BOM_BYTES : list u8 := [0xEF; 0xBB; 0xBF].
Definition UTF8_BOM_CHARACTER : char := 0xFEFF.

Definition leading_utf8_bom_len (bytes : list u8) : usize :=
  if starts_with bytes UTF8_BOM_BYTES then zlen UTF8_BOM_BYTES else 0.

Definition decode_source_bytes (bytes : list u8) : result str Utf8Error :=
  let byte_order_mark_len := leading_utf8_bom_len bytes in
  let bytes := if 0 <? byte_order_mark_len then zdrop byte_order_mark_len bytes else bytes in
  from_utf8 bytes.

(** [text.starts_with(char)] looks at the leading scalar. *)
Definition normalize_source_text (text : str) : str :=
  if bool_decide (first_char text = Some UTF8_BOM_CHARACTER)
  then zdrop (len_utf8 UTF8_BOM_CHARACTER) text
  else text.

(** ** Checksums: 64-bit FNV-1a *)

Definition FNV_OFFSET_BASIS : u64 := 0xcbf29ce484222325.
Definition FNV_PRIME : u64 := 0x00000100000001b3.

Definition fnv_step (checksum byte : u64) : u64 :=
  (Z.lxor checksum byte * FNV_PRIME) mod 2 ^ 64.

Definition SourceChecksum_for_bytes (bytes : list u8) : u64 :=
  fold_left fnv_step bytes FNV_OFFSET_BASIS.

Definition SourceChecksum_for_text (text : str) : u64 := SourceChecksum_for_bytes text.

Example checksum_abc : SourceChecksum_for_text (lit "abc") = 0xe71fa2190541574b.
Proof. reflexivity. Qed.

(** ** Snapshots *)

Record SourceSnapshot := {
  source_id : SourceId;
  identity : SourceIdentity;
  origin : SourceOrigin;
  version : SourceVersion;
  checksum : u64;
  text_len : TextSize;
  text : str;
}.

Definition SourceSnapshot_new (source_id : SourceId) (identity : SourceIdentity)
    (origin : SourceOrigin) (version : SourceVersion) (text : str)
    : result SourceSnapshot TextSizeOverflow :=
  let? text_len := TextSize_try_from (zlen text) in
  let checksum := SourceChecksum_for_text text in
  Ok {| source_id := source_id; identity := identity; origin := origin; version := version;
        checksum := checksum; text_len := text_len; text := text |}.

Definition SourceSnapshot_bytes (s : SourceSnapshot) : list u8 := text s.

Definition SourceSnapshot_text_slice (s : SourceSnapshot) (range : TextRange) : option str :=
  TextRange_slice_str range (text s).

Definition SourceSnapshot_byte_slice (s : SourceSnapshot) (range : TextRange) : option (list u8) :=
  TextRange_slice_bytes range (SourceSnapshot_bytes s).

Definition SourceSnapshot_full_range (s : SourceSnapshot) : outcome TextRange :=
  TextRange_new 0 (text_len s).

Definition SourceSnapshot_is_empty (s : SourceSnapshot) : bool := text_len s =? 0.

Class WfSnapshot (s : SourceSnapshot) : Prop := {
  wf_text : valid_utf8 (text s);
  wf_text_len : text_len s = zlen (text s);
  wf_fits : zlen (text s) <= U32_MAX;
  wf_checksum : checksum s = SourceChecksum_for_text (text s);
}.

(** ** Edits *)

Record SourceEdit := { edit_range : TextRange; replacement : str }.

Inductive SourceEditError :=
| RangeOutOfBounds (range : TextRange) (text_len : TextSize)
| InvalidUtf8Boundary (range : TextRange)
| EditTextTooLarge (error : TextSizeOverflow).

Definition apply_edit (self : SourceSnapshot) (source_id : SourceId) (version : SourceVersion)
    (edit : SourceEdit) : result SourceSnapshot SourceEditError :=
  let range := edit_range edit in
  if text_len self <? end_ range then Err (RangeOutOfBounds range (text_len self))
  else
    match TextRange_to_usize_range range with
    | None => Err (RangeOutOfBounds range (text_len self))
    | Some (byte_start, byte_end) =>
        match str_get_to (text self) byte_start with
        | None => Err (InvalidUtf8Boundary range)
        | Some prefix =>
            match str_get_from (text self) byte_end with
            | None => Err (InvalidUtf8Boundary range)
            | Some suffix =>
                let edited_len :=
                  match usize_checked_sub (zlen (text self)) (byte_end - byte_start) with
                  | Some len => usize_checked_add len (zlen (replacement edit))
                  | None => None
                  end in
                match edited_len with
                | None => Err (EditTextTooLarge {| TextSizeOverflow_bytes := USIZE_MAX |})
                | Some _ =>
                    map_err EditTextTooLarge
                      (SourceSnapshot_new source_id (identity self) (origin self) version
                         (prefix ++ replacement edit ++ suffix))
                end
            end
        end
    end.

(** ** Lemmas *)

Lemma SourceSnapshot_new_Ok id ident orig ver txt s :
  SourceSnapshot_new id ident orig ver txt = Ok s ->
  zlen txt <= U32_MAX /\ text s = txt /\ text_len s = zlen txt /\ source_id s = id /\
  identity s = ident /\ origin s = orig /\ version s = ver /\
  checksum s = SourceChecksum_for_text txt.
Proof.
  unfold SourceSnapshot_new. destruct (TextSize_try_from (zlen txt)) as [n|e] eqn:E; [|done].
  simpl. intros ?; simplify_eq. simpl. apply TextSize_try_from_Ok in E as [-> [_ ?]].
  by split_and!.
Qed.

Lemma SourceSnapshot_new_fits id ident orig ver txt :
  zlen txt <= U32_MAX ->
  SourceSnapshot_new id ident orig ver txt =
  Ok {| source_id := id; identity := ident; origin := orig; version := ver;
        checksum := SourceChecksum_for_text txt; text_len := zlen txt; text := txt |}.
Proof.
  intros H. unfold SourceSnapshot_new. pose proof (zlen_nonneg txt).
  by rewrite TextSize_try_from_ok by (unfold in_u32; lia).
Qed.

Lemma SourceSnapshot_new_wf id ident orig ver txt s :
  valid_utf8 txt -> SourceSnapshot_new id ident orig ver txt = Ok s -> WfSnapshot s.
Proof.
  intros Hv (H1 & H2 & H3 & H4 & H5 & H6 & H7 & H8)%SourceSnapshot_new_Ok.
  constructor; rewrite H2; done.
Qed.

(** A byte order mark in front of a text is its encoded scalar. *)
Lemma starts_with_app p r : starts_with (p ++ r) p = true.
Proof. induction p as [|b p IH]; simpl; [done|]. by rewrite Z.eqb_refl. Qed.

Lemma starts_with_inv bs p : starts_with bs p = true -> exists r, bs = p ++ r.
Proof.
  revert bs. induction p as [|b p IH]; intros bs H; [by exists bs|].
  destruct bs as [|x bs]; [done|]. simpl in H. apply andb_true_iff in H as [Hb H].
  apply Z.eqb_eq in Hb. subst. destruct (IH _ H) as [r ->]. by exists r.
Qed.

Lemma bom_bytes_encode : UTF8_BOM_BYTES = encode_utf8 UTF8_BOM_CHARACTER.
Proof. reflexivity. Qed.

Lemma starts_with_bom_char bs :
  valid_utf8 bs ->
  starts_with bs UTF8_BOM_BYTES = bool_decide (first_char bs = Some UTF8_BOM_CHARACTER).
Proof.
  intros (cs & Hcs & ->). case_bool_decide as H.
  - destruct cs as [|c cs]; [done|]. rewrite first_char_valid in H by done. simplify_eq.
    rewrite utf8_cons, <- bom_bytes_encode. apply starts_with_app.
  - apply not_true_is_false. intros [r Hr]%starts_with_inv. apply H.
    rewrite Hr, bom_bytes_encode. by apply first_char_encode.
Qed.

Lemma normalize_source_text_valid bs : valid_utf8 bs -> valid_utf8 (normalize_source_text bs).
Proof.
  intros Hv. unfold normalize_source_text. case_bool_decide as H; [|done].
  pose proof (boundary_0 _ Hv) as Hb.
  assert (0 < zlen bs) as Hlen by (destruct bs; [done|]; rewrite zlen_cons; pose proof (zlen_nonneg bs); lia).
  destruct (boundary_step bs 0 Hb Hlen) as (c & Hc & _ & Hn).
  rewrite zdrop_0, H in Hc. simplify_eq. by apply boundary_zdrop_valid.
Qed.

Lemma decode_source_bytes_eq bs :
  decode_source_bytes bs = from_utf8 (zdrop (leading_utf8_bom_len bs) bs).
Proof.
  unfold decode_source_bytes. destruct (0 <? _) eqn:E; [done|].
  unfold leading_utf8_bom_len in *. destruct (starts_with _ _); [done|]. by rewrite zdrop_0.
Qed.

(** On valid UTF-8 the two normalisations agree. *)
Lemma decode_source_bytes_valid bs :
  valid_utf8 bs -> decode_source_bytes bs = Ok (normalize_source_text bs).
Proof.
  intros Hv. rewrite decode_source_bytes_eq.
  assert (zdrop (leading_utf8_bom_len bs) bs = normalize_source_text bs) as ->.
  { unfold leading_utf8_bom_len, normalize_source_text. rewrite starts_with_bom_char by done.
    case_bool_decide; [done|by rewrite zdrop_0]. }
  pose proof (normalize_source_text_valid bs Hv). by apply from_utf8_valid; [apply valid_utf8_bytes|].
Qed.

(** The edited text. *)
Definition edited_text (t : str) (r : TextRange) (repl : str) : str :=
  ztake (start r) t ++ repl ++ zdrop (end_ r) t.

Lemma zlen_edited_text t r repl :
  0 <= start r <= end_ r -> end_ r <= zlen t ->
  zlen (edited_text t r repl) = zlen t - (end_ r - start r) + zlen repl.
Proof.
  intros ??. unfold edited_text. rewrite !zlen_app, zlen_ztake, zlen_zdrop by lia. lia.
Qed.

Lemma edited_text_valid t r repl :
  boundary t (start r) -> boundary t (end_ r) -> valid_utf8 repl ->
  valid_utf8 (edited_text t r repl).
Proof.
  intros Hs He Hr. unfold edited_text.
  repeat apply valid_utf8_app; [by apply boundary_ztake_valid|done|by apply boundary_zdrop_valid].
Qed.

(** The success path of [apply_edit]. *)
Lemma apply_edit_fits s `{!WfSnapshot s} id ver e :
  boundary (text s) (start (edit_range e)) -> boundary (text s) (end_ (edit_range e)) ->
  start (edit_range e) <= end_ (edit_range e) -> zlen (replacement e) <= USIZE_MAX - U32_MAX ->
  apply_edit s id ver e =
  map_err EditTextTooLarge
    (SourceSnapshot_new id (identity s) (origin s) ver
       (edited_text (text s) (edit_range e) (replacement e))).
Proof.
  intros Hs He Hle Hrep. pose proof (boundary_range _ _ Hs). pose proof (boundary_range _ _ He).
  pose proof wf_fits. pose proof (zlen_nonneg (replacement e)).
  unfold apply_edit. rewrite wf_text_len. destruct (zlen (text s) <? _) eqn:E; [lia|].
  rewrite range_wf_usize by (unfold range_wf; lia).
  rewrite str_get_to_boundary, str_get_from_boundary by done.
  unfold usize_checked_sub, usize_checked_add. rewrite !checked_ok by (unfold U32_MAX, USIZE_MAX in *; lia).
  done.
Qed.

Lemma apply_edit_Ok_boundaries s `{!WfSnapshot s} id ver e s' :
  range_wf (edit_range e) -> apply_edit s id ver e = Ok s' ->
  boundary (text s) (start (edit_range e)) /\ boundary (text s) (end_ (edit_range e)).
Proof.
  intros Hr. unfold apply_edit. rewrite range_wf_usize by done. destruct (_ <? _); [done|].
  destruct (str_get_to _ _) eqn:E1; [|done]. destruct (str_get_from _ _) eqn:E2; [|done].
  apply str_get_to_Some in E1 as [? _]; [|apply wf_text].
  by apply str_get_from_Some in E2 as [? _]; [|apply wf_text].
Qed.

Lemma apply_edit_Ok s `{!WfSnapshot s} id ver e s' :
  range_wf (edit_range e) -> valid_utf8 (replacement e) ->
  zlen (replacement e) <= USIZE_MAX - U32_MAX -> apply_edit s id ver e = Ok s' ->
  WfSnapshot s' /\ text s' = edited_text (text s) (edit_range e) (replacement e) /\
  identity s' = identity s /\ origin s' = origin s /\ source_id s' = id /\ version s' = ver.
Proof.
  intros Hr Hrep Hsmall Hok. destruct (apply_edit_Ok_boundaries _ _ _ _ _ Hr Hok) as [Hs He].
  destruct Hr as [Hr1 Hr2]. rewrite apply_edit_fits in Hok by (done || lia).
  destruct (SourceSnapshot_new _ _ _ _ _) as [s1|] eqn:En; [|done]. simpl in Hok. simplify_eq.
  pose proof (SourceSnapshot_new_wf _ _ _ _ _ _ (edited_text_valid _ _ _ Hs He Hrep) En).
  apply SourceSnapshot_new_Ok in En as (? & ? & ? & ? & ? & ? & ? & ?). by split_and!.
Qed.

(** C27. [apply_edit] is exact: on a well-formed snapshot it fails with
    [RangeOutOfBounds] iff the range ends past the text, with
    [InvalidUtf8Boundary] iff it is in bounds but splits a scalar, with
    [TextTooLarge] iff the edited text outgrows [TextSize], and otherwise
    yields a well-formed snapshot of the spliced text that keeps identity and
    origin and takes the given id and version. *)
Theorem apply_edit_correct s id ver e :
  WfSnapshot s -> range_wf (edit_range e) -> valid_utf8 (replacement e) ->
  zlen (replacement e) <= USIZE_MAX - U32_MAX ->
  let r := edit_range e in
  let t := edited_text (text s) r (replacement e) in
  match apply_edit s id ver e with
  | Ok s' =>
      boundary (text s) (start r) /\ boundary (text s) (end_ r) /\ WfSnapshot s' /\
      text s' = t /\ identity s' = identity s /\ origin s' = origin s /\
      source_id s' = id /\ version s' = ver
  | Err (RangeOutOfBounds r' n) => r' = r /\ n = text_len s /\ zlen (text s) < end_ r
  | Err (InvalidUtf8Boundary r') =>
      r' = r /\ end_ r <= zlen (text s) /\ ~ (boundary (text s) (start r) /\ boundary (text s) (end_ r))
  | Err (EditTextTooLarge o) => TextSizeOverflow_bytes o = zlen t /\ U32_MAX < zlen t
  end.
Proof.
  intros Hwf Hr Hrep Hsmall r t. pose proof (range_wf_usize _ Hr) as Hu. pose proof Hr as [Hr1 Hr2].
  pose proof wf_text as Hv. destruct (Z_lt_le_dec (zlen (text s)) (end_ r)) as [Hgt|Hle].
  { unfold apply_edit. rewrite wf_text_len. destruct (_ <? _) eqn:E; [done|subst r; lia]. }
  assert (forall i, 0 <= i <= end_ r -> is_char_boundary (text s) i = true <-> boundary (text s) i) as Hb.
  { intros i Hi. split; [apply is_char_boundary_boundary; [done|lia]|apply boundary_is_char_boundary]. }
  destruct (is_char_boundary (text s) (start r)) eqn:Es;
    [destruct (is_char_boundary (text s) (end_ r)) eqn:Ee|].
  - rewrite Hb in Es, Ee by (subst r; lia). destruct (apply_edit s id ver e) as [s'|] eqn:Ea.
    { by destruct (apply_edit_Ok s id ver e s') as (? & ? & ? & ? & ? & ?); [| | | |split_and!]. }
    rewrite apply_edit_fits in Ea by (done || lia).
    change (edited_text (text s) (edit_range e) (replacement e)) with t in Ea.
    destruct (SourceSnapshot_new _ _ _ _ t) as [s'|o] eqn:En; simpl in Ea; simplify_eq.
    unfold SourceSnapshot_new, TextSize_try_from, u32_try_from in En.
      destruct (checked U32_MAX (zlen t)) eqn:Ec; [done|]. simpl in En. simplify_eq.
      apply checked_None in Ec. pose proof (zlen_nonneg t). simpl. split; [done|lia].
  - apply not_true_iff_false in Ee. rewrite Hb in Ee by (subst r; lia).
    unfold apply_edit. rewrite wf_text_len. destruct (_ <? _) eqn:E; [subst r; lia|]. rewrite Hu.
    rewrite Hb in Es by (subst r; lia). rewrite str_get_to_boundary by done.
    unfold str_get_from. fold r. rewrite andb_comm.
    destruct (is_char_boundary (text s) (end_ r)) eqn:E'; [rewrite Hb in E' by (subst r; lia); done|].
    simpl. split_and!; [done|done|tauto].
  - apply not_true_iff_false in Es. rewrite Hb in Es by (subst r; lia).
    unfold apply_edit. rewrite wf_text_len. destruct (_ <? _) eqn:E; [subst r; lia|]. rewrite Hu.
    unfold str_get_to. fold r. rewrite andb_comm.
    destruct (is_char_boundary (text s) (start r)) eqn:E'; [rewrite Hb in E' by (subst r; lia); done|].
    simpl. split_and!; [done|done|tauto].
Qed.

Definition sample_snapshot : SourceSnapshot :=
  {| source_id := {| SourceId_raw := 0 |}; identity := {| SourceIdentity_raw := 7 |};
     origin := OriginLspDocument (lit "untitled:main.bray");
     version := {| SourceVersion_raw := 4 |};
     checksum := SourceChecksum_for_text (lit "let x = 1"); text_len := 9;
     text := lit "let x = 1" |}.

Lemma valid_utf8_ascii bs : Forall (fun b => 0 <= b < 128) bs -> valid_utf8 bs.
Proof.
  intros H. exists bs. split.
  - eapply Forall_impl; [|exact H]. intros b Hb. apply is_scalar_range. simpl in Hb. lia.
  - induction H as [|b bs Hb _ IH]; [done|]. rewrite utf8_cons, <- IH.
    unfold encode_utf8. by destruct (b <? 128) eqn:E; [|lia].
Qed.

Lemma sample_snapshot_wf : WfSnapshot sample_snapshot.
Proof.
  constructor; [|reflexivity|by vm_compute|reflexivity].
  apply valid_utf8_ascii. repeat constructor; by vm_compute.
Qed.

Definition sample_edit : SourceEdit :=
  {| edit_range := {| start := 8; end_ := 9 |}; replacement := lit "20" |}.

Lemma sample_edit_wf :
  range_wf (edit_range sample_edit) /\ valid_utf8 (replacement sample_edit) /\
  zlen (replacement sample_edit) <= USIZE_MAX - U32_MAX.
Proof.
  split_and!; [| |vm_compute; discriminate].
  - unfold range_wf. split_and!; vm_compute; discriminate.
  - apply valid_utf8_ascii. repeat constructor; by vm_compute.
Qed.

Definition sample_edited : SourceSnapshot :=
  {| source_id := {| SourceId_raw := 1 |}; identity := {| SourceIdentity_raw := 7 |};
     origin := OriginLspDocument (lit "untitled:main.bray");
     version := {| SourceVersion_raw := 5 |};
     checksum := SourceChecksum_for_text (lit "let x = 20"); text_len := 10;
     text := lit "let x = 20" |}.

Lemma sample_edit_applies :
  apply_edit sample_snapshot {| SourceId_raw := 1 |} {| SourceVersion_raw := 5 |} sample_edit
  = Ok sample_edited.
Proof. reflexivity. Qed.

Lemma apply_edit_correct_witness :
  WfSnapshot sample_edited /\ text sample_edited = lit "let x = 20".
Proof.
  pose proof (apply_edit_correct sample_snapshot {| SourceId_raw := 1 |} {| SourceVersion_raw := 5 |}
                sample_edit sample_snapshot_wf (proj1 sample_edit_wf)
                (proj1 (proj2 sample_edit_wf)) (proj2 (proj2 sample_edit_wf))) as H.
  rewrite sample_edit_applies in H. destruct H as (_ & _ & Hwf & _). split; [exact Hwf|reflexivity].
Defined.

Lemma boundary_app a b : valid_utf8 a -> valid_utf8 b -> boundary (a ++ b) (zlen a).
Proof. intros (ca & Ha & ->) (cb & Hb & ->). by exists ca, cb. Qed.

(** The edit that undoes [e] on the snapshot it was applied to. *)
Definition inverse_edit (s : SourceSnapshot) (e : SourceEdit) : SourceEdit :=
  let r := edit_range e in
  {| edit_range := {| start := start r; end_ := start r + zlen (replacement e) |};
     replacement := ztake (end_ r - start r) (zdrop (start r) (text s)) |}.

Lemma edited_text_undo t r repl :
  0 <= start r <= end_ r -> end_ r <= zlen t ->
  edited_text (edited_text t r repl) {| start := start r; end_ := start r + zlen repl |}
    (ztake (end_ r - start r) (zdrop (start r) t)) = t.
Proof.
  intros Hr Hle. pose proof (zlen_nonneg repl). unfold edited_text at 1. cbn [start end_].
  assert (ztake (start r) (edited_text t r repl) = ztake (start r) t) as ->.
  { unfold edited_text. apply ztake_app. rewrite zlen_ztake; lia. }
  assert (zdrop (start r + zlen repl) (edited_text t r repl) = zdrop (end_ r) t) as ->.
  { unfold edited_text. rewrite app_assoc. apply zdrop_app. rewrite zlen_app, zlen_ztake; lia. }
  rewrite app_assoc.
  replace (ztake (start r) t) with (ztake (start r - 0) (zdrop 0 t)) by (by rewrite zdrop_0, Z.sub_0_r).
  rewrite ztake_zdrop_join, zdrop_0, Z.sub_0_r by lia. apply ztake_zdrop.
Qed.

(** Edits can be undone: after a successful edit, replacing the inserted
    text by the removed one succeeds and restores the original text and
    checksum, whatever snapshot ids and versions are assigned. *)
Theorem apply_edit_undo s id ver e s' id' ver' :
  WfSnapshot s -> range_wf (edit_range e) -> valid_utf8 (replacement e) ->
  zlen (replacement e) <= USIZE_MAX - U32_MAX ->
  apply_edit s id ver e = Ok s' ->
  exists s'', apply_edit s' id' ver' (inverse_edit s e) = Ok s'' /\
    text s'' = text s /\ checksum s'' = checksum s /\ identity s'' = identity s.
Proof.
  intros Hwf Hr Hrep Hsmall Hok.
  destruct (apply_edit_Ok_boundaries _ _ _ _ _ Hr Hok) as [Hs He].
  destruct (apply_edit_Ok _ _ _ _ _ Hr Hrep Hsmall Hok) as (Hwf' & Ht & Hid & _).
  destruct Hr as [Hr1 Hr2].
  pose proof (boundary_range _ _ Hs). pose proof (boundary_range _ _ He).
  pose proof (zlen_nonneg (replacement e)). pose proof (@wf_fits s Hwf) as Hfit.
  set (r := edit_range e) in *.
  pose proof (boundary_ztake_valid _ _ Hs) as Hv1. pose proof (boundary_zdrop_valid _ _ He) as Hv2.
  pose proof (boundary_ztake_valid _ _ (boundary_drop _ _ _ Hs He ltac:(lia))) as Hv3.
  rewrite apply_edit_fits; cbn [inverse_edit edit_range start end_ replacement]; fold r.
  - rewrite Ht, edited_text_undo, SourceSnapshot_new_fits by lia. simpl. eexists. split; [done|].
    rewrite Hid. simpl. split_and!; try done. symmetry. apply wf_checksum.
  - done.
  - rewrite Ht. unfold edited_text. rewrite <- (zlen_ztake (start r) (text s)) at 2 by lia.
    apply boundary_app; [done|by apply valid_utf8_app].
  - rewrite Ht. unfold edited_text. rewrite app_assoc.
    replace (start r + _) with (zlen (ztake (start r) (text s) ++ replacement e))
      by (rewrite zlen_app, zlen_ztake; lia).
    apply boundary_app; [by apply valid_utf8_app|done].
  - lia.
  - rewrite zlen_ztake by (rewrite zlen_zdrop; lia). unfold U32_MAX, USIZE_MAX in *. lia.
Qed.

