(* ===== verification/SourceStore.v ===== *)
(** * Loading and storing sources

    [bray-source]: boundary inputs ([input.rs]), the loader that turns them
    into snapshots with consecutive ids ([loader.rs]), the store that owns the
    snapshots ([store.rs]) and the resolution of spans to presentation
    locations ([location.rs]).  The loader and the store are state passed
    explicitly; a failed operation returns the state unchanged. *)

From Stdlib Require Import ZArith Lia String.
From stdpp Require Import base list numbers option relations.
From S2P Require Import Prelude Utf8 SourceText LineIndex Snapshot.

(** ** Inputs *)

Inductive SourceInputOrigin :=
| InputFile (path : list u8)
| InputVirtualText (name : str)
| InputGeneratedText (name : str)
| InputLspOpenDocument (uri : str).

Inductive SourceInputKind := InFile | InVirtualText | InGeneratedText | InLspOpenDocument.

Inductive SourceInputContent :=
| ContentText (text : str)
| ContentBytes (bytes : list u8).

Record SourceInput := {
  input_identity : SourceIdentity;
  input_origin : SourceInputOrigin;
  input_version : SourceVersion;
  input_content : SourceInputContent;
}.

Definition SourceInputKind_origin_kind (k : SourceInputKind) : SourceOriginKind :=
  match k with
  | InFile => KindFile
  | InVirtualText => KindVirtual
  | InGeneratedText => KindGenerated
  | InLspOpenDocument => KindLspDocument
  end.

Definition SourceInputOrigin_kind (o : SourceInputOrigin) : SourceInputKind :=
  match o with
  | InputFile _ => InFile
  | InputVirtualText _ => InVirtualText
  | InputGeneratedText _ => InGeneratedText
  | InputLspOpenDocument _ => InLspOpenDocument
  end.

Definition into_origin (o : SourceInputOrigin) : SourceOrigin :=
  match o with
  | InputFile path => OriginFile path
  | InputVirtualText name => OriginVirtual name
  | InputGeneratedText name => OriginGenerated name
  | InputLspOpenDocument uri => OriginLspDocument uri
  end.

Definition SourceInput_new (identity : SourceIdentity) (origin : SourceInputOrigin)
    (version : SourceVersion) (content : SourceInputContent) : SourceInput :=
  {| input_identity := identity; input_origin := origin; input_version := version;
     input_content := content |}.

Definition SourceInput_file identity path version text : SourceInput :=
  SourceInput_new identity (InputFile path) version (ContentText text).

Definition SourceInput_file_bytes identity path version bytes : SourceInput :=
  SourceInput_new identity (InputFile path) version (ContentBytes bytes).

Definition SourceInput_virtual_text identity name version text : SourceInput :=
  SourceInput_new identity (InputVirtualText name) version (ContentText text).

Definition SourceInput_generated_text identity name version text : SourceInput :=
  SourceInput_new identity (InputGeneratedText name) version (ContentText text).

Definition SourceInput_lsp_open_document identity uri version text : SourceInput :=
  SourceInput_new identity (InputLspOpenDocument uri) version (ContentText text).

Definition SourceInput_origin_kind (i : SourceInput) : SourceOriginKind :=
  SourceInputKind_origin_kind (SourceInputOrigin_kind (input_origin i)).

Definition SourceInputContent_text (c : SourceInputContent) : option str :=
  match c with ContentText text => Some text | ContentBytes _ => None end.

Definition SourceInputContent_bytes (c : SourceInputContent) : list u8 :=
  match c with ContentText text => text | ContentBytes bytes => bytes end.

Definition into_snapshot_parts (i : SourceInput)
    : SourceIdentity * SourceOrigin * SourceVersion * SourceInputContent :=
  (input_identity i, into_origin (input_origin i), input_version i, input_content i).

(** ** The loader *)

Record SourceUtf8Error := {
  utf8_valid_up_to : TextSize;
  invalid_sequence_len : option usize;
}.

Inductive SourceLoadError :=
| TooManySources (count : u64)
| InvalidUtf8 (error : SourceUtf8Error)
| LoadTextTooLarge (error : TextSizeOverflow).

Record SourceLoader := { loaded_count : u64 }.

Definition SourceLoader_new : SourceLoader := {| loaded_count := 0 |}.

Definition with_loaded_count (n : u64) : SourceLoader := {| loaded_count := n |}.

Definition next_source_id (l : SourceLoader) : result SourceId SourceLoadError :=
  match u32_try_from (loaded_count l) with
  | Some raw => ok_or (SourceId_stored raw) (TooManySources (loaded_count l))
  | None => Err (TooManySources (loaded_count l))
  end.

Definition load_decoded_text (l : SourceLoader) (identity : SourceIdentity) (origin : SourceOrigin)
    (version : SourceVersion) (text : str) : result SourceSnapshot SourceLoadError * SourceLoader :=
  let text := normalize_text SourceNewlinePolicy_DEFAULT text in
  match next_source_id l with
  | Err e => (Err e, l)
  | Ok source_id =>
      match SourceSnapshot_new source_id identity origin version text with
      | Err e => (Err (LoadTextTooLarge e), l)
      | Ok snapshot => (Ok snapshot, {| loaded_count := loaded_count l + 1 |})
      end
  end.

Definition load_snapshot (l : SourceLoader) (identity : SourceIdentity) (origin : SourceOrigin)
    (version : SourceVersion) (text : str) : result SourceSnapshot SourceLoadError * SourceLoader :=
  load_decoded_text l identity origin version (normalize_source_text text).

Definition validate_source_byte_count (byte_count leading_bom_len : usize)
    : result unit TextSizeOverflow :=
  let? content_byte_count :=
    ok_or (usize_checked_sub byte_count leading_bom_len)
      {| TextSizeOverflow_bytes := byte_count |} in
  let? _ := TextSize_try_from content_byte_count in Ok tt.

Definition load_bytes (l : SourceLoader) (identity : SourceIdentity) (origin : SourceOrigin)
    (version : SourceVersion) (bytes : list u8)
    : result SourceSnapshot SourceLoadError * SourceLoader :=
  match validate_source_byte_count (zlen bytes) (leading_utf8_bom_len bytes) with
  | Err e => (Err (LoadTextTooLarge e), l)
  | Ok _ =>
      match decode_source_bytes bytes with
      | Ok text => load_decoded_text l identity origin version text
      | Err error =>
          match TextSize_try_from (valid_up_to error) with
          | Err e => (Err (LoadTextTooLarge e), l)
          | Ok valid_up_to =>
              (Err (InvalidUtf8 {| utf8_valid_up_to := valid_up_to;
                                   invalid_sequence_len := error_len error |}), l)
          end
      end
  end.

Definition load_content (l : SourceLoader) (identity : SourceIdentity) (origin : SourceOrigin)
    (version : SourceVersion) (content : SourceInputContent)
    : result SourceSnapshot SourceLoadError * SourceLoader :=
  match content with
  | ContentText text => load_snapshot l identity origin version text
  | ContentBytes bytes => load_bytes l identity origin version bytes
  end.

Definition load_input (l : SourceLoader) (input : SourceInput)
    : result SourceSnapshot SourceLoadError * SourceLoader :=
  let '(identity, origin, version, content) := into_snapshot_parts input in
  load_content l identity origin version content.

(** ** The store *)

Record SourceStore := { loader : SourceLoader; snapshots : list SourceSnapshot }.

Definition SourceStore_new : SourceStore := {| loader := SourceLoader_new; snapshots := [] |}.

Fixpoint ids_in_order (index : Z) (l : list SourceSnapshot) : bool :=
  match l with
  | [] => true
  | s :: l' =>
      bool_decide (SourceId_to_index (source_id s) = Some index) && ids_in_order (index + 1) l'
  end.

Definition from_snapshots (l : list SourceSnapshot) : option SourceStore :=
  match checked U64_MAX (zlen l) with
  | None => None
  | Some loaded_count =>
      if ids_in_order 0 l
      then Some {| loader := with_loaded_count loaded_count; snapshots := l |}
      else None
  end.

Definition insert_loaded_snapshot (loader : SourceLoader) (store : list SourceSnapshot)
    (snapshot : SourceSnapshot) : SourceId * SourceStore :=
  (source_id snapshot, {| loader := loader; snapshots := store ++ [snapshot] |}).

Definition store_result (store : SourceStore)
    (loaded : result SourceSnapshot SourceLoadError * SourceLoader)
    : result SourceId SourceLoadError * SourceStore :=
  match loaded with
  | (Ok snapshot, l) =>
      let (id, store') := insert_loaded_snapshot l (snapshots store) snapshot in (Ok id, store')
  | (Err e, l) => (Err e, {| loader := l; snapshots := snapshots store |})
  end.

Definition insert (store : SourceStore) (identity : SourceIdentity) (origin : SourceOrigin)
    (version : SourceVersion) (text : str) : result SourceId SourceLoadError * SourceStore :=
  store_result store (load_snapshot (loader store) identity origin version text).

Definition insert_input (store : SourceStore) (input : SourceInput)
    : result SourceId SourceLoadError * SourceStore :=
  store_result store (load_input (loader store) input).

Definition SourceStore_get (store : SourceStore) (id : SourceId) : option SourceSnapshot :=
  match SourceId_to_index id with
  | None => None
  | Some index => get (snapshots store) index
  end.

Definition SourceStore_text (store : SourceStore) (id : SourceId) : option str :=
  option_map text (SourceStore_get store id).

Definition SourceStore_text_slice (store : SourceStore) (id : SourceId) (range : TextRange)
    : option str :=
  match SourceStore_get store id with
  | None => None
  | Some s => SourceSnapshot_text_slice s range
  end.

Definition SourceStore_byte_slice (store : SourceStore) (id : SourceId) (range : TextRange)
    : option (list u8) :=
  match SourceStore_get store id with
  | None => None
  | Some s => SourceSnapshot_byte_slice s range
  end.

Definition snapshots_for_identity (store : SourceStore) (ident : SourceIdentity)
    : list SourceSnapshot :=
  List.filter (fun s => bool_decide (identity s = ident)) (snapshots store).

(** [Iterator::max_by_key]: the last of the maximal elements. *)
Definition max_by_version (best : option SourceSnapshot) (s : SourceSnapshot) : option SourceSnapshot :=
  match best with
  | None => Some s
  | Some b => if SourceVersion_raw (version s) <? SourceVersion_raw (version b) then Some b else Some s
  end.

Definition latest_for_identity (store : SourceStore) (ident : SourceIdentity)
    : option SourceSnapshot :=
  fold_left max_by_version (snapshots_for_identity store ident) None.

(** ** Presentation locations *)

Record SourceLocation := {
  loc_source_id : SourceId;
  loc_origin : SourceOrigin;
  loc_span : SourceSpan;
  loc_start : LineColumn;
  loc_end : LineColumn;
  loc_lsp_start : LspPosition;
  loc_lsp_end : LspPosition;
}.

(** The reverse scan for the last addressable scalar of a span. *)
Fixpoint last_line_column (idx : LineIndex) (start : usize) (offsets : list (Z * char))
    : outcome (option LineColumn) :=
  match offsets with
  | [] => Ret None
  | (relative_offset, _) :: rest =>
      match usize_checked_add start relative_offset with
      | None => Ret None
      | Some absolute =>
          match TextSize_try_from absolute with
          | Err _ => Ret None
          | Ok offset =>
              let! position := LineIndex_line_column idx offset in
              match position with
              | Some position => Ret (Some position)
              | None => last_line_column idx start rest
              end
          end
      end
  end.

Definition line_column_end_position (snapshot : SourceSnapshot) (idx : LineIndex) (span : SourceSpan)
    : outcome (option LineColumn) :=
  if SourceSpan_start span =? SourceSpan_end span
  then LineIndex_line_column idx (SourceSpan_end span)
  else
    match usize_try_from (SourceSpan_start span), usize_try_from (SourceSpan_end span) with
    | Some a, Some b =>
        match str_get (text snapshot) a b with
        | None => Ret None
        | Some t => last_line_column idx a (rev (char_indices t))
        end
    | _, _ => Ret None
    end.

Definition SourceLocation_resolve (snapshot : SourceSnapshot) (idx : LineIndex) (span : SourceSpan)
    : outcome (option SourceLocation) :=
  if negb (bool_decide (source_id snapshot = SourceSpan_source_id span)) then Ret None
  else if (text_len snapshot <? SourceSpan_end span) || negb (li_text_len idx =? text_len snapshot)
  then Ret None
  else
    let! start := LineIndex_line_column idx (SourceSpan_start span) in
    match start with
    | None => Ret None
    | Some start =>
        let! end_ := line_column_end_position snapshot idx span in
        match end_ with
        | None => Ret None
        | Some end_ =>
            let! lsp_start := LineIndex_lsp_position idx (SourceSpan_start span) in
            match lsp_start with
            | None => Ret None
            | Some lsp_start =>
                let! lsp_end := LineIndex_lsp_position idx (SourceSpan_end span) in
                match lsp_end with
                | None => Ret None
                | Some lsp_end =>
                    Ret (Some {| loc_source_id := source_id snapshot; loc_origin := origin snapshot;
                                 loc_span := span; loc_start := start; loc_end := end_;
                                 loc_lsp_start := lsp_start; loc_lsp_end := lsp_end |})
                end
            end
        end
    end.

(** ** The store invariant

    Snapshot [i] carries id [i], the loader has handed out exactly the stored
    ids, and every snapshot is well formed. *)
Record store_wf (st : SourceStore) : Prop := {
  store_count : loaded_count (loader st) = zlen (snapshots st);
  store_ids : forall i s, get (snapshots st) i = Some s -> source_id s = {| SourceId_raw := i |};
  store_room : zlen (snapshots st) <= GENERATED_SOURCE_BIT;
  store_snapshots : Forall WfSnapshot (snapshots st);
}.

(** Rust's [String] is valid UTF-8 by construction; raw bytes are any bytes. *)
Definition content_ok (c : SourceInputContent) : Prop :=
  match c with
  | ContentText text => valid_utf8 text
  | ContentBytes bytes => Forall in_u8 bytes
  end.

(** The text a content denotes, if any. *)
Definition content_denotes (c : SourceInputContent) (t : str) : Prop :=
  match c with
  | ContentText text => t = normalize_source_text text
  | ContentBytes bytes => t = zdrop (leading_utf8_bom_len bytes) bytes
  end.

Lemma SourceStore_new_wf : store_wf SourceStore_new.
Proof.
  constructor; [done| |by vm_compute|constructor].
  intros i s H. apply get_Some_range in H. unfold zlen in H. simpl in H. lia.
Qed.

Lemma stored_raw_u32 n : 0 <= n <= GENERATED_SOURCE_BIT -> in_u32 n.
Proof. change GENERATED_SOURCE_BIT with 2147483648. unfold in_u32, U32_MAX. lia. Qed.

Lemma next_source_id_spec l :
  0 <= loaded_count l <= GENERATED_SOURCE_BIT ->
  next_source_id l =
  if loaded_count l <? GENERATED_SOURCE_BIT then Ok {| SourceId_raw := loaded_count l |}
  else Err (TooManySources (loaded_count l)).
Proof.
  intros H. unfold next_source_id, u32_try_from.
  pose proof (stored_raw_u32 _ H) as Hu.
  rewrite checked_ok by (unfold in_u32 in Hu; lia). rewrite SourceId_stored_spec by done.
  by destruct (_ <? _).
Qed.

Lemma SourceStore_get_raw st i :
  0 <= i < GENERATED_SOURCE_BIT -> SourceStore_get st {| SourceId_raw := i |} = get (snapshots st) i.
Proof.
  intros H. unfold SourceStore_get. rewrite SourceId_to_index_spec; simpl.
  - by destruct (i <? _) eqn:E; [|lia].
  - apply stored_raw_u32. lia.
Qed.

Lemma SourceStore_get_Some st id s :
  SourceStore_get st id = Some s ->
  exists i, SourceId_to_index id = Some i /\ get (snapshots st) i = Some s.
Proof. unfold SourceStore_get. destruct (SourceId_to_index id) as [i|]; [eauto|done]. Qed.

(** What storing one decoded text does. *)
Lemma load_decoded_text_spec st ident orig ver t :
  store_wf st -> valid_utf8 t ->
  let n := zlen (snapshots st) in
  load_decoded_text (loader st) ident orig ver t =
  if GENERATED_SOURCE_BIT <=? n then (Err (TooManySources n), loader st)
  else if U32_MAX <? zlen t then (Err (LoadTextTooLarge {| TextSizeOverflow_bytes := zlen t |}), loader st)
  else (Ok {| source_id := {| SourceId_raw := n |}; identity := ident; origin := orig;
              version := ver; checksum := SourceChecksum_for_text t; text_len := zlen t;
              text := t |}, {| loaded_count := n + 1 |}).
Proof.
  intros Hwf Hv n. destruct Hwf as [Hc _ Hroom _]. pose proof (zlen_nonneg (snapshots st)).
  unfold load_decoded_text. rewrite next_source_id_spec, Hc by lia. subst n. simpl.
  destruct (GENERATED_SOURCE_BIT <=? _) eqn:E1; destruct (_ <? GENERATED_SOURCE_BIT) eqn:E2; try lia; [done|].
  destruct (U32_MAX <? zlen t) eqn:E3.
  - unfold SourceSnapshot_new, TextSize_try_from, u32_try_from.
    destruct (checked U32_MAX (zlen t)) eqn:Ec; [|done]. apply checked_Some in Ec. lia.
  - by rewrite SourceSnapshot_new_fits by lia.
Qed.

Lemma get_append_last {A} (l : list A) x : get (l ++ [x]) (zlen l) = Some x.
Proof. by rewrite get_app_r, Z.sub_diag by lia. Qed.

(** Appending the snapshot with the next id keeps the invariant. *)
Lemma store_wf_append st s :
  store_wf st -> zlen (snapshots st) < GENERATED_SOURCE_BIT -> WfSnapshot s ->
  source_id s = {| SourceId_raw := zlen (snapshots st) |} ->
  store_wf {| loader := {| loaded_count := zlen (snapshots st) + 1 |}; snapshots := snapshots st ++ [s] |}.
Proof.
  intros [Hc Hi Hr Hs] Hlt Hw Hid.
  assert (zlen (snapshots st ++ [s]) = zlen (snapshots st) + 1) as Hz by by rewrite zlen_app.
  constructor; simpl; rewrite ?Hz; [done| |lia|].
  - intros i s' Hg. destruct (Z_lt_le_dec i (zlen (snapshots st))) as [Hl|Hl].
    + rewrite get_app_l in Hg by done. by apply Hi.
    + pose proof (get_Some_range _ _ _ Hg). assert (i = zlen (snapshots st)) as -> by lia.
      rewrite get_append_last in Hg. by simplify_eq.
  - apply Forall_app. split; [done|by constructor].
Qed.

(** What storing a loaded result promises to a client of the store. *)
Definition insert_promise (st : SourceStore) (ident : SourceIdentity) (orig : SourceOrigin)
    (ver : SourceVersion) (t : str) (id : SourceId) (st' : SourceStore) : Prop :=
  store_wf st' /\ SourceId_to_index id = Some (zlen (snapshots st)) /\
  (exists s, SourceStore_get st' id = Some s /\ text s = t /\ identity s = ident /\
             origin s = orig /\ version s = ver) /\
  (forall id' s', SourceStore_get st id' = Some s' -> SourceStore_get st' id' = Some s') /\
  SourceStore_get st id = None.

Lemma store_result_decoded st ident orig ver t :
  store_wf st -> valid_utf8 t ->
  match store_result st (load_decoded_text (loader st) ident orig ver t) with
  | (Ok id, st') => zlen t <= U32_MAX /\ insert_promise st ident orig ver t id st'
  | (Err (TooManySources n), st') => st' = st /\ n = GENERATED_SOURCE_BIT
  | (Err (LoadTextTooLarge o), st') =>
      st' = st /\ TextSizeOverflow_bytes o = zlen t /\ U32_MAX < zlen t
  | (Err (InvalidUtf8 _), _) => False
  end.
Proof.
  intros Hwf Hv. rewrite load_decoded_text_spec by done.
  pose proof (store_room _ Hwf) as Hroom. pose proof (zlen_nonneg (snapshots st)).
  destruct (GENERATED_SOURCE_BIT <=? _) eqn:E1; simpl.
  { destruct st as [[n] l]. simpl in *. split; [done|lia]. }
  destruct (U32_MAX <? zlen t) eqn:E2; simpl.
  { destruct st as [[n] l]. simpl in *. split_and!; [done|done|lia]. }
  split; [lia|]. unfold insert_promise. split_and!.
  - apply store_wf_append; [done|lia| |done]. by constructor; simpl; [| |lia|].
  - rewrite SourceId_to_index_spec; cbn [SourceId_raw source_id]; [|apply stored_raw_u32; lia].
    by destruct (zlen _ <? GENERATED_SOURCE_BIT) eqn:E; [|lia].
  - eexists. rewrite SourceStore_get_raw by lia. cbn [snapshots]. rewrite get_append_last.
    split; [done|]. by simpl.
  - intros id' s' (i & Hi & Hg)%SourceStore_get_Some. unfold SourceStore_get. rewrite Hi. simpl.
    rewrite get_app_l; [done|]. by eapply get_Some_range.
  - rewrite SourceStore_get_raw by lia. apply get_None. by right.
Qed.

Lemma validate_source_byte_count_spec n k :
  0 <= k <= n -> n <= USIZE_MAX ->
  validate_source_byte_count n k =
  if U32_MAX <? n - k then Err {| TextSizeOverflow_bytes := n - k |} else Ok tt.
Proof.
  intros Hk Hn. unfold validate_source_byte_count, usize_checked_sub. rewrite checked_ok by lia. simpl.
  unfold TextSize_try_from, u32_try_from. destruct (U32_MAX <? n - k) eqn:E.
  - by destruct (checked U32_MAX (n - k)) eqn:Ec; [apply checked_Some in Ec; lia|].
  - by rewrite checked_ok by lia.
Qed.

Lemma leading_utf8_bom_len_range bs : 0 <= leading_utf8_bom_len bs <= zlen bs.
Proof.
  unfold leading_utf8_bom_len. destruct (starts_with bs UTF8_BOM_BYTES) eqn:E; [|pose proof (zlen_nonneg bs); lia].
  apply starts_with_inv in E as [r ->]. rewrite zlen_app. pose proof (zlen_nonneg r).
  change (zlen UTF8_BOM_BYTES) with 3. lia.
Qed.

Lemma Forall_zdrop {A} (P : A -> Prop) n l : Forall P l -> Forall P (zdrop n l).
Proof. intros H. unfold zdrop. by apply Forall_drop. Qed.

Lemma load_bytes_spec l ident orig ver bs :
  Forall in_u8 bs -> zlen bs <= USIZE_MAX ->
  let t := zdrop (leading_utf8_bom_len bs) bs in
  if U32_MAX <? zlen t
  then load_bytes l ident orig ver bs
       = (Err (LoadTextTooLarge {| TextSizeOverflow_bytes := zlen t |}), l)
  else (valid_utf8 t /\ load_bytes l ident orig ver bs = load_decoded_text l ident orig ver t) \/
       (~ valid_utf8 t /\ exists e,
          load_bytes l ident orig ver bs = (Err (InvalidUtf8 e), l) /\
          utf8_valid_up_to e < zlen t /\ valid_utf8 (ztake (utf8_valid_up_to e) t)).
Proof.
  intros Hu Hn t. pose proof (leading_utf8_bom_len_range bs) as Hk. unfold load_bytes.
  rewrite validate_source_byte_count_spec by lia.
  replace (zlen bs - leading_utf8_bom_len bs) with (zlen t) by (subst t; rewrite zlen_zdrop; lia).
  destruct (U32_MAX <? zlen t) eqn:E; [done|]. rewrite decode_source_bytes_eq. fold t.
  pose proof (from_utf8_spec t (Forall_zdrop _ _ _ Hu)) as H. destruct (from_utf8 t) as [t'|e].
  - destruct H as [-> ?]. by left.
  - destruct H as (Hni & Hr & Hp). right. split; [done|].
    rewrite TextSize_try_from_ok by (unfold in_u32; lia). eexists. split_and!; [done|simpl; lia|done].
Qed.

(** C28. Storing an input is exact.  On success the store stays well formed, the
    returned id is the next stored index, was unused before, and now fetches a
    snapshot with the decoded text (byte order mark removed) and the input's
    identity, origin and version, while every earlier id still fetches the
    same snapshot.  On failure the store is unchanged, and the error says why:
    the id space is exhausted, the text outgrows [TextSize], or the bytes are
    not UTF-8, with a valid prefix up to the reported offset. *)
Theorem insert_input_correct st input t :
  store_wf st -> content_ok (input_content input) ->
  zlen (SourceInputContent_bytes (input_content input)) <= USIZE_MAX ->
  content_denotes (input_content input) t ->
  match insert_input st input with
  | (Ok id, st') =>
      valid_utf8 t /\ zlen t <= U32_MAX /\
      insert_promise st (input_identity input) (into_origin (input_origin input))
        (input_version input) t id st'
  | (Err (TooManySources n), st') => st' = st /\ n = GENERATED_SOURCE_BIT
  | (Err (LoadTextTooLarge o), st') =>
      st' = st /\ TextSizeOverflow_bytes o = zlen t /\ U32_MAX < zlen t
  | (Err (InvalidUtf8 e), st') =>
      st' = st /\ ~ valid_utf8 t /\ utf8_valid_up_to e < zlen t /\
      valid_utf8 (ztake (utf8_valid_up_to e) t)
  end.
Proof.
  intros Hwf Hok Hsize Hden. destruct input as [ident o ver content]. cbn in *.
  unfold insert_input, load_input. cbn. set (orig := into_origin o).
  assert (forall t, valid_utf8 t ->
    match store_result st (load_decoded_text (loader st) ident orig ver t) with
    | (Ok id, st') => valid_utf8 t /\ zlen t <= U32_MAX /\ insert_promise st ident orig ver t id st'
    | (Err (TooManySources n), st') => st' = st /\ n = GENERATED_SOURCE_BIT
    | (Err (LoadTextTooLarge o), st') =>
        st' = st /\ TextSizeOverflow_bytes o = zlen t /\ U32_MAX < zlen t
    | (Err (InvalidUtf8 _), _) => False
    end) as Hdec.
  { intros u Hu. pose proof (store_result_decoded st ident orig ver u Hwf Hu) as H.
    destruct (store_result _ _) as [[id|[n|e|x]] st']; [by destruct H|done..]. }
  destruct content as [u|bs]; cbn in *; subst t.
  - unfold load_snapshot. specialize (Hdec _ (normalize_source_text_valid u Hok)).
    by destruct (store_result _ _) as [[id|[n|e|x]] st'].
  - pose proof (load_bytes_spec (loader st) ident orig ver bs Hok Hsize) as H. cbn zeta in H.
    destruct (U32_MAX <? _) eqn:E.
    { rewrite H. simpl. destruct st as [? ?]. simpl. split_and!; [done|done|lia]. }
    destruct H as [[Hv ->]|(Hni & e & -> & H1 & H2)].
    + specialize (Hdec _ Hv). by destruct (store_result _ _) as [[id|[n|e|x]] st'].
    + simpl. by destruct st.
Qed.

Definition sample_input : SourceInput :=
  SourceInput_file_bytes {| SourceIdentity_raw := 3 |} (lit "/main.bray") {| SourceVersion_raw := 0 |}
    (UTF8_BOM_BYTES ++ lit "fn").

Lemma insert_input_correct_witness :
  exists st', insert_input SourceStore_new sample_input = (Ok {| SourceId_raw := 0 |}, st') /\
    valid_utf8 (lit "fn") /\ store_wf st' /\
    exists s, SourceStore_get st' {| SourceId_raw := 0 |} = Some s /\ text s = lit "fn".
Proof.
  assert (content_ok (input_content sample_input)) as Hc
    by (repeat constructor; by vm_compute).
  pose proof (insert_input_correct SourceStore_new sample_input (lit "fn") SourceStore_new_wf Hc
                ltac:(by vm_compute) eq_refl) as H.
  destruct (insert_input SourceStore_new sample_input) as [r st'] eqn:E.
  vm_compute in E. injection E as <- <-. destruct H as (Hv & _ & Hst & _ & (s & Hs & Ht & _) & _).
  eexists. split; [reflexivity|]. split; [exact Hv|]. split; [exact Hst|]. by exists s.
Defined.

(** ** Stores reachable by loading *)

Inductive store_step (st : SourceStore) : SourceStore -> Prop :=
| step_insert ident orig ver t :
    valid_utf8 t -> store_step st (insert st ident orig ver t).2
| step_insert_input input :
    content_ok (input_content input) ->
    zlen (SourceInputContent_bytes (input_content input)) <= USIZE_MAX ->
    store_step st (insert_input st input).2.

Definition reachable_store : SourceStore -> Prop := rtc store_step SourceStore_new.

Lemma store_result_decoded_wf st ident orig ver t :
  store_wf st -> valid_utf8 t ->
  store_wf (store_result st (load_decoded_text (loader st) ident orig ver t)).2.
Proof.
  intros Hwf Hv. pose proof (store_result_decoded st ident orig ver t Hwf Hv) as H.
  destruct (store_result _ _) as [[id|[n|e|o]] st']; simpl;
    [by destruct H as [_ []]|by destruct H as [-> _]|done|by destruct H as [-> _]].
Qed.

Lemma insert_input_wf st input :
  store_wf st -> content_ok (input_content input) ->
  zlen (SourceInputContent_bytes (input_content input)) <= USIZE_MAX ->
  store_wf (insert_input st input).2.
Proof.
  intros Hwf Hok Hs. destruct input as [ident o ver [t|bs]]; cbn in *; unfold insert_input, load_input; cbn.
  - by apply store_result_decoded_wf; [|apply normalize_source_text_valid].
  - pose proof (load_bytes_spec (loader st) ident (into_origin o) ver bs Hok Hs) as H. cbn zeta in H.
    destruct (U32_MAX <? _); [rewrite H; by destruct st|].
    destruct H as [[Hv ->]|(_ & e & -> & _)]; [by apply store_result_decoded_wf|by destruct st].
Qed.

Lemma store_step_wf st st' : store_wf st -> store_step st st' -> store_wf st'.
Proof.
  intros Hwf [ident orig ver t Ht|input Hok Hs]; [|by apply insert_input_wf].
  unfold insert, load_snapshot. by apply store_result_decoded_wf; [|apply normalize_source_text_valid].
Qed.

Lemma reachable_store_wf st : reachable_store st -> store_wf st.
Proof.
  intros H. unfold reachable_store in H.
  assert (forall a b, rtc store_step a b -> store_wf a -> store_wf b) as Hstep.
  { induction 1; eauto using store_step_wf. }
  eapply Hstep; [exact H|apply SourceStore_new_wf].
Qed.

Lemma ids_in_order_spec k l :
  0 <= k -> k + zlen l <= GENERATED_SOURCE_BIT ->
  (forall i s, get l i = Some s -> source_id s = {| SourceId_raw := k + i |}) ->
  ids_in_order k l = true.
Proof.
  revert k. induction l as [|s l IH]; intros k Hk Hlen Hids; [done|]. simpl.
  rewrite zlen_cons in Hlen. pose proof (zlen_nonneg l).
  apply andb_true_iff. split.
  - rewrite (Hids 0 s) by done. apply bool_decide_eq_true_2.
    rewrite SourceId_to_index_spec; cbn [SourceId_raw]; [|apply stored_raw_u32; lia].
    destruct (_ <? _) eqn:E; [f_equal; lia|lia].
  - apply IH; [lia|lia|]. intros i s' Hg. rewrite (Hids (i + 1) s'); [f_equal; lia|].
    pose proof (get_Some_range _ _ _ Hg). rewrite get_cons_S by lia.
    by replace (i + 1 - 1) with i by lia.
Qed.

(** Every store reachable from the empty one by any sequence of successful
    and failed insertions keeps its invariant (snapshot [i] has id [i], the
    loader has counted them all, every snapshot is well formed), and rebuilding
    a store from its snapshots gives the same store back. *)
Theorem reachable_store_round_trip st :
  reachable_store st -> store_wf st /\ from_snapshots (snapshots st) = Some st.
Proof.
  intros Hr. pose proof (reachable_store_wf _ Hr) as Hwf. split; [done|].
  destruct Hwf as [Hc Hi Hroom _]. pose proof (zlen_nonneg (snapshots st)).
  unfold from_snapshots. rewrite checked_ok
    by (change GENERATED_SOURCE_BIT with 2147483648 in Hroom; unfold U64_MAX; lia).
  rewrite ids_in_order_spec by (done || lia). destruct st as [[n] l]. simpl in *. by subst.
Qed.


(** ** The latest version of a source *)

Definition newer_or_same (a b : SourceSnapshot) : Prop :=
  SourceVersion_raw (version b) <= SourceVersion_raw (version a).

Lemma max_by_version_fold l best :
  match fold_left max_by_version l (Some best) with
  | None => False
  | Some m =>
      newer_or_same m best /\ Forall (newer_or_same m) l /\
      ((m = best /\ Forall (fun s => ~ newer_or_same s best) l) \/
       exists l1 l2, l = l1 ++ m :: l2 /\ Forall (fun s => ~ newer_or_same s m) l2)
  end.
Proof.
  revert best. induction l as [|s l IH]; intros best; simpl.
  { unfold newer_or_same. split_and!; [lia|constructor|by left]. }
  unfold newer_or_same in *.
  destruct (_ <? _) eqn:E.
  - specialize (IH best). destruct (fold_left _ _ _) as [m|]; [|done].
    destruct IH as (H1 & H2 & H3). split_and!; [done|constructor; [lia|done]|].
    destruct H3 as [[-> H3]|(l1 & l2 & -> & H3)]; [left|right].
    + split; [done|]. constructor; [lia|done].
    + by exists (s :: l1), l2.
  - specialize (IH s). destruct (fold_left _ _ _) as [m|]; [|done].
    destruct IH as (H1 & H2 & H3). split_and!; [lia|by constructor|]. right.
    destruct H3 as [[-> H3]|(l1 & l2 & -> & H3)].
    + by exists [], l.
    + by exists (s :: l1), l2.
Qed.

(** [latest_for_identity] returns a stored snapshot of that identity whose
    version is maximal among its snapshots and, among those of that version,
    the one inserted last; it returns nothing only when the store has no
    snapshot of the identity. *)
Theorem latest_for_identity_correct st ident :
  match latest_for_identity st ident with
  | None => forall s, In s (snapshots st) -> identity s <> ident
  | Some m =>
      identity m = ident /\
      (forall s, In s (snapshots st) -> identity s = ident -> newer_or_same m s) /\
      exists l1 l2, snapshots_for_identity st ident = l1 ++ m :: l2 /\
        Forall (fun s => ~ newer_or_same s m) l2
  end.
Proof.
  assert (forall s, In s (snapshots_for_identity st ident) <-> In s (snapshots st) /\ identity s = ident) as Hin.
  { intros s. unfold snapshots_for_identity. rewrite filter_In. by rewrite bool_decide_eq_true. }
  unfold latest_for_identity. destruct (snapshots_for_identity st ident) as [|s0 l] eqn:E; simpl.
  { intros s Hs Hid. by apply (Hin s). }
  pose proof (max_by_version_fold l s0) as H. destruct (fold_left _ _ _) as [m|]; [|done].
  destruct H as (H1 & H2 & H3).
  assert (exists l1 l2, s0 :: l = l1 ++ m :: l2 /\ Forall (fun s => ~ newer_or_same s m) l2) as Hex.
  { destruct H3 as [[-> H3]|(l1 & l2 & -> & H3)]; [by exists [], l|by exists (s0 :: l1), l2]. }
  split_and!; [|intros s Hs Hid|done].
  - apply (Hin m). destruct Hex as (l1 & l2 & -> & _). apply in_app_iff. right. by left.
  - assert (In s (s0 :: l)) as [<-|Hl] by (by apply Hin); [done|].
    rewrite Forall_forall in H2. by apply H2, list_elem_of_In.
Qed.

(** ** Editing through LSP positions *)

Lemma stored_snapshot_wf st sid s : store_wf st -> SourceStore_get st sid = Some s -> WfSnapshot s.
Proof.
  intros Hst (i & _ & Hg)%SourceStore_get_Some. pose proof (store_snapshots _ Hst) as Hall.
  pose proof (get_Some_range _ _ _ Hg). rewrite get_nonneg in Hg by lia. by eapply Forall_lookup_1.
Qed.

(** An LSP range that the line index of a stored snapshot resolves is always
    a legal edit range of that snapshot: the edit ends in bounds and splits no
    scalar, so it succeeds whenever the edited text still fits. *)
Theorem lsp_range_edit_applies st sid s idx a b r id ver repl :
  store_wf st -> SourceStore_get st sid = Some s ->
  LineIndex_new (text s) = Ret (Ok idx) ->
  text_range_for_lsp_range idx a b = Some r -> valid_utf8 repl ->
  zlen (edited_text (text s) r repl) <= U32_MAX ->
  exists s', apply_edit s id ver {| edit_range := r; replacement := repl |} = Ok s' /\
    text s' = edited_text (text s) r repl.
Proof.
  intros Hst Hget Hnew Hr Hrepl Hfit. pose proof (stored_snapshot_wf _ _ _ Hst Hget) as Hwf.
  unfold text_range_for_lsp_range in Hr. destruct (LspPosition_gt a b); [done|].
  destruct (offset_for_lsp_position idx a) as [x|] eqn:Ea; [|done].
  destruct (offset_for_lsp_position idx b) as [y|] eqn:Eb; [|done].
  unfold TextRange_try_new in Hr. destruct (x <=? y) eqn:Exy; [|done]. simplify_eq.
  destruct (@wf_text s Hwf) as (cs & Hcs & Ht). rewrite Ht in Hnew.
  pose proof (built_offset_boundary _ _ Hcs Hnew _ _ Ea) as Hba.
  pose proof (built_offset_boundary _ _ Hcs Hnew _ _ Eb) as Hbb. rewrite <- Ht in Hba, Hbb.
  pose proof (boundary_range _ _ Hba). pose proof (boundary_range _ _ Hbb).
  rewrite apply_edit_fits; cbn [edit_range replacement start end_]; [|done|done|done|lia|].
  - rewrite SourceSnapshot_new_fits by done. by eexists.
  - rewrite zlen_edited_text in Hfit by (cbn [start end_]; lia). cbn [start end_] in Hfit.
    unfold U32_MAX, USIZE_MAX in *. lia.
Qed.

Definition sample_snapshot_index : LineIndex :=
  match LineIndex_new (text sample_snapshot) with
  | Ret (Ok idx) => idx
  | _ => {| li_text_len := 0; lines := [] |}
  end.

Definition sample_store : SourceStore :=
  {| loader := {| loaded_count := 1 |}; snapshots := [sample_snapshot] |}.

Lemma sample_store_wf : store_wf sample_store.
Proof.
  constructor; [done| |by vm_compute|repeat constructor; apply sample_snapshot_wf].
  intros i s H. pose proof (get_Some_range _ _ _ H) as Hr. unfold zlen in Hr. simpl in Hr.
  assert (i = 0) as -> by lia. by injection H as <-.
Qed.


(** ** Resolving spans *)

(** The scan answers with the first addressable offset of the list. *)
Lemma last_line_column_spec idx a offs :
  0 <= a -> Forall (fun p => 0 <= p.1 /\ a + p.1 <= U32_MAX) offs ->
  (exists p q, In p offs /\ LineIndex_position idx (a + p.1) = Ret (Some q)) ->
  exists skipped p rest q,
    offs = skipped ++ p :: rest /\ LineIndex_position idx (a + p.1) = Ret (Some q) /\
    Forall (fun p' => LineIndex_position idx (a + p'.1) = Ret None) skipped /\
    last_line_column idx a offs = Ret (Some (line_column_of q)).
Proof.
  intros Ha Hoffs (p & q & Hin & Hq). induction Hoffs as [|[x c] offs [Hx1 Hx2] Hoffs IH]; [done|].
  cbn [last_line_column fst] in *. unfold usize_checked_add.
  rewrite checked_ok by (unfold U32_MAX, USIZE_MAX in *; lia).
  rewrite TextSize_try_from_ok by (unfold in_u32; lia). unfold LineIndex_line_column.
  destruct (LineIndex_position_total idx (a + x)) as [[q'|] Hr]; rewrite Hr; simpl.
  - exists [], (x, c), offs, q'. by split_and!.
  - destruct Hin as [<-|Hin]; [simpl in Hq; congruence|].
    destruct (IH Hin) as (sk & p' & rest & q' & -> & H1 & H2 & H3).
    exists ((x, c) :: sk), p', rest, q'. split_and!; [done|done|by constructor|done].
Qed.

(** The position reported as the inclusive end of a span. *)
Definition resolves_end (idx : LineIndex) (t : str) (a b : Z) (lc : LineColumn) : Prop :=
  if a =? b then exists q, LineIndex_position idx b = Ret (Some q) /\ lc = line_column_of q
  else exists x c q,
    a <= x < b /\ In (x - a, c) (char_indices (ztake (b - a) (zdrop a t))) /\
    LineIndex_position idx x = Ret (Some q) /\ lc = line_column_of q /\
    forall y d, In (y - a, d) (char_indices (ztake (b - a) (zdrop a t))) -> x < y ->
      LineIndex_position idx y = Ret None.

Lemma char_indices_valid t :
  valid_utf8 t -> exists cs, scalars cs /\ t = utf8 cs /\ char_indices t = scalar_indices 0 cs.
Proof. intros (cs & Hcs & ->). exists cs. split_and!; [done..|]. by apply char_indices_utf8. Qed.

Lemma scalar_indices_bounds off cs p :
  scalars cs -> In p (scalar_indices off cs) -> off <= p.1 < off + bytes_of cs.
Proof.
  intros Hcs. revert off. induction Hcs as [|c cs Hc Hcs IH]; intros off; simpl; [done|].
  rewrite bytes_of_cons by done. pose proof (bytes_of_nonneg cs). pose proof (len_utf8_range c).
  intros [<-|Hp]; simpl; [lia|]. apply IH in Hp. lia.
Qed.

(** Splitting the indices of a text orders the two parts. *)
Lemma scalar_indices_split off cs l1 p l2 q :
  scalars cs -> scalar_indices off cs = l1 ++ p :: l2 -> In q (l1 ++ p :: l2) -> p.1 < q.1 -> In q l2.
Proof.
  intros Hcs. revert off l1. induction Hcs as [|c cs Hc Hcs IH]; intros off l1 Heq Hin Hlt; simpl in Heq;
    [by destruct l1|].
  destruct l1 as [|r l1]; simpl in *; injection Heq as <- Heq.
  - subst l2. destruct Hin as [<-|]; [lia|done].
  - destruct Hin as [<-|Hin]; [|by eapply IH].
    assert (In p (scalar_indices (off + len_utf8 c) cs)) as Hp by (rewrite Heq; apply in_app_iff; right; by left).
    apply scalar_indices_bounds in Hp; [|done]. pose proof (len_utf8_range c). simpl in Hlt. lia.
Qed.

Lemma line_column_end_position_spec s idx span a b :
  WfSnapshot s -> span = {| SourceSpan_source_id := source_id s; SourceSpan_range := {| start := a; end_ := b |} |} ->
  boundary (text s) a -> boundary (text s) b -> a <= b ->
  (exists q, LineIndex_position idx a = Ret (Some q)) ->
  (exists q, LineIndex_position idx b = Ret (Some q)) ->
  exists lc, line_column_end_position s idx span = Ret (Some lc) /\ resolves_end idx (text s) a b lc.
Proof.
  intros Hwf -> Ha Hb Hab [qa Hqa] [qb Hqb]. unfold line_column_end_position, resolves_end,
    SourceSpan_start, SourceSpan_end. cbn [SourceSpan_range start end_].
  pose proof (boundary_range _ _ Ha). pose proof (boundary_range _ _ Hb). pose proof (@wf_fits s Hwf).
  destruct (a =? b) eqn:Eab.
  { unfold LineIndex_line_column. rewrite Hqb. simpl. eauto. }
  rewrite !usize_try_from_u32 by (unfold in_u32; lia). rewrite str_get_boundary by (done || lia).
  assert (valid_utf8 (ztake (b - a) (zdrop a (text s)))) as Hv
    by (apply boundary_ztake_valid; by apply boundary_drop).
  assert (zlen (ztake (b - a) (zdrop a (text s))) = b - a) as Hlen
    by (rewrite zlen_ztake; [lia|rewrite zlen_zdrop; lia]).
  destruct (char_indices_valid _ Hv) as (cs & Hcs & Ht & Hidx). rewrite Hidx.
  rewrite Ht in Hlen. change (zlen (utf8 cs)) with (bytes_of cs) in Hlen.
  destruct (last_line_column_spec idx a (rev (scalar_indices 0 cs))) as (sk & [x c] & rest & q & Heq & Hq & Hskip & Hres).
  - lia.
  - apply Forall_rev, Forall_forall. intros p Hp%list_elem_of_In.
    apply scalar_indices_bounds in Hp; [|done]. lia.
  - destruct cs as [|c cs]; [rewrite bytes_of_nil in Hlen; lia|]. exists (0, c), qa. simpl.
    rewrite Z.add_0_r. split; [apply in_app_iff; right; by left|done].
  - eexists. split; [exact Hres|]. cbn [fst] in *.
    assert (scalar_indices 0 cs = rev rest ++ (x, c) :: rev sk) as Hsplit.
    { rewrite <- (rev_involutive (scalar_indices 0 cs)), Heq, rev_app_distr. simpl. by rewrite <- app_assoc. }
    assert (In (x, c) (scalar_indices 0 cs)) as Hin by (rewrite Hsplit; apply in_app_iff; right; by left).
    pose proof (scalar_indices_bounds _ _ _ Hcs Hin). cbn [fst] in *.
    exists (a + x), c, q. replace (a + x - a) with x by lia. split_and!; [lia|lia|done|done|done|].
    intros y d Hy Hlt. rewrite Hsplit in Hy.
    apply (scalar_indices_split _ _ _ _ _ _ Hcs Hsplit) in Hy; [|simpl; lia].
    apply in_rev in Hy. rewrite Forall_forall in Hskip. apply list_elem_of_In in Hy. apply Hskip in Hy.
    cbn [fst] in Hy. by replace (a + (y - a)) with y in Hy by lia.
Qed.

Lemma line_column_end_position_total s idx span :
  exists r, line_column_end_position s idx span = Ret r.
Proof.
  assert (forall a offs, exists r, last_line_column idx a offs = Ret r) as Hlast.
  { intros a offs. induction offs as [|[x c] offs IH]; simpl; [eauto|].
    destruct (usize_checked_add a x); [|eauto]. destruct (TextSize_try_from _) as [o|]; [|eauto].
    unfold LineIndex_line_column.
    destruct (LineIndex_position_total idx o) as [[p|] ->]; simpl; eauto. }
  unfold line_column_end_position. destruct (_ =? _).
  - unfold LineIndex_line_column. destruct (LineIndex_position_total idx (SourceSpan_end span)) as [r ->].
    simpl. eauto.
  - destruct (usize_try_from (SourceSpan_start span)), (usize_try_from (SourceSpan_end span)); [|eauto..].
    destruct (str_get _ _ _); eauto.
Qed.

Lemma built_position_boundary cs idx o p :
  scalars cs -> LineIndex_new (utf8 cs) = Ret (Ok idx) ->
  LineIndex_position idx o = Ret (Some p) -> boundary (utf8 cs) o.
Proof.
  intros Hcs Hnew Hp.
  destruct (built_position_inv _ _ Hcs Hnew _ _ Hp) as (k & s & a & b & Hk & Hab & -> & ->).
  eapply (built_offset_boundary _ _ Hcs Hnew), (built_offset _ _ Hcs Hnew _ _ _ b); done.
Qed.

(** Resolving a span of a snapshot through its line index never panics and
    is exact: it succeeds iff both ends are addressable positions, and then
    reports the start position, the exclusive LSP end, and as inclusive end the
    position of the last addressable scalar the span covers (the end itself
    for an empty span). *)
Theorem source_location_resolve_correct s idx span :
  WfSnapshot s -> LineIndex_new (text s) = Ret (Ok idx) ->
  range_wf (SourceSpan_range span) -> SourceSpan_source_id span = source_id s ->
  let a := SourceSpan_start span in let b := SourceSpan_end span in
  match LineIndex_position idx a, LineIndex_position idx b with
  | Ret (Some pa), Ret (Some pb) =>
      exists loc, SourceLocation_resolve s idx span = Ret (Some loc) /\
        loc_source_id loc = source_id s /\ loc_span loc = span /\ loc_origin loc = origin s /\
        loc_start loc = line_column_of pa /\ loc_lsp_start loc = lsp_position_of pa /\
        loc_lsp_end loc = lsp_position_of pb /\ resolves_end idx (text s) a b (loc_end loc)
  | _, _ => SourceLocation_resolve s idx span = Ret None
  end.
Proof.
  intros Hwf Hnew Hr Hid a b. destruct (@wf_text s Hwf) as (cs & Hcs & Ht).
  rewrite Ht in Hnew. pose proof (built_index _ _ Hcs Hnew) as Hidx.
  assert (li_text_len idx = text_len s) as Hlen by (rewrite Hidx, wf_text_len, Ht; done).
  unfold SourceLocation_resolve. fold a b. rewrite Hid, bool_decide_eq_true_2, Hlen, Z.eqb_refl by done.
  rewrite orb_false_r. cbn [negb].
  assert (text_len s < b -> LineIndex_position idx b = Ret None) as Hout.
  { intros Hb. unfold LineIndex_position. rewrite Hlen. by destruct (_ <? b) eqn:E; [|lia]. }
  destruct (LineIndex_position_total idx a) as [ra Hra], (LineIndex_position_total idx b) as [rb Hrb].
  unfold LineIndex_line_column, LineIndex_lsp_position. rewrite Hra, Hrb.
  destruct (text_len s <? b) eqn:Eb; [rewrite Hout in Hrb by lia; simplify_eq; by destruct ra|].
  destruct ra as [pa|]; simpl; [|done]. destruct rb as [pb|]; simpl.
  - destruct (line_column_end_position_spec s idx span a b) as (lc & -> & Hend); try done.
    + destruct span as [? [? ?]]. simpl in Hid. by subst.
    + rewrite Ht. by eapply built_position_boundary.
    + rewrite Ht. by eapply built_position_boundary.
    + subst a b. destruct Hr. unfold SourceSpan_start, SourceSpan_end. lia.
    + eauto.
    + eauto.
    + simpl. eexists. by split_and!.
  - by destruct (line_column_end_position_total s idx span) as [[lc|] ->].
Qed.

Definition sample_span : SourceSpan :=
  {| SourceSpan_source_id := {| SourceId_raw := 0 |}; SourceSpan_range := {| start := 4; end_ := 9 |} |}.

