(* ===== verification/SyntaxKind.v ===== *)
(** * The syntax vocabulary

    [bray-syntax]: [SyntaxKind] ([kind.rs]) with its classifications, stable
    machine keys and directive names, and the table of fixed token spellings
    ([fixed_text.rs]).  The enumeration is large, so equality is decided on the
    [repr(u16)] discriminant instead of constructor by constructor.  The kind [Parameter] is written
    [Parameter_], its name being a keyword here. *)

From Stdlib Require Import ZArith Lia String.
From stdpp Require Import base list numbers option.
From S2P Require Import Prelude Utf8.

Inductive SyntaxKind :=
  | CompilationUnit | SourceUnit | SourceUnitModuleDeclaration | BlockModuleDeclaration
  | ModuleDirectives | TargetDirective | TestDirective | LinkDirective | AbiDirective
  | SymbolDirective | EntrypointDirective | DirectiveArgumentList | DirectiveArgument
  | ModuleModifiers | ModuleBody | UsingDeclaration | ExportDeclaration | ConstantDeclaration
  | ConstantModifiers | StaticDeclaration | StaticDirectives | ThreadLocalDirective
  | StaticDeclarationModifiers | FunctionDeclaration | FunctionDirectives | FunctionModifiers
  | GenericParameterList | GenericTypeParameter | GenericConstParameter | GenericArgumentList
  | GenericArgument | TypeFormArgumentList | TypeFormArgument | PredicateDeclaration
  | PredicateModifiers | PredicateParameterList | PredicateParameter
  | CallableContractDeclaration | CallableContractModifiers | RequiresClause | EnsuresClause
  | WhenClause | ExecutesClause | ExecutionProperty | WithClause | UsesClause
  | OverloadModifiers | CallableOverloadDeclaration | ImplementationOverloadDeclaration
  | ImplementationOverloadSubject | OverloadArmList | OverloadArm | StructDeclaration
  | TypeDirectives | LayoutDirective | CopyDirective | TagDirective | TypeModifiers
  | StructBody | FieldModifiers | StructFieldDeclaration | UnionDeclaration | UnionBody
  | VariantDirectives | UnionVariantDeclaration | UnionVariantPayload | UnionPayloadField
  | PayloadFieldModifiers | TraitDeclaration | TraitModifiers | TraitBody
  | TraitConstantMemberDeclaration | TraitTypeMemberDeclaration | TraitPredicateMemberModifiers
  | TraitPredicateMemberDeclaration | TraitCallableMemberModifiers
  | TraitCallableMemberDeclaration | ImplementationSubject | TraitApplication
  | InherentImplementationDeclaration | ImplementationBody | ImplementationTypeMemberBinding
  | UnnamedTraitImplementationDeclaration | NamedTraitImplementationDeclaration
  | ConstructorMemberModifiers | TypeConstructorMemberDeclaration
  | AsyncCapableLifecycleMemberModifiers | ScopeEnterMemberModifiers
  | SyncLifecycleMemberModifiers | FinalizerMemberDeclaration | DestructorMemberDeclaration
  | ScopeEnterMemberDeclaration | ScopeExitMemberDeclaration
  | TraitFinalizerRequirementDeclaration | TraitDestructorRequirementDeclaration
  | TraitScopeEnterRequirementDeclaration | TraitScopeExitRequirementDeclaration
  | TypeCallableMemberModifiers | TypeCallableMemberDeclaration | CallableDirectives
  | CallableModifiers | ParameterList | Parameter_ | ParameterModifiers | CallableResultClause
  | CallableBodyBlockExpression | Expression | PrimaryExpression | AccessExpression
  | MemberAccessOperation | ElementIndexOperation | CallOperation | SliceIndexOperation
  | NullablePropagationOperation | ConversionOperation | ArgumentList | Argument
  | StructConstructionBody | StructFieldInitializer | LiteralExpression | UnitExpression
  | AbsenceExpression | GroupedExpression | TupleExpression | ArrayExpression
  | GeneralGeneratorExpression | GeneratorIterationExpression | LeadingDotVariantExpression
  | BlockExpression | BlockItem | LocalBindingDeclaration | SequencedExpression
  | ConditionalExpression | ConditionalElse | MatchExpression | MatchSubject | MatchBody
  | MatchArm | WhileExpression | ForExpression | IterationSource | LoopExpression
  | WithExpression | LambdaExpression | BorrowExpression | TrustBoundaryExpression
  | AssertionExpression | ResultPropagationExpression | CatchExpression | AwaitExpression
  | TypeFormConstructionExpression | BooleanFoldExpression | YieldExpression | ReturnExpression
  | PanicExpression | BreakExpression | ContinueExpression | IrrefutablePattern
  | IrrefutablePatternEntry | CasePattern | CasePatternEntry | TypeExpression | TypeAnnotation
  | TypedIdentifier | Path | IdentifierList | IdentifierListItem | SkippedSyntax
  | EndOfFileToken | InvalidToken | IdentifierToken | TupleElementIndexToken
  | DecimalIntegerLiteralToken | BinaryIntegerLiteralToken | HexadecimalIntegerLiteralToken
  | RealLiteralToken | ImaginaryLiteralToken | CharacterLiteralToken | StringLiteralToken
  | ByteStringLiteralToken | AllKeyword | AnyKeyword | AsKeyword | AssertKeyword | AsyncKeyword
  | AwaitKeyword | BoxKeyword | BreakKeyword | CallableKeyword | CaseKeyword | CatchKeyword
  | ConstKeyword | ConstructKeyword | ConsumeKeyword | ContinueKeyword | DestructKeyword
  | EachKeyword | ElseKeyword | EnsuresKeyword | ExecutesKeyword | EnterKeyword | ExitKeyword
  | ExportKeyword | ExternKeyword | FalseKeyword | FinalizeKeyword | ForKeyword | FuncKeyword
  | IfKeyword | ImplKeyword | InKeyword | InternalKeyword | LambdaKeyword | LetKeyword
  | LoopKeyword | MatchKeyword | MatchesKeyword | ModuleKeyword | MoveKeyword | MutKeyword
  | NoneKeyword | OverloadKeyword | PanicKeyword | PosKeyword | PredicateKeyword
  | PublicKeyword | RequiresKeyword | ReturnKeyword | SelfValueKeyword | SelfTypeKeyword
  | StaticKeyword | StructKeyword | TraitKeyword | TrustedKeyword | TrueKeyword | TryKeyword
  | TypeKeyword | UnionKeyword | UnitKeyword | UsingKeyword | UsesKeyword | ViewKeyword
  | WhenKeyword | WhileKeyword | WithKeyword | YieldKeyword | ArrowToken | EqualsEqualsToken
  | BangEqualsToken | LessEqualsToken | GreaterEqualsToken | AmpersandAmpersandToken
  | PipePipeToken | LessLessToken | GreaterGreaterToken | StarStarToken | PlusEqualsToken
  | MinusEqualsToken | StarEqualsToken | SlashEqualsToken | PercentEqualsToken | AtEqualsToken
  | AmpersandEqualsToken | PipeEqualsToken | CaretEqualsToken | LessLessEqualsToken
  | GreaterGreaterEqualsToken | StarStarEqualsToken | EllipsisToken | DotDotToken
  | OpenParenToken | CloseParenToken | OpenBraceToken | CloseBraceToken | OpenBracketToken
  | CloseBracketToken | CommaToken | SemicolonToken | ColonToken | DotToken | QuestionToken
  | EqualsToken | PlusToken | MinusToken | StarToken | SlashToken | PercentToken | AtToken
  | AmpersandToken | PipeToken | CaretToken | TildeToken | BangToken | LessToken | GreaterToken
  | UnderscoreToken | WhitespaceTrivia | LineCommentTrivia | BlockCommentTrivia
  | DocumentationLineCommentTrivia | DocumentationBlockCommentTrivia.

(** Every kind in declaration order; a kind's discriminant is its position. *)
Definition all_kinds : list SyntaxKind :=
  [ CompilationUnit; SourceUnit; SourceUnitModuleDeclaration; BlockModuleDeclaration;
    ModuleDirectives; TargetDirective; TestDirective; LinkDirective; AbiDirective;
    SymbolDirective; EntrypointDirective; DirectiveArgumentList; DirectiveArgument;
    ModuleModifiers; ModuleBody; UsingDeclaration; ExportDeclaration; ConstantDeclaration;
    ConstantModifiers; StaticDeclaration; StaticDirectives; ThreadLocalDirective;
    StaticDeclarationModifiers; FunctionDeclaration; FunctionDirectives; FunctionModifiers;
    GenericParameterList; GenericTypeParameter; GenericConstParameter; GenericArgumentList;
    GenericArgument; TypeFormArgumentList; TypeFormArgument; PredicateDeclaration;
    PredicateModifiers; PredicateParameterList; PredicateParameter;
    CallableContractDeclaration; CallableContractModifiers; RequiresClause; EnsuresClause;
    WhenClause; ExecutesClause; ExecutionProperty; WithClause; UsesClause; OverloadModifiers;
    CallableOverloadDeclaration; ImplementationOverloadDeclaration;
    ImplementationOverloadSubject; OverloadArmList; OverloadArm; StructDeclaration;
    TypeDirectives; LayoutDirective; CopyDirective; TagDirective; TypeModifiers; StructBody;
    FieldModifiers; StructFieldDeclaration; UnionDeclaration; UnionBody; VariantDirectives;
    UnionVariantDeclaration; UnionVariantPayload; UnionPayloadField; PayloadFieldModifiers;
    TraitDeclaration; TraitModifiers; TraitBody; TraitConstantMemberDeclaration;
    TraitTypeMemberDeclaration; TraitPredicateMemberModifiers; TraitPredicateMemberDeclaration;
    TraitCallableMemberModifiers; TraitCallableMemberDeclaration; ImplementationSubject;
    TraitApplication; InherentImplementationDeclaration; ImplementationBody;
    ImplementationTypeMemberBinding; UnnamedTraitImplementationDeclaration;
    NamedTraitImplementationDeclaration; ConstructorMemberModifiers;
    TypeConstructorMemberDeclaration; AsyncCapableLifecycleMemberModifiers;
    ScopeEnterMemberModifiers; SyncLifecycleMemberModifiers; FinalizerMemberDeclaration;
    DestructorMemberDeclaration; ScopeEnterMemberDeclaration; ScopeExitMemberDeclaration;
    TraitFinalizerRequirementDeclaration; TraitDestructorRequirementDeclaration;
    TraitScopeEnterRequirementDeclaration; TraitScopeExitRequirementDeclaration;
    TypeCallableMemberModifiers; TypeCallableMemberDeclaration; CallableDirectives;
    CallableModifiers; ParameterList; Parameter_; ParameterModifiers; CallableResultClause;
    CallableBodyBlockExpression; Expression; PrimaryExpression; AccessExpression;
    MemberAccessOperation; ElementIndexOperation; CallOperation; SliceIndexOperation;
    NullablePropagationOperation; ConversionOperation; ArgumentList; Argument;
    StructConstructionBody; StructFieldInitializer; LiteralExpression; UnitExpression;
    AbsenceExpression; GroupedExpression; TupleExpression; ArrayExpression;
    GeneralGeneratorExpression; GeneratorIterationExpression; LeadingDotVariantExpression;
    BlockExpression; BlockItem; LocalBindingDeclaration; SequencedExpression;
    ConditionalExpression; ConditionalElse; MatchExpression; MatchSubject; MatchBody; MatchArm;
    WhileExpression; ForExpression; IterationSource; LoopExpression; WithExpression;
    LambdaExpression; BorrowExpression; TrustBoundaryExpression; AssertionExpression;
    ResultPropagationExpression; CatchExpression; AwaitExpression;
    TypeFormConstructionExpression; BooleanFoldExpression; YieldExpression; ReturnExpression;
    PanicExpression; BreakExpression; ContinueExpression; IrrefutablePattern;
    IrrefutablePatternEntry; CasePattern; CasePatternEntry; TypeExpression; TypeAnnotation;
    TypedIdentifier; Path; IdentifierList; IdentifierListItem; SkippedSyntax; EndOfFileToken;
    InvalidToken; IdentifierToken; TupleElementIndexToken; DecimalIntegerLiteralToken;
    BinaryIntegerLiteralToken; HexadecimalIntegerLiteralToken; RealLiteralToken;
    ImaginaryLiteralToken; CharacterLiteralToken; StringLiteralToken; ByteStringLiteralToken;
    AllKeyword; AnyKeyword; AsKeyword; AssertKeyword; AsyncKeyword; AwaitKeyword; BoxKeyword;
    BreakKeyword; CallableKeyword; CaseKeyword; CatchKeyword; ConstKeyword; ConstructKeyword;
    ConsumeKeyword; ContinueKeyword; DestructKeyword; EachKeyword; ElseKeyword; EnsuresKeyword;
    ExecutesKeyword; EnterKeyword; ExitKeyword; ExportKeyword; ExternKeyword; FalseKeyword;
    FinalizeKeyword; ForKeyword; FuncKeyword; IfKeyword; ImplKeyword; InKeyword;
    InternalKeyword; LambdaKeyword; LetKeyword; LoopKeyword; MatchKeyword; MatchesKeyword;
    ModuleKeyword; MoveKeyword; MutKeyword; NoneKeyword; OverloadKeyword; PanicKeyword;
    PosKeyword; PredicateKeyword; PublicKeyword; RequiresKeyword; ReturnKeyword;
    SelfValueKeyword; SelfTypeKeyword; StaticKeyword; StructKeyword; TraitKeyword;
    TrustedKeyword; TrueKeyword; TryKeyword; TypeKeyword; UnionKeyword; UnitKeyword;
    UsingKeyword; UsesKeyword; ViewKeyword; WhenKeyword; WhileKeyword; WithKeyword;
    YieldKeyword; ArrowToken; EqualsEqualsToken; BangEqualsToken; LessEqualsToken;
    GreaterEqualsToken; AmpersandAmpersandToken; PipePipeToken; LessLessToken;
    GreaterGreaterToken; StarStarToken; PlusEqualsToken; MinusEqualsToken; StarEqualsToken;
    SlashEqualsToken; PercentEqualsToken; AtEqualsToken; AmpersandEqualsToken; PipeEqualsToken;
    CaretEqualsToken; LessLessEqualsToken; GreaterGreaterEqualsToken; StarStarEqualsToken;
    EllipsisToken; DotDotToken; OpenParenToken; CloseParenToken; OpenBraceToken;
    CloseBraceToken; OpenBracketToken; CloseBracketToken; CommaToken; SemicolonToken;
    ColonToken; DotToken; QuestionToken; EqualsToken; PlusToken; MinusToken; StarToken;
    SlashToken; PercentToken; AtToken; AmpersandToken; PipeToken; CaretToken; TildeToken;
    BangToken; LessToken; GreaterToken; UnderscoreToken; WhitespaceTrivia; LineCommentTrivia;
    BlockCommentTrivia; DocumentationLineCommentTrivia; DocumentationBlockCommentTrivia ].

Definition discriminant (k : SyntaxKind) : Z :=
  match k with
  | CompilationUnit => 0
  | SourceUnit => 1
  | SourceUnitModuleDeclaration => 2
  | BlockModuleDeclaration => 3
  | ModuleDirectives => 4
  | TargetDirective => 5
  | TestDirective => 6
  | LinkDirective => 7
  | AbiDirective => 8
  | SymbolDirective => 9
  | EntrypointDirective => 10
  | DirectiveArgumentList => 11
  | DirectiveArgument => 12
  | ModuleModifiers => 13
  | ModuleBody => 14
  | UsingDeclaration => 15
  | ExportDeclaration => 16
  | ConstantDeclaration => 17
  | ConstantModifiers => 18
  | StaticDeclaration => 19
  | StaticDirectives => 20
  | ThreadLocalDirective => 21
  | StaticDeclarationModifiers => 22
  | FunctionDeclaration => 23
  | FunctionDirectives => 24
  | FunctionModifiers => 25
  | GenericParameterList => 26
  | GenericTypeParameter => 27
  | GenericConstParameter => 28
  | GenericArgumentList => 29
  | GenericArgument => 30
  | TypeFormArgumentList => 31
  | TypeFormArgument => 32
  | PredicateDeclaration => 33
  | PredicateModifiers => 34
  | PredicateParameterList => 35
  | PredicateParameter => 36
  | CallableContractDeclaration => 37
  | CallableContractModifiers => 38
  | RequiresClause => 39
  | EnsuresClause => 40
  | WhenClause => 41
  | ExecutesClause => 42
  | ExecutionProperty => 43
  | WithClause => 44
  | UsesClause => 45
  | OverloadModifiers => 46
  | CallableOverloadDeclaration => 47
  | ImplementationOverloadDeclaration => 48
  | ImplementationOverloadSubject => 49
  | OverloadArmList => 50
  | OverloadArm => 51
  | StructDeclaration => 52
  | TypeDirectives => 53
  | LayoutDirective => 54
  | CopyDirective => 55
  | TagDirective => 56
  | TypeModifiers => 57
  | StructBody => 58
  | FieldModifiers => 59
  | StructFieldDeclaration => 60
  | UnionDeclaration => 61
  | UnionBody => 62
  | VariantDirectives => 63
  | UnionVariantDeclaration => 64
  | UnionVariantPayload => 65
  | UnionPayloadField => 66
  | PayloadFieldModifiers => 67
  | TraitDeclaration => 68
  | TraitModifiers => 69
  | TraitBody => 70
  | TraitConstantMemberDeclaration => 71
  | TraitTypeMemberDeclaration => 72
  | TraitPredicateMemberModifiers => 73
  | TraitPredicateMemberDeclaration => 74
  | TraitCallableMemberModifiers => 75
  | TraitCallableMemberDeclaration => 76
  | ImplementationSubject => 77
  | TraitApplication => 78
  | InherentImplementationDeclaration => 79
  | ImplementationBody => 80
  | ImplementationTypeMemberBinding => 81
  | UnnamedTraitImplementationDeclaration => 82
  | NamedTraitImplementationDeclaration => 83
  | ConstructorMemberModifiers => 84
  | TypeConstructorMemberDeclaration => 85
  | AsyncCapableLifecycleMemberModifiers => 86
  | ScopeEnterMemberModifiers => 87
  | SyncLifecycleMemberModifiers => 88
  | FinalizerMemberDeclaration => 89
  | DestructorMemberDeclaration => 90
  | ScopeEnterMemberDeclaration => 91
  | ScopeExitMemberDeclaration => 92
  | TraitFinalizerRequirementDeclaration => 93
  | TraitDestructorRequirementDeclaration => 94
  | TraitScopeEnterRequirementDeclaration => 95
  | TraitScopeExitRequirementDeclaration => 96
  | TypeCallableMemberModifiers => 97
  | TypeCallableMemberDeclaration => 98
  | CallableDirectives => 99
  | CallableModifiers => 100
  | ParameterList => 101
  | Parameter_ => 102
  | ParameterModifiers => 103
  | CallableResultClause => 104
  | CallableBodyBlockExpression => 105
  | Expression => 106
  | PrimaryExpression => 107
  | AccessExpression => 108
  | MemberAccessOperation => 109
  | ElementIndexOperation => 110
  | CallOperation => 111
  | SliceIndexOperation => 112
  | NullablePropagationOperation => 113
  | ConversionOperation => 114
  | ArgumentList => 115
  | Argument => 116
  | StructConstructionBody => 117
  | StructFieldInitializer => 118
  | LiteralExpression => 119
  | UnitExpression => 120
  | AbsenceExpression => 121
  | GroupedExpression => 122
  | TupleExpression => 123
  | ArrayExpression => 124
  | GeneralGeneratorExpression => 125
  | GeneratorIterationExpression => 126
  | LeadingDotVariantExpression => 127
  | BlockExpression => 128
  | BlockItem => 129
  | LocalBindingDeclaration => 130
  | SequencedExpression => 131
  | ConditionalExpression => 132
  | ConditionalElse => 133
  | MatchExpression => 134
  | MatchSubject => 135
  | MatchBody => 136
  | MatchArm => 137
  | WhileExpression => 138
  | ForExpression => 139
  | IterationSource => 140
  | LoopExpression => 141
  | WithExpression => 142
  | LambdaExpression => 143
  | BorrowExpression => 144
  | TrustBoundaryExpression => 145
  | AssertionExpression => 146
  | ResultPropagationExpression => 147
  | CatchExpression => 148
  | AwaitExpression => 149
  | TypeFormConstructionExpression => 150
  | BooleanFoldExpression => 151
  | YieldExpression => 152
  | ReturnExpression => 153
  | PanicExpression => 154
  | BreakExpression => 155
  | ContinueExpression => 156
  | IrrefutablePattern => 157
  | IrrefutablePatternEntry => 158
  | CasePattern => 159
  | CasePatternEntry => 160
  | TypeExpression => 161
  | TypeAnnotation => 162
  | TypedIdentifier => 163
  | Path => 164
  | IdentifierList => 165
  | IdentifierListItem => 166
  | SkippedSyntax => 167
  | EndOfFileToken => 168
  | InvalidToken => 169
  | IdentifierToken => 170
  | TupleElementIndexToken => 171
  | DecimalIntegerLiteralToken => 172
  | BinaryIntegerLiteralToken => 173
  | HexadecimalIntegerLiteralToken => 174
  | RealLiteralToken => 175
  | ImaginaryLiteralToken => 176
  | CharacterLiteralToken => 177
  | StringLiteralToken => 178
  | ByteStringLiteralToken => 179
  | AllKeyword => 180
  | AnyKeyword => 181
  | AsKeyword => 182
  | AssertKeyword => 183
  | AsyncKeyword => 184
  | AwaitKeyword => 185
  | BoxKeyword => 186
  | BreakKeyword => 187
  | CallableKeyword => 188
  | CaseKeyword => 189
  | CatchKeyword => 190
  | ConstKeyword => 191
  | ConstructKeyword => 192
  | ConsumeKeyword => 193
  | ContinueKeyword => 194
  | DestructKeyword => 195
  | EachKeyword => 196
  | ElseKeyword => 197
  | EnsuresKeyword => 198
  | ExecutesKeyword => 199
  | EnterKeyword => 200
  | ExitKeyword => 201
  | ExportKeyword => 202
  | ExternKeyword => 203
  | FalseKeyword => 204
  | FinalizeKeyword => 205
  | ForKeyword => 206
  | FuncKeyword => 207
  | IfKeyword => 208
  | ImplKeyword => 209
  | InKeyword => 210
  | InternalKeyword => 211
  | LambdaKeyword => 212
  | LetKeyword => 213
  | LoopKeyword => 214
  | MatchKeyword => 215
  | MatchesKeyword => 216
  | ModuleKeyword => 217
  | MoveKeyword => 218
  | MutKeyword => 219
  | NoneKeyword => 220
  | OverloadKeyword => 221
  | PanicKeyword => 222
  | PosKeyword => 223
  | PredicateKeyword => 224
  | PublicKeyword => 225
  | RequiresKeyword => 226
  | ReturnKeyword => 227
  | SelfValueKeyword => 228
  | SelfTypeKeyword => 229
  | StaticKeyword => 230
  | StructKeyword => 231
  | TraitKeyword => 232
  | TrustedKeyword => 233
  | TrueKeyword => 234
  | TryKeyword => 235
  | TypeKeyword => 236
  | UnionKeyword => 237
  | UnitKeyword => 238
  | UsingKeyword => 239
  | UsesKeyword => 240
  | ViewKeyword => 241
  | WhenKeyword => 242
  | WhileKeyword => 243
  | WithKeyword => 244
  | YieldKeyword => 245
  | ArrowToken => 246
  | EqualsEqualsToken => 247
  | BangEqualsToken => 248
  | LessEqualsToken => 249
  | GreaterEqualsToken => 250
  | AmpersandAmpersandToken => 251
  | PipePipeToken => 252
  | LessLessToken => 253
  | GreaterGreaterToken => 254
  | StarStarToken => 255
  | PlusEqualsToken => 256
  | MinusEqualsToken => 257
  | StarEqualsToken => 258
  | SlashEqualsToken => 259
  | PercentEqualsToken => 260
  | AtEqualsToken => 261
  | AmpersandEqualsToken => 262
  | PipeEqualsToken => 263
  | CaretEqualsToken => 264
  | LessLessEqualsToken => 265
  | GreaterGreaterEqualsToken => 266
  | StarStarEqualsToken => 267
  | EllipsisToken => 268
  | DotDotToken => 269
  | OpenParenToken => 270
  | CloseParenToken => 271
  | OpenBraceToken => 272
  | CloseBraceToken => 273
  | OpenBracketToken => 274
  | CloseBracketToken => 275
  | CommaToken => 276
  | SemicolonToken => 277
  | ColonToken => 278
  | DotToken => 279
  | QuestionToken => 280
  | EqualsToken => 281
  | PlusToken => 282
  | MinusToken => 283
  | StarToken => 284
  | SlashToken => 285
  | PercentToken => 286
  | AtToken => 287
  | AmpersandToken => 288
  | PipeToken => 289
  | CaretToken => 290
  | TildeToken => 291
  | BangToken => 292
  | LessToken => 293
  | GreaterToken => 294
  | UnderscoreToken => 295
  | WhitespaceTrivia => 296
  | LineCommentTrivia => 297
  | BlockCommentTrivia => 298
  | DocumentationLineCommentTrivia => 299
  | DocumentationBlockCommentTrivia => 300
  end.

(** ** Classifications *)

Definition is_contribution_gate_directive (k : SyntaxKind) : bool :=
  match k with
  | TargetDirective | TestDirective => true
  | _ => false
  end.

Definition is_node (k : SyntaxKind) : bool :=
  match k with
  | SourceUnit | CompilationUnit | SourceUnitModuleDeclaration | BlockModuleDeclaration
  | ModuleDirectives | TargetDirective | TestDirective | LinkDirective | AbiDirective
  | SymbolDirective | EntrypointDirective | DirectiveArgumentList | DirectiveArgument
  | ModuleModifiers | ModuleBody | UsingDeclaration | ExportDeclaration | ConstantDeclaration
  | ConstantModifiers | StaticDeclaration | StaticDirectives | ThreadLocalDirective
  | StaticDeclarationModifiers | FunctionDeclaration | FunctionDirectives | FunctionModifiers
  | GenericParameterList | GenericTypeParameter | GenericConstParameter | GenericArgumentList
  | GenericArgument | TypeFormArgumentList | TypeFormArgument | PredicateDeclaration
  | PredicateModifiers | PredicateParameterList | PredicateParameter
  | CallableContractDeclaration | CallableContractModifiers | RequiresClause | EnsuresClause
  | WhenClause | ExecutesClause | ExecutionProperty | WithClause | UsesClause
  | OverloadModifiers | CallableOverloadDeclaration | ImplementationOverloadDeclaration
  | ImplementationOverloadSubject | OverloadArmList | OverloadArm | StructDeclaration
  | TypeDirectives | LayoutDirective | CopyDirective | TagDirective | TypeModifiers
  | StructBody | FieldModifiers | StructFieldDeclaration | UnionDeclaration | UnionBody
  | VariantDirectives | UnionVariantDeclaration | UnionVariantPayload | UnionPayloadField
  | PayloadFieldModifiers | TraitDeclaration | TraitModifiers | TraitBody
  | TraitConstantMemberDeclaration | TraitTypeMemberDeclaration | TraitPredicateMemberModifiers
  | TraitPredicateMemberDeclaration | TraitCallableMemberModifiers
  | TraitCallableMemberDeclaration | ImplementationSubject | TraitApplication
  | InherentImplementationDeclaration | ImplementationBody | ImplementationTypeMemberBinding
  | UnnamedTraitImplementationDeclaration | NamedTraitImplementationDeclaration
  | ConstructorMemberModifiers | TypeConstructorMemberDeclaration
  | AsyncCapableLifecycleMemberModifiers | ScopeEnterMemberModifiers
  | SyncLifecycleMemberModifiers | FinalizerMemberDeclaration | DestructorMemberDeclaration
  | ScopeEnterMemberDeclaration | ScopeExitMemberDeclaration
  | TraitFinalizerRequirementDeclaration | TraitDestructorRequirementDeclaration
  | TraitScopeEnterRequirementDeclaration | TraitScopeExitRequirementDeclaration
  | TypeCallableMemberModifiers | TypeCallableMemberDeclaration | CallableDirectives
  | CallableModifiers | ParameterList | Parameter_ | ParameterModifiers | CallableResultClause
  | CallableBodyBlockExpression | Expression | PrimaryExpression | AccessExpression
  | MemberAccessOperation | ElementIndexOperation | CallOperation | SliceIndexOperation
  | NullablePropagationOperation | ConversionOperation | ArgumentList | Argument
  | StructConstructionBody | StructFieldInitializer | LiteralExpression | UnitExpression
  | AbsenceExpression | GroupedExpression | TupleExpression | ArrayExpression
  | GeneralGeneratorExpression | GeneratorIterationExpression | LeadingDotVariantExpression
  | BlockExpression | BlockItem | LocalBindingDeclaration | SequencedExpression
  | ConditionalExpression | ConditionalElse | MatchExpression | MatchSubject | MatchBody
  | MatchArm | WhileExpression | ForExpression | IterationSource | LoopExpression
  | WithExpression | LambdaExpression | BorrowExpression | TrustBoundaryExpression
  | AssertionExpression | ResultPropagationExpression | CatchExpression | AwaitExpression
  | TypeFormConstructionExpression | BooleanFoldExpression | YieldExpression | ReturnExpression
  | PanicExpression | BreakExpression | ContinueExpression | IrrefutablePattern
  | IrrefutablePatternEntry | CasePattern | CasePatternEntry | TypeExpression | TypeAnnotation
  | TypedIdentifier | Path | IdentifierList | IdentifierListItem | SkippedSyntax => true
  | _ => false
  end.

Definition is_trivia (k : SyntaxKind) : bool :=
  match k with
  | WhitespaceTrivia | LineCommentTrivia | BlockCommentTrivia | DocumentationLineCommentTrivia
  | DocumentationBlockCommentTrivia => true
  | _ => false
  end.

Definition is_token (k : SyntaxKind) : bool := negb (is_node k) && negb (is_trivia k).

Definition is_keyword (k : SyntaxKind) : bool :=
  match k with
  | AllKeyword | AnyKeyword | AsKeyword | AssertKeyword | AsyncKeyword | AwaitKeyword
  | BoxKeyword | BreakKeyword | CallableKeyword | CaseKeyword | CatchKeyword | ConstKeyword
  | ConstructKeyword | ConsumeKeyword | ContinueKeyword | DestructKeyword | EachKeyword
  | ElseKeyword | EnsuresKeyword | ExecutesKeyword | EnterKeyword | ExitKeyword | ExportKeyword
  | ExternKeyword | FalseKeyword | FinalizeKeyword | ForKeyword | FuncKeyword | IfKeyword
  | ImplKeyword | InKeyword | InternalKeyword | LambdaKeyword | LetKeyword | LoopKeyword
  | MatchKeyword | MatchesKeyword | ModuleKeyword | MoveKeyword | MutKeyword | NoneKeyword
  | OverloadKeyword | PanicKeyword | PosKeyword | PredicateKeyword | PublicKeyword
  | RequiresKeyword | ReturnKeyword | SelfValueKeyword | SelfTypeKeyword | StaticKeyword
  | StructKeyword | TraitKeyword | TrustedKeyword | TrueKeyword | TryKeyword | TypeKeyword
  | UnionKeyword | UnitKeyword | UsingKeyword | UsesKeyword | ViewKeyword | WhenKeyword
  | WhileKeyword | WithKeyword | YieldKeyword => true
  | _ => false
  end.

Definition is_visibility_modifier (k : SyntaxKind) : bool :=
  match k with
  | PublicKeyword | InternalKeyword => true
  | _ => false
  end.

Definition is_literal (k : SyntaxKind) : bool :=
  match k with
  | DecimalIntegerLiteralToken | BinaryIntegerLiteralToken | HexadecimalIntegerLiteralToken
  | RealLiteralToken | ImaginaryLiteralToken | CharacterLiteralToken | StringLiteralToken
  | ByteStringLiteralToken => true
  | _ => false
  end.

Definition is_expression_operator (k : SyntaxKind) : bool :=
  match k with
  | EqualsToken | PlusEqualsToken | MinusEqualsToken | StarEqualsToken | SlashEqualsToken
  | PercentEqualsToken | AtEqualsToken | AmpersandEqualsToken | PipeEqualsToken
  | CaretEqualsToken | LessLessEqualsToken | GreaterGreaterEqualsToken | StarStarEqualsToken
  | EllipsisToken | DotDotToken | PipePipeToken | AmpersandAmpersandToken | EqualsEqualsToken
  | MatchesKeyword | BangEqualsToken | LessToken | LessEqualsToken | GreaterToken
  | GreaterEqualsToken | PipeToken | CaretToken | AmpersandToken | LessLessToken
  | GreaterGreaterToken | PlusToken | MinusToken | StarToken | SlashToken | PercentToken
  | AtToken | StarStarToken | TildeToken | BangToken | ColonToken => true
  | _ => false
  end.

Definition is_block_shaped_expression (k : SyntaxKind) : bool :=
  match k with
  | BlockExpression | ConditionalExpression | MatchExpression | WhileExpression | ForExpression
  | LoopExpression | WithExpression => true
  | _ => false
  end.

Definition is_pattern_literal (k : SyntaxKind) : bool :=
  is_literal k || match k with TrueKeyword | FalseKeyword => true | _ => false end.

(** ** Machine keys *)

Definition SyntaxKind_as_str (k : SyntaxKind) : string :=
  match k with
  | SourceUnit => "source_unit"
  | CompilationUnit => "compilation_unit"
  | SourceUnitModuleDeclaration => "source_unit_module_declaration"
  | BlockModuleDeclaration => "block_module_declaration"
  | ModuleDirectives => "module_directives"
  | TargetDirective => "target_directive"
  | TestDirective => "test_directive"
  | LinkDirective => "link_directive"
  | AbiDirective => "abi_directive"
  | SymbolDirective => "symbol_directive"
  | EntrypointDirective => "entrypoint_directive"
  | DirectiveArgumentList => "directive_argument_list"
  | DirectiveArgument => "directive_argument"
  | ModuleModifiers => "module_modifiers"
  | ModuleBody => "module_body"
  | UsingDeclaration => "using_declaration"
  | ExportDeclaration => "export_declaration"
  | ConstantDeclaration => "constant_declaration"
  | ConstantModifiers => "constant_modifiers"
  | StaticDeclaration => "static_declaration"
  | StaticDirectives => "static_directives"
  | ThreadLocalDirective => "thread_local_directive"
  | StaticDeclarationModifiers => "static_declaration_modifiers"
  | FunctionDeclaration => "function_declaration"
  | FunctionDirectives => "function_directives"
  | FunctionModifiers => "function_modifiers"
  | GenericParameterList => "generic_parameter_list"
  | GenericTypeParameter => "generic_type_parameter"
  | GenericConstParameter => "generic_const_parameter"
  | GenericArgumentList => "generic_argument_list"
  | GenericArgument => "generic_argument"
  | TypeFormArgumentList => "type_form_argument_list"
  | TypeFormArgument => "type_form_argument"
  | PredicateDeclaration => "predicate_declaration"
  | PredicateModifiers => "predicate_modifiers"
  | PredicateParameterList => "predicate_parameter_list"
  | PredicateParameter => "predicate_parameter"
  | CallableContractDeclaration => "callable_contract_declaration"
  | CallableContractModifiers => "callable_contract_modifiers"
  | RequiresClause => "requires_clause"
  | EnsuresClause => "ensures_clause"
  | WhenClause => "when_clause"
  | ExecutesClause => "executes_clause"
  | ExecutionProperty => "execution_property"
  | WithClause => "with_clause"
  | UsesClause => "uses_clause"
  | OverloadModifiers => "overload_modifiers"
  | CallableOverloadDeclaration => "callable_overload_declaration"
  | ImplementationOverloadDeclaration => "implementation_overload_declaration"
  | ImplementationOverloadSubject => "implementation_overload_subject"
  | OverloadArmList => "overload_arm_list"
  | OverloadArm => "overload_arm"
  | StructDeclaration => "struct_declaration"
  | TypeDirectives => "type_directives"
  | LayoutDirective => "layout_directive"
  | CopyDirective => "copy_directive"
  | TagDirective => "tag_directive"
  | TypeModifiers => "type_modifiers"
  | StructBody => "struct_body"
  | FieldModifiers => "field_modifiers"
  | StructFieldDeclaration => "struct_field_declaration"
  | UnionDeclaration => "union_declaration"
  | UnionBody => "union_body"
  | VariantDirectives => "variant_directives"
  | UnionVariantDeclaration => "union_variant_declaration"
  | UnionVariantPayload => "union_variant_payload"
  | UnionPayloadField => "union_payload_field"
  | PayloadFieldModifiers => "payload_field_modifiers"
  | TraitDeclaration => "trait_declaration"
  | TraitModifiers => "trait_modifiers"
  | TraitBody => "trait_body"
  | TraitConstantMemberDeclaration => "trait_constant_member_declaration"
  | TraitTypeMemberDeclaration => "trait_type_member_declaration"
  | TraitPredicateMemberModifiers => "trait_predicate_member_modifiers"
  | TraitPredicateMemberDeclaration => "trait_predicate_member_declaration"
  | TraitCallableMemberModifiers => "trait_callable_member_modifiers"
  | TraitCallableMemberDeclaration => "trait_callable_member_declaration"
  | ImplementationSubject => "implementation_subject"
  | TraitApplication => "trait_application"
  | InherentImplementationDeclaration => "inherent_implementation_declaration"
  | ImplementationBody => "implementation_body"
  | ImplementationTypeMemberBinding => "implementation_type_member_binding"
  | UnnamedTraitImplementationDeclaration => "unnamed_trait_implementation_declaration"
  | NamedTraitImplementationDeclaration => "named_trait_implementation_declaration"
  | ConstructorMemberModifiers => "constructor_member_modifiers"
  | TypeConstructorMemberDeclaration => "type_constructor_member_declaration"
  | AsyncCapableLifecycleMemberModifiers => "async_capable_lifecycle_member_modifiers"
  | ScopeEnterMemberModifiers => "scope_enter_member_modifiers"
  | SyncLifecycleMemberModifiers => "sync_lifecycle_member_modifiers"
  | FinalizerMemberDeclaration => "finalizer_member_declaration"
  | DestructorMemberDeclaration => "destructor_member_declaration"
  | ScopeEnterMemberDeclaration => "scope_enter_member_declaration"
  | ScopeExitMemberDeclaration => "scope_exit_member_declaration"
  | TraitFinalizerRequirementDeclaration => "trait_finalizer_requirement_declaration"
  | TraitDestructorRequirementDeclaration => "trait_destructor_requirement_declaration"
  | TraitScopeEnterRequirementDeclaration => "trait_scope_enter_requirement_declaration"
  | TraitScopeExitRequirementDeclaration => "trait_scope_exit_requirement_declaration"
  | TypeCallableMemberModifiers => "type_callable_member_modifiers"
  | TypeCallableMemberDeclaration => "type_callable_member_declaration"
  | CallableDirectives => "callable_directives"
  | CallableModifiers => "callable_modifiers"
  | ParameterList => "parameter_list"
  | Parameter_ => "parameter"
  | ParameterModifiers => "parameter_modifiers"
  | CallableResultClause => "callable_result_clause"
  | CallableBodyBlockExpression => "callable_body_block_expression"
  | Expression => "expression"
  | PrimaryExpression => "primary_expression"
  | AccessExpression => "access_expression"
  | MemberAccessOperation => "member_access_operation"
  | ElementIndexOperation => "element_index_operation"
  | CallOperation => "call_operation"
  | SliceIndexOperation => "slice_index_operation"
  | NullablePropagationOperation => "nullable_propagation_operation"
  | ConversionOperation => "conversion_operation"
  | ArgumentList => "argument_list"
  | Argument => "argument"
  | StructConstructionBody => "struct_construction_body"
  | StructFieldInitializer => "struct_field_initializer"
  | LiteralExpression => "literal_expression"
  | UnitExpression => "unit_expression"
  | AbsenceExpression => "absence_expression"
  | GroupedExpression => "grouped_expression"
  | TupleExpression => "tuple_expression"
  | ArrayExpression => "array_expression"
  | GeneralGeneratorExpression => "general_generator_expression"
  | GeneratorIterationExpression => "generator_iteration_expression"
  | LeadingDotVariantExpression => "leading_dot_variant_expression"
  | BlockExpression => "block_expression"
  | BlockItem => "block_item"
  | LocalBindingDeclaration => "local_binding_declaration"
  | SequencedExpression => "sequenced_expression"
  | ConditionalExpression => "conditional_expression"
  | ConditionalElse => "conditional_else"
  | MatchExpression => "match_expression"
  | MatchSubject => "match_subject"
  | MatchBody => "match_body"
  | MatchArm => "match_arm"
  | WhileExpression => "while_expression"
  | ForExpression => "for_expression"
  | IterationSource => "iteration_source"
  | LoopExpression => "loop_expression"
  | WithExpression => "with_expression"
  | LambdaExpression => "lambda_expression"
  | BorrowExpression => "borrow_expression"
  | TrustBoundaryExpression => "trust_boundary_expression"
  | AssertionExpression => "assertion_expression"
  | ResultPropagationExpression => "result_propagation_expression"
  | CatchExpression => "catch_expression"
  | AwaitExpression => "await_expression"
  | TypeFormConstructionExpression => "type_form_construction_expression"
  | BooleanFoldExpression => "boolean_fold_expression"
  | YieldExpression => "yield_expression"
  | ReturnExpression => "return_expression"
  | PanicExpression => "panic_expression"
  | BreakExpression => "break_expression"
  | ContinueExpression => "continue_expression"
  | IrrefutablePattern => "irrefutable_pattern"
  | IrrefutablePatternEntry => "irrefutable_pattern_entry"
  | CasePattern => "case_pattern"
  | CasePatternEntry => "case_pattern_entry"
  | TypeExpression => "type_expression"
  | TypeAnnotation => "type_annotation"
  | TypedIdentifier => "typed_identifier"
  | Path => "path"
  | IdentifierList => "identifier_list"
  | IdentifierListItem => "identifier_list_item"
  | SkippedSyntax => "skipped_syntax"
  | EndOfFileToken => "end_of_file_token"
  | InvalidToken => "invalid_token"
  | IdentifierToken => "identifier_token"
  | TupleElementIndexToken => "tuple_element_index_token"
  | DecimalIntegerLiteralToken => "decimal_integer_literal_token"
  | BinaryIntegerLiteralToken => "binary_integer_literal_token"
  | HexadecimalIntegerLiteralToken => "hexadecimal_integer_literal_token"
  | RealLiteralToken => "real_literal_token"
  | ImaginaryLiteralToken => "imaginary_literal_token"
  | CharacterLiteralToken => "character_literal_token"
  | StringLiteralToken => "string_literal_token"
  | ByteStringLiteralToken => "byte_string_literal_token"
  | AllKeyword => "all_keyword"
  | AnyKeyword => "any_keyword"
  | AsKeyword => "as_keyword"
  | AssertKeyword => "assert_keyword"
  | AsyncKeyword => "async_keyword"
  | AwaitKeyword => "await_keyword"
  | BoxKeyword => "box_keyword"
  | BreakKeyword => "break_keyword"
  | CallableKeyword => "callable_keyword"
  | CaseKeyword => "case_keyword"
  | CatchKeyword => "catch_keyword"
  | ConstKeyword => "const_keyword"
  | ConstructKeyword => "construct_keyword"
  | ConsumeKeyword => "consume_keyword"
  | ContinueKeyword => "continue_keyword"
  | DestructKeyword => "destruct_keyword"
  | EachKeyword => "each_keyword"
  | ElseKeyword => "else_keyword"
  | EnsuresKeyword => "ensures_keyword"
  | ExecutesKeyword => "executes_keyword"
  | EnterKeyword => "enter_keyword"
  | ExitKeyword => "exit_keyword"
  | ExportKeyword => "export_keyword"
  | ExternKeyword => "extern_keyword"
  | FalseKeyword => "false_keyword"
  | FinalizeKeyword => "finalize_keyword"
  | ForKeyword => "for_keyword"
  | FuncKeyword => "func_keyword"
  | IfKeyword => "if_keyword"
  | ImplKeyword => "impl_keyword"
  | InKeyword => "in_keyword"
  | InternalKeyword => "internal_keyword"
  | LambdaKeyword => "lambda_keyword"
  | LetKeyword => "let_keyword"
  | LoopKeyword => "loop_keyword"
  | MatchKeyword => "match_keyword"
  | MatchesKeyword => "matches_keyword"
  | ModuleKeyword => "module_keyword"
  | MoveKeyword => "move_keyword"
  | MutKeyword => "mut_keyword"
  | NoneKeyword => "none_keyword"
  | OverloadKeyword => "overload_keyword"
  | PanicKeyword => "panic_keyword"
  | PosKeyword => "pos_keyword"
  | PredicateKeyword => "predicate_keyword"
  | PublicKeyword => "public_keyword"
  | RequiresKeyword => "requires_keyword"
  | ReturnKeyword => "return_keyword"
  | SelfValueKeyword => "self_value_keyword"
  | SelfTypeKeyword => "self_type_keyword"
  | StaticKeyword => "static_keyword"
  | StructKeyword => "struct_keyword"
  | TraitKeyword => "trait_keyword"
  | TrustedKeyword => "trusted_keyword"
  | TrueKeyword => "true_keyword"
  | TryKeyword => "try_keyword"
  | TypeKeyword => "type_keyword"
  | UnionKeyword => "union_keyword"
  | UnitKeyword => "unit_keyword"
  | UsingKeyword => "using_keyword"
  | UsesKeyword => "uses_keyword"
  | ViewKeyword => "view_keyword"
  | WhenKeyword => "when_keyword"
  | WhileKeyword => "while_keyword"
  | WithKeyword => "with_keyword"
  | YieldKeyword => "yield_keyword"
  | ArrowToken => "arrow_token"
  | EqualsEqualsToken => "equals_equals_token"
  | BangEqualsToken => "bang_equals_token"
  | LessEqualsToken => "less_equals_token"
  | GreaterEqualsToken => "greater_equals_token"
  | AmpersandAmpersandToken => "ampersand_ampersand_token"
  | PipePipeToken => "pipe_pipe_token"
  | LessLessToken => "less_less_token"
  | GreaterGreaterToken => "greater_greater_token"
  | StarStarToken => "star_star_token"
  | PlusEqualsToken => "plus_equals_token"
  | MinusEqualsToken => "minus_equals_token"
  | StarEqualsToken => "star_equals_token"
  | SlashEqualsToken => "slash_equals_token"
  | PercentEqualsToken => "percent_equals_token"
  | AtEqualsToken => "at_equals_token"
  | AmpersandEqualsToken => "ampersand_equals_token"
  | PipeEqualsToken => "pipe_equals_token"
  | CaretEqualsToken => "caret_equals_token"
  | LessLessEqualsToken => "less_less_equals_token"
  | GreaterGreaterEqualsToken => "greater_greater_equals_token"
  | StarStarEqualsToken => "star_star_equals_token"
  | EllipsisToken => "ellipsis_token"
  | DotDotToken => "dot_dot_token"
  | OpenParenToken => "open_paren_token"
  | CloseParenToken => "close_paren_token"
  | OpenBraceToken => "open_brace_token"
  | CloseBraceToken => "close_brace_token"
  | OpenBracketToken => "open_bracket_token"
  | CloseBracketToken => "close_bracket_token"
  | CommaToken => "comma_token"
  | SemicolonToken => "semicolon_token"
  | ColonToken => "colon_token"
  | DotToken => "dot_token"
  | QuestionToken => "question_token"
  | EqualsToken => "equals_token"
  | PlusToken => "plus_token"
  | MinusToken => "minus_token"
  | StarToken => "star_token"
  | SlashToken => "slash_token"
  | PercentToken => "percent_token"
  | AtToken => "at_token"
  | AmpersandToken => "ampersand_token"
  | PipeToken => "pipe_token"
  | CaretToken => "caret_token"
  | TildeToken => "tilde_token"
  | BangToken => "bang_token"
  | LessToken => "less_token"
  | GreaterToken => "greater_token"
  | UnderscoreToken => "underscore_token"
  | WhitespaceTrivia => "whitespace_trivia"
  | LineCommentTrivia => "line_comment_trivia"
  | BlockCommentTrivia => "block_comment_trivia"
  | DocumentationLineCommentTrivia => "documentation_line_comment_trivia"
  | DocumentationBlockCommentTrivia => "documentation_block_comment_trivia"
  end%string.

(** ** Fixed spellings

    The table the [fixed_syntax_text!] macro expands in both directions. *)

Definition fixed_syntax_text : list (string * SyntaxKind) :=
  [ ("all", AllKeyword);
    ("any", AnyKeyword);
    ("as", AsKeyword);
    ("assert", AssertKeyword);
    ("async", AsyncKeyword);
    ("await", AwaitKeyword);
    ("box", BoxKeyword);
    ("break", BreakKeyword);
    ("callable", CallableKeyword);
    ("case", CaseKeyword);
    ("catch", CatchKeyword);
    ("const", ConstKeyword);
    ("construct", ConstructKeyword);
    ("consume", ConsumeKeyword);
    ("continue", ContinueKeyword);
    ("destruct", DestructKeyword);
    ("each", EachKeyword);
    ("else", ElseKeyword);
    ("ensures", EnsuresKeyword);
    ("executes", ExecutesKeyword);
    ("enter", EnterKeyword);
    ("exit", ExitKeyword);
    ("export", ExportKeyword);
    ("extern", ExternKeyword);
    ("false", FalseKeyword);
    ("finalize", FinalizeKeyword);
    ("for", ForKeyword);
    ("func", FuncKeyword);
    ("if", IfKeyword);
    ("impl", ImplKeyword);
    ("in", InKeyword);
    ("internal", InternalKeyword);
    ("lambda", LambdaKeyword);
    ("let", LetKeyword);
    ("loop", LoopKeyword);
    ("match", MatchKeyword);
    ("matches", MatchesKeyword);
    ("module", ModuleKeyword);
    ("move", MoveKeyword);
    ("mut", MutKeyword);
    ("none", NoneKeyword);
    ("overload", OverloadKeyword);
    ("panic", PanicKeyword);
    ("pos", PosKeyword);
    ("predicate", PredicateKeyword);
    ("public", PublicKeyword);
    ("requires", RequiresKeyword);
    ("return", ReturnKeyword);
    ("self", SelfValueKeyword);
    ("Self", SelfTypeKeyword);
    ("static", StaticKeyword);
    ("struct", StructKeyword);
    ("trait", TraitKeyword);
    ("trusted", TrustedKeyword);
    ("true", TrueKeyword);
    ("try", TryKeyword);
    ("type", TypeKeyword);
    ("union", UnionKeyword);
    ("unit", UnitKeyword);
    ("using", UsingKeyword);
    ("uses", UsesKeyword);
    ("view", ViewKeyword);
    ("when", WhenKeyword);
    ("while", WhileKeyword);
    ("with", WithKeyword);
    ("yield", YieldKeyword);
    ("->", ArrowToken);
    ("==", EqualsEqualsToken);
    ("!=", BangEqualsToken);
    ("<=", LessEqualsToken);
    (">=", GreaterEqualsToken);
    ("&&", AmpersandAmpersandToken);
    ("||", PipePipeToken);
    ("<<", LessLessToken);
    (">>", GreaterGreaterToken);
    ("**", StarStarToken);
    ("+=", PlusEqualsToken);
    ("-=", MinusEqualsToken);
    ("*=", StarEqualsToken);
    ("/=", SlashEqualsToken);
    ("%=", PercentEqualsToken);
    ("@=", AtEqualsToken);
    ("&=", AmpersandEqualsToken);
    ("|=", PipeEqualsToken);
    ("^=", CaretEqualsToken);
    ("<<=", LessLessEqualsToken);
    (">>=", GreaterGreaterEqualsToken);
    ("**=", StarStarEqualsToken);
    ("...", EllipsisToken);
    ("..", DotDotToken);
    (":", ColonToken);
    (".", DotToken);
    ("?", QuestionToken);
    ("=", EqualsToken);
    ("+", PlusToken);
    ("-", MinusToken);
    ("*", StarToken);
    ("/", SlashToken);
    ("%", PercentToken);
    ("@", AtToken);
    ("&", AmpersandToken);
    ("|", PipeToken);
    ("^", CaretToken);
    ("~", TildeToken);
    ("!", BangToken);
    ("<", LessToken);
    (">", GreaterToken);
    ("(", OpenParenToken);
    (")", CloseParenToken);
    ("{", OpenBraceToken);
    ("}", CloseBraceToken);
    ("[", OpenBracketToken);
    ("]", CloseBracketToken);
    (",", CommaToken);
    (";", SemicolonToken);
    ("_", UnderscoreToken) ]%string.

Definition DIRECTIVE_NAMES : list (SyntaxKind * string) :=
  [ (TargetDirective, "target");
    (TestDirective, "test");
    (LinkDirective, "link");
    (LayoutDirective, "layout");
    (CopyDirective, "copy");
    (TagDirective, "tag");
    (AbiDirective, "abi");
    (SymbolDirective, "symbol");
    (EntrypointDirective, "entrypoint");
    (ThreadLocalDirective, "thread_local") ]%string.

Fixpoint find_map {A B} (f : A -> option B) (l : list A) : option B :=
  match l with
  | [] => None
  | x :: l' => match f x with Some y => Some y | None => find_map f l' end
  end.

(** ** Finite reasoning over kinds *)

Lemma all_kinds_discriminant k : get all_kinds (discriminant k) = Some k.
Proof. by destruct k. Qed.

Lemma discriminant_inj k k' : discriminant k = discriminant k' -> k = k'.
Proof.
  intros H. pose proof (all_kinds_discriminant k) as Hk. rewrite H, all_kinds_discriminant in Hk.
  congruence.
Qed.

#[export] Instance SyntaxKind_eq_dec : EqDecision SyntaxKind.
Proof.
  intros k k'. destruct (decide (discriminant k = discriminant k')) as [H|H].
  - left. by apply discriminant_inj.
  - right. congruence.
Defined.

Lemma in_all_kinds k : In k all_kinds.
Proof.
  pose proof (all_kinds_discriminant k) as H. rewrite get_nonneg in H by (apply get_Some_range in H; lia).
  by eapply list_elem_of_In, list_elem_of_lookup_2.
Qed.

(** A boolean property checked on the enumeration holds of every kind. *)
Lemma kind_forall (P : SyntaxKind -> bool) : forallb P all_kinds = true -> forall k, P k = true.
Proof. intros H k. rewrite forallb_forall in H. apply H, in_all_kinds. Qed.

Lemma kind_forall2 (P : SyntaxKind -> SyntaxKind -> bool) :
  forallb (fun a => forallb (P a) all_kinds) all_kinds = true -> forall a b, P a b = true.
Proof. intros H a b. revert b. apply kind_forall. by apply (kind_forall (fun a => forallb (P a) all_kinds)). Qed.

(** ** Lookups *)

Definition fixed_text (k : SyntaxKind) : option str :=
  find_map (fun '(text, kind) => if decide (k = kind) then Some (lit text) else None) fixed_syntax_text.

Definition from_fixed_text (text : str) : option SyntaxKind :=
  find_map (fun '(t, kind) => if bool_decide (text = lit t) then Some kind else None) fixed_syntax_text.

Definition from_fixed_character (character : char) : option SyntaxKind :=
  from_fixed_text (encode_utf8 character).

Definition directive_from_name (name : str) : option SyntaxKind :=
  find_map (fun '(kind, candidate) => if bool_decide (lit candidate = name) then Some kind else None)
    DIRECTIVE_NAMES.

Definition directive_name (k : SyntaxKind) : option str :=
  find_map (fun '(kind, name) => if decide (kind = k) then Some (lit name) else None) DIRECTIVE_NAMES.

Lemma find_map_Some {A B} (f : A -> option B) l y :
  find_map f l = Some y -> exists x, In x l /\ f x = Some y.
Proof.
  induction l as [|x l IH]; simpl; [done|]. destruct (f x) eqn:E.
  - intros ?; simplify_eq. eauto.
  - intros H. destruct (IH H) as (x' & ? & ?). eauto.
Qed.

Lemma from_fixed_text_Some t k :
  from_fixed_text t = Some k -> exists s, In (s, k) fixed_syntax_text /\ t = lit s.
Proof.
  intros H. apply find_map_Some in H as ([s k'] & Hin & H). case_bool_decide; [|done]. simplify_eq. eauto.
Qed.

Lemma fixed_text_Some t k :
  fixed_text k = Some t -> exists s, In (s, k) fixed_syntax_text /\ t = lit s.
Proof.
  intros H. apply find_map_Some in H as ([s k'] & Hin & H). destruct (decide _); [|done]. simplify_eq. eauto.
Qed.

(** A fact checked on each row of the spelling table. *)
Lemma fixed_forall (P : string * SyntaxKind -> bool) :
  forallb P fixed_syntax_text = true -> forall s k, In (s, k) fixed_syntax_text -> P (s, k) = true.
Proof. intros H s k Hin. rewrite forallb_forall in H. by apply H. Qed.

Lemma fixed_row s k :
  In (s, k) fixed_syntax_text -> fixed_text k = Some (lit s) /\ from_fixed_text (lit s) = Some k.
Proof.
  intros Hin.
  pose proof (fixed_forall (fun '(s, k) => bool_decide (fixed_text k = Some (lit s)) &&
    bool_decide (from_fixed_text (lit s) = Some k)) ltac:(by vm_compute) s k Hin) as H.
  apply andb_true_iff in H as [H1 H2]. by rewrite !bool_decide_eq_true in H1, H2.
Qed.

Definition is_ascii_alphabetic (c : Z) : bool := (65 <=? c) && (c <=? 90) || (97 <=? c) && (c <=? 122).

(** ** Theorems *)

(** The fixed spellings are a bijection: classifying a text yields a kind
    exactly when that text is the kind's fixed spelling, and every keyword has
    one. *)
Theorem fixed_text_round_trip :
  (forall t k, from_fixed_text t = Some k <-> fixed_text k = Some t) /\
  (forall k, is_keyword k = true -> exists t, fixed_text k = Some t).
Proof.
  split.
  - intros t k. split.
    + intros H. destruct (from_fixed_text_Some _ _ H) as (s & Hin & ->). by apply fixed_row.
    + intros H. destruct (fixed_text_Some _ _ H) as (s & Hin & ->). by apply fixed_row.
  - intros k Hk. pose proof (kind_forall (fun k => implb (is_keyword k)
      (match fixed_text k with Some _ => true | None => false end)) ltac:(by vm_compute) k) as H.
    cbn beta in H. rewrite Hk in H. destruct (fixed_text k); [eauto|done].
Qed.

(** The vocabulary is partitioned: every kind is exactly one of node, trivia
    and token; keywords, literals and expression operators are tokens; and the
    keywords are exactly the kinds whose fixed spelling starts with a letter. *)
Theorem syntax_kind_partition k :
  (if is_node k then negb (is_trivia k) && negb (is_token k) else xorb (is_trivia k) (is_token k)) = true /\
  (is_keyword k || is_literal k || is_expression_operator k = true -> is_token k = true) /\
  (is_keyword k = true <->
   exists c t, fixed_text k = Some (c :: t) /\ is_ascii_alphabetic c = true).
Proof.
  pose proof (kind_forall (fun k =>
    (if is_node k then negb (is_trivia k) && negb (is_token k) else xorb (is_trivia k) (is_token k))
    && implb (is_keyword k || is_literal k || is_expression_operator k) (is_token k)
    && eqb (is_keyword k) (match fixed_text k with
                           | Some (c :: _) => is_ascii_alphabetic c
                           | _ => false end)) ltac:(by vm_compute) k) as H.
  cbn beta in H. apply andb_true_iff in H as [[H1 H2]%andb_true_iff H3].
  split_and!; [done| |].
  - intros Hk. by rewrite Hk in H2.
  - apply eqb_prop in H3. rewrite H3. split.
    + destruct (fixed_text k) as [[|c t]|]; [done| |done]. eauto.
    + intros (c & t & -> & Hc). done.
Qed.

(** Stable machine keys identify their kind, and directive names round-trip. *)
Theorem kind_keys_injective :
  (forall a b, SyntaxKind_as_str a = SyntaxKind_as_str b -> a = b) /\
  (forall k name, directive_name k = Some name <-> directive_from_name name = Some k).
Proof.
  split.
  - intros a b Hab. pose proof (kind_forall2 (fun a b => implb (String.eqb (SyntaxKind_as_str a) (SyntaxKind_as_str b))
      (discriminant a =? discriminant b)) ltac:(by vm_compute) a b) as H.
    cbn beta in H. rewrite Hab, String.eqb_refl in H. apply discriminant_inj. by apply Z.eqb_eq.
  - assert (forallb (fun '(k, s) => bool_decide (directive_name k = Some (lit s)) &&
      bool_decide (directive_from_name (lit s) = Some k)) DIRECTIVE_NAMES = true) as Hall by by vm_compute.
    rewrite forallb_forall in Hall. intros k name. split; intros H.
    + apply find_map_Some in H as ([k' s] & Hin & H). destruct (decide _) as [->|]; [|done]. simplify_eq.
      apply Hall, andb_true_iff in Hin as [_ Hin]. by rewrite bool_decide_eq_true in Hin.
    + apply find_map_Some in H as ([k' s] & Hin & H). case_bool_decide; [|done]. simplify_eq.
      apply Hall, andb_true_iff in Hin as [Hin _]. by rewrite bool_decide_eq_true in Hin.
Qed.
