(* ===== verification/SyntaxToken.v ===== *)
(** * Tokens and trivia

    [bray-syntax]: [SyntaxTrivia] ([trivia.rs]) and [SyntaxToken] ([token.rs]).
    Tokens store ranges and resolve their text from the source; constructors
    that [assert!] return an [outcome]. *)

From Stdlib Require Import ZArith Lia String.
From stdpp Require Import base list numbers option.
From S2P Require Import Prelude Utf8 SourceText Snapshot SyntaxKind.

(** ** Trivia *)

Record SyntaxTrivia := { trivia_kind : SyntaxKind; trivia_range : TextRange }.

#[export] Instance SyntaxTrivia_eq_dec : EqDecision SyntaxTrivia.
Proof. solve_decision. Defined.

Definition SyntaxTrivia_new (kind : SyntaxKind) (range : TextRange) : outcome SyntaxTrivia :=
  let! _ := assert_ (is_trivia kind) in Ret {| trivia_kind := kind; trivia_range := range |}.

Definition SyntaxTrivia_whitespace (range : TextRange) : outcome SyntaxTrivia :=
  SyntaxTrivia_new WhitespaceTrivia range.
Definition SyntaxTrivia_line_comment (range : TextRange) : outcome SyntaxTrivia :=
  SyntaxTrivia_new LineCommentTrivia range.
Definition SyntaxTrivia_block_comment (range : TextRange) : outcome SyntaxTrivia :=
  SyntaxTrivia_new BlockCommentTrivia range.
Definition SyntaxTrivia_documentation_line_comment (range : TextRange) : outcome SyntaxTrivia :=
  SyntaxTrivia_new DocumentationLineCommentTrivia range.
Definition SyntaxTrivia_documentation_block_comment (range : TextRange) : outcome SyntaxTrivia :=
  SyntaxTrivia_new DocumentationBlockCommentTrivia range.

Definition SyntaxTrivia_start (t : SyntaxTrivia) : TextSize := start (trivia_range t).
Definition SyntaxTrivia_end (t : SyntaxTrivia) : TextSize := end_ (trivia_range t).

Definition SyntaxTrivia_text (t : SyntaxTrivia) (source_text : str) : option str :=
  TextRange_slice_str (trivia_range t) source_text.

(** ** Tokens *)

Inductive SyntaxTokenPresence := Present | Missing.

#[export] Instance SyntaxTokenPresence_eq_dec : EqDecision SyntaxTokenPresence.
Proof. solve_decision. Defined.

Definition presence_is_present (p : SyntaxTokenPresence) : bool :=
  match p with Present => true | Missing => false end.
Definition presence_is_missing (p : SyntaxTokenPresence) : bool :=
  match p with Present => false | Missing => true end.

Record SyntaxToken := {
  token_kind : SyntaxKind;
  token_range : TextRange;
  presence : SyntaxTokenPresence;
  leading_trivia : list SyntaxTrivia;
  trailing_trivia : list SyntaxTrivia;
}.

#[export] Instance SyntaxToken_eq_dec : EqDecision SyntaxToken.
Proof. solve_decision. Defined.

Definition is_nil {A} (l : list A) : bool := match l with [] => true | _ => false end.

Definition with_trivia_and_presence (kind : SyntaxKind) (range : TextRange)
    (p : SyntaxTokenPresence) (leading trailing : list SyntaxTrivia) : outcome SyntaxToken :=
  let! _ := assert_ (is_token kind) in
  let! _ := assert_ (presence_is_present p
                     || (TextRange_is_empty range && is_nil leading && is_nil trailing)) in
  Ret {| token_kind := kind; token_range := range; presence := p;
         leading_trivia := leading; trailing_trivia := trailing |}.

Definition with_trivia (kind : SyntaxKind) (range : TextRange) (leading trailing : list SyntaxTrivia)
    : outcome SyntaxToken :=
  with_trivia_and_presence kind range Present leading trailing.

Definition SyntaxToken_new (kind : SyntaxKind) (range : TextRange) : outcome SyntaxToken :=
  with_trivia kind range [] [].

Definition SyntaxToken_end_of_file (offset : TextSize) : outcome SyntaxToken :=
  SyntaxToken_new EndOfFileToken (TextRange_empty offset).

Definition SyntaxToken_missing (kind : SyntaxKind) (offset : TextSize) : outcome SyntaxToken :=
  with_trivia_and_presence kind (TextRange_empty offset) Missing [] [].

Definition SyntaxToken_invalid (range : TextRange) : outcome SyntaxToken :=
  SyntaxToken_new InvalidToken range.

Definition with_kind (t : SyntaxToken) (kind : SyntaxKind) : outcome SyntaxToken :=
  let! _ := assert_ (is_token kind) in
  Ret {| token_kind := kind; token_range := token_range t; presence := presence t;
         leading_trivia := leading_trivia t; trailing_trivia := trailing_trivia t |}.

Definition is_present (t : SyntaxToken) : bool := presence_is_present (presence t).
Definition is_missing (t : SyntaxToken) : bool := presence_is_missing (presence t).

Definition with_leading_trivia (t : SyntaxToken) (trivia : list SyntaxTrivia) : outcome SyntaxToken :=
  let! _ := assert_ (is_present t || is_nil trivia) in
  Ret {| token_kind := token_kind t; token_range := token_range t; presence := presence t;
         leading_trivia := trivia; trailing_trivia := trailing_trivia t |}.

Definition with_trailing_trivia (t : SyntaxToken) (trivia : list SyntaxTrivia) : outcome SyntaxToken :=
  let! _ := assert_ (is_present t || is_nil trivia) in
  Ret {| token_kind := token_kind t; token_range := token_range t; presence := presence t;
         leading_trivia := leading_trivia t; trailing_trivia := trivia |}.

Definition is_end_of_file (t : SyntaxToken) : bool :=
  match token_kind t with EndOfFileToken => true | _ => false end.

Definition token_start (t : SyntaxToken) : TextSize := start (token_range t).
Definition token_end (t : SyntaxToken) : TextSize := end_ (token_range t).

Definition SyntaxToken_text (t : SyntaxToken) (source_text : str) : option str :=
  TextRange_slice_str (token_range t) source_text.

Definition full_range (t : SyntaxToken) : TextRange :=
  let with_leading :=
    match list.head (leading_trivia t) with
    | Some first => TextRange_cover (trivia_range first) (token_range t)
    | None => token_range t
    end in
  match list.last (trailing_trivia t) with
  | Some last => TextRange_cover with_leading (trivia_range last)
  | None => with_leading
  end.

Definition required_text (source_text : str) (range : TextRange) : outcome str :=
  expect (TextRange_slice_str range source_text).

Fixpoint write_trivia (source_text : str) (l : list SyntaxTrivia) (writer : str) : outcome str :=
  match l with
  | [] => Ret writer
  | t :: l' =>
      let! text := required_text source_text (trivia_range t) in
      write_trivia source_text l' (writer ++ text)
  end.

Definition write_full_text (t : SyntaxToken) (source_text : str) (writer : str) : outcome str :=
  let! writer := write_trivia source_text (leading_trivia t) writer in
  let! text := required_text source_text (token_range t) in
  write_trivia source_text (trailing_trivia t) (writer ++ text).

Definition full_text (t : SyntaxToken) (source_text : str) : outcome str :=
  write_full_text t source_text [].

(** ** Tokens that cover a piece of a text

    [trivia_tile text a l b]: the pieces [l] cover [text] from [a] to [b]
    without gap or overlap, each between scalar boundaries. *)
Inductive trivia_tile (text : str) : Z -> list SyntaxTrivia -> Z -> Prop :=
| tile_nil a : boundary text a -> trivia_tile text a [] a
| tile_cons t l b :
    boundary text (SyntaxTrivia_start t) -> SyntaxTrivia_start t < SyntaxTrivia_end t ->
    is_trivia (trivia_kind t) = true ->
    trivia_tile text (SyntaxTrivia_end t) l b ->
    trivia_tile text (SyntaxTrivia_start t) (t :: l) b.

(** [token_tile text a t b]: the token and its trivia cover [text] from [a] to
    [b]; only the end-of-file token is empty. *)
Record token_tile (text : str) (a : Z) (t : SyntaxToken) (b : Z) : Prop := {
  tile_leading : trivia_tile text a (leading_trivia t) (token_start t);
  tile_trailing : trivia_tile text (token_end t) (trailing_trivia t) b;
  tile_kind : is_token (token_kind t) = true;
  tile_presence : presence t = Present;
  tile_width :
    if is_end_of_file t then token_start t = token_end t else token_start t < token_end t;
}.

Lemma trivia_tile_boundaries text a l b :
  trivia_tile text a l b -> boundary text a /\ boundary text b /\ a <= b.
Proof. induction 1 as [|t l b Ha Hlt Hk H (IH1 & IH2 & IH3)]; [done || lia|split_and!; done || lia]. Qed.

Lemma trivia_tile_app text a l1 b l2 c :
  trivia_tile text a l1 b -> trivia_tile text b l2 c -> trivia_tile text a (l1 ++ l2) c.
Proof. induction 1; simpl; [done|]. intros ?. constructor; auto. Qed.

Lemma trivia_tile_nonempty text a t l b : trivia_tile text a (t :: l) b -> a = SyntaxTrivia_start t /\ a < b.
Proof.
  inversion 1; subst. split; [done|].
  match goal with H : trivia_tile _ (SyntaxTrivia_end _) _ _ |- _ => apply trivia_tile_boundaries in H as (_ & _ & ?) end.
  lia.
Qed.

Lemma trivia_tile_last text a l b t :
  trivia_tile text a l b -> list.last l = Some t -> SyntaxTrivia_end t = b /\ a <= SyntaxTrivia_start t.
Proof.
  induction 1 as [|t' l b Ha Hlt Hk H IH]; [done|]. destruct l as [|t2 l]; intros Hl.
  - simpl in Hl. simplify_eq. inversion H; subst. split; [done|lia].
  - rewrite last_cons_cons in Hl. destruct (IH Hl). split; [done|lia].
Qed.

(** The text between two boundaries. *)
Definition between (text : str) (a b : Z) : str := ztake (b - a) (zdrop a text).

Lemma between_join text a b c :
  0 <= a <= b -> b <= c -> c <= zlen text -> between text a b ++ between text b c = between text a c.
Proof. intros ???. unfold between. by rewrite ztake_zdrop_join by lia. Qed.

Lemma between_empty text a : between text a a = [].
Proof. unfold between. rewrite Z.sub_diag. by unfold ztake. Qed.

Lemma required_text_boundary text r :
  zlen text <= U32_MAX -> boundary text (start r) -> boundary text (end_ r) -> start r <= end_ r ->
  required_text text r = Ret (between text (start r) (end_ r)).
Proof.
  intros Hfit Ha Hb Hle. pose proof (boundary_range _ _ Ha). pose proof (boundary_range _ _ Hb).
  unfold required_text, TextRange_slice_str. rewrite range_wf_usize by (unfold range_wf; lia).
  by rewrite str_get_boundary.
Qed.

Lemma write_trivia_tile text a l b w :
  zlen text <= U32_MAX -> trivia_tile text a l b ->
  write_trivia text l w = Ret (w ++ between text a b).
Proof.
  intros Hfit H. revert w. induction H as [a Ha|t l b Ha Hlt Hk H IH]; intros w; simpl.
  - by rewrite between_empty, app_nil_r.
  - pose proof (trivia_tile_boundaries _ _ _ _ H) as (He & Hb & Hle).
    unfold SyntaxTrivia_start, SyntaxTrivia_end in *.
    rewrite required_text_boundary by (done || lia). simpl. rewrite IH, <- app_assoc.
    pose proof (boundary_range _ _ Ha). pose proof (boundary_range _ _ Hb).
    by rewrite between_join by lia.
Qed.

Lemma token_tile_boundaries text a t b :
  token_tile text a t b ->
  boundary text a /\ boundary text b /\ a <= token_start t <= token_end t /\ token_end t <= b.
Proof.
  intros [Hl Ht _ _ Hw]. apply trivia_tile_boundaries in Hl as (? & ? & ?).
  apply trivia_tile_boundaries in Ht as (? & ? & ?). destruct (is_end_of_file t); split_and!; done || lia.
Qed.

(** A tiling token occupies exactly its full range. *)
Lemma token_tile_full_range text a t b :
  token_tile text a t b -> full_range t = {| start := a; end_ := b |}.
Proof.
  intros Ht. pose proof (token_tile_boundaries _ _ _ _ Ht) as (_ & _ & [Hs Hm] & He).
  destruct Ht as [Hlead Htrail _ _ _]. unfold full_range.
  assert (match list.head (leading_trivia t) with
          | Some first => TextRange_cover (trivia_range first) (token_range t)
          | None => token_range t
          end = {| start := a; end_ := token_end t |}) as ->.
  { unfold token_start, token_end in *. destruct (leading_trivia t) as [|f l]; simpl.
    - inversion Hlead; subst. by destruct (token_range t).
    - pose proof (trivia_tile_nonempty _ _ _ _ _ Hlead) as [-> _]. inversion Hlead; subst.
      match goal with H : trivia_tile _ (SyntaxTrivia_end _) _ _ |- _ => apply trivia_tile_boundaries in H as (_ & _ & ?) end.
      unfold TextRange_cover, SyntaxTrivia_start, SyntaxTrivia_end in *.
      destruct (_ <=? start _) eqn:E1; [|lia]. destruct (end_ (token_range t) <=? _) eqn:E2; f_equal; lia. }
  destruct (list.last (trailing_trivia t)) as [l|] eqn:El.
  - destruct (trivia_tile_last _ _ _ _ _ Htrail El) as [<- Hl].
    unfold TextRange_cover, SyntaxTrivia_start, SyntaxTrivia_end in *. cbn [start end_].
    destruct (a <=? start _) eqn:E1; [|lia]. destruct (_ <=? token_end t) eqn:E2; f_equal; lia.
  - apply last_None in El. rewrite El in Htrail. by inversion Htrail.
Qed.

Lemma token_tile_full_text text a t b w :
  zlen text <= U32_MAX -> token_tile text a t b ->
  write_full_text t text w = Ret (w ++ between text a b).
Proof.
  intros Hfit Ht. pose proof (token_tile_boundaries _ _ _ _ Ht) as (Ha & Hb & [Hs Hm] & He).
  pose proof (boundary_range _ _ Ha). pose proof (boundary_range _ _ Hb).
  destruct Ht as [Hlead Htrail _ _ _]. unfold write_full_text.
  rewrite (write_trivia_tile _ _ _ _ _ Hfit Hlead). simpl.
  apply trivia_tile_boundaries in Hlead as (_ & Hs' & _).
  pose proof (trivia_tile_boundaries _ _ _ _ Htrail) as (He' & _ & _).
  unfold token_start, token_end in *. rewrite required_text_boundary by (done || lia). simpl.
  rewrite (write_trivia_tile _ _ _ _ _ Hfit Htrail), <- !app_assoc. do 2 f_equal.
  by rewrite !between_join by lia.
Qed.
