(* ===== verification/DiagnosticKind.v ===== *)
(** * The diagnostic vocabulary

    [bray-diagnostics]: the categories of diagnostics ([kind/model.rs]) with
    their numeric codes and stable machine keys, and the kinds of labels
    ([label.rs]), notes ([note.rs]), related locations ([related.rs]) and
    arguments ([argument/protocol.rs]) with their keys.  The constructors carry
    their enum's name as a prefix where two enums share a name. *)

From Stdlib Require Import ZArith Lia String.
From stdpp Require Import base list numbers option strings.
From S2P Require Import Prelude Utf8.

(** ** Enumerations

    A field-less Rust enum: its variants in declaration order, and each one's
    position.  Equality is decided on the position. *)
Class Enumerated (A : Type) := {
  variants : list A;
  position : A -> Z;
  variants_position a : get variants (position a) = Some a;
}.

Section enumerated.
Context {A : Type} `{!Enumerated A}.

Lemma position_inj (a b : A) : position a = position b -> a = b.
Proof.
  intros H. pose proof (variants_position a) as Ha. rewrite H, variants_position in Ha. by simplify_eq.
Qed.

#[export] Instance enumerated_eq_dec : EqDecision A | 100.
Proof.
  intros a b. destruct (decide (position a = position b)) as [H|H].
  - left. by apply position_inj.
  - right. by intros ->.
Defined.

(** A name map whose values on the variants do not repeat is injective. *)
Lemma names_inj {N : Type} `{EqDecision N} (name : A -> N) :
  bool_decide (NoDup (map name variants)) = true -> forall a b, name a = name b -> a = b.
Proof.
  rewrite bool_decide_eq_true. intros Hnd a b Hab. apply position_inj.
  pose proof (variants_position a) as Ha. pose proof (variants_position b) as Hb.
  pose proof (get_Some_range _ _ _ Ha). pose proof (get_Some_range _ _ _ Hb).
  rewrite get_nonneg in Ha, Hb by lia.
  apply (f_equal (fmap name)) in Ha, Hb. rewrite <- list_lookup_fmap in Ha, Hb. cbn in Ha, Hb.
  rewrite Hab in Ha. pose proof (NoDup_lookup _ _ _ _ Hnd Ha Hb). lia.
Qed.
End enumerated.

(** ** Diagnostics *)

Inductive DiagnosticKind :=
  | SourceFileReadFailed | SourceInvalidUtf8 | SourceTooManyInputs | SourceTextTooLarge
  | RequestMissingSourceInput | RequestInvalidSourceInput | RequestReservedPackageIdentity
  | RequestStandardLibraryPackageIdentityRequired | PackageArtifactReadFailed
  | StandardLibraryManifestInvalid | StandardLibraryInfrastructureFailure
  | StandardLibraryArtifactLengthMismatch | StandardLibraryArtifactDigestMismatch
  | StandardLibraryTargetUnavailable | StandardLibraryRuntimeAbiMismatch
  | RequestDuplicateSourceInput | RequestInvalidWorkerBudget | RequestUnsupportedProductEmission
  | InspectionReportWriteFailed | CompilerProfileWriteFailed | RuntimeArtifactMetadataReadFailed
  | RuntimeArtifactMetadataInvalid | RuntimeArtifactTargetMismatch | RuntimeArtifactAbiMismatch
  | ProjectManifestReadFailed | ProjectGeneratorFailed | ProjectManifestParseFailed
  | ProjectManifestUnsupportedFormat | ProjectManifestInvalidPath | ProjectManifestInvalidName
  | ProjectManifestMissingSelection | ProjectManifestMissingRootPackage
  | ProjectManifestUndeclaredFeature | ProjectManifestUnknownSourceRoot
  | ProjectManifestUnknownTarget | ProjectManifestUnknownTargetPredicateProperty
  | ProjectManifestTargetPredicateValueKindMismatch | ProjectManifestUnexpectedTestedLibrary
  | ProjectPackageVersionInvalid | ProjectPackageVersionMissingWorkspace
  | ProjectPackageIdentityReserved | ProjectStandardLibraryPackageIdentityRequired
  | ProjectStandardLibraryRootPackageRequired | ProjectManifestDuplicateSelection
  | ProjectSourceRootInvalid | ProjectSourceRootContainsSymlink
  | ProjectSourceRootContainsNonUtf8Path | ProjectDependencyPackageUnknown
  | ProjectDependencyProductUnknown | ProjectDependencyProductNotLibrary
  | ProjectDependencyProductTargetUnavailable | ProjectDependencyCycle
  | ProjectCommandSelectionInvalid | ProjectCommandFailed | ProjectInitializationIdentityInvalid
  | ProjectInitializationPathConflict | ProjectInitializationWriteFailed
  | ProjectInitializationTargetUnsupported | FormatterSourceNotFormatted
  | FormatterSourceInvalidUtf8 | FormatterSourceTooLarge | FormatterSourceWriteFailed
  | FormatterConfigurationReadFailed | FormatterConfigurationMalformed
  | FormatterConfigurationUnknownRule | FormatterConfigurationInvalidMaximumWidth
  | LexicalInvalidCharacter | LexicalMisplacedBom | LexicalLoneCarriageReturn
  | LexicalNonAsciiIdentifier | LexicalInvalidIdentifier | LexicalInvalidOperatorOrPunctuation
  | LexicalMalformedNumericLiteral | LexicalInvalidNumericSuffix
  | LexicalMalformedCharacterLiteral | LexicalUnterminatedCharacterLiteral
  | LexicalUnterminatedStringLiteral | LexicalUnknownEscape | LexicalInvalidUnicodeEscape
  | LexicalUnterminatedBlockComment | SyntaxExpectedToken | SyntaxExpectedExpression
  | SyntaxUnexpectedEof | SyntaxNestingLimitExceeded | SyntaxInvalidDirectiveTarget
  | DeclarationDuplicateName | DeclarationConflictingModuleVisibility
  | DeclarationConflictingModuleTrust | DeclarationDuplicateModifier
  | DeclarationIncompatibleModifiers | DeclarationInvalidModifier | DeclarationBodyRequired
  | DeclarationBodyNotAllowed | DeclarationDuplicateDirective | DeclarationIncompatibleDirectives
  | DeclarationInvalidDirectiveTarget | DeclarationInvalidParameterOrder
  | DeclarationInvalidMemberPlacement | DeclarationDuplicateLifecycleSlot | InterfaceInvalidMagic
  | InterfaceUnsupportedFormatRevision | InterfaceUnsupportedLanguageRevision
  | InterfaceUnsupportedEncoding | InterfaceValidationFailed | InterfaceHashMismatch
  | InterfaceSectionChecksumMismatch | InterfaceResourceLimitExceeded
  | InterfacePackageIdentityMismatch | InterfaceProductIdentityMismatch
  | InterfaceDuplicatePackage | InterfaceMissingDependency | InterfaceDependencyProductMismatch
  | InterfaceDependencyContentMismatch | InterfaceSymbolReferenceInvalid
  | InterfaceDependencyReferenceInvalid | InterfaceDependencySymbolMissing
  | InterfaceCompilerDeclarationExported | InterfaceSymbolGraphInvalid
  | InterfaceSymbolCapacityExceeded | InterfaceSemanticSymbolUnresolved
  | InterfaceSemanticSymbolKindInvalid | InterfaceSemanticValueGraphInvalid
  | InterfaceSemanticValueInvalid | InterfaceExecutableTemplateInvalid
  | InterfaceSupportEntityInvalid | InterfaceConstantCallableBodyUnavailable
  | InterfaceExecutableTemplateUnavailable | BindingUnresolvedName | BindingUndeclaredDependency
  | BindingAmbiguousName | BindingInaccessibleName | BindingWrongNameKind | BindingMalformedName
  | BindingNameAlreadyDefined | BindingIncoherentAlternativePattern | BindingInvalidCallableAbi
  | BindingDuplicateCallableAbi | BindingCyclicModuleExport | BindingConflictingModuleExport
  | BindingInvalidModuleExportTarget | BindingMalformedDirectiveArgument
  | BindingGenericArgumentCountMismatch | BindingGenericArgumentMustBeType
  | BindingGenericApplicationRequiresName | BindingInvalidBoxStoragePolicy
  | BindingPanicArgumentCountMismatch | BindingNamedPanicArgument
  | CheckingIncompatibleExpressionType | CheckingCapacityExceeded
  | CheckingCannotInferExpressionType | CheckingIgnoredExpressionResult
  | CheckingRangeElementTypeMustBeInteger | CheckingNoCompatiblePropagationBoundary
  | CheckingInvalidConstantExpression | CheckingNonMaterializableConstant
  | CheckingInvalidConstantOperation | CheckingConstantLiteralNotRepresentable
  | CheckingConstantEvaluationStepLimitExceeded | CheckingConstantAggregateLimitExceeded
  | CheckingConstantExpansionLimitExceeded | CheckingConstantLiteralSizeLimitExceeded
  | CheckingConstantIntegerSizeLimitExceeded | CheckingCyclicConstantDefinition
  | CheckingConstantDivisionByZero | CheckingConstantValueNotRepresentable
  | CheckingNoApplicableCandidate | CheckingMutableIndexContractRequired
  | CheckingUnknownUnionVariant | CheckingAmbiguousCandidate | CheckingIncompatibleCandidate
  | CheckingTargetRepresentationUnavailable | CheckingTargetCallableAbiUnavailable
  | CheckingTargetAbiRepresentationUnsupported | CheckingTargetMemoryOperationUnavailable
  | CheckingThreadLocalStaticUnavailable | CheckingStaticDependencyOutlivesOwner
  | CheckingStaticLifecycleCycle | CheckingStaticSpecializationDivergence
  | CheckingStaticConstraintUnsatisfied | CheckingExternStaticSurfaceUnsupported
  | CheckingExportedStaticSurfaceUnsupported | CheckingNativeStaticTypeUnsupported
  | CheckingInvalidTargetControlContract | CheckingInvalidAtomicMemoryOrder
  | CheckingMissingTrustedMemoryGuarantees | CheckingTrustedObligationNotProven
  | CheckingExecutionRequirementNotProven | CheckingConstantCallRequirementNotProven
  | CheckingTrustedWitnessTransferNotProven | CheckingMemoryOperationAfterDeallocation
  | CheckingUninitializedRawStorage | CheckingDeallocationWithOutstandingObligations
  | CheckingInvalidCallbackStateContext | CheckingTargetAlignmentUnsupported
  | CheckingIncompatiblePattern | CheckingRefutablePattern | CheckingBindingInPatternTest
  | CheckingNonExhaustiveMatch | CheckingUnreachableMatchArm
  | CheckingUnreachablePatternAlternative | CheckingDuplicateModuleContributionDirective
  | CheckingArrayGeneratorCardinalityNotProvable | CheckingInvalidStoredType
  | CheckingRecursiveTypeRepresentation | CheckingTypeRepresentationRecursionLimitExceeded
  | CheckingCleanupRecursionLimitExceeded | CheckingInvalidLayoutDirective
  | CheckingInvalidCopyContract | CheckingRepeatedArrayElementNotCopyable
  | CheckingInvalidUnionTag | CheckingRefinementCapacityExceeded | CheckingUseOfMovedStorage
  | CheckingIncompleteLifecycleStorage | CheckingDestructorOwnershipIntroduction
  | CheckingUnprovedDestructorEffects | CheckingConflictingBorrow
  | CheckingMissingMutationAuthority | CheckingMissingStorageOwnership
  | CheckingEscapingStorageDependency | CheckingMissingTraitFulfillment
  | CheckingExtraTraitFulfillment | CheckingIncompatibleTraitFulfillment
  | CheckingDuplicateTraitFulfillment | CheckingOverlappingImplementation
  | CheckingUngroupedImplementationOverloads | CheckingInvalidImplementationOverloadHeader
  | CheckingInvalidImplementationOverloadArm | CheckingDuplicateImplementationOverloadArm
  | CheckingInvalidCallableOverloadArm | CheckingDuplicateCallableOverloadArm
  | CheckingConflictingCallableOverloadFamily | CheckingConflictingCallableOverloadSignature
  | CheckingImplementationCoherenceLimitExceeded | CheckingCallableOverloadLimitExceeded
  | CheckingMissingForeignCallableDirective | CheckingForeignCallableRequiresTrusted
  | CheckingForeignCallableRequiresCapability | CheckingForeignCallableExecutionUnsupported
  | CheckingVariadicCallableContractUnsupported | CheckingUnknownExecutionProperty
  | CheckingExecutionGuaranteeNotProven | CheckingUnresolvedFinalization
  | CheckingAsyncFinalizationOutsideAsyncCallable | CheckingCircularExecutionGuarantee
  | CheckingCallableResultRequired | CheckingCallableAddressTypeUnsupported
  | CheckingFixedLayoutQueryTypeUnsupported | CheckingTrailingLayoutQueryTypeUnsupported
  | CheckingTypeLayoutOverflow | CheckingMemoryPointeeTypeUnsupported
  | CheckingTaglessUnionPatternRequiresVariant | CheckingForeignAbiTypeUnsupported
  | CheckingPlatformServiceSignatureMismatch | CheckingInvalidNativeLinkDirective
  | CheckingInvalidNativeSymbolDirective | CheckingDuplicateNativeSymbol
  | CheckingUnavailableNativeLinkInput | CheckingUndeclaredTrustedCapability
  | CheckingUnusedTrustedCapability | CheckingTrustedCapabilityRequiresTrustedCallable
  | CheckingAwaitOutsideAsyncCallable | CheckingTaskStartOutsideAsyncCallable
  | CheckingUnavailableAwaitDependency | CheckingEntrypointNotAllowed | CheckingMissingEntrypoint
  | CheckingDuplicateEntrypoint | CheckingEntryCannotBeGeneric | CheckingEntryCannotTakeParameters
  | CheckingInvalidEntrypointResult | CheckingInvalidTestResult
  | CheckingInvalidTestEntryDirective | CheckingInvalidTestModuleDirective
  | CheckingDuplicateTestIdentity | CheckingEntryCannotBeConstant
  | CheckingEntryCannotRequireTrust | CheckingExportDependsOnInternalDeclaration
  | EmissionMissingContribution | EmissionInvalidContribution | EmissionArtifactReadFailed
  | EmissionArtifactOpenFailed | EmissionArtifactWriteFailed | EmissionArtifactFlushFailed
  | EmissionArtifactDigestMismatch | EmissionArtifactLengthMismatch | EmissionArtifactCommitFailed
  | EmissionManagedPublicationUnsupported | EmissionGenerationCollision
  | EmissionGenerationManifestInvalid | BuildStorageIoFailed | BuildStorageUnsafePath
  | RetainedBuildStateUnavailable | BuildStorageCancelled | BuildStorageMetadataInvalid
  | BuildStorageRevisionMismatch | RetainedGenerationInvalid | RetainedArtifactLengthMismatch
  | RetainedArtifactDigestMismatch | EmissionFailed | EmissionTargetMismatch
  | EmissionProductMismatch | EmissionArtifactIoFailed | CodegenUnsupportedTarget
  | CodegenUnsupportedArtifact | CodegenInvalidConfiguration | CodegenResourceExhausted
  | CodegenBackendLibraryFailed | CodegenBackendToolExited | CodegenArtifactConstructionFailed
  | CodegenArtifactReadFailed | NativeProductPreparationFailed | LinkerUnsupportedTarget
  | LinkerUnsupportedProduct | LinkerUnsupportedInput | LinkerUnsupportedInputMode
  | LinkerUnsupportedOutput | LinkerUnsupportedSearchPath | LinkerUnsupportedLinkModel
  | LinkerUnsupportedDeadStrip | LinkerUnsupportedSectionGarbageCollection
  | LinkerUnsupportedDebug | LinkerUnsupportedSubsystem | LinkerUnsupportedSymbol
  | LinkerUnsupportedStartup | LinkerUnsupportedRuntime | LinkerUnsupportedOptimization
  | LinkerDriverUnavailable | LinkerDriverIncompatible | LinkerInputMissing
  | LinkerResponseFileFailed | LinkerInvocationFailed | LinkerExternalToolIoFailed
  | LinkerExternalToolContractFailed | LinkerExternalToolExitedUnsuccessfully
  | LinkerOutputMissing | LinkerOutputInvalid | LinkerResourceExhausted
  | LinkerOptimizationReportInvalid.

#[export] Instance DiagnosticKind_enumerated : Enumerated DiagnosticKind.
Proof.
  refine {|
    variants :=
      [ SourceFileReadFailed; SourceInvalidUtf8; SourceTooManyInputs; SourceTextTooLarge;
        RequestMissingSourceInput; RequestInvalidSourceInput; RequestReservedPackageIdentity;
        RequestStandardLibraryPackageIdentityRequired; PackageArtifactReadFailed;
        StandardLibraryManifestInvalid; StandardLibraryInfrastructureFailure;
        StandardLibraryArtifactLengthMismatch; StandardLibraryArtifactDigestMismatch;
        StandardLibraryTargetUnavailable; StandardLibraryRuntimeAbiMismatch;
        RequestDuplicateSourceInput; RequestInvalidWorkerBudget; RequestUnsupportedProductEmission;
        InspectionReportWriteFailed; CompilerProfileWriteFailed; RuntimeArtifactMetadataReadFailed;
        RuntimeArtifactMetadataInvalid; RuntimeArtifactTargetMismatch; RuntimeArtifactAbiMismatch;
        ProjectManifestReadFailed; ProjectGeneratorFailed; ProjectManifestParseFailed;
        ProjectManifestUnsupportedFormat; ProjectManifestInvalidPath; ProjectManifestInvalidName;
        ProjectManifestMissingSelection; ProjectManifestMissingRootPackage;
        ProjectManifestUndeclaredFeature; ProjectManifestUnknownSourceRoot;
        ProjectManifestUnknownTarget; ProjectManifestUnknownTargetPredicateProperty;
        ProjectManifestTargetPredicateValueKindMismatch; ProjectManifestUnexpectedTestedLibrary;
        ProjectPackageVersionInvalid; ProjectPackageVersionMissingWorkspace;
        ProjectPackageIdentityReserved; ProjectStandardLibraryPackageIdentityRequired;
        ProjectStandardLibraryRootPackageRequired; ProjectManifestDuplicateSelection;
        ProjectSourceRootInvalid; ProjectSourceRootContainsSymlink;
        ProjectSourceRootContainsNonUtf8Path; ProjectDependencyPackageUnknown;
        ProjectDependencyProductUnknown; ProjectDependencyProductNotLibrary;
        ProjectDependencyProductTargetUnavailable; ProjectDependencyCycle;
        ProjectCommandSelectionInvalid; ProjectCommandFailed; ProjectInitializationIdentityInvalid;
        ProjectInitializationPathConflict; ProjectInitializationWriteFailed;
        ProjectInitializationTargetUnsupported; FormatterSourceNotFormatted;
        FormatterSourceInvalidUtf8; FormatterSourceTooLarge; FormatterSourceWriteFailed;
        FormatterConfigurationReadFailed; FormatterConfigurationMalformed;
        FormatterConfigurationUnknownRule; FormatterConfigurationInvalidMaximumWidth;
        LexicalInvalidCharacter; LexicalMisplacedBom; LexicalLoneCarriageReturn;
        LexicalNonAsciiIdentifier; LexicalInvalidIdentifier; LexicalInvalidOperatorOrPunctuation;
        LexicalMalformedNumericLiteral; LexicalInvalidNumericSuffix;
        LexicalMalformedCharacterLiteral; LexicalUnterminatedCharacterLiteral;
        LexicalUnterminatedStringLiteral; LexicalUnknownEscape; LexicalInvalidUnicodeEscape;
        LexicalUnterminatedBlockComment; SyntaxExpectedToken; SyntaxExpectedExpression;
        SyntaxUnexpectedEof; SyntaxNestingLimitExceeded; SyntaxInvalidDirectiveTarget;
        DeclarationDuplicateName; DeclarationConflictingModuleVisibility;
        DeclarationConflictingModuleTrust; DeclarationDuplicateModifier;
        DeclarationIncompatibleModifiers; DeclarationInvalidModifier; DeclarationBodyRequired;
        DeclarationBodyNotAllowed; DeclarationDuplicateDirective;
        DeclarationIncompatibleDirectives; DeclarationInvalidDirectiveTarget;
        DeclarationInvalidParameterOrder; DeclarationInvalidMemberPlacement;
        DeclarationDuplicateLifecycleSlot; InterfaceInvalidMagic;
        InterfaceUnsupportedFormatRevision; InterfaceUnsupportedLanguageRevision;
        InterfaceUnsupportedEncoding; InterfaceValidationFailed; InterfaceHashMismatch;
        InterfaceSectionChecksumMismatch; InterfaceResourceLimitExceeded;
        InterfacePackageIdentityMismatch; InterfaceProductIdentityMismatch;
        InterfaceDuplicatePackage; InterfaceMissingDependency; InterfaceDependencyProductMismatch;
        InterfaceDependencyContentMismatch; InterfaceSymbolReferenceInvalid;
        InterfaceDependencyReferenceInvalid; InterfaceDependencySymbolMissing;
        InterfaceCompilerDeclarationExported; InterfaceSymbolGraphInvalid;
        InterfaceSymbolCapacityExceeded; InterfaceSemanticSymbolUnresolved;
        InterfaceSemanticSymbolKindInvalid; InterfaceSemanticValueGraphInvalid;
        InterfaceSemanticValueInvalid; InterfaceExecutableTemplateInvalid;
        InterfaceSupportEntityInvalid; InterfaceConstantCallableBodyUnavailable;
        InterfaceExecutableTemplateUnavailable; BindingUnresolvedName; BindingUndeclaredDependency;
        BindingAmbiguousName; BindingInaccessibleName; BindingWrongNameKind; BindingMalformedName;
        BindingNameAlreadyDefined; BindingIncoherentAlternativePattern; BindingInvalidCallableAbi;
        BindingDuplicateCallableAbi; BindingCyclicModuleExport; BindingConflictingModuleExport;
        BindingInvalidModuleExportTarget; BindingMalformedDirectiveArgument;
        BindingGenericArgumentCountMismatch; BindingGenericArgumentMustBeType;
        BindingGenericApplicationRequiresName; BindingInvalidBoxStoragePolicy;
        BindingPanicArgumentCountMismatch; BindingNamedPanicArgument;
        CheckingIncompatibleExpressionType; CheckingCapacityExceeded;
        CheckingCannotInferExpressionType; CheckingIgnoredExpressionResult;
        CheckingRangeElementTypeMustBeInteger; CheckingNoCompatiblePropagationBoundary;
        CheckingInvalidConstantExpression; CheckingNonMaterializableConstant;
        CheckingInvalidConstantOperation; CheckingConstantLiteralNotRepresentable;
        CheckingConstantEvaluationStepLimitExceeded; CheckingConstantAggregateLimitExceeded;
        CheckingConstantExpansionLimitExceeded; CheckingConstantLiteralSizeLimitExceeded;
        CheckingConstantIntegerSizeLimitExceeded; CheckingCyclicConstantDefinition;
        CheckingConstantDivisionByZero; CheckingConstantValueNotRepresentable;
        CheckingNoApplicableCandidate; CheckingMutableIndexContractRequired;
        CheckingUnknownUnionVariant; CheckingAmbiguousCandidate; CheckingIncompatibleCandidate;
        CheckingTargetRepresentationUnavailable; CheckingTargetCallableAbiUnavailable;
        CheckingTargetAbiRepresentationUnsupported; CheckingTargetMemoryOperationUnavailable;
        CheckingThreadLocalStaticUnavailable; CheckingStaticDependencyOutlivesOwner;
        CheckingStaticLifecycleCycle; CheckingStaticSpecializationDivergence;
        CheckingStaticConstraintUnsatisfied; CheckingExternStaticSurfaceUnsupported;
        CheckingExportedStaticSurfaceUnsupported; CheckingNativeStaticTypeUnsupported;
        CheckingInvalidTargetControlContract; CheckingInvalidAtomicMemoryOrder;
        CheckingMissingTrustedMemoryGuarantees; CheckingTrustedObligationNotProven;
        CheckingExecutionRequirementNotProven; CheckingConstantCallRequirementNotProven;
        CheckingTrustedWitnessTransferNotProven; CheckingMemoryOperationAfterDeallocation;
        CheckingUninitializedRawStorage; CheckingDeallocationWithOutstandingObligations;
        CheckingInvalidCallbackStateContext; CheckingTargetAlignmentUnsupported;
        CheckingIncompatiblePattern; CheckingRefutablePattern; CheckingBindingInPatternTest;
        CheckingNonExhaustiveMatch; CheckingUnreachableMatchArm;
        CheckingUnreachablePatternAlternative; CheckingDuplicateModuleContributionDirective;
        CheckingArrayGeneratorCardinalityNotProvable; CheckingInvalidStoredType;
        CheckingRecursiveTypeRepresentation; CheckingTypeRepresentationRecursionLimitExceeded;
        CheckingCleanupRecursionLimitExceeded; CheckingInvalidLayoutDirective;
        CheckingInvalidCopyContract; CheckingRepeatedArrayElementNotCopyable;
        CheckingInvalidUnionTag; CheckingRefinementCapacityExceeded; CheckingUseOfMovedStorage;
        CheckingIncompleteLifecycleStorage; CheckingDestructorOwnershipIntroduction;
        CheckingUnprovedDestructorEffects; CheckingConflictingBorrow;
        CheckingMissingMutationAuthority; CheckingMissingStorageOwnership;
        CheckingEscapingStorageDependency; CheckingMissingTraitFulfillment;
        CheckingExtraTraitFulfillment; CheckingIncompatibleTraitFulfillment;
        CheckingDuplicateTraitFulfillment; CheckingOverlappingImplementation;
        CheckingUngroupedImplementationOverloads; CheckingInvalidImplementationOverloadHeader;
        CheckingInvalidImplementationOverloadArm; CheckingDuplicateImplementationOverloadArm;
        CheckingInvalidCallableOverloadArm; CheckingDuplicateCallableOverloadArm;
        CheckingConflictingCallableOverloadFamily; CheckingConflictingCallableOverloadSignature;
        CheckingImplementationCoherenceLimitExceeded; CheckingCallableOverloadLimitExceeded;
        CheckingMissingForeignCallableDirective; CheckingForeignCallableRequiresTrusted;
        CheckingForeignCallableRequiresCapability; CheckingForeignCallableExecutionUnsupported;
        CheckingVariadicCallableContractUnsupported; CheckingUnknownExecutionProperty;
        CheckingExecutionGuaranteeNotProven; CheckingUnresolvedFinalization;
        CheckingAsyncFinalizationOutsideAsyncCallable; CheckingCircularExecutionGuarantee;
        CheckingCallableResultRequired; CheckingCallableAddressTypeUnsupported;
        CheckingFixedLayoutQueryTypeUnsupported; CheckingTrailingLayoutQueryTypeUnsupported;
        CheckingTypeLayoutOverflow; CheckingMemoryPointeeTypeUnsupported;
        CheckingTaglessUnionPatternRequiresVariant; CheckingForeignAbiTypeUnsupported;
        CheckingPlatformServiceSignatureMismatch; CheckingInvalidNativeLinkDirective;
        CheckingInvalidNativeSymbolDirective; CheckingDuplicateNativeSymbol;
        CheckingUnavailableNativeLinkInput; CheckingUndeclaredTrustedCapability;
        CheckingUnusedTrustedCapability; CheckingTrustedCapabilityRequiresTrustedCallable;
        CheckingAwaitOutsideAsyncCallable; CheckingTaskStartOutsideAsyncCallable;
        CheckingUnavailableAwaitDependency; CheckingEntrypointNotAllowed;
        CheckingMissingEntrypoint; CheckingDuplicateEntrypoint; CheckingEntryCannotBeGeneric;
        CheckingEntryCannotTakeParameters; CheckingInvalidEntrypointResult;
        CheckingInvalidTestResult; CheckingInvalidTestEntryDirective;
        CheckingInvalidTestModuleDirective; CheckingDuplicateTestIdentity;
        CheckingEntryCannotBeConstant; CheckingEntryCannotRequireTrust;
        CheckingExportDependsOnInternalDeclaration; EmissionMissingContribution;
        EmissionInvalidContribution; EmissionArtifactReadFailed; EmissionArtifactOpenFailed;
        EmissionArtifactWriteFailed; EmissionArtifactFlushFailed; EmissionArtifactDigestMismatch;
        EmissionArtifactLengthMismatch; EmissionArtifactCommitFailed;
        EmissionManagedPublicationUnsupported; EmissionGenerationCollision;
        EmissionGenerationManifestInvalid; BuildStorageIoFailed; BuildStorageUnsafePath;
        RetainedBuildStateUnavailable; BuildStorageCancelled; BuildStorageMetadataInvalid;
        BuildStorageRevisionMismatch; RetainedGenerationInvalid; RetainedArtifactLengthMismatch;
        RetainedArtifactDigestMismatch; EmissionFailed; EmissionTargetMismatch;
        EmissionProductMismatch; EmissionArtifactIoFailed; CodegenUnsupportedTarget;
        CodegenUnsupportedArtifact; CodegenInvalidConfiguration; CodegenResourceExhausted;
        CodegenBackendLibraryFailed; CodegenBackendToolExited; CodegenArtifactConstructionFailed;
        CodegenArtifactReadFailed; NativeProductPreparationFailed; LinkerUnsupportedTarget;
        LinkerUnsupportedProduct; LinkerUnsupportedInput; LinkerUnsupportedInputMode;
        LinkerUnsupportedOutput; LinkerUnsupportedSearchPath; LinkerUnsupportedLinkModel;
        LinkerUnsupportedDeadStrip; LinkerUnsupportedSectionGarbageCollection;
        LinkerUnsupportedDebug; LinkerUnsupportedSubsystem; LinkerUnsupportedSymbol;
        LinkerUnsupportedStartup; LinkerUnsupportedRuntime; LinkerUnsupportedOptimization;
        LinkerDriverUnavailable; LinkerDriverIncompatible; LinkerInputMissing;
        LinkerResponseFileFailed; LinkerInvocationFailed; LinkerExternalToolIoFailed;
        LinkerExternalToolContractFailed; LinkerExternalToolExitedUnsuccessfully;
        LinkerOutputMissing; LinkerOutputInvalid; LinkerResourceExhausted;
        LinkerOptimizationReportInvalid ];
    position k :=
      match k with
      | SourceFileReadFailed => 0 | SourceInvalidUtf8 => 1 | SourceTooManyInputs => 2
      | SourceTextTooLarge => 3 | RequestMissingSourceInput => 4 | RequestInvalidSourceInput => 5
      | RequestReservedPackageIdentity => 6 | RequestStandardLibraryPackageIdentityRequired => 7
      | PackageArtifactReadFailed => 8 | StandardLibraryManifestInvalid => 9
      | StandardLibraryInfrastructureFailure => 10 | StandardLibraryArtifactLengthMismatch => 11
      | StandardLibraryArtifactDigestMismatch => 12 | StandardLibraryTargetUnavailable => 13
      | StandardLibraryRuntimeAbiMismatch => 14 | RequestDuplicateSourceInput => 15
      | RequestInvalidWorkerBudget => 16 | RequestUnsupportedProductEmission => 17
      | InspectionReportWriteFailed => 18 | CompilerProfileWriteFailed => 19
      | RuntimeArtifactMetadataReadFailed => 20 | RuntimeArtifactMetadataInvalid => 21
      | RuntimeArtifactTargetMismatch => 22 | RuntimeArtifactAbiMismatch => 23
      | ProjectManifestReadFailed => 24 | ProjectGeneratorFailed => 25
      | ProjectManifestParseFailed => 26 | ProjectManifestUnsupportedFormat => 27
      | ProjectManifestInvalidPath => 28 | ProjectManifestInvalidName => 29
      | ProjectManifestMissingSelection => 30 | ProjectManifestMissingRootPackage => 31
      | ProjectManifestUndeclaredFeature => 32 | ProjectManifestUnknownSourceRoot => 33
      | ProjectManifestUnknownTarget => 34 | ProjectManifestUnknownTargetPredicateProperty => 35
      | ProjectManifestTargetPredicateValueKindMismatch => 36
      | ProjectManifestUnexpectedTestedLibrary => 37 | ProjectPackageVersionInvalid => 38
      | ProjectPackageVersionMissingWorkspace => 39 | ProjectPackageIdentityReserved => 40
      | ProjectStandardLibraryPackageIdentityRequired => 41
      | ProjectStandardLibraryRootPackageRequired => 42 | ProjectManifestDuplicateSelection => 43
      | ProjectSourceRootInvalid => 44 | ProjectSourceRootContainsSymlink => 45
      | ProjectSourceRootContainsNonUtf8Path => 46 | ProjectDependencyPackageUnknown => 47
      | ProjectDependencyProductUnknown => 48 | ProjectDependencyProductNotLibrary => 49
      | ProjectDependencyProductTargetUnavailable => 50 | ProjectDependencyCycle => 51
      | ProjectCommandSelectionInvalid => 52 | ProjectCommandFailed => 53
      | ProjectInitializationIdentityInvalid => 54 | ProjectInitializationPathConflict => 55
      | ProjectInitializationWriteFailed => 56 | ProjectInitializationTargetUnsupported => 57
      | FormatterSourceNotFormatted => 58 | FormatterSourceInvalidUtf8 => 59
      | FormatterSourceTooLarge => 60 | FormatterSourceWriteFailed => 61
      | FormatterConfigurationReadFailed => 62 | FormatterConfigurationMalformed => 63
      | FormatterConfigurationUnknownRule => 64 | FormatterConfigurationInvalidMaximumWidth => 65
      | LexicalInvalidCharacter => 66 | LexicalMisplacedBom => 67
      | LexicalLoneCarriageReturn => 68 | LexicalNonAsciiIdentifier => 69
      | LexicalInvalidIdentifier => 70 | LexicalInvalidOperatorOrPunctuation => 71
      | LexicalMalformedNumericLiteral => 72 | LexicalInvalidNumericSuffix => 73
      | LexicalMalformedCharacterLiteral => 74 | LexicalUnterminatedCharacterLiteral => 75
      | LexicalUnterminatedStringLiteral => 76 | LexicalUnknownEscape => 77
      | LexicalInvalidUnicodeEscape => 78 | LexicalUnterminatedBlockComment => 79
      | SyntaxExpectedToken => 80 | SyntaxExpectedExpression => 81 | SyntaxUnexpectedEof => 82
      | SyntaxNestingLimitExceeded => 83 | SyntaxInvalidDirectiveTarget => 84
      | DeclarationDuplicateName => 85 | DeclarationConflictingModuleVisibility => 86
      | DeclarationConflictingModuleTrust => 87 | DeclarationDuplicateModifier => 88
      | DeclarationIncompatibleModifiers => 89 | DeclarationInvalidModifier => 90
      | DeclarationBodyRequired => 91 | DeclarationBodyNotAllowed => 92
      | DeclarationDuplicateDirective => 93 | DeclarationIncompatibleDirectives => 94
      | DeclarationInvalidDirectiveTarget => 95 | DeclarationInvalidParameterOrder => 96
      | DeclarationInvalidMemberPlacement => 97 | DeclarationDuplicateLifecycleSlot => 98
      | InterfaceInvalidMagic => 99 | InterfaceUnsupportedFormatRevision => 100
      | InterfaceUnsupportedLanguageRevision => 101 | InterfaceUnsupportedEncoding => 102
      | InterfaceValidationFailed => 103 | InterfaceHashMismatch => 104
      | InterfaceSectionChecksumMismatch => 105 | InterfaceResourceLimitExceeded => 106
      | InterfacePackageIdentityMismatch => 107 | InterfaceProductIdentityMismatch => 108
      | InterfaceDuplicatePackage => 109 | InterfaceMissingDependency => 110
      | InterfaceDependencyProductMismatch => 111 | InterfaceDependencyContentMismatch => 112
      | InterfaceSymbolReferenceInvalid => 113 | InterfaceDependencyReferenceInvalid => 114
      | InterfaceDependencySymbolMissing => 115 | InterfaceCompilerDeclarationExported => 116
      | InterfaceSymbolGraphInvalid => 117 | InterfaceSymbolCapacityExceeded => 118
      | InterfaceSemanticSymbolUnresolved => 119 | InterfaceSemanticSymbolKindInvalid => 120
      | InterfaceSemanticValueGraphInvalid => 121 | InterfaceSemanticValueInvalid => 122
      | InterfaceExecutableTemplateInvalid => 123 | InterfaceSupportEntityInvalid => 124
      | InterfaceConstantCallableBodyUnavailable => 125
      | InterfaceExecutableTemplateUnavailable => 126 | BindingUnresolvedName => 127
      | BindingUndeclaredDependency => 128 | BindingAmbiguousName => 129
      | BindingInaccessibleName => 130 | BindingWrongNameKind => 131 | BindingMalformedName => 132
      | BindingNameAlreadyDefined => 133 | BindingIncoherentAlternativePattern => 134
      | BindingInvalidCallableAbi => 135 | BindingDuplicateCallableAbi => 136
      | BindingCyclicModuleExport => 137 | BindingConflictingModuleExport => 138
      | BindingInvalidModuleExportTarget => 139 | BindingMalformedDirectiveArgument => 140
      | BindingGenericArgumentCountMismatch => 141 | BindingGenericArgumentMustBeType => 142
      | BindingGenericApplicationRequiresName => 143 | BindingInvalidBoxStoragePolicy => 144
      | BindingPanicArgumentCountMismatch => 145 | BindingNamedPanicArgument => 146
      | CheckingIncompatibleExpressionType => 147 | CheckingCapacityExceeded => 148
      | CheckingCannotInferExpressionType => 149 | CheckingIgnoredExpressionResult => 150
      | CheckingRangeElementTypeMustBeInteger => 151
      | CheckingNoCompatiblePropagationBoundary => 152 | CheckingInvalidConstantExpression => 153
      | CheckingNonMaterializableConstant => 154 | CheckingInvalidConstantOperation => 155
      | CheckingConstantLiteralNotRepresentable => 156
      | CheckingConstantEvaluationStepLimitExceeded => 157
      | CheckingConstantAggregateLimitExceeded => 158
      | CheckingConstantExpansionLimitExceeded => 159
      | CheckingConstantLiteralSizeLimitExceeded => 160
      | CheckingConstantIntegerSizeLimitExceeded => 161 | CheckingCyclicConstantDefinition => 162
      | CheckingConstantDivisionByZero => 163 | CheckingConstantValueNotRepresentable => 164
      | CheckingNoApplicableCandidate => 165 | CheckingMutableIndexContractRequired => 166
      | CheckingUnknownUnionVariant => 167 | CheckingAmbiguousCandidate => 168
      | CheckingIncompatibleCandidate => 169 | CheckingTargetRepresentationUnavailable => 170
      | CheckingTargetCallableAbiUnavailable => 171
      | CheckingTargetAbiRepresentationUnsupported => 172
      | CheckingTargetMemoryOperationUnavailable => 173
      | CheckingThreadLocalStaticUnavailable => 174 | CheckingStaticDependencyOutlivesOwner => 175
      | CheckingStaticLifecycleCycle => 176 | CheckingStaticSpecializationDivergence => 177
      | CheckingStaticConstraintUnsatisfied => 178 | CheckingExternStaticSurfaceUnsupported => 179
      | CheckingExportedStaticSurfaceUnsupported => 180
      | CheckingNativeStaticTypeUnsupported => 181 | CheckingInvalidTargetControlContract => 182
      | CheckingInvalidAtomicMemoryOrder => 183 | CheckingMissingTrustedMemoryGuarantees => 184
      | CheckingTrustedObligationNotProven => 185 | CheckingExecutionRequirementNotProven => 186
      | CheckingConstantCallRequirementNotProven => 187
      | CheckingTrustedWitnessTransferNotProven => 188
      | CheckingMemoryOperationAfterDeallocation => 189 | CheckingUninitializedRawStorage => 190
      | CheckingDeallocationWithOutstandingObligations => 191
      | CheckingInvalidCallbackStateContext => 192 | CheckingTargetAlignmentUnsupported => 193
      | CheckingIncompatiblePattern => 194 | CheckingRefutablePattern => 195
      | CheckingBindingInPatternTest => 196 | CheckingNonExhaustiveMatch => 197
      | CheckingUnreachableMatchArm => 198 | CheckingUnreachablePatternAlternative => 199
      | CheckingDuplicateModuleContributionDirective => 200
      | CheckingArrayGeneratorCardinalityNotProvable => 201 | CheckingInvalidStoredType => 202
      | CheckingRecursiveTypeRepresentation => 203
      | CheckingTypeRepresentationRecursionLimitExceeded => 204
      | CheckingCleanupRecursionLimitExceeded => 205 | CheckingInvalidLayoutDirective => 206
      | CheckingInvalidCopyContract => 207 | CheckingRepeatedArrayElementNotCopyable => 208
      | CheckingInvalidUnionTag => 209 | CheckingRefinementCapacityExceeded => 210
      | CheckingUseOfMovedStorage => 211 | CheckingIncompleteLifecycleStorage => 212
      | CheckingDestructorOwnershipIntroduction => 213 | CheckingUnprovedDestructorEffects => 214
      | CheckingConflictingBorrow => 215 | CheckingMissingMutationAuthority => 216
      | CheckingMissingStorageOwnership => 217 | CheckingEscapingStorageDependency => 218
      | CheckingMissingTraitFulfillment => 219 | CheckingExtraTraitFulfillment => 220
      | CheckingIncompatibleTraitFulfillment => 221 | CheckingDuplicateTraitFulfillment => 222
      | CheckingOverlappingImplementation => 223 | CheckingUngroupedImplementationOverloads => 224
      | CheckingInvalidImplementationOverloadHeader => 225
      | CheckingInvalidImplementationOverloadArm => 226
      | CheckingDuplicateImplementationOverloadArm => 227
      | CheckingInvalidCallableOverloadArm => 228 | CheckingDuplicateCallableOverloadArm => 229
      | CheckingConflictingCallableOverloadFamily => 230
      | CheckingConflictingCallableOverloadSignature => 231
      | CheckingImplementationCoherenceLimitExceeded => 232
      | CheckingCallableOverloadLimitExceeded => 233
      | CheckingMissingForeignCallableDirective => 234
      | CheckingForeignCallableRequiresTrusted => 235
      | CheckingForeignCallableRequiresCapability => 236
      | CheckingForeignCallableExecutionUnsupported => 237
      | CheckingVariadicCallableContractUnsupported => 238
      | CheckingUnknownExecutionProperty => 239 | CheckingExecutionGuaranteeNotProven => 240
      | CheckingUnresolvedFinalization => 241
      | CheckingAsyncFinalizationOutsideAsyncCallable => 242
      | CheckingCircularExecutionGuarantee => 243 | CheckingCallableResultRequired => 244
      | CheckingCallableAddressTypeUnsupported => 245
      | CheckingFixedLayoutQueryTypeUnsupported => 246
      | CheckingTrailingLayoutQueryTypeUnsupported => 247 | CheckingTypeLayoutOverflow => 248
      | CheckingMemoryPointeeTypeUnsupported => 249
      | CheckingTaglessUnionPatternRequiresVariant => 250
      | CheckingForeignAbiTypeUnsupported => 251 | CheckingPlatformServiceSignatureMismatch => 252
      | CheckingInvalidNativeLinkDirective => 253 | CheckingInvalidNativeSymbolDirective => 254
      | CheckingDuplicateNativeSymbol => 255 | CheckingUnavailableNativeLinkInput => 256
      | CheckingUndeclaredTrustedCapability => 257 | CheckingUnusedTrustedCapability => 258
      | CheckingTrustedCapabilityRequiresTrustedCallable => 259
      | CheckingAwaitOutsideAsyncCallable => 260 | CheckingTaskStartOutsideAsyncCallable => 261
      | CheckingUnavailableAwaitDependency => 262 | CheckingEntrypointNotAllowed => 263
      | CheckingMissingEntrypoint => 264 | CheckingDuplicateEntrypoint => 265
      | CheckingEntryCannotBeGeneric => 266 | CheckingEntryCannotTakeParameters => 267
      | CheckingInvalidEntrypointResult => 268 | CheckingInvalidTestResult => 269
      | CheckingInvalidTestEntryDirective => 270 | CheckingInvalidTestModuleDirective => 271
      | CheckingDuplicateTestIdentity => 272 | CheckingEntryCannotBeConstant => 273
      | CheckingEntryCannotRequireTrust => 274 | CheckingExportDependsOnInternalDeclaration => 275
      | EmissionMissingContribution => 276 | EmissionInvalidContribution => 277
      | EmissionArtifactReadFailed => 278 | EmissionArtifactOpenFailed => 279
      | EmissionArtifactWriteFailed => 280 | EmissionArtifactFlushFailed => 281
      | EmissionArtifactDigestMismatch => 282 | EmissionArtifactLengthMismatch => 283
      | EmissionArtifactCommitFailed => 284 | EmissionManagedPublicationUnsupported => 285
      | EmissionGenerationCollision => 286 | EmissionGenerationManifestInvalid => 287
      | BuildStorageIoFailed => 288 | BuildStorageUnsafePath => 289
      | RetainedBuildStateUnavailable => 290 | BuildStorageCancelled => 291
      | BuildStorageMetadataInvalid => 292 | BuildStorageRevisionMismatch => 293
      | RetainedGenerationInvalid => 294 | RetainedArtifactLengthMismatch => 295
      | RetainedArtifactDigestMismatch => 296 | EmissionFailed => 297
      | EmissionTargetMismatch => 298 | EmissionProductMismatch => 299
      | EmissionArtifactIoFailed => 300 | CodegenUnsupportedTarget => 301
      | CodegenUnsupportedArtifact => 302 | CodegenInvalidConfiguration => 303
      | CodegenResourceExhausted => 304 | CodegenBackendLibraryFailed => 305
      | CodegenBackendToolExited => 306 | CodegenArtifactConstructionFailed => 307
      | CodegenArtifactReadFailed => 308 | NativeProductPreparationFailed => 309
      | LinkerUnsupportedTarget => 310 | LinkerUnsupportedProduct => 311
      | LinkerUnsupportedInput => 312 | LinkerUnsupportedInputMode => 313
      | LinkerUnsupportedOutput => 314 | LinkerUnsupportedSearchPath => 315
      | LinkerUnsupportedLinkModel => 316 | LinkerUnsupportedDeadStrip => 317
      | LinkerUnsupportedSectionGarbageCollection => 318 | LinkerUnsupportedDebug => 319
      | LinkerUnsupportedSubsystem => 320 | LinkerUnsupportedSymbol => 321
      | LinkerUnsupportedStartup => 322 | LinkerUnsupportedRuntime => 323
      | LinkerUnsupportedOptimization => 324 | LinkerDriverUnavailable => 325
      | LinkerDriverIncompatible => 326 | LinkerInputMissing => 327
      | LinkerResponseFileFailed => 328 | LinkerInvocationFailed => 329
      | LinkerExternalToolIoFailed => 330 | LinkerExternalToolContractFailed => 331
      | LinkerExternalToolExitedUnsuccessfully => 332 | LinkerOutputMissing => 333
      | LinkerOutputInvalid => 334 | LinkerResourceExhausted => 335
      | LinkerOptimizationReportInvalid => 336
      end |}.
  intros k. by destruct k.
Defined.

Definition DiagnosticKind_as_str (k : DiagnosticKind) : string :=
  match k with
  | SourceFileReadFailed => "source_file_read_failed"
  | SourceInvalidUtf8 => "source_invalid_utf8"
  | SourceTooManyInputs => "source_too_many_inputs"
  | SourceTextTooLarge => "source_text_too_large"
  | RequestMissingSourceInput => "request_missing_source_input"
  | RequestInvalidSourceInput => "request_invalid_source_input"
  | RequestReservedPackageIdentity => "request_reserved_package_identity"
  | RequestStandardLibraryPackageIdentityRequired => "request_standard_library_package_identity_required"
  | PackageArtifactReadFailed => "package_artifact_read_failed"
  | StandardLibraryManifestInvalid => "standard_library_manifest_invalid"
  | StandardLibraryInfrastructureFailure => "standard_library_infrastructure_failure"
  | StandardLibraryArtifactLengthMismatch => "standard_library_artifact_length_mismatch"
  | StandardLibraryArtifactDigestMismatch => "standard_library_artifact_digest_mismatch"
  | StandardLibraryTargetUnavailable => "standard_library_target_unavailable"
  | StandardLibraryRuntimeAbiMismatch => "standard_library_runtime_abi_mismatch"
  | RequestDuplicateSourceInput => "request_duplicate_source_input"
  | RequestInvalidWorkerBudget => "request_invalid_worker_budget"
  | RequestUnsupportedProductEmission => "request_unsupported_product_emission"
  | InspectionReportWriteFailed => "inspection_report_write_failed"
  | CompilerProfileWriteFailed => "compiler_profile_write_failed"
  | RuntimeArtifactMetadataReadFailed => "runtime_artifact_metadata_read_failed"
  | RuntimeArtifactMetadataInvalid => "runtime_artifact_metadata_invalid"
  | RuntimeArtifactTargetMismatch => "runtime_artifact_target_mismatch"
  | RuntimeArtifactAbiMismatch => "runtime_artifact_abi_mismatch"
  | ProjectManifestReadFailed => "project_manifest_read_failed"
  | ProjectGeneratorFailed => "project_generator_failed"
  | ProjectManifestParseFailed => "project_manifest_parse_failed"
  | ProjectManifestUnsupportedFormat => "project_manifest_unsupported_format"
  | ProjectManifestInvalidPath => "project_manifest_invalid_path"
  | ProjectManifestInvalidName => "project_manifest_invalid_name"
  | ProjectManifestMissingSelection => "project_manifest_missing_selection"
  | ProjectManifestMissingRootPackage => "project_manifest_missing_root_package"
  | ProjectManifestUndeclaredFeature => "project_manifest_undeclared_feature"
  | ProjectManifestUnknownSourceRoot => "project_manifest_unknown_source_root"
  | ProjectManifestUnknownTarget => "project_manifest_unknown_target"
  | ProjectManifestUnknownTargetPredicateProperty => "project_manifest_unknown_target_predicate_property"
  | ProjectManifestTargetPredicateValueKindMismatch => "project_manifest_target_predicate_value_kind_mismatch"
  | ProjectManifestUnexpectedTestedLibrary => "project_manifest_unexpected_tested_library"
  | ProjectPackageVersionInvalid => "project_package_version_invalid"
  | ProjectPackageVersionMissingWorkspace => "project_package_version_missing_workspace"
  | ProjectPackageIdentityReserved => "project_package_identity_reserved"
  | ProjectStandardLibraryPackageIdentityRequired => "project_standard_library_package_identity_required"
  | ProjectStandardLibraryRootPackageRequired => "project_standard_library_root_package_required"
  | ProjectManifestDuplicateSelection => "project_manifest_duplicate_selection"
  | ProjectSourceRootInvalid => "project_source_root_invalid"
  | ProjectSourceRootContainsSymlink => "project_source_root_contains_symlink"
  | ProjectSourceRootContainsNonUtf8Path => "project_source_root_contains_non_utf8_path"
  | ProjectDependencyPackageUnknown => "project_dependency_package_unknown"
  | ProjectDependencyProductUnknown => "project_dependency_product_unknown"
  | ProjectDependencyProductNotLibrary => "project_dependency_product_not_library"
  | ProjectDependencyProductTargetUnavailable => "project_dependency_product_target_unavailable"
  | ProjectDependencyCycle => "project_dependency_cycle"
  | ProjectCommandSelectionInvalid => "project_command_selection_invalid"
  | ProjectCommandFailed => "project_command_failed"
  | ProjectInitializationIdentityInvalid => "project_initialization_identity_invalid"
  | ProjectInitializationPathConflict => "project_initialization_path_conflict"
  | ProjectInitializationWriteFailed => "project_initialization_write_failed"
  | ProjectInitializationTargetUnsupported => "project_initialization_target_unsupported"
  | FormatterSourceNotFormatted => "formatter_source_not_formatted"
  | FormatterSourceInvalidUtf8 => "formatter_source_invalid_utf8"
  | FormatterSourceTooLarge => "formatter_source_too_large"
  | FormatterSourceWriteFailed => "formatter_source_write_failed"
  | FormatterConfigurationReadFailed => "formatter_configuration_read_failed"
  | FormatterConfigurationMalformed => "formatter_configuration_malformed"
  | FormatterConfigurationUnknownRule => "formatter_configuration_unknown_rule"
  | FormatterConfigurationInvalidMaximumWidth => "formatter_configuration_invalid_maximum_width"
  | LexicalInvalidCharacter => "lexical_invalid_character"
  | LexicalMisplacedBom => "lexical_misplaced_bom"
  | LexicalLoneCarriageReturn => "lexical_lone_carriage_return"
  | LexicalNonAsciiIdentifier => "lexical_non_ascii_identifier"
  | LexicalInvalidIdentifier => "lexical_invalid_identifier"
  | LexicalInvalidOperatorOrPunctuation => "lexical_invalid_operator_or_punctuation"
  | LexicalMalformedNumericLiteral => "lexical_malformed_numeric_literal"
  | LexicalInvalidNumericSuffix => "lexical_invalid_numeric_suffix"
  | LexicalMalformedCharacterLiteral => "lexical_malformed_character_literal"
  | LexicalUnterminatedCharacterLiteral => "lexical_unterminated_character_literal"
  | LexicalUnterminatedStringLiteral => "lexical_unterminated_string_literal"
  | LexicalUnknownEscape => "lexical_unknown_escape"
  | LexicalInvalidUnicodeEscape => "lexical_invalid_unicode_escape"
  | LexicalUnterminatedBlockComment => "lexical_unterminated_block_comment"
  | SyntaxExpectedToken => "syntax_expected_token"
  | SyntaxExpectedExpression => "syntax_expected_expression"
  | SyntaxUnexpectedEof => "syntax_unexpected_eof"
  | SyntaxNestingLimitExceeded => "syntax_nesting_limit_exceeded"
  | SyntaxInvalidDirectiveTarget => "syntax_invalid_directive_target"
  | DeclarationDuplicateName => "declaration_duplicate_name"
  | DeclarationConflictingModuleVisibility => "declaration_conflicting_module_visibility"
  | DeclarationConflictingModuleTrust => "declaration_conflicting_module_trust"
  | DeclarationDuplicateModifier => "declaration_duplicate_modifier"
  | DeclarationIncompatibleModifiers => "declaration_incompatible_modifiers"
  | DeclarationInvalidModifier => "declaration_invalid_modifier"
  | DeclarationBodyRequired => "declaration_body_required"
  | DeclarationBodyNotAllowed => "declaration_body_not_allowed"
  | DeclarationDuplicateDirective => "declaration_duplicate_directive"
  | DeclarationIncompatibleDirectives => "declaration_incompatible_directives"
  | DeclarationInvalidDirectiveTarget => "declaration_invalid_directive_target"
  | DeclarationInvalidParameterOrder => "declaration_invalid_parameter_order"
  | DeclarationInvalidMemberPlacement => "declaration_invalid_member_placement"
  | DeclarationDuplicateLifecycleSlot => "declaration_duplicate_lifecycle_slot"
  | InterfaceInvalidMagic => "interface_invalid_magic"
  | InterfaceUnsupportedFormatRevision => "interface_unsupported_format_revision"
  | InterfaceUnsupportedLanguageRevision => "interface_unsupported_language_revision"
  | InterfaceUnsupportedEncoding => "interface_unsupported_encoding"
  | InterfaceValidationFailed => "interface_validation_failed"
  | InterfaceHashMismatch => "interface_hash_mismatch"
  | InterfaceSectionChecksumMismatch => "interface_section_checksum_mismatch"
  | InterfaceResourceLimitExceeded => "interface_resource_limit_exceeded"
  | InterfacePackageIdentityMismatch => "interface_package_identity_mismatch"
  | InterfaceProductIdentityMismatch => "interface_product_identity_mismatch"
  | InterfaceDuplicatePackage => "interface_duplicate_package"
  | InterfaceMissingDependency => "interface_missing_dependency"
  | InterfaceDependencyProductMismatch => "interface_dependency_product_mismatch"
  | InterfaceDependencyContentMismatch => "interface_dependency_content_mismatch"
  | InterfaceSymbolReferenceInvalid => "interface_symbol_reference_invalid"
  | InterfaceDependencyReferenceInvalid => "interface_dependency_reference_invalid"
  | InterfaceDependencySymbolMissing => "interface_dependency_symbol_missing"
  | InterfaceCompilerDeclarationExported => "interface_compiler_declaration_exported"
  | InterfaceSymbolGraphInvalid => "interface_symbol_graph_invalid"
  | InterfaceSymbolCapacityExceeded => "interface_symbol_capacity_exceeded"
  | InterfaceSemanticSymbolUnresolved => "interface_semantic_symbol_unresolved"
  | InterfaceSemanticSymbolKindInvalid => "interface_semantic_symbol_kind_invalid"
  | InterfaceSemanticValueGraphInvalid => "interface_semantic_value_graph_invalid"
  | InterfaceSemanticValueInvalid => "interface_semantic_value_invalid"
  | InterfaceExecutableTemplateInvalid => "interface_executable_template_invalid"
  | InterfaceSupportEntityInvalid => "interface_support_entity_invalid"
  | InterfaceConstantCallableBodyUnavailable => "interface_constant_callable_body_unavailable"
  | InterfaceExecutableTemplateUnavailable => "interface_executable_template_unavailable"
  | BindingUnresolvedName => "binding_unresolved_name"
  | BindingUndeclaredDependency => "binding_undeclared_dependency"
  | BindingAmbiguousName => "binding_ambiguous_name"
  | BindingInaccessibleName => "binding_inaccessible_name"
  | BindingWrongNameKind => "binding_wrong_name_kind"
  | BindingMalformedName => "binding_malformed_name"
  | BindingNameAlreadyDefined => "binding_name_already_defined"
  | BindingIncoherentAlternativePattern => "binding_incoherent_alternative_pattern"
  | BindingInvalidCallableAbi => "binding_invalid_callable_abi"
  | BindingDuplicateCallableAbi => "binding_duplicate_callable_abi"
  | BindingCyclicModuleExport => "binding_cyclic_module_export"
  | BindingConflictingModuleExport => "binding_conflicting_module_export"
  | BindingInvalidModuleExportTarget => "binding_invalid_module_export_target"
  | BindingMalformedDirectiveArgument => "binding_malformed_directive_argument"
  | BindingGenericArgumentCountMismatch => "binding_generic_argument_count_mismatch"
  | BindingGenericArgumentMustBeType => "binding_generic_argument_must_be_type"
  | BindingGenericApplicationRequiresName => "binding_generic_application_requires_name"
  | BindingInvalidBoxStoragePolicy => "binding_invalid_box_storage_policy"
  | BindingPanicArgumentCountMismatch => "binding_panic_argument_count_mismatch"
  | BindingNamedPanicArgument => "binding_named_panic_argument"
  | CheckingIncompatibleExpressionType => "checking_incompatible_expression_type"
  | CheckingCapacityExceeded => "checking_capacity_exceeded"
  | CheckingCannotInferExpressionType => "checking_cannot_infer_expression_type"
  | CheckingIgnoredExpressionResult => "checking_ignored_expression_result"
  | CheckingRangeElementTypeMustBeInteger => "checking_range_element_type_must_be_integer"
  | CheckingNoCompatiblePropagationBoundary => "checking_no_compatible_propagation_boundary"
  | CheckingInvalidConstantExpression => "checking_invalid_constant_expression"
  | CheckingNonMaterializableConstant => "checking_non_materializable_constant"
  | CheckingInvalidConstantOperation => "checking_invalid_constant_operation"
  | CheckingConstantLiteralNotRepresentable => "checking_constant_literal_not_representable"
  | CheckingConstantEvaluationStepLimitExceeded => "checking_constant_evaluation_step_limit_exceeded"
  | CheckingConstantAggregateLimitExceeded => "checking_constant_aggregate_limit_exceeded"
  | CheckingConstantExpansionLimitExceeded => "checking_constant_expansion_limit_exceeded"
  | CheckingConstantLiteralSizeLimitExceeded => "checking_constant_literal_size_limit_exceeded"
  | CheckingConstantIntegerSizeLimitExceeded => "checking_constant_integer_size_limit_exceeded"
  | CheckingCyclicConstantDefinition => "checking_cyclic_constant_definition"
  | CheckingConstantDivisionByZero => "checking_constant_division_by_zero"
  | CheckingConstantValueNotRepresentable => "checking_constant_value_not_representable"
  | CheckingNoApplicableCandidate => "checking_no_applicable_candidate"
  | CheckingMutableIndexContractRequired => "checking_mutable_index_contract_required"
  | CheckingUnknownUnionVariant => "checking_unknown_union_variant"
  | CheckingAmbiguousCandidate => "checking_ambiguous_candidate"
  | CheckingIncompatibleCandidate => "checking_incompatible_candidate"
  | CheckingTargetRepresentationUnavailable => "checking_target_representation_unavailable"
  | CheckingTargetCallableAbiUnavailable => "checking_target_callable_abi_unavailable"
  | CheckingTargetAbiRepresentationUnsupported => "checking_target_abi_representation_unsupported"
  | CheckingTargetMemoryOperationUnavailable => "checking_target_memory_operation_unavailable"
  | CheckingThreadLocalStaticUnavailable => "checking_thread_local_static_unavailable"
  | CheckingStaticDependencyOutlivesOwner => "checking_static_dependency_outlives_owner"
  | CheckingStaticLifecycleCycle => "checking_static_lifecycle_cycle"
  | CheckingStaticSpecializationDivergence => "checking_static_specialization_divergence"
  | CheckingStaticConstraintUnsatisfied => "checking_static_constraint_unsatisfied"
  | CheckingExternStaticSurfaceUnsupported => "checking_extern_static_surface_unsupported"
  | CheckingExportedStaticSurfaceUnsupported => "checking_exported_static_surface_unsupported"
  | CheckingNativeStaticTypeUnsupported => "checking_native_static_type_unsupported"
  | CheckingInvalidTargetControlContract => "checking_invalid_target_control_contract"
  | CheckingInvalidAtomicMemoryOrder => "checking_invalid_atomic_memory_order"
  | CheckingMissingTrustedMemoryGuarantees => "checking_missing_trusted_memory_guarantees"
  | CheckingTrustedObligationNotProven => "checking_trusted_obligation_not_proven"
  | CheckingExecutionRequirementNotProven => "checking_execution_requirement_not_proven"
  | CheckingConstantCallRequirementNotProven => "checking_constant_call_requirement_not_proven"
  | CheckingTrustedWitnessTransferNotProven => "checking_trusted_witness_transfer_not_proven"
  | CheckingMemoryOperationAfterDeallocation => "checking_memory_operation_after_deallocation"
  | CheckingUninitializedRawStorage => "checking_uninitialized_raw_storage"
  | CheckingDeallocationWithOutstandingObligations => "checking_deallocation_with_outstanding_obligations"
  | CheckingInvalidCallbackStateContext => "checking_invalid_callback_state_context"
  | CheckingTargetAlignmentUnsupported => "checking_target_alignment_unsupported"
  | CheckingIncompatiblePattern => "checking_incompatible_pattern"
  | CheckingRefutablePattern => "checking_refutable_pattern"
  | CheckingBindingInPatternTest => "checking_binding_in_pattern_test"
  | CheckingNonExhaustiveMatch => "checking_non_exhaustive_match"
  | CheckingUnreachableMatchArm => "checking_unreachable_match_arm"
  | CheckingUnreachablePatternAlternative => "checking_unreachable_pattern_alternative"
  | CheckingDuplicateModuleContributionDirective => "checking_duplicate_module_contribution_directive"
  | CheckingArrayGeneratorCardinalityNotProvable => "checking_array_generator_cardinality_not_provable"
  | CheckingInvalidStoredType => "checking_invalid_stored_type"
  | CheckingRecursiveTypeRepresentation => "checking_recursive_type_representation"
  | CheckingTypeRepresentationRecursionLimitExceeded => "checking_type_representation_recursion_limit_exceeded"
  | CheckingCleanupRecursionLimitExceeded => "checking_cleanup_recursion_limit_exceeded"
  | CheckingInvalidLayoutDirective => "checking_invalid_layout_directive"
  | CheckingInvalidCopyContract => "checking_invalid_copy_contract"
  | CheckingRepeatedArrayElementNotCopyable => "checking_repeated_array_element_not_copyable"
  | CheckingInvalidUnionTag => "checking_invalid_union_tag"
  | CheckingRefinementCapacityExceeded => "checking_refinement_capacity_exceeded"
  | CheckingUseOfMovedStorage => "checking_use_of_moved_storage"
  | CheckingIncompleteLifecycleStorage => "checking_incomplete_lifecycle_storage"
  | CheckingDestructorOwnershipIntroduction => "checking_destructor_ownership_introduction"
  | CheckingUnprovedDestructorEffects => "checking_unproved_destructor_effects"
  | CheckingConflictingBorrow => "checking_conflicting_borrow"
  | CheckingMissingMutationAuthority => "checking_missing_mutation_authority"
  | CheckingMissingStorageOwnership => "checking_missing_storage_ownership"
  | CheckingEscapingStorageDependency => "checking_escaping_storage_dependency"
  | CheckingMissingTraitFulfillment => "checking_missing_trait_fulfillment"
  | CheckingExtraTraitFulfillment => "checking_extra_trait_fulfillment"
  | CheckingIncompatibleTraitFulfillment => "checking_incompatible_trait_fulfillment"
  | CheckingDuplicateTraitFulfillment => "checking_duplicate_trait_fulfillment"
  | CheckingOverlappingImplementation => "checking_overlapping_implementation"
  | CheckingUngroupedImplementationOverloads => "checking_ungrouped_implementation_overloads"
  | CheckingInvalidImplementationOverloadHeader => "checking_invalid_implementation_overload_header"
  | CheckingInvalidImplementationOverloadArm => "checking_invalid_implementation_overload_arm"
  | CheckingDuplicateImplementationOverloadArm => "checking_duplicate_implementation_overload_arm"
  | CheckingInvalidCallableOverloadArm => "checking_invalid_callable_overload_arm"
  | CheckingDuplicateCallableOverloadArm => "checking_duplicate_callable_overload_arm"
  | CheckingConflictingCallableOverloadFamily => "checking_conflicting_callable_overload_family"
  | CheckingConflictingCallableOverloadSignature => "checking_conflicting_callable_overload_signature"
  | CheckingImplementationCoherenceLimitExceeded => "checking_implementation_coherence_limit_exceeded"
  | CheckingCallableOverloadLimitExceeded => "checking_callable_overload_limit_exceeded"
  | CheckingMissingForeignCallableDirective => "checking_missing_foreign_callable_directive"
  | CheckingForeignCallableRequiresTrusted => "checking_foreign_callable_requires_trusted"
  | CheckingForeignCallableRequiresCapability => "checking_foreign_callable_requires_capability"
  | CheckingForeignCallableExecutionUnsupported => "checking_foreign_callable_execution_unsupported"
  | CheckingVariadicCallableContractUnsupported => "checking_variadic_callable_contract_unsupported"
  | CheckingUnknownExecutionProperty => "checking_unknown_execution_property"
  | CheckingExecutionGuaranteeNotProven => "checking_execution_guarantee_not_proven"
  | CheckingUnresolvedFinalization => "checking_unresolved_finalization"
  | CheckingAsyncFinalizationOutsideAsyncCallable => "checking_async_finalization_outside_async_callable"
  | CheckingCircularExecutionGuarantee => "checking_circular_execution_guarantee"
  | CheckingCallableResultRequired => "checking_callable_result_required"
  | CheckingCallableAddressTypeUnsupported => "checking_callable_address_type_unsupported"
  | CheckingFixedLayoutQueryTypeUnsupported => "checking_fixed_layout_query_type_unsupported"
  | CheckingTrailingLayoutQueryTypeUnsupported => "checking_trailing_layout_query_type_unsupported"
  | CheckingTypeLayoutOverflow => "checking_type_layout_overflow"
  | CheckingMemoryPointeeTypeUnsupported => "checking_memory_pointee_type_unsupported"
  | CheckingTaglessUnionPatternRequiresVariant => "checking_tagless_union_pattern_requires_variant"
  | CheckingForeignAbiTypeUnsupported => "checking_foreign_abi_type_unsupported"
  | CheckingPlatformServiceSignatureMismatch => "checking_platform_service_signature_mismatch"
  | CheckingInvalidNativeLinkDirective => "checking_invalid_native_link_directive"
  | CheckingInvalidNativeSymbolDirective => "checking_invalid_native_symbol_directive"
  | CheckingDuplicateNativeSymbol => "checking_duplicate_native_symbol"
  | CheckingUnavailableNativeLinkInput => "checking_unavailable_native_link_input"
  | CheckingUndeclaredTrustedCapability => "checking_undeclared_trusted_capability"
  | CheckingUnusedTrustedCapability => "checking_unused_trusted_capability"
  | CheckingTrustedCapabilityRequiresTrustedCallable => "checking_trusted_capability_requires_trusted_callable"
  | CheckingAwaitOutsideAsyncCallable => "checking_await_outside_async_callable"
  | CheckingTaskStartOutsideAsyncCallable => "checking_task_start_outside_async_callable"
  | CheckingUnavailableAwaitDependency => "checking_unavailable_await_dependency"
  | CheckingEntrypointNotAllowed => "checking_entrypoint_not_allowed"
  | CheckingMissingEntrypoint => "checking_missing_entrypoint"
  | CheckingDuplicateEntrypoint => "checking_duplicate_entrypoint"
  | CheckingEntryCannotBeGeneric => "checking_entry_cannot_be_generic"
  | CheckingEntryCannotTakeParameters => "checking_entry_cannot_take_parameters"
  | CheckingInvalidEntrypointResult => "checking_invalid_entrypoint_result"
  | CheckingInvalidTestResult => "checking_invalid_test_result"
  | CheckingInvalidTestEntryDirective => "checking_invalid_test_entry_directive"
  | CheckingInvalidTestModuleDirective => "checking_invalid_test_module_directive"
  | CheckingDuplicateTestIdentity => "checking_duplicate_test_identity"
  | CheckingEntryCannotBeConstant => "checking_entry_cannot_be_constant"
  | CheckingEntryCannotRequireTrust => "checking_entry_cannot_require_trust"
  | CheckingExportDependsOnInternalDeclaration => "checking_export_depends_on_internal_declaration"
  | EmissionMissingContribution => "emission_missing_contribution"
  | EmissionInvalidContribution => "emission_invalid_contribution"
  | EmissionArtifactReadFailed => "emission_artifact_read_failed"
  | EmissionArtifactOpenFailed => "emission_artifact_open_failed"
  | EmissionArtifactWriteFailed => "emission_artifact_write_failed"
  | EmissionArtifactFlushFailed => "emission_artifact_flush_failed"
  | EmissionArtifactDigestMismatch => "emission_artifact_digest_mismatch"
  | EmissionArtifactLengthMismatch => "emission_artifact_length_mismatch"
  | EmissionArtifactCommitFailed => "emission_artifact_commit_failed"
  | EmissionManagedPublicationUnsupported => "emission_managed_publication_unsupported"
  | EmissionGenerationCollision => "emission_generation_collision"
  | EmissionGenerationManifestInvalid => "emission_generation_manifest_invalid"
  | BuildStorageIoFailed => "build_storage_io_failed"
  | BuildStorageUnsafePath => "build_storage_unsafe_path"
  | RetainedBuildStateUnavailable => "retained_build_state_unavailable"
  | BuildStorageCancelled => "build_storage_cancelled"
  | BuildStorageMetadataInvalid => "build_storage_metadata_invalid"
  | BuildStorageRevisionMismatch => "build_storage_revision_mismatch"
  | RetainedGenerationInvalid => "retained_generation_invalid"
  | RetainedArtifactLengthMismatch => "retained_artifact_length_mismatch"
  | RetainedArtifactDigestMismatch => "retained_artifact_digest_mismatch"
  | EmissionFailed => "emission_failed"
  | EmissionTargetMismatch => "emission_target_mismatch"
  | EmissionProductMismatch => "emission_product_mismatch"
  | EmissionArtifactIoFailed => "emission_artifact_io_failed"
  | CodegenUnsupportedTarget => "codegen_unsupported_target"
  | CodegenUnsupportedArtifact => "codegen_unsupported_artifact"
  | CodegenInvalidConfiguration => "codegen_invalid_configuration"
  | CodegenResourceExhausted => "codegen_resource_exhausted"
  | CodegenBackendLibraryFailed => "codegen_backend_library_failed"
  | CodegenBackendToolExited => "codegen_backend_tool_exited"
  | CodegenArtifactConstructionFailed => "codegen_artifact_construction_failed"
  | CodegenArtifactReadFailed => "codegen_artifact_read_failed"
  | NativeProductPreparationFailed => "native_product_preparation_failed"
  | LinkerUnsupportedTarget => "linker_unsupported_target"
  | LinkerUnsupportedProduct => "linker_unsupported_product"
  | LinkerUnsupportedInput => "linker_unsupported_input"
  | LinkerUnsupportedInputMode => "linker_unsupported_input_mode"
  | LinkerUnsupportedOutput => "linker_unsupported_output"
  | LinkerUnsupportedSearchPath => "linker_unsupported_search_path"
  | LinkerUnsupportedLinkModel => "linker_unsupported_link_model"
  | LinkerUnsupportedDeadStrip => "linker_unsupported_dead_strip"
  | LinkerUnsupportedSectionGarbageCollection => "linker_unsupported_section_garbage_collection"
  | LinkerUnsupportedDebug => "linker_unsupported_debug"
  | LinkerUnsupportedSubsystem => "linker_unsupported_subsystem"
  | LinkerUnsupportedSymbol => "linker_unsupported_symbol"
  | LinkerUnsupportedStartup => "linker_unsupported_startup"
  | LinkerUnsupportedRuntime => "linker_unsupported_runtime"
  | LinkerUnsupportedOptimization => "linker_unsupported_optimization"
  | LinkerDriverUnavailable => "linker_driver_unavailable"
  | LinkerDriverIncompatible => "linker_driver_incompatible"
  | LinkerInputMissing => "linker_input_missing"
  | LinkerResponseFileFailed => "linker_response_file_failed"
  | LinkerInvocationFailed => "linker_invocation_failed"
  | LinkerExternalToolIoFailed => "linker_external_tool_io_failed"
  | LinkerExternalToolContractFailed => "linker_external_tool_contract_failed"
  | LinkerExternalToolExitedUnsuccessfully => "linker_external_tool_exited_unsuccessfully"
  | LinkerOutputMissing => "linker_output_missing"
  | LinkerOutputInvalid => "linker_output_invalid"
  | LinkerResourceExhausted => "linker_resource_exhausted"
  | LinkerOptimizationReportInvalid => "linker_optimization_report_invalid"
  end%string.

Definition DiagnosticKind_code (k : DiagnosticKind) : u32 :=
  match k with
  | SourceFileReadFailed => 1001 | SourceInvalidUtf8 => 1002 | SourceTooManyInputs => 1003
  | SourceTextTooLarge => 1004 | RequestMissingSourceInput => 1101
  | RequestInvalidSourceInput => 1102 | RequestReservedPackageIdentity => 1107
  | RequestStandardLibraryPackageIdentityRequired => 1108 | PackageArtifactReadFailed => 1109
  | StandardLibraryManifestInvalid => 1110 | StandardLibraryInfrastructureFailure => 1126
  | StandardLibraryArtifactLengthMismatch => 1111 | StandardLibraryArtifactDigestMismatch => 1112
  | StandardLibraryTargetUnavailable => 1113 | StandardLibraryRuntimeAbiMismatch => 1114
  | RequestDuplicateSourceInput => 1104 | RequestInvalidWorkerBudget => 1103
  | RequestUnsupportedProductEmission => 1106 | InspectionReportWriteFailed => 1105
  | CompilerProfileWriteFailed => 1115 | RuntimeArtifactMetadataReadFailed => 1116
  | RuntimeArtifactMetadataInvalid => 1117 | RuntimeArtifactTargetMismatch => 1118
  | RuntimeArtifactAbiMismatch => 1119 | ProjectManifestReadFailed => 1201
  | ProjectGeneratorFailed => 1238 | ProjectManifestParseFailed => 1202
  | ProjectManifestUnsupportedFormat => 1220 | ProjectManifestInvalidPath => 1221
  | ProjectManifestInvalidName => 1222 | ProjectManifestMissingSelection => 1223
  | ProjectManifestMissingRootPackage => 1224 | ProjectManifestUndeclaredFeature => 1225
  | ProjectManifestUnknownSourceRoot => 1226 | ProjectManifestUnknownTarget => 1227
  | ProjectManifestUnknownTargetPredicateProperty => 1228
  | ProjectManifestTargetPredicateValueKindMismatch => 1237
  | ProjectManifestUnexpectedTestedLibrary => 1229 | ProjectPackageVersionInvalid => 1219
  | ProjectPackageVersionMissingWorkspace => 1230 | ProjectPackageIdentityReserved => 1212
  | ProjectStandardLibraryPackageIdentityRequired => 1213
  | ProjectStandardLibraryRootPackageRequired => 1214 | ProjectManifestDuplicateSelection => 1204
  | ProjectSourceRootInvalid => 1205 | ProjectSourceRootContainsSymlink => 1231
  | ProjectSourceRootContainsNonUtf8Path => 1232 | ProjectDependencyPackageUnknown => 1206
  | ProjectDependencyProductUnknown => 1207 | ProjectDependencyProductNotLibrary => 1234
  | ProjectDependencyProductTargetUnavailable => 1235 | ProjectDependencyCycle => 1208
  | ProjectCommandSelectionInvalid => 1209 | ProjectCommandFailed => 1211
  | ProjectInitializationIdentityInvalid => 1215 | ProjectInitializationPathConflict => 1216
  | ProjectInitializationWriteFailed => 1217 | ProjectInitializationTargetUnsupported => 1218
  | FormatterSourceNotFormatted => 1301 | FormatterSourceInvalidUtf8 => 1302
  | FormatterSourceTooLarge => 1303 | FormatterSourceWriteFailed => 1304
  | FormatterConfigurationReadFailed => 1305 | FormatterConfigurationMalformed => 1306
  | FormatterConfigurationUnknownRule => 1307 | FormatterConfigurationInvalidMaximumWidth => 1308
  | LexicalInvalidCharacter => 2001 | LexicalMisplacedBom => 2002
  | LexicalLoneCarriageReturn => 2003 | LexicalNonAsciiIdentifier => 2004
  | LexicalInvalidIdentifier => 2005 | LexicalInvalidOperatorOrPunctuation => 2006
  | LexicalMalformedNumericLiteral => 2007 | LexicalInvalidNumericSuffix => 2008
  | LexicalMalformedCharacterLiteral => 2009 | LexicalUnterminatedCharacterLiteral => 2010
  | LexicalUnterminatedStringLiteral => 2011 | LexicalUnknownEscape => 2012
  | LexicalInvalidUnicodeEscape => 2013 | LexicalUnterminatedBlockComment => 2014
  | SyntaxExpectedToken => 3001 | SyntaxExpectedExpression => 3005 | SyntaxUnexpectedEof => 3003
  | SyntaxNestingLimitExceeded => 3006 | SyntaxInvalidDirectiveTarget => 3007
  | DeclarationDuplicateName => 4001 | DeclarationConflictingModuleVisibility => 4002
  | DeclarationConflictingModuleTrust => 4003 | DeclarationDuplicateModifier => 4004
  | DeclarationIncompatibleModifiers => 4005 | DeclarationInvalidModifier => 4011
  | DeclarationBodyRequired => 4006 | DeclarationBodyNotAllowed => 4007
  | DeclarationDuplicateDirective => 4008 | DeclarationIncompatibleDirectives => 4014
  | DeclarationInvalidDirectiveTarget => 4012 | DeclarationInvalidParameterOrder => 4013
  | DeclarationInvalidMemberPlacement => 4009 | DeclarationDuplicateLifecycleSlot => 4010
  | InterfaceInvalidMagic => 5001 | InterfaceUnsupportedFormatRevision => 5002
  | InterfaceUnsupportedLanguageRevision => 5003 | InterfaceUnsupportedEncoding => 5004
  | InterfaceValidationFailed => 5005 | InterfaceHashMismatch => 5007
  | InterfaceSectionChecksumMismatch => 5008 | InterfaceResourceLimitExceeded => 5009
  | InterfacePackageIdentityMismatch => 5010 | InterfaceProductIdentityMismatch => 5011
  | InterfaceDuplicatePackage => 5016 | InterfaceMissingDependency => 5017
  | InterfaceDependencyProductMismatch => 5018 | InterfaceDependencyContentMismatch => 5019
  | InterfaceSymbolReferenceInvalid => 5020 | InterfaceDependencyReferenceInvalid => 5021
  | InterfaceDependencySymbolMissing => 5022 | InterfaceCompilerDeclarationExported => 5023
  | InterfaceSymbolGraphInvalid => 5024 | InterfaceSymbolCapacityExceeded => 5025
  | InterfaceSemanticSymbolUnresolved => 5026 | InterfaceSemanticSymbolKindInvalid => 5027
  | InterfaceSemanticValueGraphInvalid => 5028 | InterfaceSemanticValueInvalid => 5029
  | InterfaceExecutableTemplateInvalid => 5030 | InterfaceSupportEntityInvalid => 5031
  | InterfaceConstantCallableBodyUnavailable => 5014
  | InterfaceExecutableTemplateUnavailable => 5015 | BindingUnresolvedName => 6001
  | BindingUndeclaredDependency => 6010 | BindingAmbiguousName => 6002
  | BindingInaccessibleName => 6003 | BindingWrongNameKind => 6004 | BindingMalformedName => 6005
  | BindingNameAlreadyDefined => 6006 | BindingIncoherentAlternativePattern => 6007
  | BindingInvalidCallableAbi => 6008 | BindingDuplicateCallableAbi => 6009
  | BindingCyclicModuleExport => 6012 | BindingConflictingModuleExport => 6013
  | BindingInvalidModuleExportTarget => 6014 | BindingMalformedDirectiveArgument => 6015
  | BindingGenericArgumentCountMismatch => 6017 | BindingGenericArgumentMustBeType => 6018
  | BindingGenericApplicationRequiresName => 6019 | BindingInvalidBoxStoragePolicy => 6016
  | BindingPanicArgumentCountMismatch => 6020 | BindingNamedPanicArgument => 6021
  | CheckingIncompatibleExpressionType => 7001 | CheckingCapacityExceeded => 7114
  | CheckingCannotInferExpressionType => 7002 | CheckingIgnoredExpressionResult => 7131
  | CheckingRangeElementTypeMustBeInteger => 7098
  | CheckingNoCompatiblePropagationBoundary => 7082 | CheckingInvalidConstantExpression => 7003
  | CheckingNonMaterializableConstant => 7122 | CheckingInvalidConstantOperation => 7013
  | CheckingConstantLiteralNotRepresentable => 7004
  | CheckingConstantEvaluationStepLimitExceeded => 7005
  | CheckingConstantAggregateLimitExceeded => 7006
  | CheckingConstantExpansionLimitExceeded => 7081
  | CheckingConstantLiteralSizeLimitExceeded => 7007
  | CheckingConstantIntegerSizeLimitExceeded => 7020 | CheckingCyclicConstantDefinition => 7008
  | CheckingConstantDivisionByZero => 7018 | CheckingConstantValueNotRepresentable => 7019
  | CheckingNoApplicableCandidate => 7009 | CheckingMutableIndexContractRequired => 7094
  | CheckingUnknownUnionVariant => 7088 | CheckingAmbiguousCandidate => 7010
  | CheckingIncompatibleCandidate => 7012 | CheckingTargetRepresentationUnavailable => 7014
  | CheckingTargetCallableAbiUnavailable => 7015
  | CheckingTargetAbiRepresentationUnsupported => 7017
  | CheckingTargetMemoryOperationUnavailable => 7083
  | CheckingThreadLocalStaticUnavailable => 7099 | CheckingStaticDependencyOutlivesOwner => 7100
  | CheckingStaticLifecycleCycle => 7101 | CheckingStaticSpecializationDivergence => 7102
  | CheckingStaticConstraintUnsatisfied => 7103 | CheckingExternStaticSurfaceUnsupported => 7108
  | CheckingExportedStaticSurfaceUnsupported => 7109 | CheckingNativeStaticTypeUnsupported => 7110
  | CheckingInvalidTargetControlContract => 7096 | CheckingInvalidAtomicMemoryOrder => 7097
  | CheckingMissingTrustedMemoryGuarantees => 7084 | CheckingTrustedObligationNotProven => 7123
  | CheckingExecutionRequirementNotProven => 7129
  | CheckingConstantCallRequirementNotProven => 7130
  | CheckingTrustedWitnessTransferNotProven => 7124
  | CheckingMemoryOperationAfterDeallocation => 7085 | CheckingUninitializedRawStorage => 7087
  | CheckingDeallocationWithOutstandingObligations => 7086
  | CheckingInvalidCallbackStateContext => 7093 | CheckingTargetAlignmentUnsupported => 7016
  | CheckingIncompatiblePattern => 7021 | CheckingRefutablePattern => 7022
  | CheckingBindingInPatternTest => 7115 | CheckingNonExhaustiveMatch => 7023
  | CheckingUnreachableMatchArm => 7024 | CheckingUnreachablePatternAlternative => 7027
  | CheckingDuplicateModuleContributionDirective => 7025
  | CheckingArrayGeneratorCardinalityNotProvable => 7026 | CheckingInvalidStoredType => 7028
  | CheckingRecursiveTypeRepresentation => 7029
  | CheckingTypeRepresentationRecursionLimitExceeded => 7078
  | CheckingCleanupRecursionLimitExceeded => 7132 | CheckingInvalidLayoutDirective => 7030
  | CheckingInvalidCopyContract => 7031 | CheckingRepeatedArrayElementNotCopyable => 7134
  | CheckingInvalidUnionTag => 7032 | CheckingRefinementCapacityExceeded => 7033
  | CheckingUseOfMovedStorage => 7035 | CheckingIncompleteLifecycleStorage => 7116
  | CheckingDestructorOwnershipIntroduction => 7127 | CheckingUnprovedDestructorEffects => 7128
  | CheckingConflictingBorrow => 7036 | CheckingMissingMutationAuthority => 7037
  | CheckingMissingStorageOwnership => 7039 | CheckingEscapingStorageDependency => 7113
  | CheckingMissingTraitFulfillment => 7040 | CheckingExtraTraitFulfillment => 7041
  | CheckingIncompatibleTraitFulfillment => 7042 | CheckingDuplicateTraitFulfillment => 7043
  | CheckingOverlappingImplementation => 7045 | CheckingUngroupedImplementationOverloads => 7046
  | CheckingInvalidImplementationOverloadHeader => 7047
  | CheckingInvalidImplementationOverloadArm => 7048
  | CheckingDuplicateImplementationOverloadArm => 7095
  | CheckingInvalidCallableOverloadArm => 7049 | CheckingDuplicateCallableOverloadArm => 7050
  | CheckingConflictingCallableOverloadFamily => 7051
  | CheckingConflictingCallableOverloadSignature => 7052
  | CheckingImplementationCoherenceLimitExceeded => 7079
  | CheckingCallableOverloadLimitExceeded => 7080
  | CheckingMissingForeignCallableDirective => 7053
  | CheckingForeignCallableRequiresTrusted => 7054
  | CheckingForeignCallableRequiresCapability => 7055
  | CheckingForeignCallableExecutionUnsupported => 7056
  | CheckingVariadicCallableContractUnsupported => 7104 | CheckingUnknownExecutionProperty => 7118
  | CheckingExecutionGuaranteeNotProven => 7119 | CheckingUnresolvedFinalization => 7125
  | CheckingAsyncFinalizationOutsideAsyncCallable => 7126
  | CheckingCircularExecutionGuarantee => 7120 | CheckingCallableResultRequired => 7121
  | CheckingCallableAddressTypeUnsupported => 7105
  | CheckingFixedLayoutQueryTypeUnsupported => 7106
  | CheckingTrailingLayoutQueryTypeUnsupported => 7107 | CheckingTypeLayoutOverflow => 7133
  | CheckingMemoryPointeeTypeUnsupported => 7111
  | CheckingTaglessUnionPatternRequiresVariant => 7112 | CheckingForeignAbiTypeUnsupported => 7057
  | CheckingPlatformServiceSignatureMismatch => 7089 | CheckingInvalidNativeLinkDirective => 7058
  | CheckingInvalidNativeSymbolDirective => 7059 | CheckingDuplicateNativeSymbol => 7060
  | CheckingUnavailableNativeLinkInput => 7061 | CheckingUndeclaredTrustedCapability => 7062
  | CheckingUnusedTrustedCapability => 7063
  | CheckingTrustedCapabilityRequiresTrustedCallable => 7064
  | CheckingAwaitOutsideAsyncCallable => 7065 | CheckingTaskStartOutsideAsyncCallable => 7066
  | CheckingUnavailableAwaitDependency => 7077 | CheckingEntrypointNotAllowed => 7067
  | CheckingMissingEntrypoint => 7068 | CheckingDuplicateEntrypoint => 7069
  | CheckingEntryCannotBeGeneric => 7070 | CheckingEntryCannotTakeParameters => 7071
  | CheckingInvalidEntrypointResult => 7072 | CheckingInvalidTestResult => 7073
  | CheckingInvalidTestEntryDirective => 7090 | CheckingInvalidTestModuleDirective => 7091
  | CheckingDuplicateTestIdentity => 7092 | CheckingEntryCannotBeConstant => 7074
  | CheckingEntryCannotRequireTrust => 7075 | CheckingExportDependsOnInternalDeclaration => 7076
  | EmissionMissingContribution => 9001 | EmissionInvalidContribution => 9002
  | EmissionArtifactReadFailed => 9003 | EmissionArtifactOpenFailed => 9004
  | EmissionArtifactWriteFailed => 9005 | EmissionArtifactFlushFailed => 9006
  | EmissionArtifactDigestMismatch => 9007 | EmissionArtifactLengthMismatch => 9008
  | EmissionArtifactCommitFailed => 9009 | EmissionManagedPublicationUnsupported => 9010
  | EmissionGenerationCollision => 9011 | EmissionGenerationManifestInvalid => 9012
  | BuildStorageIoFailed => 9020 | BuildStorageUnsafePath => 9021
  | RetainedBuildStateUnavailable => 9022 | BuildStorageCancelled => 9023
  | BuildStorageMetadataInvalid => 9024 | BuildStorageRevisionMismatch => 9025
  | RetainedGenerationInvalid => 9026 | RetainedArtifactLengthMismatch => 9027
  | RetainedArtifactDigestMismatch => 9028 | EmissionFailed => 9014
  | EmissionTargetMismatch => 9016 | EmissionProductMismatch => 9017
  | EmissionArtifactIoFailed => 9018 | CodegenUnsupportedTarget => 9051
  | CodegenUnsupportedArtifact => 9052 | CodegenInvalidConfiguration => 9053
  | CodegenResourceExhausted => 9054 | CodegenBackendLibraryFailed => 9055
  | CodegenBackendToolExited => 9060 | CodegenArtifactConstructionFailed => 9057
  | CodegenArtifactReadFailed => 9061 | NativeProductPreparationFailed => 9058
  | LinkerUnsupportedTarget => 9101 | LinkerUnsupportedProduct => 9102
  | LinkerUnsupportedInput => 9103 | LinkerUnsupportedInputMode => 9104
  | LinkerUnsupportedOutput => 9105 | LinkerUnsupportedSearchPath => 9106
  | LinkerUnsupportedLinkModel => 9107 | LinkerUnsupportedDeadStrip => 9108
  | LinkerUnsupportedSectionGarbageCollection => 9109 | LinkerUnsupportedDebug => 9110
  | LinkerUnsupportedSubsystem => 9111 | LinkerUnsupportedSymbol => 9112
  | LinkerUnsupportedStartup => 9113 | LinkerUnsupportedRuntime => 9114
  | LinkerUnsupportedOptimization => 9126 | LinkerDriverUnavailable => 9115
  | LinkerDriverIncompatible => 9116 | LinkerInputMissing => 9117
  | LinkerResponseFileFailed => 9118 | LinkerInvocationFailed => 9119
  | LinkerExternalToolIoFailed => 9123 | LinkerExternalToolContractFailed => 9124
  | LinkerExternalToolExitedUnsuccessfully => 9125 | LinkerOutputMissing => 9120
  | LinkerOutputInvalid => 9121 | LinkerResourceExhausted => 9122
  | LinkerOptimizationReportInvalid => 9127
  end.

(** ** Labels, notes, related locations and arguments *)

Inductive DiagnosticLabelKind :=
  | LabelInvalidCharacter | LabelMisplacedBom | LabelLoneCarriageReturn | LabelNonAsciiIdentifier
  | LabelInvalidIdentifier | LabelInvalidOperatorOrPunctuation | LabelMalformedLiteral
  | LabelInvalidNumericSuffix | LabelUnterminatedCharacterLiteralStart
  | LabelUnterminatedStringLiteralStart | LabelUnknownEscape | LabelInvalidUnicodeEscape
  | LabelUnterminatedBlockCommentStart | LabelExpectedTokenInsertionPoint
  | LabelExpectedExpression | LabelNestingLimitExceeded | LabelUnexpectedEof | LabelNameReference
  | LabelNameDefinition | LabelAlternativePattern | LabelPatternFailure | LabelMatchCoverage
  | LabelCallableAbiDirective | LabelDirectiveArgument | LabelGenericApplication
  | LabelPanicArguments | LabelModuleExport | LabelIncompatibleExpressionType
  | LabelSelectionFailure | LabelTraitFulfillment | LabelUnconstrainedExpression
  | LabelIgnoredExpressionResult | LabelInvalidRangeElementType | LabelRepeatedArrayElement
  | LabelInvalidConstantExpression | LabelInvalidTypeRepresentationContract
  | LabelIncompatiblePropagationBoundary | LabelUnprovenArrayGeneratorCardinality
  | LabelUnsupportedTargetRequirement | LabelRefinementCapacityExceeded
  | LabelCompilerCapacityExceeded | LabelCleanupRecursionLimitExceeded
  | LabelMemoryOperationFailure | LabelTrustedObligationFailure | LabelTrustedCallable
  | LabelDuplicateDeclaration | LabelInvalidDeclaration | LabelBoxStoragePolicy
  | LabelExecutionGuaranteeFailure | LabelExecutionRequirementFailure
  | LabelCallableResultRequired | LabelInvalidProductEntry | LabelInvalidForeignBoundary
  | LabelOverlappingImplementation | LabelImplementationCoherenceLimitExceeded
  | LabelUngroupedImplementationOverload | LabelInvalidOverload | LabelDuplicateOverloadArm
  | LabelConflictingOverload | LabelInvalidProductConfiguration | LabelDuplicateModuleContribution
  | LabelMovedStorageUse | LabelIncompleteLifecycleStorage | LabelDestructorOwnershipOperation
  | LabelUnresolvedFinalization | LabelConflictingBorrowOperation | LabelMissingMutationAuthority
  | LabelMissingStorageOwnership | LabelEscapingStorageDependency | LabelDependencySelection
  | LabelUnavailableAwaitDependency | LabelInvalidAsyncOperation
  | LabelInvalidTrustedCapabilityRequirement | LabelConflictingModuleDeclaration.

#[export] Instance DiagnosticLabelKind_enumerated : Enumerated DiagnosticLabelKind.
Proof.
  refine {|
    variants :=
      [ LabelInvalidCharacter; LabelMisplacedBom; LabelLoneCarriageReturn; LabelNonAsciiIdentifier;
        LabelInvalidIdentifier; LabelInvalidOperatorOrPunctuation; LabelMalformedLiteral;
        LabelInvalidNumericSuffix; LabelUnterminatedCharacterLiteralStart;
        LabelUnterminatedStringLiteralStart; LabelUnknownEscape; LabelInvalidUnicodeEscape;
        LabelUnterminatedBlockCommentStart; LabelExpectedTokenInsertionPoint;
        LabelExpectedExpression; LabelNestingLimitExceeded; LabelUnexpectedEof; LabelNameReference;
        LabelNameDefinition; LabelAlternativePattern; LabelPatternFailure; LabelMatchCoverage;
        LabelCallableAbiDirective; LabelDirectiveArgument; LabelGenericApplication;
        LabelPanicArguments; LabelModuleExport; LabelIncompatibleExpressionType;
        LabelSelectionFailure; LabelTraitFulfillment; LabelUnconstrainedExpression;
        LabelIgnoredExpressionResult; LabelInvalidRangeElementType; LabelRepeatedArrayElement;
        LabelInvalidConstantExpression; LabelInvalidTypeRepresentationContract;
        LabelIncompatiblePropagationBoundary; LabelUnprovenArrayGeneratorCardinality;
        LabelUnsupportedTargetRequirement; LabelRefinementCapacityExceeded;
        LabelCompilerCapacityExceeded; LabelCleanupRecursionLimitExceeded;
        LabelMemoryOperationFailure; LabelTrustedObligationFailure; LabelTrustedCallable;
        LabelDuplicateDeclaration; LabelInvalidDeclaration; LabelBoxStoragePolicy;
        LabelExecutionGuaranteeFailure; LabelExecutionRequirementFailure;
        LabelCallableResultRequired; LabelInvalidProductEntry; LabelInvalidForeignBoundary;
        LabelOverlappingImplementation; LabelImplementationCoherenceLimitExceeded;
        LabelUngroupedImplementationOverload; LabelInvalidOverload; LabelDuplicateOverloadArm;
        LabelConflictingOverload; LabelInvalidProductConfiguration;
        LabelDuplicateModuleContribution; LabelMovedStorageUse; LabelIncompleteLifecycleStorage;
        LabelDestructorOwnershipOperation; LabelUnresolvedFinalization;
        LabelConflictingBorrowOperation; LabelMissingMutationAuthority;
        LabelMissingStorageOwnership; LabelEscapingStorageDependency; LabelDependencySelection;
        LabelUnavailableAwaitDependency; LabelInvalidAsyncOperation;
        LabelInvalidTrustedCapabilityRequirement; LabelConflictingModuleDeclaration ];
    position k :=
      match k with
      | LabelInvalidCharacter => 0 | LabelMisplacedBom => 1 | LabelLoneCarriageReturn => 2
      | LabelNonAsciiIdentifier => 3 | LabelInvalidIdentifier => 4
      | LabelInvalidOperatorOrPunctuation => 5 | LabelMalformedLiteral => 6
      | LabelInvalidNumericSuffix => 7 | LabelUnterminatedCharacterLiteralStart => 8
      | LabelUnterminatedStringLiteralStart => 9 | LabelUnknownEscape => 10
      | LabelInvalidUnicodeEscape => 11 | LabelUnterminatedBlockCommentStart => 12
      | LabelExpectedTokenInsertionPoint => 13 | LabelExpectedExpression => 14
      | LabelNestingLimitExceeded => 15 | LabelUnexpectedEof => 16 | LabelNameReference => 17
      | LabelNameDefinition => 18 | LabelAlternativePattern => 19 | LabelPatternFailure => 20
      | LabelMatchCoverage => 21 | LabelCallableAbiDirective => 22 | LabelDirectiveArgument => 23
      | LabelGenericApplication => 24 | LabelPanicArguments => 25 | LabelModuleExport => 26
      | LabelIncompatibleExpressionType => 27 | LabelSelectionFailure => 28
      | LabelTraitFulfillment => 29 | LabelUnconstrainedExpression => 30
      | LabelIgnoredExpressionResult => 31 | LabelInvalidRangeElementType => 32
      | LabelRepeatedArrayElement => 33 | LabelInvalidConstantExpression => 34
      | LabelInvalidTypeRepresentationContract => 35 | LabelIncompatiblePropagationBoundary => 36
      | LabelUnprovenArrayGeneratorCardinality => 37 | LabelUnsupportedTargetRequirement => 38
      | LabelRefinementCapacityExceeded => 39 | LabelCompilerCapacityExceeded => 40
      | LabelCleanupRecursionLimitExceeded => 41 | LabelMemoryOperationFailure => 42
      | LabelTrustedObligationFailure => 43 | LabelTrustedCallable => 44
      | LabelDuplicateDeclaration => 45 | LabelInvalidDeclaration => 46
      | LabelBoxStoragePolicy => 47 | LabelExecutionGuaranteeFailure => 48
      | LabelExecutionRequirementFailure => 49 | LabelCallableResultRequired => 50
      | LabelInvalidProductEntry => 51 | LabelInvalidForeignBoundary => 52
      | LabelOverlappingImplementation => 53 | LabelImplementationCoherenceLimitExceeded => 54
      | LabelUngroupedImplementationOverload => 55 | LabelInvalidOverload => 56
      | LabelDuplicateOverloadArm => 57 | LabelConflictingOverload => 58
      | LabelInvalidProductConfiguration => 59 | LabelDuplicateModuleContribution => 60
      | LabelMovedStorageUse => 61 | LabelIncompleteLifecycleStorage => 62
      | LabelDestructorOwnershipOperation => 63 | LabelUnresolvedFinalization => 64
      | LabelConflictingBorrowOperation => 65 | LabelMissingMutationAuthority => 66
      | LabelMissingStorageOwnership => 67 | LabelEscapingStorageDependency => 68
      | LabelDependencySelection => 69 | LabelUnavailableAwaitDependency => 70
      | LabelInvalidAsyncOperation => 71 | LabelInvalidTrustedCapabilityRequirement => 72
      | LabelConflictingModuleDeclaration => 73
      end |}.
  intros k. by destruct k.
Defined.

Definition DiagnosticLabelKind_as_str (k : DiagnosticLabelKind) : string :=
  match k with
  | LabelInvalidCharacter => "invalid_character"
  | LabelMisplacedBom => "misplaced_bom"
  | LabelLoneCarriageReturn => "lone_carriage_return"
  | LabelNonAsciiIdentifier => "non_ascii_identifier"
  | LabelInvalidIdentifier => "invalid_identifier"
  | LabelInvalidOperatorOrPunctuation => "invalid_operator_or_punctuation"
  | LabelMalformedLiteral => "malformed_literal"
  | LabelInvalidNumericSuffix => "invalid_numeric_suffix"
  | LabelUnterminatedCharacterLiteralStart => "unterminated_character_literal_start"
  | LabelUnterminatedStringLiteralStart => "unterminated_string_literal_start"
  | LabelUnknownEscape => "unknown_escape"
  | LabelInvalidUnicodeEscape => "invalid_unicode_escape"
  | LabelUnterminatedBlockCommentStart => "unterminated_block_comment_start"
  | LabelExpectedTokenInsertionPoint => "expected_token_insertion_point"
  | LabelExpectedExpression => "expected_expression"
  | LabelNestingLimitExceeded => "nesting_limit_exceeded"
  | LabelUnexpectedEof => "unexpected_eof"
  | LabelNameReference => "name_reference"
  | LabelNameDefinition => "name_definition"
  | LabelAlternativePattern => "alternative_pattern"
  | LabelPatternFailure => "pattern_failure"
  | LabelMatchCoverage => "match_coverage"
  | LabelCallableAbiDirective => "callable_abi_directive"
  | LabelDirectiveArgument => "directive_argument"
  | LabelGenericApplication => "generic_application"
  | LabelPanicArguments => "panic_arguments"
  | LabelModuleExport => "module_export"
  | LabelIncompatibleExpressionType => "incompatible_expression_type"
  | LabelSelectionFailure => "selection_failure"
  | LabelTraitFulfillment => "trait_fulfillment"
  | LabelUnconstrainedExpression => "unconstrained_expression"
  | LabelIgnoredExpressionResult => "ignored_expression_result"
  | LabelInvalidRangeElementType => "invalid_range_element_type"
  | LabelRepeatedArrayElement => "repeated_array_element"
  | LabelInvalidConstantExpression => "invalid_constant_expression"
  | LabelInvalidTypeRepresentationContract => "invalid_type_representation_contract"
  | LabelIncompatiblePropagationBoundary => "incompatible_propagation_boundary"
  | LabelUnprovenArrayGeneratorCardinality => "unproven_array_generator_cardinality"
  | LabelUnsupportedTargetRequirement => "unsupported_target_requirement"
  | LabelRefinementCapacityExceeded => "refinement_capacity_exceeded"
  | LabelCompilerCapacityExceeded => "compiler_capacity_exceeded"
  | LabelCleanupRecursionLimitExceeded => "cleanup_recursion_limit_exceeded"
  | LabelMemoryOperationFailure => "memory_operation_failure"
  | LabelTrustedObligationFailure => "trusted_obligation_failure"
  | LabelTrustedCallable => "trusted_callable"
  | LabelDuplicateDeclaration => "duplicate_declaration"
  | LabelInvalidDeclaration => "invalid_declaration"
  | LabelBoxStoragePolicy => "box_storage_policy"
  | LabelExecutionGuaranteeFailure => "execution_guarantee_failure"
  | LabelExecutionRequirementFailure => "execution_requirement_failure"
  | LabelCallableResultRequired => "callable_result_required"
  | LabelInvalidProductEntry => "invalid_product_entry"
  | LabelInvalidForeignBoundary => "invalid_foreign_boundary"
  | LabelOverlappingImplementation => "overlapping_implementation"
  | LabelImplementationCoherenceLimitExceeded => "implementation_coherence_limit_exceeded"
  | LabelUngroupedImplementationOverload => "ungrouped_implementation_overload"
  | LabelInvalidOverload => "invalid_overload"
  | LabelDuplicateOverloadArm => "duplicate_overload_arm"
  | LabelConflictingOverload => "conflicting_overload"
  | LabelInvalidProductConfiguration => "invalid_product_configuration"
  | LabelDuplicateModuleContribution => "duplicate_module_contribution"
  | LabelMovedStorageUse => "moved_storage_use"
  | LabelIncompleteLifecycleStorage => "incomplete_lifecycle_storage"
  | LabelDestructorOwnershipOperation => "destructor_ownership_operation"
  | LabelUnresolvedFinalization => "unresolved_finalization"
  | LabelConflictingBorrowOperation => "conflicting_borrow_operation"
  | LabelMissingMutationAuthority => "missing_mutation_authority"
  | LabelMissingStorageOwnership => "missing_storage_ownership"
  | LabelEscapingStorageDependency => "escaping_storage_dependency"
  | LabelDependencySelection => "dependency_selection"
  | LabelUnavailableAwaitDependency => "unavailable_await_dependency"
  | LabelInvalidAsyncOperation => "invalid_async_operation"
  | LabelInvalidTrustedCapabilityRequirement => "invalid_trusted_capability_requirement"
  | LabelConflictingModuleDeclaration => "conflicting_module_declaration"
  end%string.

Inductive DiagnosticNoteKind :=
  | NoteDocumentFailureLocation | NoteRebuildRetainedProduct | NoteSourceFileMustBeReadable
  | NoteSourceMustBeUtf8 | NoteSourceMustMatchFormatterOutput | NoteSourceIdsAreCompact
  | NoteSourceTextOffsetsAreCompact | NoteSourceInputRequired | NoteSourceInputNeedsStableIdentity
  | NoteWorkerBudgetMustBePositive | NotePackageIdentityMustBeValid
  | NotePackageVersionMustBeValid | NoteCharacterNotAccepted | NoteBomOnlyAllowedAtStart
  | NoteLineBreaksMustBeLfOrCrlf | NoteIdentifiersMustBeAscii | NoteIdentifierSpellingMustBeValid
  | NoteOnlyImaginaryNumericSuffix | NoteCharacterLiteralMustContainOneScalar
  | NoteCharacterLiteralNeedsTerminator | NoteStringLiteralNeedsTerminator | NoteEscapeMustBeKnown
  | NoteUnicodeEscapeMustBeScalar | NoteBlockCommentNeedsTerminator
  | NoteCallableAbiDirectiveMustNameSupportedAbi | NoteDirectiveArgumentMustHaveCompleteForm
  | NoteGenericArgumentCountMustMatch | NotePanicRequiresOneMessage
  | NotePanicMessageRequiresPositionalArgument | NoteModuleDependencyRequiresUsing
  | NoteGenericArgumentRequiresType | NoteGenericApplicationRequiresDeclaredName
  | NoteTypeInferenceNeedsConstraint | NoteExplicitDiscardAcknowledgesResult
  | NoteConstantExpressionMustBeEvaluable | NoteConstantEvaluationMustFitLimits
  | NoteSimplifyRecursiveCleanup | NoteTypeLayoutDirectiveForms | NoteUnionTagDirectiveForms
  | NoteCopyContractRequirements | NoteConstructArrayElementsIndividually
  | NoteStoredTypeRequiresIndirection | NotePropagationBoundaryMustMatch
  | NoteArrayGeneratorMustYieldOncePerElement | NoteCallbackStateRequirements
  | NoteRefutablePatternRequiresConditionalContext | NotePatternTestMustNotBind
  | NoteSelectionMustBeDisambiguated | NoteInterfaceDependencyContext | NoteLinkPlanContext
  | NoteExternalToolExitRequiresCorrection | NoteRuntimeArtifactMustBeUsable
  | NoteStandardLibraryDependencyRequired | NoteAwaitDependencyUnavailable
  | NoteEscapingStorageDependencyResolution | NoteAsynchronousCallableRequired
  | NoteExecutableEntrypointRequired | NoteEntrypointDirectiveRequiresExecutableProduct
  | NoteProductEntryRequirements | NoteTestDirectiveRequirements | NoteUniqueTestIdentityRequired
  | NotePublicDependencyRequired | NoteReturnRequiredResult | NoteResolveFinalization
  | NoteTrustedObligationEvidenceRequired | NoteExecutionRequirementEvidenceRequired
  | NoteConstantCallArgumentsMustSatisfyRequirements | NoteTrustedWitnessTransferRequired.

#[export] Instance DiagnosticNoteKind_enumerated : Enumerated DiagnosticNoteKind.
Proof.
  refine {|
    variants :=
      [ NoteDocumentFailureLocation; NoteRebuildRetainedProduct; NoteSourceFileMustBeReadable;
        NoteSourceMustBeUtf8; NoteSourceMustMatchFormatterOutput; NoteSourceIdsAreCompact;
        NoteSourceTextOffsetsAreCompact; NoteSourceInputRequired;
        NoteSourceInputNeedsStableIdentity; NoteWorkerBudgetMustBePositive;
        NotePackageIdentityMustBeValid; NotePackageVersionMustBeValid; NoteCharacterNotAccepted;
        NoteBomOnlyAllowedAtStart; NoteLineBreaksMustBeLfOrCrlf; NoteIdentifiersMustBeAscii;
        NoteIdentifierSpellingMustBeValid; NoteOnlyImaginaryNumericSuffix;
        NoteCharacterLiteralMustContainOneScalar; NoteCharacterLiteralNeedsTerminator;
        NoteStringLiteralNeedsTerminator; NoteEscapeMustBeKnown; NoteUnicodeEscapeMustBeScalar;
        NoteBlockCommentNeedsTerminator; NoteCallableAbiDirectiveMustNameSupportedAbi;
        NoteDirectiveArgumentMustHaveCompleteForm; NoteGenericArgumentCountMustMatch;
        NotePanicRequiresOneMessage; NotePanicMessageRequiresPositionalArgument;
        NoteModuleDependencyRequiresUsing; NoteGenericArgumentRequiresType;
        NoteGenericApplicationRequiresDeclaredName; NoteTypeInferenceNeedsConstraint;
        NoteExplicitDiscardAcknowledgesResult; NoteConstantExpressionMustBeEvaluable;
        NoteConstantEvaluationMustFitLimits; NoteSimplifyRecursiveCleanup;
        NoteTypeLayoutDirectiveForms; NoteUnionTagDirectiveForms; NoteCopyContractRequirements;
        NoteConstructArrayElementsIndividually; NoteStoredTypeRequiresIndirection;
        NotePropagationBoundaryMustMatch; NoteArrayGeneratorMustYieldOncePerElement;
        NoteCallbackStateRequirements; NoteRefutablePatternRequiresConditionalContext;
        NotePatternTestMustNotBind; NoteSelectionMustBeDisambiguated;
        NoteInterfaceDependencyContext; NoteLinkPlanContext;
        NoteExternalToolExitRequiresCorrection; NoteRuntimeArtifactMustBeUsable;
        NoteStandardLibraryDependencyRequired; NoteAwaitDependencyUnavailable;
        NoteEscapingStorageDependencyResolution; NoteAsynchronousCallableRequired;
        NoteExecutableEntrypointRequired; NoteEntrypointDirectiveRequiresExecutableProduct;
        NoteProductEntryRequirements; NoteTestDirectiveRequirements;
        NoteUniqueTestIdentityRequired; NotePublicDependencyRequired; NoteReturnRequiredResult;
        NoteResolveFinalization; NoteTrustedObligationEvidenceRequired;
        NoteExecutionRequirementEvidenceRequired; NoteConstantCallArgumentsMustSatisfyRequirements;
        NoteTrustedWitnessTransferRequired ];
    position k :=
      match k with
      | NoteDocumentFailureLocation => 0 | NoteRebuildRetainedProduct => 1
      | NoteSourceFileMustBeReadable => 2 | NoteSourceMustBeUtf8 => 3
      | NoteSourceMustMatchFormatterOutput => 4 | NoteSourceIdsAreCompact => 5
      | NoteSourceTextOffsetsAreCompact => 6 | NoteSourceInputRequired => 7
      | NoteSourceInputNeedsStableIdentity => 8 | NoteWorkerBudgetMustBePositive => 9
      | NotePackageIdentityMustBeValid => 10 | NotePackageVersionMustBeValid => 11
      | NoteCharacterNotAccepted => 12 | NoteBomOnlyAllowedAtStart => 13
      | NoteLineBreaksMustBeLfOrCrlf => 14 | NoteIdentifiersMustBeAscii => 15
      | NoteIdentifierSpellingMustBeValid => 16 | NoteOnlyImaginaryNumericSuffix => 17
      | NoteCharacterLiteralMustContainOneScalar => 18 | NoteCharacterLiteralNeedsTerminator => 19
      | NoteStringLiteralNeedsTerminator => 20 | NoteEscapeMustBeKnown => 21
      | NoteUnicodeEscapeMustBeScalar => 22 | NoteBlockCommentNeedsTerminator => 23
      | NoteCallableAbiDirectiveMustNameSupportedAbi => 24
      | NoteDirectiveArgumentMustHaveCompleteForm => 25 | NoteGenericArgumentCountMustMatch => 26
      | NotePanicRequiresOneMessage => 27 | NotePanicMessageRequiresPositionalArgument => 28
      | NoteModuleDependencyRequiresUsing => 29 | NoteGenericArgumentRequiresType => 30
      | NoteGenericApplicationRequiresDeclaredName => 31 | NoteTypeInferenceNeedsConstraint => 32
      | NoteExplicitDiscardAcknowledgesResult => 33 | NoteConstantExpressionMustBeEvaluable => 34
      | NoteConstantEvaluationMustFitLimits => 35 | NoteSimplifyRecursiveCleanup => 36
      | NoteTypeLayoutDirectiveForms => 37 | NoteUnionTagDirectiveForms => 38
      | NoteCopyContractRequirements => 39 | NoteConstructArrayElementsIndividually => 40
      | NoteStoredTypeRequiresIndirection => 41 | NotePropagationBoundaryMustMatch => 42
      | NoteArrayGeneratorMustYieldOncePerElement => 43 | NoteCallbackStateRequirements => 44
      | NoteRefutablePatternRequiresConditionalContext => 45 | NotePatternTestMustNotBind => 46
      | NoteSelectionMustBeDisambiguated => 47 | NoteInterfaceDependencyContext => 48
      | NoteLinkPlanContext => 49 | NoteExternalToolExitRequiresCorrection => 50
      | NoteRuntimeArtifactMustBeUsable => 51 | NoteStandardLibraryDependencyRequired => 52
      | NoteAwaitDependencyUnavailable => 53 | NoteEscapingStorageDependencyResolution => 54
      | NoteAsynchronousCallableRequired => 55 | NoteExecutableEntrypointRequired => 56
      | NoteEntrypointDirectiveRequiresExecutableProduct => 57
      | NoteProductEntryRequirements => 58 | NoteTestDirectiveRequirements => 59
      | NoteUniqueTestIdentityRequired => 60 | NotePublicDependencyRequired => 61
      | NoteReturnRequiredResult => 62 | NoteResolveFinalization => 63
      | NoteTrustedObligationEvidenceRequired => 64
      | NoteExecutionRequirementEvidenceRequired => 65
      | NoteConstantCallArgumentsMustSatisfyRequirements => 66
      | NoteTrustedWitnessTransferRequired => 67
      end |}.
  intros k. by destruct k.
Defined.

Definition DiagnosticNoteKind_as_str (k : DiagnosticNoteKind) : string :=
  match k with
  | NoteDocumentFailureLocation => "document_failure_location"
  | NoteRebuildRetainedProduct => "rebuild_retained_product"
  | NoteSourceFileMustBeReadable => "source_file_must_be_readable"
  | NoteSourceMustBeUtf8 => "source_must_be_utf8"
  | NoteSourceMustMatchFormatterOutput => "source_must_match_formatter_output"
  | NoteSourceIdsAreCompact => "source_ids_are_compact"
  | NoteSourceTextOffsetsAreCompact => "source_text_offsets_are_compact"
  | NoteSourceInputRequired => "source_input_required"
  | NoteSourceInputNeedsStableIdentity => "source_input_needs_stable_identity"
  | NoteWorkerBudgetMustBePositive => "worker_budget_must_be_positive"
  | NotePackageIdentityMustBeValid => "package_identity_must_be_valid"
  | NotePackageVersionMustBeValid => "package_version_must_be_valid"
  | NoteCharacterNotAccepted => "character_not_accepted"
  | NoteBomOnlyAllowedAtStart => "bom_only_allowed_at_start"
  | NoteLineBreaksMustBeLfOrCrlf => "line_breaks_must_be_lf_or_crlf"
  | NoteIdentifiersMustBeAscii => "identifiers_must_be_ascii"
  | NoteIdentifierSpellingMustBeValid => "identifier_spelling_must_be_valid"
  | NoteOnlyImaginaryNumericSuffix => "only_imaginary_numeric_suffix"
  | NoteCharacterLiteralMustContainOneScalar => "character_literal_must_contain_one_scalar"
  | NoteCharacterLiteralNeedsTerminator => "character_literal_needs_terminator"
  | NoteStringLiteralNeedsTerminator => "string_literal_needs_terminator"
  | NoteEscapeMustBeKnown => "escape_must_be_known"
  | NoteUnicodeEscapeMustBeScalar => "unicode_escape_must_be_scalar"
  | NoteBlockCommentNeedsTerminator => "block_comment_needs_terminator"
  | NoteCallableAbiDirectiveMustNameSupportedAbi => "callable_abi_directive_must_name_supported_abi"
  | NoteDirectiveArgumentMustHaveCompleteForm => "directive_argument_must_have_complete_form"
  | NoteGenericArgumentCountMustMatch => "generic_argument_count_must_match"
  | NotePanicRequiresOneMessage => "panic_requires_one_message"
  | NotePanicMessageRequiresPositionalArgument => "panic_message_requires_positional_argument"
  | NoteModuleDependencyRequiresUsing => "module_dependency_requires_using"
  | NoteGenericArgumentRequiresType => "generic_argument_requires_type"
  | NoteGenericApplicationRequiresDeclaredName => "generic_application_requires_declared_name"
  | NoteTypeInferenceNeedsConstraint => "type_inference_needs_constraint"
  | NoteExplicitDiscardAcknowledgesResult => "explicit_discard_acknowledges_result"
  | NoteConstantExpressionMustBeEvaluable => "constant_expression_must_be_evaluable"
  | NoteConstantEvaluationMustFitLimits => "constant_evaluation_must_fit_limits"
  | NoteSimplifyRecursiveCleanup => "simplify_recursive_cleanup"
  | NoteTypeLayoutDirectiveForms => "type_layout_directive_forms"
  | NoteUnionTagDirectiveForms => "union_tag_directive_forms"
  | NoteCopyContractRequirements => "copy_contract_requirements"
  | NoteConstructArrayElementsIndividually => "construct_array_elements_individually"
  | NoteStoredTypeRequiresIndirection => "stored_type_requires_indirection"
  | NotePropagationBoundaryMustMatch => "propagation_boundary_must_match"
  | NoteArrayGeneratorMustYieldOncePerElement => "array_generator_must_yield_once_per_element"
  | NoteCallbackStateRequirements => "callback_state_requirements"
  | NoteRefutablePatternRequiresConditionalContext => "refutable_pattern_requires_conditional_context"
  | NotePatternTestMustNotBind => "pattern_test_must_not_bind"
  | NoteSelectionMustBeDisambiguated => "selection_must_be_disambiguated"
  | NoteInterfaceDependencyContext => "interface_dependency_context"
  | NoteLinkPlanContext => "link_plan_context"
  | NoteExternalToolExitRequiresCorrection => "external_tool_exit_requires_correction"
  | NoteRuntimeArtifactMustBeUsable => "runtime_artifact_must_be_usable"
  | NoteStandardLibraryDependencyRequired => "standard_library_dependency_required"
  | NoteAwaitDependencyUnavailable => "await_dependency_unavailable"
  | NoteEscapingStorageDependencyResolution => "escaping_storage_dependency_resolution"
  | NoteAsynchronousCallableRequired => "asynchronous_callable_required"
  | NoteExecutableEntrypointRequired => "executable_entrypoint_required"
  | NoteEntrypointDirectiveRequiresExecutableProduct => "entrypoint_directive_requires_executable_product"
  | NoteProductEntryRequirements => "product_entry_requirements"
  | NoteTestDirectiveRequirements => "test_directive_requirements"
  | NoteUniqueTestIdentityRequired => "unique_test_identity_required"
  | NotePublicDependencyRequired => "public_dependency_required"
  | NoteReturnRequiredResult => "return_required_result"
  | NoteResolveFinalization => "resolve_finalization"
  | NoteTrustedObligationEvidenceRequired => "trusted_obligation_evidence_required"
  | NoteExecutionRequirementEvidenceRequired => "execution_requirement_evidence_required"
  | NoteConstantCallArgumentsMustSatisfyRequirements => "constant_call_arguments_must_satisfy_requirements"
  | NoteTrustedWitnessTransferRequired => "trusted_witness_transfer_required"
  end%string.

Inductive DiagnosticRelatedLocationKind :=
  | RelatedFirstDeclaration | RelatedFirstDirective | RelatedConflictingDeclaration
  | RelatedRequirementOrigin | RelatedBorrowOrigin | RelatedDependencyStorageOrigin
  | RelatedMoveOrigin | RelatedAllocationOrigin | RelatedInitializationOrigin
  | RelatedDeallocationOrigin | RelatedConflictingDependency | RelatedRepresentationMember
  | RelatedNonCopyableMember | RelatedRepresentationCycleLocation | RelatedCoveredByPattern
  | RelatedSelectionCandidate.

#[export] Instance DiagnosticRelatedLocationKind_enumerated : Enumerated DiagnosticRelatedLocationKind.
Proof.
  refine {|
    variants :=
      [ RelatedFirstDeclaration; RelatedFirstDirective; RelatedConflictingDeclaration;
        RelatedRequirementOrigin; RelatedBorrowOrigin; RelatedDependencyStorageOrigin;
        RelatedMoveOrigin; RelatedAllocationOrigin; RelatedInitializationOrigin;
        RelatedDeallocationOrigin; RelatedConflictingDependency; RelatedRepresentationMember;
        RelatedNonCopyableMember; RelatedRepresentationCycleLocation; RelatedCoveredByPattern;
        RelatedSelectionCandidate ];
    position k :=
      match k with
      | RelatedFirstDeclaration => 0 | RelatedFirstDirective => 1
      | RelatedConflictingDeclaration => 2 | RelatedRequirementOrigin => 3
      | RelatedBorrowOrigin => 4 | RelatedDependencyStorageOrigin => 5 | RelatedMoveOrigin => 6
      | RelatedAllocationOrigin => 7 | RelatedInitializationOrigin => 8
      | RelatedDeallocationOrigin => 9 | RelatedConflictingDependency => 10
      | RelatedRepresentationMember => 11 | RelatedNonCopyableMember => 12
      | RelatedRepresentationCycleLocation => 13 | RelatedCoveredByPattern => 14
      | RelatedSelectionCandidate => 15
      end |}.
  intros k. by destruct k.
Defined.

Definition DiagnosticRelatedLocationKind_as_str (k : DiagnosticRelatedLocationKind) : string :=
  match k with
  | RelatedFirstDeclaration => "first_declaration"
  | RelatedFirstDirective => "first_directive"
  | RelatedConflictingDeclaration => "conflicting_declaration"
  | RelatedRequirementOrigin => "requirement_origin"
  | RelatedBorrowOrigin => "borrow_origin"
  | RelatedDependencyStorageOrigin => "dependency_storage_origin"
  | RelatedMoveOrigin => "move_origin"
  | RelatedAllocationOrigin => "allocation_origin"
  | RelatedInitializationOrigin => "initialization_origin"
  | RelatedDeallocationOrigin => "deallocation_origin"
  | RelatedConflictingDependency => "conflicting_dependency"
  | RelatedRepresentationMember => "representation_member"
  | RelatedNonCopyableMember => "non_copyable_member"
  | RelatedRepresentationCycleLocation => "representation_cycle_location"
  | RelatedCoveredByPattern => "covered_by_pattern"
  | RelatedSelectionCandidate => "selection_candidate"
  end%string.

Inductive DiagnosticArgName :=
  | ArgActualCount | ArgExpectedCount | ArgActualByteCount | ArgActualArtifactDigest
  | ArgArtifactPath | ArgArtifactKind | ArgArtifactOrdinal | ArgTargetRepresentation
  | ArgCallableAbi | ArgAlignmentKind | ArgRequiredAlignment | ArgMaximumAlignment
  | ArgActualRevision | ArgActualTargetPredicateValueKind | ArgActualRuntimeAbi
  | ArgActualTargetIdentity | ArgActualType | ArgByte | ArgByteCount | ArgCharacter
  | ArgConstructStart | ArgDeclarationName | ArgTraitMemberName | ArgReferencedName
  | ArgCodegenBackendIdentity | ArgCodegenBackendReport | ArgLinkerDriverIdentity
  | ArgExpectedNameKind | ArgExpectedByteCount | ArgExpectedArtifactDigest | ArgActualSyntaxKind
  | ArgExpectedSyntaxKind | ArgModifierKind | ArgConflictingModifierKind | ArgDirectiveKind
  | ArgConflictingDirectiveKind | ArgExpectedPackageIdentity | ArgActualPackageIdentity
  | ArgExpectedProductIdentity | ArgActualProductIdentity | ArgTargetTriple
  | ArgExpectedTargetTriple | ArgActualTargetTriple | ArgNativeProductFailureKind
  | ArgEmissionFailure | ArgEmissionArtifactOperation | ArgStorageOperation
  | ArgRetainedGenerationProblem | ArgLinkInputOrdinal | ArgLinkOutputOrdinal
  | ArgConflictingLinkOutputOrdinal | ArgActualLinkInputKind | ArgActualLinkedArtifactKind
  | ArgActualLinkedProductKind | ArgActualProductKind | ArgActualDebugInformationMode
  | ArgActualDebugOutputMode | ArgActualAssemblySyntax | ArgArtifactRequirement
  | ArgExpectedVisibility | ArgActualVisibility | ArgExpectedModuleTrust | ArgActualModuleTrust
  | ArgFilePath | ArgInputIndex | ArgInterfaceLimit | ArgInterfaceRecordIndex
  | ArgExpectedInterfaceRecordIndex | ArgActualInterfaceRecordIndex
  | ArgRelatedInterfaceRecordIndex | ArgInterfaceDependencyIndex | ArgActualSymbolKind
  | ArgExpectedSymbolKind | ArgInterfaceSymbolGraphProblem | ArgInterfaceSymbolIdentity
  | ArgInterfaceSemanticProblem | ArgInterfaceValidationFailure | ArgProjectSelectionProblem
  | ArgProjectCommandFailure | ArgProjectGeneratorFailure | ArgProjectManifestField
  | ArgProjectDependencyCycleMember | ArgProjectPath | ArgUnsupportedEmissionReason
  | ArgInterfaceSection | ArgIoErrorKind | ArgExternalToolOperation | ArgExternalToolFailureKind
  | ArgExternalToolExit | ArgLinkRequirement | ArgLinkOptimizationReportProblem
  | ArgDocumentParseKind | ArgStandardLibraryManifestProblem | ArgDependencySubjectKind
  | ArgDependencyRequirementKind | ArgDocumentLine | ArgDocumentColumn | ArgOutputSink
  | ArgMaximumCount | ArgExpectedRevision | ArgExpectedTargetPredicateValueKind
  | ArgExpectedRuntimeAbi | ArgExpectedTargetIdentity | ArgRuntimeArtifactProblem
  | ArgExpectedType | ArgSourceName | ArgSourceCount | ArgSelectionKind | ArgSelectionCandidates
  | ArgSelectionRejections | ArgNativeLinkDirectiveProblem | ArgNativeSymbolDirectiveProblem
  | ArgPlatformServiceSignatureProblem | ArgTraitFulfillmentMismatch
  | ArgImplementationOverloadProblem | ArgCallableOverloadProblem | ArgExpressionCategory
  | ArgConstantOperation | ArgLayoutProblem | ArgUnionTagProblem | ArgCopyContractProblem
  | ArgStoredTypeProblem | ArgPropagationProblem | ArgArrayGeneratorCardinalityProblem
  | ArgRefinementCapacity | ArgMemoryOperation | ArgCallbackStateProblem | ArgStorageAccess
  | ArgPatternCoverage | ArgPatternUnreachability | ArgSourceInputKind | ArgSourceInput
  | ArgTextOffset | ArgTokenText | ArgUri | ArgSourceSpan | ArgWorkerCount.

#[export] Instance DiagnosticArgName_enumerated : Enumerated DiagnosticArgName.
Proof.
  refine {|
    variants :=
      [ ArgActualCount; ArgExpectedCount; ArgActualByteCount; ArgActualArtifactDigest;
        ArgArtifactPath; ArgArtifactKind; ArgArtifactOrdinal; ArgTargetRepresentation;
        ArgCallableAbi; ArgAlignmentKind; ArgRequiredAlignment; ArgMaximumAlignment;
        ArgActualRevision; ArgActualTargetPredicateValueKind; ArgActualRuntimeAbi;
        ArgActualTargetIdentity; ArgActualType; ArgByte; ArgByteCount; ArgCharacter;
        ArgConstructStart; ArgDeclarationName; ArgTraitMemberName; ArgReferencedName;
        ArgCodegenBackendIdentity; ArgCodegenBackendReport; ArgLinkerDriverIdentity;
        ArgExpectedNameKind; ArgExpectedByteCount; ArgExpectedArtifactDigest; ArgActualSyntaxKind;
        ArgExpectedSyntaxKind; ArgModifierKind; ArgConflictingModifierKind; ArgDirectiveKind;
        ArgConflictingDirectiveKind; ArgExpectedPackageIdentity; ArgActualPackageIdentity;
        ArgExpectedProductIdentity; ArgActualProductIdentity; ArgTargetTriple;
        ArgExpectedTargetTriple; ArgActualTargetTriple; ArgNativeProductFailureKind;
        ArgEmissionFailure; ArgEmissionArtifactOperation; ArgStorageOperation;
        ArgRetainedGenerationProblem; ArgLinkInputOrdinal; ArgLinkOutputOrdinal;
        ArgConflictingLinkOutputOrdinal; ArgActualLinkInputKind; ArgActualLinkedArtifactKind;
        ArgActualLinkedProductKind; ArgActualProductKind; ArgActualDebugInformationMode;
        ArgActualDebugOutputMode; ArgActualAssemblySyntax; ArgArtifactRequirement;
        ArgExpectedVisibility; ArgActualVisibility; ArgExpectedModuleTrust; ArgActualModuleTrust;
        ArgFilePath; ArgInputIndex; ArgInterfaceLimit; ArgInterfaceRecordIndex;
        ArgExpectedInterfaceRecordIndex; ArgActualInterfaceRecordIndex;
        ArgRelatedInterfaceRecordIndex; ArgInterfaceDependencyIndex; ArgActualSymbolKind;
        ArgExpectedSymbolKind; ArgInterfaceSymbolGraphProblem; ArgInterfaceSymbolIdentity;
        ArgInterfaceSemanticProblem; ArgInterfaceValidationFailure; ArgProjectSelectionProblem;
        ArgProjectCommandFailure; ArgProjectGeneratorFailure; ArgProjectManifestField;
        ArgProjectDependencyCycleMember; ArgProjectPath; ArgUnsupportedEmissionReason;
        ArgInterfaceSection; ArgIoErrorKind; ArgExternalToolOperation; ArgExternalToolFailureKind;
        ArgExternalToolExit; ArgLinkRequirement; ArgLinkOptimizationReportProblem;
        ArgDocumentParseKind; ArgStandardLibraryManifestProblem; ArgDependencySubjectKind;
        ArgDependencyRequirementKind; ArgDocumentLine; ArgDocumentColumn; ArgOutputSink;
        ArgMaximumCount; ArgExpectedRevision; ArgExpectedTargetPredicateValueKind;
        ArgExpectedRuntimeAbi; ArgExpectedTargetIdentity; ArgRuntimeArtifactProblem;
        ArgExpectedType; ArgSourceName; ArgSourceCount; ArgSelectionKind; ArgSelectionCandidates;
        ArgSelectionRejections; ArgNativeLinkDirectiveProblem; ArgNativeSymbolDirectiveProblem;
        ArgPlatformServiceSignatureProblem; ArgTraitFulfillmentMismatch;
        ArgImplementationOverloadProblem; ArgCallableOverloadProblem; ArgExpressionCategory;
        ArgConstantOperation; ArgLayoutProblem; ArgUnionTagProblem; ArgCopyContractProblem;
        ArgStoredTypeProblem; ArgPropagationProblem; ArgArrayGeneratorCardinalityProblem;
        ArgRefinementCapacity; ArgMemoryOperation; ArgCallbackStateProblem; ArgStorageAccess;
        ArgPatternCoverage; ArgPatternUnreachability; ArgSourceInputKind; ArgSourceInput;
        ArgTextOffset; ArgTokenText; ArgUri; ArgSourceSpan; ArgWorkerCount ];
    position k :=
      match k with
      | ArgActualCount => 0 | ArgExpectedCount => 1 | ArgActualByteCount => 2
      | ArgActualArtifactDigest => 3 | ArgArtifactPath => 4 | ArgArtifactKind => 5
      | ArgArtifactOrdinal => 6 | ArgTargetRepresentation => 7 | ArgCallableAbi => 8
      | ArgAlignmentKind => 9 | ArgRequiredAlignment => 10 | ArgMaximumAlignment => 11
      | ArgActualRevision => 12 | ArgActualTargetPredicateValueKind => 13
      | ArgActualRuntimeAbi => 14 | ArgActualTargetIdentity => 15 | ArgActualType => 16
      | ArgByte => 17 | ArgByteCount => 18 | ArgCharacter => 19 | ArgConstructStart => 20
      | ArgDeclarationName => 21 | ArgTraitMemberName => 22 | ArgReferencedName => 23
      | ArgCodegenBackendIdentity => 24 | ArgCodegenBackendReport => 25
      | ArgLinkerDriverIdentity => 26 | ArgExpectedNameKind => 27 | ArgExpectedByteCount => 28
      | ArgExpectedArtifactDigest => 29 | ArgActualSyntaxKind => 30 | ArgExpectedSyntaxKind => 31
      | ArgModifierKind => 32 | ArgConflictingModifierKind => 33 | ArgDirectiveKind => 34
      | ArgConflictingDirectiveKind => 35 | ArgExpectedPackageIdentity => 36
      | ArgActualPackageIdentity => 37 | ArgExpectedProductIdentity => 38
      | ArgActualProductIdentity => 39 | ArgTargetTriple => 40 | ArgExpectedTargetTriple => 41
      | ArgActualTargetTriple => 42 | ArgNativeProductFailureKind => 43 | ArgEmissionFailure => 44
      | ArgEmissionArtifactOperation => 45 | ArgStorageOperation => 46
      | ArgRetainedGenerationProblem => 47 | ArgLinkInputOrdinal => 48
      | ArgLinkOutputOrdinal => 49 | ArgConflictingLinkOutputOrdinal => 50
      | ArgActualLinkInputKind => 51 | ArgActualLinkedArtifactKind => 52
      | ArgActualLinkedProductKind => 53 | ArgActualProductKind => 54
      | ArgActualDebugInformationMode => 55 | ArgActualDebugOutputMode => 56
      | ArgActualAssemblySyntax => 57 | ArgArtifactRequirement => 58 | ArgExpectedVisibility => 59
      | ArgActualVisibility => 60 | ArgExpectedModuleTrust => 61 | ArgActualModuleTrust => 62
      | ArgFilePath => 63 | ArgInputIndex => 64 | ArgInterfaceLimit => 65
      | ArgInterfaceRecordIndex => 66 | ArgExpectedInterfaceRecordIndex => 67
      | ArgActualInterfaceRecordIndex => 68 | ArgRelatedInterfaceRecordIndex => 69
      | ArgInterfaceDependencyIndex => 70 | ArgActualSymbolKind => 71
      | ArgExpectedSymbolKind => 72 | ArgInterfaceSymbolGraphProblem => 73
      | ArgInterfaceSymbolIdentity => 74 | ArgInterfaceSemanticProblem => 75
      | ArgInterfaceValidationFailure => 76 | ArgProjectSelectionProblem => 77
      | ArgProjectCommandFailure => 78 | ArgProjectGeneratorFailure => 79
      | ArgProjectManifestField => 80 | ArgProjectDependencyCycleMember => 81
      | ArgProjectPath => 82 | ArgUnsupportedEmissionReason => 83 | ArgInterfaceSection => 84
      | ArgIoErrorKind => 85 | ArgExternalToolOperation => 86 | ArgExternalToolFailureKind => 87
      | ArgExternalToolExit => 88 | ArgLinkRequirement => 89
      | ArgLinkOptimizationReportProblem => 90 | ArgDocumentParseKind => 91
      | ArgStandardLibraryManifestProblem => 92 | ArgDependencySubjectKind => 93
      | ArgDependencyRequirementKind => 94 | ArgDocumentLine => 95 | ArgDocumentColumn => 96
      | ArgOutputSink => 97 | ArgMaximumCount => 98 | ArgExpectedRevision => 99
      | ArgExpectedTargetPredicateValueKind => 100 | ArgExpectedRuntimeAbi => 101
      | ArgExpectedTargetIdentity => 102 | ArgRuntimeArtifactProblem => 103
      | ArgExpectedType => 104 | ArgSourceName => 105 | ArgSourceCount => 106
      | ArgSelectionKind => 107 | ArgSelectionCandidates => 108 | ArgSelectionRejections => 109
      | ArgNativeLinkDirectiveProblem => 110 | ArgNativeSymbolDirectiveProblem => 111
      | ArgPlatformServiceSignatureProblem => 112 | ArgTraitFulfillmentMismatch => 113
      | ArgImplementationOverloadProblem => 114 | ArgCallableOverloadProblem => 115
      | ArgExpressionCategory => 116 | ArgConstantOperation => 117 | ArgLayoutProblem => 118
      | ArgUnionTagProblem => 119 | ArgCopyContractProblem => 120 | ArgStoredTypeProblem => 121
      | ArgPropagationProblem => 122 | ArgArrayGeneratorCardinalityProblem => 123
      | ArgRefinementCapacity => 124 | ArgMemoryOperation => 125 | ArgCallbackStateProblem => 126
      | ArgStorageAccess => 127 | ArgPatternCoverage => 128 | ArgPatternUnreachability => 129
      | ArgSourceInputKind => 130 | ArgSourceInput => 131 | ArgTextOffset => 132
      | ArgTokenText => 133 | ArgUri => 134 | ArgSourceSpan => 135 | ArgWorkerCount => 136
      end |}.
  intros k. by destruct k.
Defined.

Definition DiagnosticArgName_as_str (k : DiagnosticArgName) : string :=
  match k with
  | ArgActualCount => "actual_count"
  | ArgExpectedCount => "expected_count"
  | ArgActualByteCount => "actual_byte_count"
  | ArgActualArtifactDigest => "actual_artifact_digest"
  | ArgArtifactPath => "artifact_path"
  | ArgArtifactKind => "artifact_kind"
  | ArgArtifactOrdinal => "artifact_ordinal"
  | ArgTargetRepresentation => "target_representation"
  | ArgCallableAbi => "callable_abi"
  | ArgAlignmentKind => "alignment_kind"
  | ArgRequiredAlignment => "required_alignment"
  | ArgMaximumAlignment => "maximum_alignment"
  | ArgActualRevision => "actual_revision"
  | ArgActualTargetPredicateValueKind => "actual_target_predicate_value_kind"
  | ArgActualRuntimeAbi => "actual_runtime_abi"
  | ArgActualTargetIdentity => "actual_target_identity"
  | ArgActualType => "actual_type"
  | ArgByte => "byte"
  | ArgByteCount => "byte_count"
  | ArgCharacter => "character"
  | ArgConstructStart => "construct_start"
  | ArgDeclarationName => "declaration_name"
  | ArgTraitMemberName => "trait_member_name"
  | ArgReferencedName => "referenced_name"
  | ArgCodegenBackendIdentity => "codegen_backend_identity"
  | ArgCodegenBackendReport => "codegen_backend_report"
  | ArgLinkerDriverIdentity => "linker_driver_identity"
  | ArgExpectedNameKind => "expected_name_kind"
  | ArgExpectedByteCount => "expected_byte_count"
  | ArgExpectedArtifactDigest => "expected_artifact_digest"
  | ArgActualSyntaxKind => "actual_syntax_kind"
  | ArgExpectedSyntaxKind => "expected_syntax_kind"
  | ArgModifierKind => "modifier_kind"
  | ArgConflictingModifierKind => "conflicting_modifier_kind"
  | ArgDirectiveKind => "directive_kind"
  | ArgConflictingDirectiveKind => "conflicting_directive_kind"
  | ArgExpectedPackageIdentity => "expected_package_identity"
  | ArgActualPackageIdentity => "actual_package_identity"
  | ArgExpectedProductIdentity => "expected_product_identity"
  | ArgActualProductIdentity => "actual_product_identity"
  | ArgTargetTriple => "target_triple"
  | ArgExpectedTargetTriple => "expected_target_triple"
  | ArgActualTargetTriple => "actual_target_triple"
  | ArgNativeProductFailureKind => "native_product_failure_kind"
  | ArgEmissionFailure => "emission_failure"
  | ArgEmissionArtifactOperation => "emission_artifact_operation"
  | ArgStorageOperation => "storage_operation"
  | ArgRetainedGenerationProblem => "retained_generation_problem"
  | ArgLinkInputOrdinal => "link_input_ordinal"
  | ArgLinkOutputOrdinal => "link_output_ordinal"
  | ArgConflictingLinkOutputOrdinal => "conflicting_link_output_ordinal"
  | ArgActualLinkInputKind => "actual_link_input_kind"
  | ArgActualLinkedArtifactKind => "actual_linked_artifact_kind"
  | ArgActualLinkedProductKind => "actual_linked_product_kind"
  | ArgActualProductKind => "actual_product_kind"
  | ArgActualDebugInformationMode => "actual_debug_information_mode"
  | ArgActualDebugOutputMode => "actual_debug_output_mode"
  | ArgActualAssemblySyntax => "actual_assembly_syntax"
  | ArgArtifactRequirement => "artifact_requirement"
  | ArgExpectedVisibility => "expected_visibility"
  | ArgActualVisibility => "actual_visibility"
  | ArgExpectedModuleTrust => "expected_module_trust"
  | ArgActualModuleTrust => "actual_module_trust"
  | ArgFilePath => "file_path"
  | ArgInputIndex => "input_index"
  | ArgInterfaceLimit => "interface_limit"
  | ArgInterfaceRecordIndex => "interface_record_index"
  | ArgExpectedInterfaceRecordIndex => "expected_interface_record_index"
  | ArgActualInterfaceRecordIndex => "actual_interface_record_index"
  | ArgRelatedInterfaceRecordIndex => "related_interface_record_index"
  | ArgInterfaceDependencyIndex => "interface_dependency_index"
  | ArgActualSymbolKind => "actual_symbol_kind"
  | ArgExpectedSymbolKind => "expected_symbol_kind"
  | ArgInterfaceSymbolGraphProblem => "interface_symbol_graph_problem"
  | ArgInterfaceSymbolIdentity => "interface_symbol_identity"
  | ArgInterfaceSemanticProblem => "interface_semantic_problem"
  | ArgInterfaceValidationFailure => "interface_validation_failure"
  | ArgProjectSelectionProblem => "project_selection_problem"
  | ArgProjectCommandFailure => "project_command_failure"
  | ArgProjectGeneratorFailure => "project_generator_failure"
  | ArgProjectManifestField => "project_manifest_field"
  | ArgProjectDependencyCycleMember => "project_dependency_cycle_member"
  | ArgProjectPath => "project_path"
  | ArgUnsupportedEmissionReason => "unsupported_emission_reason"
  | ArgInterfaceSection => "interface_section"
  | ArgIoErrorKind => "io_error_kind"
  | ArgExternalToolOperation => "external_tool_operation"
  | ArgExternalToolFailureKind => "external_tool_failure_kind"
  | ArgExternalToolExit => "external_tool_exit"
  | ArgLinkRequirement => "link_requirement"
  | ArgLinkOptimizationReportProblem => "link_optimization_report_problem"
  | ArgDocumentParseKind => "document_parse_kind"
  | ArgStandardLibraryManifestProblem => "standard_library_manifest_problem"
  | ArgDependencySubjectKind => "dependency_subject_kind"
  | ArgDependencyRequirementKind => "dependency_requirement_kind"
  | ArgDocumentLine => "document_line"
  | ArgDocumentColumn => "document_column"
  | ArgOutputSink => "output_sink"
  | ArgMaximumCount => "maximum_count"
  | ArgExpectedRevision => "expected_revision"
  | ArgExpectedTargetPredicateValueKind => "expected_target_predicate_value_kind"
  | ArgExpectedRuntimeAbi => "expected_runtime_abi"
  | ArgExpectedTargetIdentity => "expected_target_identity"
  | ArgRuntimeArtifactProblem => "runtime_artifact_problem"
  | ArgExpectedType => "expected_type"
  | ArgSourceName => "source_name"
  | ArgSourceCount => "source_count"
  | ArgSelectionKind => "selection_kind"
  | ArgSelectionCandidates => "selection_candidates"
  | ArgSelectionRejections => "selection_rejections"
  | ArgNativeLinkDirectiveProblem => "native_link_directive_problem"
  | ArgNativeSymbolDirectiveProblem => "native_symbol_directive_problem"
  | ArgPlatformServiceSignatureProblem => "platform_service_signature_problem"
  | ArgTraitFulfillmentMismatch => "trait_fulfillment_mismatch"
  | ArgImplementationOverloadProblem => "implementation_overload_problem"
  | ArgCallableOverloadProblem => "callable_overload_problem"
  | ArgExpressionCategory => "expression_category"
  | ArgConstantOperation => "constant_operation"
  | ArgLayoutProblem => "layout_problem"
  | ArgUnionTagProblem => "union_tag_problem"
  | ArgCopyContractProblem => "copy_contract_problem"
  | ArgStoredTypeProblem => "stored_type_problem"
  | ArgPropagationProblem => "propagation_problem"
  | ArgArrayGeneratorCardinalityProblem => "array_generator_cardinality_problem"
  | ArgRefinementCapacity => "refinement_capacity"
  | ArgMemoryOperation => "memory_operation"
  | ArgCallbackStateProblem => "callback_state_problem"
  | ArgStorageAccess => "storage_access"
  | ArgPatternCoverage => "pattern_coverage"
  | ArgPatternUnreachability => "pattern_unreachability"
  | ArgSourceInputKind => "source_input_kind"
  | ArgSourceInput => "source_input"
  | ArgTextOffset => "text_offset"
  | ArgTokenText => "token_text"
  | ArgUri => "uri"
  | ArgSourceSpan => "source_span"
  | ArgWorkerCount => "worker_count"
  end%string.

(** The machine interface of diagnostics is unambiguous: no two categories
    share a numeric code or a key, and no two label, note, related-location or
    argument kinds share a key. *)
Theorem diagnostic_identities_unique :
  (forall a b, DiagnosticKind_code a = DiagnosticKind_code b -> a = b) /\
  (forall a b, DiagnosticKind_as_str a = DiagnosticKind_as_str b -> a = b) /\
  (forall a b, DiagnosticLabelKind_as_str a = DiagnosticLabelKind_as_str b -> a = b) /\
  (forall a b, DiagnosticNoteKind_as_str a = DiagnosticNoteKind_as_str b -> a = b) /\
  (forall a b, DiagnosticRelatedLocationKind_as_str a = DiagnosticRelatedLocationKind_as_str b -> a = b) /\
  (forall a b, DiagnosticArgName_as_str a = DiagnosticArgName_as_str b -> a = b).
Proof. split_and!; apply names_inj; by vm_compute. Qed.
