(* ===== verification/Diagnostic.v ===== *)
(** * Diagnostics

    [bray-diagnostics]: the diagnostic record and its builders
    ([diagnostic.rs], [label.rs], [note.rs], [related.rs], [suggestion.rs],
    [argument/model.rs], [severity.rs], [id.rs]) and the lexical diagnostics of
    [bray-parser] ([lexer/diagnostic.rs]).

    Of the typed argument values the ones that the lexer and the parser use are
    constructors; every other variant of that enum is [OtherArgValue], and no
    definition depends on which one it is. *)

From Stdlib Require Import ZArith Lia String Sorting.Sorted Sorting.Permutation.
From stdpp Require Import base list numbers option.
From S2P Require Import Prelude Utf8 SourceText Snapshot SyntaxKind DiagnosticKind.

(** ** Vocabularies *)

Inductive SeverityKind := SeverityError | SeverityWarning | SeverityNote | SeverityHelp.

Definition SeverityKind_as_str (s : SeverityKind) : string :=
  match s with
  | SeverityError => "error" | SeverityWarning => "warning"
  | SeverityNote => "note" | SeverityHelp => "help"
  end%string.

Inductive DiagnosticLabelStyle := LabelPrimary | LabelSecondary.

Inductive DiagnosticArgValue :=
| ArgValueCharacter (c : char)
| ArgValueSyntaxKind (kind : SyntaxKind)
| ArgValueTokenText (text : str)
| ArgValueCount (count : u64)
| OtherArgValue (payload : str).

Inductive DiagnosticSuggestionKind :=
| InsertExpectedSyntax | ReplaceWithLineFeed | AddTerminator | FormatSource
| ExplicitlyDiscardResult.

Inductive DiagnosticSuggestionApplicability := MachineApplicable | MaybeApplicable | Manual.

#[export] Instance SeverityKind_eq_dec : EqDecision SeverityKind.
Proof. solve_decision. Defined.
#[export] Instance DiagnosticLabelStyle_eq_dec : EqDecision DiagnosticLabelStyle.
Proof. solve_decision. Defined.
#[export] Instance DiagnosticArgValue_eq_dec : EqDecision DiagnosticArgValue.
Proof. solve_decision. Defined.
#[export] Instance DiagnosticSuggestionKind_eq_dec : EqDecision DiagnosticSuggestionKind.
Proof. solve_decision. Defined.
#[export] Instance DiagnosticSuggestionApplicability_eq_dec : EqDecision DiagnosticSuggestionApplicability.
Proof. solve_decision. Defined.

(** ** Message components *)

Record DiagnosticArg := { arg_name : DiagnosticArgName; arg_value : DiagnosticArgValue }.

Record DiagnosticLabel := {
  label_kind : DiagnosticLabelKind;
  label_style : DiagnosticLabelStyle;
  label_span : SourceSpan;
  label_args : list DiagnosticArg;
}.

Record DiagnosticNote := { note_kind : DiagnosticNoteKind; note_args : list DiagnosticArg }.

Record DiagnosticRelatedLocation := {
  related_kind : DiagnosticRelatedLocationKind;
  related_span : SourceSpan;
  related_args : list DiagnosticArg;
}.

Record DiagnosticSourceEdit := { source_edit_span : SourceSpan; source_edit_replacement : str }.

Record DiagnosticSuggestion := {
  suggestion_kind : DiagnosticSuggestionKind;
  applicability : DiagnosticSuggestionApplicability;
  edits : list DiagnosticSourceEdit;
  suggestion_args : list DiagnosticArg;
}.

#[export] Instance DiagnosticArg_eq_dec : EqDecision DiagnosticArg.
Proof. solve_decision. Defined.
#[export] Instance DiagnosticLabel_eq_dec : EqDecision DiagnosticLabel.
Proof. solve_decision. Defined.
#[export] Instance DiagnosticNote_eq_dec : EqDecision DiagnosticNote.
Proof. solve_decision. Defined.
#[export] Instance DiagnosticRelatedLocation_eq_dec : EqDecision DiagnosticRelatedLocation.
Proof. solve_decision. Defined.
#[export] Instance DiagnosticSourceEdit_eq_dec : EqDecision DiagnosticSourceEdit.
Proof. solve_decision. Defined.
#[export] Instance DiagnosticSuggestion_eq_dec : EqDecision DiagnosticSuggestion.
Proof. solve_decision. Defined.

Definition DiagnosticLabel_new (kind : DiagnosticLabelKind) (style : DiagnosticLabelStyle)
    (span : SourceSpan) : DiagnosticLabel :=
  {| label_kind := kind; label_style := style; label_span := span; label_args := [] |}.

Definition DiagnosticLabel_primary (kind : DiagnosticLabelKind) (span : SourceSpan) : DiagnosticLabel :=
  DiagnosticLabel_new kind LabelPrimary span.

Definition DiagnosticLabel_secondary (kind : DiagnosticLabelKind) (span : SourceSpan) : DiagnosticLabel :=
  DiagnosticLabel_new kind LabelSecondary span.

Definition DiagnosticLabel_with_arg (l : DiagnosticLabel) (arg : DiagnosticArg) : DiagnosticLabel :=
  {| label_kind := label_kind l; label_style := label_style l; label_span := label_span l;
     label_args := label_args l ++ [arg] |}.

Definition DiagnosticNote_new (kind : DiagnosticNoteKind) : DiagnosticNote :=
  {| note_kind := kind; note_args := [] |}.

(** ** Suggestions *)

Inductive DiagnosticSuggestionBuildError := MissingEdit | ManualWithEdits | OverlappingEdits.

Definition suggestion_manual (kind : DiagnosticSuggestionKind) : DiagnosticSuggestion :=
  {| suggestion_kind := kind; applicability := Manual; edits := []; suggestion_args := [] |}.

Definition one_edit (kind : DiagnosticSuggestionKind) (a : DiagnosticSuggestionApplicability)
    (edit : DiagnosticSourceEdit) : DiagnosticSuggestion :=
  {| suggestion_kind := kind; applicability := a; edits := [edit]; suggestion_args := [] |}.

Definition machine_edit (kind : DiagnosticSuggestionKind) (edit : DiagnosticSourceEdit)
    : DiagnosticSuggestion := one_edit kind MachineApplicable edit.

Definition maybe_edit (kind : DiagnosticSuggestionKind) (edit : DiagnosticSourceEdit)
    : DiagnosticSuggestion := one_edit kind MaybeApplicable edit.

Definition DiagnosticSuggestion_with_arg (s : DiagnosticSuggestion) (arg : DiagnosticArg) : DiagnosticSuggestion :=
  {| suggestion_kind := suggestion_kind s; applicability := applicability s; edits := edits s;
     suggestion_args := suggestion_args s ++ [arg] |}.

Definition edits_overlap (left right : DiagnosticSourceEdit) : bool :=
  let left_span := source_edit_span left in
  let right_span := source_edit_span right in
  bool_decide (SourceSpan_source_id left_span = SourceSpan_source_id right_span)
  && ((SourceSpan_start left_span =? SourceSpan_start right_span)
      || (SourceSpan_start right_span <? SourceSpan_end left_span)).

(** The derived lexicographic order of [SourceSpan]: id, start, end. *)
Definition span_le (a b : SourceSpan) : bool :=
  let ia := SourceId_raw (SourceSpan_source_id a) in
  let ib := SourceId_raw (SourceSpan_source_id b) in
  (ia <? ib) || ((ia =? ib) &&
    ((SourceSpan_start a <? SourceSpan_start b) ||
     ((SourceSpan_start a =? SourceSpan_start b) && (SourceSpan_end a <=? SourceSpan_end b)))).

Fixpoint insert_edit (e : DiagnosticSourceEdit) (l : list DiagnosticSourceEdit)
    : list DiagnosticSourceEdit :=
  match l with
  | [] => [e]
  | x :: l' =>
      if span_le (source_edit_span e) (source_edit_span x) then e :: l else x :: insert_edit e l'
  end.

(** [sort_unstable_by_key]: edits with equal spans may come in any order, which
    no caller observes since equal spans are rejected as overlapping. *)
Definition sort_edits (l : list DiagnosticSourceEdit) : list DiagnosticSourceEdit :=
  fold_right insert_edit [] l.

(** [edits.windows(2).any(..)]. *)
Fixpoint any_adjacent_overlap (l : list DiagnosticSourceEdit) : bool :=
  match l with
  | a :: (b :: _) as l' => edits_overlap a b || any_adjacent_overlap l'
  | _ => false
  end.

Definition try_edits (kind : DiagnosticSuggestionKind) (a : DiagnosticSuggestionApplicability)
    (l : list DiagnosticSourceEdit) : result DiagnosticSuggestion DiagnosticSuggestionBuildError :=
  if decide (a = Manual) then Err ManualWithEdits
  else match l with
       | [] => Err MissingEdit
       | _ =>
           let l := sort_edits l in
           if any_adjacent_overlap l then Err OverlappingEdits
           else Ok {| suggestion_kind := kind; applicability := a; edits := l; suggestion_args := [] |}
       end.

(** ** The diagnostic record *)

Record Diagnostic := {
  d_id : u32;
  d_kind : DiagnosticKind;
  d_severity : SeverityKind;
  d_primary_span : option SourceSpan;
  d_labels : list DiagnosticLabel;
  d_notes : list DiagnosticNote;
  d_related_locations : list DiagnosticRelatedLocation;
  d_suggestions : list DiagnosticSuggestion;
  d_args : list DiagnosticArg;
}.

#[export] Instance Diagnostic_eq_dec : EqDecision Diagnostic.
Proof. solve_decision. Defined.

Definition DiagnosticId_from_index (index : usize) : u32 :=
  match u32_try_from index with Some raw => raw | None => U32_MAX end.

Definition Diagnostic_new (id : u32) (kind : DiagnosticKind) (severity : SeverityKind) : Diagnostic :=
  {| d_id := id; d_kind := kind; d_severity := severity; d_primary_span := None; d_labels := [];
     d_notes := []; d_related_locations := []; d_suggestions := []; d_args := [] |}.

Definition with_primary_span (d : Diagnostic) (span : SourceSpan) : Diagnostic :=
  {| d_id := d_id d; d_kind := d_kind d; d_severity := d_severity d; d_primary_span := Some span;
     d_labels := d_labels d; d_notes := d_notes d; d_related_locations := d_related_locations d;
     d_suggestions := d_suggestions d; d_args := d_args d |}.

Definition with_arg (d : Diagnostic) (arg : DiagnosticArg) : Diagnostic :=
  {| d_id := d_id d; d_kind := d_kind d; d_severity := d_severity d;
     d_primary_span := d_primary_span d; d_labels := d_labels d; d_notes := d_notes d;
     d_related_locations := d_related_locations d; d_suggestions := d_suggestions d;
     d_args := d_args d ++ [arg] |}.

Definition with_label (d : Diagnostic) (label : DiagnosticLabel) : Diagnostic :=
  {| d_id := d_id d; d_kind := d_kind d; d_severity := d_severity d;
     d_primary_span := d_primary_span d; d_labels := d_labels d ++ [label]; d_notes := d_notes d;
     d_related_locations := d_related_locations d; d_suggestions := d_suggestions d;
     d_args := d_args d |}.

Definition with_note (d : Diagnostic) (note : DiagnosticNote) : Diagnostic :=
  {| d_id := d_id d; d_kind := d_kind d; d_severity := d_severity d;
     d_primary_span := d_primary_span d; d_labels := d_labels d;
     d_notes := if decide (note ∈ d_notes d) then d_notes d else d_notes d ++ [note];
     d_related_locations := d_related_locations d; d_suggestions := d_suggestions d;
     d_args := d_args d |}.

Definition with_optional_arg (d : Diagnostic) (arg : option DiagnosticArg) : Diagnostic :=
  match arg with Some arg => with_arg d arg | None => d end.

Definition with_related_location (d : Diagnostic) (loc : DiagnosticRelatedLocation) : Diagnostic :=
  {| d_id := d_id d; d_kind := d_kind d; d_severity := d_severity d;
     d_primary_span := d_primary_span d; d_labels := d_labels d; d_notes := d_notes d;
     d_related_locations :=
       if decide (loc ∈ d_related_locations d) then d_related_locations d
       else d_related_locations d ++ [loc];
     d_suggestions := d_suggestions d; d_args := d_args d |}.

Definition with_suggestion (d : Diagnostic) (s : DiagnosticSuggestion) : Diagnostic :=
  {| d_id := d_id d; d_kind := d_kind d; d_severity := d_severity d;
     d_primary_span := d_primary_span d; d_labels := d_labels d; d_notes := d_notes d;
     d_related_locations := d_related_locations d; d_suggestions := d_suggestions d ++ [s];
     d_args := d_args d |}.

Record DiagnosticDuplicateKey := {
  key_kind : DiagnosticKind;
  key_severity : SeverityKind;
  key_primary_span : option SourceSpan;
  key_labels : list DiagnosticLabel;
  key_notes : list DiagnosticNote;
  key_related_locations : list DiagnosticRelatedLocation;
  key_suggestions : list DiagnosticSuggestion;
  key_args : list DiagnosticArg;
}.

#[export] Instance DiagnosticDuplicateKey_eq_dec : EqDecision DiagnosticDuplicateKey.
Proof. solve_decision. Defined.

Definition duplicate_key (d : Diagnostic) : DiagnosticDuplicateKey :=
  {| key_kind := d_kind d; key_severity := d_severity d; key_primary_span := d_primary_span d;
     key_labels := d_labels d; key_notes := d_notes d;
     key_related_locations := d_related_locations d; key_suggestions := d_suggestions d;
     key_args := d_args d |}.

(** ** Lexical diagnostics *)

Definition diagnostic_id (start : TextSize) : u32 := start.

Definition span (snapshot : SourceSnapshot) (range : TextRange) : SourceSpan :=
  SourceSpan_new (source_id snapshot) range.

Definition character_arg (character : char) : DiagnosticArg :=
  {| arg_name := ArgCharacter; arg_value := ArgValueCharacter character |}.

Definition replacement_suggestion (span : SourceSpan) (kind : DiagnosticSuggestionKind)
    (replacement : str) : DiagnosticSuggestion :=
  machine_edit kind {| source_edit_span := span; source_edit_replacement := replacement |}.

Definition terminator_suggestion (snapshot : SourceSnapshot) (range : TextRange) (terminator : str)
    : DiagnosticSuggestion :=
  replacement_suggestion (SourceSpan_empty (source_id snapshot) (end_ range)) AddTerminator terminator.

Definition lexical_diagnostic (snapshot : SourceSnapshot) (kind : DiagnosticKind)
    (label_kind : DiagnosticLabelKind) (range : TextRange) : Diagnostic :=
  let span := span snapshot range in
  with_label (with_primary_span (Diagnostic_new (diagnostic_id (start range)) kind SeverityError) span)
    (DiagnosticLabel_primary label_kind span).

Definition character_diagnostic (snapshot : SourceSnapshot) (range : TextRange) (character : char)
    (kind : DiagnosticKind) (label : DiagnosticLabelKind) (note : DiagnosticNoteKind) : Diagnostic :=
  let span := span snapshot range in
  let arg := character_arg character in
  let d := Diagnostic_new (diagnostic_id (start range)) kind SeverityError in
  let d := with_primary_span d span in
  let d := with_arg d arg in
  let d := with_label d (DiagnosticLabel_with_arg (DiagnosticLabel_primary label span) arg) in
  with_note d (DiagnosticNote_new note).

Definition misplaced_bom (snapshot : SourceSnapshot) (range : TextRange) : Diagnostic :=
  with_note (lexical_diagnostic snapshot LexicalMisplacedBom LabelMisplacedBom range)
    (DiagnosticNote_new NoteBomOnlyAllowedAtStart).

Definition lone_carriage_return (snapshot : SourceSnapshot) (range : TextRange) : Diagnostic :=
  with_suggestion
    (with_note (lexical_diagnostic snapshot LexicalLoneCarriageReturn LabelLoneCarriageReturn range)
       (DiagnosticNote_new NoteLineBreaksMustBeLfOrCrlf))
    (replacement_suggestion (span snapshot range) ReplaceWithLineFeed [LF]).

Definition invalid_character (snapshot : SourceSnapshot) (range : TextRange) (character : char)
    : Diagnostic :=
  character_diagnostic snapshot range character LexicalInvalidCharacter LabelInvalidCharacter
    NoteCharacterNotAccepted.

Definition non_ascii_identifier (snapshot : SourceSnapshot) (range : TextRange) (character : char)
    : Diagnostic :=
  character_diagnostic snapshot range character LexicalNonAsciiIdentifier LabelNonAsciiIdentifier
    NoteIdentifiersMustBeAscii.

Definition invalid_identifier (snapshot : SourceSnapshot) (range : TextRange) : Diagnostic :=
  with_note (lexical_diagnostic snapshot LexicalInvalidIdentifier LabelInvalidIdentifier range)
    (DiagnosticNote_new NoteIdentifierSpellingMustBeValid).

Definition invalid_operator_or_punctuation (snapshot : SourceSnapshot) (range : TextRange) : Diagnostic :=
  lexical_diagnostic snapshot LexicalInvalidOperatorOrPunctuation LabelInvalidOperatorOrPunctuation range.

Definition malformed_numeric_literal (snapshot : SourceSnapshot) (range : TextRange) : Diagnostic :=
  lexical_diagnostic snapshot LexicalMalformedNumericLiteral LabelMalformedLiteral range.

Definition invalid_numeric_suffix (snapshot : SourceSnapshot) (range : TextRange)
    (suffix_start : option char) : Diagnostic :=
  let diagnostic :=
    with_note (lexical_diagnostic snapshot LexicalInvalidNumericSuffix LabelInvalidNumericSuffix range)
      (DiagnosticNote_new NoteOnlyImaginaryNumericSuffix) in
  match suffix_start with
  | Some character => with_arg diagnostic (character_arg character)
  | None => diagnostic
  end.

Definition malformed_character_literal (snapshot : SourceSnapshot) (range : TextRange) : Diagnostic :=
  with_note (lexical_diagnostic snapshot LexicalMalformedCharacterLiteral LabelMalformedLiteral range)
    (DiagnosticNote_new NoteCharacterLiteralMustContainOneScalar).

Definition unterminated_character_literal (snapshot : SourceSnapshot) (range : TextRange) : Diagnostic :=
  with_suggestion
    (with_note (lexical_diagnostic snapshot LexicalUnterminatedCharacterLiteral
                  LabelUnterminatedCharacterLiteralStart range)
       (DiagnosticNote_new NoteCharacterLiteralNeedsTerminator))
    (terminator_suggestion snapshot range (lit "'")).

(** The replacement is one double quote. *)
Definition unterminated_string_literal (snapshot : SourceSnapshot) (range : TextRange) : Diagnostic :=
  with_suggestion
    (with_note (lexical_diagnostic snapshot LexicalUnterminatedStringLiteral
                  LabelUnterminatedStringLiteralStart range)
       (DiagnosticNote_new NoteStringLiteralNeedsTerminator))
    (terminator_suggestion snapshot range [34]).

Definition unknown_escape (snapshot : SourceSnapshot) (range : TextRange) (escaped : option char)
    : Diagnostic :=
  let diagnostic :=
    with_note (lexical_diagnostic snapshot LexicalUnknownEscape LabelUnknownEscape range)
      (DiagnosticNote_new NoteEscapeMustBeKnown) in
  match escaped with
  | Some character => with_arg diagnostic (character_arg character)
  | None => diagnostic
  end.

Definition invalid_unicode_escape (snapshot : SourceSnapshot) (range : TextRange) : Diagnostic :=
  with_note (lexical_diagnostic snapshot LexicalInvalidUnicodeEscape LabelInvalidUnicodeEscape range)
    (DiagnosticNote_new NoteUnicodeEscapeMustBeScalar).

Fixpoint repeat_str (n : nat) (s : str) : str :=
  match n with O => [] | S n' => repeat_str n' s ++ s end.

Definition block_comment_terminators (remaining_depth : u32) : str :=
  repeat_str (Z.to_nat remaining_depth) (lit "*/").

Definition unterminated_block_comment (snapshot : SourceSnapshot) (range : TextRange)
    (remaining_depth : u32) : Diagnostic :=
  let terminators := block_comment_terminators remaining_depth in
  with_suggestion
    (with_note (lexical_diagnostic snapshot LexicalUnterminatedBlockComment
                  LabelUnterminatedBlockCommentStart range)
       (DiagnosticNote_new NoteBlockCommentNeedsTerminator))
    (terminator_suggestion snapshot range terminators).

(** ** Edit sets

    Two edits are compatible when they touch different sources or disjoint
    ranges that do not start together. *)
Definition compatible (a b : DiagnosticSourceEdit) : Prop :=
  let sa := source_edit_span a in
  let sb := source_edit_span b in
  SourceSpan_source_id sa <> SourceSpan_source_id sb \/
  (SourceSpan_start sa <> SourceSpan_start sb /\
   (SourceSpan_end sa <= SourceSpan_start sb \/ SourceSpan_end sb <= SourceSpan_start sa)).

Definition edit_ok (e : DiagnosticSourceEdit) : Prop :=
  SourceSpan_start (source_edit_span e) <= SourceSpan_end (source_edit_span e).

Definition edit_le (a b : DiagnosticSourceEdit) : Prop :=
  span_le (source_edit_span a) (source_edit_span b) = true.

#[export] Instance compatible_symmetric : Symmetric compatible.
Proof. intros a b. unfold compatible. intros [H|[H1 H2]]; [left; congruence|right; lia]. Qed.

Lemma span_le_total a b : span_le a b = false -> span_le b a = true.
Proof. unfold span_le. lia. Qed.

Lemma span_le_trans a b c : span_le a b = true -> span_le b c = true -> span_le a c = true.
Proof. unfold span_le. lia. Qed.

Lemma SourceId_raw_inj a b : SourceId_raw a = SourceId_raw b -> a = b.
Proof. destruct a, b. simpl. by intros ->. Qed.

Lemma insert_edit_perm e l : Permutation (insert_edit e l) (e :: l).
Proof.
  induction l as [|x l IH]; simpl; [done|]. destruct (span_le _ _); [done|].
  rewrite IH. apply perm_swap.
Qed.

Lemma sort_edits_perm l : Permutation (sort_edits l) l.
Proof. induction l as [|x l IH]; simpl; [done|]. by rewrite insert_edit_perm, IH. Qed.

Lemma insert_edit_sorted e l : Sorted edit_le l -> Sorted edit_le (insert_edit e l).
Proof.
  induction 1 as [|x l Hs IH Hx]; simpl; [by repeat constructor|].
  destruct (span_le (source_edit_span e) (source_edit_span x)) eqn:E.
  - repeat (constructor; try done).
  - constructor; [done|]. destruct l as [|y l]; simpl; [by constructor; apply span_le_total|].
    destruct (span_le _ (source_edit_span y)); constructor; [by apply span_le_total|by inversion Hx].
Qed.

Lemma sort_edits_sorted l : StronglySorted edit_le (sort_edits l).
Proof.
  apply Sorted_StronglySorted; [intros a b c; apply span_le_trans|].
  induction l; simpl; [constructor|]. by apply insert_edit_sorted.
Qed.

(** On a sorted list of well-formed edits the adjacent check is complete. *)
Lemma any_adjacent_overlap_spec l :
  StronglySorted edit_le l -> Forall edit_ok l ->
  any_adjacent_overlap l = false <-> ForallOrdPairs compatible l.
Proof.
  intros Hs Hok. induction Hs as [|a l Hs IH Ha]; [split; [constructor|done]|].
  inversion Hok as [|? ? Hoa Hol]; subst. destruct l as [|b l]; [split; [repeat constructor|done]|].
  cbn [any_adjacent_overlap]. fold (any_adjacent_overlap (b :: l)). rewrite orb_false_iff, (IH Hol).
  inversion Ha as [|? ? Hab Hal]; subst. inversion Hs as [|? ? Hs' Hb]; subst.
  inversion Hol as [|? ? Hob Hol']; subst.
  assert (edits_overlap a b = false <-> compatible a b) as Hov.
  { unfold edits_overlap, compatible, edit_le, span_le, edit_ok in *. case_bool_decide as Hid; simpl.
    - rewrite Hid in Hab |- *. split; [intros; right; lia|intros [?|?]; [done|lia]].
    - split; [by left|done]. }
  rewrite Hov. split.
  - intros [Hc Hp]. constructor; [|done]. constructor; [done|].
    apply Forall_forall. intros c Hin. rewrite Forall_forall in Hb, Hol'.
    specialize (Hb c Hin). specialize (Hol' c Hin).
    inversion Hp as [|? ? Hbc _]; subst. rewrite Forall_forall in Hbc. specialize (Hbc c Hin).
    unfold compatible, edit_le, span_le, edit_ok in *.
    destruct (decide (SourceSpan_source_id (source_edit_span a) = SourceSpan_source_id (source_edit_span c)))
      as [Hac|]; [|by left]. right.
    assert (SourceSpan_source_id (source_edit_span a) = SourceSpan_source_id (source_edit_span b)) as Habi.
    { apply SourceId_raw_inj. rewrite Hac in *. lia. }
    rewrite <- Habi in *. destruct Hc as [Hc|Hc]; [done|]. destruct Hbc as [Hbc|Hbc]; [by rewrite Hac in Hbc|].
    rewrite Hac in *. lia.
  - intros Hp. inversion Hp as [|? ? Hf Hp']; subst. inversion Hf; subst. done.
Qed.

Lemma ForallOrdPairs_perm (l l' : list DiagnosticSourceEdit) :
  Permutation l l' -> ForallOrdPairs compatible l -> ForallOrdPairs compatible l'.
Proof.
  induction 1 as [|x l l' Hp IH|x y l|l1 l2 l3 _ IH1 _ IH2]; intros H; [done| | |auto].
  - inversion H; subst. constructor; [by rewrite <- Hp|auto].
  - inversion H as [|? ? Hf Hp]; subst. inversion Hp as [|? ? Hf' Hp']; subst.
    inversion Hf as [|? ? Hyx Hyl]; subst.
    constructor; [constructor; [by symmetry|done]|]. by constructor.
Qed.

(** A suggestion's edit set is accepted exactly when it is applicable,
    nonempty and its edits are pairwise compatible (the adjacent check on the
    sorted list misses no conflicting pair); accepted edits keep the given set,
    ordered by span. *)
Theorem try_edits_correct kind a l :
  Forall edit_ok l ->
  match try_edits kind a l with
  | Ok s => a <> Manual /\ l <> [] /\ ForallOrdPairs compatible l /\
            Permutation (edits s) l /\ StronglySorted edit_le (edits s) /\
            suggestion_kind s = kind /\ applicability s = a
  | Err ManualWithEdits => a = Manual
  | Err MissingEdit => a <> Manual /\ l = []
  | Err OverlappingEdits => a <> Manual /\ ~ ForallOrdPairs compatible l
  end.
Proof.
  intros Hok. unfold try_edits. destruct (decide (a = Manual)) as [|Hm]; [done|].
  destruct l as [|e l]; [done|]. set (l0 := e :: l) in *.
  pose proof (sort_edits_perm l0) as Hperm. pose proof (sort_edits_sorted l0) as Hsort.
  assert (Forall edit_ok (sort_edits l0)) as Hok' by by rewrite Hperm.
  pose proof (any_adjacent_overlap_spec _ Hsort Hok') as Hspec.
  destruct (any_adjacent_overlap (sort_edits l0)) eqn:E.
  - split; [done|]. intros Hc. symmetry in Hperm. by apply (ForallOrdPairs_perm _ _ Hperm), Hspec in Hc.
  - split_and!; try done. apply (ForallOrdPairs_perm _ _ Hperm), Hspec. done.
Qed.

