(* ===== verification/DiagnosticBag.v ===== *)
(** * Diagnostic bags

    [bray-diagnostics/src/bag.rs]: persistent, ordered collections of
    diagnostics that share sub-collections.

    An [Arc<DiagnosticCollection>] is a node that carries the address of its
    allocation; [Arc::ptr_eq] and the pointer sets of the source compare
    addresses.  Operations that allocate take the address of the new allocation,
    and [add] takes whether [Arc::get_mut] found the root unshared.  [coherent]
    says that an address names one node, which holds in any heap.  Iteration is
    the source's explicit stack machine; [flatten] is its specification.

    [DiagnosticSink] is the interface the lexer uses; [bag_sink_laws] shows that
    bags implement it. *)

From Stdlib Require Import ZArith Lia String.
From stdpp Require Import base list numbers option sets.
From S2P Require Import Prelude Utf8 SourceText Snapshot DiagnosticKind Diagnostic.

(** ** Removing duplicates, first occurrence first *)

Fixpoint nub_from (seen : list DiagnosticDuplicateKey) (l : list Diagnostic) : list Diagnostic :=
  match l with
  | [] => []
  | d :: l' =>
      if decide (duplicate_key d ∈ seen) then nub_from seen l'
      else d :: nub_from (duplicate_key d :: seen) l'
  end.

Definition nub (l : list Diagnostic) : list Diagnostic := nub_from [] l.

Definition keys (l : list Diagnostic) : list DiagnosticDuplicateKey := map duplicate_key l.

(** ** Bags *)

Section bag.
Context {A : Type} `{EqDecision A}.

Inductive DiagnosticCollection :=
| Collection (address : A) (sources : list DiagnosticCollection) (local : list Diagnostic)
    (has_diagnostics : bool).

Definition address (c : DiagnosticCollection) : A := match c with Collection p _ _ _ => p end.
Definition sources (c : DiagnosticCollection) : list DiagnosticCollection :=
  match c with Collection _ ss _ _ => ss end.
Definition local (c : DiagnosticCollection) : list Diagnostic :=
  match c with Collection _ _ l _ => l end.
Definition has_diagnostics (c : DiagnosticCollection) : bool :=
  match c with Collection _ _ _ h => h end.

Record DiagnosticBag := { root : DiagnosticCollection }.

Definition DiagnosticBag_new (p : A) : DiagnosticBag := {| root := Collection p [] [] false |}.

(** The capacity of a vector is not observable. *)
Definition DiagnosticBag_with_capacity (p : A) (capacity : usize) : DiagnosticBag :=
  {| root := Collection p [] [] false |}.

Definition DiagnosticBag_add (unshared : bool) (p : A) (bag : DiagnosticBag) (d : Diagnostic)
    : DiagnosticBag :=
  if unshared
  then {| root := Collection (address (root bag)) (sources (root bag)) (local (root bag) ++ [d]) true |}
  else {| root := Collection p [root bag] [d] true |}.

Definition DiagnosticBag_single (p : A) (d : Diagnostic) : DiagnosticBag :=
  DiagnosticBag_add true p (DiagnosticBag_with_capacity p 1) d.

Definition DiagnosticBag_is_empty (bag : DiagnosticBag) : bool := negb (has_diagnostics (root bag)).

(** The root a first [add] leaves behind is owned by this bag alone. *)
Definition DiagnosticBag_add_range (unshared : bool) (p : A) (bag : DiagnosticBag)
    (ds : list Diagnostic) : DiagnosticBag :=
  match ds with
  | [] => bag
  | d :: ds' => fold_left (DiagnosticBag_add true p) ds' (DiagnosticBag_add unshared p bag d)
  end.

Fixpoint select_sources (seen : list A) (bags : list DiagnosticBag) : list DiagnosticCollection :=
  match bags with
  | [] => []
  | bag :: bags' =>
      if DiagnosticBag_is_empty bag then select_sources seen bags'
      else if decide (address (root bag) ∈ seen) then select_sources seen bags'
      else root bag :: select_sources (address (root bag) :: seen) bags'
  end.

Definition DiagnosticBag_merged_all (p : A) (bags : list DiagnosticBag) : DiagnosticBag :=
  match select_sources [] bags with
  | [] => DiagnosticBag_new p
  | [source] => {| root := source |}
  | ss => {| root := Collection p ss [] true |}
  end.

Definition DiagnosticBag_merged (p : A) (self other : DiagnosticBag) : DiagnosticBag :=
  DiagnosticBag_merged_all p [self; other].

Definition DiagnosticBag_from_vec (p : A) (ds : list Diagnostic) : DiagnosticBag :=
  {| root := Collection p [] ds (match ds with [] => false | _ => true end) |}.

Definition DiagnosticBag_extend (unshared : bool) (p : A) (bag : DiagnosticBag) (ds : list Diagnostic)
    : DiagnosticBag :=
  DiagnosticBag_add_range unshared p bag ds.

Definition DiagnosticBag_from_iter (p : A) (ds : list Diagnostic) : DiagnosticBag :=
  DiagnosticBag_extend true p (DiagnosticBag_new p) ds.

(** ** Iteration: the stack machine of [DiagnosticIter] *)

Record DiagnosticFrame := {
  frame_collection : DiagnosticCollection;
  frame_source : usize;
  frame_local : usize;
}.

(** [frames] has the top of the stack first. *)
Record DiagnosticIter := {
  leaf : option (list Diagnostic);
  frames : list DiagnosticFrame;
  visited : list A;
  yielded : list DiagnosticDuplicateKey;
}.

Definition new_frame (c : DiagnosticCollection) : DiagnosticFrame :=
  {| frame_collection := c; frame_source := 0; frame_local := 0 |}.

Definition DiagnosticIter_new (c : DiagnosticCollection) : DiagnosticIter :=
  match sources c with
  | [] => {| leaf := Some (local c); frames := []; visited := []; yielded := [] |}
  | _ => {| leaf := None; frames := [new_frame c]; visited := [address c]; yielded := [] |}
  end.

(** One turn of the loop in [next]. *)
Definition next_step (it : DiagnosticIter)
    : outcome (DiagnosticIter + (option Diagnostic * DiagnosticIter)) :=
  match frames it with
  | [] => Ret (inr (None, it))
  | frame :: rest =>
      match get (sources (frame_collection frame)) (frame_source frame) with
      | Some source =>
          let frame := {| frame_collection := frame_collection frame;
                          frame_source := frame_source frame + 1;
                          frame_local := frame_local frame |} in
          if decide (address source ∈ visited it)
          then Ret (inl {| leaf := leaf it; frames := frame :: rest; visited := visited it;
                           yielded := yielded it |})
          else Ret (inl {| leaf := leaf it; frames := new_frame source :: frame :: rest;
                           visited := address source :: visited it; yielded := yielded it |})
      | None =>
          match get (local (frame_collection frame)) (frame_local frame) with
          | Some diagnostic =>
              let frame := {| frame_collection := frame_collection frame;
                              frame_source := frame_source frame;
                              frame_local := frame_local frame + 1 |} in
              if decide (duplicate_key diagnostic ∈ yielded it)
              then Ret (inl {| leaf := leaf it; frames := frame :: rest; visited := visited it;
                               yielded := yielded it |})
              else Ret (inr (Some diagnostic,
                             {| leaf := leaf it; frames := frame :: rest; visited := visited it;
                                yielded := duplicate_key diagnostic :: yielded it |}))
          | None => Ret (inl {| leaf := leaf it; frames := rest; visited := visited it;
                                yielded := yielded it |})
          end
      end
  end.

Definition DiagnosticIter_next (fuel : nat) (it : DiagnosticIter)
    : outcome (option Diagnostic * DiagnosticIter) :=
  match leaf it with
  | Some [] => Ret (None, it)
  | Some (d :: l) =>
      Ret (Some d, {| leaf := Some l; frames := frames it; visited := visited it; yielded := yielded it |})
  | None => loop fuel next_step it
  end.

(** [iter().collect()]. *)
Definition collect_step (fuel : nat) (s : DiagnosticIter * list Diagnostic)
    : outcome (DiagnosticIter * list Diagnostic + list Diagnostic) :=
  let '(it, acc) := s in
  let! next := DiagnosticIter_next fuel it in
  let (d, it) := next in
  match d with
  | Some d => continue_ (it, acc ++ [d])
  | None => break_ acc
  end.

Fixpoint size (c : DiagnosticCollection) : nat :=
  match c with
  | Collection _ ss l _ => 2 + fold_right (fun s n => (size s + n)%nat) 0%nat ss + length l
  end.

Definition iter_collect (c : DiagnosticCollection) : outcome (list Diagnostic) :=
  loop (S (size c)) (collect_step (S (size c))) (DiagnosticIter_new c, []).

Definition DiagnosticBag_iter (bag : DiagnosticBag) : outcome (list Diagnostic) :=
  iter_collect (root bag).

Definition DiagnosticBag_by_kind (bag : DiagnosticBag) (kind : DiagnosticKind)
    : outcome (list Diagnostic) :=
  let! l := DiagnosticBag_iter bag in Ret (List.filter (fun d => bool_decide (d_kind d = kind)) l).

Definition DiagnosticBag_by_severity (bag : DiagnosticBag) (severity : SeverityKind)
    : outcome (list Diagnostic) :=
  let! l := DiagnosticBag_iter bag in
  Ret (List.filter (fun d => bool_decide (d_severity d = severity)) l).

Definition DiagnosticBag_errors (bag : DiagnosticBag) : outcome (list Diagnostic) :=
  DiagnosticBag_by_severity bag SeverityError.

Definition DiagnosticBag_warnings (bag : DiagnosticBag) : outcome (list Diagnostic) :=
  DiagnosticBag_by_severity bag SeverityWarning.

Definition DiagnosticBag_has_errors (bag : DiagnosticBag) : outcome bool :=
  let! l := DiagnosticBag_errors bag in
  Ret (match l with [] => false | _ => true end).

Definition DiagnosticBag_len (bag : DiagnosticBag) : outcome usize :=
  match sources (root bag) with
  | [] => Ret (zlen (local (root bag)))
  | _ => let! l := DiagnosticBag_iter bag in Ret (zlen l)
  end.

Definition DiagnosticBag_into_vec (bag : DiagnosticBag) (unshared : bool) : outcome (list Diagnostic) :=
  match sources (root bag) with
  | [] => if unshared then Ret (local (root bag)) else DiagnosticBag_iter bag
  | _ => DiagnosticBag_iter bag
  end.

Definition DiagnosticBag_eq (self other : DiagnosticBag) : outcome bool :=
  let! l := DiagnosticBag_iter self in
  let! l' := DiagnosticBag_iter other in
  Ret (bool_decide (l = l')).

(** ** Specification *)

Fixpoint flatten (c : DiagnosticCollection) : list Diagnostic :=
  match c with Collection _ ss l _ => flat_map flatten ss ++ l end.

Fixpoint subnodes (c : DiagnosticCollection) : list DiagnosticCollection :=
  c :: match c with Collection _ ss _ _ => flat_map subnodes ss end.

(** An address names one node. *)
Definition coherent (l : list DiagnosticCollection) : Prop :=
  forall n m, In n (flat_map subnodes l) -> In m (flat_map subnodes l) -> address n = address m -> n = m.

(** The cached emptiness flag of every node is right. *)
Definition flags_ok (c : DiagnosticCollection) : Prop :=
  forall n, In n (subnodes c) ->
    has_diagnostics n = match flatten n with [] => false | _ => true end.
End bag.

Arguments DiagnosticCollection : clear implicits.
Arguments DiagnosticBag : clear implicits.
Arguments DiagnosticIter : clear implicits.
Arguments DiagnosticFrame : clear implicits.

(** ** Facts about duplicate removal *)

Definition covered (l : list Diagnostic) (seen : list DiagnosticDuplicateKey) : Prop :=
  forall k, k ∈ keys l -> k ∈ seen.

Lemma keys_app l1 l2 : keys (l1 ++ l2) = keys l1 ++ keys l2.
Proof. apply map_app. Qed.

Lemma covered_app l1 l2 seen : covered (l1 ++ l2) seen <-> covered l1 seen /\ covered l2 seen.
Proof.
  unfold covered. rewrite keys_app. setoid_rewrite elem_of_app. naive_solver.
Qed.

Lemma covered_mono l seen seen' : covered l seen -> (forall k, k ∈ seen -> k ∈ seen') -> covered l seen'.
Proof. unfold covered. auto. Qed.

Lemma nub_from_ext seen seen' l :
  (forall k, k ∈ seen <-> k ∈ seen') -> nub_from seen l = nub_from seen' l.
Proof.
  revert seen seen'. induction l as [|d l IH]; intros seen seen' H; simpl; [done|].
  destruct (decide (duplicate_key d ∈ seen)) as [Hd|Hd];
    destruct (decide (duplicate_key d ∈ seen')) as [Hd'|Hd']; try (exfalso; naive_solver).
  - by apply IH.
  - f_equal. apply IH. intros k. rewrite !elem_of_cons. naive_solver.
Qed.

Lemma nub_from_app seen l1 l2 :
  nub_from seen (l1 ++ l2) = nub_from seen l1 ++ nub_from (keys l1 ++ seen) l2.
Proof.
  revert seen. induction l1 as [|d l1 IH]; intros seen; simpl; [done|].
  destruct (decide (duplicate_key d ∈ seen)) as [Hd|Hd]; rewrite IH; simpl; f_equal.
  - apply nub_from_ext. intros k. rewrite elem_of_cons, !elem_of_app. naive_solver.
  - f_equal. apply nub_from_ext. intros k. rewrite elem_of_app, !elem_of_cons, elem_of_app. naive_solver.
Qed.

Lemma nub_from_covered seen l : covered l seen -> nub_from seen l = [].
Proof.
  revert seen. induction l as [|d l IH]; intros seen H; simpl; [done|].
  assert (duplicate_key d ∈ seen) by (apply H; simpl; set_solver).
  destruct (decide _); [|done]. apply IH. intros k Hk. apply H. simpl. set_solver.
Qed.

Lemma keys_nub_from seen l k : k ∈ keys (nub_from seen l) ++ seen <-> k ∈ keys l ++ seen.
Proof.
  revert seen. induction l as [|d l IH]; intros seen; simpl; [done|].
  destruct (decide (duplicate_key d ∈ seen)) as [Hd|Hd].
  - rewrite IH, elem_of_cons, !elem_of_app. naive_solver.
  - specialize (IH (duplicate_key d :: seen)). simpl.
    rewrite !elem_of_app, !elem_of_cons in IH. rewrite !elem_of_cons, !elem_of_app. naive_solver.
Qed.

Lemma keys_nub l k : k ∈ keys (nub l) <-> k ∈ keys l.
Proof. pose proof (keys_nub_from [] l k) as H. by rewrite !app_nil_r in H. Qed.

Lemma nub_from_disjoint seen l :
  NoDup (keys l) -> (forall k, k ∈ keys l -> k ∉ seen) -> nub_from seen l = l.
Proof.
  revert seen. induction l as [|d l IH]; intros seen Hnd Hdis; simpl; [done|].
  inversion Hnd; subst. destruct (decide _) as [H'|]; [by exfalso; apply (Hdis (duplicate_key d)); [simpl; set_solver|]|].
  f_equal. apply IH; [done|]. intros k Hk. rewrite elem_of_cons. intros [->|Hs]; [done|].
  apply (Hdis k); [simpl; set_solver|done].
Qed.

Lemma nub_from_NoDup seen l :
  NoDup (keys (nub_from seen l)) /\ (forall k, k ∈ keys (nub_from seen l) -> k ∉ seen).
Proof.
  revert seen. induction l as [|d l IH]; intros seen; simpl; [split; [constructor|set_solver]|].
  destruct (decide (duplicate_key d ∈ seen)) as [Hd|Hd]; [apply IH|]. simpl.
  destruct (IH (duplicate_key d :: seen)) as [IH1 IH2]. split.
  - constructor; [|done]. intros Hin. apply (IH2 _ Hin). set_solver.
  - intros k. rewrite elem_of_cons. intros [->|Hk]; [done|]. intros Hs. apply (IH2 _ Hk). set_solver.
Qed.

Lemma nub_NoDup l : NoDup (keys (nub l)).
Proof. apply nub_from_NoDup. Qed.

Lemma nub_from_nub seen l : nub_from seen (nub l) = nub_from seen l.
Proof.
  unfold nub. enough (forall seen seen', (forall k, k ∈ seen -> k ∈ seen') ->
    nub_from seen' (nub_from seen l) = nub_from seen' l) as H by (apply H; set_solver).
  clear seen. induction l as [|d l IH]; intros seen seen' Hsub; simpl; [done|].
  destruct (decide (duplicate_key d ∈ seen)) as [Hd|Hd].
  - destruct (decide (duplicate_key d ∈ seen')); [by apply IH|exfalso; auto].
  - simpl. destruct (decide (duplicate_key d ∈ seen')) as [Hd'|Hd']; [apply IH; set_solver|].
    f_equal. apply IH. set_solver.
Qed.

Lemma nub_app_nub l1 l2 : nub (nub l1 ++ nub l2) = nub (l1 ++ l2).
Proof.
  unfold nub. rewrite !nub_from_app. change (nub_from [] l1) with (nub l1).
  change (nub_from [] l2) with (nub l2). rewrite !nub_from_nub. f_equal.
  apply nub_from_ext. intros k. rewrite !app_nil_r. apply keys_nub.
Qed.

Lemma nub_nil l : nub l = [] <-> l = [].
Proof.
  split; [|by intros ->]. intros H. destruct l as [|d l]; [done|]. exfalso.
  pose proof (proj2 (keys_nub (d :: l) (duplicate_key d))) as Hk. rewrite H in Hk.
  specialize (Hk ltac:(simpl; set_solver)). simpl in Hk. set_solver.
Qed.

(** ** Facts about collections *)

Section facts.
Context {A : Type} `{EqDecision A}.
Implicit Types (c m s : DiagnosticCollection A).

Lemma collection_ind' (P : DiagnosticCollection A -> Prop) :
  (forall p ss l h, Forall P ss -> P (Collection p ss l h)) -> forall c, P c.
Proof.
  intros H. fix IH 1. intros [p ss l h]. apply H. induction ss; constructor; auto.
Qed.

Lemma flatten_eq c : flatten c = flat_map flatten (sources c) ++ local c.
Proof. by destruct c. Qed.

Lemma subnodes_self c : In c (subnodes c).
Proof. destruct c. by left. Qed.

Lemma subnodes_source c s : In s (sources c) -> In s (subnodes c).
Proof.
  destruct c as [p ss l h]. simpl. intros H. right. apply in_flat_map. exists s.
  split; [done|apply subnodes_self].
Qed.

Lemma subnodes_trans c (n : DiagnosticCollection A) m : In n (subnodes c) -> In m (subnodes n) -> In m (subnodes c).
Proof.
  revert n m. induction c as [p ss l h IH] using collection_ind'. intros n m Hn Hm.
  simpl in Hn. destruct Hn as [<-|Hn]; [done|]. apply in_flat_map in Hn as (s & Hs & Hn).
  rewrite Forall_forall in IH. right. apply in_flat_map. exists s. split; [done|].
  apply (IH s) with n; [by apply list_elem_of_In|done|done].
Qed.

Lemma size_source c s : In s (sources c) -> (size s < size c)%nat.
Proof.
  destruct c as [p ss l h]. simpl. induction ss as [|x ss IH]; simpl; [done|].
  intros [->|H]; [lia|]. apply IH in H. lia.
Qed.

Definition sizes (l : list (DiagnosticCollection A)) : nat :=
  fold_right (fun s n => (size s + n)%nat) 0%nat l.

Lemma size_eq c : size c = (2 + sizes (sources c) + length (local c))%nat.
Proof. by destruct c. Qed.

(** ** The machine's remaining output *)

Definition frame_rest (f : DiagnosticFrame A) : list Diagnostic :=
  flat_map flatten (zdrop (frame_source f) (sources (frame_collection f)))
  ++ zdrop (frame_local f) (local (frame_collection f)).

Definition iter_rest (it : DiagnosticIter A) : list Diagnostic :=
  match leaf it with
  | Some l => l
  | None => nub_from (yielded it) (flat_map frame_rest (frames it))
  end.

Definition frame_weight (f : DiagnosticFrame A) : nat :=
  1 + sizes (zdrop (frame_source f) (sources (frame_collection f)))
    + length (zdrop (frame_local f) (local (frame_collection f))).

Definition iter_weight (it : DiagnosticIter A) : nat :=
  match leaf it with
  | Some l => length l
  | None => fold_right (fun f n => (frame_weight f + n)%nat) 0%nat (frames it)
  end.

(** What is behind a frame's cursors has been yielded, except the source that
    the frame above it is working on. *)
Definition frame_ok (y : list DiagnosticDuplicateKey) (child : option (DiagnosticCollection A))
    (f : DiagnosticFrame A) : Prop :=
  0 <= frame_source f <= zlen (sources (frame_collection f)) /\
  0 <= frame_local f <= zlen (local (frame_collection f)) /\
  covered (ztake (frame_local f) (local (frame_collection f))) y /\
  match child with
  | None => covered (flat_map flatten (ztake (frame_source f) (sources (frame_collection f)))) y
  | Some s =>
      get (sources (frame_collection f)) (frame_source f - 1) = Some s /\
      covered (flat_map flatten (ztake (frame_source f - 1) (sources (frame_collection f)))) y
  end.

Fixpoint stack_ok (y : list DiagnosticDuplicateKey) (child : option (DiagnosticCollection A))
    (l : list (DiagnosticFrame A)) : Prop :=
  match l with
  | [] => True
  | f :: l' => frame_ok y child f /\ stack_ok y (Some (frame_collection f)) l'
  end.

Record iter_ok (r : DiagnosticCollection A) (it : DiagnosticIter A) : Prop := {
  io_leaf : leaf it = None;
  io_stack : stack_ok (yielded it) None (frames it);
  io_nodes : Forall (fun f => In (frame_collection f) (subnodes r)) (frames it);
  io_visited : forall a, a ∈ visited it ->
    (exists f, In f (frames it) /\ address (frame_collection f) = a) \/
    (exists n, In n (subnodes r) /\ address n = a /\ covered (flatten n) (yielded it));
}.

Lemma get_In {B} (l : list B) i x : get l i = Some x -> In x l.
Proof.
  intros Hg. rewrite get_nonneg in Hg by (apply get_Some_range in Hg; lia).
  by eapply list_elem_of_In, list_elem_of_lookup_2.
Qed.

Lemma stack_ok_size y c l f :
  stack_ok y (Some c) l -> In f l -> (size c < size (frame_collection f))%nat.
Proof.
  revert c. induction l as [|g l IH]; intros c; simpl; [done|].
  intros [(_ & _ & _ & Hg & _) Hl] [<-|Hin].
  - by apply size_source, get_In with (i := frame_source g - 1).
  - specialize (IH _ Hl Hin). apply (Nat.lt_trans _ (size (frame_collection g))); [|done].
    by apply size_source, get_In with (i := frame_source g - 1).
Qed.

Lemma frame_ok_mono y y' child f :
  (forall k, k ∈ y -> k ∈ y') -> frame_ok y child f -> frame_ok y' child f.
Proof.
  intros Hs (H1 & H2 & H3 & H4). split_and!; try lia; [by eapply covered_mono|].
  destruct child as [s|]; [destruct H4 as [? H4]; split; [done|]|]; by eapply covered_mono.
Qed.

Lemma stack_ok_mono y y' child l :
  (forall k, k ∈ y -> k ∈ y') -> stack_ok y child l -> stack_ok y' child l.
Proof.
  intros Hs. revert child. induction l as [|f l IH]; intros child; simpl; [done|].
  intros [H1 H2]. split; [by eapply frame_ok_mono|by apply IH].
Qed.

Lemma ztake_succ {B} (l : list B) i x : get l i = Some x -> ztake (i + 1) l = ztake i l ++ [x].
Proof.
  intros Hg. pose proof (get_Some_range _ _ _ Hg). rewrite get_nonneg in Hg by lia.
  unfold ztake. replace (Z.to_nat (i + 1)) with (S (Z.to_nat i)) by lia. by apply take_S_r.
Qed.

(** A source whose address was visited has already been yielded: an address on
    the stack would be an ancestor of itself. *)
Lemma visited_source_covered r it f rest s :
  coherent [r] -> iter_ok r it -> frames it = f :: rest ->
  get (sources (frame_collection f)) (frame_source f) = Some s -> address s ∈ visited it ->
  covered (flatten s) (yielded it).
Proof.
  intros Hc [_ Hst Hn Hv] Hf Hg Hin. rewrite Hf in *. apply get_In in Hg.
  inversion Hn as [|? ? Hnf Hnr]; subst. simpl in Hst. destruct Hst as [_ Hrest].
  assert (In s (subnodes r)) as Hs by (by eapply subnodes_trans, subnodes_source).
  assert (forall n, In n (subnodes r) -> address n = address s -> n = s) as Heq.
  { intros n Hn' Ha. apply Hc; simpl; rewrite ?app_nil_r; done. }
  destruct (Hv _ Hin) as [(g & Hg' & Ha)|(n & Hn' & Ha & Hcov)]; [exfalso|by rewrite <- (Heq n)].
  rewrite Forall_forall in Hnr. pose proof (size_source _ _ Hg) as Hlt.
  destruct Hg' as [<-|Hg'].
  - apply Heq in Ha; [|done]. rewrite Ha in Hlt. lia.
  - pose proof (stack_ok_size _ _ _ _ Hrest Hg') as Hlt'.
    apply Heq in Ha; [|apply Hnr; by apply list_elem_of_In]. rewrite Ha in Hlt'. lia.
Qed.

(** The state after a turn that yields nothing. *)
Definition step_ok (r : DiagnosticCollection A) (it it' : DiagnosticIter A) : Prop :=
  iter_ok r it' /\ iter_rest it' = iter_rest it /\ (iter_weight it' < iter_weight it)%nat.

Definition advance_source (f : DiagnosticFrame A) : DiagnosticFrame A :=
  {| frame_collection := frame_collection f; frame_source := frame_source f + 1;
     frame_local := frame_local f |}.

Definition advance_local (f : DiagnosticFrame A) : DiagnosticFrame A :=
  {| frame_collection := frame_collection f; frame_source := frame_source f;
     frame_local := frame_local f + 1 |}.

Section step.
Context (r : DiagnosticCollection A) (Hcoh : coherent [r]).
Context (it : DiagnosticIter A) (f : DiagnosticFrame A) (rest : list (DiagnosticFrame A)).
Context (Hit : iter_ok r it) (Hf : frames it = f :: rest).

Lemma source_rest s :
  get (sources (frame_collection f)) (frame_source f) = Some s ->
  frame_rest f = flatten s ++ frame_rest (advance_source f) /\
  frame_weight f = (size s + frame_weight (advance_source f))%nat.
Proof using.
  intros Hg. unfold frame_rest, frame_weight. simpl. rewrite (zdrop_cons_get _ _ _ Hg). simpl.
  rewrite app_assoc. split; [done|lia].
Qed.

Lemma local_rest d :
  get (sources (frame_collection f)) (frame_source f) = None ->
  get (local (frame_collection f)) (frame_local f) = Some d ->
  frame_rest f = d :: frame_rest (advance_local f) /\
  frame_weight f = S (frame_weight (advance_local f)).
Proof using Hit Hf.
  intros Hs Hg. destruct Hit as [_ Hst _ _]. rewrite Hf in Hst. destruct Hst as [(Hr & _) _].
  apply get_None in Hs. unfold frame_rest, frame_weight. simpl.
  rewrite (zdrop_cons_get _ _ _ Hg), !zdrop_all by lia. simpl. split; [done|lia].
Qed.

Lemma step_visited s :
  get (sources (frame_collection f)) (frame_source f) = Some s -> address s ∈ visited it ->
  step_ok r it {| leaf := leaf it; frames := advance_source f :: rest; visited := visited it;
                  yielded := yielded it |}.
Proof using Hcoh Hit Hf.
  intros Hg Hin. pose proof (visited_source_covered r it f rest s Hcoh Hit Hf Hg Hin) as Hcov.
  destruct (source_rest s Hg) as [Hr Hw]. pose proof (get_Some_range _ _ _ Hg).
  destruct Hit as [Hleaf Hst Hn Hv]. rewrite Hf in Hst, Hn, Hv. unfold step_ok, iter_rest, iter_weight.
  rewrite Hleaf, Hf. cbn [leaf frames visited yielded flat_map fold_right]. rewrite Hr, Hw, <- app_assoc.
  rewrite (nub_from_app _ (flatten s)), (nub_from_covered _ (flatten s)) by done.
  split_and!; [constructor; simpl; try done| |rewrite size_eq; lia].
  - destruct Hst as [(Hs1 & Hs2 & Hs3 & Hs4) Hst]. split; [|done]. unfold frame_ok. simpl.
    split_and!; try lia; [done|]. rewrite (ztake_succ _ _ _ Hg), flat_map_app, covered_app.
    split; [done|]. simpl. by rewrite app_nil_r.
  - inversion Hn; subst. by constructor.
  - intros a Ha. destruct (Hv a Ha) as [(g & [<-|Hg'] & Hga)|Hr']; [left..|by right].
    + exists (advance_source f). split; [by left|done].
    + exists g. split; [by right|done].
  - simpl. apply nub_from_ext. intros k. rewrite elem_of_app. split; [by right|].
    intros [Hk|?]; [by apply Hcov|done].
Qed.

Lemma step_push s :
  get (sources (frame_collection f)) (frame_source f) = Some s ->
  step_ok r it {| leaf := leaf it; frames := new_frame s :: advance_source f :: rest;
                  visited := address s :: visited it; yielded := yielded it |}.
Proof using Hcoh Hit Hf.
  intros Hg. destruct (source_rest s Hg) as [Hr Hw]. pose proof (get_Some_range _ _ _ Hg).
  destruct Hit as [Hleaf Hst Hn Hv]. rewrite Hf in Hst, Hn, Hv. unfold step_ok, iter_rest, iter_weight.
  rewrite Hleaf, Hf. cbn [leaf frames visited yielded flat_map fold_right]. rewrite Hr, Hw. pose proof (zlen_nonneg (sources s)).
  pose proof (zlen_nonneg (local s)). inversion Hn as [|? ? Hnf Hnr]; subst.
  split_and!; [constructor; simpl; try done| |].
  - destruct Hst as [(Hs1 & Hs2 & Hs3 & Hs4) Hst]. split_and!; [| |done]; unfold frame_ok; simpl.
    + split_and!; try lia; intros k Hk; by apply not_elem_of_nil in Hk.
    + replace (frame_source f + 1 - 1) with (frame_source f) by lia. split_and!; done || lia.
  - repeat constructor; try done. eapply subnodes_trans; [exact Hnf|].
    by apply subnodes_source, get_In with (i := frame_source f).
  - intros a. rewrite elem_of_cons. intros [->|Ha].
    { left. exists (new_frame s). split; [by left|done]. }
    destruct (Hv a Ha) as [(g & [<-|Hg'] & Hga)|Hr']; [left..|by right].
    + exists (advance_source f). split; [by right; left|done].
    + exists g. split; [by right; right|done].
  - unfold frame_rest at 1. simpl. rewrite !zdrop_0, <- flatten_eq. by rewrite <- app_assoc.
  - unfold frame_weight at 1. cbn [new_frame frame_collection frame_source frame_local].
    rewrite !zdrop_0, size_eq. lia.
Qed.

Lemma step_local_dup d :
  get (sources (frame_collection f)) (frame_source f) = None ->
  get (local (frame_collection f)) (frame_local f) = Some d -> duplicate_key d ∈ yielded it ->
  step_ok r it {| leaf := leaf it; frames := advance_local f :: rest; visited := visited it;
                  yielded := yielded it |}.
Proof using Hit Hf.
  intros Hs Hg Hin. destruct (local_rest d Hs Hg) as [Hr Hw]. pose proof (get_Some_range _ _ _ Hg).
  destruct Hit as [Hleaf Hst Hn Hv]. rewrite Hf in Hst, Hn, Hv. unfold step_ok, iter_rest, iter_weight.
  rewrite Hleaf, Hf. cbn [leaf frames visited yielded flat_map fold_right]. rewrite Hr, Hw.
  split_and!; [constructor; simpl; try done| |lia].
  - destruct Hst as [(Hs1 & Hs2 & Hs3 & Hs4) Hst]. split; [|done]. unfold frame_ok. simpl.
    split_and!; try lia; [|done]. rewrite (ztake_succ _ _ _ Hg), covered_app.
    split; [done|]. intros k. simpl. rewrite list_elem_of_singleton. by intros ->.
  - inversion Hn; subst. by constructor.
  - intros a Ha. destruct (Hv a Ha) as [(g & [<-|Hg'] & Hga)|Hr']; [left..|by right].
    + exists (advance_local f). split; [by left|done].
    + exists g. split; [by right|done].
  - rewrite <- app_comm_cons. simpl. by destruct (decide _).
Qed.

Lemma step_local_new d it' :
  get (sources (frame_collection f)) (frame_source f) = None ->
  get (local (frame_collection f)) (frame_local f) = Some d -> duplicate_key d ∉ yielded it ->
  it' = {| leaf := leaf it; frames := advance_local f :: rest; visited := visited it;
           yielded := duplicate_key d :: yielded it |} ->
  iter_ok r it' /\ iter_rest it = d :: iter_rest it' /\ (iter_weight it' < iter_weight it)%nat.
Proof using Hit Hf.
  intros Hs Hg Hin ->. destruct (local_rest d Hs Hg) as [Hr Hw]. pose proof (get_Some_range _ _ _ Hg).
  destruct Hit as [Hleaf Hst Hn Hv]. rewrite Hf in Hst, Hn, Hv. unfold iter_rest, iter_weight.
  rewrite Hleaf, Hf. cbn [leaf frames visited yielded flat_map fold_right]. rewrite Hr, Hw.
  assert (forall k, k ∈ yielded it -> k ∈ duplicate_key d :: yielded it) as Hmono by by right.
  split_and!; [constructor; simpl; try done| |lia].
  - apply (stack_ok_mono _ _ _ _ Hmono) in Hst.
    destruct Hst as [(Hs1 & Hs2 & Hs3 & Hs4) Hst]. split; [|done]. unfold frame_ok. simpl.
    split_and!; try lia; [|done]. rewrite (ztake_succ _ _ _ Hg), covered_app.
    split; [done|]. intros k. simpl. rewrite list_elem_of_singleton. intros ->. by left.
  - inversion Hn; subst. by constructor.
  - intros a Ha. destruct (Hv a Ha) as [(g & [<-|Hg'] & Hga)|(n & Hn1 & Hn2 & Hn3)]; [left..|right].
    + exists (advance_local f). split; [by left|done].
    + exists g. split; [by right|done].
    + exists n. split_and!; [done|done|by eapply covered_mono].
  - rewrite <- app_comm_cons. simpl. by destruct (decide _).
Qed.

(** A finished frame's collection is fully yielded. *)
Lemma finished_covered :
  get (sources (frame_collection f)) (frame_source f) = None ->
  get (local (frame_collection f)) (frame_local f) = None ->
  covered (flatten (frame_collection f)) (yielded it) /\ frame_rest f = [].
Proof using Hit Hf.
  intros Hs%get_None Hl%get_None. destruct Hit as [_ Hst _ _]. rewrite Hf in Hst.
  destruct Hst as [(Hr1 & Hr2 & Hr3 & Hr4) _].
  rewrite ztake_all in Hr3 by lia. cbn match in Hr4. rewrite ztake_all in Hr4 by lia. split; [by rewrite flatten_eq, covered_app|].
  unfold frame_rest. by rewrite !zdrop_all by lia.
Qed.

Lemma step_pop :
  get (sources (frame_collection f)) (frame_source f) = None ->
  get (local (frame_collection f)) (frame_local f) = None ->
  step_ok r it {| leaf := leaf it; frames := rest; visited := visited it; yielded := yielded it |}.
Proof using Hit Hf.
  intros Hs Hl. destruct (finished_covered Hs Hl) as [Hcov Hr].
  destruct Hit as [Hleaf Hst Hn Hv]. rewrite Hf in Hst, Hn, Hv. unfold step_ok, iter_rest, iter_weight.
  rewrite Hleaf, Hf. cbn [leaf frames visited yielded flat_map fold_right]. rewrite Hr.
  inversion Hn as [|? ? Hnf Hnr]; subst.
  split_and!; [constructor; simpl; try done|done|unfold frame_weight; lia].
  - destruct Hst as [_ Hst]. destruct rest as [|g rest']; [done|]. simpl in *.
    destruct Hst as [(Hs1 & Hs2 & Hs3 & Hs4 & Hs5) Hst]. split; [|done].
    unfold frame_ok. split_and!; try lia; [done|].
    apply ztake_succ in Hs4. replace (frame_source g - 1 + 1) with (frame_source g) in Hs4 by lia.
    rewrite Hs4, flat_map_app, covered_app. split; [done|]. simpl. by rewrite app_nil_r.
  - intros a Ha. destruct (Hv a Ha) as [(g & [<-|Hg'] & Hga)|Hr']; [right|left|by right].
    + by exists (frame_collection f).
    + by exists g.
Qed.
End step.

(** [next] returns the head of the remaining output and leaves the tail. *)
Lemma next_spec r it fuel :
  coherent [r] -> iter_ok r it -> (iter_weight it < fuel)%nat ->
  returns (DiagnosticIter_next fuel it) (fun '(d, it') =>
    iter_ok r it' /\
    match d with
    | Some d => iter_rest it = d :: iter_rest it' /\ (iter_weight it' < iter_weight it)%nat
    | None => iter_rest it = []
    end).
Proof.
  intros Hc Hit Hfuel. unfold DiagnosticIter_next. rewrite (io_leaf _ _ Hit).
  eapply (loop_rule (fun it' => iter_ok r it' /\ iter_rest it' = iter_rest it /\
            (iter_weight it' <= iter_weight it)%nat) iter_weight); [|split_and!; done || lia|done].
  intros it1 (Hok & Hrest & Hle). unfold next_step. destruct (frames it1) as [|f rest] eqn:Hf.
  { apply returns_ret. split; [done|]. rewrite <- Hrest. unfold iter_rest.
    by rewrite (io_leaf _ _ Hok), Hf. }
  assert (forall it2, step_ok r it1 it2 ->
    (iter_ok r it2 /\ iter_rest it2 = iter_rest it /\ (iter_weight it2 <= iter_weight it)%nat) /\
    (iter_weight it2 < iter_weight it1)%nat) as Hstep.
  { intros it2 (? & ? & ?). split_and!; [done|congruence|lia|done]. }
  destruct (get (sources _) _) as [s|] eqn:Hs.
  - destruct (decide _); apply returns_ret, Hstep;
      [by apply (step_visited r Hc it1 f rest Hok Hf s)|by apply (step_push r Hc it1 f rest Hok Hf s)].
  - destruct (get (local _) _) as [d|] eqn:Hl.
    + destruct (decide _) as [Hd|Hd]; apply returns_ret.
      * apply Hstep. by apply (step_local_dup r it1 f rest Hok Hf d).
      * destruct (step_local_new r it1 f rest Hok Hf d _ Hs Hl Hd eq_refl) as (H1 & H2 & H3).
        split; [exact H1|]. rewrite <- Hrest. split; [exact H2|].
        eapply Nat.lt_le_trans; [exact H3|done].
    + apply returns_ret, Hstep. by apply (step_pop r it1 f rest Hok Hf).
Qed.

Lemma iter_new_ok c :
  sources c <> [] -> iter_ok c (DiagnosticIter_new c) /\
  iter_rest (DiagnosticIter_new c) = nub (flatten c) /\
  (iter_weight (DiagnosticIter_new c) < size c)%nat.
Proof.
  intros Hs. unfold DiagnosticIter_new. destruct (sources c) as [|s0 ss] eqn:E; [done|].
  pose proof (zlen_nonneg (sources c)). pose proof (zlen_nonneg (local c)). split_and!.
  - constructor; simpl; [done| | |].
    + split; [|done]. unfold frame_ok. simpl.
      split_and!; try lia; intros k Hk; by apply not_elem_of_nil in Hk.
    + repeat constructor. apply subnodes_self.
    + intros a ->%list_elem_of_singleton. left. exists (new_frame c). split; [by left|done].
  - unfold iter_rest. simpl. rewrite app_nil_r. unfold frame_rest. simpl. rewrite !zdrop_0.
    by rewrite flatten_eq.
  - unfold iter_weight. cbn [leaf frames fold_right]. unfold frame_weight.
    cbn [new_frame frame_collection frame_source frame_local]. rewrite !zdrop_0, size_eq. lia.
Qed.

Definition iter_good (r : DiagnosticCollection A) (it : DiagnosticIter A) : Prop :=
  (exists l, leaf it = Some l) \/ iter_ok r it.

Lemma next_good r it fuel :
  coherent [r] -> iter_good r it -> (iter_weight it < fuel)%nat ->
  returns (DiagnosticIter_next fuel it) (fun '(d, it') =>
    iter_good r it' /\
    match d with
    | Some d => iter_rest it = d :: iter_rest it' /\ (iter_weight it' < iter_weight it)%nat
    | None => iter_rest it = []
    end).
Proof.
  intros Hc [[l Hl]|Hok] Hfuel.
  - unfold DiagnosticIter_next, iter_rest, iter_weight. rewrite Hl.
    destruct l as [|d l]; apply returns_ret; simpl.
    + split; [left; eauto|done].
    + split_and!; [left; by eexists|done|lia].
  - eapply returns_mono; [by apply next_spec|]. intros [d it'] [H1 H2]. split; [by right|done].
Qed.

(** Iteration terminates; a leaf yields its diagnostics as they are, any other
    collection yields its diagnostics without duplicates. *)
Lemma iter_collect_spec c :
  coherent [c] ->
  iter_collect c = Ret (match sources c with [] => local c | _ => nub (flatten c) end).
Proof.
  intros Hc. set (target := match sources c with [] => local c | _ => nub (flatten c) end).
  assert (iter_good c (DiagnosticIter_new c) /\ iter_rest (DiagnosticIter_new c) = target /\
          (iter_weight (DiagnosticIter_new c) <= size c)%nat) as (Hg & Hr & Hw).
  { subst target. destruct (sources c) as [|s0 ss] eqn:E.
    - unfold DiagnosticIter_new. rewrite E. split_and!; [left; by eexists|done|].
      unfold iter_weight. simpl. rewrite size_eq. lia.
    - destruct (iter_new_ok c) as (H1 & H2 & H3); [by rewrite E|]. split_and!; [by right|done|lia]. }
  enough (returns (iter_collect c) (eq target)) as (l & -> & <-) by done.
  unfold iter_collect. eapply (loop_rule (fun st => iter_good c st.1 /\ st.2 ++ iter_rest st.1 = target /\
    (iter_weight st.1 <= size c)%nat) (fun st => iter_weight st.1)); [|simpl; by rewrite Hr|simpl; lia].
  intros [it acc] (Hgood & Hacc & Hle). simpl in *.
  eapply returns_bind; [apply (next_good c); [done|done|lia]|]. intros [[d|] it'] [Hg' Hn].
  - destruct Hn as [Hn Hlt]. apply returns_ret. simpl. split_and!; [done| |lia|done].
    rewrite <- Hacc, Hn, <- app_assoc. done.
  - apply returns_ret. by rewrite <- Hacc, Hn, app_nil_r.
Qed.
End facts.

(** ** What a bag contains *)

Section contents.
Context {A : Type} `{EqDecision A}.

(** The distinct diagnostics of a bag in first-occurrence order. *)
Definition contents (b : DiagnosticBag A) : list Diagnostic := nub (flatten (root b)).

Lemma flags_ok_root c : flags_ok (A := A) c ->
  has_diagnostics c = match flatten c with [] => false | _ => true end.
Proof. intros H. apply H, subnodes_self. Qed.

Lemma is_empty_contents b : flags_ok (root b) -> DiagnosticBag_is_empty b = true <-> contents b = [].
Proof.
  intros Hf%flags_ok_root. unfold DiagnosticBag_is_empty, contents. rewrite Hf, nub_nil.
  by destruct (flatten (root b)).
Qed.

Abbreviation flat bags := (flat_map (fun b : DiagnosticBag A => flatten (root b)) bags).

(** An empty bag, or one whose root is among the bags before it, adds nothing. *)
Lemma redundant_bag (before after : list (DiagnosticBag A)) b l :
  coherent (map root (before ++ b :: after)) -> flags_ok (root b) ->
  DiagnosticBag_is_empty b = true \/ (exists b', In b' before /\ address (root b') = address (root b)) ->
  nub (flat before ++ flatten (root b) ++ l) = nub (flat before ++ l).
Proof.
  intros Hc Hb Hor. unfold nub. rewrite !nub_from_app. f_equal.
  assert (covered (flatten (root b)) (keys (flat before) ++ [])) as Hcov.
  { rewrite app_nil_r. destruct Hor as [He|(b' & Hin & Ha)].
    - unfold DiagnosticBag_is_empty in He. rewrite (flags_ok_root _ Hb) in He.
      destruct (flatten (root b)); [|done]. intros k Hk. by apply not_elem_of_nil in Hk.
    - assert (root b' = root b) as Heq.
      { apply Hc; [..|done]; apply in_flat_map; eexists; (split; [|apply subnodes_self]);
          apply in_map, in_app_iff; [by left|by right; left]. }
      intros k Hk. unfold keys in *. apply list_elem_of_In, in_map_iff.
      apply list_elem_of_In, in_map_iff in Hk as (d & <- & Hd). exists d. split; [done|].
      apply in_flat_map. exists b'. by rewrite Heq. }
  rewrite (nub_from_covered _ _ Hcov). simpl. apply nub_from_ext. intros k.
  rewrite elem_of_app. split; [|by right]. intros [Hk|Hk]; [by apply Hcov|done].
Qed.

Lemma coherent_sub (l l' : list (DiagnosticCollection A)) :
  (forall c, In c l' -> In c l) -> coherent l -> coherent l'.
Proof.
  intros Hs Hc n m Hn Hm. apply Hc; apply in_flat_map in Hn as (? & ? & ?), Hm as (? & ? & ?);
    apply in_flat_map; eauto.
Qed.

(** Skipping empty bags and repeated roots loses nothing. *)
Lemma select_sources_spec (bags before : list (DiagnosticBag A)) seen :
  (forall a, a ∈ seen -> exists b', In b' before /\ address (root b') = a) ->
  coherent (map root (before ++ bags)) -> Forall (fun b => flags_ok (root b)) bags ->
  nub (flat before ++ flat_map flatten (select_sources seen bags)) = nub (flat before ++ flat bags).
Proof.
  intros Hseen Hc Hfl. revert before seen Hseen Hc.
  induction Hfl as [|b bags Hb Hfl IH]; intros before seen Hseen Hc; simpl; [done|].
  assert (coherent (map root (before ++ bags))) as Hc1.
  { eapply coherent_sub; [|exact Hc]. intros c. rewrite !in_map_iff. setoid_rewrite in_app_iff. simpl. firstorder. }
  destruct (DiagnosticBag_is_empty b) eqn:Ee; [|destruct (decide _) as [Hin|Hin]].
  - rewrite (redundant_bag before bags b) by auto. by apply IH.
  - rewrite (redundant_bag before bags b) by auto. by apply IH.
  - specialize (IH (before ++ [b]) (address (root b) :: seen)).
    rewrite flat_map_app in IH. simpl in IH. rewrite app_nil_r, <- !app_assoc in IH. apply IH; [|done].
    intros a. rewrite elem_of_cons. intros [->|Ha].
    + exists b. split; [apply in_app_iff; right; by left|done].
    + destruct (Hseen a Ha) as (b' & ? & ?). exists b'. split; [apply in_app_iff; by left|done].
Qed.

Definition fresh (p : A) (l : list (DiagnosticCollection A)) : Prop :=
  forall n, In n (flat_map subnodes l) -> address n <> p.

Lemma subnodes_eq (c : DiagnosticCollection A) : subnodes c = c :: flat_map subnodes (sources c).
Proof. by destruct c. Qed.

Lemma subnodes_size (c n : DiagnosticCollection A) :
  In n (flat_map subnodes (sources c)) -> (size n < size c)%nat.
Proof.
  revert n. induction c as [p ss l h IH] using collection_ind'. intros n Hn.
  apply in_flat_map in Hn as (s & Hs & Hn). pose proof (size_source (Collection p ss l h) s Hs).
  rewrite subnodes_eq in Hn. destruct Hn as [<-|Hn]; [done|].
  rewrite Forall_forall in IH. specialize (IH s ltac:(by apply list_elem_of_In) n Hn). lia.
Qed.

(** A node over coherent sources is coherent if its address is not among them. *)
Lemma coherent_node p (ss : list (DiagnosticCollection A)) l h :
  coherent ss -> fresh p ss -> coherent [Collection p ss l h].
Proof.
  intros Hc Hf n m. simpl. rewrite !app_nil_r. intros [<-|Hn] [<-|Hm] Ha; simpl in Ha; [done|..].
  - symmetry in Ha. by apply Hf in Ha.
  - by apply Hf in Ha.
  - by apply Hc.
Qed.

Lemma flags_ok_node p (ss : list (DiagnosticCollection A)) l h :
  Forall flags_ok ss -> h = match flat_map flatten ss ++ l with [] => false | _ => true end ->
  flags_ok (Collection p ss l h).
Proof.
  intros Hss Hh n. simpl. intros [<-|Hn]; [done|]. apply in_flat_map in Hn as (s & Hs & Hn).
  rewrite Forall_forall in Hss. by apply (Hss s); [apply list_elem_of_In|].
Qed.

Lemma select_sources_In seen (bags : list (DiagnosticBag A)) c :
  In c (select_sources seen bags) -> exists b, In b bags /\ root b = c /\ DiagnosticBag_is_empty b = false.
Proof.
  revert seen. induction bags as [|b bags IH]; intros seen; simpl; [done|].
  destruct (DiagnosticBag_is_empty b) eqn:Ee; [|destruct (decide _)].
  - intros H. apply IH in H as (b' & ? & ? & ?). eauto.
  - intros H. apply IH in H as (b' & ? & ? & ?). eauto.
  - intros [<-|H]; [eauto|]. apply IH in H as (b' & ? & ? & ?). eauto.
Qed.

Lemma nub_flat_contents (bags : list (DiagnosticBag A)) l :
  nub (l ++ flat bags) = nub (l ++ flat_map contents bags).
Proof.
  revert l. induction bags as [|b bags IH]; intros l; simpl; [done|].
  rewrite !app_assoc, IH. unfold nub. rewrite !nub_from_app. f_equal; [f_equal|].
  - change (contents b) with (nub (flatten (root b))). by rewrite nub_from_nub.
  - apply nub_from_ext. intros k. unfold contents. rewrite !keys_app, !elem_of_app, keys_nub. done.
Qed.

(** What merging promises. *)
Lemma merged_all_spec p (bags : list (DiagnosticBag A)) :
  coherent (map root bags) -> Forall (fun b => flags_ok (root b)) bags -> fresh p (map root bags) ->
  let m := DiagnosticBag_merged_all p bags in
  contents m = nub (flat_map contents bags) /\ coherent [root m] /\ flags_ok (root m).
Proof.
  intros Hc Hf Hp m. subst m.
  pose proof (select_sources_spec bags [] [] ltac:(by intros a Ha; apply not_elem_of_nil in Ha) Hc Hf) as Hsel.
  pose proof (nub_flat_contents bags []) as Hnub. simpl in Hsel, Hnub. rewrite <- Hnub, <- Hsel.
  assert (forall c, In c (select_sources [] bags) -> In c (map root bags)) as Hin.
  { intros c Hc'. apply select_sources_In in Hc' as (b & Hb & <- & _). by apply in_map. }
  assert (forall c, In c (select_sources [] bags) -> flags_ok c /\ flatten c <> []) as Hfl.
  { intros c Hc'. apply select_sources_In in Hc' as (b & Hb & <- & He).
    rewrite Forall_forall in Hf. pose proof (Hf b ltac:(by apply list_elem_of_In)) as Hb'. split; [done|].
    unfold DiagnosticBag_is_empty in He. rewrite (flags_ok_root _ Hb') in He. by destruct (flatten (root b)). }
  pose proof (coherent_sub _ _ Hin Hc) as Hcs. unfold DiagnosticBag_merged_all.
  destruct (select_sources [] bags) as [|c [|c' ss]].
  - split_and!; [done| |].
    + apply coherent_node; [done|by intros n Hn].
    + by apply flags_ok_node.
  - split_and!; [unfold contents; simpl; by rewrite app_nil_r|done|].
    apply Hfl. by left.
  - split_and!.
    + unfold contents. simpl. by rewrite app_nil_r.
    + apply coherent_node; [done|]. intros n Hn. apply Hp.
      apply in_flat_map in Hn as (x & Hx & Hn). apply in_flat_map. eauto.
    + apply flags_ok_node; [apply Forall_forall; intros x Hx; apply Hfl; by apply list_elem_of_In|].
      destruct (Hfl c) as [_ Hne]; [by left|]. simpl. by destruct (flatten c).
Qed.

Lemma nub_snoc l d : nub (l ++ [d]) = nub (nub l ++ [d]).
Proof. pose proof (nub_app_nub l [d]) as Hn. by rewrite <- Hn. Qed.

Lemma add_spec u p (b : DiagnosticBag A) d :
  coherent [root b] -> flags_ok (root b) -> fresh p [root b] ->
  let b' := DiagnosticBag_add u p b d in
  contents b' = nub (contents b ++ [d]) /\ coherent [root b'] /\ flags_ok (root b').
Proof.
  intros Hc Hf Hp b'. subst b'. unfold DiagnosticBag_add. destruct u.
  - assert (forall n, In n (flat_map subnodes (sources (root b))) -> In n (flat_map subnodes [root b])) as Hsub.
    { intros n Hn. simpl. rewrite app_nil_r, subnodes_eq. by right. }
    split_and!; simpl.
    + unfold contents. simpl. by rewrite app_assoc, <- flatten_eq, nub_snoc.
    + apply coherent_node; [intros n m Hn Hm; apply Hc; auto|]. intros n Hn Ha.
      assert (n = root b) as -> by (apply Hc; [auto| |done]; simpl; rewrite app_nil_r; apply subnodes_self).
      apply subnodes_size in Hn. lia.
    + apply flags_ok_node; 
        [|rewrite app_assoc; by destruct (flat_map flatten (sources (root b)) ++ local (root b))].
      apply Forall_forall. intros s Hs%list_elem_of_In n Hn. apply Hf.
      by eapply subnodes_trans; [apply subnodes_source|].
  - split_and!; simpl.
    + unfold contents. simpl. by rewrite app_nil_r, nub_snoc.
    + by apply coherent_node.
    + apply flags_ok_node; [by repeat constructor|]. simpl. rewrite app_nil_r. by destruct (flatten (root b)).
Qed.
End contents.

(** ** Theorems *)

(** C29. Iterating a bag always terminates and is exact: a leaf collection yields
    its own diagnostics in insertion order, repeated ones as often as they were
    added; a collection with sources yields every diagnostic reachable through
    them once, in first-occurrence order, although shared sub-collections are
    visited only once; [len] and [into_vec] agree with the iteration, shared or
    not. *)
Theorem bag_iteration_correct {A} `{EqDecision A} (b : DiagnosticBag A) u :
  coherent [root b] ->
  exists l, DiagnosticBag_iter b = Ret l /\
    l = (match sources (root b) with [] => local (root b) | _ => contents b end) /\
    (sources (root b) <> [] -> NoDup (keys l)) /\
    (forall k, k ∈ keys l <-> k ∈ keys (flatten (root b))) /\
    DiagnosticBag_len b = Ret (zlen l) /\ DiagnosticBag_into_vec b u = Ret l.
Proof.
  intros Hc. pose proof (iter_collect_spec _ Hc) as Hi. eexists. split; [exact Hi|].
  unfold DiagnosticBag_len, DiagnosticBag_into_vec, DiagnosticBag_iter. rewrite Hi.
  pose proof (flatten_eq (root b)) as Hfe.
  destruct (sources (root b)) as [|s ss] eqn:E; (split; [done|]).
  - simpl in Hfe. rewrite Hfe. split_and!; [done|done|done|by destruct u].
  - split_and!; [intros _; apply nub_NoDup|intros k; apply keys_nub|done|done].
Qed.

Lemma add_range_leaf {A} (p : A) ds l h :
  DiagnosticBag_add_range true p {| root := Collection p [] l h |} ds =
  {| root := Collection p [] (l ++ ds) (match ds with [] => h | _ => true end) |}.
Proof.
  destruct ds as [|d ds]; [by rewrite app_nil_r|]. cbn. change (l ++ d :: ds) with (l ++ [d] ++ ds). rewrite app_assoc.
  generalize (l ++ [d]). clear l d. induction ds as [|d ds IH]; intros l; cbn; [by rewrite app_nil_r|].
  by rewrite IH, <- app_assoc.
Qed.

Lemma leaf_coherent {A} (p : A) l h : coherent [Collection p [] l h].
Proof. intros n m Hn Hm _. cbn in Hn, Hm. destruct Hn as [<-|[]], Hm as [<-|[]]. done. Qed.

(** Collecting diagnostics into a bag and taking them out again, by iteration
    or by conversion, returns them all in order; the bag is empty exactly when
    none were collected, counts them, and equals the bag made from the vector. *)
Theorem bag_collect_round_trip {A} `{EqDecision A} (p q : A) u ds :
  let b := DiagnosticBag_from_iter p ds in
  DiagnosticBag_iter b = Ret ds /\ DiagnosticBag_into_vec b u = Ret ds /\
  DiagnosticBag_len b = Ret (zlen ds) /\ (DiagnosticBag_is_empty b = true <-> ds = []) /\
  DiagnosticBag_eq b (DiagnosticBag_from_vec q ds) = Ret true.
Proof.
  cbn zeta. unfold DiagnosticBag_from_iter, DiagnosticBag_extend, DiagnosticBag_new. rewrite add_range_leaf. cbn [app].
  assert (forall (p : A) h, DiagnosticBag_iter {| root := Collection p [] ds h |} = Ret ds) as Hi.
  { intros p' h. unfold DiagnosticBag_iter. by rewrite (iter_collect_spec _ (leaf_coherent p' ds h)). }
  unfold DiagnosticBag_into_vec, DiagnosticBag_len, DiagnosticBag_eq, DiagnosticBag_from_vec. rewrite !Hi. cbn.
  split_and!; [done|by destruct u|done|by destruct ds|]. by rewrite bool_decide_true.
Qed.

Definition sample_diagnostic : Diagnostic :=
  Diagnostic_new 0 LexicalInvalidIdentifier SeverityError.

Definition sample_bag : DiagnosticBag nat :=
  DiagnosticBag_merged 2%nat (DiagnosticBag_single 0%nat sample_diagnostic)
    (DiagnosticBag_single 1%nat sample_diagnostic).

Lemma sample_bag_coherent : coherent [root sample_bag].
Proof.
  intros n m Hn Hm Ha. vm_compute in Hn, Hm.
  repeat destruct Hn as [<-|Hn]; repeat destruct Hm as [<-|Hm]; done.
Qed.

Lemma bag_iteration_correct_witness :
  coherent [root sample_bag] /\
  exists l, DiagnosticBag_iter sample_bag = Ret l /\ DiagnosticBag_len sample_bag = Ret (zlen l).
Proof.
  split; [exact sample_bag_coherent|].
  destruct (bag_iteration_correct sample_bag true sample_bag_coherent) as (l & H1 & _ & _ & _ & H2 & _).
  exists l. split; [exact H1|exact H2].
Defined.

(** Merging and adding keep bags consistent and have set-like contents: a
    merge contains the distinct diagnostics of its inputs in first-occurrence
    order, an addition appends one diagnostic unless it is there already, and
    whether the root was shared does not change that. *)
Theorem bag_merge_add_correct {A} `{EqDecision A} p (bags : list (DiagnosticBag A)) q u d :
  coherent (map root bags) -> Forall (fun b => flags_ok (root b)) bags -> fresh p (map root bags) ->
  let m := DiagnosticBag_merged_all p bags in
  fresh q [root m] ->
  let m' := DiagnosticBag_add u q m d in
  contents m = nub (flat_map contents bags) /\ coherent [root m] /\ flags_ok (root m) /\
  (DiagnosticBag_is_empty m = true <-> flat_map contents bags = []) /\
  contents m' = nub (flat_map contents bags ++ [d]) /\ coherent [root m'] /\ flags_ok (root m').
Proof.
  intros Hc Hf Hp m Hq m'. destruct (merged_all_spec p bags Hc Hf Hp) as (H1 & H2 & H3). fold m in H1, H2, H3.
  destruct (add_spec u q m d H2 H3 Hq) as (H4 & H5 & H6). fold m' in H4, H5, H6.
  split_and!; try done.
  - rewrite is_empty_contents, H1 by done. apply nub_nil.
  - by rewrite H4, H1, <- nub_snoc.
Qed.


(** Merging does not always remove duplicates: merging a leaf bag that holds
    a diagnostic twice with an empty bag returns the leaf itself, whose
    iteration repeats the diagnostic; and adding a diagnostic that is already
    there shows up twice or once depending on whether the root was shared. *)
Theorem bag_duplicates_observable :
  let d := sample_diagnostic in
  let twice := DiagnosticBag_from_vec 0%nat [d; d] in
  let once := DiagnosticBag_single 1%nat d in
  DiagnosticBag_iter (DiagnosticBag_merged 3%nat twice (DiagnosticBag_new 2%nat)) = Ret [d; d] /\
  DiagnosticBag_iter (DiagnosticBag_merged 3%nat twice once) = Ret [d] /\
  DiagnosticBag_iter (DiagnosticBag_add true 4%nat once d) = Ret [d; d] /\
  DiagnosticBag_iter (DiagnosticBag_add false 4%nat once d) = Ret [d].
Proof. vm_compute. done. Qed.

(** ** The interface of the lexer

    The lexer uses bags through these operations; their laws speak about the
    distinct diagnostics of a bag. *)
Class DiagnosticSink (B : Type) := {
  sink_new : B;
  sink_single : Diagnostic -> B;
  sink_add : B -> Diagnostic -> B;
  sink_merged : B -> B -> B;
  sink_is_empty : B -> bool;
}.

Class DiagnosticSinkLaws (B : Type) `{DiagnosticSink B} := {
  sink_ok : B -> Prop;
  sink_contents : B -> list Diagnostic;
  sink_new_spec : sink_ok sink_new /\ sink_contents sink_new = [];
  sink_single_spec d : sink_ok (sink_single d) /\ sink_contents (sink_single d) = [d];
  sink_add_spec b d :
    sink_ok b -> sink_ok (sink_add b d) /\ sink_contents (sink_add b d) = nub (sink_contents b ++ [d]);
  sink_merged_spec a b :
    sink_ok a -> sink_ok b ->
    sink_ok (sink_merged a b) /\ sink_contents (sink_merged a b) = nub (sink_contents a ++ sink_contents b);
  sink_is_empty_spec b : sink_ok b -> sink_is_empty b = true <-> sink_contents b = [];
  sink_contents_nub b : sink_ok b -> nub (sink_contents b) = sink_contents b;
}.

(** Bags implement it: addresses are the shapes of the collections, so that one
    address names one node and every allocation's address is determined. *)
Inductive Shape := ShapeNode (sources : list Shape) (local : list Diagnostic).

#[export] Instance Shape_eq_dec : EqDecision Shape.
Proof.
  refine (fix go a b : {a = b} + {a <> b} :=
    match a, b with
    | ShapeNode ss l, ShapeNode ss' l' =>
        match @list_eq_dec _ go ss ss', decide (l = l') with
        | left H1, left H2 => left _
        | right H, _ | _, right H => right _
        end
    end); congruence.
Defined.

Definition shape_of (ss : list (DiagnosticCollection Shape)) (l : list Diagnostic) : Shape :=
  ShapeNode (map address ss) l.

#[export] Instance bag_sink : DiagnosticSink (DiagnosticBag Shape) := {
  sink_new := DiagnosticBag_new (shape_of [] []);
  sink_single d := DiagnosticBag_single (shape_of [] [d]) d;
  sink_add b d := DiagnosticBag_add false (shape_of [root b] [d]) b d;
  sink_merged a b := DiagnosticBag_merged (shape_of (select_sources [] [a; b]) []) a b;
  sink_is_empty := DiagnosticBag_is_empty;
}.

(** Every node is at the address of its shape and flagged rightly. *)
Definition shaped (c : DiagnosticCollection Shape) : Prop :=
  flags_ok c /\ forall n, In n (subnodes c) -> address n = shape_of (sources n) (local n).

Lemma map_inj_Forall {X Y} (f : X -> Y) (l l' : list X) :
  Forall (fun x => forall y, In y l' -> f x = f y -> x = y) l -> map f l = map f l' -> l = l'.
Proof.
  revert l'. induction l as [|x l IH]; intros [|y l'] Hall Hm; simpl in *; try done.
  inversion Hall as [|? ? Hx Hl]; subst. injection Hm as Hm1 Hm2. f_equal; [by apply Hx; [left|]|].
  apply IH; [|done]. eapply Forall_impl; [exact Hl|]. intros z Hz w Hw. apply Hz. by right.
Qed.

Lemma shaped_inj n m : shaped n -> shaped m -> address n = address m -> n = m.
Proof.
  revert m. induction n as [p ss l h IH] using collection_ind'. intros [p' ss' l' h'] [Hf Hn] [Hf' Hm] Ha.
  simpl in Ha. subst p'.
  pose proof (Hn _ (subnodes_self _)) as Hp. pose proof (Hm _ (subnodes_self _)) as Hp'.
  simpl in Hp, Hp'. rewrite Hp in Hp'. injection Hp' as Hss Hl.
  assert (ss = ss') as ->.
  { apply (map_inj_Forall address); [|done]. rewrite Forall_forall in IH |- *.
    intros x Hx y Hy Hxy. apply IH; [done|..|done].
    - split; intros z Hz; [apply Hf|apply Hn]; (eapply subnodes_trans; [apply subnodes_source|exact Hz]);
        simpl; by apply list_elem_of_In.
    - split; intros z Hz; [apply Hf'|apply Hm]; (eapply subnodes_trans; [apply subnodes_source|exact Hz]); done. }
  subst l'. f_equal. pose proof (flags_ok_root _ Hf) as H1. pose proof (flags_ok_root _ Hf') as H2.
  simpl in H1, H2. congruence.
Qed.

Lemma shaped_sub c n : shaped c -> In n (subnodes c) -> shaped n.
Proof.
  intros [Hf Ha] Hn. split; intros m Hm; [apply Hf|apply Ha]; by eapply subnodes_trans.
Qed.

Lemma shaped_coherent l : Forall shaped l -> coherent l.
Proof.
  intros Hs n m Hn Hm. rewrite Forall_forall in Hs.
  apply in_flat_map in Hn as (x & Hx & Hn), Hm as (y & Hy & Hm).
  apply shaped_inj; (eapply shaped_sub; [|done]); apply Hs; by apply list_elem_of_In.
Qed.

Lemma shaped_node ss l h :
  Forall shaped ss -> h = match flat_map flatten ss ++ l with [] => false | _ => true end ->
  shaped (Collection (shape_of ss l) ss l h).
Proof.
  intros Hs Hh. split.
  - apply flags_ok_node; [|done]. eapply Forall_impl; [exact Hs|]. by intros ? [].
  - intros n. rewrite subnodes_eq. simpl. intros [<-|Hn]; [done|].
    apply in_flat_map in Hn as (s & Hs' & Hn). rewrite Forall_forall in Hs.
    by apply (Hs s); [apply list_elem_of_In|].
Qed.

Lemma shaped_single d : shaped (root (DiagnosticBag_single (shape_of [] [d]) d)).
Proof. by apply (shaped_node [] [d] true); [constructor|]. Qed.

Lemma shaped_merged (a b : DiagnosticBag Shape) :
  shaped (root a) -> shaped (root b) -> shaped (root (sink_merged a b)).
Proof.
  intros Ha Hb. unfold sink_merged, bag_sink, DiagnosticBag_merged, DiagnosticBag_merged_all.
  assert (forall c, In c (select_sources [] [a; b]) -> shaped c /\ flatten c <> []) as Hall.
  { intros c Hc. apply select_sources_In in Hc as (x & Hx & <- & He).
    assert (shaped (root x)) as Hs by (by destruct Hx as [<-|[<-|[]]]). split; [done|].
    unfold DiagnosticBag_is_empty in He. rewrite (flags_ok_root _ (proj1 Hs)) in He.
    by destruct (flatten (root x)). }
  destruct (select_sources [] [a; b]) as [|c [|c' ss]].
  - by apply (shaped_node [] [] false); [constructor|].
  - apply Hall. by left.
  - apply (shaped_node (c :: c' :: ss) [] true).
    + apply Forall_forall. intros x Hx. apply Hall. by apply list_elem_of_In.
    + destruct (Hall c) as [_ Hne]; [by left|]. simpl. by destruct (flatten c).
Qed.

Lemma shaped_merged_contents (a b : DiagnosticBag Shape) :
  shaped (root a) -> shaped (root b) ->
  contents (sink_merged a b) = nub (contents a ++ contents b).
Proof.
  intros Ha Hb. pose proof (select_sources_spec [a; b] [] []) as Hsel.
  unfold contents at 2 3. rewrite nub_app_nub.
  unfold sink_merged, bag_sink, DiagnosticBag_merged, DiagnosticBag_merged_all.
  transitivity (nub (flat_map flatten (select_sources [] [a; b]))).
  { destruct (select_sources [] [a; b]) as [|c [|c' ss]]; [done|..];
      unfold contents; simpl; by rewrite app_nil_r. }
  cbn [flat_map app] in Hsel. rewrite Hsel; [by rewrite app_nil_r|by intros x Hx; apply not_elem_of_nil in Hx| |].
  - apply shaped_coherent. simpl. by rewrite !Forall_cons, Forall_nil.
  - rewrite !Forall_cons, Forall_nil. split_and!; [apply Ha|apply Hb|done].
Qed.

Lemma nub_contents {A} `{EqDecision A} (b : DiagnosticBag A) : nub (contents b) = contents b.
Proof. unfold contents. apply nub_from_nub. Qed.

#[export] Instance bag_sink_laws : DiagnosticSinkLaws (DiagnosticBag Shape).
Proof.
  refine {| sink_ok b := shaped (root b); sink_contents := contents |}.
  - split; [|done]. by apply (shaped_node [] [] false); [constructor|].
  - intros d. split; [apply shaped_single|done].
  - intros b d Hb. split.
    + apply (shaped_node [root b] [d] true); [by rewrite Forall_singleton|].
      simpl. rewrite app_nil_r. by destruct (flatten (root b)).
    + unfold contents at 1. simpl. by rewrite app_nil_r, nub_snoc.
  - intros a b Ha Hb. split; [by apply shaped_merged|by apply shaped_merged_contents].
  - intros b [Hf _]. by apply is_empty_contents.
  - intros b _. apply nub_contents.
Defined.
