(* ===== verification/LexText.v ===== *)
(** * Text access of the lexer

    [bray-parser/src/lexer/text.rs] and [scan.rs]: cursors into the snapshot's
    text, token construction and scan results.  Every panic of the source is a
    [Panic] outcome; the lemmas show when none occurs. *)

From Stdlib Require Import ZArith Lia String.
From stdpp Require Import base list numbers option.
From S2P Require Import Prelude Utf8 SourceText Snapshot SyntaxKind SyntaxToken Diagnostic DiagnosticBag.

(** ** Bytes of the lexical grammar *)

Abbreviation TAB := 9.
Abbreviation SPACE := 32.
Abbreviation QUOTE := 34.
Abbreviation AMPERSAND := 38.
Abbreviation APOSTROPHE := 39.
Abbreviation STAR := 42.
Abbreviation PLUS := 43.
Abbreviation MINUS := 45.
Abbreviation DOT := 46.
Abbreviation SLASH := 47.
Abbreviation COLON := 58.
Abbreviation GREATER := 62.
Abbreviation BACKSLASH := 92.
Abbreviation UNDERSCORE := 95.

Definition is_ascii_digit (b : Z) : bool := (48 <=? b) && (b <=? 57).
Definition is_ascii_alphanumeric (b : Z) : bool := is_ascii_alphabetic b || is_ascii_digit b.
Definition is_ascii_hexdigit (b : Z) : bool :=
  is_ascii_digit b || ((65 <=? b) && (b <=? 70)) || ((97 <=? b) && (b <=? 102)).
Definition is_ascii (b : Z) : bool := b <? 128.

(** ** text.rs *)

Definition text_size_to_usize (size : TextSize) : outcome usize := expect (usize_try_from size).

Definition text_size_from_usize (size : usize) : outcome TextSize :=
  match TextSize_try_from size with Ok size => Ret size | Err _ => Panic end.

Definition offset_after_character (start : TextSize) (character : char) : outcome TextSize :=
  let! character_len := text_size_from_usize (len_utf8 character) in
  expect (TextSize_checked_add start character_len).

Definition make_token (kind : SyntaxKind) (start end_ : TextSize) : outcome SyntaxToken :=
  let! range := TextRange_new start end_ in
  SyntaxToken_new kind range.

Definition make_scalar_token (kind : SyntaxKind) (start : TextSize) (character : char)
    : outcome SyntaxToken :=
  let! end_ := offset_after_character start character in
  make_token kind start end_.

Definition token_text (snapshot : SourceSnapshot) (range : TextRange) : outcome str :=
  expect (SourceSnapshot_text_slice snapshot range).

Definition first_character (snapshot : SourceSnapshot) (start : TextSize) : outcome (option char) :=
  let! start_index := text_size_to_usize start in
  let! remainder := expect (str_get_from (text snapshot) start_index) in
  Ret (first_char remainder).

Definition character_len_at (snapshot : SourceSnapshot) (index : usize) : option usize :=
  match str_get_from (text snapshot) index with
  | Some remainder => option_map len_utf8 (first_char remainder)
  | None => None
  end.

(** Enough fuel for a loop whose cursor advances in the text. *)
Definition text_fuel (snapshot : SourceSnapshot) : nat := S (S (length (text snapshot))).

(** ** scan.rs *)

Section scan.
Context {B : Type} `{!DiagnosticSink B}.

Record TokenScan := { scan_token : SyntaxToken; scan_diagnostics : B }.

Definition TokenScan_clean (token : SyntaxToken) : TokenScan :=
  {| scan_token := token; scan_diagnostics := sink_new |}.

Definition TokenScan_with_diagnostic (token : SyntaxToken) (d : Diagnostic) : TokenScan :=
  {| scan_token := token; scan_diagnostics := sink_single d |}.

Definition TokenScan_with_diagnostics (token : SyntaxToken) (diagnostics : B) : TokenScan :=
  {| scan_token := token; scan_diagnostics := diagnostics |}.
End scan.

Arguments TokenScan : clear implicits.

(** ** Lemmas: cursors *)

Section cursor.
Context (s : SourceSnapshot) `{!WfSnapshot s}.

Lemma text_size_to_usize_ok i : in_u32 i -> text_size_to_usize i = Ret i.
Proof using. intros H. unfold text_size_to_usize. by rewrite usize_try_from_u32. Qed.

Lemma text_size_from_usize_ok i : in_u32 i -> text_size_from_usize i = Ret i.
Proof using. intros H. unfold text_size_from_usize. by rewrite TextSize_try_from_ok. Qed.

Lemma cursor_u32 i : 0 <= i <= zlen (text s) -> in_u32 i.
Proof. pose proof wf_fits. unfold in_u32. lia. Qed.

Lemma boundary_u32 i : boundary (text s) i -> in_u32 i.
Proof. intros H%boundary_range. by apply cursor_u32. Qed.

Lemma first_character_ok i :
  boundary (text s) i -> first_character s i = Ret (first_char (zdrop i (text s))).
Proof.
  intros H. unfold first_character. rewrite text_size_to_usize_ok by by apply boundary_u32.
  simpl. by rewrite str_get_from_boundary.
Qed.

(** Reading a scalar at a cursor. *)
Lemma first_character_cases i :
  boundary (text s) i ->
  (i = zlen (text s) /\ first_character s i = Ret None) \/
  (exists c, first_character s i = Ret (Some c) /\ i < zlen (text s) /\
     boundary (text s) (i + len_utf8 c) /\ offset_after_character i c = Ret (i + len_utf8 c) /\
     (forall b, get (text s) i = Some b -> (b < 128 -> c = b) /\ (128 <= b -> 128 <= c))).
Proof.
  intros H. pose proof (boundary_range _ _ H) as Hr. rewrite first_character_ok by done.
  destruct (Z.eq_dec i (zlen (text s))) as [->|Hne].
  - left. split; [done|]. by rewrite zdrop_all.
  - right. destruct (get_is_Some (text s) i ltac:(lia)) as [b Hb].
    destruct (boundary_first _ _ _ H Hb) as (c & Hc & _ & Hn & Hc1 & Hc2). exists c.
    rewrite Hc. split_and!; [done|lia|done| |by intros b' Hb'; rewrite Hb in Hb'; simplify_eq].
    unfold offset_after_character. pose proof (len_utf8_range c).
    rewrite text_size_from_usize_ok by (unfold in_u32, U32_MAX; lia). simpl.
    unfold TextSize_checked_add, u32_checked_add. pose proof (boundary_u32 _ Hn) as Hu.
    unfold in_u32 in Hu. by rewrite checked_ok by lia.
Qed.

Lemma character_len_at_ok i :
  boundary (text s) i -> i < zlen (text s) ->
  exists n, character_len_at s i = Some n /\ 0 < n /\ boundary (text s) (i + n).
Proof using.
  intros H Hlt. unfold character_len_at. rewrite str_get_from_boundary by done.
  destruct (boundary_step _ _ H Hlt) as (c & -> & _ & Hn). exists (len_utf8 c).
  pose proof (len_utf8_range c). split_and!; [done|lia|done].
Qed.

Lemma character_len_at_Some i n :
  boundary (text s) i -> character_len_at s i = Some n -> 0 < n /\ boundary (text s) (i + n).
Proof using.
  intros H Hn. pose proof (boundary_range _ _ H). destruct (Z.eq_dec i (zlen (text s))) as [->|Hne].
  - unfold character_len_at in Hn. rewrite str_get_from_boundary in Hn by done.
    by rewrite zdrop_all in Hn by lia.
  - destruct (character_len_at_ok i H ltac:(lia)) as (m & Hm & Hpos & Hb). rewrite Hn in Hm. by simplify_eq.
Qed.

Lemma make_token_ok kind a b :
  a <= b -> is_token kind = true ->
  make_token kind a b =
  Ret {| token_kind := kind; token_range := {| start := a; end_ := b |}; presence := Present;
         leading_trivia := []; trailing_trivia := [] |}.
Proof using.
  intros H Hk. unfold make_token, TextRange_new, SyntaxToken_new, with_trivia, with_trivia_and_presence.
  destruct (a <=? b) eqn:E; [|lia]. simpl. by rewrite Hk.
Qed.

Lemma token_text_ok a b :
  boundary (text s) a -> boundary (text s) b -> a <= b ->
  token_text s {| start := a; end_ := b |} = Ret (between (text s) a b).
Proof.
  intros Ha Hb Hle. pose proof (boundary_u32 _ Ha). pose proof (boundary_u32 _ Hb).
  unfold token_text, SourceSnapshot_text_slice, TextRange_slice_str.
  rewrite range_wf_usize by (unfold range_wf, in_u32 in *; cbn; lia). by rewrite str_get_boundary.
Qed.

(** Stepping over an ASCII byte. *)
Lemma ascii_step i b : get (text s) i = Some b -> b < 128 -> boundary (text s) i /\ boundary (text s) (i + 1).
Proof.
  intros Hg Hb. pose proof (valid_bytes _ _ _ wf_text Hg).
  split; [by eapply ascii_boundary; [apply wf_text| |]|]. eapply ascii_next_boundary; [apply wf_text|done|lia].
Qed.

Lemma end_boundary : boundary (text s) (zlen (text s)).
Proof. apply boundary_len, wf_text. Qed.
End cursor.

(** ** The contract of scanning one token

    From a cursor [a] before the end of the text, a scan yields a present,
    trivia-free token over [a..b] with [a < b] between scalar boundaries, and
    an error on exactly the invalid tokens, at the token's range. *)
Section contract.
Context {B : Type} `{!DiagnosticSink B, !DiagnosticSinkLaws B}.

Definition error_at (s : SourceSnapshot) (r : TextRange) (d : Diagnostic) : Prop :=
  d_primary_span d = Some (span s r) /\ d_severity d = SeverityError.

Record core_scan (s : SourceSnapshot) (a : Z) (scan : TokenScan B) : Prop := {
  core_kind : is_token (token_kind (scan_token scan)) = true;
  core_not_eof : token_kind (scan_token scan) <> EndOfFileToken;
  core_present : presence (scan_token scan) = Present;
  core_leading : leading_trivia (scan_token scan) = [];
  core_trailing : trailing_trivia (scan_token scan) = [];
  core_start : token_start (scan_token scan) = a;
  core_width : a < token_end (scan_token scan);
  core_end : boundary (text s) (token_end (scan_token scan));
  core_sink : sink_ok (scan_diagnostics scan);
  core_errors :
    if decide (token_kind (scan_token scan) = InvalidToken)
    then exists d, sink_contents (scan_diagnostics scan) = [d] /\
           error_at s (token_range (scan_token scan)) d
    else sink_contents (scan_diagnostics scan) = [];
}.

Lemma clean_scan s a b kind :
  a < b -> boundary (text s) b -> is_token kind = true -> kind <> EndOfFileToken -> kind <> InvalidToken ->
  returns (let! t := make_token kind a b in Ret (TokenScan_clean t)) (core_scan s a).
Proof.
  intros Hab Hb Hk He Hi. rewrite make_token_ok by (done || lia). apply returns_ret.
  destruct sink_new_spec. by constructor; simpl; try (destruct (decide _)).
Qed.

Lemma invalid_scan s a b d :
  a < b -> boundary (text s) b -> error_at s {| start := a; end_ := b |} d ->
  returns (let! t := make_token InvalidToken a b in Ret (TokenScan_with_diagnostic t d)) (core_scan s a).
Proof.
  intros Hab Hb Hd. rewrite make_token_ok by (done || lia). apply returns_ret.
  destruct (sink_single_spec d). constructor; simpl; try done.
  by exists d.
Qed.

(** A token over [a..e] without trivia. *)
Definition plain_token (kind : SyntaxKind) (a e : Z) : SyntaxToken :=
  {| token_kind := kind; token_range := {| start := a; end_ := e |}; presence := Present;
     leading_trivia := []; trailing_trivia := [] |}.

(** The scan takes [a..e] as a token of the kind, without complaint. *)
Definition accepted (a : Z) (kind : SyntaxKind) (e : Z) (scan : TokenScan B) : Prop :=
  scan_token scan = plain_token kind a e /\ sink_contents (scan_diagnostics scan) = [].

(** The scan yields an invalid token with one error at its range. *)
Definition rejected (s : SourceSnapshot) (a : Z) (scan : TokenScan B) : Prop :=
  exists e d, scan_token scan = plain_token InvalidToken a e /\ a < e /\
    sink_contents (scan_diagnostics scan) = [d] /\ error_at s {| start := a; end_ := e |} d.

Lemma make_token_plain kind a e :
  is_token kind = true -> a <= e -> make_token kind a e = Ret (plain_token kind a e).
Proof. intros Hk Hae. by rewrite make_token_ok. Qed.

Lemma clean_result t : sink_contents (scan_diagnostics (TokenScan_clean (B := B) t)) = [].
Proof. apply sink_new_spec. Qed.

Lemma accept_token kind a e :
  is_token kind = true -> a <= e ->
  returns (let! t := make_token kind a e in Ret (TokenScan_clean t)) (accepted a kind e).
Proof.
  intros Hk Hae. rewrite make_token_plain by done. apply returns_ret. split; [done|apply clean_result].
Qed.

Lemma reject_token s a e d :
  a < e -> error_at s {| start := a; end_ := e |} d ->
  returns (let! t := make_token InvalidToken a e in Ret (TokenScan_with_diagnostic t d)) (rejected s a).
Proof.
  intros Hae Hd. rewrite make_token_plain by (done || lia). apply returns_ret. exists e, d.
  split_and!; [done|done|apply sink_single_spec|done].
Qed.

Lemma lexical_diagnostic_at s k l r : error_at s r (lexical_diagnostic s k l r).
Proof. done. Qed.
End contract.
