(* ===== verification/LexTrivia.v ===== *)
(** * Trivia scanning

    [bray-parser/src/lexer/trivia.rs]: whitespace, line comments and nested
    block comments, and the leading and trailing trivia of a token. *)

From Stdlib Require Import ZArith Lia String.
From stdpp Require Import base list numbers option.
From S2P Require Import Prelude Utf8 SourceText Snapshot SyntaxKind SyntaxToken.
From S2P Require Import DiagnosticKind Diagnostic DiagnosticBag LexText.

Inductive TriviaPosition := Leading | Trailing.

#[export] Instance TriviaPosition_eq_dec : EqDecision TriviaPosition.
Proof. solve_decision. Defined.

Section trivia.
Context {B : Type} `{!DiagnosticSink B}.

Record TriviaScan := {
  ts_trivia : list SyntaxTrivia;
  ts_end : TextSize;
  reached_eof : bool;
  ts_diagnostics : B;
}.

Record TriviaItem := {
  item_trivia : SyntaxTrivia;
  contains_line_break : bool;
  item_diagnostics : B;
}.

Definition make_trivia_item (kind : SyntaxKind) (start end_ : TextSize) (line_break : bool)
    : outcome TriviaItem :=
  let! range := TextRange_new start end_ in
  let! trivia := SyntaxTrivia_new kind range in
  Ret {| item_trivia := trivia; contains_line_break := line_break; item_diagnostics := sink_new |}.

Definition lex_starts_with (snapshot : SourceSnapshot) (start : TextSize) (prefix : str) : outcome bool :=
  let! start_index := text_size_to_usize start in
  let! source_text := expect (str_get_from (text snapshot) start_index) in
  Ret (starts_with source_text prefix).

Definition next_utf8_character_len (snapshot : SourceSnapshot) (start : TextSize) : outcome usize :=
  let! start_index := text_size_to_usize start in
  match character_len_at snapshot start_index with
  | Some character_len => Ret character_len
  | None => if start =? text_len snapshot then Ret 0 else Panic
  end.

(** The body of the whitespace loop; the state is (index, saw a line break). *)
Definition whitespace_step (bytes : list u8) (position : TriviaPosition) (st : usize * bool)
    : outcome (usize * bool + usize * bool) :=
  let (index, line_break) := st in
  match get bytes index with
  | None => break_ (index, line_break)
  | Some byte =>
      if (byte =? SPACE) || (byte =? TAB) then continue_ (index + 1, line_break)
      else if byte =? LF
      then if decide (position = Trailing) then break_ (index + 1, true)
           else continue_ (index + 1, true)
      else if (byte =? CR) && bool_decide (get bytes (index + 1) = Some LF)
      then if decide (position = Trailing) then break_ (index + 2, true)
           else continue_ (index + 2, true)
      else break_ (index, line_break)
  end.

Definition scan_whitespace_trivia (snapshot : SourceSnapshot) (start : TextSize)
    (position : TriviaPosition) : outcome TriviaItem :=
  let! index := text_size_to_usize start in
  let! st := loop (text_fuel snapshot) (whitespace_step (text snapshot) position) (index, false) in
  let (index, line_break) := st in
  let! end_ := text_size_from_usize index in
  make_trivia_item WhitespaceTrivia start end_ line_break.

Definition line_comment_step (bytes : list u8) (index : usize) : outcome (usize + usize) :=
  match get bytes index with
  | None => break_ index
  | Some byte => if (byte =? LF) || (byte =? CR) then break_ index else continue_ (index + 1)
  end.

Definition scan_line_comment_trivia (snapshot : SourceSnapshot) (start : TextSize) : outcome TriviaItem :=
  let! start_index := text_size_to_usize start in
  let! index := loop (text_fuel snapshot) (line_comment_step (text snapshot)) (start_index + 2) in
  let! documentation := lex_starts_with snapshot start (lit "///") in
  let kind := if documentation then DocumentationLineCommentTrivia else LineCommentTrivia in
  let! end_ := text_size_from_usize index in
  make_trivia_item kind start end_ false.

(** The body of the block comment loop; the state is (index, depth, saw a line
    break).  [depth += 1] and [depth -= 1] panic on overflow. *)
Definition block_comment_step (snapshot : SourceSnapshot) (st : usize * u32 * bool)
    : outcome (usize * u32 * bool + usize * u32 * bool) :=
  let '(index, depth, line_break) := st in
  let bytes := text snapshot in
  if negb (index <? zlen bytes) then break_ st
  else if bool_decide (get bytes index = Some LF) then continue_ (index + 1, depth, true)
  else if bool_decide (get bytes index = Some CR) && bool_decide (get bytes (index + 1) = Some LF)
  then continue_ (index + 2, depth, true)
  else if bool_decide (get bytes index = Some SLASH) && bool_decide (get bytes (index + 1) = Some STAR)
  then let! depth := expect (u32_checked_add depth 1) in continue_ (index + 2, depth, line_break)
  else if bool_decide (get bytes index = Some STAR) && bool_decide (get bytes (index + 1) = Some SLASH)
  then let! depth := expect (checked U32_MAX (depth - 1)) in
       if depth =? 0 then break_ (index + 2, depth, line_break)
       else continue_ (index + 2, depth, line_break)
  else let! cursor := text_size_from_usize index in
       let! len := next_utf8_character_len snapshot cursor in
       continue_ (index + len, depth, line_break).

Definition scan_block_comment_trivia (snapshot : SourceSnapshot) (start : TextSize) : outcome TriviaItem :=
  let! start_index := text_size_to_usize start in
  let! st := loop (text_fuel snapshot) (block_comment_step snapshot) (start_index + 2, 1, false) in
  let '(index, depth, line_break) := st in
  let! documentation := lex_starts_with snapshot start (lit "/**") in
  let kind := if documentation then DocumentationBlockCommentTrivia else BlockCommentTrivia in
  let! end_ := text_size_from_usize index in
  let! item := make_trivia_item kind start end_ line_break in
  if depth =? 0 then Ret item
  else
    let! range := TextRange_new start end_ in
    Ret {| item_trivia := item_trivia item; contains_line_break := contains_line_break item;
           item_diagnostics := sink_add (item_diagnostics item)
                                 (unterminated_block_comment snapshot range depth) |}.

Definition scan_trivia_at (snapshot : SourceSnapshot) (start : TextSize) (position : TriviaPosition)
    : outcome (option TriviaItem) :=
  let bytes := text snapshot in
  let! start_index := text_size_to_usize start in
  match get bytes start_index with
  | None => Ret None
  | Some byte =>
      if (byte =? SPACE) || (byte =? TAB) || (byte =? LF)
      then let! item := scan_whitespace_trivia snapshot start position in Ret (Some item)
      else if (byte =? CR) && bool_decide (get bytes (start_index + 1) = Some LF)
      then let! item := scan_whitespace_trivia snapshot start position in Ret (Some item)
      else if (byte =? SLASH) && bool_decide (get bytes (start_index + 1) = Some SLASH)
      then let! item := scan_line_comment_trivia snapshot start in Ret (Some item)
      else if (byte =? SLASH) && bool_decide (get bytes (start_index + 1) = Some STAR)
      then let! item := scan_block_comment_trivia snapshot start in Ret (Some item)
      else Ret None
  end.

(** The loops of [scan_leading_trivia] and [scan_trailing_trivia]; the state is
    (trivia, cursor, diagnostics). *)
Definition leading_step (snapshot : SourceSnapshot) (st : list SyntaxTrivia * TextSize * B)
    : outcome (list SyntaxTrivia * TextSize * B + list SyntaxTrivia * TextSize * B) :=
  let '(trivia, cursor, diagnostics) := st in
  let! item := scan_trivia_at snapshot cursor Leading in
  match item with
  | None => break_ st
  | Some item =>
      continue_ (trivia ++ [item_trivia item], SyntaxTrivia_end (item_trivia item),
                 sink_merged diagnostics (item_diagnostics item))
  end.

Definition scan_leading_trivia (snapshot : SourceSnapshot) (start : TextSize) : outcome TriviaScan :=
  let! st := loop (text_fuel snapshot) (leading_step snapshot) ([], start, sink_new) in
  let '(trivia, cursor, diagnostics) := st in
  Ret {| ts_trivia := trivia; ts_end := cursor; reached_eof := cursor =? text_len snapshot;
         ts_diagnostics := diagnostics |}.

Definition trailing_step (snapshot : SourceSnapshot) (st : list SyntaxTrivia * TextSize * B)
    : outcome (list SyntaxTrivia * TextSize * B + list SyntaxTrivia * TextSize * B) :=
  let '(trivia, cursor, diagnostics) := st in
  let! item := scan_trivia_at snapshot cursor Trailing in
  match item with
  | None => break_ st
  | Some item =>
      let st := (trivia ++ [item_trivia item], SyntaxTrivia_end (item_trivia item),
                 sink_merged diagnostics (item_diagnostics item)) in
      if contains_line_break item then break_ st else continue_ st
  end.

Definition scan_trailing_trivia (snapshot : SourceSnapshot) (start : TextSize) : outcome TriviaScan :=
  let! st := loop (text_fuel snapshot) (trailing_step snapshot) ([], start, sink_new) in
  let '(trivia, cursor, diagnostics) := st in
  Ret {| ts_trivia := trivia; ts_end := cursor; reached_eof := cursor =? text_len snapshot;
         ts_diagnostics := diagnostics |}.
End trivia.

Arguments TriviaScan : clear implicits.
Arguments TriviaItem : clear implicits.

(** ** Lemmas *)

Section facts.
Context {B : Type} `{!DiagnosticSink B, !DiagnosticSinkLaws B}.
Context (s : SourceSnapshot) `{!WfSnapshot s}.

(** How far a cursor is from the end of the text. *)
Definition remaining (i : Z) : nat := Z.to_nat (zlen (text s) - i).

Lemma remaining_fuel i : 0 <= i -> (remaining i < text_fuel s)%nat.
Proof using. intros H. unfold remaining, text_fuel, zlen. lia. Qed.

Lemma remaining_step i j : i < j -> i < zlen (text s) -> (remaining j < remaining i)%nat.
Proof using. unfold remaining. lia. Qed.

(** One trivia item from [a]. *)
Record item_ok (a : Z) (item : TriviaItem B) : Prop := {
  item_start : SyntaxTrivia_start (item_trivia item) = a;
  item_width : a < SyntaxTrivia_end (item_trivia item);
  item_end : boundary (text s) (SyntaxTrivia_end (item_trivia item));
  item_is_trivia : is_trivia (trivia_kind (item_trivia item)) = true;
  item_sink : sink_ok (item_diagnostics item);
  item_errors : Forall (error_at s (trivia_range (item_trivia item))) (sink_contents (item_diagnostics item));
}.

Lemma make_trivia_item_ok kind a b lb :
  a < b -> boundary (text s) b -> is_trivia kind = true ->
  returns (make_trivia_item (B := B) kind a b lb) (fun item =>
    item_ok a item /\ item_trivia item = {| trivia_kind := kind; trivia_range := {| start := a; end_ := b |} |} /\
    contains_line_break item = lb /\ item_diagnostics item = sink_new).
Proof using All.
  intros Hab Hb Hk. unfold make_trivia_item, TextRange_new, SyntaxTrivia_new.
  destruct (a <=? b) eqn:E; [|lia]. simpl. rewrite Hk. apply returns_ret. split_and!; try done.
  destruct sink_new_spec as [H1 H2]. constructor; simpl; try done. rewrite H2. constructor.
Qed.

Lemma lex_starts_with_ok a p :
  boundary (text s) a -> lex_starts_with s a p = Ret (starts_with (zdrop a (text s)) p).
Proof using All.
  intros H. unfold lex_starts_with. rewrite text_size_to_usize_ok by by apply (boundary_u32 s).
  simpl. by rewrite str_get_from_boundary.
Qed.

(** Two ASCII bytes in a row. *)
Lemma ascii_step2 i b c :
  get (text s) i = Some b -> b < 128 -> get (text s) (i + 1) = Some c -> c < 128 ->
  boundary (text s) (i + 2) /\ i + 1 < zlen (text s).
Proof using All.
  intros _ _ Hg2 Hc. destruct (ascii_step s _ _ Hg2 Hc) as [_ Hn].
  replace (i + 1 + 1) with (i + 2) in Hn by lia. pose proof (get_Some_range _ _ _ Hg2). split; [done|lia].
Qed.

(** A byte that opens whitespace. *)
Definition whitespace_start (a : Z) : Prop :=
  (exists b, get (text s) a = Some b /\ (b = SPACE \/ b = TAB \/ b = LF)) \/
  (get (text s) a = Some CR /\ get (text s) (a + 1) = Some LF).

Lemma whitespace_loop pos a :
  0 <= a -> boundary (text s) a -> whitespace_start a ->
  returns (loop (text_fuel s) (whitespace_step (text s) pos) (a, false)) (fun '(i, _) =>
    boundary (text s) i /\ a < i).
Proof using All.
  intros Ha Hb Hws.
  eapply (loop_rule (fun st : Z * bool => boundary (text s) st.1 /\ a <= st.1)
            (fun st => remaining st.1)); [|split; [done|simpl; lia]|by apply remaining_fuel].
  intros [i lb] [Hi Hle]. simpl in Hi, Hle. unfold whitespace_step.
  destruct (get (text s) i) as [b|] eqn:Hg.
  2: { apply returns_ret. split; [done|]. destruct (Z.eq_dec i a) as [->|]; [|lia].
       destruct Hws as [(b & ? & _)|[? _]]; congruence. }
  pose proof (get_Some_range _ _ _ Hg) as Hr.
  assert (b < 128 -> boundary (text s) (i + 1)) as Hone by (intros Hb'; by destruct (ascii_step s _ _ Hg Hb')).
  assert (remaining (i + 1) < remaining i /\ remaining (i + 2) < remaining i)%nat as [Hm1 Hm2]
    by (split; apply remaining_step; lia).
  destruct ((b =? SPACE) || (b =? TAB)) eqn:E1.
  { apply returns_ret. simpl. split_and!; [apply Hone; lia|lia|done]. }
  destruct (b =? LF) eqn:E2.
  { apply Z.eqb_eq in E2. subst. assert (LF < 128) as Hlf by by vm_compute.
    destruct (decide _); apply returns_ret; simpl; split_and!; try lia; auto. }
  destruct ((b =? CR) && _) eqn:E3.
  { apply andb_true_iff in E3 as [Hcr%Z.eqb_eq Hlf]. rewrite bool_decide_eq_true in Hlf. subst.
    destruct (ascii_step2 _ _ _ Hg ltac:(by vm_compute) Hlf ltac:(by vm_compute)) as [Hn _].
    destruct (decide _); apply returns_ret; simpl; split_and!; try lia; auto. }
  apply returns_ret. split; [done|]. destruct (Z.eq_dec i a) as [->|]; [|lia]. exfalso.
  destruct Hws as [(b' & Hb' & Hor)|[Hcr Hlf]]; [rewrite Hg in Hb'; simplify_eq; unfold LF in *; lia|].
  rewrite Hg in Hcr. simplify_eq. rewrite bool_decide_eq_true_2 in E3 by done. done.
Qed.

Lemma scan_whitespace_trivia_ok a pos :
  boundary (text s) a -> whitespace_start a ->
  returns (scan_whitespace_trivia (B := B) s a pos) (item_ok a).
Proof using All.
  intros Hb Hws. pose proof (boundary_range _ _ Hb). unfold scan_whitespace_trivia.
  rewrite text_size_to_usize_ok by by apply (boundary_u32 s). simpl.
  eapply returns_bind; [apply whitespace_loop; done || lia|]. intros [i lb] [Hi Hlt].
  rewrite text_size_from_usize_ok by by apply (boundary_u32 s). simpl.
  eapply returns_mono; [by apply make_trivia_item_ok|]. by intros item [? _].
Qed.

Lemma line_comment_loop a :
  0 <= a <= zlen (text s) ->
  returns (loop (text_fuel s) (line_comment_step (text s)) a) (fun i =>
    boundary (text s) i /\ a <= i).
Proof using All.
  intros Ha. eapply (loop_rule (fun i => a <= i <= zlen (text s)) remaining); [|lia|apply remaining_fuel; lia].
  intros i Hi. unfold line_comment_step. destruct (get (text s) i) as [b|] eqn:Hg.
  - pose proof (get_Some_range _ _ _ Hg). destruct (_ || _) eqn:E; apply returns_ret.
    + split; [|lia]. by destruct (ascii_step s _ _ Hg ltac:(unfold LF, CR in *; lia)).
    + split_and!; [lia|lia|apply remaining_step; lia].
  - apply get_None in Hg. apply returns_ret. replace i with (zlen (text s)) by lia.
    split; [apply end_boundary; done|lia].
Qed.

Lemma scan_line_comment_trivia_ok a :
  boundary (text s) a -> get (text s) (a + 1) = Some SLASH ->
  returns (scan_line_comment_trivia (B := B) s a) (item_ok a).
Proof using All.
  intros Hb Hg. pose proof (boundary_range _ _ Hb). pose proof (get_Some_range _ _ _ Hg).
  unfold scan_line_comment_trivia. rewrite text_size_to_usize_ok by by apply (boundary_u32 s). simpl.
  eapply returns_bind; [apply line_comment_loop; lia|]. intros i [Hi Hle].
  rewrite lex_starts_with_ok by done. cbn [outcome_bind].
  rewrite text_size_from_usize_ok by by apply (boundary_u32 s). cbn [outcome_bind].
  eapply returns_mono; [apply make_trivia_item_ok; [lia|done|by case_match]|].
  by intros item [? _].
Qed.

Lemma next_utf8_character_len_ok i :
  boundary (text s) i -> i < zlen (text s) ->
  returns (next_utf8_character_len s i) (fun n => 0 < n /\ boundary (text s) (i + n)).
Proof using All.
  intros Hb Hlt. unfold next_utf8_character_len.
  rewrite text_size_to_usize_ok by by apply (boundary_u32 s). simpl.
  destruct (character_len_at_ok s i Hb Hlt) as (n & -> & ? & ?). by apply returns_ret.
Qed.

(** The invariant of the block comment loop: each level of nesting took two
    bytes, so the depth fits. *)
Definition comment_inv (a : Z) (st : Z * Z * bool) : Prop :=
  boundary (text s) st.1.1 /\ a < st.1.1 /\ 0 <= st.1.2 /\ 2 * st.1.2 <= st.1.1.

Lemma comment_inv_intro a i d lb :
  boundary (text s) i -> a < i -> 0 <= d -> 2 * d <= i -> comment_inv a (i, d, lb).
Proof using. unfold comment_inv. simpl. auto. Qed.

Lemma block_comment_loop a :
  0 <= a -> boundary (text s) (a + 2) ->
  returns (loop (text_fuel s) (block_comment_step s) (a + 2, 1, false)) (comment_inv a).
Proof using All.
  intros Ha Hb. pose proof (boundary_range _ _ Hb).
  eapply (loop_rule (fun st : Z * Z * bool => comment_inv a st /\ 1 <= st.1.2)
            (fun st => remaining st.1.1));
    [|split; [apply comment_inv_intro; done || lia|simpl; lia]|apply remaining_fuel; simpl; lia].
  intros [[i depth] lb] [(Hi & Hai & Hd0 & Hd2) Hd1]. cbn [fst snd] in *.
  pose proof (boundary_range _ _ Hi). pose proof (wf_fits (s := s)).
  unfold block_comment_step. destruct (i <? zlen (text s)) eqn:Elt; cbn [negb].
  2: { apply returns_ret. by apply comment_inv_intro. }
  assert (forall j d lb', i < j -> boundary (text s) j -> 1 <= d -> 2 * d <= j ->
    (comment_inv a (j, d, lb') /\ 1 <= d) /\ (remaining j < remaining i)%nat) as Hnext.
  { intros j d lb' ????. split; [split; [apply comment_inv_intro; done || lia|done]|apply remaining_step; lia]. }
  destruct (bool_decide (get (text s) i = Some LF)) eqn:E1.
  { rewrite bool_decide_eq_true in E1. destruct (ascii_step s _ _ E1 ltac:(by vm_compute)) as [_ Hn].
    apply returns_ret, (Hnext (i + 1) depth true); [lia|done|done|lia]. }
  destruct (bool_decide (get (text s) i = Some CR) && _) eqn:E2.
  { rewrite andb_true_iff, !bool_decide_eq_true in E2. destruct E2 as [E2 E2'].
    destruct (ascii_step2 _ _ _ E2 ltac:(by vm_compute) E2' ltac:(by vm_compute)) as [Hn _].
    apply returns_ret, (Hnext (i + 2) depth true); [lia|done|done|lia]. }
  destruct (bool_decide (get (text s) i = Some SLASH) && _) eqn:E3.
  { rewrite andb_true_iff, !bool_decide_eq_true in E3. destruct E3 as [E3 E3'].
    destruct (ascii_step2 _ _ _ E3 ltac:(lia) E3' ltac:(lia)) as [Hn Hlt].
    unfold u32_checked_add. rewrite checked_ok by lia. cbn [expect outcome_bind].
    apply returns_ret, (Hnext (i + 2) (depth + 1) lb); [lia|done|lia|lia]. }
  destruct (bool_decide (get (text s) i = Some STAR) && _) eqn:E4.
  { rewrite andb_true_iff, !bool_decide_eq_true in E4. destruct E4 as [E4 E4'].
    destruct (ascii_step2 _ _ _ E4 ltac:(lia) E4' ltac:(lia)) as [Hn Hlt].
    rewrite checked_ok by lia. cbn [expect outcome_bind]. destruct (depth - 1 =? 0) eqn:Ed; apply returns_ret.
    - apply comment_inv_intro; done || lia.
    - apply (Hnext (i + 2) (depth - 1) lb); [lia|done|lia|lia]. }
  rewrite text_size_from_usize_ok by by apply (boundary_u32 s). cbn [outcome_bind].
  eapply returns_bind; [by apply next_utf8_character_len_ok; [|lia]|]. intros n [Hn Hb'].
  apply returns_ret, (Hnext (i + n) depth lb); [lia|done|done|lia].
Qed.

Lemma scan_block_comment_trivia_ok a :
  boundary (text s) a -> get (text s) a = Some SLASH -> get (text s) (a + 1) = Some STAR ->
  returns (scan_block_comment_trivia (B := B) s a) (item_ok a).
Proof using All.
  intros Hb Hg1 Hg2. pose proof (boundary_range _ _ Hb).
  destruct (ascii_step2 _ _ _ Hg1 ltac:(lia) Hg2 ltac:(lia)) as [Hn _].
  unfold scan_block_comment_trivia. rewrite text_size_to_usize_ok by by apply (boundary_u32 s).
  cbn [outcome_bind]. eapply returns_bind; [apply block_comment_loop; done || lia|].
  intros [[i depth] lb] (Hi & Hai & _). cbn [fst snd] in *.
  rewrite lex_starts_with_ok by done. cbn [outcome_bind].
  rewrite text_size_from_usize_ok by by apply (boundary_u32 s). cbn [outcome_bind].
  eapply returns_bind; [apply make_trivia_item_ok; [lia|done|by case_match]|].
  intros item (Hok & Ht & _ & Hd). destruct (depth =? 0); [by apply returns_ret|].
  unfold TextRange_new. destruct (a <=? i) eqn:E; [|lia]. cbn [assert_ outcome_bind].
  apply returns_ret. destruct Hok as [H1 H2 H3 H4 H5 H6]. constructor; cbn [item_trivia item_diagnostics]; try done.
  - by apply sink_add_spec.
  - rewrite (proj2 (sink_add_spec _ _ H5)), Hd, (proj2 sink_new_spec), Ht. repeat constructor.
Qed.

(** Trivia scanning at a cursor always returns; an item it finds is well formed. *)
Lemma scan_trivia_at_ok a pos :
  boundary (text s) a ->
  returns (scan_trivia_at (B := B) s a pos) (fun r => match r with Some item => item_ok a item | None => True end).
Proof using All.
  intros Hb. unfold scan_trivia_at. rewrite text_size_to_usize_ok by by apply (boundary_u32 s).
  cbn [outcome_bind]. destruct (get (text s) a) as [b|] eqn:Hg; [|by apply returns_ret].
  assert (forall m : outcome (TriviaItem B), returns m (item_ok a) ->
    returns (let! item := m in Ret (Some item)) (fun r => match r with Some item => item_ok a item | None => True end)) as Hwrap.
  { intros m Hm. eapply returns_bind; [exact Hm|]. intros item Hi. by apply returns_ret. }
  destruct ((b =? SPACE) || (b =? TAB) || (b =? LF)) eqn:E1.
  { apply Hwrap, scan_whitespace_trivia_ok; [done|]. left. exists b. split; [done|lia]. }
  destruct ((b =? CR) && _) eqn:E2.
  { apply andb_true_iff in E2 as [->%Z.eqb_eq E2']. rewrite bool_decide_eq_true in E2'.
    apply Hwrap, scan_whitespace_trivia_ok; [done|]. by right. }
  destruct ((b =? SLASH) && bool_decide (_ = Some SLASH)) eqn:E3.
  { apply andb_true_iff in E3 as [->%Z.eqb_eq E3']. rewrite bool_decide_eq_true in E3'.
    by apply Hwrap, scan_line_comment_trivia_ok. }
  destruct ((b =? SLASH) && bool_decide (_ = Some STAR)) eqn:E4; [|by apply returns_ret].
  apply andb_true_iff in E4 as [->%Z.eqb_eq E4']. rewrite bool_decide_eq_true in E4'.
  by apply Hwrap, scan_block_comment_trivia_ok.
Qed.

(** A run of trivia from [a]. *)
Record trivia_ok (a : Z) (ts : TriviaScan B) : Prop := {
  to_tile : trivia_tile (text s) a (ts_trivia ts) (ts_end ts);
  to_eof : reached_eof ts = (ts_end ts =? zlen (text s));
  to_sink : sink_ok (ts_diagnostics ts);
  to_errors : Forall (fun d => exists t, In t (ts_trivia ts) /\ error_at s (trivia_range t) d)
                (sink_contents (ts_diagnostics ts));
}.

(** The state of both trivia loops. *)
Definition run_inv (a : Z) (st : list SyntaxTrivia * Z * B) : Prop :=
  let '(trivia, cursor, diagnostics) := st in
  trivia_tile (text s) a trivia cursor /\ sink_ok diagnostics /\
  Forall (fun d => exists t, In t trivia /\ error_at s (trivia_range t) d) (sink_contents diagnostics).

Lemma nub_Forall (P : Diagnostic -> Prop) l : Forall P l -> Forall P (nub l).
Proof using.
  unfold nub. generalize (@nil DiagnosticDuplicateKey). induction l as [|d l IH]; intros seen H; simpl; [done|].
  inversion H; subst. destruct (decide _); [by apply IH|]. constructor; [done|by apply IH].
Qed.

Lemma run_inv_push a trivia cursor diagnostics item :
  run_inv a (trivia, cursor, diagnostics) -> item_ok cursor item ->
  run_inv a (trivia ++ [item_trivia item], SyntaxTrivia_end (item_trivia item),
             sink_merged diagnostics (item_diagnostics item)) /\
  (remaining (SyntaxTrivia_end (item_trivia item)) < remaining cursor)%nat.
Proof using All.
  intros (Ht & Hs & He) [H1 H2 H3 H4 H5 H6]. split.
  - unfold run_inv. split_and!.
    + eapply trivia_tile_app; [exact Ht|]. subst cursor.
      apply trivia_tile_boundaries in Ht as (_ & Ht & _). by repeat constructor.
    + by apply sink_merged_spec.
    + rewrite (proj2 (sink_merged_spec _ _ Hs H5)). apply nub_Forall, Forall_app. split.
      * eapply Forall_impl; [|exact He]. intros d (t & Hin & Hd). exists t. rewrite in_app_iff. auto.
      * eapply Forall_impl; [|exact H6]. intros d Hd. exists (item_trivia item). rewrite in_app_iff.
        split; [right; by left|done].
  - apply remaining_step; [done|]. apply boundary_range in H3. lia.
Qed.

Lemma run_inv_init a : boundary (text s) a -> run_inv a ([], a, sink_new).
Proof using All.
  intros H. destruct sink_new_spec as [H1 H2]. unfold run_inv. rewrite H2. by repeat constructor.
Qed.

Lemma run_inv_boundary a trivia cursor d : run_inv a (trivia, cursor, d) -> boundary (text s) cursor.
Proof using. intros (H & _). by apply trivia_tile_boundaries in H as (_ & ? & _). Qed.

Lemma leading_loop a :
  boundary (text s) a ->
  returns (loop (text_fuel s) (leading_step (B := B) s) ([], a, sink_new)) (run_inv a).
Proof using All.
  intros Hb. eapply (loop_rule (run_inv a) (fun st => remaining st.1.2));
    [|by apply run_inv_init|apply remaining_fuel; simpl; apply boundary_range in Hb; lia].
  intros [[trivia cursor] diagnostics] Hinv. unfold leading_step.
  eapply returns_bind; [by eapply scan_trivia_at_ok, run_inv_boundary|].
  intros [item|] Hitem; apply returns_ret; [|done]. by apply run_inv_push.
Qed.

Lemma trailing_loop a :
  boundary (text s) a ->
  returns (loop (text_fuel s) (trailing_step (B := B) s) ([], a, sink_new)) (run_inv a).
Proof using All.
  intros Hb. eapply (loop_rule (run_inv a) (fun st => remaining st.1.2));
    [|by apply run_inv_init|apply remaining_fuel; simpl; apply boundary_range in Hb; lia].
  intros [[trivia cursor] diagnostics] Hinv. unfold trailing_step.
  eapply returns_bind; [by eapply scan_trivia_at_ok, run_inv_boundary|].
  intros [item|] Hitem; [|by apply returns_ret].
  destruct (run_inv_push _ _ _ _ _ Hinv Hitem). by destruct (contains_line_break item); apply returns_ret.
Qed.

Lemma run_result a trivia cursor diagnostics :
  run_inv a (trivia, cursor, diagnostics) ->
  trivia_ok a {| ts_trivia := trivia; ts_end := cursor; reached_eof := cursor =? text_len s;
                 ts_diagnostics := diagnostics |}.
Proof using All. intros (H1 & H2 & H3). constructor; simpl; try done. by rewrite wf_text_len. Qed.

Lemma scan_leading_trivia_ok a :
  boundary (text s) a -> returns (scan_leading_trivia (B := B) s a) (trivia_ok a).
Proof using All.
  intros Hb. unfold scan_leading_trivia. eapply returns_bind; [by apply leading_loop|].
  intros [[trivia cursor] diagnostics] Hinv. apply returns_ret. by apply run_result.
Qed.

Lemma scan_trailing_trivia_ok a :
  boundary (text s) a -> returns (scan_trailing_trivia (B := B) s a) (trivia_ok a).
Proof using All.
  intros Hb. unfold scan_trailing_trivia. eapply returns_bind; [by apply trailing_loop|].
  intros [[trivia cursor] diagnostics] Hinv. apply returns_ret. by apply run_result.
Qed.
End facts.
