(* ===== verification/LexLiteral.v ===== *)
(** * Literal scanning

    [bray-parser/src/lexer/literal/numeric.rs] and [quoted.rs]: numeric literals
    with their digit separators, exponents and suffixes, tuple element indices,
    and character, string and byte-string literals with their escapes. *)

From Stdlib Require Import ZArith Lia String.
From stdpp Require Import base list numbers option.
From S2P Require Import Prelude Utf8 SourceText Snapshot SyntaxKind SyntaxToken.
From S2P Require Import DiagnosticKind Diagnostic DiagnosticBag LexText LexTrivia.

(** ** numeric.rs: scanning bytes *)

Inductive NumericLiteralError := InvalidSuffix (c : option char) | Malformed.
Inductive Radix := Binary | Hexadecimal.

Record NumericScan := { ns_kind : SyntaxKind; ns_end_index : usize; ns_valid : bool }.
Record DigitSequenceScan := { ds_end_index : usize; saw_digit : bool; ds_valid : bool }.

Definition has_radix_prefix (bytes : list u8) (start_index : usize) (lower upper : u8) : bool :=
  bool_decide (get bytes start_index = Some 48) &&
  match get bytes (start_index + 1) with
  | Some byte => (byte =? lower) || (byte =? upper)
  | None => false
  end.

(** The body of the digit loop; the state is
    (index, saw_digit, previous_was_separator, valid). *)
Definition digit_step (bytes : list u8) (is_digit : u8 -> bool) (st : usize * bool * bool * bool)
    : outcome (usize * bool * bool * bool + usize * bool * bool * bool) :=
  let '(index, saw, previous_was_separator, valid) := st in
  match get bytes index with
  | None => break_ st
  | Some byte =>
      if is_digit byte then continue_ (index + 1, true, false, valid)
      else if byte =? UNDERSCORE
      then
        let next_is_digit :=
          match get bytes (index + 1) with Some next => is_digit next | None => false end in
        let valid := if negb saw || previous_was_separator || negb next_is_digit then false else valid in
        continue_ (index + 1, saw, true, valid)
      else break_ st
  end.

Definition scan_digit_sequence (bytes : list u8) (start_index : usize) (is_digit : u8 -> bool)
    : outcome DigitSequenceScan :=
  let! st := loop (S (S (length bytes))) (digit_step bytes is_digit) (start_index, false, false, true) in
  let '(index, saw, previous_was_separator, valid) := st in
  Ret {| ds_end_index := index; saw_digit := saw;
         ds_valid := valid && saw && negb previous_was_separator |}.

Definition radix_digit (radix : Radix) (byte : u8) : bool :=
  match radix with
  | Binary => (byte =? 48) || (byte =? 49)
  | Hexadecimal => is_ascii_hexdigit byte
  end.

Definition scan_radix_integer (bytes : list u8) (start_index : usize) (radix : Radix)
    : outcome NumericScan :=
  let! digits := scan_digit_sequence bytes (start_index + 2) (radix_digit radix) in
  Ret {| ns_kind := match radix with
                    | Binary => BinaryIntegerLiteralToken
                    | Hexadecimal => HexadecimalIntegerLiteralToken
                    end;
         ns_end_index := ds_end_index digits;
         ns_valid := ds_valid digits && saw_digit digits |}.

Definition byte_is (o : option u8) (f : u8 -> bool) : bool :=
  match o with Some byte => f byte | None => false end.

Definition is_exponent_marker (byte : u8) : bool := (byte =? 101) || (byte =? 69).
Definition is_sign (byte : u8) : bool := (byte =? PLUS) || (byte =? MINUS).

Definition scan_exponent_part (bytes : list u8) (marker_index : usize) : outcome DigitSequenceScan :=
  let digit_start := marker_index + 1 in
  let digit_start := if byte_is (get bytes digit_start) is_sign then digit_start + 1 else digit_start in
  let! digits := scan_digit_sequence bytes digit_start is_ascii_digit in
  Ret {| ds_end_index := ds_end_index digits; saw_digit := saw_digit digits;
         ds_valid := ds_valid digits && saw_digit digits |}.

Definition scan_decimal_numeric (bytes : list u8) (start_index : usize) : outcome NumericScan :=
  let! integer_digits := scan_digit_sequence bytes start_index is_ascii_digit in
  let end_index := ds_end_index integer_digits in
  let valid := ds_valid integer_digits && saw_digit integer_digits in
  if bool_decide (get bytes end_index = Some DOT) && byte_is (get bytes (end_index + 1)) is_ascii_digit
  then
    let! fraction_digits := scan_digit_sequence bytes (end_index + 1) is_ascii_digit in
    let end_index := ds_end_index fraction_digits in
    let valid := valid && ds_valid fraction_digits && saw_digit fraction_digits in
    if byte_is (get bytes end_index) is_exponent_marker
    then
      let! exponent := scan_exponent_part bytes end_index in
      Ret {| ns_kind := RealLiteralToken; ns_end_index := ds_end_index exponent;
             ns_valid := valid && ds_valid exponent |}
    else Ret {| ns_kind := RealLiteralToken; ns_end_index := end_index; ns_valid := valid |}
  else if byte_is (get bytes end_index) is_exponent_marker
  then
    let! exponent := scan_exponent_part bytes end_index in
    Ret {| ns_kind := RealLiteralToken; ns_end_index := ds_end_index exponent;
           ns_valid := valid && ds_valid exponent |}
  else Ret {| ns_kind := DecimalIntegerLiteralToken; ns_end_index := end_index; ns_valid := valid |}.

Definition is_numeric_suffix_byte (byte : u8) : bool := is_ascii_alphanumeric byte || (byte =? UNDERSCORE).

Definition decimal_digits_step (bytes : list u8) (index : usize) : outcome (usize + usize) :=
  if byte_is (get bytes index) is_ascii_digit then continue_ (index + 1) else break_ index.

Definition decimal_digits_end (bytes : list u8) (start_index : usize) : outcome usize :=
  loop (S (S (length bytes))) (decimal_digits_step bytes) start_index.

Definition tuple_index_text_is_valid (bytes : list u8) (start_index end_index : usize) : bool :=
  if end_index =? start_index + 1 then true
  else byte_is (get bytes start_index) (fun byte => (49 <=? byte) && (byte <=? 57)).

(** ** quoted.rs: scanning escapes *)

Inductive CharacterLiteralError :=
| CharInvalidUnicodeEscape | CharMalformed | CharUnknownEscape (c : option char) | CharUnterminated.
Inductive CharacterBodyScan := BodyValid (end_index : usize) | BodyInvalid (e : CharacterLiteralError).
Inductive StringLiteralError :=
| StrInvalidUnicodeEscape | StrUnknownEscape (c : option char) | StrUnterminated.
Inductive EscapeMode := EscapeCharacter | EscapeString | EscapeByteString.
Inductive EscapeError :=
| EscapeInvalidUnicode | EscapeUnknown (c : option char) | EscapeUnterminated.
Inductive EscapeScan := EscapeValid (end_index : usize) | EscapeInvalid (e : EscapeError).

#[export] Instance EscapeMode_eq_dec : EqDecision EscapeMode.
Proof. solve_decision. Defined.

Definition hex_digit_value (byte : u8) : option u32 :=
  if (48 <=? byte) && (byte <=? 57) then Some (byte - 48)
  else if (97 <=? byte) && (byte <=? 102) then Some (byte - 97 + 10)
  else if (65 <=? byte) && (byte <=? 70) then Some (byte - 65 + 10)
  else None.

(** The body of the hexadecimal loop; the state is (index, value), and [inr None]
    is an early return with [InvalidUnicode]. *)
Definition unicode_step (bytes : list u8) (digits_start : usize) (st : usize * u32)
    : outcome (usize * u32 + option (usize * u32)) :=
  let (index, value) := st in
  match get bytes index with
  | None => break_ (Some st)
  | Some byte =>
      if byte =? 125 then break_ (Some st)
      else if index - digits_start =? 6 then break_ None
      else
        match hex_digit_value byte with
        | None => break_ None
        | Some digit =>
            match u32_checked_mul value 16 with
            | None => break_ None
            | Some value =>
                match u32_checked_add value digit with
                | None => break_ None
                | Some value => continue_ (index + 1, value)
                end
            end
        end
  end.

Definition scan_unicode_escape (bytes : list u8) (backslash_index : usize) : outcome EscapeScan :=
  let index := backslash_index + 2 in
  if negb (bool_decide (get bytes index = Some 123)) then Ret (EscapeInvalid EscapeInvalidUnicode)
  else
    let index := index + 1 in
    let digits_start := index in
    let! st := loop 8 (unicode_step bytes digits_start) (index, 0) in
    match st with
    | None => Ret (EscapeInvalid EscapeInvalidUnicode)
    | Some (index, value) =>
        if (index =? digits_start) || negb (bool_decide (get bytes index = Some 125))
        then Ret (EscapeInvalid EscapeInvalidUnicode)
        else match char_from_u32 value with
             | None => Ret (EscapeInvalid EscapeInvalidUnicode)
             | Some _ => Ret (EscapeValid (index + 1))
             end
    end.

Definition is_line_end (byte : u8) : bool := (byte =? LF) || (byte =? CR).

(** The escapes every mode has: quote, backslash, n, r, t and 0. *)
Definition is_simple_escape (byte : u8) : bool :=
  (byte =? QUOTE) || (byte =? BACKSLASH) || (byte =? 110) || (byte =? 114) || (byte =? 116) || (byte =? 48).

Definition scan_escape_sequence (snapshot : SourceSnapshot) (backslash_index : usize) (mode : EscapeMode)
    : outcome EscapeScan :=
  let bytes := text snapshot in
  match get bytes (backslash_index + 1) with
  | None => Ret (EscapeInvalid EscapeUnterminated)
  | Some byte =>
      if is_simple_escape byte then Ret (EscapeValid (backslash_index + 2))
      else if (byte =? APOSTROPHE) && bool_decide (mode = EscapeCharacter)
      then Ret (EscapeValid (backslash_index + 2))
      else if (byte =? 120) && bool_decide (mode = EscapeByteString)
      then
        match get_range bytes (backslash_index + 2) (backslash_index + 4) with
        | Some digits =>
            if forallb (fun digit => match hex_digit_value digit with Some _ => true | None => false end) digits
            then Ret (EscapeValid (backslash_index + 4))
            else Ret (EscapeInvalid (EscapeUnknown (Some 120)))
        | None => Ret (EscapeInvalid (EscapeUnknown (Some 120)))
        end
      else if byte =? 117 then scan_unicode_escape bytes backslash_index
      else if is_line_end byte then Ret (EscapeInvalid EscapeUnterminated)
      else
        let! cursor := text_size_from_usize (backslash_index + 1) in
        let! character := first_character snapshot cursor in
        Ret (EscapeInvalid (EscapeUnknown character))
  end.

Definition scan_character_literal_body (snapshot : SourceSnapshot) (index : usize)
    : outcome CharacterBodyScan :=
  match get (text snapshot) index with
  | None => Ret (BodyInvalid CharUnterminated)
  | Some byte =>
      if byte =? BACKSLASH
      then
        let! escape := scan_escape_sequence snapshot index EscapeCharacter in
        match escape with
        | EscapeValid end_index => Ret (BodyValid end_index)
        | EscapeInvalid EscapeUnterminated => Ret (BodyInvalid CharUnterminated)
        | EscapeInvalid (EscapeUnknown c) => Ret (BodyInvalid (CharUnknownEscape c))
        | EscapeInvalid EscapeInvalidUnicode => Ret (BodyInvalid CharInvalidUnicodeEscape)
        end
      else if byte =? APOSTROPHE then Ret (BodyInvalid CharMalformed)
      else if is_line_end byte then Ret (BodyInvalid CharUnterminated)
      else if is_ascii byte then Ret (BodyValid (index + 1))
      else match character_len_at snapshot index with
           | Some character_len => Ret (BodyValid (index + character_len))
           | None => Ret (BodyInvalid CharUnterminated)
           end
  end.

(** The body of the recovery loop. *)
Definition recovery_step (snapshot : SourceSnapshot) (quote : u8) (index : usize)
    : outcome (usize + usize) :=
  match get (text snapshot) index with
  | None => break_ index
  | Some byte =>
      if is_line_end byte then break_ index
      else if byte =? quote then break_ (index + 1)
      else if byte =? BACKSLASH
      then
        let index := index + 1 in
        match character_len_at snapshot index with
        | Some character_len => continue_ (index + character_len)
        | None => continue_ index
        end
      else match character_len_at snapshot index with
           | Some character_len => continue_ (index + character_len)
           | None => break_ index
           end
  end.

Definition quoted_literal_recovery_end (snapshot : SourceSnapshot) (start : TextSize) (quote : u8)
    : outcome TextSize :=
  let bytes := text snapshot in
  let! start_index := text_size_to_usize start in
  let index := start_index + 1 in
  let index :=
    if (quote =? QUOTE) && bool_decide (get bytes start_index = Some 98) then index + 1 else index in
  let! index := loop (text_fuel snapshot) (recovery_step snapshot quote) index in
  text_size_from_usize index.

(** ** Tokens *)

Section literal.
Context {B : Type} `{!DiagnosticSink B}.

(** The body of the recovery loop of numeric literals; the state is
    (index, previous_was_exponent_marker). *)
Definition numeric_like_step (bytes : list u8) (st : usize * bool)
    : outcome (usize * bool + usize) :=
  let (index, previous_was_exponent_marker) := st in
  match get bytes index with
  | None => break_ index
  | Some byte =>
      if is_ascii_alphanumeric byte || (byte =? UNDERSCORE)
      then continue_ (index + 1, is_exponent_marker byte)
      else if (byte =? DOT) && negb (bool_decide (get bytes (index + 1) = Some DOT))
      then continue_ (index + 1, false)
      else if is_sign byte && previous_was_exponent_marker then continue_ (index + 1, false)
      else break_ index
  end.

Definition invalid_numeric_like_end (snapshot : SourceSnapshot) (start : TextSize) : outcome TextSize :=
  let! start_index := text_size_to_usize start in
  let! index := loop (text_fuel snapshot) (numeric_like_step (text snapshot)) (start_index, false) in
  if index =? start_index
  then
    let! character := first_character snapshot start in
    match character with
    | Some character => offset_after_character start character
    | None => Ret start
    end
  else text_size_from_usize index.

Definition make_invalid_numeric_token (snapshot : SourceSnapshot) (start : TextSize)
    (error : NumericLiteralError) : outcome (TokenScan B) :=
  let! end_ := invalid_numeric_like_end snapshot start in
  let! range := TextRange_new start end_ in
  let! token := make_token InvalidToken start end_ in
  let diagnostic :=
    match error with
    | InvalidSuffix suffix_start => invalid_numeric_suffix snapshot range suffix_start
    | Malformed => malformed_numeric_literal snapshot range
    end in
  Ret (TokenScan_with_diagnostic token diagnostic).

Definition scan_numeric_literal (snapshot : SourceSnapshot) (start : TextSize) : outcome (TokenScan B) :=
  let bytes := text snapshot in
  let! start_index := text_size_to_usize start in
  let! scan :=
    (if has_radix_prefix bytes start_index 98 66 then scan_radix_integer bytes start_index Binary
     else if has_radix_prefix bytes start_index 120 88
     then scan_radix_integer bytes start_index Hexadecimal
     else scan_decimal_numeric bytes start_index) in
  if negb (ns_valid scan) then make_invalid_numeric_token snapshot start Malformed
  else
    let consumed_imaginary_suffix := bool_decide (get bytes (ns_end_index scan) = Some 105) in
    let end_index := if consumed_imaginary_suffix then ns_end_index scan + 1 else ns_end_index scan in
    let kind := if consumed_imaginary_suffix then ImaginaryLiteralToken else ns_kind scan in
    match get bytes end_index with
    | Some suffix_byte =>
        if is_numeric_suffix_byte suffix_byte
        then
          if negb consumed_imaginary_suffix && is_ascii_digit suffix_byte
          then make_invalid_numeric_token snapshot start Malformed
          else
            let! cursor := text_size_from_usize end_index in
            let! c := first_character snapshot cursor in
            make_invalid_numeric_token snapshot start (InvalidSuffix c)
        else
          let! end_ := text_size_from_usize end_index in
          let! token := make_token kind start end_ in Ret (TokenScan_clean token)
    | None =>
        let! end_ := text_size_from_usize end_index in
        let! token := make_token kind start end_ in Ret (TokenScan_clean token)
    end.

Definition scan_tuple_element_index_token (snapshot : SourceSnapshot) (start : TextSize)
    : outcome (TokenScan B) :=
  let bytes := text snapshot in
  let! start_index := text_size_to_usize start in
  let! end_index := decimal_digits_end bytes start_index in
  if negb (tuple_index_text_is_valid bytes start_index end_index)
     || byte_is (get bytes end_index) is_numeric_suffix_byte
  then make_invalid_numeric_token snapshot start Malformed
  else
    let! end_ := text_size_from_usize end_index in
    let! token := make_token TupleElementIndexToken start end_ in Ret (TokenScan_clean token).

Definition make_invalid_character_literal_token (snapshot : SourceSnapshot) (start : TextSize)
    (error : CharacterLiteralError) : outcome (TokenScan B) :=
  let! end_ := quoted_literal_recovery_end snapshot start APOSTROPHE in
  let! range := TextRange_new start end_ in
  let! token := make_token InvalidToken start end_ in
  let diagnostic :=
    match error with
    | CharInvalidUnicodeEscape => invalid_unicode_escape snapshot range
    | CharMalformed => malformed_character_literal snapshot range
    | CharUnknownEscape c => unknown_escape snapshot range c
    | CharUnterminated => unterminated_character_literal snapshot range
    end in
  Ret (TokenScan_with_diagnostic token diagnostic).

Definition make_invalid_string_literal_token (snapshot : SourceSnapshot) (start : TextSize)
    (error : StringLiteralError) : outcome (TokenScan B) :=
  let! end_ := quoted_literal_recovery_end snapshot start QUOTE in
  let! range := TextRange_new start end_ in
  let! token := make_token InvalidToken start end_ in
  let diagnostic :=
    match error with
    | StrInvalidUnicodeEscape => invalid_unicode_escape snapshot range
    | StrUnknownEscape c => unknown_escape snapshot range c
    | StrUnterminated => unterminated_string_literal snapshot range
    end in
  Ret (TokenScan_with_diagnostic token diagnostic).

Definition scan_character_literal (snapshot : SourceSnapshot) (start : TextSize) : outcome (TokenScan B) :=
  let! start_index := text_size_to_usize start in
  let body_index := start_index + 1 in
  let! body := scan_character_literal_body snapshot body_index in
  match body with
  | BodyInvalid error => make_invalid_character_literal_token snapshot start error
  | BodyValid body =>
      match get (text snapshot) body with
      | None => make_invalid_character_literal_token snapshot start CharUnterminated
      | Some byte =>
          if byte =? APOSTROPHE
          then
            let! end_ := text_size_from_usize (body + 1) in
            let! token := make_token CharacterLiteralToken start end_ in Ret (TokenScan_clean token)
          else if is_line_end byte
          then make_invalid_character_literal_token snapshot start CharUnterminated
          else make_invalid_character_literal_token snapshot start CharMalformed
      end
  end.

(** The body of the string loop; [inr] is the source's [return]. *)
Definition string_step (snapshot : SourceSnapshot) (start : TextSize) (byte_string : bool) (index : usize)
    : outcome (usize + TokenScan B) :=
  let fail error :=
    let! scan := make_invalid_string_literal_token snapshot start error in break_ scan in
  match get (text snapshot) index with
  | None => fail StrUnterminated
  | Some byte =>
      if byte =? QUOTE
      then
        let! end_ := text_size_from_usize (index + 1) in
        let! token := make_token (if byte_string then ByteStringLiteralToken else StringLiteralToken)
                        start end_ in
        break_ (TokenScan_clean token)
      else if is_line_end byte then fail StrUnterminated
      else if byte =? BACKSLASH
      then
        let! escape := scan_escape_sequence snapshot index
                         (if byte_string then EscapeByteString else EscapeString) in
        match escape with
        | EscapeValid end_index => continue_ end_index
        | EscapeInvalid EscapeUnterminated => fail StrUnterminated
        | EscapeInvalid (EscapeUnknown c) => fail (StrUnknownEscape c)
        | EscapeInvalid EscapeInvalidUnicode => fail StrInvalidUnicodeEscape
        end
      else if is_ascii byte then continue_ (index + 1)
      else match character_len_at snapshot index with
           | Some character_len => continue_ (index + character_len)
           | None => fail StrUnterminated
           end
  end.

Definition scan_string_literal (snapshot : SourceSnapshot) (start : TextSize) (byte_string : bool)
    : outcome (TokenScan B) :=
  let! start_index := text_size_to_usize start in
  let index := start_index + 1 + (if byte_string then 1 else 0) in
  loop (text_fuel snapshot) (string_step snapshot start byte_string) index.
End literal.

(** ** The grammar of digit sequences: digits with single separators inside *)

Inductive sep_digits (is_digit : u8 -> bool) : list u8 -> Prop :=
| sd_one d : is_digit d = true -> sep_digits is_digit [d]
| sd_digit l d : sep_digits is_digit l -> is_digit d = true -> sep_digits is_digit (l ++ [d])
| sd_sep l d :
    sep_digits is_digit l -> is_digit d = true -> sep_digits is_digit (l ++ [UNDERSCORE; d]).

Section digits.
Context (bytes : list u8) (is_digit : u8 -> bool).
Context (Hus : is_digit UNDERSCORE = false).

Lemma sep_digits_last l : sep_digits is_digit l -> exists l' d, l = l' ++ [d] /\ is_digit d = true.
Proof using.
  intros [d Hd|l' d _ Hd|l' d _ Hd]; [by exists [], d|by exists l', d|].
  exists (l' ++ [UNDERSCORE]), d. by rewrite <- app_assoc.
Qed.

(** What the loop knows of the text [w] it has consumed, followed by [next]. *)
Record digits_inv (w : list u8) (next : option u8) (saw prev valid : bool) : Prop := {
  di_chars : Forall (fun b => is_digit b = true \/ b = UNDERSCORE) w;
  di_saw : saw = true <-> exists b, In b w /\ is_digit b = true;
  di_prev : prev = true <-> exists w', w = w' ++ [UNDERSCORE];
  di_valid : valid = true <->
    w = [] \/ sep_digits is_digit w \/
    (exists w', w = w' ++ [UNDERSCORE] /\ sep_digits is_digit w' /\ byte_is next is_digit = true);
}.

Lemma digits_inv_digit w b next saw prev valid :
  is_digit b = true -> digits_inv w (Some b) saw prev valid ->
  digits_inv (w ++ [b]) next true false valid.
Proof using Hus.
  intros Hb [H1 H2 H3 H4]. constructor.
  - apply Forall_app. split; [done|]. constructor; [by left|constructor].
  - split; [|done]. intros _. exists b. rewrite in_app_iff. split; [right; by left|done].
  - split; [done|]. intros [w' Hw]. apply app_inj_tail in Hw as [_ ->]. congruence.
  - rewrite H4. split.
    + intros [-> | [Hs|(w' & -> & Hs & _)]]; right; left.
      * by constructor.
      * by constructor.
      * rewrite <- app_assoc. by constructor.
    + intros [Hw | [Hs|(w' & Hw & _)]].
      * by destruct w.
      * remember (w ++ [b]) as v eqn:Ev. destruct Hs as [d Hd|l d Hs Hd|l d Hs Hd].
        -- left. by destruct w as [|? [|? ?]].
        -- apply app_inj_tail in Ev as [-> ->]. by right; left.
        -- change [UNDERSCORE; d] with ([UNDERSCORE] ++ [d]) in Ev. rewrite app_assoc in Ev.
           apply app_inj_tail in Ev as [<- ->]. right; right. exists l. by split_and!.
      * apply app_inj_tail in Hw as [_ ->]. congruence.
Qed.

Lemma digits_inv_sep w next saw prev valid :
  digits_inv w (Some UNDERSCORE) saw prev valid ->
  digits_inv (w ++ [UNDERSCORE]) next saw true
    (if negb saw || prev || negb (byte_is next is_digit) then false else valid).
Proof using Hus.
  intros [H1 H2 H3 H4]. constructor.
  - apply Forall_app. split; [done|]. constructor; [by right|constructor].
  - rewrite H2. split; intros (b & Hin & Hb); exists b; rewrite in_app_iff in *; [by auto|].
    destruct Hin as [?|[<-|[]]]; [done|congruence].
  - split; [eauto|done].
  - split.
    + intros Hv. destruct saw, prev, (byte_is next is_digit) eqn:En; simpl in Hv; try done.
      apply H4 in Hv as [-> | [Hs|(w' & -> & _)]].
      * destruct (proj1 H2 eq_refl) as (b & [] & _).
      * right; right. by exists w.
      * by pose proof (proj2 H3 (ex_intro _ w' eq_refl)).
    + intros [Hw | [Hs|(w' & Hw & Hs & Hn)]].
      * by destruct w.
      * destruct (sep_digits_last _ Hs) as (l & d & Hl & Hd). apply app_inj_tail in Hl as [_ <-]. congruence.
      * apply app_inj_tail in Hw as [<- _]. rewrite Hn. destruct (sep_digits_last _ Hs) as (l & d & -> & Hd).
        assert (saw = true) as -> by (apply H2; exists d; rewrite in_app_iff; split; [right; by left|done]).
        assert (prev = false) as ->.
        { destruct prev; [|done]. destruct (proj1 H3 eq_refl) as [w' Hw'].
          apply app_inj_tail in Hw' as [_ ->]. congruence. }
        simpl. apply H4. by right; left.
Qed.

Lemma between_snoc (i j : Z) (b : u8) :
  0 <= i <= j -> get bytes j = Some b -> between bytes i (j + 1) = between bytes i j ++ [b].
Proof using.
  intros Hi Hg. pose proof (get_Some_range _ _ _ Hg).
  rewrite <- (between_join bytes i j (j + 1)) by lia. f_equal.
  unfold between. replace (j + 1 - j) with 1 by lia. by rewrite (zdrop_cons_get _ _ _ Hg).
Qed.

(** The scan stops at the first byte that cannot continue the sequence, and
    accepts exactly the grammar. *)
Lemma scan_digit_sequence_spec a :
  0 <= a <= zlen bytes ->
  returns (scan_digit_sequence bytes a is_digit) (fun ds =>
    a <= ds_end_index ds <= zlen bytes /\
    Forall (fun b => is_digit b = true \/ b = UNDERSCORE) (between bytes a (ds_end_index ds)) /\
    byte_is (get bytes (ds_end_index ds)) (fun b => is_digit b || (b =? UNDERSCORE)) = false /\
    (ds_valid ds = true <-> sep_digits is_digit (between bytes a (ds_end_index ds))) /\
    (ds_valid ds = true -> saw_digit ds = true)).
Proof using Hus.
  intros Ha. unfold scan_digit_sequence.
  eapply returns_bind.
  - eapply (loop_rule (fun st : Z * bool * bool * bool => let '(i, saw, prev, valid) := st in
        a <= i <= zlen bytes /\ digits_inv (between bytes a i) (get bytes i) saw prev valid)
      (fun st => Z.to_nat (zlen bytes - st.1.1.1))
      (fun st : Z * bool * bool * bool => let '(i, saw, prev, valid) := st in
        a <= i <= zlen bytes /\ digits_inv (between bytes a i) (get bytes i) saw prev valid /\
        byte_is (get bytes i) (fun b => is_digit b || (b =? UNDERSCORE)) = false)).
    + intros [[[i saw] prev] valid] [Hi Hinv]. unfold digit_step.
      destruct (get bytes i) as [b|] eqn:Hg; [|apply returns_ret; by rewrite Hg].
      pose proof (get_Some_range _ _ _ Hg).
      assert (Z.to_nat (zlen bytes - (i + 1)) < Z.to_nat (zlen bytes - i))%nat as Hm by lia.
      destruct (is_digit b) eqn:Hb; [|destruct (b =? UNDERSCORE) eqn:Eu].
      * apply returns_ret. cbn [fst snd]. split; [split; [lia|]|done].
        rewrite (between_snoc _ _ b) by (done || lia). by eapply digits_inv_digit.
      * apply Z.eqb_eq in Eu. subst b. apply returns_ret. cbn [fst snd]. split; [split; [lia|]|done].
        rewrite (between_snoc _ _ UNDERSCORE) by (done || lia). by apply digits_inv_sep.
      * apply returns_ret. rewrite Hg. split_and!; [lia|lia|done|]. simpl. by rewrite Hb, Eu.
    + split; [lia|]. rewrite between_empty. constructor; [constructor|..].
      * split; [done|]. by intros (b & [] & _).
      * split; [done|]. intros [w Hw]. by destruct w.
      * split; [by left|done].
    + simpl. unfold zlen. lia.
  - intros [[[i saw] prev] valid] (Hi & [H1 H2 H3 H4] & Hstop). apply returns_ret. simpl.
    split_and!; try done; try lia.
    + rewrite !andb_true_iff, negb_true_iff. split.
      * intros [[Hv Hs] Hp]. apply H4 in Hv as [Hw|[?|(w' & Hw & _)]]; [|done|].
        -- rewrite Hw in H2. destruct (proj1 H2 Hs) as (b & [] & _).
        -- assert (prev = true) by (apply H3; eauto). congruence.
      * intros Hs. destruct (sep_digits_last _ Hs) as (l & d & Hl & Hd). split_and!.
        -- apply H4. by right; left.
        -- apply H2. exists d. rewrite Hl, in_app_iff. split; [right; by left|done].
        -- destruct prev; [|done]. destruct (proj1 H3 eq_refl) as [w' Hw']. rewrite Hl in Hw'.
           apply app_inj_tail in Hw' as [_ ->]. congruence.
    + rewrite !andb_true_iff. by intros [[_ ?] _].
Qed.
End digits.

(** ** Lemmas: numeric tokens *)

Lemma sep_digits_nonempty f l : sep_digits f l -> l <> [].
Proof. intros [d ?|l' d ??|l' d ??]; [done|by destruct l'|by destruct l']. Qed.

Lemma between_nonempty t a b : a <= b -> between t a b <> [] -> a < b.
Proof.
  intros Hle Hne. destruct (Z.eq_dec a b) as [->|]; [|lia]. by rewrite between_empty in Hne.
Qed.

Lemma get_between t a b i x :
  0 <= a -> b <= zlen t -> get (between t a b) i = Some x -> get t (a + i) = Some x /\ i < b - a.
Proof.
  intros Ha Hb Hg. unfold between in Hg. pose proof (get_Some_range _ _ _ Hg) as Hr.
  destruct (Z_lt_le_dec b a) as [Hlt|Hle].
  { unfold ztake in Hr. replace (Z.to_nat (b - a)) with 0%nat in Hr by lia. unfold zlen in Hr. simpl in Hr. lia. }
  rewrite zlen_ztake in Hr by (rewrite zlen_zdrop; lia). rewrite get_ztake in Hg by lia.
  rewrite get_zdrop in Hg by lia. split; [done|lia].
Qed.

Section numeric.
Context {B : Type} `{!DiagnosticSink B, !DiagnosticSinkLaws B}.
Context (s : SourceSnapshot) `{!WfSnapshot s}.

(** A cursor moved over ASCII bytes is again on a boundary. *)
Lemma ascii_run a b :
  boundary (text s) a -> a <= b <= zlen (text s) ->
  Forall (fun x => x < 128) (between (text s) a b) -> boundary (text s) b.
Proof using All.
  intros Ha Hb Hall. destruct (Z.eq_dec a b) as [<-|Hne]; [done|].
  pose proof (boundary_range _ _ Ha).
  destruct (get_is_Some (text s) (b - 1) ltac:(lia)) as [x Hx].
  replace b with (b - 1 + 1) by lia. apply (ascii_step s _ x Hx).
  rewrite Forall_forall in Hall. apply Hall.
  assert (between (text s) a b = between (text s) a (b - 1) ++ [x]) as ->.
  { replace b with (b - 1 + 1) at 1 by lia. apply between_snoc; [lia|done]. }
  apply in_app_iff. right. by left.
Qed.

Lemma digits_ascii f l :
  (forall b, f b = true -> b < 128) ->
  Forall (fun b => f b = true \/ b = UNDERSCORE) l -> Forall (fun x => x < 128) l.
Proof using.
  intros Hf Hl. eapply Forall_impl; [|exact Hl]. intros b [Hb| ->]; [by apply Hf|lia].
Qed.

Lemma is_ascii_digit_ascii b : is_ascii_digit b = true -> b < 128.
Proof using. unfold is_ascii_digit. lia. Qed.

Lemma radix_digit_ascii r b : radix_digit r b = true -> b < 128.
Proof using. destruct r; unfold radix_digit, is_ascii_hexdigit, is_ascii_digit; lia. Qed.

(** A digit sequence from a boundary ends on a boundary. *)
Lemma scan_digits_ok f a :
  (forall b, f b = true -> b < 128) -> f UNDERSCORE = false -> boundary (text s) a ->
  returns (scan_digit_sequence (text s) a f) (fun ds =>
    boundary (text s) (ds_end_index ds) /\ a <= ds_end_index ds /\
    (ds_valid ds = true <-> sep_digits f (between (text s) a (ds_end_index ds))) /\
    (ds_valid ds = true -> a < ds_end_index ds)).
Proof using All.
  intros Hf Hus Ha. pose proof (boundary_range _ _ Ha).
  eapply returns_mono; [by apply scan_digit_sequence_spec|].
  intros ds (Hr & Hall & _ & Hv & _). split_and!; [|lia|done|].
  - eapply ascii_run; [exact Ha|done|]. by eapply digits_ascii.
  - intros Hd%Hv. apply (between_nonempty (text s)); [lia|]. by eapply sep_digits_nonempty.
Qed.

Lemma scan_exponent_part_ok m :
  boundary (text s) (m + 1) ->
  returns (scan_exponent_part (text s) m) (fun ds => boundary (text s) (ds_end_index ds) /\ m < ds_end_index ds).
Proof using All.
  intros Hm. unfold scan_exponent_part. set (d := if byte_is _ _ then _ else _).
  assert (boundary (text s) d /\ m < d) as [Hd Hlt].
  { subst d. unfold byte_is. destruct (get (text s) (m + 1)) as [b|] eqn:Hg; [|split; [done|lia]].
    destruct (is_sign b) eqn:Es; [|split; [done|lia]].
    split; [|lia]. apply (ascii_step s _ _ Hg). unfold is_sign in Es. lia. }
  eapply returns_bind; [by apply scan_digits_ok; [apply is_ascii_digit_ascii| |]|].
  intros ds (H1 & H2 & _). apply returns_ret. simpl. split; [done|lia].
Qed.

Lemma marker_next m : byte_is (get (text s) m) is_exponent_marker = true -> boundary (text s) (m + 1).
Proof using All.
  unfold byte_is. destruct (get (text s) m) as [b|] eqn:Hg; [|done]. intros Hm.
  apply (ascii_step s _ _ Hg). unfold is_exponent_marker in Hm. lia.
Qed.

Definition numeric_kind (k : SyntaxKind) : bool :=
  match k with
  | DecimalIntegerLiteralToken | BinaryIntegerLiteralToken | HexadecimalIntegerLiteralToken
  | RealLiteralToken | ImaginaryLiteralToken => true
  | _ => false
  end.

(** What a numeric scan from [a] promises. *)
Definition numeric_ok (a : Z) (ns : NumericScan) : Prop :=
  boundary (text s) (ns_end_index ns) /\ (ns_valid ns = true -> a < ns_end_index ns) /\
  numeric_kind (ns_kind ns) = true.

Lemma scan_decimal_numeric_ok a :
  boundary (text s) a -> returns (scan_decimal_numeric (text s) a) (numeric_ok a).
Proof using All.
  intros Ha. unfold scan_decimal_numeric.
  eapply returns_bind; [by apply scan_digits_ok; [apply is_ascii_digit_ascii| |]|].
  intros ds (H1 & H2 & _ & H3).
  destruct (bool_decide _ && _) eqn:Edot; [|destruct (byte_is _ is_exponent_marker) eqn:Eexp].
  - apply andb_true_iff in Edot as [Edot _]. rewrite bool_decide_eq_true in Edot.
    destruct (ascii_step s _ _ Edot ltac:(lia)) as [_ Hn].
    eapply returns_bind; [by apply scan_digits_ok; [apply is_ascii_digit_ascii| |]|].
    intros fr (F1 & F2 & _ & F3). destruct (byte_is _ is_exponent_marker) eqn:Eexp.
    + eapply returns_bind; [by apply scan_exponent_part_ok, marker_next|].
      intros ex [X1 X2]. apply returns_ret. split_and!; simpl; [done|lia|done].
    + apply returns_ret. split_and!; simpl; [done|lia|done].
  - eapply returns_bind; [by apply scan_exponent_part_ok, marker_next|].
    intros ex [X1 X2]. apply returns_ret. split_and!; simpl; [done|lia|done].
  - apply returns_ret. split_and!; simpl; [done|rewrite andb_true_iff; tauto|done].
Qed.

Lemma scan_radix_integer_ok a r l u :
  l < 128 -> u < 128 -> has_radix_prefix (text s) a l u = true ->
  returns (scan_radix_integer (text s) a r) (numeric_ok a).
Proof using All.
  intros Hl Hu Hp. unfold has_radix_prefix in Hp. apply andb_true_iff in Hp as [_ Hp].
  destruct (get (text s) (a + 1)) as [b|] eqn:Hg; [|done].
  destruct (ascii_step s _ _ Hg ltac:(lia)) as [_ Hn]. replace (a + 1 + 1) with (a + 2) in Hn by lia.
  unfold scan_radix_integer.
  eapply returns_bind; [by apply scan_digits_ok; [apply radix_digit_ascii|destruct r|]|].
  intros ds (H1 & H2 & _). apply returns_ret. split_and!; simpl; [done|lia|by destruct r].
Qed.

(** The scan of a literal without its suffix. *)
Definition numeric_scan (t : list u8) (a : Z) : outcome NumericScan :=
  if has_radix_prefix t a 98 66 then scan_radix_integer t a Binary
  else if has_radix_prefix t a 120 88 then scan_radix_integer t a Hexadecimal
  else scan_decimal_numeric t a.

Lemma numeric_scan_ok a : boundary (text s) a -> returns (numeric_scan (text s) a) (numeric_ok a).
Proof using All.
  intros Ha. unfold numeric_scan.
  destruct (has_radix_prefix _ _ 98 66) eqn:E1; [eapply scan_radix_integer_ok; [| |exact E1]; lia|].
  destruct (has_radix_prefix _ _ 120 88) eqn:E2; [eapply scan_radix_integer_ok; [| |exact E2]; lia|].
  by apply scan_decimal_numeric_ok.
Qed.

Lemma invalid_numeric_like_end_ok a :
  boundary (text s) a -> a < zlen (text s) ->
  returns (invalid_numeric_like_end s a) (fun e => boundary (text s) e /\ a < e).
Proof using All.
  intros Ha Hlt. pose proof (boundary_range _ _ Ha). unfold invalid_numeric_like_end.
  rewrite text_size_to_usize_ok by by apply (boundary_u32 s). cbn [outcome_bind].
  eapply returns_bind.
  - eapply (loop_rule (fun st : Z * bool => boundary (text s) st.1 /\ a <= st.1) (fun st => remaining s st.1)
      (fun i => boundary (text s) i /\ a <= i)); [|split; [done|simpl; lia]|apply remaining_fuel; simpl; lia].
    intros [i prev] [Hi Hai]. cbn [fst] in *. unfold numeric_like_step.
    destruct (get (text s) i) as [b|] eqn:Hg; [|by apply returns_ret].
    pose proof (get_Some_range _ _ _ Hg).
    assert (forall p : bool, b < 128 -> (boundary (text s) (i + 1, p).1 /\ a <= (i + 1, p).1) /\
      Nat.lt (remaining s (i + 1, p).1) (remaining s i)) as Hnext.
    { intros p Hb. simpl. split_and!; [by apply (ascii_step s _ _ Hg)|lia|apply remaining_step; lia]. }
    destruct (is_ascii_alphanumeric b || _) eqn:E1.
    { apply returns_ret, Hnext. unfold is_ascii_alphanumeric, is_ascii_alphabetic, is_ascii_digit in E1. lia. }
    destruct ((b =? DOT) && _) eqn:E2; [apply returns_ret, Hnext; lia|].
    destruct (is_sign b && _) eqn:E3; [apply returns_ret, Hnext; unfold is_sign in E3; lia|by apply returns_ret].
  - intros i [Hi Hai]. destruct (i =? a) eqn:Eia.
    + destruct (first_character_cases s a Ha) as [[? _]|(c & -> & _ & Hn & Hoff & _)]; [lia|].
      cbn [outcome_bind]. rewrite Hoff. apply returns_ret. pose proof (len_utf8_range c). split; [done|lia].
    + rewrite text_size_from_usize_ok by by apply (boundary_u32 s). apply returns_ret. split; [done|lia].
Qed.

Lemma invalid_numeric_diagnostic_at r (e : NumericLiteralError) :
  error_at s r (match e with
                | InvalidSuffix c => invalid_numeric_suffix s r c
                | Malformed => malformed_numeric_literal s r
                end).
Proof using. destruct e as [[c|]|]; done. Qed.

Lemma make_invalid_numeric_token_ok a e :
  boundary (text s) a -> a < zlen (text s) ->
  returns (make_invalid_numeric_token (B := B) s a e) (core_scan s a).
Proof using All.
  intros Ha Hlt. unfold make_invalid_numeric_token.
  eapply returns_bind; [by apply invalid_numeric_like_end_ok|]. intros i [Hi Hai].
  unfold TextRange_new. destruct (a <=? i) eqn:E; [|lia]. cbn [assert_ outcome_bind].
  apply invalid_scan; [done|done|]. apply invalid_numeric_diagnostic_at.
Qed.

Lemma numeric_kind_token k :
  numeric_kind k = true -> is_token k = true /\ k <> EndOfFileToken /\ k <> InvalidToken.
Proof using. destruct k; done. Qed.

Lemma scan_numeric_literal_ok a :
  boundary (text s) a -> a < zlen (text s) -> returns (scan_numeric_literal (B := B) s a) (core_scan s a).
Proof using All.
  intros Ha Hlt. unfold scan_numeric_literal.
  rewrite text_size_to_usize_ok by by apply (boundary_u32 s). cbn [outcome_bind].
  eapply (returns_bind _ _ (numeric_ok a)); [by apply numeric_scan_ok|].
  intros ns (Hb & Hv & Hk). destruct (ns_valid ns); cbn [negb]; [|by apply make_invalid_numeric_token_ok].
  specialize (Hv eq_refl). set (im := bool_decide (get (text s) (ns_end_index ns) = Some 105)).
  set (e := if im then _ else _). set (k := if im then ImaginaryLiteralToken else _).
  assert (boundary (text s) e /\ a < e /\ numeric_kind k = true) as (He & Hae & Hk').
  { subst e k im. case_bool_decide as Hi; [|done]. split_and!; [|lia|done].
    apply (ascii_step s _ _ Hi). lia. }
  destruct (numeric_kind_token k Hk') as (Hk1 & Hk2 & Hk3).
  destruct (get (text s) e) as [sb|] eqn:Hsb; [destruct (is_numeric_suffix_byte sb) eqn:Esb|].
  - destruct (negb im && _); [by apply make_invalid_numeric_token_ok|].
    rewrite text_size_from_usize_ok by by apply (boundary_u32 s). cbn [outcome_bind].
    rewrite first_character_ok by done. cbn [outcome_bind]. by apply make_invalid_numeric_token_ok.
  - rewrite text_size_from_usize_ok by by apply (boundary_u32 s). cbn [outcome_bind]. by apply clean_scan.
  - rewrite text_size_from_usize_ok by by apply (boundary_u32 s). cbn [outcome_bind]. by apply clean_scan.
Qed.

Lemma decimal_digits_end_ok a :
  boundary (text s) a ->
  returns (decimal_digits_end (text s) a) (fun e =>
    boundary (text s) e /\ a <= e /\ byte_is (get (text s) e) is_ascii_digit = false).
Proof using All.
  intros Ha. pose proof (boundary_range _ _ Ha). unfold decimal_digits_end.
  eapply (loop_rule (fun i => boundary (text s) i /\ a <= i) (remaining s));
    [|split; [done|lia]|apply (remaining_fuel s); lia].
  intros i [Hi Hai]. unfold decimal_digits_step, byte_is. destruct (get (text s) i) as [b|] eqn:Hg.
  - pose proof (get_Some_range _ _ _ Hg). destruct (is_ascii_digit b) eqn:Eb; apply returns_ret.
    + split_and!; [apply (ascii_step s _ _ Hg); by apply is_ascii_digit_ascii|lia|apply remaining_step; lia].
    + rewrite Hg. by split_and!.
  - apply returns_ret. by rewrite Hg.
Qed.

Lemma scan_tuple_element_index_token_ok a :
  boundary (text s) a -> byte_is (get (text s) a) is_ascii_digit = true ->
  returns (scan_tuple_element_index_token (B := B) s a) (core_scan s a).
Proof using All.
  intros Ha Hd. assert (a < zlen (text s)) as Hlt.
  { unfold byte_is in Hd. destruct (get (text s) a) eqn:Hg; [|done]. apply get_Some_range in Hg. lia. }
  unfold scan_tuple_element_index_token.
  rewrite text_size_to_usize_ok by by apply (boundary_u32 s). cbn [outcome_bind].
  eapply returns_bind; [by apply decimal_digits_end_ok|]. intros e (He & Hae & Hstop).
  destruct (_ || _); [by apply make_invalid_numeric_token_ok|].
  rewrite text_size_from_usize_ok by by apply (boundary_u32 s). cbn [outcome_bind].
  apply clean_scan; try done. destruct (Z.eq_dec a e) as [->|]; [congruence|lia].
Qed.
End numeric.

(** ** Unicode escapes *)

Definition is_hex (b : u8) : bool := match hex_digit_value b with Some _ => true | None => false end.

Definition hex_fold (l : list u8) : Z :=
  fold_left (fun v b => v * 16 + default 0 (hex_digit_value b)) l 0.

(** The digits [ds] of a well-formed escape whose backslash is at [i]: one to
    six hexadecimal digits in braces that denote a scalar value. *)
Definition unicode_escape_at (bytes : list u8) (i : Z) (ds : list u8) : Prop :=
  get bytes (i + 2) = Some 123 /\ between bytes (i + 3) (i + 3 + zlen ds) = ds /\
  get bytes (i + 3 + zlen ds) = Some 125 /\ Forall (fun b => is_hex b = true) ds /\
  1 <= zlen ds <= 6 /\ is_scalar (hex_fold ds) = true.

Lemma hex_digit_value_range b d : hex_digit_value b = Some d -> 0 <= d < 16 /\ b < 128.
Proof. unfold hex_digit_value. repeat case_match; intros ?; simplify_eq; lia. Qed.

Lemma is_hex_ascii b : is_hex b = true -> b < 128.
Proof. unfold is_hex. destruct (hex_digit_value b) eqn:E; [|done]. by destruct (hex_digit_value_range _ _ E). Qed.

Lemma hex_fold_snoc l b : hex_fold (l ++ [b]) = hex_fold l * 16 + default 0 (hex_digit_value b).
Proof. unfold hex_fold. by rewrite fold_left_app. Qed.

Lemma between_In (bytes : list u8) a j b x :
  0 <= a <= j -> j < b <= zlen bytes -> get bytes j = Some x -> In x (between bytes a b).
Proof.
  intros Ha Hb Hg. rewrite <- (between_join bytes a j b) by lia. apply in_app_iff. right.
  rewrite <- (between_join bytes j (j + 1) b) by lia. apply in_app_iff. left.
  rewrite (between_snoc bytes _ _ x) by (done || lia). rewrite between_empty. by left.
Qed.

Section unicode.
Context (bytes : list u8) (i : Z) (Hi : 0 <= i).

Definition unicode_inv (st : Z * Z) : Prop :=
  let (j, v) := st in
  i + 3 <= j <= i + 9 /\ j <= zlen bytes /\
  Forall (fun b => is_hex b = true) (between bytes (i + 3) j) /\
  v = hex_fold (between bytes (i + 3) j) /\ 0 <= v < 16 ^ (j - (i + 3)).

(** Why the loop stops. *)
Definition unicode_stop (r : option (Z * Z)) : Prop :=
  match r with
  | Some (j, v) => unicode_inv (j, v) /\ (get bytes j = None \/ get bytes j = Some 125)
  | None => exists j v b, unicode_inv (j, v) /\ get bytes j = Some b /\ b <> 125 /\
              (j = i + 9 \/ is_hex b = false)
  end.

Lemma pow16 n : 0 <= n <= 5 -> 16 ^ n <= 16 ^ 5 /\ 16 ^ (n + 1) = 16 ^ n * 16.
Proof using.
  intros Hn. split; [apply Z.pow_le_mono_r; lia|]. rewrite Z.pow_add_r by lia. lia.
Qed.

Lemma unicode_step_ok st :
  unicode_inv st ->
  returns (unicode_step bytes (i + 3) st) (fun step =>
    match step with
    | inl st' => unicode_inv st' /\ (Z.to_nat (i + 10 - st'.1) < Z.to_nat (i + 10 - st.1))%nat
    | inr r => unicode_stop r
    end).
Proof using Hi.
  destruct st as [j v]. intros Hinv. pose proof Hinv as (Hj & Hlen & Hhex & Hv & Hr).
  unfold unicode_step. destruct (get bytes j) as [b|] eqn:Hg; [|apply returns_ret; split; [done|by left]].
  pose proof (get_Some_range _ _ _ Hg).
  destruct (b =? 125) eqn:E1; [apply returns_ret; split; [done|right; rewrite Hg; f_equal; lia]|].
  destruct (j - (i + 3) =? 6) eqn:E2.
  { apply returns_ret. exists j, v, b. split_and!; [done|done|lia|left; lia]. }
  destruct (hex_digit_value b) as [d|] eqn:Ed.
  2: { apply returns_ret. exists j, v, b. split_and!; [done|done|lia|right]. unfold is_hex. by rewrite Ed. }
  destruct (hex_digit_value_range _ _ Ed) as [Hd _].
  destruct (pow16 (j - (i + 3)) ltac:(lia)) as [Hp1 Hp2]. change (16 ^ 5) with 1048576 in Hp1.
  assert (0 <= v < 1048576) as Hsmall by lia.
  unfold u32_checked_mul, u32_checked_add. rewrite checked_ok by (unfold U32_MAX; lia).
  rewrite checked_ok by (unfold U32_MAX; lia).
  apply returns_ret. cbn [fst]. split; [|lia]. unfold unicode_inv.
  rewrite (between_snoc bytes (i + 3) j b) by (done || lia). rewrite hex_fold_snoc, Ed. cbn [default].
  replace (j + 1 - (i + 3)) with (j - (i + 3) + 1) by lia. rewrite Hp2.
  split_and!; try lia; [|by rewrite Hv]. apply Forall_app. split; [done|]. constructor; [|constructor].
  unfold is_hex. by rewrite Ed.
Qed.

Lemma unicode_loop :
  i + 3 <= zlen bytes -> returns (loop 8 (unicode_step bytes (i + 3)) (i + 3, 0)) unicode_stop.
Proof using Hi.
  intros Hlen. eapply (loop_rule unicode_inv (fun st => Z.to_nat (i + 10 - st.1)));
    [exact unicode_step_ok| |simpl; lia].
  unfold unicode_inv. rewrite between_empty, Z.sub_diag. split_and!; try done; lia.
Qed.

(** The digits before the cursor determine where a well-formed escape ends. *)
Lemma unicode_escape_length j v ds :
  unicode_inv (j, v) -> unicode_escape_at bytes i ds -> j <= i + 3 + zlen ds.
Proof using Hi.
  intros (Hj & Hlen & Hhex & _) (_ & _ & Hend & _). pose proof (zlen_nonneg ds).
  destruct (Z_le_gt_dec j (i + 3 + zlen ds)) as [|Hgt]; [done|]. exfalso.
  rewrite Forall_forall in Hhex. specialize (Hhex 125). enough (In 125 (between bytes (i + 3) j)) as Hin.
  { by specialize (Hhex Hin). }
  apply (between_In bytes _ (i + 3 + zlen ds)); [lia|lia|done].
Qed.

Lemma scan_unicode_escape_exact :
  returns (scan_unicode_escape bytes i) (fun r =>
    match r with
    | EscapeValid e => exists ds, unicode_escape_at bytes i ds /\ e = i + 4 + zlen ds
    | EscapeInvalid err => err = EscapeInvalidUnicode /\ forall ds, ~ unicode_escape_at bytes i ds
    end).
Proof using Hi.
  unfold scan_unicode_escape. case_bool_decide as Hb; cbn [negb].
  2: { apply returns_ret. split; [done|]. by intros ds (Ho & _). }
  pose proof (get_Some_range _ _ _ Hb). replace (i + 2 + 1) with (i + 3) by lia.
  eapply returns_bind; [apply unicode_loop; lia|]. intros [[j v]|] Hstop.
  - destruct Hstop as [Hinv Hend]. pose proof Hinv as (Hj & Hlen & Hhex & Hv & Hr).
    assert (zlen (between bytes (i + 3) j) = j - (i + 3)) as Hz
      by (unfold between; rewrite zlen_ztake; rewrite ?zlen_zdrop; lia).
    assert (forall ds, unicode_escape_at bytes i ds -> get bytes j = Some 125 /\ ds = between bytes (i + 3) j) as Huniq.
    { intros ds Hds. pose proof (unicode_escape_length _ _ _ Hinv Hds) as Hle.
      destruct Hds as (_ & Hbet & Hclose & Hall & _). pose proof (get_Some_range _ _ _ Hclose).
      enough (j = i + 3 + zlen ds) as -> by (split; [done|by rewrite Hbet]).
      destruct (Z.eq_dec j (i + 3 + zlen ds)) as [|Hne]; [done|]. exfalso.
      destruct Hend as [Hnone|H125]; [apply get_None in Hnone; lia|].
      rewrite Forall_forall in Hall. enough (In 125 ds) as Hin by (by specialize (Hall 125 Hin)).
      rewrite <- Hbet. apply (between_In bytes _ j); [lia|lia|done]. }
    destruct ((j =? i + 3) || negb _) eqn:E.
    { apply returns_ret. split; [done|]. intros ds Hds. destruct (Huniq _ Hds) as [H125 Heq].
      rewrite bool_decide_eq_true_2 in E by done. rewrite orb_false_r in E. apply Z.eqb_eq in E.
      destruct Hds as (_ & _ & _ & _ & Hl & _). rewrite Heq, Hz in Hl. lia. }
    apply orb_false_iff in E as [Ej E]. rewrite negb_false_iff, bool_decide_eq_true in E.
    unfold char_from_u32. destruct (is_scalar v) eqn:Es; apply returns_ret.
    + exists (between bytes (i + 3) j). rewrite Hz. split; [|lia]. unfold unicode_escape_at. rewrite Hz.
      replace (i + 3 + (j - (i + 3))) with j by lia. rewrite <- Hv. split_and!; try done; lia.
    + split; [done|]. intros ds Hds. destruct (Huniq _ Hds) as [_ ->].
      destruct Hds as (_ & _ & _ & _ & _ & Hsc). rewrite <- Hv in Hsc. congruence.
  - destruct Hstop as (j & v & b & Hinv & Hg & Hne & Hwhy). apply returns_ret. split; [done|].
    intros ds Hds. pose proof (unicode_escape_length _ _ _ Hinv Hds) as Hle.
    destruct Hds as (_ & Hbet & Hclose & Hall & Hl & _). pose proof (get_Some_range _ _ _ Hclose).
    destruct Hinv as (Hj & _).
    destruct (Z.eq_dec j (i + 3 + zlen ds)) as [->|Hnej]; [congruence|].
    destruct Hwhy as [->|Hnh]; [lia|]. rewrite Forall_forall in Hall.
    enough (In b ds) as Hin by (specialize (Hall b Hin); congruence).
    rewrite <- Hbet. apply (between_In bytes _ j); [lia|lia|done].
Qed.
End unicode.

(** ** Lemmas: quoted tokens *)

Section quoted.
Context {B : Type} `{!DiagnosticSink B, !DiagnosticSinkLaws B}.
Context (s : SourceSnapshot) `{!WfSnapshot s}.

Lemma unicode_escape_boundary i ds :
  0 <= i -> unicode_escape_at (text s) i ds -> boundary (text s) (i + 4 + zlen ds).
Proof using All.
  intros Hi (_ & _ & Hclose & _). replace (i + 4 + zlen ds) with (i + 3 + zlen ds + 1) by lia.
  apply (ascii_step s _ _ Hclose). lia.
Qed.

(** An escape scan returns; an accepted escape ends past its backslash. *)
Lemma scan_escape_sequence_ok i mode :
  boundary (text s) (i + 1) -> 0 <= i -> i < zlen (text s) ->
  returns (scan_escape_sequence s i mode) (fun r =>
    match r with EscapeValid e => boundary (text s) e /\ i < e | EscapeInvalid _ => True end).
Proof using All.
  intros Hb Hi Hlt. unfold scan_escape_sequence.
  destruct (get (text s) (i + 1)) as [b|] eqn:Hg; [|by apply returns_ret].
  assert (b < 128 -> boundary (text s) (i + 2)) as H2.
  { intros Hb'. replace (i + 2) with (i + 1 + 1) by lia. by apply (ascii_step s _ _ Hg). }
  destruct (is_simple_escape b) eqn:E1.
  { apply returns_ret. split; [|lia]. apply H2. unfold is_simple_escape in E1. lia. }
  destruct ((b =? APOSTROPHE) && _) eqn:E2; [apply returns_ret; split; [apply H2; lia|lia]|].
  destruct ((b =? 120) && _) eqn:E3.
  { destruct (get_range _ _ _) as [digits|] eqn:Er; [|by apply returns_ret].
    destruct (forallb _ digits) eqn:Ef; apply returns_ret; [|done]. split; [|lia].
    apply get_range_Some in Er as (Hr1 & Hr2 & ->).
    destruct (get_is_Some (text s) (i + 3) ltac:(lia)) as [y Hy].
    replace (i + 4) with (i + 3 + 1) by lia. apply (ascii_step s _ _ Hy), is_hex_ascii.
    rewrite forallb_forall in Ef. apply Ef. apply (between_In _ _ (i + 3)); [lia|lia|done]. }
  destruct (b =? 117) eqn:E4.
  { eapply returns_mono; [by apply scan_unicode_escape_exact|]. intros [e|err]; [|done].
    intros (ds & Hds & ->). pose proof (zlen_nonneg ds). split; [by apply unicode_escape_boundary|lia]. }
  destruct (is_line_end b); [by apply returns_ret|].
  rewrite text_size_from_usize_ok by by apply (boundary_u32 s). cbn [outcome_bind].
  rewrite first_character_ok by done. by apply returns_ret.
Qed.

Lemma recovery_loop q a :
  q < 128 -> boundary (text s) a ->
  returns (loop (text_fuel s) (recovery_step s q) a) (fun e => boundary (text s) e /\ a <= e).
Proof using All.
  intros Hq Ha. pose proof (boundary_range _ _ Ha).
  eapply (loop_rule (fun i => boundary (text s) i /\ a <= i) (remaining s));
    [|split; [done|lia]|apply (remaining_fuel s); lia].
  intros i [Hi Hai]. unfold recovery_step. destruct (get (text s) i) as [b|] eqn:Hg; [|by apply returns_ret].
  pose proof (get_Some_range _ _ _ Hg) as Hr.
  destruct (is_line_end b); [by apply returns_ret|]. destruct (b =? q) eqn:Eq.
  { apply returns_ret. split; [|lia]. apply (ascii_step s _ _ Hg). lia. }
  assert (forall j, i < j -> boundary (text s) j ->
    (boundary (text s) j /\ a <= j) /\ (remaining s j < remaining s i)%nat) as Hnext.
  { intros j Hij Hj. split_and!; [done|lia|apply remaining_step; lia]. }
  destruct (b =? BACKSLASH) eqn:Eb.
  - destruct (ascii_step s _ _ Hg ltac:(lia)) as [_ Hn].
    destruct (character_len_at s (i + 1)) as [n|] eqn:En; apply returns_ret; [|apply Hnext; [lia|done]].
    destruct (character_len_at_Some s _ _ Hn En). apply Hnext; [lia|done].
  - destruct (character_len_at_ok s _ Hi ltac:(lia)) as (n & -> & Hn & Hbn).
    apply returns_ret. apply Hnext; [lia|done].
Qed.

(** The opening of a quoted literal at [a]. *)
Definition quoted_start (a q : Z) : Prop :=
  get (text s) a = Some q \/ (q = QUOTE /\ get (text s) a = Some 98 /\ get (text s) (a + 1) = Some QUOTE).

Lemma quoted_literal_recovery_end_ok a q :
  q < 128 -> q <> 98 -> boundary (text s) a -> quoted_start a q ->
  returns (quoted_literal_recovery_end s a q) (fun e => boundary (text s) e /\ a < e).
Proof using All.
  intros Hq Hq98 Ha Hs. unfold quoted_literal_recovery_end.
  rewrite text_size_to_usize_ok by by apply (boundary_u32 s). cbn [outcome_bind].
  set (i := if _ && _ then _ else _).
  assert (boundary (text s) i /\ a < i) as [Hi Hai].
  { subst i. destruct Hs as [Hg|(-> & Hg & Hg2)]; rewrite Hg.
    - rewrite (bool_decide_eq_false_2 (Some q = Some 98)) by congruence. rewrite andb_false_r.
      split; [by apply (ascii_step s _ _ Hg)|lia].
    - rewrite bool_decide_eq_true_2 by done. change (QUOTE =? QUOTE) with true. cbn [andb]. destruct (ascii_step s _ _ Hg2 ltac:(lia)) as [_ Hn].
      split; [done|lia]. }
  eapply returns_bind; [by apply recovery_loop|]. intros e [He Hie].
  rewrite text_size_from_usize_ok by by apply (boundary_u32 s). apply returns_ret. split; [done|lia].
Qed.

Lemma make_invalid_character_literal_token_ok a e :
  boundary (text s) a -> get (text s) a = Some APOSTROPHE ->
  returns (make_invalid_character_literal_token (B := B) s a e) (core_scan s a).
Proof using All.
  intros Ha Hg. unfold make_invalid_character_literal_token.
  eapply returns_bind; [apply quoted_literal_recovery_end_ok; [lia|lia|done|by left]|]. intros i [Hi Hai].
  unfold TextRange_new. destruct (a <=? i) eqn:E; [|lia]. cbn [assert_ outcome_bind].
  apply invalid_scan; [done|done|]. by destruct e as [| |[c|]|].
Qed.

Lemma make_invalid_string_literal_token_ok a e :
  boundary (text s) a -> quoted_start a QUOTE ->
  returns (make_invalid_string_literal_token (B := B) s a e) (core_scan s a).
Proof using All.
  intros Ha Hs. unfold make_invalid_string_literal_token.
  eapply returns_bind; [apply quoted_literal_recovery_end_ok; [lia|lia|done|done]|]. intros i [Hi Hai].
  unfold TextRange_new. destruct (a <=? i) eqn:E; [|lia]. cbn [assert_ outcome_bind].
  apply invalid_scan; [done|done|]. by destruct e as [|[c|]|].
Qed.

Lemma scan_character_literal_body_ok i :
  boundary (text s) i ->
  returns (scan_character_literal_body s i) (fun r =>
    match r with BodyValid e => boundary (text s) e /\ i < e | BodyInvalid _ => True end).
Proof using All.
  intros Hi. pose proof (boundary_range _ _ Hi). unfold scan_character_literal_body.
  destruct (get (text s) i) as [b|] eqn:Hg; [|by apply returns_ret].
  pose proof (get_Some_range _ _ _ Hg). destruct (b =? BACKSLASH) eqn:E1.
  { eapply returns_bind.
    - apply scan_escape_sequence_ok; [apply (ascii_step s _ _ Hg); lia|lia|lia].
    - intros [e|[|c|]] He; by apply returns_ret. }
  destruct (b =? APOSTROPHE); [by apply returns_ret|]. destruct (is_line_end b); [by apply returns_ret|].
  destruct (is_ascii b) eqn:Ea.
  { apply returns_ret. split; [|lia]. apply (ascii_step s _ _ Hg). unfold is_ascii in Ea. lia. }
  destruct (character_len_at_ok s _ Hi ltac:(lia)) as (n & -> & Hn & Hbn).
  apply returns_ret. split; [done|lia].
Qed.

Lemma scan_character_literal_ok a :
  boundary (text s) a -> get (text s) a = Some APOSTROPHE ->
  returns (scan_character_literal (B := B) s a) (core_scan s a).
Proof using All.
  intros Ha Hg. unfold scan_character_literal.
  rewrite text_size_to_usize_ok by by apply (boundary_u32 s). cbn [outcome_bind].
  eapply returns_bind; [apply scan_character_literal_body_ok, (ascii_step s _ _ Hg); lia|].
  intros [e|err] He; [|by apply make_invalid_character_literal_token_ok]. destruct He as [He Hae].
  destruct (get (text s) e) as [b|] eqn:Hgb; [|by apply make_invalid_character_literal_token_ok].
  destruct (b =? APOSTROPHE) eqn:Eb.
  - destruct (ascii_step s _ _ Hgb ltac:(lia)) as [_ Hn].
    rewrite text_size_from_usize_ok by by apply (boundary_u32 s). cbn [outcome_bind].
    apply clean_scan; try done. lia.
  - by destruct (is_line_end b); apply make_invalid_character_literal_token_ok.
Qed.

Lemma scan_string_literal_ok a (byte_string : bool) :
  boundary (text s) a ->
  (if byte_string then get (text s) a = Some 98 /\ get (text s) (a + 1) = Some QUOTE
   else get (text s) a = Some QUOTE) ->
  returns (scan_string_literal (B := B) s a byte_string) (core_scan s a).
Proof using All.
  intros Ha Hopen. assert (quoted_start a QUOTE) as Hq
    by (destruct byte_string; [right; by destruct Hopen|by left]).
  pose proof (boundary_range _ _ Ha). unfold scan_string_literal.
  rewrite text_size_to_usize_ok by by apply (boundary_u32 s). cbn [outcome_bind].
  assert (boundary (text s) (a + 1 + (if byte_string then 1 else 0))) as Hstart.
  { destruct byte_string; [destruct Hopen as [_ Hopen]|rewrite Z.add_0_r];
      apply (ascii_step s _ _ Hopen); lia. }
  assert (a < a + 1 + (if byte_string then 1 else 0)) as Hlt by (destruct byte_string; lia).
  eapply (loop_rule (fun i => boundary (text s) i /\ a < i) (remaining s));
    [|by split|apply (remaining_fuel s); lia].
  intros i [Hi Hai]. unfold string_step.
  assert (forall err, returns (let! scan := make_invalid_string_literal_token (B := B) s a err in break_ scan)
    (fun step : Z + TokenScan B => match step with
      | inl i' => (boundary (text s) i' /\ a < i') /\ (remaining s i' < remaining s i)%nat
      | inr r => core_scan s a r end)) as Hfail.
  { intros err. eapply returns_bind; [by apply make_invalid_string_literal_token_ok|].
    intros scan Hscan. by apply returns_ret. }
  destruct (get (text s) i) as [b|] eqn:Hg; [|apply Hfail]. pose proof (get_Some_range _ _ _ Hg).
  assert (forall j, i < j -> boundary (text s) j ->
    (boundary (text s) j /\ a < j) /\ (remaining s j < remaining s i)%nat) as Hnext.
  { intros j Hij Hj. split_and!; [done|lia|apply remaining_step; lia]. }
  destruct (b =? QUOTE) eqn:E1.
  { destruct (ascii_step s _ _ Hg ltac:(lia)) as [_ Hn].
    rewrite text_size_from_usize_ok by by apply (boundary_u32 s). cbn [outcome_bind].
    destruct (clean_scan s a (i + 1) (if byte_string then ByteStringLiteralToken else StringLiteralToken))
      as (scan & Hscan & Hok); [lia|done|by destruct byte_string..|].
    destruct (make_token _ _ _) as [tok| |]; simpl in Hscan; [|done..]. cbn [outcome_bind].
    apply returns_ret. by simplify_eq. }
  destruct (is_line_end b); [apply Hfail|]. destruct (b =? BACKSLASH) eqn:E2.
  { eapply returns_bind.
    - apply scan_escape_sequence_ok; [apply (ascii_step s _ _ Hg); lia|lia|lia].
    - intros [e|[|c|]] He; try apply Hfail. apply returns_ret, Hnext; tauto. }
  destruct (is_ascii b) eqn:E3.
  { apply returns_ret, Hnext; [lia|]. apply (ascii_step s _ _ Hg). unfold is_ascii in E3. lia. }
  destruct (character_len_at_ok s _ Hi ltac:(lia)) as (n & -> & Hn & Hbn).
  apply returns_ret, Hnext; [lia|done].
Qed.
End quoted.

(** ** The grammars *)

(** A digit sequence is scanned up to the first byte that can neither be a
    digit nor a separator, and it is valid exactly when its digits are separated
    by single underscores, with a digit first and last. *)
Theorem digit_sequence_grammar bytes is_digit a :
  is_digit UNDERSCORE = false -> 0 <= a <= zlen bytes ->
  returns (scan_digit_sequence bytes a is_digit) (fun ds =>
    a <= ds_end_index ds <= zlen bytes /\
    Forall (fun b => is_digit b = true \/ b = UNDERSCORE) (between bytes a (ds_end_index ds)) /\
    byte_is (get bytes (ds_end_index ds)) (fun b => is_digit b || (b =? UNDERSCORE)) = false /\
    (ds_valid ds = true <-> sep_digits is_digit (between bytes a (ds_end_index ds)))).
Proof.
  intros Hus Ha. eapply returns_mono; [by apply scan_digit_sequence_spec|].
  by intros ds (? & ? & ? & ? & _).
Qed.


(** A Unicode escape is accepted exactly when it is an opening brace, one to
    six hexadecimal digits that name a scalar value, and a closing brace; it ends
    right after the brace.  Anything else is the invalid-escape error. *)
Theorem unicode_escape_grammar bytes i :
  0 <= i ->
  returns (scan_unicode_escape bytes i) (fun r =>
    match r with
    | EscapeValid e => exists ds, unicode_escape_at bytes i ds /\ e = i + 4 + zlen ds
    | EscapeInvalid err => err = EscapeInvalidUnicode /\ forall ds, ~ unicode_escape_at bytes i ds
    end).
Proof. intros Hi. by apply scan_unicode_escape_exact. Qed.

