(* ===== verification/LexScanner.v ===== *)
(** * The token scanner

    [bray-parser/src/lexer/scanner.rs]: one token with its leading and trailing
    trivia.  [char::is_alphanumeric] on non-ASCII scalars is Unicode data: it is
    the argument [is_alphanumeric], and every theorem holds for any table. *)

From Stdlib Require Import ZArith Lia String.
From stdpp Require Import base list numbers option.
From S2P Require Import Prelude Utf8 SourceText Snapshot SyntaxKind SyntaxToken.
From S2P Require Import DiagnosticKind Diagnostic DiagnosticBag LexText LexTrivia LexLiteral.

Inductive LexerScanMode := Normal | TypePunctuation | TupleElementIndexAfterDot.
Inductive IdentifierScanEnd := IdentifierValid (e : TextSize) | IdentifierInvalid (e : TextSize).

(** ** Classifications *)

Definition is_ascii_identifier_continue (byte : u8) : bool :=
  is_ascii_alphanumeric byte || (byte =? UNDERSCORE).

Definition is_operator_cluster_character (character : char) : bool :=
  bool_decide (character ∈ lit "-=!<>&|*.+/%@^~?:").

Definition keyword_kind (text : str) : option SyntaxKind :=
  match from_fixed_text text with
  | Some kind => if is_keyword kind then Some kind else None
  | None => None
  end.

Definition operator_or_punctuation_kind (text : str) : option SyntaxKind := from_fixed_text text.

Definition delimiter_or_separator_kind (character : char) : option SyntaxKind :=
  match from_fixed_character character with
  | Some kind =>
      match kind with
      | OpenParenToken | CloseParenToken | OpenBraceToken | CloseBraceToken | OpenBracketToken
      | CloseBracketToken | CommaToken | SemicolonToken => Some kind
      | _ => None
      end
  | None => None
  end.

Section scanner.
Context {B : Type} `{!DiagnosticSink B}.
Context (is_alphanumeric : char -> bool).

Definition is_non_ascii_identifier_character (character : char) : bool :=
  negb (is_ascii character) && is_alphanumeric character.

(** ** Extents *)

(** The body of the loop in [invalid_identifier_like_end]. *)
Definition invalid_identifier_step (snapshot : SourceSnapshot) (e : TextSize)
    : outcome (TextSize + TextSize) :=
  let! character := first_character snapshot e in
  match character with
  | None => break_ e
  | Some character =>
      if is_ascii character
      then if is_ascii_alphanumeric character || (character =? UNDERSCORE)
           then let! e := offset_after_character e character in continue_ e
           else break_ e
      else if is_non_ascii_identifier_character character
      then let! e := offset_after_character e character in continue_ e
      else break_ e
  end.

Definition invalid_identifier_like_end (snapshot : SourceSnapshot) (start : TextSize) : outcome TextSize :=
  let! e := loop (text_fuel snapshot) (invalid_identifier_step snapshot) start in
  if e =? start
  then
    let! character := first_character snapshot start in
    match character with
    | Some character => offset_after_character start character
    | None => Ret start
    end
  else Ret e.

Definition identifier_step (bytes : list u8) (index : usize) : outcome (usize + usize) :=
  match get bytes index with
  | Some byte => if is_ascii_identifier_continue byte then continue_ (index + 1) else break_ index
  | None => break_ index
  end.

Definition identifier_like_end (snapshot : SourceSnapshot) (start : TextSize) : outcome IdentifierScanEnd :=
  let! index := text_size_to_usize start in
  let! index := loop (text_fuel snapshot) (identifier_step (text snapshot)) index in
  let! e := text_size_from_usize index in
  let! character := first_character snapshot e in
  match character with
  | Some character =>
      if is_non_ascii_identifier_character character
      then let! e := invalid_identifier_like_end snapshot start in Ret (IdentifierInvalid e)
      else Ret (IdentifierValid e)
  | None => Ret (IdentifierValid e)
  end.

(** The state is the cursor; [inr] is the source's [return]. *)
Definition non_ascii_step (snapshot : SourceSnapshot) (e cursor : TextSize)
    : outcome (TextSize + option char) :=
  if cursor <? e
  then
    let! character := first_character snapshot cursor in
    match character with
    | None => break_ None
    | Some character =>
        if is_non_ascii_identifier_character character then break_ (Some character)
        else let! cursor := offset_after_character cursor character in continue_ cursor
    end
  else break_ None.

Definition first_non_ascii_identifier_character (snapshot : SourceSnapshot) (start e : TextSize)
    : outcome (option char) :=
  loop (text_fuel snapshot) (non_ascii_step snapshot e) start.

(** [bytes[index - 1]] panics out of range. *)
Definition operator_step (bytes : list u8) (start_index index : usize) : outcome (usize + usize) :=
  match get bytes index with
  | None => break_ index
  | Some byte =>
      let! after_close :=
        (if ((byte =? DOT) || (byte =? COLON)) && (start_index <? index)
         then let! previous := expect (get bytes (index - 1)) in Ret (previous =? GREATER)
         else Ret false) in
      if after_close : bool then break_ index
      else if is_operator_cluster_character byte then continue_ (index + 1)
      else break_ index
  end.

Definition operator_cluster_end (snapshot : SourceSnapshot) (start : TextSize) : outcome TextSize :=
  let! start_index := text_size_to_usize start in
  let! index := loop (text_fuel snapshot) (operator_step (text snapshot) start_index) start_index in
  text_size_from_usize index.

(** ** Tokens *)

Definition scan_invalid_identifier_like_token (snapshot : SourceSnapshot) (start e : TextSize)
    : outcome (TokenScan B) :=
  let! range := TextRange_new start e in
  let! token := make_token InvalidToken start e in
  let! character := first_non_ascii_identifier_character snapshot start e in
  match character with
  | Some character =>
      Ret (TokenScan_with_diagnostic token (non_ascii_identifier snapshot range character))
  | None => Ret (TokenScan_with_diagnostic token (invalid_identifier snapshot range))
  end.

Definition scan_identifier_or_keyword (snapshot : SourceSnapshot) (start : TextSize)
    : outcome (TokenScan B) :=
  let! identifier := identifier_like_end snapshot start in
  match identifier with
  | IdentifierValid e =>
      let! range := TextRange_new start e in
      let! text := token_text snapshot range in
      let kind := match keyword_kind text with Some kind => kind | None => IdentifierToken end in
      let! token := make_token kind start e in Ret (TokenScan_clean token)
  | IdentifierInvalid e => scan_invalid_identifier_like_token snapshot start e
  end.

Definition scan_underscore_or_invalid_identifier (snapshot : SourceSnapshot) (start : TextSize)
    : outcome (TokenScan B) :=
  let! e := offset_after_character start UNDERSCORE in
  let! character := first_character snapshot e in
  let continues :=
    match character with
    | Some character =>
        is_ascii_alphanumeric character || (character =? UNDERSCORE)
        || is_non_ascii_identifier_character character
    | None => false
    end in
  if continues
  then
    let! e := invalid_identifier_like_end snapshot start in
    scan_invalid_identifier_like_token snapshot start e
  else let! token := make_token UnderscoreToken start e in Ret (TokenScan_clean token).

Definition scan_operator_or_punctuation_token (snapshot : SourceSnapshot) (start : TextSize)
    : outcome (TokenScan B) :=
  let! start_index := text_size_to_usize start in
  let rest := zdrop start_index (text snapshot) in
  let repeated :=
    if starts_with rest (lit "&&&") then Some (AmpersandAmpersandToken, AMPERSAND)
    else if starts_with rest (lit ">>>") then Some (GreaterGreaterToken, GREATER)
    else None in
  match repeated with
  | Some (kind, character) =>
      let! middle := offset_after_character start character in
      let! e := offset_after_character middle character in
      let! token := make_token kind start e in Ret (TokenScan_clean token)
  | None =>
      let! e := operator_cluster_end snapshot start in
      let! range := TextRange_new start e in
      let! text := token_text snapshot range in
      match operator_or_punctuation_kind text with
      | Some kind => let! token := make_token kind start e in Ret (TokenScan_clean token)
      | None =>
          let! token := make_token InvalidToken start e in
          Ret (TokenScan_with_diagnostic token (invalid_operator_or_punctuation snapshot range))
      end
  end.

Definition scan_end_of_file (start : TextSize) : outcome (TokenScan B) :=
  let! token := SyntaxToken_end_of_file start in Ret (TokenScan_clean token).

Definition scan_invalid_scalar_token (snapshot : SourceSnapshot) (start : TextSize)
    : outcome (TokenScan B) :=
  let! character := first_character snapshot start in
  match character with
  | None => scan_end_of_file start
  | Some character =>
      let! token := make_scalar_token InvalidToken start character in
      let range := token_range token in
      let diagnostic :=
        if character =? 0xFEFF then misplaced_bom snapshot range
        else if character =? CR then lone_carriage_return snapshot range
        else invalid_character snapshot range character in
      Ret (TokenScan_with_diagnostic token diagnostic)
  end.

Definition scan_normal_token (snapshot : SourceSnapshot) (start : TextSize) : outcome (TokenScan B) :=
  let! character := first_character snapshot start in
  match character with
  | None => scan_end_of_file start
  | Some character =>
      if is_ascii_alphabetic character
      then
        let! start_index := text_size_to_usize start in
        if (character =? 98) && bool_decide (get (text snapshot) (start_index + 1) = Some QUOTE)
        then scan_string_literal snapshot start true
        else scan_identifier_or_keyword snapshot start
      else if character =? UNDERSCORE then scan_underscore_or_invalid_identifier snapshot start
      else if is_ascii_digit character then scan_numeric_literal snapshot start
      else if character =? APOSTROPHE then scan_character_literal snapshot start
      else if character =? QUOTE then scan_string_literal snapshot start false
      else
        match delimiter_or_separator_kind character with
        | Some kind =>
            let! token := make_scalar_token kind start character in Ret (TokenScan_clean token)
        | None =>
            if is_operator_cluster_character character
            then scan_operator_or_punctuation_token snapshot start
            else if is_non_ascii_identifier_character character
            then
              let! e := invalid_identifier_like_end snapshot start in
              scan_invalid_identifier_like_token snapshot start e
            else scan_invalid_scalar_token snapshot start
        end
  end.

Definition scan_tuple_element_index_or_normal (snapshot : SourceSnapshot) (start : TextSize)
    : outcome (TokenScan B) :=
  let! character := first_character snapshot start in
  match character with
  | None => scan_end_of_file start
  | Some character =>
      if is_ascii_digit character then scan_tuple_element_index_token snapshot start
      else scan_normal_token snapshot start
  end.

Definition scan_token_core (snapshot : SourceSnapshot) (start : TextSize) (mode : LexerScanMode)
    : outcome (TokenScan B) :=
  match mode with
  | Normal => scan_normal_token snapshot start
  | TypePunctuation =>
      let! character := first_character snapshot start in
      match character with
      | Some character =>
          if character =? GREATER
          then let! token := make_scalar_token GreaterToken start GREATER in Ret (TokenScan_clean token)
          else if character =? AMPERSAND
          then let! token := make_scalar_token AmpersandToken start AMPERSAND in Ret (TokenScan_clean token)
          else scan_normal_token snapshot start
      | None => scan_normal_token snapshot start
      end
  | TupleElementIndexAfterDot => scan_tuple_element_index_or_normal snapshot start
  end.

Definition scan_token_at (snapshot : SourceSnapshot) (start : TextSize) (mode : LexerScanMode)
    : outcome (TokenScan B) :=
  if text_len snapshot <? start then Panic
  else
    let! leading := scan_leading_trivia snapshot start in
    let token_start := ts_end leading in
    let diagnostics := ts_diagnostics leading in
    if token_start =? text_len snapshot
    then
      let! token := SyntaxToken_end_of_file token_start in
      let! token := with_leading_trivia token (ts_trivia leading) in
      Ret (TokenScan_with_diagnostics token diagnostics)
    else
      let! scan := scan_token_core snapshot token_start mode in
      let diagnostics := sink_merged diagnostics (scan_diagnostics scan) in
      let token := scan_token scan in
      let! trailing := scan_trailing_trivia snapshot (token_end token) in
      let diagnostics := sink_merged diagnostics (ts_diagnostics trailing) in
      if reached_eof trailing
      then
        let! token := with_leading_trivia token (ts_trivia leading) in
        Ret (TokenScan_with_diagnostics token diagnostics)
      else
        let! token := with_leading_trivia token (ts_trivia leading) in
        let! token := with_trailing_trivia token (ts_trivia trailing) in
        Ret (TokenScan_with_diagnostics token diagnostics).
End scanner.

(** ** Lemmas *)

Lemma fixed_kind_token t k :
  from_fixed_text t = Some k -> is_token k = true /\ k <> EndOfFileToken /\ k <> InvalidToken.
Proof.
  intros (s & Hin & _)%from_fixed_text_Some.
  pose proof (fixed_forall (fun '(_, k) => is_token k && negb (bool_decide (k = EndOfFileToken))
    && negb (bool_decide (k = InvalidToken))) ltac:(by vm_compute) s k Hin) as H.
  cbn beta iota in H. rewrite !andb_true_iff, !negb_true_iff, !bool_decide_eq_false in H. tauto.
Qed.

Lemma operator_character_ascii c : is_operator_cluster_character c = true -> c < 128.
Proof.
  unfold is_operator_cluster_character. rewrite bool_decide_eq_true. intros H.
  assert (Forall (fun c => c < 128) (lit "-=!<>&|*.+/%@^~?:")) as Hall by (repeat constructor).
  rewrite Forall_forall in Hall. by apply Hall, list_elem_of_In.
Qed.

Section facts.
Context {B : Type} `{!DiagnosticSink B, !DiagnosticSinkLaws B}.
Context (is_alphanumeric : char -> bool).
Context (s : SourceSnapshot) `{!WfSnapshot s}.

Lemma offset_after_ok a c :
  boundary (text s) a -> first_character s a = Ret (Some c) ->
  offset_after_character a c = Ret (a + len_utf8 c) /\ boundary (text s) (a + len_utf8 c) /\
  a < a + len_utf8 c /\ a < zlen (text s).
Proof using WfSnapshot0.
  intros Ha Hf. destruct (first_character_cases s a Ha) as [[_ Hn]|(c' & Hc & Hlt & Hb & Hoff & _)];
    [congruence|]. rewrite Hf in Hc. simplify_eq. pose proof (len_utf8_range c'). split_and!; done || lia.
Qed.

Lemma invalid_identifier_like_end_ok a :
  boundary (text s) a -> a < zlen (text s) ->
  returns (invalid_identifier_like_end is_alphanumeric s a) (fun e => boundary (text s) e /\ a < e).
Proof using WfSnapshot0.
  intros Ha Hlt. pose proof (boundary_range _ _ Ha). unfold invalid_identifier_like_end.
  eapply (returns_bind _ _ (fun e => boundary (text s) e /\ a <= e)).
  - eapply (loop_rule (fun i => boundary (text s) i /\ a <= i) (remaining s));
      [|split; [done|lia]|apply (remaining_fuel s); lia].
    intros i [Hi Hai]. unfold invalid_identifier_step.
    destruct (first_character s i) as [[c|]| |] eqn:Hf; cbn [outcome_bind];
      try (rewrite first_character_ok in Hf by done; done); [|by apply returns_ret].
    destruct (offset_after_ok _ _ Hi Hf) as (Hoff & Hb & Hlt1 & Hlt2).
    assert (returns (let! e := offset_after_character i c in continue_ e) (fun step : Z + Z =>
      match step with
      | inl i' => (boundary (text s) i' /\ a <= i') /\ (remaining s i' < remaining s i)%nat
      | inr r => boundary (text s) r /\ a <= r end)) as Hstep.
    { rewrite Hoff. apply returns_ret. split_and!; [done|lia|apply remaining_step; lia]. }
    destruct (is_ascii c); [destruct (_ || _)|destruct (is_non_ascii_identifier_character _ c)];
      try done; by apply returns_ret.
  - intros e [He Hae]. destruct (e =? a) eqn:Eea; [|apply returns_ret; split; [done|lia]].
    destruct (first_character_cases s a Ha) as [[? _]|(c & -> & _ & Hn & Hoff & _)]; [lia|].
    cbn [outcome_bind]. rewrite Hoff. apply returns_ret. pose proof (len_utf8_range c). split; [done|lia].
Qed.

Lemma first_non_ascii_total a e :
  boundary (text s) a ->
  returns (first_non_ascii_identifier_character is_alphanumeric s a e) (fun _ => True).
Proof using WfSnapshot0.
  intros Ha. pose proof (boundary_range _ _ Ha). unfold first_non_ascii_identifier_character.
  eapply (loop_rule (fun i => boundary (text s) i /\ 0 <= i) (remaining s));
    [|split; [done|lia]|apply (remaining_fuel s); lia].
  intros i [Hi Hi0]. unfold non_ascii_step. destruct (i <? e); [|by apply returns_ret].
  destruct (first_character s i) as [[c|]| |] eqn:Hf; cbn [outcome_bind];
    try (rewrite first_character_ok in Hf by done; done); [|by apply returns_ret].
  destruct (is_non_ascii_identifier_character _ c); [by apply returns_ret|].
  destruct (offset_after_ok _ _ Hi Hf) as (-> & Hb & Hlt1 & Hlt2). apply returns_ret.
  split_and!; [done|lia|apply remaining_step; lia].
Qed.

Lemma scan_invalid_identifier_like_token_ok a e :
  boundary (text s) a -> boundary (text s) e -> a < e ->
  returns (scan_invalid_identifier_like_token (B := B) is_alphanumeric s a e) (core_scan s a).
Proof using All.
  intros Ha He Hae. unfold scan_invalid_identifier_like_token, TextRange_new.
  destruct (a <=? e) eqn:E; [|lia]. cbn [assert_ outcome_bind].
  destruct (first_non_ascii_total a e Ha) as (c & -> & _).
  rewrite make_token_ok by (done || lia). cbn [outcome_bind].
  assert (forall d, error_at s {| start := a; end_ := e |} d ->
    returns (let! t := make_token InvalidToken a e in Ret (TokenScan_with_diagnostic t d)) (core_scan s a)) as H
    by (intros; by apply invalid_scan).
  rewrite make_token_ok in H by (done || lia). by destruct c; apply H.
Qed.

(** Identifiers: the scan takes the longest run of identifier bytes. *)
Lemma identifier_loop_ok a :
  boundary (text s) a ->
  returns (loop (text_fuel s) (identifier_step (text s)) a) (fun e =>
    boundary (text s) e /\ a <= e /\
    Forall (fun b => is_ascii_identifier_continue b = true) (between (text s) a e) /\
    byte_is (get (text s) e) is_ascii_identifier_continue = false).
Proof using WfSnapshot0.
  intros Ha. pose proof (boundary_range _ _ Ha).
  eapply (loop_rule (fun i => boundary (text s) i /\ a <= i /\
      Forall (fun b => is_ascii_identifier_continue b = true) (between (text s) a i)) (remaining s));
    [|split_and!; [done|lia|rewrite between_empty; constructor]|apply (remaining_fuel s); lia].
  intros i (Hi & Hai & Hall). unfold identifier_step.
  destruct (get (text s) i) as [b|] eqn:Hg; [destruct (is_ascii_identifier_continue b) eqn:Eb|];
    apply returns_ret; rewrite ?Hg; [|by split_and!..].
  pose proof (get_Some_range _ _ _ Hg). split_and!; [|lia| |apply remaining_step; lia].
  - apply (ascii_step s _ _ Hg).
    unfold is_ascii_identifier_continue, is_ascii_alphanumeric, is_ascii_alphabetic, is_ascii_digit in Eb. lia.
  - rewrite (between_snoc (text s) a i b) by (done || lia). apply Forall_app. by repeat constructor.
Qed.

Lemma identifier_like_end_ok a b :
  boundary (text s) a -> get (text s) a = Some b -> is_ascii_identifier_continue b = true ->
  returns (identifier_like_end is_alphanumeric s a) (fun r =>
    match r with
    | IdentifierValid e | IdentifierInvalid e => boundary (text s) e /\ a < e
    end).
Proof using WfSnapshot0.
  intros Ha Hg Hb. pose proof (get_Some_range _ _ _ Hg). unfold identifier_like_end.
  rewrite text_size_to_usize_ok by by apply (boundary_u32 s). cbn [outcome_bind].
  eapply returns_bind; [by apply identifier_loop_ok|]. intros e (He & Hae & _ & Hstop).
  assert (a < e) as Hlt.
  { destruct (Z.eq_dec a e) as [<-|]; [|lia]. rewrite Hg in Hstop. simpl in Hstop. congruence. }
  rewrite text_size_from_usize_ok by by apply (boundary_u32 s). cbn [outcome_bind].
  rewrite first_character_ok by done. cbn [outcome_bind].
  destruct (first_char _) as [c|]; [|by apply returns_ret].
  destruct (is_non_ascii_identifier_character _ c); [|by apply returns_ret].
  eapply returns_bind; [apply invalid_identifier_like_end_ok; done || lia|]. intros e' He'. by apply returns_ret.
Qed.

Lemma scan_identifier_or_keyword_ok a b :
  boundary (text s) a -> get (text s) a = Some b -> is_ascii_identifier_continue b = true ->
  returns (scan_identifier_or_keyword (B := B) is_alphanumeric s a) (core_scan s a).
Proof using All.
  intros Ha Hg Hb. unfold scan_identifier_or_keyword.
  eapply returns_bind; [by eapply identifier_like_end_ok|]. intros [e|e] [He Hlt];
    [|by apply scan_invalid_identifier_like_token_ok].
  unfold TextRange_new. destruct (a <=? e) eqn:E; [|lia]. cbn [assert_ outcome_bind].
  rewrite token_text_ok by (done || lia). cbn [outcome_bind].
  assert (forall t, let k := match keyword_kind t with Some kind => kind | None => IdentifierToken end in
    is_token k = true /\ k <> EndOfFileToken /\ k <> InvalidToken) as Hk.
  { intros t. unfold keyword_kind. destruct (from_fixed_text t) as [k|] eqn:Ek; [|done].
    destruct (is_keyword k); [|done]. by eapply fixed_kind_token. }
  specialize (Hk (between (text s) a e)). cbn zeta in Hk. destruct Hk as (Hk1 & Hk2 & Hk3).
  by apply clean_scan.
Qed.

Lemma scan_underscore_ok a :
  boundary (text s) a -> first_character s a = Ret (Some UNDERSCORE) ->
  returns (scan_underscore_or_invalid_identifier (B := B) is_alphanumeric s a) (core_scan s a).
Proof using All.
  intros Ha Hf. destruct (offset_after_ok _ _ Ha Hf) as (Hoff & Hb & Hlt1 & Hlt2).
  unfold scan_underscore_or_invalid_identifier. rewrite Hoff. cbn [outcome_bind].
  rewrite first_character_ok by done. cbn [outcome_bind].
  destruct (match first_char _ with Some _ => _ | None => _ end).
  - eapply returns_bind; [by apply invalid_identifier_like_end_ok|]. intros e [He Hae].
    by apply scan_invalid_identifier_like_token_ok.
  - by apply clean_scan.
Qed.

Lemma operator_cluster_end_ok a b :
  boundary (text s) a -> get (text s) a = Some b -> is_operator_cluster_character b = true ->
  returns (operator_cluster_end s a) (fun e => boundary (text s) e /\ a < e).
Proof using WfSnapshot0.
  intros Ha Hg Hb. pose proof (get_Some_range _ _ _ Hg). unfold operator_cluster_end.
  rewrite text_size_to_usize_ok by by apply (boundary_u32 s). cbn [outcome_bind].
  eapply (returns_bind _ _ (fun e => boundary (text s) e /\ a < e)).
  - eapply (loop_rule (fun i => boundary (text s) i /\ a <= i) (remaining s));
      [|split; [done|lia]|apply (remaining_fuel s); lia].
    intros i [Hi Hai]. unfold operator_step. destruct (get (text s) i) as [x|] eqn:Hx.
    2: { apply returns_ret. split; [done|]. destruct (Z.eq_dec i a) as [->|]; [congruence|lia]. }
    pose proof (get_Some_range _ _ _ Hx).
    eapply (returns_bind _ _ (fun c : bool => c = true -> a < i)).
    { destruct (_ && _) eqn:Ec; [|by apply returns_ret]. apply andb_true_iff in Ec as [_ Ec].
      destruct (get_is_Some (text s) (i - 1) ltac:(lia)) as [p ->]. apply returns_ret. lia. }
    intros [|] Hc; [apply returns_ret; split; [done|by apply Hc]|].
    destruct (is_operator_cluster_character x) eqn:Ex; apply returns_ret.
    + split_and!; [|lia|apply remaining_step; lia].
      apply (ascii_step s _ _ Hx). by apply operator_character_ascii.
    + split; [done|]. destruct (Z.eq_dec i a) as [->|]; [congruence|lia].
  - intros e [He Hae]. rewrite text_size_from_usize_ok by by apply (boundary_u32 s). by apply returns_ret.
Qed.

(** A repeated ASCII character at the cursor. *)
Lemma repeated_ok a c kind :
  boundary (text s) a -> 0 <= c < 128 -> starts_with (zdrop a (text s)) [c; c; c] = true ->
  is_token kind = true -> kind <> EndOfFileToken -> kind <> InvalidToken ->
  returns (let! middle := offset_after_character a c in
           let! e := offset_after_character middle c in
           let! token := make_token kind a e in Ret (TokenScan_clean (B := B) token)) (core_scan s a).
Proof using All.
  intros Ha Hc Hs Hk1 Hk2 Hk3. pose proof (boundary_range _ _ Ha).
  apply starts_with_inv in Hs as [r Hr].
  assert (get (text s) a = Some c /\ get (text s) (a + 1) = Some c) as [H0 H1].
  { pose proof (get_zdrop a (text s) 0 ltac:(lia) ltac:(lia)) as G0.
    pose proof (get_zdrop a (text s) 1 ltac:(lia) ltac:(lia)) as G1.
    rewrite Hr in G0, G1. rewrite Z.add_0_r in G0. cbn in G0, G1. by split. }
  assert (forall i, get (text s) i = Some c -> offset_after_character i c = Ret (i + 1) /\ boundary (text s) (i + 1)) as Hoff.
  { intros i Hi. destruct (ascii_step s _ _ Hi ltac:(lia)) as [Hbi Hbn]. split; [|done].
    destruct (first_character_cases s i Hbi) as [[Hl _]|(c' & _ & _ & _ & Ho & Hc')];
      [apply get_Some_range in Hi; lia|].
    destruct (Hc' c Hi) as [Heq _]. rewrite Heq in Ho by lia. rewrite Ho. unfold len_utf8.
    destruct (c <? 0x80) eqn:E; [done|lia]. }
  destruct (Hoff a H0) as [-> _]. cbn [outcome_bind]. destruct (Hoff (a + 1) H1) as [-> Hb2]. cbn [outcome_bind].
  apply clean_scan; done || lia.
Qed.

Lemma scan_operator_ok a b :
  boundary (text s) a -> get (text s) a = Some b -> is_operator_cluster_character b = true ->
  returns (scan_operator_or_punctuation_token (B := B) s a) (core_scan s a).
Proof using All.
  intros Ha Hg Hb. unfold scan_operator_or_punctuation_token.
  rewrite text_size_to_usize_ok by by apply (boundary_u32 s). cbn [outcome_bind].
  destruct (starts_with _ (lit "&&&")) eqn:E1; [by apply repeated_ok|].
  destruct (starts_with _ (lit ">>>")) eqn:E2; [by apply repeated_ok|].
  eapply returns_bind; [by eapply operator_cluster_end_ok|]. intros e [He Hlt].
  unfold TextRange_new. destruct (a <=? e) eqn:E; [|lia]. cbn [assert_ outcome_bind].
  rewrite token_text_ok by (done || lia). cbn [outcome_bind]. unfold operator_or_punctuation_kind.
  destruct (from_fixed_text _) as [k|] eqn:Ek.
  - destruct (fixed_kind_token _ _ Ek) as (? & ? & ?). by apply clean_scan.
  - by apply invalid_scan.
Qed.

Lemma scalar_token_ok a c kind :
  boundary (text s) a -> first_character s a = Ret (Some c) ->
  is_token kind = true -> kind <> EndOfFileToken -> kind <> InvalidToken ->
  returns (let! token := make_scalar_token kind a c in Ret (TokenScan_clean (B := B) token)) (core_scan s a).
Proof using All.
  intros Ha Hf Hk1 Hk2 Hk3. destruct (offset_after_ok _ _ Ha Hf) as (Hoff & Hb & Hlt1 & Hlt2).
  unfold make_scalar_token. rewrite Hoff. cbn [outcome_bind]. by apply clean_scan.
Qed.

Lemma scan_invalid_scalar_token_ok a c :
  boundary (text s) a -> first_character s a = Ret (Some c) ->
  returns (scan_invalid_scalar_token (B := B) s a) (core_scan s a).
Proof using All.
  intros Ha Hf. destruct (offset_after_ok _ _ Ha Hf) as (Hoff & Hb & Hlt1 & Hlt2).
  unfold scan_invalid_scalar_token, make_scalar_token. rewrite Hf. cbn [outcome_bind]. rewrite Hoff. cbn [outcome_bind].
  set (d := fun r => if c =? 0xFEFF then misplaced_bom s r
           else if c =? CR then lone_carriage_return s r else invalid_character s r c).
  pose proof (invalid_scan (B := B) s a (a + len_utf8 c) (d {| start := a; end_ := a + len_utf8 c |}) Hlt1 Hb) as H.
  rewrite make_token_ok in H |- * by (done || lia). apply H. unfold d. by repeat case_match.
Qed.

Lemma delimiter_kind_token c k :
  delimiter_or_separator_kind c = Some k -> is_token k = true /\ k <> EndOfFileToken /\ k <> InvalidToken.
Proof using.
  unfold delimiter_or_separator_kind. destruct (from_fixed_character c) as [k'|] eqn:E; [|done].
  intros H. assert (k = k') as -> by (destruct k'; congruence). by eapply fixed_kind_token.
Qed.

Lemma scan_normal_token_ok a :
  boundary (text s) a -> a < zlen (text s) ->
  returns (scan_normal_token (B := B) is_alphanumeric s a) (core_scan s a).
Proof using All.
  intros Ha Hlt. pose proof (boundary_range _ _ Ha).
  destruct (first_character_cases s a Ha) as [[? _]|(c & Hf & _ & _ & _ & Hbyte)]; [lia|].
  destruct (get_is_Some (text s) a ltac:(lia)) as [b Hg]. specialize (Hbyte b Hg).
  assert (c < 128 -> get (text s) a = Some c) as Hascii.
  { intros Hc. rewrite Hg. f_equal. destruct (Z_lt_le_dec b 128); [symmetry; by apply Hbyte|].
    destruct Hbyte as [_ Hbyte]. specialize (Hbyte ltac:(done)). lia. }
  unfold scan_normal_token. rewrite Hf. cbn [outcome_bind].
  destruct (is_ascii_alphabetic c) eqn:E1.
  { assert (c < 128) as Hc by (unfold is_ascii_alphabetic in E1; lia).
    rewrite text_size_to_usize_ok by by apply (boundary_u32 s). cbn [outcome_bind].
    destruct ((c =? 98) && _) eqn:Eb.
    - apply andb_true_iff in Eb as [->%Z.eqb_eq Eb]. rewrite bool_decide_eq_true in Eb.
      refine (scan_string_literal_ok s a true Ha (conj _ Eb)). by apply Hascii.
    - apply (scan_identifier_or_keyword_ok _ c); [done|by apply Hascii|].
      unfold is_ascii_identifier_continue, is_ascii_alphanumeric. by rewrite E1. }
  destruct (c =? UNDERSCORE) eqn:E2; [apply Z.eqb_eq in E2; subst c; by apply scan_underscore_ok|].
  destruct (is_ascii_digit c); [by apply scan_numeric_literal_ok|].
  destruct (c =? APOSTROPHE) eqn:E3; [apply Z.eqb_eq in E3; subst c; refine (scan_character_literal_ok s a Ha _); by apply Hascii|].
  destruct (c =? QUOTE) eqn:E4; [apply Z.eqb_eq in E4; subst c; refine (scan_string_literal_ok s a false Ha _); by apply Hascii|].
  destruct (delimiter_or_separator_kind c) as [k|] eqn:Ek.
  { destruct (delimiter_kind_token _ _ Ek) as (? & ? & ?). by apply scalar_token_ok. }
  destruct (is_operator_cluster_character c) eqn:Eo.
  { apply (scan_operator_ok _ c); [done|by apply Hascii, operator_character_ascii|done]. }
  destruct (is_non_ascii_identifier_character _ c).
  - eapply returns_bind; [by apply invalid_identifier_like_end_ok|]. intros e [He Hae].
    by apply scan_invalid_identifier_like_token_ok.
  - by eapply scan_invalid_scalar_token_ok.
Qed.

Lemma scan_token_core_ok a mode :
  boundary (text s) a -> a < zlen (text s) ->
  returns (scan_token_core (B := B) is_alphanumeric s a mode) (core_scan s a).
Proof using All.
  intros Ha Hlt. pose proof (scan_normal_token_ok a Ha Hlt) as Hn. pose proof (boundary_range _ _ Ha).
  destruct (first_character_cases s a Ha) as [[? _]|(c & Hf & _ & _ & _ & Hbyte)]; [lia|].
  destruct mode; simpl; [done| |].
  - rewrite Hf. cbn [outcome_bind]. destruct (c =? GREATER) eqn:E1.
    { apply Z.eqb_eq in E1. subst c. by apply scalar_token_ok. }
    destruct (c =? AMPERSAND) eqn:E2; [|done]. apply Z.eqb_eq in E2. subst c. by apply scalar_token_ok.
  - unfold scan_tuple_element_index_or_normal. rewrite Hf. cbn [outcome_bind].
    destruct (is_ascii_digit c) eqn:Ed; [|done]. refine (scan_tuple_element_index_token_ok s a Ha _).
    destruct (get_is_Some (text s) a ltac:(lia)) as [b Hg]. rewrite Hg. simpl. destruct (Hbyte b Hg) as [Hb1 Hb2].
    destruct (Z_lt_le_dec b 128) as [Hl|Hge]; [by rewrite Hb1 in Ed|].
    apply is_ascii_digit_ascii in Ed. specialize (Hb2 Hge). lia.
Qed.

(** A scanned token: it tiles the text from the cursor, and its diagnostics
    are errors of this source. *)
Record token_scan_ok (a : Z) (scan : TokenScan B) : Prop := {
  tso_tile : exists b, token_tile (text s) a (scan_token scan) b;
  tso_eof : is_end_of_file (scan_token scan) = true -> token_end (scan_token scan) = zlen (text s);
  tso_sink : sink_ok (scan_diagnostics scan);
  tso_errors : Forall (fun d => exists r, error_at s r d /\ a <= start r /\ start r < end_ r /\ end_ r <= zlen (text s))
                 (sink_contents (scan_diagnostics scan));
  tso_invalid : token_kind (scan_token scan) = InvalidToken ->
    exists d, In d (sink_contents (scan_diagnostics scan)) /\ error_at s (token_range (scan_token scan)) d;
}.

Lemma with_leading_trivia_ok t l :
  presence t = Present ->
  with_leading_trivia t l =
  Ret {| token_kind := token_kind t; token_range := token_range t; presence := presence t;
         leading_trivia := l; trailing_trivia := trailing_trivia t |}.
Proof using. intros H. unfold with_leading_trivia, is_present. by rewrite H. Qed.

Lemma with_trailing_trivia_ok t l :
  presence t = Present ->
  with_trailing_trivia t l =
  Ret {| token_kind := token_kind t; token_range := token_range t; presence := presence t;
         leading_trivia := leading_trivia t; trailing_trivia := l |}.
Proof using. intros H. unfold with_trailing_trivia, is_present. by rewrite H. Qed.

(** Trivia errors lie in the run. *)
Lemma trivia_errors_in a ts :
  trivia_ok s a ts ->
  Forall (fun d => exists r, error_at s r d /\ a <= start r /\ start r < end_ r /\ end_ r <= zlen (text s))
    (sink_contents (ts_diagnostics ts)).
Proof using.
  intros [Ht _ _ He]. eapply Forall_impl; [|exact He]. intros d (t & Hin & Hd).
  exists (trivia_range t). split; [done|]. clear He Hd.
  induction Ht as [|t' l b Ha Hlt Hk Ht IH]; [done|].
  pose proof (trivia_tile_boundaries _ _ _ _ Ht) as (He & _ & _). apply boundary_range in He.
  unfold SyntaxTrivia_start, SyntaxTrivia_end in *. destruct Hin as [<-|Hin]; [lia|].
  specialize (IH Hin). lia.
Qed.

Lemma nub_In d l : In d (nub l) -> In d l.
Proof using.
  unfold nub. generalize (@nil DiagnosticDuplicateKey). induction l as [|x l IH]; intros seen; simpl; [done|].
  destruct (decide _); [intros H; right; by eapply IH|]. intros [->|H]; [by left|right; by eapply IH].
Qed.

Lemma nub_keeps_key d l : In d l -> exists d', In d' (nub l) /\ duplicate_key d' = duplicate_key d.
Proof using.
  intros H. assert (duplicate_key d ∈ keys (nub l)) as Hk.
  { apply keys_nub. unfold keys. apply list_elem_of_In, in_map_iff. by exists d. }
  unfold keys in Hk. apply list_elem_of_In, in_map_iff in Hk as (d' & ? & ?). by exists d'.
Qed.

Lemma error_at_key r d d' : duplicate_key d' = duplicate_key d -> error_at s r d -> error_at s r d'.
Proof using. unfold duplicate_key, error_at. intros Hk [H1 H2]. by simplify_eq; split; congruence. Qed.

Lemma core_width_facts a scan :
  core_scan s a scan -> token_range (scan_token scan) = {| start := a; end_ := token_end (scan_token scan) |}.
Proof using.
  intros [_ _ _ _ _ H _ _ _ _]. unfold token_start, token_end in *. destruct (token_range _). simpl in *. by subst.
Qed.

(** The diagnostics of a token scan are those of its parts. *)
Lemma merged3_errors a (lead trail : TriviaScan B) scan b :
  trivia_ok s a lead -> core_scan s (ts_end lead) scan -> trivia_ok s b trail -> a <= b ->
  let ds := sink_merged (sink_merged (ts_diagnostics lead) (scan_diagnostics scan)) (ts_diagnostics trail) in
  sink_ok ds /\
  Forall (fun d => exists r, error_at s r d /\ a <= start r /\ start r < end_ r /\ end_ r <= zlen (text s))
    (sink_contents ds) /\
  (token_kind (scan_token scan) = InvalidToken ->
     exists d, In d (sink_contents ds) /\ error_at s (token_range (scan_token scan)) d).
Proof using All.
  intros Hl Hc Ht Hab ds. pose proof (trivia_errors_in _ _ Hl) as Hle. pose proof (trivia_errors_in _ _ Ht) as Hte.
  pose proof (core_width_facts _ _ Hc) as Hrange. destruct Hc as [_ _ _ _ _ _ Hw He Hs Herr].
  destruct Hl as [Htile _ Hls _]. destruct Ht as [_ _ Hts _].
  destruct (sink_merged_spec _ _ Hls Hs) as [Hm1 Hc1]. destruct (sink_merged_spec _ _ Hm1 Hts) as [Hm2 Hc2].
  apply trivia_tile_boundaries in Htile as (_ & _ & Hale). apply boundary_range in He. split_and!; [done| |].
  - unfold ds. rewrite Hc2, Hc1. apply nub_Forall, Forall_app. split; [apply nub_Forall, Forall_app; split; [done|]|].
    + destruct (decide _); [|rewrite Herr; constructor]. destruct Herr as (d & -> & Hd). constructor; [|constructor].
      rewrite Hrange in Hd. eexists. split; [exact Hd|]. simpl. lia.
    + eapply Forall_impl; [|exact Hte]. intros d (r & ? & ? & ? & ?). exists r. split_and!; done || lia.
  - intros Hinv. destruct (decide _); [|done]. destruct Herr as (d & Hd & Hat). unfold ds. rewrite Hc2, Hc1.
    destruct (nub_keeps_key d (sink_contents (ts_diagnostics lead) ++ sink_contents (scan_diagnostics scan)))
      as (d1 & Hd1 & Hk1); [rewrite Hd; apply in_app_iff; right; by left|].
    destruct (nub_keeps_key d1 (nub (sink_contents (ts_diagnostics lead) ++ sink_contents (scan_diagnostics scan))
      ++ sink_contents (ts_diagnostics trail))) as (d2 & Hd2 & Hk2); [apply in_app_iff; by left|].
    exists d2. split; [done|]. eapply error_at_key; [|exact Hat]. congruence.
Qed.

(** Scanning at a cursor always returns a token that tiles the text from there. *)
Lemma scan_token_at_ok a mode :
  boundary (text s) a ->
  returns (scan_token_at (B := B) is_alphanumeric s a mode) (token_scan_ok a).
Proof using All.
  intros Ha. pose proof (boundary_range _ _ Ha). unfold scan_token_at. rewrite wf_text_len.
  destruct (zlen (text s) <? a) eqn:E; [lia|].
  eapply returns_bind; [by apply scan_leading_trivia_ok|]. intros lead Hlead.
  pose proof Hlead as [Hlt Hleof Hls Hle]. pose proof (trivia_tile_boundaries _ _ _ _ Hlt) as (_ & Hb & Hab).
  pose proof (boundary_range _ _ Hb). destruct (ts_end lead =? zlen (text s)) eqn:Eend.
  - apply Z.eqb_eq in Eend. cbn. apply returns_ret. constructor; simpl; [|by intros _|done| |done].
    + exists (ts_end lead). constructor; simpl; try done. by constructor.
    + by apply trivia_errors_in.
  - apply Z.eqb_neq in Eend. eapply returns_bind; [apply scan_token_core_ok; done || lia|]. intros scan Hcore.
    pose proof (core_width_facts _ _ Hcore) as Hrange.
    pose proof Hcore as [Hk Hne Hp Hl0 Ht0 Hst Hw He Hs Herr].
    eapply returns_bind; [by apply scan_trailing_trivia_ok|]. intros trail Htrail.
    pose proof Htrail as [Htt Hteof _ _].
    destruct (merged3_errors a lead trail scan _ Hlead Hcore Htrail ltac:(lia)) as (Hok & Hall & Hinv).
    assert (is_end_of_file (scan_token scan) = false) as Hneof
      by (unfold is_end_of_file; by destruct (token_kind (scan_token scan))).
    destruct (reached_eof trail).
    + rewrite with_leading_trivia_ok by done. cbn [outcome_bind]. apply returns_ret.
      constructor; cbn [scan_token scan_diagnostics TokenScan_with_diagnostics]; try done.
      * exists (token_end (scan_token scan)). constructor; cbn; try done.
        -- by rewrite <- Hst in Hlt.
        -- rewrite Ht0. by constructor.
        -- unfold is_end_of_file, token_start, token_end in *. cbn in *. rewrite Hneof. lia.
      * unfold is_end_of_file in *. cbn. by rewrite Hneof.
    + rewrite with_leading_trivia_ok by done. cbn [outcome_bind].
      rewrite with_trailing_trivia_ok by done. cbn [outcome_bind]. apply returns_ret.
      constructor; cbn [scan_token scan_diagnostics TokenScan_with_diagnostics]; try done.
      * exists (ts_end trail). constructor; cbn; try done.
        -- by rewrite <- Hst in Hlt.
        -- unfold is_end_of_file, token_start, token_end in *. cbn in *. rewrite Hneof. lia.
      * unfold is_end_of_file in *. cbn. by rewrite Hneof.
Qed.
End facts.

(** ** The guarantee *)

(** No non-ASCII scalar is alphanumeric: a table for concrete runs. *)
Definition ascii_table (c : char) : bool := false.

Abbreviation Bag := (DiagnosticBag Shape).

(** A snapshot of a text, as the tests of the lexer build it. *)
Definition unit_snapshot (t : str) : SourceSnapshot :=
  {| source_id := {| SourceId_raw := 0 |}; identity := {| SourceIdentity_raw := 0 |};
     origin := OriginVirtual (lit "lexer-test"); version := {| SourceVersion_raw := 0 |};
     checksum := SourceChecksum_for_text t; text_len := zlen t; text := t |}.

Lemma unit_snapshot_wf t : valid_utf8 t -> zlen t <= U32_MAX -> WfSnapshot (unit_snapshot t).
Proof. by constructor. Qed.

Definition is_ascii_text (t : str) : bool := forallb (fun b => (0 <=? b) && (b <? 128)) t && (zlen t <=? U32_MAX).

Lemma ascii_snapshot_wf t : is_ascii_text t = true -> WfSnapshot (unit_snapshot t).
Proof.
  intros [Ht Hl]%andb_true_iff. apply unit_snapshot_wf; [|lia]. apply valid_utf8_ascii.
  rewrite forallb_forall in Ht. apply List.Forall_forall. intros b Hb. specialize (Ht b Hb). lia.
Qed.

(** Scanning one token from any boundary, in any mode, returns: the token
    and its trivia cover the text from that offset on, it is empty only at
    the end of file, an end-of-file token is only produced at the end of the
    text, and the diagnostics lie between the offset and the end. *)
Theorem scan_token_at_correct {B} `{!DiagnosticSink B, !DiagnosticSinkLaws B} is_alphanumeric s a mode :
  WfSnapshot s -> boundary (text s) a ->
  returns (scan_token_at (B := B) is_alphanumeric s a mode) (fun scan =>
    (exists b, token_tile (text s) a (scan_token scan) b /\
       (if is_end_of_file (scan_token scan) then b = zlen (text s) else a < b)) /\
    Forall (fun d => exists r, error_at s r d /\ a <= start r < end_ r /\ end_ r <= zlen (text s))
      (sink_contents (scan_diagnostics scan))).
Proof.
  intros Hwf Ha. eapply returns_mono; [by apply scan_token_at_ok|].
  intros scan [[b Hb] Heof _ Herr _]. split.
  - exists b. split; [done|]. pose proof (token_tile_boundaries _ _ _ _ Hb) as (_ & Hbb & ? & ?).
    apply boundary_range in Hbb. destruct Hb as [_ _ _ _ Hw].
    destruct (is_end_of_file (scan_token scan)); [specialize (Heof eq_refl)|]; lia.
  - eapply Forall_impl; [|exact Herr]. intros d (r & ? & ? & ? & ?). exists r. split_and!; done || lia.
Qed.

