(* ===== verification/LexGrammar.v ===== *)
(** * The lexical grammar

    [src/docs/language/lexical-grammar.md] as predicates on positions of a text:
    numeric literals, tuple element indices, escapes, character and string
    literals, and nested block comments.  The scanners of [LexLiteral] and
    [LexTrivia] accept exactly the words of this grammar, with their longest
    extent. *)

From Stdlib Require Import ZArith Lia String.
From stdpp Require Import base list numbers option relations.
From S2P Require Import Prelude Utf8 SourceText Snapshot SyntaxKind SyntaxToken.
From S2P Require Import DiagnosticKind Diagnostic DiagnosticBag LexText LexTrivia LexLiteral LexScanner.

(** ** Numeric literals *)

(** Digits with single separators inside, from [a] to [e]. *)
Definition digits_at (t : list u8) (is_digit : u8 -> bool) (a e : Z) : Prop :=
  0 <= a <= e /\ e <= zlen t /\ sep_digits is_digit (between t a e).

(** [exponent-part]. *)
Definition exponent_at (t : list u8) (m e : Z) : Prop :=
  byte_is (get t m) is_exponent_marker = true /\
  digits_at t is_ascii_digit (if byte_is (get t (m + 1)) is_sign then m + 2 else m + 1) e.

Inductive unsuffixed_at (t : list u8) (a : Z) : SyntaxKind -> Z -> Prop :=
| decimal_integer e :
    digits_at t is_ascii_digit a e -> unsuffixed_at t a DecimalIntegerLiteralToken e
| binary_integer e :
    has_radix_prefix t a 98 66 = true -> digits_at t (radix_digit Binary) (a + 2) e ->
    unsuffixed_at t a BinaryIntegerLiteralToken e
| hexadecimal_integer e :
    has_radix_prefix t a 120 88 = true -> digits_at t (radix_digit Hexadecimal) (a + 2) e ->
    unsuffixed_at t a HexadecimalIntegerLiteralToken e
| real_fraction i e :
    digits_at t is_ascii_digit a i -> get t i = Some DOT -> digits_at t is_ascii_digit (i + 1) e ->
    unsuffixed_at t a RealLiteralToken e
| real_fraction_exponent i m e :
    digits_at t is_ascii_digit a i -> get t i = Some DOT -> digits_at t is_ascii_digit (i + 1) m ->
    exponent_at t m e -> unsuffixed_at t a RealLiteralToken e
| real_exponent m e :
    digits_at t is_ascii_digit a m -> exponent_at t m e -> unsuffixed_at t a RealLiteralToken e.

(** [numeric-literal]; an imaginary literal is any other one with the suffix [i]. *)
Inductive numeric_at (t : list u8) (a : Z) : SyntaxKind -> Z -> Prop :=
| plain_numeric k e : unsuffixed_at t a k e -> numeric_at t a k e
| imaginary_numeric k e :
    unsuffixed_at t a k e -> get t e = Some 105 -> numeric_at t a ImaginaryLiteralToken (e + 1).

(** The word ends: no letter, digit or underscore follows, and no fraction
    follows an integer. *)
Definition numeric_ends (t : list u8) (k : SyntaxKind) (e : Z) : Prop :=
  byte_is (get t e) is_numeric_suffix_byte = false /\
  (k = DecimalIntegerLiteralToken -> get t e = Some DOT -> byte_is (get t (e + 1)) is_ascii_digit = false).

Lemma suffix_not_digit t e :
  byte_is (get t e) is_numeric_suffix_byte = false ->
  byte_is (get t e) (fun b => is_ascii_digit b || (b =? UNDERSCORE)) = false /\
  (forall r, byte_is (get t e) (fun b => radix_digit r b || (b =? UNDERSCORE)) = false) /\
  byte_is (get t e) is_exponent_marker = false.
Proof.
  unfold byte_is. destruct (get t e) as [b|]; [|done].
  unfold is_numeric_suffix_byte, is_ascii_alphanumeric, is_ascii_alphabetic, is_exponent_marker, is_ascii_digit.
  intros H. split_and!; [lia| |lia]. intros []; unfold radix_digit, is_ascii_hexdigit, is_ascii_digit; lia.
Qed.

(** The extent of a maximal run of bytes is unique. *)
Lemma run_extent (t : list u8) (cont : u8 -> bool) a e e' :
  0 <= a <= e -> e <= zlen t -> a <= e' <= zlen t ->
  Forall (fun b => cont b = true) (between t a e) -> Forall (fun b => cont b = true) (between t a e') ->
  byte_is (get t e) cont = false -> byte_is (get t e') cont = false -> e = e'.
Proof.
  assert (forall x y, 0 <= a <= x -> x < y <= zlen t ->
    Forall (fun b => cont b = true) (between t a y) -> byte_is (get t x) cont = false -> False) as Hlt.
  { intros x y Hx Hy Hall Hstop. destruct (get_is_Some t x ltac:(lia)) as [b Hb]. rewrite Hb in Hstop. simpl in Hstop.
    rewrite List.Forall_forall in Hall. rewrite (Hall b) in Hstop; [done|]. by eapply between_In. }
  intros Ha He He' H1 H2 S1 S2. destruct (Z.lt_trichotomy e e') as [Hl|[->|Hl]]; [|done|].
  - exfalso. by apply (Hlt e e'); [lia|lia|..].
  - exfalso. by apply (Hlt e' e); [lia|lia|..].
Qed.

Section digits.
Context (t : list u8) (is_digit : u8 -> bool) (Hus : is_digit UNDERSCORE = false).

Lemma sep_digits_bytes l : sep_digits is_digit l -> Forall (fun b => is_digit b = true \/ b = UNDERSCORE) l.
Proof using.
  assert (forall d, is_digit d = true -> Forall (fun b => is_digit b = true \/ b = UNDERSCORE) [d]) as Hone
    by (intros d Hd; constructor; [by left|constructor]).
  induction 1 as [d Hd|l d H IH Hd|l d H IH Hd]; [by apply Hone|..]; apply Forall_app; (split; [done|]); [by apply Hone|].
  constructor; [by right|by apply Hone].
Qed.

Lemma sep_digits_first l : sep_digits is_digit l -> exists d l', l = d :: l' /\ is_digit d = true.
Proof using.
  induction 1 as [d Hd|l d H (d0 & l0 & -> & H0) Hd|l d H (d0 & l0 & -> & H0) Hd]; eexists _, _; (split; [|eassumption]); reflexivity.
Qed.

Lemma digits_at_first a e : digits_at t is_digit a e -> a < e /\ byte_is (get t a) is_digit = true.
Proof using.
  intros (Ha & He & Hd). destruct (sep_digits_first _ Hd) as (d & l & Hl & Hdig).
  assert (a < e) by (apply (between_nonempty t); [lia|by rewrite Hl]). split; [done|].
  destruct (get_is_Some t a ltac:(lia)) as [b Hb].
  enough (b = d) as -> by (by rewrite Hb).
  rewrite <- (between_join t a (a + 1) e) in Hl by lia.
  rewrite (between_snoc t a a b), between_empty in Hl by (done || lia). by simplify_eq/=.
Qed.

(** A maximal word of the grammar is scanned as it is. *)
Lemma scan_digits_complete a e :
  digits_at t is_digit a e -> byte_is (get t e) (fun b => is_digit b || (b =? UNDERSCORE)) = false ->
  scan_digit_sequence t a is_digit = Ret {| ds_end_index := e; saw_digit := true; ds_valid := true |}.
Proof using Hus.
  intros (Ha & He & Hd) Hstop.
  destruct (scan_digit_sequence_spec t is_digit Hus a ltac:(lia)) as ([e' saw v] & -> & Hr & Hall & Hs & Hv & Hsaw).
  cbn in *. assert (e = e') as ->.
  { eapply (run_extent t (fun b => is_digit b || (b =? UNDERSCORE))); [exact Ha|done|done|..|done|done];
      (eapply Forall_impl; [first [exact Hall|apply sep_digits_bytes, Hd]|]); intros b; rewrite orb_true_iff, Z.eqb_eq; tauto. }
  assert (v = true) as -> by (by apply Hv). by rewrite Hsaw.
Qed.

(** A valid scan is a word of the grammar. *)
Lemma scan_digits_sound a :
  0 <= a <= zlen t ->
  returns (scan_digit_sequence t a is_digit) (fun ds =>
    a <= ds_end_index ds <= zlen t /\
    (ds_valid ds = true -> digits_at t is_digit a (ds_end_index ds))).
Proof using Hus.
  intros Ha. eapply returns_mono; [by apply scan_digit_sequence_spec|].
  intros ds (Hr & _ & _ & Hv & _). split; [done|]. intros H%Hv. split_and!; [lia|lia|lia|done].
Qed.
End digits.

(** The byte at [e] cannot belong to the unsuffixed literal before it. *)
Definition unsuffixed_ends (t : list u8) (k : SyntaxKind) (e : Z) : Prop :=
  (byte_is (get t e) is_numeric_suffix_byte = false \/ get t e = Some 105) /\
  (k = DecimalIntegerLiteralToken -> get t e = Some DOT -> byte_is (get t (e + 1)) is_ascii_digit = false).

Lemma unsuffixed_ends_stop t k e :
  unsuffixed_ends t k e ->
  byte_is (get t e) (fun b => is_ascii_digit b || (b =? UNDERSCORE)) = false /\
  (forall r, byte_is (get t e) (fun b => radix_digit r b || (b =? UNDERSCORE)) = false) /\
  byte_is (get t e) is_exponent_marker = false.
Proof. intros [[H|H] _]; [by apply suffix_not_digit|]. rewrite H. by split_and!; [|intros []|]. Qed.

(** Decimal digits do not go past the letter of a radix prefix. *)
Lemma radix_prefix_not_decimal t a l u i :
  has_radix_prefix t a l u = true -> is_ascii_alphabetic l = true -> is_ascii_alphabetic u = true ->
  digits_at t is_ascii_digit a i -> i = a + 1 /\ (get t i = Some l \/ get t i = Some u).
Proof.
  intros Hp Hl Hu Hd. pose proof Hd as (Ha & He & Hs). apply digits_at_first in Hd as [Hlt _].
  unfold has_radix_prefix in Hp. apply andb_true_iff in Hp as [_ Hp].
  destruct (get t (a + 1)) as [b|] eqn:Hg; [|done].
  assert (i = a + 1) as ->.
  { destruct (Z.eq_dec i (a + 1)) as [|Hne]; [done|]. exfalso.
    apply sep_digits_bytes in Hs. rewrite List.Forall_forall in Hs.
    specialize (Hs b (between_In t a (a + 1) i b ltac:(lia) ltac:(lia) Hg)).
    unfold is_ascii_alphabetic, is_ascii_digit in *. lia. }
  split; [done|]. rewrite Hg. apply orb_true_iff in Hp as [->%Z.eqb_eq| ->%Z.eqb_eq]; auto.
Qed.

Section numeric.
Context (t : list u8).

Lemma exponent_start m :
  byte_is (get t m) is_exponent_marker = true ->
  0 <= (if byte_is (get t (m + 1)) is_sign then m + 2 else m + 1) <= zlen t.
Proof using.
  unfold byte_is. destruct (get t m) as [b|] eqn:Hm; [|done]. intros _.
  pose proof (get_Some_range _ _ _ Hm).
  destruct (get t (m + 1)) as [c|] eqn:Hc; [|lia]. pose proof (get_Some_range _ _ _ Hc). destruct (is_sign c); lia.
Qed.

Lemma scan_exponent_eq m :
  scan_exponent_part t m =
  (let! digits := scan_digit_sequence t (if byte_is (get t (m + 1)) is_sign then m + 2 else m + 1) is_ascii_digit in
   Ret {| ds_end_index := ds_end_index digits; saw_digit := saw_digit digits;
          ds_valid := ds_valid digits && saw_digit digits |}).
Proof using. unfold scan_exponent_part. by replace (m + 1 + 1) with (m + 2) by lia. Qed.

Lemma scan_exponent_complete m e :
  exponent_at t m e -> byte_is (get t e) (fun b => is_ascii_digit b || (b =? UNDERSCORE)) = false ->
  scan_exponent_part t m = Ret {| ds_end_index := e; saw_digit := true; ds_valid := true |}.
Proof using. intros [_ Hd] Hs. rewrite scan_exponent_eq. by rewrite (scan_digits_complete _ _ eq_refl _ _ Hd Hs). Qed.

Lemma scan_exponent_sound m :
  byte_is (get t m) is_exponent_marker = true ->
  returns (scan_exponent_part t m) (fun ds => ds_valid ds = true -> exponent_at t m (ds_end_index ds)).
Proof using.
  intros Hm. rewrite scan_exponent_eq. eapply returns_bind.
  - apply scan_digits_sound; [done|by apply exponent_start].
  - intros ds [_ Hv]. apply returns_ret. cbn. intros [H _]%andb_true_iff. split; [done|by apply Hv].
Qed.

(** An exponent marker, a dot or the end of a literal ends a digit sequence. *)
Lemma marker_stops e : byte_is (get t e) is_exponent_marker = true ->
  byte_is (get t e) (fun b => is_ascii_digit b || (b =? UNDERSCORE)) = false /\ get t e <> Some DOT.
Proof using.
  unfold byte_is. destruct (get t e) as [b|]; [|done]. unfold is_exponent_marker, is_ascii_digit. intros H.
  split; [lia|]. intros [= ->]. done.
Qed.

(** A valid scan is an unsuffixed literal, and an integer stops before a
    fraction only. *)
Definition scanned_unsuffixed (a : Z) (ns : NumericScan) : Prop :=
  (ns_valid ns = true -> unsuffixed_at t a (ns_kind ns) (ns_end_index ns)) /\
  (ns_kind ns = DecimalIntegerLiteralToken -> get t (ns_end_index ns) = Some DOT ->
   byte_is (get t (ns_end_index ns + 1)) is_ascii_digit = false).

Lemma scan_decimal_sound a :
  0 <= a <= zlen t ->
  returns (scan_decimal_numeric t a) (scanned_unsuffixed a).
Proof using.
  unfold scanned_unsuffixed. intros Ha. unfold scan_decimal_numeric.
  eapply returns_bind; [by apply scan_digits_sound|]. intros ds (Hr & Hv).
  destruct (bool_decide _ && _) eqn:Edot; [|destruct (byte_is _ is_exponent_marker) eqn:Eexp].
  - apply andb_true_iff in Edot as [Edot _]. rewrite bool_decide_eq_true in Edot.
    pose proof (get_Some_range _ _ _ Edot).
    eapply returns_bind; [apply scan_digits_sound; [done|lia]|]. intros fr (Hfr & Hfv).
    destruct (byte_is _ is_exponent_marker) eqn:Eexp.
    + eapply returns_bind; [by apply scan_exponent_sound|]. intros ex Hx. apply returns_ret. cbn. split; [|done].
      intros [[[[H1 _]%andb_true_iff H2]%andb_true_iff _]%andb_true_iff H3]%andb_true_iff.
      eapply real_fraction_exponent; [by apply Hv|done|by apply Hfv|by apply Hx].
    + apply returns_ret. cbn. split; [|done]. intros [[[H1 _]%andb_true_iff H2]%andb_true_iff _]%andb_true_iff.
      eapply real_fraction; [by apply Hv|done|by apply Hfv].
  - eapply returns_bind; [by apply scan_exponent_sound|]. intros ex Hx. apply returns_ret. cbn. split; [|done].
    intros [[H1 _]%andb_true_iff H2]%andb_true_iff. eapply real_exponent; [by apply Hv|by apply Hx].
  - apply returns_ret. cbn. split; [intros [H1 _]%andb_true_iff; by apply decimal_integer, Hv|].
    intros _ Hg. by rewrite bool_decide_eq_true_2 in Edot.
Qed.

Definition radix_kind (r : Radix) : SyntaxKind :=
  match r with Binary => BinaryIntegerLiteralToken | Hexadecimal => HexadecimalIntegerLiteralToken end.

Lemma scan_radix_sound a r l u :
  has_radix_prefix t a l u = true -> 0 <= a ->
  returns (scan_radix_integer t a r) (fun ns =>
    ns_kind ns = radix_kind r /\
    (ns_valid ns = true -> digits_at t (radix_digit r) (a + 2) (ns_end_index ns))).
Proof using.
  intros Hp Ha. unfold has_radix_prefix in Hp. apply andb_true_iff in Hp as [_ Hp].
  destruct (get t (a + 1)) as [b|] eqn:Hg; [|done]. pose proof (get_Some_range _ _ _ Hg).
  unfold scan_radix_integer. eapply returns_bind; [apply scan_digits_sound; [by destruct r|lia]|].
  intros ds [_ Hv]. apply returns_ret. cbn. split; [done|]. intros [H1 _]%andb_true_iff. by apply Hv.
Qed.

Lemma numeric_scan_sound a :
  0 <= a <= zlen t ->
  returns (numeric_scan t a) (scanned_unsuffixed a).
Proof using.
  unfold scanned_unsuffixed. intros Ha. unfold numeric_scan.
  destruct (has_radix_prefix _ _ 98 66) eqn:Eb; [|destruct (has_radix_prefix _ _ 120 88) eqn:Ex; [|by apply scan_decimal_sound]].
  all: eapply returns_mono; [eapply scan_radix_sound; [eassumption|lia]|]; intros ns [-> Hv]; (split; [|done]); intros H.
  - apply binary_integer; [done|by apply Hv].
  - apply hexadecimal_integer; [done|by apply Hv].
Qed.

Lemma scan_radix_complete a r e :
  digits_at t (radix_digit r) (a + 2) e ->
  byte_is (get t e) (fun b => radix_digit r b || (b =? UNDERSCORE)) = false ->
  scan_radix_integer t a r = Ret {| ns_kind := radix_kind r; ns_end_index := e; ns_valid := true |}.
Proof using.
  intros Hd Hs. unfold scan_radix_integer.
  rewrite (scan_digits_complete t (radix_digit r)) with (e := e); [by destruct r|by destruct r|done..].
Qed.

Lemma prefixes_exclusive a : has_radix_prefix t a 120 88 = true -> has_radix_prefix t a 98 66 = false.
Proof using.
  unfold has_radix_prefix. rewrite andb_true_iff. intros [-> H].
  destruct (get t (a + 1)) as [b|]; [|done]. cbn [andb]. lia.
Qed.

(** A literal that starts with decimal digits is scanned as such. *)
Lemma numeric_scan_decimal a i :
  digits_at t is_ascii_digit a i ->
  byte_is (get t i) is_exponent_marker = true \/ get t i = Some DOT \/ unsuffixed_ends t DecimalIntegerLiteralToken i ->
  numeric_scan t a = scan_decimal_numeric t a.
Proof using.
  intros Hd Hi. assert (forall l u, (l = 98 /\ u = 66) \/ (l = 120 /\ u = 88) -> has_radix_prefix t a l u = false) as Hno.
  { intros l u Hlu. destruct (has_radix_prefix t a l u) eqn:Ep; [|done]. exfalso.
    destruct (radix_prefix_not_decimal t a l u i Ep) as [_ Hg]; [by destruct Hlu as [[-> ->]|[-> ->]]..|done|].
    destruct Hlu as [[-> ->]|[-> ->]], Hg as [Hg|Hg];
      (destruct Hi as [Hi|[Hi|[[Hi|Hi] _]]]; rewrite Hg in Hi; done). }
  unfold numeric_scan. by rewrite !Hno by auto.
Qed.

Lemma numeric_scan_complete a k e :
  unsuffixed_at t a k e -> unsuffixed_ends t k e ->
  numeric_scan t a = Ret {| ns_kind := k; ns_end_index := e; ns_valid := true |}.
Proof using.
  assert (forall m, byte_is (get t m) is_exponent_marker = true -> bool_decide (get t m = Some DOT) = false) as Hmk
    by (intros m Hm; apply bool_decide_eq_false_2, marker_stops, Hm).
  intros H Hends. destruct (unsuffixed_ends_stop _ _ _ Hends) as (Hdec & Hrad & Hexp).
  destruct H as [e Hd|e Hp Hd|e Hp Hd|i e Hi Hdot Hf|i m e Hi Hdot Hf Hx|m e Hi Hx].
  - rewrite (numeric_scan_decimal a e) by auto. unfold scan_decimal_numeric.
    rewrite (scan_digits_complete _ _ eq_refl _ _ Hd Hdec). cbn [outcome_bind ds_end_index ds_valid saw_digit].
    rewrite Hexp. case_bool_decide as Eg; [|done]. destruct Hends as [_ Hn]. by rewrite Hn.
  - unfold numeric_scan. rewrite Hp. by apply scan_radix_complete.
  - unfold numeric_scan. rewrite prefixes_exclusive, Hp by done. by apply scan_radix_complete.
  - rewrite (numeric_scan_decimal a i) by auto. unfold scan_decimal_numeric.
    rewrite (scan_digits_complete _ _ eq_refl _ _ Hi) by by rewrite Hdot. cbn [outcome_bind ds_end_index ds_valid saw_digit].
    rewrite bool_decide_eq_true_2 by done. destruct (digits_at_first _ _ _ _ Hf) as [_ ->]. cbn [andb].
    rewrite (scan_digits_complete _ _ eq_refl _ _ Hf Hdec). cbn. by rewrite Hexp.
  - pose proof (proj1 Hx) as Hm. destruct (marker_stops _ Hm) as [Hms _].
    rewrite (numeric_scan_decimal a i) by auto. unfold scan_decimal_numeric.
    rewrite (scan_digits_complete _ _ eq_refl _ _ Hi) by by rewrite Hdot. cbn [outcome_bind ds_end_index ds_valid saw_digit].
    rewrite bool_decide_eq_true_2 by done. destruct (digits_at_first _ _ _ _ Hf) as [_ ->]. cbn [andb].
    rewrite (scan_digits_complete _ _ eq_refl _ _ Hf Hms). cbn [outcome_bind ds_end_index ds_valid saw_digit].
    rewrite Hm. by rewrite (scan_exponent_complete _ _ Hx Hdec).
  - pose proof (proj1 Hx) as Hm. destruct (marker_stops _ Hm) as [Hms _].
    rewrite (numeric_scan_decimal a m) by auto. unfold scan_decimal_numeric.
    rewrite (scan_digits_complete _ _ eq_refl _ _ Hi Hms). cbn [outcome_bind ds_end_index ds_valid saw_digit].
    rewrite Hmk by done. cbn [andb]. rewrite Hm. by rewrite (scan_exponent_complete _ _ Hx Hdec).
Qed.
End numeric.

(** ** Tuple element indices *)

Inductive tuple_index_at (t : list u8) (a : Z) : Z -> Prop :=
| index_zero : get t a = Some 48 -> tuple_index_at t a (a + 1)
| index_nonzero e :
    byte_is (get t a) (fun b => (49 <=? b) && (b <=? 57)) = true -> a < e <= zlen t ->
    Forall (fun b => is_ascii_digit b = true) (between t (a + 1) e) -> tuple_index_at t a e.

Definition tuple_index_word (t : list u8) (a : Z) (k : SyntaxKind) (e : Z) : Prop :=
  k = TupleElementIndexToken /\ tuple_index_at t a e /\ byte_is (get t e) is_numeric_suffix_byte = false.

Lemma decimal_digits_end_spec t a :
  0 <= a <= zlen t ->
  returns (decimal_digits_end t a) (fun e =>
    a <= e <= zlen t /\ Forall (fun b => is_ascii_digit b = true) (between t a e) /\
    byte_is (get t e) is_ascii_digit = false).
Proof.
  intros Ha. unfold decimal_digits_end.
  eapply (loop_rule (fun i => a <= i <= zlen t /\ Forall (fun b => is_ascii_digit b = true) (between t a i))
    (fun i => Z.to_nat (zlen t - i))); [|rewrite between_empty; split; [lia|constructor]|unfold zlen; lia].
  intros i [Hi Hall]. unfold decimal_digits_step. destruct (byte_is (get t i) is_ascii_digit) eqn:E; apply returns_ret; [|done].
  unfold byte_is in E. destruct (get t i) as [b|] eqn:Hg; [|done]. pose proof (get_Some_range _ _ _ Hg).
  split_and!; [lia|lia| |lia]. rewrite (between_snoc _ _ _ b) by (done || lia).
  apply Forall_app. split; [done|]. by constructor.
Qed.

(** An index is a run of digits, with no zero before another digit. *)
Lemma tuple_index_digits t a e :
  0 <= a ->
  tuple_index_at t a e <->
  a < e <= zlen t /\ Forall (fun b => is_ascii_digit b = true) (between t a e) /\
  tuple_index_text_is_valid t a e = true.
Proof.
  intros Ha. unfold tuple_index_text_is_valid.
  assert (forall b e, get t a = Some b -> a < e <= zlen t -> between t a e = b :: between t (a + 1) e) as Hcons.
  { intros b e0 Hg He. rewrite <- (between_join t a (a + 1) e0) by lia.
    by rewrite (between_snoc t a a b), between_empty by (done || lia). }
  split.
  - intros [Hg|e' Hg He Hall].
    + pose proof (get_Some_range _ _ _ Hg). rewrite Z.eqb_refl, (between_snoc t a a 48), between_empty by (done || lia).
      split_and!; [lia|lia|by repeat constructor|done].
    + split; [done|]. unfold byte_is in *. destruct (get t a) as [b|] eqn:Hb; [|done].
      rewrite (Hcons b) by done. split; [constructor; [unfold is_ascii_digit; lia|done]|].
      destruct (_ =? _); [done|]. exact Hg.
  - intros (He & Hall & Hv). destruct (get_is_Some t a ltac:(lia)) as [b Hb]. rewrite (Hcons b) in Hall by done.
    inversion Hall as [|? ? Hdig Hrest]; subst. unfold byte_is in Hv. rewrite Hb in Hv.
    destruct (decide (b = 48)) as [->|Hne].
    + destruct (e =? a + 1) eqn:E; [apply Z.eqb_eq in E as ->; by apply index_zero|lia].
    + apply index_nonzero; [|done|done]. rewrite Hb. unfold byte_is, is_ascii_digit in *. lia.
Qed.

(** ** Quoted literals *)

(** An escape sequence whose backslash is at [i], up to [e]. *)
Inductive escape_at (t : list u8) (mode : EscapeMode) (i : Z) : Z -> Prop :=
| simple_escape b :
    get t (i + 1) = Some b -> is_simple_escape b = true -> escape_at t mode i (i + 2)
| apostrophe_escape :
    mode = EscapeCharacter -> get t (i + 1) = Some APOSTROPHE -> escape_at t mode i (i + 2)
| byte_escape x y :
    mode = EscapeByteString -> get t (i + 1) = Some 120 ->
    get t (i + 2) = Some x -> is_hex x = true -> get t (i + 3) = Some y -> is_hex y = true ->
    escape_at t mode i (i + 4)
| unicode_escape ds :
    get t (i + 1) = Some 117 -> unicode_escape_at t i ds -> escape_at t mode i (i + 4 + zlen ds).

(** One item between the quotes: a scalar value other than the quote, a
    backslash and the line ends, or an escape. *)
Inductive item_at (t : list u8) (mode : EscapeMode) (quote : u8) (i : Z) : Z -> Prop :=
| scalar_item c :
    first_char (zdrop i t) = Some c -> c <> quote -> c <> BACKSLASH -> is_line_end c = false ->
    item_at t mode quote i (i + len_utf8 c)
| escape_item e :
    first_char (zdrop i t) = Some BACKSLASH -> escape_at t mode i e -> item_at t mode quote i e.

Definition character_word (t : list u8) (a : Z) (k : SyntaxKind) (e : Z) : Prop :=
  k = CharacterLiteralToken /\ get t a = Some APOSTROPHE /\
  exists m, item_at t EscapeCharacter APOSTROPHE (a + 1) m /\ get t m = Some APOSTROPHE /\ e = m + 1.

(** String and byte-string literals. *)
Definition string_word (t : list u8) (a : Z) (byte_string : bool) (k : SyntaxKind) (e : Z) : Prop :=
  k = (if byte_string then ByteStringLiteralToken else StringLiteralToken) /\
  exists m, rtc (item_at t (if byte_string then EscapeByteString else EscapeString) QUOTE)
              (a + 1 + if byte_string then 1 else 0) m /\
    get t m = Some QUOTE /\ e = m + 1.

Section escapes.
Context (s : SourceSnapshot) `{!WfSnapshot s}.

(** The scalar at a cursor before the end. *)
Lemma scalar_at i b :
  boundary (text s) i -> get (text s) i = Some b ->
  exists c, first_char (zdrop i (text s)) = Some c /\ character_len_at s i = Some (len_utf8 c) /\
    0 < len_utf8 c /\ boundary (text s) (i + len_utf8 c) /\
    (b < 128 -> c = b /\ len_utf8 c = 1) /\ (128 <= b -> 128 <= c).
Proof using.
  intros Hi Hg. destruct (boundary_first _ _ _ Hi Hg) as (c & Hc & Hs & Hn & H1 & H2). exists c.
  pose proof (len_utf8_range c). unfold character_len_at. rewrite str_get_from_boundary, Hc by done.
  split_and!; try done; [lia|]. intros Hb. specialize (H1 Hb). subst c. split; [done|].
  unfold len_utf8. by destruct (b <? 128) eqn:E; [|lia].
Qed.

(** Two hexadecimal digits after a byte escape. *)
Lemma byte_digits_exact i :
  0 <= i ->
  (exists x y, get (text s) (i + 2) = Some x /\ is_hex x = true /\ get (text s) (i + 3) = Some y /\ is_hex y = true) <->
  (exists ds, get_range (text s) (i + 2) (i + 4) = Some ds /\ forallb is_hex ds = true).
Proof using.
  assert (forall x y, get (text s) (i + 2) = Some x -> get (text s) (i + 3) = Some y -> 0 <= i ->
    between (text s) (i + 2) (i + 4) = [x; y]) as Htwo.
  { intros x y Hx Hy Hi. replace (i + 4) with (i + 3 + 1) by lia. rewrite (between_snoc _ _ _ y) by (done || lia).
    replace (i + 3) with (i + 2 + 1) by lia. by rewrite (between_snoc _ _ _ x), between_empty by (done || lia). }
  intros Hi. split.
  - intros (x & y & Hx & H1 & Hy & H2). pose proof (get_Some_range _ _ _ Hy). exists [x; y]. split; [|simpl; by rewrite H1, H2].
    apply get_range_Some. split_and!; [lia..|]. symmetry. by apply Htwo.
  - intros (ds & Hds & Hall). apply get_range_Some in Hds as (H1 & H2 & ->).
    destruct (get_is_Some (text s) (i + 2) ltac:(lia)) as [x Hx], (get_is_Some (text s) (i + 3) ltac:(lia)) as [y Hy].
    change (forallb is_hex (between (text s) (i + 2) (i + 4)) = true) in Hall.
    rewrite (Htwo x y) in Hall by done. simpl in Hall. exists x, y. by destruct (is_hex x), (is_hex y).
Qed.

Lemma scan_escape_sequence_exact i mode :
  boundary (text s) (i + 1) -> 0 <= i ->
  returns (scan_escape_sequence s i mode) (fun r =>
    match r with
    | EscapeValid e => escape_at (text s) mode i e
    | EscapeInvalid _ => forall e, ~ escape_at (text s) mode i e
    end).
Proof using All.
  intros Hb Hi. unfold scan_escape_sequence. fold is_hex.
  destruct (get (text s) (i + 1)) as [b|] eqn:Hg; [|apply returns_ret; by inversion 1; simplify_eq].
  destruct (is_simple_escape b) eqn:E1; [apply returns_ret; by eapply simple_escape|].
  destruct ((b =? APOSTROPHE) && _) eqn:E2.
  { apply andb_true_iff in E2 as [->%Z.eqb_eq E2]. rewrite bool_decide_eq_true in E2.
    apply returns_ret. by apply apostrophe_escape. }
  apply andb_false_iff in E2. rewrite Z.eqb_neq, bool_decide_eq_false in E2.
  destruct ((b =? 120) && _) eqn:E3.
  { apply andb_true_iff in E3 as [->%Z.eqb_eq E3]. rewrite bool_decide_eq_true in E3.
    pose proof (byte_digits_exact i Hi) as Hx.
    destruct (get_range _ _ _) as [digits|] eqn:Er; [destruct (forallb _ digits) eqn:Ef|]; apply returns_ret.
    - destruct (proj2 Hx) as (x & y & ? & ? & ? & ?); [by eauto|]. by eapply byte_escape.
    - intros e He. assert (exists ds, Some digits = Some ds /\ forallb is_hex ds = true) as (ds & ? & ?); [|congruence].
      apply Hx. destruct He; simplify_eq; by eauto 10.
    - intros e He. assert (exists ds, None = Some ds /\ forallb is_hex ds = true) as (ds & ? & ?); [|congruence].
      apply Hx. destruct He; simplify_eq; by eauto 10. }
  apply andb_false_iff in E3. rewrite Z.eqb_neq, bool_decide_eq_false in E3.
  destruct (b =? 117) eqn:E4.
  { apply Z.eqb_eq in E4 as ->. eapply returns_mono; [by apply scan_unicode_escape_exact|].
    intros [e|err]; [intros (ds & Hds & ->); by apply unicode_escape|]. intros [_ Hno] e He.
    destruct He; simplify_eq; [done..|by eapply Hno]. }
  apply Z.eqb_neq in E4. assert (forall e, ~ escape_at (text s) mode i e) as Hno
    by (intros e He; destruct E2, E3, He; congruence).
  destruct (is_line_end b); [by apply returns_ret|].
  rewrite text_size_from_usize_ok by by apply (boundary_u32 s). cbn [outcome_bind].
  rewrite first_character_ok by done. by apply returns_ret.
Qed.
Lemma unicode_escape_le t i ds ds' :
  0 <= i -> unicode_escape_at t i ds -> unicode_escape_at t i ds' -> zlen ds' <= zlen ds.
Proof using.
  intros Hi (_ & _ & Hc & _) (_ & Hb' & Hc' & Hall' & _). pose proof (zlen_nonneg ds).
  destruct (Z_le_gt_dec (zlen ds') (zlen ds)) as [|Hgt]; [done|]. exfalso.
  pose proof (get_Some_range _ _ _ Hc'). rewrite List.Forall_forall in Hall'.
  enough (In 125 ds') as Hin by (by specialize (Hall' 125 Hin)).
  rewrite <- Hb'. apply (between_In t _ (i + 3 + zlen ds)); [lia|lia|done].
Qed.

(** Escapes and items are read one way only, and the quote is no item. *)
Lemma escape_at_det mode i e1 e2 :
  0 <= i -> escape_at (text s) mode i e1 -> escape_at (text s) mode i e2 -> e1 = e2.
Proof using.
  intros Hi H1 H2. destruct H1 as [b Hb Hs|Hm Hb|x y Hm Hb Hx _ Hy _|ds Hb Hds],
    H2 as [b' Hb' Hs'|Hm' Hb'|x' y' Hm' Hb' Hx' _ Hy' _|ds' Hb' Hds']; simplify_eq; try done.
  pose proof (unicode_escape_le _ _ _ _ Hi Hds Hds'). pose proof (unicode_escape_le _ _ _ _ Hi Hds' Hds). lia.
Qed.

Lemma item_at_det mode q i e1 e2 :
  0 <= i -> item_at (text s) mode q i e1 -> item_at (text s) mode q i e2 -> e1 = e2.
Proof using.
  intros Hi [c Hc _ Hn _|e Hc He] [c' Hc' _ Hn' _|e' Hc' He']; try congruence. by eapply escape_at_det.
Qed.

Lemma item_at_progress mode q i e : item_at (text s) mode q i e -> i < e.
Proof using.
  destruct 1 as [c _ _ _ _|e _ He]; [pose proof (len_utf8_range c); lia|].
  destruct He; try lia. pose proof (zlen_nonneg ds). lia.
Qed.

Lemma quote_no_item mode q i e :
  q < 128 -> q <> BACKSLASH -> get (text s) i = Some q -> ~ item_at (text s) mode q i e.
Proof using All.
  intros Hq Hq' Hg. destruct (ascii_step s _ _ Hg Hq) as [Hi _].
  destruct (scalar_at i q Hi Hg) as (c & Hc & _ & _ & _ & Ha & _). destruct (Ha Hq) as [-> _].
  intros [c' Hc' Hn _ _|e' Hc' _]; congruence.
Qed.

(** Where a maximal run of items ends is determined by where it starts. *)
Lemma items_end_unique mode q a i m :
  0 <= a -> rtc (item_at (text s) mode q) a i -> (forall e, ~ item_at (text s) mode q i e) ->
  rtc (item_at (text s) mode q) a m -> (forall e, ~ item_at (text s) mode q m e) -> i = m.
Proof using.
  intros Ha H Hi. revert m. induction H as [a|a b i Hab Hbi IH]; intros m Hm Hstuck.
  - destruct Hm as [|a b m Hab _]; [done|]. by destruct (Hi _ Hab).
  - destruct Hm as [a|a b' m Hab' Hm]; [by destruct (Hstuck _ Hab)|].
    assert (b' = b) as -> by (by eapply item_at_det). pose proof (item_at_progress _ _ _ _ Hab).
    apply IH; [lia|done..].
Qed.

(** The item at [i], by its first byte. *)
Lemma scalar_item_exact mode q i b :
  boundary (text s) i -> get (text s) i = Some b -> b <> BACKSLASH -> q < 128 ->
  (b = q \/ is_line_end b = true -> forall e, ~ item_at (text s) mode q i e) /\
  (b <> q -> is_line_end b = false ->
   exists n, character_len_at s i = Some n /\ (is_ascii b = true -> n = 1) /\ item_at (text s) mode q i (i + n)).
Proof using.
  intros Hi Hg Hne Hq. destruct (scalar_at i b Hi Hg) as (c & Hc & Hlen & _ & _ & Ha & Hna).
  assert (b < 128 \/ 128 <= b) as [Hlt|Hge] by lia.
  - destruct (Ha Hlt) as [-> H1]. split.
    + intros Hb e [c' Hc' Hn Hbs Hl|e' Hc' _]; simplify_eq. destruct Hb; congruence.
    + intros Hn Hl. exists (len_utf8 b). split_and!; [done|done|by apply scalar_item].
  - specialize (Hna Hge). split.
    + unfold is_line_end, LF, CR. intros Hb e He. lia.
    + intros Hn Hl. exists (len_utf8 c). unfold is_ascii, is_line_end, LF, CR in *. split_and!; [done|lia|].
      apply scalar_item; [done|lia|lia|unfold is_line_end, LF, CR; lia].
Qed.

Lemma escape_item_exact mode q i e :
  boundary (text s) i -> get (text s) i = Some BACKSLASH ->
  item_at (text s) mode q i e <-> escape_at (text s) mode i e.
Proof using.
  intros Hi Hg. destruct (scalar_at i _ Hi Hg) as (c & Hc & _ & _ & _ & Ha & _). destruct Ha as [-> _]; [lia|].
  split; [|by apply escape_item]. intros [c' Hc' _ Hn _|e' _ He]; [congruence|done].
Qed.
End escapes.

(** ** Literal tokens *)

(** The outcome of a scan whose words are [word kind end]: the one that is
    there, or an invalid token when there is none. *)
Definition scans_exactly {B} `{!DiagnosticSink B, !DiagnosticSinkLaws B} (s : SourceSnapshot) (a : Z)
    (word : SyntaxKind -> Z -> Prop) (scan : TokenScan B) : Prop :=
  (exists k e, word k e /\ accepted a k e scan) \/
  (rejected s a scan /\ forall k e, ~ word k e).

(** A numeric literal whose spelling ends where it ends. *)
Definition numeric_word (t : list u8) (a : Z) (k : SyntaxKind) (e : Z) : Prop :=
  numeric_at t a k e /\ numeric_ends t k e.

Section tokens.
Context {B : Type} `{!DiagnosticSink B, !DiagnosticSinkLaws B}.
Context (s : SourceSnapshot) `{!WfSnapshot s}.

Lemma make_invalid_numeric_rejected a e :
  boundary (text s) a -> a < zlen (text s) ->
  returns (make_invalid_numeric_token (B := B) s a e) (rejected s a).
Proof using All.
  intros Ha Hlt. unfold make_invalid_numeric_token.
  eapply returns_bind; [by apply invalid_numeric_like_end_ok|]. intros i [Hi Hai].
  unfold TextRange_new. destruct (a <=? i) eqn:E; [|lia]. cbn [assert_ outcome_bind].
  apply reject_token; [done|apply invalid_numeric_diagnostic_at].
Qed.

Lemma unsuffixed_kind t a k e : unsuffixed_at t a k e -> numeric_kind k = true /\ k <> ImaginaryLiteralToken.
Proof using. by destruct 1. Qed.

(** The word, when there is one, has the base literal the scan finds. *)
Lemma numeric_word_scan a k e :
  numeric_word (text s) a k e ->
  exists k' e', unsuffixed_at (text s) a k' e' /\
    numeric_scan (text s) a = Ret {| ns_kind := k'; ns_end_index := e'; ns_valid := true |} /\
    (if bool_decide (get (text s) e' = Some 105)
     then k = ImaginaryLiteralToken /\ e = e' + 1 else k = k' /\ e = e').
Proof using.
  intros [[k0 e0 Hu|k0 e0 Hu Hi] [Hsuf Hdot]]; exists k0, e0; (split; [done|]).
  - split; [apply numeric_scan_complete; [done|split; [by left|done]]|].
    rewrite bool_decide_eq_false_2; [done|]. intros Hg. by rewrite Hg in Hsuf.
  - split; [|by rewrite bool_decide_eq_true_2].
    apply numeric_scan_complete; [done|]. split; [by right|]. intros _ Hg. congruence.
Qed.

(** A numeric scan accepts the literal at [a], or rejects it when there is none. *)
Lemma scan_numeric_literal_exact a :
  boundary (text s) a -> a < zlen (text s) ->
  returns (scan_numeric_literal (B := B) s a) (scans_exactly s a (numeric_word (text s) a)).
Proof using All.
  intros Ha Hlt. pose proof (boundary_range _ _ Ha). unfold scan_numeric_literal.
  rewrite text_size_to_usize_ok by by apply (boundary_u32 s). cbn [outcome_bind].
  fold (numeric_scan (text s) a).
  destruct (numeric_scan_sound (text s) a ltac:(lia)) as (ns & Hns & Hsound & Hstop). rewrite Hns. cbn [outcome_bind].
  assert (forall err, (forall k e, ~ numeric_word (text s) a k e) ->
    returns (make_invalid_numeric_token (B := B) s a err) (scans_exactly s a (numeric_word (text s) a))) as Hfail.
  { intros err Hno. eapply returns_mono; [by apply make_invalid_numeric_rejected|]. intros scan Hscan. by right. }
  destruct ns as [k e [|]]; cbn [ns_valid ns_kind ns_end_index negb] in *.
  2: { apply Hfail. intros k' e' (k2 & e2 & _ & Hs & _)%numeric_word_scan. congruence. }
  destruct (numeric_scan_ok s a Ha) as (ns & Hns' & Hb & Hgt & _). rewrite Hns in Hns'. injection Hns' as <-.
  cbn in Hb, Hgt. specialize (Hgt eq_refl). specialize (Hsound eq_refl). destruct (unsuffixed_kind _ _ _ _ Hsound) as [Hk Him].
  set (im := bool_decide (get (text s) e = Some 105)).
  set (e1 := if im then _ else _). set (k1 := if im then ImaginaryLiteralToken else _).
  assert (numeric_at (text s) a k1 e1) as Hat.
  { subst e1 k1 im. case_bool_decide; [by eapply imaginary_numeric|by apply plain_numeric]. }
  assert (boundary (text s) e1 /\ a < e1 /\ numeric_kind k1 = true) as (Hb1 & Hlt1 & Hk1).
  { subst e1 k1 im. case_bool_decide as Hi; [|done]. split_and!; [|lia|done]. apply (ascii_step s _ _ Hi). lia. }
  assert (forall k' e', numeric_word (text s) a k' e' -> byte_is (get (text s) e1) is_numeric_suffix_byte = false) as Hno.
  { intros k' e' Hw. pose proof (numeric_word_scan _ _ _ Hw) as (k2 & e2 & _ & Hs & Hif). destruct Hw as [_ [Hw _]].
    rewrite Hns in Hs. injection Hs as <- <-. fold im in Hif. subst e1. by destruct im, Hif as [_ ->]. }
  assert (byte_is (get (text s) e1) is_numeric_suffix_byte = false -> returns
    (let! end_ := text_size_from_usize e1 in let! token := make_token k1 a end_ in Ret (TokenScan_clean token))
    (scans_exactly (B := B) s a (numeric_word (text s) a))) as Hok.
  { intros Hend. rewrite text_size_from_usize_ok by by apply (boundary_u32 s). cbn [outcome_bind].
    eapply returns_mono; [apply accept_token; [by apply numeric_kind_token|lia]|].
    intros scan Hscan. left. exists k1, e1. split; [|done]. split; [done|]. split; [done|].
    subst k1 e1. by destruct im. }
  destruct (get (text s) e1) as [sb|] eqn:Hsb; [destruct (is_numeric_suffix_byte sb) eqn:Esb|]; [|by apply Hok..].
  assert (forall k e, ~ numeric_word (text s) a k e) as Hnone
    by (intros k' e' Hw%Hno; cbn in Hw; congruence).
  destruct (negb im && _); [by apply Hfail|].
  rewrite text_size_from_usize_ok by by apply (boundary_u32 s). cbn [outcome_bind].
  rewrite first_character_ok by done. by apply Hfail.
Qed.
Lemma scan_tuple_index_exact a :
  boundary (text s) a -> byte_is (get (text s) a) is_ascii_digit = true ->
  returns (scan_tuple_element_index_token (B := B) s a) (scans_exactly s a (tuple_index_word (text s) a)).
Proof using All.
  intros Ha Hd. assert (0 <= a < zlen (text s)) as Hr.
  { unfold byte_is in Hd. destruct (get (text s) a) eqn:Hg; [|done]. apply get_Some_range in Hg. lia. }
  unfold scan_tuple_element_index_token.
  rewrite text_size_to_usize_ok by by apply (boundary_u32 s). cbn [outcome_bind].
  eapply returns_bind; [apply decimal_digits_end_spec; lia|]. intros e (He & Hall & Hstop).
  assert (a < e) as Hlt by (destruct (Z.eq_dec a e) as [->|]; [congruence|lia]).
  assert (forall k e', tuple_index_word (text s) a k e' -> e' = e) as Huniq.
  { intros k e' (_ & H & Hsuf). apply tuple_index_digits in H as (He' & Hall' & _); [|lia].
    eapply (run_extent (text s) is_ascii_digit a); [lia|lia|lia|exact Hall'|exact Hall| |exact Hstop].
    apply suffix_not_digit in Hsuf as (Hsuf & _). revert Hsuf. unfold byte_is.
    destruct (get (text s) e'); [|done]. by intros [? _]%orb_false_iff. }
  destruct (negb _ || _) eqn:E.
  - eapply returns_mono; [apply make_invalid_numeric_rejected; [done|lia]|]. intros scan Hscan. right. split; [done|].
    intros k e' Hw. pose proof (Huniq _ _ Hw) as ->. destruct Hw as (_ & Hw & Hsuf). apply tuple_index_digits in Hw as (_ & _ & Hv); [|lia].
    by rewrite Hv, Hsuf in E.
  - apply orb_false_iff in E as [Hv%negb_false_iff Hsuf].
    rewrite text_size_from_usize_ok by (apply (cursor_u32 s); lia). cbn [outcome_bind].
    eapply returns_mono; [apply accept_token; [done|lia]|]. intros scan Hscan. left.
    exists TupleElementIndexToken, e. split; [|done]. split_and!; [done| |done].
    apply tuple_index_digits; [lia|]. by split_and!; [lia|lia|..].
Qed.

(** What an invalid quoted token says. *)
Lemma make_invalid_character_rejected a e :
  boundary (text s) a -> get (text s) a = Some APOSTROPHE ->
  returns (make_invalid_character_literal_token (B := B) s a e) (rejected s a).
Proof using All.
  intros Ha Hg. unfold make_invalid_character_literal_token.
  eapply returns_bind; [apply (quoted_literal_recovery_end_ok s); [lia|lia|done|by left]|]. intros i [Hi Hai].
  unfold TextRange_new. destruct (a <=? i) eqn:E; [|lia]. cbn [assert_ outcome_bind].
  apply reject_token; [done|]. by destruct e as [| |[c|]|].
Qed.

Lemma make_invalid_string_rejected a e :
  boundary (text s) a -> quoted_start s a QUOTE ->
  returns (make_invalid_string_literal_token (B := B) s a e) (rejected s a).
Proof using All.
  intros Ha Hs. unfold make_invalid_string_literal_token.
  eapply returns_bind; [apply (quoted_literal_recovery_end_ok s); [lia|lia|done|done]|]. intros i [Hi Hai].
  unfold TextRange_new. destruct (a <=? i) eqn:E; [|lia]. cbn [assert_ outcome_bind].
  apply reject_token; [done|]. by destruct e as [|[c|]|].
Qed.

(** The body of a character literal is one item. *)
Lemma character_body_exact i :
  boundary (text s) i -> 0 <= i ->
  returns (scan_character_literal_body s i) (fun r =>
    match r with
    | BodyValid e => item_at (text s) EscapeCharacter APOSTROPHE i e
    | BodyInvalid _ => forall e, ~ item_at (text s) EscapeCharacter APOSTROPHE i e
    end).
Proof using WfSnapshot0.
  intros Hi Hpos. unfold scan_character_literal_body.
  destruct (get (text s) i) as [b|] eqn:Hg.
  2: { apply returns_ret. apply get_None in Hg as [Hg|Hg]; [lia|].
       intros e [c Hc _ _ _|e' Hc _]; by rewrite zdrop_all in Hc by lia. }
  destruct (b =? BACKSLASH) eqn:E1.
  { apply Z.eqb_eq in E1 as ->. destruct (ascii_step s _ _ Hg ltac:(lia)) as [_ Hn].
    eapply returns_bind; [by apply (scan_escape_sequence_exact s)|].
    intros [e|[|c|]] He; apply returns_ret; setoid_rewrite escape_item_exact; done. }
  destruct (scalar_item_exact s EscapeCharacter APOSTROPHE i b Hi Hg ltac:(lia) ltac:(lia)) as [Hno Hyes].
  destruct (b =? APOSTROPHE) eqn:E2; [apply returns_ret, Hno; left; lia|].
  destruct (is_line_end b) eqn:E3; [apply returns_ret, Hno; by right|].
  destruct Hyes as (n & -> & Hascii & Hitem); [lia|done|].
  destruct (is_ascii b); apply returns_ret; [|done]. by rewrite Hascii in Hitem.
Qed.

Lemma scan_character_literal_exact a :
  boundary (text s) a -> get (text s) a = Some APOSTROPHE ->
  returns (scan_character_literal (B := B) s a) (scans_exactly s a (character_word (text s) a)).
Proof using All.
  intros Ha Hg. pose proof (boundary_range _ _ Ha). unfold scan_character_literal.
  rewrite text_size_to_usize_ok by by apply (boundary_u32 s). cbn [outcome_bind].
  destruct (ascii_step s _ _ Hg ltac:(lia)) as [_ Hn].
  assert (forall err, (forall k e, ~ character_word (text s) a k e) ->
    returns (make_invalid_character_literal_token (B := B) s a err) (scans_exactly s a (character_word (text s) a))) as Hfail.
  { intros err Hno. eapply returns_mono; [by apply make_invalid_character_rejected|]. intros scan Hscan. by right. }
  eapply returns_bind; [apply character_body_exact; [done|lia]|]. intros [e|err] He.
  2: { apply Hfail. intros k e (_ & _ & m & Hm & _). by eapply He. }
  pose proof (item_at_progress _ _ _ _ _ He) as Hae.
  assert (get (text s) e <> Some APOSTROPHE -> forall k e, ~ character_word (text s) a k e) as Hno.
  { intros Hne k e' (_ & _ & m & Hm & Hq & _). assert (m = e) as -> by (eapply item_at_det; [|done..]; lia). done. }
  destruct (get (text s) e) as [b|] eqn:Hgb; [|by apply Hfail, Hno].
  destruct (b =? APOSTROPHE) eqn:Eb.
  - apply Z.eqb_eq in Eb as ->. destruct (ascii_step s _ _ Hgb ltac:(lia)) as [_ Hn'].
    rewrite text_size_from_usize_ok by by apply (boundary_u32 s). cbn [outcome_bind].
    eapply returns_mono; [apply accept_token; [done|lia]|]. intros scan Hscan. left.
    exists CharacterLiteralToken, (e + 1). split; [|done]. by split_and!; [..|exists e].
  - apply Z.eqb_neq in Eb. destruct (is_line_end b); by apply Hfail, Hno; intros [= ->].
Qed.
(** A run of items that stops short of a closing quote is no literal. *)
Lemma string_stuck a (byte_string : bool) i :
  0 <= a ->
  rtc (item_at (text s) (if byte_string then EscapeByteString else EscapeString) QUOTE)
    (a + 1 + if byte_string then 1 else 0) i ->
  (forall e, ~ item_at (text s) (if byte_string then EscapeByteString else EscapeString) QUOTE i e) ->
  get (text s) i <> Some QUOTE -> forall k e, ~ string_word (text s) a byte_string k e.
Proof using WfSnapshot0.
  intros Ha Hrun Hstuck Hq k e (_ & m & Hm & Hg & _).
  enough (i = m) as -> by done. eapply (items_end_unique s); [|exact Hrun|done|exact Hm|].
  - destruct byte_string; lia.
  - intros e'. apply (quote_no_item s); [lia|lia|done].
Qed.

(** One iteration before the closing quote reads an item, or fails where there
    is none. *)
Lemma string_step_cases a (byte_string : bool) i (mode := if byte_string then EscapeByteString else EscapeString) :
  boundary (text s) i -> get (text s) i <> Some QUOTE ->
  (exists j, string_step (B := B) s a byte_string i = continue_ j /\
     boundary (text s) j /\ item_at (text s) mode QUOTE i j) \/
  (exists err, string_step (B := B) s a byte_string i =
     (let! scan := make_invalid_string_literal_token s a err in break_ scan) /\
     forall e, ~ item_at (text s) mode QUOTE i e).
Proof using All.
  intros Hi Hnq. pose proof (boundary_range _ _ Hi). unfold string_step. fold mode.
  destruct (get (text s) i) as [b|] eqn:Hg.
  2: { right. eexists. split; [done|]. apply get_None in Hg as [Hg|Hg]; [lia|].
       intros e [c Hc _ _ _|e' Hc _]; by rewrite zdrop_all in Hc by lia. }
  pose proof (get_Some_range _ _ _ Hg). destruct (b =? QUOTE) eqn:E1; [apply Z.eqb_eq in E1 as ->; done|].
  apply Z.eqb_neq in E1. destruct (b =? BACKSLASH) eqn:E2.
  { apply Z.eqb_eq in E2 as ->. destruct (ascii_step s _ _ Hg ltac:(lia)) as [_ Hn].
    change (is_line_end BACKSLASH) with false. cbn iota.
    destruct (scan_escape_sequence_ok s i mode Hn ltac:(lia) ltac:(lia)) as (r & Hr & Hb).
    destruct (scan_escape_sequence_exact s i mode Hn ltac:(lia)) as (r' & Hr' & Hx).
    rewrite Hr in Hr' |- *. injection Hr' as <-. cbn [outcome_bind].
    assert (forall e, item_at (text s) mode QUOTE i e <-> escape_at (text s) mode i e) as Hiff
      by (intros e; by apply escape_item_exact).
    destruct r as [e|[|c|]]; [left; exists e; rewrite Hiff; by destruct Hb|..];
      right; eexists; (split; [done|]); intros e He%Hiff; by eapply Hx. }
  destruct (scalar_item_exact s mode QUOTE i b Hi Hg ltac:(lia) ltac:(lia)) as [Hno Hyes].
  destruct (is_line_end b) eqn:E3; [right; eexists; split; [done|apply Hno; by right]|].
  destruct Hyes as (n & Hlen & Hascii & Hitem); [done|done|]. left. exists (i + n).
  split; [|split; [by apply character_len_at_Some|done]].
  rewrite Hlen. destruct (is_ascii b); [by rewrite Hascii|done].
Qed.

Lemma scan_string_literal_exact a (byte_string : bool) :
  boundary (text s) a ->
  (if byte_string then get (text s) a = Some 98 /\ get (text s) (a + 1) = Some QUOTE
   else get (text s) a = Some QUOTE) ->
  returns (scan_string_literal (B := B) s a byte_string) (scans_exactly s a (string_word (text s) a byte_string)).
Proof using All.
  intros Ha Hopen. assert (quoted_start s a QUOTE) as Hq
    by (destruct byte_string; [right; by destruct Hopen|by left]).
  pose proof (boundary_range _ _ Ha). unfold scan_string_literal.
  rewrite text_size_to_usize_ok by by apply (boundary_u32 s). cbn [outcome_bind].
  set (from := a + 1 + (if byte_string then 1 else 0)).
  assert (boundary (text s) from /\ a < from) as [Hstart Hlt].
  { subst from. destruct byte_string; [destruct Hopen as [_ Hopen]|rewrite Z.add_0_r];
      (split; [apply (ascii_step s _ _ Hopen); lia|lia]). }
  set (mode := if byte_string then EscapeByteString else EscapeString).
  eapply (loop_rule (fun i => boundary (text s) i /\ a < i /\ rtc (item_at (text s) mode QUOTE) from i) (remaining s));
    [|split_and!; [done|lia|apply rtc_refl]|apply (remaining_fuel s); lia].
  intros i (Hi & Hai & Hrun). destruct (decide (get (text s) i = Some QUOTE)) as [Hg|Hnq].
  { unfold string_step. rewrite Hg. destruct (ascii_step s _ _ Hg ltac:(lia)) as [_ Hn]. change (QUOTE =? QUOTE) with true.
    cbn iota. rewrite text_size_from_usize_ok by by apply (boundary_u32 s). cbn [outcome_bind].
    rewrite make_token_plain; [|by destruct byte_string|lia]. apply returns_ret. left.
    eexists _, (i + 1). split; [|split; [reflexivity|apply clean_result]]. split; [done|]. by exists i. }
  destruct (string_step_cases a byte_string i Hi Hnq) as [(j & -> & Hj & Hitem)|(err & -> & Hstuck)].
  - apply returns_ret. pose proof (item_at_progress _ _ _ _ _ Hitem). pose proof (boundary_range _ _ Hj).
    split_and!; [done|lia|by eapply rtc_r|apply remaining_step; lia].
  - eapply returns_bind; [by apply make_invalid_string_rejected|].
    intros scan Hscan. apply returns_ret. right. split; [done|]. apply (string_stuck a byte_string i); [lia|done..].
Qed.
End tokens.

(** ** The guarantees *)

(** C32.  Numeric literals: from a digit, the scan accepts the one literal of the
    grammar that is there and ends where no letter, digit, underscore or
    fraction follows (decimal, binary and hexadecimal integers, reals with
    fraction and exponent, and any of them with the imaginary suffix), with its
    kind and extent; when there is none, it yields an invalid token with one
    error at its range. *)
Theorem numeric_literal_exact {B} `{!DiagnosticSink B, !DiagnosticSinkLaws B} s a :
  WfSnapshot s -> boundary (text s) a -> byte_is (get (text s) a) is_ascii_digit = true ->
  returns (scan_numeric_literal (B := B) s a) (scans_exactly s a (numeric_word (text s) a)).
Proof.
  intros Hwf Ha Hd. apply (scan_numeric_literal_exact s); [done|]. unfold byte_is in Hd.
  destruct (get (text s) a) as [b|] eqn:Hg; [|done]. apply get_Some_range in Hg. lia.
Qed.

(** Tuple element indices: from a digit, the scan accepts [0] or a run of
    digits without a leading zero that no letter, digit or underscore follows,
    and rejects everything else with one error. *)
Theorem tuple_index_exact {B} `{!DiagnosticSink B, !DiagnosticSinkLaws B} s a :
  WfSnapshot s -> boundary (text s) a -> byte_is (get (text s) a) is_ascii_digit = true ->
  returns (scan_tuple_element_index_token (B := B) s a) (scans_exactly s a (tuple_index_word (text s) a)).
Proof. intros Hwf. by apply scan_tuple_index_exact. Qed.

(** Character literals: the scan accepts exactly one scalar value or
    character escape between apostrophes, and yields an invalid token with one
    error when the apostrophe opens no such literal. *)
Theorem character_literal_exact {B} `{!DiagnosticSink B, !DiagnosticSinkLaws B} s a :
  WfSnapshot s -> boundary (text s) a -> get (text s) a = Some APOSTROPHE ->
  returns (scan_character_literal (B := B) s a) (scans_exactly s a (character_word (text s) a)).
Proof. intros Hwf. by apply scan_character_literal_exact. Qed.

(** C33.  String and byte-string literals: the scan accepts exactly the scalar
    values and escapes (byte escapes in byte strings only) up to the first
    unescaped quote, and yields an invalid token with one error when the
    opening quote opens no such literal. *)
Theorem string_literal_exact {B} `{!DiagnosticSink B, !DiagnosticSinkLaws B} s a (byte_string : bool) :
  WfSnapshot s -> boundary (text s) a ->
  (if byte_string then get (text s) a = Some 98 /\ get (text s) (a + 1) = Some QUOTE
   else get (text s) a = Some QUOTE) ->
  returns (scan_string_literal (B := B) s a byte_string) (scans_exactly s a (string_word (text s) a byte_string)).
Proof. intros Hwf. by apply scan_string_literal_exact. Qed.

(** Concrete texts. *)
Definition numeric_sample : SourceSnapshot := unit_snapshot (lit "1_0.5e-3i+").
Definition index_sample : SourceSnapshot := unit_snapshot (lit "01.2").
Definition character_sample : SourceSnapshot := unit_snapshot (lit "'\u{41}';").
Definition string_sample : SourceSnapshot := unit_snapshot ([98; QUOTE] ++ lit "\xfF\n" ++ [QUOTE]).

Lemma numeric_literal_exact_witness :
  exists scan : TokenScan Bag, scan_numeric_literal numeric_sample 0 = Ret scan /\
    accepted 0 ImaginaryLiteralToken 9 scan /\ scans_exactly numeric_sample 0 (numeric_word (text numeric_sample) 0) scan.
Proof.
  assert (WfSnapshot numeric_sample) as Hwf by by apply ascii_snapshot_wf.
  destruct (numeric_literal_exact (B := Bag) numeric_sample 0 Hwf) as (scan & Hs & Hx);
    [apply boundary_0, Hwf|reflexivity|].
  exists scan. split; [done|]. split; [|done]. vm_compute in Hs. injection Hs as <-. by split.
Defined.



Lemma string_literal_exact_witness :
  exists scan : TokenScan Bag, scan_string_literal string_sample 0 true = Ret scan /\
    accepted 0 ByteStringLiteralToken 9 scan /\ scans_exactly string_sample 0 (string_word (text string_sample) 0 true) scan.
Proof.
  assert (WfSnapshot string_sample) as Hwf by by apply ascii_snapshot_wf.
  destruct (string_literal_exact (B := Bag) string_sample 0 true Hwf) as (scan & Hs & Hx);
    [apply boundary_0, Hwf|by split|].
  exists scan. split; [done|]. split; [|done]. vm_compute in Hs. injection Hs as <-. by split.
Defined.
