(* ===== verification/CommentGrammar.v ===== *)
(** * The grammar of block comments

    The nested block comments of [src/docs/language/lexical-grammar.md] as a
    mutual inductive definition over positions of a text.  The depth-counting
    loop of [scan_block_comment_trivia] reads exactly these comments. *)

From Stdlib Require Import ZArith Lia String.
From stdpp Require Import base list numbers option.
From S2P Require Import Prelude Utf8 SourceText Snapshot SyntaxKind SyntaxToken.
From S2P Require Import DiagnosticKind Diagnostic DiagnosticBag LexText LexTrivia LexScanner.

(** ** The grammar *)

Definition opens_at (t : list u8) (i : Z) : Prop := get t i = Some SLASH /\ get t (i + 1) = Some STAR.
Definition ends_at (t : list u8) (i : Z) : Prop := get t i = Some STAR /\ get t (i + 1) = Some SLASH.

(** [block-comment] and [{ block-comment-item }], from one position to another. *)
Inductive comment_at (t : list u8) : Z -> Z -> Prop :=
| block_comment i m :
    opens_at t i -> items_at t (i + 2) m -> ends_at t m -> comment_at t i (m + 2)
with items_at (t : list u8) : Z -> Z -> Prop :=
| items_nil i : items_at t i i
| items_comment i j m : comment_at t i j -> items_at t j m -> items_at t i m
| items_scalar i c m :
    first_char (zdrop i t) = Some c -> ~ opens_at t i -> ~ ends_at t i ->
    items_at t (i + len_utf8 c) m -> items_at t i m.

Scheme comment_at_mut := Induction for comment_at Sort Prop
with items_at_mut := Induction for items_at Sort Prop.

(** ** Reading with a depth *)

(** From [i], inside [n] comments, the outermost one closes at [e]. *)
Inductive closes (t : list u8) : Z -> nat -> Z -> Prop :=
| closes_last i : ends_at t i -> closes t i 1 (i + 2)
| closes_inner i n e : ends_at t i -> closes t (i + 2) (S n) e -> closes t i (S (S n)) e
| closes_open i n e : opens_at t i -> closes t (i + 2) (S (S n)) e -> closes t i (S n) e
| closes_scalar i c n e :
    first_char (zdrop i t) = Some c -> ~ opens_at t i -> ~ ends_at t i ->
    closes t (i + len_utf8 c) n e -> closes t i n e.

(** From [i], inside [n] comments, reading arrives at [j] inside [m] comments. *)
Inductive inside (t : list u8) : Z -> nat -> Z -> nat -> Prop :=
| inside_here i n : inside t i n i n
| inside_end i n j m : ends_at t i -> inside t (i + 2) (S n) j m -> inside t i (S (S n)) j m
| inside_open i n j m : opens_at t i -> inside t (i + 2) (S (S n)) j m -> inside t i (S n) j m
| inside_scalar i c n j m :
    first_char (zdrop i t) = Some c -> ~ opens_at t i -> ~ ends_at t i ->
    inside t (i + len_utf8 c) n j m -> inside t i n j m.

(** The same reading, as the items that remain on each level. *)
Inductive levels (t : list u8) : Z -> nat -> Z -> Prop :=
| levels_last i m : items_at t i m -> ends_at t m -> levels t i 1 (m + 2)
| levels_inner i m n e : items_at t i m -> ends_at t m -> levels t (m + 2) (S n) e -> levels t i (S (S n)) e.

Section grammar.
Context (t : list u8).

Lemma open_not_end i : opens_at t i -> ~ ends_at t i.
Proof using. intros [H _] [H' _]. rewrite H in H'. done. Qed.

Lemma items_closes :
  (forall i e, comment_at t i e -> forall n e', closes t e (S n) e' -> closes t i (S n) e') /\
  (forall i m, items_at t i m -> forall n e', closes t m (S n) e' -> closes t i (S n) e').
Proof using.
  assert (forall i e (H : comment_at t i e), forall n e', closes t e (S n) e' -> closes t i (S n) e') as Hc.
  { apply (comment_at_mut t (fun i e _ => forall n e', closes t e (S n) e' -> closes t i (S n) e')
      (fun i m _ => forall n e', closes t m (S n) e' -> closes t i (S n) e')); try done.
    - intros i m Ho _ IH He n e' H. apply closes_open; [done|]. apply IH. by apply closes_inner.
    - intros i j m _ IHc _ IHi n e' H. by apply IHc, IHi.
    - intros i c m Hf Ho He _ IH n e' H. eapply closes_scalar; [done..|]. by apply IH. }
  split; [done|]. induction 1 as [i|i j m H1 H2 IH|i c m Hf Ho He H IH]; intros n e' Hcl; [done|..].
  - by apply (Hc _ _ H1), IH.
  - eapply closes_scalar; [done..|]. by apply IH.
Qed.

Lemma levels_extend i n e :
  levels t i n e -> forall j, (forall m, items_at t i m -> items_at t j m) -> levels t j n e.
Proof using. intros [i' m Hi He|i' m n' e' Hi He Hl] j Hj; econstructor; eauto. Qed.

Lemma closes_levels i n e : closes t i n e -> levels t i n e.
Proof using.
  induction 1 as [i He|i n e He H IH|i n e Ho H IH|i c n e Hf Ho He H IH].
  - apply levels_last; [constructor|done].
  - eapply levels_inner; [constructor|done|done].
  - inversion IH as [|i' m n' e' Hi He Hl]; subst.
    eapply levels_extend; [exact Hl|]. intros m' Hm'. eapply items_comment; [by eapply block_comment|done].
  - eapply levels_extend; [exact IH|]. intros m Hm. by eapply items_scalar.
Qed.
(** A comment is an opening whose depth returns to zero. *)
Lemma comment_closes i e : comment_at t i e <-> opens_at t i /\ closes t (i + 2) 1 e.
Proof using.
  split.
  - intros [i' m Ho Hi He]. split; [done|]. apply (proj2 items_closes _ _ Hi). by apply closes_last.
  - intros [Ho H%closes_levels]. inversion H; subst. by apply block_comment.
Qed.

(** What follows from the bytes at [i]. *)
Lemma closes_at_end i n e :
  ends_at t i -> closes t i n e <-> (n = 1%nat /\ e = i + 2) \/ (exists n', n = S (S n') /\ closes t (i + 2) (S n') e).
Proof using.
  intros He. split.
  - inversion 1 as [i' He'|i' n' e' He' H'|i' n' e' Ho H'|]; subst; [by left|right; by eauto| |done].
    by destruct (open_not_end _ Ho).
  - intros [[-> ->]|(n' & -> & H)]; [by apply closes_last|by apply closes_inner].
Qed.

Lemma closes_at_open i n e : opens_at t i -> closes t i (S n) e <-> closes t (i + 2) (S (S n)) e.
Proof using.
  intros Ho. split; [|by apply closes_open]. pose proof (open_not_end _ Ho).
  inversion 1; subst; done.
Qed.

Lemma closes_at_scalar i c n e :
  first_char (zdrop i t) = Some c -> ~ opens_at t i -> ~ ends_at t i ->
  closes t i n e <-> closes t (i + len_utf8 c) n e.
Proof using.
  intros Hf Ho He. split; [|by apply closes_scalar]. inversion 1; subst; try done. by simplify_eq.
Qed.

Lemma inside_trans i n j m k l : inside t i n j m -> inside t j m k l -> inside t i n k l.
Proof using. induction 1; eauto using inside. Qed.

(** A comment closes from wherever its reading arrives. *)
Lemma inside_closes i n j m e : inside t i n j m -> closes t i n e <-> closes t j m e.
Proof using.
  induction 1 as [i n|i n j m He H IH|i n j m Ho H IH|i c n j m Hf Ho He H IH]; [done|..]; rewrite <- IH.
  - rewrite closes_at_end by done. naive_solver.
  - by apply closes_at_open.
  - by apply closes_at_scalar.
Qed.

Lemma closes_at_eof i n e : zlen t <= i -> 0 <= i -> ~ closes t i n e.
Proof using.
  intros Hi H0 H. destruct H as [i [He _]|i n e [He _] _|i n e [Ho _] _|i c n e Hf _ _ _];
    try (by apply get_Some_range in He; lia); try (by apply get_Some_range in Ho; lia).
  by rewrite zdrop_all in Hf.
Qed.
End grammar.

(** ** The loop *)

Section scan.
Context {B : Type} `{!DiagnosticSink B, !DiagnosticSinkLaws B}.
Context (s : SourceSnapshot) `{!WfSnapshot s}.

(** The loop from the opening at [a] is where reading arrives, and each level of
    nesting took two bytes, so the depth fits. *)
Definition reading (a : Z) (st : Z * Z * bool) : Prop :=
  exists n, boundary (text s) st.1.1 /\ a < st.1.1 /\ st.1.2 = Z.of_nat (S n) /\ 2 * st.1.2 <= st.1.1 /\
    inside (text s) (a + 2) 1 st.1.1 (S n).

Definition read (a : Z) (st : Z * Z * bool) : Prop :=
  boundary (text s) st.1.1 /\ a < st.1.1 /\
  ((st.1.2 = 0 /\ forall e, closes (text s) (a + 2) 1 e <-> e = st.1.1) \/
   (st.1.1 = zlen (text s) /\ reading a st)).

(** Moving on to [j], inside [n'] + 1 comments. *)
Lemma reading_next a i n j n' lb :
  i < zlen (text s) -> a < i -> i < j -> boundary (text s) j -> 2 * Z.of_nat (S n') <= j ->
  inside (text s) (a + 2) 1 i (S n) -> inside (text s) i (S n) j (S n') ->
  reading a (j, Z.of_nat (S n'), lb) /\ (remaining s j < remaining s i)%nat.
Proof using.
  intros Hi Hai Hij Hj Hd H1 H2. split; [|apply remaining_step; lia]. exists n'. cbn [fst snd].
  split_and!; [done|lia|done|done|]. by eapply inside_trans.
Qed.

(** A scalar that opens and closes nothing. *)
Lemma scalar_closes i b :
  boundary (text s) i -> get (text s) i = Some b -> ~ opens_at (text s) i -> ~ ends_at (text s) i ->
  exists n, character_len_at s i = Some n /\ 0 < n /\ boundary (text s) (i + n) /\ (b < 128 -> n = 1) /\
    forall k, inside (text s) i k (i + n) k.
Proof using.
  intros Hi Hg Ho He. destruct (boundary_first _ _ _ Hi Hg) as (c & Hc & _ & Hn & H1 & _).
  exists (len_utf8 c). unfold character_len_at. rewrite str_get_from_boundary, Hc by done.
  pose proof (len_utf8_range c). split_and!; [done|lia|done| |].
  - intros Hb. rewrite (H1 Hb). unfold len_utf8. by destruct (b <? 128) eqn:E; [|lia].
  - intros k. eapply inside_scalar; [done..|constructor].
Qed.

Lemma plain_byte i b : get (text s) i = Some b -> b <> SLASH -> b <> STAR ->
  ~ opens_at (text s) i /\ ~ ends_at (text s) i.
Proof using. intros Hg H1 H2. split; intros [H _]; congruence. Qed.

Lemma block_comment_step_exact a st :
  reading a st ->
  returns (block_comment_step s st) (fun step =>
    match step with
    | inl st' => reading a st' /\ (remaining s st'.1.1 < remaining s st.1.1)%nat
    | inr st' => read a st'
    end).
Proof using All.
  destruct st as [[i depth] lb]. intros (n & Hi & Hai & Hdepth & Hd & Heq).
  cbn [fst snd] in *. subst depth.
  pose proof (boundary_range _ _ Hi). pose proof (wf_fits (s := s)).
  unfold block_comment_step. destruct (i <? zlen (text s)) eqn:Elt; cbn [negb].
  2: { apply returns_ret. split_and!; [done|done|right]. cbn [fst snd]. split; [lia|]. exists n. cbn [fst snd]. by split_and!. }
  assert (i < zlen (text s)) as Hlt by lia. destruct (get_is_Some (text s) i ltac:(lia)) as [b Hb].
  destruct (bool_decide (get (text s) i = Some LF)) eqn:E1.
  { rewrite bool_decide_eq_true in E1. destruct (plain_byte _ _ E1) as [Ho He]; [done..|].
    destruct (scalar_closes i _ Hi E1 Ho He) as (k & _ & _ & Hbk & Hk & Hcl). rewrite Hk in * by done.
    apply returns_ret; cbn [fst snd]; apply (reading_next a i n); [lia..|done|lia|done|done]. }
  destruct (bool_decide (get (text s) i = Some CR) && _) eqn:E2.
  { rewrite andb_true_iff, !bool_decide_eq_true in E2. destruct E2 as [E2 E2'].
    destruct (plain_byte _ _ E2) as [Ho He]; [done..|]. destruct (plain_byte _ _ E2') as [Ho' He']; [done..|].
    destruct (scalar_closes i _ Hi E2 Ho He) as (k & _ & _ & Hbk & Hk & Hcl). rewrite Hk in * by done.
    destruct (scalar_closes (i + 1) _ Hbk E2' Ho' He') as (k' & _ & _ & Hbk' & Hk' & Hcl'). rewrite Hk' in * by done.
    replace (i + 1 + 1) with (i + 2) in * by lia.
    apply returns_ret; cbn [fst snd]; apply (reading_next a i n); [lia..|done|lia|done|]. by eapply inside_trans. }
  destruct (bool_decide (get (text s) i = Some SLASH) && _) eqn:E3.
  { rewrite andb_true_iff, !bool_decide_eq_true in E3. destruct E3 as [E3 E3'].
    destruct (ascii_step2 s _ _ _ E3 ltac:(lia) E3' ltac:(lia)) as [Hn _].
    unfold u32_checked_add. rewrite checked_ok by lia. cbn [expect outcome_bind].
    replace (Z.of_nat (S n) + 1) with (Z.of_nat (S (S n))) by lia.
    apply returns_ret; cbn [fst snd]; apply (reading_next a i n); [lia..|done|lia|done|]. apply inside_open; [done|constructor]. }
  rewrite andb_false_iff, !bool_decide_eq_false in E3.
  destruct (bool_decide (get (text s) i = Some STAR) && _) eqn:E4.
  { rewrite andb_true_iff, !bool_decide_eq_true in E4. destruct E4 as [E4 E4'].
    destruct (ascii_step2 s _ _ _ E4 ltac:(lia) E4' ltac:(lia)) as [Hn _].
    pose proof (closes_at_end (text s) i (S n)) as Hcl.
    rewrite checked_ok by lia. cbn [expect outcome_bind]. destruct (Z.of_nat (S n) - 1 =? 0) eqn:Ed; apply returns_ret.
    - apply Z.eqb_eq in Ed. assert (n = 0%nat) as -> by lia. split_and!; cbn [fst snd]; [done|lia|left; split; [lia|]].
      intros e. rewrite (inside_closes _ _ _ _ _ e Heq), Hcl by done. naive_solver.
    - destruct n as [|n]; [done|]. replace (Z.of_nat (S (S n)) - 1) with (Z.of_nat (S n)) by lia.
      cbn [fst snd]. apply (reading_next a i (S n)); [lia..|done|lia|done|]. apply inside_end; [done|constructor]. }
  rewrite andb_false_iff, !bool_decide_eq_false in E4.
  destruct (scalar_closes i _ Hi Hb) as (k & Hlen & Hk & Hbk & _ & Hcl); [unfold opens_at; tauto|unfold ends_at; tauto|].
  rewrite text_size_from_usize_ok by by apply (boundary_u32 s). cbn [outcome_bind].
  unfold next_utf8_character_len. rewrite text_size_to_usize_ok by by apply (boundary_u32 s). cbn [outcome_bind].
  rewrite Hlen. cbn [outcome_bind]. apply returns_ret; cbn [fst snd]; apply (reading_next a i n); [lia..|done|lia|done|done].
Qed.
Lemma block_comment_loop_exact a :
  boundary (text s) (a + 2) -> 0 <= a ->
  returns (loop (text_fuel s) (block_comment_step s) (a + 2, 1, false)) (read a).
Proof using All.
  intros Hb Ha. eapply (loop_rule (reading a) (fun st => remaining s st.1.1));
    [exact (block_comment_step_exact a)| |apply (remaining_fuel s); simpl; lia].
  exists 0%nat. cbn [fst snd]. split_and!; [done|lia|done|lia|constructor].
Qed.

(** The kind of the comment at [a]. *)
Definition block_comment_kind (a : Z) : SyntaxKind :=
  if decide (get (text s) (a + 2) = Some STAR) then DocumentationBlockCommentTrivia else BlockCommentTrivia.

Lemma documentation_prefix a :
  opens_at (text s) a ->
  (if starts_with (zdrop a (text s)) (lit "/**") then DocumentationBlockCommentTrivia else BlockCommentTrivia) =
  block_comment_kind a.
Proof using.
  intros [H1 H2]. unfold block_comment_kind. rewrite (zdrop_cons_get _ _ _ H1), (zdrop_cons_get _ _ _ H2).
  replace (a + 1 + 1) with (a + 2) by lia. destruct (get (text s) (a + 2)) as [b|] eqn:Hb.
  - rewrite (zdrop_cons_get _ _ _ Hb). destruct (decide (Some b = Some STAR)) as [[= ->]|Hne]; [done|].
    destruct (starts_with _ _) eqn:E; [|done]. exfalso. apply Hne. cbn in E. rewrite andb_true_r in E.
    by apply Z.eqb_eq in E as <-.
  - apply get_None in Hb. pose proof (get_Some_range _ _ _ H1). by rewrite zdrop_all by lia.
Qed.

(** The comment item at [a]: closed where the grammar closes it, or open to the
    end of the text with one error. *)
Definition block_comment_read (a : Z) (item : TriviaItem B) : Prop :=
  item_trivia item = {| trivia_kind := block_comment_kind a;
                        trivia_range := {| start := a; end_ := SyntaxTrivia_end (item_trivia item) |} |} /\
  ((sink_contents (item_diagnostics item) = [] /\
    forall e, comment_at (text s) a e <-> e = SyntaxTrivia_end (item_trivia item)) \/
   ((exists d, sink_contents (item_diagnostics item) = [d] /\ error_at s (trivia_range (item_trivia item)) d) /\
    SyntaxTrivia_end (item_trivia item) = zlen (text s) /\ forall e, ~ comment_at (text s) a e)).

(** The same with the diagnostic in full: what it is and where reading arrived. *)
Definition block_comment_item (a : Z) (item : TriviaItem B) : Prop :=
  item_trivia item = {| trivia_kind := block_comment_kind a;
                        trivia_range := {| start := a; end_ := SyntaxTrivia_end (item_trivia item) |} |} /\
  ((sink_contents (item_diagnostics item) = [] /\
    forall e, comment_at (text s) a e <-> e = SyntaxTrivia_end (item_trivia item)) \/
   (exists n, SyntaxTrivia_end (item_trivia item) = zlen (text s) /\
      sink_contents (item_diagnostics item) = [unterminated_block_comment s (trivia_range (item_trivia item)) (Z.of_nat (S n))] /\
      2 * Z.of_nat (S n) <= zlen (text s) /\ inside (text s) (a + 2) 1 (zlen (text s)) (S n))).

Lemma scan_block_comment_item a :
  boundary (text s) a -> opens_at (text s) a ->
  returns (scan_block_comment_trivia (B := B) s a) (block_comment_item a).
Proof using All.
  intros Hb Ho. pose proof Ho as [Hg1 Hg2]. pose proof (boundary_range _ _ Hb).
  destruct (ascii_step2 s _ _ _ Hg1 ltac:(lia) Hg2 ltac:(lia)) as [Hn _].
  unfold scan_block_comment_trivia. rewrite text_size_to_usize_ok by by apply (boundary_u32 s).
  cbn [outcome_bind]. eapply returns_bind; [apply block_comment_loop_exact; [done|lia]|].
  intros [[i depth] lb] (Hi & Hai & Hread). cbn [fst snd] in *.
  rewrite (lex_starts_with_ok s) by done. cbn [outcome_bind]. rewrite documentation_prefix by done.
  rewrite text_size_from_usize_ok by by apply (boundary_u32 s). cbn [outcome_bind].
  assert (is_trivia (block_comment_kind a) = true) as Hk by (unfold block_comment_kind; by case_decide).
  eapply returns_bind; [by apply (make_trivia_item_ok s)|].
  intros item ([_ _ _ _ Hsink _] & Ht & _ & Hd). pose proof sink_new_spec as [_ Hnew].
  destruct Hread as [[-> Hcl]|(-> & n & _ & _ & Hdepth & Hd2 & Hin)]; cbn [fst snd] in *.
  - change (0 =? 0) with true. apply returns_ret. unfold block_comment_item. rewrite Ht, Hd, Hnew. split; [done|].
    left. split; [done|]. intros e. rewrite comment_closes, Hcl. tauto.
  - subst depth. destruct (Z.of_nat (S n) =? 0) eqn:Ed; [by discriminate Ed|]. unfold TextRange_new. destruct (a <=? _) eqn:E; [|lia]. cbn [assert_ outcome_bind].
    apply returns_ret. unfold block_comment_item. cbn [item_trivia item_diagnostics]. rewrite Ht. split; [done|]. right.
    exists n. rewrite (proj2 (sink_add_spec _ _ Hsink)), Hd, Hnew. by split_and!.
Qed.

(** Where reading arrives at the end of the text, no comment closes. *)
Lemma inside_unclosed a n : inside (text s) (a + 2) 1 (zlen (text s)) n -> forall e, ~ comment_at (text s) a e.
Proof using. intros Hin e [_ He]%comment_closes. rewrite (inside_closes _ _ _ _ _ e Hin) in He. apply closes_at_eof in He; [done|lia|apply zlen_nonneg]. Qed.

Lemma scan_block_comment_exact a :
  boundary (text s) a -> opens_at (text s) a ->
  returns (scan_block_comment_trivia (B := B) s a) (block_comment_read a).
Proof using All.
  intros Hb Ho. eapply returns_mono; [by apply scan_block_comment_item|]. intros item (Ht & [?|(n & He & Hd & _ & Hin)]); (split; [done|]); [by left|right].
  rewrite Hd. split_and!; [by eexists|done|]. by eapply inside_unclosed.
Qed.
End scan.

(** ** The guarantees *)


(** The text [/*a/**/*/*]. *)
Definition comment_sample : SourceSnapshot := unit_snapshot (lit "/*a/**/*/*").


(** [documentation-block-comment]: a second star, items, and the end. *)
Definition documentation_comment_at (t : list u8) (i e : Z) : Prop :=
  opens_at t i /\ get t (i + 2) = Some STAR /\
  exists m, items_at t (i + 3) m /\ ends_at t m /\ e = m + 2.

Lemma items_forward t i m : items_at t i m -> i <= m.
Proof.
  apply (items_at_mut t (fun i e _ => i <= e) (fun i m _ => i <= m)); try lia.
  intros j c m' _ _ _ _ H. pose proof (len_utf8_range c). lia.
Qed.

(** The text [/**/]. *)
Definition empty_comment : SourceSnapshot := unit_snapshot (lit "/**/").

(** The comment [/**/] is scanned as a documentation comment, although the
    grammar derives it as an ordinary block comment only. *)
Theorem empty_comment_kind_divergence :
  exists item : TriviaItem Bag, scan_block_comment_trivia empty_comment 0 = Ret item /\
    item_trivia item = {| trivia_kind := DocumentationBlockCommentTrivia; trivia_range := {| start := 0; end_ := 4 |} |} /\
    comment_at (text empty_comment) 0 4 /\ forall e, ~ documentation_comment_at (text empty_comment) 0 e.
Proof.
  eexists. split; [by vm_compute|]. split; [done|]. split.
  - apply (block_comment _ 0 2); [done|constructor|done].
  - intros e (_ & _ & m & Hm & [H _] & _). apply items_forward in Hm. pose proof (get_Some_range _ _ _ H) as Hr.
    change (zlen (text empty_comment)) with 4 in Hr. assert (m = 3) as -> by lia. by vm_compute in H.
Qed.
