(* ===== verification/CommentSuggestion.v ===== *)
(** * The suggested end of a block comment

    The diagnostic for an unterminated block comment ([diagnostic.rs] of the
    lexer) offers a machine-applicable edit: one [*/] for every comment still
    open, inserted at the end of the text.  Applying it with [apply_edit] closes
    the comment exactly when the text does not end in a lone slash, which the
    inserted star would turn into another opening. *)

From Stdlib Require Import ZArith Lia String.
From stdpp Require Import base list numbers option.
From S2P Require Import Prelude Utf8 SourceText Snapshot SyntaxKind SyntaxToken.
From S2P Require Import DiagnosticKind Diagnostic DiagnosticBag LexText LexTrivia LexScanner CommentGrammar.

(** ** Reading a text with a suffix *)

Lemma first_char_app bs r c : first_char bs = Some c -> first_char (bs ++ r) = Some c.
Proof.
  destruct bs as [|x [|y [|z [|w bs]]]]; simpl; [done|..]; repeat case_match; try done.
Qed.

Lemma inside_forward t i n j m : inside t i n j m -> i <= j.
Proof. induction 1 as [| | |i c n j m ? ? ? ? IH]; try lia. pose proof (len_utf8_range c). lia. Qed.

Section suffix.
Context (t r : list u8) (Hstar : get r 0 = Some STAR).

Lemma get_suffix i b : get t i = Some b -> get (t ++ r) i = Some b.
Proof using. intros Hg. pose proof (get_Some_range _ _ _ Hg). by rewrite get_app_l by lia. Qed.

Lemma opens_suffix i : opens_at t i -> opens_at (t ++ r) i.
Proof using. intros [H1 H2]. split; by apply get_suffix. Qed.

Lemma ends_suffix i : ends_at t i -> ends_at (t ++ r) i.
Proof using. intros [H1 H2]. split; by apply get_suffix. Qed.

(** The byte after [i] is in the text, or the star that follows it. *)
Lemma next_byte i b : i < zlen t -> get (t ++ r) (i + 1) = Some b -> get t (i + 1) = Some b \/ (i = zlen t - 1 /\ b = STAR).
Proof using Hstar.
  intros Hi Hg. destruct (Z_lt_le_dec (i + 1) (zlen t)); [rewrite get_app_l in Hg by lia; by left|].
  right. assert (i = zlen t - 1) as -> by lia. rewrite get_app_r in Hg by lia.
  replace (zlen t - 1 + 1 - zlen t) with 0 in Hg by lia. split; [done|]. by simplify_eq.
Qed.

Lemma opens_suffix_inv i : i < zlen t -> opens_at (t ++ r) i -> opens_at t i \/ (i = zlen t - 1 /\ get t i = Some SLASH).
Proof using Hstar.
  intros Hi [H1 H2]. rewrite get_app_l in H1 by lia. destruct (next_byte _ _ Hi H2) as [?|[? _]]; [by left|by right].
Qed.

Lemma ends_suffix_inv i : i < zlen t -> ends_at (t ++ r) i -> ends_at t i.
Proof using Hstar. intros Hi [H1 H2]. rewrite get_app_l in H1 by lia. by destruct (next_byte _ _ Hi H2) as [?|[_ ?]]. Qed.

(** What is read of a text is read of it with a suffix that starts with a star,
    unless a lone slash at its end is read past. *)
Lemma inside_suffix i n j m :
  inside t i n j m -> 0 <= i ->
  (forall k, inside t i n (zlen t - 1) k -> zlen t - 1 < j -> get t (zlen t - 1) <> Some SLASH) ->
  inside (t ++ r) i n j m.
Proof using Hstar.
  induction 1 as [i n|i n j m He H IH|i n j m Ho H IH|i c n j m Hf Ho He H IH]; intros Hi Hlast; [constructor|..].
  - apply inside_end; [by apply ends_suffix|]. apply IH; [lia|]. intros k Hk. apply (Hlast k). by apply inside_end.
  - apply inside_open; [by apply opens_suffix|]. apply IH; [lia|]. intros k Hk. apply (Hlast k). by apply inside_open.
  - pose proof (len_utf8_range c) as Hc. pose proof (inside_forward _ _ _ _ _ H) as Hj.
    assert (i < zlen t) as Hlt. { destruct (Z_lt_le_dec i (zlen t)); [done|]. by rewrite zdrop_all in Hf. }
    eapply (inside_scalar _ i c).
    + unfold zdrop. rewrite drop_app_le by (unfold zlen in Hlt; lia). by apply first_char_app.
    + intros [?|[-> Hs]]%opens_suffix_inv; [done| |done]. apply (Hlast n); [constructor|lia|done].
    + by intros ?%ends_suffix_inv.
    + apply IH; [lia|]. intros k Hk. apply (Hlast k). by eapply inside_scalar.
Qed.
End suffix.

(** ** The terminators *)

Lemma repeat_str_cons n s : repeat_str (S n) s = s ++ repeat_str n s.
Proof. induction n as [|n IH]; cbn [repeat_str] in *; [by rewrite app_nil_r|]. by rewrite IH at 1; rewrite app_assoc. Qed.

Lemma zlen_terminators n : zlen (repeat_str n (lit "*/")) = 2 * Z.of_nat n.
Proof. induction n as [|n IH]; [done|]. cbn [repeat_str]. rewrite zlen_app, IH. change (zlen (lit "*/")) with 2. lia. Qed.

Lemma get_of_zdrop {A} (t : list A) i k x rest : 0 <= i -> 0 <= k -> zdrop i t = rest -> get rest k = Some x -> get t (i + k) = Some x.
Proof. intros Hi Hk <- Hg. by rewrite get_zdrop in Hg. Qed.

Lemma zdrop_2 (t : list u8) i x y rest : 0 <= i -> zdrop i t = x :: y :: rest -> get t i = Some x /\ get t (i + 1) = Some y /\ zdrop (i + 2) t = rest.
Proof.
  intros Hi Hd. split_and!.
  - replace i with (i + 0) by lia. by eapply get_of_zdrop.
  - by eapply get_of_zdrop.
  - rewrite <- zdrop_zdrop by lia. by rewrite Hd.
Qed.

(** As many terminators as there are open comments close the outermost one. *)
Lemma terminators_close t n i :
  0 <= i -> zdrop i t = repeat_str (S n) (lit "*/") -> closes t i (S n) (i + 2 * Z.of_nat (S n)).
Proof.
  revert i. induction n as [|n IH]; intros i Hi Hd; rewrite repeat_str_cons in Hd; apply zdrop_2 in Hd as (H1 & H2 & Hd); try done.
  - by apply closes_last.
  - replace (i + 2 * Z.of_nat (S (S n))) with (i + 2 + 2 * Z.of_nat (S n)) by lia. apply closes_inner; [done|]. apply IH; [lia|done].
Qed.

(** After a slash they open comments instead. *)
Lemma terminators_open t n i k e :
  0 <= i -> zdrop i t = SLASH :: repeat_str n (lit "*/") -> ~ closes t i k e.
Proof.
  revert i k. induction n as [|n IH]; intros i k Hi Hd.
  - assert (get t i = Some SLASH) as H1 by (replace i with (i + 0) by lia; by eapply get_of_zdrop).
    assert (zdrop (i + 1) t = []) as Hn by (rewrite <- zdrop_zdrop by lia; by rewrite Hd).
    assert (zlen t <= i + 1) as Hlen.
    { destruct (Z_lt_le_dec (i + 1) (zlen t)); [|done]. destruct (get_is_Some t (i + 1) ltac:(lia)) as [x Hx].
      by rewrite (zdrop_cons_get _ _ _ Hx) in Hn. }
    rewrite (closes_at_scalar t i SLASH); [apply closes_at_eof; change (len_utf8 SLASH) with 1; lia|by rewrite Hd|..].
    + intros [_ H2%get_Some_range]. lia.
    + intros [H2 _]. congruence.
  - rewrite repeat_str_cons in Hd. apply zdrop_2 in Hd as (H1 & H2 & Hd); [|done]. intros Hc.
    destruct k as [|k]; [inversion Hc as [| | |? ? ? ? _ Hno]; subst; by destruct Hno|].
    apply closes_at_open in Hc; [|done]. by eapply IH; [|exact Hd|exact Hc]; lia.
Qed.

(** ** The edited text *)

(** Reading the comment at [a] meets a slash as the last byte of the text. *)
Definition lone_slash (t : list u8) (a : Z) : Prop :=
  get t (zlen t - 1) = Some SLASH /\ exists n, inside t (a + 2) 1 (zlen t - 1) n.

Lemma terminated_comment t a n :
  0 <= a -> opens_at t a -> inside t (a + 2) 1 (zlen t) (S n) ->
  let t' := t ++ repeat_str (S n) (lit "*/") in
  (lone_slash t a -> forall e, ~ comment_at t' a e) /\ (~ lone_slash t a -> comment_at t' a (zlen t')).
Proof.
  intros Ha Ho Hin t'. assert (get (repeat_str (S n) (lit "*/")) 0 = Some STAR) as Hstar by by rewrite repeat_str_cons.
  split; intros Hlone.
  - destruct Hlone as [Hs [k Hk]]. intros e [_ Hc]%comment_closes.
    rewrite (inside_closes t' _ _ (zlen t - 1) k e) in Hc by (apply inside_suffix; [done|done|lia|intros; lia]).
    apply (terminators_open t' (S n) (zlen t - 1) k e); [apply get_Some_range in Hs; lia| |exact Hc].
    unfold t'. erewrite zdrop_cons_get by by apply get_suffix. by rewrite zdrop_app by lia.
  - apply comment_closes. split; [by apply opens_suffix|].
    rewrite (inside_closes t' _ _ (zlen t) (S n)).
    + unfold t'. rewrite zlen_app, zlen_terminators. apply terminators_close; [apply zlen_nonneg|by apply zdrop_app].
    + apply inside_suffix; [done|done|lia|]. intros k Hk _ Hs. apply Hlone. split; [done|by exists k].
Qed.

Lemma terminators_valid n : valid_utf8 (repeat_str n (lit "*/")).
Proof. induction n as [|n IH]; [exists []; split; [constructor|done]|]. cbn [repeat_str]. apply valid_utf8_app; [done|]. exists (lit "*/"). split; [by repeat constructor|done]. Qed.

(** The edit of a suggestion, as an edit of the text. *)
Definition suggested_edit (e : DiagnosticSourceEdit) : SourceEdit :=
  {| edit_range := SourceSpan_range (source_edit_span e); replacement := source_edit_replacement e |}.

Lemma apply_terminators s `{!WfSnapshot s} n id ver s' :
  2 * Z.of_nat n <= zlen (text s) ->
  apply_edit s id ver {| edit_range := TextRange_empty (zlen (text s)); replacement := repeat_str n (lit "*/") |} = Ok s' ->
  WfSnapshot s' /\ text s' = text s ++ repeat_str n (lit "*/").
Proof.
  intros Hn H. pose proof (zlen_nonneg (text s)). pose proof (wf_fits (s := s)). apply apply_edit_Ok in H as (Hwf & Ht & _).
  - split; [done|]. rewrite Ht. unfold edited_text. cbn [edit_range replacement TextRange_empty start end_].
    by rewrite ztake_all, zdrop_all, app_nil_r by lia.
  - done.
  - unfold range_wf. cbn [edit_range TextRange_empty start end_]. lia.
  - apply terminators_valid.
  - cbn [replacement]. rewrite zlen_terminators. unfold USIZE_MAX, U32_MAX in *. lia.
Qed.

(** ** The guarantee *)

(** C39.  The suggested end of an unterminated block comment: the scan of a comment
    that the grammar closes nowhere reports one diagnostic, with one suggestion,
    which is machine-applicable and consists of one edit.  Applying that edit
    yields a text in which the comment is closed, at its very end and without a
    diagnostic, exactly when the last byte of the text is not a slash read on its
    own; after such a slash the comment is still closed nowhere. *)
Theorem block_comment_suggestion_exact {B} `{!DiagnosticSink B, !DiagnosticSinkLaws B} s a :
  WfSnapshot s -> boundary (text s) a -> opens_at (text s) a -> (forall e, ~ comment_at (text s) a e) ->
  returns (scan_block_comment_trivia (B := B) s a) (fun item =>
    exists d sg edit, sink_contents (item_diagnostics item) = [d] /\ d_kind d = LexicalUnterminatedBlockComment /\
      d_suggestions d = [sg] /\ applicability sg = MachineApplicable /\ edits sg = [edit] /\
      forall id ver s', apply_edit s id ver (suggested_edit edit) = Ok s' ->
        (lone_slash (text s) a -> forall e, ~ comment_at (text s') a e) /\
        (~ lone_slash (text s) a -> comment_at (text s') a (zlen (text s'))) /\
        returns (scan_block_comment_trivia (B := B) s' a) (fun item' =>
          sink_contents (item_diagnostics item') = [] <-> ~ lone_slash (text s) a)).
Proof.
  intros Hwf Hb Ho Hno. pose proof (boundary_range _ _ Hb). eapply returns_mono; [by apply scan_block_comment_item|].
  intros item (_ & [[_ Hcl]|(n & He & Hd & Hn & Hin)]); [by destruct (Hno _ (proj2 (Hcl _) eq_refl))|].
  eexists _, _, _. split; [exact Hd|]. do 4 (split; [done|]). intros id ver s' Hs'.
  change (end_ (trivia_range (item_trivia item))) with (SyntaxTrivia_end (item_trivia item)) in Hs'. rewrite He in Hs'.
  cbn [suggested_edit source_edit_span source_edit_replacement SourceSpan_empty SourceSpan_range] in Hs'.
  unfold block_comment_terminators in Hs'. rewrite Nat2Z.id in Hs'. apply apply_terminators in Hs' as [Hwf' Ht]; [|done|done].
  destruct (terminated_comment (text s) a n) as [Hlone Hclosed]; [lia|done|done|]. rewrite <- Ht in *. split_and!; [done|done|].
  eapply returns_mono; [apply scan_block_comment_exact; [done| |rewrite Ht; by apply opens_suffix]|].
  - apply ascii_boundary with SLASH; [apply wf_text|rewrite Ht; apply get_suffix, Ho|done].
  - intros item' (_ & [[Hnil Hend]|([d [Hone _]] & _ & Hopen)]).
    + split; [|done]. intros _ Hl. by destruct (Hlone Hl _ (proj2 (Hend _) eq_refl)).
    + rewrite Hone. split; [done|]. intros Hl. by destruct (Hopen _ (Hclosed Hl)).
Qed.

(** The texts [/* a] and [/* /]. *)
Definition open_comment : SourceSnapshot := unit_snapshot (lit "/* a").
Definition slash_comment : SourceSnapshot := unit_snapshot (lit "/* /").

Lemma sample_unclosed b : In b [SLASH; 97] -> inside (text (unit_snapshot (lit "/* " ++ [b]))) 2 1 4 1 /\ inside (text (unit_snapshot (lit "/* " ++ [b]))) 2 1 3 1.
Proof.
  intros Hb. assert (forall j, (j = 3 \/ j = 4) -> inside (text (unit_snapshot (lit "/* " ++ [b]))) 2 1 j 1) as H.
  { intros j Hj. apply (inside_scalar _ 2 32); [done|by intros []|by intros []|]. destruct Hj as [->| ->]; [constructor|].
    destruct Hb as [<-|[<-|[]]]; (eapply (inside_scalar _ 3); [reflexivity|by intros []|by intros []|]); constructor. }
  split; apply H; lia.
Qed.

Definition edit_at_four : SourceEdit := {| edit_range := TextRange_empty 4; replacement := lit "*/" |}.

Definition after_edit (s : SourceSnapshot) : option str := text <$> result_ok (apply_edit s (source_id s) (version s) edit_at_four).

Lemma block_comment_suggestion_exact_witness :
  (after_edit open_comment = Some (lit "/* a*/") /\ comment_at (lit "/* a*/") 0 6) /\
  (after_edit slash_comment = Some (lit "/* /*/") /\ forall e, ~ comment_at (lit "/* /*/") 0 e).
Proof.
  split; (split; [by vm_compute|]).
  - assert (WfSnapshot open_comment) as Hwf by by apply ascii_snapshot_wf.
    destruct (block_comment_suggestion_exact (B := Bag) open_comment 0 Hwf) as (item & Hi & d & sg & edit & Hd & _ & Hsg & _ & He & H);
      [apply boundary_0, Hwf|done|apply (inside_unclosed _ _ 1), (sample_unclosed 97); by right; left|].
    vm_compute in Hi. injection Hi as <-. vm_compute in Hd. injection Hd as <-. vm_compute in Hsg. injection Hsg as <-. vm_compute in He. injection He as <-.
    destruct (apply_edit open_comment (source_id open_comment) (version open_comment) edit_at_four) as [s'|] eqn:E; [|by vm_compute in E].
    destruct (H _ _ _ E) as (_ & Hc & _). vm_compute in E. injection E as <-. apply Hc. intros [Hs _]. by vm_compute in Hs.
  - assert (WfSnapshot slash_comment) as Hwf by by apply ascii_snapshot_wf.
    destruct (block_comment_suggestion_exact (B := Bag) slash_comment 0 Hwf) as (item & Hi & d & sg & edit & Hd & _ & Hsg & _ & He & H);
      [apply boundary_0, Hwf|done|apply (inside_unclosed _ _ 1), (sample_unclosed SLASH); by left|].
    vm_compute in Hi. injection Hi as <-. vm_compute in Hd. injection Hd as <-. vm_compute in Hsg. injection Hsg as <-. vm_compute in He. injection He as <-.
    destruct (apply_edit slash_comment (source_id slash_comment) (version slash_comment) edit_at_four) as [s'|] eqn:E; [|by vm_compute in E].
    destruct (H _ _ _ E) as (Hc & _). vm_compute in E. injection E as <-. apply Hc. split; [done|]. exists 1%nat. apply (sample_unclosed SLASH). by left.
Defined.
