(* ===== verification/TokenSource.v ===== *)
(** * The lazy token source and the token stream

    [bray-parser/src/lexer/token_source.rs] and [stream.rs]: a cursor over a
    snapshot that produces tokens on demand, with or without a lookahead cache,
    and the driver that lexes a whole source unit.  Methods take and return the
    token source; distances and lengths are natural numbers. *)

From Stdlib Require Import ZArith Lia String.
From stdpp Require Import base list numbers option.
From S2P Require Import Prelude Utf8 SourceText Snapshot SyntaxKind SyntaxToken.
From S2P Require Import DiagnosticKind Diagnostic DiagnosticBag LexText LexTrivia LexLiteral LexScanner.

Inductive LexerCachePolicy := CacheTokens | DoNotCacheTokens.

#[export] Instance LexerCachePolicy_eq_dec : EqDecision LexerCachePolicy.
Proof. solve_decision. Defined.

Section token_source.
Context {B : Type} `{!DiagnosticSink B}.
Context (is_alphanumeric : char -> bool).

Record LexerTokenSource := {
  ls_snapshot : SourceSnapshot;
  cursor : TextSize;
  cache_policy : LexerCachePolicy;
  cached_tokens : list SyntaxToken;
  ls_diagnostics : B;
}.

Definition with_cache_policy (snapshot : SourceSnapshot) (policy : LexerCachePolicy) : LexerTokenSource :=
  {| ls_snapshot := snapshot; cursor := 0; cache_policy := policy; cached_tokens := [];
     ls_diagnostics := sink_new |}.

Definition LexerTokenSource_new (snapshot : SourceSnapshot) : LexerTokenSource :=
  with_cache_policy snapshot CacheTokens.

Definition set_cursor (self : LexerTokenSource) (c : TextSize) : LexerTokenSource :=
  {| ls_snapshot := ls_snapshot self; cursor := c; cache_policy := cache_policy self;
     cached_tokens := cached_tokens self; ls_diagnostics := ls_diagnostics self |}.

Definition set_cached (self : LexerTokenSource) (l : list SyntaxToken) : LexerTokenSource :=
  {| ls_snapshot := ls_snapshot self; cursor := cursor self; cache_policy := cache_policy self;
     cached_tokens := l; ls_diagnostics := ls_diagnostics self |}.

Definition record_diagnostics (self : LexerTokenSource) (diagnostics : B) : LexerTokenSource :=
  if sink_is_empty diagnostics then self
  else {| ls_snapshot := ls_snapshot self; cursor := cursor self; cache_policy := cache_policy self;
          cached_tokens := cached_tokens self;
          ls_diagnostics := sink_merged (ls_diagnostics self) diagnostics |}.

Definition merge_diagnostics_from (self : LexerTokenSource) (diagnostics : B) : LexerTokenSource :=
  record_diagnostics self diagnostics.

Definition source_scan_token_at (self : LexerTokenSource) (offset : TextSize) (mode : LexerScanMode)
    : outcome (SyntaxToken * LexerTokenSource) :=
  let! scan := scan_token_at is_alphanumeric (ls_snapshot self) offset mode in
  Ret (scan_token scan, record_diagnostics self (scan_diagnostics scan)).

Definition is_eof (token : SyntaxToken) : bool := is_end_of_file token.

(** [fill_with_eof] pushes until [len] tokens are there. *)
Fixpoint push_eof (missing : nat) (tokens : list SyntaxToken) (offset : TextSize)
    : outcome (list SyntaxToken) :=
  match missing with
  | O => Ret tokens
  | S missing' =>
      let! eof := SyntaxToken_end_of_file offset in
      push_eof missing' (tokens ++ [eof]) offset
  end.

Definition fill_with_eof (tokens : list SyntaxToken) (len : nat) (offset : TextSize)
    : outcome (list SyntaxToken) :=
  push_eof (len - length tokens) tokens offset.

(** One turn of the loop in [ensure_cached]. *)
Definition ensure_step (distance : nat) (self : LexerTokenSource)
    : outcome (LexerTokenSource + LexerTokenSource) :=
  if (length (cached_tokens self) <=? distance)%nat
  then
    match list.last (cached_tokens self) with
    | Some token =>
        if is_eof token
        then
          let! filled := fill_with_eof (cached_tokens self) (S distance) (token_start token) in
          break_ (set_cached self filled)
        else
          let! scanned := source_scan_token_at self (end_ (full_range token)) Normal in
          let (next, self) := scanned in
          continue_ (set_cached self (cached_tokens self ++ [next]))
    | None =>
        let! scanned := source_scan_token_at self (cursor self) Normal in
        let (next, self) := scanned in
        continue_ (set_cached self (cached_tokens self ++ [next]))
    end
  else break_ self.

Definition ensure_cached (self : LexerTokenSource) (distance : nat) : outcome LexerTokenSource :=
  loop (S (S distance)) (ensure_step distance) self.

Definition cached_lookahead (self : LexerTokenSource) (distance : nat)
    : outcome (SyntaxToken * LexerTokenSource) :=
  let! self := ensure_cached self distance in
  let! token := expect (cached_tokens self !! distance) in
  Ret (token, self).

(** The [for _ in 0..distance] loop. *)
Fixpoint uncached_from (self : LexerTokenSource) (token : SyntaxToken) (distance : nat)
    : outcome (SyntaxToken * LexerTokenSource) :=
  match distance with
  | O => Ret (token, self)
  | S distance' =>
      if is_eof token then Ret (token, self)
      else
        let! scanned := source_scan_token_at self (end_ (full_range token)) Normal in
        let (token, self) := scanned in
        uncached_from self token distance'
  end.

Definition uncached_lookahead (self : LexerTokenSource) (distance : nat)
    : outcome (SyntaxToken * LexerTokenSource) :=
  let! scanned := source_scan_token_at self (cursor self) Normal in
  let (token, self) := scanned in
  uncached_from self token distance.

Definition lookahead (self : LexerTokenSource) (distance : nat)
    : outcome (SyntaxToken * LexerTokenSource) :=
  match cache_policy self with
  | CacheTokens => cached_lookahead self distance
  | DoNotCacheTokens => uncached_lookahead self distance
  end.

Definition peek (self : LexerTokenSource) : outcome (SyntaxToken * LexerTokenSource) := lookahead self 0.

Definition cached_lookahead_window (self : LexerTokenSource) (len : nat)
    : outcome (list SyntaxToken * LexerTokenSource) :=
  let! self := ensure_cached self (len - 1) in
  Ret (take len (cached_tokens self), self).

(** The loop of [uncached_lookahead_window]: [missing] tokens are to come. *)
Fixpoint uncached_window_from (self : LexerTokenSource) (tokens : list SyntaxToken) (offset : TextSize)
    (missing : nat) : outcome (list SyntaxToken * LexerTokenSource) :=
  match missing with
  | O => Ret (tokens, self)
  | S missing' =>
      let! scanned := source_scan_token_at self offset Normal in
      let (token, self) := scanned in
      let next_offset := end_ (full_range token) in
      let tokens := tokens ++ [token] in
      if is_eof token
      then let! tokens := push_eof missing' tokens next_offset in Ret (tokens, self)
      else uncached_window_from self tokens next_offset missing'
  end.

Definition uncached_lookahead_window (self : LexerTokenSource) (len : nat)
    : outcome (list SyntaxToken * LexerTokenSource) :=
  uncached_window_from self [] (cursor self) len.

Definition lookahead_window (self : LexerTokenSource) (len : nat)
    : outcome (list SyntaxToken * LexerTokenSource) :=
  if (len =? 0)%nat then Ret ([], self)
  else match cache_policy self with
       | CacheTokens => cached_lookahead_window self len
       | DoNotCacheTokens => uncached_lookahead_window self len
       end.

Definition advance_after_consuming (self : LexerTokenSource) (token : SyntaxToken) : LexerTokenSource :=
  if is_eof token then set_cursor self (end_ (full_range token))
  else
    let self := set_cursor self (end_ (full_range token)) in
    if bool_decide (cache_policy self = CacheTokens) && negb (is_nil (cached_tokens self))
    then set_cached self (tail (cached_tokens self))
    else self.

Definition consume (self : LexerTokenSource) : outcome (SyntaxToken * LexerTokenSource) :=
  let! looked := lookahead self 0 in
  let (token, self) := looked in
  Ret (token, advance_after_consuming self token).

Definition consume_with_mode (self : LexerTokenSource) (mode : LexerScanMode)
    : outcome (SyntaxToken * LexerTokenSource) :=
  let self := set_cached self [] in
  let! scanned := source_scan_token_at self (cursor self) mode in
  let (token, self) := scanned in
  Ret (token, set_cursor self (end_ (full_range token))).

Definition consume_tuple_element_index_after_dot (self : LexerTokenSource)
    : outcome (SyntaxToken * LexerTokenSource) :=
  consume_with_mode self TupleElementIndexAfterDot.

Definition consume_type_punctuation (self : LexerTokenSource)
    : outcome (SyntaxToken * LexerTokenSource) :=
  consume_with_mode self TypePunctuation.

Definition at_generic_close (self : LexerTokenSource) : outcome bool :=
  let! leading := scan_leading_trivia (B := B) (ls_snapshot self) (cursor self) in
  let! character := first_character (ls_snapshot self) (ts_end leading) in
  Ret (bool_decide (character = Some GREATER)).

(** ** stream.rs *)

Record LexResult := { tokens : list SyntaxToken; lex_diagnostics : B }.

Definition drain_step (st : LexerTokenSource * list SyntaxToken)
    : outcome (LexerTokenSource * list SyntaxToken + LexerTokenSource * list SyntaxToken) :=
  let (token_source, tokens) := st in
  let! consumed := consume token_source in
  let (token, token_source) := consumed in
  let reached_end := is_end_of_file token in
  let tokens := tokens ++ [token] in
  if reached_end then break_ (token_source, tokens) else continue_ (token_source, tokens).

Definition drain_tokens (token_source : LexerTokenSource)
    : outcome (LexerTokenSource * list SyntaxToken) :=
  loop (text_fuel (ls_snapshot token_source)) drain_step (token_source, []).

Definition lex_source_unit (snapshot : SourceSnapshot) : outcome LexResult :=
  let! drained := drain_tokens (LexerTokenSource_new snapshot) in
  let (token_source, tokens) := drained in
  Ret {| tokens := tokens; lex_diagnostics := ls_diagnostics token_source |}.
End token_source.

Arguments LexerTokenSource : clear implicits.
Arguments LexResult : clear implicits.

(** ** The abstract token stream

    [stream_token s a n] is the [n]-th token from offset [a], repeating the end
    of file.  Cached end-of-file tokens may differ from it in their leading
    trivia only ([forget_eof_trivia]). *)

Definition forget_eof_trivia (t : SyntaxToken) : SyntaxToken :=
  if is_eof t
  then {| token_kind := token_kind t; token_range := token_range t; presence := presence t;
          leading_trivia := []; trailing_trivia := trailing_trivia t |}
  else t.

Section stream.
Context {B : Type} `{!DiagnosticSink B, !DiagnosticSinkLaws B}.
Context (is_alphanumeric : char -> bool).
Context (s : SourceSnapshot) `{!WfSnapshot s}.

Definition stream_scan (a : Z) (mode : LexerScanMode) : outcome SyntaxToken :=
  let! scan := scan_token_at (B := B) is_alphanumeric s a mode in Ret (scan_token scan).

Fixpoint stream_token (a : Z) (n : nat) : outcome SyntaxToken :=
  let! t := stream_scan a Normal in
  match n with
  | O => Ret t
  | S n' => if is_eof t then Ret t else stream_token (end_ (full_range t)) n'
  end.

(** One scan: the token tiles [a..b]; only at the end is it the end of file. *)
Definition scanned (a : Z) (t : SyntaxToken) (b : Z) : Prop :=
  token_tile (text s) a t b /\ (is_eof t = true -> token_end t = zlen (text s)).

Lemma stream_scan_ok a mode :
  boundary (text s) a -> exists t b, stream_scan a mode = Ret t /\ scanned a t b.
Proof using All.
  intros Ha. destruct (scan_token_at_ok (B := B) is_alphanumeric s a mode Ha) as (scan & Hs & Hok).
  destruct Hok as [[b Hb] Heof _ _ _]. exists (scan_token scan), b. unfold stream_scan. by rewrite Hs.
Qed.

Lemma scanned_end a t b : scanned a t b -> end_ (full_range t) = b /\ boundary (text s) b /\ a <= b.
Proof using.
  intros [Ht _]. rewrite (token_tile_full_range _ _ _ _ Ht).
  apply token_tile_boundaries in Ht as (_ & ? & ? & ?). split_and!; done || lia.
Qed.

Lemma scanned_progress a t b : scanned a t b -> is_eof t = false -> a < b.
Proof using.
  intros [Ht _] He. pose proof (token_tile_boundaries _ _ _ _ Ht) as (_ & _ & ? & ?).
  destruct Ht as [_ _ _ _ Hw]. unfold is_eof in He. rewrite He in Hw. lia.
Qed.

(** The end-of-file token is empty at the end of the text. *)
Lemma scanned_eof a t b :
  scanned a t b -> is_eof t = true ->
  b = zlen (text s) /\
  forget_eof_trivia t = {| token_kind := EndOfFileToken; token_range := TextRange_empty (zlen (text s));
                           presence := Present; leading_trivia := []; trailing_trivia := [] |} /\
  token_start t = zlen (text s).
Proof using.
  intros [Ht Hend] He. pose proof (token_tile_boundaries _ _ _ _ Ht) as (_ & Hb & _ & Hle).
  apply boundary_range in Hb. specialize (Hend He). destruct Ht as [_ Htr _ Hp Hw].
  unfold is_eof in He. rewrite He in Hw. rewrite Hend in *. assert (b = zlen (text s)) as -> by lia.
  assert (trailing_trivia t = []) as Htn.
  { destruct (trailing_trivia t) as [|x l]; [done|]. apply trivia_tile_nonempty in Htr as [_ ?]. lia. }
  split_and!; [done| |done]. unfold forget_eof_trivia, is_eof. rewrite He.
  unfold is_end_of_file in He. destruct t as [k r p l tr]. cbn in *. subst p tr.
  unfold token_start, token_end in *. cbn in *. destruct r as [x y]. cbn in *. subst.
  unfold TextRange_empty. destruct k; done.
Qed.

Lemma stream_token_unfold a t b n :
  stream_scan a Normal = Ret t -> scanned a t b -> is_eof t = false ->
  stream_token a (S n) = stream_token b n.
Proof using.
  intros Hs Ht He. cbn [stream_token]. rewrite Hs. cbn [outcome_bind]. rewrite He.
  by destruct (scanned_end _ _ _ Ht) as [-> _].
Qed.

Lemma stream_token_eof a t n :
  stream_scan a Normal = Ret t -> is_eof t = true -> stream_token a n = Ret t.
Proof using.
  intros Hs He. destruct n; cbn [stream_token]; rewrite Hs; cbn [outcome_bind]; [done|by rewrite He].
Qed.

Lemma stream_token_ok a n :
  boundary (text s) a -> exists a' t b, stream_token a n = Ret t /\ scanned a' t b /\ a <= a' /\
    stream_scan a' Normal = Ret t.
Proof using All.
  revert a. induction n as [|n IH]; intros a Ha;
    destruct (stream_scan_ok a Normal Ha) as (t & b & Hs & Ht).
  - exists a, t, b. cbn [stream_token]. rewrite Hs. split_and!; done || lia.
  - destruct (is_eof t) eqn:He.
    + exists a, t, b. rewrite (stream_token_eof a t) by done. split_and!; done || lia.
    + rewrite (stream_token_unfold a t b n Hs Ht He). destruct (scanned_end _ _ _ Ht) as (_ & Hb & Hab).
      destruct (IH b Hb) as (a' & t' & b' & ? & ? & ? & ?). exists a', t', b'. split_and!; done || lia.
Qed.

(** The diagnostics of one scan. *)
Definition diags_at (a : Z) (mode : LexerScanMode) : list Diagnostic :=
  match scan_token_at (B := B) is_alphanumeric s a mode with
  | Ret scan => sink_contents (scan_diagnostics scan)
  | _ => []
  end.

(** Where the [n]-th token from [a] is scanned. *)
Fixpoint stream_pos (a : Z) (n : nat) : Z :=
  match n with
  | O => a
  | S n' =>
      match stream_token a n' with
      | Ret t => if is_eof t then stream_pos a n' else end_ (full_range t)
      | _ => a
      end
  end.

(** Diagnostics after scanning the first [n] tokens from [a]. *)
Fixpoint diags_upto (l : list Diagnostic) (a : Z) (n : nat) : list Diagnostic :=
  match n with
  | O => l
  | S n' => nub (diags_upto l a n' ++ diags_at (stream_pos a n') Normal)
  end.

(** The token after a known one. *)
Lemma stream_token_next a n t :
  boundary (text s) a -> stream_token a n = Ret t ->
  stream_token a (S n) = if is_eof t then Ret t else stream_scan (end_ (full_range t)) Normal.
Proof using All.
  revert a. induction n as [|n IH]; intros a Ha Hn;
    destruct (stream_scan_ok a Normal Ha) as (t0 & b & Hs & Ht).
  - cbn [stream_token] in Hn |- *. rewrite Hs in Hn |- *. cbn [outcome_bind] in *. simplify_eq.
    destruct (is_eof t); [done|]. destruct (scanned_end _ _ _ Ht) as (-> & Hb & _).
    destruct (stream_scan_ok b Normal Hb) as (t1 & b1 & -> & _). done.
  - destruct (is_eof t0) eqn:He.
    + rewrite (stream_token_eof a t0) in Hn |- * by done. simplify_eq. by rewrite He.
    + rewrite (stream_token_unfold a t0 b) in Hn |- * by done.
      destruct (scanned_end _ _ _ Ht) as (_ & Hb & _). by apply IH.
Qed.

Lemma stream_pos_spec a n :
  boundary (text s) a -> boundary (text s) (stream_pos a n) /\ stream_token a n = stream_scan (stream_pos a n) Normal.
Proof using All.
  intros Ha. induction n as [|n [IHb IH]].
  - split; [done|]. cbn [stream_token stream_pos]. by destruct (stream_scan_ok a Normal Ha) as (t & b & -> & _).
  - destruct (stream_scan_ok _ Normal IHb) as (t & b & Hs & Ht). rewrite Hs in IH.
    rewrite (stream_token_next a n t Ha IH). cbn [stream_pos]. rewrite IH.
    destruct (scanned_end _ _ _ Ht) as (Hb & Hbb & _). destruct (is_eof t); [done|]. by rewrite Hb.
Qed.

Lemma stream_pos_shift a t b n :
  boundary (text s) a -> stream_scan a Normal = Ret t -> scanned a t b -> is_eof t = false ->
  stream_pos a (S n) = stream_pos b n.
Proof using All.
  intros Ha Hs Ht He. destruct (scanned_end _ _ _ Ht) as (Hb & Hbb & _). induction n as [|n IH].
  - cbn [stream_pos stream_token]. rewrite Hs. cbn [outcome_bind]. by rewrite He.
  - cbn [stream_pos] in *. rewrite (stream_token_unfold a t b n Hs Ht He).
    destruct (stream_pos_spec b n Hbb) as [Hp Hn]. destruct (stream_scan_ok _ Normal Hp) as (u & c & Hu & _).
    rewrite Hn, Hu. by rewrite IH.
Qed.

Lemma stream_pos_eof a n m t :
  boundary (text s) a -> stream_token a n = Ret t -> is_eof t = true -> (n <= m)%nat ->
  stream_pos a m = stream_pos a n /\ stream_token a m = Ret t.
Proof using All.
  intros Ha Hn He Hle. induction Hle as [|m Hle [IH1 IH2]]; [done|].
  rewrite (stream_token_next a m t Ha IH2), He. split; [|done]. cbn [stream_pos]. by rewrite IH2, He.
Qed.

(** Nothing is wrong with the end of the text. *)
Lemma diags_at_end mode : diags_at (zlen (text s)) mode = [].
Proof using All.
  unfold diags_at. destruct (scan_token_at_ok (B := B) is_alphanumeric s _ mode (end_boundary s)) as (scan & -> & Hok).
  destruct Hok as [_ _ _ Herr _]. destruct (sink_contents (scan_diagnostics scan)) as [|d l]; [done|].
  inversion Herr as [|? ? (r & _ & ? & ? & ?) _]. lia.
Qed.

(** *** Diagnostics that are already there *)

Lemma nub_covered l d : nub l = l -> covered d (keys l) -> nub (l ++ d) = l.
Proof using.
  intros Hl Hc. unfold nub in *. rewrite nub_from_app, app_nil_r, Hl, nub_from_covered by done.
  apply app_nil_r.
Qed.

Lemma covered_nub d l x : covered d (keys l) -> covered d (keys (nub (l ++ x))).
Proof using. intros H k Hk. apply keys_nub. rewrite keys_app. apply elem_of_app. left. by apply H. Qed.

Lemma covered_nub_r l d : covered d (keys (nub (l ++ d))).
Proof using. intros k Hk. apply keys_nub. rewrite keys_app. apply elem_of_app. by right. Qed.

Lemma diags_upto_nub l a n : nub l = l -> nub (diags_upto l a n) = diags_upto l a n.
Proof using. intros Hl. destruct n; [done|]. cbn [diags_upto]. apply nub_from_nub. Qed.

Lemma diags_upto_covered l a n i :
  (i < n)%nat -> covered (diags_at (stream_pos a i) Normal) (keys (diags_upto l a n)).
Proof using.
  induction n as [|n IH]; intros Hi; [lia|]. cbn [diags_upto].
  destruct (decide (i = n)) as [->|]; [apply covered_nub_r|]. apply covered_nub, IH. lia.
Qed.

Lemma diags_upto_known l a n :
  nub l = l -> (forall i, (i < n)%nat -> covered (diags_at (stream_pos a i) Normal) (keys l)) ->
  diags_upto l a n = l.
Proof using.
  intros Hl. induction n as [|n IH]; intros Hc; [done|]. cbn [diags_upto]. rewrite IH by (intros; apply Hc; lia).
  apply nub_covered; [done|]. apply Hc. lia.
Qed.

Lemma diags_upto_eof l a n m t :
  boundary (text s) a -> nub l = l -> stream_token a n = Ret t -> is_eof t = true -> (n <= m)%nat ->
  diags_upto l a (S m) = diags_upto l a (S n).
Proof using All.
  intros Ha Hl Hn He Hle. induction Hle as [|m Hle IH]; [done|]. rewrite <- IH.
  change (nub (diags_upto l a (S m) ++ diags_at (stream_pos a (S m)) Normal) = diags_upto l a (S m)).
  apply nub_covered; [by apply diags_upto_nub|].
  destruct (stream_pos_eof a n (S m) t) as [-> _]; [done..|lia|]. apply diags_upto_covered. lia.
Qed.
End stream.

(** ** The invariant of a token source *)

Section source.
Context {B : Type} `{!DiagnosticSink B, !DiagnosticSinkLaws B}.
Context (is_alphanumeric : char -> bool).
Context (s : SourceSnapshot) `{!WfSnapshot s}.

Abbreviation stream_scan := (stream_scan (B := B) is_alphanumeric s).
Abbreviation stream_token := (stream_token (B := B) is_alphanumeric s).
Abbreviation stream_pos := (stream_pos (B := B) is_alphanumeric s).
Abbreviation diags_at := (diags_at (B := B) is_alphanumeric s).
Abbreviation diags_upto := (diags_upto (B := B) is_alphanumeric s).
Abbreviation recorded self := (sink_contents (ls_diagnostics self)).

(** An invalid token has an error at its range among [l]. *)
Definition reported (l : list Diagnostic) (t : SyntaxToken) : Prop :=
  token_kind t = InvalidToken -> exists d, In d l /\ error_at s (token_range t) d.

Definition error_inside (d : Diagnostic) : Prop :=
  exists r, error_at s r d /\ 0 <= start r /\ start r < end_ r /\ end_ r <= zlen (text s).

Record diagnostics_ok (b : B) : Prop := {
  do_sink : sink_ok b;
  do_errors : Forall error_inside (sink_contents b);
}.

(** Nothing that was reported is lost. *)
Definition keeps (l l' : list Diagnostic) : Prop := forall t, reported l t -> reported l' t.

(** A token stands for another: the two differ at most in the trivia before
    the end of file, and they end at the same offset. *)
Definition same_token (t t' : SyntaxToken) : Prop :=
  forget_eof_trivia t = forget_eof_trivia t' /\ end_ (full_range t) = end_ (full_range t').

Record ls_ok (self : LexerTokenSource B) : Prop := {
  lo_snapshot : ls_snapshot self = s;
  lo_cursor : boundary (text s) (cursor self);
  lo_diagnostics : diagnostics_ok (ls_diagnostics self);
  lo_cache : forall i t, cached_tokens self !! i = Some t ->
    exists t', stream_token (cursor self) i = Ret t' /\ same_token t t';
  lo_reported : Forall (reported (sink_contents (ls_diagnostics self))) (cached_tokens self);
  lo_policy : cache_policy self = DoNotCacheTokens -> cached_tokens self = [];
  lo_covered : forall i, (i < length (cached_tokens self))%nat ->
    covered (diags_at (stream_pos (cursor self) i) Normal) (keys (recorded self));
}.

Lemma keeps_refl l : keeps l l.
Proof using. by intros t. Qed.

Lemma keeps_trans l1 l2 l3 : keeps l1 l2 -> keeps l2 l3 -> keeps l1 l3.
Proof using. unfold keeps. auto. Qed.

Lemma reported_key l l' t :
  (forall d, In d l -> exists d', In d' l' /\ duplicate_key d' = duplicate_key d) ->
  reported l t -> reported l' t.
Proof using.
  intros H Hr Hk. destruct (Hr Hk) as (d & Hd & Hat). destruct (H d Hd) as (d' & ? & Hkey).
  exists d'. split; [done|]. by eapply error_at_key.
Qed.

(** Recording a scan's diagnostics. *)
Lemma record_diagnostics_ok self (b : B) :
  diagnostics_ok (ls_diagnostics self) -> diagnostics_ok b ->
  let self' := record_diagnostics self b in
  diagnostics_ok (ls_diagnostics self') /\
  keeps (sink_contents (ls_diagnostics self)) (sink_contents (ls_diagnostics self')) /\
  keeps (sink_contents b) (sink_contents (ls_diagnostics self')) /\
  ls_snapshot self' = ls_snapshot self /\ cursor self' = cursor self /\
  cache_policy self' = cache_policy self /\ cached_tokens self' = cached_tokens self /\
  recorded self' = nub (recorded self ++ sink_contents b).
Proof using All.
  intros [H1 H2] [H3 H4]. unfold record_diagnostics. destruct (sink_is_empty b) eqn:Eb; cbn zeta.
  - apply sink_is_empty_spec in Eb; [|done]. rewrite Eb. split; [done|]. split; [apply keeps_refl|].
    split; [intros t Hr Hk; by destruct (Hr Hk) as (d & Hd & _)|]. split_and!; try done.
    by rewrite app_nil_r, sink_contents_nub.
  - cbn. destruct (sink_merged_spec _ _ H1 H3) as [H5 H6]. split_and!; try done.
    + constructor; [done|]. rewrite H6. by apply nub_Forall, Forall_app.
    + intros t. apply reported_key. intros d Hd. rewrite H6. apply nub_keeps_key, in_app_iff. by left.
    + intros t. apply reported_key. intros d Hd. rewrite H6. apply nub_keeps_key, in_app_iff. by right.
Qed.

(** The state after scanning: only diagnostics are added. *)
Record scan_step (a : Z) (mode : LexerScanMode) (self self' : LexerTokenSource B) (t : SyntaxToken) : Prop := {
  ss_snapshot : ls_snapshot self' = s;
  ss_cursor : cursor self' = cursor self;
  ss_policy : cache_policy self' = cache_policy self;
  ss_cached : cached_tokens self' = cached_tokens self;
  ss_diagnostics : diagnostics_ok (ls_diagnostics self');
  ss_keeps : keeps (sink_contents (ls_diagnostics self)) (sink_contents (ls_diagnostics self'));
  ss_reported : reported (sink_contents (ls_diagnostics self')) t;
  ss_recorded : recorded self' = nub (recorded self ++ diags_at a mode);
}.

Lemma source_scan_ok self a mode :
  ls_snapshot self = s -> diagnostics_ok (ls_diagnostics self) -> boundary (text s) a ->
  exists t self' b, source_scan_token_at is_alphanumeric self a mode = Ret (t, self') /\
    stream_scan a mode = Ret t /\ scanned s a t b /\ scan_step a mode self self' t.
Proof using All.
  intros Hsn Hd Ha. destruct (scan_token_at_ok (B := B) is_alphanumeric s a mode Ha) as (scan & Hs & Hok).
  destruct Hok as [[b Hb] Heof Hsink Herr Hinv]. pose proof (boundary_range _ _ Ha).
  exists (scan_token scan), (record_diagnostics self (scan_diagnostics scan)), b.
  assert (diagnostics_ok (scan_diagnostics scan)) as Hds.
  { constructor; [done|]. eapply Forall_impl; [|exact Herr]. intros d (r & ? & ? & ? & ?). exists r.
    split_and!; done || lia. }
  destruct (record_diagnostics_ok self _ Hd Hds) as (H1 & H2 & H3 & H4 & H5 & H6 & H7 & H8).
  unfold source_scan_token_at, TokenSource.stream_scan. rewrite Hsn, Hs. cbn [outcome_bind].
  split; [done|]. split; [done|]. split; [by split|]. constructor; try done; [congruence|by apply H3|].
  unfold TokenSource.diags_at. by rewrite Hs.
Qed.

Lemma stream_token_0 a : boundary (text s) a -> stream_token a 0 = stream_scan a Normal.
Proof using All.
  intros Ha. cbn [TokenSource.stream_token]. by destruct (stream_scan_ok (B := B) is_alphanumeric s a Normal Ha) as (t & b & -> & _).
Qed.

Lemma push_eof_spec n l o :
  push_eof n l o = Ret (l ++ repeat {| token_kind := EndOfFileToken; token_range := TextRange_empty o;
    presence := Present; leading_trivia := []; trailing_trivia := [] |} n).
Proof using.
  revert l. induction n as [|n IH]; intros l; cbn [push_eof repeat]; [by rewrite app_nil_r|].
  cbn. by rewrite IH, <- app_assoc.
Qed.

Lemma forget_kind t : token_kind (forget_eof_trivia t) = token_kind t.
Proof using. unfold forget_eof_trivia. by destruct (is_eof t). Qed.

Lemma forget_eof_same t t' : forget_eof_trivia t = forget_eof_trivia t' -> is_eof t = is_eof t'.
Proof using.
  intros H. unfold is_eof, is_end_of_file. by rewrite <- (forget_kind t), H, forget_kind.
Qed.

Lemma forget_eof_neq t t' : forget_eof_trivia t = forget_eof_trivia t' -> is_eof t = false -> t = t'.
Proof using.
  intros H He. pose proof (forget_eof_same _ _ H) as He'. unfold forget_eof_trivia in H.
  by rewrite He, <- He', He in H.
Qed.

(** Appending the next scanned token keeps the cache a prefix of the stream. *)
Lemma cache_extend self self' t :
  ls_ok self -> cache_policy self = CacheTokens ->
  let n := length (cached_tokens self) in
  scan_step (stream_pos (cursor self) n) Normal self self' t -> stream_token (cursor self) n = Ret t ->
  ls_ok (set_cached self' (cached_tokens self' ++ [t])).
Proof using.
  intros [H1 H2 H3 H4 H5 H6 H7] Hp n [S1 S2 S3 S4 S5 S6 S7 S8] Hn.
  constructor; cbn; rewrite ?S1, ?S2, ?S3, ?S4; try done; [| |by rewrite Hp|].
  - intros i t0 Hi. apply lookup_app_Some in Hi as [Hi|[Hle Hi]]; [by apply H4|].
    apply list_lookup_singleton_Some in Hi as [Heq <-]. assert (i = n) as -> by lia. by exists t.
  - apply Forall_app. split; [|by constructor].
    eapply Forall_impl; [|exact H5]. intros x. apply S6.
  - intros i. rewrite length_app. cbn [length]. intros Hi. rewrite S8.
    destruct (decide (i = n)) as [->|]; [apply covered_nub_r|]. apply covered_nub, H7. lia.
Qed.

Lemma cache_last self t :
  ls_ok self -> list.last (cached_tokens self) = Some t ->
  exists n t', length (cached_tokens self) = S n /\ stream_token (cursor self) n = Ret t' /\
    same_token t t'.
Proof using.
  intros Hok Hl. rewrite last_lookup in Hl. destruct (cached_tokens self) as [|x l] eqn:E; [done|].
  exists (length l). cbn in Hl. rewrite <- E in Hl.
  destruct (lo_cache _ Hok _ _ Hl) as (t' & ? & ?). exists t'. by split_and!.
Qed.

(** What an operation that only fills the cache preserves. *)
Definition same_view (self self' : LexerTokenSource B) : Prop :=
  ls_ok self' /\ cursor self' = cursor self /\ cache_policy self' = cache_policy self /\
  keeps (sink_contents (ls_diagnostics self)) (sink_contents (ls_diagnostics self')).

Lemma scan_step_view a mode self self' t l :
  scan_step a mode self self' t -> ls_ok (set_cached self' l) -> same_view self (set_cached self' l).
Proof using. intros [S1 S2 S3 S4 S5 S6 S7 S8] H. by split_and!. Qed.

Lemma recorded_nub self : ls_ok self -> nub (recorded self) = recorded self.
Proof using All. intros H. apply sink_contents_nub. apply H. Qed.

Lemma stream_eof_after a n m t :
  boundary (text s) a -> stream_token a n = Ret t -> is_eof t = true -> (n <= m)%nat -> stream_token a m = Ret t.
Proof using All.
  intros Ha Hn He Hle. induction Hle as [|m Hle IH]; [done|].
  rewrite (stream_token_next _ _ _ m t Ha IH). by rewrite He.
Qed.

(** The canonical end-of-file token, as [SyntaxToken::end_of_file] makes it. *)
Definition eof_token : SyntaxToken :=
  {| token_kind := EndOfFileToken; token_range := TextRange_empty (zlen (text s)); presence := Present;
     leading_trivia := []; trailing_trivia := [] |}.

(** Once the stream has reached the end, every later token is the end of file. *)
Lemma stream_eof_forget a n t :
  boundary (text s) a -> stream_token a n = Ret t -> is_eof t = true ->
  forget_eof_trivia t = eof_token /\ token_start t = zlen (text s) /\ end_ (full_range t) = zlen (text s).
Proof using All.
  intros Ha Hn He. destruct (stream_token_ok (B := B) is_alphanumeric s _ n Ha) as (a' & t1 & b & Ht1 & Hsc & _ & _).
  assert (t1 = t) as -> by congruence. destruct (scanned_eof _ _ _ _ Hsc He) as (Hb & Hf & Hst).
  destruct (scanned_end _ _ _ _ Hsc) as (-> & _). done.
Qed.

Lemma forget_start t t' : forget_eof_trivia t = forget_eof_trivia t' -> token_start t = token_start t'.
Proof using.
  intros H. assert (token_range t = token_range t') as Hr.
  { apply (f_equal token_range) in H. unfold forget_eof_trivia in H. by destruct (is_eof t), (is_eof t'). }
  unfold token_start. by rewrite Hr.
Qed.

(** Padding the cache after its end-of-file token. *)
Lemma cache_pad self n t t' k :
  ls_ok self -> cache_policy self = CacheTokens ->
  length (cached_tokens self) = S n -> stream_token (cursor self) n = Ret t' ->
  forget_eof_trivia t = forget_eof_trivia t' -> is_eof t = true ->
  ls_ok (set_cached self (cached_tokens self ++ repeat eof_token k)).
Proof using All.
  intros Hok Hp Hlen Hn Hf He. pose proof (lo_cursor _ Hok) as Hcur.
  assert (is_eof t' = true) as He' by (by rewrite <- (forget_eof_same _ _ Hf)).
  destruct (stream_eof_forget _ _ _ Hcur Hn He') as (Ht' & _ & He2).
  destruct Hok as [H1 H2 H3 H4 H5 H6 H7]. constructor; cbn; try done; [| |by rewrite Hp|].
  - intros i x Hi. apply lookup_app_Some in Hi as [Hi|[Hle Hi]]; [by apply H4|].
    exists t'. split; [apply (stream_eof_after _ n); done || lia|].
    apply list_elem_of_lookup_2, list_elem_of_In, repeat_spec in Hi. subst x.
    split; [by rewrite Ht'|by rewrite He2].
  - apply Forall_app. split; [done|]. apply Forall_forall. intros x Hx.
    apply repeat_spec in Hx. subst x. by intros ?.
  - intros i Hi. destruct (decide (i <= n)%nat); [apply H7; lia|].
    destruct (stream_pos_eof (B := B) is_alphanumeric s _ n i t' Hcur Hn He') as [-> _]; [lia|]. apply H7. lia.
Qed.

(** The invariant of the loop that fills the cache up to [d]. *)
Definition filling (self : LexerTokenSource B) (d : nat) (x : LexerTokenSource B) : Prop :=
  same_view self x /\ (length (cached_tokens x) <= S d)%nat /\
  recorded x = diags_upto (recorded self) (cursor self) (length (cached_tokens x)).

(** One more token in the cache. *)
Lemma filling_scan self d x :
  filling self d x -> cache_policy self = CacheTokens -> (length (cached_tokens x) <= d)%nat ->
  returns (let! scanned := source_scan_token_at is_alphanumeric x (stream_pos (cursor x) (length (cached_tokens x))) Normal in
           let (next, x) := scanned in continue_ (set_cached x (cached_tokens x ++ [next])))
    (fun step : LexerTokenSource B + LexerTokenSource B =>
       match step with
       | inl x' => filling self d x' /\ length (cached_tokens x') = S (length (cached_tokens x))
       | inr _ => False
       end).
Proof using All.
  intros (Hv & _ & Hrec) Hp Hle. pose proof Hv as (Hxok & Hxc & Hxp & Hxk). rewrite Hp in Hxp.
  pose proof (lo_cursor _ Hxok) as Hcur.
  destruct (stream_pos_spec (B := B) is_alphanumeric s _ (length (cached_tokens x)) Hcur) as [Hpos Htok].
  destruct (source_scan_ok x _ Normal (lo_snapshot _ Hxok) (lo_diagnostics _ Hxok) Hpos)
    as (t & x' & b & -> & Hs & Hsc & Hstep). cbn [outcome_bind]. apply returns_ret. rewrite Hs in Htok.
  pose proof (cache_extend _ _ _ Hxok Hxp Hstep Htok) as Hok'.
  destruct (scan_step_view _ _ _ _ _ _ Hstep Hok') as (V1 & V2 & V3 & V4).
  assert (length (cached_tokens (set_cached x' (cached_tokens x' ++ [t]))) = S (length (cached_tokens x))) as Hlen.
  { cbn. rewrite (ss_cached _ _ _ _ _ Hstep), length_app. cbn. lia. }
  split; [|done]. unfold filling. rewrite Hlen. split; [|split; [lia|]].
  { split_and!; [done|congruence|congruence|by eapply keeps_trans]. }
  cbn [set_cached ls_diagnostics TokenSource.diags_upto]. by rewrite (ss_recorded _ _ _ _ _ Hstep), Hrec, Hxc.
Qed.

Lemma ensure_step_ok self d x :
  ls_ok self -> filling self d x -> cache_policy self = CacheTokens ->
  returns (ensure_step is_alphanumeric d x) (fun step =>
    match step with
    | inl x' => filling self d x' /\ (S d - length (cached_tokens x') < S d - length (cached_tokens x))%nat
    | inr r => filling self d r /\ length (cached_tokens r) = S d
    end).
Proof using All.
  intros Hok0 Hf Hp. pose proof Hf as (Hv & Hlen & Hrec). pose proof Hv as (Hxok & Hxc & Hxp & Hxk).
  pose proof (lo_cursor _ Hxok) as Hcur. unfold ensure_step.
  destruct (_ <=? _)%nat eqn:El; [apply Nat.leb_le in El|apply Nat.leb_gt in El; apply returns_ret; split; [done|lia]].
  pose proof (filling_scan _ _ _ Hf Hp El) as Hscan.
  eapply (returns_mono _ _ (fun step => match step with
    | inl x' => filling self d x' /\ (S d - length (cached_tokens x') < S d - length (cached_tokens x))%nat
    | inr r => filling self d r /\ length (cached_tokens r) = S d end)) in Hscan;
    [|intros [x'|r]; [intros [? ?]; split; [done|lia]|done]].
  destruct (list.last (cached_tokens x)) as [t|] eqn:Elast.
  - destruct (cache_last _ _ Hxok Elast) as (n & t' & Hl & Hn & Hforget & Hend).
    pose proof (forget_eof_same _ _ Hforget) as Hsame.
    assert (stream_pos (cursor x) (length (cached_tokens x)) = if is_eof t' then stream_pos (cursor x) n else end_ (full_range t'))
      as Hpos by (by rewrite Hl; cbn [TokenSource.stream_pos]; rewrite Hn).
    rewrite Hpos, <- Hsame, <- Hend in Hscan.
    destruct (is_eof t) eqn:Heof; [|exact Hscan]. clear Hscan. symmetry in Hsame.
    destruct (stream_eof_forget _ _ _ Hcur Hn Hsame) as (Hft' & Hst' & _).
    unfold fill_with_eof. rewrite push_eof_spec, (forget_start _ _ Hforget), Hst'. cbn [outcome_bind].
    apply returns_ret. assert (length (cached_tokens x ++ repeat eof_token (S d - length (cached_tokens x))) = S d) as Hfull
      by (rewrite length_app, repeat_length; lia).
    split; [|done]. unfold filling. cbn [set_cached cached_tokens cursor ls_diagnostics].
    fold eof_token. rewrite Hfull. split; [split_and!; [|done|done|done]|split; [lia|]].
    + apply (cache_pad x n t t'); congruence || done.
    + rewrite Hrec, Hl, <- Hxc. symmetry.
      refine (diags_upto_eof (B := B) is_alphanumeric s _ _ n d t' Hcur _ Hn Hsame _); [by apply recorded_nub|lia].
  - apply last_None in Elast. rewrite Elast in Hscan. cbn [length TokenSource.stream_pos] in Hscan. rewrite Elast. exact Hscan.
Qed.
Lemma ensure_cached_ok self d :
  ls_ok self -> cache_policy self = CacheTokens ->
  returns (ensure_cached is_alphanumeric self d) (fun self' =>
    same_view self self' /\ (d < length (cached_tokens self'))%nat /\
    recorded self' = diags_upto (recorded self) (cursor self) (S d)).
Proof using All.
  intros Hok Hp. pose proof (recorded_nub _ Hok) as Hnub. unfold ensure_cached.
  assert (same_view self self) as Hv by (split_and!; try done; apply keeps_refl).
  destruct (decide (S d <= length (cached_tokens self))%nat) as [Hle|Hgt].
  - cbn [loop]. unfold ensure_step at 1. destruct (_ <=? _)%nat eqn:El; [apply Nat.leb_le in El; lia|].
    cbn [outcome_bind]. apply returns_ret. split_and!; [done|lia|]. symmetry. apply diags_upto_known; [done|].
    intros i Hi. apply (lo_covered _ Hok). lia.
  - apply (returns_mono _ (fun x => filling self d x /\ length (cached_tokens x) = S d));
      [|intros x [(Hx & _ & Hrec) Hlen]; split_and!; [exact Hx|lia|by rewrite Hrec, Hlen]].
    apply (loop_rule (filling self d) (fun x => (S d - length (cached_tokens x))%nat));
      [intros x Hx; by apply ensure_step_ok| |lia].
    split_and!; [done|lia|]. symmetry. apply diags_upto_known; [done|]. apply (lo_covered _ Hok).
Qed.

Lemma same_token_refl t : same_token t t.
Proof using. by split. Qed.

(** What looking ahead promises: the token of the stream, reported if invalid. *)
Definition looked (self : LexerTokenSource B) (n : nat) (t : SyntaxToken) (self' : LexerTokenSource B) : Prop :=
  same_view self self' /\ reported (recorded self') t /\
  recorded self' = diags_upto (recorded self) (cursor self) (S n) /\
  exists t', stream_token (cursor self) n = Ret t' /\ same_token t t'.

Lemma same_view_refl self : ls_ok self -> same_view self self.
Proof using. intros H. split_and!; try done. apply keeps_refl. Qed.

Lemma same_view_trans x y z : same_view x y -> same_view y z -> same_view x z.
Proof using.
  intros (_ & H2 & H3 & H4) (K1 & K2 & K3 & K4). split_and!; [done|congruence..|].
  by eapply keeps_trans.
Qed.

Lemma cached_lookahead_ok self n :
  ls_ok self -> cache_policy self = CacheTokens ->
  returns (cached_lookahead is_alphanumeric self n) (fun '(t, self') => looked self n t self').
Proof using All.
  intros Hok Hp. eapply returns_bind; [by apply ensure_cached_ok|]. intros self' (Hv & Hlen & Hrec).
  destruct (lookup_lt_is_Some_2 _ _ Hlen) as [t Ht]. rewrite Ht. apply returns_ret.
  pose proof Hv as (Hok' & Hc & _). destruct (lo_cache _ Hok' _ _ Ht) as (t' & Ht' & Hs).
  split; [done|]. split.
  - pose proof (lo_reported _ Hok') as Hr. rewrite Forall_forall in Hr. apply Hr.
    by eapply list_elem_of_In, list_elem_of_lookup_2.
  - split; [done|]. exists t'. by rewrite <- Hc.
Qed.

(** A scan that leaves an empty cache empty. *)
Lemma scan_view a mode self self' t :
  ls_ok self -> scan_step a mode self self' t -> same_view self self'.
Proof using.
  intros [H1 H2 H3 H4 H5 H6 H7] [S1 S2 S3 S4 S5 S6 S7 S8]. split; [|by split_and!].
  constructor; rewrite ?S1, ?S2, ?S3, ?S4; try done.
  - eapply Forall_impl; [|exact H5]. intros x. apply S6.
  - intros i Hi. rewrite S8. by apply covered_nub, H7.
Qed.

Lemma uncached_from_ok n self0 self t i :
  ls_ok self0 -> same_view self0 self -> stream_token (cursor self0) i = Ret t ->
  reported (recorded self) t -> recorded self = diags_upto (recorded self0) (cursor self0) (S i) ->
  returns (uncached_from is_alphanumeric self t n) (fun '(t, self') => looked self0 (i + n) t self').
Proof using All.
  intros Hok0. pose proof (lo_cursor _ Hok0) as Hcur. pose proof (recorded_nub _ Hok0) as Hnub.
  revert self t i. induction n as [|n IH]; intros self t i Hv Hi Hr Hrec; cbn [uncached_from].
  - apply returns_ret. rewrite Nat.add_0_r. split_and!; [done..|]. by exists t.
  - pose proof Hv as (Hok & Hc & _). destruct (is_eof t) eqn:He.
    + apply returns_ret. split; [done|]. split; [done|].
      split; [by rewrite Hrec, (diags_upto_eof (B := B) is_alphanumeric s _ _ i (i + S n) t Hcur Hnub Hi He) by lia|].
      exists t. split; [|apply same_token_refl]. apply (stream_eof_after _ i); done || lia.
    + destruct (stream_pos_spec (B := B) is_alphanumeric s _ (S i) Hcur) as [Hpb Hpt].
      assert (stream_pos (cursor self0) (S i) = end_ (full_range t)) as Hpos
        by (by cbn [TokenSource.stream_pos]; rewrite Hi, He).
      rewrite Hpos in Hpb, Hpt.
      destruct (source_scan_ok self (end_ (full_range t)) Normal) as (t2 & x' & b2 & -> & Hs2 & Hsc2 & Hstep);
        [apply Hok|apply Hok|done|].
      cbn [outcome_bind]. pose proof (scan_view _ _ _ _ _ Hok Hstep) as Hv'.
      rewrite <- Nat.add_succ_comm. apply IH;
        [by eapply same_view_trans|by rewrite Hpt|apply (ss_reported _ _ _ _ _ Hstep)|].
      rewrite (ss_recorded _ _ _ _ _ Hstep), Hrec, <- Hpos. done.
Qed.

Lemma uncached_lookahead_ok self n :
  ls_ok self ->
  returns (uncached_lookahead is_alphanumeric self n) (fun '(t, self') => looked self n t self').
Proof using All.
  intros Hok. pose proof (lo_cursor _ Hok) as Hcur. unfold uncached_lookahead.
  destruct (source_scan_ok self (cursor self) Normal) as (t & x' & b & -> & Hs & Hsc & Hstep);
    [apply Hok|apply Hok|done|].
  cbn [outcome_bind]. pose proof (scan_view _ _ _ _ _ Hok Hstep) as Hv.
  apply (uncached_from_ok n self x' t 0);
    [done|done|by rewrite stream_token_0|apply (ss_reported _ _ _ _ _ Hstep)|apply (ss_recorded _ _ _ _ _ Hstep)].
Qed.

Lemma lookahead_ok self n :
  ls_ok self -> returns (lookahead is_alphanumeric self n) (fun '(t, self') => looked self n t self').
Proof using All.
  intros Hok. unfold lookahead. destruct (cache_policy self) eqn:E;
    [by apply cached_lookahead_ok|by apply uncached_lookahead_ok].
Qed.

(** A window of [n] tokens from the cursor. *)
Definition window (self : LexerTokenSource B) (n : nat) (l : list SyntaxToken) : Prop :=
  length l = n /\ forall i t, l !! i = Some t ->
    exists t', stream_token (cursor self) i = Ret t' /\ same_token t t'.

Definition looked_window (self : LexerTokenSource B) (n : nat) (l : list SyntaxToken)
    (self' : LexerTokenSource B) : Prop :=
  same_view self self' /\ Forall (reported (recorded self')) l /\ window self n l /\
  recorded self' = diags_upto (recorded self) (cursor self) n.

Lemma cached_window_ok self n :
  ls_ok self -> cache_policy self = CacheTokens -> (0 < n)%nat ->
  returns (cached_lookahead_window is_alphanumeric self n) (fun '(l, self') => looked_window self n l self').
Proof using All.
  intros Hok Hp Hn. eapply returns_bind; [by apply ensure_cached_ok|]. intros self' (Hv & Hlen & Hrec).
  apply returns_ret. pose proof Hv as (Hok' & Hc & _). split; [done|]. split; [apply Forall_take, Hok'|].
  split; [|by replace n with (S (n - 1)) by lia].
  - split; [rewrite length_take; lia|]. intros i t Hi. apply lookup_take_Some in Hi as [Hi _].
    rewrite <- Hc. by apply (lo_cache _ Hok').
Qed.

Lemma window_snoc self l t t' :
  window self (length l) l -> stream_token (cursor self) (length l) = Ret t' -> same_token t t' ->
  window self (S (length l)) (l ++ [t]).
Proof using.
  intros [_ Hw] Ht Hs. split; [rewrite length_app; cbn; lia|]. intros i x Hi.
  apply lookup_app_Some in Hi as [Hi|[Hle Hi]]; [by apply Hw|].
  apply list_lookup_singleton_Some in Hi as [Heq <-].
  assert (i = length l) as -> by lia. by exists t'.
Qed.

(** Padding a window that has reached the end of file. *)
Lemma window_pad self l t k :
  boundary (text s) (cursor self) ->
  window self (length l) l -> (0 < length l)%nat ->
  stream_token (cursor self) (length l - 1) = Ret t -> is_eof t = true ->
  window self (length l + k) (l ++ repeat eof_token k).
Proof using All.
  intros Hcur [_ Hw] Hpos Ht He. destruct (stream_eof_forget _ _ _ Hcur Ht He) as (Hf & _ & Hend).
  split; [by rewrite length_app, repeat_length|]. intros i x Hi.
  apply lookup_app_Some in Hi as [Hi|[Hle Hi]]; [by apply Hw|]. exists t.
  split; [apply (stream_eof_after _ (length l - 1)); done || lia|].
  apply list_elem_of_lookup_2, list_elem_of_In, repeat_spec in Hi. subst x. by split; [rewrite Hf|rewrite Hend].
Qed.

Lemma reported_eofs l k : Forall (reported l) (repeat eof_token k).
Proof using. apply Forall_forall. intros x Hx. apply repeat_spec in Hx. subst x. by intros ?. Qed.

Lemma uncached_window_from_ok k self0 self l :
  ls_ok self0 -> same_view self0 self -> Forall (reported (recorded self)) l -> window self0 (length l) l ->
  recorded self = diags_upto (recorded self0) (cursor self0) (length l) ->
  returns (uncached_window_from is_alphanumeric self l (stream_pos (cursor self0) (length l)) k)
    (fun '(l', self') => looked_window self0 (length l + k) l' self').
Proof using All.
  intros Hok0. pose proof (lo_cursor _ Hok0) as Hcur. pose proof (recorded_nub _ Hok0) as Hnub.
  revert self l. induction k as [|k IH]; intros self l Hv Hr Hw Hrec; cbn [uncached_window_from].
  - apply returns_ret. by rewrite Nat.add_0_r.
  - pose proof Hv as (Hok & _).
    destruct (stream_pos_spec (B := B) is_alphanumeric s _ (length l) Hcur) as [Hpb Hn].
    destruct (source_scan_ok self _ Normal (lo_snapshot _ Hok) (lo_diagnostics _ Hok) Hpb)
      as (t & x' & b & -> & Hs & Hsc & Hstep).
    cbn [outcome_bind]. pose proof (scan_view _ _ _ _ _ Hok Hstep) as Hv'. rewrite Hs in Hn.
    pose proof (window_snoc _ _ _ _ Hw Hn (same_token_refl t)) as Hw'.
    assert (Forall (reported (recorded x')) (l ++ [t])) as Hr'.
    { apply Forall_app. split; [|constructor; [apply (ss_reported _ _ _ _ _ Hstep)|done]].
      eapply Forall_impl; [|exact Hr]. intros y. apply (ss_keeps _ _ _ _ _ Hstep). }
    pose proof (same_view_trans _ _ _ Hv Hv') as Hv2.
    assert (length (l ++ [t]) = S (length l)) as Hlen by (rewrite length_app; cbn; lia).
    assert (recorded x' = diags_upto (recorded self0) (cursor self0) (S (length l))) as Hrec'
      by (by rewrite (ss_recorded _ _ _ _ _ Hstep), Hrec).
    destruct (scanned_end _ _ _ _ Hsc) as (Hend & Hb & _). rewrite <- Nat.add_succ_comm, <- Hlen.
    rewrite <- Hlen in Hw'. destruct (is_eof t) eqn:He.
    + destruct (scanned_eof _ _ _ _ Hsc He) as (-> & _). rewrite push_eof_spec, Hend. cbn [outcome_bind].
      apply returns_ret. split; [done|]. split; [apply Forall_app; split; [done|apply reported_eofs]|]. split.
      * apply (window_pad self0 _ t k); [done|done|lia| |done]. by rewrite Hlen, Nat.sub_succ, Nat.sub_0_r.
      * rewrite Hlen, Hrec'. symmetry.
        refine (diags_upto_eof (B := B) is_alphanumeric s _ _ (length l) (length l + k) t Hcur Hnub Hn He _). lia.
    + assert (end_ (full_range t) = stream_pos (cursor self0) (length (l ++ [t]))) as ->
        by (by rewrite Hlen; cbn [TokenSource.stream_pos]; rewrite Hn, He).
      apply IH; [done|done|done|by rewrite Hlen].
Qed.

Lemma lookahead_window_ok self n :
  ls_ok self ->
  returns (lookahead_window is_alphanumeric self n) (fun '(l, self') => looked_window self n l self').
Proof using All.
  intros Hok. unfold lookahead_window. destruct (n =? 0)%nat eqn:En.
  - apply Nat.eqb_eq in En as ->. apply returns_ret. split; [by apply same_view_refl|]. split; [done|].
    split; [|done]. split; [done|]. by intros i t Hi.
  - apply Nat.eqb_neq in En. destruct (cache_policy self) eqn:E; [apply cached_window_ok; done || lia|].
    apply (uncached_window_from_ok n self self []); [done|by apply same_view_refl|done| |done].
    split; [done|]. by intros i t Hi.
Qed.

(** At the end of the text the stream is the end of file. *)
Lemma stream_scan_end :
  exists t, stream_scan (zlen (text s)) Normal = Ret t /\ is_eof t = true.
Proof using All.
  assert (boundary (text s) (zlen (text s))) as Hb by apply boundary_len, wf_text.
  destruct (stream_scan_ok (B := B) is_alphanumeric s _ Normal Hb) as (t & b & Hs & Hsc).
  exists t. split; [done|]. destruct (is_eof t) eqn:He; [done|].
  pose proof (scanned_progress _ _ _ _ Hsc He). destruct (scanned_end _ _ _ _ Hsc) as (_ & Hb' & _).
  apply boundary_range in Hb'. lia.
Qed.

(** Tokens that stand for the end of file stand for it at the end of the text. *)
Lemma same_token_end a n t t' i :
  boundary (text s) a -> stream_token a n = Ret t' -> is_eof t' = true -> same_token t t' ->
  exists t'', stream_token (zlen (text s)) i = Ret t'' /\ same_token t t''.
Proof using All.
  intros Ha Hn He [Hf Hend]. destruct stream_scan_end as (e & Hse & Hee).
  assert (boundary (text s) (zlen (text s))) as Hb by apply boundary_len, wf_text.
  pose proof (stream_token_eof (B := B) is_alphanumeric s _ _ i Hse Hee) as Hi.
  destruct (stream_eof_forget _ _ _ Ha Hn He) as (F1 & _ & F2).
  destruct (stream_eof_forget _ _ _ Hb Hi Hee) as (G1 & _ & G2).
  exists e. split; [done|]. split; congruence.
Qed.

(** What consuming promises. *)
Definition consumed (self : LexerTokenSource B) (mode : LexerScanMode) (t : SyntaxToken)
    (self' : LexerTokenSource B) : Prop :=
  ls_ok self' /\ cache_policy self' = cache_policy self /\
  keeps (sink_contents (ls_diagnostics self)) (sink_contents (ls_diagnostics self')) /\
  reported (recorded self') t /\ recorded self' = nub (recorded self ++ diags_at (cursor self) mode) /\
  exists t', stream_scan (cursor self) mode = Ret t' /\ same_token t t' /\
    cursor self' = end_ (full_range t').

Lemma advance_eof_ok self t t' :
  ls_ok self -> stream_scan (cursor self) Normal = Ret t' -> same_token t t' -> is_eof t = true ->
  ls_ok (set_cursor self (end_ (full_range t))).
Proof using All.
  intros Hok Ht Hs He. pose proof (lo_cursor _ Hok) as Hcur. pose proof Hs as [Hf Hend].
  assert (is_eof t' = true) as He' by (by rewrite <- (forget_eof_same _ _ Hf)).
  rewrite <- stream_token_0 in Ht by done.
  destruct (stream_eof_forget _ _ _ Hcur Ht He') as (_ & _ & Hz). rewrite Hend, Hz.
  destruct Hok as [H1 H2 H3 H4 H5 H6 H7]. constructor; cbn; try done; [exact (end_boundary s)| |].
  2: { intros i _. destruct stream_scan_end as (e & Hse & Hee). rewrite <- stream_token_0 in Hse by exact (end_boundary s).
       destruct (stream_pos_eof (B := B) is_alphanumeric s _ 0 i e (end_boundary s) Hse Hee) as [-> _]; [lia|].
       cbn [TokenSource.stream_pos]. rewrite (diags_at_end (B := B) is_alphanumeric s).
       intros k Hk. by apply not_elem_of_nil in Hk. }
  intros i x Hi. destruct (H4 _ _ Hi) as (y & Hy & Hxy).
  assert (y = t') as -> by (rewrite (stream_eof_after _ 0 i t') in Hy by (done || lia); congruence).
  by eapply (same_token_end (cursor self) i).
Qed.

Lemma advance_ok self t t' b :
  ls_ok self -> stream_scan (cursor self) Normal = Ret t' -> scanned s (cursor self) t' b ->
  same_token t t' ->
  let self' := advance_after_consuming self t in
  ls_ok self' /\ cursor self' = b /\ cache_policy self' = cache_policy self /\
  ls_diagnostics self' = ls_diagnostics self.
Proof using All.
  intros Hok Ht Hsc Hs. pose proof Hs as [Hf Hend].
  destruct (scanned_end _ _ _ _ Hsc) as (Hb & Hbb & _). unfold advance_after_consuming.
  destruct (is_eof t) eqn:He; cbn zeta.
  - split_and!; [by eapply advance_eof_ok|cbn; congruence|done|done].
  - pose proof (forget_eof_neq _ _ Hf He) as <-. rewrite Hb. destruct Hok as [H1 H2 H3 H4 H5 H6 H7].
    cbn [cache_policy cached_tokens set_cursor].
    destruct (cached_tokens self) as [|x l] eqn:Ec; cbn [is_nil negb].
    { rewrite Bool.andb_false_r. split_and!; try done. constructor; cbn; rewrite ?Ec; try done. cbn. intros; lia. }
    assert (cache_policy self = CacheTokens) as Hp.
    { destruct (cache_policy self); [done|]. by specialize (H6 eq_refl). }
    rewrite bool_decide_true by done. cbn [andb]. split_and!; try done.
    constructor; cbn; try done; [| |by rewrite Hp|].
    + intros i y Hi. rewrite <- (stream_token_unfold (B := B) is_alphanumeric s _ t b i Ht Hsc He).
      by apply H4.
    + by inversion H5.
    + intros i Hi. rewrite <- (stream_pos_shift (B := B) is_alphanumeric s _ t b i H2 Ht Hsc He).
      apply H7. cbn [length]. lia.
Qed.

Lemma consume_ok self :
  ls_ok self -> returns (consume is_alphanumeric self) (fun '(t, self') => consumed self Normal t self').
Proof using All.
  intros Hok. pose proof (lo_cursor _ Hok) as Hcur.
  eapply returns_bind; [by apply lookahead_ok|]. intros [t x] (Hv & Hr & Hrec & t' & Ht' & Hs).
  pose proof Hv as (Hxok & Hc & Hp & Hk). rewrite stream_token_0 in Ht' by done.
  destruct (stream_scan_ok (B := B) is_alphanumeric s _ Normal Hcur) as (t1 & b & Hs1 & Hsc).
  assert (t1 = t') as -> by congruence. rewrite <- Hc in Hs1, Hsc.
  destruct (advance_ok x t t' b Hxok Hs1 Hsc Hs) as (A1 & A2 & A3 & A4).
  apply returns_ret. split; [done|]. rewrite A2, A3, A4. split_and!; [done..|].
  exists t'. rewrite Hc in Hs1. destruct (scanned_end _ _ _ _ Hsc) as (-> & _). done.
Qed.

Lemma consume_with_mode_ok self mode :
  ls_ok self ->
  returns (consume_with_mode is_alphanumeric self mode) (fun '(t, self') => consumed self mode t self').
Proof using All.
  intros Hok. destruct Hok as [H1 H2 H3 H4 H5 H6 H7]. unfold consume_with_mode.
  destruct (source_scan_ok (set_cached self []) (cursor self) mode) as (t & x & b & Heq & Hs & Hsc & [S1 S2 S3 S4 S5 S6 S7 S8]);
    [done..|].
  cbn [cursor set_cached] in *. rewrite Heq. cbn [outcome_bind]. apply returns_ret.
  cbn [cursor set_cached cached_tokens cache_policy ls_diagnostics] in *.
  destruct (scanned_end _ _ _ _ Hsc) as (Hb & Hbb & _). split.
  { constructor; cbn; rewrite ?S4, ?Hb; try done. cbn. intros; lia. }
  split_and!; try done. by exists t.
Qed.

Lemma with_cache_policy_ok policy : ls_ok (with_cache_policy s policy).
Proof using All.
  constructor; cbn; try done; [apply boundary_0, wf_text| |intros; lia]. destruct sink_new_spec as [? Hc].
  constructor; [done|]. by rewrite Hc.
Qed.

(** With an empty cache, consuming is one scan from the cursor. *)
Lemma consume_scans self t self1 b :
  ls_ok self -> cached_tokens self = [] -> scanned s (cursor self) t b ->
  source_scan_token_at is_alphanumeric self (cursor self) Normal = Ret (t, self1) ->
  exists self', consume is_alphanumeric self = Ret (t, self') /\
    (is_eof t = false -> cached_tokens self' = []).
Proof using All.
  intros Hok Hc Hsc Hs. assert (cached_tokens self1 = [] /\ cache_policy self1 = cache_policy self) as [Hc1 Hp1].
  { destruct (source_scan_ok self (cursor self) Normal) as (t1 & x & b1 & Hs1 & _ & _ & Hst);
      [apply Hok|apply Hok|apply Hok|]. rewrite Hs in Hs1. simplify_eq. by rewrite (ss_cached _ _ _ _ _ Hst), (ss_policy _ _ _ _ _ Hst). }
  unfold consume, lookahead. destruct (cache_policy self) eqn:Hp.
  - unfold cached_lookahead, ensure_cached. cbn [loop]. unfold ensure_step at 1. rewrite Hc. cbn [length Nat.leb list.last].
    rewrite Hs. cbn [outcome_bind]. rewrite Hc1. unfold ensure_step. cbn [cached_tokens set_cached app length Nat.leb outcome_bind].
    cbn. eexists. split; [done|]. intros He. unfold advance_after_consuming. rewrite He. cbn.
    by rewrite bool_decide_true by congruence.
  - unfold uncached_lookahead. rewrite Hs. cbn [outcome_bind uncached_from]. eexists. split; [done|].
    intros He. unfold advance_after_consuming. rewrite He. cbn. rewrite Hc1. cbn. by rewrite Bool.andb_false_r.
Qed.

(** ** Draining a source unit *)

(** Consecutive tokens that cover the text between two offsets. *)
Inductive tokens_tile : Z -> list SyntaxToken -> Z -> Prop :=
| tokens_nil a : tokens_tile a [] a
| tokens_snoc a l b t c : tokens_tile a l b -> token_tile (text s) b t c -> tokens_tile a (l ++ [t]) c.

(** The text that a token list stands for: the [full_text] of every token. *)
Fixpoint tokens_text (l : list SyntaxToken) : outcome str :=
  match l with
  | [] => Ret []
  | t :: l' =>
      let! first := full_text t (text s) in
      let! rest := tokens_text l' in
      Ret (first ++ rest)
  end.

Lemma tokens_text_snoc l t x y :
  tokens_text l = Ret x -> full_text t (text s) = Ret y -> tokens_text (l ++ [t]) = Ret (x ++ y).
Proof using.
  intros Hl Ht. revert x Hl. induction l as [|u l IH]; intros x Hl; cbn [tokens_text app] in *.
  - simplify_eq. rewrite Ht. cbn. by rewrite app_nil_r.
  - destruct (full_text u (text s)) as [v| |]; cbn [outcome_bind] in *; try done.
    destruct (tokens_text l) as [w| |]; cbn [outcome_bind] in *; try done. simplify_eq.
    rewrite (IH w) by done. cbn. by rewrite app_assoc.
Qed.

Lemma tokens_tile_text a l b :
  0 <= a -> tokens_tile a l b -> a <= b /\ (l <> [] -> b <= zlen (text s)) /\ tokens_text l = Ret (between (text s) a b).
Proof using All.
  intros Ha H. induction H as [a|a l b t c H IH Ht].
  - split_and!; [lia|done|by rewrite between_empty].
  - destruct (IH Ha) as (IH1 & _ & IH3). pose proof (token_tile_boundaries _ _ _ _ Ht) as (Hb & Hc & ? & ?).
    apply boundary_range in Hc. apply boundary_range in Hb. split_and!; [lia|lia|].
    erewrite (tokens_text_snoc _ _ _ _ IH3); [|by apply (token_tile_full_text _ b t c []); [apply wf_fits|]].
    cbn [app]. by rewrite between_join by lia.
Qed.

Lemma between_whole (t : str) : between t 0 (zlen t) = t.
Proof using.
  unfold between. rewrite Z.sub_0_r. unfold ztake, zdrop, zlen. rewrite Nat2Z.id. apply take_ge. done.
Qed.

(** What lexing a source unit promises. *)
Record lexed (result : LexResult B) : Prop := {
  lx_tile : tokens_tile 0 (tokens result) (zlen (text s));
  lx_eof : exists init eof, tokens result = init ++ [eof] /\ is_end_of_file eof = true /\
    Forall (fun t => is_end_of_file t = false) init;
  lx_text : tokens_text (tokens result) = Ret (text s);
  lx_sink : sink_ok (lex_diagnostics result);
  lx_errors : Forall error_inside (sink_contents (lex_diagnostics result));
  lx_reported : Forall (reported (sink_contents (lex_diagnostics result))) (tokens result);
}.

Definition drain_inv (st : LexerTokenSource B * list SyntaxToken) : Prop :=
  let (self, acc) := st in
  ls_ok self /\ cached_tokens self = [] /\ tokens_tile 0 acc (cursor self) /\
  Forall (fun t => is_end_of_file t = false) acc /\
  Forall (reported (sink_contents (ls_diagnostics self))) acc.

Lemma drain_step_ok st :
  drain_inv st ->
  returns (drain_step is_alphanumeric st) (fun step =>
    match step with
    | inl st' => drain_inv st' /\ cursor st.1 < cursor st'.1
    | inr (self, l) => lexed {| tokens := l; lex_diagnostics := ls_diagnostics self |}
    end).
Proof using All.
  destruct st as [self acc]. intros (Hok & Hc & Htile & Hne & Hrep). pose proof (lo_cursor _ Hok) as Hcur.
  destruct (source_scan_ok self (cursor self) Normal) as (t & x & b & Hscan & Hstream & Hsc & _);
    [apply Hok|apply Hok|done|].
  destruct (consume_scans self t x b Hok Hc Hsc Hscan) as (self' & Hcons & Hempty).
  pose proof (returns_det _ _ _ (consume_ok self Hok) Hcons) as (Hok' & _ & Hk & Hr & _ & t' & Ht' & _ & Hcur').
  assert (t' = t) as -> by congruence. destruct (scanned_end _ _ _ _ Hsc) as (Hb & _ & _). rewrite Hb in Hcur'.
  assert (tokens_tile 0 (acc ++ [t]) b) as Htile' by (by econstructor; [done|apply Hsc]).
  assert (Forall (reported (sink_contents (ls_diagnostics self'))) (acc ++ [t])) as Hrep'.
  { apply Forall_app. split; [|by constructor]. eapply Forall_impl; [|exact Hrep]. intros y. apply Hk. }
  unfold drain_step. rewrite Hcons. cbn [outcome_bind]. destruct (is_end_of_file t) eqn:He; apply returns_ret.
  - destruct (scanned_eof _ _ _ _ Hsc He) as (-> & _). destruct (lo_diagnostics _ Hok') as [D1 D2].
    destruct (tokens_tile_text 0 _ _ ltac:(lia) Htile') as (_ & _ & Htext).
    constructor; cbn [tokens lex_diagnostics]; try done; [by exists acc, t|].
    by rewrite Htext, between_whole.
  - cbn [fst]. rewrite Hcur'. split; [|by apply (scanned_progress _ _ _ _ Hsc)].
    unfold drain_inv. rewrite Hcur'. split_and!; [done|by apply Hempty|done| |done].
    apply Forall_app. by split; [|constructor].
Qed.

Lemma lex_source_unit_ok : returns (lex_source_unit is_alphanumeric s) lexed.
Proof using All.
  unfold lex_source_unit, LexerTokenSource_new, drain_tokens.
  apply (returns_bind _ _ (fun '(self, l) => lexed {| tokens := l; lex_diagnostics := ls_diagnostics self |}));
    [|intros [self l] H; by apply returns_ret].
  apply (loop_rule drain_inv (fun st => Z.to_nat (zlen (text s) - cursor st.1))).
  - intros st Hst. eapply returns_mono; [by apply drain_step_ok|].
    intros [st'|[self l]]; [|done]. intros [H Hlt]. split; [done|].
    destruct st as [x l], st' as [x' l']. destruct Hst as (Hx & _), H as (Hx' & _).
    apply lo_cursor, boundary_range in Hx. apply lo_cursor, boundary_range in Hx'. cbn in *. lia.
  - split_and!; try done; [apply with_cache_policy_ok|]. constructor.
  - cbn. unfold text_fuel, zlen. lia.
Qed.
End source.

(** ** The guarantee *)

(** C1.  Lexing a source unit always terminates without panicking.  Its
    tokens, trivia included, cover the text from its first to its last byte
    without gap or overlap, so that writing them out gives back the text; the
    last token is the end of file and no other is; every diagnostic is an
    error inside the text, and every invalid token is reported by an error at
    its range. *)
Theorem lex_source_unit_correct {B} `{!DiagnosticSink B, !DiagnosticSinkLaws B} is_alphanumeric s :
  WfSnapshot s ->
  returns (lex_source_unit is_alphanumeric s) (fun result : LexResult B =>
    tokens_tile s 0 (tokens result) (zlen (text s)) /\
    tokens_text s (tokens result) = Ret (text s) /\
    (exists init eof, tokens result = init ++ [eof] /\ is_end_of_file eof = true /\
       Forall (fun t => is_end_of_file t = false) init) /\
    Forall (error_inside s) (sink_contents (lex_diagnostics result)) /\
    Forall (fun t => token_kind t = InvalidToken ->
      exists d, In d (sink_contents (lex_diagnostics result)) /\ error_at s (token_range t) d) (tokens result)).
Proof.
  intros Hwf. eapply returns_mono; [by apply lex_source_unit_ok|]. by intros result [].
Qed.

Lemma lex_source_unit_correct_witness :
  exists result : LexResult Bag, lex_source_unit ascii_table sample_snapshot = Ret result /\
    tokens_text sample_snapshot (tokens result) = Ret (text sample_snapshot).
Proof.
  destruct (lex_source_unit_correct (B := Bag) ascii_table sample_snapshot sample_snapshot_wf)
    as (result & H & _ & Ht & _).
  exists result. by split.
Defined.
