(* ===== verification/Lexer.v ===== *)
(** * The lexer as its clients see it

    The parser drives a token source by a sequence of calls: peeks, lookahead,
    windows and consumptions in three scan modes.  The abstract machine of this
    file has only a cursor; the token source, with its cache and its
    accumulated diagnostics, refines it under either cache policy.  The file
    closes with the guarantees of a whole source unit and with the grammars of
    the literal scanners. *)

From Stdlib Require Import ZArith Lia String.
From stdpp Require Import base list numbers option.
From S2P Require Import Prelude Utf8 SourceText Snapshot SyntaxKind SyntaxToken.
From S2P Require Import DiagnosticKind Diagnostic DiagnosticBag LexText LexTrivia LexLiteral LexScanner TokenSource.

(** ** Calls and their results *)

Inductive lexer_op :=
| Peek
| Lookahead (distance : nat)
| LookaheadWindow (len : nat)
| Consume
| ConsumeTupleElementIndexAfterDot
| ConsumeTypePunctuation
| AtGenericClose.

Inductive lexer_output :=
| OutToken (t : SyntaxToken)
| OutTokens (l : list SyntaxToken)
| OutBool (b : bool).

(** What a client can rely on: trivia before the end of file is dropped. *)
Definition observe (o : lexer_output) : lexer_output :=
  match o with
  | OutToken t => OutToken (forget_eof_trivia t)
  | OutTokens l => OutTokens (map forget_eof_trivia l)
  | OutBool b => OutBool b
  end.

Definition output_tokens (o : lexer_output) : list SyntaxToken :=
  match o with OutToken t => [t] | OutTokens l => l | OutBool _ => [] end.

(** The state of the abstract machine: the cursor and the distinct diagnostics so far. *)
Record stream_state := { stream_cursor : Z; stream_diagnostics : list Diagnostic }.

Section machine.
Context {B : Type} `{!DiagnosticSink B, !DiagnosticSinkLaws B}.
Context (is_alphanumeric : char -> bool).

Definition run_op (self : LexerTokenSource B) (op : lexer_op)
    : outcome (lexer_output * LexerTokenSource B) :=
  match op with
  | Peek => let! r := peek is_alphanumeric self in Ret (OutToken r.1, r.2)
  | Lookahead n => let! r := lookahead is_alphanumeric self n in Ret (OutToken r.1, r.2)
  | LookaheadWindow n => let! r := lookahead_window is_alphanumeric self n in Ret (OutTokens r.1, r.2)
  | Consume => let! r := consume is_alphanumeric self in Ret (OutToken r.1, r.2)
  | ConsumeTupleElementIndexAfterDot =>
      let! r := consume_tuple_element_index_after_dot is_alphanumeric self in Ret (OutToken r.1, r.2)
  | ConsumeTypePunctuation =>
      let! r := consume_type_punctuation is_alphanumeric self in Ret (OutToken r.1, r.2)
  | AtGenericClose => let! b := at_generic_close self in Ret (OutBool b, self)
  end.

Fixpoint run_ops (self : LexerTokenSource B) (ops : list lexer_op)
    : outcome (list lexer_output * LexerTokenSource B) :=
  match ops with
  | [] => Ret ([], self)
  | op :: ops' =>
      let! r := run_op self op in
      let! rest := run_ops r.2 ops' in
      Ret (r.1 :: rest.1, rest.2)
  end.

(** The abstract machine: an immutable text and a cursor. *)
Fixpoint stream_window (s : SourceSnapshot) (c : Z) (i n : nat) : outcome (list SyntaxToken) :=
  match n with
  | O => Ret []
  | S n' =>
      let! t := stream_token (B := B) is_alphanumeric s c i in
      let! l := stream_window s c (S i) n' in
      Ret (t :: l)
  end.

Definition spec_look (s : SourceSnapshot) (st : stream_state) (scans : nat) : stream_state :=
  {| stream_cursor := stream_cursor st;
     stream_diagnostics := diags_upto (B := B) is_alphanumeric s (stream_diagnostics st) (stream_cursor st) scans |}.

Definition spec_consume (s : SourceSnapshot) (st : stream_state) (mode : LexerScanMode)
    : outcome (lexer_output * stream_state) :=
  let! t := stream_scan (B := B) is_alphanumeric s (stream_cursor st) mode in
  Ret (observe (OutToken t),
       {| stream_cursor := end_ (full_range t);
          stream_diagnostics := nub (stream_diagnostics st ++ diags_at (B := B) is_alphanumeric s (stream_cursor st) mode) |}).

Definition spec_op (s : SourceSnapshot) (st : stream_state) (op : lexer_op)
    : outcome (lexer_output * stream_state) :=
  let c := stream_cursor st in
  match op with
  | Peek =>
      let! t := stream_token (B := B) is_alphanumeric s c 0 in Ret (observe (OutToken t), spec_look s st 1)
  | Lookahead n =>
      let! t := stream_token (B := B) is_alphanumeric s c n in Ret (observe (OutToken t), spec_look s st (S n))
  | LookaheadWindow n => let! l := stream_window s c 0 n in Ret (observe (OutTokens l), spec_look s st n)
  | Consume => spec_consume s st Normal
  | ConsumeTupleElementIndexAfterDot => spec_consume s st TupleElementIndexAfterDot
  | ConsumeTypePunctuation => spec_consume s st TypePunctuation
  | AtGenericClose =>
      let! leading := scan_leading_trivia (B := B) s c in
      Ret (OutBool (bool_decide (first_char (zdrop (ts_end leading) (text s)) = Some GREATER)), st)
  end.

Fixpoint spec_ops (s : SourceSnapshot) (st : stream_state) (ops : list lexer_op)
    : outcome (list lexer_output * stream_state) :=
  match ops with
  | [] => Ret ([], st)
  | op :: ops' =>
      let! r := spec_op s st op in
      let! rest := spec_ops s r.2 ops' in
      Ret (r.1 :: rest.1, rest.2)
  end.
End machine.

Section refinement.
Context {B : Type} `{!DiagnosticSink B, !DiagnosticSinkLaws B}.
Context (is_alphanumeric : char -> bool).
Context (s : SourceSnapshot) `{!WfSnapshot s}.

Abbreviation ls_ok := (ls_ok (B := B) is_alphanumeric s).
Abbreviation run_op := (run_op (B := B) is_alphanumeric).
Abbreviation run_ops := (run_ops (B := B) is_alphanumeric).
Abbreviation spec_op := (spec_op (B := B) is_alphanumeric s).
Abbreviation spec_ops := (spec_ops (B := B) is_alphanumeric s).

Definition diagnosed (self : LexerTokenSource B) : SyntaxToken -> Prop :=
  reported s (sink_contents (ls_diagnostics self)).

(** The abstract state of a token source. *)
Definition view (self : LexerTokenSource B) : stream_state :=
  {| stream_cursor := cursor self; stream_diagnostics := sink_contents (ls_diagnostics self) |}.

(** One concrete call is matched by one abstract call. *)
Definition simulates (self : LexerTokenSource B) (op : lexer_op) (o : lexer_output)
    (self' : LexerTokenSource B) : Prop :=
  ls_ok self' /\ spec_op (view self) op = Ret (observe o, view self') /\
  Forall (diagnosed self') (output_tokens o) /\
  keeps s (sink_contents (ls_diagnostics self)) (sink_contents (ls_diagnostics self')).

Lemma same_token_observe t t' : same_token t t' -> observe (OutToken t) = observe (OutToken t').
Proof using. intros [H _]. unfold observe. by rewrite H. Qed.

Lemma simulates_look self n op :
  ls_ok self ->
  (forall st, spec_op st op = let! t := stream_token (B := B) is_alphanumeric s (stream_cursor st) n in
     Ret (observe (OutToken t), spec_look (B := B) is_alphanumeric s st (S n))) ->
  returns (let! r := lookahead is_alphanumeric self n in Ret (OutToken r.1, r.2))
    (fun r => simulates self op r.1 r.2).
Proof using All.
  intros Hok Hspec. eapply returns_bind; [by apply lookahead_ok|].
  intros [t self'] ((Hok' & Hc & _ & Hk) & Hr & Hrec & t' & Ht' & Hs). apply returns_ret. cbn [fst snd].
  split_and!; [done| |by constructor|done]. rewrite Hspec. unfold view, spec_look. cbn [stream_cursor stream_diagnostics].
  rewrite Ht'. cbn [outcome_bind]. by rewrite Hc, Hrec, (same_token_observe _ _ Hs).
Qed.

Lemma simulates_consumed self mode op t self' :
  consumed is_alphanumeric s self mode t self' ->
  spec_op (view self) op = spec_consume (B := B) is_alphanumeric s (view self) mode ->
  simulates self op (OutToken t) self'.
Proof using.
  intros (Hok & _ & Hk & Hr & Hrec & t' & Ht' & Hs & Hc) Hspec. split_and!; [done| |by constructor|done].
  rewrite Hspec. unfold spec_consume, view. cbn [stream_cursor stream_diagnostics]. rewrite Ht'. cbn [outcome_bind].
  by rewrite Hc, Hrec, (same_token_observe _ _ Hs).
Qed.

Lemma stream_window_ok c n i l :
  length l = n ->
  (forall j t, l !! j = Some t -> exists t', stream_token (B := B) is_alphanumeric s c (i + j) = Ret t' /\ same_token t t') ->
  exists l', stream_window (B := B) is_alphanumeric s c i n = Ret l' /\
    map forget_eof_trivia l = map forget_eof_trivia l'.
Proof using.
  revert i l. induction n as [|n IH]; intros i [|t l] Hlen Hl; try done; [by exists []|].
  destruct (Hl 0%nat t eq_refl) as (t' & Ht' & Hs & _). rewrite Nat.add_0_r in Ht'.
  destruct (IH (S i) l) as (l' & Hw & Hm).
  { by injection Hlen. }
  { intros j u Hj. rewrite Nat.add_succ_comm. by apply Hl. }
  exists (t' :: l'). cbn [stream_window]. rewrite Ht'. cbn [outcome_bind]. rewrite Hw. cbn [outcome_bind map].
  split; [done|]. by rewrite Hs, Hm.
Qed.

Lemma simulates_window self n :
  ls_ok self ->
  returns (run_op self (LookaheadWindow n)) (fun r => simulates self (LookaheadWindow n) r.1 r.2).
Proof using All.
  intros Hok. eapply returns_bind; [by apply lookahead_window_ok|].
  intros [l self'] ((Hok' & Hc & _ & Hk) & Hr & [Hlen Hl] & Hrec). apply returns_ret. cbn [fst snd].
  destruct (stream_window_ok (cursor self) n 0 l Hlen Hl) as (l' & Hw & Hm).
  split_and!; [done| |done|done]. cbn [Lexer.spec_op]. unfold view, spec_look. cbn [stream_cursor stream_diagnostics].
  rewrite Hw. cbn [outcome_bind observe]. by rewrite Hc, Hm, Hrec.
Qed.

Lemma simulates_close self :
  ls_ok self -> returns (run_op self AtGenericClose) (fun r => simulates self AtGenericClose r.1 r.2).
Proof using All.
  intros Hok. pose proof (lo_cursor _ _ _ Hok) as Hcur.
  cbn [Lexer.run_op]. unfold at_generic_close. rewrite (lo_snapshot _ _ _ Hok).
  destruct (scan_leading_trivia_ok (B := B) s _ Hcur) as (leading & Hl & Ht). rewrite Hl. cbn [outcome_bind].
  assert (boundary (text s) (ts_end leading)) as Hb by (eapply trivia_tile_boundaries, Ht).
  rewrite (first_character_ok s _ Hb). cbn [outcome_bind]. apply returns_ret. cbn [fst snd].
  split_and!; [done| |by constructor|apply keeps_refl]. cbn [Lexer.spec_op view stream_cursor]. by rewrite Hl.
Qed.

Lemma run_op_simulates self op :
  ls_ok self -> returns (run_op self op) (fun r => simulates self op r.1 r.2).
Proof using All.
  intros Hok. destruct op; cbn [Lexer.run_op].
  - unfold peek. by apply simulates_look.
  - by apply simulates_look.
  - by apply simulates_window.
  - eapply returns_bind; [by apply consume_ok|]. intros [t x] H. apply returns_ret. by eapply simulates_consumed.
  - eapply returns_bind; [by apply consume_with_mode_ok|]. intros [t x] H. apply returns_ret. by eapply simulates_consumed.
  - eapply returns_bind; [by apply consume_with_mode_ok|]. intros [t x] H. apply returns_ret. by eapply simulates_consumed.
  - by apply simulates_close.
Qed.

(** A run of calls: every invalid token that was returned stays reported. *)
Lemma run_ops_simulates ops self :
  ls_ok self ->
  returns (run_ops self ops) (fun r =>
    ls_ok r.2 /\ spec_ops (view self) ops = Ret (map observe r.1, view r.2) /\
    Forall (diagnosed r.2) (flat_map output_tokens r.1) /\
    keeps s (sink_contents (ls_diagnostics self)) (sink_contents (ls_diagnostics r.2))).
Proof using All.
  revert self. induction ops as [|op ops IH]; intros self Hok.
  - apply returns_ret. split_and!; [done|done|constructor|apply keeps_refl].
  - cbn [Lexer.run_ops Lexer.spec_ops]. eapply returns_bind; [by apply run_op_simulates|].
    intros [o x] (Hx & Hs & Hd & Hk). cbn [fst snd] in *. eapply returns_bind; [by apply IH|].
    intros [os y] (Hy & Hs' & Hd' & Hk'). cbn [fst snd] in *. apply returns_ret. cbn [fst snd].
    split_and!; [done| | |by eapply keeps_trans].
    + rewrite Hs. cbn [outcome_bind fst snd]. rewrite Hs'. done.
    + cbn [flat_map]. apply Forall_app. split; [|done]. eapply Forall_impl; [|exact Hd]. intros t. apply Hk'.
Qed.
End refinement.

(** ** Exact extents of words and operators *)

(** Does the operator cluster from [a] go on at [i]? *)
Definition operator_continues (bytes : list u8) (a i : Z) : bool :=
  match get bytes i with
  | Some b =>
      is_operator_cluster_character b &&
      negb (((b =? DOT) || (b =? COLON)) && (a <? i) && byte_is (get bytes (i - 1)) (fun p => p =? GREATER))
  | None => false
  end.

Section extents.
Context {B : Type} `{!DiagnosticSink B, !DiagnosticSinkLaws B}.
Context (is_alphanumeric : char -> bool).
Context (s : SourceSnapshot) `{!WfSnapshot s}.

Lemma operator_step_eq a i :
  0 <= a <= i -> i <= zlen (text s) ->
  operator_step (text s) a i =
  if operator_continues (text s) a i then continue_ (i + 1) else break_ i.
Proof using.
  intros Ha Hi. unfold operator_step, operator_continues. destruct (get (text s) i) as [b|] eqn:Hg; [|done].
  pose proof (get_Some_range _ _ _ Hg).
  destruct (((b =? DOT) || (b =? COLON)) && (a <? i)) eqn:Ec; cbn [andb].
  - apply andb_true_iff in Ec as [_ Ec]. destruct (get_is_Some (text s) (i - 1) ltac:(lia)) as [p ->].
    cbn [expect outcome_bind byte_is]. destruct (p =? GREATER); cbn [negb]; [by rewrite andb_false_r|].
    rewrite andb_true_r. by destruct (is_operator_cluster_character b).
  - cbn [outcome_bind negb]. rewrite andb_true_r. by destruct (is_operator_cluster_character b).
Qed.

Lemma operator_cluster_exact a :
  boundary (text s) a ->
  returns (operator_cluster_end s a) (fun e =>
    boundary (text s) e /\ a <= e /\
    (forall i, a <= i < e -> operator_continues (text s) a i = true) /\
    operator_continues (text s) a e = false).
Proof using WfSnapshot0.
  intros Ha. pose proof (boundary_range _ _ Ha). unfold operator_cluster_end.
  rewrite text_size_to_usize_ok by by apply (boundary_u32 s). cbn [outcome_bind].
  match goal with |- returns _ ?Q => eapply (returns_bind _ _ Q) end;
    [|intros e He; rewrite text_size_from_usize_ok by (by apply (boundary_u32 s), He); apply returns_ret; exact He].
  eapply (loop_rule (fun i => boundary (text s) i /\ a <= i /\
      forall j, a <= j < i -> operator_continues (text s) a j = true) (remaining s));
    [|split_and!; done || lia|apply (remaining_fuel s); lia].
  intros i (Hi & Hai & Hall). pose proof (boundary_range _ _ Hi). rewrite operator_step_eq by lia.
  destruct (operator_continues (text s) a i) eqn:E; apply returns_ret; [|by split_and!].
  unfold operator_continues in E. destruct (get (text s) i) as [b|] eqn:Hg; [|done].
  pose proof (get_Some_range _ _ _ Hg). apply andb_true_iff in E as [E1 E2].
  split_and!; [|lia| |apply remaining_step; lia].
  - apply (ascii_step s _ _ Hg). by apply operator_character_ascii.
  - intros j Hj. destruct (Z.eq_dec j i) as [->|]; [|apply Hall; lia].
    unfold operator_continues. by rewrite Hg, E1, E2.
Qed.

(** What an operator or punctuation scan yields. *)
Definition operator_scanned (a : Z) (scan : TokenScan B) : Prop :=
  let rest := zdrop a (text s) in
  if starts_with rest (lit "&&&")
  then scan_token scan = plain_token AmpersandAmpersandToken a (a + 2) /\ sink_contents (scan_diagnostics scan) = []
  else if starts_with rest (lit ">>>")
  then scan_token scan = plain_token GreaterGreaterToken a (a + 2) /\ sink_contents (scan_diagnostics scan) = []
  else exists e, a < e <= zlen (text s) /\
    (forall i, a <= i < e -> operator_continues (text s) a i = true) /\
    operator_continues (text s) a e = false /\
    match from_fixed_text (between (text s) a e) with
    | Some kind => scan_token scan = plain_token kind a e /\ sink_contents (scan_diagnostics scan) = []
    | None =>
        scan_token scan = plain_token InvalidToken a e /\
        sink_contents (scan_diagnostics scan) = [invalid_operator_or_punctuation s {| start := a; end_ := e |}]
    end.

Lemma offset_ascii x c y : 0 <= c < 128 -> offset_after_character x c = Ret y -> y = x + 1.
Proof using.
  intros Hc. unfold offset_after_character, len_utf8. destruct (c <? 128) eqn:E; [|lia].
  change (text_size_from_usize 1) with (Ret 1). cbn [outcome_bind]. unfold TextSize_checked_add, u32_checked_add.
  destruct (checked U32_MAX (x + 1)) as [z|] eqn:C; cbn [expect]; [|done].
  apply checked_Some in C as [-> _]. intros H. by simplify_eq.
Qed.

Lemma repeated_exact a c kind :
  boundary (text s) a -> 0 <= c < 128 -> starts_with (zdrop a (text s)) [c; c; c] = true ->
  is_token kind = true -> kind <> EndOfFileToken -> kind <> InvalidToken ->
  (let! middle := offset_after_character a c in
   let! e := offset_after_character middle c in
   let! token := make_token kind a e in Ret (TokenScan_clean (B := B) token)) =
  Ret (TokenScan_clean (plain_token kind a (a + 2))).
Proof using All.
  intros Ha Hc Hs Hk He Hi.
  destruct (repeated_ok (B := B) is_alphanumeric s a c kind Ha Hc Hs Hk He Hi) as (scan & Hscan & _). revert Hscan.
  destruct (offset_after_character a c) as [m| |] eqn:E1; cbn [outcome_bind]; try done.
  destruct (offset_after_character m c) as [e| |] eqn:E2; cbn [outcome_bind]; try done.
  apply offset_ascii in E1, E2; [|done..]. subst m e. intros _.
  replace (a + 1 + 1) with (a + 2) by lia. by rewrite make_token_plain by (done || lia).
Qed.

Lemma scan_operator_exact a b :
  boundary (text s) a -> get (text s) a = Some b -> is_operator_cluster_character b = true ->
  returns (scan_operator_or_punctuation_token (B := B) s a) (operator_scanned a).
Proof using All.
  intros Ha Hg Hb. unfold scan_operator_or_punctuation_token, operator_scanned.
  rewrite text_size_to_usize_ok by by apply (boundary_u32 s). cbn [outcome_bind].
  destruct (starts_with _ (lit "&&&")) eqn:E1.
  { rewrite repeated_exact by done. apply returns_ret. split; [done|apply clean_result]. }
  destruct (starts_with _ (lit ">>>")) eqn:E2.
  { rewrite repeated_exact by done. apply returns_ret. split; [done|apply clean_result]. }
  eapply returns_bind; [by apply operator_cluster_exact|]. intros e (He & Hae & Hall & Hstop).
  assert (a < e) as Hlt.
  { destruct (Z.eq_dec a e) as [<-|]; [|lia]. unfold operator_continues in Hstop. rewrite Hg, Hb in Hstop.
    rewrite Z.ltb_irrefl, andb_false_r in Hstop. done. }
  pose proof (boundary_range _ _ He). unfold TextRange_new. destruct (a <=? e) eqn:E; [|lia]. cbn [assert_ outcome_bind].
  rewrite token_text_ok by (done || lia). cbn [outcome_bind]. unfold operator_or_punctuation_kind.
  destruct (from_fixed_text _) as [k|] eqn:Ek.
  - destruct (fixed_kind_token _ _ Ek) as (? & ? & ?). rewrite make_token_plain by (done || lia).
    apply returns_ret. exists e. rewrite Ek. split_and!; [lia|lia|done|done|done|apply clean_result].
  - rewrite make_token_plain by (done || lia). apply returns_ret. exists e. rewrite Ek.
    split_and!; [lia|lia|done|done|done|apply sink_single_spec].
Qed.

(** What scanning a word yields: the longest run of identifier bytes, named
    by the keyword table; a non-ASCII alphanumeric right after it spoils it. *)
Definition word_scanned (a : Z) (scan : TokenScan B) : Prop :=
  exists e, a < e <= zlen (text s) /\
    Forall (fun b => is_ascii_identifier_continue b = true) (between (text s) a e) /\
    byte_is (get (text s) e) is_ascii_identifier_continue = false /\
    let spoiled := match first_char (zdrop e (text s)) with
                   | Some c => is_non_ascii_identifier_character is_alphanumeric c
                   | None => false
                   end in
    if spoiled
    then exists e' d, scan_token scan = plain_token InvalidToken a e' /\
      sink_contents (scan_diagnostics scan) = [d] /\ error_at s {| start := a; end_ := e' |} d
    else scan_token scan = plain_token (default IdentifierToken (keyword_kind (between (text s) a e))) a e /\
         sink_contents (scan_diagnostics scan) = [].

Lemma scan_invalid_identifier_exact a e :
  boundary (text s) a -> a < e ->
  returns (scan_invalid_identifier_like_token (B := B) is_alphanumeric s a e) (fun scan =>
    scan_token scan = plain_token InvalidToken a e /\
    exists d, sink_contents (scan_diagnostics scan) = [d] /\ error_at s {| start := a; end_ := e |} d).
Proof using All.
  intros Ha Hae. unfold scan_invalid_identifier_like_token, TextRange_new.
  destruct (a <=? e) eqn:E; [|lia]. cbn [assert_ outcome_bind].
  rewrite make_token_plain by (done || lia). cbn [outcome_bind].
  destruct (first_non_ascii_total is_alphanumeric s a e Ha) as (c & -> & _). cbn [outcome_bind].
  destruct c as [c|]; apply returns_ret; (split; [done|]); eexists; (split; [apply sink_single_spec|done]).
Qed.

Lemma keyword_or_identifier_token t : is_token (default IdentifierToken (keyword_kind t)) = true.
Proof using.
  unfold keyword_kind. destruct (from_fixed_text t) as [k|] eqn:Ek; [|done].
  destruct (is_keyword k); [|done]. by apply (fixed_kind_token t).
Qed.

Lemma scan_word_exact a b :
  boundary (text s) a -> get (text s) a = Some b -> is_ascii_identifier_continue b = true ->
  returns (scan_identifier_or_keyword (B := B) is_alphanumeric s a) (word_scanned a).
Proof using All.
  intros Ha Hg Hb. unfold scan_identifier_or_keyword, identifier_like_end.
  rewrite text_size_to_usize_ok by by apply (boundary_u32 s). cbn [outcome_bind].
  destruct (identifier_loop_ok s a Ha) as (e & -> & He & Hae & Hall & Hstop). cbn [outcome_bind].
  assert (a < e) as Hlt.
  { destruct (Z.eq_dec a e) as [<-|]; [|lia]. rewrite Hg in Hstop. simpl in Hstop. congruence. }
  pose proof (boundary_range _ _ Ha). pose proof (boundary_range _ _ He).
  rewrite text_size_from_usize_ok by by apply (boundary_u32 s). cbn [outcome_bind].
  rewrite first_character_ok by done. cbn [outcome_bind].
  assert (returns (let! range := TextRange_new a e in
                   let! text := token_text s range in
                   let! token := make_token (match keyword_kind text with Some kind => kind | None => IdentifierToken end) a e in
                   Ret (TokenScan_clean (B := B) token))
    (fun scan => scan_token scan = plain_token (default IdentifierToken (keyword_kind (between (text s) a e))) a e /\
                 sink_contents (scan_diagnostics scan) = [])) as Hvalid.
  { unfold TextRange_new. destruct (a <=? e) eqn:E; [|lia]. cbn [assert_ outcome_bind].
    rewrite token_text_ok by (done || lia). cbn [outcome_bind].
    rewrite make_token_plain; [|apply keyword_or_identifier_token|lia].
    apply returns_ret. split; [done|apply clean_result]. }
  unfold word_scanned. destruct (first_char (zdrop e (text s))) as [c|] eqn:Ec;
    [destruct (is_non_ascii_identifier_character is_alphanumeric c) eqn:En|].
  - destruct (invalid_identifier_like_end_ok is_alphanumeric s a Ha ltac:(lia)) as (e' & -> & He' & Hlt').
    cbn [outcome_bind]. eapply returns_mono; [by apply scan_invalid_identifier_exact|].
    intros scan (Ht & d & Hd & Hat). exists e. rewrite Ec, En. split_and!; [lia|lia|done|done|]. by exists e', d.
  - cbn [outcome_bind]. eapply returns_mono; [exact Hvalid|]. intros scan [Hv1 Hv2]. exists e. rewrite Ec, En.
    split_and!; [lia|lia|done..].
  - cbn [outcome_bind]. eapply returns_mono; [exact Hvalid|]. intros scan [Hv1 Hv2]. exists e. rewrite Ec.
    split_and!; [lia|lia|done..].
Qed.
End extents.

(** ** The guarantees *)

Section guarantees.
Context {B : Type} `{!DiagnosticSink B, !DiagnosticSinkLaws B}.
Context (is_alphanumeric : char -> bool).

Lemma view_new s policy :
  view (with_cache_policy s policy) = {| stream_cursor := 0; stream_diagnostics := [] |}.
Proof using. unfold view. cbn. by rewrite (proj2 sink_new_spec). Qed.

(** C2.  Whatever the parser calls, the token source behaves as a cursor over
    an immutable text: no sequence of peeks, lookaheads, windows and
    consumptions panics or diverges, each call returns what the abstract
    machine returns (up to the trivia before the end of file), leaves the
    cursor where the abstract machine leaves it, and has accumulated the
    diagnostics of the tokens looked at so far, each once and in the order of
    the first look.  Every invalid token that was returned is reported. *)
Theorem token_source_refines_stream s policy ops :
  WfSnapshot s ->
  returns (run_ops (B := B) is_alphanumeric (with_cache_policy s policy) ops) (fun r =>
    spec_ops (B := B) is_alphanumeric s {| stream_cursor := 0; stream_diagnostics := [] |} ops
      = Ret (map observe r.1, view r.2) /\
    Forall (diagnosed s r.2) (flat_map output_tokens r.1)).
Proof using All.
  intros Hwf. eapply returns_mono;
    [refine (run_ops_simulates is_alphanumeric s ops _ _); refine (with_cache_policy_ok is_alphanumeric s policy)|].
  intros r (_ & Hs & Hd & _). split; [|done]. by rewrite view_new in Hs.
Qed.

(** The cache policy is unobservable: two token sources over one snapshot
    that are driven by the same calls give the same answers (up to the trivia
    before the end of file), stand at the same offset, and have recorded the
    same diagnostics in the same order. *)
Theorem cache_policy_unobservable s policy policy' ops r r' :
  WfSnapshot s ->
  run_ops (B := B) is_alphanumeric (with_cache_policy s policy) ops = Ret r ->
  run_ops (B := B) is_alphanumeric (with_cache_policy s policy') ops = Ret r' ->
  map observe r.1 = map observe r'.1 /\ cursor r.2 = cursor r'.2 /\
  sink_contents (ls_diagnostics r.2) = sink_contents (ls_diagnostics r'.2).
Proof using All.
  intros Hwf Hr Hr'.
  pose proof (with_cache_policy_ok (B := B) is_alphanumeric s policy) as Hok.
  pose proof (with_cache_policy_ok (B := B) is_alphanumeric s policy') as Hok'.
  pose proof (returns_det _ _ _ (run_ops_simulates is_alphanumeric s ops _ Hok) Hr) as (_ & H & _).
  pose proof (returns_det _ _ _ (run_ops_simulates is_alphanumeric s ops _ Hok') Hr') as (_ & H' & _).
  rewrite !view_new in H, H'. rewrite H in H'. injection H' as Ho Hc Hd. done.
Qed.

(** Operators and punctuation: three ampersands or three closing angle
    brackets give up their first two; otherwise the scan takes the longest
    cluster of operator characters (a dot or colon after a closing angle
    bracket ends it), and the token is the one that the fixed-text table
    names, or an invalid token with one error. *)
Theorem operator_scan_longest s a b :
  WfSnapshot s -> boundary (text s) a -> get (text s) a = Some b ->
  is_operator_cluster_character b = true ->
  returns (scan_operator_or_punctuation_token (B := B) s a) (operator_scanned s a).
Proof using All. intros Hwf. by apply scan_operator_exact. Qed.

(** Words: the scan takes the longest run of ASCII identifier bytes and
    yields the keyword of that spelling, or an identifier when there is none;
    a non-ASCII alphanumeric directly after the run makes the whole word one
    invalid token with one error. *)
Theorem word_scan_longest s a b :
  WfSnapshot s -> boundary (text s) a -> get (text s) a = Some b ->
  is_ascii_identifier_continue b = true ->
  returns (scan_identifier_or_keyword (B := B) is_alphanumeric s a) (word_scanned is_alphanumeric s a).
Proof using All. intros Hwf. by apply scan_word_exact. Qed.
End guarantees.

Definition sample_ops : list lexer_op :=
  [Lookahead 2; Consume; LookaheadWindow 3; ConsumeTypePunctuation; AtGenericClose; Consume; Consume; Consume].

Lemma token_source_refines_stream_witness :
  exists r, run_ops (B := Bag) ascii_table (with_cache_policy sample_snapshot CacheTokens) sample_ops = Ret r /\
    spec_ops (B := Bag) ascii_table sample_snapshot {| stream_cursor := 0; stream_diagnostics := [] |} sample_ops
      = Ret (map observe r.1, view r.2).
Proof.
  destruct (token_source_refines_stream (B := Bag) ascii_table sample_snapshot CacheTokens sample_ops
    sample_snapshot_wf) as (r & Hr & Hs & _).
  exists r. by split.
Defined.


(** The text [x >>.y]. *)
Definition operator_snapshot : SourceSnapshot := unit_snapshot (lit "x >>.y").

Lemma operator_snapshot_wf : WfSnapshot operator_snapshot.
Proof.
  apply unit_snapshot_wf; [|by vm_compute]. apply valid_utf8_ascii. repeat constructor; by vm_compute.
Qed.



(** ** The end of file *)

Section end_of_file.
Context {B : Type} `{!DiagnosticSink B, !DiagnosticSinkLaws B}.
Context (is_alphanumeric : char -> bool).

Lemma consume_at_end s self :
  WfSnapshot s -> ls_ok is_alphanumeric s self -> cursor self = zlen (text s) ->
  returns (consume (B := B) is_alphanumeric self) (fun '(t, self') =>
    forget_eof_trivia t = eof_token s /\ ls_ok is_alphanumeric s self' /\ cursor self' = zlen (text s)).
Proof using All.
  intros Hwf Hok Hc. eapply returns_mono; [by apply (consume_ok (B := B) is_alphanumeric s)|].
  intros [t self'] (Hok' & _ & _ & _ & _ & t' & Ht' & [Hf _] & Hc'). rewrite Hc in Ht'.
  destruct (stream_scan_end (B := B) is_alphanumeric s) as (e & He & Heof).
  assert (t' = e) as -> by congruence.
  pose proof (end_boundary s) as Hb.
  rewrite <- stream_token_0 in He by done.
  destruct (stream_eof_forget (B := B) is_alphanumeric s _ _ _ Hb He Heof) as (Hfe & _ & Hend).
  split_and!; [congruence|done|congruence].
Qed.

Lemma consume_many_at_end s n self :
  WfSnapshot s -> ls_ok is_alphanumeric s self -> cursor self = zlen (text s) ->
  returns (run_ops (B := B) is_alphanumeric self (repeat Consume n)) (fun r =>
    map observe r.1 = repeat (OutToken (eof_token s)) n /\ cursor r.2 = zlen (text s)).
Proof using All.
  intros Hwf. revert self. induction n as [|n IH]; intros self Hok Hc; [by apply returns_ret|].
  cbn [repeat run_ops run_op]. destruct (consume_at_end s self Hwf Hok Hc) as ([t x] & -> & Hf & Hx & Hcx).
  cbn [outcome_bind fst snd]. eapply returns_bind; [by apply IH|]. intros [os y] [Hos Hy].
  apply returns_ret. cbn [fst snd map] in *. split; [|done]. by rewrite Hos; cbn [observe]; rewrite Hf.
Qed.

(** Consuming the end of file is idempotent: after any calls, a consumption
    that returns the end of file leaves the cursor at the end of the text, and
    every later consumption returns the end of file there again. *)
Theorem consume_end_of_file_idempotent s policy ops outs self t self' n :
  WfSnapshot s ->
  run_ops (B := B) is_alphanumeric (with_cache_policy s policy) ops = Ret (outs, self) ->
  consume is_alphanumeric self = Ret (t, self') -> is_end_of_file t = true ->
  cursor self' = zlen (text s) /\
  returns (run_ops (B := B) is_alphanumeric self' (repeat Consume n)) (fun r =>
    map observe r.1 = repeat (OutToken (eof_token s)) n /\ cursor r.2 = zlen (text s)).
Proof using All.
  intros Hwf Hrun Hcons Heof.
  pose proof (with_cache_policy_ok (B := B) is_alphanumeric s policy) as Hok0.
  pose proof (returns_det _ _ _ (run_ops_simulates is_alphanumeric s ops _ Hok0) Hrun) as (Hok & _).
  cbn [fst snd] in Hok. pose proof (lo_cursor _ _ _ Hok) as Hcur.
  pose proof (returns_det _ _ _ (consume_ok is_alphanumeric s self Hok) Hcons) as (Hok' & _ & _ & _ & _ & t' & Ht' & [Hf _] & Hc').
  pose proof (forget_eof_same _ _ Hf) as Hsame. unfold is_eof in Hsame. rewrite Heof in Hsame. symmetry in Hsame.
  rewrite <- stream_token_0 in Ht' by done.
  destruct (stream_eof_forget (B := B) is_alphanumeric s _ _ _ Hcur Ht' Hsame) as (_ & _ & Hend).
  assert (cursor self' = zlen (text s)) as Hz by congruence. split; [done|]. by apply consume_many_at_end.
Qed.
End end_of_file.


(** The end-of-file token is not stable: looking one past the end of the text
    [a //c] gives the token with its comment when the source does not cache,
    and a padding token without trivia when it does. *)
Theorem eof_lookahead_depends_on_cache :
  let s := unit_snapshot (lit "a //c") in
  let look policy n :=
    let! r := lookahead (B := Bag) ascii_table (with_cache_policy s policy) n in
    Ret (token_kind r.1, length (leading_trivia r.1)) in
  look CacheTokens 1%nat = Ret (EndOfFileToken, 2%nat) /\ look CacheTokens 2%nat = Ret (EndOfFileToken, 0%nat) /\
  look DoNotCacheTokens 1%nat = Ret (EndOfFileToken, 2%nat) /\ look DoNotCacheTokens 2%nat = Ret (EndOfFileToken, 2%nat).
Proof. by vm_compute. Qed.

(** ** Fixed spellings and literals *)

Definition lexed_kinds (is_alphanumeric : char -> bool) (t : str) : option (list SyntaxKind * list Diagnostic) :=
  match lex_source_unit (B := Bag) is_alphanumeric (unit_snapshot t) with
  | Ret r => Some (map token_kind (tokens r), contents (lex_diagnostics r))
  | _ => None
  end.

Definition lexes_alone (is_alphanumeric : char -> bool) (p : string * SyntaxKind) : bool :=
  match lexed_kinds is_alphanumeric (lit p.1) with
  | Some (ks, []) => bool_decide (ks = [p.2; EndOfFileToken])
  | _ => false
  end.

(** C31.  The table of fixed spellings and the lexer agree: the spelling of every
    keyword, operator and punctuation kind lexes to exactly one token of that
    kind, followed by the end of file and without diagnostics. *)
Theorem fixed_text_lexes is_alphanumeric k t :
  fixed_text k = Some t -> lexed_kinds is_alphanumeric t = Some ([k; EndOfFileToken], []).
Proof.
  intros H. assert (exists x, In (x, k) fixed_syntax_text /\ t = lit x) as (x & Hin & ->).
  { unfold fixed_text in H. apply find_map_Some in H as ([x k'] & Hin & Hf).
    destruct (decide (k = k')) as [->|]; [|done]. simplify_eq. by exists x. }
  pose proof (fixed_forall (lexes_alone is_alphanumeric) ltac:(by vm_compute) x k Hin) as Hk.
  unfold lexes_alone in Hk. cbn [fst snd] in Hk. destruct (lexed_kinds is_alphanumeric (lit x)) as [[ks [|d ds]]|]; try done.
  apply bool_decide_eq_true in Hk. by rewrite Hk.
Qed.

Lemma fixed_text_lexes_witness :
  exists t, fixed_text ArrowToken = Some t /\ lexed_kinds ascii_table t = Some ([ArrowToken; EndOfFileToken], []).
Proof.
  eexists. split; [vm_compute; reflexivity|]. apply (fixed_text_lexes ascii_table ArrowToken). reflexivity.
Defined.

(** ** Suggested terminators *)

(** The text after the machine-applicable edit of the first diagnostic. *)
Definition after_suggestion (t : str) : option str :=
  match lexed_kinds ascii_table t with
  | Some (_, d :: _) =>
      match flat_map edits (filter (fun g => applicability g = MachineApplicable) (d_suggestions d)) with
      | [e] =>
          let r := SourceSpan_range (source_edit_span e) in
          Some (ztake (start r) t ++ source_edit_replacement e ++ zdrop (end_ r) t)
      | _ => None
      end
  | _ => None
  end.

Definition diagnostic_kinds (t : str) : option (list DiagnosticKind) :=
  match lexed_kinds ascii_table t with Some (_, l) => Some (map d_kind l) | None => None end.

(** Applying the machine-applicable suggestion of an unterminated string need not
    terminate it: after a backslash the suggested quote is escaped. *)
Theorem string_suggestion_escaped :
  diagnostic_kinds (QUOTE :: lit "abc\") = Some [LexicalUnterminatedStringLiteral] /\
  exists t, after_suggestion (QUOTE :: lit "abc\") = Some t /\ diagnostic_kinds t = Some [LexicalUnterminatedStringLiteral].
Proof. split; [by vm_compute|]. eexists. split; [vm_compute; reflexivity|by vm_compute]. Qed.
