(* ===== verification/Graph.v ===== *)
(** * Graph traversals

    [bray-base/src/graph.rs]: the transitive closure of a dependency function,
    and the partition of a directed graph into strongly connected components
    with an explicit stack (Kosaraju's algorithm).  A [BTreeSet] is a [gset], a
    [BTreeMap] a [gmap], and a [Vec] used as a stack is a list with its top
    first.  The graph is a function, as in the source; the theorems suppose a
    finite set of vertices that holds the roots and is closed under it. *)

From Stdlib Require Import ZArith Lia.
From stdpp Require Import base list gmap sets relations.
From S2P Require Import Prelude.

Section graph.
Context {N : Type} `{Countable N}.

(** ** transitive_dependencies *)

(** The loop body; the state is (pending, retained). *)
Definition dependencies_step (dependencies : N -> list N) (st : list N * gset N)
    : outcome (list N * gset N + gset N) :=
  let (pending, retained) := st in
  match pending with
  | [] => break_ retained
  | key :: pending =>
      if decide (key ∈ retained) then continue_ (pending, retained)
      else continue_ (rev (dependencies key) ++ pending, {[key]} ∪ retained)
  end.

Definition transitive_dependencies (fuel : nat) (roots : list N) (dependencies : N -> list N)
    : outcome (gset N) :=
  loop fuel (dependencies_step dependencies) (rev roots, ∅).

(** ** strongly_connected_components *)

(** The state of the first traversal. *)
Record search := {
  visited : gset N;
  reverse : gmap N (list N);
  order : list N;
  stack : list (N * list N);
}.

(** [reverse.entry(successor).or_default().push(node)]. *)
Definition push_reverse (successor node : N) (reverse : gmap N (list N)) : gmap N (list N) :=
  <[successor := default [] (reverse !! successor) ++ [node]]> reverse.

Definition search_step (successors : N -> list N) (st : search) : outcome (search + search) :=
  match stack st with
  | [] => break_ st
  | (node, successor :: children) :: rest =>
      let reverse := push_reverse successor node (reverse st) in
      if decide (successor ∈ visited st)
      then continue_ {| visited := visited st; reverse := reverse; order := order st;
                        stack := (node, children) :: rest |}
      else continue_ {| visited := {[successor]} ∪ visited st; reverse := reverse; order := order st;
                        stack := (successor, successors successor) :: (node, children) :: rest |}
  | (node, []) :: rest =>
      continue_ {| visited := visited st; reverse := reverse st; order := order st ++ [node]; stack := rest |}
  end.

(** [for root in roots]. *)
Fixpoint search_roots (fuel : nat) (successors : N -> list N) (roots : list N) (st : search) : outcome search :=
  match roots with
  | [] => Ret st
  | root :: roots =>
      if decide (root ∈ visited st) then search_roots fuel successors roots st
      else
        let! st := loop fuel (search_step successors)
                     {| visited := {[root]} ∪ visited st; reverse := reverse st; order := order st;
                        stack := [(root, successors root)] |} in
        search_roots fuel successors roots st
  end.

(** [for predecessor in ..]: the unvisited ones are visited and pushed. *)
Fixpoint push_predecessors (predecessors : list N) (visited : gset N) (stack : list N) : gset N * list N :=
  match predecessors with
  | [] => (visited, stack)
  | predecessor :: predecessors =>
      if decide (predecessor ∈ visited) then push_predecessors predecessors visited stack
      else push_predecessors predecessors ({[predecessor]} ∪ visited) (predecessor :: stack)
  end.

(** The loop that collects one component; the state is (visited, component, stack). *)
Definition component_step (reverse : gmap N (list N)) (st : gset N * list N * list N)
    : outcome (gset N * list N * list N + gset N * list N) :=
  let '(visited, component, stack) := st in
  match stack with
  | [] => break_ (visited, component)
  | node :: stack =>
      let (visited, stack) := push_predecessors (default [] (reverse !! node)) visited stack in
      continue_ (visited, component ++ [node], stack)
  end.

(** [for root in order.into_iter().rev()]. *)
Fixpoint collect_components (fuel : nat) (reverse : gmap N (list N)) (roots : list N)
    (visited : gset N) (components : list (list N)) : outcome (list (list N)) :=
  match roots with
  | [] => Ret components
  | root :: roots =>
      if decide (root ∈ visited) then collect_components fuel reverse roots visited components
      else
        let! result := loop fuel (component_step reverse) ({[root]} ∪ visited, [], [root]) in
        let (visited, component) := result in
        collect_components fuel reverse roots visited (components ++ [component])
  end.

Definition strongly_connected_components (fuel : nat) (roots : list N) (successors : N -> list N)
    : outcome (list (list N)) :=
  let! st := search_roots fuel successors roots {| visited := ∅; reverse := ∅; order := []; stack := [] |} in
  collect_components fuel (reverse st) (rev (order st)) ∅ [].
End graph.

Arguments search N {_ _}.

(** ** Weights of the vertices that remain *)

Section weight.
Context {N : Type} `{Countable N} (w : N -> nat).

Definition weight (V : list N) (seen : gset N) : nat := sum_list_with w (filter (.∉ seen) V).

Lemma weight_ext V seen seen' : (forall x, x ∈ V -> x ∈ seen <-> x ∈ seen') -> weight V seen = weight V seen'.
Proof.
  unfold weight. induction V as [|y V IH]; intros Hx; [done|]. rewrite !filter_cons.
  pose proof (Hx y ltac:(set_solver)). specialize (IH ltac:(set_solver)).
  destruct (decide (y ∉ seen)), (decide (y ∉ seen')); simpl; [lia|tauto|tauto|done].
Qed.

Lemma weight_mono V seen seen' : seen ⊆ seen' -> (weight V seen' <= weight V seen)%nat.
Proof.
  intros Hs. unfold weight. induction V as [|y V IH]; [done|]. rewrite !filter_cons.
  destruct (decide (y ∉ seen)), (decide (y ∉ seen')); simpl; [lia|lia|set_solver|done].
Qed.

(** Seeing one more vertex takes its weight away. *)
Lemma weight_insert V seen x :
  NoDup V -> x ∈ V -> x ∉ seen -> weight V seen = (w x + weight V ({[x]} ∪ seen))%nat.
Proof.
  unfold weight. induction 1 as [|y V Hy HV IH]; intros Hx Hs; [set_solver|].
  rewrite !filter_cons. destruct (decide (y = x)) as [->|Hne].
  - rewrite decide_True by done. rewrite decide_False by set_solver. simpl. f_equal.
    apply weight_ext. set_solver.
  - assert (x ∈ V) as HxV by set_solver. specialize (IH HxV Hs).
    destruct (decide (y ∉ seen)); [rewrite decide_True by set_solver|rewrite decide_False by set_solver]; simpl; lia.
Qed.
End weight.

(** ** Reachability *)

Lemma elem_of_rev {A} (x : A) l : x ∈ rev l <-> x ∈ l.
Proof. rewrite !list_elem_of_In. symmetry. apply in_rev. Qed.

Lemma elem_of_concat {A} (x : A) ls : x ∈ concat ls <-> exists l, x ∈ l /\ l ∈ ls.
Proof. rewrite list_elem_of_In, in_concat. setoid_rewrite list_elem_of_In. naive_solver. Qed.

Section reach.
Context {N : Type} `{Countable N} (successors : N -> list N).

Definition edge (x y : N) : Prop := y ∈ successors x.
Abbreviation reach := (rtc edge).

(** A finite set of vertices that no edge leaves. *)
Definition closed (V : list N) : Prop := forall x y, x ∈ V -> edge x y -> y ∈ V.

Lemma closed_reach (P : N -> Prop) x y : (forall x y, P x -> edge x y -> P y) -> P x -> reach x y -> P y.
Proof. intros Hc Hx Hr. induction Hr as [|x z y He _ IH]; [done|]. apply IH. by eapply Hc. Qed.

(** The steps a traversal of [V] can take. *)
Definition graph_size (V : list N) : nat := weight (fun x => 2 + length (successors x))%nat V ∅.

Lemma length_graph_size V l : NoDup l -> (forall x, x ∈ l -> x ∈ V) -> (length l <= graph_size V)%nat.
Proof.
  intros Hnd Hsub. trans (length V); [by apply submseteq_length, NoDup_submseteq|].
  unfold graph_size, weight. clear. induction V as [|x V IH]; [done|].
  rewrite filter_cons, decide_True by set_solver. cbn [length sum_list_with]. lia.
Qed.
End reach.

(** ** Transitive dependencies *)

Section closure.
Context {N : Type} `{Countable N} (dependencies : N -> list N) (V : list N).
Context (HV : NoDup V) (Hcl : closed dependencies V).

Definition pending_weight (st : list N * gset N) : nat :=
  (length st.1 + weight (fun x => 1 + length (dependencies x)) V st.2)%nat.

Record closure_inv (roots : list N) (st : list N * gset N) : Prop := {
  ci_vertices : forall x, x ∈ st.1 -> x ∈ V;
  ci_reached : forall x, x ∈ st.1 \/ x ∈ st.2 -> exists r, r ∈ roots /\ rtc (edge dependencies) r x;
  ci_roots : forall r, r ∈ roots -> r ∈ st.1 \/ r ∈ st.2;
  ci_closed : forall x y, x ∈ st.2 -> edge dependencies x y -> y ∈ st.1 \/ y ∈ st.2;
}.

Lemma dependencies_step_ok roots st :
  closure_inv roots st ->
  returns (dependencies_step dependencies st) (fun step =>
    match step with
    | inl st' => closure_inv roots st' /\ (pending_weight st' < pending_weight st)%nat
    | inr retained => forall x, x ∈ retained <-> exists r, r ∈ roots /\ rtc (edge dependencies) r x
    end).
Proof.
  destruct st as [[|key pending] retained]; intros [H1 H2 H3 H4]; cbn [dependencies_step fst snd] in *.
  { apply returns_ret. intros x. split; [by auto|]. intros (r & Hr & Hx).
    apply (closed_reach dependencies (.∈ retained) r x); [|destruct (H3 r Hr); set_solver|done].
    intros y z Hy Hz. destruct (H4 y z Hy Hz); set_solver. }
  destruct (decide (key ∈ retained)) as [Hk|Hk]; apply returns_ret; unfold pending_weight; cbn [fst snd length].
  - split; [|lia]. constructor; cbn [fst snd]; set_solver.
  - split.
    + constructor; cbn [fst snd].
      * intros x. rewrite elem_of_app, elem_of_rev. intros [Hx|Hx]; [|set_solver].
        apply (Hcl key); [|done]. set_solver.
      * intros x. rewrite elem_of_app, elem_of_rev. intros Hx.
        destruct (H2 key) as (r & Hr & Hrk); [set_solver|].
        destruct Hx as [[Hx|Hx]|Hx]; [exists r; split; [done|]; by eapply rtc_r|apply H2; set_solver|].
        apply elem_of_union in Hx as [->%elem_of_singleton|Hx]; [by exists r|apply H2; set_solver].
      * intros r Hr. rewrite elem_of_app. destruct (H3 r Hr); set_solver.
      * intros x y Hx Hy. rewrite elem_of_app, elem_of_rev.
        apply elem_of_union in Hx as [->%elem_of_singleton|Hx]; [by auto|]. destruct (H4 x y Hx Hy); set_solver.
    + rewrite (weight_insert _ V retained key) by (done || (apply H1; set_solver)).
      rewrite length_app, length_rev. lia.
Qed.

Lemma transitive_dependencies_spec fuel roots :
  (forall r, r ∈ roots -> r ∈ V) -> (length roots + weight (fun x => 1 + length (dependencies x)) V ∅ < fuel)%nat ->
  returns (transitive_dependencies fuel roots dependencies) (fun retained =>
    forall x, x ∈ retained <-> exists r, r ∈ roots /\ rtc (edge dependencies) r x).
Proof.
  intros Hr Hf. apply (loop_rule (closure_inv roots) pending_weight).
  - apply dependencies_step_ok.
  - constructor; cbn [fst snd].
    + intros x. rewrite elem_of_rev. apply Hr.
    + intros x. rewrite elem_of_rev. intros [Hx|Hx]; [|set_solver]. exists x. split; [done|apply rtc_refl].
    + intros r. rewrite elem_of_rev. by left.
    + set_solver.
  - unfold pending_weight. cbn [fst snd]. by rewrite length_rev.
Qed.
End closure.

(** ** The first traversal *)

Section finishing.
Context {N : Type} `{Countable N} (successors : N -> list N).
Abbreviation edge := (edge successors).
Abbreviation reach := (rtc edge).

Definition predecessors (reverse : gmap N (list N)) (y : N) : list N := default [] (reverse !! y).

Lemma predecessors_push reverse s n x y :
  x ∈ predecessors (push_reverse s n reverse) y <-> x ∈ predecessors reverse y \/ (y = s /\ x = n).
Proof.
  clear successors. unfold predecessors, push_reverse. destruct (decide (y = s)) as [->|Hne].
  - rewrite lookup_insert_eq. simpl. rewrite elem_of_app, list_elem_of_singleton. naive_solver.
  - rewrite lookup_insert_ne by done. naive_solver.
Qed.

(** What the stack knows: below the cursor of a frame all successors have been
    seen and recorded; what was finished since the frame's node was discovered
    is reachable from it, and no edge from what was finished before leads to
    that node or to anything finished since. *)
Inductive stack_ok (seen : gset N) (reverse : gmap N (list N)) (order : list N) : list (N * list N) -> Prop :=
| stack_nil : stack_ok seen reverse order []
| stack_cons n c rest before after done :
    order = before ++ after ->
    (forall x, x ∈ after -> reach n x) ->
    (forall x y, x ∈ before -> edge x y -> y ∈ before \/ y ∈ rest.*1) ->
    successors n = done ++ c ->
    (forall y, y ∈ done -> y ∈ seen /\ n ∈ predecessors reverse y) ->
    (forall f, f ∈ rest.*1 -> reach f n) ->
    stack_ok seen reverse order rest ->
    stack_ok seen reverse order ((n, c) :: rest).

(** The property of the finishing order that the second traversal needs: of
    what precedes [r], a last part is reachable from [r], and the first part
    has no edge into it or to [r]. *)
Definition post_ordered (order : list N) : Prop :=
  forall A r B, order = A ++ r :: B ->
  exists A1 A2, A = A1 ++ A2 /\ (forall x, x ∈ A2 -> reach r x) /\
    (forall x y, x ∈ A1 -> edge x y -> y ∉ A2 /\ y <> r).

Lemma search_stack_mono seen seen' rv rv' order st :
  seen ⊆ seen' -> (forall x y, x ∈ predecessors rv y -> x ∈ predecessors rv' y) ->
  stack_ok seen rv order st -> stack_ok seen' rv' order st.
Proof.
  intros Hs Hr. induction 1 as [|n c rest before after done H1 H2 H3 H4 H5 H6 H7 IH]; [constructor|].
  eapply stack_cons; [done..| |done|done]. intros y Hy. destruct (H5 y Hy). split; [set_solver|by apply Hr].
Qed.

Lemma stack_ok_finish seen rv order n st :
  stack_ok seen rv order st -> (forall f, f ∈ st.*1 -> reach f n) -> stack_ok seen rv (order ++ [n]) st.
Proof.
  induction 1 as [|m c rest before after done H1 H2 H3 H4 H5 H6 H7 IH]; intros Hf; [constructor|].
  apply (stack_cons _ _ _ _ _ _ before (after ++ [n]) done); try done.
  - by rewrite H1, <- app_assoc.
  - intros x. rewrite elem_of_app, list_elem_of_singleton. intros [Hx| ->]; [by apply H2|]. apply Hf. set_solver.
  - apply IH. intros f Hf'. apply Hf. set_solver.
Qed.

Lemma post_ordered_snoc before after n below :
  post_ordered (before ++ after) -> NoDup ((before ++ after) ++ n :: below) ->
  (forall x, x ∈ after -> reach n x) ->
  (forall x y, x ∈ before -> edge x y -> y ∈ before \/ y ∈ below) ->
  post_ordered ((before ++ after) ++ [n]).
Proof.
  intros Hp Hnd Ha Hb A r B Heq. destruct B as [|b B _] using rev_ind.
  - apply app_inj_tail in Heq as [<- <-]. exists before, after. split_and!; [done|done|].
    intros x y Hx Hy. rewrite !NoDup_app, NoDup_cons in Hnd. destruct Hnd as ((_ & Hd & _) & Hd' & Hn & _).
    destruct (Hb x y Hx Hy) as [Hy'|Hy'].
    + split; [by apply Hd|]. intros ->. apply (Hd' n); [|set_solver]. rewrite elem_of_app. by left.
    + split; [|intros ->; done]. intros Hy2. apply (Hd' y); [|set_solver]. rewrite elem_of_app. by right.
  - rewrite app_comm_cons, app_assoc in Heq. apply app_inj_tail in Heq as [Heq _]. by apply (Hp A r B).
Qed.
End finishing.

Section search.
Context {N : Type} `{Countable N} (successors : N -> list N) (V : list N).
Context (HV : NoDup V) (Hcl : closed successors V).
Abbreviation edge := (edge successors).
Abbreviation reach := (rtc edge).

(** What holds of the sets, the order and the recorded edges. *)
Record search_base (roots : list N) (st : search N) : Prop := {
  si_nodup : NoDup (order st ++ (stack st).*1);
  si_visited : forall x, x ∈ visited st <-> x ∈ order st \/ x ∈ (stack st).*1;
  si_reached : forall x, x ∈ visited st -> x ∈ V /\ exists r, r ∈ roots /\ reach r x;
  si_finished : forall x y, x ∈ order st -> edge x y -> y ∈ visited st /\ x ∈ predecessors (reverse st) y;
  si_reverse : forall x y, x ∈ predecessors (reverse st) y -> edge x y /\ x ∈ visited st;
  si_post : post_ordered successors (order st);
}.

Definition search_inv (roots : list N) (st : search N) : Prop :=
  search_base roots st /\ stack_ok successors (visited st) (reverse st) (order st) (stack st).

Definition search_weight (st : search N) : nat :=
  (sum_list_with (fun f => S (length f.2)) (stack st) + weight (fun x => 2 + length (successors x)) V (visited st))%nat.

(** Recording the edge to the next successor. *)
Lemma stack_advance seen seen' rv ord n s c rest :
  stack_ok successors seen rv ord ((n, s :: c) :: rest) -> seen ⊆ seen' -> s ∈ seen' ->
  stack_ok successors seen' (push_reverse s n rv) ord ((n, c) :: rest).
Proof.
  intros H7 Hsub Hs. inversion H7 as [|? ? ? before after done Ho Ha Hb Hsucc Hd Hr Hrest]; subst.
  eapply (stack_cons _ _ _ _ _ _ _ before after (done ++ [s])); try done.
  - by rewrite <- app_assoc.
  - intros y. rewrite elem_of_app, list_elem_of_singleton, predecessors_push.
    intros [Hy| ->]; [|by auto]. destruct (Hd y Hy). split; [set_solver|by left].
  - eapply search_stack_mono; [exact Hsub| |done]. intros x y Hx. apply predecessors_push. by left.
Qed.

Lemma base_advance roots st n s c rest :
  search_base roots st -> stack st = (n, s :: c) :: rest -> edge n s ->
  search_base roots {| visited := visited st; reverse := push_reverse s n (reverse st); order := order st; stack := (n, c) :: rest |}.
Proof.
  intros [H1 H2 H3 H4 H5 H6] Hst Hs. rewrite Hst in *. constructor; cbn [visited reverse order stack]; try done.
  - intros x y Hx Hy. rewrite predecessors_push. destruct (H4 x y Hx Hy). auto.
  - intros x y. rewrite predecessors_push. intros [Hx|[-> ->]]; [by apply H5|]. split; [done|apply H2; set_solver].
Qed.

(** Discovering a new vertex, as a successor or as a root. *)
Lemma stack_discover seen rv ord s st :
  stack_ok successors seen rv ord st -> (forall f, f ∈ st.*1 -> reach f s) ->
  (forall x y, x ∈ ord -> edge x y -> y ∈ ord \/ y ∈ st.*1) ->
  stack_ok successors seen rv ord ((s, successors s) :: st).
Proof.
  intros Hok Hf Hb. apply (stack_cons _ _ _ _ _ _ _ ord [] []); try done.
  - by rewrite app_nil_r.
  - set_solver.
  - set_solver.
Qed.

Lemma base_discover roots st s :
  search_base roots st -> s ∉ visited st -> s ∈ V -> (exists r, r ∈ roots /\ reach r s) ->
  search_base roots {| visited := {[s]} ∪ visited st; reverse := reverse st; order := order st;
                       stack := (s, successors s) :: stack st |}.
Proof.
  intros [H1 H2 H3 H4 H5 H6] Hs HsV Hr. constructor; cbn [visited reverse order stack]; try done.
  - rewrite fmap_cons. cbn [fst]. rewrite <- Permutation_middle. apply NoDup_cons. split; [|done].
    rewrite elem_of_app, <- H2. done.
  - intros x. rewrite elem_of_union, elem_of_singleton, H2, fmap_cons, elem_of_cons. cbn [fst]. tauto.
  - intros x. rewrite elem_of_union, elem_of_singleton. intros [-> |Hx]; [done|by apply H3].
  - intros x y Hx Hy. destruct (H4 x y Hx Hy). split; [set_solver|done].
  - intros x y Hx. destruct (H5 x y Hx). split; [done|set_solver].
Qed.

(** Edges from finished vertices lead to seen ones. *)
Lemma finished_edges roots st x y :
  search_base roots st -> x ∈ order st -> edge x y -> y ∈ order st \/ y ∈ (stack st).*1.
Proof. intros [_ H2 _ H4 _ _] Hx Hy. apply H2. by eapply H4. Qed.

Lemma search_finish roots st n rest :
  search_inv roots st -> stack st = (n, []) :: rest ->
  search_inv roots {| visited := visited st; reverse := reverse st; order := order st ++ [n]; stack := rest |}.
Proof.
  intros [[H1 H2 H3 H4 H5 H6] H7] Hst. rewrite Hst in *. rewrite fmap_cons in H1, H2. cbn [fst] in H1, H2.
  inversion H7 as [|? ? ? before after done Ho Ha Hb Hsucc Hd Hr Hrest]; subst.
  split; [constructor|]; cbn [visited reverse order stack]; try done.
  - by rewrite <- app_assoc.
  - intros x. rewrite H2, elem_of_app, elem_of_cons, list_elem_of_singleton. tauto.
  - intros x y. rewrite elem_of_app, list_elem_of_singleton. intros [Hx| ->] Hy; [by apply H4|].
    apply Hd. unfold Graph.edge in Hy. by rewrite Hsucc, app_nil_r in Hy.
  - rewrite Ho in *. by eapply post_ordered_snoc.
  - by apply stack_ok_finish.
Qed.

(** The next successor of the top frame. *)
Lemma next_successor roots st n s c rest :
  search_inv roots st -> stack st = (n, s :: c) :: rest ->
  s ∈ V /\ edge n s /\ (exists r, r ∈ roots /\ reach r s) /\ (forall f, f ∈ ((n, c) :: rest).*1 -> reach f s).
Proof.
  intros [[_ H2 H3 _ _ _] H7] Hst. rewrite Hst in H2, H7.
  inversion H7 as [|? ? ? before after done _ _ _ Hsucc _ Hbelow _]; subst.
  assert (edge n s) as He by (unfold Graph.edge; rewrite Hsucc; set_solver).
  destruct (H3 n) as (HnV & r & Hr & Hrn); [apply H2; set_solver|].
  split_and!; [by eapply Hcl|done|exists r; split; [done|by eapply rtc_r]|].
  intros f. rewrite fmap_cons, elem_of_cons. intros [-> |Hf]; [by apply rtc_once|]. eapply rtc_r; [by apply Hbelow|done].
Qed.

Lemma search_step_ok roots st :
  search_inv roots st ->
  returns (search_step successors st) (fun step =>
    match step with
    | inl st' => (search_inv roots st' /\ visited st ⊆ visited st') /\ (search_weight st' < search_weight st)%nat
    | inr st' => st' = st /\ stack st = []
    end).
Proof.
  intros Hinv. unfold search_step, search_weight. destruct (stack st) as [|[n [|s c]] rest] eqn:Hst.
  - by apply returns_ret.
  - apply returns_ret. split; [split; [by apply (search_finish roots)|done]|]. cbn. lia.
  - destruct (next_successor roots st n s c rest Hinv Hst) as (HsV & Hns & Hr & Hf). destruct Hinv as [Hb Hok].
    pose proof (base_advance _ _ _ _ _ _ Hb Hst Hns) as Hb'. rewrite Hst in Hok.
    destruct (decide (s ∈ visited st)) as [Hs|Hs]; apply returns_ret.
    + split; [split; [split; [done|by eapply stack_advance]|done]|]. cbn. lia.
    + split; [split; [split|cbn; set_solver]|].
      * by apply (base_discover roots _ s Hb').
      * cbn. apply stack_discover; [eapply stack_advance; [done|set_solver..]|done|].
        intros x y Hx Hy. by apply (finished_edges roots _ x y Hb').
      * cbn. rewrite (weight_insert _ V (visited st) s) by done. lia.
Qed.

Lemma search_root roots st root :
  search_inv roots st -> stack st = [] -> root ∈ roots -> root ∈ V -> root ∉ visited st ->
  search_inv roots {| visited := {[root]} ∪ visited st; reverse := reverse st; order := order st;
                      stack := [(root, successors root)] |}.
Proof.
  intros [Hb Hok] Hst Hr HrV Hn. pose proof (base_discover roots st root Hb Hn HrV ltac:(by eauto using rtc_refl)) as Hb'.
  rewrite Hst in Hb'. split; [done|]. cbn. apply stack_discover; [constructor|set_solver|].
  intros x y Hx Hy. rewrite <- Hst. by eapply finished_edges.
Qed.

Lemma search_loop_ok fuel roots st :
  search_inv roots st -> (search_weight st < fuel)%nat ->
  returns (loop fuel (search_step successors) st) (fun st' =>
    search_inv roots st' /\ stack st' = [] /\ visited st ⊆ visited st').
Proof.
  intros Hinv Hf. apply (loop_rule (fun st' => search_inv roots st' /\ visited st ⊆ visited st') search_weight);
    [|by split|done].
  intros st' [Hinv' Hsub]. eapply returns_mono; [by apply search_step_ok|].
  intros [st''|st'']; [intros [[? ?] ?]; split_and!; [done|set_solver|done]|]. by intros [-> ?].
Qed.

Lemma search_roots_ok fuel roots todo st :
  (graph_size successors V < fuel)%nat -> (forall r, r ∈ todo -> r ∈ roots /\ r ∈ V) ->
  search_inv roots st -> stack st = [] ->
  returns (search_roots fuel successors todo st) (fun st' =>
    search_inv roots st' /\ stack st' = [] /\ visited st ⊆ visited st' /\ forall r, r ∈ todo -> r ∈ visited st').
Proof.
  intros Hf. revert st. induction todo as [|r todo IH]; intros st Htodo Hinv Hst; cbn [search_roots].
  { apply returns_ret. split_and!; [done..|set_solver]. }
  destruct (decide (r ∈ visited st)) as [Hr|Hr].
  { eapply returns_mono; [apply IH; [set_solver|done..]|]. intros st' (? & ? & ? & ?). split_and!; [done..|set_solver]. }
  destruct (Htodo r) as [Hr1 Hr2]; [set_solver|].
  eapply returns_bind; [apply (search_loop_ok _ roots)|].
  - by apply search_root.
  - unfold search_weight. cbn [visited stack sum_list_with snd]. pose proof (weight_mono (fun x => 2 + length (successors x))%nat V ∅ (visited st) ltac:(set_solver)).
    rewrite (weight_insert _ V (visited st) r) in * by done. unfold graph_size in Hf. lia.
  - cbn. intros st' (Hinv' & Hst' & Hsub). eapply returns_mono; [apply IH; [set_solver|done..]|].
    intros st'' (? & ? & ? & ?). split_and!; [done..|set_solver|set_solver].
Qed.
End search.

(** ** The second traversal *)

Section components.
Context {N : Type} `{Countable N} (successors : N -> list N).
Context (reverse : gmap N (list N)) (order : list N).
Abbreviation edge := (edge successors).
Abbreviation reach := (rtc edge).
Context (Hnodup : NoDup order).
Context (Hfwd : forall x y, x ∈ order -> edge x y -> y ∈ order /\ x ∈ predecessors reverse y).
Context (Hback : forall x y, x ∈ predecessors reverse y -> edge x y /\ x ∈ order).
Context (Hpost : post_ordered successors order).

(** No edge of the graph enters [S]. *)
Definition pred_closed (S : N -> Prop) : Prop := forall x y, x ∈ order -> edge x y -> S y -> S x.

Lemma pred_closed_reach S x y : pred_closed S -> x ∈ order -> reach x y -> S y -> S x.
Proof.
  intros HS Hx Hr Hy. induction Hr as [|x z y Hxz _ IH]; [done|]. apply (HS x z Hx Hxz).
  apply IH; [by eapply Hfwd|done].
Qed.

Lemma push_predecessors_spec (ps : list N) seen st :
  let (seen', st') := push_predecessors ps seen st in
  exists new, st' = new ++ st /\ NoDup new /\ (forall x, x ∈ new -> x ∈ ps /\ x ∉ seen) /\
    (forall x, x ∈ seen' <-> x ∈ seen \/ x ∈ new) /\ (forall x, x ∈ ps -> x ∈ seen').
Proof.
  clear -H. revert seen st. induction ps as [|p ps IH]; intros seen st; cbn [push_predecessors].
  { exists []. split_and!; [done|constructor|set_solver..]. }
  destruct (decide (p ∈ seen)) as [Hp|Hp].
  - specialize (IH seen st). destruct (push_predecessors _ _ _) as [seen' st'].
    destruct IH as (new & -> & Hnd & Hnew & Hseen & Hall). exists new. split_and!; [done|done|set_solver..].
  - specialize (IH ({[p]} ∪ seen) (p :: st)). destruct (push_predecessors _ _ _) as [seen' st'].
    destruct IH as (new & -> & Hnd & Hnew & Hseen & Hall). exists (new ++ [p]).
    split_and!; [by rewrite <- app_assoc|apply NoDup_app; split_and!; [done| |apply NoDup_singleton]|set_solver..].
    intros x Hx. destruct (Hnew x Hx). set_solver.
Qed.

(** Collecting the component of [root], when everything after it in the order
    has been collected. *)
Section one.
Context (A B : list N) (root : N) (seen0 : gset N).
Context (Horder : order = A ++ root :: B).
Context (Hseen0 : forall x, x ∈ seen0 -> x ∈ order) (HB : forall x, x ∈ B -> x ∈ seen0).
Context (Hclosed0 : pred_closed (.∈ seen0)) (Hroot : root ∉ seen0).

Record component_inv (st : gset N * list N * list N) : Prop := {
  co_nodup : NoDup (st.1.2 ++ st.2);
  co_seen : forall x, x ∈ st.1.1 <-> x ∈ seen0 \/ x ∈ st.1.2 \/ x ∈ st.2;
  co_fresh : forall x, x ∈ st.1.2 \/ x ∈ st.2 -> x ∉ seen0 /\ x ∈ order /\ reach x root;
  co_closed : forall x y, x ∈ order -> edge x y -> y ∈ st.1.2 -> x ∈ st.1.1;
  co_root : root ∈ st.1.2 \/ root ∈ st.2;
}.

(** The component and what has been seen with it. *)
Record collected (seen : gset N) (component : list N) : Prop := {
  cd_nodup : NoDup component;
  cd_seen : forall x, x ∈ seen <-> x ∈ seen0 \/ x ∈ component;
  cd_fresh : forall x, x ∈ component -> x ∉ seen0 /\ x ∈ order /\ reach x root;
  cd_closed : pred_closed (.∈ seen);
  cd_root : root ∈ component;
}.

Definition component_weight (st : gset N * list N * list N) : nat :=
  (length st.2 + weight (fun _ => 1%nat) order st.1.1)%nat.

(** Vertices visited and pushed are paid by the weight. *)
Lemma weight_new (new : list N) (seen seen' : gset N) :
  NoDup new -> (forall x, x ∈ new -> x ∉ seen /\ x ∈ order) -> (forall x, x ∈ seen' <-> x ∈ seen \/ x ∈ new) ->
  (length new + weight (fun _ => 1%nat) order seen' = weight (fun _ => 1%nat) order seen)%nat.
Proof.
  clear -Hnodup. intros Hnd. revert seen. induction Hnd as [|x new Hx Hnd IH]; intros seen Hnew Hseen.
  { apply weight_ext. set_solver. }
  rewrite (weight_insert _ order seen x) by (done || apply Hnew; set_solver).
  rewrite <- (IH ({[x]} ∪ seen)) by set_solver. cbn [length]. lia.
Qed.

Lemma component_step_ok st :
  component_inv st ->
  returns (component_step reverse st) (fun step =>
    match step with
    | inl st' => component_inv st' /\ (component_weight st' < component_weight st)%nat
    | inr (seen, component) => collected seen component
    end).
Proof.
  destruct st as [[seen comp] [|node st]]; intros [H1 H2 H3 H4 H5]; cbn [fst snd] in *; unfold component_step.
  - apply returns_ret. constructor; [by rewrite app_nil_r in H1|set_solver|set_solver| |set_solver].
    intros x y Hx He Hy. apply H2 in Hy as [Hy|[Hy|Hy]]; [|by eapply H4|set_solver]. apply H2. left. by eapply Hclosed0.
  - pose proof (push_predecessors_spec (default [] (reverse !! node)) seen st) as Hp.
    destruct (push_predecessors _ _ _) as [seen' st']. destruct Hp as (new & -> & Hnd & Hnew & Hseen & Hall).
    assert (forall x, x ∈ new -> x ∉ seen /\ x ∈ order /\ reach x root) as Hnew'.
    { intros x Hx. destruct (Hnew x Hx) as [Hp Hs]. destruct (Hback x node Hp) as [He Ho].
      split_and!; [done|done|]. eapply rtc_l; [exact He|]. apply H3. set_solver. }
    apply returns_ret. split.
    + constructor; cbn [fst snd].
      * rewrite <- app_assoc. cbn [app]. rewrite (Permutation_app_comm new st).
        change (comp ++ node :: st ++ new) with (comp ++ (node :: st) ++ new). rewrite app_assoc.
        apply NoDup_app. split_and!; [done| |done]. intros x Hx Hn. destruct (Hnew x Hn) as [_ []]. apply H2.
        rewrite elem_of_app in Hx. tauto.
      * intros x. rewrite Hseen, H2, !elem_of_app, elem_of_cons, list_elem_of_singleton. tauto.
      * intros x. rewrite !elem_of_app, list_elem_of_singleton. intros Hx.
        destruct (decide (x ∈ new)) as [Hn|Hn]; [|apply H3; set_solver].
        destruct (Hnew' x Hn) as (Hs & ? & ?). split_and!; [|done|done]. intros Hx0. apply Hs, H2. by left.
      * intros x y Hx He. rewrite elem_of_app, list_elem_of_singleton. intros [Hy| ->]; [apply Hseen; left; by eapply H4|].
        apply Hall. by destruct (Hfwd x node Hx He).
      * rewrite !elem_of_app, list_elem_of_singleton. set_solver.
    + unfold component_weight. cbn [fst snd length]. rewrite length_app, <- (weight_new new seen seen'); [lia|done| |done].
      intros x Hx. by destruct (Hnew' x Hx) as (? & ? & ?).
Qed.

Lemma component_loop_ok fuel :
  (length order < fuel)%nat ->
  returns (loop fuel (component_step reverse) ({[root]} ∪ seen0, [], [root])) (fun '(seen, component) => collected seen component).
Proof.
  intros Hf. assert (root ∈ order) as Hr by (rewrite Horder; set_solver).
  apply (loop_rule component_inv component_weight).
  - intros st Hst. eapply returns_mono; [by apply component_step_ok|]. by intros [st'|[seen component]].
  - constructor; cbn [fst snd]; [apply NoDup_singleton|set_solver| |set_solver|set_solver].
    intros x [Hx|Hx]; [set_solver|]. apply list_elem_of_singleton in Hx as ->. split_and!; [done|done|apply rtc_refl].
  - unfold component_weight. cbn [fst snd length].
    pose proof (weight_insert (fun _ => 1%nat) order seen0 root Hnodup Hr Hroot).
    assert (forall l : list N, (weight (fun _ => 1%nat) l ∅ <= length l)%nat) as Hl.
    { intros l. unfold weight. induction l as [|y l IH]; [done|]. rewrite filter_cons. case_decide; simpl; lia. }
    pose proof (weight_mono (fun _ => 1%nat) order ∅ seen0 ltac:(set_solver)). specialize (Hl order). cbn beta in *. lia.
Qed.

(** Every vertex of the component is reachable from its root: nothing on the
    path to the root had been collected, so the path stays before the root in
    the finishing order. *)
Lemma component_reached seen component x : collected seen component -> x ∈ component -> reach root x.
Proof.
  intros [_ _ Hfresh _ _] Hx. destruct (Hpost A root B Horder) as (A1 & A2 & HA & H2 & H1).
  assert (forall z w, reach z w -> w = root -> z ∈ order -> z ∉ seen0 -> z ∈ A2 \/ z = root) as Hpath.
  { induction 1 as [z|z y w Hzy Hyw IH]; intros Hw Hz Hs; [by right|].
    destruct (Hfwd z y Hz Hzy) as [Hy _]. assert (y ∉ seen0) as Hys by (intros Hy0; by apply Hs, (Hclosed0 z y)).
    pose proof Hz as Hz'. rewrite Horder, HA in Hz'. rewrite !elem_of_app, elem_of_cons in Hz'.
    destruct Hz' as [[Hz1|Hz2]|[-> |HzB]]; [|by left|by right|by destruct (Hs (HB z HzB))].
    destruct (H1 z y Hz1 Hzy) as [Hy2 Hyr]. by destruct (IH Hw Hy Hys). }
  destruct (Hfresh x Hx) as (Hs & Ho & Hr). destruct (Hpath x root Hr eq_refl Ho Hs) as [Hx2| ->]; [by apply H2|apply rtc_refl].
Qed.

(** The component is the class of mutual reachability of its vertices. *)
Lemma component_class seen component x y :
  collected seen component -> x ∈ component -> y ∈ component <-> reach x y /\ reach y x.
Proof.
  intros Hc Hx. pose proof Hc as [_ Hseen Hfresh Hpc Hr]. destruct (Hfresh x Hx) as (Hxs & Hxo & Hxr).
  pose proof (component_reached _ _ _ Hc Hx) as Hrx. split.
  - intros Hy. destruct (Hfresh y Hy) as (_ & _ & Hyr). pose proof (component_reached _ _ _ Hc Hy) as Hry.
    split; by etrans.
  - intros [Hxy Hyx]. assert (y ∈ order) as Hyo.
    { apply (closed_reach successors (.∈ order) x y); [|done|done]. intros a b Ha Hab. by eapply Hfwd. }
    assert (y ∈ seen) as Hys by (eapply (pred_closed_reach (.∈ seen) y x); [done|done|done|]; apply Hseen; by right).
    apply Hseen in Hys as [Hys|Hys]; [|done]. destruct Hxs. by apply (pred_closed_reach (.∈ seen0) x y).
Qed.
End one.

(** What has been collected so far; [B] is the part of the order that is done. *)
Record components_inv (B : list N) (seen : gset N) (components : list (list N)) : Prop := {
  cs_done : forall x, x ∈ B -> x ∈ seen;
  cs_order : forall x, x ∈ seen -> x ∈ order;
  cs_seen : forall x, x ∈ seen <-> x ∈ concat components;
  cs_nodup : NoDup (concat components);
  cs_class : forall c, c ∈ components -> c <> [] /\ forall x y, x ∈ c -> y ∈ c <-> reach x y /\ reach y x;
  cs_sorted : forall C1 C2, components = C1 ++ C2 -> pred_closed (.∈ concat C1);
}.

Lemma components_inv_nil : components_inv [] ∅ [].
Proof.
  constructor; [by intros x ?%elem_of_nil|by intros x ?%elem_of_empty| |constructor|by intros c ?%elem_of_nil|].
  - intros x. by rewrite elem_of_empty, elem_of_nil.
  - intros [|c C1] C2 Heq; [|done]. by intros x y _ _ Hy%elem_of_nil.
Qed.

Lemma components_inv_add A B root seen component seen' components :
  order = A ++ root :: B -> components_inv B seen components -> root ∉ seen ->
  collected root seen seen' component ->
  components_inv (root :: B) seen' (components ++ [component]).
Proof.
  intros Ho [H1 H2 H3 H4 H5 H6] Hr Hc. pose proof Hc as [Hnd Hseen Hfresh Hpc Hroot].
  assert (pred_closed (.∈ seen)) as Hpc0.
  { intros x y Hx He Hy. apply H3. apply H3 in Hy. eapply (H6 components []); [by rewrite app_nil_r|done..]. }
  assert (forall x, x ∈ concat (components ++ [component]) <-> x ∈ seen') as Hcat.
  { intros x. rewrite concat_app, elem_of_app, <- H3, Hseen. cbn. by rewrite app_nil_r. }
  constructor.
  - intros x. rewrite elem_of_cons, Hseen. intros [-> |Hx]; [by right|left; by apply H1].
  - intros x Hx. apply Hseen in Hx as [Hx|Hx]; [by apply H2|by apply Hfresh].
  - intros x. by rewrite Hcat.
  - rewrite concat_app. cbn. rewrite app_nil_r. apply NoDup_app. split_and!; [done| |done].
    intros x Hx Hx'. destruct (Hfresh x Hx') as [Hx0 _]. by apply Hx0, H3.
  - intros c. rewrite elem_of_app, list_elem_of_singleton. intros [Hin| ->]; [by apply H5|].
    split; [by intros ->; set_solver|]. intros x y Hx. by eapply (component_class A B root seen).
  - intros C1 C2 Heq. destruct C2 as [|c2 C2 _] using rev_ind.
    + rewrite app_nil_r in Heq. subst C1. intros x y Hx He Hy. apply Hcat. apply Hcat in Hy. by eapply Hpc.
    + rewrite app_assoc in Heq. apply app_inj_tail in Heq as [Heq _]. by apply (H6 C1 C2).
Qed.

Lemma collect_components_ok fuel A B seen components :
  (length order < fuel)%nat -> order = A ++ B -> components_inv B seen components ->
  returns (collect_components fuel reverse (rev A) seen components) (fun components' =>
    exists seen', components_inv order seen' components').
Proof.
  intros Hf. revert B seen components. induction A as [|root A IH] using rev_ind; intros B seen components Ho Hinv.
  { apply returns_ret. exists seen. by rewrite Ho. }
  rewrite rev_app_distr. cbn [rev app collect_components]. rewrite <- app_assoc in Ho. cbn [app] in Ho.
  destruct (decide (root ∈ seen)) as [Hr|Hr].
  - apply (IH (root :: B)); [done|]. destruct Hinv as [H1 H2 H3 H4 H5 H6]. constructor; [set_solver|done..].
  - pose proof Hinv as [H1 H2 H3 H4 H5 H6]. eapply returns_bind.
    + apply (component_loop_ok A B root seen); [done|done|done| |done|done].
      intros x y Hx He Hy. apply H3. apply H3 in Hy. eapply (H6 components []); [by rewrite app_nil_r|done..].
    + intros [seen' component] Hc. apply (IH (root :: B)); [done|]. by eapply components_inv_add.
Qed.
End components.

(** ** The guarantees *)

(** The components of the graph that [roots] span: every reachable vertex is in
    exactly one, the vertices of one are those that reach each other, and an
    edge never leads to an earlier one. *)
Record components_of {N} `{Countable N} (successors : N -> list N) (roots : list N) (components : list (list N)) : Prop := {
  comp_vertices : forall x, x ∈ concat components <-> exists r, r ∈ roots /\ rtc (edge successors) r x;
  comp_disjoint : NoDup (concat components);
  comp_class : forall c x y, c ∈ components -> x ∈ c -> y ∈ c <-> rtc (edge successors) x y /\ rtc (edge successors) y x;
  comp_nonempty : [] ∉ components;
  comp_sorted : forall i j ci cj x y, components !! i = Some ci -> components !! j = Some cj ->
    x ∈ ci -> y ∈ cj -> edge successors x y -> (i <= j)%nat;
}.

(** Members of closed prefixes cannot have predecessors in later components. *)
Lemma prefix_sorted {N} `{Countable N} (successors : N -> list N) order (components : list (list N)) :
  NoDup (concat components) -> (forall x, x ∈ concat components -> x ∈ order) ->
  (forall C1 C2, components = C1 ++ C2 -> pred_closed successors order (.∈ concat C1)) ->
  forall i j ci cj x y, components !! i = Some ci -> components !! j = Some cj ->
    x ∈ ci -> y ∈ cj -> edge successors x y -> (i <= j)%nat.
Proof.
  intros Hnd Ho Hs i j ci cj x y Hi Hj Hx Hy He. destruct (decide (i <= j)%nat) as [|Hgt]; [done|]. exfalso.
  assert (forall k c z, components !! k = Some c -> z ∈ c -> z ∈ concat components) as Hin.
  { intros k c z Hk Hz. apply elem_of_concat. exists c. split; [done|by eapply list_elem_of_lookup_2]. }
  pose proof (Hs (take i components) (drop i components) ltac:(by rewrite take_drop)) as Hpc.
  assert (x ∈ concat (take i components)) as Hx'.
  { apply (Hpc x y); [eapply Ho, Hin; [exact Hi|done]|done|]. apply elem_of_concat. exists cj. split; [done|].
    apply (list_elem_of_lookup_2 _ j). rewrite lookup_take_lt by lia. done. }
  rewrite <- (take_drop i components), concat_app, NoDup_app in Hnd. destruct Hnd as (_ & Hd & _).
  apply (Hd x Hx'). apply elem_of_concat. exists ci. split; [done|].
  apply (list_elem_of_lookup_2 _ 0). by rewrite lookup_drop, Nat.add_0_r.
Qed.

(** C35.  Strongly connected components: on every finite graph, and with fuel for
    as many steps as it has vertices and edges, the two iterative traversals
    return the components of the vertices reachable from the roots: a
    partition into the classes of mutual reachability, none empty, in an order
    in which no edge leads from a later component to an earlier one. *)
Theorem strongly_connected_components_correct {N} `{Countable N} (successors : N -> list N) (roots V : list N) fuel :
  NoDup V -> closed successors V -> (forall r, r ∈ roots -> r ∈ V) -> (graph_size successors V < fuel)%nat ->
  returns (strongly_connected_components fuel roots successors) (components_of successors roots).
Proof.
  intros HV Hcl Hroots Hf. unfold strongly_connected_components.
  eapply returns_bind.
  - apply (search_roots_ok successors V HV Hcl fuel roots); [done|by auto| |done].
    split; [|constructor]. constructor; cbn; try set_solver; [constructor|].
    intros A r B Heq. by destruct A.
  - intros st ([[H1 H2 H3 H4 H5 H6] _] & Hst & _ & Hall). rewrite Hst in *. cbn in H1, H2. rewrite app_nil_r in H1.
    assert (forall x, x ∈ visited st <-> x ∈ order st) as Hvis by set_solver. clear H2.
    assert (length (order st) < fuel)%nat as Hlen.
    { eapply Nat.le_lt_trans; [|exact Hf]. apply length_graph_size; [done|]. intros x Hx%Hvis. by apply H3. }
    assert (forall x y, x ∈ order st -> edge successors x y -> y ∈ order st /\ x ∈ predecessors (reverse st) y) as Hfwd.
    { intros x y Hx Hy. rewrite <- Hvis. by apply H4. }
    eapply returns_mono; [apply (collect_components_ok successors (reverse st) (order st) H1 Hfwd) with (B := []); try done|].
    + intros x y Hx. rewrite <- Hvis. by apply H5.
    + by rewrite app_nil_r.
    + apply components_inv_nil.
    + intros components (seen & [C1 C2 C3 C4 C5 C6]). assert (forall x, x ∈ concat components <-> x ∈ order st) as Hcat.
      { intros x. rewrite <- C3. split; [apply C2|apply C1]. }
      constructor; [|done|naive_solver|intros Hnil; by destruct (C5 _ Hnil)|].
      * intros x. rewrite Hcat, <- Hvis. split; [intros Hx; by apply H3|]. intros (r & Hr & Hx).
        apply (closed_reach successors (.∈ visited st) r x); [|by apply Hall|done].
        intros a b Ha%Hvis Hab. by eapply H4.
      * apply (prefix_sorted _ (order st)); [done|set_solver|done].
Qed.

Definition sample_edges (x : nat) : list nat :=
  match x with 0 => [1] | 1 => [0; 2] | 2 => [3] | 3 => [2] | 4 => [4] | 5 => [6] | _ => [] end%nat.

Lemma sample_closed : closed sample_edges (seq 0 7).
Proof.
  intros x y Hx Hy. apply elem_of_seq in Hx. apply elem_of_seq. unfold edge in Hy.
  do 7 (destruct x as [|x]; [cbn in Hy; set_solver by lia|]). lia.
Qed.

Lemma strongly_connected_components_correct_witness :
  exists components, strongly_connected_components 40 (seq 0 7) sample_edges = Ret components /\
    components = [[5]; [6]; [4]; [0; 1]; [2; 3]]%nat /\ components_of sample_edges (seq 0 7) components.
Proof.
  destruct (strongly_connected_components_correct sample_edges (seq 0 7) (seq 0 7) 40) as (components & Hc & Hok);
    [apply NoDup_seq|apply sample_closed|done|vm_compute; lia|].
  exists components. split; [done|]. split; [|done]. vm_compute in Hc. by injection Hc as <-.
Defined.

(** Transitive dependencies: on every finite graph, and with fuel for its
    vertices, edges and roots, the worklist loop returns exactly the vertices
    reachable from the roots, cycles included. *)
Theorem transitive_dependencies_correct {N} `{Countable N} (dependencies : N -> list N) (roots V : list N) fuel :
  NoDup V -> closed dependencies V -> (forall r, r ∈ roots -> r ∈ V) ->
  (length roots + graph_size dependencies V < fuel)%nat ->
  returns (transitive_dependencies fuel roots dependencies) (fun retained =>
    forall x, x ∈ retained <-> exists r, r ∈ roots /\ rtc (edge dependencies) r x).
Proof.
  intros HV Hcl Hr Hf. apply (transitive_dependencies_spec dependencies V HV Hcl); [done|].
  enough (weight (fun x => 1 + length (dependencies x)) V ∅ <= graph_size dependencies V)%nat by lia.
  unfold graph_size, weight. clear. induction V as [|x V IH]; [done|].
  rewrite filter_cons. case_decide; [|done]. cbn [sum_list_with]. lia.
Qed.

