(* ===== verification/Order.v ===== *)
(** * Total orders and sorting

    Rust's derived [Ord] (lexicographic on sequences and on the fields of a
    struct, by position on the variants of an enum), [sort_by] as the stable
    sort it is documented to be, [binary_search_by], and [BTreeMap] as its sorted
    entries. *)

From Stdlib Require Import ZArith Lia Sorting.Sorted Sorting.Permutation.
From stdpp Require Import base option relations list.
From S2P Require Import Prelude.

(** ** Positions *)

Lemma zlen_snoc {A} (l : list A) x : zlen (l ++ [x]) = zlen l + 1.
Proof. rewrite zlen_app. done. Qed.

Lemma get_elem_of {A} (l : list A) i x : get l i = Some x -> x ∈ l.
Proof.
  intros Hx. pose proof (get_Some_range _ _ _ Hx). rewrite get_nonneg in Hx by lia. by eapply list_elem_of_lookup_2.
Qed.

Lemma elem_of_get {A} (l : list A) x : x ∈ l -> exists i, get l i = Some x.
Proof.
  intros [i Hi]%list_elem_of_lookup. exists (Z.of_nat i). by rewrite get_nonneg, Nat2Z.id by lia.
Qed.

Lemma StronglySorted_get {A} (R : A -> A -> Prop) l i j x y :
  StronglySorted R l -> get l i = Some x -> get l j = Some y -> i < j -> R x y.
Proof.
  intros Hs. revert i j. induction Hs as [|a l Hs IH Ha]; intros i j Hx Hy Hij.
  { apply get_Some_range in Hx. unfold zlen in Hx. simpl in Hx. lia. }
  pose proof (get_Some_range _ _ _ Hx). rewrite (get_cons_S a l j) in Hy by lia.
  destruct (Z.eq_dec i 0) as [->|].
  - rewrite get_cons_0 in Hx. injection Hx as <-. rewrite Forall_forall in Ha. apply Ha. by eapply get_elem_of.
  - rewrite get_cons_S in Hx by lia. eapply (IH (i - 1) (j - 1)); [done|done|lia].
Qed.

(** ** Orders *)

Class Ord (A : Type) := cmp : A -> A -> comparison.

Class OrdLaws (A : Type) `{Ord A} := {
  cmp_eq (a b : A) : cmp a b = Eq <-> a = b;
  cmp_antisym (a b : A) : cmp b a = CompOpp (cmp a b);
  cmp_trans (a b c : A) : cmp a b = Lt -> cmp b c = Lt -> cmp a c = Lt;
}.

(** [Ordering::then_with]. *)
Definition then_with (c d : comparison) : comparison := match c with Eq => d | _ => c end.

Definition ord_le {A} `{Ord A} (a b : A) : Prop := cmp a b <> Gt.

Section laws.
Context {A : Type} `{OrdLaws A}.

Lemma cmp_refl a : cmp a a = Eq.
Proof. by apply cmp_eq. Qed.

Lemma cmp_Gt a b : cmp a b = Gt <-> cmp b a = Lt.
Proof. rewrite (cmp_antisym a b). by destruct (cmp a b). Qed.

Lemma cmp_lt_ne a b : cmp a b = Lt -> a <> b.
Proof. intros Hlt ->. by rewrite cmp_refl in Hlt. Qed.

#[export] Instance ord_le_trans : Transitive ord_le.
Proof.
  intros a b c. unfold ord_le. intros Hab Hbc Hac. apply cmp_Gt in Hac.
  destruct (cmp a b) eqn:Eab; [apply cmp_eq in Eab as ->|..]; [|..].
  - by apply Hbc, cmp_Gt.
  - apply Hbc, cmp_Gt. by eapply cmp_trans.
  - done.
Qed.

#[export] Instance ord_le_refl : Reflexive ord_le.
Proof. intros a. unfold ord_le. by rewrite cmp_refl. Qed.

Lemma ord_le_antisym a b : ord_le a b -> ord_le b a -> a = b.
Proof. unfold ord_le. rewrite (cmp_antisym a b). intros H1 H2. apply cmp_eq. by destruct (cmp a b). Qed.

Lemma ord_le_total a b : ord_le a b \/ ord_le b a.
Proof. unfold ord_le. rewrite (cmp_antisym a b). destruct (cmp a b); naive_solver. Qed.

Lemma ord_le_lt a b : ord_le a b -> a <> b -> cmp a b = Lt.
Proof. unfold ord_le. intros H1 H2. destruct (cmp a b) eqn:E; [by apply cmp_eq in E|done|done]. Qed.
End laws.

(** ** Instances *)

#[export] Instance Z_ord : Ord Z := Z.compare.
#[export] Instance Z_ord_laws : OrdLaws Z.
Proof.
  split; [apply Z.compare_eq_iff|apply Z.compare_antisym|].
  intros a b c. unfold cmp, Z_ord. rewrite !Z.compare_lt_iff. lia.
Qed.

Fixpoint list_cmp {A} `{Ord A} (l l' : list A) : comparison :=
  match l, l' with
  | [], [] => Eq
  | [], _ :: _ => Lt
  | _ :: _, [] => Gt
  | x :: l, y :: l' => then_with (cmp x y) (list_cmp l l')
  end.

#[export] Instance list_ord `{Ord A} : Ord (list A) := list_cmp.

#[export] Instance list_ord_laws `{OrdLaws A} : OrdLaws (list A).
Proof.
  split.
  - unfold cmp, list_ord. induction a as [|x a IH]; intros [|y b]; try done. cbn. unfold then_with.
    destruct (cmp x y) eqn:E.
    + apply cmp_eq in E as ->. rewrite IH. naive_solver.
    + apply cmp_lt_ne in E. naive_solver.
    + apply cmp_Gt, cmp_lt_ne in E. naive_solver.
  - unfold cmp, list_ord. induction a as [|x a IH]; intros [|y b]; try done. cbn. rewrite (cmp_antisym x y). unfold then_with.
    destruct (cmp x y); cbn; [apply IH|done|done].
  - unfold cmp, list_ord. induction a as [|x a IH]; intros [|y b] [|z c]; try done. cbn. unfold then_with.
    destruct (cmp x y) eqn:Exy; [apply cmp_eq in Exy as ->|..|done].
    + destruct (cmp y z) eqn:Eyz; [apply IH|done|done].
    + intros _. destruct (cmp y z) eqn:Eyz; [apply cmp_eq in Eyz as ->; by rewrite Exy|by rewrite (cmp_trans x y z)|done].
Qed.

#[export] Instance prod_ord `{Ord A} `{Ord B} : Ord (A * B) :=
  fun p q => then_with (cmp p.1 q.1) (cmp p.2 q.2).

#[export] Instance prod_ord_laws `{OrdLaws A} `{OrdLaws B} : OrdLaws (A * B).
Proof.
  split.
  - intros [a b] [a' b']. unfold cmp, prod_ord, then_with. cbn. destruct (cmp a a') eqn:E.
    + apply cmp_eq in E as ->. rewrite cmp_eq. naive_solver.
    + apply cmp_lt_ne in E. naive_solver.
    + apply cmp_Gt, cmp_lt_ne in E. naive_solver.
  - intros [a b] [a' b']. unfold cmp, prod_ord, then_with. cbn. rewrite (cmp_antisym a a').
    destruct (cmp a a'); cbn; [apply cmp_antisym|done|done].
  - intros [a b] [a' b'] [a'' b'']. unfold cmp, prod_ord, then_with. cbn.
    destruct (cmp a a') eqn:E; [apply cmp_eq in E as ->|..|done].
    + destruct (cmp a' a''); [apply cmp_trans|done|done].
    + intros _. destruct (cmp a' a'') eqn:E'; [apply cmp_eq in E' as ->; by rewrite E|by rewrite (cmp_trans a a' a'')|done].
Qed.

(** An order by a key that determines the value, as derived orders are. *)
Definition ord_on {A B} `{Ord B} (key : A -> B) : Ord A := fun a b => cmp (key a) (key b).

Lemma ord_on_laws {A B} `{OrdLaws B} (key : A -> B) : Inj (=) (=) key -> @OrdLaws A (ord_on key).
Proof.
  intros Hinj. split; unfold cmp, ord_on.
  - intros a b. rewrite cmp_eq. split; [apply Hinj|by intros ->].
  - intros a b. apply cmp_antisym.
  - intros a b c. apply cmp_trans.
Qed.

(** ** Sorting

    [slice::sort_by] is stable; [sort_unstable] on a total order that tells all
    values apart has the same result. *)

Section sort.
Context {A : Type} (compare : A -> A -> comparison).

Fixpoint insert_sorted (x : A) (l : list A) : list A :=
  match l with
  | [] => [x]
  | y :: l' => match compare x y with Gt => y :: insert_sorted x l' | _ => x :: l end
  end.

Definition sort_by (l : list A) : list A := foldr insert_sorted [] l.

Definition sorted_by (l : list A) : Prop := StronglySorted (fun a b => compare a b <> Gt) l.

Lemma insert_sorted_perm x l : insert_sorted x l ≡ₚ x :: l.
Proof.
  induction l as [|y l IH]; [done|]. simpl. destruct (compare x y); [done|done|].
  rewrite IH. by constructor.
Qed.

Lemma sort_by_perm l : sort_by l ≡ₚ l.
Proof. induction l as [|x l IH]; [done|]. simpl. rewrite insert_sorted_perm. by constructor. Qed.

Context (Hanti : forall a b, compare b a = CompOpp (compare a b)).
Context (Htrans : forall a b c, compare a b <> Gt -> compare b c <> Gt -> compare a c <> Gt).

Lemma insert_sorted_sorted x l : sorted_by l -> sorted_by (insert_sorted x l).
Proof.
  induction 1 as [|y l Hl IH Hy]; simpl; [by repeat constructor|].
  assert (compare x y <> Gt -> sorted_by (x :: y :: l)) as Hle.
  { intros Hxy. constructor; [by constructor|]. constructor; [done|].
    eapply Forall_impl; [exact Hy|]. intros z. by apply Htrans. }
  destruct (compare x y) eqn:E; [by apply Hle|by apply Hle|].
  constructor; [done|]. rewrite insert_sorted_perm. constructor; [|done]. rewrite Hanti, E. done.
Qed.

Lemma sort_by_sorted l : sorted_by (sort_by l).
Proof. induction l as [|x l IH]; simpl; [constructor|by apply insert_sorted_sorted]. Qed.

(** A sorted list is left as it is. *)
Lemma sort_by_id l : sorted_by l -> sort_by l = l.
Proof.
  induction 1 as [|x l Hl IH Hx]; [done|]. simpl. rewrite IH. destruct l as [|y l]; [done|]. simpl.
  inversion Hx; subst. by destruct (compare x y).
Qed.
End sort.

(** [sort_by(|a, b| key(a).cmp(key(b)))]. *)
Definition sort_by_key {A K} `{Ord K} (key : A -> K) : list A -> list A :=
  sort_by (fun a b => cmp (key a) (key b)).

Section keys.
Context {A K : Type} `{OrdLaws K} (key : A -> K).

Definition key_sorted (l : list A) : Prop := StronglySorted ord_le (map key l).

Lemma sorted_by_key l : sorted_by (fun a b => cmp (key a) (key b)) l <-> key_sorted l.
Proof.
  unfold sorted_by, key_sorted. induction l as [|x l IH]; [split; constructor|]. simpl. split.
  - inversion 1 as [|? ? Hs Hx]; subst. constructor; [by apply IH|]. apply Forall_map. exact Hx.
  - inversion 1 as [|? ? Hs Hx]; subst. constructor; [by apply IH|]. rewrite Forall_map in Hx. exact Hx.
Qed.

Lemma sort_by_key_sorted l : key_sorted (sort_by_key key l).
Proof.
  apply sorted_by_key, sort_by_sorted; [intros a b; apply cmp_antisym|].
  intros a b c. change (ord_le (key a) (key b) -> ord_le (key b) (key c) -> ord_le (key a) (key c)). apply ord_le_trans.
Qed.

Lemma sort_by_key_perm l : sort_by_key key l ≡ₚ l.
Proof. apply sort_by_perm. Qed.

Lemma sort_by_key_id l : key_sorted l -> sort_by_key key l = l.
Proof. intros Hl. by apply sort_by_id, sorted_by_key. Qed.

(** On a sorted list, equal keys are adjacent. *)
Fixpoint adjacent_equal (l : list A) : option A :=
  match l with
  | a :: (b :: _) as l' => match cmp (key a) (key b) with Eq => Some b | _ => adjacent_equal l' end
  | _ => None
  end.

Lemma adjacent_equal_None l : key_sorted l -> adjacent_equal l = None <-> NoDup (map key l).
Proof.
  unfold key_sorted. induction l as [|a l IH]; intros Hs; [split; [constructor|done]|].
  destruct l as [|b l]; [split; [intros _; apply NoDup_singleton|done]|]. simpl in Hs |- *.
  inversion Hs as [|? ? Hs' Ha]; subst. specialize (IH Hs'). simpl in IH.
  destruct (cmp (key a) (key b)) eqn:E.
  - apply cmp_eq in E. split; [done|]. rewrite NoDup_cons, E. intros [[] _]. by left.
  - rewrite IH, (NoDup_cons (key a)). split; [|tauto]. intros Hnd. split; [|done].
    rewrite list_elem_of_In. intros [Hab|Hin]; [by apply cmp_lt_ne in E|].
    inversion Hs' as [|? ? _ Hb]; subst. rewrite List.Forall_forall in Hb.
    assert (ord_le (key b) (key a)) as Hba by (by apply Hb).
    unfold ord_le in Hba. by rewrite (cmp_antisym (key a) (key b)), E in Hba.
  - inversion Ha as [|? ? Hab _]; subst. by unfold ord_le in Hab.
Qed.

Lemma adjacent_equal_Some l b : adjacent_equal l = Some b -> b ∈ l.
Proof.
  induction l as [|a l IH]; [done|]. destruct l as [|b' l]; [done|]. intros Hb. cbn [adjacent_equal] in Hb.
  destruct (cmp (key a) (key b')); [simplify_eq; set_solver|..]; apply elem_of_cons; right; by apply IH.
Qed.

Lemma pair_behind (a x b : A) l rest : l ≡ₚ x :: b :: rest -> a :: l ≡ₚ x :: b :: a :: rest.
Proof. intros Hr. transitivity (a :: x :: b :: rest); [by constructor|]. etransitivity; [apply perm_swap|]. constructor. apply perm_swap. Qed.

(** The pair at which it stops. *)
Lemma adjacent_equal_pair l b : adjacent_equal l = Some b -> exists a rest, l ≡ₚ a :: b :: rest /\ key a = key b.
Proof.
  induction l as [|a l IH]; [done|]. destruct l as [|b' l]; [done|]. intros Hb. cbn [adjacent_equal] in Hb.
  destruct (cmp (key a) (key b')) eqn:E.
  - injection Hb as <-. apply cmp_eq in E. by exists a, l.
  - destruct (IH Hb) as (x & rest & Hr & Hx). exists x, (a :: rest). split; [|done]. by apply pair_behind.
  - destruct (IH Hb) as (x & rest & Hr & Hx). exists x, (a :: rest). split; [|done]. by apply pair_behind.
Qed.

(** Sorted lists with the same members are equal when keys tell members apart. *)
Lemma key_sorted_unique l l' :
  key_sorted l -> key_sorted l' -> NoDup (map key l) -> l ≡ₚ l' -> l = l'.
Proof.
  unfold key_sorted. revert l'. induction l as [|a l IH]; intros l' Hs Hs' Hnd Hp.
  { by apply Permutation_nil in Hp as ->. }
  destruct l' as [|a' l']; [by apply Permutation_sym, Permutation_nil_cons in Hp|].
  simpl in *. inversion Hs as [|? ? Hs1 Ha]; subst. inversion Hs' as [|? ? Hs1' Ha']; subst.
  assert (a = a') as <-.
  { assert (a' ∈ a :: l) as Hin by (rewrite Hp; set_solver). assert (a ∈ a' :: l') as Hin' by (rewrite <- Hp; set_solver).
    apply elem_of_cons in Hin as [->|Hin]; [done|]. apply elem_of_cons in Hin' as [->|Hin']; [done|].
    assert (key a = key a') as Heq.
    { rewrite List.Forall_forall in Ha, Ha'. apply ord_le_antisym; [apply Ha|apply Ha']; apply in_map; by apply list_elem_of_In. }
    rewrite NoDup_cons in Hnd. destruct Hnd as [[] _]. rewrite Heq. apply list_elem_of_In, in_map. by apply list_elem_of_In. }
  f_equal. rewrite NoDup_cons in Hnd. apply IH; [done|done|tauto|]. by eapply Permutation_cons_inv.
Qed.
End keys.

(** ** [binary_search_by]

    The algorithm of the Rust standard library: halve the window while it holds
    more than one element, then compare once more. *)

Section binary_search.
Context {A : Type} (f : A -> comparison).

Fixpoint search_window (fuel : nat) (l : list A) (base size : Z) : Z :=
  match fuel with
  | O => base
  | S fuel' =>
      if size <=? 1 then base
      else
        let half := size / 2 in
        let mid := base + half in
        let base' := match get l mid with
                     | Some y => match f y with Gt => base | _ => mid end
                     | None => base
                     end in
        search_window fuel' l base' (size - half)
  end.

Definition binary_search_by (l : list A) : result usize usize :=
  if zlen l =? 0 then Err 0
  else
    let base := search_window (length l) l 0 (zlen l) in
    match get l base with
    | Some y => match f y with Eq => Ok base | Lt => Err (base + 1) | Gt => Err base end
    | None => Err base
    end.

(** The results go from [Less] to [Equal] to [Greater]. *)
Definition partitioned (l : list A) : Prop :=
  forall i j x y, get l i = Some x -> get l j = Some y -> i < j ->
  (f x = Gt -> f y = Gt) /\ (f y = Lt -> f x = Lt).

Context (l : list A) (Hl : partitioned l).

Lemma search_window_spec fuel base size :
  0 <= base -> 1 <= size -> base + size <= zlen l -> size <= Z.of_nat fuel ->
  (forall y, 0 < base -> get l base = Some y -> f y <> Gt) ->
  (forall j y, base + size <= j -> get l j = Some y -> f y = Gt) ->
  let b := search_window fuel l base size in
  0 <= b < zlen l /\ (forall y, 0 < b -> get l b = Some y -> f y <> Gt) /\
  (forall j y, b + 1 <= j -> get l j = Some y -> f y = Gt).
Proof.
  revert base size. induction fuel as [|fuel IH]; intros base size ??? Hf Hlo Hhi; [lia|].
  simpl. destruct (size <=? 1) eqn:Esize.
  { replace (base + size) with (base + 1) in Hhi by lia. split_and!; auto; lia. }
  pose proof (Z.div_lt size 2). pose proof (Z.div_le_lower_bound size 2 1). pose proof (Z.mul_div_le size 2).
  destruct (get_is_Some l (base + size / 2)) as [y Hy]; [lia|]. rewrite Hy.
  assert (f y = Gt -> forall j z, base + size / 2 <= j -> get l j = Some z -> f z = Gt) as Hup.
  { intros Hg j z Hj Hz. destruct (Z.eq_dec j (base + size / 2)) as [->|]; [congruence|].
    by apply (Hl _ _ _ _ Hy Hz ltac:(lia)). }
  destruct (f y) eqn:Ef; apply IH; try lia; try done.
  - intros z _ Hz. rewrite Hy in Hz. injection Hz as <-. by rewrite Ef.
  - intros j z Hj. apply Hhi. lia.
  - intros z _ Hz. rewrite Hy in Hz. injection Hz as <-. by rewrite Ef.
  - intros j z Hj. apply Hhi. lia.
  - intros j z Hj. apply (Hup eq_refl). lia.
Qed.

(** The search finds an equal element exactly when there is one. *)
Lemma binary_search_by_spec :
  match binary_search_by l with
  | Ok i => exists x, get l i = Some x /\ f x = Eq
  | Err _ => forall i x, get l i = Some x -> f x <> Eq
  end.
Proof.
  unfold binary_search_by. pose proof (zlen_nonneg l). destruct (zlen l =? 0) eqn:El.
  { intros i x Hi%get_Some_range. lia. }
  destruct (search_window_spec (length l) 0 (zlen l)) as (Hb & Hlo & Hhi);
    try (unfold zlen in *; lia); [intros j y ? Hj%get_Some_range; lia|].
  destruct (get_is_Some _ _ Hb) as [y Hy]. rewrite Hy.
  set (b := search_window _ _ _ _) in *. destruct (f y) eqn:Ef.
  - by exists y.
  - intros i x Hi. destruct (Z.lt_trichotomy i b) as [Hlt|[->|Hgt]].
    + destruct (Hl _ _ _ _ Hi Hy Hlt) as [_ H2]. by rewrite (H2 Ef).
    + congruence.
    + by rewrite (Hhi i x ltac:(lia) Hi).
  - assert (b = 0) as Hb0 by (destruct (Z.eq_dec b 0); [done|]; exfalso; apply (Hlo y); [lia|done|done]).
    intros i x Hi. pose proof (get_Some_range _ _ _ Hi). destruct (Z.eq_dec i b) as [->|]; [congruence|].
    by rewrite (Hhi i x ltac:(lia) Hi).
Qed.
End binary_search.

(** ** Ordered maps

    [BTreeMap] as its entries in increasing key order. *)

Section btree.
Context {K V : Type} `{OrdLaws K}.

Fixpoint btree_get (k : K) (m : list (K * V)) : option V :=
  match m with
  | [] => None
  | (k', v) :: m => match cmp k k' with Lt => None | Eq => Some v | Gt => btree_get k m end
  end.

Fixpoint btree_insert (k : K) (v : V) (m : list (K * V)) : list (K * V) :=
  match m with
  | [] => [(k, v)]
  | (k', v') :: m' =>
      match cmp k k' with
      | Lt => (k, v) :: m
      | Eq => (k, v) :: m'
      | Gt => (k', v') :: btree_insert k v m'
      end
  end.

Fixpoint btree_remove (k : K) (m : list (K * V)) : list (K * V) :=
  match m with
  | [] => []
  | (k', v') :: m' =>
      match cmp k k' with
      | Lt => m
      | Eq => m'
      | Gt => (k', v') :: btree_remove k m'
      end
  end.

(** [collect::<BTreeMap<_, _>>()]: later entries replace earlier ones. *)
Definition btree_collect (entries : list (K * V)) : list (K * V) :=
  fold_left (fun m '(k, v) => btree_insert k v m) entries [].

Definition btree_wf (m : list (K * V)) : Prop := StronglySorted (fun a b => cmp a b = Lt) (map fst m).

Lemma btree_wf_cons k v m :
  btree_wf ((k, v) :: m) <-> btree_wf m /\ forall k' v', (k', v') ∈ m -> cmp k k' = Lt.
Proof.
  unfold btree_wf. simpl. split.
  - inversion 1 as [|? ? Hs Hf]; subst. split; [done|]. intros k' v' Hin. rewrite Forall_map, Forall_forall in Hf.
    by apply (Hf (k', v')).
  - intros [Hs Hf]. constructor; [done|]. rewrite Forall_map, Forall_forall. intros [k' v'] Hin. by eapply Hf.
Qed.

Lemma btree_wf_NoDup m : btree_wf m -> NoDup (map fst m).
Proof.
  unfold btree_wf. induction 1 as [|k ks Hs IH Hf]; constructor; [|done].
  intros Hin. rewrite Forall_forall in Hf. by apply (cmp_lt_ne k k (Hf k Hin)).
Qed.

Lemma elem_of_btree_remove k p m : p ∈ btree_remove k m -> p ∈ m.
Proof.
  induction m as [|[k' v'] m IH]; [done|]. simpl. destruct (cmp k k'); set_solver.
Qed.

Lemma elem_of_btree_insert k v p m : p ∈ btree_insert k v m -> p = (k, v) \/ p ∈ m.
Proof.
  induction m as [|[k' v'] m IH]; simpl; [set_solver|]. destruct (cmp k k'); set_solver.
Qed.

Lemma btree_get_Some k v m : btree_wf m -> btree_get k m = Some v <-> (k, v) ∈ m.
Proof.
  induction m as [|[k' v'] m IH]; intros Hwf; simpl; [set_solver|]. apply btree_wf_cons in Hwf as [Hwf Hk].
  rewrite elem_of_cons. destruct (cmp k k') eqn:E.
  - apply cmp_eq in E as ->. split; [naive_solver|]. intros [?|Hin]; [naive_solver|]. by apply Hk, cmp_lt_ne in Hin.
  - split; [done|]. intros [?|Hin]; [simplify_eq; by rewrite cmp_refl in E|].
    apply Hk, cmp_Gt in Hin. congruence.
  - rewrite IH by done. split; [auto|]. intros [?|?]; [|done]. simplify_eq. by rewrite cmp_refl in E.
Qed.

Lemma btree_get_None k m : btree_wf m -> btree_get k m = None <-> k ∉ map fst m.
Proof.
  intros Hwf. split.
  - intros Hn Hin. apply list_elem_of_fmap in Hin as ([k' v] & -> & Hin). apply btree_get_Some in Hin; [|done]. simpl in *. congruence.
  - intros Hn. destruct (btree_get k m) as [v|] eqn:E; [|done]. apply btree_get_Some in E; [|done].
    destruct Hn. apply list_elem_of_fmap. by exists (k, v).
Qed.

Lemma btree_insert_wf k v m : btree_wf m -> btree_wf (btree_insert k v m).
Proof.
  induction m as [|[k' v'] m IH]; intros Hwf; simpl; [by repeat constructor|].
  pose proof Hwf as [Hwf' Hk]%btree_wf_cons. destruct (cmp k k') eqn:E.
  - apply cmp_eq in E as ->. by apply btree_wf_cons.
  - apply btree_wf_cons. split; [done|]. intros k2 v2 [[= -> ->]|Hin]%elem_of_cons; [done|].
    eapply cmp_trans; [exact E|]. by eapply Hk.
  - apply btree_wf_cons. split; [by apply IH|]. intros k2 v2 [[= -> ->]|Hin]%elem_of_btree_insert; [by apply cmp_Gt|]. by eapply Hk.
Qed.

Lemma btree_remove_wf k m : btree_wf m -> btree_wf (btree_remove k m).
Proof.
  induction m as [|[k' v'] m IH]; intros Hwf; simpl; [done|].
  pose proof Hwf as [Hwf' Hk]%btree_wf_cons. destruct (cmp k k') eqn:E; [done|done|].
  apply btree_wf_cons. split; [by apply IH|]. intros k2 v2 Hin%elem_of_btree_remove. by eapply Hk.
Qed.

Lemma btree_insert_perm k v m : btree_get k m = None -> btree_insert k v m ≡ₚ (k, v) :: m.
Proof.
  induction m as [|[k' v'] m IH]; [done|]. simpl. destruct (cmp k k'); [done|done|]. intros Hn.
  rewrite IH by done. by constructor.
Qed.

Lemma btree_remove_perm k v m : btree_get k m = Some v -> m ≡ₚ (k, v) :: btree_remove k m.
Proof.
  induction m as [|[k' v'] m IH]; [done|]. simpl. destruct (cmp k k') eqn:E; [|done|].
  - apply cmp_eq in E as ->. by intros [= ->].
  - intros Hs. rewrite (IH Hs) at 1. by constructor.
Qed.

Lemma btree_get_insert `{EqDecision K} k k' v m :
  btree_wf m -> btree_get k' (btree_insert k v m) = if decide (k' = k) then Some v else btree_get k' m.
Proof.
  intros Hwf. induction m as [|[k0 v0] m IH]; simpl.
  - destruct (decide (k' = k)) as [->|Hne]; [by rewrite cmp_refl|]. destruct (cmp k' k) eqn:E; [by apply cmp_eq in E|done|done].
  - apply btree_wf_cons in Hwf as [Hwf Hk]. destruct (cmp k k0) eqn:E; simpl.
    + apply cmp_eq in E as ->. destruct (decide (k' = k0)) as [->|Hne]; [by rewrite cmp_refl|].
      destruct (cmp k' k0) eqn:E'; [by apply cmp_eq in E'|done|done].
    + destruct (decide (k' = k)) as [->|Hne]; [by rewrite cmp_refl|]. destruct (cmp k' k) eqn:E'; [by apply cmp_eq in E'| |done].
      by rewrite (cmp_trans k' k k0).
    + destruct (decide (k' = k)) as [->|Hne]; [rewrite E; by apply IH|].
      destruct (cmp k' k0) eqn:E'; [done|done|]. by apply IH.
Qed.

Lemma btree_get_remove k k' v m :
  btree_wf m -> k' <> k -> btree_get k' m = Some v -> btree_get k' (btree_remove k m) = Some v.
Proof.
  intros Hwf Hne Hg. apply btree_get_Some; [by apply btree_remove_wf|]. apply btree_get_Some in Hg; [|done].
  destruct (btree_get k m) as [v0|] eqn:E.
  - rewrite (btree_remove_perm _ _ _ E) in Hg. apply elem_of_cons in Hg as [[= -> ->]|?]; done.
  - clear Hwf. induction m as [|[k0 v1] m IH]; [done|]. simpl in *. destruct (cmp k k0) eqn:Ec; [done|done|].
    apply elem_of_cons in Hg as [[= -> ->]|Hg]; [by left|]. right. by apply IH.
Qed.

Lemma btree_get_remove_ne k k' m : btree_wf m -> k' <> k -> btree_get k' (btree_remove k m) = btree_get k' m.
Proof.
  intros Hwf Hne. destruct (btree_get k' m) as [v|] eqn:E; [by apply btree_get_remove|].
  destruct (btree_get k' (btree_remove k m)) as [v|] eqn:E'; [|done].
  apply btree_get_Some in E'; [|by apply btree_remove_wf]. apply elem_of_btree_remove, btree_get_Some in E'; [congruence|done].
Qed.

(** Putting a removed entry back restores the map. *)
Lemma btree_insert_remove k v m : btree_get k m = Some v -> btree_wf m -> btree_insert k v (btree_remove k m) = m.
Proof.
  induction m as [|[k' v'] m IH]; [done|]. simpl. intros Hg [Hwf Hk]%btree_wf_cons. destruct (cmp k k') eqn:E; [|done|].
  - apply cmp_eq in E as ->. injection Hg as ->. destruct m as [|[k2 v2] m]; [done|]. simpl.
    rewrite (Hk k2 v2); [done|set_solver].
  - simpl. rewrite E. by rewrite IH.
Qed.

Lemma btree_collect_wf_from entries m :
  btree_wf m -> btree_wf (fold_left (fun m '(k, v) => btree_insert k v m) entries m).
Proof. revert m. induction entries as [|[k v] entries IH]; intros m Hm; [done|]. simpl. by apply IH, btree_insert_wf. Qed.

Lemma btree_collect_wf entries : btree_wf (btree_collect entries).
Proof. apply btree_collect_wf_from. constructor. Qed.

Lemma btree_collect_perm_from entries m :
  btree_wf m -> NoDup (map fst entries) -> (forall k, k ∈ map fst entries -> k ∉ map fst m) ->
  fold_left (fun m '(k, v) => btree_insert k v m) entries m ≡ₚ entries ++ m.
Proof.
  revert m. induction entries as [|[k v] entries IH]; intros m Hm Hnd Hfresh; [done|]. simpl in *.
  apply NoDup_cons in Hnd as [Hk Hnd].
  assert (btree_get k m = None) as Hn by (apply btree_get_None; [done|]; apply Hfresh; set_solver).
  pose proof (btree_insert_perm k v m Hn) as Hp. rewrite IH; [|by apply btree_insert_wf|done|].
  - rewrite Hp. by rewrite Permutation_middle.
  - intros k' Hk'. rewrite Hp. simpl. rewrite not_elem_of_cons. split; [naive_solver|]. apply Hfresh. set_solver.
Qed.

Lemma btree_collect_perm entries : NoDup (map fst entries) -> btree_collect entries ≡ₚ entries.
Proof.
  intros Hnd. unfold btree_collect. rewrite btree_collect_perm_from; [by rewrite app_nil_r|constructor|done|].
  intros k _. simpl. apply not_elem_of_nil.
Qed.

Lemma btree_get_collect k v entries :
  NoDup (map fst entries) -> btree_get k (btree_collect entries) = Some v <-> (k, v) ∈ entries.
Proof. intros Hnd. rewrite btree_get_Some by apply btree_collect_wf. by rewrite btree_collect_perm. Qed.
End btree.
