(* ===== verification/Base.v ===== *)
(** * Shared helpers

    [bray-base]: lowercase hexadecimal text ([hex.rs]), canonical relative paths
    ([path.rs]), sorted duplicate-free slices ([slice.rs]) and non-empty text
    ([text.rs]). *)

From Stdlib Require Import ZArith Lia String Sorting.Sorted Sorting.Permutation.
From stdpp Require Import base option relations list.
From S2P Require Import Prelude Utf8 Order.

(** ** hex.rs *)

(** One digit of [{byte:02x}]. *)
Definition hex_digit (n : Z) : u8 := if n <? 10 then 48 + n else 87 + n.

Definition lowercase_hex (bytes : list u8) : str :=
  concat (map (fun byte => [hex_digit (byte / 16); hex_digit (byte mod 16)]) bytes).

Definition is_lowercase_hex (text : str) : bool :=
  forallb (fun byte => ((48 <=? byte) && (byte <=? 57)) || ((97 <=? byte) && (byte <=? 102))) text.

Definition decode_hex_digit (value : u8) : option u8 :=
  if (48 <=? value) && (value <=? 57) then Some (value - 48)
  else if (97 <=? value) && (value <=? 102) then Some (value - 97 + 10)
  else None.

(** [chunks_exact(2)] zipped with the destination bytes. *)
Fixpoint decode_hex_pairs (text : str) : option (list u8) :=
  match text with
  | high :: low :: rest =>
      match decode_hex_digit high, decode_hex_digit low with
      | Some high, Some low =>
          match decode_hex_pairs rest with
          | Some bytes => Some (Z.lor (Z.shiftl high 4) low :: bytes)
          | None => None
          end
      | _, _ => None
      end
  | _ => Some []
  end.

Definition decode_lowercase_hex (byte_count : usize) (text : str) : option (list u8) :=
  match checked USIZE_MAX (byte_count * 2) with
  | Some length => if negb (zlen text =? length) || negb (is_lowercase_hex text) then None else decode_hex_pairs text
  | None => None
  end.

(** ** path.rs *)

(** [str::split(separator)]. *)
Fixpoint split_on (separator : Z) (text : str) : list str :=
  match text with
  | [] => [[]]
  | c :: text =>
      if c =? separator then [] :: split_on separator text
      else match split_on separator text with
           | part :: parts => (c :: part) :: parts
           | [] => [[c]]
           end
  end.

Definition is_canonical_relative_path (value : str) : bool :=
  negb (bool_decide (value = [])) &&
  negb (bool_decide (head value = Some 47)) &&
  negb (bool_decide (last value = Some 47)) &&
  negb (bool_decide (58 ∈ value)) &&
  negb (bool_decide (92 ∈ value)) &&
  negb (bool_decide (0 ∈ value)) &&
  forallb (fun part => negb (bool_decide (part = [])) && negb (bool_decide (part = lit ".")) &&
                       negb (bool_decide (part = lit ".."))) (split_on 47 value).

(** ** slice.rs and text.rs *)

(** [Vec::dedup]. *)
Fixpoint dedup {A} `{EqDecision A} (l : list A) : list A :=
  match l with
  | a :: (b :: _) as l' => if decide (a = b) then dedup l' else a :: dedup l'
  | _ => l
  end.

Definition sorted_unique_shared_slice {A} `{EqDecision A, Ord A} (items : list A) : list A :=
  dedup (sort_by cmp items).

Record NonEmptySharedStr := { NonEmptySharedStr_text : str }.

Definition NonEmptySharedStr_try_new (text : str) : option NonEmptySharedStr :=
  if bool_decide (text = []) then None else Some {| NonEmptySharedStr_text := text |}.

Definition NonEmptySharedStr_as_str (s : NonEmptySharedStr) : str := NonEmptySharedStr_text s.

#[export] Instance NonEmptySharedStr_eq_dec : EqDecision NonEmptySharedStr.
Proof. solve_decision. Defined.

(** ** Lemmas: hexadecimal text *)

Lemma hex_digit_range n : 0 <= n < 16 -> 48 <= hex_digit n <= 57 \/ 97 <= hex_digit n <= 102.
Proof. unfold hex_digit. destruct (n <? 10) eqn:E; lia. Qed.

Lemma decode_hex_digit_spec d n : decode_hex_digit d = Some n <-> 0 <= n < 16 /\ d = hex_digit n.
Proof.
  unfold decode_hex_digit, hex_digit. destruct ((48 <=? d) && (d <=? 57)) eqn:E1;
    [|destruct ((97 <=? d) && (d <=? 102)) eqn:E2]; (split; [intros; simplify_eq|]); try lia;
    try (destruct (n <? 10) eqn:E; intros [? ->]; f_equal; lia); destruct (_ <? 10) eqn:E; lia.
Qed.

Lemma join_digits h l : 0 <= l < 16 -> Z.lor (Z.shiftl h 4) l = h * 16 + l.
Proof.
  intros Hl. rewrite Z.shiftl_mul_pow2 by lia. rewrite Z.lor_comm, (lor_disjoint l h 4) by lia. lia.
Qed.

Lemma is_lowercase_hex_decodes d :
  is_lowercase_hex [d] = true <-> exists n, decode_hex_digit d = Some n.
Proof.
  unfold is_lowercase_hex, decode_hex_digit. simpl. rewrite andb_true_r.
  destruct ((48 <=? d) && (d <=? 57)); [naive_solver|]. destruct ((97 <=? d) && (d <=? 102)); naive_solver.
Qed.

Lemma zlen_lowercase_hex bytes : zlen (lowercase_hex bytes) = 2 * zlen bytes.
Proof.
  unfold lowercase_hex. induction bytes as [|b bytes IH]; [done|]. cbn [map concat app]. rewrite !zlen_cons, IH. lia.
Qed.

Lemma lowercase_hex_is_hex bytes : Forall (fun b => 0 <= b < 256) bytes -> is_lowercase_hex (lowercase_hex bytes) = true.
Proof.
  induction 1 as [|b bytes Hb _ IH]; [done|].
  unfold is_lowercase_hex, lowercase_hex in *. cbn [map concat app forallb]. rewrite IH.
  pose proof (Z.div_lt_upper_bound b 16 16). pose proof (Z.div_pos b 16). pose proof (Z.mod_pos_bound b 16).
  pose proof (hex_digit_range (b / 16)). pose proof (hex_digit_range (b mod 16)). lia.
Qed.

Lemma decode_hex_pairs_hex bytes :
  Forall (fun b => 0 <= b < 256) bytes -> decode_hex_pairs (lowercase_hex bytes) = Some bytes.
Proof.
  induction 1 as [|b bytes Hb _ IH]; [done|]. unfold lowercase_hex in *. cbn [map concat app decode_hex_pairs].
  pose proof (Z.div_lt_upper_bound b 16 16). pose proof (Z.div_pos b 16). pose proof (Z.mod_pos_bound b 16).
  rewrite (proj2 (decode_hex_digit_spec _ (b / 16))) by (split; [lia|done]).
  rewrite (proj2 (decode_hex_digit_spec _ (b mod 16))) by (split; [lia|done]).
  rewrite IH, join_digits by lia. do 2 f_equal. pose proof (Z.div_mod b 16). lia.
Qed.

Lemma hex_pairs_decoded n text bytes :
  zlen text = n * 2 -> decode_hex_pairs text = Some bytes ->
  zlen bytes = n /\ Forall (fun b => 0 <= b < 256) bytes /\ text = lowercase_hex bytes.
Proof.
  revert n bytes. induction text as [text IH] using (well_founded_induction (Wf_nat.well_founded_ltof _ length)).
  intros n bytes Hn Hd. destruct text as [|h [|l text]].
  - injection Hd as <-. unfold zlen in *. simpl in *. split_and!; [lia|constructor|done].
  - unfold zlen in Hn. simpl in Hn. lia.
  - cbn [decode_hex_pairs] in Hd. destruct (decode_hex_digit h) as [h'|] eqn:Eh; [|done].
    destruct (decode_hex_digit l) as [l'|] eqn:El; [|done].
    destruct (decode_hex_pairs text) as [bs|] eqn:Ebs; [|done]. injection Hd as <-. rewrite !zlen_cons in Hn.
    destruct (IH text ltac:(unfold Wf_nat.ltof; simpl; lia) (n - 1) bs ltac:(lia) Ebs) as (H1 & H2 & ->).
    apply decode_hex_digit_spec in Eh as [Hh ->], El as [Hl ->]. rewrite join_digits by done.
    split_and!; [rewrite zlen_cons; lia|constructor; [lia|done]|].
    unfold lowercase_hex. cbn [map concat app]. rewrite Z.div_add_l, (Z.div_small l' 16), Z.add_0_r by lia.
    rewrite Z.add_comm, Z.mod_add, Z.mod_small by lia. done.
Qed.

(** ** Lemmas: paths *)

(** [parts] joined by separators. *)
Fixpoint join_with (separator : Z) (parts : list str) : str :=
  match parts with
  | [] => []
  | [part] => part
  | part :: parts => part ++ separator :: join_with separator parts
  end.

Lemma split_on_nonempty separator text : split_on separator text <> [].
Proof. destruct text as [|c text]; [done|]. simpl. destruct (c =? separator); [done|]. by destruct (split_on _ _). Qed.

(** Splitting yields the only separator-free parts that join to the text. *)
Lemma split_on_join separator text parts :
  parts <> [] -> split_on separator text = parts <->
  join_with separator parts = text /\ Forall (fun part => separator ∉ part) parts.
Proof.
  intros Hne. revert parts Hne. induction text as [|c text IH]; intros parts Hne; simpl.
  - split.
    + intros <-. split; [done|]. constructor; [by apply not_elem_of_nil|constructor].
    + intros [Hj _]. destruct parts as [|part [|part' parts]]; [done|by simpl in Hj; subst|]. simpl in Hj. by destruct part.
  - pose proof (split_on_nonempty separator text) as Hsn. destruct (c =? separator) eqn:E.
    + apply Z.eqb_eq in E as ->. pose proof (proj1 (IH (split_on separator text) Hsn) eq_refl) as [Hj Hf]. split.
      * intros <-. split; [|constructor; [by apply not_elem_of_nil|done]]. simpl. by destruct (split_on separator text); [|rewrite Hj].
      * intros [Hj' Hf']. destruct parts as [|part parts]; [done|]. inversion Hf' as [|? ? Hpart Hrest]; subst.
        destruct part as [|x part]; [|exfalso; destruct parts; simpl in Hj'; injection Hj' as -> _; set_solver].
        destruct parts as [|part' parts]; [done|]. f_equal. apply IH; [done|]. split; [|done].
        simpl in Hj'. by injection Hj'.
    + apply Z.eqb_neq in E. pose proof (proj1 (IH (split_on separator text) Hsn) eq_refl) as [Hj Hf].
      destruct (split_on separator text) as [|p ps] eqn:Es; [done|]. inversion Hf as [|? ? Hp Hps]; subst. split.
      * intros <-. split; [|constructor; [set_solver|done]]. by destruct ps.
      * intros [Hj' Hf']. destruct parts as [|part parts]; [done|]. inversion Hf' as [|? ? Hpart Hrest]; subst.
        destruct part as [|x part].
        { destruct parts; simpl in Hj'; [done|]. by injection Hj' as -> _. }
        assert (x = c /\ join_with separator (part :: parts) = join_with separator (p :: ps)) as [-> Hj2].
        { destruct parts; simpl in Hj' |- *; by injection Hj' as -> Hj'. }
        enough (p :: ps = part :: parts) by naive_solver. apply IH; [done|]. split; [done|].
        constructor; [set_solver|done].
Qed.

(** A component of a canonical path. *)
Definition path_component (part : str) : Prop :=
  part <> [] /\ part <> lit "." /\ part <> lit ".." /\ 47 ∉ part /\ 58 ∉ part /\ 92 ∉ part /\ 0 ∉ part.

Lemma elem_of_join x separator parts :
  x <> separator -> x ∈ join_with separator parts <-> exists part, part ∈ parts /\ x ∈ part.
Proof.
  intros Hx. induction parts as [|part parts IH]; [set_solver|].
  destruct parts as [|part' parts]; [set_solver|]. cbn [join_with] in *.
  rewrite elem_of_app, elem_of_cons, IH. set_solver.
Qed.

(** The ends of joined components are those of the components. *)
Lemma join_ends parts :
  parts <> [] -> Forall (fun part => part <> [] /\ 47 ∉ part) parts ->
  join_with 47 parts <> [] /\ head (join_with 47 parts) <> Some 47 /\ last (join_with 47 parts) <> Some 47.
Proof.
  intros Hne Hall. induction Hall as [|part parts [Hp Hs] Hall IH]; [done|].
  assert (head part <> Some 47 /\ last part <> Some 47) as [Hh Hl].
  { split; [destruct part; set_solver|]. intros Hlast. apply last_Some_elem_of in Hlast. done. }
  destruct parts as [|part' parts]; [done|]. destruct IH as (H1 & H2 & H3); [done|]. cbn [join_with] in *.
  set (rest := match parts with [] => part' | _ :: _ => part' ++ 47 :: join_with 47 parts end) in *.
  split_and!; [by destruct part|by destruct part|]. rewrite last_app, last_cons. by destruct (last rest) eqn:E; [|by apply last_None in E].
Qed.

Lemma canonical_relative_path_spec value :
  is_canonical_relative_path value = true <->
  exists parts, parts <> [] /\ value = join_with 47 parts /\ Forall path_component parts.
Proof.
  unfold is_canonical_relative_path. rewrite !andb_true_iff, !negb_true_iff, !bool_decide_eq_false, forallb_forall.
  pose proof (proj1 (split_on_join 47 value (split_on 47 value) (split_on_nonempty 47 value)) eq_refl) as [Hj Hs]. split.
  - intros ((((((H1 & H2) & H3) & H4) & H5) & H6) & H7). exists (split_on 47 value).
    split_and!; [apply split_on_nonempty|done|]. apply List.Forall_forall. intros part Hpart. specialize (H7 part Hpart).
    rewrite !andb_true_iff, !negb_true_iff, !bool_decide_eq_false in H7. apply list_elem_of_In in Hpart.
    rewrite Forall_forall in Hs. specialize (Hs part Hpart).
    assert (forall x, x <> 47 -> x ∉ value -> x ∉ part) as Hin.
    { intros x Hx Hv Hxp. apply Hv. rewrite <- Hj. apply elem_of_join; [done|]. by exists part. }
    unfold path_component. split_and!; try tauto; by apply Hin.
  - intros (parts & Hne & -> & Hall).
    assert (split_on 47 (join_with 47 parts) = parts) as ->.
    { apply split_on_join; [done|]. split; [done|]. eapply Forall_impl; [exact Hall|]. unfold path_component. tauto. }
    destruct (join_ends parts Hne) as (E1 & E2 & E3); [eapply Forall_impl; [exact Hall|]; unfold path_component; tauto|].
    rewrite Forall_forall in Hall.
    assert (forall x, x <> 47 -> (forall part, path_component part -> x ∉ part) -> x ∉ join_with 47 parts) as Hno.
    { intros x Hx Hp Hin. apply elem_of_join in Hin as (part & Hpart & Hxp); [|done]. by apply (Hp part (Hall part Hpart)). }
    split_and!; try done; try (apply Hno; [done|]; unfold path_component; tauto).
    intros part Hpart%list_elem_of_In. destruct (Hall part Hpart) as (P1 & P2 & P3 & _).
    by rewrite !andb_true_iff, !negb_true_iff, !bool_decide_eq_false.
Qed.

(** ** Lemmas: sorted duplicate-free slices *)

Section unique.
Context {A : Type} `{EqDecision A} `{OrdLaws A}.

Lemma elem_of_dedup (x : A) l : x ∈ dedup l <-> x ∈ l.
Proof.
  induction l as [|a l IH]; [done|]. destruct l as [|b l]; [done|]. cbn [dedup]. fold (dedup (b :: l)).
  destruct (decide (a = b)) as [->|]; [rewrite IH; set_solver|]. rewrite elem_of_cons, IH. set_solver.
Qed.

Lemma dedup_strict l : StronglySorted ord_le l -> StronglySorted (fun a b : A => cmp a b = Lt) (dedup l).
Proof.
  induction 1 as [|a l Hl IH Ha]; [constructor|]. destruct l as [|b l]; [by repeat constructor|].
  cbn [dedup]. fold (dedup (b :: l)). destruct (decide (a = b)) as [->|Hne]; [done|]. constructor; [done|].
  apply Forall_forall. intros x Hx. apply (proj1 (elem_of_dedup x (b :: l))) in Hx. rewrite Forall_forall in Ha. pose proof (Ha x Hx) as Hax.
  apply ord_le_lt; [done|]. intros <-. apply elem_of_cons in Hx as [->|Hx]; [done|].
  inversion Hl as [|? ? _ Hb]; subst. rewrite Forall_forall in Hb. apply Hne, ord_le_antisym; [|by apply Hb].
  apply Ha. set_solver.
Qed.

(** The slice has exactly the items, in strictly increasing order. *)
Lemma sorted_unique_shared_slice_spec items :
  StronglySorted (fun a b : A => cmp a b = Lt) (sorted_unique_shared_slice items) /\
  forall x, x ∈ sorted_unique_shared_slice items <-> x ∈ items.
Proof.
  unfold sorted_unique_shared_slice. split.
  - apply dedup_strict. apply (sort_by_sorted (cmp (A := A))); [intros; apply cmp_antisym|]. apply ord_le_trans.
  - intros x. by rewrite elem_of_dedup, (sort_by_perm (cmp (A := A))).
Qed.
End unique.

(** ** The guarantee *)

(** Hexadecimal text: formatting bytes and decoding them gives them back,
    and whatever text of the right width decodes is the lowercase text of the
    bytes it decodes to, so that the encoding is canonical. *)
Theorem hex_round_trip :
  (forall bytes, Forall (fun b => 0 <= b < 256) bytes -> zlen bytes * 2 <= USIZE_MAX ->
     decode_lowercase_hex (zlen bytes) (lowercase_hex bytes) = Some bytes) /\
  (forall n text bytes, decode_lowercase_hex n text = Some bytes ->
     zlen bytes = n /\ Forall (fun b => 0 <= b < 256) bytes /\ text = lowercase_hex bytes).
Proof.
  split.
  - intros bytes Hb Hl. unfold decode_lowercase_hex. pose proof (zlen_nonneg bytes).
    rewrite checked_ok by lia. rewrite zlen_lowercase_hex, lowercase_hex_is_hex by done.
    destruct (2 * zlen bytes =? zlen bytes * 2) eqn:E; [|lia]. by apply decode_hex_pairs_hex.
  - intros n text bytes. unfold decode_lowercase_hex. destruct (checked USIZE_MAX (n * 2)) as [len|] eqn:El; [|done].
    destruct (negb (zlen text =? len)) eqn:E; [done|]. destruct (is_lowercase_hex text); [|done].
    apply checked_Some in El as [-> _]. apply hex_pairs_decoded. lia.
Qed.
