(* ===== verification/TestModel.v ===== *)
(** * The data of the test protocol

    [bray-test-protocol]: [identity.rs], [catalog.rs] (entries), [capture.rs],
    [failure.rs], [execution.rs], [event.rs] and [report.rs], with the names of
    [bray-symbols] they are built from ([key.rs], [name.rs], [product.rs],
    [value/ty.rs]).  Derived orders are the lexicographic orders of the fields. *)

From Stdlib Require Import ZArith Lia String.
From stdpp Require Import base option relations list.
From S2P Require Import Prelude Utf8 SourceText Order Base.

(** ** bray-symbols: names *)

Record PackageIdentity := { PackageIdentity_0 : NonEmptySharedStr }.
Record SymbolName := { SymbolName_0 : NonEmptySharedStr }.
Record ProductIdentity := { product_package : PackageIdentity; product_name : NonEmptySharedStr }.

(** [Recovered] carries the raw value of a [DeclarationId]. *)
Inductive ModulePathKey := PathPresent (segments : list NonEmptySharedStr) | PathRecovered (declaration : u32).

Definition PackageIdentity_try_new (value : str) : option PackageIdentity :=
  match NonEmptySharedStr_try_new value with Some s => Some {| PackageIdentity_0 := s |} | None => None end.

Definition PackageIdentity_as_str (p : PackageIdentity) : str := NonEmptySharedStr_as_str (PackageIdentity_0 p).

Definition SymbolName_try_new (name : str) : option SymbolName :=
  match NonEmptySharedStr_try_new name with Some s => Some {| SymbolName_0 := s |} | None => None end.

Definition SymbolName_as_str (n : SymbolName) : str := NonEmptySharedStr_as_str (SymbolName_0 n).

Definition ProductIdentity_try_new (package : PackageIdentity) (name : str) : option ProductIdentity :=
  match NonEmptySharedStr_try_new name with
  | Some name => Some {| product_package := package; product_name := name |}
  | None => None
  end.

Definition ProductIdentity_name (p : ProductIdentity) : str := NonEmptySharedStr_as_str (product_name p).

Fixpoint try_new_segments (segments : list str) : option (list NonEmptySharedStr) :=
  match segments with
  | [] => Some []
  | segment :: segments =>
      match NonEmptySharedStr_try_new segment with
      | Some segment => match try_new_segments segments with Some l => Some (segment :: l) | None => None end
      | None => None
      end
  end.

Definition ModulePathKey_try_new (segments : list str) : option ModulePathKey :=
  match try_new_segments segments with
  | Some segments => if bool_decide (segments = []) then None else Some (PathPresent segments)
  | None => None
  end.

Definition ModulePathKey_segments (m : ModulePathKey) : list str :=
  match m with
  | PathPresent segments => map NonEmptySharedStr_as_str segments
  | PathRecovered _ => []
  end.

Inductive CallableExecution := Synchronous | Asynchronous.
Inductive TestExecutionConstraint := Parallel | Serial.
Inductive TestResultShape := ShapeUnit | ShapeRecoverable.

(** ** identity.rs *)

Record TestDeclarationPath := { path_module : ModulePathKey; path_name : SymbolName }.
Record TestIdentity := { id_product : ProductIdentity; id_declaration : TestDeclarationPath }.

(** [package] has 32 bytes. *)
Record TestSourceAnchor := { anchor_package : list u8; anchor_span : SourceSpan; anchor_version : SourceVersion }.

(** ** execution.rs: identities and policies *)

Record TestHostCommandId := { TestHostCommandId_0 : list u8 }.
Record TestCatalogDigest := { TestCatalogDigest_0 : list u8 }.
Inductive TestHostControl := Cancel.
Record TestDuration := { TestDuration_0 : u64 }.
Inductive TestTimeoutPolicy := TimeoutUnlimited | TimeoutLimit (d : TestDuration).
Inductive TestCancellationSource := CancelCommand | CancelInvocation.
Record TestCatalogEntryId := { TestCatalogEntryId_0 : u32 }.
Record TestErrorTypeIdentity := { TestErrorTypeIdentity_0 : str }.

(** [u64::try_from(duration.as_nanos())]; the argument is the nanosecond count. *)
Definition TestDuration_try_from_duration (nanoseconds : Z) : option TestDuration :=
  match checked U64_MAX nanoseconds with Some n => Some {| TestDuration_0 := n |} | None => None end.

Definition TestErrorTypeIdentity_try_new (identity : str) : option TestErrorTypeIdentity :=
  if bool_decide (identity = []) then None else Some {| TestErrorTypeIdentity_0 := identity |}.

Definition TestErrorTypeIdentity_from_digest (digest : list u8) : TestErrorTypeIdentity :=
  {| TestErrorTypeIdentity_0 := lowercase_hex digest |}.

(** ** capture.rs *)

Inductive TestStreamKind := StandardOutput | StandardError.
Record TestCaptureLimits := { per_stream_byte_limit : u64; invocation_byte_limit : u64 }.
Inductive TestCapturePolicy := PolicyCaptured (limits : TestCaptureLimits) | PolicyInherited | PolicyDiscarded.
Inductive CapturedStreamPolicy := StreamCaptured | StreamInherited | StreamDiscarded.
Inductive TestStreamFailureKind := StreamResourceExhausted | SinkUnavailable | StreamPlatform.
Record TestStreamFailure := { stream_failure_kind : TestStreamFailureKind; platform_code : option Z }.

Record CapturedStream := {
  stream_policy : CapturedStreamPolicy;
  stream_bytes : list u8;
  discarded_byte_count : u64;
  stream_failure : option TestStreamFailure;
}.

Definition CapturedStream_captured (bytes : list u8) (discarded : u64) (failure : option TestStreamFailure) : CapturedStream :=
  {| stream_policy := StreamCaptured; stream_bytes := bytes; discarded_byte_count := discarded; stream_failure := failure |}.

Definition CapturedStream_without_bytes (policy : CapturedStreamPolicy) (failure : option TestStreamFailure) : CapturedStream :=
  {| stream_policy := policy; stream_bytes := []; discarded_byte_count := 0; stream_failure := failure |}.

Definition CapturedStream_inherited (failure : option TestStreamFailure) : CapturedStream :=
  CapturedStream_without_bytes StreamInherited failure.

Definition CapturedStream_discarded : CapturedStream := CapturedStream_without_bytes StreamDiscarded None.

Definition CapturedStream_truncated (s : CapturedStream) : bool := negb (discarded_byte_count s =? 0).

(** ** failure.rs *)

Record AssertionFailure := { assertion_source : TestSourceAnchor; assertion_message : option str }.

Definition AssertionFailure_without_message (source : TestSourceAnchor) : AssertionFailure :=
  {| assertion_source := source; assertion_message := None |}.

Definition AssertionFailure_with_message (source : TestSourceAnchor) (message : str) : AssertionFailure :=
  {| assertion_source := source; assertion_message := Some message |}.

Record ExplicitTestFailure := { explicit_source : option TestSourceAnchor; explicit_message : str }.

(** ** execution.rs: outcomes *)

Inductive TestPanicCause :=
| PanicMessage | PanicAssertion | RuntimePanic | AllocationFailure | EntryFailure
| MemoryLayoutSizeOverflow | MemoryLayoutUnsupportedAlignment.

Record TestPanicReport := { panic_cause : TestPanicCause; panic_source : option TestSourceAnchor; panic_message : str }.

Inductive TestInfrastructureFailureKind :=
| InfraProtocol | InfraHost | InfraCapture | InfraResourceExhausted | InfraMissingOutcome | InfraCleanup
| InfraForcedTermination.

(** Signed 32- and 64-bit values. *)
Inductive TestHostTermination := ExitCode (code : Z) | Signal (signal : Z).

Record TestInfrastructureFailure := {
  infra_kind : TestInfrastructureFailureKind;
  detail_code : option u64;
  host_termination : option TestHostTermination;
}.

Definition TestInfrastructureFailure_new (kind : TestInfrastructureFailureKind) (detail : option u64)
    : TestInfrastructureFailure :=
  {| infra_kind := kind; detail_code := detail; host_termination := None |}.

Definition with_host_termination (f : TestInfrastructureFailure) (termination : TestHostTermination)
    : TestInfrastructureFailure :=
  {| infra_kind := infra_kind f; detail_code := detail_code f; host_termination := Some termination |}.

Inductive TestOutcome :=
| Passed
| ReturnedError (error_type : TestErrorTypeIdentity) (source : option TestSourceAnchor) (formatted_value : option str)
| OutcomeExplicitFailure (f : ExplicitTestFailure)
| OutcomeAssertionFailure (f : AssertionFailure)
| Panicked (r : TestPanicReport)
| TimedOut (limit : TestDuration)
| Cancelled (source : TestCancellationSource)
| InfrastructureFailed (f : TestInfrastructureFailure).

(** ** execution.rs: commands, plans and results *)

Record TestInvocationPlan := {
  plan_identity : TestIdentity; plan_timeout : TestTimeoutPolicy; plan_capture : TestCapturePolicy }.

Record TestHostCommand := {
  command_id : TestHostCommandId;
  command_catalog_digest : TestCatalogDigest;
  command_entry : TestCatalogEntryId;
  command_timeout : TestTimeoutPolicy;
  command_capture : TestCapturePolicy;
  command_error_type : option TestErrorTypeIdentity;
}.

Record TestHostResult := {
  hr_command_id : TestHostCommandId;
  hr_catalog_digest : TestCatalogDigest;
  hr_outcome : TestOutcome;
  hr_suppressed : list TestOutcome;
  hr_standard_output : CapturedStream;
  hr_standard_error : CapturedStream;
}.

Record TestInvocationResult := {
  ir_identity : TestIdentity;
  ir_outcome : TestOutcome;
  ir_suppressed : list TestOutcome;
  ir_standard_output : CapturedStream;
  ir_standard_error : CapturedStream;
  ir_duration : option TestDuration;
}.

Definition TestHostResult_after_cleanup (id : TestHostCommandId) (digest : TestCatalogDigest) (outcome : TestOutcome)
    (output error : CapturedStream) : TestHostResult :=
  {| hr_command_id := id; hr_catalog_digest := digest; hr_outcome := outcome; hr_suppressed := [];
     hr_standard_output := output; hr_standard_error := error |}.

Definition TestHostResult_with_suppressed (r : TestHostResult) (suppressed : list TestOutcome) : TestHostResult :=
  {| hr_command_id := hr_command_id r; hr_catalog_digest := hr_catalog_digest r; hr_outcome := hr_outcome r;
     hr_suppressed := suppressed; hr_standard_output := hr_standard_output r; hr_standard_error := hr_standard_error r |}.

Definition TestInvocationResult_after_cleanup (identity : TestIdentity) (outcome : TestOutcome)
    (output error : CapturedStream) : TestInvocationResult :=
  {| ir_identity := identity; ir_outcome := outcome; ir_suppressed := []; ir_standard_output := output;
     ir_standard_error := error; ir_duration := None |}.

Definition TestInvocationResult_with_suppressed (r : TestInvocationResult) (suppressed : list TestOutcome)
    : TestInvocationResult :=
  {| ir_identity := ir_identity r; ir_outcome := ir_outcome r; ir_suppressed := suppressed;
     ir_standard_output := ir_standard_output r; ir_standard_error := ir_standard_error r; ir_duration := ir_duration r |}.

Definition TestInvocationResult_with_duration (r : TestInvocationResult) (d : TestDuration) : TestInvocationResult :=
  {| ir_identity := ir_identity r; ir_outcome := ir_outcome r; ir_suppressed := ir_suppressed r;
     ir_standard_output := ir_standard_output r; ir_standard_error := ir_standard_error r; ir_duration := Some d |}.

Definition into_invocation_result (r : TestHostResult) (identity : TestIdentity) : TestInvocationResult :=
  TestInvocationResult_with_suppressed
    (TestInvocationResult_after_cleanup identity (hr_outcome r) (hr_standard_output r) (hr_standard_error r))
    (hr_suppressed r).

(** ** catalog.rs: entries *)

Record TestEntryMetadata := {
  entry_identity : TestIdentity;
  entry_source : TestSourceAnchor;
  entry_execution : CallableExecution;
  entry_constraint : TestExecutionConstraint;
  entry_result : TestResultShape;
  entry_error_type : option TestErrorTypeIdentity;
}.

(** ** report.rs *)

Record TestOutcomeCounts := { count_passed : usize; count_failed : usize }.

Definition TestOutcomeCounts_include (c : TestOutcomeCounts) (outcome : TestOutcome) : TestOutcomeCounts :=
  match outcome with
  | Passed => {| count_passed := count_passed c + 1; count_failed := count_failed c |}
  | _ => {| count_passed := count_passed c; count_failed := count_failed c + 1 |}
  end.

Record TestSelectionSummary := { summary_discovered : usize; summary_selected : usize }.

(** [saturating_sub]. *)
Definition summary_filtered_out (s : TestSelectionSummary) : usize :=
  Z.max 0 (summary_discovered s - summary_selected s).

Record TestProductReport := {
  report_product : ProductIdentity; report_digest : TestCatalogDigest; report_results : list TestInvocationResult }.

Record TestCommandReport := {
  report_selection : TestSelectionSummary;
  report_products : list TestProductReport;
  report_counts : TestOutcomeCounts;
  report_duration : option TestDuration;
}.

Definition TestCommandReport_new (selection : TestSelectionSummary) (products : list TestProductReport) : TestCommandReport :=
  {| report_selection := selection; report_products := products;
     report_counts := fold_left TestOutcomeCounts_include
                        (map ir_outcome (concat (map report_results products)))
                        {| count_passed := 0; count_failed := 0 |};
     report_duration := None |}.

Definition TestCommandReport_succeeded (r : TestCommandReport) : bool := count_failed (report_counts r) =? 0.

(** ** Decidable equality and derived orders *)

#[export] Instance PackageIdentity_eq_dec : EqDecision PackageIdentity.
Proof. solve_decision. Defined.
#[export] Instance SymbolName_eq_dec : EqDecision SymbolName.
Proof. solve_decision. Defined.
#[export] Instance ProductIdentity_eq_dec : EqDecision ProductIdentity.
Proof. solve_decision. Defined.
#[export] Instance ModulePathKey_eq_dec : EqDecision ModulePathKey.
Proof. solve_decision. Defined.
#[export] Instance CallableExecution_eq_dec : EqDecision CallableExecution.
Proof. solve_decision. Defined.
#[export] Instance TestExecutionConstraint_eq_dec : EqDecision TestExecutionConstraint.
Proof. solve_decision. Defined.
#[export] Instance TestResultShape_eq_dec : EqDecision TestResultShape.
Proof. solve_decision. Defined.
#[export] Instance TestDeclarationPath_eq_dec : EqDecision TestDeclarationPath.
Proof. solve_decision. Defined.
#[export] Instance TestIdentity_eq_dec : EqDecision TestIdentity.
Proof. solve_decision. Defined.
#[export] Instance TestSourceAnchor_eq_dec : EqDecision TestSourceAnchor.
Proof. solve_decision. Defined.
#[export] Instance TestHostCommandId_eq_dec : EqDecision TestHostCommandId.
Proof. solve_decision. Defined.
#[export] Instance TestCatalogDigest_eq_dec : EqDecision TestCatalogDigest.
Proof. solve_decision. Defined.
#[export] Instance TestErrorTypeIdentity_eq_dec : EqDecision TestErrorTypeIdentity.
Proof. solve_decision. Defined.
#[export] Instance TestEntryMetadata_eq_dec : EqDecision TestEntryMetadata.
Proof. solve_decision. Defined.

(** A struct is ordered by its fields in turn, so by the tuple of their keys. *)
#[export] Instance NonEmptySharedStr_ord : Ord NonEmptySharedStr := ord_on NonEmptySharedStr_text.
#[export] Instance NonEmptySharedStr_ord_laws : OrdLaws NonEmptySharedStr.
Proof. apply ord_on_laws. intros [] []. simpl. by intros ->. Qed.

#[export] Instance PackageIdentity_ord : Ord PackageIdentity := ord_on PackageIdentity_0.
#[export] Instance PackageIdentity_ord_laws : OrdLaws PackageIdentity.
Proof. apply ord_on_laws. intros [] []. simpl. by intros ->. Qed.

#[export] Instance SymbolName_ord : Ord SymbolName := ord_on SymbolName_0.
#[export] Instance SymbolName_ord_laws : OrdLaws SymbolName.
Proof. apply ord_on_laws. intros [] []. simpl. by intros ->. Qed.

#[export] Instance ProductIdentity_ord : Ord ProductIdentity := ord_on (fun p => (product_package p, product_name p)).
#[export] Instance ProductIdentity_ord_laws : OrdLaws ProductIdentity.
Proof. apply ord_on_laws. intros [] []. simpl. by intros [= -> ->]. Qed.

(** [Present] paths come before [Recovered] ones. *)
Definition ModulePathKey_key (m : ModulePathKey) : Z * (list NonEmptySharedStr * Z) :=
  match m with
  | PathPresent segments => (0, (segments, 0))
  | PathRecovered declaration => (1, ([], declaration))
  end.

#[export] Instance ModulePathKey_ord : Ord ModulePathKey := ord_on ModulePathKey_key.
#[export] Instance ModulePathKey_ord_laws : OrdLaws ModulePathKey.
Proof. apply ord_on_laws. intros [] []; simpl; intros; simplify_eq; done. Qed.

#[export] Instance TestDeclarationPath_ord : Ord TestDeclarationPath := ord_on (fun p => (path_module p, path_name p)).
#[export] Instance TestDeclarationPath_ord_laws : OrdLaws TestDeclarationPath.
Proof. apply ord_on_laws. intros [] []. simpl. by intros [= -> ->]. Qed.

#[export] Instance TestIdentity_ord : Ord TestIdentity := ord_on (fun i => (id_product i, id_declaration i)).
#[export] Instance TestIdentity_ord_laws : OrdLaws TestIdentity.
Proof. apply ord_on_laws. intros [] []. simpl. by intros [= -> ->]. Qed.

Definition TestSourceAnchor_key (a : TestSourceAnchor) : list u8 * (Z * (Z * Z)) * Z :=
  (anchor_package a,
   (SourceId_raw (SourceSpan_source_id (anchor_span a)),
    (start (SourceSpan_range (anchor_span a)), end_ (SourceSpan_range (anchor_span a)))),
   SourceVersion_raw (anchor_version a)).

#[export] Instance TestSourceAnchor_ord : Ord TestSourceAnchor := ord_on TestSourceAnchor_key.
#[export] Instance TestSourceAnchor_ord_laws : OrdLaws TestSourceAnchor.
Proof.
  apply ord_on_laws. intros [p [[i] [s e]] [v]] [p' [[i'] [s' e']] [v']]. unfold TestSourceAnchor_key. simpl.
  by intros [= -> -> -> -> ->].
Qed.
