(* ===== verification/TestCatalog.v ===== *)
(** * Test catalogs, selections and batches

    [bray-test-protocol]: canonical catalogs ([catalog.rs]), metadata filters
    and shards ([filter.rs]) and bounded batch requests ([batch.rs]). *)

From Stdlib Require Import ZArith Lia String Sorting.Sorted Sorting.Permutation.
From stdpp Require Import base option relations list sorting.
From S2P Require Import Prelude Utf8 SourceText Order Base TestModel.

(** ** catalog.rs *)

Inductive TestCatalogBuildError :=
| ProductMismatch (identity : TestIdentity)
| DuplicateIdentity (identity : TestIdentity)
| InvalidResultMetadata (identity : TestIdentity).

Record TestCatalog := { catalog_product : ProductIdentity; catalog_entries : list TestEntryMetadata }.

Definition expects_error (entry : TestEntryMetadata) : bool := bool_decide (entry_result entry = ShapeRecoverable).

Definition has_error_type (entry : TestEntryMetadata) : bool := bool_decide (is_Some (entry_error_type entry)).

(** The first loop of [try_new]. *)
Fixpoint check_entries (product : ProductIdentity) (entries : list TestEntryMetadata)
    : result unit TestCatalogBuildError :=
  match entries with
  | [] => Ok tt
  | entry :: entries =>
      if negb (bool_decide (id_product (entry_identity entry) = product))
      then Err (ProductMismatch (entry_identity entry))
      else if negb (Bool.eqb (expects_error entry) (has_error_type entry))
      then Err (InvalidResultMetadata (entry_identity entry))
      else check_entries product entries
  end.

(** The second loop: [windows(2)]. *)
Definition check_duplicates (entries : list TestEntryMetadata) : result unit TestCatalogBuildError :=
  match adjacent_equal entry_identity entries with
  | Some entry => Err (DuplicateIdentity (entry_identity entry))
  | None => Ok tt
  end.

Definition TestCatalog_try_new (product : ProductIdentity) (entries : list TestEntryMetadata)
    : result TestCatalog TestCatalogBuildError :=
  let entries := sort_by (fun left right => then_with (cmp (entry_identity left) (entry_identity right))
                                                      (cmp (entry_source left) (entry_source right))) entries in
  let? _ := check_entries product entries in
  let? _ := check_duplicates entries in
  Ok {| catalog_product := product; catalog_entries := entries |}.

Definition TestCatalog_entry (catalog : TestCatalog) (identity : TestIdentity) : option TestEntryMetadata :=
  match binary_search_by (fun entry => cmp (entry_identity entry) identity) (catalog_entries catalog) with
  | Ok index => get (catalog_entries catalog) index
  | Err _ => None
  end.

(** ** filter.rs *)

Inductive TestFilter :=
| FilterPackage (package : PackageIdentity)
| FilterProduct (product : ProductIdentity)
| FilterModule (module : ModulePathKey)
| FilterNameContains (text : NonEmptySharedStr)
| FilterDeclaration (expected : TestDeclarationPath)
| FilterIdentity (expected : TestIdentity)
| FilterConstraint (constraint : TestExecutionConstraint).

Definition name_contains (text : str) : option TestFilter :=
  match NonEmptySharedStr_try_new text with Some text => Some (FilterNameContains text) | None => None end.

Fixpoint starts_with_text (needle haystack : str) : bool :=
  match needle, haystack with
  | [], _ => true
  | _ :: _, [] => false
  | n :: needle, h :: haystack => (n =? h) && starts_with_text needle haystack
  end.

(** [str::contains]. *)
Fixpoint str_contains (haystack needle : str) : bool :=
  starts_with_text needle haystack ||
  match haystack with [] => false | _ :: haystack => str_contains haystack needle end.

Definition filter_matches (f : TestFilter) (entry : TestEntryMetadata) : bool :=
  let identity := entry_identity entry in
  let declaration := id_declaration identity in
  match f with
  | FilterPackage package => bool_decide (product_package (id_product identity) = package)
  | FilterProduct product => bool_decide (id_product identity = product)
  | FilterModule module => bool_decide (path_module declaration = module)
  | FilterNameContains text => str_contains (SymbolName_as_str (path_name declaration)) (NonEmptySharedStr_as_str text)
  | FilterDeclaration expected => bool_decide (declaration = expected)
  | FilterIdentity expected => bool_decide (identity = expected)
  | FilterConstraint constraint => bool_decide (entry_constraint entry = constraint)
  end.

(** [count] is nonzero. *)
Record TestShard := { shard_index : u32; shard_count : u32 }.

Definition TestShard_try_new (index count : u32) : option TestShard :=
  if count <=? index then None else Some {| shard_index := index; shard_count := count |}.

Definition contains_catalog_index (shard : TestShard) (index : usize) : bool :=
  match checked U64_MAX index with
  | Some index => index mod shard_count shard =? shard_index shard
  | None => false
  end.

Record TestSelectionQuery := { query_filters : list TestFilter; query_shard : option TestShard }.

Record TestSelection := { selection_entries : list TestEntryMetadata; discovered_count : usize }.

Definition query_selects (query : TestSelectionQuery) (index : usize) (entry : TestEntryMetadata) : bool :=
  match query_shard query with None => true | Some shard => contains_catalog_index shard index end &&
  forallb (fun f => filter_matches f entry) (query_filters query).

(** [enumerate], [filter] and [map]. *)
Fixpoint select_from (query : TestSelectionQuery) (index : usize) (entries : list TestEntryMetadata)
    : list TestEntryMetadata :=
  match entries with
  | [] => []
  | entry :: entries =>
      if query_selects query index entry then entry :: select_from query (index + 1) entries
      else select_from query (index + 1) entries
  end.

Definition TestSelection_from_catalog (catalog : TestCatalog) (query : TestSelectionQuery) : TestSelection :=
  {| selection_entries := select_from query 0 (catalog_entries catalog);
     discovered_count := zlen (catalog_entries catalog) |}.

(** [None] would be a subtraction overflow. *)
Definition filtered_out_count (selection : TestSelection) : option usize :=
  usize_checked_sub (discovered_count selection) (zlen (selection_entries selection)).

(** ** batch.rs *)

Definition MAXIMUM_BATCH_PLAN_COUNT : usize := 64.
Definition MAXIMUM_TEST_BATCH_PLAN_IDENTITY_BYTES : usize := 64.
Definition MAXIMUM_TEST_BATCH_PLAN_FILTERS : usize := 64.
Definition MAXIMUM_TEST_BATCH_FILTER_BYTES : usize := 256.
Definition MAXIMUM_TEST_BATCH_TEXT_BYTES : usize := 64 * 1024.

Record TestBatchPlan := {
  batch_identity : str;
  batch_filters : list str;
  batch_concurrency : usize;
  batch_timeout : option u64;
}.

Inductive TestBatchPlanError := PlanIdentity | PlanFilterCount | PlanFilter | PlanConcurrency.
Inductive TestBatchRequestError := RequestPlanCount | RequestPlan (e : TestBatchPlanError) | RequestDuplicateIdentity | AggregateBytes.

Record TestBatchRequest := { batch_plans : list TestBatchPlan }.

Definition valid_plan_identity (identity : str) : bool :=
  negb (bool_decide (identity = [])) && (zlen identity <=? MAXIMUM_TEST_BATCH_PLAN_IDENTITY_BYTES) &&
  forallb (fun byte => ((97 <=? byte) && (byte <=? 122)) || ((48 <=? byte) && (byte <=? 57)) || (byte =? 45)) identity.

Fixpoint bound_filters (bounded : list str) (filters : list str) : result (list str) TestBatchPlanError :=
  match filters with
  | [] => Ok bounded
  | filter :: filters =>
      if zlen bounded =? MAXIMUM_TEST_BATCH_PLAN_FILTERS then Err PlanFilterCount
      else if MAXIMUM_TEST_BATCH_FILTER_BYTES <? zlen filter then Err PlanFilter
      else bound_filters (bounded ++ [filter]) filters
  end.

Definition TestBatchPlan_try_new (identity : str) (filters : list str) (maximum_concurrency : usize) (timeout : option u64)
    : result TestBatchPlan TestBatchPlanError :=
  if negb (valid_plan_identity identity) then Err PlanIdentity
  else if maximum_concurrency =? 0 then Err PlanConcurrency
  else
    let? bounded := bound_filters [] filters in
    Ok {| batch_identity := identity; batch_filters := bounded; batch_concurrency := maximum_concurrency;
          batch_timeout := timeout |}.

Definition TestBatchPlan_validate (plan : TestBatchPlan) : result unit TestBatchPlanError :=
  if negb (valid_plan_identity (batch_identity plan)) then Err PlanIdentity
  else if batch_concurrency plan =? 0 then Err PlanConcurrency
  else if MAXIMUM_TEST_BATCH_PLAN_FILTERS <? zlen (batch_filters plan) then Err PlanFilterCount
  else if existsb (fun filter => MAXIMUM_TEST_BATCH_FILTER_BYTES <? zlen filter) (batch_filters plan) then Err PlanFilter
  else Ok tt.

(** [checked_add] over the identity and the filters. *)
Fixpoint try_add_lengths (bytes : usize) (filters : list str) : option usize :=
  match filters with
  | [] => Some bytes
  | filter :: filters =>
      match usize_checked_add bytes (zlen filter) with
      | Some bytes => try_add_lengths bytes filters
      | None => None
      end
  end.

(** The loop of [validate_plans] over the identities seen so far. *)
Fixpoint validate_each (identities : list str) (text_bytes : usize) (plans : list TestBatchPlan)
    : result usize TestBatchRequestError :=
  match plans with
  | [] => Ok text_bytes
  | plan :: plans =>
      let? _ := map_err RequestPlan (TestBatchPlan_validate plan) in
      if bool_decide (batch_identity plan ∈ identities) then Err RequestDuplicateIdentity
      else
        let? text_bytes := ok_or (match usize_checked_add text_bytes (zlen (batch_identity plan)) with
                                  | Some bytes => try_add_lengths bytes (batch_filters plan)
                                  | None => None
                                  end) AggregateBytes in
        validate_each (batch_identity plan :: identities) text_bytes plans
  end.

Definition validate_plans (plans : list TestBatchPlan) : result unit TestBatchRequestError :=
  if bool_decide (plans = []) || (MAXIMUM_BATCH_PLAN_COUNT <? zlen plans) then Err RequestPlanCount
  else
    let? text_bytes := validate_each [] 0 plans in
    if MAXIMUM_TEST_BATCH_TEXT_BYTES <? text_bytes then Err AggregateBytes else Ok tt.

Fixpoint bound_plans (bounded : list TestBatchPlan) (plans : list TestBatchPlan)
    : result (list TestBatchPlan) TestBatchRequestError :=
  match plans with
  | [] => Ok bounded
  | plan :: plans =>
      if zlen bounded =? MAXIMUM_BATCH_PLAN_COUNT then Err RequestPlanCount
      else bound_plans (bounded ++ [plan]) plans
  end.

Definition TestBatchRequest_try_new (plans : list TestBatchPlan) : result TestBatchRequest TestBatchRequestError :=
  let? bounded := bound_plans [] plans in
  let? _ := validate_plans bounded in
  Ok {| batch_plans := bounded |}.

Definition TestBatchRequest_validate (request : TestBatchRequest) : result unit TestBatchRequestError :=
  validate_plans (batch_plans request).

(** ** Lemmas: catalogs *)

(** An entry the catalog of [product] may hold. *)
Definition entry_fits (product : ProductIdentity) (entry : TestEntryMetadata) : Prop :=
  id_product (entry_identity entry) = product /\ (entry_result entry = ShapeRecoverable <-> is_Some (entry_error_type entry)).

(** What the catalog reports about an entry that does not fit. *)
Definition misfit_error (product : ProductIdentity) (entry : TestEntryMetadata) : TestCatalogBuildError :=
  if decide (id_product (entry_identity entry) = product)
  then InvalidResultMetadata (entry_identity entry) else ProductMismatch (entry_identity entry).

(** Entries in strictly increasing identity order, all of them fitting. *)
Record catalog_wf (catalog : TestCatalog) : Prop := {
  catalog_sorted : StronglySorted (fun a b => cmp a b = Lt) (map entry_identity (catalog_entries catalog));
  catalog_fits : Forall (entry_fits (catalog_product catalog)) (catalog_entries catalog);
}.

#[local] Notation entry_key := (fun e => (entry_identity e, entry_source e)).
#[local] Notation sort_entries := (sort_by_key entry_key).

Lemma strictly_sorted {A K} `{OrdLaws K} (key : A -> K) l :
  key_sorted key l -> NoDup (map key l) -> StronglySorted (fun a b => cmp a b = Lt) (map key l).
Proof.
  unfold key_sorted. generalize (map key l). induction 1 as [|k ks Hs IH Hk]; [constructor|].
  intros [Hn Hnd]%NoDup_cons. constructor; [by apply IH|]. rewrite Forall_forall in Hk |- *.
  intros x Hx. apply ord_le_lt; [by apply Hk|]. by intros ->.
Qed.

Lemma strictly_sorted_NoDup {K} `{OrdLaws K} (ks : list K) : StronglySorted (fun a b => cmp a b = Lt) ks -> NoDup ks.
Proof.
  induction 1 as [|k ks Hs IH Hf]; constructor; [|done]. intros Hin. rewrite Forall_forall in Hf.
  by apply (cmp_lt_ne k k (Hf k Hin)).
Qed.

Lemma strictly_sorted_le {K} `{OrdLaws K} (ks : list K) :
  StronglySorted (fun a b => cmp a b = Lt) ks -> StronglySorted ord_le ks.
Proof.
  induction 1 as [|k ks Hs IH Hf]; constructor; [done|]. eapply Forall_impl; [exact Hf|].
  intros x Hx. unfold ord_le. simpl in Hx. by rewrite Hx.
Qed.

(** Keys in order are determined by the multiset of keys. *)
Lemma sorted_keys_unique {K} `{OrdLaws K} (ks ks' : list K) :
  StronglySorted ord_le ks -> StronglySorted ord_le ks' -> ks ≡ₚ ks' -> ks = ks'.
Proof.
  intros Hs Hs' Hp. assert (AntiSymm (=) (ord_le (A := K))) by (intros a b; apply ord_le_antisym).
  by apply (StronglySorted_unique ord_le).
Qed.

(** Sorting by identity and then source sorts by identity. *)
Lemma sort_entries_identity entries : key_sorted entry_identity (sort_entries entries).
Proof.
  pose proof (sort_by_key_sorted entry_key entries) as Hs. revert Hs. generalize (sort_entries entries).
  intros l. unfold key_sorted. induction l as [|e l IH]; intros Hs; [constructor|]. simpl in *.
  inversion Hs as [|? ? Hs' Hf]; subst. constructor; [by apply IH|]. rewrite Forall_map in Hf |- *.
  eapply Forall_impl; [exact Hf|]. intros x Hx Hgt. apply Hx. unfold cmp, prod_ord, then_with. simpl. by rewrite Hgt.
Qed.

Lemma entry_fits_spec product entry :
  entry_fits product entry <->
  bool_decide (id_product (entry_identity entry) = product) = true /\ Bool.eqb (expects_error entry) (has_error_type entry) = true.
Proof.
  unfold entry_fits, expects_error, has_error_type. rewrite bool_decide_eq_true, Bool.eqb_true_iff.
  apply and_iff_compat_l. case_bool_decide; case_bool_decide; naive_solver.
Qed.

(** The first loop finds the first entry that does not fit. *)
Lemma check_entries_spec product entries :
  match check_entries product entries with
  | Ok _ => Forall (entry_fits product) entries
  | Err e => exists before entry after,
      entries = before ++ entry :: after /\ Forall (entry_fits product) before /\ ~ entry_fits product entry /\
      e = misfit_error product entry
  end.
Proof.
  induction entries as [|x entries IH]; simpl; [constructor|]. pose proof (entry_fits_spec product x) as Hx.
  unfold misfit_error in *. destruct (bool_decide (id_product (entry_identity x) = product)) eqn:E1; simpl.
  2: { exists [], x, entries. apply bool_decide_eq_false in E1. rewrite decide_False by done. naive_solver. }
  destruct (Bool.eqb (expects_error x) (has_error_type x)) eqn:E2; simpl.
  2: { exists [], x, entries. apply bool_decide_eq_true in E1. rewrite decide_True by done. naive_solver. }
  destruct (check_entries product entries) as [[]|e].
  - constructor; [tauto|done].
  - destruct IH as (b & y & a & -> & Hb & Hy & ->). exists (x :: b), y, a. split_and!; [done|constructor; [tauto|done]|done|done].
Qed.

Lemma adjacent_equal_keys {A K} `{Ord K} (key : A -> K) l :
  option_map key (adjacent_equal key l) = adjacent_equal (fun k : K => k) (map key l).
Proof.
  induction l as [|a l IH]; [done|]. destruct l as [|b l]; [done|]. cbn [adjacent_equal map] in *.
  by destruct (cmp (key a) (key b)).
Qed.

(** A misfit that comes first in identity order decides the error. *)
Lemma misfit_error_by_identity product a b :
  entry_identity a = entry_identity b -> misfit_error product a = misfit_error product b.
Proof. unfold misfit_error. by intros ->. Qed.

Lemma misfit_first product l before entry after :
  key_sorted entry_identity l -> l = before ++ entry :: after -> Forall (entry_fits product) before ->
  forall x, x ∈ l -> ~ entry_fits product x -> ord_le (entry_identity entry) (entry_identity x).
Proof.
  intros Hs -> Hb x Hx Hn. rewrite elem_of_app, elem_of_cons in Hx. destruct Hx as [Hx|[->|Hx]].
  - rewrite Forall_forall in Hb. by destruct (Hn (Hb x Hx)).
  - done.
  - unfold key_sorted in Hs. rewrite map_app in Hs. apply StronglySorted_app in Hs as (_ & _ & Hs).
    simpl in Hs. inversion Hs as [|? ? _ Hf]; subst. rewrite Forall_map, Forall_forall in Hf. by apply Hf.
Qed.

(** Whether and how the checks fail does not depend on the order of the input. *)
Lemma check_entries_perm product l l' :
  key_sorted entry_identity l -> key_sorted entry_identity l' -> l ≡ₚ l' ->
  check_entries product l = check_entries product l'.
Proof.
  intros Hs Hs' Hp. pose proof (check_entries_spec product l) as H1. pose proof (check_entries_spec product l') as H2.
  destruct (check_entries product l) as [[]|e], (check_entries product l') as [[]|e']; [done| | |].
  - destruct H2 as (b & x & a & -> & _ & Hx & _). destruct Hx. rewrite Forall_forall in H1. apply H1. rewrite Hp. set_solver.
  - destruct H1 as (b & x & a & -> & _ & Hx & _). destruct Hx. rewrite Forall_forall in H2. apply H2. rewrite <- Hp. set_solver.
  - destruct H1 as (b & x & a & E & Hb & Hx & ->), H2 as (b' & x' & a' & E' & Hb' & Hx' & ->). f_equal.
    apply misfit_error_by_identity, ord_le_antisym.
    + eapply misfit_first; [exact Hs|exact E|done| |done]. rewrite Hp, E'. set_solver.
    + eapply misfit_first; [exact Hs'|exact E'|done| |done]. rewrite <- Hp, E. set_solver.
Qed.

Lemma check_duplicates_perm l l' :
  key_sorted entry_identity l -> key_sorted entry_identity l' -> l ≡ₚ l' ->
  check_duplicates l = check_duplicates l'.
Proof.
  intros Hs Hs' Hp. unfold check_duplicates.
  assert (map entry_identity l = map entry_identity l') as Hk
    by (apply sorted_keys_unique; [done|done|by apply Permutation_map]).
  pose proof (adjacent_equal_keys entry_identity l) as H1. pose proof (adjacent_equal_keys entry_identity l') as H2.
  rewrite Hk, <- H2 in H1. destruct (adjacent_equal entry_identity l), (adjacent_equal entry_identity l'); simpl in *; congruence.
Qed.

Lemma check_duplicates_ok l : key_sorted entry_identity l -> check_duplicates l = Ok tt <-> NoDup (map entry_identity l).
Proof.
  intros Hs. rewrite <- (adjacent_equal_None entry_identity l Hs). unfold check_duplicates.
  by destruct (adjacent_equal entry_identity l).
Qed.

(** Looking an identity up in a canonical catalog. *)
Lemma TestCatalog_entry_spec catalog identity entry :
  catalog_wf catalog ->
  TestCatalog_entry catalog identity = Some entry <-> entry ∈ catalog_entries catalog /\ entry_identity entry = identity.
Proof.
  intros [Hs _]. unfold TestCatalog_entry. set (l := catalog_entries catalog) in *.
  assert (forall i j x y, get l i = Some x -> get l j = Some y -> i < j ->
          cmp (entry_identity x) (entry_identity y) = Lt) as Hlt.
  { intros i j x y Hx Hy Hij. apply (StronglySorted_get _ _ i j _ _ Hs); [rewrite get_map; by rewrite Hx|rewrite get_map; by rewrite Hy|done]. }
  assert (partitioned (fun e => cmp (entry_identity e) identity) l) as Hpart.
  { intros i j x y Hx Hy Hij. pose proof (Hlt i j x y Hx Hy Hij) as Hxy. split.
    - intros Hg%cmp_Gt. apply cmp_Gt. by eapply cmp_trans.
    - intros Hl. by eapply cmp_trans. }
  pose proof (binary_search_by_spec _ l Hpart) as Hb.
  destruct (binary_search_by _ l) as [i|i].
  - destruct Hb as (x & Hx & Heq%cmp_eq). rewrite Hx. split.
    + intros [= ->]. split; [|done]. by eapply get_elem_of.
    + intros [Hin <-]. f_equal. apply elem_of_get in Hin as (j & Hj).
      destruct (Z.lt_trichotomy i j) as [Hij|[->|Hij]]; [|congruence|].
      * apply (Hlt _ _ _ _ Hx Hj), cmp_lt_ne in Hij. done.
      * apply (Hlt _ _ _ _ Hj Hx), cmp_lt_ne in Hij. done.
  - split; [done|]. intros [Hin <-]. apply elem_of_get in Hin as (j & Hj). exfalso. apply (Hb j entry Hj), cmp_refl.
Qed.

(** ** Lemmas: selections *)

Definition unsharded (filters : list TestFilter) : TestSelectionQuery := {| query_filters := filters; query_shard := None |}.
Definition sharded (filters : list TestFilter) (shard : TestShard) : TestSelectionQuery :=
  {| query_filters := filters; query_shard := Some shard |}.

(** The shards [TestShard::try_new] admits for a count. *)
Definition shards_of (count : u32) : list TestShard :=
  omap (fun i => TestShard_try_new (Z.of_nat i) count) (seq 0 (Z.to_nat count)).

Lemma shards_of_map count :
  shards_of count = map (fun i => {| shard_index := Z.of_nat i; shard_count := count |}) (seq 0 (Z.to_nat count)).
Proof.
  unfold shards_of. assert (forall i, In i (seq 0 (Z.to_nat count)) -> (i < Z.to_nat count)%nat) as Hi
    by (intros i; rewrite in_seq; lia).
  revert Hi. generalize (seq 0 (Z.to_nat count)). induction l as [|i l IH]; intros Hi; [done|]. simpl.
  unfold TestShard_try_new at 1. pose proof (Hi i (or_introl eq_refl)). rewrite (proj2 (Z.leb_gt _ _)) by lia. f_equal. apply IH. intros j Hj. apply Hi. by right.
Qed.

Lemma select_from_sublist query index entries : select_from query index entries `sublist_of` entries.
Proof.
  revert index. induction entries as [|e entries IH]; intros index; simpl; [constructor|].
  destruct (query_selects query index e); by constructor.
Qed.

Lemma select_from_spec query index entries entry :
  entry ∈ select_from query index entries <->
  exists i, get entries i = Some entry /\ query_selects query (index + i) entry = true.
Proof.
  revert index. induction entries as [|e entries IH]; intros index; simpl.
  { split; [set_solver|]. intros (i & Hi & _). apply get_Some_range in Hi. unfold zlen in Hi. simpl in Hi. lia. }
  assert (entry ∈ select_from query (index + 1) entries <->
          exists i, 0 < i /\ get (e :: entries) i = Some entry /\ query_selects query (index + i) entry = true) as Htail.
  { rewrite IH. split; intros (i & Hi & Hq).
    - pose proof (get_Some_range _ _ _ Hi). exists (i + 1). split; [lia|]. rewrite get_cons_S by lia.
      replace (i + 1 - 1) with i by lia. by replace (index + (i + 1)) with (index + 1 + i) by lia.
    - destruct Hq as [Hi' Hq]. exists (i - 1). rewrite get_cons_S in Hi' by lia. split; [done|].
      by replace (index + 1 + (i - 1)) with (index + i) by lia. }
  assert (e = entry /\ query_selects query index e = true <->
          get (e :: entries) 0 = Some entry /\ query_selects query (index + 0) entry = true) as Hhead.
  { rewrite get_cons_0, Z.add_0_r. naive_solver. }
  transitivity ((e = entry /\ query_selects query index e = true) \/ entry ∈ select_from query (index + 1) entries).
  { destruct (query_selects query index e); [rewrite elem_of_cons|]; naive_solver. }
  rewrite Htail, Hhead. split; [naive_solver|]. intros (i & Hi & Hq). pose proof (get_Some_range _ _ _ Hi).
  destruct (Z.eq_dec i 0) as [->|]; [by left|]. right. exists i. split; [lia|done].
Qed.

Lemma query_selects_sharded filters shard index entry :
  0 <= index <= U64_MAX ->
  query_selects (sharded filters shard) index entry =
  (index mod shard_count shard =? shard_index shard) && query_selects (unsharded filters) index entry.
Proof. intros Hi. unfold query_selects, contains_catalog_index. simpl. by rewrite checked_ok. Qed.

(** Distributing over the shards: an entry goes to the one shard of its index. *)
Lemma shards_partition_from filters count index entries :
  0 < count -> 0 <= index -> index + zlen entries <= U64_MAX ->
  concat (map (fun shard => select_from (sharded filters shard) index entries) (shards_of count)) ≡ₚ
  select_from (unsharded filters) index entries.
Proof.
  intros Hc. rewrite shards_of_map, map_map. revert index.
  induction entries as [|e entries IH]; intros index Hi Hlen.
  { simpl. by induction (seq 0 (Z.to_nat count)). }
  rewrite zlen_cons in Hlen. pose proof (zlen_nonneg entries). specialize (IH (index + 1) ltac:(lia) ltac:(lia)).
  cbn [select_from]. set (tail_of := fun i => select_from (sharded filters {| shard_index := Z.of_nat i; shard_count := count |}) (index + 1) entries) in *.
  set (home := Z.to_nat (index mod count)). pose proof (Z.mod_pos_bound index count Hc) as Hmod.
  assert (forall ks, NoDup ks ->
    concat (map (fun i => if query_selects (sharded filters {| shard_index := Z.of_nat i; shard_count := count |}) index e
                          then e :: tail_of i else tail_of i) ks) ≡ₚ
    (if decide (home ∈ ks) then (if query_selects (unsharded filters) index e then [e] else []) else []) ++ concat (map tail_of ks)) as Hks.
  { induction ks as [|k ks IHk]; intros Hnd; [done|]. apply NoDup_cons in Hnd as [Hk Hnd]. cbn [map concat].
    rewrite (IHk Hnd), query_selects_sharded by lia. cbn [shard_count shard_index].
    destruct (decide (k = home)) as [->|Hne].
    - rewrite (decide_True (P := home ∈ home :: ks)), (decide_False (P := home ∈ ks)) by set_solver.
      assert ((index mod count =? Z.of_nat home) = true) as -> by (apply Z.eqb_eq; unfold home; by rewrite Z2Nat.id by apply Hmod). simpl.
      by destruct (query_selects (unsharded filters) index e).
    - assert ((index mod count =? Z.of_nat k) = false) as ->
        by (apply Z.eqb_neq; intros Heq; apply Hne; unfold home; by rewrite Heq, Nat2Z.id). simpl.
      destruct (decide (home ∈ ks)); [rewrite decide_True by set_solver|rewrite decide_False by set_solver; done].
      by rewrite Permutation_app_swap_app. }
  etransitivity; [apply Hks, NoDup_seq|]. rewrite IH. rewrite decide_True by (apply elem_of_seq; split; [lia|]; apply Z2Nat.inj_lt; [apply Hmod|lia|apply Hmod]).
  by destruct (query_selects (unsharded filters) index e).
Qed.

Lemma starts_with_text_spec needle haystack : starts_with_text needle haystack = true <-> exists rest, haystack = needle ++ rest.
Proof.
  revert haystack. induction needle as [|n needle IH]; intros [|h haystack]; simpl; try naive_solver.
  rewrite andb_true_iff, Z.eqb_eq, IH. naive_solver.
Qed.

Lemma str_contains_spec haystack needle :
  str_contains haystack needle = true <-> exists before after, haystack = before ++ needle ++ after.
Proof.
  induction haystack as [|h haystack IH].
  - cbn [str_contains]. rewrite orb_false_r, starts_with_text_spec. split; [intros [r Hr]; by exists [], r|].
    intros (b & a & Hb). destruct b; [by exists a|done].
  - cbn [str_contains]. rewrite orb_true_iff, starts_with_text_spec, IH. split.
    + intros [[r Hr]|(b & a & ->)]; [by exists [], r|by exists (h :: b), a].
    + intros (b & a & Hb). destruct b as [|x b]; [left; by exists a|]. right. simpl in Hb. injection Hb as -> ->. by exists b, a.
Qed.

(** ** Lemmas: batches *)

Record plan_ok (plan : TestBatchPlan) : Prop := {
  plan_ok_identity : valid_plan_identity (batch_identity plan) = true;
  plan_ok_concurrency : batch_concurrency plan <> 0;
  plan_ok_count : zlen (batch_filters plan) <= MAXIMUM_TEST_BATCH_PLAN_FILTERS;
  plan_ok_filters : Forall (fun filter => zlen filter <= MAXIMUM_TEST_BATCH_FILTER_BYTES) (batch_filters plan);
}.

Definition sum_lengths (texts : list str) : Z := foldr (fun text n => zlen text + n) 0 texts.
Definition plan_text (plan : TestBatchPlan) : Z := zlen (batch_identity plan) + sum_lengths (batch_filters plan).
Definition plans_text (plans : list TestBatchPlan) : Z := foldr (fun plan n => plan_text plan + n) 0 plans.

(** What a batch request promises. *)
Record request_ok (plans : list TestBatchPlan) : Prop := {
  request_nonempty : plans <> [];
  request_count : zlen plans <= MAXIMUM_BATCH_PLAN_COUNT;
  request_plans : Forall plan_ok plans;
  request_unique : NoDup (map batch_identity plans);
  request_text : plans_text plans <= MAXIMUM_TEST_BATCH_TEXT_BYTES;
}.

Lemma existsb_Forall {A} (p : A -> bool) l : existsb p l = false <-> Forall (fun x => p x = false) l.
Proof. induction l as [|x l IH]; simpl; [split; [constructor|done]|]. rewrite orb_false_iff, IH, Forall_cons. done. Qed.

Lemma TestBatchPlan_validate_ok plan : TestBatchPlan_validate plan = Ok tt <-> plan_ok plan.
Proof.
  assert (existsb (fun filter => MAXIMUM_TEST_BATCH_FILTER_BYTES <? zlen filter) (batch_filters plan) = false <->
          Forall (fun filter => zlen filter <= MAXIMUM_TEST_BATCH_FILTER_BYTES) (batch_filters plan)) as Hex.
  { rewrite existsb_Forall. apply Forall_iff. intros filter. apply Z.ltb_ge. }
  unfold TestBatchPlan_validate. destruct (valid_plan_identity (batch_identity plan)) eqn:E1; simpl; [|by split; [|intros []; congruence]].
  destruct (batch_concurrency plan =? 0) eqn:E2; [split; [done|intros []; lia]|].
  destruct (MAXIMUM_TEST_BATCH_PLAN_FILTERS <? zlen (batch_filters plan)) eqn:E3; [split; [done|intros []; lia]|].
  destruct (existsb _ _) eqn:E4; [split; [done|intros [_ _ _ Hf]; by apply Hex in Hf]|].
  split; [|done]. intros _. split; [done|lia|lia|by apply Hex].
Qed.

Lemma bound_filters_ok bounded filters r :
  zlen bounded <= MAXIMUM_TEST_BATCH_PLAN_FILTERS ->
  bound_filters bounded filters = Ok r <->
  r = bounded ++ filters /\ zlen r <= MAXIMUM_TEST_BATCH_PLAN_FILTERS /\
  Forall (fun filter => zlen filter <= MAXIMUM_TEST_BATCH_FILTER_BYTES) filters.
Proof.
  revert bounded. induction filters as [|f filters IH]; intros bounded Hb; simpl.
  { rewrite app_nil_r. split; [intros [= ->]; by repeat split|intros (-> & _); done]. }
  rewrite Forall_cons. destruct (zlen bounded =? MAXIMUM_TEST_BATCH_PLAN_FILTERS) eqn:E1.
  { split; [done|]. intros (-> & Hr & _). rewrite zlen_app, zlen_cons in Hr. pose proof (zlen_nonneg filters). lia. }
  destruct (MAXIMUM_TEST_BATCH_FILTER_BYTES <? zlen f) eqn:E2; [split; [done|lia]|].
  rewrite IH by (rewrite zlen_app; unfold zlen at 2; simpl; lia). rewrite <- app_assoc. simpl. split; [|naive_solver].
  intros (-> & ? & ?). repeat split; try done. lia.
Qed.

Lemma TestBatchPlan_try_new_ok identity filters concurrency timeout plan :
  TestBatchPlan_try_new identity filters concurrency timeout = Ok plan <->
  plan = {| batch_identity := identity; batch_filters := filters; batch_concurrency := concurrency; batch_timeout := timeout |} /\
  plan_ok plan.
Proof.
  unfold TestBatchPlan_try_new. destruct (valid_plan_identity identity) eqn:E1; simpl; [|split; [done|]; intros [-> []]; simpl in *; congruence].
  destruct (concurrency =? 0) eqn:E2; [split; [done|]; intros [-> []]; simpl in *; lia|].
  pose proof (bound_filters_ok [] filters) as Hb. simpl in Hb. destruct (bound_filters [] filters) as [r|e] eqn:E; simpl.
  - destruct (proj1 (Hb r ltac:(done)) eq_refl) as (-> & Hc & Hf). split; [intros [= <-]; split; [done|]; split; simpl; auto; lia|].
    by intros [-> _].
  - split; [done|]. intros [-> [_ _ Hc Hf]]. simpl in *. by pose proof (proj2 (Hb filters ltac:(done)) (conj eq_refl (conj Hc Hf))).
Qed.

Lemma sum_lengths_bound texts bound : Forall (fun text => zlen text <= bound) texts -> 0 <= sum_lengths texts <= bound * zlen texts.
Proof.
  unfold sum_lengths. induction 1 as [|t texts Ht _ IH]; simpl; [unfold zlen; simpl; lia|]. rewrite zlen_cons. pose proof (zlen_nonneg t). lia.
Qed.

Lemma plan_text_bound plan : plan_ok plan -> 0 <= plan_text plan <= 16448.
Proof.
  intros [Hi _ Hc Hf]. unfold plan_text. apply sum_lengths_bound in Hf. pose proof (zlen_nonneg (batch_identity plan)).
  unfold valid_plan_identity in Hi. rewrite !andb_true_iff in Hi. destruct Hi as [[_ Hi%Z.leb_le] _].
  unfold MAXIMUM_TEST_BATCH_PLAN_IDENTITY_BYTES, MAXIMUM_TEST_BATCH_PLAN_FILTERS, MAXIMUM_TEST_BATCH_FILTER_BYTES in *. lia.
Qed.

Lemma try_add_lengths_ok bytes texts :
  0 <= bytes -> bytes + sum_lengths texts <= USIZE_MAX ->
  try_add_lengths bytes texts = Some (bytes + sum_lengths texts).
Proof.
  intros Hb Hs. assert (forall l, 0 <= sum_lengths l) as Hl.
  { induction l as [|text l IH]; simpl; [done|]. pose proof (zlen_nonneg text). lia. }
  revert bytes Hb Hs. induction texts as [|t texts IH]; intros bytes Hb Hs; simpl in *; [f_equal; lia|].
  pose proof (zlen_nonneg t). specialize (Hl texts). unfold usize_checked_add. rewrite checked_ok by lia. rewrite IH by lia. f_equal. lia.
Qed.

(** The loop accepts valid plans with fresh identities and adds up their text. *)
Lemma validate_each_ok identities bytes plans total :
  0 <= bytes -> bytes + 16448 * zlen plans <= USIZE_MAX ->
  validate_each identities bytes plans = Ok total <->
  Forall plan_ok plans /\ NoDup (map batch_identity plans) /\
  (forall i, i ∈ map batch_identity plans -> i ∉ identities) /\ total = bytes + plans_text plans.
Proof.
  revert identities bytes. induction plans as [|p plans IH]; intros identities bytes Hb Hlen; cbn [validate_each map plans_text foldr].
  { rewrite Z.add_0_r. split; [|naive_solver]. intros [= ->]. split_and!; [constructor|constructor|set_solver|done]. }
  rewrite zlen_cons in Hlen. pose proof (zlen_nonneg plans). rewrite Forall_cons, NoDup_cons.
  destruct (TestBatchPlan_validate p) as [[]|e] eqn:Ev; simpl.
  2: { split; [done|]. intros ([Hp _] & _). apply TestBatchPlan_validate_ok in Hp. congruence. }
  apply TestBatchPlan_validate_ok in Ev. pose proof (plan_text_bound p Ev) as Hp. unfold plan_text in Hp.
  case_bool_decide as Hin; [split; [done|]; intros (_ & _ & Hf & _); set_solver|].
  pose proof (zlen_nonneg (batch_identity p)). destruct Ev as [E1 E2 E3 E4]. pose proof (sum_lengths_bound _ _ E4).
  unfold usize_checked_add. rewrite checked_ok by lia.
  rewrite try_add_lengths_ok by lia. simpl. rewrite IH by lia. fold (plans_text plans). unfold plan_text at 1.
  split.
  - intros (Hf & Hnd & Hfresh & ->). split_and!; [by split|done|intros Hi; apply (Hfresh _ Hi); set_solver|done| |lia].
    intros i [->|Hi]%elem_of_cons; [done|]. specialize (Hfresh i Hi). set_solver.
  - intros ([_ Hf] & [Hnp Hnd] & Hfresh & ->). split_and!; [done|done| |lia].
    intros i Hi. rewrite not_elem_of_cons. split; [by intros ->|]. apply Hfresh. set_solver.
Qed.

Lemma validate_plans_ok plans : validate_plans plans = Ok tt <-> request_ok plans.
Proof.
  unfold validate_plans. destruct (bool_decide (plans = [])) eqn:E1; simpl.
  { apply bool_decide_eq_true in E1. split; [done|intros []; done]. }
  apply bool_decide_eq_false in E1. destruct (MAXIMUM_BATCH_PLAN_COUNT <? zlen plans) eqn:E2; [split; [done|intros []; lia]|].
  unfold MAXIMUM_BATCH_PLAN_COUNT in E2. pose proof (zlen_nonneg plans).
  pose proof (fun total => validate_each_ok [] 0 plans total ltac:(done) ltac:(unfold USIZE_MAX; lia)) as Hv.
  destruct (validate_each [] 0 plans) as [total|e]; simpl.
  - destruct (proj1 (Hv total) eq_refl) as (Hf & Hnd & _ & ->). rewrite Z.add_0_l.
    destruct (MAXIMUM_TEST_BATCH_TEXT_BYTES <? plans_text plans) eqn:E3; [split; [done|intros []; lia]|].
    split; [|done]. intros _. split; [done|unfold MAXIMUM_BATCH_PLAN_COUNT; lia|done|done|lia].
  - split; [done|]. intros [_ _ Hf Hnd _]. assert (@Err Z _ e = Ok (0 + plans_text plans)) as He; [|discriminate He].
    apply Hv. split_and!; [done|done|intros; apply not_elem_of_nil|done].
Qed.

Lemma bound_plans_ok bounded plans :
  zlen bounded <= MAXIMUM_BATCH_PLAN_COUNT ->
  bound_plans bounded plans =
  if zlen (bounded ++ plans) <=? MAXIMUM_BATCH_PLAN_COUNT then Ok (bounded ++ plans) else Err RequestPlanCount.
Proof.
  revert bounded. induction plans as [|p plans IH]; intros bounded Hb; simpl.
  { rewrite app_nil_r. by rewrite (proj2 (Z.leb_le _ _)). }
  rewrite zlen_app, zlen_cons. pose proof (zlen_nonneg plans).
  destruct (zlen bounded =? MAXIMUM_BATCH_PLAN_COUNT) eqn:E; [by rewrite (proj2 (Z.leb_gt _ _)) by lia|].
  rewrite IH by (rewrite zlen_app; unfold zlen at 2; simpl; lia). rewrite <- app_assoc. simpl.
  by rewrite zlen_app, zlen_cons.
Qed.

Lemma validate_each_plan_count identities bytes plans : validate_each identities bytes plans <> Err RequestPlanCount.
Proof.
  revert identities bytes. induction plans as [|p plans IH]; intros identities bytes; simpl; [done|].
  destruct (TestBatchPlan_validate p); simpl; [|done]. case_bool_decide; [done|].
  destruct (usize_checked_add _ _) as [n|]; simpl; [|done]. destruct (try_add_lengths _ _); simpl; [apply IH|done].
Qed.

(** ** The guarantees *)

(** C36.  Building a catalog, on every branch: it succeeds exactly when every entry
    belongs to the product with consistent result metadata and no identity is
    claimed twice, and then holds the entries in strictly increasing identity
    order, where looking an identity up finds its entry; a failure names an
    identity that two entries claim or, first, the misfit of least identity among the
    entries; and the result does not depend on the order of the input. *)
Theorem catalog_try_new_correct product entries :
  match TestCatalog_try_new product entries with
  | Ok catalog =>
      catalog_product catalog = product /\ catalog_entries catalog ≡ₚ entries /\ catalog_wf catalog /\
      (forall identity entry, TestCatalog_entry catalog identity = Some entry <->
         entry ∈ entries /\ entry_identity entry = identity)
  | Err (DuplicateIdentity identity) => Forall (entry_fits product) entries /\
      exists a b rest, entries ≡ₚ a :: b :: rest /\ entry_identity a = identity /\ entry_identity b = identity
  | Err error => exists entry, entry ∈ entries /\ ~ entry_fits product entry /\ error = misfit_error product entry /\
      (forall other, other ∈ entries -> ~ entry_fits product other -> ord_le (entry_identity entry) (entry_identity other))
  end /\
  (forall entries', entries' ≡ₚ entries -> TestCatalog_try_new product entries' = TestCatalog_try_new product entries).
Proof.
  unfold TestCatalog_try_new. change (sort_by _ entries) with (sort_entries entries).
  pose proof (sort_entries_identity entries) as Hs. pose proof (sort_by_key_perm entry_key entries) as Hp. split.
  - pose proof (check_entries_spec product (sort_entries entries)) as Hc. pose proof (check_duplicates_ok _ Hs) as Hd.
    destruct (check_entries product (sort_entries entries)) as [[]|e] eqn:Ec; simpl.
    + destruct (check_duplicates (sort_entries entries)) as [[]|e] eqn:Ed; simpl.
      * assert (catalog_wf {| catalog_product := product; catalog_entries := sort_entries entries |}) as Hwf.
        { split; simpl; [|done]. apply strictly_sorted; [done|by apply Hd]. }
        split_and!; [done|done|done|]. intros identity entry. rewrite TestCatalog_entry_spec by done. simpl. by rewrite Hp.
      * unfold check_duplicates in Ed. destruct (adjacent_equal entry_identity (sort_entries entries)) as [x|] eqn:Ea; [|done].
        injection Ed as <-. rewrite Hp in Hc. split; [done|]. apply adjacent_equal_pair in Ea as (a & rest & Hr & Ha).
        exists a, x, rest. by rewrite <- Hr, Hp.
    + destruct Hc as (b & x & a & E & Hb & Hx & ->).
      assert (exists entry, entry ∈ entries /\ ~ entry_fits product entry /\ misfit_error product x = misfit_error product entry /\
        (forall other, other ∈ entries -> ~ entry_fits product other -> ord_le (entry_identity entry) (entry_identity other))) as Hex.
      { exists x. split_and!; [rewrite <- Hp, E; set_solver|done|done|]. intros y Hy. rewrite <- Hp in Hy. by eapply misfit_first. }
      destruct (misfit_error product x) eqn:Em; [exact Hex|exfalso|exact Hex]. unfold misfit_error in Em. by destruct (decide _).
  - intros entries' Hp'. unfold TestCatalog_try_new. change (sort_by _ entries') with (sort_entries entries').
    pose proof (sort_entries_identity entries') as Hs'.
    assert (sort_entries entries' ≡ₚ sort_entries entries) as Hpp by (by rewrite !sort_by_key_perm).
    rewrite (check_entries_perm product _ _ Hs' Hs Hpp), (check_duplicates_perm _ _ Hs' Hs Hpp).
    destruct (check_entries product (sort_entries entries)) as [[]|e]; [|done]. simpl.
    destruct (check_duplicates (sort_entries entries)) as [[]|e] eqn:Ed; [|done]. simpl. do 2 f_equal.
    apply (key_sorted_unique entry_identity); [done|done| |done]. apply check_duplicates_ok in Ed; [|done].
    by rewrite (Permutation_map entry_identity Hpp).
Qed.

(** Selection: a query keeps exactly the catalog entries that satisfy every
    filter (name filters by substring) and lie in its shard, in catalog order;
    the shards of a count split what the filters select into disjoint parts that
    together are everything, an entry going to the shard of its catalog index
    modulo the count. *)
Theorem selection_correct catalog filters count :
  0 < count <= U32_MAX -> zlen (catalog_entries catalog) <= USIZE_MAX ->
  let select query := selection_entries (TestSelection_from_catalog catalog query) in
  concat (map (fun shard => select (sharded filters shard)) (shards_of count)) ≡ₚ select (unsharded filters) /\
  zlen (shards_of count) = count /\
  (forall query, select query `sublist_of` catalog_entries catalog /\
     filtered_out_count (TestSelection_from_catalog catalog query) =
     Some (zlen (catalog_entries catalog) - zlen (select query))) /\
  (forall entry, entry ∈ select (unsharded filters) <->
     entry ∈ catalog_entries catalog /\ Forall (fun f => filter_matches f entry = true) filters) /\
  (forall shard entry, shard ∈ shards_of count ->
     entry ∈ select (sharded filters shard) <->
     exists index, get (catalog_entries catalog) index = Some entry /\ index mod count = shard_index shard /\
       Forall (fun f => filter_matches f entry = true) filters) /\
  (forall text entry, filter_matches (FilterNameContains text) entry = true <->
     exists before after, SymbolName_as_str (path_name (id_declaration (entry_identity entry))) =
       before ++ NonEmptySharedStr_as_str text ++ after).
Proof.
  intros Hc Hlen select. unfold USIZE_MAX in Hlen.
  assert (forall entry index, query_selects (unsharded filters) index entry = true <->
    Forall (fun f => filter_matches f entry = true) filters) as Hq.
  { intros entry index. unfold query_selects. simpl. by rewrite forallb_forall, List.Forall_forall. }
  split_and!.
  - apply shards_partition_from; unfold U64_MAX; lia.
  - rewrite shards_of_map. unfold zlen. rewrite length_map, length_seq. lia.
  - intros query. pose proof (select_from_sublist query 0 (catalog_entries catalog)) as Hsub. split; [done|].
    unfold filtered_out_count, usize_checked_sub. apply sublist_length in Hsub. simpl.
    rewrite checked_ok by (unfold select, zlen, USIZE_MAX in *; simpl in *; lia). done.
  - intros entry. unfold select. simpl. rewrite select_from_spec. setoid_rewrite Hq. split.
    + intros (i & Hi & Hf). split; [by eapply get_elem_of|done].
    + intros [(i & Hi)%elem_of_get Hf]. by exists i.
  - intros shard entry Hshard. unfold select. simpl. rewrite select_from_spec.
    assert (shard_count shard = count) as Hcount.
    { rewrite shards_of_map in Hshard. apply list_elem_of_fmap in Hshard as (i & -> & _). done. }
    split; intros (i & Hi & Hs); exists i; pose proof (get_Some_range _ _ _ Hi).
    + rewrite query_selects_sharded, andb_true_iff, Z.eqb_eq, Hq, Hcount in Hs by (unfold U64_MAX; lia). tauto.
    + split; [done|]. rewrite query_selects_sharded, andb_true_iff, Z.eqb_eq, Hq, Hcount by (unfold U64_MAX; lia). tauto.
  - intros text entry. apply str_contains_spec.
Qed.

(** A small catalog. *)
Definition sample_text (s : string) : NonEmptySharedStr := {| NonEmptySharedStr_text := lit s |}.

Definition sample_product : ProductIdentity :=
  {| product_package := {| PackageIdentity_0 := sample_text "app" |}; product_name := sample_text "tests" |}.

Definition sample_identity (name : string) : TestIdentity :=
  {| id_product := sample_product;
     id_declaration := {| path_module := PathPresent [sample_text "app"; sample_text "tests"];
                          path_name := {| SymbolName_0 := sample_text name |} |} |}.

Definition sample_anchor : TestSourceAnchor :=
  {| anchor_package := repeat 0 32;
     anchor_span := {| SourceSpan_source_id := {| SourceId_raw := 3 |}; SourceSpan_range := {| start := 4; end_ := 9 |} |};
     anchor_version := {| SourceVersion_raw := 1 |} |}.

Definition sample_entry (name : string) (constraint : TestExecutionConstraint) : TestEntryMetadata :=
  {| entry_identity := sample_identity name; entry_source := sample_anchor; entry_execution := Synchronous;
     entry_constraint := constraint; entry_result := ShapeUnit; entry_error_type := None |}.

Definition sample_catalog : TestCatalog :=
  {| catalog_product := sample_product;
     catalog_entries := [sample_entry "adds" Parallel; sample_entry "drops" Serial; sample_entry "moves" Parallel] |}.


(** Batch requests: a plan or a request is accepted exactly when it respects the
    limits on identities, filters, workers, plan count and aggregate text and has
    no repeated identity; constructing it and validating decoded data agree; the
    text total never overflows. *)
Theorem batch_request_exact :
  (forall identity filters concurrency timeout plan,
     TestBatchPlan_try_new identity filters concurrency timeout = Ok plan <->
     plan = {| batch_identity := identity; batch_filters := filters; batch_concurrency := concurrency; batch_timeout := timeout |} /\
     plan_ok plan) /\
  (forall plan, TestBatchPlan_validate plan = Ok tt <-> plan_ok plan) /\
  (forall plans request, TestBatchRequest_try_new plans = Ok request <-> batch_plans request = plans /\ request_ok plans) /\
  (forall request, TestBatchRequest_validate request = Ok tt <-> request_ok (batch_plans request)) /\
  (forall plans, TestBatchRequest_try_new plans = Err RequestPlanCount <-> plans = [] \/ MAXIMUM_BATCH_PLAN_COUNT < zlen plans).
Proof.
  split_and!.
  - apply TestBatchPlan_try_new_ok.
  - apply TestBatchPlan_validate_ok.
  - intros plans [r]. unfold TestBatchRequest_try_new. rewrite bound_plans_ok by done. simpl.
    destruct (zlen plans <=? MAXIMUM_BATCH_PLAN_COUNT) eqn:E; simpl; [|split; [done|intros [_ []]; lia]].
    pose proof (validate_plans_ok plans) as Hv. destruct (validate_plans plans) as [[]|e]; simpl; [naive_solver|].
    split; [done|]. intros [_ Hr%Hv]. done.
  - intros request. apply validate_plans_ok.
  - intros plans. unfold TestBatchRequest_try_new. rewrite bound_plans_ok by done. simpl.
    destruct (zlen plans <=? MAXIMUM_BATCH_PLAN_COUNT) eqn:E; simpl; [|split; [intros _; right; lia|done]].
    unfold validate_plans. destruct (bool_decide (plans = [])) eqn:En; simpl;
      [apply bool_decide_eq_true in En; naive_solver|apply bool_decide_eq_false in En].
    destruct (MAXIMUM_BATCH_PLAN_COUNT <? zlen plans) eqn:Ec; [lia|].
    split; [|intros [?|?]; [done|lia]]. pose proof (validate_each_plan_count [] 0 plans) as Hv.
    destruct (validate_each [] 0 plans) as [n|e]; simpl; [by destruct (_ <? n)|]. intros [= ->]. done.
Qed.
