(* ===== verification/TestSchedule.v ===== *)
(** * Deterministic admission of test invocations

    [bray-test-protocol/scheduling.rs]: execution plans and the mutable admission
    schedule, with its limits on concurrency and capture memory and its serial
    barriers. *)

From Stdlib Require Import ZArith Lia String Sorting.Sorted Sorting.Permutation.
From stdpp Require Import base option relations list.
From S2P Require Import Prelude Utf8 SourceText Order Base TestModel TestCatalog.

(** ** Plans *)

(** The limit is nonzero. *)
Inductive TestExecutionMode := ModeSequential | ModeParallel (maximum : usize).

Definition maximum_concurrency (mode : TestExecutionMode) : usize :=
  match mode with
  | ModeSequential => 1
  | ModeParallel maximum => maximum
  end.

Inductive TestExecutionPlanBuildError :=
| InvocationCountMismatch (entries invocations : usize)
| InvocationIdentityMismatch (identity : TestIdentity)
| PlanDuplicateIdentity (identity : TestIdentity)
| CaptureBudgetExceeded (test : TestIdentity) (required maximum : u64).

Record TestExecutionPlan := {
  plan_entries : list TestEntryMetadata;
  plan_invocations : list TestInvocationPlan;
  plan_mode : TestExecutionMode;
  capture_byte_budget : u64;
}.

Definition capture_reservation (policy : TestCapturePolicy) : u64 :=
  match policy with
  | PolicyCaptured limits => invocation_byte_limit limits
  | PolicyInherited | PolicyDiscarded => 0
  end.

(** The loop of [try_new] over entries and invocations. *)
Fixpoint check_invocations (budget : u64) (entries : list TestEntryMetadata) (invocations : list TestInvocationPlan)
    : result unit TestExecutionPlanBuildError :=
  match entries, invocations with
  | entry :: entries, invocation :: invocations =>
      if negb (bool_decide (entry_identity entry = plan_identity invocation))
      then Err (InvocationIdentityMismatch (plan_identity invocation))
      else
        let required := capture_reservation (plan_capture invocation) in
        if budget <? required
        then Err (CaptureBudgetExceeded (plan_identity invocation) required budget)
        else check_invocations budget entries invocations
  | _, _ => Ok tt
  end.

Definition TestExecutionPlan_try_new (selections : list TestSelection) (invocations : list TestInvocationPlan)
    (mode : TestExecutionMode) (budget : u64) : result TestExecutionPlan TestExecutionPlanBuildError :=
  let entries := sort_by_key entry_identity (concat (map selection_entries selections)) in
  match adjacent_equal entry_identity entries with
  | Some entry => Err (PlanDuplicateIdentity (entry_identity entry))
  | None =>
      let invocations := sort_by_key plan_identity invocations in
      if negb (zlen entries =? zlen invocations)
      then Err (InvocationCountMismatch (zlen entries) (zlen invocations))
      else
        let? _ := check_invocations budget entries invocations in
        Ok {| plan_entries := entries; plan_invocations := invocations; plan_mode := mode; capture_byte_budget := budget |}
  end.

(** ** Schedules *)

Record TestAdmission := {
  admission_index : usize; admission_entry : TestEntryMetadata; admission_invocation : TestInvocationPlan }.

Inductive TestStopReason := StopCancelled | StopInfrastructureFailure (f : TestInfrastructureFailure).

Inductive TestSchedulingError := InvocationNotActive (identity : TestIdentity) | ResultIdentityMismatch (identity : TestIdentity).

Record ActiveAdmission := { active_index : usize; active_bytes : u64; active_is_serial : bool }.

Record TestAdmissionSchedule := {
  schedule_plan : TestExecutionPlan;
  next_index : usize;
  active : list (TestIdentity * ActiveAdmission);
  completed : list (option TestInvocationResult);
  active_capture_bytes : u64;
  active_serial : bool;
  stop_reason : option TestStopReason;
}.

Definition TestAdmissionSchedule_new (plan : TestExecutionPlan) : TestAdmissionSchedule :=
  {| schedule_plan := plan; next_index := 0; active := []; completed := replicate (length (plan_entries plan)) None;
     active_capture_bytes := 0; active_serial := false; stop_reason := None |}.

(** Indexing [invocations] and adding to the reserved bytes panic where they fail. *)
Definition admit_next (self : TestAdmissionSchedule) : outcome (option TestAdmission * TestAdmissionSchedule) :=
  let plan := schedule_plan self in
  if bool_decide (is_Some (stop_reason self)) || active_serial self ||
     (maximum_concurrency (plan_mode plan) <=? zlen (active self))
  then Ret (None, self)
  else
    match get (plan_entries plan) (next_index self) with
    | None => Ret (None, self)
    | Some entry =>
        let! invocation := expect (get (plan_invocations plan) (next_index self)) in
        let serial := bool_decide (entry_constraint entry = Serial) in
        if serial && negb (bool_decide (active self = []))
        then Ret (None, self)
        else
          let capture_bytes := capture_reservation (plan_capture invocation) in
          let available_capture := Z.max 0 (capture_byte_budget plan - active_capture_bytes self) in
          if available_capture <? capture_bytes
          then Ret (None, self)
          else
            let catalog_index := next_index self in
            let! bytes := expect (u64_checked_add (active_capture_bytes self) capture_bytes) in
            Ret (Some {| admission_index := catalog_index; admission_entry := entry; admission_invocation := invocation |},
                 {| schedule_plan := plan; next_index := next_index self + 1;
                    active := btree_insert (plan_identity invocation)
                      {| active_index := catalog_index; active_bytes := capture_bytes; active_is_serial := serial |}
                      (active self);
                    completed := completed self; active_capture_bytes := bytes; active_serial := serial;
                    stop_reason := stop_reason self |})
    end.

Definition complete (self : TestAdmissionSchedule) (admission : TestAdmission) (result : TestInvocationResult)
    : outcome (Prelude.result unit TestSchedulingError * TestAdmissionSchedule) :=
  if negb (bool_decide (ir_identity result = plan_identity (admission_invocation admission)))
  then Ret (Err (ResultIdentityMismatch (ir_identity result)), self)
  else
    match btree_get (ir_identity result) (active self) with
    | None => Ret (Err (InvocationNotActive (ir_identity result)), self)
    | Some act =>
        let remaining := btree_remove (ir_identity result) (active self) in
        if negb (active_index act =? admission_index admission)
        then Ret (Err (InvocationNotActive (ir_identity result)),
                  {| schedule_plan := schedule_plan self; next_index := next_index self;
                     active := btree_insert (ir_identity result) act remaining;
                     completed := completed self; active_capture_bytes := active_capture_bytes self;
                     active_serial := active_serial self; stop_reason := stop_reason self |})
        else
          let! _ := expect (get (completed self) (active_index act)) in
          Ret (Ok tt,
               {| schedule_plan := schedule_plan self; next_index := next_index self; active := remaining;
                  completed := <[Z.to_nat (active_index act) := Some result]> (completed self);
                  active_capture_bytes := Z.max 0 (active_capture_bytes self - active_bytes act);
                  active_serial := if active_is_serial act then false else active_serial self;
                  stop_reason := stop_reason self |})
    end.

Definition stop (self : TestAdmissionSchedule) (reason : TestStopReason) : list TestIdentity * TestAdmissionSchedule :=
  (map snd (btree_collect (map (fun '(identity, act) => (active_index act, identity)) (active self))),
   {| schedule_plan := schedule_plan self; next_index := next_index self; active := active self;
      completed := completed self; active_capture_bytes := active_capture_bytes self; active_serial := active_serial self;
      stop_reason := match stop_reason self with Some r => Some r | None => Some reason end |}).

Definition settled (self : TestAdmissionSchedule) : bool := bool_decide (active self = []).

Definition completed_all (self : TestAdmissionSchedule) : bool :=
  (next_index self =? zlen (plan_entries (schedule_plan self))) && bool_decide (active self = []) &&
  forallb (fun r => bool_decide (is_Some r)) (completed self).

Definition completed_results (self : TestAdmissionSchedule) : list TestInvocationResult := omap id (completed self).

(** ** Lemmas: plans *)

(** Entries in canonical order with their policies, each of which fits the budget. *)
Record plan_wf (plan : TestExecutionPlan) : Prop := {
  plan_sorted : StronglySorted (fun a b => cmp a b = Lt) (map entry_identity (plan_entries plan));
  plan_matched : map plan_identity (plan_invocations plan) = map entry_identity (plan_entries plan);
  plan_fits : Forall (fun i => 0 <= capture_reservation (plan_capture i) <= capture_byte_budget plan) (plan_invocations plan);
  plan_mode_ok : 1 <= maximum_concurrency (plan_mode plan);
  plan_budget : in_u64 (capture_byte_budget plan);
}.

(** What the types of the arguments say: a nonzero limit and 64-bit sizes. *)
Record plan_args_ok (invocations : list TestInvocationPlan) (mode : TestExecutionMode) (budget : u64) : Prop := {
  args_mode : 1 <= maximum_concurrency mode;
  args_budget : in_u64 budget;
  args_captures : Forall (fun i => 0 <= capture_reservation (plan_capture i)) invocations;
}.

Lemma check_invocations_spec budget entries invocations :
  length entries = length invocations ->
  match check_invocations budget entries invocations with
  | Ok _ => map plan_identity invocations = map entry_identity entries /\
            Forall (fun i => capture_reservation (plan_capture i) <= budget) invocations
  | Err (InvocationIdentityMismatch identity) =>
      map plan_identity invocations <> map entry_identity entries /\ identity ∈ map plan_identity invocations
  | Err (CaptureBudgetExceeded identity required maximum) => maximum = budget /\ budget < required /\
      exists i, i ∈ invocations /\ plan_identity i = identity /\ capture_reservation (plan_capture i) = required
  | Err _ => False
  end.
Proof.
  revert invocations. induction entries as [|e entries IH]; intros [|i invocations] Hlen; try done.
  simpl in Hlen |- *. injection Hlen as Hlen. specialize (IH invocations Hlen). case_bool_decide as Hid; simpl.
  2: { split; [intros [= Hi _]; congruence|set_solver]. }
  destruct (budget <? capture_reservation (plan_capture i)) eqn:Eb.
  { split_and!; [done|lia|]. exists i. set_solver. }
  destruct (check_invocations budget entries invocations) as [[]|[]]; try done.
  - destruct IH as [-> Hf]. split; [by rewrite Hid|]. constructor; [lia|done].
  - destruct IH as [Hne Hin]. split; [congruence|set_solver].
  - destruct IH as (-> & Hb & j & Hj & ?). split_and!; [done|done|]. exists j. set_solver.
Qed.

Lemma plan_wf_lengths plan : plan_wf plan -> zlen (plan_invocations plan) = zlen (plan_entries plan).
Proof. intros [_ Hm _ _ _]. apply (f_equal length) in Hm. rewrite !length_map in Hm. unfold zlen. lia. Qed.

(** The policy of an entry: present, for the same identity and within the budget. *)
Lemma plan_invocation plan i entry :
  plan_wf plan -> get (plan_entries plan) i = Some entry ->
  exists invocation, get (plan_invocations plan) i = Some invocation /\ plan_identity invocation = entry_identity entry /\
    0 <= capture_reservation (plan_capture invocation) <= capture_byte_budget plan.
Proof.
  intros Hwf He. pose proof (get_Some_range _ _ _ He) as Hr. rewrite <- (plan_wf_lengths plan Hwf) in Hr.
  destruct (get_is_Some _ _ Hr) as [invocation Hi]. exists invocation. destruct Hwf as [_ Hm Hf _ _]. split; [done|]. split.
  - apply (f_equal (fun l => get l i)) in Hm. rewrite !get_map, Hi, He in Hm. by injection Hm.
  - rewrite Forall_forall in Hf. by apply Hf, (get_elem_of _ i).
Qed.

Lemma plan_identity_inj plan i j e e' :
  plan_wf plan -> get (plan_entries plan) i = Some e -> get (plan_entries plan) j = Some e' ->
  entry_identity e = entry_identity e' -> i = j.
Proof.
  intros [Hs _ _ _ _] Hi Hj Heq.
  assert (forall a b x y, get (plan_entries plan) a = Some x -> get (plan_entries plan) b = Some y -> a < b ->
            entry_identity x <> entry_identity y) as Hlt.
  { intros a b x y Hx Hy Hab. apply cmp_lt_ne. apply (StronglySorted_get _ _ a b _ _ Hs); [rewrite get_map; by rewrite Hx|rewrite get_map; by rewrite Hy|done]. }
  destruct (Z.lt_trichotomy i j) as [Hij|[->|Hij]]; [|done|].
  - by destruct (Hlt _ _ _ _ Hi Hj Hij).
  - by destruct (Hlt _ _ _ _ Hj Hi Hij).
Qed.

(** ** The invariant *)

(** An active admission is the one the plan has at its index. *)
Definition describes (plan : TestExecutionPlan) (identity : TestIdentity) (act : ActiveAdmission) : Prop :=
  exists entry invocation,
    get (plan_entries plan) (active_index act) = Some entry /\ get (plan_invocations plan) (active_index act) = Some invocation /\
    entry_identity entry = identity /\ plan_identity invocation = identity /\
    active_bytes act = capture_reservation (plan_capture invocation) /\ 0 <= active_bytes act /\
    active_is_serial act = bool_decide (entry_constraint entry = Serial).

Definition reserved (l : list (TestIdentity * ActiveAdmission)) : Z := foldr (fun p n => active_bytes p.2 + n) 0 l.

Record schedule_inv (s : TestAdmissionSchedule) : Prop := {
  inv_plan : plan_wf (schedule_plan s);
  inv_next : 0 <= next_index s <= zlen (plan_entries (schedule_plan s));
  inv_length : zlen (completed s) = zlen (plan_entries (schedule_plan s));
  inv_map : btree_wf (active s);
  inv_active : forall identity act, (identity, act) ∈ active s ->
    0 <= active_index act < next_index s /\ describes (schedule_plan s) identity act /\
    get (completed s) (active_index act) = Some None;
  inv_pending : forall i, get (completed s) i = Some None -> i < next_index s ->
    exists identity act, (identity, act) ∈ active s /\ active_index act = i;
  inv_results : forall i r, get (completed s) i = Some (Some r) -> i < next_index s /\
    exists entry, get (plan_entries (schedule_plan s)) i = Some entry /\ ir_identity r = entry_identity entry;
  inv_bytes : active_capture_bytes s = reserved (active s);
  inv_budget : active_capture_bytes s <= capture_byte_budget (schedule_plan s);
  inv_concurrency : zlen (active s) <= maximum_concurrency (plan_mode (schedule_plan s));
  inv_serial : active_serial s = true <-> exists identity act, (identity, act) ∈ active s /\ active_is_serial act = true;
  inv_alone : active_serial s = true -> zlen (active s) = 1;
}.

Lemma reserved_perm l l' : l ≡ₚ l' -> reserved l = reserved l'.
Proof. unfold reserved. induction 1; simpl; lia. Qed.

Lemma reserved_nonneg s : schedule_inv s -> 0 <= reserved (active s).
Proof.
  intros Hinv. assert (forall l, (forall i a, (i, a) ∈ l -> 0 <= active_bytes a) -> 0 <= reserved l) as Hl.
  { induction l as [|[i a] l IH]; intros Hl; simpl; [done|]. pose proof (Hl i a ltac:(set_solver)).
    assert (0 <= reserved l) by (apply IH; intros j b Hj; apply (Hl j b); set_solver). unfold reserved in *. lia. }
  apply Hl. intros i a Hin. destruct (inv_active s Hinv i a Hin) as (_ & (e & v & _ & _ & _ & _ & _ & H & _) & _). done.
Qed.

Lemma get_replicate {A} (x : A) n i : 0 <= i < Z.of_nat n -> get (replicate n x) i = Some x.
Proof. intros Hi. rewrite get_nonneg by lia. apply lookup_replicate_2. lia. Qed.

Lemma get_insert {A} (l : list A) i j x :
  0 <= i < zlen l -> get (<[Z.to_nat i := x]> l) j = if j =? i then Some x else get l j.
Proof.
  unfold zlen. intros Hi. destruct (Z.lt_ge_cases j 0) as [Hj|Hj].
  { rewrite !get_neg by done. by destruct (j =? i) eqn:E; [lia|]. }
  rewrite !get_nonneg by done. destruct (j =? i) eqn:E.
  - replace j with i by lia. apply list_lookup_insert_eq. lia.
  - apply list_lookup_insert_ne. lia.
Qed.

Lemma zlen_insert {A} (l : list A) i x : zlen (<[i := x]> l) = zlen l.
Proof. unfold zlen. by rewrite length_insert. Qed.

Lemma zlen_perm {A} (l l' : list A) : l ≡ₚ l' -> zlen l = zlen l'.
Proof. unfold zlen. by intros ->. Qed.

Lemma schedule_inv_new plan : plan_wf plan -> schedule_inv (TestAdmissionSchedule_new plan).
Proof.
  intros Hwf. pose proof (zlen_nonneg (plan_entries plan)). destruct (plan_budget plan Hwf). pose proof (plan_mode_ok plan Hwf).
  split; simpl; try done; try set_solver; try (unfold zlen; simpl; lia).
  - unfold zlen. by rewrite length_replicate.
  - constructor.
  - intros i Hi ?. apply get_Some_range in Hi. lia.
  - intros i r Hi. pose proof (get_Some_range _ _ _ Hi) as Hr. unfold zlen in Hr. rewrite length_replicate in Hr.
    by rewrite get_replicate in Hi by lia.
Qed.

(** *** Admission *)

(** The conditions under which the next invocation may start. *)
Record admissible (s : TestAdmissionSchedule) (entry : TestEntryMetadata) (invocation : TestInvocationPlan) : Prop := {
  adm_running : stop_reason s = None;
  adm_not_serial : active_serial s = false;
  adm_concurrency : zlen (active s) < maximum_concurrency (plan_mode (schedule_plan s));
  adm_entry : get (plan_entries (schedule_plan s)) (next_index s) = Some entry;
  adm_invocation : get (plan_invocations (schedule_plan s)) (next_index s) = Some invocation;
  adm_barrier : entry_constraint entry = Serial -> active s = [];
  adm_capture : active_capture_bytes s + capture_reservation (plan_capture invocation) <= capture_byte_budget (schedule_plan s);
}.

Definition admission_of (s : TestAdmissionSchedule) (entry : TestEntryMetadata) (invocation : TestInvocationPlan) : TestAdmission :=
  {| admission_index := next_index s; admission_entry := entry; admission_invocation := invocation |}.

Definition admitted (s : TestAdmissionSchedule) (entry : TestEntryMetadata) (invocation : TestInvocationPlan) : TestAdmissionSchedule :=
  let serial := bool_decide (entry_constraint entry = Serial) in
  let bytes := capture_reservation (plan_capture invocation) in
  {| schedule_plan := schedule_plan s; next_index := next_index s + 1;
     active := btree_insert (plan_identity invocation)
       {| active_index := next_index s; active_bytes := bytes; active_is_serial := serial |} (active s);
     completed := completed s; active_capture_bytes := active_capture_bytes s + bytes; active_serial := serial;
     stop_reason := stop_reason s |}.

Lemma admit_next_spec s :
  schedule_inv s ->
  match admit_next s with
  | Ret (Some admission, s') => exists entry invocation,
      admissible s entry invocation /\ admission = admission_of s entry invocation /\ s' = admitted s entry invocation
  | Ret (None, s') => s' = s /\ forall entry invocation, ~ admissible s entry invocation
  | _ => False
  end.
Proof.
  intros Hinv. unfold admit_next. destruct (bool_decide (is_Some (stop_reason s))) eqn:E1; simpl.
  { split; [done|]. intros e i [Hs _ _ _ _ _ _]. apply bool_decide_eq_true in E1 as [r Hr]. congruence. }
  apply bool_decide_eq_false, eq_None_not_Some in E1.
  destruct (active_serial s) eqn:E2; simpl; [split; [done|]; intros e i [_ Hs _ _ _ _ _]; congruence|].
  destruct (maximum_concurrency _ <=? zlen (active s)) eqn:E3; [split; [done|]; intros e i [_ _ Hs _ _ _ _]; lia|].
  destruct (get (plan_entries (schedule_plan s)) (next_index s)) as [entry|] eqn:E4;
    [|split; [done|]; intros e i [_ _ _ Hs _ _ _]; congruence].
  destruct (plan_invocation _ _ _ (inv_plan s Hinv) E4) as (invocation & E5 & _ & Hcap). rewrite E5. simpl.
  pose proof (plan_budget _ (inv_plan s Hinv)) as [_ Hbudget]. pose proof (inv_budget s Hinv).
  pose proof (reserved_nonneg s Hinv). pose proof (inv_bytes s Hinv).
  destruct (bool_decide (entry_constraint entry = Serial)) eqn:E6; [apply bool_decide_eq_true in E6|apply bool_decide_eq_false in E6]; simpl.
  1: destruct (bool_decide (active s = [])) eqn:E7; simpl; [apply bool_decide_eq_true in E7|apply bool_decide_eq_false in E7;
      split; [done|]; intros e i [_ _ _ He _ Hs _]; apply E7, Hs; congruence].
  all: destruct (_ <? capture_reservation _) eqn:E8; [split; [done|]; intros e i [_ _ _ _ Hi _ Hs]; assert (i = invocation) by congruence; subst; lia|].
  all: unfold u64_checked_add; rewrite checked_ok by lia; simpl; exists entry, invocation;
    unfold admitted; split; [split; [done|done|lia|done|done|naive_solver|lia]|]; by rewrite ?(bool_decide_eq_true_2 _ E6), ?(bool_decide_eq_false_2 _ E6).
Qed.

(** Admission keeps the invariant. *)
Lemma schedule_inv_admitted s entry invocation :
  schedule_inv s -> admissible s entry invocation -> schedule_inv (admitted s entry invocation).
Proof.
  intros Hinv [Hrun Hser Hcon He Hi Hbar Hcap]. pose proof (get_Some_range _ _ _ He) as Hnext.
  destruct (plan_invocation _ _ _ (inv_plan s Hinv) He) as (invocation' & Hi' & Hid & Hbytes).
  assert (invocation' = invocation) as -> by congruence. clear Hi'.
  set (act := {| active_index := next_index s; active_bytes := capture_reservation (plan_capture invocation);
                 active_is_serial := bool_decide (entry_constraint entry = Serial) |}).
  assert (btree_get (plan_identity invocation) (active s) = None) as Hfresh.
  { destruct (btree_get (plan_identity invocation) (active s)) as [a|] eqn:Ea; [|done].
    apply btree_get_Some in Ea; [|apply (inv_map s Hinv)].
    destruct (inv_active s Hinv _ _ Ea) as (Ha & (e & v & Hge & _ & Hide & _) & _).
    pose proof (plan_identity_inj _ _ _ _ _ (inv_plan s Hinv) Hge He ltac:(congruence)). lia. }
  pose proof (btree_insert_perm (plan_identity invocation) act (active s) Hfresh) as Hp.
  assert (get (completed s) (next_index s) = Some None) as Hnone.
  { destruct (get_is_Some (completed s) (next_index s)) as [[r|] Hr]; [rewrite (inv_length s Hinv); lia| |done].
    apply (inv_results s Hinv) in Hr. lia. }
  split; simpl; fold act; try apply Hinv; try lia.
  - by apply btree_insert_wf, Hinv.
  - intros identity a Hin. rewrite Hp in Hin. apply elem_of_cons in Hin as [[= -> ->]|Hin].
    + simpl. split_and!; [lia|lia| |done]. exists entry, invocation. split_and!; try done. apply Hbytes.
    + destruct (inv_active s Hinv _ _ Hin) as (? & ? & ?). by split_and!; [lia|lia|..].
  - intros i Hg Hlt. setoid_rewrite Hp. destruct (Z.eq_dec i (next_index s)) as [->|].
    + exists (plan_identity invocation), act. split; [set_solver|done].
    + destruct (inv_pending s Hinv i Hg ltac:(lia)) as (id' & a & Ha & ?). exists id', a. set_solver.
  - intros i r Hr. destruct (inv_results s Hinv i r Hr). split; [lia|done].
  - rewrite (reserved_perm _ _ Hp), (inv_bytes s Hinv). unfold reserved. simpl. lia.
  - rewrite (zlen_perm _ _ Hp), zlen_cons. lia.
  - setoid_rewrite Hp. split.
    + intros Hs. exists (plan_identity invocation), act. split; [set_solver|done].
    + intros (id' & a & [[= -> ->]|Hin]%elem_of_cons & Ha); [done|]. exfalso.
      assert (active_serial s = true) by (apply (inv_serial s Hinv); by exists id', a). congruence.
  - rewrite bool_decide_eq_true. intros Hs. rewrite (Hbar Hs). done.
Qed.

(** *** Completion *)

Definition released (s : TestAdmissionSchedule) (act : ActiveAdmission) (r : TestInvocationResult) : TestAdmissionSchedule :=
  {| schedule_plan := schedule_plan s; next_index := next_index s; active := btree_remove (ir_identity r) (active s);
     completed := <[Z.to_nat (active_index act) := Some r]> (completed s);
     active_capture_bytes := active_capture_bytes s - active_bytes act;
     active_serial := if active_is_serial act then false else active_serial s; stop_reason := stop_reason s |}.

(** The admission a result is for, as the schedule knows it. *)
Definition runs (s : TestAdmissionSchedule) (admission : TestAdmission) (r : TestInvocationResult) (act : ActiveAdmission) : Prop :=
  ir_identity r = plan_identity (admission_invocation admission) /\
  btree_get (ir_identity r) (active s) = Some act /\ active_index act = admission_index admission.

Lemma reserved_ge s identity act : schedule_inv s -> (identity, act) ∈ active s -> 0 <= active_bytes act <= active_capture_bytes s.
Proof.
  intros Hinv Hin. pose proof Hin as Hg. apply (btree_get_Some _ _ _ (inv_map s Hinv)) in Hg.
  rewrite (inv_bytes s Hinv), (reserved_perm _ _ (btree_remove_perm _ _ _ Hg)). simpl.
  assert (forall l, (forall i a, (i, a) ∈ l -> (i, a) ∈ active s) -> 0 <= reserved l) as Hl.
  { induction l as [|[i a] l IH]; intros Hl; [done|].
    destruct (inv_active s Hinv i a (Hl i a ltac:(set_solver))) as (_ & (e & v & _ & _ & _ & _ & _ & Hb & _) & _).
    assert (0 <= reserved l) by (apply IH; intros j b Hj; apply (Hl j b); set_solver). unfold reserved in *. simpl. lia. }
  destruct (inv_active s Hinv _ _ Hin) as (_ & (e & v & _ & _ & _ & _ & _ & Hb & _) & _).
  assert (0 <= reserved (btree_remove identity (active s))) by (apply Hl; intros i a; apply elem_of_btree_remove).
  unfold reserved in *. lia.
Qed.

Lemma complete_spec s admission r :
  schedule_inv s ->
  match complete s admission r with
  | Ret (Ok _, s') => exists act, runs s admission r act /\ s' = released s act r
  | Ret (Err e, s') => s' = s /\ (forall act, ~ runs s admission r act) /\
      e = if decide (ir_identity r = plan_identity (admission_invocation admission))
          then InvocationNotActive (ir_identity r) else ResultIdentityMismatch (ir_identity r)
  | _ => False
  end.
Proof.
  intros Hinv. unfold complete, runs. destruct (bool_decide (ir_identity r = _)) eqn:E1; simpl;
    [apply bool_decide_eq_true in E1|apply bool_decide_eq_false in E1].
  2: { rewrite decide_False by done. naive_solver. }
  rewrite decide_True by done. destruct (btree_get (ir_identity r) (active s)) as [act|] eqn:E2; [|naive_solver].
  destruct (active_index act =? admission_index admission) eqn:E3; simpl.
  - assert ((ir_identity r, act) ∈ active s) as Hin by (by apply btree_get_Some in E2; [|apply Hinv]).
    destruct (inv_active s Hinv _ _ Hin) as (_ & _ & ->). simpl. exists act. split; [split_and!; [done|done|lia]|].
    pose proof (reserved_ge s _ _ Hinv Hin). unfold released. f_equal. lia.
  - rewrite btree_insert_remove by (done || apply Hinv). split; [by destruct s|]. split; [|done]. intros a (_ & [= ->] & ?). lia.
Qed.

(** Completion keeps the invariant. *)
Lemma schedule_inv_released s admission r act :
  schedule_inv s -> runs s admission r act -> schedule_inv (released s act r).
Proof.
  intros Hinv (_ & Hg & _). pose proof (btree_remove_perm _ _ _ Hg) as Hp.
  assert ((ir_identity r, act) ∈ active s) as Hin by (by apply btree_get_Some in Hg; [|apply Hinv]).
  destruct (inv_active s Hinv _ _ Hin) as (Hidx & (e & v & He & Hv & Hide & Hidv & Hb & Hpos & Hs) & Hnone).
  pose proof (reserved_ge s _ _ Hinv Hin) as Hge. pose proof (inv_length s Hinv) as Hlen. pose proof (inv_next s Hinv) as Hnext.
  assert (forall identity a, (identity, a) ∈ btree_remove (ir_identity r) (active s) -> active_index a <> active_index act) as Hother.
  { intros identity a Ha Heq. destruct (inv_active s Hinv identity a (elem_of_btree_remove _ _ _ Ha)) as (_ & (e' & v' & He' & _ & Hide' & _) & _).
    rewrite Heq in He'. assert (identity = ir_identity r) as -> by congruence.
    pose proof (btree_wf_NoDup _ (inv_map s Hinv)) as Hnd. rewrite Hp in Hnd. simpl in Hnd. apply NoDup_cons in Hnd as [Hnd _].
    apply Hnd, list_elem_of_fmap. by exists (ir_identity r, a). }
  split; simpl; try apply Hinv; try lia.
  - by rewrite zlen_insert.
  - by apply btree_remove_wf, Hinv.
  - intros identity a Ha. destruct (inv_active s Hinv identity a (elem_of_btree_remove _ _ _ Ha)) as (? & ? & ?).
    split; [done|]. split; [done|]. rewrite get_insert by lia. pose proof (Hother _ _ Ha). by destruct (_ =? _) eqn:E; [lia|].
  - intros i. rewrite get_insert by lia. destruct (i =? active_index act) eqn:E; [done|]. intros Hi Hlt.
    destruct (inv_pending s Hinv i Hi Hlt) as (id' & a & Ha & <-). rewrite Hp in Ha.
    apply elem_of_cons in Ha as [[= -> ->]|Ha]; [lia|by exists id', a].
  - intros i r'. rewrite get_insert by lia. destruct (i =? active_index act) eqn:E; [|apply Hinv].
    intros [= <-]. replace i with (active_index act) by lia. split; [lia|]. by exists e.
  - rewrite (inv_bytes s Hinv), (reserved_perm _ _ Hp). unfold reserved. simpl. lia.
  - pose proof (inv_budget s Hinv). lia.
  - pose proof (inv_concurrency s Hinv) as Hc. rewrite (zlen_perm _ _ Hp), zlen_cons in Hc. lia.
  - split.
    + destruct (active_is_serial act) eqn:Ea; [done|]. intros (id' & a & Ha & Hsa)%(inv_serial s Hinv).
      rewrite Hp in Ha. apply elem_of_cons in Ha as [[= -> ->]|Ha]; [congruence|by exists id', a].
    + intros (id' & a & Ha & Hsa). exfalso.
      assert (active_serial s = true) as Hone by (apply (inv_serial s Hinv); exists id', a; split; [by eapply elem_of_btree_remove|done]).
      apply (inv_alone s Hinv) in Hone. rewrite (zlen_perm _ _ Hp), zlen_cons in Hone.
      destruct (btree_remove (ir_identity r) (active s)); [set_solver|]. rewrite zlen_cons in Hone. pose proof (zlen_nonneg l). lia.
  - destruct (active_is_serial act) eqn:Ea; [done|]. intros Hone. exfalso.
    pose proof (inv_alone s Hinv Hone) as Hlen1. apply (inv_serial s Hinv) in Hone as (id' & a & Ha & Hsa).
    rewrite Hp in Ha. rewrite (zlen_perm _ _ Hp), zlen_cons in Hlen1.
    destruct (btree_remove (ir_identity r) (active s)); [|rewrite zlen_cons in Hlen1; pose proof (zlen_nonneg l); lia].
    apply list_elem_of_singleton in Ha. congruence.
Qed.

(** *** Stopping *)

Lemma schedule_inv_stop s reason : schedule_inv s -> schedule_inv (stop s reason).2.
Proof. intros []. by split. Qed.

Lemma strictly_sorted_eq {K} `{OrdLaws K} (l l' : list K) :
  StronglySorted (fun a b => cmp a b = Lt) l -> StronglySorted (fun a b => cmp a b = Lt) l' ->
  (forall x, x ∈ l <-> x ∈ l') -> l = l'.
Proof.
  intros Hl Hl' Hin. apply sorted_keys_unique; [by apply strictly_sorted_le|by apply strictly_sorted_le|].
  apply NoDup_Permutation; [by apply strictly_sorted_NoDup|by apply strictly_sorted_NoDup|done].
Qed.

Lemma StronglySorted_filter {A} (R : A -> A -> Prop) (P : A -> Prop) `{!forall x, Decision (P x)} l :
  StronglySorted R l -> StronglySorted R (filter P l).
Proof.
  induction 1 as [|x l Hl IH Hx]; [constructor|]. rewrite filter_cons. destruct (decide (P x)); [|done].
  constructor; [done|]. rewrite Forall_forall in Hx |- *. intros y [_ Hy]%list_elem_of_filter. by apply Hx.
Qed.

(** Active identities, in the order of the plan. *)
Definition active_in_order (s : TestAdmissionSchedule) : list TestIdentity :=
  filter (.∈ map fst (active s)) (map entry_identity (plan_entries (schedule_plan s))).

Lemma active_identity s identity act :
  schedule_inv s -> (identity, act) ∈ active s ->
  get (map entry_identity (plan_entries (schedule_plan s))) (active_index act) = Some identity.
Proof.
  intros Hinv Hin. destruct (inv_active s Hinv identity act Hin) as (_ & (e & _ & He & _ & <- & _) & _).
  by rewrite get_map, He.
Qed.

Lemma active_sorted_by_identity s : schedule_inv s -> map fst (active s) = active_in_order s.
Proof.
  intros Hinv. apply strictly_sorted_eq; [apply (inv_map s Hinv)|apply StronglySorted_filter, (inv_plan s Hinv)|].
  intros x. unfold active_in_order. rewrite list_elem_of_filter. split; [|tauto]. intros Hx. split; [done|].
  apply list_elem_of_fmap in Hx as ([identity act] & -> & Hin). apply (active_identity s) in Hin; [|done].
  by eapply get_elem_of.
Qed.

Lemma active_by_index_NoDup s :
  schedule_inv s -> NoDup (map fst (map (fun '(identity, act) => (active_index act, identity)) (active s))).
Proof.
  intros Hinv. pose proof (btree_wf_NoDup _ (inv_map s Hinv)) as Hnd.
  assert (forall i a, (i, a) ∈ active s -> get (map entry_identity (plan_entries (schedule_plan s))) (active_index a) = Some i)
    as Hget by (intros; by apply active_identity).
  revert Hnd Hget. generalize (active s). induction l as [|[i a] l IH]; intros Hnd Hget; [constructor|]. simpl in *.
  apply NoDup_cons in Hnd as [Hi Hnd]. constructor; [|apply IH; [done|]; intros j b Hj; apply Hget; set_solver].
  rewrite map_map. intros ([j b] & Heq & Hj)%list_elem_of_fmap. simpl in Heq. apply Hi, list_elem_of_fmap. exists (j, b).
  split; [|done]. simpl. pose proof (Hget i a ltac:(set_solver)) as H1. pose proof (Hget j b ltac:(set_solver)) as H2. congruence.
Qed.

(** Stopping reports what is active in catalog order. *)
Lemma stop_in_order s reason : schedule_inv s -> (stop s reason).1 = active_in_order s.
Proof.
  intros Hinv. rewrite <- active_sorted_by_identity by done. unfold stop. simpl.
  set (by_index := map (fun '(identity, act) => (active_index act, identity)) (active s)).
  assert (btree_collect by_index ≡ₚ by_index) as Hp by apply btree_collect_perm, active_by_index_NoDup, Hinv.
  pose proof (btree_collect_wf by_index) as Hwf. unfold btree_wf in Hwf.
  assert (map snd by_index = map fst (active s)) as Hids.
  { unfold by_index. rewrite map_map. apply map_ext. by intros []. }
  apply strictly_sorted_eq; [|apply (inv_map s Hinv)|intros x; by rewrite <- Hids, (Permutation_map snd Hp)].
  assert (forall i x, (i, x) ∈ btree_collect by_index -> get (map entry_identity (plan_entries (schedule_plan s))) i = Some x) as Hget.
  { intros i x Hin. rewrite Hp in Hin. unfold by_index in Hin. apply list_elem_of_fmap in Hin as ([j a] & [= -> ->] & Hin).
    by apply active_identity. }
  clear Hp Hids. revert Hwf Hget. generalize (btree_collect by_index). induction l as [|[i x] l IH]; intros Hwf Hget; [constructor|].
  simpl in *. inversion Hwf as [|? ? Hs Hf]; subst. constructor; [apply IH; [done|]; intros; apply Hget; set_solver|].
  rewrite Forall_map, Forall_forall in Hf |- *. intros [j y] Hj. simpl.
  apply (StronglySorted_get _ _ i j _ _ (plan_sorted _ (inv_plan s Hinv))); [apply Hget; set_solver|apply Hget; set_solver|].
  specialize (Hf _ Hj). by apply Z.compare_lt_iff.
Qed.

(** *** Progress and results *)

(** With nothing active, an unstopped schedule admits the next invocation. *)
Lemma schedule_progress s :
  schedule_inv s -> stop_reason s = None -> active s = [] -> next_index s < zlen (plan_entries (schedule_plan s)) ->
  exists entry invocation, admissible s entry invocation.
Proof.
  intros Hinv Hstop Hact Hlt. pose proof (inv_next s Hinv).
  destruct (get_is_Some (plan_entries (schedule_plan s)) (next_index s)) as [entry He]; [lia|].
  destruct (plan_invocation _ _ _ (inv_plan s Hinv) He) as (invocation & Hi & _ & Hb). exists entry, invocation.
  pose proof (inv_bytes s Hinv) as Hbytes. rewrite Hact in Hbytes. unfold reserved in Hbytes. simpl in Hbytes.
  pose proof (plan_mode_ok _ (inv_plan s Hinv)). split; try done; [|rewrite Hact; unfold zlen; simpl; lia|lia].
  destruct (active_serial s) eqn:E; [|done]. apply (inv_alone s Hinv) in E. by rewrite Hact in E.
Qed.

Lemma completed_all_spec s :
  schedule_inv s ->
  completed_all s = true <-> next_index s = zlen (plan_entries (schedule_plan s)) /\ active s = [].
Proof.
  intros Hinv. unfold completed_all. rewrite !andb_true_iff, Z.eqb_eq, bool_decide_eq_true, forallb_forall.
  split; [tauto|]. intros [Hn Ha]. split; [done|]. intros o Ho%list_elem_of_In. apply elem_of_get in Ho as (i & Hi).
  destruct o as [r|]; [done|]. exfalso. pose proof (get_Some_range _ _ _ Hi) as Hr. rewrite (inv_length s Hinv) in Hr.
  destruct (inv_pending s Hinv i Hi ltac:(lia)) as (id' & a & Hin & _). rewrite Ha in Hin. set_solver.
Qed.

(** Results are for their entries, position by position. *)
Lemma completed_results_sublist s :
  schedule_inv s -> map ir_identity (completed_results s) `sublist_of` map entry_identity (plan_entries (schedule_plan s)).
Proof.
  intros Hinv. pose proof (inv_length s Hinv) as Hlen. pose proof (fun i r H => proj2 (inv_results s Hinv i r H)) as Hres.
  unfold completed_results. revert Hlen Hres. generalize (completed s) (plan_entries (schedule_plan s)).
  induction l as [|o l IH]; intros [|e es] Hlen Hres; try done.
  rewrite !zlen_cons in Hlen. assert (map ir_identity (omap id l) `sublist_of` map entry_identity es) as Htail.
  { apply IH; [lia|]. intros i r Hi. pose proof (get_Some_range _ _ _ Hi). destruct (Hres (i + 1) r) as (x & Hx & ?).
    - rewrite get_cons_S by lia. by replace (i + 1 - 1) with i by lia.
    - rewrite get_cons_S in Hx by lia. replace (i + 1 - 1) with i in Hx by lia. by exists x. }
  destruct o as [r|]; simpl; [|by constructor]. destruct (Hres 0 r) as (x & Hx & ->); [done|].
  rewrite get_cons_0 in Hx. injection Hx as ->. by constructor.
Qed.

Lemma sublist_same_length {A} (l k : list A) : l `sublist_of` k -> (length k <= length l)%nat -> l = k.
Proof.
  induction 1 as [|x l k Hs IH|x l k Hs _]; intros Hlen; [done|simpl in Hlen; f_equal; apply IH; lia|].
  apply sublist_length in Hs. simpl in Hlen. lia.
Qed.

Lemma completed_all_results s :
  schedule_inv s -> completed_all s = true ->
  map ir_identity (completed_results s) = map entry_identity (plan_entries (schedule_plan s)).
Proof.
  intros Hinv Hall. apply sublist_same_length; [by apply completed_results_sublist|]. rewrite !length_map.
  pose proof (inv_length s Hinv) as Hlen. unfold completed_all in Hall. rewrite !andb_true_iff in Hall. destruct Hall as [_ Hall].
  unfold completed_results. assert (length (omap id (completed s)) = length (completed s)) as ->; [|unfold zlen in Hlen; lia].
  clear Hlen. induction (completed s) as [|o l IH]; [done|]. simpl in *. rewrite andb_true_iff, bool_decide_eq_true in Hall.
  destruct Hall as [[r ->] Hall]. simpl. f_equal. by apply IH.
Qed.

(** ** The guarantees *)

(** Operations a runner may call, in any order and with any arguments. *)
Inductive schedule_event :=
| EventAdmit
| EventComplete (admission : TestAdmission) (r : TestInvocationResult)
| EventStop (reason : TestStopReason).

Definition schedule_step (s : TestAdmissionSchedule) (event : schedule_event) : outcome TestAdmissionSchedule :=
  match event with
  | EventAdmit => let! r := admit_next s in Ret r.2
  | EventComplete admission result => let! r := complete s admission result in Ret r.2
  | EventStop reason => Ret (stop s reason).2
  end.

Fixpoint schedule_run (s : TestAdmissionSchedule) (events : list schedule_event) : outcome TestAdmissionSchedule :=
  match events with
  | [] => Ret s
  | event :: events => let! s := schedule_step s event in schedule_run s events
  end.

Lemma schedule_step_inv s event :
  schedule_inv s -> returns (schedule_step s event) (fun s' => schedule_inv s' /\ schedule_plan s' = schedule_plan s).
Proof.
  intros Hinv. destruct event as [|admission r|reason]; simpl.
  - pose proof (admit_next_spec s Hinv) as Hs. destruct (admit_next s) as [[[a|] s']| |]; [| |done|done]; apply returns_ret; simpl.
    + destruct Hs as (e & i & Ha & _ & ->). split; [by apply schedule_inv_admitted|done].
    + by destruct Hs as [-> _].
  - pose proof (complete_spec s admission r Hinv) as Hs.
    destruct (complete s admission r) as [[[[]|e] s']| |]; [| |done|done]; apply returns_ret; simpl.
    + destruct Hs as (act & Ha & ->). split; [by eapply schedule_inv_released|done].
    + by destruct Hs as [-> _].
  - apply returns_ret. split; [by apply schedule_inv_stop|done].
Qed.

Lemma schedule_run_inv s events :
  schedule_inv s -> returns (schedule_run s events) (fun s' => schedule_inv s' /\ schedule_plan s' = schedule_plan s).
Proof.
  revert s. induction events as [|event events IH]; intros s Hinv; simpl; [by apply returns_ret|].
  eapply returns_bind; [by apply schedule_step_inv|]. intros s' [Hs' <-]. by apply IH.
Qed.

(** Building a plan: it succeeds exactly when the selected identities are
    distinct, the invocations are for them one to one, and each reservation fits
    the budget, and then pairs entries and invocations in canonical order. *)
Lemma plan_try_new_spec selections invocations mode budget :
  plan_args_ok invocations mode budget ->
  let entries := concat (map selection_entries selections) in
  match TestExecutionPlan_try_new selections invocations mode budget with
  | Ok plan => plan_wf plan /\ plan_entries plan ≡ₚ entries /\ plan_invocations plan ≡ₚ invocations /\
      plan_mode plan = mode /\ capture_byte_budget plan = budget
  | Err (PlanDuplicateIdentity identity) => ~ NoDup (map entry_identity entries) /\ identity ∈ map entry_identity entries
  | Err (InvocationCountMismatch n m) => n = zlen entries /\ m = zlen invocations /\ n <> m
  | Err (InvocationIdentityMismatch identity) => identity ∈ map plan_identity invocations /\
      ~ map plan_identity invocations ≡ₚ map entry_identity entries
  | Err (CaptureBudgetExceeded identity required maximum) => maximum = budget /\ budget < required /\
      exists i, i ∈ invocations /\ plan_identity i = identity /\ capture_reservation (plan_capture i) = required
  end.
Proof.
  intros [Hm Hb Hc] entries. unfold TestExecutionPlan_try_new. fold entries.
  pose proof (sort_by_key_sorted entry_identity entries) as Hs. pose proof (sort_by_key_perm entry_identity entries) as Hp.
  pose proof (adjacent_equal_None entry_identity _ Hs) as Ha.
  destruct (adjacent_equal entry_identity (sort_by_key entry_identity entries)) as [x|] eqn:Ea.
  { rewrite <- (Permutation_map entry_identity Hp). split; [by intros ?%Ha|]. apply adjacent_equal_Some in Ea.
    by apply list_elem_of_fmap_2. }
  pose proof (sort_by_key_sorted plan_identity invocations) as Hs'. pose proof (sort_by_key_perm plan_identity invocations) as Hp'.
  destruct (zlen (sort_by_key entry_identity entries) =? zlen (sort_by_key plan_identity invocations)) eqn:El; simpl.
  2: { rewrite (zlen_perm _ _ Hp), (zlen_perm _ _ Hp') in *. split_and!; [done|done|lia]. }
  pose proof (check_invocations_spec budget (sort_by_key entry_identity entries) (sort_by_key plan_identity invocations)
    ltac:(unfold zlen in El; lia)) as Hcheck.
  destruct (check_invocations budget (sort_by_key entry_identity entries) (sort_by_key plan_identity invocations)) as [[]|[]]; try done; simpl.
  - destruct Hcheck as [Hids Hfit]. split_and!; try done. split; simpl; [|done| |done|done].
    + apply strictly_sorted; [done|by apply Ha].
    + rewrite <- Hp' in Hc. rewrite Forall_forall in Hfit, Hc |- *. intros i Hi. split; [by apply Hc|by apply Hfit].
  - destruct Hcheck as [Hne Hin]. rewrite <- (Permutation_map plan_identity Hp'). split; [done|].
    rewrite <- (Permutation_map entry_identity Hp). intros Hperm. apply Hne. by apply sorted_keys_unique.
  - destruct Hcheck as (-> & Hlt & i & Hi & ?). rewrite Hp' in Hi. split_and!; [done|done|by exists i].
Qed.

(** C12.  The schedule's invariant: whatever operations are called in whatever order,
    with results and admissions of any origin, nothing panics or overflows, at
    most the permitted number of invocations is active, their capture
    reservations add up exactly and stay within the budget, a serial invocation
    is active alone, and every admitted invocation is either active or completed
    with a result of its own. *)
Theorem schedule_invariant plan events :
  plan_wf plan ->
  returns (schedule_run (TestAdmissionSchedule_new plan) events) (fun s => schedule_inv s /\ schedule_plan s = plan).
Proof. intros Hwf. by apply schedule_run_inv, schedule_inv_new. Qed.

(** What the operations do after any calls: an invocation is admitted exactly
    when it is next in catalog order and every limit permits it; a result is
    recorded exactly when it is for an active admission, and otherwise nothing
    changes; stopping reports the active identities in catalog order and ends
    admission; results are reported in catalog order. *)
Theorem schedule_operations_exact plan events s :
  plan_wf plan -> schedule_run (TestAdmissionSchedule_new plan) events = Ret s ->
  match admit_next s with
  | Ret (Some admission, s') => exists entry invocation,
      admissible s entry invocation /\ admission = admission_of s entry invocation /\ s' = admitted s entry invocation
  | Ret (None, s') => s' = s /\ forall entry invocation, ~ admissible s entry invocation
  | _ => False
  end /\
  (forall admission r,
     match complete s admission r with
     | Ret (Ok _, s') => exists act, runs s admission r act /\ s' = released s act r
     | Ret (Err e, s') => s' = s /\ (forall act, ~ runs s admission r act) /\
         e = if decide (ir_identity r = plan_identity (admission_invocation admission))
             then InvocationNotActive (ir_identity r) else ResultIdentityMismatch (ir_identity r)
     | _ => False
     end) /\
  (forall reason, (stop s reason).1 = active_in_order s /\ admit_next (stop s reason).2 = Ret (None, (stop s reason).2)) /\
  map ir_identity (completed_results s) `sublist_of` map entry_identity (plan_entries plan) /\
  (completed_all s = true -> map ir_identity (completed_results s) = map entry_identity (plan_entries plan)).
Proof.
  intros Hwf Hrun. pose proof (schedule_run_inv _ events (schedule_inv_new plan Hwf)) as Hinv.
  apply (returns_det _ _ _ Hinv) in Hrun as [Hi Hplan]. clear Hinv. rename Hi into Hinv. simpl in Hplan. rewrite <- Hplan. split_and!.
  - by apply admit_next_spec.
  - intros admission r. by apply complete_spec.
  - intros reason. split; [by apply stop_in_order|]. unfold admit_next, stop. simpl.
    rewrite bool_decide_true; [done|]. by destruct (stop_reason s).
  - by apply completed_results_sublist.
  - by apply completed_all_results.
Qed.

(** A plan with a serial entry between two parallel ones. *)
Definition sample_invocation (name : string) : TestInvocationPlan :=
  {| plan_identity := sample_identity name; plan_timeout := TimeoutUnlimited;
     plan_capture := PolicyCaptured {| per_stream_byte_limit := 40; invocation_byte_limit := 64 |} |}.

Definition sample_invocations : list TestInvocationPlan :=
  [sample_invocation "moves"; sample_invocation "adds"; sample_invocation "drops"].

Definition sample_plan : TestExecutionPlan :=
  {| plan_entries := catalog_entries sample_catalog;
     plan_invocations := [sample_invocation "adds"; sample_invocation "drops"; sample_invocation "moves"];
     plan_mode := ModeParallel 2; capture_byte_budget := 128 |}.

Definition sample_selection : TestSelection := TestSelection_from_catalog sample_catalog (unsharded []).

Lemma sample_plan_wf : plan_wf sample_plan.
Proof.
  split; [repeat constructor|reflexivity|repeat (constructor; [vm_compute; split; congruence|]); constructor|vm_compute; congruence|
    vm_compute; split; congruence].
Qed.

Definition sample_result (name : string) : TestInvocationResult :=
  TestInvocationResult_after_cleanup (sample_identity name) Passed CapturedStream_discarded CapturedStream_discarded.

Definition sample_events : list schedule_event :=
  [EventAdmit; EventAdmit;
   EventComplete {| admission_index := 0; admission_entry := sample_entry "adds" Parallel; admission_invocation := sample_invocation "adds" |}
     (sample_result "adds");
   EventAdmit; EventAdmit].

Lemma schedule_invariant_witness :
  returns (schedule_run (TestAdmissionSchedule_new sample_plan) sample_events) (fun s => schedule_inv s /\ schedule_plan s = sample_plan).
Proof. apply (schedule_invariant sample_plan sample_events). exact sample_plan_wf. Defined.

