(* ===== verification/TestCodec.v ===== *)
(** * The wire protocol of the test runner

    [bray-test-protocol/codec]: the bounded encoder and decoder and their frames
    ([support.rs]), host commands, control messages and results ([host.rs]), and
    test catalogs ([catalog.rs]).  The stream a frame travels on is a [Writer]
    and a [Reader]; the digest of a catalog is a parameter, the hash function
    being third-party code. *)

From Stdlib Require Import ZArith Lia String.
From stdpp Require Import base option relations list.
From S2P Require Import Prelude Utf8 SourceText Order Base TestModel TestCatalog.

(** [cast_unsigned] and [cast_signed] at a width in bits. *)
Definition cast_unsigned (bits value : Z) : Z := value mod 2 ^ bits.
Definition cast_signed (bits value : Z) : Z := if value <? 2 ^ (bits - 1) then value else value - 2 ^ bits.

(** ** support.rs *)

Definition PROTOCOL_VERSION : u32 := 2.
Definition MAX_FRAME_BYTES : usize := 16 * 1024 * 1024.
Definition MAX_COLLECTION_ITEMS : usize := 1000000.
Definition MAX_STRING_BYTES : usize := 1024 * 1024.

Inductive TestProtocolError := Io | Malformed | UnsupportedVersion (version : u32) | ResourceLimit.

Record Encoder := { encoder_bytes : list u8 }.

#[local] Notation encodes := (Encoder -> result Encoder TestProtocolError).

Definition Encoder_extend (e : Encoder) (bytes : list u8) : Encoder := {| encoder_bytes := encoder_bytes e ++ bytes |}.

Definition Encoder_new (magic : list u8) : Encoder :=
  Encoder_extend (Encoder_extend {| encoder_bytes := [] |} magic) (to_le_bytes 4 PROTOCOL_VERSION).

Definition Encoder_u8 (value : u8) (e : Encoder) : Encoder := Encoder_extend e [value].
Definition Encoder_u32 (value : u32) (e : Encoder) : Encoder := Encoder_extend e (to_le_bytes 4 value).
Definition Encoder_u64 (value : u64) (e : Encoder) : Encoder := Encoder_extend e (to_le_bytes 8 value).

Definition Encoder_length (value : usize) : encodes := fun e =>
  let? value := ok_or (u32_try_from value) ResourceLimit in
  Ok (Encoder_u32 value e).

Definition Encoder_put_bytes (value : list u8) : encodes := fun e =>
  let? e := Encoder_length (zlen value) e in
  Ok (Encoder_extend e value).

Definition Encoder_string (value : str) : encodes := fun e =>
  if MAX_STRING_BYTES <? zlen value then Err ResourceLimit else Encoder_put_bytes value e.

Definition Encoder_finish (e : Encoder) : result (list u8) TestProtocolError :=
  if MAX_FRAME_BYTES <? zlen (encoder_bytes e) then Err ResourceLimit else Ok (encoder_bytes e).

Record Decoder := { decoder_bytes : list u8; decoder_position : usize }.

#[local] Notation decodes A := (Decoder -> result (A * Decoder) TestProtocolError).

Definition Decoder_at (d : Decoder) (position : usize) : Decoder :=
  {| decoder_bytes := decoder_bytes d; decoder_position := position |}.

Definition Decoder_new (bytes magic : list u8) : result Decoder TestProtocolError :=
  if (MAX_FRAME_BYTES <? zlen bytes) || (zlen bytes <? 12) || negb (bool_decide (ztake 8 bytes = magic))
  then Err Malformed
  else
    let version := from_le_bytes (ztake 4 (zdrop 8 bytes)) in
    if negb (version =? PROTOCOL_VERSION) then Err (UnsupportedVersion version)
    else Ok {| decoder_bytes := bytes; decoder_position := 12 |}.

Definition Decoder_u8 : decodes u8 := fun d =>
  let? value := ok_or (get (decoder_bytes d) (decoder_position d)) Malformed in
  Ok (value, Decoder_at d (decoder_position d + 1)).

Definition Decoder_take (length : usize) : decodes (list u8) := fun d =>
  let? end_ := ok_or (usize_checked_add (decoder_position d) length) ResourceLimit in
  let? bytes := ok_or (get_range (decoder_bytes d) (decoder_position d) end_) Malformed in
  Ok (bytes, Decoder_at d end_).

Definition Decoder_u32 : decodes u32 := fun d =>
  let? r := Decoder_take 4 d in
  Ok (from_le_bytes r.1, r.2).

Definition Decoder_u64 : decodes u64 := fun d =>
  let? r := Decoder_take 8 d in
  Ok (from_le_bytes r.1, r.2).

Definition Decoder_length : decodes usize := fun d =>
  let? r := Decoder_u32 d in
  if MAX_COLLECTION_ITEMS <? r.1 then Err ResourceLimit else Ok r.

Definition Decoder_get_bytes : decodes (list u8) := fun d =>
  let? r := Decoder_u32 d in
  if MAX_FRAME_BYTES <? r.1 then Err ResourceLimit else Decoder_take r.1 r.2.

Definition Decoder_string : decodes str := fun d =>
  let? r := Decoder_get_bytes d in
  if MAX_STRING_BYTES <? zlen r.1 then Err ResourceLimit
  else
    let? text := map_err (fun _ => Malformed) (from_utf8 r.1) in
    Ok (text, r.2).

Definition Decoder_finish (d : Decoder) : result unit TestProtocolError :=
  if decoder_position d =? zlen (decoder_bytes d) then Ok tt else Err Malformed.

Definition encode_optional_error_type (error_type : option TestErrorTypeIdentity) : encodes := fun e =>
  match error_type with
  | Some error_type => Encoder_string (TestErrorTypeIdentity_0 error_type) (Encoder_u8 1 e)
  | None => Ok (Encoder_u8 0 e)
  end.

Definition decode_optional_error_type : decodes (option TestErrorTypeIdentity) := fun d =>
  let? tag := Decoder_u8 d in
  if tag.1 =? 0 then Ok (None, tag.2)
  else if tag.1 =? 1 then
    let? text := Decoder_string tag.2 in
    let? error_type := ok_or (TestErrorTypeIdentity_try_new text.1) Malformed in
    Ok (Some error_type, text.2)
  else Err Malformed.

(** [write_all] and [read_exact] of the stream; [None] is an I/O error. *)
Class Writer (W : Type) := write_all : W -> list u8 -> option W.
Class Reader (R : Type) := read_exact : R -> usize -> option (list u8 * R).

(** [Vec<u8>] and [&[u8]]. *)
#[export] Instance vec_writer : Writer (list u8) := fun w bytes => Some (w ++ bytes).
#[export] Instance slice_reader : Reader (list u8) := fun r n =>
  if zlen r <? n then None else Some (ztake n r, zdrop n r).

Definition write_frame {W} `{Writer W} (writer : W) (payload : list u8) : result W TestProtocolError :=
  if MAX_FRAME_BYTES <? zlen payload then Err ResourceLimit
  else
    let? length := ok_or (u32_try_from (zlen payload)) ResourceLimit in
    ok_or (match write_all writer (to_le_bytes 4 length) with
           | Some writer => write_all writer payload
           | None => None
           end) Io.

Definition read_frame {R} `{Reader R} (reader : R) : result (list u8 * R) TestProtocolError :=
  let? header := ok_or (read_exact reader 4) Io in
  let length := from_le_bytes header.1 in
  if MAX_FRAME_BYTES <? length then Err ResourceLimit
  else ok_or (read_exact header.2 length) Io.

(** ** host.rs: shared parts *)

Definition COMMAND_MAGIC : list u8 := lit "BRAYTSCM".
Definition CONTROL_MAGIC : list u8 := lit "BRAYTSCT".
Definition RESULT_MAGIC : list u8 := lit "BRAYTSRS".

(** [try_into] an array of 32 bytes. *)
Definition decode_digest : decodes (list u8) := fun d =>
  let? r := Decoder_get_bytes d in
  if zlen r.1 =? 32 then Ok r else Err Malformed.

Definition encode_timeout (timeout : TestTimeoutPolicy) (e : Encoder) : Encoder :=
  match timeout with
  | TimeoutUnlimited => Encoder_u8 0 e
  | TimeoutLimit limit => Encoder_u64 (TestDuration_0 limit) (Encoder_u8 1 e)
  end.

Definition decode_timeout : decodes TestTimeoutPolicy := fun d =>
  let? tag := Decoder_u8 d in
  if tag.1 =? 0 then Ok (TimeoutUnlimited, tag.2)
  else if tag.1 =? 1 then
    let? limit := Decoder_u64 tag.2 in
    Ok (TimeoutLimit {| TestDuration_0 := limit.1 |}, limit.2)
  else Err Malformed.

Definition encode_capture_policy (capture : TestCapturePolicy) (e : Encoder) : Encoder :=
  match capture with
  | PolicyCaptured limits =>
      Encoder_u64 (invocation_byte_limit limits) (Encoder_u64 (per_stream_byte_limit limits) (Encoder_u8 0 e))
  | PolicyInherited => Encoder_u8 1 e
  | PolicyDiscarded => Encoder_u8 2 e
  end.

Definition decode_capture_policy : decodes TestCapturePolicy := fun d =>
  let? tag := Decoder_u8 d in
  if tag.1 =? 0 then
    let? per_stream := Decoder_u64 tag.2 in
    let? invocation := Decoder_u64 per_stream.2 in
    Ok (PolicyCaptured {| per_stream_byte_limit := per_stream.1; invocation_byte_limit := invocation.1 |}, invocation.2)
  else if tag.1 =? 1 then Ok (PolicyInherited, tag.2)
  else if tag.1 =? 2 then Ok (PolicyDiscarded, tag.2)
  else Err Malformed.

Definition encode_source (source : TestSourceAnchor) : encodes := fun e =>
  let span := anchor_span source in
  let? e := Encoder_put_bytes (anchor_package source) e in
  Ok (Encoder_u64 (SourceVersion_raw (anchor_version source))
     (Encoder_u32 (SourceSpan_end span)
     (Encoder_u32 (SourceSpan_start span)
     (Encoder_u32 (SourceId_raw (SourceSpan_source_id span)) e)))).

(** [TextRange::new] asserts [start <= end], which has just been checked. *)
Definition decode_source : decodes TestSourceAnchor := fun d =>
  let? package := decode_digest d in
  let? raw := Decoder_u32 package.2 in
  let? source := ok_or (SourceId_stored raw.1) Malformed in
  let? start := Decoder_u32 raw.2 in
  let? end_ := Decoder_u32 start.2 in
  if end_.1 <? start.1 then Err Malformed
  else
    let? version := Decoder_u64 end_.2 in
    Ok ({| anchor_package := package.1;
           anchor_span := SourceSpan_new source {| SourceText.start := start.1; SourceText.end_ := end_.1 |};
           anchor_version := {| SourceVersion_raw := version.1 |} |}, version.2).

Definition encode_optional_source (source : option TestSourceAnchor) : encodes := fun e =>
  match source with
  | Some source => encode_source source (Encoder_u8 1 e)
  | None => Ok (Encoder_u8 0 e)
  end.

Definition decode_optional_source : decodes (option TestSourceAnchor) := fun d =>
  let? tag := Decoder_u8 d in
  if tag.1 =? 0 then Ok (None, tag.2)
  else if tag.1 =? 1 then let? source := decode_source tag.2 in Ok (Some source.1, source.2)
  else Err Malformed.

Definition encode_optional_string (value : option str) : encodes := fun e =>
  match value with
  | Some value => Encoder_string value (Encoder_u8 1 e)
  | None => Ok (Encoder_u8 0 e)
  end.

Definition decode_optional_string : decodes (option str) := fun d =>
  let? tag := Decoder_u8 d in
  if tag.1 =? 0 then Ok (None, tag.2)
  else if tag.1 =? 1 then let? value := Decoder_string tag.2 in Ok (Some value.1, value.2)
  else Err Malformed.

(** ** host.rs: outcomes *)

Definition infrastructure_code (kind : TestInfrastructureFailureKind) : u8 :=
  match kind with
  | InfraProtocol => 0 | InfraHost => 1 | InfraCapture => 2 | InfraResourceExhausted => 3 | InfraMissingOutcome => 4
  | InfraCleanup => 5 | InfraForcedTermination => 6
  end.

Definition infrastructure_kind (code : u8) : option TestInfrastructureFailureKind :=
  if code =? 0 then Some InfraProtocol else if code =? 1 then Some InfraHost else if code =? 2 then Some InfraCapture
  else if code =? 3 then Some InfraResourceExhausted else if code =? 4 then Some InfraMissingOutcome
  else if code =? 5 then Some InfraCleanup else if code =? 6 then Some InfraForcedTermination else None.

Definition encode_infrastructure_failure (failure : TestInfrastructureFailure) (e : Encoder) : Encoder :=
  let e := Encoder_u8 (infrastructure_code (infra_kind failure)) e in
  let e := match detail_code failure with
           | Some code => Encoder_u64 code (Encoder_u8 1 e)
           | None => Encoder_u8 0 e
           end in
  match host_termination failure with
  | None => Encoder_u8 0 e
  | Some (ExitCode code) => Encoder_u32 (cast_unsigned 32 code) (Encoder_u8 1 e)
  | Some (Signal signal) => Encoder_u64 (cast_unsigned 64 signal) (Encoder_u8 2 e)
  end.

Definition decode_detail : decodes (option u64) := fun d =>
  let? tag := Decoder_u8 d in
  if tag.1 =? 0 then Ok (None, tag.2)
  else if tag.1 =? 1 then let? code := Decoder_u64 tag.2 in Ok (Some code.1, code.2)
  else Err Malformed.

Definition decode_infrastructure_failure : decodes TestInfrastructureFailure := fun d =>
  let? code := Decoder_u8 d in
  let? kind := ok_or (infrastructure_kind code.1) Malformed in
  let? detail := decode_detail code.2 in
  let failure := TestInfrastructureFailure_new kind detail.1 in
  let? tag := Decoder_u8 detail.2 in
  if tag.1 =? 0 then Ok (failure, tag.2)
  else if tag.1 =? 1 then
    let? code := Decoder_u32 tag.2 in
    Ok (with_host_termination failure (ExitCode (cast_signed 32 code.1)), code.2)
  else if tag.1 =? 2 then
    let? signal := Decoder_u64 tag.2 in
    Ok (with_host_termination failure (Signal (cast_signed 64 signal.1)), signal.2)
  else Err Malformed.

Definition panic_code (cause : TestPanicCause) : u8 :=
  match cause with
  | PanicMessage => 0 | PanicAssertion => 1 | RuntimePanic => 3 | AllocationFailure => 4 | EntryFailure => 5
  | MemoryLayoutSizeOverflow => 6 | MemoryLayoutUnsupportedAlignment => 7
  end.

Definition panic_cause_of (code : u8) : option TestPanicCause :=
  if code =? 0 then Some PanicMessage else if code =? 1 then Some PanicAssertion else if code =? 3 then Some RuntimePanic
  else if code =? 4 then Some AllocationFailure else if code =? 5 then Some EntryFailure
  else if code =? 6 then Some MemoryLayoutSizeOverflow else if code =? 7 then Some MemoryLayoutUnsupportedAlignment else None.

Definition cancellation_code (source : TestCancellationSource) : u8 :=
  match source with CancelCommand => 0 | CancelInvocation => 1 end.

Definition cancellation_source (code : u8) : option TestCancellationSource :=
  if code =? 0 then Some CancelCommand else if code =? 1 then Some CancelInvocation else None.

Definition encode_outcome (outcome : TestOutcome) : encodes := fun e =>
  match outcome with
  | Passed => Ok (Encoder_u8 0 e)
  | ReturnedError error_type source formatted_value =>
      let? e := Encoder_string (TestErrorTypeIdentity_0 error_type) (Encoder_u8 1 e) in
      let? e := encode_optional_source source e in
      encode_optional_string formatted_value e
  | OutcomeExplicitFailure failure =>
      let? e := encode_optional_source (explicit_source failure) (Encoder_u8 2 e) in
      Encoder_string (explicit_message failure) e
  | OutcomeAssertionFailure failure =>
      let? e := encode_source (assertion_source failure) (Encoder_u8 3 e) in
      encode_optional_string (assertion_message failure) e
  | Panicked report =>
      let? e := encode_optional_source (panic_source report) (Encoder_u8 (panic_code (panic_cause report)) (Encoder_u8 4 e)) in
      Encoder_string (panic_message report) e
  | TimedOut limit => Ok (Encoder_u64 (TestDuration_0 limit) (Encoder_u8 5 e))
  | Cancelled source => Ok (Encoder_u8 (cancellation_code source) (Encoder_u8 6 e))
  | InfrastructureFailed failure => Ok (encode_infrastructure_failure failure (Encoder_u8 7 e))
  end.

Definition decode_outcome : decodes TestOutcome := fun d =>
  let? tag := Decoder_u8 d in
  let d := tag.2 in
  if tag.1 =? 0 then Ok (Passed, d)
  else if tag.1 =? 1 then
    let? text := Decoder_string d in
    let? error_type := ok_or (TestErrorTypeIdentity_try_new text.1) Malformed in
    let? source := decode_optional_source text.2 in
    let? value := decode_optional_string source.2 in
    Ok (ReturnedError error_type source.1 value.1, value.2)
  else if tag.1 =? 2 then
    let? source := decode_optional_source d in
    let? message := Decoder_string source.2 in
    Ok (OutcomeExplicitFailure {| explicit_source := source.1; explicit_message := message.1 |}, message.2)
  else if tag.1 =? 3 then
    let? source := decode_source d in
    let? message := decode_optional_string source.2 in
    Ok (OutcomeAssertionFailure match message.1 with
                                | Some message => AssertionFailure_with_message source.1 message
                                | None => AssertionFailure_without_message source.1
                                end, message.2)
  else if tag.1 =? 4 then
    let? code := Decoder_u8 d in
    let? cause := ok_or (panic_cause_of code.1) Malformed in
    let? source := decode_optional_source code.2 in
    let? message := Decoder_string source.2 in
    Ok (Panicked {| panic_cause := cause; panic_source := source.1; panic_message := message.1 |}, message.2)
  else if tag.1 =? 5 then
    let? limit := Decoder_u64 d in
    Ok (TimedOut {| TestDuration_0 := limit.1 |}, limit.2)
  else if tag.1 =? 6 then
    let? code := Decoder_u8 d in
    let? source := ok_or (cancellation_source code.1) Malformed in
    Ok (Cancelled source, code.2)
  else if tag.1 =? 7 then
    let? failure := decode_infrastructure_failure d in
    Ok (InfrastructureFailed failure.1, failure.2)
  else Err Malformed.

(** ** host.rs: streams *)

Definition stream_policy_code (policy : CapturedStreamPolicy) : u8 :=
  match policy with StreamCaptured => 0 | StreamInherited => 1 | StreamDiscarded => 2 end.

Definition stream_failure_code (kind : TestStreamFailureKind) : u8 :=
  match kind with StreamResourceExhausted => 0 | SinkUnavailable => 1 | StreamPlatform => 2 end.

Definition stream_failure_kind_of (code : u8) : option TestStreamFailureKind :=
  if code =? 0 then Some StreamResourceExhausted else if code =? 1 then Some SinkUnavailable
  else if code =? 2 then Some StreamPlatform else None.

Definition encode_stream_failure (failure : option TestStreamFailure) (e : Encoder) : Encoder :=
  match failure with
  | Some failure =>
      let e := Encoder_u8 (stream_failure_code (stream_failure_kind failure)) (Encoder_u8 1 e) in
      match platform_code failure with
      | Some code => Encoder_u64 (cast_unsigned 64 code) (Encoder_u8 1 e)
      | None => Encoder_u8 0 e
      end
  | None => Encoder_u8 0 e
  end.

Definition encode_stream (stream : CapturedStream) : encodes := fun e =>
  let? e := Encoder_put_bytes (stream_bytes stream) (Encoder_u8 (stream_policy_code (stream_policy stream)) e) in
  Ok (encode_stream_failure (stream_failure stream) (Encoder_u64 (discarded_byte_count stream) e)).

Definition decode_platform_code : decodes (option Z) := fun d =>
  let? tag := Decoder_u8 d in
  if tag.1 =? 0 then Ok (None, tag.2)
  else if tag.1 =? 1 then let? code := Decoder_u64 tag.2 in Ok (Some (cast_signed 64 code.1), code.2)
  else Err Malformed.

Definition decode_stream_failure : decodes (option TestStreamFailure) := fun d =>
  let? tag := Decoder_u8 d in
  if tag.1 =? 0 then Ok (None, tag.2)
  else if tag.1 =? 1 then
    let? code := Decoder_u8 tag.2 in
    let? kind := ok_or (stream_failure_kind_of code.1) Malformed in
    let? platform := decode_platform_code code.2 in
    Ok (Some {| stream_failure_kind := kind; platform_code := platform.1 |}, platform.2)
  else Err Malformed.

Definition decode_stream : decodes CapturedStream := fun d =>
  let? policy := Decoder_u8 d in
  let? bytes := Decoder_get_bytes policy.2 in
  let? discarded := Decoder_u64 bytes.2 in
  let? failure := decode_stream_failure discarded.2 in
  let empty := bool_decide (bytes.1 = []) && (discarded.1 =? 0) in
  if policy.1 =? 0 then Ok (CapturedStream_captured bytes.1 discarded.1 failure.1, failure.2)
  else if (policy.1 =? 1) && empty then Ok (CapturedStream_inherited failure.1, failure.2)
  else if (policy.1 =? 2) && empty && negb (bool_decide (is_Some failure.1)) then Ok (CapturedStream_discarded, failure.2)
  else Err Malformed.

(** ** host.rs: messages *)

Definition encode_host_command (command : TestHostCommand) : result (list u8) TestProtocolError :=
  let? e := Encoder_put_bytes (TestHostCommandId_0 (command_id command)) (Encoder_new COMMAND_MAGIC) in
  let? e := Encoder_put_bytes (TestCatalogDigest_0 (command_catalog_digest command)) e in
  let e := Encoder_u32 (TestCatalogEntryId_0 (command_entry command)) e in
  let e := encode_capture_policy (command_capture command) (encode_timeout (command_timeout command) e) in
  let? e := encode_optional_error_type (command_error_type command) e in
  Encoder_finish e.

Definition write_host_command {W} `{Writer W} (writer : W) (command : TestHostCommand) : result W TestProtocolError :=
  let? payload := encode_host_command command in
  write_frame writer payload.

Definition decode_host_command (payload : list u8) : result TestHostCommand TestProtocolError :=
  let? d := Decoder_new payload COMMAND_MAGIC in
  let? id := decode_digest d in
  let? digest := decode_digest id.2 in
  let? entry := Decoder_u32 digest.2 in
  let? timeout := decode_timeout entry.2 in
  let? capture := decode_capture_policy timeout.2 in
  let? error_type := decode_optional_error_type capture.2 in
  let? _ := Decoder_finish error_type.2 in
  Ok {| command_id := {| TestHostCommandId_0 := id.1 |}; command_catalog_digest := {| TestCatalogDigest_0 := digest.1 |};
        command_entry := {| TestCatalogEntryId_0 := entry.1 |}; command_timeout := timeout.1; command_capture := capture.1;
        command_error_type := error_type.1 |}.

Definition read_host_command {R} `{Reader R} (reader : R) : result (TestHostCommand * R) TestProtocolError :=
  let? payload := read_frame reader in
  let? command := decode_host_command payload.1 in
  Ok (command, payload.2).

Definition encode_host_control (control : TestHostControl) : result (list u8) TestProtocolError :=
  Encoder_finish (Encoder_u8 match control with Cancel => 0 end (Encoder_new CONTROL_MAGIC)).

Definition write_host_control {W} `{Writer W} (writer : W) (control : TestHostControl) : result W TestProtocolError :=
  let? payload := encode_host_control control in
  write_frame writer payload.

Definition decode_host_control (payload : list u8) : result TestHostControl TestProtocolError :=
  let? d := Decoder_new payload CONTROL_MAGIC in
  let? tag := Decoder_u8 d in
  if tag.1 =? 0 then let? _ := Decoder_finish tag.2 in Ok Cancel else Err Malformed.

Definition read_host_control {R} `{Reader R} (reader : R) : result (TestHostControl * R) TestProtocolError :=
  let? payload := read_frame reader in
  let? control := decode_host_control payload.1 in
  Ok (control, payload.2).

(** A loop that encodes or decodes items in turn. *)
Fixpoint encode_all {A} (encode : A -> encodes) (items : list A) : encodes := fun e =>
  match items with
  | [] => Ok e
  | item :: items => let? e := encode item e in encode_all encode items e
  end.

Fixpoint decode_many {A} (decode : decodes A) (count : nat) : decodes (list A) := fun d =>
  match count with
  | O => Ok ([], d)
  | S count =>
      let? item := decode d in
      let? items := decode_many decode count item.2 in
      Ok (item.1 :: items.1, items.2)
  end.

Definition encode_host_result (r : TestHostResult) : result (list u8) TestProtocolError :=
  let? e := Encoder_put_bytes (TestHostCommandId_0 (hr_command_id r)) (Encoder_new RESULT_MAGIC) in
  let? e := Encoder_put_bytes (TestCatalogDigest_0 (hr_catalog_digest r)) e in
  let? e := encode_outcome (hr_outcome r) e in
  let? e := Encoder_length (zlen (hr_suppressed r)) e in
  let? e := encode_all encode_outcome (hr_suppressed r) e in
  let? e := encode_stream (hr_standard_output r) e in
  let? e := encode_stream (hr_standard_error r) e in
  Encoder_finish e.

Definition write_host_result {W} `{Writer W} (writer : W) (r : TestHostResult) : result W TestProtocolError :=
  let? payload := encode_host_result r in
  write_frame writer payload.

Definition decode_host_result (payload : list u8) : result TestHostResult TestProtocolError :=
  let? d := Decoder_new payload RESULT_MAGIC in
  let? id := decode_digest d in
  let? digest := decode_digest id.2 in
  let? outcome := decode_outcome digest.2 in
  let? count := Decoder_length outcome.2 in
  let? suppressed := decode_many decode_outcome (Z.to_nat count.1) count.2 in
  let? output := decode_stream suppressed.2 in
  let? error := decode_stream output.2 in
  let? _ := Decoder_finish error.2 in
  Ok (TestHostResult_with_suppressed
        (TestHostResult_after_cleanup {| TestHostCommandId_0 := id.1 |} {| TestCatalogDigest_0 := digest.1 |}
           outcome.1 output.1 error.1) suppressed.1).

Definition read_host_result {R} `{Reader R} (reader : R) : result (TestHostResult * R) TestProtocolError :=
  let? payload := read_frame reader in
  let? r := decode_host_result payload.1 in
  Ok (r, payload.2).

(** ** catalog.rs *)

Definition CATALOG_MAGIC : list u8 := lit "BRAYTSTC".

Inductive TestCatalogDecodeError := DecodeProtocol (e : TestProtocolError) | DecodeEntries (e : TestCatalogBuildError).

Definition execution_code (x : CallableExecution) : u8 := match x with Synchronous => 0 | Asynchronous => 1 end.
Definition constraint_code (x : TestExecutionConstraint) : u8 := match x with Parallel => 0 | Serial => 1 end.
Definition shape_code (x : TestResultShape) : u8 := match x with ShapeUnit => 0 | ShapeRecoverable => 1 end.

Definition execution_of (code : u8) : option CallableExecution :=
  if code =? 0 then Some Synchronous else if code =? 1 then Some Asynchronous else None.
Definition constraint_of (code : u8) : option TestExecutionConstraint :=
  if code =? 0 then Some Parallel else if code =? 1 then Some Serial else None.
Definition shape_of_code (code : u8) : option TestResultShape :=
  if code =? 0 then Some ShapeUnit else if code =? 1 then Some ShapeRecoverable else None.

Definition encode_product (product : ProductIdentity) : encodes := fun e =>
  let? e := Encoder_string (PackageIdentity_as_str (product_package product)) e in
  Encoder_string (ProductIdentity_name product) e.

Definition decode_product : decodes ProductIdentity := fun d =>
  let? package := Decoder_string d in
  let? identity := ok_or (PackageIdentity_try_new package.1) Malformed in
  let? name := Decoder_string package.2 in
  let? product := ok_or (ProductIdentity_try_new identity name.1) Malformed in
  Ok (product, name.2).

Definition encode_entry (entry : TestEntryMetadata) : encodes := fun e =>
  let path := id_declaration (entry_identity entry) in
  let segments := ModulePathKey_segments (path_module path) in
  let? e := Encoder_length (zlen segments) e in
  let? e := encode_all Encoder_string segments e in
  let? e := Encoder_string (SymbolName_as_str (path_name path)) e in
  let? e := encode_source (entry_source entry) e in
  let e := Encoder_u8 (execution_code (entry_execution entry)) e in
  let e := Encoder_u8 (constraint_code (entry_constraint entry)) e in
  let e := Encoder_u8 (shape_code (entry_result entry)) e in
  encode_optional_error_type (entry_error_type entry) e.

(** One [match decoder.u8()? { .. }] over a table of codes. *)
Definition decode_code {A} (of_code : u8 -> option A) : decodes A := fun d =>
  let? code := Decoder_u8 d in
  let? x := ok_or (of_code code.1) Malformed in
  Ok (x, code.2).

Definition decode_entry (product : ProductIdentity) : decodes TestEntryMetadata := fun d =>
  let? count := Decoder_length d in
  if count.1 =? 0 then Err Malformed
  else
    let? segments := decode_many Decoder_string (Z.to_nat count.1) count.2 in
    let? module := ok_or (ModulePathKey_try_new segments.1) Malformed in
    let? text := Decoder_string segments.2 in
    let? name := ok_or (SymbolName_try_new text.1) Malformed in
    let? source := decode_source text.2 in
    let? execution := decode_code execution_of source.2 in
    let? constraint := decode_code constraint_of execution.2 in
    let? shape := decode_code shape_of_code constraint.2 in
    let? error_type := decode_optional_error_type shape.2 in
    Ok ({| entry_identity := {| id_product := product; id_declaration := {| path_module := module; path_name := name |} |};
           entry_source := source.1; entry_execution := execution.1; entry_constraint := constraint.1;
           entry_result := shape.1; entry_error_type := error_type.1 |}, error_type.2).

Definition encode_catalog_bytes (catalog : TestCatalog) : result (list u8) TestProtocolError :=
  let? e := encode_product (catalog_product catalog) (Encoder_new CATALOG_MAGIC) in
  let? e := Encoder_length (zlen (catalog_entries catalog)) e in
  let? e := encode_all encode_entry (catalog_entries catalog) e in
  Encoder_finish e.

Definition decode_catalog_bytes (bytes : list u8) : result (ProductIdentity * list TestEntryMetadata) TestProtocolError :=
  let? d := Decoder_new bytes CATALOG_MAGIC in
  let? product := decode_product d in
  let? count := Decoder_length product.2 in
  if MAX_COLLECTION_ITEMS <? count.1 then Err ResourceLimit
  else
    let? entries := decode_many (decode_entry product.1) (Z.to_nat count.1) count.2 in
    let? _ := Decoder_finish entries.2 in
    Ok (product.1, entries.1).

Section catalog.
(** The stable digest of a byte string (32 bytes). *)
Context (digest : list u8 -> list u8).

Definition encode_test_catalog (catalog : TestCatalog) : result (list u8 * TestCatalogDigest) TestProtocolError :=
  let? bytes := encode_catalog_bytes catalog in
  Ok (bytes, {| TestCatalogDigest_0 := digest bytes |}).

(** A product mismatch after decoding is a panic. *)
Definition decode_test_catalog (bytes : list u8) : outcome (result (TestCatalog * TestCatalogDigest) TestCatalogDecodeError) :=
  match decode_catalog_bytes bytes with
  | Err e => Ret (Err (DecodeProtocol e))
  | Ok (product, entries) =>
      match TestCatalog_try_new product entries with
      | Err (ProductMismatch _) => Panic
      | Err e => Ret (Err (DecodeEntries e))
      | Ok catalog => Ret (Ok (catalog, {| TestCatalogDigest_0 := digest bytes |}))
      end
  end.
End catalog.
