(* ===== verification/TestWire.v ===== *)
(** * The wire formats of the test protocol

    Each record of [TestCodec] has a format: the values it can carry and the bytes
    it carries them as, written down independently of the encoders and decoders.
    An encoder writes the format of every value it accepts; a decoder accepts
    exactly the formatted values.  Round trips and canonicity follow. *)

From Stdlib Require Import ZArith Lia String Sorting.Permutation.
From stdpp Require Import base option relations list.
From S2P Require Import Prelude Utf8 SourceText Order Base TestModel TestCatalog TestCodec.

(** ** Formats *)

(** The decoder stands before [rest], within a frame. *)
Definition here (d : Decoder) (rest : list u8) : Prop :=
  0 <= decoder_position d <= zlen (decoder_bytes d) /\ zdrop (decoder_position d) (decoder_bytes d) = rest /\
  zlen (decoder_bytes d) <= MAX_FRAME_BYTES /\ Forall in_u8 (decoder_bytes d).

(** [dec] accepts exactly the values satisfying [ok], formatted by [wire]. *)
Record reads {A} (ok : A -> Prop) (wire : A -> list u8) (dec : Decoder -> result (A * Decoder) TestProtocolError) : Prop := {
  reads_accept : forall x d post, ok x -> here d (wire x ++ post) -> exists d', dec d = Ok (x, d') /\ here d' post;
  reads_exact : forall d l x d', here d l -> dec d = Ok (x, d') -> ok x /\ exists post, l = wire x ++ post /\ here d' post;
}.

(** [enc] appends the format of a value, and accepts a value that can exist
    ([typed]) within the frame limit only if it is one the format carries. *)
Record writes {A} (typed ok : A -> Prop) (wire : A -> list u8) (enc : A -> Encoder -> result Encoder TestProtocolError) : Prop := {
  writes_ok : forall x e, ok x -> enc x e = Ok (Encoder_extend e (wire x));
  writes_typed : forall x e e', typed x -> enc x e = Ok e' -> zlen (encoder_bytes e') <= MAX_FRAME_BYTES ->
    ok x /\ e' = Encoder_extend e (wire x);
}.

Arguments reads_accept {A ok wire dec}.
Arguments reads_exact {A ok wire dec}.
Arguments writes_ok {A typed ok wire enc}.
Arguments writes_typed {A typed ok wire enc}.

(** One decoding step in a goal, with the value read. *)
Ltac accept F x :=
  match goal with
  | Hd : here ?d0 _ |- context [result_bind (_ ?d0) _] =>
      let d' := fresh "d" in let Hd' := fresh "Hd" in let E := fresh in
      edestruct (reads_accept F x) as (d' & E & Hd'); [|exact Hd|]; [|rewrite E; cbn [result_bind fst snd]; clear E Hd; rename Hd' into Hd]
  end.

(** One decoding step in a hypothesis: the value read, the decoder after it,
    and the bytes left. *)
Tactic Notation "step" constr(F) "in" ident(H) "as" ident(v) ident(d1) ident(Hv) ident(post) :=
  match type of H with
  | result_bind (?dec ?d0) _ = _ =>
      match goal with
      | Hd : here d0 _ |- _ =>
          let E := fresh in let Hp := fresh in let Hd1 := fresh "Hd" in
          destruct (dec d0) as [[v d1]|] eqn:E; [|discriminate H]; cbn [result_bind fst snd] in H;
          apply (reads_exact F _ _ _ _ Hd) in E as (Hv & post & Hp & Hd1); subst
      end
  end.

Lemma here_bytes d l : here d l -> Forall in_u8 l.
Proof. intros (_ & <- & _ & Hf). unfold zdrop. by apply Forall_drop. Qed.

Lemma here_length d l : here d l -> zlen l = zlen (decoder_bytes d) - decoder_position d.
Proof. intros (Hp & <- & _). unfold zlen, zdrop in *. rewrite length_drop. lia. Qed.

Lemma extend_extend e a b : Encoder_extend (Encoder_extend e a) b = Encoder_extend e (a ++ b).
Proof. unfold Encoder_extend. simpl. by rewrite app_assoc. Qed.

Lemma extend_length e a : zlen (encoder_bytes (Encoder_extend e a)) = zlen (encoder_bytes e) + zlen a.
Proof. unfold Encoder_extend. simpl. apply zlen_app. Qed.

(** ** Integers *)

Lemma cast_round_trip bits v :
  0 < bits -> - 2 ^ (bits - 1) <= v < 2 ^ (bits - 1) -> cast_signed bits (cast_unsigned bits v) = v /\ 0 <= cast_unsigned bits v < 2 ^ bits.
Proof.
  intros Hb Hv. assert (2 ^ bits = 2 * 2 ^ (bits - 1)) as E by (rewrite <- Z.pow_succ_r by lia; f_equal; lia).
  unfold cast_signed, cast_unsigned. assert (0 < 2 ^ (bits - 1)) by (apply Z.pow_pos_nonneg; lia).
  split; [|apply Z.mod_pos_bound; lia]. destruct (Z.lt_ge_cases v 0).
  - assert (v mod 2 ^ bits = v + 2 ^ bits) as -> by (rewrite <- (Z.mod_add v 1), Z.mod_small; lia).
    destruct (_ <? _) eqn:E2; lia.
  - rewrite Z.mod_small by lia. destruct (_ <? _) eqn:E2; lia.
Qed.

Lemma cast_signed_range bits v :
  0 < bits -> 0 <= v < 2 ^ bits -> - 2 ^ (bits - 1) <= cast_signed bits v < 2 ^ (bits - 1) /\ cast_unsigned bits (cast_signed bits v) = v.
Proof.
  intros Hb Hv. assert (2 ^ bits = 2 * 2 ^ (bits - 1)) as E by (rewrite <- Z.pow_succ_r by lia; f_equal; lia).
  unfold cast_signed, cast_unsigned. destruct (v <? 2 ^ (bits - 1)) eqn:E2; (split; [lia|]).
  - apply Z.mod_small. lia.
  - rewrite <- (Z.mod_add _ 1), Z.mod_small by lia. lia.
Qed.

(** ** Primitives *)

Lemma take_accept n d bytes post :
  n = zlen bytes -> here d (bytes ++ post) -> exists d', Decoder_take n d = Ok (bytes, d') /\ here d' post.
Proof.
  intros -> Hd. pose proof (here_length _ _ Hd) as Hl. destruct Hd as (Hp & Hz & Hm & Hf). rewrite zlen_app in Hl.
  pose proof (zlen_nonneg post). pose proof (zlen_nonneg bytes). unfold MAX_FRAME_BYTES in *.
  unfold Decoder_take, usize_checked_add. rewrite checked_ok by (unfold USIZE_MAX; lia). cbn [ok_or result_bind].
  rewrite get_range_ok by lia. cbn [ok_or result_bind]. rewrite Hz, ztake_app by lia.
  eexists. split; [done|]. unfold here, MAX_FRAME_BYTES. cbn [Decoder_at decoder_bytes decoder_position].
  split_and!; [lia|lia| |lia|done]. rewrite <- zdrop_zdrop, Hz by lia. by rewrite zdrop_app.
Qed.

Lemma take_exact n d l bytes d' :
  0 <= n -> here d l -> Decoder_take n d = Ok (bytes, d') -> zlen bytes = n /\ exists post, l = bytes ++ post /\ here d' post.
Proof.
  intros Hn Hd. pose proof (here_length _ _ Hd) as Hl. destruct Hd as (Hp & Hz & Hm & Hf).
  unfold Decoder_take, usize_checked_add. destruct (checked _ _) as [e|] eqn:Ec; [|done]. cbn [ok_or result_bind].
  apply checked_Some in Ec as [-> _]. destruct (get_range _ _ _) as [b|] eqn:Eg; [|done]. cbn [ok_or result_bind].
  intros [= <- <-]. apply get_range_Some in Eg as (_ & Hle & ->). rewrite Hz. replace (_ + n - _) with n by lia. split.
  - unfold zlen, ztake in *. rewrite length_take. lia.
  - exists (zdrop n l). split; [by rewrite ztake_zdrop|]. unfold here. cbn [Decoder_at decoder_bytes decoder_position].
    split_and!; [lia|lia| |done|done]. rewrite <- Hz. by rewrite zdrop_zdrop by lia.
Qed.

Definition wire_u8 (v : u8) : list u8 := [v].
Definition wire_u32 (v : u32) : list u8 := to_le_bytes 4 v.
Definition wire_u64 (v : u64) : list u8 := to_le_bytes 8 v.

Lemma u8_reads : reads in_u8 wire_u8 Decoder_u8.
Proof.
  split.
  - intros x d post Hx Hd. pose proof (here_length _ _ Hd) as Hl. destruct Hd as (Hp & Hz & Hm & Hf). unfold wire_u8 in *. cbn [app] in *.
    rewrite zlen_cons in Hl. pose proof (zlen_nonneg post).
    assert (get (decoder_bytes d) (decoder_position d) = Some x) as Hg.
    { pose proof (get_zdrop (decoder_position d) (decoder_bytes d) 0 ltac:(lia) ltac:(lia)) as Hg. rewrite Hz, Z.add_0_r in Hg. by rewrite <- Hg. }
    unfold Decoder_u8. rewrite Hg. cbn [ok_or result_bind]. eexists. split; [done|]. unfold here. cbn [Decoder_at decoder_bytes decoder_position].
    split_and!; [lia|lia| |done|done]. rewrite (zdrop_cons_get _ _ _ Hg) in Hz. by injection Hz.
  - intros d l x d' Hd. pose proof (here_bytes _ _ Hd) as Hb. destruct Hd as (Hp & Hz & Hm & Hf). unfold Decoder_u8.
    destruct (get (decoder_bytes d) (decoder_position d)) as [v|] eqn:Hg; [|done]. cbn [ok_or result_bind]. intros [= <- <-].
    pose proof (get_Some_range _ _ _ Hg). rewrite (zdrop_cons_get _ _ _ Hg) in Hz. subst l. inversion Hb; subst. split; [done|].
    eexists. split; [done|]. unfold here. cbn [Decoder_at decoder_bytes decoder_position]. split_and!; [lia|lia|done|done|done].
Qed.

Lemma int_reads width max (dec : Decoder -> result (Z * Decoder) TestProtocolError) :
  256 ^ Z.of_nat width = max + 1 ->
  (forall d, dec d = let? r := Decoder_take (Z.of_nat width) d in Ok (from_le_bytes r.1, r.2)) ->
  reads (fun v => 0 <= v <= max) (to_le_bytes width) dec.
Proof.
  intros Hmax Hdec. split.
  - intros x d post Hx Hd. rewrite Hdec. destruct (take_accept (Z.of_nat width) d (to_le_bytes width x) post) as (d' & -> & Hd').
    + unfold zlen. by rewrite to_le_bytes_length.
    + done.
    + cbn [result_bind fst snd]. exists d'. split; [|done]. rewrite from_to_le_bytes; [done|]. rewrite Hmax. lia.
  - intros d l x d' Hd. rewrite Hdec. destruct (Decoder_take _ d) as [[bytes d1]|] eqn:Et; [|done]. cbn [result_bind fst snd].
    intros [= <- <-]. apply (take_exact (Z.of_nat width) _ _ _ _ ltac:(lia) Hd) in Et as (Hlen & post & -> & Hd1).
    pose proof (here_bytes _ _ Hd) as Hb. apply Forall_app in Hb as [Hb _]. pose proof (from_le_bytes_range _ Hb) as Hr. rewrite Hlen, Hmax in Hr.
    split; [lia|]. exists post. split; [|done]. f_equal. rewrite <- (to_from_le_bytes bytes Hb) at 1. f_equal. unfold zlen in Hlen. lia.
Qed.

Lemma u32_reads : reads in_u32 wire_u32 Decoder_u32.
Proof. by apply (int_reads 4 U32_MAX). Qed.

Lemma u64_reads : reads in_u64 wire_u64 Decoder_u64.
Proof. by apply (int_reads 8 U64_MAX). Qed.

Lemma u8_writes : writes in_u8 in_u8 wire_u8 (fun v e => Ok (Encoder_u8 v e)).
Proof. split; [done|]. intros x e e' Hx [= <-] _. done. Qed.

Lemma u32_writes : writes in_u32 in_u32 wire_u32 (fun v e => Ok (Encoder_u32 v e)).
Proof. split; [done|]. intros x e e' Hx [= <-] _. done. Qed.

Lemma u64_writes : writes in_u64 in_u64 wire_u64 (fun v e => Ok (Encoder_u64 v e)).
Proof. split; [done|]. intros x e e' Hx [= <-] _. done. Qed.

(** *** Byte strings, text and collection lengths *)

Definition wire_bytes (b : list u8) : list u8 := wire_u32 (zlen b) ++ b.
Definition bytes_ok (b : list u8) : Prop := Forall in_u8 b /\ zlen b <= MAX_FRAME_BYTES.
Definition text_ok (s : str) : Prop := valid_utf8 s /\ zlen s <= MAX_STRING_BYTES.
Definition digest_ok (b : list u8) : Prop := Forall in_u8 b /\ zlen b = 32.
Definition count_ok (n : Z) : Prop := 0 <= n <= MAX_COLLECTION_ITEMS.

Lemma bytes_reads : reads bytes_ok wire_bytes Decoder_get_bytes.
Proof.
  split.
  - intros x d post [Hf Hm] Hd. unfold wire_bytes in Hd. rewrite <- app_assoc in Hd. unfold Decoder_get_bytes. pose proof (zlen_nonneg x).
    accept u32_reads (zlen x); [split; [done|]; unfold MAX_FRAME_BYTES, U32_MAX in *; lia|].
    rewrite (proj2 (Z.ltb_ge _ _)) by lia. by apply take_accept.
  - intros d l x d' Hd H. unfold Decoder_get_bytes in H. step u32_reads in H as n d1 Hn post.
    destruct (MAX_FRAME_BYTES <? n) eqn:E; [done|]. destruct Hn as [Hn _].
    apply (take_exact _ _ _ _ _ Hn Hd0) in H as (Hlen & post' & -> & Hd').
    pose proof (here_bytes _ _ Hd) as Hb. apply Forall_app in Hb as [_ Hb]. apply Forall_app in Hb as [Hb _].
    split; [split; [done|lia]|]. exists post'. split; [|done]. unfold wire_bytes. rewrite <- app_assoc. by rewrite Hlen.
Qed.

Lemma text_reads : reads text_ok wire_bytes Decoder_string.
Proof.
  split.
  - intros x d post [Hu Hm] Hd. unfold Decoder_string. pose proof (valid_utf8_bytes _ Hu).
    accept bytes_reads x; [split; [done|]; unfold MAX_STRING_BYTES, MAX_FRAME_BYTES in *; lia|].
    rewrite (proj2 (Z.ltb_ge _ _)) by lia. rewrite from_utf8_valid by done. cbn [map_err result_bind]. by exists d0.
  - intros d l x d' Hd H. unfold Decoder_string in H. step bytes_reads in H as b d1 Hb post. destruct Hb as [Hb _].
    destruct (MAX_STRING_BYTES <? zlen b) eqn:E; [done|]. pose proof (from_utf8_spec b Hb) as Hu.
    destruct (from_utf8 b) as [t|]; [|done]. destruct Hu as [-> Hu]. injection H as <- <-. split; [split; [done|lia]|]. by exists post.
Qed.

Lemma digest_reads : reads digest_ok wire_bytes decode_digest.
Proof.
  split.
  - intros x d post [Hf Hl] Hd. unfold decode_digest. accept bytes_reads x; [split; [done|]; rewrite Hl; done|].
    rewrite Hl. by exists d0.
  - intros d l x d' Hd H. unfold decode_digest in H. step bytes_reads in H as b d1 Hb post.
    destruct (zlen b =? 32) eqn:E; [|done]. injection H as <- <-. split; [split; [apply Hb|lia]|]. by exists post.
Qed.

Lemma count_reads : reads count_ok wire_u32 Decoder_length.
Proof.
  split.
  - intros x d post Hx Hd. unfold count_ok, MAX_COLLECTION_ITEMS in Hx. unfold Decoder_length.
    accept u32_reads x; [split; [lia|]; unfold U32_MAX; lia|]. unfold MAX_COLLECTION_ITEMS.
    rewrite (proj2 (Z.ltb_ge _ _)) by lia. by exists d0.
  - intros d l x d' Hd H. unfold Decoder_length in H. step u32_reads in H as n d1 Hn post.
    destruct (MAX_COLLECTION_ITEMS <? n) eqn:E; [done|]. injection H as <- <-. split; [split; [apply Hn|lia]|]. by exists post.
Qed.

Lemma bytes_writes : writes (Forall in_u8) bytes_ok wire_bytes Encoder_put_bytes.
Proof.
  assert (forall x e, Encoder_put_bytes x e =
    if zlen x <=? U32_MAX then Ok (Encoder_extend e (wire_bytes x)) else Err ResourceLimit) as Henc.
  { intros x e. unfold Encoder_put_bytes, Encoder_length, u32_try_from, checked. pose proof (zlen_nonneg x).
    rewrite (proj2 (Z.leb_le 0 (zlen x))) by lia. simpl. destruct (zlen x <=? U32_MAX); [|done]. cbn [ok_or result_bind].
    unfold Encoder_u32. by rewrite extend_extend. }
  split.
  - intros x e [Hf Hm]. rewrite Henc, (proj2 (Z.leb_le _ _)); [done|]. unfold MAX_FRAME_BYTES, U32_MAX in *. lia.
  - intros x e e' Hf. rewrite Henc. destruct (zlen x <=? U32_MAX); [|done]. intros [= <-] Hm. split; [|done]. split; [done|].
    rewrite extend_length in Hm. unfold wire_bytes in Hm. rewrite zlen_app in Hm. pose proof (zlen_nonneg (encoder_bytes e)).
    pose proof (zlen_nonneg (wire_u32 (zlen x))). lia.
Qed.

Lemma text_writes : writes valid_utf8 text_ok wire_bytes Encoder_string.
Proof.
  split.
  - intros x e [Hu Hm]. unfold Encoder_string. rewrite (proj2 (Z.ltb_ge _ _)) by lia. apply bytes_writes. split; [by apply valid_utf8_bytes|].
    unfold MAX_STRING_BYTES, MAX_FRAME_BYTES in *. lia.
  - intros x e e' Hu. unfold Encoder_string. destruct (MAX_STRING_BYTES <? zlen x) eqn:E; [done|]. intros H Hm.
    apply (writes_typed bytes_writes) in H as [_ ->]; [|by apply valid_utf8_bytes|done]. split; [split; [done|lia]|done].
Qed.

Lemma digest_writes : writes digest_ok digest_ok wire_bytes Encoder_put_bytes.
Proof.
  assert (forall x, digest_ok x -> bytes_ok x) as Hx by (intros x [Hf Hl]; split; [done|rewrite Hl; done]).
  split; [intros x e Hd; by apply bytes_writes, Hx|]. intros x e e' Hd H Hm.
  apply (writes_typed bytes_writes) in H as [_ ->]; [done|apply Hd|done].
Qed.

(** *** Options and repeated items *)

Definition wire_option {A} (wire : A -> list u8) (o : option A) : list u8 :=
  match o with Some x => 1 :: wire x | None => [0] end.

Definition option_ok {A} (ok : A -> Prop) (o : option A) : Prop := match o with Some x => ok x | None => True end.

Lemma option_reads {A} (ok : A -> Prop) wire dec (optional : Decoder -> result (option A * Decoder) TestProtocolError) :
  reads ok wire dec ->
  (forall d, optional d = let? tag := Decoder_u8 d in
     if tag.1 =? 0 then Ok (None, tag.2)
     else if tag.1 =? 1 then let? x := dec tag.2 in Ok (Some x.1, x.2) else Err Malformed) ->
  reads (option_ok ok) (wire_option wire) optional.
Proof.
  intros F Hopt. split.
  - intros [x|] d post Hx Hd; rewrite Hopt; unfold wire_option in Hd.
    + change ((1 :: wire x) ++ post) with (wire_u8 1 ++ wire x ++ post) in Hd. accept u8_reads 1; [done|].
      cbn [Z.eqb Pos.eqb]. accept F x; [done|]. by exists d1.
    + accept u8_reads 0; [done|]. by exists d0.
  - intros d l x d' Hd H. rewrite Hopt in H. step u8_reads in H as t d1 Ht post.
    destruct (t =? 0) eqn:E0; [|destruct (t =? 1) eqn:E1; [|done]].
    + injection H as <- <-. replace t with 0 by lia. split; [done|]. by exists post.
    + step F in H as v d2 Hv post2. injection H as <- <-. replace t with 1 by lia. split; [done|]. by exists post2.
Qed.

Lemma option_writes {A} (typed ok : A -> Prop) wire enc (optional : option A -> Encoder -> result Encoder TestProtocolError) :
  writes typed ok wire enc ->
  (forall o e, optional o e = match o with Some x => enc x (Encoder_u8 1 e) | None => Ok (Encoder_u8 0 e) end) ->
  writes (option_ok typed) (option_ok ok) (wire_option wire) optional.
Proof.
  intros F Hopt. split.
  - intros [x|] e Hx; rewrite Hopt; [|done]. rewrite (writes_ok F) by done. unfold Encoder_u8. by rewrite extend_extend.
  - intros [x|] e e' Hx; rewrite Hopt; [|by intros [= <-]]. intros H Hm. apply (writes_typed F) in H as [Hok ->]; [|done|done].
    split; [done|]. unfold Encoder_u8. by rewrite extend_extend.
Qed.

Definition wire_all {A} (wire : A -> list u8) (l : list A) : list u8 := concat (map wire l).

Lemma many_reads {A} (ok : A -> Prop) wire dec count :
  reads ok wire dec -> reads (fun l => length l = count /\ Forall ok l) (wire_all wire) (decode_many dec count).
Proof.
  intros F. induction count as [|count IH]; split.
  - intros x d post [Hl _] Hd. destruct x; [|done]. by exists d.
  - intros d l x d' Hd [= <- <-]. split; [done|]. by exists l.
  - intros [|x l] d post [Hl Hf] Hd; [done|]. inversion Hf; subst. unfold wire_all in Hd. cbn [map concat] in Hd. rewrite <- app_assoc in Hd.
    cbn [decode_many]. accept F x; [done|]. accept IH l; [split; [by injection Hl|done]|]. by exists d1.
  - intros d l x d' Hd H. cbn [decode_many] in H. step F in H as v d1 Hv post. step IH in H as vs d2 Hvs post2.
    injection H as <- <-. destruct Hvs as [<- Hvs]. split; [split; [done|by constructor]|]. exists post2. split; [|done].
    unfold wire_all. cbn [map concat]. by rewrite <- app_assoc.
Qed.

Lemma all_writes {A} (typed ok : A -> Prop) wire enc :
  writes typed ok wire enc -> writes (Forall typed) (Forall ok) (wire_all wire) (encode_all enc).
Proof.
  intros F. split.
  - induction x as [|x l IH]; intros e Hf; [by destruct e; unfold Encoder_extend; simpl; rewrite app_nil_r|].
    inversion Hf; subst. cbn [encode_all]. rewrite (writes_ok F) by done. cbn [result_bind]. rewrite IH by done. by rewrite extend_extend.
  - induction x as [|x l IH]; intros e e' Hf H Hm; [injection H as <-; split; [constructor|]; destruct e; unfold Encoder_extend; simpl; by rewrite app_nil_r|].
    inversion Hf; subst. cbn [encode_all] in H. destruct (enc x e) as [e1|] eqn:E; [|done]. cbn [result_bind] in H.
    apply IH in H as [Hl ->]; [|done|done]. rewrite extend_length in Hm. pose proof (zlen_nonneg (wire_all wire l)).
    apply (writes_typed F) in E as [Hx ->]; [|done|lia]. split; [by constructor|]. by rewrite extend_extend.
Qed.

(** ** Composite records *)

Ltac lengths :=
  repeat match goal with
  | H : context [zlen ?l] |- _ =>
      lazymatch goal with H' : 0 <= zlen l |- _ => fail | _ => pose proof (zlen_nonneg l) end
  end.

(** Encoders that cannot fail, as appended bytes. *)
Ltac appended := unfold Encoder_u8, Encoder_u32, Encoder_u64; rewrite ?extend_extend; rewrite <- ?app_assoc.

(** The last encoding step of [H], or one saved as an equation. *)
Tactic Notation "emitted" constr(F) "in" ident(H) :=
  apply (writes_typed F) in H as [? ->]; [|try done|repeat (rewrite ?extend_length in * |-); lengths; try lia].

(** One encoding step of [H], saved as [E]. *)
Tactic Notation "emit" ident(H) "as" ident(e1) ident(E) :=
  match type of H with
  | result_bind ?m _ = _ => destruct m as [e1|] eqn:E; [|discriminate H]; cbn [result_bind] in H
  end.

(** *** Enumerations as codes *)

Record codes {A} (code : A -> u8) (of_code : u8 -> option A) : Prop := {
  code_byte : forall x, in_u8 (code x);
  code_of : forall c x, of_code c = Some x <-> c = code x;
}.

Ltac solve_codes :=
  split; [intros []; done|];
  intros c x; split; [|intros ->; by destruct x];
  repeat match goal with |- (if ?b then _ else _) = _ -> _ => destruct b eqn:? end; intros; simplify_eq; simpl; lia.

Lemma infrastructure_codes : codes infrastructure_code infrastructure_kind.
Proof. unfold infrastructure_kind. solve_codes. Qed.
Lemma panic_codes : codes panic_code panic_cause_of.
Proof. unfold panic_cause_of. solve_codes. Qed.
Lemma cancellation_codes : codes cancellation_code cancellation_source.
Proof. unfold cancellation_source. solve_codes. Qed.
Lemma stream_failure_codes : codes stream_failure_code stream_failure_kind_of.
Proof. unfold stream_failure_kind_of. solve_codes. Qed.
Lemma execution_codes : codes execution_code execution_of.
Proof. unfold execution_of. solve_codes. Qed.
Lemma constraint_codes : codes constraint_code constraint_of.
Proof. unfold constraint_of. solve_codes. Qed.
Lemma shape_codes : codes shape_code shape_of_code.
Proof. unfold shape_of_code. solve_codes. Qed.

Lemma code_reads {A} (code : A -> u8) of_code :
  codes code of_code -> reads (fun _ => True) (fun x => wire_u8 (code x)) (decode_code of_code).
Proof.
  intros [Hb Hc]. split.
  - intros x d post _ Hd. unfold decode_code. accept u8_reads (code x); [apply Hb|].
    rewrite (proj2 (Hc _ _) eq_refl). by exists d0.
  - intros d l x d' Hd H. unfold decode_code in H. step u8_reads in H as c d1 Hc1 post.
    destruct (of_code c) as [y|] eqn:E; [|done]. injection H as <- <-. apply Hc in E as ->. split; [done|]. by exists post.
Qed.

(** *** Policies *)

Definition wire_timeout (t : TestTimeoutPolicy) : list u8 :=
  match t with TimeoutUnlimited => [0] | TimeoutLimit d => 1 :: wire_u64 (TestDuration_0 d) end.

Definition timeout_ok (t : TestTimeoutPolicy) : Prop :=
  match t with TimeoutUnlimited => True | TimeoutLimit d => in_u64 (TestDuration_0 d) end.

Lemma timeout_reads : reads timeout_ok wire_timeout decode_timeout.
Proof.
  split.
  - intros [|[t]] d post Hx Hd; unfold decode_timeout; simpl in Hx.
    + accept u8_reads 0; [done|]. by exists d0.
    + change (wire_timeout _ ++ post) with (wire_u8 1 ++ wire_u64 t ++ post) in Hd. accept u8_reads 1; [done|].
      cbn [Z.eqb Pos.eqb]. accept u64_reads t; [done|]. by exists d1.
  - intros d l x d' Hd H. unfold decode_timeout in H. step u8_reads in H as t d1 Ht post.
    destruct (t =? 0) eqn:E0; [|destruct (t =? 1) eqn:E1; [|done]].
    + injection H as <- <-. replace t with 0 by lia. split; [done|]. by exists post.
    + step u64_reads in H as v d2 Hv post2. injection H as <- <-. replace t with 1 by lia. split; [done|]. by exists post2.
Qed.

Lemma timeout_appends t e : encode_timeout t e = Encoder_extend e (wire_timeout t).
Proof. destruct t; simpl; [done|]. by appended. Qed.

Definition wire_capture (c : TestCapturePolicy) : list u8 :=
  match c with
  | PolicyCaptured limits => 0 :: wire_u64 (per_stream_byte_limit limits) ++ wire_u64 (invocation_byte_limit limits)
  | PolicyInherited => [1]
  | PolicyDiscarded => [2]
  end.

Definition capture_ok (c : TestCapturePolicy) : Prop :=
  match c with
  | PolicyCaptured limits => in_u64 (per_stream_byte_limit limits) /\ in_u64 (invocation_byte_limit limits)
  | _ => True
  end.

Lemma capture_reads : reads capture_ok wire_capture decode_capture_policy.
Proof.
  split.
  - intros [[a b]| |] d post Hx Hd; unfold decode_capture_policy; simpl in Hx.
    + change (wire_capture _ ++ post) with (wire_u8 0 ++ (wire_u64 a ++ wire_u64 b) ++ post) in Hd. rewrite <- app_assoc in Hd.
      accept u8_reads 0; [done|]. cbn [Z.eqb]. accept u64_reads a; [apply Hx|]. accept u64_reads b; [apply Hx|]. by exists d2.
    + accept u8_reads 1; [done|]. by exists d0.
    + accept u8_reads 2; [done|]. by exists d0.
  - intros d l x d' Hd H. unfold decode_capture_policy in H. step u8_reads in H as t d1 Ht post.
    destruct (t =? 0) eqn:E0; [|destruct (t =? 1) eqn:E1; [|destruct (t =? 2) eqn:E2; [|done]]].
    + step u64_reads in H as a d2 Ha post2. step u64_reads in H as b d3 Hb post3. injection H as <- <-.
      replace t with 0 by lia. split; [done|]. by exists post3.
    + injection H as <- <-. replace t with 1 by lia. split; [done|]. by exists post.
    + injection H as <- <-. replace t with 2 by lia. split; [done|]. by exists post.
Qed.

Lemma capture_appends c e : encode_capture_policy c e = Encoder_extend e (wire_capture c).
Proof. destruct c; simpl; [|done|done]. by appended. Qed.

(** *** Source anchors and error types *)

Definition wire_source (s : TestSourceAnchor) : list u8 :=
  wire_bytes (anchor_package s) ++ wire_u32 (SourceId_raw (SourceSpan_source_id (anchor_span s))) ++
  wire_u32 (SourceSpan_start (anchor_span s)) ++ wire_u32 (SourceSpan_end (anchor_span s)) ++
  wire_u64 (SourceVersion_raw (anchor_version s)).

(** An anchor as its type has it, in a source of the package or in generated text. *)
Record source_typed (s : TestSourceAnchor) : Prop := {
  typed_package : digest_ok (anchor_package s);
  typed_id : in_u32 (SourceId_raw (SourceSpan_source_id (anchor_span s)));
  typed_range : range_wf (SourceSpan_range (anchor_span s));
  typed_version : in_u64 (SourceVersion_raw (anchor_version s));
}.

Definition source_is_stored (s : TestSourceAnchor) : bool := negb (SourceId_is_generated (SourceSpan_source_id (anchor_span s))).

(** An anchor in a source of the package, not in generated text. *)
Record source_ok (s : TestSourceAnchor) : Prop := {
  source_package : digest_ok (anchor_package s);
  source_id : in_u32 (SourceId_raw (SourceSpan_source_id (anchor_span s)));
  source_stored : SourceId_is_generated (SourceSpan_source_id (anchor_span s)) = false;
  source_range : range_wf (SourceSpan_range (anchor_span s));
  source_version : in_u64 (SourceVersion_raw (anchor_version s));
}.

Lemma SourceId_stored_Some raw id : SourceId_stored raw = Some id <-> id = {| SourceId_raw := raw |} /\ SourceId_is_generated id = false.
Proof.
  unfold SourceId_stored, stored, is_stored, SourceId_is_generated. destruct (is_generated raw) eqn:E; simpl.
  - split; [done|]. intros [-> Hf]. simpl in Hf. congruence.
  - split; [intros [= <-]; done|]. by intros [-> _].
Qed.

Lemma source_reads : reads source_ok wire_source decode_source.
Proof.
  split.
  - intros [p [[i] [a b]] [v]] d post [Hp Hi Hs Hr Hv] Hd. unfold wire_source in Hd. rewrite <- !app_assoc in Hd.
    simpl in *. unfold decode_source. destruct Hr as [[Hr1 Hr2] Hr3]. simpl in *.
    accept digest_reads p; [done|]. accept u32_reads i; [done|].
    rewrite (proj2 (SourceId_stored_Some i {| SourceId_raw := i |}) (conj eq_refl Hs)). cbn [ok_or result_bind].
    accept u32_reads a; [split; [done|]; unfold U32_MAX in *; lia|]. accept u32_reads b; [split; [lia|done]|].
    rewrite (proj2 (Z.ltb_ge _ _)) by lia. accept u64_reads v; [done|]. by exists d4.
  - intros d l x d' Hd H. unfold decode_source in H. step digest_reads in H as p d1 Hp post. step u32_reads in H as i d2 Hi post2.
    destruct (SourceId_stored i) as [id|] eqn:Es; [|done]. cbn [ok_or result_bind] in H. apply SourceId_stored_Some in Es as [-> Hg].
    step u32_reads in H as a d3 Ha post3. step u32_reads in H as b d4 Hb post4. destruct (b <? a) eqn:E; [done|].
    step u64_reads in H as v d5 Hv post5. injection H as <- <-. split.
    + split; try done. unfold range_wf. simpl. unfold in_u32 in *. lia.
    + exists post5. split; [|done]. unfold wire_source. by rewrite <- !app_assoc.
Qed.

Lemma source_ok_typed s : source_ok s <-> source_typed s /\ source_is_stored s = true.
Proof. unfold source_is_stored. rewrite negb_true_iff. split; [by intros []|]. by intros [[] ?]. Qed.

(** The encoder does not look at the domain of the source. *)
Lemma source_writes (source : TestSourceAnchor -> Prop) : (forall s, source s -> source_typed s) -> writes source source wire_source encode_source.
Proof.
  intros Hsource. assert (forall s e, source s -> encode_source s e = Ok (Encoder_extend e (wire_source s))) as Henc.
  { intros s e [Hp _ _ _]%Hsource. unfold encode_source. rewrite (writes_ok digest_writes) by done. cbn [result_bind]. appended.
    unfold wire_source. done. }
  split; [done|]. intros x e e' Hx. rewrite Henc by done. by intros [= <-].
Qed.

(** The decoder refuses generated text. *)
Lemma stored_source_writes : writes source_ok source_ok wire_source encode_source.
Proof. apply source_writes. by intros s [Hs _]%source_ok_typed. Qed.

Lemma source_rejects s d post :
  source_typed s -> source_is_stored s = false -> here d (wire_source s ++ post) -> decode_source d = Err Malformed.
Proof.
  intros [Hp Hi _ _] Hs Hd. unfold wire_source in Hd. rewrite <- !app_assoc in Hd. unfold decode_source.
  accept digest_reads (anchor_package s); [done|]. accept u32_reads (SourceId_raw (SourceSpan_source_id (anchor_span s))); [done|].
  destruct (SourceId_stored _) as [id|] eqn:E; [|done]. apply SourceId_stored_Some in E as [-> Hg]. unfold source_is_stored in Hs.
  destruct (SourceSpan_source_id (anchor_span s)) as [raw]. simpl in *. by rewrite Hg in Hs.
Qed.

Lemma optional_source_rejects o d post :
  option_ok source_typed o -> default true (source_is_stored <$> o) = false -> here d (wire_option wire_source o ++ post) -> decode_optional_source d = Err Malformed.
Proof.
  destruct o as [s|]; [|done]. intros Ht Hs Hd. unfold decode_optional_source. change (wire_option wire_source (Some s) ++ post) with (wire_u8 1 ++ wire_source s ++ post) in Hd.
  accept u8_reads 1; [done|]. cbn [Z.eqb Pos.eqb]. by rewrite (source_rejects s _ post) by done.
Qed.

Definition error_type_ok (t : TestErrorTypeIdentity) : Prop := TestErrorTypeIdentity_0 t <> [] /\ text_ok (TestErrorTypeIdentity_0 t).
Definition error_type_typed (t : TestErrorTypeIdentity) : Prop := TestErrorTypeIdentity_0 t <> [] /\ valid_utf8 (TestErrorTypeIdentity_0 t).
Definition wire_error_type (t : TestErrorTypeIdentity) : list u8 := wire_bytes (TestErrorTypeIdentity_0 t).

Definition decode_error_type (d : Decoder) : result (TestErrorTypeIdentity * Decoder) TestProtocolError :=
  let? text := Decoder_string d in
  let? t := ok_or (TestErrorTypeIdentity_try_new text.1) Malformed in
  Ok (t, text.2).

Lemma error_type_reads : reads error_type_ok wire_error_type decode_error_type.
Proof.
  split.
  - intros [t] d post [Hn Ht] Hd. unfold decode_error_type. accept text_reads t; [done|]. unfold TestErrorTypeIdentity_try_new.
    rewrite bool_decide_false by done. by exists d0.
  - intros d l x d' Hd H. unfold decode_error_type in H. step text_reads in H as t d1 Ht post.
    unfold TestErrorTypeIdentity_try_new in H. case_bool_decide; [done|]. injection H as <- <-. split; [done|]. by exists post.
Qed.

Lemma error_type_writes :
  writes error_type_typed error_type_ok wire_error_type (fun t => Encoder_string (TestErrorTypeIdentity_0 t)).
Proof.
  split; [intros x e [_ Ht]; by apply text_writes|]. intros x e e' [Hn Ht] H Hm.
  apply (writes_typed text_writes) in H as [Hok ->]; [|done|done]. done.
Qed.

Lemma optional_error_type_reads : reads (option_ok error_type_ok) (wire_option wire_error_type) decode_optional_error_type.
Proof.
  apply (option_reads _ _ _ _ error_type_reads). intros d. unfold decode_optional_error_type, decode_error_type.
  destruct (Decoder_u8 d) as [[t d1]|]; [|done]. cbn [result_bind fst snd]. destruct (t =? 0); [done|]. destruct (t =? 1); [|done].
  destruct (Decoder_string d1) as [[s d2]|]; [|done]. cbn [result_bind fst snd]. by destruct (TestErrorTypeIdentity_try_new s).
Qed.

Lemma optional_error_type_writes :
  writes (option_ok error_type_typed) (option_ok error_type_ok) (wire_option wire_error_type) encode_optional_error_type.
Proof. by apply (option_writes _ _ _ _ _ error_type_writes). Qed.

Lemma optional_source_reads : reads (option_ok source_ok) (wire_option wire_source) decode_optional_source.
Proof. by apply (option_reads _ _ _ _ source_reads). Qed.

Lemma optional_source_writes (source : TestSourceAnchor -> Prop) :
  (forall s, source s -> source_typed s) -> writes (option_ok source) (option_ok source) (wire_option wire_source) encode_optional_source.
Proof. intros Hsource. by apply (option_writes _ _ _ _ _ (source_writes source Hsource)). Qed.

Lemma optional_text_reads : reads (option_ok text_ok) (wire_option wire_bytes) decode_optional_string.
Proof. by apply (option_reads _ _ _ _ text_reads). Qed.

Lemma optional_text_writes : writes (option_ok valid_utf8) (option_ok text_ok) (wire_option wire_bytes) encode_optional_string.
Proof. by apply (option_writes _ _ _ _ _ text_writes). Qed.

Lemma detail_reads : reads (option_ok in_u64) (wire_option wire_u64) decode_detail.
Proof. by apply (option_reads _ _ _ _ u64_reads). Qed.

(** *** Outcomes *)

Definition in_signed (bits v : Z) : Prop := - 2 ^ (bits - 1) <= v < 2 ^ (bits - 1).

Definition wire_termination (t : option TestHostTermination) : list u8 :=
  match t with
  | None => [0]
  | Some (ExitCode code) => 1 :: wire_u32 (cast_unsigned 32 code)
  | Some (Signal signal) => 2 :: wire_u64 (cast_unsigned 64 signal)
  end.

Definition wire_infrastructure (f : TestInfrastructureFailure) : list u8 :=
  wire_u8 (infrastructure_code (infra_kind f)) ++ wire_option wire_u64 (detail_code f) ++ wire_termination (host_termination f).

Record infrastructure_ok (f : TestInfrastructureFailure) : Prop := {
  infra_detail : option_ok in_u64 (detail_code f);
  infra_termination : match host_termination f with
                      | None => True
                      | Some (ExitCode code) => in_signed 32 code
                      | Some (Signal signal) => in_signed 64 signal
                      end;
}.

Lemma infrastructure_reads : reads infrastructure_ok wire_infrastructure decode_infrastructure_failure.
Proof.
  split.
  - intros [k c t] d post [Hc Ht] Hd. unfold wire_infrastructure in Hd. rewrite <- !app_assoc in Hd. simpl in Hc, Ht.
    cbn [infra_kind detail_code host_termination] in Hd. unfold decode_infrastructure_failure.
    accept u8_reads (infrastructure_code k); [apply infrastructure_codes|].
    rewrite (proj2 (code_of _ _ infrastructure_codes _ k) eq_refl). cbn [ok_or result_bind]. accept detail_reads c; [done|].
    destruct t as [[code|signal]|]; unfold wire_termination in Hd.
    + change ((1 :: ?w) ++ post) with (wire_u8 1 ++ w ++ post) in Hd. accept u8_reads 1; [done|]. cbn [Z.eqb Pos.eqb].
      destruct (cast_round_trip 32 code) as [Hcast Hr]; [lia|done|].
      accept u32_reads (cast_unsigned 32 code); [split; [apply Hr|]; unfold U32_MAX; lia|]. rewrite Hcast. by exists d3.
    + change ((2 :: ?w) ++ post) with (wire_u8 2 ++ w ++ post) in Hd. accept u8_reads 2; [done|]. cbn [Z.eqb Pos.eqb].
      destruct (cast_round_trip 64 signal) as [Hcast Hr]; [lia|done|].
      accept u64_reads (cast_unsigned 64 signal); [split; [apply Hr|]; unfold U64_MAX; lia|]. rewrite Hcast. by exists d3.
    + accept u8_reads 0; [done|]. by exists d2.
  - intros d l x d' Hd H. unfold decode_infrastructure_failure in H. step u8_reads in H as c d1 Hc post.
    destruct (infrastructure_kind c) as [k|] eqn:Ek; [|done]. cbn [ok_or result_bind] in H.
    apply (code_of _ _ infrastructure_codes) in Ek as ->. step detail_reads in H as o d2 Ho post2.
    step u8_reads in H as t d3 Ht post3.
    destruct (t =? 0) eqn:E0; [|destruct (t =? 1) eqn:E1; [|destruct (t =? 2) eqn:E2; [|done]]].
    + injection H as <- <-. replace t with 0 by lia. split; [done|]. exists post3. split; [|done].
      unfold wire_infrastructure. by rewrite <- !app_assoc.
    + step u32_reads in H as v d4 Hv post4. injection H as <- <-. replace t with 1 by lia.
      destruct (cast_signed_range 32 v) as [Hr Hcast]; [lia|unfold in_u32, U32_MAX in Hv; lia|]. split; [done|]. exists post4. split; [|done].
      unfold wire_infrastructure. rewrite <- !app_assoc. cbn [infra_kind detail_code host_termination with_host_termination TestInfrastructureFailure_new wire_termination].
      by rewrite Hcast.
    + step u64_reads in H as v d4 Hv post4. injection H as <- <-. replace t with 2 by lia.
      destruct (cast_signed_range 64 v) as [Hr Hcast]; [lia|unfold in_u64, U64_MAX in Hv; lia|]. split; [done|]. exists post4. split; [|done].
      unfold wire_infrastructure. rewrite <- !app_assoc. cbn [infra_kind detail_code host_termination with_host_termination TestInfrastructureFailure_new wire_termination].
      by rewrite Hcast.
Qed.

Lemma infrastructure_appends f e : encode_infrastructure_failure f e = Encoder_extend e (wire_infrastructure f).
Proof.
  destruct f as [k [c|] [[code|signal]|]]; unfold encode_infrastructure_failure, wire_infrastructure;
    cbn [infra_kind detail_code host_termination wire_option wire_termination]; by appended.
Qed.

Definition wire_outcome (o : TestOutcome) : list u8 :=
  match o with
  | Passed => [0]
  | ReturnedError t s v => 1 :: wire_error_type t ++ wire_option wire_source s ++ wire_option wire_bytes v
  | OutcomeExplicitFailure f => 2 :: wire_option wire_source (explicit_source f) ++ wire_bytes (explicit_message f)
  | OutcomeAssertionFailure f => 3 :: wire_source (assertion_source f) ++ wire_option wire_bytes (assertion_message f)
  | Panicked r => 4 :: wire_u8 (panic_code (panic_cause r)) ++ wire_option wire_source (panic_source r) ++ wire_bytes (panic_message r)
  | TimedOut limit => 5 :: wire_u64 (TestDuration_0 limit)
  | Cancelled s => 6 :: wire_u8 (cancellation_code s)
  | InfrastructureFailed f => 7 :: wire_infrastructure f
  end.

(** The outcomes with anchors satisfying [source], texts satisfying [text] and error
    types satisfying [kind]. *)
Definition outcome_with (source : TestSourceAnchor -> Prop) (text : str -> Prop) (kind : TestErrorTypeIdentity -> Prop) (o : TestOutcome) : Prop :=
  match o with
  | Passed | Cancelled _ => True
  | ReturnedError t s v => kind t /\ option_ok source s /\ option_ok text v
  | OutcomeExplicitFailure f => option_ok source (explicit_source f) /\ text (explicit_message f)
  | OutcomeAssertionFailure f => source (assertion_source f) /\ option_ok text (assertion_message f)
  | Panicked r => option_ok source (panic_source r) /\ text (panic_message r)
  | TimedOut limit => in_u64 (TestDuration_0 limit)
  | InfrastructureFailed f => infrastructure_ok f
  end.

(** What the types guarantee, what is written, and what is read. *)
Definition outcome_typed : TestOutcome -> Prop := outcome_with source_typed valid_utf8 error_type_typed.
Definition outcome_wired : TestOutcome -> Prop := outcome_with source_typed text_ok error_type_ok.
Definition outcome_ok : TestOutcome -> Prop := outcome_with source_ok text_ok error_type_ok.

(** No anchor in generated text. *)
Definition outcome_stored (o : TestOutcome) : bool :=
  match o with
  | ReturnedError _ s _ => default true (source_is_stored <$> s)
  | OutcomeExplicitFailure f => default true (source_is_stored <$> explicit_source f)
  | OutcomeAssertionFailure f => source_is_stored (assertion_source f)
  | Panicked r => default true (source_is_stored <$> panic_source r)
  | _ => true
  end.

Lemma optional_source_ok o : option_ok source_ok o <-> option_ok source_typed o /\ default true (source_is_stored <$> o) = true.
Proof. destruct o; [apply source_ok_typed|by split]. Qed.

Lemma outcome_ok_wired o : outcome_ok o <-> outcome_wired o /\ outcome_stored o = true.
Proof.
  unfold outcome_ok, outcome_wired. destruct o; cbn [outcome_with outcome_stored]; rewrite ?optional_source_ok, ?source_ok_typed; tauto.
Qed.

Lemma outcome_accept x d post :
  outcome_ok x -> here d (wire_outcome x ++ post) -> exists d', decode_outcome d = Ok (x, d') /\ here d' post.
Proof.
  intros Hx Hd. unfold decode_outcome, outcome_ok in *.
  destruct x as [|[t] s v|[s m]|[s m]|[c s m]|[n]|s|f]; cbn [outcome_with explicit_source explicit_message assertion_source assertion_message
    panic_cause panic_source panic_message TestDuration_0] in Hx;
    cbn [wire_outcome app explicit_source explicit_message assertion_source assertion_message panic_cause panic_source panic_message TestDuration_0] in Hd;
    rewrite <- ?app_assoc in Hd.
  - accept u8_reads 0; [done|]. by exists d0.
  - destruct Hx as ([Hn Ht] & Hs & Hv). change (1 :: ?w) with (wire_u8 1 ++ w) in Hd. accept u8_reads 1; [done|]. cbn [Z.eqb Pos.eqb].
    unfold wire_error_type in Hd. accept text_reads t; [done|]. unfold TestErrorTypeIdentity_try_new. rewrite bool_decide_false by done.
    cbn [ok_or result_bind]. accept optional_source_reads s; [done|]. accept optional_text_reads v; [done|]. by exists d3.
  - destruct Hx as [Hs Hm]. change (2 :: ?w) with (wire_u8 2 ++ w) in Hd. accept u8_reads 2; [done|]. cbn [Z.eqb Pos.eqb].
    accept optional_source_reads s; [done|]. accept text_reads m; [done|]. by exists d2.
  - destruct Hx as [Hs Hm]. change (3 :: ?w) with (wire_u8 3 ++ w) in Hd. accept u8_reads 3; [done|]. cbn [Z.eqb Pos.eqb].
    accept source_reads s; [done|]. accept optional_text_reads m; [done|]. exists d2. by destruct m.
  - destruct Hx as [Hs Hm]. change (4 :: ?w) with (wire_u8 4 ++ w) in Hd. accept u8_reads 4; [done|]. cbn [Z.eqb Pos.eqb].
    accept u8_reads (panic_code c); [apply panic_codes|]. rewrite (proj2 (code_of _ _ panic_codes _ c) eq_refl). cbn [ok_or result_bind].
    accept optional_source_reads s; [done|]. accept text_reads m; [done|]. by exists d3.
  - change (5 :: ?w) with (wire_u8 5 ++ w) in Hd. accept u8_reads 5; [done|]. cbn [Z.eqb Pos.eqb].
    accept u64_reads n; [done|]. by exists d1.
  - change (6 :: ?w) with (wire_u8 6 ++ w) in Hd. accept u8_reads 6; [done|]. cbn [Z.eqb Pos.eqb].
    accept u8_reads (cancellation_code s); [apply cancellation_codes|]. rewrite (proj2 (code_of _ _ cancellation_codes _ s) eq_refl). by exists d1.
  - change (7 :: ?w) with (wire_u8 7 ++ w) in Hd. accept u8_reads 7; [done|]. cbn [Z.eqb Pos.eqb].
    accept infrastructure_reads f; [done|]. by exists d1.
Qed.

Lemma outcome_exact d l x d' :
  here d l -> decode_outcome d = Ok (x, d') -> outcome_ok x /\ exists post, l = wire_outcome x ++ post /\ here d' post.
Proof.
  intros Hd H. unfold decode_outcome in H. step u8_reads in H as t d1 Ht post.
  repeat match type of H with (if t =? ?n then _ else _) = _ => destruct (Z.eqb_spec t n) as [->|] end; [..|discriminate H].
  - injection H as <- <-. split; [done|]. by exists post.
  - step text_reads in H as s d2 Hs post2. unfold TestErrorTypeIdentity_try_new in H. case_bool_decide; [done|]. cbn [ok_or result_bind] in H.
    step optional_source_reads in H as o d3 Ho post3. step optional_text_reads in H as v d4 Hv post4. injection H as <- <-.
    split; [split; [by split|by split]|]. exists post4. split; [|done]. cbn [wire_outcome app]. by rewrite <- !app_assoc.
  - step optional_source_reads in H as o d2 Ho post2. step text_reads in H as m d3 Hm post3. injection H as <- <-.
    split; [done|]. exists post3. split; [|done]. cbn [wire_outcome app]. by rewrite <- !app_assoc.
  - step source_reads in H as s d2 Hs post2. step optional_text_reads in H as m d3 Hm post3. injection H as <- <-.
    destruct m as [m|]; (split; [done|]); exists post3; (split; [|done]); cbn [wire_outcome app]; by rewrite <- !app_assoc.
  - step u8_reads in H as c d2 Hc post2. destruct (panic_cause_of c) as [k|] eqn:Ek; [|done]. cbn [ok_or result_bind] in H.
    apply (code_of _ _ panic_codes) in Ek as ->. step optional_source_reads in H as o d3 Ho post3. step text_reads in H as m d4 Hm post4.
    injection H as <- <-. split; [done|]. exists post4. split; [|done]. cbn [wire_outcome app]. by rewrite <- !app_assoc.
  - step u64_reads in H as limit d2 Hl post2. injection H as <- <-. split; [done|]. by exists post2.
  - step u8_reads in H as c d2 Hc post2. destruct (cancellation_source c) as [k|] eqn:Ek; [|done]. cbn [ok_or result_bind] in H.
    apply (code_of _ _ cancellation_codes) in Ek as ->. injection H as <- <-. split; [done|]. by exists post2.
  - step infrastructure_reads in H as f d2 Hf post2. injection H as <- <-. split; [done|]. by exists post2.
Qed.

Lemma outcome_reads : reads outcome_ok wire_outcome decode_outcome.
Proof. split; [exact outcome_accept|exact outcome_exact]. Qed.

Lemma outcome_writes : writes outcome_typed outcome_wired wire_outcome encode_outcome.
Proof.
  pose proof (source_writes source_typed (fun s H => H)) as source_writes. pose proof (optional_source_writes source_typed (fun s H => H)) as optional_source_writes.
  split.
  - intros x e Hx. unfold outcome_wired in Hx. destruct x as [|t s v|f|f|r|n|s|f]; cbn [outcome_with encode_outcome] in *.
    + done.
    + destruct Hx as (Ht & Hs & Hv). rewrite (writes_ok error_type_writes) by done. cbn [result_bind].
      rewrite (writes_ok optional_source_writes) by done. cbn [result_bind]. rewrite (writes_ok optional_text_writes) by done. by appended.
    + rewrite (writes_ok optional_source_writes) by apply Hx. cbn [result_bind]. rewrite (writes_ok text_writes) by apply Hx. by appended.
    + rewrite (writes_ok source_writes) by apply Hx. cbn [result_bind]. rewrite (writes_ok optional_text_writes) by apply Hx. by appended.
    + rewrite (writes_ok optional_source_writes) by apply Hx. cbn [result_bind]. rewrite (writes_ok text_writes) by apply Hx. by appended.
    + by appended.
    + by appended.
    + rewrite infrastructure_appends. by appended.
  - intros x e e' Hx H Hm. unfold outcome_typed in Hx. destruct x as [|t s v|f|f|r|n|s|f]; cbn [outcome_with encode_outcome] in *.
    + injection H as <-. done.
    + destruct Hx as (Ht & Hs & Hv). emit H as e1 E1. emit H as e2 E2. emitted optional_text_writes in H. emitted optional_source_writes in E2.
      emitted error_type_writes in E1. split; [done|]. by appended.
    + destruct Hx as (Hs & Ht). emit H as e1 E1. emitted text_writes in H. emitted optional_source_writes in E1. split; [done|]. by appended.
    + destruct Hx as (Hs & Ht). emit H as e1 E1. emitted optional_text_writes in H. emitted source_writes in E1. split; [done|]. by appended.
    + destruct Hx as (Hs & Ht). emit H as e1 E1. emitted text_writes in H. emitted optional_source_writes in E1. split; [done|]. by appended.
    + injection H as <-. split; [done|]. by appended.
    + injection H as <-. split; [done|]. by appended.
    + injection H as <-. split; [done|]. rewrite infrastructure_appends. by appended.
Qed.

(** An outcome with an anchor in generated text is not read. *)
Lemma outcome_rejects x d post : outcome_wired x -> outcome_stored x = false -> here d (wire_outcome x ++ post) -> decode_outcome d = Err Malformed.
Proof.
  intros Hx Hs Hd. unfold decode_outcome, outcome_wired in *.
  destruct x as [|[t] s v|[s m]|[s m]|[c s m]|[n]|s|f]; cbn [outcome_with outcome_stored explicit_source explicit_message assertion_source assertion_message
    panic_cause panic_source panic_message TestDuration_0] in Hx, Hs; try done;
    cbn [wire_outcome app explicit_source explicit_message assertion_source assertion_message panic_cause panic_source panic_message TestDuration_0] in Hd;
    rewrite <- ?app_assoc in Hd.
  - destruct Hx as ([Hn Ht] & Hso & Hv). change (1 :: ?w) with (wire_u8 1 ++ w) in Hd. accept u8_reads 1; [done|]. cbn [Z.eqb Pos.eqb].
    unfold wire_error_type in Hd. accept text_reads t; [done|]. unfold TestErrorTypeIdentity_try_new. rewrite bool_decide_false by done.
    cbn [ok_or result_bind]. by erewrite optional_source_rejects.
  - destruct Hx as [Hso Hm]. change (2 :: ?w) with (wire_u8 2 ++ w) in Hd. accept u8_reads 2; [done|]. cbn [Z.eqb Pos.eqb]. by erewrite optional_source_rejects.
  - destruct Hx as [Hso Hm]. change (3 :: ?w) with (wire_u8 3 ++ w) in Hd. accept u8_reads 3; [done|]. cbn [Z.eqb Pos.eqb]. by erewrite source_rejects.
  - destruct Hx as [Hso Hm]. change (4 :: ?w) with (wire_u8 4 ++ w) in Hd. accept u8_reads 4; [done|]. cbn [Z.eqb Pos.eqb].
    accept u8_reads (panic_code c); [apply panic_codes|]. rewrite (proj2 (code_of _ _ panic_codes _ c) eq_refl). cbn [ok_or result_bind]. by erewrite optional_source_rejects.
Qed.

Lemma outcomes_reject l : forall d post,
  Forall outcome_wired l -> forallb outcome_stored l = false -> here d (wire_all wire_outcome l ++ post) -> decode_many decode_outcome (length l) d = Err Malformed.
Proof.
  induction l as [|x l IH]; intros d post Hf Hs Hd; [done|]. inversion Hf as [|? ? Hx Hl]; subst. unfold wire_all in Hd. cbn [map concat] in Hd. rewrite <- app_assoc in Hd.
  cbn [decode_many length forallb] in *. destruct (outcome_stored x) eqn:E.
  - accept outcome_reads x; [by apply outcome_ok_wired|]. by erewrite IH.
  - by rewrite (outcome_rejects x d _ Hx E Hd).
Qed.

(** *** Streams *)

Definition wire_platform (code : option Z) : list u8 := wire_option (fun c => wire_u64 (cast_unsigned 64 c)) code.

Definition wire_stream_failure (f : TestStreamFailure) : list u8 :=
  wire_u8 (stream_failure_code (stream_failure_kind f)) ++ wire_platform (platform_code f).

Definition stream_failure_ok (f : TestStreamFailure) : Prop := option_ok (in_signed 64) (platform_code f).

Definition wire_stream (s : CapturedStream) : list u8 :=
  wire_u8 (stream_policy_code (stream_policy s)) ++ wire_bytes (stream_bytes s) ++ wire_u64 (discarded_byte_count s) ++
  wire_option wire_stream_failure (stream_failure s).

(** The streams the constructors make, with bytes satisfying [bytes]. *)
Definition stream_with (bytes : list u8 -> Prop) (s : CapturedStream) : Prop :=
  bytes (stream_bytes s) /\ in_u64 (discarded_byte_count s) /\ option_ok stream_failure_ok (stream_failure s) /\
  (stream_policy s <> StreamCaptured -> stream_bytes s = [] /\ discarded_byte_count s = 0) /\
  (stream_policy s = StreamDiscarded -> stream_failure s = None).

Definition stream_ok : CapturedStream -> Prop := stream_with bytes_ok.
Definition stream_typed : CapturedStream -> Prop := stream_with (Forall in_u8).

Lemma platform_reads : reads (option_ok (in_signed 64)) wire_platform decode_platform_code.
Proof.
  assert (reads (in_signed 64) (fun c => wire_u64 (cast_unsigned 64 c)) (fun d => let? r := Decoder_u64 d in Ok (cast_signed 64 r.1, r.2))) as F.
  { split.
    - intros x d post Hx Hd. destruct (cast_round_trip 64 x) as [Hc Hr]; [lia|done|].
      accept u64_reads (cast_unsigned 64 x); [split; [apply Hr|]; unfold U64_MAX; lia|]. rewrite Hc. by exists d0.
    - intros d l x d' Hd H. step u64_reads in H as v d1 Hv post. injection H as <- <-.
      destruct (cast_signed_range 64 v) as [Hr Hc]; [lia|unfold in_u64, U64_MAX in Hv; lia|]. split; [done|]. exists post. by rewrite Hc. }
  apply (option_reads _ _ _ _ F). intros d. unfold decode_platform_code. destruct (Decoder_u8 d) as [[t d1]|]; [|done].
  cbn [result_bind fst snd]. destruct (t =? 0); [done|]. destruct (t =? 1); [|done]. by destruct (Decoder_u64 d1) as [[v d2]|].
Qed.

Lemma stream_failure_reads : reads (option_ok stream_failure_ok) (wire_option wire_stream_failure) decode_stream_failure.
Proof.
  assert (reads stream_failure_ok wire_stream_failure (fun d =>
    let? k := decode_code stream_failure_kind_of d in
    let? p := decode_platform_code k.2 in
    Ok ({| stream_failure_kind := k.1; platform_code := p.1 |}, p.2))) as F.
  { split.
    - intros [k p] d post Hx Hd. unfold wire_stream_failure in Hd. rewrite <- app_assoc in Hd.
      accept (code_reads _ _ stream_failure_codes) k; [done|]. accept platform_reads p; [done|]. by exists d1.
    - intros d l x d' Hd H. step (code_reads _ _ stream_failure_codes) in H as k d1 Hk post. step platform_reads in H as p d2 Hp post2.
      injection H as <- <-. split; [done|]. exists post2. split; [|done]. unfold wire_stream_failure. by rewrite <- app_assoc. }
  apply (option_reads _ _ _ _ F). intros d. unfold decode_stream_failure, decode_code. destruct (Decoder_u8 d) as [[t d1]|]; [|done].
  cbn [result_bind fst snd]. destruct (t =? 0); [done|]. destruct (t =? 1); [|done]. destruct (Decoder_u8 d1) as [[c d2]|]; [|done].
  cbn [result_bind fst snd]. destruct (stream_failure_kind_of c); [|done]. cbn [ok_or result_bind fst snd].
  by destruct (decode_platform_code d2) as [[p d3]|].
Qed.

Lemma stream_reads : reads stream_ok wire_stream decode_stream.
Proof.
  split.
  - intros [p b n f] d post (Hb & Hn & Hf & He & Hd0) Hd. unfold wire_stream in Hd. rewrite <- !app_assoc in Hd.
    cbn [stream_policy stream_bytes discarded_byte_count stream_failure] in *. unfold decode_stream.
    accept u8_reads (stream_policy_code p); [by destruct p|]. accept bytes_reads b; [done|]. accept u64_reads n; [done|].
    accept stream_failure_reads f; [done|]. exists d3. split; [|done].
    destruct p; [done|destruct He as [-> ->]; done|destruct He as [-> ->]; [done|]; by rewrite Hd0].
  - intros d l x d' Hd H. unfold decode_stream in H. step u8_reads in H as p d1 Hp post. step bytes_reads in H as b d2 Hb post2.
    step u64_reads in H as n d3 Hn post3. step stream_failure_reads in H as f d4 Hf post4.
    destruct (Z.eqb_spec p 0) as [->|]; [|destruct (Z.eqb_spec p 1) as [->|]; [|destruct (Z.eqb_spec p 2) as [->|]; [|done]]].
    + injection H as <- <-. split; [by repeat split; try apply Hb; try apply Hn|]. exists post4. split; [|done].
      unfold wire_stream. by rewrite <- !app_assoc.
    + cbn [andb] in H. destruct (bool_decide (b = [])) eqn:Eb; [apply bool_decide_eq_true in Eb as ->|discriminate H].
      destruct (Z.eqb_spec n 0) as [->|]; [|discriminate H]. cbn [andb] in H. injection H as <- <-.
      split; [by repeat split|]. exists post4. split; [|done]. unfold wire_stream. by rewrite <- !app_assoc.
    + cbn [andb] in H. destruct (bool_decide (b = [])) eqn:Eb; [apply bool_decide_eq_true in Eb as ->|discriminate H].
      destruct (Z.eqb_spec n 0) as [->|]; [|discriminate H]. cbn [andb] in H. destruct f as [f|]; [done|]. injection H as <- <-.
      split; [by repeat split|]. exists post4. split; [|done]. unfold wire_stream. by rewrite <- !app_assoc.
Qed.

Lemma stream_failure_appends f e : encode_stream_failure f e = Encoder_extend e (wire_option wire_stream_failure f).
Proof. destruct f as [[k [c|]]|]; simpl; by appended. Qed.

Lemma stream_writes : writes stream_typed stream_ok wire_stream encode_stream.
Proof.
  assert (forall x e, encode_stream x e = let? e := Encoder_put_bytes (stream_bytes x) (Encoder_u8 (stream_policy_code (stream_policy x)) e) in
    Ok (Encoder_extend e (wire_u64 (discarded_byte_count x) ++ wire_option wire_stream_failure (stream_failure x)))) as Henc.
  { intros x e. unfold encode_stream. destruct (Encoder_put_bytes _ _); [|done]. cbn [result_bind]. rewrite stream_failure_appends. by appended. }
  split.
  - intros x e Hx. rewrite Henc, (writes_ok bytes_writes) by apply Hx. cbn [result_bind]. by appended.
  - intros x e e' (Hb & Hx) H Hm. rewrite Henc in H. emit H as e1 E1. injection H as <-. emitted bytes_writes in E1.
    split; [by split|]. by appended.
Qed.

(** ** Frames and headers *)

Definition wire_header (magic : list u8) : list u8 := magic ++ wire_u32 PROTOCOL_VERSION.

Lemma Encoder_new_header magic : Encoder_new magic = Encoder_extend {| encoder_bytes := [] |} (wire_header magic).
Proof. unfold Encoder_new. by rewrite extend_extend. Qed.

Lemma Decoder_new_accept magic body :
  zlen magic = 8 -> Forall in_u8 (wire_header magic ++ body) -> zlen (wire_header magic ++ body) <= MAX_FRAME_BYTES ->
  exists d, Decoder_new (wire_header magic ++ body) magic = Ok d /\ here d body.
Proof.
  intros Hm Hf Hl. unfold Decoder_new. rewrite (proj2 (Z.ltb_ge _ _)) by lia.
  assert (zlen (wire_header magic) = 12) as Hh by (unfold wire_header; rewrite zlen_app, Hm; done).
  assert ((zlen (wire_header magic ++ body) <? 12) = false) as ->.
  { rewrite zlen_app, Hh. pose proof (zlen_nonneg body). lia. }
  assert (wire_header magic ++ body = magic ++ wire_u32 PROTOCOL_VERSION ++ body) as Hw by (unfold wire_header; by rewrite <- app_assoc).
  assert (ztake 8 (wire_header magic ++ body) = magic) as -> by (rewrite Hw; by apply ztake_app).
  assert (zdrop 8 (wire_header magic ++ body) = wire_u32 PROTOCOL_VERSION ++ body) as -> by (rewrite Hw; by apply zdrop_app).
  rewrite (ztake_app 4 (wire_u32 PROTOCOL_VERSION)) by done. rewrite bool_decide_true by done. cbn [orb negb].
  eexists. split; [reflexivity|]. unfold here. cbn [decoder_bytes decoder_position].
  split; [rewrite zlen_app, Hh; pose proof (zlen_nonneg body); lia|]. split; [by rewrite zdrop_app|done].
Qed.

Lemma Decoder_new_exact bytes magic d :
  Forall in_u8 bytes -> Decoder_new bytes magic = Ok d ->
  exists body, bytes = wire_header magic ++ body /\ here d body /\ zlen bytes <= MAX_FRAME_BYTES.
Proof.
  intros Hf. unfold Decoder_new. destruct (MAX_FRAME_BYTES <? zlen bytes) eqn:E1; [done|].
  destruct (zlen bytes <? 12) eqn:E2; [done|]. case_bool_decide as Hm; [|done]. cbn [orb negb].
  destruct (from_le_bytes _ =? PROTOCOL_VERSION) eqn:Ev; [|done]. cbn [negb]. intros [= <-]. exists (zdrop 12 bytes). split_and!.
  - unfold wire_header, wire_u32. rewrite <- (ztake_zdrop 8 bytes) at 1. rewrite Hm, <- app_assoc. f_equal.
    rewrite <- (ztake_zdrop 4 (zdrop 8 bytes)) at 1. rewrite zdrop_zdrop by lia. f_equal. apply Z.eqb_eq in Ev. rewrite <- Ev.
    assert (length (ztake 4 (zdrop 8 bytes)) = 4%nat) as Hl by (unfold ztake, zdrop, zlen in *; rewrite length_take, length_drop; lia).
    rewrite <- Hl. symmetry. apply to_from_le_bytes. unfold ztake, zdrop. by apply Forall_take, Forall_drop.
  - unfold here. cbn [decoder_bytes decoder_position]. split_and!; [lia|lia|done|lia|done].
  - lia.
Qed.

Lemma Decoder_finish_nil d l : here d l -> Decoder_finish d = Ok tt <-> l = [].
Proof.
  intros Hd. pose proof (here_length _ _ Hd) as Hl. unfold Decoder_finish. destruct (_ =? _) eqn:E.
  - split; [|done]. intros _. destruct l; [done|]. rewrite zlen_cons in Hl. pose proof (zlen_nonneg l). lia.
  - split; [done|]. intros ->. unfold zlen in Hl at 1. simpl in Hl. lia.
Qed.

Definition wire_frame (payload : list u8) : list u8 := wire_u32 (zlen payload) ++ payload.

Lemma write_frame_vec (w payload : list u8) :
  write_frame w payload = if MAX_FRAME_BYTES <? zlen payload then Err ResourceLimit else Ok (w ++ wire_frame payload).
Proof.
  unfold write_frame. destruct (MAX_FRAME_BYTES <? zlen payload) eqn:E; [done|]. pose proof (zlen_nonneg payload).
  unfold u32_try_from. unfold MAX_FRAME_BYTES in E. rewrite checked_ok by (unfold U32_MAX; lia). simpl. unfold wire_frame. by rewrite app_assoc.
Qed.

Lemma read_frame_slice (payload rest : list u8) :
  zlen payload <= MAX_FRAME_BYTES -> read_frame (wire_frame payload ++ rest) = Ok (payload, rest).
Proof.
  intros Hm. unfold read_frame, wire_frame, read_exact, slice_reader. rewrite <- app_assoc.
  pose proof (zlen_nonneg payload). pose proof (zlen_nonneg rest). rewrite zlen_app. change (zlen (wire_u32 (zlen payload))) with 4.
  rewrite (proj2 (Z.ltb_ge _ 4)) by (rewrite zlen_app; lia). cbn [ok_or result_bind fst snd].
  rewrite ztake_app, zdrop_app by done. unfold wire_u32. rewrite from_to_le_bytes by (unfold MAX_FRAME_BYTES in Hm; simpl; lia).
  rewrite (proj2 (Z.ltb_ge _ _)) by lia. rewrite zlen_app, (proj2 (Z.ltb_ge _ _)) by lia. by rewrite ztake_app, zdrop_app.
Qed.

Lemma read_frame_exact (bytes payload rest : list u8) :
  Forall in_u8 bytes -> read_frame bytes = Ok (payload, rest) ->
  bytes = wire_frame payload ++ rest /\ zlen payload <= MAX_FRAME_BYTES /\ Forall in_u8 payload.
Proof.
  intros Hf. unfold read_frame, read_exact, slice_reader. destruct (zlen bytes <? 4) eqn:E1; [done|]. cbn [ok_or result_bind fst snd].
  destruct (MAX_FRAME_BYTES <? _) eqn:E2; [done|]. destruct (zlen (zdrop 4 bytes) <? _) eqn:E3; [done|]. cbn [ok_or]. intros [= <- <-].
  set (n := from_le_bytes (ztake 4 bytes)) in *.
  assert (length (ztake 4 bytes) = 4%nat) as Hl by (unfold ztake, zlen in *; rewrite length_take; lia).
  assert (Forall in_u8 (ztake 4 bytes)) as Hf4 by by apply Forall_take.
  pose proof (from_le_bytes_range _ Hf4) as Hr. fold n in Hr.
  assert (zlen (ztake n (zdrop 4 bytes)) = n) as Hn by (unfold zlen, ztake in *; rewrite length_take; lia).
  split_and!; [|lia|by apply Forall_take, Forall_drop]. unfold wire_frame, wire_u32. rewrite Hn. unfold n at 1. rewrite <- Hl at 1.
  rewrite to_from_le_bytes by done. rewrite <- app_assoc, ztake_zdrop. by rewrite ztake_zdrop.
Qed.

(** ** Host messages *)

(** A message: its magic, the values it carries, their body and its codec. *)
Record message {A} (magic : list u8) (typed ok : A -> Prop) (body : A -> list u8)
    (enc : A -> result (list u8) TestProtocolError) (dec : list u8 -> result A TestProtocolError) : Prop := {
  message_enc : forall x, ok x -> zlen (wire_header magic ++ body x) <= MAX_FRAME_BYTES -> enc x = Ok (wire_header magic ++ body x);
  message_enc_exact : forall x payload, typed x -> enc x = Ok payload ->
    ok x /\ payload = wire_header magic ++ body x /\ zlen payload <= MAX_FRAME_BYTES;
  message_dec : forall x, ok x -> Forall in_u8 (wire_header magic ++ body x) -> zlen (wire_header magic ++ body x) <= MAX_FRAME_BYTES ->
    dec (wire_header magic ++ body x) = Ok x;
  message_dec_exact : forall payload x, Forall in_u8 payload -> dec payload = Ok x ->
    ok x /\ payload = wire_header magic ++ body x /\ zlen payload <= MAX_FRAME_BYTES;
}.

(** What the types of a message's parts guarantee, and what travels. *)
Record command_with (kind : TestErrorTypeIdentity -> Prop) (c : TestHostCommand) : Prop := {
  command_id_ok : digest_ok (TestHostCommandId_0 (command_id c));
  command_digest_ok : digest_ok (TestCatalogDigest_0 (command_catalog_digest c));
  command_entry_ok : in_u32 (TestCatalogEntryId_0 (command_entry c));
  command_timeout_ok : timeout_ok (command_timeout c);
  command_capture_ok : capture_ok (command_capture c);
  command_error_ok : option_ok kind (command_error_type c);
}.

Definition command_ok : TestHostCommand -> Prop := command_with error_type_ok.
Definition command_typed : TestHostCommand -> Prop := command_with error_type_typed.

Definition command_body (c : TestHostCommand) : list u8 :=
  wire_bytes (TestHostCommandId_0 (command_id c)) ++ wire_bytes (TestCatalogDigest_0 (command_catalog_digest c)) ++
  wire_u32 (TestCatalogEntryId_0 (command_entry c)) ++ wire_timeout (command_timeout c) ++ wire_capture (command_capture c) ++
  wire_option wire_error_type (command_error_type c).

(** [Encoder_finish] on appended bytes. *)
Lemma finish_extend e bytes :
  Encoder_finish (Encoder_extend e bytes) =
  if MAX_FRAME_BYTES <? zlen (encoder_bytes e ++ bytes) then Err ResourceLimit else Ok (encoder_bytes e ++ bytes).
Proof. done. Qed.

Lemma Encoder_finish_ok e payload : Encoder_finish e = Ok payload -> payload = encoder_bytes e /\ zlen (encoder_bytes e) <= MAX_FRAME_BYTES.
Proof. unfold Encoder_finish. destruct (MAX_FRAME_BYTES <? _) eqn:E; [done|]. intros [= <-]. split; [done|lia]. Qed.

(** The payload written so far is the whole message. *)
Ltac finish_with payload :=
  appended; rewrite finish_extend; cbn [encoder_bytes app];
  match goal with |- (if _ <? zlen ?b then _ else _) = _ => change b with payload end;
  rewrite (proj2 (Z.ltb_ge _ _)) by lia; done.

Lemma command_message : message COMMAND_MAGIC command_typed command_ok command_body encode_host_command decode_host_command.
Proof.
  split.
  - intros x [H1 H2 H3 H4 H5 H6] Hm. unfold encode_host_command. rewrite Encoder_new_header, (writes_ok digest_writes) by done. cbn [result_bind].
    rewrite (writes_ok digest_writes) by done. cbn [result_bind]. rewrite timeout_appends, capture_appends, (writes_ok optional_error_type_writes) by done.
    cbn [result_bind]. finish_with (wire_header COMMAND_MAGIC ++ command_body x).
  - intros x payload [H1 H2 H3 H4 H5 H6] H. unfold encode_host_command in H. rewrite Encoder_new_header in H.
    emit H as e1 E1. emit H as e2 E2. rewrite timeout_appends, capture_appends in H. emit H as e3 E3.
    apply Encoder_finish_ok in H as [-> Hm]. emitted optional_error_type_writes in E3. unfold Encoder_u32 in Hm.
    emitted digest_writes in E2. emitted digest_writes in E1. split; [by split|].
    rewrite !extend_extend in *. unfold command_body, Encoder_u32, wire_u32. rewrite !extend_extend. cbn [Encoder_extend encoder_bytes app].
    rewrite <- !app_assoc. done.
  - intros x [H1 H2 H3 H4 H5 H6] Hf Hm. unfold decode_host_command.
    destruct (Decoder_new_accept COMMAND_MAGIC (command_body x)) as (d & -> & Hd); [done|done|done|]. cbn [result_bind].
    unfold command_body in Hd. rewrite <- ?app_assoc in Hd. rewrite <- (app_nil_r (wire_option _ _)) in Hd.
    accept digest_reads (TestHostCommandId_0 (command_id x)); [done|].
    accept digest_reads (TestCatalogDigest_0 (command_catalog_digest x)); [done|].
    accept u32_reads (TestCatalogEntryId_0 (command_entry x)); [done|].
    accept timeout_reads (command_timeout x); [done|]. accept capture_reads (command_capture x); [done|].
    accept optional_error_type_reads (command_error_type x); [done|].
    rewrite (proj2 (Decoder_finish_nil _ _ Hd) eq_refl). by destruct x as [[] [] [] ? ? ?].
  - intros payload x Hf H. unfold decode_host_command in H. destruct (Decoder_new payload COMMAND_MAGIC) as [d|] eqn:En; [|done].
    cbn [result_bind] in H. apply (Decoder_new_exact _ _ _ Hf) in En as (body & -> & Hd & Hm).
    step digest_reads in H as id d1 Hid post. step digest_reads in H as dg d2 Hdg post2. step u32_reads in H as n d3 Hn post3.
    step timeout_reads in H as t d4 Ht post4. step capture_reads in H as c d5 Hc post5. step optional_error_type_reads in H as o d6 Ho post6.
    destruct (Decoder_finish d6) as [[]|] eqn:Ef; [|done]. cbn [result_bind] in H. injection H as <-.
    apply (Decoder_finish_nil d6 post6) in Ef as ->; [|done]. split; [by split|]. split; [|done].
    unfold command_body. by rewrite app_nil_r.
Qed.

(** Formats are bytes. *)
Create HintDb wire discriminated.

Lemma wire_bytes_bytes b : Forall in_u8 b -> Forall in_u8 (wire_bytes b).
Proof. intros Hb. apply Forall_app. split; [apply to_le_bytes_bytes|done]. Qed.

Lemma wire_text_bytes s : text_ok s -> Forall in_u8 (wire_bytes s).
Proof. intros [Hs _]. by apply wire_bytes_bytes, valid_utf8_bytes. Qed.

Lemma wire_option_bytes {A} (ok : A -> Prop) wire o :
  (forall x, ok x -> Forall in_u8 (wire x)) -> option_ok ok o -> Forall in_u8 (wire_option wire o).
Proof. intros Hw Ho. destruct o; simpl in *; constructor; try done. by apply Hw. Qed.

Lemma wire_all_bytes {A} (ok : A -> Prop) wire l :
  (forall x, ok x -> Forall in_u8 (wire x)) -> Forall ok l -> Forall in_u8 (wire_all wire l).
Proof. intros Hw. unfold wire_all. induction 1; simpl; [constructor|]. apply Forall_app. split; [by apply Hw|done]. Qed.

Lemma wire_code_bytes {A} (code : A -> u8) of_code x : codes code of_code -> Forall in_u8 (wire_u8 (code x)).
Proof. intros [Hb _]. constructor; [apply Hb|constructor]. Qed.

Lemma wire_source_bytes s : source_typed s -> Forall in_u8 (wire_source s).
Proof.
  intros [[Hp _] _ _ _]. unfold wire_source. rewrite !Forall_app. split_and!; try apply to_le_bytes_bytes. by apply wire_bytes_bytes.
Qed.

Lemma wire_error_type_bytes t : error_type_ok t -> Forall in_u8 (wire_error_type t).
Proof. intros [_ Ht]. by apply wire_text_bytes. Qed.

Lemma wire_stored_source_bytes s : source_ok s -> Forall in_u8 (wire_source s).
Proof. intros [Hs _]%source_ok_typed. by apply wire_source_bytes. Qed.

#[export] Hint Resolve wire_stored_source_bytes : wire.
#[export] Hint Resolve to_le_bytes_bytes wire_bytes_bytes wire_text_bytes wire_source_bytes wire_error_type_bytes : wire.
#[export] Hint Extern 1 (Forall in_u8 (wire_u32 _)) => apply to_le_bytes_bytes : wire.
#[export] Hint Extern 1 (Forall in_u8 (wire_u64 _)) => apply to_le_bytes_bytes : wire.
#[export] Hint Extern 2 (Forall in_u8 (_ ++ _)) => apply Forall_app; split : wire.
#[export] Hint Extern 2 (Forall in_u8 (wire_option _ _)) => eapply wire_option_bytes; [|eassumption] : wire.

Lemma wire_timeout_bytes t : Forall in_u8 (wire_timeout t).
Proof. destruct t; cbn [wire_timeout]; (constructor; [done|]); [constructor|]. auto with wire. Qed.

Lemma wire_capture_bytes c : Forall in_u8 (wire_capture c).
Proof. destruct c; cbn [wire_capture]; (constructor; [done|]); [|constructor|constructor]. auto with wire. Qed.

Lemma header_bytes magic : Forall in_u8 magic -> Forall in_u8 (wire_header magic).
Proof. intros Hm. apply Forall_app. split; [done|apply to_le_bytes_bytes]. Qed.

Lemma wire_infrastructure_bytes f : Forall in_u8 (wire_infrastructure f).
Proof.
  unfold wire_infrastructure. rewrite !Forall_app. split_and!.
  - apply (wire_code_bytes _ _ _ infrastructure_codes).
  - apply (wire_option_bytes (fun _ => True)); [intros; apply to_le_bytes_bytes|by destruct (detail_code f)].
  - destruct (host_termination f) as [[]|]; simpl; (constructor; [done|]); try apply to_le_bytes_bytes. constructor.
Qed.

Lemma wire_outcome_bytes o : outcome_wired o -> Forall in_u8 (wire_outcome o).
Proof.
  unfold outcome_wired. destruct o as [|t s v|f|f|r|n|s|f]; cbn [outcome_with wire_outcome]; intros Ho; (constructor; [done|]).
  - constructor.
  - destruct Ho as (? & ? & ?). auto 10 with wire.
  - destruct Ho. auto 10 with wire.
  - destruct Ho. auto 10 with wire.
  - destruct Ho. apply Forall_app. split; [apply (wire_code_bytes _ _ _ panic_codes)|]. auto 10 with wire.
  - auto with wire.
  - apply (wire_code_bytes _ _ _ cancellation_codes).
  - apply wire_infrastructure_bytes.
Qed.

Lemma wire_stream_bytes s : stream_ok s -> Forall in_u8 (wire_stream s).
Proof.
  intros ([Hb _] & _ & Hf & _). unfold wire_stream. rewrite !Forall_app. split_and!; auto with wire.
  - constructor; [by destruct (stream_policy s)|constructor].
  - eapply wire_option_bytes; [|exact Hf]. intros f Hp. unfold wire_stream_failure. apply Forall_app.
    split; [apply (wire_code_bytes _ _ _ stream_failure_codes)|]. eapply wire_option_bytes; [|exact Hp]. auto with wire.
Qed.

Lemma command_body_bytes c : command_ok c -> Forall in_u8 (command_body c).
Proof.
  intros [[H1 _] [H2 _] _ _ _ H6]. unfold command_body. rewrite !Forall_app.
  split_and!; auto using wire_timeout_bytes, wire_capture_bytes with wire.
Qed.

(** *** Control messages and results *)

Definition control_body (c : TestHostControl) : list u8 := match c with Cancel => [0] end.

Lemma control_message :
  message CONTROL_MAGIC (fun _ => True) (fun _ => True) control_body encode_host_control decode_host_control.
Proof.
  split.
  - intros [] _ Hm. done.
  - intros [] payload _ [= <-]. done.
  - intros [] _ _ _. done.
  - intros payload x Hf H. unfold decode_host_control in H. destruct (Decoder_new payload CONTROL_MAGIC) as [d|] eqn:En; [|done].
    cbn [result_bind] in H. apply (Decoder_new_exact _ _ _ Hf) in En as (body & -> & Hd & Hm). step u8_reads in H as t d1 Ht post.
    destruct (Z.eqb_spec t 0) as [->|]; [|done]. destruct (Decoder_finish d1) as [[]|] eqn:Ef; [|done]. destruct x.
    apply (Decoder_finish_nil d1 post) in Ef as ->; [|done]. done.
Qed.

Record result_with (outcome : TestOutcome -> Prop) (stream : CapturedStream -> Prop) (count : Z -> Prop) (r : TestHostResult) : Prop := {
  result_id_ok : digest_ok (TestHostCommandId_0 (hr_command_id r));
  result_digest_ok : digest_ok (TestCatalogDigest_0 (hr_catalog_digest r));
  result_outcome_ok : outcome (hr_outcome r);
  result_count_ok : count (zlen (hr_suppressed r));
  result_suppressed_ok : Forall outcome (hr_suppressed r);
  result_output_ok : stream (hr_standard_output r);
  result_error_ok : stream (hr_standard_error r);
}.

Definition host_result_ok : TestHostResult -> Prop := result_with outcome_ok stream_ok (fun n => n <= MAX_COLLECTION_ITEMS).

(** What the types guarantee, and what is written of it. *)
Definition host_result_typed : TestHostResult -> Prop := result_with outcome_typed stream_typed (fun _ => True).
Definition host_result_wired : TestHostResult -> Prop := result_with outcome_wired stream_ok (fun n => n <= U32_MAX).

(** What the reader accepts of what is written: no anchor in generated text, and at
    most a million suppressed incidents. *)
Definition readable (r : TestHostResult) : bool :=
  outcome_stored (hr_outcome r) && (zlen (hr_suppressed r) <=? MAX_COLLECTION_ITEMS) && forallb outcome_stored (hr_suppressed r).

Lemma outcomes_ok_wired l : Forall outcome_ok l <-> Forall outcome_wired l /\ forallb outcome_stored l = true.
Proof.
  induction l as [|o l IH]; [by split|]. cbn [forallb]. rewrite !Forall_cons_iff, IH, outcome_ok_wired, andb_true_iff. tauto.
Qed.

Lemma host_result_ok_wired r : host_result_ok r <-> host_result_wired r /\ readable r = true.
Proof.
  unfold readable. rewrite !andb_true_iff, Z.leb_le. split.
  - intros [H1 H2 H3%outcome_ok_wired H4 H5%outcomes_ok_wired H6 H7]. split; [|tauto]. split; try tauto. unfold MAX_COLLECTION_ITEMS, U32_MAX in *. lia.
  - intros [[H1 H2 H3 H4 H5 H6 H7] [[H8 H9] H10]]. split; try done; [by apply outcome_ok_wired|by apply outcomes_ok_wired].
Qed.

Definition result_body (r : TestHostResult) : list u8 :=
  wire_bytes (TestHostCommandId_0 (hr_command_id r)) ++ wire_bytes (TestCatalogDigest_0 (hr_catalog_digest r)) ++
  wire_outcome (hr_outcome r) ++ wire_u32 (zlen (hr_suppressed r)) ++ wire_all wire_outcome (hr_suppressed r) ++
  wire_stream (hr_standard_output r) ++ wire_stream (hr_standard_error r).

Lemma count_writes : writes count_ok count_ok wire_u32 Encoder_length.
Proof.
  assert (forall n e, count_ok n -> Encoder_length n e = Ok (Encoder_extend e (wire_u32 n))) as Henc.
  { intros n e [H0 Hn]. unfold Encoder_length, u32_try_from. rewrite checked_ok; [done|]. unfold MAX_COLLECTION_ITEMS, U32_MAX in *. lia. }
  split; [done|]. intros x e e' Hx. rewrite Henc by done. by intros [= <-].
Qed.

Lemma length_writes : writes (fun n => 0 <= n) in_u32 wire_u32 Encoder_length.
Proof.
  split.
  - intros n e Hn. unfold Encoder_length, u32_try_from. by rewrite checked_ok.
  - intros n e e' Hn. unfold Encoder_length, u32_try_from. destruct (checked U32_MAX n) as [m|] eqn:E; [|done]. apply checked_Some in E as [-> H]. intros [= <-] _. done.
Qed.

Lemma result_body_bytes r : host_result_wired r -> Forall in_u8 (result_body r).
Proof.
  intros [[H1 _] [H2 _] H3 _ H5 H6 H7]. unfold result_body. rewrite !Forall_app.
  split_and!; auto using wire_outcome_bytes, wire_stream_bytes with wire. eapply wire_all_bytes; [|exact H5]. apply wire_outcome_bytes.
Qed.

Lemma result_ok_bytes r : host_result_ok r -> Forall in_u8 (result_body r).
Proof. intros [Hr _]%host_result_ok_wired. by apply result_body_bytes. Qed.

(** The writer. *)
Lemma result_encodes x : host_result_wired x -> zlen (wire_header RESULT_MAGIC ++ result_body x) <= MAX_FRAME_BYTES ->
  encode_host_result x = Ok (wire_header RESULT_MAGIC ++ result_body x).
Proof.
  intros [H1 H2 H3 H4 H5 H6 H7] Hm. unfold encode_host_result. rewrite Encoder_new_header, (writes_ok digest_writes) by done. cbn [result_bind].
  rewrite (writes_ok digest_writes) by done. cbn [result_bind]. rewrite (writes_ok outcome_writes) by done. cbn [result_bind].
  rewrite (writes_ok length_writes) by (split; [apply zlen_nonneg|done]). cbn [result_bind].
  rewrite (writes_ok (all_writes _ _ _ _ outcome_writes)) by done. cbn [result_bind].
  rewrite (writes_ok stream_writes) by done. cbn [result_bind]. rewrite (writes_ok stream_writes) by done. cbn [result_bind].
  finish_with (wire_header RESULT_MAGIC ++ result_body x).
Qed.

Lemma result_written x payload : host_result_typed x -> encode_host_result x = Ok payload ->
  host_result_wired x /\ payload = wire_header RESULT_MAGIC ++ result_body x /\ zlen payload <= MAX_FRAME_BYTES.
Proof.
  intros [H1 H2 H3 _ H5 H6 H7] H. unfold encode_host_result in H. rewrite Encoder_new_header in H.
  emit H as e1 E1. emit H as e2 E2. emit H as e3 E3. emit H as e4 E4. emit H as e5 E5. emit H as e6 E6. emit H as e7 E7.
  apply Encoder_finish_ok in H as [-> Hm]. emitted stream_writes in E7. emitted stream_writes in E6.
  emitted (all_writes _ _ _ _ outcome_writes) in E5. pose proof (zlen_nonneg (hr_suppressed x)) as Hn0.
  apply (writes_typed length_writes) in E4 as [[_ Hc] ->]; [|done|repeat (rewrite ?extend_length in * |-); lengths; lia].
  emitted outcome_writes in E3. emitted digest_writes in E2. emitted digest_writes in E1.
  split; [by split|]. split; [|done]. rewrite !extend_extend. unfold result_body. cbn [Encoder_extend encoder_bytes app]. rewrite <- ?app_assoc. done.
Qed.

(** The reader, on anything that is written. *)
Lemma result_decodes x : host_result_wired x -> zlen (wire_header RESULT_MAGIC ++ result_body x) <= MAX_FRAME_BYTES ->
  decode_host_result (wire_header RESULT_MAGIC ++ result_body x) =
  if negb (outcome_stored (hr_outcome x)) then Err Malformed
  else if MAX_COLLECTION_ITEMS <? zlen (hr_suppressed x) then Err ResourceLimit
  else if forallb outcome_stored (hr_suppressed x) then Ok x else Err Malformed.
Proof.
  intros Hx Hm. assert (Forall in_u8 (wire_header RESULT_MAGIC ++ result_body x)) as Hf by (apply Forall_app; split; [apply header_bytes; by repeat constructor|by apply result_body_bytes]).
  destruct Hx as [H1 H2 H3 H4 H5 H6 H7]. unfold decode_host_result.
  destruct (Decoder_new_accept RESULT_MAGIC (result_body x)) as (d & -> & Hd); [done|done|done|]. cbn [result_bind].
  unfold result_body in Hd. rewrite <- (app_nil_r (wire_stream (hr_standard_error x))) in Hd.
  accept digest_reads (TestHostCommandId_0 (hr_command_id x)); [done|].
  accept digest_reads (TestCatalogDigest_0 (hr_catalog_digest x)); [done|].
  destruct (outcome_stored (hr_outcome x)) eqn:Eo; cbn [negb]; [|by rewrite (outcome_rejects _ _ _ H3 Eo Hd)].
  accept outcome_reads (hr_outcome x); [by apply outcome_ok_wired|].
  destruct (MAX_COLLECTION_ITEMS <? zlen (hr_suppressed x)) eqn:Ec.
  { unfold Decoder_length at 1. accept u32_reads (zlen (hr_suppressed x)); [split; [apply zlen_nonneg|done]|]. by rewrite Ec. }
  accept count_reads (zlen (hr_suppressed x)); [split; [apply zlen_nonneg|lia]|].
  assert (Z.to_nat (zlen (hr_suppressed x)) = length (hr_suppressed x)) as -> by (unfold zlen; lia).
  destruct (forallb outcome_stored (hr_suppressed x)) eqn:Es; [|by rewrite (outcomes_reject _ _ _ H5 Es Hd)].
  accept (many_reads _ _ _ (length (hr_suppressed x)) outcome_reads) (hr_suppressed x); [split; [done|by apply outcomes_ok_wired]|].
  accept stream_reads (hr_standard_output x); [done|]. accept stream_reads (hr_standard_error x); [done|].
  rewrite (proj2 (Decoder_finish_nil _ _ Hd) eq_refl). by destruct x as [[] [] ? ? ? ?].
Qed.

Lemma result_message :
  message RESULT_MAGIC (fun r => host_result_typed r /\ readable r = true) host_result_ok result_body encode_host_result decode_host_result.
Proof.
  split.
  - intros x [Hx _]%host_result_ok_wired. by apply result_encodes.
  - intros x payload [Hx Hr] (Hw & -> & Hm)%result_written; [|done]. split; [by apply host_result_ok_wired|done].
  - intros x [Hx Hr]%host_result_ok_wired _ Hm. rewrite result_decodes by done. unfold readable in Hr. apply andb_true_iff in Hr as [[-> Hc]%andb_true_iff ->]. cbn [negb].
    by rewrite (proj2 (Z.ltb_ge _ _)) by lia.
  - intros payload x Hf H. unfold decode_host_result in H. destruct (Decoder_new payload RESULT_MAGIC) as [d|] eqn:En; [|done].
    cbn [result_bind] in H. apply (Decoder_new_exact _ _ _ Hf) in En as (body & -> & Hd & Hm).
    step digest_reads in H as id d1 Hid post. step digest_reads in H as dg d2 Hdg post2. step outcome_reads in H as o d3 Ho post3.
    step count_reads in H as n d4 Hn post4. step (many_reads _ _ _ (Z.to_nat n) outcome_reads) in H as l d5 Hl post5.
    step stream_reads in H as so d6 Hso post6. step stream_reads in H as se d7 Hse post7.
    destruct (Decoder_finish d7) as [[]|] eqn:Ef; [|done]. cbn [result_bind] in H. injection H as <-.
    apply (Decoder_finish_nil d7 post7) in Ef as ->; [|done]. destruct Hl as [Hl Hf'], Hn as [Hn1 Hn2].
    assert (n = zlen l) as -> by (unfold zlen; lia). split; [by split|]. split; [|done].
    unfold result_body, TestHostResult_with_suppressed, TestHostResult_after_cleanup. cbn. by rewrite app_nil_r.
Qed.
