(* ===== verification/TestMessages.v ===== *)
(** * Round trips of the test protocol

    The guarantees of [bray-test-protocol/codec]: host commands, control messages
    and results, and test catalogs, survive the wire; readers accept only what
    writers write; decoding never panics. *)

From Stdlib Require Import ZArith Lia String Sorting.Sorted Sorting.Permutation.
From stdpp Require Import base option relations list.
From S2P Require Import Prelude Utf8 SourceText Order Base TestModel TestCatalog TestCodec TestWire.

(** ** Messages in frames *)

Section message.
Context {A : Type} {magic : list u8} {typed ok : A -> Prop} {body : A -> list u8}.
Context {enc : A -> result (list u8) TestProtocolError} {dec : list u8 -> result A TestProtocolError}.
Context (F : message magic typed ok body enc dec) (Hbody : forall x, ok x -> Forall in_u8 (body x)).
Context (Hmagic : Forall in_u8 magic).

(** The shape of every [write_*] and [read_*]. *)
Definition write_message (w : list u8) (x : A) : result (list u8) TestProtocolError :=
  let? payload := enc x in write_frame w payload.

Definition read_message (r : list u8) : result (A * list u8) TestProtocolError :=
  let? payload := read_frame r in
  let? x := dec payload.1 in
  Ok (x, payload.2).

Lemma message_round_trip w x w' :
  typed x -> write_message w x = Ok w' ->
  exists frame, w' = w ++ frame /\ Forall in_u8 frame /\ forall rest, read_message (frame ++ rest) = Ok (x, rest).
Proof using F Hbody Hmagic.
  intros Ht. unfold write_message. destruct (enc x) as [payload|] eqn:E; [|done]. cbn [result_bind].
  apply (message_enc_exact _ _ _ _ _ _ F) in E as (Hok & -> & Hm); [|done]. rewrite write_frame_vec, (proj2 (Z.ltb_ge _ _)) by lia.
  intros [= <-]. assert (Forall in_u8 (wire_header magic ++ body x)) as Hb by (apply Forall_app; split; [by apply header_bytes|by apply Hbody]).
  eexists. split; [done|]. split; [apply Forall_app; split; [apply to_le_bytes_bytes|done]|].
  intros rest. unfold read_message. rewrite read_frame_slice by lia. cbn [result_bind fst snd].
  by rewrite (message_dec _ _ _ _ _ _ F) by done.
Qed.

Lemma message_canonical bytes x rest :
  Forall in_u8 bytes -> read_message bytes = Ok (x, rest) ->
  ok x /\ exists frame, bytes = frame ++ rest /\ forall w, write_message w x = Ok (w ++ frame).
Proof using F.
  intros Hb. unfold read_message. destruct (read_frame bytes) as [[payload r]|] eqn:E; [|done]. cbn [result_bind fst snd].
  destruct (dec payload) as [y|] eqn:Ed; [|done]. intros [= <- <-].
  apply read_frame_exact in E as (-> & Hm & Hp); [|done]. apply (message_dec_exact _ _ _ _ _ _ F) in Ed as (Hok & -> & _); [|done].
  split; [done|]. eexists. split; [done|]. intros w. unfold write_message. rewrite (message_enc _ _ _ _ _ _ F) by done. cbn [result_bind].
  by rewrite write_frame_vec, (proj2 (Z.ltb_ge _ _)) by lia.
Qed.

(** A frame is read exactly if it is what is written for a value within the limits. *)
Lemma message_exact bytes x rest :
  (forall y, ok y -> typed y) -> Forall in_u8 bytes ->
  read_message bytes = Ok (x, rest) <->
  ok x /\ exists frame, bytes = frame ++ rest /\ forall w, write_message w x = Ok (w ++ frame).
Proof using F Hbody Hmagic.
  intros Ho Hb. split; [by apply message_canonical|]. intros [Hok (frame & -> & Hw)].
  destruct (message_round_trip [] x ([] ++ frame)) as (f & E & _ & Hr); [by apply Ho|apply Hw|]. cbn [app] in E. subst f. apply Hr.
Qed.
End message.

(** ** Catalogs *)

Lemma try_new_segments_Some texts segments :
  try_new_segments texts = Some segments <-> map NonEmptySharedStr_text segments = texts /\ Forall (fun t => t <> []) texts.
Proof.
  revert segments. induction texts as [|t texts IH]; intros segments; simpl.
  { split; [intros [= <-]; by split; [|constructor]|]. intros [Hm _]. by destruct segments. }
  unfold NonEmptySharedStr_try_new. case_bool_decide as Ht; [split; [done|]; intros [_ Hf]; by inversion Hf|].
  destruct (try_new_segments texts) as [l|].
  - destruct (proj1 (IH l) eq_refl) as [<- Hf]. split; [intros [= <-]; split; [done|by constructor]|].
    intros [Hm _]. destruct segments as [|[s] segments]; [done|]. simpl in Hm. injection Hm as <- Hm. do 2 f_equal.
    revert Hm. clear. revert segments. induction l as [|[x] l IH]; intros [|[y] segments]; try done. simpl. intros [= <- Hm]. f_equal. by apply IH.
  - split; [done|]. intros [Hm Hf]. destruct segments as [|s segments]; [done|]. simpl in Hm. injection Hm as _ Hm. inversion Hf; subst.
    by pose proof (proj2 (IH segments) (conj eq_refl ltac:(done))).
Qed.

Definition name_with (text : str -> Prop) (s : str) : Prop := s <> [] /\ text s.

Record entry_with (text : str -> Prop) (kind : TestErrorTypeIdentity -> Prop) (product : ProductIdentity) (e : TestEntryMetadata) : Prop := {
  entry_product_ok : id_product (entry_identity e) = product;
  entry_module_ok : exists segments, path_module (id_declaration (entry_identity e)) = PathPresent segments /\ segments <> [] /\
    zlen segments <= MAX_COLLECTION_ITEMS /\ Forall (name_with text) (map NonEmptySharedStr_text segments);
  entry_name_ok : name_with text (SymbolName_as_str (path_name (id_declaration (entry_identity e))));
  entry_source_ok : source_ok (entry_source e);
  entry_error_ok : option_ok kind (entry_error_type e);
}.

Definition entry_ok := entry_with text_ok error_type_ok.
Definition entry_typed := entry_with valid_utf8 error_type_typed.

Definition wire_entry (e : TestEntryMetadata) : list u8 :=
  let path := id_declaration (entry_identity e) in
  let segments := ModulePathKey_segments (path_module path) in
  wire_u32 (zlen segments) ++ wire_all wire_bytes segments ++ wire_bytes (SymbolName_as_str (path_name path)) ++
  wire_source (entry_source e) ++ wire_u8 (execution_code (entry_execution e)) ++ wire_u8 (constraint_code (entry_constraint e)) ++
  wire_u8 (shape_code (entry_result e)) ++ wire_option wire_error_type (entry_error_type e).

Lemma segments_text segments : ModulePathKey_segments (PathPresent segments) = map NonEmptySharedStr_text segments.
Proof. done. Qed.

Lemma segments_count (segments : list NonEmptySharedStr) : zlen (map NonEmptySharedStr_text segments) = zlen segments.
Proof. unfold zlen. by rewrite length_map. Qed.

Lemma module_try_new segments :
  segments <> [] -> Forall (fun t => t <> []) (map NonEmptySharedStr_text segments) ->
  ModulePathKey_try_new (map NonEmptySharedStr_text segments) = Some (PathPresent segments).
Proof.
  intros Hne Hf. unfold ModulePathKey_try_new. rewrite (proj2 (try_new_segments_Some _ segments)) by done.
  by rewrite bool_decide_false.
Qed.

Lemma module_try_new_exact texts m :
  ModulePathKey_try_new texts = Some m ->
  exists segments, m = PathPresent segments /\ segments <> [] /\ texts = map NonEmptySharedStr_text segments /\ Forall (fun t => t <> []) texts.
Proof.
  unfold ModulePathKey_try_new. destruct (try_new_segments texts) as [l|] eqn:E; [|done]. case_bool_decide; [done|]. intros [= <-].
  apply try_new_segments_Some in E as [<- Hf]. by exists l.
Qed.

Lemma entry_reads product : reads (entry_ok product) wire_entry (decode_entry product).
Proof.
  split.
  - intros [[p [m [[n]]]] s x c r t] d post [Hp (l & Hm & Hne & Hl & Hf) [Hn Hnt] Hs Ht] Hd.
    cbn [entry_identity id_product id_declaration path_module path_name entry_source entry_error_type] in *. subst p m.
    unfold wire_entry in Hd. cbn [entry_identity id_declaration path_module path_name entry_source entry_execution entry_constraint entry_result
      entry_error_type] in Hd. rewrite segments_text in Hd. rewrite <- !app_assoc in Hd. rewrite segments_count in Hd.
    unfold decode_entry. accept count_reads (zlen l); [split; [apply zlen_nonneg|done]|].
    assert ((zlen l =? 0) = false) as -> by (destruct l; [done|]; rewrite zlen_cons; pose proof (zlen_nonneg l); lia).
    accept (many_reads _ _ _ (Z.to_nat (zlen l)) text_reads) (map NonEmptySharedStr_text l).
    { split; [rewrite length_map; unfold zlen; lia|]. eapply Forall_impl; [exact Hf|]. by intros t' [_ Ht']. }
    rewrite module_try_new; [|done|eapply Forall_impl; [exact Hf|]; by intros t' [Ht' _]]. cbn [ok_or result_bind].
    change (SymbolName_as_str {| SymbolName_0 := {| NonEmptySharedStr_text := n |} |}) with n in *.
    accept text_reads n; [done|]. unfold SymbolName_try_new, NonEmptySharedStr_try_new. rewrite bool_decide_false by done. cbn [ok_or result_bind].
    accept source_reads s; [done|]. accept (code_reads _ _ execution_codes) x; [done|]. accept (code_reads _ _ constraint_codes) c; [done|].
    accept (code_reads _ _ shape_codes) r; [done|]. accept optional_error_type_reads t; [done|]. by exists d7.
  - intros d l x d' Hd H. unfold decode_entry in H. step count_reads in H as n d1 Hn post. destruct (n =? 0) eqn:E0; [done|].
    step (many_reads _ _ _ (Z.to_nat n) text_reads) in H as ts d2 Hts post2.
    destruct (ModulePathKey_try_new ts) as [m|] eqn:Em; [|done]. cbn [ok_or result_bind] in H.
    apply module_try_new_exact in Em as (segs & -> & Hne & -> & Hnt). step text_reads in H as nm d3 Hnm post3.
    unfold SymbolName_try_new, NonEmptySharedStr_try_new in H. case_bool_decide as Hnn; [done|]. cbn [ok_or result_bind] in H.
    step source_reads in H as s d4 Hs post4. step (code_reads _ _ execution_codes) in H as ex d5 Hex post5.
    step (code_reads _ _ constraint_codes) in H as co d6 Hco post6. step (code_reads _ _ shape_codes) in H as sh d7 Hsh post7.
    step optional_error_type_reads in H as t d8 Ht post8. injection H as <- <-. destruct Hts as [Hlen Htexts], Hn as [Hn1 Hn2].
    rewrite length_map in Hlen. assert (n = zlen segs) as -> by (unfold zlen; lia). split.
    + split; cbn [entry_identity id_product id_declaration path_module path_name entry_source entry_error_type]; try done.
      exists segs. split_and!; try done. rewrite Forall_forall in Htexts, Hnt |- *. intros t' Ht'. split; [by apply Hnt|by apply Htexts].
    + exists post8. split; [|done]. unfold wire_entry. rewrite <- !app_assoc. cbn [entry_identity id_declaration path_module path_name entry_source
        entry_execution entry_constraint entry_result entry_error_type]. by rewrite segments_text, segments_count.
Qed.

Lemma entry_writes product : writes (entry_typed product) (entry_ok product) wire_entry encode_entry.
Proof.
  split.
  - intros x e [_ (l & Hm & Hne & Hl & Hf) [Hn Hnt] Hs Ht]. unfold encode_entry, wire_entry. rewrite Hm, segments_text, segments_count.
    rewrite (writes_ok count_writes) by (split; [apply zlen_nonneg|done]). cbn [result_bind].
    rewrite (writes_ok (all_writes _ _ _ _ text_writes)) by (eapply Forall_impl; [exact Hf|]; by intros t [_ ?]). cbn [result_bind].
    rewrite (writes_ok text_writes) by done. cbn [result_bind]. rewrite (writes_ok stored_source_writes) by done. cbn [result_bind].
    rewrite (writes_ok optional_error_type_writes) by done. by appended.
  - intros x e e' [Hp (l & Hm & Hne & Hl & Hf) [Hn Hnt] Hs Ht] H Hle. unfold encode_entry in H. rewrite Hm, segments_text, segments_count in H.
    assert (Forall valid_utf8 (map NonEmptySharedStr_text l)) as Hfv by (eapply Forall_impl; [exact Hf|]; by intros t [_ ?]).
    assert (count_ok (zlen l)) as Hc by (split; [apply zlen_nonneg|done]).
    emit H as e1 E1. emit H as e2 E2. emit H as e3 E3. emit H as e4 E4. emitted optional_error_type_writes in H.
    unfold Encoder_u8 in Hle. emitted stored_source_writes in E4. emitted text_writes in E3. emitted (all_writes _ _ _ _ text_writes) in E2.
    emitted count_writes in E1. split.
    + split; try done. exists l. split_and!; try done. rewrite Forall_forall in *. intros t Hin. split; [by apply Hf|]. by apply H2.
    + unfold wire_entry. rewrite Hm, segments_text, segments_count. by appended.
Qed.

Record product_with (text : str -> Prop) (p : ProductIdentity) : Prop := {
  product_package_ok : name_with text (PackageIdentity_as_str (product_package p));
  product_name_ok : name_with text (ProductIdentity_name p);
}.

Definition wire_product (p : ProductIdentity) : list u8 :=
  wire_bytes (PackageIdentity_as_str (product_package p)) ++ wire_bytes (ProductIdentity_name p).

Lemma product_reads : reads (product_with text_ok) wire_product decode_product.
Proof.
  split.
  - intros [[[p]] [n]] d post [[Hp Hpt] [Hn Hnt]] Hd. unfold wire_product in Hd. rewrite <- app_assoc in Hd.
    unfold PackageIdentity_as_str, ProductIdentity_name, NonEmptySharedStr_as_str in *.
    cbn [product_package product_name PackageIdentity_0 NonEmptySharedStr_text] in *.
    unfold decode_product. accept text_reads p; [done|]. unfold PackageIdentity_try_new, NonEmptySharedStr_try_new.
    rewrite bool_decide_false by done. cbn [ok_or result_bind]. accept text_reads n; [done|].
    unfold ProductIdentity_try_new, NonEmptySharedStr_try_new. rewrite bool_decide_false by done. by exists d1.
  - intros d l x d' Hd H. unfold decode_product in H. step text_reads in H as p d1 Hp post.
    unfold PackageIdentity_try_new, NonEmptySharedStr_try_new in H. case_bool_decide; [done|]. cbn [ok_or result_bind] in H.
    step text_reads in H as n d2 Hn post2. unfold ProductIdentity_try_new, NonEmptySharedStr_try_new in H.
    case_bool_decide; [done|]. cbn [ok_or result_bind] in H. injection H as <- <-. split; [by split|]. exists post2. split; [|done].
    unfold wire_product. by rewrite <- app_assoc.
Qed.

Lemma product_writes : writes (product_with valid_utf8) (product_with text_ok) wire_product encode_product.
Proof.
  split.
  - intros x e [[Hp Hpt] [Hn Hnt]]. unfold encode_product. rewrite (writes_ok text_writes) by done. cbn [result_bind].
    rewrite (writes_ok text_writes) by done. by appended.
  - intros x e e' [[Hp Hpt] [Hn Hnt]] H Hm. unfold encode_product in H. emit H as e1 E1. emitted text_writes in H. emitted text_writes in E1.
    split; [by split|]. unfold wire_product. by appended.
Qed.

(** A product with its entries in some order. *)
Record listing_with (text : str -> Prop) (kind : TestErrorTypeIdentity -> Prop) (l : ProductIdentity * list TestEntryMetadata) : Prop := {
  listing_product : product_with text l.1;
  listing_count : zlen l.2 <= MAX_COLLECTION_ITEMS;
  listing_entries : Forall (entry_with text kind l.1) l.2;
}.

Definition listing_ok := listing_with text_ok error_type_ok.
Definition listing_typed := listing_with valid_utf8 error_type_typed.

Definition listing_body (l : ProductIdentity * list TestEntryMetadata) : list u8 :=
  wire_product l.1 ++ wire_u32 (zlen l.2) ++ wire_all wire_entry l.2.

Definition catalog_of (l : ProductIdentity * list TestEntryMetadata) : TestCatalog :=
  {| catalog_product := l.1; catalog_entries := l.2 |}.

Lemma listing_message :
  message CATALOG_MAGIC listing_typed listing_ok listing_body (fun l => encode_catalog_bytes (catalog_of l)) decode_catalog_bytes.
Proof.
  split.
  - intros x [H1 H2 H3] Hm. unfold encode_catalog_bytes, catalog_of. cbn [catalog_product catalog_entries].
    rewrite Encoder_new_header, (writes_ok product_writes) by done. cbn [result_bind].
    rewrite (writes_ok count_writes) by (split; [apply zlen_nonneg|done]). cbn [result_bind].
    rewrite (writes_ok (all_writes _ _ _ _ (entry_writes x.1))) by done. cbn [result_bind].
    finish_with (wire_header CATALOG_MAGIC ++ listing_body x).
  - intros x payload [H1 H2 H3] H. unfold encode_catalog_bytes, catalog_of in H. cbn [catalog_product catalog_entries] in H.
    rewrite Encoder_new_header in H. assert (count_ok (zlen x.2)) by (split; [apply zlen_nonneg|done]).
    emit H as e1 E1. emit H as e2 E2. emit H as e3 E3. apply Encoder_finish_ok in H as [-> Hm].
    emitted (all_writes _ _ _ _ (entry_writes x.1)) in E3. emitted count_writes in E2. emitted product_writes in E1.
    split; [by split|]. split; [|done]. rewrite !extend_extend. unfold listing_body. cbn [Encoder_extend encoder_bytes app].
    rewrite <- ?app_assoc. done.
  - intros [p es] [H1 H2 H3] Hf Hm. cbn [fst snd] in *. unfold decode_catalog_bytes.
    destruct (Decoder_new_accept CATALOG_MAGIC (listing_body (p, es))) as (d & -> & Hd); [done|done|done|]. cbn [result_bind].
    unfold listing_body in Hd. cbn [fst snd] in Hd. rewrite <- (app_nil_r (wire_all wire_entry es)) in Hd.
    accept product_reads p; [done|]. accept count_reads (zlen es); [split; [apply zlen_nonneg|done]|].
    rewrite (proj2 (Z.ltb_ge _ _)) by lia.
    accept (many_reads _ _ _ (Z.to_nat (zlen es)) (entry_reads p)) es; [split; [unfold zlen; lia|done]|].
    by rewrite (proj2 (Decoder_finish_nil _ _ Hd) eq_refl).
  - intros payload x Hf H. unfold decode_catalog_bytes in H. destruct (Decoder_new payload CATALOG_MAGIC) as [d|] eqn:En; [|done].
    cbn [result_bind] in H. apply (Decoder_new_exact _ _ _ Hf) in En as (body & -> & Hd & Hm).
    step product_reads in H as p d1 Hp post. step count_reads in H as n d2 Hn post2. destruct (MAX_COLLECTION_ITEMS <? n); [done|].
    step (many_reads _ _ _ (Z.to_nat n) (entry_reads p)) in H as es d3 Hes post3.
    destruct (Decoder_finish d3) as [[]|] eqn:Ef; [|done]. cbn [result_bind] in H. injection H as <-.
    apply (Decoder_finish_nil d3 post3) in Ef as ->; [|done]. destruct Hes as [Hl Hes], Hn as [Hn1 Hn2].
    assert (n = zlen es) as -> by (unfold zlen; lia). split; [by split|]. split; [|done]. unfold listing_body. by rewrite app_nil_r.
Qed.

Lemma wire_names_bytes l : Forall (name_with text_ok) l -> Forall in_u8 (wire_all wire_bytes l).
Proof. apply wire_all_bytes. intros t [_ Ht]. by apply wire_text_bytes. Qed.

Lemma listing_body_bytes l : listing_ok l -> Forall in_u8 (listing_body l).
Proof.
  intros [[[_ H1] [_ H2]] _ H3]. unfold listing_body, wire_product. rewrite !Forall_app. split_and!; auto with wire.
  eapply wire_all_bytes; [|exact H3]. intros e [_ (segs & Hm & _ & _ & Hf) [_ Hn] Hs Ht]. unfold wire_entry.
  rewrite Hm, segments_text, !Forall_app. split_and!; auto using wire_names_bytes with wire.
  - apply (wire_code_bytes _ _ _ execution_codes).
  - apply (wire_code_bytes _ _ _ constraint_codes).
  - apply (wire_code_bytes _ _ _ shape_codes).
Qed.

(** A canonical catalog is rebuilt from its own entries. *)
Lemma catalog_rebuild catalog : catalog_wf catalog -> TestCatalog_try_new (catalog_product catalog) (catalog_entries catalog) = Ok catalog.
Proof.
  intros [Hs Hf]. unfold TestCatalog_try_new. change (sort_by _ (catalog_entries catalog)) with (sort_by_key (fun e => (entry_identity e, entry_source e)) (catalog_entries catalog)).
  rewrite sort_by_key_id.
  - pose proof (check_entries_spec (catalog_product catalog) (catalog_entries catalog)) as Hc.
    destruct (check_entries _ _) as [[]|e]; [|destruct Hc as (b & x & a & E & _ & Hx & _); rewrite E, Forall_app, Forall_cons in Hf; tauto].
    cbn [result_bind]. rewrite (proj2 (check_duplicates_ok _ (strictly_sorted_le _ Hs))) by by apply strictly_sorted_NoDup.
    by destruct catalog.
  - revert Hs. unfold key_sorted. generalize (catalog_entries catalog). induction l as [|e l IH]; intros Hs; [constructor|]. simpl in *.
    inversion Hs as [|? ? Hs' Hf']; subst. constructor; [by apply IH|]. rewrite Forall_map in Hf' |- *. eapply Forall_impl; [exact Hf'|].
    intros x Hx. unfold ord_le, cmp, prod_ord, then_with. simpl in *. by rewrite Hx.
Qed.

(** Entries decoded for a product belong to it. *)
Lemma decoded_catalog_spec product entries :
  Forall (fun e => id_product (entry_identity e) = product) entries ->
  match TestCatalog_try_new product entries with
  | Ok catalog => catalog_wf catalog /\ catalog_product catalog = product /\ catalog_entries catalog ≡ₚ entries
  | Err (ProductMismatch _) => False
  | Err _ => True
  end.
Proof.
  intros Hf. unfold TestCatalog_try_new. set (sorted := sort_by _ entries).
  assert (sorted ≡ₚ entries) as Hp by apply sort_by_perm. rewrite <- Hp in Hf.
  pose proof (check_entries_spec product sorted) as Hc. destruct (check_entries product sorted) as [[]|e]; cbn [result_bind].
  - assert (key_sorted entry_identity sorted) as Hs by apply sort_entries_identity. pose proof (check_duplicates_ok sorted Hs) as Hd.
    unfold check_duplicates in *. destruct (adjacent_equal entry_identity sorted); [done|]. cbn [result_bind].
    split; [|done]. split; cbn [catalog_entries catalog_product]; [|done]. apply strictly_sorted; [done|by apply Hd].
  - destruct Hc as (b & x & a & E & _ & _ & ->). unfold misfit_error. rewrite decide_True; [done|].
    rewrite E, Forall_app, Forall_cons in Hf. tauto.
Qed.

Lemma control_body_bytes c : True -> Forall in_u8 (control_body c).
Proof. destruct c; by repeat constructor. Qed.

(** The limits of the protocol are within what the types guarantee. *)
Lemma option_ok_impl {A} (P Q : A -> Prop) o : (forall x, P x -> Q x) -> option_ok P o -> option_ok Q o.
Proof. destruct o; simpl; auto. Qed.

Lemma error_type_ok_typed t : error_type_ok t -> error_type_typed t.
Proof. intros [Hn [Ht _]]. by split. Qed.

Lemma command_ok_typed c : command_ok c -> command_typed c.
Proof. intros []. split; try done. eapply option_ok_impl; [apply error_type_ok_typed|done]. Qed.

Lemma outcome_ok_typed o : outcome_ok o -> outcome_typed o.
Proof.
  assert (forall s, source_ok s -> source_typed s) as Hs by (by intros s [? _]%source_ok_typed).
  assert (forall t, text_ok t -> valid_utf8 t) as Ht by (by intros t [? _]).
  unfold outcome_ok, outcome_typed. destruct o; cbn [outcome_with]; intuition eauto using option_ok_impl, error_type_ok_typed.
Qed.

Lemma stream_ok_typed s : stream_ok s -> stream_typed s.
Proof. intros ([Hb _] & Hs). by split. Qed.

Lemma host_result_ok_typed r : host_result_ok r -> host_result_typed r /\ readable r = true.
Proof.
  intros Hr. split; [|by apply host_result_ok_wired]. destruct Hr. split; eauto using outcome_ok_typed, stream_ok_typed.
  eapply Forall_impl; [done|]. apply outcome_ok_typed.
Qed.

(** ** The guarantees *)

(** C15.  Host messages survive the wire: whatever command or control message is
    written, on any stream prefix, is read back exactly, and the bytes after its
    frame are left for the next message.  So is every result that is written, if
    it has no source anchor in generated text and at most a million suppressed
    incidents ([readable]). *)
Theorem host_messages_round_trip :
  (forall w w' c, command_typed c -> write_host_command w c = Ok w' ->
     exists frame, w' = w ++ frame /\ forall rest : list u8, read_host_command (frame ++ rest) = Ok (c, rest)) /\
  (forall w w' c, write_host_control w c = Ok w' ->
     exists frame, w' = w ++ frame /\ forall rest : list u8, read_host_control (frame ++ rest) = Ok (c, rest)) /\
  (forall w w' r, host_result_typed r -> readable r = true -> write_host_result w r = Ok w' ->
     exists frame, w' = w ++ frame /\ forall rest : list u8, read_host_result (frame ++ rest) = Ok (r, rest)).
Proof.
  split_and!.
  - intros w w' c Hc H. destruct (message_round_trip command_message command_body_bytes ltac:(by repeat constructor) w c w') as (f & ? & _ & ?); eauto.
  - intros w w' c H.
    destruct (message_round_trip control_message control_body_bytes ltac:(by repeat constructor) w c w') as (f & ? & _ & ?); eauto.
  - intros w w' r Hr Hs H. destruct (message_round_trip result_message result_ok_bytes ltac:(by repeat constructor) w r w') as (f & ? & _ & ?); eauto.
Qed.

Definition sample_command : TestHostCommand :=
  {| command_id := {| TestHostCommandId_0 := repeat 3 32 |}; command_catalog_digest := {| TestCatalogDigest_0 := repeat 4 32 |};
     command_entry := {| TestCatalogEntryId_0 := 7 |}; command_timeout := TimeoutLimit {| TestDuration_0 := 50 |};
     command_capture := PolicyCaptured {| per_stream_byte_limit := 1024; invocation_byte_limit := 1536 |};
     command_error_type := Some {| TestErrorTypeIdentity_0 := lit "app.Error" |} |}.

Lemma ascii_text s : forallb (fun b => (0 <=? b) && (b <? 128)) s = true -> valid_utf8 s.
Proof.
  intros Hs. exists s. rewrite forallb_forall in Hs. unfold scalars, utf8. rewrite List.Forall_forall. split.
  - intros c Hc. specialize (Hs c Hc). unfold is_scalar. lia.
  - induction s as [|c s IH]; [done|]. cbn [map concat]. rewrite <- IH by (intros; apply Hs; by right).
    pose proof (Hs c (or_introl eq_refl)). unfold encode_utf8. destruct (c <? 0x80) eqn:E; [done|lia].
Qed.

Lemma bytes_in_u8 (l : list u8) : forallb (fun b => (0 <=? b) && (b <? 256)) l = true -> Forall in_u8 l.
Proof. rewrite forallb_forall, List.Forall_forall. intros H b Hb. specialize (H b Hb). split; lia. Qed.

Lemma repeated_digest b : in_u8 b -> digest_ok (repeat b 32).
Proof. intros Hb. split; [|done]. by repeat (constructor; [done|]). Qed.

Lemma sample_command_typed : command_typed sample_command.
Proof.
  split; [apply repeated_digest; vm_compute; split; congruence|apply repeated_digest; vm_compute; split; congruence|vm_compute; split; congruence|
    vm_compute; split; congruence|vm_compute; repeat split; congruence|]. split; [done|]. by apply ascii_text.
Qed.

Lemma host_messages_round_trip_witness :
  exists frame : list u8, write_host_command (W := list u8) [] sample_command = Ok frame /\
    read_host_command (frame ++ [1; 2; 3]) = Ok (sample_command, [1; 2; 3]).
Proof.
  eexists. split; [vm_compute; reflexivity|].
  destruct (proj1 host_messages_round_trip [] _ sample_command sample_command_typed eq_refl) as (frame & Hw & Hr).
  vm_compute in Hw. subst frame. apply Hr.
Defined.

(** C16.  The wire formats are canonical, exactly: a reader accepts a byte string as a
    value with some bytes left over if and only if the value is within the limits
    of the protocol and the string is the frame the writer appends for that value
    to any stream, followed by the bytes left over. *)
Theorem host_messages_canonical (bytes rest : list u8) :
  Forall in_u8 bytes ->
  (forall c, read_host_command bytes = Ok (c, rest) <->
     command_ok c /\ exists frame, bytes = frame ++ rest /\ forall w : list u8, write_host_command w c = Ok (w ++ frame)) /\
  (forall c, read_host_control bytes = Ok (c, rest) <->
     exists frame, bytes = frame ++ rest /\ forall w : list u8, write_host_control w c = Ok (w ++ frame)) /\
  (forall r, read_host_result bytes = Ok (r, rest) <->
     host_result_ok r /\ exists frame, bytes = frame ++ rest /\ forall w : list u8, write_host_result w r = Ok (w ++ frame)).
Proof.
  intros Hb. split_and!; intros x.
  - apply (message_exact command_message command_body_bytes ltac:(by repeat constructor) bytes x rest); [apply command_ok_typed|done].
  - pose proof (message_exact control_message control_body_bytes ltac:(by repeat constructor) bytes x rest) as H. rewrite H by done. tauto.
  - apply (message_exact result_message result_ok_bytes ltac:(by repeat constructor) bytes x rest); [apply host_result_ok_typed|done].
Qed.

Lemma host_messages_canonical_witness :
  exists bytes : list u8, read_host_command bytes = Ok (sample_command, [9]) /\ command_ok sample_command /\
    exists frame, bytes = frame ++ [9] /\ forall w : list u8, write_host_command w sample_command = Ok (w ++ frame).
Proof.
  exists (wire_frame (wire_header COMMAND_MAGIC ++ command_body sample_command) ++ [9]). split; [vm_compute; reflexivity|].
  apply (host_messages_canonical (wire_frame (wire_header COMMAND_MAGIC ++ command_body sample_command) ++ [9]) [9]); [|vm_compute; reflexivity].
  apply bytes_in_u8. vm_compute. reflexivity.
Defined.

(** Test catalogs survive publication: a canonical catalog that encodes decodes to
    itself with the same digest; and decoding any bytes never panics and yields
    either an error or a canonical catalog whose entries are those the bytes list. *)
Theorem catalog_round_trip digest catalog :
  catalog_wf catalog -> listing_typed (catalog_product catalog, catalog_entries catalog) ->
  (forall bytes d, encode_test_catalog digest catalog = Ok (bytes, d) ->
     decode_test_catalog digest bytes = Ret (Ok (catalog, d))) /\
  (forall bytes, Forall in_u8 bytes -> returns (decode_test_catalog digest bytes) (fun r =>
     match r with
     | Ok (c, d) => catalog_wf c /\ TestCatalogDigest_0 d = digest bytes /\
         exists entries, entries ≡ₚ catalog_entries c /\ bytes = wire_header CATALOG_MAGIC ++ listing_body (catalog_product c, entries)
     | Err (DecodeEntries (ProductMismatch _)) => False
     | Err _ => True
     end)).
Proof.
  intros Hwf Ht. split.
  - intros bytes d. unfold encode_test_catalog. destruct (encode_catalog_bytes catalog) as [b|] eqn:E; [|done]. cbn [result_bind]. intros [= <- <-].
    replace catalog with (catalog_of (catalog_product catalog, catalog_entries catalog)) in E by by destruct catalog.
    apply (message_enc_exact _ _ _ _ _ _ listing_message) in E as (Hok & -> & Hm); [|done].
    unfold decode_test_catalog. rewrite (message_dec _ _ _ _ _ _ listing_message); [|done| |done].
    + by rewrite catalog_rebuild.
    + apply Forall_app. split; [apply header_bytes; by repeat constructor|by apply listing_body_bytes].
  - intros bytes Hb. unfold decode_test_catalog. destruct (decode_catalog_bytes bytes) as [[p es]|e] eqn:E; [|by apply returns_ret].
    apply (message_dec_exact _ _ _ _ _ _ listing_message) in E as ([_ _ Hes] & -> & _); [|done]. cbn [fst snd] in Hes.
    pose proof (decoded_catalog_spec p es) as Hs. destruct (TestCatalog_try_new p es) as [c|[]].
    + apply returns_ret. destruct Hs as (Hc & <- & Hperm); [eapply Forall_impl; [exact Hes|]; by intros x []|].
      split; [done|]. split; [done|]. by exists es.
    + destruct Hs. eapply Forall_impl; [exact Hes|]; by intros x [].
    + by apply returns_ret.
    + by apply returns_ret.
Qed.

Lemma sample_catalog_wf : catalog_wf sample_catalog.
Proof. split; [repeat constructor|]. repeat (constructor; [split; [reflexivity|]; split; [done|intros [? ?]; done]|]). constructor. Qed.

Lemma sample_name (s : string) : lit s <> [] -> forallb (fun b => (0 <=? b) && (b <? 128)) (lit s) = true -> name_with valid_utf8 (lit s).
Proof. intros Hn Ha. split; [done|by apply ascii_text]. Qed.

Lemma sample_anchor_ok : source_ok sample_anchor.
Proof. split; [apply repeated_digest; vm_compute; split; congruence|vm_compute; split; congruence|done|vm_compute; repeat split; congruence|vm_compute; split; congruence]. Qed.

Lemma sample_catalog_typed : listing_typed (catalog_product sample_catalog, catalog_entries sample_catalog).
Proof.
  split; [split; by apply sample_name|vm_compute; congruence|].
  repeat (constructor; [split; [reflexivity|eexists; split; [reflexivity|]; split; [done|]; split; [vm_compute; congruence|];
    repeat (constructor; [by apply sample_name|]); constructor|by apply sample_name|apply sample_anchor_ok|done]|]). constructor.
Qed.


(** Catalog encodings are not canonical: the same catalog also decodes from bytes
    that list its entries in another order, under another digest. *)
Theorem catalog_decoder_accepts_any_order :
  exists bytes bytes' d d',
    encode_test_catalog (fun b => b) sample_catalog = Ok (bytes, d) /\ bytes' <> bytes /\ d' <> d /\
    decode_test_catalog (fun b => b) bytes' = Ret (Ok (sample_catalog, d')) /\
    bytes' = wire_header CATALOG_MAGIC ++ listing_body (sample_product, rev (catalog_entries sample_catalog)).
Proof.
  set (bytes' := wire_header CATALOG_MAGIC ++ listing_body (sample_product, rev (catalog_entries sample_catalog))).
  destruct (encode_catalog_bytes sample_catalog) as [bytes|] eqn:E; [|vm_compute in E; discriminate E].
  assert (bytes' <> bytes) as Hne.
  { intros <-. assert (result_ok (encode_catalog_bytes sample_catalog) = Some bytes') as Hb by by rewrite E.
    apply (bool_decide_eq_true_2 (_ = _)) in Hb. vm_compute in Hb. discriminate Hb. }
  exists bytes, bytes', {| TestCatalogDigest_0 := bytes |}, {| TestCatalogDigest_0 := bytes' |}. split_and!; [|done|by intros [= ?]| |done].
  - unfold encode_test_catalog. by rewrite E.
  - vm_compute. reflexivity.
Qed.

(** A passed test with [n] suppressed incidents. *)
Definition flooded_result (n : nat) : TestHostResult :=
  TestHostResult_with_suppressed
    (TestHostResult_after_cleanup {| TestHostCommandId_0 := repeat 3 32 |} {| TestCatalogDigest_0 := repeat 4 32 |} Passed
       CapturedStream_discarded CapturedStream_discarded) (replicate n Passed).

(** A test that failed an assertion in generated text. *)
Definition generated_result : TestHostResult :=
  TestHostResult_after_cleanup {| TestHostCommandId_0 := repeat 3 32 |} {| TestCatalogDigest_0 := repeat 4 32 |}
    (OutcomeAssertionFailure (AssertionFailure_without_message
       {| anchor_package := repeat 0 32;
          anchor_span := {| SourceSpan_source_id := {| SourceId_raw := GENERATED_SOURCE_BIT |}; SourceSpan_range := TextRange_EMPTY |};
          anchor_version := {| SourceVersion_raw := 0 |} |}))
    CapturedStream_discarded CapturedStream_discarded.

Lemma discarded_stream_ok : stream_ok CapturedStream_discarded.
Proof. split; [split; [constructor|done]|]. split; [vm_compute; split; congruence|]. by split. Qed.

Lemma zlen_wire_passed n : zlen (wire_all wire_outcome (replicate n Passed)) = Z.of_nat n.
Proof. induction n as [|n IH]; [done|]. cbn [replicate]. unfold wire_all in *. cbn [map concat wire_outcome app]. rewrite zlen_cons, IH. lia. Qed.

Lemma flooded_typed n : host_result_typed (flooded_result n).
Proof.
  split; cbn [flooded_result TestHostResult_with_suppressed TestHostResult_after_cleanup hr_command_id hr_catalog_digest hr_outcome
      hr_suppressed hr_standard_output hr_standard_error TestHostCommandId_0 TestCatalogDigest_0];
    try (apply repeated_digest; vm_compute; split; congruence); try done; try apply stream_ok_typed, discarded_stream_ok.
  by apply Forall_replicate.
Qed.

Lemma flooded_written n :
  Z.of_nat n <= 2000000 -> encode_host_result (flooded_result n) = Ok (wire_header RESULT_MAGIC ++ result_body (flooded_result n)).
Proof.
  intros Hn. assert (zlen (replicate n Passed) = Z.of_nat n) as Hlen by (unfold zlen; by rewrite length_replicate).
  apply result_encodes.
  - destruct (flooded_typed n) as [H1 H2 _ _ _ _ _]. split; try done; try apply discarded_stream_ok; [|by apply Forall_replicate].
    cbn [flooded_result TestHostResult_with_suppressed TestHostResult_after_cleanup hr_suppressed]. rewrite Hlen. unfold U32_MAX. lia.
  - unfold result_body. cbn [flooded_result TestHostResult_with_suppressed TestHostResult_after_cleanup hr_command_id hr_catalog_digest hr_outcome
      hr_suppressed hr_standard_output hr_standard_error]. rewrite !zlen_app, zlen_wire_passed. unfold MAX_FRAME_BYTES.
    change (zlen (wire_header RESULT_MAGIC)) with 12. change (zlen (wire_bytes _)) with 36. change (zlen (wire_outcome Passed)) with 1.
    change (zlen (wire_u32 _)) with 4. change (zlen (wire_stream CapturedStream_discarded)) with 14. lia.
Qed.

Lemma flooded_frame n w : Z.of_nat n <= 2000000 -> result_ok (write_host_result (W := list u8) w (flooded_result n)) <> None.
Proof.
  intros Hn. unfold write_host_result. pose proof (flooded_written n Hn) as E. rewrite E. cbn [result_bind].
  apply result_written in E as (_ & _ & Hm); [|apply flooded_typed]. by rewrite write_frame_vec, (proj2 (Z.ltb_ge _ _)) by lia.
Qed.

Lemma flooded_count n : zlen (hr_suppressed (flooded_result n)) = Z.of_nat n.
Proof. unfold zlen. cbn [flooded_result TestHostResult_with_suppressed TestHostResult_after_cleanup hr_suppressed]. by rewrite length_replicate. Qed.

Lemma generated_typed : host_result_typed generated_result.
Proof.
  split; try (apply repeated_digest; vm_compute; split; congruence); try done; try apply stream_ok_typed, discarded_stream_ok.
  split; [|done]. split; [apply repeated_digest|..]; vm_compute; repeat split; congruence.
Qed.

(** C40.  The writer of host results is more liberal than the reader, exactly so: of the
    results that are written, the reader rejects as malformed those whose outcome
    or, within the limit, one of whose suppressed incidents is anchored in generated
    text, rejects over the resource limit those with more than a million suppressed
    incidents, and reads back all others as they were. *)
Theorem host_result_read_back (w w' : list u8) (r : TestHostResult) :
  host_result_typed r -> write_host_result w r = Ok w' ->
  exists frame, w' = w ++ frame /\ forall rest : list u8, read_host_result (frame ++ rest) =
    if negb (outcome_stored (hr_outcome r)) then Err Malformed
    else if MAX_COLLECTION_ITEMS <? zlen (hr_suppressed r) then Err ResourceLimit
    else if forallb outcome_stored (hr_suppressed r) then Ok (r, rest) else Err Malformed.
Proof.
  intros Ht. unfold write_host_result. destruct (encode_host_result r) as [payload|] eqn:E; [|done]. cbn [result_bind].
  apply result_written in E as (Hw & -> & Hm); [|done]. rewrite write_frame_vec, (proj2 (Z.ltb_ge _ _)) by lia. intros [= <-].
  eexists. split; [done|]. intros rest. unfold read_host_result. rewrite (read_frame_slice (wire_header RESULT_MAGIC ++ result_body r)) by exact Hm. cbn [result_bind fst snd].
  rewrite result_decodes by done. by repeat case_match.
Qed.

Lemma host_result_read_back_witness :
  (exists frame, write_host_result (W := list u8) [] generated_result = Ok frame /\ read_host_result frame = Err Malformed) /\
  (exists frame, write_host_result (W := list u8) [] (flooded_result (N.to_nat 1000001)) = Ok frame /\ read_host_result frame = Err ResourceLimit).
Proof.
  split.
  - destruct (write_host_result (W := list u8) [] generated_result) as [w'|] eqn:E; [|vm_compute in E; discriminate E].
    destruct (host_result_read_back [] w' generated_result generated_typed E) as (frame & Hw & Hr).
    exists frame. split; [by rewrite Hw|]. specialize (Hr []). by rewrite app_nil_r in Hr.
  - destruct (write_host_result (W := list u8) [] (flooded_result (N.to_nat 1000001))) as [w'|] eqn:E.
    + destruct (host_result_read_back [] w' _ (flooded_typed _) E) as (frame & Hw & Hr). exists frame. split; [by rewrite Hw|].
      specialize (Hr []). rewrite app_nil_r in Hr. rewrite Hr, flooded_count, N_nat_Z. reflexivity.
    + destruct (flooded_frame (N.to_nat 1000001) [] ltac:(rewrite N_nat_Z; lia)). by rewrite E.
Defined.
