(* ===== verification/TestRunner.v ===== *)
(** * The test runner

    [bray/src/tack/testing]: what a worker makes of one host process
    ([execution/host.rs]), the loop that admits invocations, waits for workers and
    records their results ([execution/scheduling.rs]), and the report per product
    ([report.rs]).  The host process, the clock, the channel and the cancellation
    flag are the environment: a run is given what they deliver, turn by turn. *)

From Stdlib Require Import ZArith Lia String Sorting.Sorted Sorting.Permutation.
From stdpp Require Import base option relations list.
From S2P Require Import Prelude Utf8 SourceText Order Base TestModel TestCatalog TestSchedule TestCodec TestWire TestMessages.

(** ** host.rs *)

(** An exit status as the platform reports it. *)
Record NativeExitStatus := { status_success : bool; status_code : option Z; target_termination : option Z }.

Inductive HostProcessCompletion :=
| HostCompleted (status : NativeExitStatus) (stdout stderr : CapturedStream)
| HostForcedTermination (stdout stderr : CapturedStream).

(** What opening and reading the result file gives. *)
Inductive ResultFile := FileNotFound | FileOpenFailed | FileMetadataFailed | FileContents (bytes : list u8).

(** What the environment does during one [run_host]. *)
Record HostObservation := {
  observed_path : option str;
  observed_process : option HostProcessCompletion;
  observed_file : ResultFile;
}.

Record HostLocation := { location_executable : str; location_entry : TestCatalogEntryId; location_digest : TestCatalogDigest }.

Definition empty_stream (capture : TestCapturePolicy) : CapturedStream :=
  match capture with
  | PolicyCaptured _ => CapturedStream_captured [] 0 None
  | PolicyInherited => CapturedStream_inherited None
  | PolicyDiscarded => CapturedStream_discarded
  end.

Definition infrastructure_result_with_kind (admission : TestAdmission) (kind : TestInfrastructureFailureKind) : TestInvocationResult :=
  TestInvocationResult_after_cleanup (plan_identity (admission_invocation admission))
    (InfrastructureFailed (TestInfrastructureFailure_new kind None))
    (empty_stream (plan_capture (admission_invocation admission))) (empty_stream (plan_capture (admission_invocation admission))).

Definition infrastructure_result (admission : TestAdmission) : TestInvocationResult :=
  infrastructure_result_with_kind admission InfraHost.

Definition infrastructure_result_after_exit (admission : TestAdmission) (status : NativeExitStatus)
    (kind : TestInfrastructureFailureKind) (stdout stderr : CapturedStream) : TestInvocationResult :=
  let kind := if status_success status then kind else InfraHost in
  let failure := TestInfrastructureFailure_new kind None in
  let termination := match status_code status with
                     | Some code => Some (ExitCode code)
                     | None => option_map Signal (target_termination status)
                     end in
  let failure := match termination with Some t => with_host_termination failure t | None => failure end in
  TestInvocationResult_after_cleanup (plan_identity (admission_invocation admission)) (InfrastructureFailed failure) stdout stderr.

Definition command_cancellation_result (invocation : TestInvocationPlan) : TestInvocationResult :=
  TestInvocationResult_after_cleanup (plan_identity invocation) (Cancelled CancelCommand)
    (empty_stream (plan_capture invocation)) (empty_stream (plan_capture invocation)).

Definition terminal_result (file : ResultFile) (command : TestHostCommand) : result TestHostResult TestInfrastructureFailureKind :=
  match file with
  | FileNotFound => Err InfraMissingOutcome
  | FileOpenFailed | FileMetadataFailed => Err InfraHost
  | FileContents bytes =>
      if zlen bytes =? 0 then Err InfraMissingOutcome
      else
        let? r := map_err (fun _ => InfraProtocol) (read_host_result bytes) in
        if negb (bool_decide (hr_command_id r.1 = command_id command)) ||
           negb (bool_decide (hr_catalog_digest r.1 = command_catalog_digest command))
        then Err InfraProtocol
        else Ok r.1
  end.

Definition host_result (admission : TestAdmission) (command : TestHostCommand) (file : ResultFile)
    (completion : HostProcessCompletion) : TestInvocationResult :=
  let identity := plan_identity (admission_invocation admission) in
  match completion with
  | HostCompleted status stdout stderr =>
      match terminal_result file command with
      | Ok r => into_invocation_result r identity
      | Err kind => infrastructure_result_after_exit admission status kind stdout stderr
      end
  | HostForcedTermination stdout stderr =>
      TestInvocationResult_after_cleanup identity
        (InfrastructureFailed (TestInfrastructureFailure_new InfraForcedTermination None)) stdout stderr
  end.

Section runner.
(** The stable digest of a byte string (32 bytes). *)
Context (digest : list u8 -> list u8).

Definition host_command_id (path : str) (admission : TestAdmission) : TestHostCommandId :=
  {| TestHostCommandId_0 :=
       digest (path ++ SymbolName_as_str (path_name (id_declaration (plan_identity (admission_invocation admission))))) |}.

Definition host_command (path : str) (admission : TestAdmission) (location : HostLocation) : TestHostCommand :=
  {| command_id := host_command_id path admission; command_catalog_digest := location_digest location;
     command_entry := location_entry location; command_timeout := plan_timeout (admission_invocation admission);
     command_capture := plan_capture (admission_invocation admission);
     command_error_type := entry_error_type (admission_entry admission) |}.

Definition run_host (admission : TestAdmission) (location : HostLocation) (observed : HostObservation) : TestInvocationResult :=
  match observed_path observed with
  | None => infrastructure_result admission
  | Some path =>
      match observed_process observed with
      | Some completion => host_result admission (host_command path admission location) (observed_file observed) completion
      | None => infrastructure_result admission
      end
  end.

(** ** scheduling.rs: the loop *)

(** One turn of the environment: whether cancellation is seen, and which of the
    running workers delivers, with what it observed and measured ([None] is a
    timeout of the receive). *)
Record Turn := { turn_cancelled : bool; turn_received : option (nat * HostObservation * option TestDuration) }.

Inductive RunFailure := MissingTestHostLocation (identity : TestIdentity) | SchedulingFailed (error : TestSchedulingError).

(** [in_flight] are the workers spawned and not yet received from. *)
Record RunState := {
  run_admissions : TestAdmissionSchedule;
  in_flight : list (TestAdmission * HostLocation);
  active_count : Z;
  run_cancelled : bool;
}.

(** [while let Some(admission) = schedule.admit_next()]. *)
Fixpoint admit_all (fuel : nat) (locations : list (TestIdentity * HostLocation)) (st : RunState) : outcome (result RunState RunFailure) :=
  match fuel with
  | O => OutOfFuel
  | S fuel =>
      let! admitted := admit_next (run_admissions st) in
      match admitted.1 with
      | None => Ret (Ok st)
      | Some admission =>
          let identity := plan_identity (admission_invocation admission) in
          match btree_get identity locations with
          | None => Ret (Err (MissingTestHostLocation identity))
          | Some location =>
              admit_all fuel locations
                {| run_admissions := admitted.2; in_flight := in_flight st ++ [(admission, location)];
                   active_count := active_count st + 1; run_cancelled := run_cancelled st |}
          end
      end
  end.

Definition stamp (duration : option TestDuration) (r : TestInvocationResult) : TestInvocationResult :=
  match duration with Some duration => TestInvocationResult_with_duration r duration | None => r end.

(** The loop's body; [true] is the [break]. *)
Definition run_turn (locations : list (TestIdentity * HostLocation)) (turn : Turn) (st : RunState)
    : outcome (result (RunState * bool) RunFailure) :=
  let cancel := negb (run_cancelled st) && turn_cancelled turn in
  let st := {| run_admissions := if cancel then (stop (run_admissions st) StopCancelled).2 else run_admissions st;
               in_flight := in_flight st; active_count := active_count st; run_cancelled := run_cancelled st || cancel |} in
  let! admitted := admit_all (S (length (plan_entries (schedule_plan (run_admissions st))))) locations st in
  match admitted with
  | Err e => Ret (Err e)
  | Ok st =>
      if run_cancelled st && settled (run_admissions st) then Ret (Ok (st, true))
      else if active_count st =? 0 then Panic
      else
        match turn_received turn with
        | None => Ret (Ok (st, false))
        | Some (choice, observed, duration) =>
            let index := (choice mod length (in_flight st))%nat in
            let! worker := expect (in_flight st !! index) in
            let r := stamp duration (run_host worker.1 worker.2 observed) in
            let! completed := complete (run_admissions st) worker.1 r in
            match completed.1 with
            | Err e => Ret (Err (SchedulingFailed e))
            | Ok _ => Ret (Ok ({| run_admissions := completed.2; in_flight := delete index (in_flight st);
                                  active_count := active_count st - 1; run_cancelled := run_cancelled st |}, false))
            end
        end
  end.

Definition run_finished (st : RunState) : bool :=
  completed_all (run_admissions st) || (run_cancelled st && settled (run_admissions st)).

(** The loop; [OutOfFuel] when it still waits after the given turns. *)
Fixpoint run_loop (locations : list (TestIdentity * HostLocation)) (turns : list Turn) (st : RunState)
    : outcome (result RunState RunFailure) :=
  if run_finished st then Ret (Ok st)
  else
    match turns with
    | [] => OutOfFuel
    | turn :: turns =>
        let! next := run_turn locations turn st in
        match next with
        | Err e => Ret (Err e)
        | Ok (st, true) => Ret (Ok st)
        | Ok (st, false) => run_loop locations turns st
        end
    end.

Definition collect_results (invocations : list TestInvocationPlan) (schedule : TestAdmissionSchedule) : list TestInvocationResult :=
  let completed := btree_collect (map (fun r => (ir_identity r, r)) (completed_results schedule)) in
  map (fun invocation => default (command_cancellation_result invocation) (btree_get (plan_identity invocation) completed)) invocations.

Definition run_schedule (plan : TestExecutionPlan) (locations : list (TestIdentity * HostLocation)) (turns : list Turn)
    : outcome (result (list TestInvocationResult) RunFailure) :=
  let! finished := run_loop locations turns
    {| run_admissions := TestAdmissionSchedule_new plan; in_flight := []; active_count := 0; run_cancelled := false |} in
  Ret (let? st := finished in Ok (collect_results (plan_invocations plan) (run_admissions st))).

(** ** scheduling.rs and report.rs: the command *)

Record LoadedTestHost := { host_executable : str; host_catalog : TestCatalog; host_digest : TestCatalogDigest }.

Record TackTestOptions := {
  option_filters : list str; option_concurrency : usize; option_timeout : TestTimeoutPolicy; option_capture : TestCapturePolicy }.

Fixpoint enumerate_locations (host : LoadedTestHost) (index : Z) (entries : list TestEntryMetadata)
    (locations : list (TestIdentity * HostLocation)) : list (TestIdentity * HostLocation) :=
  match entries with
  | [] => locations
  | entry :: entries =>
      enumerate_locations host (index + 1) entries
        match u32_try_from index with
        | Some index => btree_insert (entry_identity entry)
            {| location_executable := host_executable host; location_entry := {| TestCatalogEntryId_0 := index |};
               location_digest := host_digest host |} locations
        | None => locations
        end
  end.

Definition host_locations (hosts : list LoadedTestHost) : list (TestIdentity * HostLocation) :=
  fold_left (fun locations host => enumerate_locations host 0 (catalog_entries (host_catalog host)) locations) hosts [].

Fixpoint selection_filters (filters : list str) : option (list TestFilter) :=
  match filters with
  | [] => Some []
  | filter :: filters =>
      match name_contains filter with
      | Some filter => match selection_filters filters with Some filters => Some (filter :: filters) | None => None end
      | None => None
      end
  end.

(** [results.entry(product).or_default().push(result)]. *)
Definition group_by_product (results : list TestInvocationResult) : list (ProductIdentity * list TestInvocationResult) :=
  fold_left (fun groups r =>
    let product := id_product (ir_identity r) in
    btree_insert product (default [] (btree_get product groups) ++ [r]) groups) results [].

Fixpoint report_hosts (hosts : list LoadedTestHost) (groups : list (ProductIdentity * list TestInvocationResult)) : list TestProductReport :=
  match hosts with
  | [] => []
  | host :: hosts =>
      let product := catalog_product (host_catalog host) in
      {| report_product := product; report_digest := host_digest host; report_results := default [] (btree_get product groups) |} ::
      report_hosts hosts (btree_remove product groups)
  end.

Definition product_reports (hosts : list LoadedTestHost) (results : list TestInvocationResult) : list TestProductReport :=
  report_hosts hosts (group_by_product results).

Inductive CommandFailure := InvalidTestFilter | PlanFailed (error : TestExecutionPlanBuildError) | RunFailed (error : RunFailure).

Definition command_concurrency (options : TackTestOptions) (worker_count : usize) : usize :=
  Z.max (Z.min (option_concurrency options) worker_count) 1.

Definition command_invocations (options : TackTestOptions) (selections : list TestSelection) : list TestInvocationPlan :=
  concat (map (fun selection => map (fun entry =>
    {| plan_identity := entry_identity entry; plan_timeout := option_timeout options; plan_capture := option_capture options |})
    (selection_entries selection)) selections).

Definition execute_loaded (hosts : list LoadedTestHost) (options : TackTestOptions) (worker_count : usize) (turns : list Turn)
    (duration : option TestDuration) : outcome (result TestCommandReport CommandFailure) :=
  match selection_filters (option_filters options) with
  | None => Ret (Err InvalidTestFilter)
  | Some filters =>
      let query := {| query_filters := filters; query_shard := None |} in
      let selections := map (fun host => TestSelection_from_catalog (host_catalog host) query) hosts in
      let discovered := foldr (fun s n => discovered_count s + n) 0 selections in
      let selected := foldr (fun s n => zlen (selection_entries s) + n) 0 selections in
      let concurrency := command_concurrency options worker_count in
      let mode := if concurrency =? 1 then ModeSequential else ModeParallel concurrency in
      let budget := Z.min U64_MAX (capture_reservation (option_capture options) * concurrency) in
      match TestExecutionPlan_try_new selections (command_invocations options selections) mode budget with
      | Err e => Ret (Err (PlanFailed e))
      | Ok plan =>
          let! results := run_schedule plan (host_locations hosts) turns in
          match results with
          | Err e => Ret (Err (RunFailed e))
          | Ok results =>
              let report := TestCommandReport_new {| summary_discovered := discovered; summary_selected := selected |}
                              (product_reports hosts results) in
              Ret (Ok {| report_selection := report_selection report; report_products := report_products report;
                         report_counts := report_counts report;
                         report_duration := match duration with Some d => Some d | None => report_duration report end |})
          end
      end
  end.

(** ** Lemmas: workers *)

Lemma run_host_identity admission location observed :
  ir_identity (run_host admission location observed) = plan_identity (admission_invocation admission).
Proof.
  unfold run_host. destruct (observed_path observed) as [path|]; [|done]. destruct (observed_process observed) as [[status out err|out err]|]; [|done|done].
  unfold host_result. by destruct (terminal_result _ _).
Qed.

Lemma stamp_identity duration r : ir_identity (stamp duration r) = ir_identity r.
Proof. by destruct duration. Qed.

(** The result is what a worker made of its host process. *)
Definition reported (locations : list (TestIdentity * HostLocation)) (invocation : TestInvocationPlan) (r : TestInvocationResult) : Prop :=
  exists admission location observed duration,
    admission_invocation admission = invocation /\ btree_get (plan_identity invocation) locations = Some location /\
    r = stamp duration (run_host admission location observed).

(** ** Lemmas: the loop *)

Definition worker_identity (w : TestAdmission * HostLocation) : TestIdentity := plan_identity (admission_invocation w.1).

(** A worker runs an active admission of the schedule. *)
Definition flies (locations : list (TestIdentity * HostLocation)) (s : TestAdmissionSchedule) (w : TestAdmission * HostLocation) : Prop :=
  (exists act, btree_get (worker_identity w) (active s) = Some act /\ active_index act = admission_index w.1) /\
  get (plan_invocations (schedule_plan s)) (admission_index w.1) = Some (admission_invocation w.1) /\
  btree_get (worker_identity w) locations = Some w.2.

Record run_inv (locations : list (TestIdentity * HostLocation)) (plan : TestExecutionPlan) (st : RunState) : Prop := {
  run_schedule_inv : schedule_inv (run_admissions st);
  run_plan : schedule_plan (run_admissions st) = plan;
  run_flies : forall w, w ∈ in_flight st -> flies locations (run_admissions st) w;
  run_distinct : NoDup (map worker_identity (in_flight st));
  run_in_flight : zlen (in_flight st) = zlen (active (run_admissions st));
  run_count : active_count st = zlen (in_flight st);
  run_stopped : run_cancelled st = true <-> stop_reason (run_admissions st) <> None;
  run_reported : forall i r, get (completed (run_admissions st)) i = Some (Some r) ->
    exists invocation, get (plan_invocations plan) i = Some invocation /\ reported locations invocation r;
}.

(** Every planned test has a host. *)
Definition covers (locations : list (TestIdentity * HostLocation)) (plan : TestExecutionPlan) : Prop :=
  forall entry, entry ∈ plan_entries plan -> exists location, btree_get (entry_identity entry) locations = Some location.

Definition done_count (s : TestAdmissionSchedule) : Z := next_index s - zlen (active s).

Lemma run_inv_new locations plan :
  plan_wf plan ->
  run_inv locations plan {| run_admissions := TestAdmissionSchedule_new plan; in_flight := []; active_count := 0; run_cancelled := false |}.
Proof.
  intros Hwf. split; simpl; try done; [by apply schedule_inv_new|intros w Hw; set_solver|constructor|].
  intros i r Hr. pose proof (get_Some_range _ _ _ Hr) as Hi. unfold zlen in Hi. rewrite length_replicate in Hi. by rewrite get_replicate in Hr by lia.
Qed.

(** Admitting one invocation. *)
Lemma run_inv_admitted locations plan st entry invocation location :
  run_inv locations plan st -> admissible (run_admissions st) entry invocation ->
  btree_get (plan_identity invocation) locations = Some location ->
  run_inv locations plan
    {| run_admissions := admitted (run_admissions st) entry invocation;
       in_flight := in_flight st ++ [(admission_of (run_admissions st) entry invocation, location)];
       active_count := active_count st + 1; run_cancelled := run_cancelled st |}.
Proof.
  intros Hinv Hadm Hloc. set (s := run_admissions st) in *. pose proof (run_schedule_inv _ _ _ Hinv) as Hs. fold s in Hs.
  pose proof (schedule_inv_admitted s entry invocation Hs Hadm) as Hs'.
  assert (plan_identity invocation ∉ map fst (active s)) as Hfresh.
  { intros Hin. apply list_elem_of_fmap in Hin as ([identity act] & Heq & Hin). simpl in Heq. subst identity.
    destruct (inv_active s Hs _ _ Hin) as (Hi & (e & v & He & Hv & Hide & _) & _).
    destruct (plan_invocation _ _ _ (inv_plan s Hs) (adm_entry _ _ _ Hadm)) as (v' & Hv' & Hid & _).
    rewrite (adm_invocation _ _ _ Hadm) in Hv'. injection Hv' as <-.
    pose proof (plan_identity_inj _ _ _ _ _ (inv_plan s Hs) He (adm_entry _ _ _ Hadm) ltac:(congruence)). lia. }
  pose proof (proj2 (btree_get_None _ _ (inv_map s Hs)) Hfresh) as Hnone.
  assert (forall w, w ∈ in_flight st -> worker_identity w <> plan_identity invocation) as Hne.
  { intros w Hw Heq. destruct (run_flies _ _ _ Hinv w Hw) as ((act & Hact & _) & _). fold s in Hact. rewrite Heq in Hact. congruence. }
  split; simpl.
  - done.
  - apply Hinv.
  - intros w Hw. apply elem_of_app in Hw as [Hw| ->%list_elem_of_singleton].
    + destruct (run_flies _ _ _ Hinv w Hw) as ((act & Hact & Hi) & Hg & Hl). split; [|done]. exists act. split; [|done].
      unfold admitted. simpl. rewrite btree_get_insert by apply Hs. rewrite decide_False; [done|]. by apply Hne.
    + split; [|split; [apply Hadm|done]]. eexists. unfold admitted. simpl. rewrite btree_get_insert by apply Hs.
      rewrite decide_True by done. done.
  - rewrite map_app. apply NoDup_app. split; [apply Hinv|]. split; [|apply NoDup_singleton].
    intros x Hx Hx'. simpl in Hx'. apply list_elem_of_singleton in Hx'. apply list_elem_of_fmap in Hx as (w & -> & Hw).
    by apply (Hne w Hw).
  - rewrite zlen_snoc, (run_in_flight _ _ _ Hinv). fold s. rewrite (zlen_perm _ _ (btree_insert_perm _ _ _ Hnone)), zlen_cons. lia.
  - by rewrite (run_count _ _ _ Hinv), zlen_snoc.
  - apply Hinv.
  - apply Hinv.
Qed.

Lemma admit_all_spec locations plan fuel st :
  covers locations plan -> run_inv locations plan st ->
  zlen (plan_entries plan) - next_index (run_admissions st) < Z.of_nat fuel ->
  exists st', admit_all fuel locations st = Ret (Ok st') /\ run_inv locations plan st' /\
    done_count (run_admissions st') = done_count (run_admissions st) /\ run_cancelled st' = run_cancelled st /\
    forall entry invocation, ~ admissible (run_admissions st') entry invocation.
Proof.
  intros Hcov. revert st. induction fuel as [|fuel IH]; intros st Hinv Hfuel.
  { pose proof (inv_next _ (run_schedule_inv _ _ _ Hinv)). rewrite (run_plan _ _ _ Hinv) in *. lia. }
  cbn [admit_all]. pose proof (admit_next_spec _ (run_schedule_inv _ _ _ Hinv)) as Hs.
  destruct (admit_next (run_admissions st)) as [[[admission|] s']| |]; [| |done|done]; cbn [outcome_bind fst snd].
  - destruct Hs as (entry & invocation & Hadm & -> & ->). simpl.
    destruct (plan_invocation _ _ _ (inv_plan _ (run_schedule_inv _ _ _ Hinv)) (adm_entry _ _ _ Hadm)) as (v & Hv & Hid & _).
    rewrite (adm_invocation _ _ _ Hadm) in Hv. injection Hv as <-.
    destruct (Hcov entry) as [location Hloc].
    { rewrite <- (run_plan _ _ _ Hinv). eapply get_elem_of, Hadm. }
    rewrite Hid, Hloc. rewrite <- Hid in Hloc. pose proof (run_inv_admitted _ _ _ _ _ _ Hinv Hadm Hloc) as Hinv'.
    destruct (IH _ Hinv') as (st' & Hrun & Hi' & Hd & Hc & Hn); [simpl; lia|]. exists st'. split_and!; [done|done| |done|done].
    rewrite Hd. unfold done_count. simpl.
    pose proof (run_in_flight _ _ _ Hinv') as H1. pose proof (run_in_flight _ _ _ Hinv) as H2. simpl in H1. rewrite zlen_snoc in H1.
    unfold admitted in *. simpl in *. lia.
  - destruct Hs as [-> Hn]. exists st. by split_and!.
Qed.

(** A worker's result is recorded. *)
Lemma run_inv_completed locations plan st index w r :
  run_inv locations plan st -> in_flight st !! index = Some w -> ir_identity r = worker_identity w ->
  reported locations (admission_invocation w.1) r ->
  exists s', complete (run_admissions st) w.1 r = Ret (Ok tt, s') /\ done_count s' = done_count (run_admissions st) + 1 /\
    run_inv locations plan {| run_admissions := s'; in_flight := delete index (in_flight st); active_count := active_count st - 1;
                              run_cancelled := run_cancelled st |}.
Proof.
  intros Hinv Hw Hid Hrep. set (s := run_admissions st) in *. pose proof (run_schedule_inv _ _ _ Hinv) as Hs. fold s in Hs.
  assert (w ∈ in_flight st) as Hin by by eapply list_elem_of_lookup_2.
  destruct (run_flies _ _ _ Hinv w Hin) as ((act & Hact & Hidx) & Hinvoc & Hloc). fold s in Hact, Hinvoc.
  pose proof (complete_spec s w.1 r Hs) as Hc.
  assert (runs s w.1 r act) as Hruns by (split_and!; [done|by rewrite Hid|done]).
  destruct (complete s w.1 r) as [[[[]|e] s']| |]; [|destruct Hc as (_ & Hno & _); by destruct (Hno act)|done|done].
  destruct Hc as (act' & Hruns' & ->). assert (act' = act) as -> by (destruct Hruns as (_ & E1 & _), Hruns' as (_ & E2 & _); congruence).
  exists (released s act r). split; [done|]. rewrite <- Hid in Hact. pose proof (btree_remove_perm _ _ _ Hact) as Hp.
  assert (zlen (active s) = 1 + zlen (btree_remove (ir_identity r) (active s))) as Hlen by (by rewrite (zlen_perm _ _ Hp), zlen_cons).
  assert (in_flight st ≡ₚ w :: delete index (in_flight st)) as Hpf by by apply delete_Permutation.
  split; [unfold done_count; simpl; lia|]. pose proof (run_distinct _ _ _ Hinv) as Hnd.
  rewrite (Permutation_map worker_identity Hpf) in Hnd. simpl in Hnd. apply NoDup_cons in Hnd as [Hnw Hnd].
  destruct (inv_active s Hs (ir_identity r) act) as (Hrange & _ & _); [by apply btree_get_Some; [apply Hs|]|].
  pose proof (inv_length s Hs) as Hcl. pose proof (inv_next s Hs) as Hnx. split; simpl; try done; try apply Hinv.
  - by eapply schedule_inv_released.
  - intros w' Hw'. assert (w' ∈ in_flight st) as Hin' by (rewrite Hpf; set_solver).
    destruct (run_flies _ _ _ Hinv w' Hin') as ((act' & Hact' & Hi') & Hg' & Hl'). split; [|done]. exists act'. split; [|done]. simpl.
    apply btree_get_remove; [apply Hs| |done]. rewrite Hid. intros Heq. apply Hnw. rewrite <- Heq. by apply list_elem_of_fmap_2.
  - pose proof (run_in_flight _ _ _ Hinv) as H1. fold s in H1. rewrite (zlen_perm _ _ Hpf), zlen_cons in H1. lia.
  - rewrite (run_count _ _ _ Hinv), (zlen_perm _ _ Hpf), zlen_cons. lia.
  - intros i r'. rewrite get_insert by lia. destruct (i =? active_index act) eqn:E; [|apply Hinv]. intros [= <-].
    exists (admission_invocation w.1). split; [|done]. replace i with (active_index act) by lia. rewrite Hidx.
    by rewrite <- (run_plan _ _ _ Hinv).
Qed.
Definition receives (turn : Turn) : bool := bool_decide (is_Some (turn_received turn)).
Definition receptions (turns : list Turn) : Z := zlen (filter receives turns).

Lemma receptions_cons turn turns : receptions (turn :: turns) = (if receives turn then 1 else 0) + receptions turns.
Proof. unfold receptions. rewrite filter_cons. destruct (receives turn); simpl; [by rewrite zlen_cons|done]. Qed.

Lemma run_inv_stop locations plan st :
  run_inv locations plan st ->
  run_inv locations plan {| run_admissions := (stop (run_admissions st) StopCancelled).2; in_flight := in_flight st;
                            active_count := active_count st; run_cancelled := true |}.
Proof.
  intros []. split; simpl; try done; [by apply schedule_inv_stop|]. split; [|done]. intros _. by destruct (stop_reason _).
Qed.

(** One iteration: it never panics or fails, and a delivery completes one test. *)
Lemma run_turn_spec locations plan turn st :
  covers locations plan -> run_inv locations plan st -> run_finished st = false ->
  exists st' stopped, run_turn locations turn st = Ret (Ok (st', stopped)) /\ run_inv locations plan st' /\
    run_cancelled st' = run_cancelled st || turn_cancelled turn /\
    if stopped then run_finished st' = true
    else done_count (run_admissions st') = done_count (run_admissions st) + (if receives turn then 1 else 0).
Proof.
  intros Hcov Hinv Hfin. unfold run_turn. set (cancel := negb (run_cancelled st) && turn_cancelled turn).
  match goal with |- context [admit_all _ locations ?x] => set (st1 := x) end.
  assert (run_inv locations plan st1) as Hinv1.
  { unfold st1. destruct cancel; [rewrite orb_true_r; by apply run_inv_stop|]. rewrite orb_false_r. by destruct st. }
  assert (run_cancelled st1 = run_cancelled st || turn_cancelled turn) as Hc1.
  { unfold st1, cancel. simpl. by destruct (run_cancelled st), (turn_cancelled turn). }
  assert (done_count (run_admissions st1) = done_count (run_admissions st)) as Hd1 by (unfold st1, done_count; simpl; by destruct cancel).
  clearbody st1. clear cancel.
  destruct (admit_all_spec locations plan (S (length (plan_entries (schedule_plan (run_admissions st1))))) st1 Hcov Hinv1)
    as (st2 & Hadm & Hinv2 & Hd2 & Hc2 & Hnone).
  { pose proof (inv_next _ (run_schedule_inv _ _ _ Hinv1)). rewrite (run_plan _ _ _ Hinv1) in *. unfold zlen. lia. }
  rewrite Hadm. cbn [outcome_bind].
  destruct (run_cancelled st2 && settled (run_admissions st2)) eqn:Ebreak.
  { exists st2, true. split_and!; [done|done|congruence|]. unfold run_finished. by rewrite Ebreak, orb_true_r. }
  assert (active_count st2 <> 0) as Hact.
  { rewrite (run_count _ _ _ Hinv2), (run_in_flight _ _ _ Hinv2). intros Hz.
    assert (active (run_admissions st2) = []) as Hempty by (destruct (active (run_admissions st2)); [done|]; rewrite zlen_cons in Hz; pose proof (zlen_nonneg l); lia).
    unfold settled in Ebreak. rewrite bool_decide_true, andb_true_r in Ebreak by done.
    pose proof (inv_next _ (run_schedule_inv _ _ _ Hinv2)) as Hn.
    destruct (Z.eq_dec (next_index (run_admissions st2)) (zlen (plan_entries (schedule_plan (run_admissions st2))))) as [Heq|Hne].
    - (* everything is done, but then it was before this turn *)
      assert (done_count (run_admissions st) = zlen (plan_entries plan)) as Hdone.
      { rewrite <- Hd1, <- Hd2. unfold done_count. rewrite Hempty, Heq, (run_plan _ _ _ Hinv2). unfold zlen at 2. simpl. lia. }
      pose proof (inv_next _ (run_schedule_inv _ _ _ Hinv)) as Hn0. pose proof (zlen_nonneg (active (run_admissions st))).
      unfold done_count in Hdone. rewrite (run_plan _ _ _ Hinv) in Hn0. unfold run_finished in Hfin. apply orb_false_iff in Hfin as [Hfin _].
      rewrite (proj2 (completed_all_spec _ (run_schedule_inv _ _ _ Hinv))) in Hfin; [done|]. rewrite (run_plan _ _ _ Hinv). split; [lia|].
      destruct (active (run_admissions st)); [done|]. rewrite zlen_cons in Hdone. pose proof (zlen_nonneg l). lia.
    - destruct (schedule_progress _ (run_schedule_inv _ _ _ Hinv2)) as (e & i & Ha); [|done|lia|by apply (Hnone e i)].
      destruct (stop_reason (run_admissions st2)) eqn:Er; [|done].
      assert (run_cancelled st2 = true) by (apply (run_stopped _ _ _ Hinv2); by rewrite Er). congruence. }
  rewrite (proj2 (Z.eqb_neq _ _)) by done. unfold receives. destruct (turn_received turn) as [[[choice observed] duration]|].
  - rewrite (run_count _ _ _ Hinv2) in Hact. unfold zlen in Hact.
    destruct (lookup_lt_is_Some_2 (in_flight st2) (choice mod length (in_flight st2))) as [w Hw]; [apply Nat.mod_upper_bound; lia|].
    rewrite Hw. cbn [expect outcome_bind].
    assert (w ∈ in_flight st2) as Hin by by eapply list_elem_of_lookup_2.
    destruct (run_flies _ _ _ Hinv2 w Hin) as (_ & _ & Hloc).
    destruct (run_inv_completed locations plan st2 _ w (stamp duration (run_host w.1 w.2 observed)) Hinv2 Hw) as (s' & Hcomp & Hd & Hinv').
    + by rewrite stamp_identity, run_host_identity.
    + by exists w.1, w.2, observed, duration.
    + rewrite Hcomp. cbn [outcome_bind fst snd]. eexists _, false. split; [done|]. split; [exact Hinv'|]. simpl. split; [congruence|].
      lia.
  - exists st2, false. split_and!; [done|done|congruence|]. simpl. lia.
Qed.

(** The loop: it ends once the environment has delivered often enough. *)
Lemma run_loop_spec locations plan turns st :
  covers locations plan -> run_inv locations plan st ->
  match run_loop locations turns st with
  | Ret (Ok st') => run_inv locations plan st' /\ run_finished st' = true /\
      (run_cancelled st' = true -> run_cancelled st = true \/ Exists (fun t => turn_cancelled t = true) turns)
  | OutOfFuel => done_count (run_admissions st) + receptions turns < zlen (plan_entries plan)
  | _ => False
  end.
Proof.
  intros Hcov. revert st. induction turns as [|turn turns IH]; intros st Hinv; cbn [run_loop]; destruct (run_finished st) eqn:Hfin.
  - split_and!; [done|done|by left].
  - unfold receptions. simpl. rewrite Z.add_0_r. unfold run_finished in Hfin. apply orb_false_iff in Hfin as [Hfin _].
    pose proof (run_schedule_inv _ _ _ Hinv) as Hs. pose proof (inv_next _ Hs) as Hn. rewrite (run_plan _ _ _ Hinv) in Hn.
    pose proof (zlen_nonneg (active (run_admissions st))). unfold done_count.
    destruct (Z.lt_ge_cases (next_index (run_admissions st) - zlen (active (run_admissions st))) (zlen (plan_entries plan))) as [?|Hge]; [done|].
    rewrite (proj2 (completed_all_spec _ Hs)) in Hfin; [done|]. rewrite (run_plan _ _ _ Hinv). split; [lia|].
    destruct (active (run_admissions st)); [done|]. rewrite zlen_cons in Hge. pose proof (zlen_nonneg l). lia.
  - split_and!; [done|done|by left].
  - destruct (run_turn_spec locations plan turn st Hcov Hinv Hfin) as (st' & stopped & Hturn & Hinv' & Hc & Hnext).
    rewrite Hturn. cbn [outcome_bind]. destruct stopped.
    + split_and!; [done|done|]. rewrite Hc. intros [?|?]%orb_true_iff; [by left|right; by left].
    + specialize (IH st' Hinv'). destruct (run_loop locations turns st') as [[st2|e]| |]; [|done|done|].
      * destruct IH as (Hi2 & Hf2 & Hc2). split_and!; [done|done|]. intros [H|H]%Hc2; [|right; by right].
        rewrite Hc in H. apply orb_true_iff in H as [?|?]; [by left|right; by left].
      * rewrite receptions_cons. lia.
Qed.

(** ** Lemmas: collecting results *)

Lemma elem_of_completed s r : r ∈ completed_results s <-> exists i, get (completed s) i = Some (Some r).
Proof.
  unfold completed_results. rewrite list_elem_of_omap. split.
  - intros (o & Ho & Heq). simpl in Heq. subst o. by apply elem_of_get.
  - intros [i Hi]. exists (Some r). split; [by eapply get_elem_of|done].
Qed.

Lemma completed_lookup s k r :
  schedule_inv s ->
  btree_get k (btree_collect (map (fun r => (ir_identity r, r)) (completed_results s))) = Some r <->
  r ∈ completed_results s /\ ir_identity r = k.
Proof.
  intros Hs. rewrite btree_get_collect.
  - rewrite list_elem_of_fmap. split; [|naive_solver]. intros (x & [= -> ->] & Hx). done.
  - rewrite map_map. simpl. eapply sublist_NoDup; [apply strictly_sorted_NoDup, Hs|by apply completed_results_sublist].
Qed.

Lemma plan_invocation_identity plan i invocation :
  plan_wf plan -> get (plan_invocations plan) i = Some invocation ->
  exists entry, get (plan_entries plan) i = Some entry /\ entry_identity entry = plan_identity invocation.
Proof.
  intros Hwf Hi. pose proof (get_Some_range _ _ _ Hi) as Hr. rewrite (plan_wf_lengths plan Hwf) in Hr.
  destruct (get_is_Some _ _ Hr) as [entry He]. exists entry. split; [done|].
  destruct (plan_invocation plan i entry Hwf He) as (v & Hv & Hid & _). congruence.
Qed.

(** The report: a worker's result for every invocation, or the command's
    cancellation. *)
Lemma collect_results_spec locations plan st :
  run_inv locations plan st -> run_finished st = true ->
  Forall2 (fun invocation r => ir_identity r = plan_identity invocation /\
    (reported locations invocation r \/ r = command_cancellation_result invocation /\ run_cancelled st = true))
    (plan_invocations plan) (collect_results (plan_invocations plan) (run_admissions st)).
Proof.
  intros Hinv Hfin. pose proof (run_schedule_inv _ _ _ Hinv) as Hs. pose proof (run_plan _ _ _ Hinv) as Hplan.
  pose proof (inv_plan _ Hs) as Hwf. rewrite Hplan in Hwf. unfold collect_results. apply Forall2_fmap_r, Forall_Forall2_diag, Forall_forall.
  intros invocation Hin. apply elem_of_get in Hin as [i Hi].
  destruct (plan_invocation_identity plan i invocation Hwf Hi) as (entry & He & Hid).
  unfold compose. match goal with |- context [btree_get ?k ?m] => destruct (btree_get k m) as [r|] eqn:E end; simpl.
  - apply completed_lookup in E as [Hr Heq]; [|done]. split; [done|]. left. apply elem_of_completed in Hr as [j Hj].
    destruct (run_reported _ _ _ Hinv j r Hj) as (invocation' & Hinv' & Hrep).
    destruct (plan_invocation_identity plan j invocation' Hwf Hinv') as (entry' & He' & Hid').
    destruct (inv_results _ Hs j r Hj) as (_ & e & Hej & Hre). rewrite Hplan in Hej.
    assert (j = i) as -> by (eapply (plan_identity_inj plan j i e entry); [done|done|done|congruence]). congruence.
  - split; [done|]. right. split; [done|]. unfold run_finished in Hfin. apply orb_true_iff in Hfin as [Hall|Hc]; [|by apply andb_true_iff in Hc as [? _]].
    exfalso. apply completed_all_spec in Hall as [Hn Ha]; [|done]. rewrite Hplan in Hn. pose proof (get_Some_range _ _ _ He) as Hr.
    destruct (get_is_Some (completed (run_admissions st)) i) as [[r|] Hci]; [rewrite (inv_length _ Hs), Hplan; done| |].
    + assert (btree_get (plan_identity invocation) (btree_collect (map (fun r => (ir_identity r, r)) (completed_results (run_admissions st)))) = Some r) as Hsome.
      { apply completed_lookup; [done|]. split; [apply elem_of_completed; by exists i|].
        destruct (inv_results _ Hs i r Hci) as (_ & e & Hei & Hre). rewrite Hplan in Hei. congruence. }
      congruence.
    + destruct (inv_pending _ Hs i Hci ltac:(lia)) as (k & a & Hk & _). rewrite Ha in Hk. set_solver.
Qed.
(** The whole run. *)
Lemma run_schedule_spec plan locations turns :
  plan_wf plan -> covers locations plan ->
  match run_schedule plan locations turns with
  | Ret (Ok results) => Forall2 (fun invocation r => ir_identity r = plan_identity invocation /\
      (reported locations invocation r \/
       r = command_cancellation_result invocation /\ Exists (fun t => turn_cancelled t = true) turns)) (plan_invocations plan) results
  | OutOfFuel => receptions turns < zlen (plan_entries plan)
  | _ => False
  end.
Proof.
  intros Hwf Hcov. unfold run_schedule. pose proof (run_loop_spec locations plan turns _ Hcov (run_inv_new locations plan Hwf)) as Hl.
  destruct (run_loop _ _ _) as [[st|e]| |]; [|done|done|exact Hl]. destruct Hl as (Hinv & Hfin & Hc). cbn [outcome_bind result_bind].
  eapply Forall2_impl; [by apply collect_results_spec|]. intros invocation r [Hid [Hr|[Hr Hcan]]]; [by split; [|left]|].
  split; [done|]. right. split; [done|]. by destruct (Hc Hcan).
Qed.

(** ** Lemmas: the command *)

Lemma enumerate_locations_spec host index entries locations :
  btree_wf locations -> NoDup (map entry_identity entries) -> 0 <= index -> index + zlen entries <= U32_MAX + 1 ->
  let locations' := enumerate_locations host index entries locations in
  btree_wf locations' /\
  (forall i e, get entries i = Some e -> btree_get (entry_identity e) locations' =
     Some {| location_executable := host_executable host; location_entry := {| TestCatalogEntryId_0 := index + i |};
             location_digest := host_digest host |}) /\
  (forall k, k ∉ map entry_identity entries -> btree_get k locations' = btree_get k locations).
Proof.
  revert index locations. induction entries as [|e entries IH]; intros index locations Hwf Hnd Hi Hlen; simpl.
  { split_and!; [done| |done]. intros i x Hx. apply get_Some_range in Hx. unfold zlen in Hx. simpl in Hx. lia. }
  rewrite zlen_cons in Hlen. pose proof (zlen_nonneg entries). simpl in Hnd. apply NoDup_cons in Hnd as [Hne Hnd].
  unfold u32_try_from. rewrite checked_ok by lia.
  set (location := {| location_executable := host_executable host; location_entry := {| TestCatalogEntryId_0 := index |};
                      location_digest := host_digest host |}).
  destruct (IH (index + 1) (btree_insert (entry_identity e) location locations)) as (Hw & Hin & Hout);
    [by apply btree_insert_wf|done|lia|lia|]. split_and!; [done| |].
  - intros i x Hx. pose proof (get_Some_range _ _ _ Hx). destruct (Z.eq_dec i 0) as [->|].
    + rewrite get_cons_0 in Hx. injection Hx as <-. rewrite Hout, btree_get_insert, decide_True, Z.add_0_r by done. done.
    + rewrite get_cons_S in Hx by lia. rewrite (Hin (i - 1) x Hx). by replace (index + 1 + (i - 1)) with (index + i) by lia.
  - intros k [Hk Hk']%not_elem_of_cons. rewrite Hout by done. rewrite btree_get_insert by done. by rewrite decide_False.
Qed.

(** Hosts of distinct products with canonical catalogs of addressable size. *)
Record hosts_ok (hosts : list LoadedTestHost) : Prop := {
  hosts_catalogs : Forall (fun h => catalog_wf (host_catalog h)) hosts;
  hosts_distinct : NoDup (map (fun h => catalog_product (host_catalog h)) hosts);
  hosts_size : Forall (fun h => zlen (catalog_entries (host_catalog h)) <= U32_MAX + 1) hosts;
}.

Lemma catalog_identity_product catalog e :
  catalog_wf catalog -> e ∈ catalog_entries catalog -> id_product (entry_identity e) = catalog_product catalog.
Proof. intros [_ Hf] He. rewrite Forall_forall in Hf. by apply Hf. Qed.

Lemma catalog_identities_NoDup catalog : catalog_wf catalog -> NoDup (map entry_identity (catalog_entries catalog)).
Proof. intros [Hs _]. by apply strictly_sorted_NoDup. Qed.

(** A host's entries are located at their catalog index in that host. *)
Lemma host_locations_spec hosts host i e :
  hosts_ok hosts -> host ∈ hosts -> get (catalog_entries (host_catalog host)) i = Some e ->
  btree_get (entry_identity e) (host_locations hosts) =
  Some {| location_executable := host_executable host; location_entry := {| TestCatalogEntryId_0 := i |}; location_digest := host_digest host |}.
Proof.
  unfold host_locations. assert (btree_wf ([] : list (TestIdentity * HostLocation))) as Hwf by constructor. revert Hwf.
  generalize ([] : list (TestIdentity * HostLocation)). induction hosts as [|h hosts IH]; intros m Hwf [Hc Hd Hz] Hin He; [set_solver|].
  inversion Hc as [|? ? Hch Hc']; inversion Hz as [|? ? Hzh Hz']; subst. simpl in Hd. apply NoDup_cons in Hd as [Hnp Hd]. cbn [fold_left].
  destruct (enumerate_locations_spec h 0 (catalog_entries (host_catalog h)) m) as (Hw & Hget & _); [done|by apply catalog_identities_NoDup|lia|lia|].
  apply elem_of_cons in Hin as [->|Hin]; [|by apply IH].
  specialize (Hget i e He). revert Hw Hget. generalize (enumerate_locations h 0 (catalog_entries (host_catalog h)) m).
  assert (forall h', h' ∈ hosts -> entry_identity e ∉ map entry_identity (catalog_entries (host_catalog h'))) as Hother.
  { intros h' Hh' (e' & Heq & He')%list_elem_of_fmap. apply Hnp, list_elem_of_fmap. exists h'. split; [|done].
    rewrite Forall_forall in Hc'. rewrite <- (catalog_identity_product _ _ (Hc' h' Hh') He'), <- Heq. symmetry.
    apply catalog_identity_product; [done|]. by eapply get_elem_of. }
  clear IH Hnp Hd Hc Hz He Hwf. induction hosts as [|h' hosts IH]; intros m' Hw Hget; [done|]. cbn [fold_left].
  inversion Hc' as [|? ? Hch' Hc'']; inversion Hz' as [|? ? Hzh' Hz'']; subst.
  destruct (enumerate_locations_spec h' 0 (catalog_entries (host_catalog h')) m') as (Hw' & _ & Hout); [done|by apply catalog_identities_NoDup|lia|lia|].
  apply IH; [done|done|intros h'' Hh''; apply Hother; set_solver|done|]. rewrite Hout; [done|]. apply Hother. set_solver.
Qed.

(** *** Reports *)

Definition of_product (product : ProductIdentity) (r : TestInvocationResult) : Prop := id_product (ir_identity r) = product.

#[local] Instance of_product_dec product r : Decision (of_product product r).
Proof. unfold of_product. apply _. Defined.

Lemma group_by_product_spec product results :
  default [] (btree_get product (group_by_product results)) = filter (of_product product) results /\ btree_wf (group_by_product results).
Proof.
  unfold group_by_product. assert (btree_wf ([] : list (ProductIdentity * list TestInvocationResult))) as Hwf by constructor.
  change (filter (of_product product) results) with (default [] (btree_get product ([] : list (ProductIdentity * list TestInvocationResult))) ++ filter (of_product product) results).
  revert Hwf. generalize ([] : list (ProductIdentity * list TestInvocationResult)).
  induction results as [|r results IH]; intros m Hwf; cbn [fold_left]; [by rewrite app_nil_r|].
  set (m' := btree_insert _ _ m). destruct (IH m') as [Hget Hw]; [by apply btree_insert_wf|]. split; [|done].
  rewrite Hget, filter_cons. unfold m'. rewrite btree_get_insert by done. unfold of_product at 1.
  destruct (decide (product = id_product (ir_identity r))) as [->|Hne].
  - rewrite decide_True by done. simpl. by rewrite <- app_assoc.
  - rewrite decide_False; [done|]. by intros <-.
Qed.

Lemma report_hosts_spec hosts groups :
  btree_wf groups -> NoDup (map (fun h => catalog_product (host_catalog h)) hosts) ->
  report_hosts hosts groups =
  map (fun h => {| report_product := catalog_product (host_catalog h); report_digest := host_digest h;
                   report_results := default [] (btree_get (catalog_product (host_catalog h)) groups) |}) hosts.
Proof.
  revert groups. induction hosts as [|h hosts IH]; intros groups Hwf Hnd; [done|]. simpl in Hnd |- *. apply NoDup_cons in Hnd as [Hn Hnd].
  f_equal. rewrite IH by (by try apply btree_remove_wf). apply map_ext_in. intros h' Hh'. f_equal. f_equal.
  apply btree_get_remove_ne; [done|]. intros Heq. apply Hn. rewrite <- Heq. apply list_elem_of_fmap. exists h'. split; [done|by apply list_elem_of_In].
Qed.

Lemma product_reports_spec hosts results :
  NoDup (map (fun h => catalog_product (host_catalog h)) hosts) ->
  product_reports hosts results =
  map (fun h => {| report_product := catalog_product (host_catalog h); report_digest := host_digest h;
                   report_results := filter (of_product (catalog_product (host_catalog h))) results |}) hosts.
Proof.
  intros Hnd. unfold product_reports. rewrite report_hosts_spec by (done || apply (group_by_product_spec sample_product)).
  apply map_ext. intros h. f_equal. apply group_by_product_spec.
Qed.

Lemma outcome_counts outcomes c :
  let c' := fold_left TestOutcomeCounts_include outcomes c in
  count_passed c' + count_failed c' = count_passed c + count_failed c + zlen outcomes /\
  count_failed c <= count_failed c' /\ (count_failed c' = count_failed c <-> Forall (fun o => o = Passed) outcomes).
Proof.
  revert c. induction outcomes as [|o outcomes IH]; intros c; [simpl; unfold zlen; simpl; split_and!; [lia|lia|split; [constructor|done]]|].
  cbn [fold_left]. destruct (IH (TestOutcomeCounts_include c o)) as (H1 & H2 & H3). rewrite zlen_cons, Forall_cons.
  destruct o; simpl in *; (split; [lia|]); (split; [lia|]); [rewrite H3; naive_solver|..]; (split; [lia|]); intros [? _]; done.
Qed.
(** *** Planning the selected tests *)

Lemma sublist_sorted {A} (R : A -> A -> Prop) (l k : list A) : l `sublist_of` k -> StronglySorted R k -> StronglySorted R l.
Proof.
  induction 1 as [|x l k Hs IH|x l k Hs IH]; intros Hk; [constructor|..]; inversion Hk as [|? ? Hk' Hf]; subst; [|by apply IH].
  constructor; [by apply IH|]. rewrite Forall_forall in Hf |- *. intros y Hy. apply Hf. by apply (sublist_subseteq _ _ Hs).
Qed.

Lemma map_sublist {A B} (f : A -> B) (l k : list A) : l `sublist_of` k -> map f l `sublist_of` map f k.
Proof. induction 1; simpl; by constructor. Qed.

Lemma NoDup_map_inj {A B} (f : A -> B) l x y : NoDup (map f l) -> x ∈ l -> y ∈ l -> f x = f y -> x = y.
Proof.
  induction l as [|a l IH]; simpl; intros Hnd Hx Hy Heq; [set_solver|]. apply NoDup_cons in Hnd as [Hn Hnd].
  apply elem_of_cons in Hx as [->|Hx], Hy as [->|Hy]; [done|..|by apply IH]; destruct Hn.
  - rewrite Heq. by apply list_elem_of_fmap_2.
  - rewrite <- Heq. by apply list_elem_of_fmap_2.
Qed.

Section command.
Context (hosts : list LoadedTestHost) (filters : list TestFilter) (Hhosts : hosts_ok hosts).

Definition selected (h : LoadedTestHost) : list TestEntryMetadata :=
  selection_entries (TestSelection_from_catalog (host_catalog h) (unsharded filters)).

Definition host_product (h : LoadedTestHost) : ProductIdentity := catalog_product (host_catalog h).

Definition all_selected : list TestEntryMetadata := concat (map selected hosts).

Lemma selected_sublist h : selected h `sublist_of` catalog_entries (host_catalog h).
Proof. apply select_from_sublist. Qed.

Lemma selected_sorted h : h ∈ hosts -> StronglySorted (fun a b => cmp a b = Lt) (map entry_identity (selected h)).
Proof.
  intros Hh. pose proof (hosts_catalogs _ Hhosts) as Hc. rewrite Forall_forall in Hc.
  eapply sublist_sorted; [apply map_sublist, selected_sublist|]. by apply (Hc h Hh).
Qed.

Lemma selected_product h e : h ∈ hosts -> e ∈ selected h -> id_product (entry_identity e) = host_product h.
Proof.
  intros Hh He. pose proof (hosts_catalogs _ Hhosts) as Hc. rewrite Forall_forall in Hc. apply catalog_identity_product; [by apply Hc|].
  by apply (sublist_subseteq _ _ (selected_sublist h)).
Qed.

Lemma elem_of_all_selected e : e ∈ all_selected <-> exists h, h ∈ hosts /\ e ∈ selected h.
Proof. unfold all_selected. rewrite list_elem_of_In, in_concat. setoid_rewrite in_map_iff. setoid_rewrite list_elem_of_In. naive_solver. Qed.

Lemma all_selected_NoDup : NoDup (map entry_identity all_selected).
Proof.
  unfold all_selected. enough (forall l, (forall h, h ∈ l -> h ∈ hosts) -> NoDup (map host_product l) ->
    NoDup (map entry_identity (concat (map selected l)))) as H by (apply H; [done|apply Hhosts]).
  induction l as [|h l IH]; intros Hsub Hd; [constructor|]. simpl in Hd |- *. apply NoDup_cons in Hd as [Hn Hd].
  rewrite map_app. apply NoDup_app. split_and!.
  - apply strictly_sorted_NoDup, selected_sorted, Hsub. set_solver.
  - intros x (e & -> & He)%list_elem_of_fmap Hx. apply list_elem_of_fmap in Hx as (e' & Heq & He').
    rewrite list_elem_of_In, in_concat in He'. destruct He' as (s & Hs & He'). apply in_map_iff in Hs as (h' & <- & Hh').
    apply list_elem_of_In in He', Hh'. apply Hn, list_elem_of_fmap. exists h'. split; [|done].
    change (host_product h = host_product h'). rewrite <- (selected_product h e), <- (selected_product h' e'); [by rewrite Heq|apply Hsub; set_solver|done|apply Hsub; set_solver|done].
  - apply IH; [|done]. intros h' Hh'. apply Hsub. set_solver.
Qed.

(** The identities of a product among those of the run, in order. *)
Lemma selected_of_product ids h :
  h ∈ hosts -> StronglySorted (fun a b => cmp a b = Lt) ids -> ids ≡ₚ map entry_identity all_selected ->
  filter (fun i => id_product i = host_product h) ids = map entry_identity (selected h).
Proof.
  intros Hh Hs Hp. apply strictly_sorted_eq; [by apply StronglySorted_filter|by apply selected_sorted|].
  intros x. rewrite list_elem_of_filter, Hp, !list_elem_of_fmap. split.
  - intros (Hx & e & -> & He). apply elem_of_all_selected in He as (h' & Hh' & He). exists e. split; [done|].
    assert (h' = h) as ->; [|done]. eapply (NoDup_map_inj host_product); [apply Hhosts|done|done|]. rewrite <- Hx. by rewrite (selected_product h' e).
  - intros (e & -> & He). split; [by apply selected_product|]. exists e. split; [done|]. apply elem_of_all_selected. by exists h.
Qed.
Context (options : TackTestOptions) (Hcapture : in_u64 (capture_reservation (option_capture options))) (worker_count : usize).

Definition command_selections : list TestSelection :=
  map (fun host => TestSelection_from_catalog (host_catalog host) (unsharded filters)) hosts.

Lemma command_selections_entries : concat (map selection_entries command_selections) = all_selected.
Proof. unfold command_selections, all_selected. by rewrite map_map. Qed.

Lemma command_invocations_identities :
  map plan_identity (command_invocations options command_selections) = map entry_identity all_selected.
Proof.
  unfold command_invocations, command_selections, all_selected. rewrite map_map, !concat_map, !map_map. f_equal. apply map_ext. intros h.
  rewrite map_map. done.
Qed.

Lemma command_invocations_capture i :
  i ∈ command_invocations options command_selections -> plan_capture i = option_capture options.
Proof.
  unfold command_invocations. rewrite list_elem_of_In, in_concat. intros (l & Hl & Hi). apply in_map_iff in Hl as (s & <- & _).
  by apply in_map_iff in Hi as (e & <- & _).
Qed.

Definition command_mode : TestExecutionMode :=
  let concurrency := command_concurrency options worker_count in
  if concurrency =? 1 then ModeSequential else ModeParallel concurrency.

Definition command_budget : u64 :=
  Z.min U64_MAX (capture_reservation (option_capture options) * command_concurrency options worker_count).

Lemma command_plan_ok :
  exists plan, TestExecutionPlan_try_new command_selections (command_invocations options command_selections) command_mode command_budget = Ok plan /\
    plan_wf plan /\ plan_entries plan ≡ₚ all_selected.
Proof.
  assert (1 <= command_concurrency options worker_count) as Hone by (unfold command_concurrency; lia). unfold in_u64 in Hcapture.
  assert (capture_reservation (option_capture options) <= command_budget) as Hfit.
  { unfold command_budget. pose proof (Z.mul_le_mono_nonneg_l 1 (command_concurrency options worker_count) (capture_reservation (option_capture options))). lia. }
  assert (plan_args_ok (command_invocations options command_selections) command_mode command_budget) as Hargs.
  { split.
    - unfold command_mode. destruct (_ =? 1) eqn:E; simpl; lia.
    - unfold in_u64, command_budget in *. lia.
    - apply Forall_forall. intros i Hi. rewrite (command_invocations_capture i Hi). lia. }
  pose proof (plan_try_new_spec command_selections _ _ _ Hargs) as Hs. cbv zeta in Hs. rewrite command_selections_entries in Hs.
  destruct (TestExecutionPlan_try_new _ _ _ _) as [plan|[n m|identity|identity|identity required maximum]].
  - exists plan. by destruct Hs as (? & ? & _).
  - destruct Hs as (-> & -> & Hne). destruct Hne. pose proof (f_equal length command_invocations_identities) as Hl.
    rewrite !length_map in Hl. unfold zlen. by rewrite Hl.
  - destruct Hs as [_ Hne]. destruct Hne. by rewrite command_invocations_identities.
  - destruct Hs as [Hne _]. by destruct (Hne all_selected_NoDup).
  - destruct Hs as (-> & Hlt & i & Hi & _ & Hr). rewrite (command_invocations_capture i Hi) in Hr. lia.
Qed.

Lemma command_covers plan : plan_entries plan ≡ₚ all_selected -> covers (host_locations hosts) plan.
Proof.
  intros Hp e He. rewrite Hp in He. apply elem_of_all_selected in He as (h & Hh & He).
  apply (sublist_subseteq _ _ (selected_sublist h)), elem_of_get in He as [i Hi].
  eexists. by eapply host_locations_spec.
Qed.

Lemma filter_identities product results :
  map ir_identity (filter (of_product product) results) = filter (fun i => id_product i = product) (map ir_identity results).
Proof.
  induction results as [|r results IH]; [done|]. rewrite filter_cons. cbn [map]. rewrite filter_cons. unfold of_product at 1.
  destruct (decide (id_product (ir_identity r) = product)); simpl; by rewrite IH.
Qed.

Lemma sum_selected : foldr (fun s n => zlen (selection_entries s) + n) 0 command_selections = zlen all_selected.
Proof.
  unfold command_selections, all_selected. induction hosts as [|h l IH]; [done|]. cbn [map foldr concat]. rewrite zlen_app, <- IH by
    (destruct Hhosts as [H1 H2 H3]; inversion H1; inversion H3; subst; simpl in H2; apply NoDup_cons in H2 as [_ ?]; by split). done.
Qed.

(** The report has each host's selected tests, in catalog order. *)
Lemma command_report results :
  map ir_identity results ≡ₚ map entry_identity all_selected -> StronglySorted (fun a b => cmp a b = Lt) (map ir_identity results) ->
  map (fun p => (report_product p, report_digest p, map ir_identity (report_results p))) (product_reports hosts results) =
  map (fun h => (host_product h, host_digest h, map entry_identity (selected h))) hosts.
Proof.
  intros Hp Hs. rewrite product_reports_spec by apply Hhosts. rewrite map_map. apply map_ext_in. intros h Hh%list_elem_of_In. cbn [report_product report_digest report_results].
  f_equal. rewrite filter_identities. by apply selected_of_product.
Qed.
End command.
End runner.

(** ** The guarantees *)

(** C11.  The runner is live: for every well-formed plan whose tests have hosts, and
    whatever order workers deliver in, with or without cancellation, the loop
    neither panics nor fails, ends once the environment has delivered as many
    results as there are tests, and then reports one result per planned test, in
    catalog order: the one its worker made, or the command's cancellation if the
    command was cancelled. *)
Theorem run_schedule_live digest plan locations turns :
  plan_wf plan -> covers locations plan ->
  match run_schedule digest plan locations turns with
  | Ret (Ok results) => Forall2 (fun invocation r => ir_identity r = plan_identity invocation /\
      (reported digest locations invocation r \/
       r = command_cancellation_result invocation /\ Exists (fun t => turn_cancelled t = true) turns)) (plan_invocations plan) results
  | OutOfFuel => receptions turns < zlen (plan_entries plan)
  | _ => False
  end.
Proof. apply run_schedule_spec. Qed.

Definition sample_observation : HostObservation :=
  {| observed_path := Some (lit "/tmp/result");
     observed_process := Some (HostCompleted {| status_success := true; status_code := Some 0; target_termination := None |}
                                 CapturedStream_discarded CapturedStream_discarded);
     observed_file := FileNotFound |}.

(** Workers deliver out of order, with a timeout in between. *)
Definition sample_turns : list Turn :=
  [{| turn_cancelled := false; turn_received := None |};
   {| turn_cancelled := false; turn_received := Some (0%nat, sample_observation, None) |};
   {| turn_cancelled := false; turn_received := Some (3%nat, sample_observation, Some {| TestDuration_0 := 7 |}) |};
   {| turn_cancelled := false; turn_received := Some (1%nat, sample_observation, None) |}].

Definition sample_locations : list (TestIdentity * HostLocation) :=
  host_locations [{| host_executable := lit "tests"; host_catalog := sample_catalog; host_digest := {| TestCatalogDigest_0 := repeat 4 32 |} |}].

Lemma run_schedule_live_witness :
  exists results, run_schedule (fun b => b) sample_plan sample_locations sample_turns = Ret (Ok results) /\
    Forall2 (fun invocation r => ir_identity r = plan_identity invocation /\
      (reported (fun b => b) sample_locations invocation r \/
       r = command_cancellation_result invocation /\ Exists (fun t => turn_cancelled t = true) sample_turns)) (plan_invocations sample_plan) results.
Proof.
  eexists. split; [vm_compute; reflexivity|].
  assert (covers sample_locations sample_plan) as Hcov.
  { intros e He. repeat (apply elem_of_cons in He as [->|He]; [eexists; vm_compute; reflexivity|]). by apply not_elem_of_nil in He. }
  pose proof (run_schedule_live (fun b => b) sample_plan sample_locations sample_turns sample_plan_wf Hcov) as H.
  destruct (run_schedule (fun b => b) sample_plan sample_locations sample_turns) as [[results|e]| |] eqn:E;
    vm_compute in E; [injection E as <-; exact H|discriminate E..].
Defined.

(** C17.  A test command: with canonical catalogs of distinct products and valid filters,
    building the plan cannot fail, the run ends once every selected test has been
    delivered, and the report lists for each host exactly the tests the filters
    select, in catalog order; its counts cover them all and it succeeds exactly
    when every one passed. *)
Theorem execute_loaded_correct digest hosts options worker_count turns duration filters :
  hosts_ok hosts -> selection_filters (option_filters options) = Some filters ->
  in_u64 (capture_reservation (option_capture options)) ->
  zlen (all_selected hosts filters) <= receptions turns ->
  returns (execute_loaded digest hosts options worker_count turns duration) (fun r => exists report, r = Ok report /\
    map (fun p => (report_product p, report_digest p, map ir_identity (report_results p))) (report_products report) =
    map (fun h => (host_product h, host_digest h, map entry_identity (selected filters h))) hosts /\
    summary_selected (report_selection report) = zlen (all_selected hosts filters) /\
    count_passed (report_counts report) + count_failed (report_counts report) = zlen (all_selected hosts filters) /\
    (TestCommandReport_succeeded report = true <->
     Forall (fun p => Forall (fun r => ir_outcome r = Passed) (report_results p)) (report_products report))).
Proof.
  intros Hhosts Hfilters Hcap Hturns. unfold execute_loaded. rewrite Hfilters. cbv zeta.
  change {| query_filters := filters; query_shard := None |} with (unsharded filters).
  change (map (fun host => TestSelection_from_catalog (host_catalog host) (unsharded filters)) hosts) with (command_selections hosts filters).
  destruct (command_plan_ok hosts filters Hhosts options Hcap worker_count) as (plan & Hplan & Hwf & Hperm).
  unfold command_mode, command_budget in Hplan. cbv zeta in Hplan. rewrite Hplan.
  pose proof (run_schedule_spec digest plan (host_locations hosts) turns Hwf (command_covers hosts filters Hhosts plan Hperm)) as Hrun.
  destruct (run_schedule digest plan (host_locations hosts) turns) as [[results|e]| |]; [|done|done|rewrite (zlen_perm _ _ Hperm) in Hrun; lia].
  cbn [outcome_bind]. apply returns_ret. eexists. split; [done|]. cbn [report_products report_selection report_counts TestCommandReport_new summary_selected].
  assert (map ir_identity results = map entry_identity (plan_entries plan)) as Hids.
  { rewrite <- (plan_matched _ Hwf). symmetry. clear -Hrun. induction Hrun as [|i r l l' [Hid _] _ IH]; [done|]. simpl. by rewrite Hid, IH. }
  assert (map ir_identity results ≡ₚ map entry_identity (all_selected hosts filters)) as Hp by (rewrite Hids; by apply Permutation_map).
  pose proof (command_report hosts filters Hhosts results Hp ltac:(rewrite Hids; apply Hwf)) as Hrep.
  assert (zlen (concat (map report_results (product_reports hosts results))) = zlen (all_selected hosts filters)) as Hlen.
  { apply (f_equal (map (fun t => zlen t.2))) in Hrep. rewrite !map_map in Hrep. cbn [snd] in Hrep. unfold all_selected.
    revert Hrep. clear. generalize (product_reports hosts results). induction hosts as [|h hosts IH]; intros [|p l]; try done. cbn [map].
    intros [= Hh Ht]. cbn [concat]. rewrite !zlen_app, (IH l Ht). unfold zlen in *. rewrite !length_map in Hh. lia. }
  destruct (outcome_counts (map ir_outcome (concat (map report_results (product_reports hosts results)))) {| count_passed := 0; count_failed := 0 |})
    as (Hsum & _ & Hall). cbn [count_passed count_failed] in Hsum, Hall.
  split; [done|]. split; [apply sum_selected; done|]. split; [rewrite Hsum; unfold zlen in *; rewrite length_map; lia|].
  unfold TestCommandReport_succeeded. cbn [report_counts]. rewrite Z.eqb_eq, Hall, Forall_map.
  generalize (product_reports hosts results). clear. induction l as [|p l IH]; cbn [map concat]; [split; constructor|].
  by rewrite Forall_app, Forall_cons, IH.
Qed.

Lemma execute_loaded_correct_witness :
  exists report,
    execute_loaded (fun b => b)
      [{| host_executable := lit "tests"; host_catalog := sample_catalog; host_digest := {| TestCatalogDigest_0 := repeat 4 32 |} |}]
      {| option_filters := [lit "s"]; option_concurrency := 2; option_timeout := TimeoutUnlimited; option_capture := PolicyInherited |}
      8 sample_turns None = Ret (Ok report) /\
    count_passed (report_counts report) + count_failed (report_counts report) = 3 /\ count_failed (report_counts report) = 3.
Proof.
  destruct (execute_loaded_correct (fun b => b)
      [{| host_executable := lit "tests"; host_catalog := sample_catalog; host_digest := {| TestCatalogDigest_0 := repeat 4 32 |} |}]
      {| option_filters := [lit "s"]; option_concurrency := 2; option_timeout := TimeoutUnlimited; option_capture := PolicyInherited |}
      8 sample_turns None [FilterNameContains (sample_text "s")]) as (r & Hr & report & -> & _ & _ & Hc & _).
  - split; (constructor; [|constructor]); [apply sample_catalog_wf|apply not_elem_of_nil|vm_compute; congruence].
  - reflexivity.
  - vm_compute. split; congruence.
  - vm_compute. congruence.
  - exists report. split; [exact Hr|]. split; [rewrite Hc; reflexivity|]. vm_compute in Hr. injection Hr as <-. reflexivity.
Defined.

(** A worker reports what its host wrote: when the host process ends and left the
    frame of a result that can be read, whatever follows it in the file and whatever the exit
    status, that result is the outcome exactly if it answers the command sent
    with the catalog digest expected; otherwise the outcome is a protocol
    failure, or a host failure when the process did not succeed. *)
Theorem host_result_delivered digest admission location path status stdout stderr r frame rest :
  host_result_typed r -> readable r = true -> write_host_result (W := list u8) [] r = Ok frame ->
  run_host digest admission location
    {| observed_path := Some path; observed_process := Some (HostCompleted status stdout stderr); observed_file := FileContents (frame ++ rest) |} =
  if decide (hr_command_id r = host_command_id digest path admission /\ hr_catalog_digest r = location_digest location)
  then into_invocation_result r (plan_identity (admission_invocation admission))
  else infrastructure_result_after_exit admission status InfraProtocol stdout stderr.
Proof.
  intros Ht Hs Hw. destruct (message_round_trip result_message result_ok_bytes ltac:(by repeat constructor) [] r frame (conj Ht Hs) Hw) as (f & -> & _ & Hread).
  unfold run_host, host_result, terminal_result. cbn [observed_path observed_process observed_file]. rewrite app_nil_l.
  change (read_host_result (f ++ rest)) with (read_message (dec := decode_host_result) (f ++ rest)).
  assert ((zlen (f ++ rest) =? 0) = false) as ->.
  { destruct f; [|rewrite <- app_comm_cons, zlen_cons; pose proof (zlen_nonneg (f ++ rest)); lia]. specialize (Hread []). vm_compute in Hread. discriminate Hread. }
  rewrite Hread. cbn [map_err result_bind fst snd host_command command_id command_catalog_digest].
  case_bool_decide; case_bool_decide; cbn [negb orb]; case_decide; tauto.
Qed.

