(* ===== verification/GreenTree.v ===== *)
(** * Green syntax trees

    [bray-syntax]: the parentless tree of widths that stores syntax
    ([green.rs]), the builders that make it ([builder.rs], [list/storage.rs]),
    and its iterators, which recompute absolute positions from a start offset.
    Nodes are shared and immutable; sharing is not observable, so that a node is
    its value.  The iterative [Drop] of a node frees memory only. *)

From Stdlib Require Import ZArith Lia String.
From stdpp Require Import base list numbers option.
From S2P Require Import Prelude Utf8 SourceText Snapshot SyntaxKind SyntaxToken.

(** ** green.rs: widths *)

Record GreenTrivia := { green_trivia_kind : SyntaxKind; green_trivia_width : TextSize }.

Record GreenToken := {
  green_token_kind : SyntaxKind;
  green_token_width : TextSize;
  green_token_presence : SyntaxTokenPresence;
  green_token_full_width : TextSize;
  green_leading : list GreenTrivia;
  green_trailing : list GreenTrivia;
}.

Inductive GreenElement :=
| ElementToken (token : GreenToken)
| ElementNode (node : GreenNode)
with GreenNode :=
| GreenNodeData (kind : SyntaxKind) (full_width : TextSize) (children : list GreenElement).

Definition checked_add (lhs rhs : TextSize) : outcome TextSize := expect (TextSize_checked_add lhs rhs).

Definition GreenTrivia_from_syntax_trivia (trivia : SyntaxTrivia) : GreenTrivia :=
  {| green_trivia_kind := trivia_kind trivia; green_trivia_width := TextRange_len (trivia_range trivia) |}.

Definition GreenTrivia_syntax_trivia (self : GreenTrivia) (start : TextSize) : outcome SyntaxTrivia :=
  let! end_ := checked_add start (green_trivia_width self) in
  let! range := TextRange_new start end_ in
  SyntaxTrivia_new (green_trivia_kind self) range.

Fixpoint add_trivia_widths (full_width : TextSize) (trivia : list GreenTrivia) : outcome TextSize :=
  match trivia with
  | [] => Ret full_width
  | item :: trivia =>
      let! full_width := checked_add full_width (green_trivia_width item) in
      add_trivia_widths full_width trivia
  end.

Definition full_width_for_token (width : TextSize) (leading trailing : list GreenTrivia) : outcome TextSize :=
  add_trivia_widths width (leading ++ trailing).

Definition GreenToken_from_syntax_token (token : SyntaxToken) : outcome GreenToken :=
  let leading := map GreenTrivia_from_syntax_trivia (leading_trivia token) in
  let trailing := map GreenTrivia_from_syntax_trivia (trailing_trivia token) in
  let! full_width := full_width_for_token (TextRange_len (token_range token)) leading trailing in
  Ret {| green_token_kind := token_kind token; green_token_width := TextRange_len (token_range token);
         green_token_presence := presence token; green_token_full_width := full_width;
         green_leading := leading; green_trailing := trailing |}.

Fixpoint syntax_trivia_list (trivia : list GreenTrivia) (offset : TextSize) : outcome (list SyntaxTrivia * TextSize) :=
  match trivia with
  | [] => Ret ([], offset)
  | item :: trivia =>
      let! value := GreenTrivia_syntax_trivia item offset in
      let! rest := syntax_trivia_list trivia (SyntaxTrivia_end value) in
      Ret (value :: rest.1, rest.2)
  end.

Definition GreenToken_syntax_token (self : GreenToken) (start : TextSize) : outcome SyntaxToken :=
  let! leading := syntax_trivia_list (green_leading self) start in
  let! token_end := checked_add leading.2 (green_token_width self) in
  let! trailing := syntax_trivia_list (green_trailing self) token_end in
  let! range := TextRange_new leading.2 token_end in
  with_trivia_and_presence (green_token_kind self) range (green_token_presence self) leading.1 trailing.1.

Definition GreenNode_kind (self : GreenNode) : SyntaxKind := let (kind, _, _) := self in kind.
Definition GreenNode_full_width (self : GreenNode) : TextSize := let (_, width, _) := self in width.
Definition GreenNode_children (self : GreenNode) : list GreenElement := let (_, _, children) := self in children.

Definition GreenElement_full_width (self : GreenElement) : TextSize :=
  match self with
  | ElementToken token => green_token_full_width token
  | ElementNode node => GreenNode_full_width node
  end.

Definition GreenElement_from_token (token : SyntaxToken) : outcome GreenElement :=
  let! green := GreenToken_from_syntax_token token in Ret (ElementToken green).

Fixpoint add_child_widths (width : TextSize) (children : list GreenElement) : outcome TextSize :=
  match children with
  | [] => Ret width
  | child :: children =>
      let! width := checked_add width (GreenElement_full_width child) in
      add_child_widths width children
  end.

Definition full_width_for_children (children : list GreenElement) : outcome TextSize := add_child_widths 0 children.

Definition GreenNode_new (kind : SyntaxKind) (children : list GreenElement) : outcome GreenNode :=
  let! _ := assert_ (is_node kind) in
  let! full_width := full_width_for_children children in
  Ret (GreenNodeData kind full_width children).

(** ** green.rs: iterators *)

(** The elements below an element, itself included: enough for every traversal. *)
Fixpoint element_size (e : GreenElement) : nat :=
  match e with
  | ElementToken _ => 1
  | ElementNode node => node_size node
  end
with node_size (n : GreenNode) : nat :=
  match n with
  | GreenNodeData _ _ children =>
      2 + (fix sizes l := match l with [] => 0 | e :: l => element_size e + sizes l end) children
  end%nat.

Definition elements_size (l : list GreenElement) : nat := foldr (fun e n => element_size e + n)%nat 0%nat l.

Record GreenChildCursor := { cursor_children : list GreenElement; cursor_offset : TextSize }.

(** The stack of an iterator, its top first. *)
Abbreviation GreenSyntaxTokenIter := (list GreenChildCursor).
Abbreviation GreenSkippedSyntaxIter := (list GreenChildCursor).

Definition stack_size (stack : list GreenChildCursor) : nat :=
  foldr (fun c n => 1 + elements_size (cursor_children c) + n)%nat 0%nat stack.

Definition GreenSyntaxTokenIter_new (children : list GreenElement) (start : TextSize) : GreenSyntaxTokenIter :=
  [{| cursor_children := children; cursor_offset := start |}].

(** One turn of the loop in [next]. *)
Definition token_iter_step (stack : GreenSyntaxTokenIter)
    : outcome (GreenSyntaxTokenIter + option SyntaxToken * GreenSyntaxTokenIter) :=
  match stack with
  | [] => break_ (None, [])
  | current :: rest =>
      match cursor_children current with
      | ElementToken token :: children =>
          let start := cursor_offset current in
          let! offset := checked_add start (green_token_full_width token) in
          let! token := GreenToken_syntax_token token start in
          break_ (Some token, {| cursor_children := children; cursor_offset := offset |} :: rest)
      | ElementNode node :: children =>
          let start := cursor_offset current in
          let! offset := checked_add start (GreenNode_full_width node) in
          continue_ ({| cursor_children := GreenNode_children node; cursor_offset := start |} ::
                     {| cursor_children := children; cursor_offset := offset |} :: rest)
      | [] => continue_ rest
      end
  end.

Definition GreenSyntaxTokenIter_next (stack : GreenSyntaxTokenIter) : outcome (option SyntaxToken * GreenSyntaxTokenIter) :=
  loop (S (stack_size stack)) token_iter_step stack.

Definition skipped_iter_step (stack : GreenSkippedSyntaxIter)
    : outcome (GreenSkippedSyntaxIter + option (GreenNode * TextSize) * GreenSkippedSyntaxIter) :=
  match stack with
  | [] => break_ (None, [])
  | current :: rest =>
      match cursor_children current with
      | ElementToken token :: children =>
          let! offset := checked_add (cursor_offset current) (green_token_full_width token) in
          continue_ ({| cursor_children := children; cursor_offset := offset |} :: rest)
      | ElementNode node :: children =>
          let start := cursor_offset current in
          let! offset := checked_add start (GreenNode_full_width node) in
          let rest := {| cursor_children := children; cursor_offset := offset |} :: rest in
          if bool_decide (GreenNode_kind node = SkippedSyntax) then break_ (Some (node, start), rest)
          else continue_ ({| cursor_children := GreenNode_children node; cursor_offset := start |} :: rest)
      | [] => continue_ rest
      end
  end.

Definition GreenSkippedSyntaxIter_next (stack : GreenSkippedSyntaxIter)
    : outcome (option (GreenNode * TextSize) * GreenSkippedSyntaxIter) :=
  loop (S (stack_size stack)) skipped_iter_step stack.

(** [for item in iterator]: the body folds over the items and can end the loop. *)
Section iterate.
Context {I X S R : Type} (next : I -> outcome (option X * I)) (size : I -> nat).

Definition iterate_step (body : S -> X -> outcome (S + R)) (finish : S -> R) (st : I * S) : outcome (I * S + R) :=
  let! item := next st.1 in
  match item.1 with
  | None => break_ (finish st.2)
  | Some x =>
      let! step := body st.2 x in
      match step with
      | inl s => continue_ (item.2, s)
      | inr r => break_ r
      end
  end.

Definition iterate (body : S -> X -> outcome (S + R)) (finish : S -> R) (it : I) (s : S) : outcome R :=
  loop (Datatypes.S (size it)) (iterate_step body finish) (it, s).
End iterate.

Definition iter_collect {I X} (next : I -> outcome (option X * I)) (size : I -> nat) (it : I) : outcome (list X) :=
  iterate next size (fun acc x => continue_ (acc ++ [x])) id it [].

Definition iter_any {I X} (next : I -> outcome (option X * I)) (size : I -> nat) (p : X -> bool) (it : I) : outcome bool :=
  iterate next size (fun _ x => if p x then break_ true else continue_ tt) (fun _ => false) it tt.

(** Every descendant token, in the order of the iterator. *)
Definition syntax_tokens (self : GreenNode) (start : TextSize) : outcome (list SyntaxToken) :=
  iter_collect GreenSyntaxTokenIter_next stack_size (GreenSyntaxTokenIter_new (GreenNode_children self) start).

Definition skipped_syntax_nodes (self : GreenNode) (start : TextSize) : outcome (list (GreenNode * TextSize)) :=
  iter_collect GreenSkippedSyntaxIter_next stack_size (GreenSyntaxTokenIter_new (GreenNode_children self) start).

(** [any] and the first [next] of the iterators. *)
Definition contains_recovery (self : GreenNode) (start : TextSize) : outcome bool :=
  let! missing := iter_any GreenSyntaxTokenIter_next stack_size is_missing
                    (GreenSyntaxTokenIter_new (GreenNode_children self) start) in
  if missing then Ret true
  else
    let! first := GreenSkippedSyntaxIter_next (GreenSyntaxTokenIter_new (GreenNode_children self) start) in
    Ret (bool_decide (is_Some first.1)).

Fixpoint child_tokens_from (children : list GreenElement) (offset : TextSize) : outcome (list SyntaxToken) :=
  match children with
  | [] => Ret []
  | child :: children =>
      let child_start := offset in
      let! offset := checked_add child_start (GreenElement_full_width child) in
      match child with
      | ElementToken token =>
          let! token := GreenToken_syntax_token token child_start in
          let! rest := child_tokens_from children offset in
          Ret (token :: rest)
      | ElementNode _ => child_tokens_from children offset
      end
  end.

Definition child_tokens (self : GreenNode) (start : TextSize) : outcome (list SyntaxToken) :=
  child_tokens_from (GreenNode_children self) start.

Fixpoint find_child_token (predicate : SyntaxKind -> bool) (children : list GreenElement) (offset : TextSize)
    : outcome (option SyntaxToken) :=
  match children with
  | [] => Ret None
  | child :: children =>
      let child_start := offset in
      let! offset := checked_add child_start (GreenElement_full_width child) in
      match child with
      | ElementToken token =>
          let! token := GreenToken_syntax_token token child_start in
          if predicate (token_kind token) then Ret (Some token) else find_child_token predicate children offset
      | ElementNode _ => find_child_token predicate children offset
      end
  end.

Definition first_child_token_matching (self : GreenNode) (start : TextSize) (predicate : SyntaxKind -> bool)
    : outcome (option SyntaxToken) :=
  find_child_token predicate (GreenNode_children self) start.

Definition first_child_token (self : GreenNode) (start : TextSize) (kind : SyntaxKind) : outcome (option SyntaxToken) :=
  first_child_token_matching self start (fun token_kind => bool_decide (token_kind = kind)).

Record GreenChildNodeIter := { child_iter_children : list GreenElement; child_iter_offset : TextSize; child_iter_kind : SyntaxKind }.

(** The loop in [next]; the iterator keeps what is left of the children. *)
Fixpoint child_node_next (kind : SyntaxKind) (children : list GreenElement) (offset : TextSize)
    : outcome (option (GreenNode * TextSize) * (list GreenElement * TextSize)) :=
  match children with
  | [] => Ret (None, ([], offset))
  | child :: children =>
      let start := offset in
      let! offset := checked_add start (GreenElement_full_width child) in
      match child with
      | ElementNode node =>
          if bool_decide (GreenNode_kind node = kind) then Ret (Some (node, start), (children, offset))
          else child_node_next kind children offset
      | ElementToken _ => child_node_next kind children offset
      end
  end.

Definition GreenChildNodeIter_next (self : GreenChildNodeIter) : outcome (option (GreenNode * TextSize) * GreenChildNodeIter) :=
  let! r := child_node_next (child_iter_kind self) (child_iter_children self) (child_iter_offset self) in
  Ret (r.1, {| child_iter_children := r.2.1; child_iter_offset := r.2.2; child_iter_kind := child_iter_kind self |}).

Definition GreenChildNodeIter_new (children : list GreenElement) (start : TextSize) (kind : SyntaxKind) : GreenChildNodeIter :=
  {| child_iter_children := children; child_iter_offset := start; child_iter_kind := kind |}.

Definition child_nodes (self : GreenNode) (start : TextSize) (kind : SyntaxKind) : outcome (list (GreenNode * TextSize)) :=
  iter_collect GreenChildNodeIter_next (fun it => length (child_iter_children it))
    (GreenChildNodeIter_new (GreenNode_children self) start kind).

(** [last_token]: the loop down the last children. *)
Definition last_token_step (current : GreenElement) : outcome (GreenElement + option (SyntaxKind * SyntaxTokenPresence)) :=
  match current with
  | ElementToken token => break_ (Some (green_token_kind token, green_token_presence token))
  | ElementNode node =>
      match list.last (GreenNode_children node) with
      | Some child => continue_ child
      | None => break_ None
      end
  end.

Definition last_token (children : list GreenElement) : outcome (option (SyntaxKind * SyntaxTokenPresence)) :=
  match list.last children with
  | Some current => loop (S (element_size current)) last_token_step current
  | None => Ret None
  end.

Definition GreenNode_last_token (self : GreenNode) : outcome (option (SyntaxKind * SyntaxTokenPresence)) :=
  last_token (GreenNode_children self).

Definition write_source_text (self : GreenNode) (source_text : str) (start : TextSize) (writer : str) : outcome str :=
  iterate GreenSyntaxTokenIter_next stack_size
    (fun writer token => let! writer := write_full_text token source_text writer in continue_ writer) id
    (GreenSyntaxTokenIter_new (GreenNode_children self) start) writer.

(** ** builder.rs *)

Record RequiredSyntaxSlot (T : Type) := { slot_value : option T }.
Arguments slot_value {T}.

Definition RequiredSyntaxSlot_new {T} : RequiredSyntaxSlot T := {| slot_value := None |}.

Definition RequiredSyntaxSlot_set {T} (self : RequiredSyntaxSlot T) (value : T) : outcome (RequiredSyntaxSlot T) :=
  match slot_value self with
  | Some _ => Panic
  | None => Ret {| slot_value := Some value |}
  end.

Definition RequiredSyntaxSlot_into_value {T} (self : RequiredSyntaxSlot T) : outcome T := expect (slot_value self).

Record GreenNodeBuilder := { builder_children : list GreenElement }.

Definition GreenNodeBuilder_new : GreenNodeBuilder := {| builder_children := [] |}.

Definition push_elements (self : GreenNodeBuilder) (elements : list GreenElement) : GreenNodeBuilder :=
  {| builder_children := builder_children self ++ elements |}.

Definition push_element (self : GreenNodeBuilder) (element : GreenElement) : GreenNodeBuilder := push_elements self [element].

Definition push_node (self : GreenNodeBuilder) (node : GreenNode) : GreenNodeBuilder := push_element self (ElementNode node).

Definition push_token (self : GreenNodeBuilder) (token : SyntaxToken) : outcome GreenNodeBuilder :=
  let! element := GreenElement_from_token token in Ret (push_element self element).

Fixpoint push_tokens (self : GreenNodeBuilder) (tokens : list SyntaxToken) : outcome GreenNodeBuilder :=
  match tokens with
  | [] => Ret self
  | token :: tokens => let! self := push_token self token in push_tokens self tokens
  end.

Definition GreenNodeBuilder_build (self : GreenNodeBuilder) (kind : SyntaxKind) : outcome GreenNode :=
  GreenNode_new kind (builder_children self).

Fixpoint push_present_tokens (self : GreenNodeBuilder) (tokens : list SyntaxToken) : outcome GreenNodeBuilder :=
  match tokens with
  | [] => Ret self
  | token :: tokens =>
      let! _ := assert_ (is_present token) in
      let! self := push_token self token in
      push_present_tokens self tokens
  end.

Definition skipped_syntax_node (tokens : list SyntaxToken) : outcome (option GreenNode) :=
  let! builder := push_present_tokens GreenNodeBuilder_new tokens in
  if is_nil tokens then Ret None
  else let! node := GreenNodeBuilder_build builder SkippedSyntax in Ret (Some node).

Definition push_skipped_tokens (self : GreenNodeBuilder) (tokens : list SyntaxToken) : outcome GreenNodeBuilder :=
  let! node := skipped_syntax_node tokens in
  match node with Some node => Ret (push_node self node) | None => Ret self end.

Definition builder_last_token (self : GreenNodeBuilder) : outcome (option (SyntaxKind * SyntaxTokenPresence)) :=
  match list.last (builder_children self) with
  | Some (ElementToken token) => Ret (Some (green_token_kind token, green_token_presence token))
  | Some (ElementNode node) => GreenNode_last_token node
  | None => Ret None
  end.

Definition require_token_kind (actual expected : SyntaxKind) : outcome unit := assert_ (bool_decide (actual = expected)).

(** ** list/storage.rs *)

Record SyntaxListBuilder := { list_node : GreenNodeBuilder; list_kind : SyntaxKind; separator_kind : option SyntaxKind }.

Definition SyntaxListBuilder_new (kind : SyntaxKind) : outcome SyntaxListBuilder :=
  let! _ := assert_ (is_node kind) in
  Ret {| list_node := GreenNodeBuilder_new; list_kind := kind; separator_kind := None |}.

Definition with_separator (kind separator : SyntaxKind) : outcome SyntaxListBuilder :=
  let! _ := assert_ (is_token separator) in
  let! list := SyntaxListBuilder_new kind in
  Ret {| list_node := list_node list; list_kind := list_kind list; separator_kind := Some separator |}.

Definition list_with (self : SyntaxListBuilder) (node : GreenNodeBuilder) : SyntaxListBuilder :=
  {| list_node := node; list_kind := list_kind self; separator_kind := separator_kind self |}.

Definition push_item_node (self : SyntaxListBuilder) (node : GreenNode) : SyntaxListBuilder :=
  list_with self (push_node (list_node self) node).

Definition push_separator_token (self : SyntaxListBuilder) (token : SyntaxToken) : outcome SyntaxListBuilder :=
  let! separator := expect (separator_kind self) in
  let! _ := require_token_kind (token_kind token) separator in
  let! node := push_token (list_node self) token in
  Ret (list_with self node).

Definition list_push_skipped_tokens (self : SyntaxListBuilder) (tokens : list SyntaxToken) : outcome SyntaxListBuilder :=
  let! node := push_skipped_tokens (list_node self) tokens in Ret (list_with self node).

Definition SyntaxListBuilder_build (self : SyntaxListBuilder) : outcome GreenNode :=
  GreenNodeBuilder_build (list_node self) (list_kind self).

(** ** Induction over trees *)

Section green_ind.
Context (P : GreenElement -> Prop).
Context (Htoken : forall token, P (ElementToken token)).
Context (Hnode : forall kind width children, Forall P children -> P (ElementNode (GreenNodeData kind width children))).

Fixpoint element_ind (e : GreenElement) : P e :=
  match e with
  | ElementToken token => Htoken token
  | ElementNode (GreenNodeData kind width children) =>
      Hnode kind width children
        ((fix all l : Forall P l := match l with [] => Forall_nil_2 P | e :: l => Forall_cons_2 P e l (element_ind e) (all l) end) children)
  end.
End green_ind.

(** ** Well-formed trees

    What the constructors establish: kinds of the right class, widths that add up. *)

Definition trivia_width (l : list GreenTrivia) : Z := foldr (fun t n => green_trivia_width t + n) 0 l.

Definition green_trivia_ok (t : GreenTrivia) : Prop :=
  is_trivia (green_trivia_kind t) = true /\ 0 <= green_trivia_width t.

Record green_token_ok (g : GreenToken) : Prop := {
  gt_kind : is_token (green_token_kind g) = true;
  gt_width : 0 <= green_token_width g;
  gt_leading : Forall green_trivia_ok (green_leading g);
  gt_trailing : Forall green_trivia_ok (green_trailing g);
  gt_full_width : green_token_full_width g =
    trivia_width (green_leading g) + green_token_width g + trivia_width (green_trailing g);
  gt_missing : green_token_presence g = Missing ->
    green_token_width g = 0 /\ green_leading g = [] /\ green_trailing g = [];
}.

Definition children_width (l : list GreenElement) : Z := foldr (fun e n => GreenElement_full_width e + n) 0 l.

Fixpoint element_ok (e : GreenElement) : Prop :=
  match e with
  | ElementToken token => green_token_ok token
  | ElementNode node => node_ok node
  end
with node_ok (n : GreenNode) : Prop :=
  match n with
  | GreenNodeData kind width children =>
      is_node kind = true /\ width = children_width children /\
      (fix all l := match l with [] => True | e :: l => element_ok e /\ all l end) children
  end.

Lemma node_ok_eq kind width children :
  node_ok (GreenNodeData kind width children) <->
  is_node kind = true /\ width = children_width children /\ Forall element_ok children.
Proof.
  simpl. enough ((fix all l := match l with [] => True | e :: l => element_ok e /\ all l end) children
                 <-> Forall element_ok children) as ->; [done|].
  induction children as [|e l IH]; [by split|]. rewrite Forall_cons_iff. tauto.
Qed.

Lemma node_size_eq kind width children :
  node_size (GreenNodeData kind width children) = (2 + elements_size children)%nat.
Proof. done. Qed.

Lemma trivia_width_nonneg l : Forall green_trivia_ok l -> 0 <= trivia_width l.
Proof. induction 1 as [|t l [_ Ht] _ IH]; [done|]. simpl. lia. Qed.

Lemma trivia_width_app l1 l2 : trivia_width (l1 ++ l2) = trivia_width l1 + trivia_width l2.
Proof. induction l1 as [|t l1 IH]; [done|]. simpl. lia. Qed.

Lemma token_full_width_nonneg g : green_token_ok g -> 0 <= green_token_full_width g.
Proof.
  intros [_ Hw Hl Ht -> _]. pose proof (trivia_width_nonneg _ Hl). pose proof (trivia_width_nonneg _ Ht). lia.
Qed.

Lemma element_full_width_nonneg e : element_ok e -> 0 <= GreenElement_full_width e.
Proof.
  induction e as [token|kind width children IH] using element_ind; intros Hok; [by apply token_full_width_nonneg|].
  apply node_ok_eq in Hok as (_ & -> & Hc). simpl. induction IH as [|e l He _ IHl]; [done|].
  apply Forall_cons_iff in Hc as [H1 H2]. simpl. specialize (He H1). specialize (IHl H2). lia.
Qed.

Lemma children_width_nonneg l : Forall element_ok l -> 0 <= children_width l.
Proof. induction 1 as [|e l He _ IH]; [done|]. simpl. pose proof (element_full_width_nonneg _ He). lia. Qed.

Lemma checked_add_ok a b : 0 <= a + b <= U32_MAX -> checked_add a b = Ret (a + b).
Proof. intros H. unfold checked_add, TextSize_checked_add, u32_checked_add. by rewrite checked_ok. Qed.

Lemma add_trivia_widths_ok w l :
  Forall green_trivia_ok l -> 0 <= w -> w + trivia_width l <= U32_MAX ->
  add_trivia_widths w l = Ret (w + trivia_width l).
Proof.
  intros Hl. revert w. induction Hl as [|t l [_ Ht] Hl IH]; intros w Hw Hm; simpl in *; [by rewrite Z.add_0_r|].
  pose proof (trivia_width_nonneg _ Hl). rewrite checked_add_ok by lia. simpl. rewrite IH by lia. f_equal. lia.
Qed.

Lemma add_child_widths_ok w l :
  Forall element_ok l -> 0 <= w -> w + children_width l <= U32_MAX ->
  add_child_widths w l = Ret (w + children_width l).
Proof.
  intros Hl. revert w. induction Hl as [|e l He Hl IH]; intros w Hw Hm; simpl in *; [by rewrite Z.add_0_r|].
  pose proof (children_width_nonneg _ Hl). pose proof (element_full_width_nonneg _ He).
  rewrite checked_add_ok by lia. simpl. rewrite IH by lia. f_equal. lia.
Qed.

(** A node can be made from any children that fit. *)
Lemma GreenNode_new_ok kind children :
  is_node kind = true -> Forall element_ok children -> children_width children <= U32_MAX ->
  GreenNode_new kind children = Ret (GreenNodeData kind (children_width children) children) /\
  node_ok (GreenNodeData kind (children_width children) children).
Proof.
  intros Hk Hc Hw. unfold GreenNode_new, full_width_for_children. rewrite Hk. simpl outcome_bind.
  rewrite add_child_widths_ok by done. simpl outcome_bind. rewrite Z.add_0_l. split; [done|]. by apply node_ok_eq.
Qed.

(** ** Positions

    The reference: what a tree stands for at a start offset. *)

Fixpoint trivia_at (l : list GreenTrivia) (offset : Z) : list SyntaxTrivia :=
  match l with
  | [] => []
  | t :: l =>
      {| trivia_kind := green_trivia_kind t;
         trivia_range := {| start := offset; end_ := offset + green_trivia_width t |} |} ::
      trivia_at l (offset + green_trivia_width t)
  end.

Definition token_at (g : GreenToken) (start : Z) : SyntaxToken :=
  let token_start := start + trivia_width (green_leading g) in
  let token_end := token_start + green_token_width g in
  {| token_kind := green_token_kind g; token_range := {| start := token_start; end_ := token_end |};
     presence := green_token_presence g; leading_trivia := trivia_at (green_leading g) start;
     trailing_trivia := trivia_at (green_trailing g) token_end |}.

Fixpoint element_tokens (e : GreenElement) (start : Z) : list SyntaxToken :=
  match e with
  | ElementToken token => [token_at token start]
  | ElementNode node => node_tokens node start
  end
with node_tokens (n : GreenNode) (start : Z) : list SyntaxToken :=
  match n with
  | GreenNodeData _ _ children =>
      (fix go l start := match l with
                         | [] => []
                         | e :: l => element_tokens e start ++ go l (start + GreenElement_full_width e)
                         end) children start
  end.

Fixpoint elements_tokens (l : list GreenElement) (start : Z) : list SyntaxToken :=
  match l with
  | [] => []
  | e :: l => element_tokens e start ++ elements_tokens l (start + GreenElement_full_width e)
  end.

Lemma node_tokens_eq n start : node_tokens n start = elements_tokens (GreenNode_children n) start.
Proof. destruct n as [kind width children]. simpl. revert start. induction children as [|e l IH]; intros start; [done|]. by rewrite IH. Qed.

(** Skipped nodes that are not inside another skipped node, with their starts. *)
Fixpoint element_skipped (e : GreenElement) (start : Z) : list (GreenNode * Z) :=
  match e with
  | ElementToken _ => []
  | ElementNode node => if bool_decide (GreenNode_kind node = SkippedSyntax) then [(node, start)] else node_skipped node start
  end
with node_skipped (n : GreenNode) (start : Z) : list (GreenNode * Z) :=
  match n with
  | GreenNodeData _ _ children =>
      (fix go l start := match l with
                         | [] => []
                         | e :: l => element_skipped e start ++ go l (start + GreenElement_full_width e)
                         end) children start
  end.

Fixpoint elements_skipped (l : list GreenElement) (start : Z) : list (GreenNode * Z) :=
  match l with
  | [] => []
  | e :: l => element_skipped e start ++ elements_skipped l (start + GreenElement_full_width e)
  end.

Lemma node_skipped_eq n start : node_skipped n start = elements_skipped (GreenNode_children n) start.
Proof. destruct n as [kind width children]. simpl. revert start. induction children as [|e l IH]; intros start; [done|]. by rewrite IH. Qed.

Fixpoint positioned (l : list GreenElement) (start : Z) : list (GreenElement * Z) :=
  match l with
  | [] => []
  | e :: l => (e, start) :: positioned l (start + GreenElement_full_width e)
  end.

Lemma syntax_trivia_list_ok l offset :
  Forall green_trivia_ok l -> 0 <= offset -> offset + trivia_width l <= U32_MAX ->
  syntax_trivia_list l offset = Ret (trivia_at l offset, offset + trivia_width l).
Proof.
  intros Hl. revert offset. induction Hl as [|t l [Hk Hw] Hl IH]; intros offset Ho Hm; simpl in *; [by rewrite Z.add_0_r|].
  pose proof (trivia_width_nonneg _ Hl). unfold GreenTrivia_syntax_trivia. rewrite checked_add_ok by lia. simpl.
  unfold TextRange_new. rewrite (proj2 (Z.leb_le _ _)) by lia. simpl. unfold SyntaxTrivia_new. rewrite Hk. simpl.
  unfold SyntaxTrivia_end. simpl. rewrite IH by lia. simpl. by rewrite Z.add_assoc.
Qed.

Lemma syntax_token_ok g start :
  green_token_ok g -> 0 <= start -> start + green_token_full_width g <= U32_MAX ->
  GreenToken_syntax_token g start = Ret (token_at g start).
Proof.
  intros Hok Hs Hm. destruct Hok as [Hk Hw Hl Ht Hf Hmiss]. rewrite Hf in Hm.
  pose proof (trivia_width_nonneg _ Hl). pose proof (trivia_width_nonneg _ Ht).
  unfold GreenToken_syntax_token. rewrite syntax_trivia_list_ok by (done || lia). cbn [outcome_bind fst snd].
  rewrite checked_add_ok by lia. cbn [outcome_bind]. rewrite syntax_trivia_list_ok by (done || lia). cbn [outcome_bind fst snd].
  unfold TextRange_new. rewrite (proj2 (Z.leb_le _ _)) by lia. cbn [assert_ outcome_bind].
  unfold with_trivia_and_presence. rewrite Hk. cbn [assert_ outcome_bind].
  unfold token_at. destruct (green_token_presence g) eqn:Ep; [done|].
  destruct (Hmiss eq_refl) as (-> & -> & ->). unfold TextRange_is_empty. simpl.
  by rewrite (proj2 (Z.eqb_eq _ _)) by lia.
Qed.

(** ** Iteration

    A [for] loop over an iterator is a fold over the items that remain. *)

Fixpoint fold_items {X S R} (body : S -> X -> outcome (S + R)) (finish : S -> R) (l : list X) (s : S) : outcome R :=
  match l with
  | [] => Ret (finish s)
  | x :: l =>
      let! step := body s x in
      match step with
      | inl s => fold_items body finish l s
      | inr r => Ret r
      end
  end.

(** What an iterator promises: it yields what remains, and less remains. *)
Class IteratorLaws {I X} (next : I -> outcome (option X * I)) (size : I -> nat) (ok : I -> Prop) (rest : I -> list X) :=
  next_yields : forall it, ok it -> returns (next it) (fun r =>
    match r.1 with
    | None => rest it = []
    | Some x => rest it = x :: rest r.2 /\ ok r.2 /\ (size r.2 < size it)%nat
    end).

Section iteration.
Context {I X : Type} (next : I -> outcome (option X * I)) (size : I -> nat).
Context {ok : I -> Prop} {rest : I -> list X} `{!IteratorLaws next size ok rest}.

Lemma iterate_spec {S R} (body : S -> X -> outcome (S + R)) finish it s :
  ok it -> iterate next size body finish it s = fold_items body finish (rest it) s.
Proof.
  unfold iterate. enough (forall fuel it s, ok it -> (size it < fuel)%nat ->
    loop fuel (iterate_step next body finish) (it, s) = fold_items body finish (rest it) s) as H by (intros; apply H; [done|lia]).
  clear it s. induction fuel as [|fuel IH]; intros it s Hok Hm; [lia|].
  destruct (next_yields it Hok) as ([x it'] & Hn & Hx). cbn [loop]. unfold iterate_step at 1. cbn [fst snd].
  rewrite Hn. cbn [outcome_bind fst snd] in *. destruct x as [x|]; [|by rewrite Hx].
  destruct Hx as (-> & Hok' & Hlt). cbn [fold_items]. destruct (body s x) as [[s'|r]| |]; cbn [outcome_bind]; try done.
  apply IH; [done|lia].
Qed.

Lemma iter_collect_items it : ok it -> iter_collect next size it = Ret (rest it).
Proof.
  intros Hok. unfold iter_collect. rewrite iterate_spec by done.
  enough (forall l acc, fold_items (fun acc x => continue_ (acc ++ [x])) id l acc = Ret (acc ++ l)) as -> by done.
  induction l as [|x l IH]; intros acc; simpl; [by rewrite app_nil_r|]. rewrite IH, <- app_assoc. done.
Qed.

Lemma iter_any_spec p it : ok it -> iter_any next size p it = Ret (existsb p (rest it)).
Proof.
  intros Hok. unfold iter_any. rewrite iterate_spec by done. induction (rest it) as [|x l IH]; simpl; [done|].
  destruct (p x); [done|]. apply IH.
Qed.
End iteration.

(** ** The stack iterators *)

Definition cursor_ok (c : GreenChildCursor) : Prop :=
  Forall element_ok (cursor_children c) /\ 0 <= cursor_offset c /\
  cursor_offset c + children_width (cursor_children c) <= U32_MAX.

Definition stack_tokens (stack : list GreenChildCursor) : list SyntaxToken :=
  concat (map (fun c => elements_tokens (cursor_children c) (cursor_offset c)) stack).

Definition stack_skipped (stack : list GreenChildCursor) : list (GreenNode * Z) :=
  concat (map (fun c => elements_skipped (cursor_children c) (cursor_offset c)) stack).

(** Taking one child off the top of a stack. *)
Lemma cursor_advance e children offset rest :
  Forall cursor_ok ({| cursor_children := e :: children; cursor_offset := offset |} :: rest) ->
  element_ok e /\ 0 <= offset /\ 0 <= offset + GreenElement_full_width e <= U32_MAX /\
  Forall cursor_ok ({| cursor_children := children; cursor_offset := offset + GreenElement_full_width e |} :: rest).
Proof.
  intros [(Hc & Ho & Hm) Hrest]%Forall_cons_iff. simpl in *. apply Forall_cons_iff in Hc as [He Hc].
  pose proof (element_full_width_nonneg _ He). pose proof (children_width_nonneg _ Hc).
  split_and!; [done|done|lia|lia|]. apply Forall_cons_iff. split; [|done]. split_and!; simpl; [done|lia|lia].
Qed.

(** Entering a node pushes its children. *)
Lemma cursor_enter node offset rest :
  node_ok node -> 0 <= offset -> offset + GreenNode_full_width node <= U32_MAX -> Forall cursor_ok rest ->
  Forall cursor_ok ({| cursor_children := GreenNode_children node; cursor_offset := offset |} :: rest).
Proof.
  destruct node as [kind width children]. intros (_ & -> & Hc)%node_ok_eq Ho Hm Hrest. simpl in *.
  apply Forall_cons_iff. by split.
Qed.

Lemma node_elements_size node : (node_size node = 2 + elements_size (GreenNode_children node))%nat.
Proof. destruct node. apply node_size_eq. Qed.

Lemma token_iter_step_ok stack :
  Forall cursor_ok stack -> returns (token_iter_step stack) (fun step =>
    match step with
    | inl stack' => stack_tokens stack' = stack_tokens stack /\ Forall cursor_ok stack' /\ (stack_size stack' < stack_size stack)%nat
    | inr (None, _) => stack_tokens stack = []
    | inr (Some t, stack') =>
        stack_tokens stack = t :: stack_tokens stack' /\ Forall cursor_ok stack' /\ (stack_size stack' < stack_size stack)%nat
    end).
Proof.
  intros Hok. destruct stack as [|[[|[token|node] children] offset] rest]; [by apply returns_ret| | |]; unfold token_iter_step;
    cbn [cursor_children cursor_offset].
  - apply Forall_cons_iff in Hok as [_ Hok]. apply returns_ret. split_and!; [done|done|simpl; lia].
  - apply cursor_advance in Hok as (He & Ho & Hr & Hok). simpl in He, Hr, Hok.
    rewrite checked_add_ok by lia. cbn [outcome_bind]. rewrite syntax_token_ok by (done || lia). apply returns_ret.
    split_and!; [done|done|simpl; lia].
  - apply cursor_advance in Hok as (He & Ho & Hr & Hok). cbn [GreenElement_full_width] in *.
    rewrite checked_add_ok by lia. cbn [outcome_bind]. apply returns_ret. split_and!.
    + unfold stack_tokens. cbn [map concat cursor_children cursor_offset elements_tokens element_tokens GreenElement_full_width].
      by rewrite node_tokens_eq, app_assoc.
    + apply cursor_enter; [done|done|lia|done].
    + cbn [stack_size foldr cursor_children elements_size element_size]. rewrite node_elements_size. unfold elements_size. lia.
Qed.

Lemma skipped_iter_step_ok stack :
  Forall cursor_ok stack -> returns (skipped_iter_step stack) (fun step =>
    match step with
    | inl stack' => stack_skipped stack' = stack_skipped stack /\ Forall cursor_ok stack' /\ (stack_size stack' < stack_size stack)%nat
    | inr (None, _) => stack_skipped stack = []
    | inr (Some t, stack') =>
        stack_skipped stack = t :: stack_skipped stack' /\ Forall cursor_ok stack' /\ (stack_size stack' < stack_size stack)%nat
    end).
Proof.
  intros Hok. destruct stack as [|[[|[token|node] children] offset] rest]; [by apply returns_ret| | |]; unfold skipped_iter_step;
    cbn [cursor_children cursor_offset].
  - apply Forall_cons_iff in Hok as [_ Hok]. apply returns_ret. split_and!; [done|done|simpl; lia].
  - apply cursor_advance in Hok as (He & Ho & Hr & Hok). simpl in He, Hr, Hok.
    rewrite checked_add_ok by lia. apply returns_ret. split_and!; [done|done|simpl; lia].
  - apply cursor_advance in Hok as (He & Ho & Hr & Hok). cbn [GreenElement_full_width] in *.
    rewrite checked_add_ok by lia. cbn [outcome_bind].
    unfold stack_skipped. cbn [map concat cursor_children cursor_offset elements_skipped element_skipped GreenElement_full_width].
    case_bool_decide as Hk; apply returns_ret; (split_and!; [|try done|]).
    + done.
    + cbn [stack_size foldr cursor_children elements_size element_size]. rewrite node_elements_size. unfold elements_size. lia.
    + cbn [map concat cursor_children cursor_offset]. by rewrite node_skipped_eq, app_assoc.
    + apply cursor_enter; [done|done|lia|done].
    + cbn [stack_size foldr cursor_children elements_size element_size]. rewrite node_elements_size. unfold elements_size. lia.
Qed.

(** A loop whose steps keep what remains and yield its head. *)
Lemma next_of_step {X} (step : list GreenChildCursor -> outcome (list GreenChildCursor + option X * list GreenChildCursor))
    (rest : list GreenChildCursor -> list X) stack :
  (forall stack, Forall cursor_ok stack -> returns (step stack) (fun r =>
    match r with
    | inl stack' => rest stack' = rest stack /\ Forall cursor_ok stack' /\ (stack_size stack' < stack_size stack)%nat
    | inr (None, _) => rest stack = []
    | inr (Some t, stack') => rest stack = t :: rest stack' /\ Forall cursor_ok stack' /\ (stack_size stack' < stack_size stack)%nat
    end)) ->
  Forall cursor_ok stack ->
  returns (loop (S (stack_size stack)) step stack) (fun r =>
    match r.1 with
    | None => rest stack = []
    | Some x => rest stack = x :: rest r.2 /\ Forall cursor_ok r.2 /\ (stack_size r.2 < stack_size stack)%nat
    end).
Proof.
  intros Hstep Hok.
  apply (loop_rule (fun s => Forall cursor_ok s /\ rest s = rest stack /\ (stack_size s <= stack_size stack)%nat) stack_size);
    [|done|lia]. intros s (Hs & Hr & Hle). eapply returns_mono; [by apply Hstep|].
  intros [s'|[[x|] s']]; simpl; rewrite Hr; [|intros (? & ? & ?); split_and!; [done|done|lia]|done].
  intros (? & ? & ?). split_and!; [done|done|lia|lia].
Qed.

#[export] Instance token_iterator : IteratorLaws GreenSyntaxTokenIter_next stack_size (Forall cursor_ok) stack_tokens.
Proof. intros stack Hok. by apply next_of_step; [apply token_iter_step_ok|]. Qed.

#[export] Instance skipped_iterator : IteratorLaws GreenSkippedSyntaxIter_next stack_size (Forall cursor_ok) stack_skipped.
Proof. intros stack Hok. by apply next_of_step; [apply skipped_iter_step_ok|]. Qed.

(** ** Child iterators *)

Definition child_token (c : GreenElement * Z) : option SyntaxToken :=
  match c.1 with ElementToken token => Some (token_at token c.2) | ElementNode _ => None end.

Definition child_node (kind : SyntaxKind) (c : GreenElement * Z) : option (GreenNode * Z) :=
  match c.1 with
  | ElementNode node => if bool_decide (GreenNode_kind node = kind) then Some (node, c.2) else None
  | ElementToken _ => None
  end.

Lemma child_tokens_from_ok children offset :
  Forall element_ok children -> 0 <= offset -> offset + children_width children <= U32_MAX ->
  child_tokens_from children offset = Ret (omap child_token (positioned children offset)).
Proof.
  intros Hc. revert offset. induction Hc as [|e l He Hc IH]; intros offset Ho Hm; [done|]. cbn [children_width foldr] in Hm.
  fold (children_width l) in Hm. pose proof (element_full_width_nonneg _ He). pose proof (children_width_nonneg _ Hc).
  cbn [child_tokens_from positioned]. rewrite checked_add_ok by lia. cbn [outcome_bind].
  destruct e as [token|node]; cbn [omap list_omap child_token fst snd]; [|by rewrite IH by lia].
  rewrite syntax_token_ok by (done || simpl in *; lia). cbn [outcome_bind]. by rewrite IH by lia.
Qed.

Lemma find_child_token_ok predicate children offset :
  Forall element_ok children -> 0 <= offset -> offset + children_width children <= U32_MAX ->
  find_child_token predicate children offset =
  Ret (list.head (List.filter (fun t => predicate (token_kind t)) (omap child_token (positioned children offset)))).
Proof.
  intros Hc. revert offset. induction Hc as [|e l He Hc IH]; intros offset Ho Hm; [done|]. cbn [children_width foldr] in Hm.
  fold (children_width l) in Hm. pose proof (element_full_width_nonneg _ He). pose proof (children_width_nonneg _ Hc).
  cbn [find_child_token positioned]. rewrite checked_add_ok by lia. cbn [outcome_bind].
  destruct e as [token|node]; cbn [omap list_omap child_token fst snd]; [|by rewrite IH by lia].
  rewrite syntax_token_ok by (done || simpl in *; lia). cbn [outcome_bind List.filter].
  destruct (predicate _); [done|]. by rewrite IH by lia.
Qed.

Definition child_iter_ok (it : GreenChildNodeIter) : Prop :=
  cursor_ok {| cursor_children := child_iter_children it; cursor_offset := child_iter_offset it |}.

Definition child_iter_rest (it : GreenChildNodeIter) : list (GreenNode * Z) :=
  omap (child_node (child_iter_kind it)) (positioned (child_iter_children it) (child_iter_offset it)).

#[export] Instance child_iterator :
  IteratorLaws GreenChildNodeIter_next (fun it => length (child_iter_children it)) child_iter_ok child_iter_rest.
Proof.
  intros [children offset kind] Hok. unfold GreenChildNodeIter_next, child_iter_rest, child_iter_ok in *. simpl in *.
  eapply (returns_bind _ _ (fun r => match r.1 with
    | None => omap (child_node kind) (positioned children offset) = []
    | Some x => omap (child_node kind) (positioned children offset) = x :: omap (child_node kind) (positioned r.2.1 r.2.2) /\
        cursor_ok {| cursor_children := r.2.1; cursor_offset := r.2.2 |} /\ (length r.2.1 < length children)%nat
    end)); [|intros r Hr; by apply returns_ret].
  revert offset Hok. induction children as [|e l IH]; intros offset Hok; [by apply returns_ret|].
  destruct (cursor_advance e l offset [] ltac:(by constructor)) as (He & Ho & Hr & [Hok' _]%Forall_cons_iff).
  cbn [child_node_next positioned]. rewrite checked_add_ok by lia. cbn [outcome_bind].
  specialize (IH _ Hok'). destruct e as [token|node]; cbn [omap list_omap child_node fst snd].
  - eapply returns_mono; [exact IH|]. intros [[x|] r]; [|done]. simpl. intros (? & ? & ?). split_and!; [done|done|lia].
  - case_bool_decide; [apply returns_ret; simpl; split_and!; [done|done|lia]|].
    eapply returns_mono; [exact IH|]. intros [[x|] r]; [|done]. simpl. intros (? & ? & ?). split_and!; [done|done|lia].
Qed.

(** ** Queries of a node *)

Section queries.
Context (n : GreenNode) (start : Z).
Context (Hn : node_ok n) (Hs : 0 <= start) (Hm : start + GreenNode_full_width n <= U32_MAX).

Lemma children_cursor_ok : cursor_ok {| cursor_children := GreenNode_children n; cursor_offset := start |}.
Proof using All. pose proof (cursor_enter n start [] Hn Hs Hm (List.Forall_nil _)) as [H _]%Forall_cons_iff. done. Qed.

Lemma children_stack_ok : Forall cursor_ok (GreenSyntaxTokenIter_new (GreenNode_children n) start).
Proof using All. apply Forall_cons_iff. split; [apply children_cursor_ok|done]. Qed.

Lemma stack_tokens_new : stack_tokens (GreenSyntaxTokenIter_new (GreenNode_children n) start) = node_tokens n start.
Proof using. unfold stack_tokens. simpl. by rewrite app_nil_r, node_tokens_eq. Qed.

Lemma stack_skipped_new : stack_skipped (GreenSyntaxTokenIter_new (GreenNode_children n) start) = node_skipped n start.
Proof using. unfold stack_skipped. simpl. by rewrite app_nil_r, node_skipped_eq. Qed.

Lemma syntax_tokens_ok : syntax_tokens n start = Ret (node_tokens n start).
Proof using All.
  unfold syntax_tokens. rewrite (iter_collect_items _ _ (ok := Forall cursor_ok) (rest := stack_tokens)) by apply children_stack_ok.
  by rewrite stack_tokens_new.
Qed.

Lemma skipped_syntax_nodes_ok : skipped_syntax_nodes n start = Ret (node_skipped n start).
Proof using All.
  unfold skipped_syntax_nodes. rewrite (iter_collect_items _ _ (ok := Forall cursor_ok) (rest := stack_skipped)) by apply children_stack_ok.
  by rewrite stack_skipped_new.
Qed.

Lemma contains_recovery_ok :
  contains_recovery n start = Ret (existsb is_missing (node_tokens n start) || negb (is_nil (node_skipped n start))).
Proof using All.
  unfold contains_recovery. rewrite (iter_any_spec _ _ (ok := Forall cursor_ok) (rest := stack_tokens)) by apply children_stack_ok.
  rewrite stack_tokens_new. cbn [outcome_bind]. destruct (existsb _ _); [done|].
  destruct (skipped_iterator _ children_stack_ok) as ([[x|] r] & -> & Hr); cbn [outcome_bind fst snd] in *;
    rewrite stack_skipped_new in Hr; [destruct Hr as (-> & _)|rewrite Hr]; done.
Qed.

Lemma child_tokens_ok : child_tokens n start = Ret (omap child_token (positioned (GreenNode_children n) start)).
Proof using All. destruct children_cursor_ok as (? & ? & ?). by apply child_tokens_from_ok. Qed.

Lemma first_child_token_ok kind :
  first_child_token n start kind =
  Ret (list.head (List.filter (fun t => bool_decide (token_kind t = kind)) (omap child_token (positioned (GreenNode_children n) start)))).
Proof using All. destruct children_cursor_ok as (? & ? & ?). by apply find_child_token_ok. Qed.

Lemma child_nodes_ok kind : child_nodes n start kind = Ret (omap (child_node kind) (positioned (GreenNode_children n) start)).
Proof using All.
  unfold child_nodes. rewrite (iter_collect_items _ _ (ok := child_iter_ok) (rest := child_iter_rest)); [done|]. apply children_cursor_ok.
Qed.
End queries.

(** ** Tokens that cover a text

    A present token covers its piece; a missing one stands at a position. *)
Inductive token_covers (text : str) : Z -> SyntaxToken -> Z -> Prop :=
| covers_present a t b : token_tile text a t b -> token_covers text a t b
| covers_missing a kind :
    is_token kind = true -> boundary text a ->
    token_covers text a {| token_kind := kind; token_range := TextRange_empty a; presence := Missing;
                           leading_trivia := []; trailing_trivia := [] |} a.

Inductive tokens_cover (text : str) : Z -> list SyntaxToken -> Z -> Prop :=
| cover_nil a : boundary text a -> tokens_cover text a [] a
| cover_cons a t b l c : token_covers text a t b -> tokens_cover text b l c -> tokens_cover text a (t :: l) c.

Lemma token_covers_boundaries text a t b : token_covers text a t b -> boundary text a /\ boundary text b /\ a <= b.
Proof.
  destruct 1 as [a t b Ht|a kind Hk Ha]; [|split_and!; done || lia].
  apply token_tile_boundaries in Ht as (? & ? & ? & ?). split_and!; [done|done|lia].
Qed.

Lemma tokens_cover_boundaries text a l b : tokens_cover text a l b -> boundary text a /\ boundary text b /\ a <= b.
Proof.
  induction 1 as [a Ha|a t b l c Ht H (IH1 & IH2 & IH3)]; [split_and!; done || lia|].
  apply token_covers_boundaries in Ht as (? & ? & ?). split_and!; [done|done|lia].
Qed.

Lemma tokens_cover_app text a l1 l2 c :
  tokens_cover text a (l1 ++ l2) c -> exists b, tokens_cover text a l1 b /\ tokens_cover text b l2 c.
Proof.
  revert a. induction l1 as [|t l1 IH]; intros a H; simpl in H.
  - exists a. split; [|done]. constructor. by apply tokens_cover_boundaries in H as (? & _).
  - inversion H as [|? ? b ? ? Ht H']; subst. destruct (IH _ H') as (d & H1 & H2). exists d. split; [by econstructor|done].
Qed.

Lemma token_covers_text text a t b w :
  zlen text <= U32_MAX -> token_covers text a t b -> write_full_text t text w = Ret (w ++ between text a b).
Proof.
  intros Hfit. destruct 1 as [a t b Ht|a kind Hk Ha]; [by apply token_tile_full_text|].
  unfold write_full_text. simpl. rewrite required_text_boundary by (done || simpl; lia). simpl. by rewrite between_empty.
Qed.

Lemma tokens_cover_text {R} text a l b w (finish : str -> R) :
  zlen text <= U32_MAX -> tokens_cover text a l b ->
  fold_items (fun w t => let! w := write_full_text t text w in continue_ w) finish l w = Ret (finish (w ++ between text a b)).
Proof.
  intros Hfit H. revert w. induction H as [a Ha|a t b l c Ht H IH]; intros w; [simpl; by rewrite between_empty, app_nil_r|].
  cbn [fold_items]. rewrite (token_covers_text _ _ _ _ _ Hfit Ht). cbn [outcome_bind]. rewrite IH, <- app_assoc. do 3 f_equal.
  apply token_covers_boundaries in Ht as (Ha & Hb & ?). apply tokens_cover_boundaries in H as (_ & Hc & ?).
  apply boundary_range in Ha. apply boundary_range in Hc. by rewrite between_join by lia.
Qed.

Lemma trivia_tile_green text a l b :
  trivia_tile text a l b ->
  Forall green_trivia_ok (map GreenTrivia_from_syntax_trivia l) /\
  trivia_width (map GreenTrivia_from_syntax_trivia l) = b - a /\
  trivia_at (map GreenTrivia_from_syntax_trivia l) a = l.
Proof.
  induction 1 as [a Ha|t l b Ha Hlt Hk H (IH1 & IH2 & IH3)]; simpl; [split_and!; [done|lia|done]|].
  unfold SyntaxTrivia_start, SyntaxTrivia_end, TextRange_len in *. split_and!.
  - constructor; [split; simpl; [done|unfold TextRange_len; lia]|done].
  - lia.
  - rewrite Z.add_sub_assoc, Z.add_simpl_l, IH3. f_equal. by destruct t as [k []].
Qed.

(** The widths of a token give it back at its position. *)
Lemma covers_green text a t b :
  zlen text <= U32_MAX -> token_covers text a t b ->
  exists g, GreenToken_from_syntax_token t = Ret g /\ green_token_ok g /\ green_token_full_width g = b - a /\ token_at g a = t.
Proof.
  intros Hfit. destruct 1 as [a t b Ht|a kind Hk Ha].
  - pose proof (token_tile_boundaries _ _ _ _ Ht) as (Ha & Hb & [Hs Hm] & He).
    pose proof (boundary_range _ _ Ha). pose proof (boundary_range _ _ Hb). destruct Ht as [Hl Htr Hk Hp _].
    apply trivia_tile_green in Hl as (Hl1 & Hl2 & Hl3). apply trivia_tile_green in Htr as (Ht1 & Ht2 & Ht3).
    unfold GreenToken_from_syntax_token, full_width_for_token. unfold token_start, token_end, TextRange_len in *.
    rewrite add_trivia_widths_ok; [|by apply Forall_app|lia|rewrite trivia_width_app; lia].
    eexists. split; [done|]. rewrite trivia_width_app. split_and!.
    + constructor; simpl; rewrite ?Hp; try done; lia.
    + simpl. lia.
    + unfold token_at. simpl. rewrite Hl2, Hl3. replace (a + (start (token_range t) - a)) with (start (token_range t)) by lia.
      rewrite Z.add_sub_assoc, Z.add_simpl_l, Ht3. by destruct t as [k [] p l r].
  - eexists. split; [unfold GreenToken_from_syntax_token, TextRange_len; simpl; by rewrite Z.sub_diag|].
    split_and!; [constructor; simpl; done || lia|simpl; lia|]. unfold token_at. simpl. by rewrite !Z.add_0_r.
Qed.

(** ** Concrete syntax

    A tree of positioned tokens, and the calls of a builder that make it. *)

Inductive Cst :=
| CstToken (token : SyntaxToken)
| CstNode (kind : SyntaxKind) (children : list Cst).

Section cst_ind.
Context (P : Cst -> Prop) (Htoken : forall token, P (CstToken token)).
Context (Hnode : forall kind children, Forall P children -> P (CstNode kind children)).

Fixpoint cst_ind (c : Cst) : P c :=
  match c with
  | CstToken token => Htoken token
  | CstNode kind children =>
      Hnode kind children
        ((fix all l : Forall P l := match l with [] => Forall_nil_2 P | c :: l => Forall_cons_2 P c l (cst_ind c) (all l) end) children)
  end.
End cst_ind.

Fixpoint cst_tokens (c : Cst) : list SyntaxToken :=
  match c with
  | CstToken token => [token]
  | CstNode _ children => concat (map cst_tokens children)
  end.

Fixpoint cst_ok (c : Cst) : Prop :=
  match c with
  | CstToken _ => True
  | CstNode kind children => is_node kind = true /\ foldr (fun c P => cst_ok c /\ P) True children
  end.

Fixpoint push_cst (c : Cst) (builder : GreenNodeBuilder) : outcome GreenNodeBuilder :=
  match c with
  | CstToken token => push_token builder token
  | CstNode kind children =>
      let! inner := (fix go l builder := match l with
                                         | [] => Ret builder
                                         | c :: l => let! builder := push_cst c builder in go l builder
                                         end) children GreenNodeBuilder_new in
      let! node := GreenNodeBuilder_build inner kind in
      Ret (push_node builder node)
  end.

Fixpoint push_csts (l : list Cst) (builder : GreenNodeBuilder) : outcome GreenNodeBuilder :=
  match l with
  | [] => Ret builder
  | c :: l => let! builder := push_cst c builder in push_csts l builder
  end.

Definition build_cst (kind : SyntaxKind) (children : list Cst) : outcome GreenNode :=
  let! builder := push_csts children GreenNodeBuilder_new in GreenNodeBuilder_build builder kind.

Lemma push_cst_node kind children builder :
  push_cst (CstNode kind children) builder = let! node := build_cst kind children in Ret (push_node builder node).
Proof.
  unfold build_cst. cbn [push_cst].
  enough (forall l b, (fix go l builder := match l with
                                         | [] => Ret builder
                                         | c :: l => let! builder := push_cst c builder in go l builder
                                         end) l b = push_csts l b) as ->.
  { by destruct (push_csts children GreenNodeBuilder_new). }
  done.
Qed.

Lemma cst_ok_node kind children : cst_ok (CstNode kind children) <-> is_node kind = true /\ Forall cst_ok children.
Proof. simpl. enough (foldr (fun c P => cst_ok c /\ P) True children <-> Forall cst_ok children) as -> by done.
  induction children as [|c l IH]; [by split|]. rewrite Forall_cons_iff. simpl. tauto. Qed.

(** The syntax that a tree stands for at a start offset. *)
Fixpoint cst_of (e : GreenElement) (start : Z) : Cst :=
  match e with
  | ElementToken token => CstToken (token_at token start)
  | ElementNode node => CstNode (GreenNode_kind node) (node_csts node start)
  end
with node_csts (n : GreenNode) (start : Z) : list Cst :=
  match n with
  | GreenNodeData _ _ children =>
      (fix go l start := match l with
                         | [] => []
                         | e :: l => cst_of e start :: go l (start + GreenElement_full_width e)
                         end) children start
  end.

Fixpoint csts_of (l : list GreenElement) (start : Z) : list Cst :=
  match l with
  | [] => []
  | e :: l => cst_of e start :: csts_of l (start + GreenElement_full_width e)
  end.

Lemma node_csts_eq n start : node_csts n start = csts_of (GreenNode_children n) start.
Proof. by destruct n. Qed.

Lemma element_tokens_cst e start : element_tokens e start = cst_tokens (cst_of e start).
Proof.
  revert start. induction e as [token|kind width children IH] using element_ind; intros start; [done|].
  cbn [element_tokens cst_of cst_tokens]. rewrite node_tokens_eq, node_csts_eq. simpl. revert start.
  induction IH as [|e l He _ IHl]; intros start; [done|]. simpl. by rewrite He, IHl.
Qed.

Lemma elements_tokens_cst l start : elements_tokens l start = concat (map cst_tokens (csts_of l start)).
Proof. revert start. induction l as [|e l IH]; intros start; [done|]. simpl. by rewrite element_tokens_cst, IH. Qed.

(** Missing tokens and skipped nodes are recovery. *)
Fixpoint cst_recovered (c : Cst) : bool :=
  match c with
  | CstToken token => is_missing token
  | CstNode kind children => bool_decide (kind = SkippedSyntax) || existsb cst_recovered children
  end.

Fixpoint cst_skips (c : Cst) : bool :=
  match c with
  | CstToken _ => false
  | CstNode kind children => bool_decide (kind = SkippedSyntax) || existsb cst_skips children
  end.

Lemma is_nil_app {A} (l1 l2 : list A) : is_nil (l1 ++ l2) = is_nil l1 && is_nil l2.
Proof. by destruct l1. Qed.

Lemma element_skipped_cst e start : negb (is_nil (element_skipped e start)) = cst_skips (cst_of e start).
Proof.
  revert start. induction e as [token|kind width children IH] using element_ind; intros start; [done|].
  cbn [element_skipped cst_of cst_skips]. rewrite node_skipped_eq, node_csts_eq. simpl.
  case_bool_decide; [done|]. simpl. revert start.
  induction IH as [|e l He _ IHl]; intros start; [done|]. simpl. by rewrite is_nil_app, negb_andb, He, IHl.
Qed.

Lemma elements_skipped_cst l start : negb (is_nil (elements_skipped l start)) = existsb cst_skips (csts_of l start).
Proof.
  revert start. induction l as [|e l IH]; intros start; [done|]. simpl. by rewrite is_nil_app, negb_andb, element_skipped_cst, IH.
Qed.

Lemma existsb_concat {A B} (p : B -> bool) (f : A -> list B) l : existsb p (concat (map f l)) = existsb (fun a => existsb p (f a)) l.
Proof. induction l as [|a l IH]; [done|]. simpl. by rewrite existsb_app, IH. Qed.

Lemma cst_recovered_eq c : cst_recovered c = existsb is_missing (cst_tokens c) || cst_skips c.
Proof.
  induction c as [t|kind children IH] using cst_ind; [simpl; by rewrite !orb_false_r|].
  cbn [cst_recovered cst_tokens cst_skips]. rewrite existsb_concat, orb_assoc, (orb_comm (existsb _ _)), <- orb_assoc. f_equal.
  induction IH as [|c l Hc _ IHl]; [done|]. simpl. rewrite Hc, IHl. destruct (existsb is_missing (cst_tokens c)); simpl; [done|].
  destruct (cst_skips c); simpl; [by rewrite orb_true_r|done].
Qed.

(** What pushing adds to a builder, for covering tokens. *)
Definition pushes (text : str) (push : GreenNodeBuilder -> outcome GreenNodeBuilder) (csts : list Cst) : Prop :=
  forall a b builder, tokens_cover text a (concat (map cst_tokens csts)) b ->
  exists new, push builder = Ret (push_elements builder new) /\ Forall element_ok new /\ children_width new = b - a /\
    csts_of new a = csts.

Lemma children_width_app l1 l2 : children_width (l1 ++ l2) = children_width l1 + children_width l2.
Proof. induction l1 as [|e l1 IH]; [done|]. simpl. lia. Qed.

Lemma csts_of_app l1 l2 a : csts_of (l1 ++ l2) a = csts_of l1 a ++ csts_of l2 (a + children_width l1).
Proof.
  revert a. induction l1 as [|e l1 IH]; intros a; simpl; [by rewrite Z.add_0_r|]. rewrite IH. do 3 f_equal. lia.
Qed.

Lemma push_elements_app builder l1 l2 : push_elements (push_elements builder l1) l2 = push_elements builder (l1 ++ l2).
Proof. unfold push_elements. simpl. by rewrite app_assoc. Qed.

Lemma pushes_csts text l : Forall (fun c => pushes text (push_cst c) [c]) l -> pushes text (push_csts l) l.
Proof.
  induction 1 as [|c l Hc Hl IH]; intros a b builder Hcov.
  - simpl in Hcov. inversion Hcov; subst. exists []. split_and!; [|done|simpl; lia|done]. unfold push_elements. simpl.
    rewrite app_nil_r. by destruct builder.
  - simpl in Hcov. apply tokens_cover_app in Hcov as (m & H1 & H2).
    destruct (Hc a m builder) as (e1 & E1 & O1 & W1 & T1); [simpl; by rewrite app_nil_r|].
    destruct (IH m b (push_elements builder e1) H2) as (e2 & E2 & O2 & W2 & T2). exists (e1 ++ e2). cbn [push_csts].
    rewrite E1. cbn [outcome_bind]. rewrite E2, push_elements_app. split_and!; [done|by apply Forall_app| |].
    + rewrite children_width_app. lia.
    + rewrite csts_of_app, W1, T1. replace (a + (m - a)) with m by lia. simpl. by rewrite T2.
Qed.

(** A node built from covering tokens. *)
Lemma build_pushed text kind children a b :
  zlen text <= U32_MAX -> is_node kind = true -> pushes text (push_csts children) children ->
  tokens_cover text a (concat (map cst_tokens children)) b ->
  exists node, build_cst kind children = Ret node /\ node_ok node /\ GreenNode_kind node = kind /\
    GreenNode_full_width node = b - a /\ node_csts node a = children.
Proof.
  intros Hfit Hk Hp Hcov. destruct (Hp a b GreenNodeBuilder_new Hcov) as (new & E & Hok & Hw & Ht).
  apply tokens_cover_boundaries in Hcov as (Ha & Hb & _). apply boundary_range in Ha. apply boundary_range in Hb.
  unfold build_cst. rewrite E. cbn [outcome_bind]. unfold GreenNodeBuilder_build. simpl builder_children.
  destruct (GreenNode_new_ok kind new) as [-> Hn]; [done|done|lia|]. eexists. split; [done|]. rewrite node_csts_eq. by split_and!.
Qed.

Lemma push_cst_ok text c : zlen text <= U32_MAX -> cst_ok c -> pushes text (push_cst c) [c].
Proof.
  intros Hfit. induction c as [t|kind children IH] using cst_ind; intros Hok a b builder Hcov; simpl in Hcov; rewrite ?app_nil_r in Hcov.
  - inversion Hcov as [|? ? m ? ? Ht H]; subst. inversion H; subst.
    destruct (covers_green _ _ _ _ Hfit Ht) as (g & E & Hg & Hw & Hat). exists [ElementToken g].
    cbn [push_cst]. unfold push_token, GreenElement_from_token. rewrite E. cbn [outcome_bind].
    split_and!; [done|by constructor|simpl; lia|simpl; by rewrite Hat].
  - apply cst_ok_node in Hok as [Hk Hc].
    destruct (build_pushed text kind children a b) as (node & E & Hn & Hkind & Hw & Ht); [done|done| |done|].
    { apply pushes_csts. apply List.Forall_forall. intros c Hin. rewrite List.Forall_forall in IH, Hc. by apply IH, Hc. }
    rewrite push_cst_node, E. cbn [outcome_bind]. exists [ElementNode node].
    split_and!; [done|by constructor|simpl; lia|]. simpl. by rewrite Ht, Hkind.
Qed.

Lemma build_cst_spec text kind children a b :
  zlen text <= U32_MAX -> is_node kind = true -> Forall cst_ok children ->
  tokens_cover text a (concat (map cst_tokens children)) b ->
  exists node, build_cst kind children = Ret node /\ node_ok node /\ GreenNode_kind node = kind /\
    GreenNode_full_width node = b - a /\ node_csts node a = children.
Proof.
  intros Hfit Hk Hc. apply build_pushed; [done|done|]. apply pushes_csts. eapply Forall_impl; [|exact Hc].
  intros c. by apply push_cst_ok.
Qed.

Lemma node_tokens_cst n start : node_tokens n start = concat (map cst_tokens (node_csts n start)).
Proof. by rewrite node_tokens_eq, node_csts_eq, elements_tokens_cst. Qed.

(** Recovery below a node. *)
Lemma node_recovered n start :
  existsb is_missing (node_tokens n start) || negb (is_nil (node_skipped n start)) = existsb cst_recovered (node_csts n start).
Proof.
  rewrite node_tokens_cst, node_skipped_eq, elements_skipped_cst, <- node_csts_eq, existsb_concat.
  induction (node_csts n start) as [|c l IH]; [done|]. simpl. rewrite cst_recovered_eq, <- IH.
  destruct (existsb is_missing (cst_tokens c)); simpl; [done|]. destruct (cst_skips c); simpl; [by rewrite orb_true_r|done].
Qed.

(** A tree whose tokens cover a piece of text writes that piece. *)
Lemma write_source_text_ok text node a b w :
  zlen text <= U32_MAX -> node_ok node -> a + GreenNode_full_width node <= U32_MAX -> tokens_cover text a (node_tokens node a) b ->
  write_source_text node text a w = Ret (w ++ between text a b).
Proof.
  intros Hfit Hn Hm Hcov. pose proof (tokens_cover_boundaries _ _ _ _ Hcov) as (Ha & _). apply boundary_range in Ha.
  unfold write_source_text.
  rewrite (iterate_spec _ _ (ok := Forall cursor_ok) (rest := stack_tokens)) by (apply children_stack_ok; done || lia).
  rewrite stack_tokens_new. exact (tokens_cover_text _ _ _ _ w id Hfit Hcov).
Qed.

(** ** Moving a tree *)

Definition shift_range (d : Z) (r : TextRange) : TextRange := {| start := start r + d; end_ := end_ r + d |}.

Definition shift_trivia (d : Z) (t : SyntaxTrivia) : SyntaxTrivia :=
  {| trivia_kind := trivia_kind t; trivia_range := shift_range d (trivia_range t) |}.

Definition shift_token (d : Z) (t : SyntaxToken) : SyntaxToken :=
  {| token_kind := token_kind t; token_range := shift_range d (token_range t); presence := presence t;
     leading_trivia := map (shift_trivia d) (leading_trivia t); trailing_trivia := map (shift_trivia d) (trailing_trivia t) |}.

Lemma trivia_at_shift l a d : trivia_at l (a + d) = map (shift_trivia d) (trivia_at l a).
Proof.
  revert a. induction l as [|t l IH]; intros a; [done|]. simpl. replace (a + d + green_trivia_width t) with (a + green_trivia_width t + d) by lia.
  by rewrite IH.
Qed.

Lemma token_at_shift g a d : token_at g (a + d) = shift_token d (token_at g a).
Proof.
  unfold token_at, shift_token, shift_range. simpl. rewrite trivia_at_shift.
  replace (a + d + trivia_width (green_leading g)) with (a + trivia_width (green_leading g) + d) by lia.
  replace (a + trivia_width (green_leading g) + d + green_token_width g)
    with (a + trivia_width (green_leading g) + green_token_width g + d) by lia.
  by rewrite trivia_at_shift.
Qed.

Lemma element_tokens_shift e a d : element_tokens e (a + d) = map (shift_token d) (element_tokens e a).
Proof.
  revert a. induction e as [token|kind width children IH] using element_ind; intros a; simpl element_tokens; [by rewrite token_at_shift|].
  revert a. induction IH as [|e l He _ IHl]; intros a; [done|]. rewrite map_app, He.
  replace (a + d + GreenElement_full_width e) with (a + GreenElement_full_width e + d) by lia. by rewrite IHl.
Qed.

(** ** The tree is lossless *)

(** C21. Building a tree with any nesting from tokens that cover a piece of a
    text, missing tokens included, cannot fail; the tree has the width of the
    piece, its tokens are exactly those tokens at the start of the piece and
    the same tokens moved at any other start, writing it gives back the text,
    and it reports recovery exactly when a token is missing or a node is
    skipped syntax. *)
Theorem green_tree_lossless text kind children a b :
  zlen text <= U32_MAX -> is_node kind = true -> Forall cst_ok children ->
  tokens_cover text a (concat (map cst_tokens children)) b ->
  returns (build_cst kind children) (fun node =>
    GreenNode_kind node = kind /\ GreenNode_full_width node = b - a /\
    syntax_tokens node a = Ret (concat (map cst_tokens children)) /\
    (forall a', 0 <= a' -> a' + (b - a) <= U32_MAX ->
       syntax_tokens node a' = Ret (map (shift_token (a' - a)) (concat (map cst_tokens children)))) /\
    (forall w, write_source_text node text a w = Ret (w ++ between text a b)) /\
    contains_recovery node a = Ret (existsb cst_recovered children)).
Proof.
  intros Hfit Hk Hc Hcov. destruct (build_cst_spec _ _ _ _ _ Hfit Hk Hc Hcov) as (node & -> & Hn & Hkind & Hw & Hcst).
  apply returns_ret. pose proof (tokens_cover_boundaries _ _ _ _ Hcov) as (Ha & Hb & Hle).
  apply boundary_range in Ha. apply boundary_range in Hb.
  assert (node_tokens node a = concat (map cst_tokens children)) as Ht by (by rewrite node_tokens_cst, Hcst).
  split_and!; [done|done| | | |].
  - by rewrite syntax_tokens_ok, Ht by (done || lia).
  - intros a' Ha' Hm'. rewrite syntax_tokens_ok by (done || lia). f_equal.
    pose proof (element_tokens_shift (ElementNode node) a (a' - a)) as Hs. simpl in Hs.
    replace (a + (a' - a)) with a' in Hs by lia. by rewrite Hs, Ht.
  - intros w. apply write_source_text_ok; [done|done|lia|by rewrite Ht].
  - rewrite contains_recovery_ok by (done || lia). by rewrite node_recovered, Hcst.
Qed.

Definition sample_identifier : SyntaxToken :=
  {| token_kind := IdentifierToken; token_range := {| start := 0; end_ := 1 |}; presence := Present;
     leading_trivia := []; trailing_trivia := [] |}.

Definition sample_missing : SyntaxToken :=
  {| token_kind := SemicolonToken; token_range := TextRange_empty 1; presence := Missing;
     leading_trivia := []; trailing_trivia := [] |}.

Lemma sample_cover : tokens_cover (lit "f") 0 [sample_identifier; sample_missing] 1.
Proof.
  assert (valid_utf8 (lit "f")) as Hv by (by apply valid_utf8_ascii; vm_compute; repeat constructor).
  pose proof (boundary_0 _ Hv) as H0. pose proof (boundary_len _ Hv) as H1. change (zlen (lit "f")) with 1 in H1.
  apply cover_cons with (b := 1); [apply covers_present|].
  - constructor; try done; by constructor.
  - apply cover_cons with (b := 1); [by apply covers_missing|]. by constructor.
Qed.

Lemma green_tree_lossless_witness :
  returns (build_cst SourceUnit [CstNode IdentifierListItem [CstToken sample_identifier]; CstToken sample_missing])
    (fun node => syntax_tokens node 0 = Ret [sample_identifier; sample_missing] /\ contains_recovery node 0 = Ret true).
Proof.
  eapply returns_mono.
  - apply (green_tree_lossless (lit "f") SourceUnit _ 0 1); [vm_compute; discriminate|done|repeat constructor|exact sample_cover].
  - intros node (_ & _ & Ht & _ & _ & Hr). by split.
Defined.
