(* ===== verification/SyntaxWalk.v ===== *)
(** * Walking syntax trees

    [bray-syntax]: views of nodes and the traversal with a visitor
    ([walk.rs]), the contract of typed nodes over a green node
    ([node/traits.rs], [node/support.rs]), source units ([syntax/unit.rs]) and
    the index of a tree ([tree.rs]).  A visitor is a closure: it takes its state
    and returns the new one, and it may panic. *)

From Stdlib Require Import ZArith Lia String.
From stdpp Require Import base list numbers option.
From S2P Require Import Prelude Utf8 SourceText Snapshot SyntaxKind SyntaxToken GreenTree.

(** ** Views *)

Record SyntaxNodeView := { view_source : SourceSnapshot; view_node : GreenNode; view_start : TextSize }.

Definition SyntaxNodeView_kind (self : SyntaxNodeView) : SyntaxKind := GreenNode_kind (view_node self).

Definition full_range_from_width (start width : TextSize) : outcome TextRange := expect (TextRange_with_len start width).

Definition SyntaxNodeView_full_range (self : SyntaxNodeView) : outcome TextRange :=
  full_range_from_width (view_start self) (GreenNode_full_width (view_node self)).

Definition SyntaxNodeView_is_recovered (self : SyntaxNodeView) : outcome bool :=
  if bool_decide (SyntaxNodeView_kind self = SkippedSyntax) then Ret true
  else contains_recovery (view_node self) (view_start self).

Definition SyntaxNodeView_tokens (self : SyntaxNodeView) : outcome (list SyntaxToken) :=
  syntax_tokens (view_node self) (view_start self).

Definition write_full_text_from (self : SyntaxNodeView) (source_text writer : str) : outcome str :=
  write_source_text (view_node self) source_text (view_start self) writer.

Definition full_text_from (self : SyntaxNodeView) (source_text : str) : outcome str := write_full_text_from self source_text [].

(** [cast_source_node] with the constructor of the typed node, which asserts its kind. *)
Definition cast_source_node {T} (view : SyntaxNodeView) (kind : SyntaxKind)
    (from_green : SourceSnapshot -> GreenNode -> TextSize -> outcome T) : outcome (option T) :=
  if negb (bool_decide (SyntaxNodeView_kind view = kind)) then Ret None
  else let! t := from_green (view_source view) (view_node view) (view_start view) in Ret (Some t).

Definition required_token (node : GreenNode) (start : TextSize) (kind : SyntaxKind) : outcome SyntaxToken :=
  let! token := first_child_token node start kind in expect token.

Definition required_child_node {T} (source : SourceSnapshot) (node : GreenNode) (start : TextSize) (kind : SyntaxKind)
    (wrap : SourceSnapshot -> GreenNode -> TextSize -> outcome T) : outcome T :=
  let! child := GreenChildNodeIter_next (GreenChildNodeIter_new (GreenNode_children node) start kind) in
  let! found := expect child.1 in
  wrap source found.1 found.2.

(** The separators of a node: its direct tokens of one kind. *)
Definition separator_tokens (node : GreenNode) (start : TextSize) (separator : SyntaxKind) : outcome (list SyntaxToken) :=
  let! tokens := child_tokens node start in
  Ret (List.filter (fun token => bool_decide (token_kind token = separator)) tokens).

(** ** Walking *)

Inductive SyntaxWalkEvent :=
| EnterNode (node : SyntaxNodeView)
| WalkToken (token : SyntaxToken)
| ExitNode (node : SyntaxNodeView).

Inductive SyntaxWalkControl := WalkContinue | SkipChildren | WalkStop.

Definition is_stop (control : SyntaxWalkControl) : bool := match control with WalkStop => true | _ => false end.

Record WalkCursor := { walk_cursor_node : SyntaxNodeView; walk_children : list GreenElement; walk_offset : TextSize }.

Definition WalkCursor_new (node : SyntaxNodeView) : WalkCursor :=
  {| walk_cursor_node := node; walk_children := GreenNode_children (view_node node); walk_offset := view_start node |}.

Definition walk_size (stack : list WalkCursor) : nat :=
  foldr (fun c n => 1 + elements_size (walk_children c) + n)%nat 0%nat stack.

Section walk.
Context {S : Type} (visitor : S -> SyntaxWalkEvent -> outcome (S * SyntaxWalkControl)).

Definition emit_exit (node : SyntaxNodeView) (s : S) : outcome (S * bool) :=
  let! r := visitor s (ExitNode node) in Ret (r.1, is_stop r.2).

(** Whether to stop, with the new stack and state. *)
Definition walk_child (child : GreenElement) (start : TextSize) (source : SourceSnapshot) (stack : list WalkCursor) (s : S)
    : outcome (list WalkCursor * S * bool) :=
  match child with
  | ElementToken token =>
      let! token := GreenToken_syntax_token token start in
      let! r := visitor s (WalkToken token) in
      Ret (stack, r.1, is_stop r.2)
  | ElementNode node =>
      let view := {| view_source := source; view_node := node; view_start := start |} in
      let! r := visitor s (EnterNode view) in
      match r.2 with
      | WalkContinue => Ret (WalkCursor_new view :: stack, r.1, false)
      | SkipChildren => let! e := emit_exit view r.1 in Ret (stack, e.1, e.2)
      | WalkStop => Ret (stack, r.1, true)
      end
  end.

Definition walk_step (st : list WalkCursor * S) : outcome (list WalkCursor * S + S * bool) :=
  let (stack, s) := st in
  match stack with
  | [] => break_ (s, false)
  | current :: rest =>
      match walk_children current with
      | child :: children =>
          let child_start := walk_offset current in
          let! offset := checked_add child_start (GreenElement_full_width child) in
          let current := {| walk_cursor_node := walk_cursor_node current; walk_children := children; walk_offset := offset |} in
          let! r := walk_child child child_start (view_source (walk_cursor_node current)) (current :: rest) s in
          let '(stack, s, stopped) := r in
          if stopped then break_ (s, true) else continue_ (stack, s)
      | [] =>
          let! r := emit_exit (walk_cursor_node current) s in
          if r.2 then break_ (r.1, true) else continue_ (rest, r.1)
      end
  end.

Definition walk_node (root : SyntaxNodeView) (s : S) : outcome (S * bool) :=
  let! r := visitor s (EnterNode root) in
  match r.2 with
  | WalkContinue =>
      let stack := [WalkCursor_new root] in
      loop (Datatypes.S (walk_size stack)) walk_step (stack, r.1)
  | SkipChildren => emit_exit root r.1
  | WalkStop => Ret (r.1, true)
  end.

Definition walk_syntax_node (root : SyntaxNodeView) (s : S) : outcome S :=
  let! r := walk_node root s in Ret r.1.
End walk.

(** The closure of [walk_direct_child_nodes]; its state is the depth and the state
    of the given visitor. *)
Definition direct_child_visitor {S} (visitor : S -> SyntaxNodeView -> outcome (S * SyntaxWalkControl))
    (st : usize * S) (event : SyntaxWalkEvent) : outcome (usize * S * SyntaxWalkControl) :=
  let (depth, s) := st in
  match event with
  | EnterNode node =>
      let direct_child := depth =? 1 in
      let depth := depth + 1 in
      if negb direct_child then Ret (depth, s, WalkContinue)
      else
        let! r := visitor s node in
        match r.2 with
        | WalkStop => Ret (depth, r.1, WalkStop)
        | _ => Ret (depth, r.1, SkipChildren)
        end
  | ExitNode _ => Ret (Z.max 0 (depth - 1), s, WalkContinue)
  | WalkToken _ => Ret (depth, s, WalkContinue)
  end.

Definition walk_direct_child_nodes {S} (visitor : S -> SyntaxNodeView -> outcome (S * SyntaxWalkControl))
    (node : SyntaxNodeView) (s : S) : outcome S :=
  let! r := walk_syntax_node (direct_child_visitor visitor) node (0, s) in Ret r.2.

(** ** Source units *)

Record SourceUnitSyntax := { unit_source : SourceSnapshot; unit_node : GreenNode }.

Definition SourceUnitSyntax_view (self : SourceUnitSyntax) : SyntaxNodeView :=
  {| view_source := unit_source self; view_node := unit_node self; view_start := 0 |}.

Definition SourceUnitSyntax_from_green (source : SourceSnapshot) (node : GreenNode) (start : TextSize) : outcome SourceUnitSyntax :=
  let! _ := assert_ (bool_decide (GreenNode_kind node = SourceUnit)) in
  let! _ := assert_ (start =? 0) in
  Ret {| unit_source := source; unit_node := node |}.

Record SourceUnitSyntaxBuilder := { unit_slot : RequiredSyntaxSlot SourceSnapshot; unit_builder : GreenNodeBuilder }.

Definition SourceUnitSyntaxBuilder_new (source : SourceSnapshot) : outcome SourceUnitSyntaxBuilder :=
  let! slot := RequiredSyntaxSlot_set RequiredSyntaxSlot_new source in
  Ret {| unit_slot := slot; unit_builder := GreenNodeBuilder_new |}.

Definition SourceUnitSyntaxBuilder_tokens (self : SourceUnitSyntaxBuilder) (tokens : list SyntaxToken) : outcome SourceUnitSyntaxBuilder :=
  let! builder := push_tokens (unit_builder self) tokens in
  Ret {| unit_slot := unit_slot self; unit_builder := builder |}.

Definition SourceUnitSyntaxBuilder_push_skipped_tokens (self : SourceUnitSyntaxBuilder) (tokens : list SyntaxToken)
    : outcome SourceUnitSyntaxBuilder :=
  let! builder := push_skipped_tokens (unit_builder self) tokens in
  Ret {| unit_slot := unit_slot self; unit_builder := builder |}.

(** Every other [push_..] of the builder pushes the green node of a typed child. *)
Definition SourceUnitSyntaxBuilder_push_node (self : SourceUnitSyntaxBuilder) (node : GreenNode) : SourceUnitSyntaxBuilder :=
  {| unit_slot := unit_slot self; unit_builder := push_node (unit_builder self) node |}.

Definition SourceUnitSyntax_from_builder (builder : SourceUnitSyntaxBuilder) : outcome SourceUnitSyntax :=
  let! source := RequiredSyntaxSlot_into_value (unit_slot builder) in
  let! last := builder_last_token (unit_builder builder) in
  match last with
  | Some (EndOfFileToken, Present) =>
      let! node := GreenNodeBuilder_build (unit_builder builder) SourceUnit in
      Ret {| unit_source := source; unit_node := node |}
  | _ => Panic
  end.

Definition SourceUnitSyntax_tokens (self : SourceUnitSyntax) : outcome (list SyntaxToken) := syntax_tokens (unit_node self) 0.

Definition SourceUnitSyntax_eof_token (self : SourceUnitSyntax) : outcome SyntaxToken :=
  let! tokens := SourceUnitSyntax_tokens self in expect (list.last tokens).

Definition SourceUnitSyntax_write_full_text (self : SourceUnitSyntax) (writer : str) : outcome str :=
  write_full_text_from (SourceUnitSyntax_view self) (text (unit_source self)) writer.

Fixpoint write_source_units (units : list SourceUnitSyntax) (writer : str) : outcome str :=
  match units with
  | [] => Ret writer
  | unit :: units => let! writer := SourceUnitSyntax_write_full_text unit writer in write_source_units units writer
  end.

(** ** Trees *)

Record CompilationUnitSyntax := { source_units : list SourceUnitSyntax }.
Record SyntaxTree := { tree_root : CompilationUnitSyntax }.

Definition SyntaxTree_compilation_unit (units : list SourceUnitSyntax) : SyntaxTree :=
  {| tree_root := {| source_units := units |} |}.

Definition SyntaxTree_write_full_text (self : SyntaxTree) (writer : str) : outcome str :=
  write_source_units (source_units (tree_root self)) writer.

Fixpoint walk_units {S} (visitor : S -> SyntaxWalkEvent -> outcome (S * SyntaxWalkControl)) (units : list SourceUnitSyntax) (s : S)
    : outcome S :=
  match units with
  | [] => Ret s
  | unit :: units =>
      let! r := walk_node visitor (SourceUnitSyntax_view unit) s in
      if r.2 then Ret r.1 else walk_units visitor units r.1
  end.

Definition walk_syntax_tree {S} (visitor : S -> SyntaxWalkEvent -> outcome (S * SyntaxWalkControl)) (tree : SyntaxTree) (s : S)
    : outcome S :=
  walk_units visitor (source_units (tree_root tree)) s.

Record SyntaxNodeKey := {
  key_source_id : SourceId; key_kind : SyntaxKind; key_full_range : TextRange; key_is_recovered : bool }.

#[export] Instance SyntaxNodeKey_eq_dec : EqDecision SyntaxNodeKey.
Proof. solve_decision. Defined.

Record IndexedSyntaxNode := { indexed_unit : usize; indexed_node : GreenNode; indexed_start : TextSize }.

(** The hash map of the index: at most one entry per key, in any order. *)
Abbreviation node_index := (list (SyntaxNodeKey * IndexedSyntaxNode)).

Fixpoint index_get (key : SyntaxNodeKey) (index : node_index) : option IndexedSyntaxNode :=
  match index with
  | [] => None
  | (k, node) :: index => if decide (k = key) then Some node else index_get key index
  end.

(** [entry(key).or_insert_with(..)]. *)
Definition index_or_insert (key : SyntaxNodeKey) (node : IndexedSyntaxNode) (index : node_index) : node_index :=
  match index_get key index with
  | Some _ => index
  | None => (key, node) :: index
  end.

Definition node_key (node : SyntaxNodeView) : outcome SyntaxNodeKey :=
  let! range := SyntaxNodeView_full_range node in
  let! recovered := SyntaxNodeView_is_recovered node in
  Ret {| key_source_id := source_id (view_source node); key_kind := SyntaxNodeView_kind node;
         key_full_range := range; key_is_recovered := recovered |}.

Definition index_visitor (source_index : usize) (index : node_index) (event : SyntaxWalkEvent)
    : outcome (node_index * SyntaxWalkControl) :=
  match event with
  | EnterNode node =>
      let! key := node_key node in
      Ret (index_or_insert key {| indexed_unit := source_index; indexed_node := view_node node; indexed_start := view_start node |} index,
           WalkContinue)
  | _ => Ret (index, WalkContinue)
  end.

Fixpoint index_units (source_index : usize) (units : list SourceUnitSyntax) (index : node_index) : outcome node_index :=
  match units with
  | [] => Ret index
  | unit :: units =>
      let! index := walk_syntax_node (index_visitor source_index) (SourceUnitSyntax_view unit) index in
      index_units (source_index + 1) units index
  end.

Definition indexed_nodes (root : CompilationUnitSyntax) : outcome node_index := index_units 0 (source_units root) [].

(** Indexing the source units panics out of range. *)
Definition IndexedSyntaxNode_view (self : IndexedSyntaxNode) (units : list SourceUnitSyntax) : outcome SyntaxNodeView :=
  let! unit := expect (get units (indexed_unit self)) in
  Ret {| view_source := unit_source unit; view_node := indexed_node self; view_start := indexed_start self |}.

(** The index is made once and kept; making it has no other effect. *)
Definition find_node (self : SyntaxTree) (source_id : SourceId) (kind : SyntaxKind) (full_range : TextRange) (is_recovered : bool)
    : outcome (option SyntaxNodeView) :=
  let! index := indexed_nodes (tree_root self) in
  match index_get {| key_source_id := source_id; key_kind := kind; key_full_range := full_range; key_is_recovered := is_recovered |} index with
  | None => Ret None
  | Some node => let! view := IndexedSyntaxNode_view node (source_units (tree_root self)) in Ret (Some view)
  end.

(** ** The reference: recursion over the tree *)

Section reference.
Context {S : Type} (visitor : S -> SyntaxWalkEvent -> outcome (S * SyntaxWalkControl)) (source : SourceSnapshot).

Fixpoint visit_element (e : GreenElement) (start : Z) (s : S) : outcome (S * bool) :=
  match e with
  | ElementToken token => let! r := visitor s (WalkToken (token_at token start)) in Ret (r.1, is_stop r.2)
  | ElementNode node =>
      let view := {| view_source := source; view_node := node; view_start := start |} in
      let! r := visitor s (EnterNode view) in
      match r.2 with
      | WalkContinue =>
          let! r := visit_children node start r.1 in
          if r.2 then Ret (r.1, true) else emit_exit visitor view r.1
      | SkipChildren => emit_exit visitor view r.1
      | WalkStop => Ret (r.1, true)
      end
  end
with visit_children (n : GreenNode) (start : Z) (s : S) : outcome (S * bool) :=
  match n with
  | GreenNodeData _ _ children =>
      (fix go l start s := match l with
                           | [] => Ret (s, false)
                           | e :: l =>
                               let! r := visit_element e start s in
                               if r.2 then Ret (r.1, true) else go l (start + GreenElement_full_width e) r.1
                           end) children start s
  end.

Fixpoint visit_elements (l : list GreenElement) (start : Z) (s : S) : outcome (S * bool) :=
  match l with
  | [] => Ret (s, false)
  | e :: l =>
      let! r := visit_element e start s in
      if r.2 then Ret (r.1, true) else visit_elements l (start + GreenElement_full_width e) r.1
  end.

Lemma visit_node_eq node start s :
  visit_element (ElementNode node) start s =
  let view := {| view_source := source; view_node := node; view_start := start |} in
  let! r := visitor s (EnterNode view) in
  match r.2 with
  | WalkContinue =>
      let! r := visit_elements (GreenNode_children node) start r.1 in
      if r.2 then Ret (r.1, true) else emit_exit visitor view r.1
  | SkipChildren => emit_exit visitor view r.1
  | WalkStop => Ret (r.1, true)
  end.
Proof using. by destruct node. Qed.
End reference.

(** A view of a well-formed node that fits. *)
Record view_ok (v : SyntaxNodeView) : Prop := {
  vo_node : node_ok (view_node v);
  vo_start : 0 <= view_start v;
  vo_end : view_start v + GreenNode_full_width (view_node v) <= U32_MAX;
}.

Section walking.
Context {S : Type} (visitor : S -> SyntaxWalkEvent -> outcome (S * SyntaxWalkControl)).

(** What is left of a walk. *)
Fixpoint visit_stack (stack : list WalkCursor) (s : S) : outcome (S * bool) :=
  match stack with
  | [] => Ret (s, false)
  | c :: rest =>
      let! r := visit_elements visitor (view_source (walk_cursor_node c)) (walk_children c) (walk_offset c) s in
      if r.2 then Ret (r.1, true)
      else
        let! r := emit_exit visitor (walk_cursor_node c) r.1 in
        if r.2 then Ret (r.1, true) else visit_stack rest r.1
  end.

Definition walk_cursor_ok (c : WalkCursor) : Prop :=
  cursor_ok {| cursor_children := walk_children c; cursor_offset := walk_offset c |}.

Lemma WalkCursor_new_ok v : view_ok v -> walk_cursor_ok (WalkCursor_new v).
Proof using. intros [Hn Hs Hm]. by apply children_cursor_ok. Qed.

Lemma walk_stack_ok fuel stack s :
  Forall walk_cursor_ok stack -> (walk_size stack < fuel)%nat ->
  loop fuel (walk_step visitor) (stack, s) = visit_stack stack s.
Proof using.
  revert stack s. induction fuel as [|fuel IH]; intros stack s Hok Hm; [lia|]. cbn [loop].
  destruct stack as [|[v [|e l] offset] rest]; [done| |]; unfold walk_step; cbn [walk_children walk_offset walk_cursor_node].
  - cbn [visit_stack visit_elements walk_children walk_offset walk_cursor_node outcome_bind fst snd].
    destruct (emit_exit visitor v s) as [[s' []]| |]; cbn [outcome_bind fst snd]; try done.
    apply Forall_cons_iff in Hok as [_ Hok]. apply IH; [done|]. simpl in Hm. lia.
  - apply Forall_cons_iff in Hok as [Hc Hok].
    destruct (cursor_advance e l offset [] ltac:(by constructor)) as (He & Ho & Hr & [Hc' _]%Forall_cons_iff).
    rewrite checked_add_ok by lia. cbn [outcome_bind visit_stack visit_elements walk_children walk_offset walk_cursor_node].
    assert (Forall walk_cursor_ok ({| walk_cursor_node := v; walk_children := l; walk_offset := offset + GreenElement_full_width e |} :: rest))
      as Hnext by (by constructor).
    destruct e as [g|node]; cbn [walk_child].
    + cbn [visit_element]. rewrite syntax_token_ok by (done || simpl in *; lia). cbn [outcome_bind].
      destruct (visitor s _) as [[s' control]| |]; cbn [outcome_bind fst snd]; try done.
      destruct (is_stop control); [done|]. apply IH; [done|simpl in *; lia].
    + rewrite visit_node_eq. cbv zeta. destruct (visitor s _) as [[s' []]| |]; cbn [outcome_bind fst snd]; try done.
      * set (view := {| view_source := _; view_node := node; view_start := offset |}).
        rewrite IH; [|constructor; [apply WalkCursor_new_ok; constructor; simpl in *; done || lia|done]
                     |cbn [walk_size foldr walk_children WalkCursor_new view_node elements_size element_size] in *;
                      rewrite node_elements_size in Hm; unfold elements_size in *; simpl in *; lia].
        cbn [visit_stack walk_children walk_offset walk_cursor_node WalkCursor_new view_node view_start view_source].
        destruct (visit_elements _ _ _ _ _) as [[s2 []]| |]; cbn [outcome_bind fst snd]; try done.
        destruct (emit_exit _ _ _) as [[s3 []]| |]; cbn [outcome_bind fst snd]; done.
      * destruct (emit_exit _ _ _) as [[s3 []]| |]; cbn [outcome_bind fst snd]; try done.
        apply IH; [done|]. cbn [walk_size foldr walk_children elements_size element_size] in *.
        rewrite node_elements_size in Hm. unfold elements_size in *. simpl in *. lia.
Qed.

Lemma walk_node_visits v s :
  view_ok v -> walk_node visitor v s = visit_element visitor (view_source v) (ElementNode (view_node v)) (view_start v) s.
Proof using.
  intros Hv. unfold walk_node. rewrite visit_node_eq. cbv zeta. destruct v as [source node start]. cbn [view_source view_node view_start].
  destruct (visitor s _) as [[s' []]| |]; cbn [outcome_bind fst snd]; try done.
  rewrite walk_stack_ok; [|by constructor; [apply WalkCursor_new_ok|]|lia].
  cbn [visit_stack walk_children walk_offset walk_cursor_node WalkCursor_new view_node view_start view_source].
  destruct (visit_elements _ _ _ _ _) as [[s2 []]| |]; cbn [outcome_bind fst snd]; try done.
  by destruct (emit_exit _ _ _) as [[s3 []]| |].
Qed.
End walking.

(** ** Direct children *)

Definition direct_node (source : SourceSnapshot) (c : GreenElement * Z) : option SyntaxNodeView :=
  match c.1 with
  | ElementNode node => Some {| view_source := source; view_node := node; view_start := c.2 |}
  | ElementToken _ => None
  end.

(** The child nodes of a node, in source order. *)
Definition direct_nodes (v : SyntaxNodeView) : list SyntaxNodeView :=
  omap (direct_node (view_source v)) (positioned (GreenNode_children (view_node v)) (view_start v)).

(** Visiting nodes until one stops. *)
Fixpoint visit_until_stop {S} (visitor : S -> SyntaxNodeView -> outcome (S * SyntaxWalkControl)) (l : list SyntaxNodeView) (s : S)
    : outcome (S * bool) :=
  match l with
  | [] => Ret (s, false)
  | v :: l =>
      let! r := visitor s v in
      if is_stop r.2 then Ret (r.1, true) else visit_until_stop visitor l r.1
  end.

Lemma visit_direct_children {S} (visitor : S -> SyntaxNodeView -> outcome (S * SyntaxWalkControl)) source l start s :
  visit_elements (direct_child_visitor visitor) source l start (1, s) =
  let! r := visit_until_stop visitor (omap (direct_node source) (positioned l start)) s in
  Ret (if r.2 then 2 else 1, r.1, r.2).
Proof.
  revert start s. induction l as [|e l IH]; intros start s; [done|]. cbn [visit_elements positioned].
  destruct e as [g|node]; [cbn [visit_element direct_child_visitor outcome_bind fst snd is_stop omap list_omap direct_node]; by rewrite IH|].
  rewrite visit_node_eq. cbv zeta. cbn [direct_child_visitor]. change (negb (1 =? 1)) with false. cbn [omap list_omap direct_node fst snd visit_until_stop].
  destruct (visitor s _) as [[s' []]| |]; cbn [outcome_bind fst snd is_stop]; try done;
    unfold emit_exit; cbn [direct_child_visitor outcome_bind fst snd is_stop]; change (Z.max 0 (1 + 1 - 1)) with 1; by rewrite IH.
Qed.

(** C22. The walk with its explicit stack is the recursive traversal: for every
    visitor, whatever it does with its state, whether it continues, skips
    children, stops or panics, the walk of a well-formed node gives the visitor
    the same events in the same order and ends the same way; and the walk over
    direct children visits exactly the child nodes, in source order, until the
    visitor stops. *)
Theorem walk_node_correct {S} v (s : S) :
  view_ok v ->
  (forall visitor, walk_node visitor v s = visit_element visitor (view_source v) (ElementNode (view_node v)) (view_start v) s) /\
  (forall visitor, walk_direct_child_nodes visitor v s =
     let! r := visit_until_stop visitor (direct_nodes v) s in Ret r.1).
Proof.
  intros Hv. split; [intros visitor; by apply walk_node_visits|]. intros visitor.
  unfold walk_direct_child_nodes, walk_syntax_node. rewrite walk_node_visits by done. rewrite visit_node_eq. cbv zeta.
  cbn [direct_child_visitor]. change (negb (0 =? 1)) with true. cbn [outcome_bind fst snd]. change (0 + 1) with 1.
  rewrite visit_direct_children. unfold direct_nodes. destruct (visit_until_stop _ _ _) as [[s' []]| |]; cbn [outcome_bind fst snd]; try done.
Qed.

(** ** Every node of a tree *)

Fixpoint element_views (source : SourceSnapshot) (e : GreenElement) (start : Z) : list SyntaxNodeView :=
  match e with
  | ElementToken _ => []
  | ElementNode node => {| view_source := source; view_node := node; view_start := start |} :: node_views source node start
  end
with node_views (source : SourceSnapshot) (n : GreenNode) (start : Z) : list SyntaxNodeView :=
  match n with
  | GreenNodeData _ _ children =>
      (fix go l start := match l with
                         | [] => []
                         | e :: l => element_views source e start ++ go l (start + GreenElement_full_width e)
                         end) children start
  end.

Fixpoint elements_views (source : SourceSnapshot) (l : list GreenElement) (start : Z) : list SyntaxNodeView :=
  match l with
  | [] => []
  | e :: l => element_views source e start ++ elements_views source l (start + GreenElement_full_width e)
  end.

Lemma element_views_node source node start :
  element_views source (ElementNode node) start =
  {| view_source := source; view_node := node; view_start := start |} :: elements_views source (GreenNode_children node) start.
Proof.
  destruct node as [kind width children]. simpl. f_equal. revert start.
  induction children as [|e l IH]; intros start; [done|]. by rewrite IH.
Qed.

Definition element_fits (e : GreenElement) (start : Z) : Prop :=
  element_ok e /\ 0 <= start /\ start + GreenElement_full_width e <= U32_MAX.

(** A visitor that only collects from nodes is a fold over the nodes. *)
Lemma visit_collects {S} (visitor : S -> SyntaxWalkEvent -> outcome (S * SyntaxWalkControl)) (f : S -> SyntaxNodeView -> S) source e start s :
  (forall s v, view_ok v -> visitor s (EnterNode v) = Ret (f s v, WalkContinue)) ->
  (forall s t, visitor s (WalkToken t) = Ret (s, WalkContinue)) ->
  (forall s v, visitor s (ExitNode v) = Ret (s, WalkContinue)) ->
  element_fits e start ->
  visit_element visitor source e start s = Ret (fold_left f (element_views source e start) s, false).
Proof.
  intros Henter Htoken Hexit. revert start s. induction e as [g|kind width children IH] using element_ind; intros start s (Hok & Hs & Hm).
  { cbn [visit_element]. by rewrite Htoken. }
  rewrite visit_node_eq, element_views_node. cbv zeta. rewrite Henter by (constructor; done). cbn [outcome_bind fst snd fold_left GreenNode_children].
  set (s1 := f s _). clearbody s1.
  assert (visit_elements visitor source children start s1 = Ret (fold_left f (elements_views source children start) s1, false)) as ->.
  2: { cbn [outcome_bind fst snd]. unfold emit_exit. by rewrite Hexit. }
  apply node_ok_eq in Hok as (_ & -> & Hc). simpl in Hm. clear s. revert start s1 Hs Hm.
  induction IH as [|e l He _ IHl]; intros start s Hs Hm; [done|]. apply Forall_cons_iff in Hc as [H1 H2].
  cbn [visit_elements elements_views children_width foldr] in *. fold (children_width l) in Hm.
  pose proof (element_full_width_nonneg _ H1). pose proof (children_width_nonneg _ H2).
  rewrite He by (split_and!; done || lia). cbn [outcome_bind fst snd]. rewrite IHl by (done || lia). by rewrite fold_left_app.
Qed.

(** What identifies a node. *)
Definition view_key (v : SyntaxNodeView) : SyntaxNodeKey :=
  {| key_source_id := source_id (view_source v); key_kind := SyntaxNodeView_kind v;
     key_full_range := {| start := view_start v; end_ := view_start v + GreenNode_full_width (view_node v) |};
     key_is_recovered := cst_recovered (cst_of (ElementNode (view_node v)) (view_start v)) |}.

Lemma node_full_width_nonneg n : node_ok n -> 0 <= GreenNode_full_width n.
Proof. intros Hn. by apply (element_full_width_nonneg (ElementNode n)). Qed.

Lemma node_key_ok v : view_ok v -> node_key v = Ret (view_key v).
Proof.
  intros [Hn Hs Hm]. pose proof (node_full_width_nonneg _ Hn). unfold node_key, SyntaxNodeView_full_range, full_range_from_width, TextRange_with_len.
  unfold TextSize_checked_add, u32_checked_add. rewrite checked_ok by lia. cbn [expect outcome_bind].
  unfold SyntaxNodeView_is_recovered, view_key. cbn [cst_of cst_recovered]. unfold SyntaxNodeView_kind.
  case_bool_decide; [done|]. rewrite contains_recovery_ok, node_recovered by done. done.
Qed.

Lemma index_get_or_insert key k node index :
  index_get key (index_or_insert k node index) =
  match index_get key index with Some n => Some n | None => if decide (k = key) then Some node else None end.
Proof.
  unfold index_or_insert. destruct (index_get k index) as [n|] eqn:E; simpl.
  - destruct (index_get key index) eqn:E'; [done|]. destruct (decide (k = key)) as [->|]; [congruence|done].
  - destruct (decide (k = key)) as [->|]; [by rewrite E|]. by destruct (index_get key index).
Qed.

(** The first node of a list with a key. *)
Definition first_with_key (key : SyntaxNodeKey) (l : list SyntaxNodeView) : option SyntaxNodeView :=
  List.find (fun v => bool_decide (view_key v = key)) l.

Definition indexed (i : usize) (v : SyntaxNodeView) : IndexedSyntaxNode :=
  {| indexed_unit := i; indexed_node := view_node v; indexed_start := view_start v |}.

Lemma index_fold key i l index :
  index_get key (fold_left (fun index v => index_or_insert (view_key v) (indexed i v) index) l index) =
  match index_get key index with Some n => Some n | None => option_map (indexed i) (first_with_key key l) end.
Proof.
  revert index. induction l as [|v l IH]; intros index; simpl; [by destruct (index_get key index)|].
  rewrite IH, index_get_or_insert. destruct (index_get key index); [done|]. unfold first_with_key. simpl.
  destruct (decide (view_key v = key)) as [->|Hne]; [by rewrite bool_decide_true|by rewrite bool_decide_false].
Qed.

Definition unit_ok (u : SourceUnitSyntax) : Prop := view_ok (SourceUnitSyntax_view u).

Definition unit_views (u : SourceUnitSyntax) : list SyntaxNodeView := element_views (unit_source u) (ElementNode (unit_node u)) 0.

Lemma walk_index i u index :
  unit_ok u ->
  walk_syntax_node (index_visitor i) (SourceUnitSyntax_view u) index =
  Ret (fold_left (fun index v => index_or_insert (view_key v) (indexed i v) index) (unit_views u) index).
Proof.
  intros Hu. unfold walk_syntax_node. rewrite walk_node_visits by done. destruct Hu as [Hn Hs Hm].
  rewrite (visit_collects _ (fun index v => index_or_insert (view_key v) (indexed i v) index)); try done.
  intros idx v Hv. cbn [index_visitor]. by rewrite node_key_ok.
Qed.

Lemma find_app {A} (p : A -> bool) l1 l2 :
  List.find p (l1 ++ l2) = match List.find p l1 with Some x => Some x | None => List.find p l2 end.
Proof. induction l1 as [|x l1 IH]; [done|]. simpl. by destruct (p x). Qed.

Lemma unit_views_source u v : In v (unit_views u) -> view_source v = unit_source u.
Proof.
  unfold unit_views. generalize (ElementNode (unit_node u)) 0. intros e.
  induction e as [g|kind width children IHc] using element_ind; intros z; [done|]. rewrite element_views_node. intros [<-|Hin]; [done|].
  simpl in Hin. revert z Hin. induction IHc as [|e l He _ IHl]; intros z Hin; [done|]. simpl in Hin. apply in_app_or in Hin as [Hin|Hin]; eauto.
Qed.

(** The index of several units keeps the first node of each key. *)
Lemma index_units_ok i units index :
  Forall unit_ok units ->
  returns (index_units i units index) (fun index' => forall key,
    match index_get key index with
    | Some n => index_get key index' = Some n
    | None =>
        match first_with_key key (concat (map unit_views units)) with
        | None => index_get key index' = None
        | Some v => exists j u, get units j = Some u /\ view_source v = unit_source u /\ index_get key index' = Some (indexed (i + j) v)
        end
    end).
Proof.
  intros Hu. revert i index. induction Hu as [|u units Hu Hunits IH]; intros i index; cbn [index_units].
  { apply returns_ret. intros key. by destruct (index_get key index). }
  rewrite walk_index by done. cbn [outcome_bind]. eapply returns_mono; [apply IH|]. intros index' Hi key. specialize (Hi key).
  rewrite index_fold in Hi. destruct (index_get key index); [done|]. cbn [map concat]. unfold first_with_key in *.
  rewrite find_app.
  destruct (List.find _ (unit_views u)) as [v|] eqn:Ev; simpl in Hi.
  - exists 0, u. split_and!; [done| |by rewrite Z.add_0_r]. apply List.find_some in Ev as [Hin _].
    by apply unit_views_source.
  - destruct (List.find _ (concat _)) as [v|]; [|done]. destruct Hi as (j & u' & Hj & Hs & He). exists (j + 1), u'.
    pose proof (get_Some_range _ _ _ Hj). split_and!; [|done|rewrite He; do 2 f_equal; lia].
    rewrite get_cons_S by lia. by replace (j + 1 - 1) with j by lia.
Qed.

(** Looking a node up by source, kind, range and recovery returns the first
    node of the tree with these, in the order of the source units and in source
    order within one, as a view into its own source unit; and nothing when no
    node has them.  Building the index cannot fail. *)
Theorem find_node_correct units source_id kind range recovered :
  Forall unit_ok units ->
  find_node (SyntaxTree_compilation_unit units) source_id kind range recovered =
  Ret (first_with_key {| key_source_id := source_id; key_kind := kind; key_full_range := range; key_is_recovered := recovered |}
         (concat (map unit_views units))).
Proof.
  intros Hu. unfold find_node, indexed_nodes. cbn [tree_root SyntaxTree_compilation_unit source_units].
  destruct (index_units_ok 0 units [] Hu) as (index & -> & Hi). cbn [outcome_bind].
  set (key := Build_SyntaxNodeKey _ _ _ _). specialize (Hi key). cbn [index_get] in Hi.
  destruct (first_with_key _ _) as [v|]; [|by rewrite Hi]. destruct Hi as (j & u & Hj & Hs & ->).
  unfold IndexedSyntaxNode_view. cbn [indexed indexed_unit indexed_node indexed_start]. rewrite Z.add_0_l, Hj. cbn [expect outcome_bind].
  rewrite <- Hs. by destruct v.
Qed.

(** ** Source units from tokens *)

Lemma push_tokens_csts tokens builder : push_tokens builder tokens = push_csts (map CstToken tokens) builder.
Proof.
  revert builder. induction tokens as [|t l IH]; intros builder; [done|]. simpl. destruct (push_token builder t); simpl; [apply IH|done|done].
Qed.

Lemma cst_tokens_leaves l : concat (map cst_tokens (map CstToken l)) = l.
Proof. induction l as [|t l IH]; [done|]. simpl. by rewrite IH. Qed.

Lemma cst_ok_leaves l : Forall cst_ok (map CstToken l).
Proof. induction l; by constructor. Qed.

Lemma csts_of_last l a cs t :
  csts_of l a = cs ++ [CstToken t] ->
  exists init g, l = init ++ [ElementToken g] /\ green_token_kind g = token_kind t /\ green_token_presence g = presence t.
Proof.
  revert a cs. induction l as [|e l IH]; intros a cs H; simpl in H; [by destruct cs|].
  destruct cs as [|c cs]; simpl in H; injection H as He H.
  - destruct l; [|done]. destruct e as [g|]; [|done]. injection He as <-. by exists [], g.
  - destruct (IH _ _ H) as (init & g & -> & ? & ?). by exists (e :: init), g.
Qed.

(** A unit built from tokens that cover the text and end with the end of file. *)
Lemma unit_from_tokens source init eof :
  WfSnapshot source -> tokens_cover (text source) 0 (init ++ [eof]) (zlen (text source)) ->
  token_kind eof = EndOfFileToken -> presence eof = Present ->
  returns (let! builder := SourceUnitSyntaxBuilder_new source in
           let! builder := SourceUnitSyntaxBuilder_tokens builder (init ++ [eof]) in
           SourceUnitSyntax_from_builder builder) (fun unit =>
    unit_source unit = source /\ unit_ok unit /\ GreenNode_kind (unit_node unit) = SourceUnit /\
    GreenNode_full_width (unit_node unit) = zlen (text source) /\ node_csts (unit_node unit) 0 = map CstToken (init ++ [eof])).
Proof.
  intros Hwf Hcov Hk Hp. assert (zlen (text source) <= U32_MAX) as Hfit by apply wf_fits.
  assert (pushes (text source) (push_csts (map CstToken (init ++ [eof]))) (map CstToken (init ++ [eof]))) as Hpush.
  { apply pushes_csts. eapply Forall_impl; [|apply cst_ok_leaves]. intros c. by apply push_cst_ok. }
  destruct (Hpush 0 (zlen (text source)) GreenNodeBuilder_new) as (new & E & Hok & Hw & Hc); [by rewrite cst_tokens_leaves|].
  unfold SourceUnitSyntaxBuilder_new, SourceUnitSyntaxBuilder_tokens. cbn [RequiredSyntaxSlot_set RequiredSyntaxSlot_new slot_value outcome_bind unit_builder unit_slot].
  rewrite push_tokens_csts, E. cbn [outcome_bind]. unfold SourceUnitSyntax_from_builder.
  cbn [unit_slot RequiredSyntaxSlot_into_value slot_value expect outcome_bind unit_builder].
  pose proof Hc as Hlast. rewrite map_app in Hlast. apply csts_of_last in Hlast as (ginit & g & -> & Hgk & Hgp).
  unfold builder_last_token, push_elements. cbn [builder_children GreenNodeBuilder_new app]. rewrite last_snoc. cbn [outcome_bind].
  rewrite Hgk, Hgp, Hk, Hp. unfold GreenNodeBuilder_build. cbn [builder_children].
  destruct (GreenNode_new_ok SourceUnit (ginit ++ [ElementToken g])) as [-> Hn]; [done|done|lia|]. cbn [outcome_bind].
  apply returns_ret. split_and!; [done| |done|simpl; lia|by rewrite node_csts_eq].
  constructor; simpl; [done|lia|lia].
Qed.

(** ** A small tree *)

Definition sample_green : GreenToken :=
  {| green_token_kind := IdentifierToken; green_token_width := 1; green_token_presence := Present; green_token_full_width := 1;
     green_leading := []; green_trailing := [] |}.

Definition sample_item : GreenNode := GreenNodeData IdentifierListItem 1 [ElementToken sample_green].

Definition sample_unit : SourceUnitSyntax :=
  {| unit_source := sample_snapshot; unit_node := GreenNodeData SourceUnit 2 [ElementNode sample_item; ElementNode sample_item] |}.

Lemma sample_unit_ok : unit_ok sample_unit.
Proof. constructor; [|done|done]. by repeat (constructor; simpl). Qed.

(** The walk over the children of the sample stops at the first. *)
Lemma walk_node_correct_witness :
  walk_direct_child_nodes (fun seen v => Ret (seen ++ [view_start v], WalkStop)) (SourceUnitSyntax_view sample_unit) [] = Ret [0].
Proof.
  destruct (walk_node_correct (SourceUnitSyntax_view sample_unit) ([] : list Z) sample_unit_ok) as [_ H]. rewrite H. reflexivity.
Defined.

