(* ===== verification/SyntaxUnit.v ===== *)
(** * Source units and fragments

    The tokens of the lexer make a source unit that stands for exactly its text
    ([syntax/unit.rs] over [lexer/stream.rs]), and syntax fragments are rebuilt
    from checked-in events ([fragment.rs]). *)

From Stdlib Require Import ZArith Lia String.
From stdpp Require Import base list numbers option.
From S2P Require Import Prelude Utf8 SourceText Snapshot SyntaxKind SyntaxToken GreenTree SyntaxWalk.
From S2P Require Import DiagnosticKind Diagnostic DiagnosticBag LexText LexTrivia LexLiteral LexScanner TokenSource.

(** ** fragment.rs *)

Inductive PreparsedSyntaxEvent :=
| PreparsedEnterNode (kind : SyntaxKind)
| PreparsedToken (kind : SyntaxKind) (text : str)
| PreparsedExitNode (kind : SyntaxKind).

Inductive PreparsedSyntaxFragmentError :=
| ExpectedNodeKind (kind : SyntaxKind)
| ExpectedTokenKind (kind : SyntaxKind)
| TokenOutsideNode (kind : SyntaxKind)
| UnexpectedExit (kind : SyntaxKind)
| MismatchedExit (expected actual : SyntaxKind)
| MultipleRoots
| UnclosedNode (kind : SyntaxKind)
| MissingRoot
| FragmentTextTooLarge
| GeneratedSourceIdOutOfRange.

Record PendingNode := { pending_kind : SyntaxKind; pending_children : list GreenElement }.

Definition PendingNode_new (kind : SyntaxKind) : PendingNode := {| pending_kind := kind; pending_children := [] |}.

Definition pending_push (node : PendingNode) (element : GreenElement) : PendingNode :=
  {| pending_kind := pending_kind node; pending_children := pending_children node ++ [element] |}.

Record PreparsedSyntaxFragment := { fragment_source : SourceSnapshot; fragment_root : GreenNode }.

(** The variables of the loop; the top of the stack is first. *)
Record FragmentState := { fragment_text : str; fragment_stack : list PendingNode; fragment_found : option GreenNode }.

Definition text_size (bytes : usize) : result TextSize PreparsedSyntaxFragmentError :=
  map_err (fun _ => FragmentTextTooLarge) (TextSize_try_from bytes).

Definition fragment_event (st : FragmentState) (event : PreparsedSyntaxEvent)
    : outcome (result FragmentState PreparsedSyntaxFragmentError) :=
  match event with
  | PreparsedEnterNode kind =>
      if negb (is_node kind) then Ret (Err (ExpectedNodeKind kind))
      else Ret (Ok {| fragment_text := fragment_text st; fragment_stack := PendingNode_new kind :: fragment_stack st;
                      fragment_found := fragment_found st |})
  | PreparsedToken kind token_text =>
      if negb (is_token kind) then Ret (Err (ExpectedTokenKind kind))
      else
        match fragment_stack st with
        | [] => Ret (Err (TokenOutsideNode kind))
        | node :: rest =>
            match text_size (zlen (fragment_text st)) with
            | Err e => Ret (Err e)
            | Ok start =>
                let text := fragment_text st ++ token_text in
                match text_size (zlen text) with
                | Err e => Ret (Err e)
                | Ok end_ =>
                    let! range := TextRange_new start end_ in
                    let! token := SyntaxToken_new kind range in
                    let! element := GreenElement_from_token token in
                    Ret (Ok {| fragment_text := text; fragment_stack := pending_push node element :: rest;
                               fragment_found := fragment_found st |})
                end
            end
        end
  | PreparsedExitNode kind =>
      match fragment_stack st with
      | [] => Ret (Err (UnexpectedExit kind))
      | node :: rest =>
          if negb (bool_decide (pending_kind node = kind)) then Ret (Err (MismatchedExit (pending_kind node) kind))
          else
            let! green := GreenNode_new (pending_kind node) (pending_children node) in
            match rest with
            | parent :: rest =>
                Ret (Ok {| fragment_text := fragment_text st; fragment_stack := pending_push parent (ElementNode green) :: rest;
                           fragment_found := fragment_found st |})
            | [] =>
                match fragment_found st with
                | None => Ret (Ok {| fragment_text := fragment_text st; fragment_stack := []; fragment_found := Some green |})
                | Some _ => Ret (Err MultipleRoots)
                end
            end
      end
  end.

Fixpoint fragment_loop (st : FragmentState) (events : list PreparsedSyntaxEvent)
    : outcome (result FragmentState PreparsedSyntaxFragmentError) :=
  match events with
  | [] => Ret (Ok st)
  | event :: events =>
      let! r := fragment_event st event in
      match r with
      | Ok st => fragment_loop st events
      | Err e => Ret (Err e)
      end
  end.

Definition PreparsedSyntaxFragment_try_new (source_id : SourceId) (identity : SourceIdentity) (generated_name : str)
    (events : list PreparsedSyntaxEvent) : outcome (result PreparsedSyntaxFragment PreparsedSyntaxFragmentError) :=
  let! r := fragment_loop {| fragment_text := []; fragment_stack := []; fragment_found := None |} events in
  Ret (let? st := r in
       match fragment_stack st with
       | node :: _ => Err (UnclosedNode (pending_kind node))
       | [] =>
           let? root := ok_or (fragment_found st) MissingRoot in
           let? source := map_err (fun _ => FragmentTextTooLarge)
             (SourceSnapshot_new source_id identity (OriginGenerated generated_name) {| SourceVersion_raw := 0 |} (fragment_text st)) in
           Ok {| fragment_source := source; fragment_root := root |}
       end).

Definition PreparsedSyntaxFragment_root (self : PreparsedSyntaxFragment) : SyntaxNodeView :=
  {| view_source := fragment_source self; view_node := fragment_root self; view_start := 0 |}.

(** ** Units from the lexer *)

Lemma tokens_cover_snoc text a l b t c :
  tokens_cover text a l b -> token_covers text b t c -> tokens_cover text a (l ++ [t]) c.
Proof.
  intros H Ht. induction H as [a Ha|a u b l d Hu H IH]; simpl.
  - econstructor; [done|]. constructor. by apply token_covers_boundaries in Ht as (_ & ? & _).
  - econstructor; [done|]. by apply IH.
Qed.

Lemma tokens_tile_cover s a l b : boundary (text s) a -> tokens_tile s a l b -> tokens_cover (text s) a l b.
Proof.
  intros Ha H. induction H as [a|a l b t c H IH Ht]; [by constructor|]. eapply tokens_cover_snoc; [by apply IH|by apply covers_present].
Qed.

(** C23. Lexing a source unit and building a source unit from its tokens cannot
    fail, and the unit stands for the source: its tokens are the lexed tokens,
    writing it gives back the text byte for byte, it spans the whole text, its
    end-of-file token is the last one, and it shows no recovery. *)
Theorem lexed_unit_lossless {B} `{!DiagnosticSink B, !DiagnosticSinkLaws B} is_alphanumeric s :
  WfSnapshot s ->
  returns (let! result := lex_source_unit (B := B) is_alphanumeric s in
           let! builder := SourceUnitSyntaxBuilder_new s in
           let! builder := SourceUnitSyntaxBuilder_tokens builder (tokens result) in
           let! unit := SourceUnitSyntax_from_builder builder in
           Ret (result, unit)) (fun '(result, unit) =>
    unit_source unit = s /\
    SourceUnitSyntax_tokens unit = Ret (tokens result) /\
    (forall writer, SourceUnitSyntax_write_full_text unit writer = Ret (writer ++ text s)) /\
    SyntaxNodeView_full_range (SourceUnitSyntax_view unit) = Ret {| start := 0; end_ := text_len s |} /\
    (exists eof, SourceUnitSyntax_eof_token unit = Ret eof /\ is_end_of_file eof = true) /\
    SyntaxNodeView_is_recovered (SourceUnitSyntax_view unit) = Ret false).
Proof.
  intros Hwf. destruct (lex_source_unit_ok (B := B) is_alphanumeric s) as (result & -> & [Htile (init & eof & Etok & Heof & _) Htext _ _ _]).
  cbn [outcome_bind]. assert (boundary (text s) 0) as Hb by (apply boundary_0, wf_text).
  assert (zlen (text s) <= U32_MAX) as Hfit by apply wf_fits.
  pose proof (tokens_tile_cover _ _ _ _ Hb Htile) as Hcov. rewrite Etok in Hcov |- *.
  assert (token_kind eof = EndOfFileToken) as Hk by (revert Heof; unfold is_end_of_file; by destruct (token_kind eof)).
  assert (Forall (fun t => is_missing t = false) (init ++ [eof])) as Hpres.
  { rewrite <- Etok. clear -Htile. induction Htile as [|a l b t c H IH Ht]; [done|]. apply Forall_app. split; [done|].
    constructor; [|done]. unfold is_missing. by rewrite (tile_presence _ _ _ _ Ht). }
  assert (presence eof = Present) as Hp.
  { apply Forall_app in Hpres as [_ [Hm _]%Forall_cons_iff]. revert Hm. unfold is_missing. by destruct (presence eof). }
  destruct (unit_from_tokens s init eof Hwf Hcov Hk Hp) as (unit & E & Hs & Hu & Hkind & Hw & Hc).
  destruct (SourceUnitSyntaxBuilder_new s) as [builder| |]; cbn [outcome_bind] in *; try done.
  destruct (SourceUnitSyntaxBuilder_tokens builder (init ++ [eof])) as [builder'| |]; cbn [outcome_bind] in *; try done.
  rewrite E. cbn [outcome_bind]. apply returns_ret. destruct Hu as [Hn H0 Hm]. cbn [SourceUnitSyntax_view view_node view_start view_source] in *.
  assert (node_tokens (unit_node unit) 0 = init ++ [eof]) as Ht by (by rewrite node_tokens_cst, Hc, cst_tokens_leaves).
  split_and!; [done| | | | |].
  - unfold SourceUnitSyntax_tokens. by rewrite syntax_tokens_ok, Ht, Etok.
  - intros writer. unfold SourceUnitSyntax_write_full_text, write_full_text_from, write_source_text. simpl.
    rewrite (iterate_spec _ _ (ok := Forall cursor_ok) (rest := stack_tokens)) by (by apply children_stack_ok).
    rewrite stack_tokens_new, Ht, Hs. rewrite (tokens_cover_text _ _ _ _ writer id Hfit Hcov). by rewrite between_whole.
  - unfold SyntaxNodeView_full_range, full_range_from_width, TextRange_with_len, TextSize_checked_add, u32_checked_add. simpl.
    rewrite Hw, checked_ok by (pose proof (zlen_nonneg (text s)); lia). simpl. by rewrite wf_text_len.
  - exists eof. unfold SourceUnitSyntax_eof_token, SourceUnitSyntax_tokens. rewrite syntax_tokens_ok, Ht by done. simpl. by rewrite last_snoc.
  - unfold SyntaxNodeView_is_recovered, SyntaxNodeView_kind. simpl. rewrite Hkind. rewrite bool_decide_false by done.
    rewrite contains_recovery_ok, node_recovered, Hc by done. f_equal. clear -Hpres.
    induction Hpres as [|t l Hm _ IH]; [done|]. simpl. by rewrite Hm, IH.
Qed.

Lemma lexed_unit_lossless_witness :
  exists result unit, lex_source_unit (B := Bag) ascii_table sample_snapshot = Ret result /\
    SourceUnitSyntax_tokens unit = Ret (tokens result) /\ SourceUnitSyntax_write_full_text unit [] = Ret (text sample_snapshot).
Proof.
  destruct (lexed_unit_lossless (B := Bag) ascii_table sample_snapshot sample_snapshot_wf) as ([result unit] & H & _ & Ht & Hw & _).
  exists result, unit. destruct (lex_source_unit ascii_table sample_snapshot) as [r| |]; cbn [outcome_bind] in H; try done.
  destruct (SourceUnitSyntaxBuilder_new _); cbn [outcome_bind] in H; try done.
  destruct (SourceUnitSyntaxBuilder_tokens _ _); cbn [outcome_bind] in H; try done.
  destruct (SourceUnitSyntax_from_builder _); cbn [outcome_bind] in H; try done. simplify_eq. by split_and!.
Defined.

(** ** Fragments

    The trees whose events a fragment can be made of. *)

Inductive FTree :=
| FToken (kind : SyntaxKind) (text : str)
| FNode (kind : SyntaxKind) (children : list FTree).

Section ftree_ind.
Context (P : FTree -> Prop) (Htoken : forall kind text, P (FToken kind text)).
Context (Hnode : forall kind children, Forall P children -> P (FNode kind children)).

Fixpoint ftree_ind (f : FTree) : P f :=
  match f with
  | FToken kind text => Htoken kind text
  | FNode kind children =>
      Hnode kind children
        ((fix all l : Forall P l := match l with [] => Forall_nil_2 P | f :: l => Forall_cons_2 P f l (ftree_ind f) (all l) end) children)
  end.
End ftree_ind.

Fixpoint fevents (f : FTree) : list PreparsedSyntaxEvent :=
  match f with
  | FToken kind text => [PreparsedToken kind text]
  | FNode kind children => PreparsedEnterNode kind :: concat (map fevents children) ++ [PreparsedExitNode kind]
  end.

Fixpoint ftext (f : FTree) : str :=
  match f with
  | FToken _ text => text
  | FNode _ children => concat (map ftext children)
  end.

Fixpoint ftree_ok (f : FTree) : bool :=
  match f with
  | FToken kind _ => is_token kind
  | FNode kind children => is_node kind && forallb ftree_ok children
  end.

(** The green tree of a fragment tree. *)
Fixpoint green_of (f : FTree) : GreenElement :=
  match f with
  | FToken kind text =>
      ElementToken {| green_token_kind := kind; green_token_width := zlen text; green_token_presence := Present;
                      green_token_full_width := zlen text; green_leading := []; green_trailing := [] |}
  | FNode kind children => ElementNode (GreenNodeData kind (zlen (concat (map ftext children))) (map green_of children))
  end.

Lemma green_of_ok f : ftree_ok f = true -> element_ok (green_of f) /\ GreenElement_full_width (green_of f) = zlen (ftext f).
Proof.
  induction f as [kind text|kind children IH] using ftree_ind; intros Hok; simpl in Hok.
  - split; [|done]. pose proof (zlen_nonneg text). constructor; simpl; done || lia.
  - apply andb_true_iff in Hok as [Hk Hc]. split; [|done]. cbn [green_of element_ok]. apply node_ok_eq.
    assert (Forall element_ok (map green_of children) /\ children_width (map green_of children) = zlen (concat (map ftext children))) as [H1 H2].
    { induction IH as [|f l Hf _ IHl]; [by split|]. simpl in Hc. apply andb_true_iff in Hc as [Hc1 Hc2].
      destruct (Hf Hc1) as [Ho Hw]. destruct (IHl Hc2) as [IH1 IH2]. simpl. rewrite zlen_app. split; [by constructor|]. lia. }
    by rewrite H2.
Qed.

Lemma green_of_children l :
  forallb ftree_ok l = true -> Forall element_ok (map green_of l) /\ children_width (map green_of l) = zlen (concat (map ftext l)).
Proof.
  induction l as [|f l IH]; [by split|]. simpl. intros [H1 H2]%andb_true_iff. destruct (green_of_ok _ H1) as [Ho Hw].
  destruct (IH H2) as [IH1 IH2]. rewrite zlen_app. split; [by constructor|lia].
Qed.

(** The abstract state: what has been read so far. *)
Record fragment_view := { view_root : option (SyntaxKind * list FTree); view_open : list (SyntaxKind * list FTree) }.

Definition open_events (n : SyntaxKind * list FTree) : list PreparsedSyntaxEvent := PreparsedEnterNode n.1 :: concat (map fevents n.2).
Definition open_text (n : SyntaxKind * list FTree) : str := concat (map ftext n.2).
Definition open_ok (n : SyntaxKind * list FTree) : bool := is_node n.1 && forallb ftree_ok n.2.

Definition read_events (v : fragment_view) : list PreparsedSyntaxEvent :=
  match view_root v with Some r => fevents (FNode r.1 r.2) | None => [] end ++ concat (map open_events (rev (view_open v))).

Definition read_text (v : fragment_view) : str :=
  match view_root v with Some r => open_text r | None => [] end ++ concat (map open_text (rev (view_open v))).

Definition green_root (r : SyntaxKind * list FTree) : GreenNode :=
  GreenNodeData r.1 (zlen (open_text r)) (map green_of r.2).

Record represents (st : FragmentState) (v : fragment_view) : Prop := {
  rp_text : fragment_text st = read_text v;
  rp_fits : zlen (fragment_text st) <= U32_MAX;
  rp_stack : fragment_stack st = map (fun n => {| pending_kind := n.1; pending_children := map green_of n.2 |}) (view_open v);
  rp_found : fragment_found st = option_map green_root (view_root v);
  rp_open : forallb open_ok (view_open v) = true;
  rp_root : match view_root v with Some r => open_ok r = true | None => True end;
}.

Lemma read_text_push root n l f :
  read_text {| view_root := root; view_open := (n.1, n.2 ++ [f]) :: l |} = read_text {| view_root := root; view_open := n :: l |} ++ ftext f.
Proof.
  unfold read_text. simpl. rewrite !map_app, !concat_app. simpl. rewrite !app_nil_r. unfold open_text. simpl.
  by rewrite map_app, concat_app, <- !app_assoc; simpl; rewrite app_nil_r.
Qed.

Lemma read_events_push root n l f :
  read_events {| view_root := root; view_open := (n.1, n.2 ++ [f]) :: l |} = read_events {| view_root := root; view_open := n :: l |} ++ fevents f.
Proof.
  unfold read_events. simpl. rewrite !map_app, !concat_app. simpl. rewrite !app_nil_r. unfold open_events. simpl.
  by rewrite map_app, concat_app, <- !app_assoc; simpl; rewrite app_nil_r.
Qed.

Lemma zlen_open_text r n l : zlen (open_text n) <= zlen (read_text {| view_root := r; view_open := n :: l |}).
Proof.
  unfold read_text. simpl. rewrite map_app, concat_app. simpl. rewrite app_nil_r, !zlen_app.
  pose proof (zlen_nonneg (match r with Some r => open_text r | None => [] end)).
  pose proof (zlen_nonneg (concat (map open_text (rev l)))). lia.
Qed.

Lemma read_text_open root n l :
  read_text {| view_root := root; view_open := n :: l |} = read_text {| view_root := root; view_open := l |} ++ open_text n.
Proof. unfold read_text. simpl. by rewrite map_app, concat_app, app_assoc; simpl; rewrite app_nil_r. Qed.

Lemma read_events_open root n l :
  read_events {| view_root := root; view_open := n :: l |} = read_events {| view_root := root; view_open := l |} ++ open_events n.
Proof. unfold read_events. simpl. by rewrite map_app, concat_app, app_assoc; simpl; rewrite app_nil_r. Qed.

Lemma fevents_open n : fevents (FNode n.1 n.2) = open_events n ++ [PreparsedExitNode n.1].
Proof. done. Qed.

Lemma text_size_ok n : 0 <= n <= U32_MAX -> text_size n = Ok n.
Proof. intros H. unfold text_size, TextSize_try_from, u32_try_from. by rewrite checked_ok. Qed.

Lemma text_size_Ok n m : text_size n = Ok m -> m = n /\ 0 <= n <= U32_MAX.
Proof.
  unfold text_size, TextSize_try_from, u32_try_from. destruct (checked U32_MAX n) as [k|] eqn:E; simpl; [|done].
  intros [= ->]. by apply checked_Some in E as [-> ?].
Qed.

(** A token of the fragment makes its green token. *)
Lemma fragment_token a text kind :
  is_token kind = true -> 0 <= a -> a + zlen text <= U32_MAX ->
  (let! range := TextRange_new a (a + zlen text) in
   let! token := SyntaxToken_new kind range in
   GreenElement_from_token token) = Ret (green_of (FToken kind text)).
Proof.
  intros Hk Hs Hm. pose proof (zlen_nonneg text). unfold TextRange_new. rewrite (proj2 (Z.leb_le _ _)) by lia. cbn [assert_ outcome_bind].
  unfold SyntaxToken_new, with_trivia, with_trivia_and_presence. rewrite Hk. cbn [assert_ presence_is_present orb outcome_bind].
  unfold GreenElement_from_token, GreenToken_from_syntax_token, full_width_for_token, TextRange_len.
  cbn [token_range leading_trivia trailing_trivia start end_ map app add_trivia_widths outcome_bind token_kind presence].
  by replace (a + zlen text - a) with (zlen text) by lia.
Qed.

(** Each accepted event extends what has been read by that event. *)
Lemma fragment_event_ok st v event :
  represents st v -> returns (fragment_event st event) (fun r =>
    match r with
    | Ok st' => exists v', represents st' v' /\ read_events v' = read_events v ++ [event]
    | Err _ => True
    end).
Proof.
  intros [Htext Hfits Hstack Hfound Hopen Hroot]. destruct v as [root open]. cbn [view_root view_open] in *. pose proof (zlen_nonneg (fragment_text st)).
  destruct event as [kind|kind token_text|kind]; unfold fragment_event.
  - destruct (is_node kind) eqn:Ek; [|by apply returns_ret]. apply returns_ret. exists {| view_root := root; view_open := (kind, []) :: open |}.
    split; [|by rewrite read_events_open]. constructor; cbn [fragment_text fragment_stack fragment_found view_root view_open]; try done.
    + by rewrite read_text_open, app_nil_r.
    + by rewrite Hstack.
    + simpl. unfold open_ok at 1. simpl. by rewrite Ek.
  - destruct (is_token kind) eqn:Ek; [|by apply returns_ret]. cbn [negb]. rewrite Hstack.
    destruct open as [|n open]; [by apply returns_ret|]. cbn [map]. rewrite text_size_ok by lia.
    destruct (text_size (zlen (fragment_text st ++ token_text))) as [e|] eqn:Ee; [|by apply returns_ret].
    apply text_size_Ok in Ee as [-> He]. rewrite zlen_app in He.
    pose proof (fragment_token (zlen (fragment_text st)) token_text kind Ek ltac:(lia) ltac:(lia)) as Htok. rewrite <- zlen_app in Htok.
    destruct (TextRange_new _ _) as [range| |]; cbn [outcome_bind] in Htok |- *; try done.
    destruct (SyntaxToken_new _ _) as [token| |]; cbn [outcome_bind] in Htok |- *; try done. rewrite Htok. cbn [outcome_bind]. apply returns_ret.
    exists {| view_root := root; view_open := (n.1, n.2 ++ [FToken kind token_text]) :: open |}.
    split; [|by rewrite read_events_push]. constructor; cbn [fragment_text fragment_stack fragment_found view_root view_open]; try done.
    + by rewrite read_text_push, Htext.
    + rewrite zlen_app. lia.
    + cbn [map]. unfold pending_push. simpl. by rewrite map_app.
    + simpl in Hopen |- *. apply andb_true_iff in Hopen as [H1 H2]. rewrite H2, andb_true_r. unfold open_ok in *. simpl.
      apply andb_true_iff in H1 as [H1 H3]. rewrite H1, forallb_app, H3. simpl. by rewrite Ek.
  - rewrite Hstack. destruct open as [|n open]; [by apply returns_ret|]. cbn [map]. case_bool_decide as Ekind; [|by apply returns_ret].
    cbn [pending_kind] in Ekind. subst kind. cbn [negb pending_children pending_kind]. simpl in Hopen. apply andb_true_iff in Hopen as [Hn Hopen].
    pose proof Hn as Hn'. unfold open_ok in Hn'. apply andb_true_iff in Hn' as [Hk Hc]. destruct (green_of_children _ Hc) as [Hok Hw].
    pose proof (zlen_open_text root n open) as Hle. rewrite <- Htext in Hle. unfold open_text in Hle.
    destruct (GreenNode_new_ok n.1 (map green_of n.2)) as [-> _]; [done|done|lia|]. cbn [outcome_bind]. rewrite Hw.
    destruct open as [|p open].
    + cbn [map]. rewrite Hfound. destruct root as [r|]; [by apply returns_ret|]. apply returns_ret.
      exists {| view_root := Some n; view_open := [] |}. split.
      * constructor; cbn [fragment_text fragment_stack fragment_found view_root view_open]; done.
      * unfold read_events. cbn [view_root view_open rev map concat app]. by rewrite !app_nil_r, fevents_open.
    + cbn [map]. apply returns_ret. exists {| view_root := root; view_open := (p.1, p.2 ++ [FNode n.1 n.2]) :: open |}. split.
      * constructor; cbn [fragment_text fragment_stack fragment_found view_root view_open]; try done.
        -- rewrite Htext, read_text_open, read_text_push. done.
        -- cbn [map]. unfold pending_push. simpl. by rewrite map_app.
        -- simpl in Hopen |- *. apply andb_true_iff in Hopen as [H1 H2]. rewrite H2, andb_true_r. unfold open_ok in *. simpl.
           apply andb_true_iff in H1 as [H1 H3]. rewrite H1, forallb_app, H3. simpl. by rewrite Hk, Hc.
      * by rewrite read_events_push, (read_events_open root n), fevents_open, app_assoc.
Qed.

Lemma fragment_loop_ok st v events :
  represents st v -> returns (fragment_loop st events) (fun r =>
    match r with
    | Ok st' => exists v', represents st' v' /\ read_events v' = read_events v ++ events
    | Err _ => True
    end).
Proof.
  revert st v. induction events as [|event events IH]; intros st v Hv; cbn [fragment_loop].
  { apply returns_ret. exists v. by rewrite app_nil_r. }
  eapply returns_bind; [by apply fragment_event_ok|]. intros [st'|e]; [|by intros _; apply returns_ret].
  intros (v' & Hv' & He). eapply returns_mono; [by apply IH|]. intros [st2|e]; [|done]. intros (v2 & H2 & E2). exists v2.
  split; [done|]. by rewrite E2, He, <- app_assoc.
Qed.

(** The events of a tree that fits are all accepted. *)
Definition accepts (f : FTree) : Prop :=
  forall st node rest events, fragment_stack st = node :: rest -> zlen (fragment_text st ++ ftext f) <= U32_MAX ->
  fragment_loop st (fevents f ++ events) =
  fragment_loop {| fragment_text := fragment_text st ++ ftext f; fragment_stack := pending_push node (green_of f) :: rest;
                   fragment_found := fragment_found st |} events.

Definition pending_extend (node : PendingNode) (l : list GreenElement) : PendingNode :=
  {| pending_kind := pending_kind node; pending_children := pending_children node ++ l |}.

Lemma accepts_all l st node rest events :
  Forall accepts l -> fragment_stack st = node :: rest -> zlen (fragment_text st ++ concat (map ftext l)) <= U32_MAX ->
  fragment_loop st (concat (map fevents l) ++ events) =
  fragment_loop {| fragment_text := fragment_text st ++ concat (map ftext l); fragment_stack := pending_extend node (map green_of l) :: rest;
                   fragment_found := fragment_found st |} events.
Proof.
  intros Hl. revert st node. induction Hl as [|f l Hf _ IH]; intros st node Hst Hm; simpl.
  { unfold pending_extend. rewrite !app_nil_r. destruct st, node. simpl in *. by subst. }
  simpl in Hm. rewrite app_assoc in Hm. rewrite <- app_assoc, (Hf _ _ _ _ Hst).
  - rewrite (IH _ (pending_push node (green_of f))); [|done|done]. cbn [fragment_text fragment_found]. unfold pending_push, pending_extend. simpl.
    by rewrite <- !app_assoc.
  - rewrite zlen_app in Hm. pose proof (zlen_nonneg (concat (map ftext l))). lia.
Qed.

(** The events inside a node, up to its exit. *)
Lemma accepts_inside kind children st events :
  is_node kind = true -> forallb ftree_ok children = true -> Forall accepts children ->
  zlen (fragment_text st ++ concat (map ftext children)) <= U32_MAX ->
  fragment_loop st (fevents (FNode kind children) ++ events) =
  let! r := Ret (GreenNodeData kind (zlen (concat (map ftext children))) (map green_of children)) in
  let text := fragment_text st ++ concat (map ftext children) in
  match fragment_stack st with
  | parent :: rest =>
      fragment_loop {| fragment_text := text; fragment_stack := pending_push parent (ElementNode r) :: rest; fragment_found := fragment_found st |} events
  | [] =>
      match fragment_found st with
      | None => fragment_loop {| fragment_text := text; fragment_stack := []; fragment_found := Some r |} events
      | Some _ => Ret (Err MultipleRoots)
      end
  end.
Proof.
  intros Hk Hc Hall Hm. cbn [fevents app fragment_loop fragment_event]. rewrite Hk. cbn [negb outcome_bind]. rewrite <- app_assoc.
  erewrite accepts_all; [|done|done|done]. cbn [fragment_text fragment_stack fragment_found app fragment_loop fragment_event pending_extend pending_kind PendingNode_new pending_children].
  rewrite bool_decide_true by done. cbn [negb]. destruct (green_of_children _ Hc) as [Hok Hw].
  rewrite zlen_app in Hm. pose proof (zlen_nonneg (fragment_text st)).
  destruct (GreenNode_new_ok kind (map green_of children)) as [-> _]; [done|done|lia|]. rewrite Hw. cbn [outcome_bind].
  destruct (fragment_stack st) as [|p rest]; [by destruct (fragment_found st)|done].
Qed.

Lemma ftree_accepts f : ftree_ok f = true -> accepts f.
Proof.
  induction f as [kind token_text|kind children IH] using ftree_ind; intros Hok st node rest events Hst Hm.
  - simpl in Hok. cbn [fevents app fragment_loop fragment_event ftext green_of] in *. rewrite Hok, Hst. cbn [negb]. rewrite zlen_app in Hm.
    pose proof (zlen_nonneg token_text). pose proof (zlen_nonneg (fragment_text st)). rewrite !text_size_ok by (rewrite ?zlen_app; lia).
    pose proof (fragment_token (zlen (fragment_text st)) token_text kind Hok ltac:(lia) ltac:(lia)) as Htok. rewrite <- zlen_app in Htok.
    destruct (TextRange_new _ _) as [range| |]; cbn [outcome_bind] in Htok |- *; try done.
    destruct (SyntaxToken_new _ _) as [token| |]; cbn [outcome_bind] in Htok |- *; try done. by rewrite Htok.
  - simpl in Hok. apply andb_true_iff in Hok as [Hk Hc].
    rewrite accepts_inside; [|done|done| |done]; [by rewrite Hst|].
    apply List.Forall_forall. intros f Hin. rewrite List.Forall_forall in IH. rewrite forallb_forall in Hc. by apply IH, Hc.
Qed.

(** Reading a fragment back: the closure that records what a walk meets. *)
Definition record_event (source_text : str) (events : list PreparsedSyntaxEvent) (event : SyntaxWalkEvent)
    : outcome (list PreparsedSyntaxEvent * SyntaxWalkControl) :=
  match event with
  | EnterNode v => Ret (events ++ [PreparsedEnterNode (SyntaxNodeView_kind v)], WalkContinue)
  | WalkToken t => let! text := expect (SyntaxToken_text t source_text) in Ret (events ++ [PreparsedToken (token_kind t) text], WalkContinue)
  | ExitNode v => Ret (events ++ [PreparsedExitNode (SyntaxNodeView_kind v)], WalkContinue)
  end.

Lemma boundary_split pre post : valid_utf8 pre -> valid_utf8 post -> boundary (pre ++ post) (zlen pre).
Proof. intros (cs1 & H1 & ->) (cs2 & H2 & ->). by exists cs1, cs2. Qed.

Fixpoint ftree_valid (f : FTree) : Prop :=
  match f with
  | FToken _ text => valid_utf8 text
  | FNode _ children => foldr (fun f P => ftree_valid f /\ P) True children
  end.

Lemma ftree_valid_all l : foldr (fun f P => ftree_valid f /\ P) True l <-> Forall ftree_valid l.
Proof. induction l as [|f l IH]; [by split|]. rewrite Forall_cons_iff. simpl. tauto. Qed.

Lemma valid_utf8_nil : valid_utf8 [].
Proof. exists []. split; [by constructor|done]. Qed.

Lemma ftext_valid f : ftree_valid f -> valid_utf8 (ftext f).
Proof.
  induction f as [kind text|kind children IH] using ftree_ind; intros Hv; [done|]. simpl in *. apply ftree_valid_all in Hv.
  induction IH as [|f l Hf _ IHl]; [apply valid_utf8_nil|]. apply Forall_cons_iff in Hv as [H1 H2]. simpl.
  apply valid_utf8_app; [by apply Hf|by apply IHl].
Qed.

Lemma ftexts_valid l : Forall ftree_valid l -> valid_utf8 (concat (map ftext l)).
Proof. induction 1 as [|f l Hf _ IH]; [apply valid_utf8_nil|]. simpl. apply valid_utf8_app; [by apply ftext_valid|done]. Qed.

Lemma record_tree source f pre post acc :
  ftree_ok f = true -> ftree_valid f -> valid_utf8 pre -> valid_utf8 post -> zlen (pre ++ ftext f ++ post) <= U32_MAX ->
  visit_element (record_event (pre ++ ftext f ++ post)) source (green_of f) (zlen pre) acc = Ret (acc ++ fevents f, false).
Proof.
  revert pre post acc. induction f as [kind token_text|kind children IH] using ftree_ind; intros pre post acc Hok Hv Hpre Hpost Hm.
  - cbn [green_of visit_element record_event ftext fevents] in *. unfold SyntaxToken_text, token_at. cbn [token_range token_kind green_leading green_token_width green_token_kind trivia_width foldr].
    rewrite Z.add_0_r. unfold TextRange_slice_str. pose proof (zlen_nonneg pre). pose proof (zlen_nonneg token_text). pose proof (zlen_nonneg post).
    rewrite !zlen_app in Hm. rewrite range_wf_usize by (unfold range_wf; simpl; lia). cbn [start end_].
    rewrite str_get_boundary.
    + by rewrite zdrop_app, Z.add_simpl_l, ztake_app by done.
    + apply boundary_split; [done|by apply valid_utf8_app].
    + rewrite app_assoc, <- zlen_app. apply boundary_split; [by apply valid_utf8_app|done].
    + lia.
  - cbn [green_of]. rewrite visit_node_eq. cbv zeta. cbn [record_event outcome_bind fst snd SyntaxNodeView_kind view_node GreenNode_kind GreenNode_children].
    simpl in Hok, Hv. apply andb_true_iff in Hok as [Hk Hc]. apply ftree_valid_all in Hv. cbn [ftext fevents] in *.
    assert (visit_elements (record_event (pre ++ concat (map ftext children) ++ post)) source (map green_of children) (zlen pre)
              (acc ++ [PreparsedEnterNode kind]) = Ret ((acc ++ [PreparsedEnterNode kind]) ++ concat (map fevents children), false)) as ->.
    2: { cbn [outcome_bind fst snd]. unfold emit_exit. cbn [record_event outcome_bind fst snd is_stop SyntaxNodeView_kind view_node GreenNode_kind].
         by rewrite <- !app_assoc. }
    generalize (acc ++ [PreparsedEnterNode kind]). clear acc Hk. revert pre Hpre Hm.
    induction IH as [|f l Hf _ IHl]; intros pre Hpre Hm acc; cbn [map concat visit_elements]; [by rewrite app_nil_r|].
    apply Forall_cons_iff in Hv as [Hv1 Hv2]. simpl in Hc. apply andb_true_iff in Hc as [Hc1 Hc2]. cbn [map concat] in Hm.
    rewrite <- app_assoc in Hm |- *. rewrite Hf; [|done|done|done|by apply valid_utf8_app; [apply ftexts_valid|]|done].
    cbn [outcome_bind fst snd]. destruct (green_of_ok _ Hc1) as [_ ->]. rewrite <- zlen_app, app_assoc.
    rewrite IHl; [by rewrite <- app_assoc|done|done|apply valid_utf8_app; [done|by apply ftext_valid]|by rewrite <- app_assoc].
Qed.

(** The texts of the events are strings. *)
Definition event_valid (event : PreparsedSyntaxEvent) : Prop :=
  match event with PreparsedToken _ text => valid_utf8 text | _ => True end.

Lemma fevents_valid f : Forall event_valid (fevents f) -> ftree_valid f.
Proof.
  induction f as [kind text|kind children IH] using ftree_ind; simpl; intros Hv; [by apply Forall_cons_iff in Hv as [? _]|].
  apply Forall_cons_iff in Hv as [_ [Hv _]%Forall_app]. apply ftree_valid_all.
  induction IH as [|f l Hf _ IHl]; [done|]. simpl in Hv. apply Forall_app in Hv as [H1 H2]. constructor; [by apply Hf|by apply IHl].
Qed.

Definition fragment_start : FragmentState := {| fragment_text := []; fragment_stack := []; fragment_found := None |}.

Lemma fragment_start_ok : represents fragment_start {| view_root := None; view_open := [] |}.
Proof. by constructor. Qed.

Lemma fragment_accepted kind children :
  ftree_ok (FNode kind children) = true -> zlen (ftext (FNode kind children)) <= U32_MAX ->
  fragment_loop fragment_start (fevents (FNode kind children)) =
  Ret (Ok {| fragment_text := ftext (FNode kind children); fragment_stack := []; fragment_found := Some (green_root (kind, children)) |}).
Proof.
  intros Hok Hm. simpl in Hok. apply andb_true_iff in Hok as [Hk Hc].
  rewrite <- (app_nil_r (fevents _)), accepts_inside; [done|done|done| |done].
  apply List.Forall_forall. intros f Hin. rewrite forallb_forall in Hc. by apply ftree_accepts, Hc.
Qed.

Lemma fragment_walk_back source kind children :
  ftree_ok (FNode kind children) = true -> Forall event_valid (fevents (FNode kind children)) ->
  text source = ftext (FNode kind children) -> zlen (text source) <= U32_MAX ->
  walk_syntax_node (record_event (text source)) {| view_source := source; view_node := green_root (kind, children); view_start := 0 |} [] =
  Ret (fevents (FNode kind children)).
Proof.
  intros Hok Hv Ht Hm. destruct (green_of_ok (FNode kind children) Hok) as [Hnode Hw]. unfold walk_syntax_node.
  rewrite walk_node_visits; cbn [view_source view_node view_start].
  - pose proof (record_tree source (FNode kind children) [] [] [] Hok) as Hrec.
    cbn [app] in Hrec. rewrite app_nil_r, <- Ht in Hrec. change (zlen []) with 0 in Hrec.
    change (ElementNode (green_root (kind, children))) with (green_of (FNode kind children)).
    rewrite Hrec; [done|by apply fevents_valid|apply valid_utf8_nil|apply valid_utf8_nil|done].
  - constructor; cbn [view_node view_start]; [done|lia|]. rewrite Z.add_0_l. cbn [green_root GreenNode_full_width].
    change (open_text (kind, children)) with (ftext (FNode kind children)). by rewrite <- Ht.
Qed.

(** An accepted list of events, when nothing is left open, is the listing of a tree. *)
Lemma fragment_read st v events root :
  represents st v -> read_events v = events -> fragment_stack st = [] -> fragment_found st = Some root ->
  exists kind children, ftree_ok (FNode kind children) = true /\ events = fevents (FNode kind children) /\
    root = green_root (kind, children) /\ fragment_text st = ftext (FNode kind children) /\ zlen (fragment_text st) <= U32_MAX.
Proof.
  intros [Htext Hfits Hstack Hfound Hopen Hroot] <- Est Efound. rewrite Est in Hstack. rewrite Efound in Hfound.
  destruct v as [[[kind children]|] open]; [|done]. cbn [view_root view_open option_map] in *. destruct open; [|done].
  exists kind, children. injection Hfound as ->. split_and!; [done| |done| |done].
  - unfold read_events. cbn [view_root view_open rev map concat]. by rewrite app_nil_r.
  - rewrite Htext. unfold read_text. cbn [view_root view_open rev map concat]. by rewrite app_nil_r.
Qed.

(** C24. A fragment is made exactly of the events of one tree: never panicking,
    the constructor accepts an event list when, and only when, it is the
    bracketed listing of a tree with node and token kinds in their places whose
    text fits; the fragment's source is then that text, and walking its root
    reads the very same events back. *)
Theorem fragment_exact source_id identity name events :
  Forall event_valid events ->
  returns (PreparsedSyntaxFragment_try_new source_id identity name events) (fun r =>
    match r with
    | Ok f => exists kind children,
        ftree_ok (FNode kind children) = true /\ events = fevents (FNode kind children) /\
        text (fragment_source f) = ftext (FNode kind children) /\ zlen (text (fragment_source f)) <= U32_MAX /\
        walk_syntax_node (record_event (text (fragment_source f))) (PreparsedSyntaxFragment_root f) [] = Ret events
    | Err _ => forall kind children,
        ftree_ok (FNode kind children) = true -> events = fevents (FNode kind children) ->
        U32_MAX < zlen (ftext (FNode kind children))
    end).
Proof.
  intros Hvalid. unfold PreparsedSyntaxFragment_try_new. fold fragment_start.
  destruct (fragment_loop_ok _ _ events fragment_start_ok) as (r & E & Hr). rewrite E. cbn [outcome_bind]. apply returns_ret.
  assert ((forall st, r = Ok st -> fragment_stack st = [] -> fragment_found st = None) ->
    forall kind children, ftree_ok (FNode kind children) = true -> events = fevents (FNode kind children) ->
    U32_MAX < zlen (ftext (FNode kind children))) as Hreject.
  { intros Hbad kind children Hok ->. destruct (Z.lt_ge_cases U32_MAX (zlen (ftext (FNode kind children)))) as [|Hle]; [done|].
    rewrite (fragment_accepted kind children Hok Hle) in E. injection E as <-. by discriminate (Hbad _ eq_refl eq_refl). }
  destruct r as [st|e]; cbn [result_bind]; [|by apply Hreject]. destruct Hr as (v & Hrep & Hev).
  destruct (fragment_stack st) as [|node rest] eqn:Est; [|apply Hreject; by intros ? [= <-]; rewrite Est].
  destruct (fragment_found st) as [root|] eqn:Efound; cbn [ok_or result_bind]; [|apply Hreject; by intros ? [= <-]].
  destruct (fragment_read st v events root Hrep Hev Est Efound) as (kind & children & Hok & -> & -> & Ht & Hm).
  unfold SourceSnapshot_new, TextSize_try_from, u32_try_from.
  pose proof (zlen_nonneg (fragment_text st)). rewrite checked_ok by lia. cbn [result_bind map_err].
  exists kind, children. cbn [fragment_source text]. split_and!; [done|done|done|done|].
  by apply (fragment_walk_back {| source_id := source_id; identity := identity; origin := OriginGenerated name;
      version := {| SourceVersion_raw := 0 |}; checksum := SourceChecksum_for_text (fragment_text st);
      text_len := zlen (fragment_text st); text := fragment_text st |}).
Qed.

Lemma fragment_exact_witness :
  exists f, PreparsedSyntaxFragment_try_new {| SourceId_raw := 0 |} {| SourceIdentity_raw := 0 |} (lit "sample")
      [PreparsedEnterNode TypeExpression; PreparsedEnterNode Path; PreparsedToken IdentifierToken (lit "bool");
       PreparsedExitNode Path; PreparsedExitNode TypeExpression] = Ret (Ok f) /\
    text (fragment_source f) = lit "bool".
Proof.
  destruct (fragment_exact {| SourceId_raw := 0 |} {| SourceIdentity_raw := 0 |} (lit "sample")
      [PreparsedEnterNode TypeExpression; PreparsedEnterNode Path; PreparsedToken IdentifierToken (lit "bool");
       PreparsedExitNode Path; PreparsedExitNode TypeExpression]) as (r & E & Hr).
  - repeat constructor; simpl; try done. apply valid_utf8_ascii. repeat constructor; simpl; lia.
  - destruct r as [f|e].
    + exists f. split; [done|]. destruct Hr as (kind & children & _ & _ & _ & _ & Hw). clear Hw.
      vm_compute in E. injection E as <-. reflexivity.
    + exfalso. vm_compute in E. discriminate.
Defined.
