(* ===== verification/ParserDiagnostic.v ===== *)
(** * The diagnostics of the parser

    [bray-parser/src/diagnostic.rs], with the argument constructors it uses of
    [bray-diagnostics/src/argument].  Every one is an error with a primary span;
    a missing token is reported at the empty span where it was expected. *)

From Stdlib Require Import ZArith Lia String.
From stdpp Require Import base list numbers option.
From S2P Require Import Prelude Utf8 SourceText Snapshot SyntaxKind SyntaxToken.
From S2P Require Import DiagnosticKind Diagnostic LexText.

Definition expected_syntax_kind (kind : SyntaxKind) : DiagnosticArg :=
  {| arg_name := ArgExpectedSyntaxKind; arg_value := ArgValueSyntaxKind kind |}.

Definition actual_syntax_kind (kind : SyntaxKind) : DiagnosticArg :=
  {| arg_name := ArgActualSyntaxKind; arg_value := ArgValueSyntaxKind kind |}.

Definition directive_kind (kind : SyntaxKind) : DiagnosticArg :=
  {| arg_name := ArgDirectiveKind; arg_value := ArgValueSyntaxKind kind |}.

Definition maximum_count (count : u64) : DiagnosticArg :=
  {| arg_name := ArgMaximumCount; arg_value := ArgValueCount count |}.

Definition DiagnosticArg_token_text (text : str) : DiagnosticArg :=
  {| arg_name := ArgTokenText; arg_value := ArgValueTokenText text |}.

Definition syntax_diagnostic (span : SourceSpan) (kind : DiagnosticKind) : Diagnostic :=
  with_primary_span (Diagnostic_new (diagnostic_id (SourceSpan_start span)) kind SeverityError) span.

Definition token_text_arg (snapshot : SourceSnapshot) (token : SyntaxToken) : option DiagnosticArg :=
  match SyntaxToken_text token (text snapshot) with
  | Some text => if is_nil text then None else Some (DiagnosticArg_token_text text)
  | None => None
  end.

Definition insertion_suggestion (expected : SyntaxKind) (span : SourceSpan) : option DiagnosticSuggestion :=
  match fixed_text expected with
  | Some replacement =>
      Some (DiagnosticSuggestion_with_arg
              (maybe_edit InsertExpectedSyntax {| source_edit_span := span; source_edit_replacement := replacement |})
              (expected_syntax_kind expected))
  | None => None
  end.

Definition with_insertion (d : Diagnostic) (expected : SyntaxKind) (span : SourceSpan) : Diagnostic :=
  match insertion_suggestion expected span with
  | Some suggestion => with_suggestion d suggestion
  | None => d
  end.

Definition expected_token_at (snapshot : SourceSnapshot) (expected : SyntaxKind) (actual : SyntaxToken)
    (span : SourceSpan) (label : DiagnosticLabelKind) : Diagnostic :=
  let expected_arg := expected_syntax_kind expected in
  let d := syntax_diagnostic span SyntaxExpectedToken in
  let d := with_arg d expected_arg in
  let d := with_arg d (actual_syntax_kind (token_kind actual)) in
  let d := with_optional_arg d (token_text_arg snapshot actual) in
  with_label d (DiagnosticLabel_with_arg (DiagnosticLabel_primary label span) expected_arg).

Definition expected_token (snapshot : SourceSnapshot) (expected : SyntaxKind) (actual : SyntaxToken) : Diagnostic :=
  let span := SourceSpan_empty (source_id snapshot) (token_start actual) in
  with_insertion (expected_token_at snapshot expected actual span LabelExpectedTokenInsertionPoint) expected span.

Definition expected_operator (snapshot : SourceSnapshot) (expected : SyntaxKind) (actual : SyntaxToken) : Diagnostic :=
  expected_token_at snapshot expected actual (SourceSpan_new (source_id snapshot) (token_range actual))
    LabelInvalidOperatorOrPunctuation.

Definition unexpected_eof (snapshot : SourceSnapshot) (expected : SyntaxKind) (eof : SyntaxToken) : Diagnostic :=
  let span := SourceSpan_empty (source_id snapshot) (token_start eof) in
  let d := syntax_diagnostic span SyntaxUnexpectedEof in
  let d := with_arg d (expected_syntax_kind expected) in
  let d := with_arg d (actual_syntax_kind (token_kind eof)) in
  let d := with_label d (DiagnosticLabel_primary LabelUnexpectedEof span) in
  with_insertion d expected span.

Definition expected_expression (snapshot : SourceSnapshot) (actual : SyntaxToken) : Diagnostic :=
  let span := SourceSpan_new (source_id snapshot) (token_range actual) in
  let expected_arg := expected_syntax_kind Expression in
  let d := syntax_diagnostic span SyntaxExpectedExpression in
  let d := with_arg d expected_arg in
  let d := with_arg d (actual_syntax_kind (token_kind actual)) in
  let d := with_optional_arg d (token_text_arg snapshot actual) in
  with_label d (DiagnosticLabel_with_arg (DiagnosticLabel_primary LabelExpectedExpression span) expected_arg).

(** [u64::try_from(maximum_depth).unwrap_or(u64::MAX)]. *)
Definition nesting_limit_exceeded (snapshot : SourceSnapshot) (actual : SyntaxToken) (maximum_depth : usize) : Diagnostic :=
  let span := SourceSpan_new (source_id snapshot) (token_range actual) in
  let maximum_depth := default U64_MAX (checked U64_MAX maximum_depth) in
  let d := syntax_diagnostic span SyntaxNestingLimitExceeded in
  let d := with_arg d (maximum_count maximum_depth) in
  with_label d (DiagnosticLabel_primary LabelNestingLimitExceeded span).

Definition invalid_directive_target (snapshot : SourceSnapshot) (marker name : SyntaxToken) (kind : SyntaxKind) : Diagnostic :=
  let span := SourceSpan_new (source_id snapshot) (TextRange_cover (token_range marker) (token_range name)) in
  let d := syntax_diagnostic span SyntaxInvalidDirectiveTarget in
  let d := with_arg d (directive_kind kind) in
  with_label d (DiagnosticLabel_primary LabelInvalidDeclaration span).

(** The diagnostic that [ParserCursor::expect] chooses. *)
Definition missing_token_diagnostic (snapshot : SourceSnapshot) (expected : SyntaxKind) (actual : SyntaxToken) : Diagnostic :=
  if is_end_of_file actual then unexpected_eof snapshot expected actual else expected_token snapshot expected actual.

Lemma with_insertion_head d expected span :
  d_primary_span (with_insertion d expected span) = d_primary_span d /\ d_severity (with_insertion d expected span) = d_severity d /\
  d_kind (with_insertion d expected span) = d_kind d.
Proof. unfold with_insertion. by destruct (insertion_suggestion expected span). Qed.

Lemma expected_token_at_head snapshot expected actual span label :
  let d := expected_token_at snapshot expected actual span label in
  d_primary_span d = Some span /\ d_severity d = SeverityError /\ d_kind d = SyntaxExpectedToken.
Proof. unfold expected_token_at, with_optional_arg. by destruct (token_text_arg snapshot actual). Qed.

(** Whatever stands where a token was expected, the report is an error at the
    empty range where that token would start. *)
Lemma missing_token_error snapshot expected actual :
  error_at snapshot (TextRange_empty (token_start actual)) (missing_token_diagnostic snapshot expected actual).
Proof.
  unfold missing_token_diagnostic, unexpected_eof, expected_token, error_at.
  destruct (is_end_of_file actual); cbv zeta;
    match goal with |- context [with_insertion ?d ?e ?sp] => destruct (with_insertion_head d e sp) as (-> & -> & _) end; [done|].
  match goal with |- context [expected_token_at ?a ?b ?c ?d ?e] => destruct (expected_token_at_head a b c d e) as (-> & -> & _) end.
  done.
Qed.
