(* ===== verification/ParserCursor.v ===== *)
(** * The parser's cursor and its state

    [bray-parser/src/cursor.rs]: the cursor over a token source, with expected
    tokens, recovery sets and skipping; [parser/state.rs]: the parser around it,
    with speculative scans on a fork and the nesting limit;
    [parser/delimiter.rs]: the depth of open delimiters.

    The tokens that skipping returns are compared with a run of the abstract
    token stream of [TokenSource]; [expect] with what the stream holds next. *)

From Stdlib Require Import ZArith Lia String.
From stdpp Require Import base list numbers option.
From S2P Require Import Prelude Utf8 SourceText Snapshot SyntaxKind SyntaxToken.
From S2P Require Import DiagnosticKind Diagnostic DiagnosticBag LexText LexTrivia LexLiteral LexScanner TokenSource ParserDiagnostic.

(** ** cursor.rs *)

Record RecoverySet := { primary_stop_kinds : list SyntaxKind; additional_stop_kinds : list SyntaxKind }.

Definition RecoverySet_new (stop_kinds : list SyntaxKind) : RecoverySet :=
  {| primary_stop_kinds := stop_kinds; additional_stop_kinds := [] |}.

Definition with_additional (self : RecoverySet) (additional : list SyntaxKind) : RecoverySet :=
  {| primary_stop_kinds := primary_stop_kinds self; additional_stop_kinds := additional |}.

(** [kinds.contains(&kind)]. *)
Definition kinds_contain (kinds : list SyntaxKind) (kind : SyntaxKind) : bool :=
  existsb (fun k => bool_decide (k = kind)) kinds.

Definition RecoverySet_contains (self : RecoverySet) (kind : SyntaxKind) : bool :=
  kinds_contain (primary_stop_kinds self) kind || kinds_contain (additional_stop_kinds self) kind.

Record DelimiterPair := { delimiter_open : SyntaxKind; delimiter_close : SyntaxKind }.

Definition brace_pair : DelimiterPair := {| delimiter_open := OpenBraceToken; delimiter_close := CloseBraceToken |}.

Section cursor.
Context {B : Type} `{!DiagnosticSink B}.
Context (is_alphanumeric : char -> bool).

Record ParserCursor := { token_source : LexerTokenSource B; syntax_diagnostics : B }.
Record ParserCursorCheckpoint := { checkpoint_cursor : ParserCursor }.

Definition ParserCursor_new (source : LexerTokenSource B) : ParserCursor :=
  {| token_source := source; syntax_diagnostics := sink_new |}.

Definition ParserCursor_checkpoint (self : ParserCursor) : ParserCursorCheckpoint := {| checkpoint_cursor := self |}.
Definition ParserCursorCheckpoint_fork (self : ParserCursorCheckpoint) : ParserCursor := checkpoint_cursor self.

Definition with_source (self : ParserCursor) (source : LexerTokenSource B) : ParserCursor :=
  {| token_source := source; syntax_diagnostics := syntax_diagnostics self |}.

(** A call of the token source that returns a value. *)
Definition on_source {A} (self : ParserCursor) (call : LexerTokenSource B -> outcome (A * LexerTokenSource B))
    : outcome (A * ParserCursor) :=
  let! r := call (token_source self) in Ret (r.1, with_source self r.2).

Definition ParserCursor_lookahead (self : ParserCursor) (distance : nat) : outcome (SyntaxToken * ParserCursor) :=
  on_source self (fun source => lookahead is_alphanumeric source distance).

Definition ParserCursor_peek (self : ParserCursor) : outcome (SyntaxToken * ParserCursor) :=
  ParserCursor_lookahead self 0.

Definition ParserCursor_at (self : ParserCursor) (kind : SyntaxKind) : outcome (bool * ParserCursor) :=
  let! r := ParserCursor_peek self in Ret (bool_decide (token_kind r.1 = kind), r.2).

Definition ParserCursor_consume (self : ParserCursor) : outcome (SyntaxToken * ParserCursor) :=
  on_source self (consume is_alphanumeric).

Definition ParserCursor_consume_tuple_element_index_after_dot (self : ParserCursor) : outcome (SyntaxToken * ParserCursor) :=
  on_source self (consume_tuple_element_index_after_dot is_alphanumeric).

Definition ParserCursor_consume_type_punctuation (self : ParserCursor) : outcome (SyntaxToken * ParserCursor) :=
  on_source self (consume_type_punctuation is_alphanumeric).

Definition ParserCursor_at_generic_close (self : ParserCursor) : outcome bool := at_generic_close (token_source self).

Definition ParserCursor_consume_if (self : ParserCursor) (kind : SyntaxKind) : outcome (option SyntaxToken * ParserCursor) :=
  let! r := ParserCursor_at self kind in
  if negb r.1 then Ret (None, r.2)
  else let! c := ParserCursor_consume r.2 in Ret (Some c.1, c.2).

Definition record_syntax_diagnostic (self : ParserCursor) (d : Diagnostic) : ParserCursor :=
  {| token_source := token_source self; syntax_diagnostics := sink_merged (syntax_diagnostics self) (sink_single d) |}.

Definition ParserCursor_expect (self : ParserCursor) (kind : SyntaxKind) : outcome (SyntaxToken * ParserCursor) :=
  let! r := ParserCursor_peek self in
  let (token, self) := r in
  if bool_decide (token_kind token = kind) then ParserCursor_consume self
  else
    let snapshot := ls_snapshot (token_source self) in
    let diagnostic :=
      if is_end_of_file token then unexpected_eof snapshot kind token else expected_token snapshot kind token in
    let self := record_syntax_diagnostic self diagnostic in
    let! missing := SyntaxToken_missing kind (token_start token) in
    Ret (missing, self).

Definition consume_skipped_token (self : ParserCursor) : outcome (option SyntaxToken * ParserCursor) :=
  let! r := ParserCursor_peek self in
  let (token, self) := r in
  if is_end_of_file token then Ret (None, self)
  else
    let! c := ParserCursor_consume_if self (token_kind token) in
    let! token := expect c.1 in
    Ret (Some token, c.2).

Definition consume_skipped_token_into (self : ParserCursor) (skipped_tokens : list SyntaxToken)
    : outcome (ParserCursor * list SyntaxToken) :=
  let! r := consume_skipped_token self in
  match r.1 with
  | None => Ret (r.2, skipped_tokens)
  | Some skipped_token => Ret (r.2, skipped_tokens ++ [skipped_token])
  end.

(** One turn of the loop in [skip_until_tokens]. *)
Definition skip_step (recovery_set : RecoverySet) (st : ParserCursor * list SyntaxToken)
    : outcome (ParserCursor * list SyntaxToken + ParserCursor * list SyntaxToken) :=
  let (self, skipped_tokens) := st in
  let! r := ParserCursor_peek self in
  let (token, self) := r in
  if RecoverySet_contains recovery_set (token_kind token) || is_end_of_file token
  then break_ (self, skipped_tokens)
  else let! st := consume_skipped_token_into self skipped_tokens in continue_ st.

(** The fuel of a loop that consumes a token in every turn. *)
Definition cursor_fuel (self : ParserCursor) : nat := text_fuel (ls_snapshot (token_source self)).

Definition skip_until_tokens (self : ParserCursor) (recovery_set : RecoverySet) : outcome (ParserCursor * list SyntaxToken) :=
  loop (cursor_fuel self) (skip_step recovery_set) (self, []).

Definition ParserCursor_skip_until (self : ParserCursor) (recovery_set : RecoverySet)
    : outcome (ParserCursor * list SyntaxToken) := skip_until_tokens self recovery_set.

Definition ParserCursor_skip_current_and_until (self : ParserCursor) (recovery_set : RecoverySet)
    : outcome (ParserCursor * list SyntaxToken) :=
  let! r := consume_skipped_token_into self [] in
  let! rest := skip_until_tokens r.1 recovery_set in
  Ret (rest.1, r.2 ++ rest.2).

Definition ParserCursor_skip_one (self : ParserCursor) : outcome (option SyntaxToken * ParserCursor) :=
  let! r := consume_skipped_token_into self [] in
  Ret (list.head r.2, r.1).

(** One turn of the loop in [skip_until_balanced_close]; [depth += 1] is checked. *)
Definition balanced_step (delimiters : DelimiterPair) (recovery_set : RecoverySet)
    (st : ParserCursor * list SyntaxToken * usize)
    : outcome (ParserCursor * list SyntaxToken * usize + ParserCursor * list SyntaxToken) :=
  let '(self, skipped_tokens, depth) := st in
  let! r := ParserCursor_peek self in
  let (token, self) := r in
  if is_end_of_file token
     || (bool_decide (token_kind token = delimiter_close delimiters) && (depth =? 0))
     || ((depth =? 0) && RecoverySet_contains recovery_set (token_kind token))
  then break_ (self, skipped_tokens)
  else
    let! c := consume_skipped_token self in
    match c.1 with
    | None => break_ (c.2, skipped_tokens)
    | Some skipped_token =>
        let! depth :=
          if bool_decide (token_kind skipped_token = delimiter_open delimiters) then expect (usize_checked_add depth 1)
          else if bool_decide (token_kind skipped_token = delimiter_close delimiters) then Ret (Z.max 0 (depth - 1))
          else Ret depth in
        continue_ (c.2, skipped_tokens ++ [skipped_token], depth)
    end.

Definition skip_until_balanced_close (self : ParserCursor) (delimiters : DelimiterPair) (recovery_set : RecoverySet)
    (initial_depth : usize) : outcome (ParserCursor * list SyntaxToken) :=
  loop (cursor_fuel self) (balanced_step delimiters recovery_set) (self, [], initial_depth).

Definition ParserCursor_skip_until_balanced_close_brace_or_recovery (self : ParserCursor) (recovery_set : RecoverySet)
    : outcome (ParserCursor * list SyntaxToken) :=
  skip_until_balanced_close self brace_pair recovery_set 0.

Definition ParserCursor_skip_current_and_until_balanced_close_brace_or_recovery (self : ParserCursor) (recovery_set : RecoverySet)
    : outcome (ParserCursor * list SyntaxToken) :=
  let delimiters := brace_pair in
  let! r := consume_skipped_token self in
  let (skipped_tokens, depth) :=
    match r.1 with
    | Some skipped_token =>
        ([skipped_token], if bool_decide (token_kind skipped_token = delimiter_open delimiters) then 1 else 0)
    | None => ([], 0)
    end in
  let! rest := skip_until_balanced_close r.2 delimiters recovery_set depth in
  Ret (rest.1, skipped_tokens ++ rest.2).

Definition ParserCursor_finish (self : ParserCursor) : B :=
  sink_merged (ls_diagnostics (token_source self)) (syntax_diagnostics self).

Definition absorb_lexical_diagnostics_from (self cursor : ParserCursor) : ParserCursor :=
  with_source self (merge_diagnostics_from (token_source self) (ls_diagnostics (token_source cursor))).
End cursor.

Arguments ParserCursor : clear implicits.
Arguments ParserCursorCheckpoint : clear implicits.

(** ** The cache up to the end of file

    Cached tokens are those of the stream, but the end-of-file tokens behind the
    first one have lost its trivia.  Up to and including the first end of file
    the cache is exact, until that end of file is consumed. *)

Section exact.
Context {B : Type} `{!DiagnosticSink B, !DiagnosticSinkLaws B}.
Context (is_alphanumeric : char -> bool).
Context (s : SourceSnapshot) `{!WfSnapshot s}.

Abbreviation stream_scan := (stream_scan (B := B) is_alphanumeric s).
Abbreviation stream_token := (stream_token (B := B) is_alphanumeric s).
Abbreviation ls_ok := (ls_ok (B := B) is_alphanumeric s).

Definition exact_cache (self : LexerTokenSource B) : Prop :=
  forall i t, cached_tokens self !! i = Some t ->
    stream_token (cursor self) i = Ret t \/
    exists j u, (j < i)%nat /\ cached_tokens self !! j = Some u /\ is_eof u = true.

Lemma exact_cache_snoc self l t :
  exact_cache self ->
  (stream_token (cursor self) (length (cached_tokens self)) = Ret t \/
   exists u, list.last (cached_tokens self) = Some u /\ is_eof u = true) ->
  cached_tokens self ++ [t] = l -> exact_cache (set_cached self l).
Proof using.
  intros Hx Ht <- i u Hi. cbn [cached_tokens set_cached cursor] in *. apply lookup_app_Some in Hi as [Hi|[Hle Hi]].
  - destruct (Hx i u Hi) as [H|(j & v & ? & ? & ?)]; [by left|]. right. exists j, v. split_and!; [done| |done].
    rewrite lookup_app_l; [done|]. apply lookup_lt_Some in Hi. lia.
  - apply list_lookup_singleton_Some in Hi as [Hz <-]. assert (i = length (cached_tokens self)) as -> by lia.
    destruct Ht as [Ht|(v & Hv & He)]; [by left|]. right. rewrite last_lookup in Hv.
    exists (pred (length (cached_tokens self))), v. pose proof (lookup_lt_Some _ _ _ Hv).
    split_and!; [lia| |done]. by rewrite lookup_app_l.
Qed.

Lemma exact_cache_eofs self n o u :
  exact_cache self -> list.last (cached_tokens self) = Some u -> is_eof u = true ->
  forall filled, push_eof n (cached_tokens self) o = Ret filled -> exact_cache (set_cached self filled).
Proof using.
  intros Hx Hl He filled. rewrite push_eof_spec. intros [= <-]. intros i t Hi. cbn [cached_tokens set_cached cursor] in *.
  rewrite last_lookup in Hl. apply lookup_app_Some in Hi as [Hi|[Hle Hi]].
  - destruct (Hx i t Hi) as [H|(j & v & ? & ? & ?)]; [by left|]. right. exists j, v. split_and!; [done| |done].
    rewrite lookup_app_l; [done|]. apply lookup_lt_Some in Hi. lia.
  - right. exists (pred (length (cached_tokens self))), u. pose proof (lookup_lt_Some _ _ _ Hl).
    split_and!; [lia| |done]. by rewrite lookup_app_l.
Qed.

Lemma ensure_step_exact self d :
  ls_ok self -> exact_cache self ->
  forall r, ensure_step is_alphanumeric d self = Ret r -> match r with inl x | inr x => exact_cache x end.
Proof using All.
  intros Hok Hx r. unfold ensure_step. destruct (_ <=? _)%nat; [|by intros [= <-]].
  pose proof (lo_cursor _ _ _ Hok) as Hcur.
  assert (forall a, boundary (text s) a ->
    (forall t, stream_scan a Normal = Ret t -> stream_token (cursor self) (length (cached_tokens self)) = Ret t) ->
    (let! scanned := source_scan_token_at is_alphanumeric self a Normal in
     let (next, x) := scanned in continue_ (set_cached x (cached_tokens x ++ [next]))) = Ret r ->
    match r with inl x | inr x => exact_cache x end) as Hscan.
  { intros a Ha Hn. destruct (source_scan_ok is_alphanumeric s self a Normal) as (t & x & b & -> & Hs & _ & Hst); [apply Hok|apply Hok|done|].
    cbn [outcome_bind]. intros [= <-]. destruct Hst as [S1 S2 S3 S4 _ _ _ _].
    apply (exact_cache_snoc x _ t); [|rewrite S2, S4; left; by apply Hn|done].
    intros i u. rewrite S2, S4. apply Hx. }
  destruct (list.last (cached_tokens self)) as [t|] eqn:El.
  - destruct (is_eof t) eqn:He.
    + unfold fill_with_eof. destruct (push_eof _ _ _) as [filled| |] eqn:Ep; try done. cbn [outcome_bind]. intros [= <-].
      by eapply exact_cache_eofs.
    + destruct (cache_last is_alphanumeric s self t Hok El) as (n & t' & Hlen & Hn & Hs).
      assert (t = t') as <- by (eapply forget_eof_neq; [apply Hs|done]).
      apply Hscan.
      * destruct (stream_token_ok (B := B) is_alphanumeric s _ n Hcur) as (a' & t1 & b & Ht1 & Hsc & _).
        assert (t1 = t) as -> by congruence. by destruct (scanned_end _ _ _ _ Hsc) as (-> & ? & _).
      * intros t1 Ht1. rewrite Hlen, (stream_token_next _ _ _ n t Hcur Hn), He. done.
  - apply last_None in El. apply Hscan; [done|]. intros t Ht. rewrite El. cbn [length]. by rewrite stream_token_0.
Qed.

Lemma ensure_cached_exact self d :
  ls_ok self -> cache_policy self = CacheTokens -> exact_cache self ->
  forall r, ensure_cached is_alphanumeric self d = Ret r -> exact_cache r.
Proof using All.
  intros Hok Hp Hx. unfold ensure_cached.
  assert (forall fuel x, ls_ok x /\ cache_policy x = CacheTokens /\ exact_cache x ->
    forall r, loop fuel (ensure_step is_alphanumeric d) x = Ret r -> exact_cache r) as H; [|by apply H].
  intros fuel. induction fuel as [|fuel IH]; intros x (Hxok & Hxp & Hxe) r; [done|]. cbn [loop].
  destruct (ensure_step is_alphanumeric d x) as [[y|y]| |] eqn:E; cbn [outcome_bind]; try done.
  - apply IH. pose proof (ensure_step_exact x d Hxok Hxe _ E) as Hy.
    revert E. unfold ensure_step. destruct (length (cached_tokens x) <=? d)%nat eqn:El; [|done]. apply Nat.leb_le in El.
    intros E. assert (filling is_alphanumeric s x d x) as Hf.
    { split; [by apply same_view_refl|]. split; [lia|].
      rewrite diags_upto_known; [done|by apply (recorded_nub is_alphanumeric s)|apply Hxok]. }
    pose proof (ensure_step_ok is_alphanumeric s x d x Hxok Hf Hxp) as Hret.
    unfold ensure_step in Hret. rewrite (proj2 (Nat.leb_le _ _) El) in Hret.
    pose proof (returns_det _ _ _ Hret E) as [((? & _ & Hpol & _) & _) _]. split_and!; [done|congruence|done].
  - intros [= <-]. exact (ensure_step_exact x d Hxok Hxe _ E).
Qed.

Lemma lookahead_exact self n :
  ls_ok self -> cache_policy self = CacheTokens ->
  returns (lookahead is_alphanumeric self n) (fun '(t, self') =>
    looked is_alphanumeric s self n t self' /\
    (exact_cache self -> exact_cache self' /\ (n = 0%nat -> stream_scan (cursor self) Normal = Ret t))).
Proof using All.
  intros Hok Hp. destruct (lookahead_ok is_alphanumeric s self n Hok) as ([t x] & E & Hl). rewrite E. apply returns_ret.
  split; [done|]. intros Hx. pose proof Hl as ((Hok' & Hc & _) & _).
  unfold lookahead in E. rewrite Hp in E. unfold cached_lookahead in E.
  destruct (ensure_cached is_alphanumeric self n) as [y| |] eqn:Ey; cbn [outcome_bind] in E; try done.
  destruct (cached_tokens y !! n) as [u|] eqn:Eu; cbn [expect outcome_bind] in E; [|done]. simplify_eq.
  pose proof (ensure_cached_exact self n Hok Hp Hx _ Ey) as Hxx. split; [done|]. intros ->.
  destruct (Hxx 0%nat t Eu) as [H|(j & _ & Hj & _)]; [|lia]. rewrite Hc in H.
  pose proof (lo_cursor _ _ _ Hok). by rewrite stream_token_0 in H by done.
Qed.

Lemma advance_exact self t :
  ls_ok self -> exact_cache self -> stream_scan (cursor self) Normal = Ret t -> is_eof t = false ->
  exact_cache (advance_after_consuming self t).
Proof using All.
  intros Hok Hx Hs He. pose proof (lo_cursor _ _ _ Hok) as Hcur. unfold advance_after_consuming. rewrite He.
  destruct (stream_scan_ok (B := B) is_alphanumeric s _ Normal Hcur) as (t1 & b & Hs1 & Hsc).
  assert (t1 = t) as -> by congruence. destruct (scanned_end _ _ _ _ Hsc) as (Hb & Hbb & _). cbn [cache_policy set_cursor cached_tokens]. rewrite Hb.
  intros i u Hi. destruct (cached_tokens self) as [|v l] eqn:Ec.
  { rewrite andb_false_r in Hi. cbn [cached_tokens set_cursor] in Hi. by rewrite Ec in Hi. }
  cbn [is_nil negb] in *. rewrite andb_true_r in *. destruct (bool_decide (cache_policy self = CacheTokens)) eqn:Ep.
  2: { apply bool_decide_eq_false in Ep. destruct (cache_policy self) eqn:Epol; [done|].
       pose proof (lo_policy _ _ _ Hok Epol) as Hn. by rewrite Hn in Ec. }
  cbn [cached_tokens set_cached set_cursor cursor tail] in *.
  assert (v = t) as ->.
  { destruct (Hx 0%nat v) as [H|(j & _ & Hj & _)]; [by rewrite Ec| |lia]. rewrite stream_token_0 in H by done. congruence. }
  destruct (Hx (S i) u) as [H|(j & w & Hj & Hw & Hew)]; [by rewrite Ec| |].
  - left. by rewrite <- (stream_token_unfold _ _ _ t b i Hs Hsc He).
  - right. destruct j as [|j]; [rewrite Ec in Hw; simpl in Hw; simplify_eq; congruence|]. exists j, w. rewrite Ec in Hw.
    split_and!; [lia|done|done].
Qed.

Lemma consume_exact self :
  ls_ok self -> cache_policy self = CacheTokens ->
  returns (consume is_alphanumeric self) (fun '(t, self') =>
    consumed is_alphanumeric s self Normal t self' /\
    (exact_cache self -> stream_scan (cursor self) Normal = Ret t /\ (is_eof t = false -> exact_cache self'))).
Proof using All.
  intros Hok Hp. destruct (consume_ok is_alphanumeric s self Hok) as ([t x] & E & Hc). rewrite E. apply returns_ret.
  split; [done|]. intros Hx. unfold consume in E.
  destruct (lookahead_exact self 0 Hok Hp) as ([u y] & Ey & ((Hyok & Hyc & _) & _) & Hex). rewrite Ey in E. cbn [outcome_bind] in E.
  simplify_eq. destruct (Hex Hx) as [Hy Hs]. specialize (Hs eq_refl). split; [done|]. intros He.
  apply advance_exact; [done|done|by rewrite Hyc|done].
Qed.

Lemma consume_with_mode_exact self mode :
  ls_ok self ->
  returns (consume_with_mode is_alphanumeric self mode) (fun '(t, self') =>
    consumed is_alphanumeric s self mode t self' /\ stream_scan (cursor self) mode = Ret t /\ exact_cache self').
Proof using All.
  intros Hok. destruct (consume_with_mode_ok is_alphanumeric s self mode Hok) as ([t x] & E & Hc). rewrite E. apply returns_ret.
  split; [done|]. unfold consume_with_mode in E.
  destruct (source_scan_ok is_alphanumeric s (set_cached self []) (cursor self) mode) as (u & y & b & Ey & Hs & _ & Hst);
    [apply Hok|apply Hok|apply Hok|].
  cbn [cursor set_cached] in *. rewrite Ey in E. cbn [outcome_bind] in E. simplify_eq. split; [done|].
  intros i v Hi. cbn [set_cursor cached_tokens] in Hi. by rewrite (ss_cached _ _ _ _ _ _ _ Hst) in Hi.
Qed.
End exact.

(** ** What the calls of a cursor do *)

Section calls.
Context {B : Type} `{!DiagnosticSink B, !DiagnosticSinkLaws B}.
Context (is_alphanumeric : char -> bool).
Context (s : SourceSnapshot) `{!WfSnapshot s}.

Abbreviation stream_scan := (stream_scan (B := B) is_alphanumeric s).
Abbreviation stream_token := (stream_token (B := B) is_alphanumeric s).
Abbreviation exact_cache := (exact_cache (B := B) is_alphanumeric s).

Definition offset (self : ParserCursor B) : Z := cursor (token_source self).
Definition lexical (self : ParserCursor B) : list Diagnostic := sink_contents (ls_diagnostics (token_source self)).
Definition syntactic (self : ParserCursor B) : list Diagnostic := sink_contents (syntax_diagnostics self).
Definition exact (self : ParserCursor B) : Prop := exact_cache (token_source self).

Record cursor_ok (self : ParserCursor B) : Prop := {
  co_source : ls_ok is_alphanumeric s (token_source self);
  co_policy : cache_policy (token_source self) = CacheTokens;
  co_syntax : sink_ok (syntax_diagnostics self);
}.

(** A call that only reads tokens. *)
Record moved (self self' : ParserCursor B) : Prop := {
  mv_ok : cursor_ok self';
  mv_keeps : keeps s (lexical self) (lexical self');
  mv_syntax : syntax_diagnostics self' = syntax_diagnostics self;
}.

Lemma moved_refl self : cursor_ok self -> moved self self.
Proof using. constructor; [done|apply keeps_refl|done]. Qed.

Lemma moved_trans x y z : moved x y -> moved y z -> moved x z.
Proof using. intros [_ H1 H2] [H3 H4 H5]. constructor; [done|by eapply keeps_trans|congruence]. Qed.

Lemma cursor_boundary self : cursor_ok self -> boundary (text s) (offset self).
Proof using. intros [H _ _]. apply (lo_cursor _ _ _ H). Qed.

(** The token [n] places ahead, as the stream has it. *)
Definition sees (self : ParserCursor B) (n : nat) (t : SyntaxToken) (self' : ParserCursor B) : Prop :=
  moved self self' /\ offset self' = offset self /\ reported s (lexical self') t /\
  (exists t', stream_token (offset self) n = Ret t' /\ same_token t t') /\
  (exact self -> exact self' /\ (n = 0%nat -> stream_scan (offset self) Normal = Ret t)).

Lemma cursor_lookahead_ok self n :
  cursor_ok self -> returns (ParserCursor_lookahead is_alphanumeric self n) (fun r => sees self n r.1 r.2).
Proof using All.
  intros [Hok Hp Hsy]. unfold ParserCursor_lookahead, on_source.
  eapply returns_bind; [by apply (lookahead_exact is_alphanumeric s)|].
  intros [t x] (((Hx & Hc & Hpol & Hk) & Hr & _ & Ht) & Hex). apply returns_ret.
  split_and!; [|done|done|done|done]. constructor; [|done|done]. constructor; cbn; [done|congruence|done].
Qed.

(** A consumed token, as a scan of the stream in some mode. *)
Definition takes (mode : LexerScanMode) (self : ParserCursor B) (t : SyntaxToken) (self' : ParserCursor B) : Prop :=
  moved self self' /\ reported s (lexical self') t /\
  exists t', stream_scan (offset self) mode = Ret t' /\ same_token t t' /\ offset self' = end_ (full_range t') /\
    (exact self -> t = t' /\ (is_eof t = false -> exact self')).

Lemma cursor_consume_ok self :
  cursor_ok self -> returns (ParserCursor_consume is_alphanumeric self) (fun r => takes Normal self r.1 r.2).
Proof using All.
  intros [Hok Hp Hsy]. unfold ParserCursor_consume, on_source.
  eapply returns_bind; [by apply (consume_exact is_alphanumeric s)|].
  intros [t x] ((Hx & Hpol & Hk & Hr & _ & t' & Ht' & Hs & Hc) & Hex). apply returns_ret. cbn [fst snd]. split_and!; [|done|].
  - constructor; [|done|done]. constructor; cbn; [done|congruence|done].
  - exists t'. split_and!; [done..|]. intros H. destruct (Hex H) as [H1 H2]. split; [|exact H2].
    unfold offset in Ht'. congruence.
Qed.

Lemma cursor_consume_mode_ok self mode :
  cursor_ok self ->
  returns (on_source self (fun source => consume_with_mode is_alphanumeric source mode)) (fun r => takes mode self r.1 r.2).
Proof using All.
  intros [Hok Hp Hsy]. unfold on_source. eapply returns_bind; [by apply (consume_with_mode_exact is_alphanumeric s)|].
  intros [t x] ((Hx & Hpol & Hk & Hr & _ & t' & Ht' & Hs & Hc) & Hst & Hex). apply returns_ret. cbn [fst snd]. split_and!; [|done|].
  - constructor; [|done|done]. constructor; cbn; [done|congruence|done].
  - exists t'. split_and!; [done..|]. intros _. split; [|done]. unfold offset in Ht'. congruence.
Qed.

Lemma cursor_peek_ok self :
  cursor_ok self ->
  returns (ParserCursor_peek is_alphanumeric self) (fun r =>
    moved self r.2 /\ offset r.2 = offset self /\ reported s (lexical r.2) r.1 /\ (exact self -> exact r.2) /\
    exists t, stream_scan (offset self) Normal = Ret t /\ same_token r.1 t).
Proof using All.
  intros Hok. eapply returns_mono; [by apply cursor_lookahead_ok|]. intros [t x] (H1 & H2 & H3 & (t' & Ht & Hs) & Hex).
  pose proof (cursor_boundary _ Hok). rewrite stream_token_0 in Ht by done.
  split_and!; [done|done|done|by intros; apply Hex|by exists t'].
Qed.

Lemma same_token_kind t t' : same_token t t' -> token_kind t = token_kind t'.
Proof using. intros [H _]. by rewrite <- (forget_kind t), H, forget_kind. Qed.

Lemma same_token_eof t t' : same_token t t' -> is_end_of_file t = is_end_of_file t'.
Proof using. intros H. unfold is_end_of_file. by rewrite (same_token_kind _ _ H). Qed.

(** Skipping one token takes it unless it is the end of file. *)
Lemma consume_skipped_ok self t :
  cursor_ok self -> stream_scan (offset self) Normal = Ret t ->
  returns (consume_skipped_token is_alphanumeric self) (fun r =>
    moved self r.2 /\ (exact self -> exact r.2) /\
    if is_end_of_file t then r.1 = None /\ offset r.2 = offset self
    else r.1 = Some t /\ offset r.2 = end_ (full_range t) /\ reported s (lexical r.2) t).
Proof using All.
  intros Hok Ht. unfold consume_skipped_token. eapply returns_bind; [by apply cursor_peek_ok|].
  intros [u x] (Hm & Ho & Hr & Hex & t' & Ht' & Hs). cbn [fst snd] in *. assert (t' = t) as -> by congruence.
  rewrite (same_token_eof _ _ Hs). destruct (is_end_of_file t) eqn:He.
  - apply returns_ret. cbn [fst snd]. by split_and!.
  - assert (u = t) as -> by (eapply forget_eof_neq; [apply Hs|by rewrite <- (same_token_eof _ _ Hs) in He]).
    unfold ParserCursor_consume_if, ParserCursor_at. pose proof (mv_ok _ _ Hm) as Hxok.
    destruct (cursor_peek_ok x Hxok) as ([v y] & -> & Hm2 & Ho2 & _ & Hex2 & t2 & Ht2 & Hs2). cbn [outcome_bind fst snd] in *.
    rewrite Ho in Ht2. assert (t2 = t) as -> by congruence. rewrite (same_token_kind _ _ Hs2), bool_decide_eq_true_2 by done.
    cbn [negb]. destruct (cursor_consume_ok y (mv_ok _ _ Hm2)) as ([w z] & -> & Hm3 & Hr3 & t3 & Ht3 & Hs3 & Ho3 & Hex3).
    cbn [outcome_bind expect fst snd] in *. rewrite Ho2, Ho in Ht3. assert (t3 = t) as -> by congruence.
    assert (w = t) as -> by (eapply forget_eof_neq; [apply Hs3|by rewrite <- (same_token_eof _ _ Hs3) in He]).
    apply returns_ret. cbn [fst snd]. split_and!; [by eapply moved_trans; [done|eapply moved_trans]| |done|done|done].
    intros H. apply Hex3; [|done]. by apply Hex2, Hex.
Qed.

(** ** Skipping

    The reference: from [a], take tokens of the stream until the end of file or
    until [stop] holds of the kinds taken so far and the next kind. *)
Inductive run_until (stop : list SyntaxKind -> SyntaxKind -> bool) : list SyntaxKind -> Z -> list SyntaxToken -> Z -> Prop :=
| run_stop seen a t :
    stream_scan a Normal = Ret t -> is_end_of_file t || stop seen (token_kind t) = true ->
    run_until stop seen a [] a
| run_take seen a t l b :
    stream_scan a Normal = Ret t -> is_end_of_file t = false -> stop seen (token_kind t) = false ->
    run_until stop (seen ++ [token_kind t]) (end_ (full_range t)) l b ->
    run_until stop seen a (t :: l) b.

Definition recovery_stop (recovery_set : RecoverySet) (seen : list SyntaxKind) (kind : SyntaxKind) : bool :=
  RecoverySet_contains recovery_set kind.

Definition occurrences (kind : SyntaxKind) (l : list SyntaxKind) : Z :=
  zlen (List.filter (fun k => bool_decide (k = kind)) l).

(** How many delimiters are open after [seen], [depth] of them from the start. *)
Definition excess (delimiters : DelimiterPair) (depth : Z) (seen : list SyntaxKind) : Z :=
  depth + occurrences (delimiter_open delimiters) seen - occurrences (delimiter_close delimiters) seen.

Definition balanced_stop (delimiters : DelimiterPair) (recovery_set : RecoverySet) (depth : Z)
    (seen : list SyntaxKind) (kind : SyntaxKind) : bool :=
  (excess delimiters depth seen =? 0) && (bool_decide (kind = delimiter_close delimiters) || RecoverySet_contains recovery_set kind).

(** What a skip returns: the run, every token of it reported if invalid. *)
Definition skips (stop : list SyntaxKind -> SyntaxKind -> bool) (seen : list SyntaxKind) (self : ParserCursor B)
    (l : list SyntaxToken) (self' : ParserCursor B) : Prop :=
  moved self self' /\ (exact self -> exact self') /\ Forall (reported s (lexical self')) l /\
  run_until stop seen (offset self) l (offset self').

(** The loop has taken [l] and stands at [x]. *)
Definition skipping (stop : list SyntaxKind -> SyntaxKind -> bool) (self x : ParserCursor B) (l : list SyntaxToken) : Prop :=
  moved self x /\ (exact self -> exact x) /\ Forall (reported s (lexical x)) l /\ zlen l <= offset x - offset self /\
  forall rest b, run_until stop (map token_kind l) (offset x) rest b -> run_until stop [] (offset self) (l ++ rest) b.

Lemma skipping_start stop self : cursor_ok self -> skipping stop self self [].
Proof using. intros H. split_and!; [by apply moved_refl|done|done|rewrite zlen_nil; lia|done]. Qed.

Lemma skipping_stop stop self x l t :
  skipping stop self x l -> stream_scan (offset x) Normal = Ret t ->
  is_end_of_file t || stop (map token_kind l) (token_kind t) = true -> skips stop [] self l x.
Proof using.
  intros (H1 & H2 & H3 & _ & H4) Ht Hs. split_and!; [done..|]. rewrite <- (app_nil_r l). apply H4. by econstructor.
Qed.

(** Looking at the next token does not disturb the loop. *)
Lemma skipping_peek stop self x y l :
  skipping stop self x l -> moved x y -> offset y = offset x -> (exact x -> exact y) -> skipping stop self y l.
Proof using.
  intros (H1 & H2 & H3 & H4 & H5) Hm Ho Hex. split_and!; [by eapply moved_trans|auto| |by rewrite Ho|by rewrite Ho].
  eapply Forall_impl; [|exact H3]. intros t. apply (mv_keeps _ _ Hm).
Qed.

Lemma skipping_take stop self x y l t :
  skipping stop self x l -> cursor_ok x -> stream_scan (offset x) Normal = Ret t ->
  is_end_of_file t = false -> stop (map token_kind l) (token_kind t) = false ->
  moved x y -> (exact x -> exact y) -> offset y = end_ (full_range t) -> reported s (lexical y) t ->
  skipping stop self y (l ++ [t]) /\ offset x < offset y.
Proof using All.
  intros (H1 & H2 & H3 & H4 & H5) Hx Ht He Hst Hm Hex Ho Hr.
  destruct (stream_scan_ok (B := B) is_alphanumeric s _ Normal (cursor_boundary _ Hx)) as (t1 & b & Ht1 & Hsc).
  assert (t1 = t) as -> by congruence. destruct (scanned_end _ _ _ _ Hsc) as (Hb & _).
  pose proof (scanned_progress _ _ _ _ Hsc He). split; [|lia]. split_and!; [by eapply moved_trans|auto| | |].
  - apply Forall_app. split; [|by constructor]. eapply Forall_impl; [|exact H3]. intros u. apply (mv_keeps _ _ Hm).
  - rewrite zlen_app, zlen_cons, zlen_nil. lia.
  - intros rest c Hrun. rewrite <- app_assoc. apply H5. cbn [app]. rewrite map_app in Hrun. rewrite Ho in Hrun.
    by eapply run_take.
Qed.

Lemma cursor_remaining x y :
  cursor_ok x -> cursor_ok y -> offset x < offset y -> (remaining s (offset y) < remaining s (offset x))%nat.
Proof using.
  intros Hx Hy Hlt. apply cursor_boundary, boundary_range in Hx. apply cursor_boundary, boundary_range in Hy.
  apply remaining_step; lia.
Qed.

Lemma cursor_fuel_ok self : cursor_ok self -> (remaining s (offset self) < cursor_fuel self)%nat.
Proof using.
  intros H. unfold cursor_fuel. rewrite (lo_snapshot _ _ _ (co_source _ H)). apply remaining_fuel.
  apply cursor_boundary, boundary_range in H. lia.
Qed.

Lemma skip_step_ok stop recovery_set self x l :
  stop = recovery_stop recovery_set -> skipping stop self x l ->
  returns (skip_step is_alphanumeric recovery_set (x, l)) (fun step =>
    match step with
    | inl (y, l') => skipping stop self y l' /\ (remaining s (offset y) < remaining s (offset x))%nat
    | inr (y, l') => skips stop [] self l' y
    end).
Proof using All.
  intros Hstop Hinv. pose proof (mv_ok _ _ (proj1 Hinv)) as Hx. unfold skip_step.
  eapply returns_bind; [by apply cursor_peek_ok|]. intros [u y] (Hm & Ho & _ & Hex & t & Ht & Hs). cbn [fst snd] in *.
  pose proof (skipping_peek _ _ _ _ _ Hinv Hm Ho Hex) as Hinv'. rewrite <- Ho in Ht.
  rewrite (same_token_kind _ _ Hs), (same_token_eof _ _ Hs).
  destruct (RecoverySet_contains recovery_set (token_kind t) || is_end_of_file t) eqn:E.
  - apply returns_ret. eapply skipping_stop; [done|done|]. by rewrite orb_comm, Hstop.
  - apply orb_false_iff in E as [Er Ee]. pose proof (mv_ok _ _ Hm) as Hy. unfold consume_skipped_token_into.
    destruct (consume_skipped_ok y t Hy Ht) as ([o z] & -> & Hm2 & Hex2 & Hr2). rewrite Ee in Hr2. cbn [outcome_bind fst snd] in *.
    destruct Hr2 as (-> & Ho2 & Hr2). apply returns_ret.
    assert (stop (map token_kind l) (token_kind t) = false) as Hst by (by rewrite Hstop).
    destruct (skipping_take stop self y z l t) as [H1 H2]; [done..|]. split; [done|].
    rewrite <- Ho. apply cursor_remaining; [done|apply Hm2|done].
Qed.

Lemma skip_until_ok self recovery_set :
  cursor_ok self ->
  returns (skip_until_tokens is_alphanumeric self recovery_set) (fun r => skips (recovery_stop recovery_set) [] self r.2 r.1).
Proof using All.
  intros Hok. unfold skip_until_tokens.
  apply (loop_rule (fun st => skipping (recovery_stop recovery_set) self st.1 st.2) (fun st => remaining s (offset st.1)));
    [|by apply skipping_start|by apply cursor_fuel_ok].
  intros [x l] Hinv. eapply returns_mono; [by apply skip_step_ok|]. by intros [[y l']|[y l']].
Qed.

Lemma occurrences_snoc kind l k : occurrences kind (l ++ [k]) = occurrences kind l + (if bool_decide (k = kind) then 1 else 0).
Proof using.
  unfold occurrences. rewrite List.filter_app, zlen_app. f_equal. cbn [List.filter]. by destruct (bool_decide (k = kind)).
Qed.

Lemma occurrences_bounds kind l : 0 <= occurrences kind l <= zlen l.
Proof using. unfold occurrences, zlen. pose proof (List.filter_length_le (fun k => bool_decide (k = kind)) l). lia. Qed.

(** The depth that the loop keeps, saturating subtraction included, is the
    number of open delimiters. *)
Lemma balanced_step_ok delimiters recovery_set depth0 self x l :
  delimiter_open delimiters <> delimiter_close delimiters -> 0 <= depth0 <= 1 ->
  let stop := balanced_stop delimiters recovery_set depth0 in
  let depth := excess delimiters depth0 (map token_kind l) in
  cursor_ok self -> skipping stop self x l -> 0 <= depth ->
  returns (balanced_step is_alphanumeric delimiters recovery_set (x, l, depth)) (fun step =>
    match step with
    | inl (y, l', depth') =>
        skipping stop self y l' /\ depth' = excess delimiters depth0 (map token_kind l') /\ 0 <= depth' /\
        (remaining s (offset y) < remaining s (offset x))%nat
    | inr (y, l') => skips stop [] self l' y
    end).
Proof using All.
  intros Hne Hd0 stop depth Hself Hinv Hd. pose proof (mv_ok _ _ (proj1 Hinv)) as Hx. unfold balanced_step.
  eapply returns_bind; [by apply cursor_peek_ok|]. intros [u y] (Hm & Ho & _ & Hex & t & Ht & Hs). cbn [fst snd] in *.
  pose proof (skipping_peek _ _ _ _ _ Hinv Hm Ho Hex) as Hinv'. rewrite <- Ho in Ht.
  rewrite (same_token_kind _ _ Hs), (same_token_eof _ _ Hs). destruct (is_end_of_file t) eqn:Ee; cbn [orb].
  { apply returns_ret. eapply skipping_stop; [done|done|by rewrite Ee]. }
  assert ((bool_decide (token_kind t = delimiter_close delimiters) && (depth =? 0)
     || (depth =? 0) && RecoverySet_contains recovery_set (token_kind t)) = stop (map token_kind l) (token_kind t)) as ->.
  { unfold stop, balanced_stop. fold depth. by destruct (depth =? 0); rewrite ?andb_true_r, ?andb_false_r. }
  destruct (stop (map token_kind l) (token_kind t)) eqn:Est.
  { apply returns_ret. eapply skipping_stop; [done|done|by rewrite Ee]. }
  pose proof (mv_ok _ _ Hm) as Hy.
  destruct (consume_skipped_ok y t Hy Ht) as ([o z] & -> & Hm2 & Hex2 & Hr2). rewrite Ee in Hr2. cbn [outcome_bind fst snd] in *.
  destruct Hr2 as (-> & Ho2 & Hr2). destruct (skipping_take stop self y z l t) as [H1 H2]; [done..|].
  assert (remaining s (offset z) < remaining s (offset x))%nat as Hrem.
  { rewrite <- Ho. apply cursor_remaining; [done|apply Hm2|done]. }
  assert (depth <= 1 + U32_MAX) as Hbig.
  { destruct Hinv' as (_ & _ & _ & Hlen & _). pose proof (cursor_boundary _ Hy) as [Hb1 Hb2]%boundary_range.
    pose proof (cursor_boundary _ Hself) as [Hb3 _]%boundary_range. pose proof (wf_fits (s := s)).
    pose proof (occurrences_bounds (delimiter_open delimiters) (map token_kind l)).
    pose proof (occurrences_bounds (delimiter_close delimiters) (map token_kind l)).
    assert (zlen (map token_kind l) = zlen l) by (unfold zlen; by rewrite length_map). unfold depth, excess. lia. }
  assert (excess delimiters depth0 (map token_kind (l ++ [t])) =
    depth + (if bool_decide (token_kind t = delimiter_open delimiters) then 1 else 0)
          - (if bool_decide (token_kind t = delimiter_close delimiters) then 1 else 0)) as Hnext.
  { unfold depth, excess. rewrite map_app. cbn [map]. rewrite !occurrences_snoc. lia. }
  destruct (bool_decide (token_kind t = delimiter_open delimiters)) eqn:Eo.
  - rewrite bool_decide_eq_false_2 in Hnext by (apply bool_decide_eq_true in Eo; congruence).
    unfold usize_checked_add. rewrite checked_ok by (unfold USIZE_MAX, U32_MAX in *; lia). cbn [expect outcome_bind].
    apply returns_ret. split_and!; [done|lia|lia|done].
  - destruct (bool_decide (token_kind t = delimiter_close delimiters)) eqn:Ec; cbn [outcome_bind]; apply returns_ret.
    + assert (depth <> 0) as Hnz.
      { intros Hz. revert Est. unfold stop, balanced_stop. fold depth. by rewrite Hz, Ec. }
      split_and!; [done|lia|lia|done].
    + split_and!; [done|lia|lia|done].
Qed.

Lemma skip_balanced_ok delimiters recovery_set depth self :
  delimiter_open delimiters <> delimiter_close delimiters -> 0 <= depth <= 1 -> cursor_ok self ->
  returns (skip_until_balanced_close is_alphanumeric self delimiters recovery_set depth)
    (fun r => skips (balanced_stop delimiters recovery_set depth) [] self r.2 r.1).
Proof using All.
  intros Hne Hd Hok. unfold skip_until_balanced_close.
  apply (loop_rule (fun st => skipping (balanced_stop delimiters recovery_set depth) self st.1.1 st.1.2 /\
      st.2 = excess delimiters depth (map token_kind st.1.2) /\ 0 <= st.2) (fun st => remaining s (offset st.1.1)));
    [|split_and!; [by apply skipping_start| |cbn; lia]|by apply cursor_fuel_ok].
  - intros [[x l] d] (Hinv & Hd' & Hpos). cbn [fst snd] in *. subst d.
    eapply returns_mono; [by apply balanced_step_ok|]. intros [[[y l'] d']|[y l']]; [|done]. cbn [fst snd]. tauto.
  - cbn [fst snd map]. unfold excess, occurrences. cbn [List.filter]. rewrite zlen_nil. lia.
Qed.

(** The variants that skip the current token first, whatever it is. *)
Definition skips_current (stop : SyntaxToken -> list SyntaxKind -> SyntaxKind -> bool) (self : ParserCursor B)
    (l : list SyntaxToken) (self' : ParserCursor B) : Prop :=
  moved self self' /\ (exact self -> exact self') /\ Forall (reported s (lexical self')) l /\
  exists t, stream_scan (offset self) Normal = Ret t /\
    if is_end_of_file t then l = [] /\ offset self' = offset self
    else exists rest, l = t :: rest /\ run_until (stop t) [] (end_ (full_range t)) rest (offset self').

Lemma skips_current_intro stop self t o x l y :
  moved self x -> (exact self -> exact x) -> stream_scan (offset self) Normal = Ret t ->
  (if is_end_of_file t then o = None /\ offset x = offset self
   else o = Some t /\ offset x = end_ (full_range t) /\ reported s (lexical x) t) ->
  skips (stop t) [] x l y ->
  skips_current stop self (match o with Some u => [u] | None => [] end ++ l) y.
Proof using All.
  intros Hm Hex Ht Hone (Hm2 & Hex2 & Hr2 & Hrun). split_and!; [by eapply moved_trans|auto| |].
  - apply Forall_app. split; [|done]. destruct (is_end_of_file t); [by destruct Hone as [-> _]|].
    destruct Hone as (-> & _ & Hr). constructor; [|done]. by apply (mv_keeps _ _ Hm2).
  - exists t. split; [done|]. destruct (is_end_of_file t) eqn:He.
    + destruct Hone as [-> Ho]. rewrite Ho in Hrun. inversion Hrun as [seen a u Hu Hs|seen a u l' b Hu He' _ _]; subst; [done|].
      assert (u = t) as -> by congruence. congruence.
    + destruct Hone as (-> & Ho & _). exists l. by rewrite <- Ho.
Qed.

Lemma consume_skipped_into_ok self t :
  cursor_ok self -> stream_scan (offset self) Normal = Ret t ->
  returns (consume_skipped_token_into is_alphanumeric self []) (fun r =>
    moved self r.1 /\ (exact self -> exact r.1) /\ exists o, r.2 = match o with Some u => [u] | None => [] end /\
    if is_end_of_file t then o = None /\ offset r.1 = offset self
    else o = Some t /\ offset r.1 = end_ (full_range t) /\ reported s (lexical r.1) t).
Proof using All.
  intros Hok Ht. unfold consume_skipped_token_into. eapply returns_bind; [by apply consume_skipped_ok|].
  intros [o x] (Hm & Hex & Hone). cbn [fst snd] in *. destruct o as [u|]; apply returns_ret; cbn [fst snd];
    (split_and!; [done|done|]); [by exists (Some u)|by exists None].
Qed.

Lemma skip_current_ok self recovery_set :
  cursor_ok self ->
  returns (ParserCursor_skip_current_and_until is_alphanumeric self recovery_set)
    (fun r => skips_current (fun _ => recovery_stop recovery_set) self r.2 r.1).
Proof using All.
  intros Hok. destruct (stream_scan_ok (B := B) is_alphanumeric s _ Normal (cursor_boundary _ Hok)) as (t & _ & Ht & _).
  unfold ParserCursor_skip_current_and_until. eapply returns_bind; [by apply consume_skipped_into_ok|].
  intros [x l] (Hm & Hex & o & -> & Hone). cbn [fst snd] in *. eapply returns_bind; [apply skip_until_ok, Hm|].
  intros [y rest] Hrest. apply returns_ret. cbn [fst snd] in *.
  by apply (skips_current_intro (fun _ => recovery_stop recovery_set) self t o x rest y).
Qed.

Lemma skip_current_balanced_ok self recovery_set :
  cursor_ok self ->
  returns (ParserCursor_skip_current_and_until_balanced_close_brace_or_recovery is_alphanumeric self recovery_set)
    (fun r => skips_current (fun t => balanced_stop brace_pair recovery_set
                (if bool_decide (token_kind t = OpenBraceToken) then 1 else 0)) self r.2 r.1).
Proof using All.
  intros Hok. destruct (stream_scan_ok (B := B) is_alphanumeric s _ Normal (cursor_boundary _ Hok)) as (t & _ & Ht & _).
  unfold ParserCursor_skip_current_and_until_balanced_close_brace_or_recovery.
  eapply returns_bind; [by apply consume_skipped_ok|]. intros [o x] (Hm & Hex & Hone). cbn [fst snd] in *.
  set (depth := if bool_decide (token_kind t = OpenBraceToken) then 1 else 0).
  assert (0 <= depth <= 1) as Hdepth by (unfold depth; destruct (bool_decide _); lia).
  assert (match o with
          | Some u => ([u], if bool_decide (token_kind u = delimiter_open brace_pair) then 1 else 0)
          | None => ([], 0)
          end = (match o with Some u => [u] | None => [] end, depth)) as ->.
  { unfold depth. destruct (is_end_of_file t) eqn:He; [|by destruct Hone as (-> & _)]. destruct Hone as [-> _].
    rewrite bool_decide_eq_false_2; [done|]. intros Hk. revert He. unfold is_end_of_file. by rewrite Hk. }
  eapply returns_bind; [apply (skip_balanced_ok brace_pair); [done|done|apply Hm]|].
  intros [y rest] Hrest. apply returns_ret. cbn [fst snd] in *.
  by apply (skips_current_intro (fun t => balanced_stop brace_pair recovery_set
    (if bool_decide (token_kind t = OpenBraceToken) then 1 else 0)) self t o x rest y).
Qed.

Lemma skip_one_ok self t :
  cursor_ok self -> stream_scan (offset self) Normal = Ret t ->
  returns (ParserCursor_skip_one is_alphanumeric self) (fun r =>
    moved self r.2 /\ (exact self -> exact r.2) /\
    if is_end_of_file t then r.1 = None /\ offset r.2 = offset self
    else r.1 = Some t /\ offset r.2 = end_ (full_range t) /\ reported s (lexical r.2) t).
Proof using All.
  intros Hok Ht. unfold ParserCursor_skip_one. eapply returns_bind; [by apply consume_skipped_into_ok|].
  intros [x l] (Hm & Hex & o & -> & Hone). apply returns_ret. cbn [fst snd] in *. split_and!; [done|done|].
  destruct (is_end_of_file t); [by destruct Hone as (-> & ?)|by destruct Hone as (-> & ?)].
Qed.

(** ** Expected tokens *)

Lemma same_token_range t t' : same_token t t' -> token_range t = token_range t'.
Proof using.
  intros [H _]. apply (f_equal token_range) in H. unfold forget_eof_trivia in H. by destruct (is_eof t), (is_eof t').
Qed.

Lemma missing_diagnostic_same kind t t' :
  same_token t t' -> missing_token_diagnostic s kind t = missing_token_diagnostic s kind t'.
Proof using.
  intros H. unfold missing_token_diagnostic, unexpected_eof, expected_token, expected_token_at, token_text_arg, SyntaxToken_text, token_start.
  by rewrite (same_token_eof _ _ H), (same_token_range _ _ H), (same_token_kind _ _ H).
Qed.

(** A missing token is reported at the place where it was expected. *)
Record inserts (kind : SyntaxKind) (t : SyntaxToken) (self : ParserCursor B) (missing : SyntaxToken) (self' : ParserCursor B) : Prop := {
  in_ok : cursor_ok self';
  in_offset : offset self' = offset self;
  in_exact : exact self -> exact self';
  in_keeps : keeps s (lexical self) (lexical self');
  in_token : missing = {| token_kind := kind; token_range := TextRange_empty (token_start t); presence := Missing;
                          leading_trivia := []; trailing_trivia := [] |};
  in_syntax : syntactic self' = nub (syntactic self ++ [missing_token_diagnostic s kind t]);
}.

Lemma record_diagnostic_ok self d :
  cursor_ok self ->
  let self' := record_syntax_diagnostic self d in
  cursor_ok self' /\ token_source self' = token_source self /\ syntactic self' = nub (syntactic self ++ [d]).
Proof using All.
  intros [H1 H2 H3]. destruct (sink_single_spec d) as [Hd Hcd].
  destruct (sink_merged_spec _ _ H3 Hd) as [Hm Hc]. cbv zeta. split_and!; [by constructor|done|].
  unfold syntactic. cbn [record_syntax_diagnostic syntax_diagnostics]. by rewrite Hc, Hcd.
Qed.

Lemma expect_ok self kind t :
  cursor_ok self -> is_token kind = true -> stream_scan (offset self) Normal = Ret t ->
  returns (ParserCursor_expect is_alphanumeric self kind) (fun r =>
    if bool_decide (token_kind t = kind) then takes Normal self r.1 r.2 else inserts kind t self r.1 r.2).
Proof using All.
  intros Hok Hk Ht. unfold ParserCursor_expect. eapply returns_bind; [by apply cursor_peek_ok|].
  intros [u x] (Hm & Ho & _ & Hex & t' & Ht' & Hs). cbn [fst snd] in *. assert (t' = t) as -> by congruence.
  rewrite (same_token_kind _ _ Hs). pose proof (mv_ok _ _ Hm) as Hx. destruct (bool_decide (token_kind t = kind)).
  - eapply returns_mono; [by apply cursor_consume_ok|]. intros [v y] (Hm2 & Hr2 & t2 & Ht2 & Hs2 & Ho2 & Hex2). cbn [fst snd] in *.
    split_and!; [by eapply moved_trans|done|]. exists t2. rewrite <- Ho. split_and!; [done..|]. auto.
  - unfold SyntaxToken_missing, with_trivia_and_presence. rewrite Hk. cbn [assert_ outcome_bind].
    cbn [presence_is_present orb]. unfold TextRange_is_empty, TextRange_empty. cbn [start end_]. rewrite Z.eqb_refl. cbn [andb is_nil assert_ outcome_bind].
    apply returns_ret. cbn [fst snd].
    rewrite (lo_snapshot _ _ _ (co_source _ Hx)). fold (missing_token_diagnostic s kind u).
    rewrite (missing_diagnostic_same kind _ _ Hs).
    destruct (record_diagnostic_ok x (missing_token_diagnostic s kind t) Hx) as (R1 & R2 & R3).
    constructor; unfold offset, exact, lexical in *; rewrite ?R2; try done; [apply Hm| |].
    + f_equal. unfold TextRange_empty, token_start. by rewrite (same_token_range _ _ Hs).
    + rewrite R3. unfold syntactic. by rewrite (mv_syntax _ _ Hm).
Qed.

Lemma cursor_new_ok : cursor_ok (ParserCursor_new (LexerTokenSource_new s)).
Proof using All.
  constructor; [apply with_cache_policy_ok; done|done|]. apply sink_new_spec.
Qed.

Lemma cursor_new_exact : exact (ParserCursor_new (LexerTokenSource_new s)).
Proof using. by intros i t Hi. Qed.
End calls.

(** C25. Skipping is exact and always ends.  From any state of a cursor,
    [skip_until] returns the tokens of the stream up to the first recovery token
    or the end of file, and leaves that one to be read; the balanced variant
    stops only where no brace opened since is still open, at a closing brace, a
    recovery token or the end of file; the variants that skip the current token
    first take it whatever it is, unless it is the end of file.  No panic can
    occur, every skipped invalid token is reported, and no syntax diagnostic is
    added. *)
Theorem cursor_skips_exact {B} `{!DiagnosticSink B, !DiagnosticSinkLaws B} is_alphanumeric s `{!WfSnapshot s} (self : ParserCursor B) recovery_set :
  cursor_ok is_alphanumeric s self ->
  returns (ParserCursor_skip_until is_alphanumeric self recovery_set)
    (fun r => skips is_alphanumeric s (recovery_stop recovery_set) [] self r.2 r.1) /\
  returns (ParserCursor_skip_until_balanced_close_brace_or_recovery is_alphanumeric self recovery_set)
    (fun r => skips is_alphanumeric s (balanced_stop brace_pair recovery_set 0) [] self r.2 r.1) /\
  returns (ParserCursor_skip_current_and_until is_alphanumeric self recovery_set)
    (fun r => skips_current is_alphanumeric s (fun _ => recovery_stop recovery_set) self r.2 r.1) /\
  returns (ParserCursor_skip_current_and_until_balanced_close_brace_or_recovery is_alphanumeric self recovery_set)
    (fun r => skips_current is_alphanumeric s (fun t => balanced_stop brace_pair recovery_set
                (if bool_decide (token_kind t = OpenBraceToken) then 1 else 0)) self r.2 r.1).
Proof.
  intros Hok. split_and!; [by apply skip_until_ok| |by apply skip_current_ok|by apply skip_current_balanced_ok].
  by apply skip_balanced_ok.
Qed.

(** Expecting a token takes it when it is the next one.  Otherwise nothing is
    consumed: the result is a missing token of the expected kind where the next
    token starts, and exactly one error is recorded there, of unexpected end of
    file or of an expected token, with the insertion of the fixed spelling as a
    suggestion when the kind has one. *)
Theorem cursor_expect_exact {B} `{!DiagnosticSink B, !DiagnosticSinkLaws B} is_alphanumeric s `{!WfSnapshot s} (self : ParserCursor B) kind :
  cursor_ok is_alphanumeric s self -> is_token kind = true ->
  exists t, stream_scan (B := B) is_alphanumeric s (offset self) Normal = Ret t /\
  returns (ParserCursor_expect is_alphanumeric self kind) (fun r =>
    if bool_decide (token_kind t = kind) then takes is_alphanumeric s Normal self r.1 r.2
    else inserts is_alphanumeric s kind t self r.1 r.2) /\
  error_at s (TextRange_empty (token_start t)) (missing_token_diagnostic s kind t) /\
  d_suggestions (missing_token_diagnostic s kind t) =
    match fixed_text kind with
    | Some replacement =>
        [{| suggestion_kind := InsertExpectedSyntax; applicability := MaybeApplicable;
            edits := [{| source_edit_span := SourceSpan_empty (source_id s) (token_start t); source_edit_replacement := replacement |}];
            suggestion_args := [expected_syntax_kind kind] |}]
    | None => []
    end.
Proof.
  intros Hok Hk.
  destruct (stream_scan_ok (B := B) is_alphanumeric s _ Normal (cursor_boundary is_alphanumeric s _ Hok)) as (t & _ & Ht & _).
  exists t. split_and!; [done|by apply expect_ok|apply missing_token_error|].
  unfold missing_token_diagnostic, unexpected_eof, expected_token, with_insertion, insertion_suggestion, expected_token_at, with_optional_arg.
  destruct (is_end_of_file t), (fixed_text kind), (token_text_arg s t); done.
Qed.

Definition skip_sample : SourceSnapshot := unit_snapshot (lit "a { ; } b } c").

Definition skip_cursor : ParserCursor Bag := ParserCursor_new (LexerTokenSource_new skip_sample).

(** A semicolon inside braces does not stop the balanced skip. *)
Example skip_sample_kinds :
  (let! r := ParserCursor_skip_until_balanced_close_brace_or_recovery ascii_table skip_cursor (RecoverySet_new [SemicolonToken]) in
   Ret (map token_kind r.2)) =
  Ret [IdentifierToken; OpenBraceToken; SemicolonToken; CloseBraceToken; IdentifierToken] /\
  (let! r := ParserCursor_skip_until ascii_table skip_cursor (RecoverySet_new [SemicolonToken]) in Ret (map token_kind r.2)) =
  Ret [IdentifierToken; OpenBraceToken].
Proof. by vm_compute. Qed.

Lemma cursor_skips_exact_witness :
  returns (ParserCursor_skip_until ascii_table skip_cursor (RecoverySet_new [SemicolonToken])) (fun r =>
    run_until (B := Bag) ascii_table skip_sample (recovery_stop (RecoverySet_new [SemicolonToken])) [] 0 r.2 (offset r.1)).
Proof.
  assert (WfSnapshot skip_sample) as Hwf by by apply ascii_snapshot_wf.
  destruct (cursor_skips_exact (B := Bag) ascii_table skip_sample skip_cursor (RecoverySet_new [SemicolonToken])) as [H _];
    [by apply cursor_new_ok|].
  eapply returns_mono; [exact H|]. by intros r (_ & _ & _ & Hr).
Defined.

