(* ===== verification/ParserState.v ===== *)
(** * The parser's state, and what any parser does with it

    [bray-parser/src/parser/state.rs]: the parser around a cursor, with
    speculative scans on a fork and the nesting limit; and
    [parser/delimiter.rs]: the depth of open delimiters.

    The grammar is written against these calls.  A parser is therefore any
    program over them ([client]), which chooses each call by the results of the
    earlier ones, scans ahead and nests; the theorem at the end holds for all. *)

From Stdlib Require Import ZArith Lia String.
From stdpp Require Import base list numbers option.
From S2P Require Import Prelude Utf8 SourceText Snapshot SyntaxKind SyntaxToken.
From S2P Require Import DiagnosticKind Diagnostic DiagnosticBag LexText LexTrivia LexLiteral LexScanner TokenSource.
From S2P Require Import GreenTree ParserDiagnostic ParserCursor.

(** ** state.rs *)

Definition MAX_SYNTAX_NESTING_DEPTH : usize := 128.

Section parser.
Context {B : Type} `{!DiagnosticSink B}.
Context (is_alphanumeric : char -> bool).

Record Parser := {
  parser_snapshot : SourceSnapshot;
  parser_cursor : ParserCursor B;
  syntax_nesting_depth : usize;
  syntax_nesting_limit_reported : bool;
}.

Definition Parser_new (snapshot : SourceSnapshot) : Parser :=
  {| parser_snapshot := snapshot; parser_cursor := ParserCursor_new (LexerTokenSource_new snapshot);
     syntax_nesting_depth := 0; syntax_nesting_limit_reported := false |}.

Definition Parser_finish (self : Parser) : B := ParserCursor_finish (parser_cursor self).

Definition with_cursor (self : Parser) (cursor : ParserCursor B) : Parser :=
  {| parser_snapshot := parser_snapshot self; parser_cursor := cursor;
     syntax_nesting_depth := syntax_nesting_depth self;
     syntax_nesting_limit_reported := syntax_nesting_limit_reported self |}.

Definition with_nesting (self : Parser) (depth : usize) (reported : bool) : Parser :=
  {| parser_snapshot := parser_snapshot self; parser_cursor := parser_cursor self;
     syntax_nesting_depth := depth; syntax_nesting_limit_reported := reported |}.

(** A call of the cursor that returns a value. *)
Definition on_cursor {A} (self : Parser) (call : ParserCursor B -> outcome (A * ParserCursor B)) : outcome (A * Parser) :=
  let! r := call (parser_cursor self) in Ret (r.1, with_cursor self r.2).

(** The skips return the cursor first. *)
Definition on_cursor_skip (self : Parser) (call : ParserCursor B -> outcome (ParserCursor B * list SyntaxToken))
    : outcome (list SyntaxToken * Parser) :=
  let! r := call (parser_cursor self) in Ret (r.2, with_cursor self r.1).

Definition fork_from_checkpoint (self : Parser) (checkpoint : ParserCursorCheckpoint B) : Parser :=
  {| parser_snapshot := parser_snapshot self; parser_cursor := ParserCursorCheckpoint_fork checkpoint;
     syntax_nesting_depth := syntax_nesting_depth self;
     syntax_nesting_limit_reported := syntax_nesting_limit_reported self |}.

Definition scan_ahead (self : Parser) (scan : Parser -> outcome (bool * Parser)) : outcome (bool * Parser) :=
  let checkpoint := ParserCursor_checkpoint (parser_cursor self) in
  let fork := fork_from_checkpoint self checkpoint in
  let! r := scan fork in
  Ret (r.1, with_cursor self (absorb_lexical_diagnostics_from (parser_cursor self) (parser_cursor r.2))).

Definition Parser_record_syntax_diagnostic (self : Parser) (d : Diagnostic) : Parser :=
  with_cursor self (record_syntax_diagnostic (parser_cursor self) d).

Definition syntax_source (self : Parser) : SourceSnapshot := parser_snapshot self.

Definition Parser_lookahead (self : Parser) (distance : nat) : outcome (SyntaxToken * Parser) :=
  on_cursor self (fun cursor => ParserCursor_lookahead is_alphanumeric cursor distance).

Definition Parser_peek (self : Parser) : outcome (SyntaxToken * Parser) := Parser_lookahead self 0.

Definition try_enter_syntax_nesting (self : Parser) : outcome (bool * Parser) :=
  if MAX_SYNTAX_NESTING_DEPTH <=? syntax_nesting_depth self
  then
    if negb (syntax_nesting_limit_reported self)
    then
      let! r := Parser_peek self in
      let (actual, self) := r in
      let self := Parser_record_syntax_diagnostic self
                    (nesting_limit_exceeded (syntax_source self) actual MAX_SYNTAX_NESTING_DEPTH) in
      Ret (false, with_nesting self (syntax_nesting_depth self) true)
    else Ret (false, self)
  else
    let! depth := expect (usize_checked_add (syntax_nesting_depth self) 1) in
    Ret (true, with_nesting self depth (syntax_nesting_limit_reported self)).

Definition leave_syntax_nesting (self : Parser) : outcome Parser :=
  let! depth := expect (usize_checked_sub (syntax_nesting_depth self) 1) in
  Ret (with_nesting self depth (if depth =? 0 then false else syntax_nesting_limit_reported self)).

Definition Parser_at (self : Parser) (kind : SyntaxKind) : outcome (bool * Parser) :=
  let! r := Parser_peek self in Ret (bool_decide (token_kind r.1 = kind), r.2).

Definition at_any (self : Parser) (kinds : list SyntaxKind) : outcome (bool * Parser) :=
  let! r := Parser_peek self in Ret (kinds_contain kinds (token_kind r.1), r.2).

Definition Parser_consume_if (self : Parser) (kind : SyntaxKind) : outcome (option SyntaxToken * Parser) :=
  on_cursor self (fun cursor => ParserCursor_consume_if is_alphanumeric cursor kind).

Definition Parser_consume (self : Parser) : outcome (SyntaxToken * Parser) :=
  on_cursor self (ParserCursor_consume is_alphanumeric).

Definition Parser_consume_tuple_element_index_after_dot (self : Parser) : outcome (SyntaxToken * Parser) :=
  on_cursor self (ParserCursor_consume_tuple_element_index_after_dot is_alphanumeric).

Definition Parser_at_generic_close (self : Parser) : outcome bool := ParserCursor_at_generic_close (parser_cursor self).

Definition Parser_consume_type_punctuation (self : Parser) : outcome (SyntaxToken * Parser) :=
  on_cursor self (ParserCursor_consume_type_punctuation is_alphanumeric).

Definition Parser_expect (self : Parser) (kind : SyntaxKind) : outcome (SyntaxToken * Parser) :=
  on_cursor self (fun cursor => ParserCursor_expect is_alphanumeric cursor kind).

Definition expect_generic_close (self : Parser) : outcome (SyntaxToken * Parser) :=
  let! close := Parser_at_generic_close self in
  if close then Parser_consume_type_punctuation self else Parser_expect self GreaterToken.

Definition Parser_token_text (self : Parser) (token : SyntaxToken) : option str :=
  SyntaxToken_text token (text (parser_snapshot self)).

Definition Parser_skip_until (self : Parser) (recovery_set : RecoverySet) : outcome (list SyntaxToken * Parser) :=
  on_cursor_skip self (fun cursor => ParserCursor_skip_until is_alphanumeric cursor recovery_set).

Definition Parser_skip_current_and_until (self : Parser) (recovery_set : RecoverySet) : outcome (list SyntaxToken * Parser) :=
  on_cursor_skip self (fun cursor => ParserCursor_skip_current_and_until is_alphanumeric cursor recovery_set).

Definition Parser_skip_one (self : Parser) : outcome (option SyntaxToken * Parser) :=
  on_cursor self (ParserCursor_skip_one is_alphanumeric).

Definition Parser_skip_until_balanced_close_brace_or_recovery (self : Parser) (recovery_set : RecoverySet)
    : outcome (list SyntaxToken * Parser) :=
  on_cursor_skip self (fun cursor =>
    ParserCursor_skip_until_balanced_close_brace_or_recovery is_alphanumeric cursor recovery_set).

Definition Parser_skip_current_and_until_balanced_close_brace_or_recovery (self : Parser) (recovery_set : RecoverySet)
    : outcome (list SyntaxToken * Parser) :=
  on_cursor_skip self (fun cursor =>
    ParserCursor_skip_current_and_until_balanced_close_brace_or_recovery is_alphanumeric cursor recovery_set).
End parser.

Arguments Parser : clear implicits.

(** ** delimiter.rs

    An increment is checked: past [usize] it would panic. *)

Record DelimiterDepth := { paren_depth : usize; bracket_depth : usize; brace_depth : usize; angle_depth : usize }.

Definition DelimiterDepth_default : DelimiterDepth :=
  {| paren_depth := 0; bracket_depth := 0; brace_depth := 0; angle_depth := 0 |}.

Definition is_at_root (self : DelimiterDepth) : bool :=
  (paren_depth self =? 0) && (bracket_depth self =? 0) && (brace_depth self =? 0) && (angle_depth self =? 0).

Definition saturating_pred (depth : usize) : usize := Z.max 0 (depth - 1).

Definition observe_grouping (self : DelimiterDepth) (kind : SyntaxKind) : outcome DelimiterDepth :=
  let set p k b := {| paren_depth := p; bracket_depth := k; brace_depth := b; angle_depth := angle_depth self |} in
  let p := paren_depth self in let k := bracket_depth self in let b := brace_depth self in
  match kind with
  | OpenParenToken => let! p := expect (usize_checked_add p 1) in Ret (set p k b)
  | CloseParenToken => Ret (set (saturating_pred p) k b)
  | OpenBracketToken => let! k := expect (usize_checked_add k 1) in Ret (set p k b)
  | CloseBracketToken => Ret (set p (saturating_pred k) b)
  | OpenBraceToken => let! b := expect (usize_checked_add b 1) in Ret (set p k b)
  | CloseBraceToken => Ret (set p k (saturating_pred b))
  | _ => Ret self
  end.

Definition observe_grouping_or_angle (self : DelimiterDepth) (kind : SyntaxKind) : outcome DelimiterDepth :=
  let set a := {| paren_depth := paren_depth self; bracket_depth := bracket_depth self; brace_depth := brace_depth self;
                  angle_depth := a |} in
  match kind with
  | LessToken => let! a := expect (usize_checked_add (angle_depth self) 1) in Ret (set a)
  | GreaterToken => Ret (set (saturating_pred (angle_depth self)))
  | _ => observe_grouping self kind
  end.

Fixpoint observe_all (self : DelimiterDepth) (kinds : list SyntaxKind) : outcome DelimiterDepth :=
  match kinds with
  | [] => Ret self
  | kind :: kinds => let! self := observe_grouping_or_angle self kind in observe_all self kinds
  end.

Definition delimiter_pairs : list (SyntaxKind * SyntaxKind) :=
  [(OpenParenToken, CloseParenToken); (OpenBracketToken, CloseBracketToken); (OpenBraceToken, CloseBraceToken); (LessToken, GreaterToken)].

(** Properly nested delimiters, of the four kinds mixed. *)
Inductive grouped : list SyntaxKind -> Prop :=
| grouped_nil : grouped []
| grouped_other kind l :
    (forall pair, In pair delimiter_pairs -> kind <> pair.1 /\ kind <> pair.2) -> grouped l -> grouped (kind :: l)
| grouped_pair pair l1 l2 : In pair delimiter_pairs -> grouped l1 -> grouped l2 -> grouped (pair.1 :: l1 ++ pair.2 :: l2).

(** Room for [n] more opening delimiters of every kind. *)
Definition depth_room (d : DelimiterDepth) (n : Z) : Prop :=
  (0 <= paren_depth d <= USIZE_MAX - n) /\ (0 <= bracket_depth d <= USIZE_MAX - n) /\
  (0 <= brace_depth d <= USIZE_MAX - n) /\ (0 <= angle_depth d <= USIZE_MAX - n).

Lemma observe_pair d pair n :
  In pair delimiter_pairs -> 0 <= n -> depth_room d (1 + n) ->
  exists d', observe_grouping_or_angle d pair.1 = Ret d' /\ depth_room d' n /\ observe_grouping_or_angle d' pair.2 = Ret d.
Proof.
  intros Hin Hn (H1 & H2 & H3 & H4). destruct d as [p k b a].
  cbn [paren_depth bracket_depth brace_depth angle_depth] in *.
  simpl in Hin. destruct Hin as [<-|[<-|[<-|[<-|[]]]]]; cbn [fst snd observe_grouping_or_angle observe_grouping];
    cbn [paren_depth bracket_depth brace_depth angle_depth]; unfold usize_checked_add;
    rewrite checked_ok by lia; cbn [expect outcome_bind]; eexists; (split; [reflexivity|]);
    (split; [unfold depth_room; cbn [paren_depth bracket_depth brace_depth angle_depth]; lia|]);
    cbn [paren_depth bracket_depth brace_depth angle_depth]; unfold saturating_pred; do 2 f_equal; lia.
Qed.

Lemma observe_other d kind :
  (forall pair, In pair delimiter_pairs -> kind <> pair.1 /\ kind <> pair.2) -> observe_grouping_or_angle d kind = Ret d.
Proof.
  intros H. pose proof (H (OpenParenToken, CloseParenToken)) as H1. pose proof (H (OpenBracketToken, CloseBracketToken)) as H2.
  pose proof (H (OpenBraceToken, CloseBraceToken)) as H3. pose proof (H (LessToken, GreaterToken)) as H4.
  cbn in H1, H2, H3, H4. destruct kind; done || (exfalso; naive_solver).
Qed.

Lemma observe_all_app d l1 l2 : observe_all d (l1 ++ l2) = let! d := observe_all d l1 in observe_all d l2.
Proof. revert d. induction l1 as [|k l1 IH]; intros d; [done|]. simpl. destruct (observe_grouping_or_angle d k); simpl; [apply IH|done|done]. Qed.

(** Over properly nested tokens the depth comes back to where it was, so that
    a scan sees the root again exactly behind them. *)
Lemma observe_grouped l : grouped l -> forall d, depth_room d (zlen l) -> observe_all d l = Ret d.
Proof.
  induction 1 as [|kind l Hk _ IH|pair l1 l2 Hin _ IH1 _ IH2]; intros d Hroom; [done| |].
  - simpl. rewrite observe_other by done. cbn [outcome_bind]. apply IH. unfold depth_room in *. rewrite zlen_cons in Hroom. lia.
  - pose proof (zlen_nonneg l1). pose proof (zlen_nonneg l2). rewrite zlen_cons, zlen_app, zlen_cons in Hroom.
    destruct (observe_pair d pair (zlen l1 + zlen l2)) as (d' & E1 & Hr & E2); [done|lia|unfold depth_room in *; lia|].
    simpl. rewrite E1. cbn [outcome_bind]. rewrite observe_all_app, IH1 by (unfold depth_room in *; lia). cbn [outcome_bind observe_all].
    rewrite E2. cbn [outcome_bind]. apply IH2. unfold depth_room in *. lia.
Qed.

(** ** Programs over the parser

    The results of calls; [OutSeen] is a token that was only looked at. *)

Inductive parser_output :=
| OutSeen (t : SyntaxToken)
| OutFlag (b : bool)
| OutTaken (t : SyntaxToken)
| OutOptional (o : option SyntaxToken)
| OutSkipped (l : list SyntaxToken)
| OutDone.

Inductive parser_call :=
| CallLookahead (distance : nat)
| CallAt (kind : SyntaxKind)
| CallAtAny (kinds : list SyntaxKind)
| CallConsumeIf (kind : SyntaxKind)
| CallConsume
| CallConsumeTupleElementIndexAfterDot
| CallAtGenericClose
| CallConsumeTypePunctuation
| CallExpectGenericClose
| CallExpect (kind : SyntaxKind)
| CallSkipUntil (recovery_set : RecoverySet)
| CallSkipCurrentAndUntil (recovery_set : RecoverySet)
| CallSkipOne
| CallSkipUntilBalanced (recovery_set : RecoverySet)
| CallSkipCurrentAndUntilBalanced (recovery_set : RecoverySet)
| CallRecord (d : Diagnostic).

(** A parser: it ends with a decision, makes a call and goes on with its result,
    scans ahead on a fork, or runs a part inside one more level of nesting, if
    the limit admits it. *)
Inductive client :=
| Finish (decision : bool)
| Call (call : parser_call) (next : parser_output -> client)
| ScanAhead (scan : client) (next : bool -> client)
| Nested (body : client) (next : option bool -> client).

(** Only tokens can be expected. *)
Definition call_ok (call : parser_call) : Prop :=
  match call with CallExpect kind => is_token kind = true | _ => True end.

Fixpoint client_ok (c : client) : Prop :=
  match c with
  | Finish _ => True
  | Call call next => call_ok call /\ forall o, client_ok (next o)
  | ScanAhead scan next => client_ok scan /\ forall b, client_ok (next b)
  | Nested body next => client_ok body /\ forall b, client_ok (next b)
  end.

Definition output_tokens (o : parser_output) : list SyntaxToken :=
  match o with
  | OutTaken t => [t]
  | OutOptional (Some t) => [t]
  | OutSkipped l => l
  | _ => []
  end.

Section client.
Context {B : Type} `{!DiagnosticSink B}.
Context (is_alphanumeric : char -> bool).

Definition run_call (self : Parser B) (call : parser_call) : outcome (parser_output * Parser B) :=
  match call with
  | CallLookahead n => let! r := Parser_lookahead is_alphanumeric self n in Ret (OutSeen r.1, r.2)
  | CallAt kind => let! r := Parser_at is_alphanumeric self kind in Ret (OutFlag r.1, r.2)
  | CallAtAny kinds => let! r := at_any is_alphanumeric self kinds in Ret (OutFlag r.1, r.2)
  | CallConsumeIf kind => let! r := Parser_consume_if is_alphanumeric self kind in Ret (OutOptional r.1, r.2)
  | CallConsume => let! r := Parser_consume is_alphanumeric self in Ret (OutTaken r.1, r.2)
  | CallConsumeTupleElementIndexAfterDot =>
      let! r := Parser_consume_tuple_element_index_after_dot is_alphanumeric self in Ret (OutTaken r.1, r.2)
  | CallAtGenericClose => let! b := Parser_at_generic_close self in Ret (OutFlag b, self)
  | CallConsumeTypePunctuation =>
      let! r := Parser_consume_type_punctuation is_alphanumeric self in Ret (OutTaken r.1, r.2)
  | CallExpectGenericClose => let! r := expect_generic_close is_alphanumeric self in Ret (OutTaken r.1, r.2)
  | CallExpect kind => let! r := Parser_expect is_alphanumeric self kind in Ret (OutTaken r.1, r.2)
  | CallSkipUntil recovery_set => let! r := Parser_skip_until is_alphanumeric self recovery_set in Ret (OutSkipped r.1, r.2)
  | CallSkipCurrentAndUntil recovery_set =>
      let! r := Parser_skip_current_and_until is_alphanumeric self recovery_set in Ret (OutSkipped r.1, r.2)
  | CallSkipOne => let! r := Parser_skip_one is_alphanumeric self in Ret (OutOptional r.1, r.2)
  | CallSkipUntilBalanced recovery_set =>
      let! r := Parser_skip_until_balanced_close_brace_or_recovery is_alphanumeric self recovery_set in
      Ret (OutSkipped r.1, r.2)
  | CallSkipCurrentAndUntilBalanced recovery_set =>
      let! r := Parser_skip_current_and_until_balanced_close_brace_or_recovery is_alphanumeric self recovery_set in
      Ret (OutSkipped r.1, r.2)
  | CallRecord d => Ret (OutDone, Parser_record_syntax_diagnostic self d)
  end.

(** The decision, the parser, and the tokens that were taken, in order; those a
    fork takes are not taken. *)
Fixpoint run_client (c : client) (self : Parser B) (taken : list SyntaxToken)
    : outcome (bool * Parser B * list SyntaxToken) :=
  match c with
  | Finish decision => Ret (decision, self, taken)
  | Call call next =>
      let! r := run_call self call in
      run_client (next r.1) r.2 (taken ++ output_tokens r.1)
  | ScanAhead scan next =>
      let! r := scan_ahead self (fun fork => let! x := run_client scan fork [] in Ret x.1) in
      run_client (next r.1) r.2 taken
  | Nested body next =>
      let! entered := try_enter_syntax_nesting is_alphanumeric self in
      if entered.1
      then
        let! r := run_client body entered.2 taken in
        let! self := leave_syntax_nesting r.1.2 in
        run_client (next (Some r.1.1)) self r.2
      else run_client (next None) entered.2 taken
  end.
End client.

(** ** Tokens that stand for a text

    Present tokens cover the text from [a] to [b]; missing ones stand between
    them and have no width, wherever they say they are. *)

Record missing_token (t : SyntaxToken) : Prop := {
  ms_presence : presence t = Missing;
  ms_kind : is_token (token_kind t) = true;
  ms_width : token_start t = token_end t;
  ms_leading : leading_trivia t = [];
  ms_trailing : trailing_trivia t = [];
}.

Inductive parsed (text : str) : Z -> list SyntaxToken -> Z -> Prop :=
| parsed_nil a : boundary text a -> parsed text a [] a
| parsed_present a t b l c : token_tile text a t b -> parsed text b l c -> parsed text a (t :: l) c
| parsed_missing a t l c : missing_token t -> parsed text a l c -> parsed text a (t :: l) c.

(** The end of file was taken and something present after it. *)
Definition present_eof (t : SyntaxToken) : bool := is_present t && is_end_of_file t.

Fixpoint past_end (l : list SyntaxToken) : bool :=
  match l with
  | [] => false
  | t :: l => (present_eof t && existsb is_present l) || past_end l
  end.

Lemma parsed_boundaries text a l b : parsed text a l b -> boundary text a /\ boundary text b /\ a <= b.
Proof.
  induction 1 as [a Ha|a t b l c Ht H (IH1 & IH2 & IH3)|a t l c Ht H IH]; [split_and!; done || lia| |done].
  apply token_tile_boundaries in Ht as (? & ? & ? & ?). split_and!; [done|done|lia].
Qed.

Lemma parsed_app text a l1 b l2 c : parsed text a l1 b -> parsed text b l2 c -> parsed text a (l1 ++ l2) c.
Proof.
  induction 1; simpl; intros Hr; [done|eapply parsed_present; [done|auto]|apply parsed_missing; auto].
Qed.

Lemma parsed_all_missing text a l b : existsb is_present l = false -> parsed text a l b -> a = b.
Proof.
  intros Hp H. induction H as [a Ha|a t b l c Ht H IH|a t l c Ht H IH]; [done| |]; simpl in Hp; apply orb_false_iff in Hp as [Hp Hl].
  - unfold is_present in Hp. by rewrite (tile_presence _ _ _ _ Ht) in Hp.
  - by apply IH.
Qed.

Lemma past_end_app_l l1 l2 : past_end l1 = true -> past_end (l1 ++ l2) = true.
Proof.
  induction l1 as [|t l1 IH]; simpl; [done|]. intros [H|H]%orb_true_iff; apply orb_true_iff; [left|by right; apply IH].
  apply andb_true_iff in H as [-> H]. rewrite existsb_app, H. done.
Qed.

Lemma past_end_app_r l1 l2 : past_end l2 = true -> past_end (l1 ++ l2) = true.
Proof. intros H. induction l1 as [|t l1 IH]; simpl; [done|]. by rewrite IH, orb_true_r. Qed.

Lemma past_end_app l1 l2 : existsb present_eof l1 = true -> existsb is_present l2 = true -> past_end (l1 ++ l2) = true.
Proof.
  intros H1 H2. induction l1 as [|t l1 IH]; simpl in *; [done|]. apply orb_true_iff in H1 as [->|H1].
  - by rewrite existsb_app, H2, orb_true_r.
  - by rewrite IH, orb_true_r.
Qed.

(** ** What a call adds *)

Section session.
Context {B : Type} `{!DiagnosticSink B, !DiagnosticSinkLaws B}.
Context (is_alphanumeric : char -> bool).
Context (s : SourceSnapshot) `{!WfSnapshot s}.

Abbreviation cursor_ok := (cursor_ok (B := B) is_alphanumeric s).
Abbreviation exact := (exact (B := B) is_alphanumeric s).
Abbreviation moved := (moved (B := B) is_alphanumeric s).
Abbreviation takes := (takes (B := B) is_alphanumeric s).

Definition present_reported (l : list Diagnostic) (t : SyntaxToken) : Prop := is_present t = true -> reported s l t.

Definition missing_reported (l : list Diagnostic) (t : SyntaxToken) : Prop :=
  is_missing t = true -> exists d, In d l /\ error_at s (TextRange_empty (token_start t)) d.

(** The cursor has gone from [self] to [self'] over the tokens [l]. *)
Record advances (self : ParserCursor B) (l : list SyntaxToken) (self' : ParserCursor B) : Prop := {
  ad_ok : cursor_ok self';
  ad_keeps : keeps s (lexical self) (lexical self');
  ad_syntax : covered (syntactic self) (keys (syntactic self'));
  ad_present : Forall (present_reported (lexical self')) l;
  ad_missing : Forall (missing_reported (syntactic self')) l;
  ad_exact : exact self -> past_end l = true \/
    parsed (text s) (offset self) l (offset self') /\ (existsb present_eof l = false -> exact self');
  ad_still : existsb is_present l = false -> parsed (text s) (offset self) l (offset self');
  ad_eof : existsb present_eof l = true -> offset self' = zlen (text s);
  ad_le : offset self <= offset self';
}.

Lemma covered_refl (l : list Diagnostic) : covered l (keys l).
Proof using. by intros k Hk. Qed.

Lemma advances_moved self x :
  cursor_ok self -> moved self x -> offset x = offset self -> (exact self -> exact x) -> advances self [] x.
Proof using.
  intros Hok Hm Ho Hex. destruct Hm as [Hx Hk Hs].
  assert (parsed (text s) (offset self) [] (offset x)) as Hp by (rewrite Ho; constructor; eapply cursor_boundary; exact Hok).
  constructor; try done; [unfold syntactic; rewrite Hs; apply covered_refl| |lia].
  intros H. right. split; [done|]. intros _. by apply Hex.
Qed.

Lemma same_token_presence t t' : same_token t t' -> presence t = presence t'.
Proof using.
  intros [H _]. apply (f_equal presence) in H. unfold forget_eof_trivia in H. by destruct (is_eof t), (is_eof t').
Qed.

Lemma takes_scanned mode self t x :
  cursor_ok self -> takes mode self t x ->
  exists t', scanned s (offset self) t' (offset x) /\ same_token t t' /\ (exact self -> t = t') /\ presence t = Present.
Proof using All.
  intros Hok (Hm & Hr & t' & Ht' & Hs & Ho & Hex).
  destruct (stream_scan_ok (B := B) is_alphanumeric s _ mode (cursor_boundary _ _ _ Hok)) as (t1 & b & Ht1 & Hsc).
  assert (t1 = t') as -> by congruence. destruct (scanned_end _ _ _ _ Hsc) as (Hb & _). rewrite Hb in Ho. subst b.
  exists t'. split_and!; [done|done|by intros; apply Hex|]. rewrite (same_token_presence _ _ Hs). apply Hsc.
Qed.

Lemma advances_takes mode self t x : cursor_ok self -> takes mode self t x -> advances self [t] x.
Proof using All.
  intros Hok Ht. destruct (takes_scanned mode self t x Hok Ht) as (t' & Hsc & Hs & Heq & Hp).
  destruct Ht as (Hm & Hr & t2 & _ & _ & _ & Hex). destruct Hm as [Hx Hk Hsy].
  constructor; [done|done|unfold syntactic; rewrite Hsy; apply covered_refl| | | | | |].
  - constructor; [|done]. intros _. done.
  - constructor; [|done]. unfold missing_reported, is_missing. by rewrite Hp.
  - intros H. rewrite (Heq H) in *. right. split.
    + eapply parsed_present; [apply Hsc|]. constructor. eapply cursor_boundary. exact Hx.
    + simpl. rewrite orb_false_r. unfold present_eof, is_present. rewrite Hp. cbn [presence_is_present andb]. intros He. by apply Hex.
  - simpl. unfold is_present. by rewrite Hp.
  - simpl. rewrite orb_false_r. unfold present_eof, is_present. rewrite Hp. cbn [presence_is_present andb]. intros He.
    rewrite (same_token_eof _ _ Hs) in He. by destruct (scanned_eof _ _ _ _ Hsc He).
  - by apply (scanned_end _ _ _ _ Hsc).
Qed.

Lemma error_reported (l : list Diagnostic) r d :
  duplicate_key d ∈ keys l -> error_at s r d -> exists d', In d' l /\ error_at s r d'.
Proof using.
  intros Hk He. unfold keys in Hk. apply list_elem_of_In, in_map_iff in Hk as (d' & Hd & Hin). exists d'. split; [done|].
  by eapply error_at_key.
Qed.

Lemma advances_inserts kind t self m x :
  cursor_ok self -> is_token kind = true -> inserts is_alphanumeric s kind t self m x -> advances self [m] x.
Proof using All.
  intros Hok Hk [Hx Ho Hex Hkeep -> Hsy].
  assert (missing_token {| token_kind := kind; token_range := TextRange_empty (token_start t); presence := Missing;
                           leading_trivia := []; trailing_trivia := [] |}) as Hmiss by by constructor.
  assert (forall a, boundary (text s) a -> parsed (text s) a [{| token_kind := kind; token_range := TextRange_empty (token_start t);
    presence := Missing; leading_trivia := []; trailing_trivia := [] |}] a) as Hp by (intros a Ha; apply parsed_missing; [done|by constructor]).
  assert (boundary (text s) (offset self)) as Hb by (eapply cursor_boundary; exact Hok).
  constructor; [done|done| | | | | |done|lia].
  - rewrite Hsy. apply covered_nub, covered_refl.
  - constructor; [|done]. done.
  - constructor; [|done]. intros _. rewrite Hsy. apply (error_reported _ _ (missing_token_diagnostic s kind t)); [|exact (missing_token_error s kind t)].
    apply keys_nub. rewrite keys_app. apply elem_of_app. right. apply list_elem_of_In. by left.
  - intros H. rewrite Ho. right. split; [by apply Hp|]. intros _. by apply Hex.
  - intros _. rewrite Ho. by apply Hp.
Qed.

(** Runs of the stream are covering, present tokens before the end of file. *)
Lemma run_parsed stop seen a l b :
  boundary (text s) a -> run_until (B := B) is_alphanumeric s stop seen a l b ->
  parsed (text s) a l b /\ existsb present_eof l = false /\ Forall (fun t => is_present t = true) l.
Proof using All.
  intros Ha H. induction H as [seen a t Ht Hs|seen a t l b Ht He Hs H IH]; [split_and!; [by constructor|done|done]|].
  destruct (stream_scan_ok (B := B) is_alphanumeric s a Normal Ha) as (t1 & c & Ht1 & Hsc). assert (t1 = t) as -> by congruence.
  destruct (scanned_end _ _ _ _ Hsc) as (Hc & Hbc & _). rewrite Hc in IH. destruct (IH Hbc) as (IH1 & IH2 & IH3).
  split_and!.
  - eapply parsed_present; [apply Hsc|done].
  - simpl. rewrite IH2, orb_false_r. unfold present_eof. by rewrite He, andb_false_r.
  - constructor; [|done]. unfold is_present. by rewrite (tile_presence _ _ _ _ (proj1 Hsc)).
Qed.

Lemma advances_run self l x :
  cursor_ok self -> moved self x -> (exact self -> exact x) -> Forall (reported s (lexical x)) l ->
  parsed (text s) (offset self) l (offset x) -> existsb present_eof l = false -> Forall (fun t => is_present t = true) l ->
  advances self l x.
Proof using.
  intros Hok [Hx Hk Hsy] Hex Hr Hp He Hpres.
  pose proof (parsed_boundaries _ _ _ _ Hp) as (_ & _ & Hle).
  constructor; [done|done|unfold syntactic; rewrite Hsy; apply covered_refl| | | |done|by rewrite He|done].
  - eapply Forall_impl; [|exact Hr]. by intros t H _.
  - eapply Forall_impl; [|exact Hpres]. intros t Ht. unfold missing_reported, is_missing. unfold is_present in Ht.
    by destruct (presence t).
  - intros H. right. split; [done|]. intros _. by apply Hex.
Qed.

Lemma advances_skips stop self l x :
  cursor_ok self -> skips is_alphanumeric s stop [] self l x -> advances self l x.
Proof using All.
  intros Hok (Hm & Hex & Hr & Hrun).
  destruct (run_parsed _ _ _ _ _ (cursor_boundary _ _ _ Hok) Hrun) as (H1 & H2 & H3). by apply advances_run.
Qed.

(** One token that skipping took, if any. *)
Lemma advances_one self t o x :
  cursor_ok self -> moved self x -> (exact self -> exact x) -> stream_scan (B := B) is_alphanumeric s (offset self) Normal = Ret t ->
  (if is_end_of_file t then o = None /\ offset x = offset self
   else o = Some t /\ offset x = end_ (full_range t) /\ reported s (lexical x) t) ->
  advances self (match o with Some t => [t] | None => [] end) x.
Proof using All.
  intros Hok Hm Hex Ht Hone. destruct (is_end_of_file t) eqn:He; [destruct Hone as [-> Ho]; by apply advances_moved|].
  destruct Hone as (-> & Ho & Hr).
  destruct (run_parsed (fun seen _ => negb (is_nil seen)) [] (offset self) [t] (offset x) (cursor_boundary _ _ _ Hok)) as (H1 & H2 & H3).
  { eapply run_take; [done|done|done|]. rewrite Ho.
    destruct (stream_scan_ok (B := B) is_alphanumeric s _ Normal (cursor_boundary _ _ _ Hok)) as (t1 & b & Ht1 & Hsc).
    assert (t1 = t) as -> by congruence. destruct (scanned_end _ _ _ _ Hsc) as (-> & Hb & _).
    destruct (stream_scan_ok (B := B) is_alphanumeric s _ Normal Hb) as (u & _ & Hu & _).
    eapply run_stop; [done|]. by rewrite orb_true_r. }
  apply advances_run; try done. by constructor.
Qed.

Lemma advances_skips_current stop self l x :
  cursor_ok self -> skips_current is_alphanumeric s stop self l x -> advances self l x.
Proof using All.
  intros Hok (Hm & Hex & Hr & t & Ht & Hl). destruct (is_end_of_file t) eqn:He; [destruct Hl as [-> Ho]; by apply advances_moved|].
  destruct Hl as (rest & -> & Hrun).
  destruct (stream_scan_ok (B := B) is_alphanumeric s _ Normal (cursor_boundary _ _ _ Hok)) as (t1 & b & Ht1 & Hsc).
  assert (t1 = t) as -> by congruence. destruct (scanned_end _ _ _ _ Hsc) as (Hb & Hbb & _). rewrite Hb in Hrun.
  destruct (run_parsed _ _ _ _ _ Hbb Hrun) as (H1 & H2 & H3). apply advances_run; try done.
  - eapply parsed_present; [apply Hsc|done].
  - simpl. rewrite H2, orb_false_r. unfold present_eof. by rewrite He, andb_false_r.
  - constructor; [|done]. unfold is_present. by rewrite (tile_presence _ _ _ _ (proj1 Hsc)).
Qed.

(** ** Parsers *)

Record parser_ok (self : Parser B) : Prop := {
  po_snapshot : parser_snapshot self = s;
  po_cursor : cursor_ok (parser_cursor self);
  po_depth : 0 <= syntax_nesting_depth self <= MAX_SYNTAX_NESTING_DEPTH;
}.

(** A call keeps the nesting and advances the cursor. *)
Definition calls (self : Parser B) (o : parser_output) (self' : Parser B) : Prop :=
  parser_ok self' /\ syntax_nesting_depth self' = syntax_nesting_depth self /\
  advances (parser_cursor self) (output_tokens o) (parser_cursor self').

Lemma calls_cursor {A} self (call : ParserCursor B -> outcome (A * ParserCursor B)) (Q : A -> ParserCursor B -> Prop) out :
  parser_ok self -> returns (call (parser_cursor self)) (fun r => Q r.1 r.2) ->
  (forall a x, Q a x -> advances (parser_cursor self) (output_tokens (out a)) x) ->
  returns (let! r := on_cursor self call in Ret (out r.1, r.2)) (fun r => calls self r.1 r.2).
Proof using.
  intros Hok Hc HQ. unfold on_cursor. destruct Hc as ([a x] & -> & H). cbn [outcome_bind fst snd]. apply returns_ret.
  specialize (HQ a x H). split_and!; [|done|done]. destruct Hok as [? _ ?]. constructor; [done|apply HQ|done].
Qed.

Lemma calls_skip self (call : ParserCursor B -> outcome (ParserCursor B * list SyntaxToken)) (Q : list SyntaxToken -> ParserCursor B -> Prop) :
  parser_ok self -> returns (call (parser_cursor self)) (fun r => Q r.2 r.1) ->
  (forall l x, Q l x -> advances (parser_cursor self) l x) ->
  returns (let! r := on_cursor_skip self call in Ret (OutSkipped r.1, r.2)) (fun r => calls self r.1 r.2).
Proof using.
  intros Hok Hc HQ. unfold on_cursor_skip. destruct Hc as ([x l] & -> & H). cbn [outcome_bind fst snd]. apply returns_ret.
  specialize (HQ l x H). split_and!; [|done|done]. destruct Hok as [? _ ?]. constructor; [done|apply HQ|done].
Qed.

Lemma advances_sees self n t x : cursor_ok self -> sees is_alphanumeric s self n t x -> advances self [] x.
Proof using. intros Hok (Hm & Ho & _ & _ & Hex). apply advances_moved; [done|done|done|by intros; apply Hex]. Qed.

Lemma consume_if_ok self kind :
  cursor_ok self ->
  returns (ParserCursor_consume_if is_alphanumeric self kind) (fun r =>
    advances self (match r.1 with Some t => [t] | None => [] end) r.2).
Proof using All.
  intros Hok. unfold ParserCursor_consume_if, ParserCursor_at.
  destruct (cursor_peek_ok is_alphanumeric s self Hok) as ([t x] & -> & Hm & Ho & _ & Hex & _). cbn [outcome_bind fst snd] in *.
  destruct (bool_decide (token_kind t = kind)); cbn [negb].
  2: { apply returns_ret. by apply advances_moved. }
  eapply returns_bind; [apply cursor_consume_ok; [done|apply Hm]|]. intros [u y] Ht. apply returns_ret. cbn [fst snd] in *.
  apply (advances_takes Normal); [done|]. destruct Ht as (Hm2 & Hr & t' & Ht' & Hs & Hc & He).
  split_and!; [by eapply moved_trans|done|]. exists t'. rewrite <- Ho. split_and!; [done|done|done|]. auto.
Qed.

Lemma cursor_expect_advances self kind :
  cursor_ok self -> is_token kind = true ->
  returns (ParserCursor_expect is_alphanumeric self kind) (fun r => advances self [r.1] r.2).
Proof using All.
  intros Hok Hk.
  destruct (stream_scan_ok (B := B) is_alphanumeric s _ Normal (cursor_boundary _ _ _ Hok)) as (t & _ & Ht & _).
  eapply returns_mono; [by apply (expect_ok is_alphanumeric s)|]. intros [m x] H. cbn [fst snd] in *.
  destruct (bool_decide (token_kind t = kind)); [by eapply advances_takes|by eapply advances_inserts].
Qed.

Lemma at_generic_close_ok self : cursor_ok self -> exists b, ParserCursor_at_generic_close self = Ret b.
Proof using All.
  intros [Hok _ _]. unfold ParserCursor_at_generic_close, at_generic_close. rewrite (lo_snapshot _ _ _ Hok).
  destruct (scan_leading_trivia_ok (B := B) s _ (lo_cursor _ _ _ Hok)) as (leading & -> & Ht). cbn [outcome_bind].
  assert (boundary (text s) (ts_end leading)) as Hb by (eapply trivia_tile_boundaries, Ht).
  rewrite (first_character_ok s _ Hb). by eexists.
Qed.

Lemma seen_ok {A} self n (answer : SyntaxToken -> A) (out : A -> parser_output) :
  parser_ok self -> (forall a, output_tokens (out a) = []) ->
  returns (let! r := Parser_lookahead is_alphanumeric self n in Ret (out (answer r.1), r.2)) (fun r => calls self r.1 r.2).
Proof using All.
  intros Hok Hout. unfold Parser_lookahead.
  apply (calls_cursor self _ (sees is_alphanumeric s (parser_cursor self) n) (fun t => out (answer t)));
    [done|apply cursor_lookahead_ok; [done|apply Hok]|].
  intros t x H. rewrite Hout. eapply advances_sees; [apply Hok|done].
Qed.

Lemma run_call_ok self call :
  parser_ok self -> call_ok call -> returns (run_call is_alphanumeric self call) (fun r => calls self r.1 r.2).
Proof using All.
  intros Hok Hcall. pose proof (po_cursor _ Hok) as Hc.
  destruct (stream_scan_ok (B := B) is_alphanumeric s _ Normal (cursor_boundary _ _ _ Hc)) as (t0 & _ & Ht0 & _).
  assert (forall mode, returns (let! r := on_cursor self (fun c => on_source c (fun source => consume_with_mode is_alphanumeric source mode)) in
    Ret (OutTaken r.1, r.2)) (fun r => calls self r.1 r.2)) as Hmode.
  { intros mode. eapply (calls_cursor self _ (takes mode (parser_cursor self))); [done|by apply cursor_consume_mode_ok|].
    intros t x. by apply advances_takes. }
  assert (forall kind, is_token kind = true ->
    returns (let! r := Parser_expect is_alphanumeric self kind in Ret (OutTaken r.1, r.2)) (fun r => calls self r.1 r.2)) as Hexpect.
  { intros kind Hk. eapply (calls_cursor self _ (fun t x => advances (parser_cursor self) [t] x)); [done|by apply cursor_expect_advances|done]. }
  destruct call; cbn [run_call].
  - by apply (seen_ok self distance id OutSeen).
  - unfold Parser_at, Parser_peek. pose proof (seen_ok self 0 (fun t => bool_decide (token_kind t = kind)) OutFlag Hok ltac:(done)) as H.
    by destruct (Parser_lookahead is_alphanumeric self 0).
  - unfold at_any, Parser_peek. pose proof (seen_ok self 0 (fun t => kinds_contain kinds (token_kind t)) OutFlag Hok ltac:(done)) as H.
    by destruct (Parser_lookahead is_alphanumeric self 0).
  - eapply (calls_cursor self _ (fun o x => advances (parser_cursor self) (match o with Some t => [t] | None => [] end) x));
      [done|by apply consume_if_ok|]. by intros [t|] x.
  - eapply (calls_cursor self _ (takes Normal (parser_cursor self))); [done|by apply cursor_consume_ok|].
    intros t x. by apply advances_takes.
  - apply Hmode.
  - unfold Parser_at_generic_close. destruct (at_generic_close_ok _ Hc) as [b ->]. cbn [outcome_bind]. apply returns_ret.
    split_and!; [done|done|]. apply advances_moved; [done|by apply moved_refl|done|done].
  - apply Hmode.
  - unfold expect_generic_close, Parser_at_generic_close. destruct (at_generic_close_ok _ Hc) as [b ->]. cbn [outcome_bind].
    destruct b; [apply Hmode|by apply Hexpect].
  - by apply Hexpect.
  - eapply (calls_skip self _ (skips is_alphanumeric s (recovery_stop recovery_set) [] (parser_cursor self))); [done|by apply skip_until_ok|].
    intros l x. by apply advances_skips.
  - eapply (calls_skip self _ (skips_current is_alphanumeric s (fun _ => recovery_stop recovery_set) (parser_cursor self)));
      [done|by apply skip_current_ok|]. intros l x. by apply advances_skips_current.
  - eapply (calls_cursor self _ (fun o x => advances (parser_cursor self) (match o with Some t => [t] | None => [] end) x)); [done| |by intros [t|] x].
    eapply returns_mono; [by apply skip_one_ok|]. intros [o x] (Hm & Hex & Hone). by eapply advances_one.
  - eapply (calls_skip self _ (skips is_alphanumeric s (balanced_stop brace_pair recovery_set 0) [] (parser_cursor self)));
      [done|by apply skip_balanced_ok|]. intros l x. by apply advances_skips.
  - eapply (calls_skip self _ (skips_current is_alphanumeric s _ (parser_cursor self))); [done|by apply skip_current_balanced_ok|].
    intros l x. by apply advances_skips_current.
  - apply returns_ret. cbn [fst snd]. destruct (record_diagnostic_ok is_alphanumeric s (parser_cursor self) d Hc) as (H1 & H2 & H3).
    split_and!; [destruct Hok; by constructor|done|]. cbn [parser_cursor Parser_record_syntax_diagnostic with_cursor output_tokens].
    assert (offset (record_syntax_diagnostic (parser_cursor self) d) = offset (parser_cursor self)) as Ho by done.
    assert (boundary (text s) (offset (parser_cursor self))) as Hb by (eapply cursor_boundary; exact Hc).
    constructor; [done|apply keeps_refl| |done|done| | |done|lia].
    + rewrite H3. apply covered_nub, covered_refl.
    + intros H. right. split; [by constructor|done].
    + intros _. by constructor.
Qed.

(** ** Whole sessions *)

(** The tokens taken so far: they stand for the text up to the cursor, unless
    something was taken after the end of file, and each is accounted for. *)
Definition session (taken : list SyntaxToken) (x : ParserCursor B) : Prop :=
  Forall (present_reported (lexical x)) taken /\ Forall (missing_reported (syntactic x)) taken /\
  (past_end taken = true \/
   parsed (text s) 0 taken (offset x) /\ if existsb present_eof taken then offset x = zlen (text s) else exact x).

Lemma missing_reported_covered l l' t : covered l (keys l') -> missing_reported l t -> missing_reported l' t.
Proof using.
  intros Hc H Hm. destruct (H Hm) as (d & Hd & He). apply (error_reported _ _ d); [|done]. apply Hc.
  unfold keys. apply list_elem_of_In, in_map_iff. by exists d.
Qed.

Lemma reported_mono x y taken :
  keeps s (lexical x) (lexical y) -> covered (syntactic x) (keys (syntactic y)) ->
  Forall (present_reported (lexical x)) taken -> Forall (missing_reported (syntactic x)) taken ->
  Forall (present_reported (lexical y)) taken /\ Forall (missing_reported (syntactic y)) taken.
Proof using.
  intros Hk Hc Hp Hm. split.
  - eapply Forall_impl; [|exact Hp]. intros t H Ht. apply Hk. by apply H.
  - eapply Forall_impl; [|exact Hm]. intros t. by apply missing_reported_covered.
Qed.

Lemma session_advances taken x l y : session taken x -> advances x l y -> session (taken ++ l) y.
Proof using.
  intros (Hp & Hm & Hcov) [A1 A2 A3 A4 A5 A6 A7 A8 _]. destruct (reported_mono x y taken A2 A3 Hp Hm) as [Hp' Hm'].
  split_and!; [by apply Forall_app|by apply Forall_app|]. destruct Hcov as [Hpast|[Hpar Hend]]; [left; by apply past_end_app_l|].
  destruct (existsb present_eof taken) eqn:Et.
  - destruct (existsb is_present l) eqn:El; [left; by apply past_end_app|]. right. specialize (A7 eq_refl).
    split; [by eapply parsed_app|]. rewrite existsb_app, Et. cbn [orb]. by rewrite <- (parsed_all_missing _ _ _ _ El A7).
  - destruct (A6 Hend) as [Hpast|[Hl Hex]]; [left; by apply past_end_app_r|]. right. split; [by eapply parsed_app|]. rewrite existsb_app, Et. cbn [orb].
    destruct (existsb present_eof l); [by apply A8|by apply Hex].
Qed.

Lemma covered_trans (l l' l'' : list Diagnostic) : covered l (keys l') -> covered l' (keys l'') -> covered l (keys l'').
Proof using. intros H1 H2 k Hk. apply H2. by apply H1. Qed.

(** Two stretches in a row. *)
Lemma advances_app x l1 y l2 z : advances x l1 y -> advances y l2 z -> advances x (l1 ++ l2) z.
Proof using.
  intros [A1 A2 A3 A4 A5 A6 A7 A8 A9] [B1 B2 B3 B4 B5 B6 B7 B8 B9].
  pose proof (cursor_boundary _ _ _ B1) as [_ Hz]%boundary_range.
  destruct (reported_mono y z l1 B2 B3 A4 A5) as [Hp Hm].
  constructor; [done|by eapply keeps_trans|by eapply covered_trans|by apply Forall_app|by apply Forall_app| | | |lia].
  - intros H. destruct (A6 H) as [Hpast|[P1 P2]]; [left; by apply past_end_app_l|].
    destruct (existsb present_eof l1) eqn:E1.
    + destruct (existsb is_present l2) eqn:E2; [left; by apply past_end_app|]. right. split; [eapply parsed_app; [done|by apply B7]|].
      by rewrite existsb_app, E1.
    + destruct (B6 (P2 eq_refl)) as [Hpast|[P3 P4]]; [left; by apply past_end_app_r|]. right. split; [by eapply parsed_app|].
      by rewrite existsb_app, E1.
  - rewrite existsb_app. intros [H1 H2]%orb_false_iff. eapply parsed_app; [by apply A7|by apply B7].
  - rewrite existsb_app. intros [H|H]%orb_true_iff; [|by apply B8]. specialize (A8 H). lia.
Qed.

(** Taking over the lexical diagnostics of a fork. *)
Lemma absorb_ok x y :
  cursor_ok x -> cursor_ok y -> advances x [] (absorb_lexical_diagnostics_from x y).
Proof using All.
  intros Hx Hy. destruct Hx as [Hsx Hpx Hdx]. pose proof Hsx as [H1 H2 H3 H4 H5 H6 H7].
  destruct (record_diagnostics_ok is_alphanumeric s (token_source x) (ls_diagnostics (token_source y))) as (R1 & R2 & _ & R4 & R5 & R6 & R7 & R8);
    [done|apply (lo_diagnostics _ _ _ (co_source _ _ _ Hy))|].
  unfold absorb_lexical_diagnostics_from, merge_diagnostics_from. set (z := record_diagnostics _ _) in *.
  apply advances_moved; [done| |exact R5|].
  - constructor; [|exact R2|done]. constructor; [|by cbn; rewrite R6|done]. cbn [token_source with_source].
    constructor; rewrite ?R4, ?R5, ?R6, ?R7; try done.
    + eapply Forall_impl; [|exact H5]. intros t. apply R2.
    + intros i Hi. rewrite R8. by apply covered_nub, H7.
  - unfold ParserCursor.exact, exact_cache. cbn [token_source with_source]. by rewrite R5, R7.
Qed.

(** Entering and leaving a level. *)
Lemma try_enter_ok self :
  parser_ok self ->
  returns (try_enter_syntax_nesting is_alphanumeric self) (fun r =>
    parser_ok r.2 /\ advances (parser_cursor self) [] (parser_cursor r.2) /\
    syntax_nesting_depth r.2 = syntax_nesting_depth self + (if r.1 then 1 else 0)).
Proof using All.
  intros Hok. pose proof Hok as [Hs Hc Hd]. unfold try_enter_syntax_nesting.
  assert (advances (parser_cursor self) [] (parser_cursor self)) as Hrefl by (apply advances_moved; [done|by apply moved_refl|done|done]).
  destruct (MAX_SYNTAX_NESTING_DEPTH <=? syntax_nesting_depth self) eqn:E.
  - destruct (syntax_nesting_limit_reported self); cbn [negb]; [apply returns_ret; cbn [fst snd]; split_and!; [done|done|lia]|].
    unfold Parser_peek.
    destruct (run_call_ok self (CallLookahead 0) Hok I) as (r & Er & Hcalls). cbn [run_call] in Er.
    destruct (Parser_lookahead is_alphanumeric self 0) as [[t x]| |]; cbn [outcome_bind fst snd] in *; try done.
    injection Er as <-. destruct Hcalls as (Hx & Hxd & Ha). cbn [fst snd output_tokens] in *.
    set (d := nesting_limit_exceeded _ _ _).
    destruct (run_call_ok x (CallRecord d) Hx I) as (r & [= <-] & (Hy & Hyd & Ha')). cbn [fst snd output_tokens] in *.
    apply returns_ret. cbn [fst snd]. split_and!.
    + destruct Hy as [Y1 Y2 Y3]. by constructor.
    + by eapply (advances_app _ [] _ []).
    + cbn [syntax_nesting_depth with_nesting] in *. lia.
  - apply Z.leb_gt in E. unfold usize_checked_add. unfold MAX_SYNTAX_NESTING_DEPTH in *.
    rewrite checked_ok by (unfold USIZE_MAX; lia). cbn [expect outcome_bind]. apply returns_ret. cbn [fst snd].
    split_and!; [|done|done]. constructor; cbn; [done|done|unfold MAX_SYNTAX_NESTING_DEPTH; lia].
Qed.

Lemma leave_ok self :
  parser_ok self -> 0 < syntax_nesting_depth self ->
  returns (leave_syntax_nesting self) (fun x =>
    parser_ok x /\ parser_cursor x = parser_cursor self /\ syntax_nesting_depth x = syntax_nesting_depth self - 1).
Proof using.
  intros [H1 H2 H3] Hpos. unfold leave_syntax_nesting, usize_checked_sub. unfold MAX_SYNTAX_NESTING_DEPTH in *.
  rewrite checked_ok by (unfold USIZE_MAX; lia). cbn [expect outcome_bind]. apply returns_ret. split_and!; [|done|done].
  constructor; cbn; [done|done|unfold MAX_SYNTAX_NESTING_DEPTH; lia].
Qed.

(** What running a program guarantees from any state. *)
Definition ran (self : Parser B) (taken : list SyntaxToken) (r : bool * Parser B * list SyntaxToken) : Prop :=
  parser_ok r.1.2 /\ syntax_nesting_depth r.1.2 = syntax_nesting_depth self /\
  (session taken (parser_cursor self) -> session r.2 (parser_cursor r.1.2)).

Lemma run_client_ok c : client_ok c -> forall self taken, parser_ok self -> returns (run_client is_alphanumeric c self taken) (ran self taken).
Proof using All.
  induction c as [decision|call next IH|scan IHs next IH|body IHb next IH]; intros Hc self taken Hok; cbn [run_client].
  - apply returns_ret. by split_and!.
  - destruct Hc as [Hcall Hnext]. eapply returns_bind; [by apply run_call_ok|].
    intros [o x] (Hx & Hd & Ha). cbn [fst snd] in *. eapply returns_mono; [by apply IH|].
    intros r (R1 & R2 & R3). split_and!; [done|congruence|]. intros Hs. by apply R3, (session_advances _ (parser_cursor self)).
  - destruct Hc as [Hscan Hnext]. unfold scan_ahead. pose proof Hok as [P1 P2 P3].
    assert (parser_ok (fork_from_checkpoint self (ParserCursor_checkpoint (parser_cursor self)))) as Hfork by by constructor.
    destruct (IHs Hscan _ [] Hfork) as ([[b x] l] & E & (Hx & _ & _)). rewrite E. cbn [outcome_bind fst snd] in *.
    pose proof (absorb_ok (parser_cursor self) (parser_cursor x) P2 (po_cursor _ Hx)) as Ha.
    eapply returns_mono; [apply IH; [by apply Hnext|]|].
    + constructor; [done|apply Ha|done].
    + intros r (R1 & R2 & R3). split_and!; [done|done|]. intros Hs. apply R3.
      rewrite <- (app_nil_r taken). by eapply session_advances.
  - destruct Hc as [Hbody Hnext]. eapply returns_bind; [by apply try_enter_ok|].
    intros [[] x] (Hx & Ha & Hd); cbn [fst snd] in *.
    + eapply returns_bind; [by apply IHb|]. intros [[b y] l] (Hy & Hyd & Hys). cbn [fst snd] in *.
      eapply returns_bind; [apply leave_ok; [done|destruct Hok; lia]|]. intros z (Hz & Hzc & Hzd).
      eapply returns_mono; [by apply IH|]. intros r (R1 & R2 & R3). split_and!; [done|lia|]. intros Hs. apply R3. rewrite Hzc.
      apply Hys. rewrite <- (app_nil_r taken). by eapply session_advances.
    + eapply returns_mono; [by apply IH|]. intros r (R1 & R2 & R3). split_and!; [done|lia|]. intros Hs. apply R3.
      rewrite <- (app_nil_r taken). by eapply session_advances.
Qed.

Lemma parser_new_ok : parser_ok (Parser_new s) /\ session [] (parser_cursor (Parser_new s)).
Proof using All.
  split; [constructor; [done|by apply cursor_new_ok|done]|].
  split_and!; [done|done|]. right. split; [constructor; apply boundary_0, wf_text|]. by apply cursor_new_exact.
Qed.

(** The bag that the parser hands over holds both kinds of diagnostics. *)
Lemma finish_reported self r :
  cursor_ok (parser_cursor self) ->
  (exists d, In d (lexical (parser_cursor self)) /\ error_at s r d) \/
  (exists d, In d (syntactic (parser_cursor self)) /\ error_at s r d) ->
  exists d, In d (sink_contents (Parser_finish self)) /\ error_at s r d.
Proof using All.
  intros [H1 _ H2] H. unfold Parser_finish, ParserCursor_finish.
  destruct (sink_merged_spec (ls_diagnostics (token_source (parser_cursor self))) (syntax_diagnostics (parser_cursor self))) as [_ ->];
    [apply (lo_diagnostics _ _ _ H1)|done|].
  destruct H as [(d & Hd & He)|(d & Hd & He)]; (apply (error_reported _ _ d); [|done]); apply keys_nub, list_elem_of_In, in_map_iff;
    exists d; (split; [done|]); apply in_app_iff; [by left|by right].
Qed.
End session.

(** ** Trees from the tokens of a session

    A green token keeps no position, so that a missing token is built like the
    one at the place where it ends up. *)

Definition settle_token (a : Z) (t : SyntaxToken) : SyntaxToken :=
  if is_missing t
  then {| token_kind := token_kind t; token_range := {| start := a; end_ := a + TextRange_len (token_range t) |};
          presence := presence t; leading_trivia := leading_trivia t; trailing_trivia := trailing_trivia t |}
  else t.

Definition token_next (a : Z) (t : SyntaxToken) : Z := if is_missing t then a else end_ (full_range t).

Fixpoint settle (a : Z) (l : list SyntaxToken) : list SyntaxToken :=
  match l with [] => [] | t :: l => settle_token a t :: settle (token_next a t) l end.

Definition tokens_next (a : Z) (l : list SyntaxToken) : Z := fold_left token_next l a.

Fixpoint settle_cst (a : Z) (c : Cst) : Cst :=
  match c with
  | CstToken t => CstToken (settle_token a t)
  | CstNode kind children =>
      CstNode kind ((fix go a l := match l with
                                   | [] => []
                                   | c :: l => settle_cst a c :: go (tokens_next a (cst_tokens c)) l
                                   end) a children)
  end.

Fixpoint settle_csts (a : Z) (l : list Cst) : list Cst :=
  match l with [] => [] | c :: l => settle_cst a c :: settle_csts (tokens_next a (cst_tokens c)) l end.

Lemma settle_cst_node a kind children : settle_cst a (CstNode kind children) = CstNode kind (settle_csts a children).
Proof. done. Qed.

Lemma settle_app a l1 l2 : settle a (l1 ++ l2) = settle a l1 ++ settle (tokens_next a l1) l2.
Proof. revert a. induction l1 as [|t l1 IH]; intros a; [done|]. simpl. by rewrite IH. Qed.

Lemma tokens_next_app a l1 l2 : tokens_next a (l1 ++ l2) = tokens_next (tokens_next a l1) l2.
Proof. unfold tokens_next. apply fold_left_app. Qed.

Lemma settle_token_green a t : GreenToken_from_syntax_token (settle_token a t) = GreenToken_from_syntax_token t.
Proof.
  unfold settle_token. destruct (is_missing t); [|done]. unfold GreenToken_from_syntax_token. cbn [token_kind token_range presence leading_trivia trailing_trivia].
  unfold TextRange_len. cbn [start end_]. by rewrite Z.add_simpl_l.
Qed.

Lemma settle_csts_spec l :
  Forall (fun c => forall a, cst_tokens (settle_cst a c) = settle a (cst_tokens c) /\
                             (forall builder, push_cst (settle_cst a c) builder = push_cst c builder) /\
                             (cst_ok c -> cst_ok (settle_cst a c))) l ->
  forall a, concat (map cst_tokens (settle_csts a l)) = settle a (concat (map cst_tokens l)) /\
            (forall builder, push_csts (settle_csts a l) builder = push_csts l builder) /\
            (Forall cst_ok l -> Forall cst_ok (settle_csts a l)).
Proof.
  induction 1 as [|c l Hc _ IH]; intros a; [done|]. destruct (Hc a) as (H1 & H2 & H3).
  destruct (IH (tokens_next a (cst_tokens c))) as (I1 & I2 & I3). simpl. split_and!.
  - by rewrite H1, I1, settle_app.
  - intros builder. rewrite H2. destruct (push_cst c builder); simpl; [apply I2|done|done].
  - intros [Hok Hl]%Forall_cons_iff. constructor; [by apply H3|by apply I3].
Qed.

Lemma settle_cst_spec c a :
  cst_tokens (settle_cst a c) = settle a (cst_tokens c) /\
  (forall builder, push_cst (settle_cst a c) builder = push_cst c builder) /\ (cst_ok c -> cst_ok (settle_cst a c)).
Proof.
  revert a. induction c as [t|kind children IH] using cst_ind; intros a.
  - split_and!; [done| |done]. intros builder. cbn [settle_cst push_cst]. unfold push_token, GreenElement_from_token.
    by rewrite settle_token_green.
  - rewrite settle_cst_node. destruct (settle_csts_spec children IH a) as (H1 & H2 & H3). split_and!; [exact H1| |].
    + intros builder. rewrite !push_cst_node. unfold build_cst. by rewrite H2.
    + rewrite !cst_ok_node. intros [Hk Hc]. split; [done|by apply H3].
Qed.

(** Settled, the tokens of a session cover the text in the sense of the tree. *)
Lemma parsed_settle text a l b : parsed text a l b -> tokens_cover text a (settle a l) b.
Proof.
  induction 1 as [a Ha|a t b l c Ht H IH|a t l c Ht H IH]; [by constructor| |]; simpl.
  - assert (is_missing t = false) as Hm by (unfold is_missing; by rewrite (tile_presence _ _ _ _ Ht)).
    unfold settle_token, token_next. rewrite Hm, (token_tile_full_range _ _ _ _ Ht). cbn [end_].
    eapply cover_cons; [by apply covers_present|done].
  - destruct Ht as [Hp Hk Hw Hl Htr]. pose proof (parsed_boundaries _ _ _ _ H) as (Ha & _).
    assert (is_missing t = true) as Hm by (unfold is_missing; by rewrite Hp).
    unfold settle_token, token_next. rewrite Hm, Hp, Hl, Htr. unfold TextRange_len. unfold token_start, token_end in Hw.
    replace (a + (end_ (token_range t) - start (token_range t))) with a by lia.
    eapply cover_cons; [exact (covers_missing _ a (token_kind t) Hk Ha)|done].
Qed.

(** Any tree over the tokens of a session writes the text they stand for. *)
Lemma parsed_tree text kind children l a b :
  zlen text <= U32_MAX -> is_node kind = true -> Forall cst_ok children -> concat (map cst_tokens children) = l -> parsed text a l b ->
  returns (build_cst kind children) (fun node =>
    GreenNode_kind node = kind /\ GreenNode_full_width node = b - a /\ syntax_tokens node a = Ret (settle a l) /\
    forall w, write_source_text node text a w = Ret (w ++ between text a b)).
Proof.
  intros Hfit Hk Hc <- Hp. apply parsed_settle in Hp.
  destruct (settle_csts_spec children) with (a := a) as (H1 & H2 & H3).
  { apply List.Forall_forall. intros c _ a'. apply settle_cst_spec. }
  rewrite <- H1 in Hp. destruct (build_cst_spec _ _ _ _ _ Hfit Hk (H3 Hc) Hp) as (node & E & Hn & Hkind & Hw & Hcst).
  exists node. unfold build_cst in *. rewrite H2 in E. split; [done|].
  pose proof (tokens_cover_boundaries _ _ _ _ Hp) as (Ha & Hb & Hle). apply boundary_range in Ha. apply boundary_range in Hb.
  assert (node_tokens node a = concat (map cst_tokens (settle_csts a children))) as Ht by (by rewrite node_tokens_cst, Hcst).
  split_and!; [done|done| |].
  - by rewrite syntax_tokens_ok, Ht, H1 by (done || lia).
  - intros w. apply write_source_text_ok; [done|done|lia|by rewrite Ht].
Qed.

(** ** Every parser is lossless *)

(** C3. Whatever a parser written against these calls does, choosing each call by
    the results of the earlier ones, scanning ahead on forks and nesting to any
    depth: no call panics or diverges, and the nesting is balanced.  Unless it
    reads on after the end of file, the tokens it takes stand, in order and
    without gap, for the text before its cursor, with missing tokens in
    between; every invalid token it takes and every missing token it is given is
    reported by an error at its place; and once it has taken the end of file,
    any tree built over these tokens writes the source text back. *)
Theorem parser_session_lossless {B} `{!DiagnosticSink B, !DiagnosticSinkLaws B} is_alphanumeric s c :
  WfSnapshot s -> client_ok c ->
  returns (run_client (B := B) is_alphanumeric c (Parser_new s) []) (fun '(decision, parser, taken) =>
    syntax_nesting_depth parser = 0 /\
    Forall (fun t => is_present t = true -> token_kind t = InvalidToken ->
      exists d, In d (sink_contents (Parser_finish parser)) /\ error_at s (token_range t) d) taken /\
    Forall (fun t => is_missing t = true ->
      exists d, In d (sink_contents (Parser_finish parser)) /\ error_at s (TextRange_empty (token_start t)) d) taken /\
    (past_end taken = false ->
     parsed (text s) 0 taken (offset (parser_cursor parser)) /\
     (existsb present_eof taken = true ->
      forall kind children, is_node kind = true -> Forall cst_ok children -> concat (map cst_tokens children) = taken ->
      returns (build_cst kind children) (fun node => forall w, write_source_text node (text s) 0 w = Ret (w ++ text s))))).
Proof.
  intros Hwf Hc. destruct (parser_new_ok (B := B) is_alphanumeric s) as [Hp0 Hs0].
  eapply returns_mono; [by apply (run_client_ok is_alphanumeric s)|]. intros [[decision parser] taken] (Hp & Hd & Hs). cbn [fst snd] in *.
  destruct (Hs Hs0) as (Hpres & Hmiss & Hcov). pose proof (po_cursor _ _ _ Hp) as Hcur. split_and!.
  - exact Hd.
  - eapply Forall_impl; [|exact Hpres]. intros t H Ht Hk. apply (finish_reported is_alphanumeric s); [done|]. left. by apply H.
  - eapply Forall_impl; [|exact Hmiss]. intros t H Ht. apply (finish_reported is_alphanumeric s); [done|]. right. by apply H.
  - intros Hpast. destruct Hcov as [Hcov|[Hpar Hend]]; [congruence|]. split; [done|]. intros He. rewrite He in Hend. rewrite Hend in Hpar.
    intros kind children Hk Hch Htok. destruct (parsed_tree (text s) kind children taken 0 (zlen (text s))) as (node & E & _ & _ & _ & Hw);
      [apply wf_fits|done|done|done|done|].
    exists node. split; [done|]. intros w. by rewrite Hw, between_whole.
Qed.

(** A parser of one block: an opening brace, which may be missing, the tokens up
    to the closing brace inside one level, the end of file. *)
Definition block_client : client :=
  Call (CallExpect OpenBraceToken) (fun _ =>
  ScanAhead (Call CallConsume (fun _ => Call (CallAt SemicolonToken) (fun o => Finish (match o with OutFlag b => b | _ => false end))))
    (fun semicolon =>
  Nested (Call (CallSkipUntilBalanced (RecoverySet_new [])) (fun _ => Call (CallExpect CloseBraceToken) (fun _ => Finish semicolon)))
    (fun _ => Call (CallExpect EndOfFileToken) (fun _ => Finish true)))).

Definition block_sample : SourceSnapshot := unit_snapshot (lit "a ; { b } }  ").

Example block_sample_tokens :
  (let! r := run_client (B := Bag) ascii_table block_client (Parser_new block_sample) [] in Ret (map (fun t => (token_kind t, is_present t)) r.2)) =
  Ret [(OpenBraceToken, false); (IdentifierToken, true); (SemicolonToken, true); (OpenBraceToken, true); (IdentifierToken, true);
       (CloseBraceToken, true); (CloseBraceToken, true); (EndOfFileToken, true)].
Proof. by vm_compute. Qed.

Lemma parser_session_lossless_witness :
  exists parser taken, run_client (B := Bag) ascii_table block_client (Parser_new block_sample) [] = Ret (true, parser, taken) /\
    parsed (text block_sample) 0 taken (zlen (text block_sample)).
Proof.
  assert (WfSnapshot block_sample) as Hwf by by apply ascii_snapshot_wf.
  assert (client_ok block_client) as Hc by (repeat split).
  destruct (parser_session_lossless (B := Bag) ascii_table block_sample block_client Hwf Hc)
    as ([[decision parser] taken] & E & _ & _ & _ & H).
  exists parser, taken.
  assert (Hv : run_client (B := Bag) ascii_table block_client (Parser_new block_sample) [] = Ret (decision, parser, taken)) by exact E.
  vm_compute in E. injection E as Hd Hp Ht. subst decision. split; [exact Hv|].
  destruct H as [H _]; [by rewrite <- Ht; vm_compute|]. rewrite <- Hp in H. exact H.
Defined.
