(* ===== verification/ParserList.v ===== *)
(** * Recovery and separated lists

    [bray-parser/src/parser/recovery.rs]: skipping into a builder, and braced
    bodies; [parser/separated.rs]: the loop behind every list with separators.

    These functions of the source are generic: over the builder they push to,
    here the classes [RecoverySyntaxSink], [BracedBodySyntaxSink] and
    [SeparatedListSyntaxSink]; over the parser of an item and over the test for
    the end of the list, which are arguments here as well.  A closure sees the
    parser and nothing else that changes. *)

From Stdlib Require Import ZArith Lia String.
From stdpp Require Import base list numbers option.
From S2P Require Import Prelude Utf8 SourceText Snapshot SyntaxKind SyntaxToken.
From S2P Require Import DiagnosticKind Diagnostic DiagnosticBag LexText LexTrivia LexLiteral LexScanner TokenSource.
From S2P Require Import GreenTree ParserDiagnostic ParserCursor ParserState.

(** ** Builders *)

Class RecoverySyntaxSink (K : Type) := push_skipped : K -> list SyntaxToken -> outcome K.

Class BracedBodySyntaxSink (K : Type) := {
  braced_recovery :: RecoverySyntaxSink K;
  push_open_brace_token : K -> SyntaxToken -> outcome K;
  push_close_brace_token : K -> SyntaxToken -> outcome K;
}.

Class SeparatedListSyntaxSink (K Item : Type) := {
  separated_recovery :: RecoverySyntaxSink K;
  push_item : K -> Item -> K;
  push_separator : K -> SyntaxToken -> outcome K;
}.

(** ** recovery.rs *)

Section recovery.
Context {B : Type} `{!DiagnosticSink B}.
Context (is_alphanumeric : char -> bool).

(** The fuel of a loop that consumes a token in every turn. *)
Definition parser_fuel (self : Parser B) : nat := text_fuel (parser_snapshot self).

Section sink.
Context {K : Type} `{!RecoverySyntaxSink K}.

(** Push what was skipped; whether it was anything. *)
Definition push_recovered (builder : K) (r : list SyntaxToken * Parser B) : outcome (bool * Parser B * K) :=
  let skipped_any := negb (is_nil r.1) in
  let! builder := push_skipped builder r.1 in
  Ret (skipped_any, r.2, builder).

Definition recover_until_set (self : Parser B) (builder : K) (recovery_set : RecoverySet) : outcome (bool * Parser B * K) :=
  let! r := Parser_skip_until is_alphanumeric self recovery_set in push_recovered builder r.

Definition recover_until (self : Parser B) (builder : K) (stop_kinds : list SyntaxKind) : outcome (bool * Parser B * K) :=
  recover_until_set self builder (RecoverySet_new stop_kinds).

Definition recover_current_token (self : Parser B) (builder : K) : outcome (Parser B * K) :=
  let! r := Parser_skip_one is_alphanumeric self in
  match r.1 with
  | None => Ret (r.2, builder)
  | Some skipped_token => let! builder := push_skipped builder [skipped_token] in Ret (r.2, builder)
  end.

Definition recover_current_and_until (self : Parser B) (builder : K) (stop_kinds : list SyntaxKind) : outcome (bool * Parser B * K) :=
  let! r := Parser_skip_current_and_until is_alphanumeric self (RecoverySet_new stop_kinds) in push_recovered builder r.

(** One turn of the loops that stop at a predicate. *)
Definition predicate_step (at_stop : Parser B -> outcome (bool * Parser B)) (st : Parser B * list SyntaxToken)
    : outcome (Parser B * list SyntaxToken + list SyntaxToken * Parser B) :=
  let (self, skipped_tokens) := st in
  let! eof := Parser_at is_alphanumeric self EndOfFileToken in
  if eof.1 then break_ (skipped_tokens, eof.2)
  else
    let! stop := at_stop eof.2 in
    if stop.1 then break_ (skipped_tokens, stop.2)
    else let! r := Parser_consume is_alphanumeric stop.2 in continue_ (r.2, skipped_tokens ++ [r.1]).

Definition recover_until_predicate (self : Parser B) (builder : K) (at_stop : Parser B -> outcome (bool * Parser B))
    : outcome (bool * Parser B * K) :=
  let! r := loop (parser_fuel self) (predicate_step at_stop) (self, []) in push_recovered builder r.

Definition recover_current_and_until_predicate (self : Parser B) (builder : K) (at_stop : Parser B -> outcome (bool * Parser B))
    : outcome (bool * Parser B * K) :=
  let! eof := Parser_at is_alphanumeric self EndOfFileToken in
  let! first := if negb eof.1 then let! r := Parser_consume is_alphanumeric eof.2 in Ret (r.2, [r.1]) else Ret (eof.2, []) in
  let! r := loop (parser_fuel self) (predicate_step at_stop) first in push_recovered builder r.

Definition recover_until_balanced_close_brace_or_recovery_set (self : Parser B) (builder : K) (recovery_set : RecoverySet)
    : outcome (bool * Parser B * K) :=
  let! r := Parser_skip_until_balanced_close_brace_or_recovery is_alphanumeric self recovery_set in push_recovered builder r.

Definition recover_current_and_until_balanced_close_brace_or_recovery_set (self : Parser B) (builder : K) (recovery_set : RecoverySet)
    : outcome (bool * Parser B * K) :=
  let! r := Parser_skip_current_and_until_balanced_close_brace_or_recovery is_alphanumeric self recovery_set in
  push_recovered builder r.
End sink.

Definition parse_braced_body_contents {K} `{!BracedBodySyntaxSink K} (self : Parser B) (builder : K)
    (at_missing_body_boundary : Parser B -> outcome (bool * Parser B))
    (parse_contents : Parser B -> K -> outcome (Parser B * K)) : outcome (Parser B * K) :=
  let! open_brace_token := Parser_expect is_alphanumeric self OpenBraceToken in
  let open_brace_missing := is_missing open_brace_token.1 in
  let! builder := push_open_brace_token builder open_brace_token.1 in
  let! boundary := if open_brace_missing then at_missing_body_boundary open_brace_token.2 else Ret (false, open_brace_token.2) in
  if boundary.1
  then
    let! close := Parser_expect is_alphanumeric boundary.2 CloseBraceToken in
    let! builder := push_close_brace_token builder close.1 in
    Ret (close.2, builder)
  else
    let! r := parse_contents boundary.2 builder in
    let! close := Parser_expect is_alphanumeric r.1 CloseBraceToken in
    let! builder := push_close_brace_token r.2 close.1 in
    Ret (close.2, builder).
End recovery.

(** ** separated.rs *)

Record SeparatedListSpec := {
  spec_separator_kind : SyntaxKind;
  terminators : list SyntaxKind;
  recovery_kinds : list SyntaxKind;
  allow_trailing_separator : bool;
}.

Inductive SeparatedListPosition := PositionItem (allow_end : bool) | PositionSeparator.

Definition separated_list_recovery_kinds (item_start_kinds : list SyntaxKind) (separator_kind : SyntaxKind)
    (terminators : list SyntaxKind) : list SyntaxKind :=
  item_start_kinds ++ [separator_kind] ++ terminators.

Section separated.
Context {B : Type} `{!DiagnosticSink B}.
Context (is_alphanumeric : char -> bool).
Context {K Item : Type} `{!SeparatedListSyntaxSink K Item}.

Definition at_list_end (terminators : list SyntaxKind) (self : Parser B) : outcome (bool * Parser B) :=
  let! r := at_any is_alphanumeric self terminators in
  if r.1 then Ret (true, r.2) else Parser_at is_alphanumeric r.2 EndOfFileToken.

Definition at_list_boundary_until (self : Parser B) (spec : SeparatedListSpec) (at_end : Parser B -> outcome (bool * Parser B))
    : outcome (bool * Parser B) :=
  let! r := at_end self in
  if r.1 then Ret (true, r.2) else Parser_at is_alphanumeric r.2 (spec_separator_kind spec).

Definition parse_separated_list_item_until (self : Parser B) (builder : K) (spec : SeparatedListSpec)
    (at_end : Parser B -> outcome (bool * Parser B)) (parse_item : Parser B -> outcome (Item * Parser B)) : outcome (Parser B * K) :=
  let! first := Parser_peek is_alphanumeric self in
  let item_start := token_start first.1 in
  let! item := parse_item first.2 in
  let builder := push_item builder item.1 in
  let! boundary := at_list_boundary_until item.2 spec at_end in
  let! stop :=
    if boundary.1 then Ret (true, boundary.2)
    else let! next := Parser_peek is_alphanumeric boundary.2 in Ret (negb (token_start next.1 =? item_start), next.2) in
  if stop.1 then Ret (stop.2, builder)
  else
    let! recovered := recover_until is_alphanumeric stop.2 builder (recovery_kinds spec) in
    let '(skipped_any, self, builder) := recovered in
    let! stop := if (skipped_any : bool) then Ret (true, self) else at_list_boundary_until self spec at_end in
    if stop.1 then Ret (stop.2, builder) else recover_current_token is_alphanumeric stop.2 builder.

(** One turn of the loop. *)
Definition list_step (spec : SeparatedListSpec) (at_end : Parser B -> outcome (bool * Parser B))
    (parse_item : Parser B -> outcome (Item * Parser B)) (st : SeparatedListPosition * Parser B * K)
    : outcome (SeparatedListPosition * Parser B * K + Parser B * K) :=
  let '(position, self, builder) := st in
  let! at_end_now := at_end self in
  let self := at_end_now.2 in
  match position with
  | PositionItem allow_end =>
      if allow_end && at_end_now.1 then break_ (self, builder)
      else
        let! r := parse_separated_list_item_until self builder spec at_end parse_item in
        continue_ (PositionSeparator, r.1, r.2)
  | PositionSeparator =>
      if at_end_now.1 then break_ (self, builder)
      else
        let! separator := Parser_consume_if is_alphanumeric self (spec_separator_kind spec) in
        match separator.1 with
        | Some token =>
            let! builder := push_separator builder token in
            continue_ (PositionItem (allow_trailing_separator spec), separator.2, builder)
        | None =>
            let! missing := Parser_expect is_alphanumeric separator.2 (spec_separator_kind spec) in
            let! builder := push_separator builder missing.1 in
            continue_ (PositionItem false, missing.2, builder)
        end
  end.

(** Every item or separator consumes something, or the next one does. *)
Definition list_fuel (self : Parser B) : nat := 3 * parser_fuel self.

Definition parse_separated_list_until (self : Parser B) (builder : K) (spec : SeparatedListSpec)
    (at_end : Parser B -> outcome (bool * Parser B)) (parse_item : Parser B -> outcome (Item * Parser B)) : outcome (Parser B * K) :=
  loop (list_fuel self) (list_step spec at_end parse_item) (PositionItem true, self, builder).

Definition parse_separated_list (self : Parser B) (builder : K) (spec : SeparatedListSpec)
    (parse_item : Parser B -> outcome (Item * Parser B)) : outcome (Parser B * K) :=
  parse_separated_list_until self builder spec (at_list_end (terminators spec)) parse_item.
End separated.

(** ** What a list builder is given

    The pushes of a list as events, and a builder that replays them. *)

Inductive list_event (Item : Type) :=
| EventItem (item : Item)
| EventSeparator (token : SyntaxToken)
| EventSkipped (tokens : list SyntaxToken).
Arguments EventItem {_}. Arguments EventSeparator {_}. Arguments EventSkipped {_}.

Section events.
Context {K Item : Type} `{!SeparatedListSyntaxSink K Item}.
Context (item_tokens : Item -> list SyntaxToken).

Definition event_tokens (e : list_event Item) : list SyntaxToken :=
  match e with EventItem i => item_tokens i | EventSeparator t => [t] | EventSkipped l => l end.

Definition push_event (builder : K) (e : list_event Item) : outcome K :=
  match e with
  | EventItem i => Ret (push_item builder i)
  | EventSeparator t => push_separator builder t
  | EventSkipped l => push_skipped builder l
  end.

Fixpoint replay (builder : K) (events : list (list_event Item)) : outcome K :=
  match events with
  | [] => Ret builder
  | e :: events => let! builder := push_event builder e in replay builder events
  end.

Definition event_ok (item_ok : Item -> Prop) (e : list_event Item) : Prop :=
  match e with EventItem i => item_ok i | _ => True end.

Definition is_skip (e : list_event Item) : Prop := match e with EventSkipped _ => True | _ => False end.

(** Items and separators alternate, with skipped tokens behind items only.  A
    list ends in front of its first item, behind an item, or behind a separator
    that is there if the list admits a trailing one; never behind a missing one. *)
Inductive listed (separator : SyntaxKind) (trailing : bool) : SeparatedListPosition -> list (list_event Item) -> Prop :=
| listed_empty : listed separator trailing (PositionItem true) []
| listed_end : listed separator trailing PositionSeparator []
| listed_item allow_end item skips rest :
    Forall is_skip skips -> listed separator trailing PositionSeparator rest ->
    listed separator trailing (PositionItem allow_end) (EventItem item :: skips ++ rest)
| listed_separator token rest :
    token_kind token = separator -> is_present token = true -> listed separator trailing (PositionItem trailing) rest ->
    listed separator trailing PositionSeparator (EventSeparator token :: rest)
| listed_missing token rest :
    token_kind token = separator -> is_missing token = true -> listed separator trailing (PositionItem false) rest ->
    listed separator trailing PositionSeparator (EventSeparator token :: rest).

Lemma replay_app builder l1 l2 : replay builder (l1 ++ l2) = let! builder := replay builder l1 in replay builder l2.
Proof using.
  revert builder. induction l1 as [|e l1 IH]; intros builder; [done|]. simpl. destruct (push_event builder e); simpl; [apply IH|done|done].
Qed.

Lemma event_tokens_app (l1 l2 : list (list_event Item)) :
  concat (map event_tokens (l1 ++ l2)) = concat (map event_tokens l1) ++ concat (map event_tokens l2).
Proof using. by rewrite map_app, concat_app. Qed.
End events.

(** ** Parsers between calls *)

Section progress.
Context {B : Type} `{!DiagnosticSink B, !DiagnosticSinkLaws B}.
Context (is_alphanumeric : char -> bool).
Context (s : SourceSnapshot) `{!WfSnapshot s}.

Abbreviation parser_ok := (parser_ok (B := B) is_alphanumeric s).
Abbreviation advances := (advances (B := B) is_alphanumeric s).

Definition place (self : Parser B) : Z := offset (parser_cursor self).

(** The parser has gone over the tokens [l], as its cursor has. *)
Definition does (self : Parser B) (l : list SyntaxToken) (self' : Parser B) : Prop :=
  parser_ok self' /\ syntax_nesting_depth self' = syntax_nesting_depth self /\ advances (parser_cursor self) l (parser_cursor self').

(** It has only looked. *)
Definition looks (self self' : Parser B) : Prop := does self [] self' /\ place self' = place self.

(** The token that comes next. *)
Definition next_token (o : Z) : option SyntaxToken :=
  match stream_scan (B := B) is_alphanumeric s o Normal with Ret t => Some t | _ => None end.

Definition kind_at (o : Z) : option SyntaxKind := token_kind <$> next_token o.

Lemma next_token_ok self : parser_ok self -> exists t b, next_token (place self) = Some t /\
  stream_scan (B := B) is_alphanumeric s (place self) Normal = Ret t /\ scanned s (place self) t b.
Proof using All.
  intros [_ Hc _]. destruct (stream_scan_ok (B := B) is_alphanumeric s _ Normal (cursor_boundary _ _ _ Hc)) as (t & b & Ht & Hs).
  exists t, b. unfold next_token, place. by rewrite Ht.
Qed.

Lemma does_refl self : parser_ok self -> does self [] self.
Proof using. intros H. split_and!; [done|done|]. apply advances_moved; [apply H|apply moved_refl, H|done|done]. Qed.

Lemma does_trans x l1 y l2 z : does x l1 y -> does y l2 z -> does x (l1 ++ l2) z.
Proof using. intros (H1 & H2 & H3) (H4 & H5 & H6). split_and!; [done|congruence|by eapply advances_app]. Qed.

Lemma looks_does x y l z : looks x y -> does y l z -> does x l z.
Proof using. intros [H _] H'. by apply (does_trans x [] y l). Qed.

Lemma looks_trans x y z : looks x y -> looks y z -> looks x z.
Proof using. intros H [H1 H2]. split; [by eapply looks_does|]. destruct H as [_ H]. congruence. Qed.

Lemma does_le x l y : does x l y -> place x <= place y.
Proof using. intros (_ & _ & H). apply (ad_le _ _ _ _ _ H). Qed.

Lemma on_cursor_place {A} self (call : ParserCursor B -> outcome (A * ParserCursor B)) (Q : A -> ParserCursor B -> Prop) l :
  parser_ok self -> returns (call (parser_cursor self)) (fun r => Q r.1 r.2) ->
  (forall a x, Q a x -> advances (parser_cursor self) (l a) x) ->
  returns (on_cursor self call) (fun r => does self (l r.1) r.2 /\ Q r.1 (parser_cursor r.2)).
Proof using.
  intros Hok ([a x] & E & HQ) Hadv. unfold on_cursor. rewrite E. cbn [outcome_bind fst snd] in *. apply returns_ret. cbn [fst snd].
  specialize (Hadv a x HQ). destruct Hok as [? _ ?]. split; [|done]. split_and!; [|done|done]. constructor; [done|apply Hadv|done].
Qed.

Lemma peek_looks self :
  parser_ok self ->
  returns (Parser_peek is_alphanumeric self) (fun r =>
    looks self r.2 /\ Some (token_kind r.1) = kind_at (place self) /\ Some (token_start r.1) = token_start <$> next_token (place self)).
Proof using All.
  intros Hok. destruct (next_token_ok self Hok) as (t & b & Hn & Ht & _).
  eapply returns_mono; [apply (on_cursor_place self _ (sees is_alphanumeric s (parser_cursor self) 0) (fun _ => []) Hok);
    [apply cursor_lookahead_ok; [done|apply Hok]|]|].
  { intros u x. apply advances_sees, Hok. }
  intros [u x] (Hd & _ & Ho & _ & (t' & Ht' & Hs) & _). cbn [fst snd] in *. split; [by split|].
  pose proof (cursor_boundary _ _ _ (po_cursor _ _ _ Hok)) as Hb. rewrite stream_token_0 in Ht' by done.
  unfold kind_at. rewrite Hn. unfold place in Ht. assert (t' = t) as -> by congruence. cbn [fmap option_fmap option_map].
  unfold token_start. by rewrite (same_token_kind _ _ Hs), (same_token_range _ _ Hs).
Qed.

Lemma at_looks self kind :
  parser_ok self ->
  returns (Parser_at is_alphanumeric self kind) (fun r => looks self r.2 /\ r.1 = bool_decide (kind_at (place self) = Some kind)).
Proof using All.
  intros Hok. unfold Parser_at. eapply returns_bind; [by apply peek_looks|]. intros [t x] (Hl & <- & _). apply returns_ret.
  split; [done|]. apply bool_decide_ext. cbn [fst]. split; congruence.
Qed.

Lemma at_any_looks self kinds :
  parser_ok self ->
  returns (at_any is_alphanumeric self kinds) (fun r =>
    looks self r.2 /\ r.1 = match kind_at (place self) with Some kind => kinds_contain kinds kind | None => false end).
Proof using All. intros Hok. unfold at_any. eapply returns_bind; [by apply peek_looks|]. intros [t x] (Hl & <- & _). by apply returns_ret. Qed.

(** Tokens that a builder is given: a stretch of the text, or a missing one. *)
Definition present_piece (l : list SyntaxToken) : Prop :=
  Forall (fun t => is_present t = true) l /\ exists a b, parsed (text s) a l b.

Definition token_piece (t : SyntaxToken) : Prop := exists a b, parsed (text s) a [t] b.

Lemma consume_if_does self kind :
  parser_ok self -> kind <> EndOfFileToken ->
  returns (Parser_consume_if is_alphanumeric self kind) (fun r =>
    match r.1 with
    | Some t => does self [t] r.2 /\ token_kind t = kind /\ is_present t = true /\ token_piece t /\ place self < place r.2
    | None => looks self r.2 /\ kind_at (place self) <> Some kind
    end).
Proof using All.
  intros Hok Hneq. unfold Parser_consume_if, on_cursor, ParserCursor_consume_if, ParserCursor_at.
  pose proof (po_cursor _ _ _ Hok) as Hc. destruct (next_token_ok self Hok) as (u & b & Hn & Hu & Hsc).
  destruct (cursor_peek_ok is_alphanumeric s _ Hc) as ([t x] & -> & Hm & Ho & _ & Hex & (t' & Ht' & Hs)).
  cbn [outcome_bind fst snd] in *. unfold place in *. assert (t' = u) as -> by congruence. rewrite (same_token_kind _ _ Hs).
  assert (kind_at (offset (parser_cursor self)) = Some (token_kind u)) as Hk by (unfold kind_at; by rewrite Hn).
  case_bool_decide as E; cbn [negb].
  2: { apply returns_ret. cbn [fst snd]. split; [|congruence]. split; [|done].
       split_and!; [destruct Hok; constructor; [done|apply Hm|done]|done|by apply advances_moved]. }
  destruct (cursor_consume_ok is_alphanumeric s x (mv_ok _ _ _ _ Hm)) as ([v y] & -> & Hm2 & Hr & t2 & Ht2 & Hs2 & Ho2 & He2).
  cbn [outcome_bind fst snd] in *. rewrite Ho in Ht2. assert (t2 = u) as -> by congruence.
  assert (is_eof u = false) as Heof by (unfold is_eof, is_end_of_file; rewrite E; by destruct kind).
  assert (v = u) as ->.
  { symmetry. apply forget_eof_neq; [|done]. symmetry. apply Hs2. }
  apply returns_ret. cbn [fst snd]. destruct (scanned_end _ _ _ _ Hsc) as (Hend & Hb & _).
  assert (advances (parser_cursor self) [u] y) as Ha.
  { apply (advances_takes is_alphanumeric s Normal); [done|]. split_and!; [by eapply moved_trans|done|]. exists u. split_and!; [done|done|done|]. auto. }
  split_and!; [|done| | |cbn [parser_cursor with_cursor]; rewrite Ho2, Hend; by eapply scanned_progress].
  - split_and!; [destruct Hok; constructor; [done|apply Ha|done]|done|done].
  - unfold is_present. by rewrite (tile_presence _ _ _ _ (proj1 Hsc)).
  - exists (offset (parser_cursor self)), b. eapply parsed_present; [apply Hsc|by constructor].
Qed.

(** An expected token that does not come. *)
Lemma expect_missing self kind :
  parser_ok self -> is_token kind = true -> kind_at (place self) <> Some kind ->
  returns (Parser_expect is_alphanumeric self kind) (fun r =>
    does self [r.1] r.2 /\ token_kind r.1 = kind /\ is_missing r.1 = true /\ token_piece r.1 /\ place r.2 = place self).
Proof using All.
  intros Hok Hk Hne. destruct (next_token_ok self Hok) as (u & b & Hn & Hu & Hsc). unfold Parser_expect.
  assert (token_kind u <> kind) as Hku by (intros E; apply Hne; unfold kind_at; rewrite Hn; by rewrite <- E).
  eapply returns_mono; [apply (on_cursor_place self _ (fun m x => inserts is_alphanumeric s kind u (parser_cursor self) m x) (fun m => [m]) Hok)|].
  - eapply returns_mono; [by apply (expect_ok is_alphanumeric s _ kind u); [apply Hok| |]|]. intros r. by rewrite bool_decide_eq_false_2.
  - intros m x Hin. eapply (advances_inserts is_alphanumeric s); [apply Hok|done|exact Hin].
  - intros [m x] (Hd & [_ Ho _ _ Hmiss _]). cbn [fst snd] in *. split; [done|]. rewrite Hmiss. split_and!; [done|done| |exact Ho].
    exists (place self), (place self). apply parsed_missing; [by constructor|]. constructor. apply (cursor_boundary _ _ _ (po_cursor _ _ _ Hok)).
Qed.

(** An expected token, found or missing. *)
Lemma expect_does self kind :
  parser_ok self -> is_token kind = true -> kind <> EndOfFileToken ->
  returns (Parser_expect is_alphanumeric self kind) (fun r => does self [r.1] r.2 /\ token_kind r.1 = kind /\ token_piece r.1).
Proof using All.
  intros Hok Hk Hneq. destruct (next_token_ok self Hok) as (u & b & Hn & Hu & Hsc).
  destruct (decide (token_kind u = kind)) as [E|E].
  - eapply returns_mono; [apply (on_cursor_place self _ (takes is_alphanumeric s Normal (parser_cursor self)) (fun m => [m]) Hok)|].
    + eapply returns_mono; [by apply (expect_ok is_alphanumeric s _ kind u); [apply Hok| |]|]. intros r. by rewrite bool_decide_eq_true_2.
    + intros m x. eapply advances_takes; [done|apply Hok].
    + intros [m x] (Hd & _ & _ & t' & Ht' & Hs & _). cbn [fst snd] in *. split; [done|].
      unfold place in Hu. assert (t' = u) as -> by congruence.
      assert (m = u) as ->; [|split; [done|]].
      { symmetry. apply forget_eof_neq; [symmetry; apply Hs|]. unfold is_eof, is_end_of_file. rewrite E. by destruct kind. }
      exists (place self), b. eapply parsed_present; [apply Hsc|]. constructor. by apply (scanned_end _ _ _ _ Hsc).
  - eapply returns_mono; [apply expect_missing; [done|done|]|by intros r (H1 & H2 & _ & H3 & _)].
    unfold kind_at. rewrite Hn. cbn. congruence.
Qed.

(** A run that takes anything moves on. *)
Lemma run_progress stop seen a l b :
  boundary (text s) a -> run_until (B := B) is_alphanumeric s stop seen a l b -> if is_nil l then b = a else a < b.
Proof using All.
  intros Ha Hl. destruct Hl as [seen a t Ht Hs|seen a t l b Ht He Hs Hrun]; [done|]. cbn [is_nil].
  destruct (stream_scan_ok (B := B) is_alphanumeric s _ Normal Ha) as (t1 & c & Ht1 & Hsc). assert (t1 = t) as -> by congruence.
  destruct (scanned_end _ _ _ _ Hsc) as (Hc & Hb & _). rewrite Hc in Hrun.
  destruct (run_parsed is_alphanumeric s _ _ _ _ _ Hb Hrun) as (Hp & _). apply parsed_boundaries in Hp as (_ & _ & Hle).
  pose proof (scanned_progress _ _ _ _ Hsc He). lia.
Qed.

Lemma skip_until_does self recovery_set :
  parser_ok self ->
  returns (Parser_skip_until is_alphanumeric self recovery_set) (fun r =>
    does self r.1 r.2 /\ present_piece r.1 /\ if is_nil r.1 then place r.2 = place self else place self < place r.2).
Proof using All.
  intros Hok. pose proof (po_cursor _ _ _ Hok) as Hc. unfold Parser_skip_until, on_cursor_skip, ParserCursor_skip_until.
  destruct (skip_until_ok is_alphanumeric s _ recovery_set Hc) as ([x l] & -> & Hs). cbn [outcome_bind fst snd] in *.
  apply returns_ret. cbn [fst snd]. pose proof (advances_skips is_alphanumeric s _ _ _ _ Hc Hs) as Ha. destruct Hs as (_ & _ & _ & Hrun).
  pose proof (cursor_boundary _ _ _ Hc) as Hb. destruct (run_parsed is_alphanumeric s _ _ _ _ _ Hb Hrun) as (Hp & _ & Hall).
  split; [|split; [by split; [|eexists _, _]|by eapply run_progress]].
  split_and!; [destruct Hok; constructor; [done|apply Ha|done]|done|done].
Qed.

Lemma skip_one_does self :
  parser_ok self -> kind_at (place self) <> Some EndOfFileToken ->
  returns (Parser_skip_one is_alphanumeric self) (fun r =>
    exists t, r.1 = Some t /\ does self [t] r.2 /\ present_piece [t] /\ place self < place r.2).
Proof using All.
  intros Hok Hne. pose proof (po_cursor _ _ _ Hok) as Hc. destruct (next_token_ok self Hok) as (u & b & Hn & Hu & Hsc).
  assert (is_end_of_file u = false) as He.
  { unfold kind_at in Hne. rewrite Hn in Hne. cbn in Hne. unfold is_end_of_file. destruct (token_kind u); done. }
  unfold Parser_skip_one, on_cursor. destruct (skip_one_ok is_alphanumeric s _ u Hc Hu) as ([o x] & -> & Hm & Hex & Hone).
  cbn [outcome_bind fst snd] in *. apply returns_ret. cbn [fst snd]. destruct (scanned_end _ _ _ _ Hsc) as (Hend & Hb & _).
  pose proof (advances_one is_alphanumeric s _ u o x Hc Hm Hex Hu Hone) as Ha. rewrite He in Hone. destruct Hone as (-> & Ho & Hr).
  exists u. split; [done|]. split; [|split].
  - split_and!; [destruct Hok; constructor; [done|apply Ha|done]|done|done].
  - split; [|exists (place self), b; eapply parsed_present; [apply Hsc|by constructor]].
    constructor; [|done]. unfold is_present. by rewrite (tile_presence _ _ _ _ (proj1 Hsc)).
  - unfold place. cbn [parser_cursor with_cursor]. rewrite Ho, Hend. by eapply scanned_progress.
Qed.
End progress.

(** ** What a list asks of its builder

    It takes separators of its kind and stretches of the text to skip. *)

Class SeparatedSinkLaws (K Item : Type) `{!SeparatedListSyntaxSink K Item} (s : SourceSnapshot) (separator : SyntaxKind) := {
  accepts : K -> Prop;
  push_item_ok k i : accepts k -> accepts (push_item k i);
  push_separator_ok k t : accepts k -> token_kind t = separator -> token_piece s t -> returns (push_separator k t) accepts;
  push_skipped_ok k l : accepts k -> present_piece s l -> returns (push_skipped k l) accepts;
}.

(** ** Separated lists

    The contracts of the two closures: the test for the end only looks, decides
    by the place alone and ends at the end of file; the parser of an item goes
    over the tokens of the item that it returns, which may be none. *)

Section separated_ok.
Context {B : Type} `{!DiagnosticSink B, !DiagnosticSinkLaws B}.
Context (is_alphanumeric : char -> bool).
Context (s : SourceSnapshot) `{!WfSnapshot s}.
Context {K Item : Type} `{!SeparatedListSyntaxSink K Item}.
Context (spec : SeparatedListSpec) `{!SeparatedSinkLaws K Item s (spec_separator_kind spec)}.
Context (at_end : Parser B -> outcome (bool * Parser B)) (parse_item : Parser B -> outcome (Item * Parser B)).
Context (ends : Z -> bool) (item_tokens : Item -> list SyntaxToken) (item_ok : Item -> Prop).

Abbreviation parser_ok := (parser_ok (B := B) is_alphanumeric s).
Abbreviation does := (does (B := B) is_alphanumeric s).
Abbreviation looks := (looks (B := B) is_alphanumeric s).
Abbreviation kind_at := (kind_at (B := B) is_alphanumeric s).
Abbreviation tokens := (fun events => concat (map (event_tokens item_tokens) events)).
Abbreviation follows := (listed (Item := Item) (spec_separator_kind spec) (allow_trailing_separator spec)).

Record list_contract : Prop := {
  lc_token : is_token (spec_separator_kind spec) = true;
  lc_not_eof : spec_separator_kind spec <> EndOfFileToken;
  lc_at_end self : parser_ok self -> returns (at_end self) (fun r => looks self r.2 /\ r.1 = ends (place self));
  lc_eof o : kind_at o = Some EndOfFileToken -> ends o = true;
  lc_item self : parser_ok self -> returns (parse_item self) (fun r => does self (item_tokens r.1) r.2 /\ item_ok r.1);
}.

Context (Hlist : list_contract).

Definition at_boundary (o : Z) : bool := ends o || bool_decide (kind_at o = Some (spec_separator_kind spec)).

Lemma boundary_looks self :
  parser_ok self ->
  returns (at_list_boundary_until is_alphanumeric self spec at_end) (fun r => looks self r.2 /\ r.1 = at_boundary (place self)).
Proof using All.
  intros Hok. unfold at_list_boundary_until, at_boundary. eapply returns_bind; [by apply lc_at_end|].
  intros [b x] [Hl ->]. cbn [fst snd] in *. destruct (ends (place self)) eqn:E; [apply returns_ret; by split|].
  eapply returns_mono; [apply (at_looks is_alphanumeric s), Hl|]. intros [b2 y] [Hl2 ->]. cbn [fst snd] in *.
  split; [by eapply looks_trans|]. destruct Hl as [_ ->]. done.
Qed.

(** The events [evs] lead from [self] and [k] to [self'] and [k']. *)
Definition lists (self : Parser B) (k : K) (evs : list (list_event Item)) (self' : Parser B) (k' : K) : Prop :=
  does self (tokens evs) self' /\ replay k evs = Ret k' /\ accepts k' /\ Forall (event_ok item_ok) evs.

Lemma lists_app x k e1 y k1 e2 z k2 : lists x k e1 y k1 -> lists y k1 e2 z k2 -> lists x k (e1 ++ e2) z k2.
Proof using.
  intros (H1 & H2 & H3 & F1) (H4 & H5 & H6 & F2). split; [|split; [|split; [done|by apply Forall_app]]].
  - rewrite event_tokens_app. by eapply does_trans.
  - by rewrite replay_app, H2.
Qed.

Lemma lists_event x k e y k' :
  does x (event_tokens item_tokens e) y -> push_event k e = Ret k' -> accepts k' -> event_ok item_ok e ->
  lists x k [e] y k'.
Proof using. intros H1 H2 H3 H4. split; [simpl; by rewrite app_nil_r|]. split; [simpl; by rewrite H2|]. split; [done|by constructor]. Qed.

Lemma lists_still x k y : looks x y -> accepts k -> lists x k [] y k.
Proof using. intros [H _] Hk. by split. Qed.

Lemma lists_looks x k y k' evs z : looks x y -> lists y k evs z k' -> lists x k evs z k'.
Proof using. intros H (H1 & H2). split; [by eapply looks_does|done]. Qed.

(** The end of a phase: an event stands at the boundary, or tokens were used. *)
Definition settled (self self' : Parser B) : Prop := at_boundary (place self') = true \/ place self < place self'.

(** Recovery behind an item that used nothing. *)
Lemma item_recovery_ok self k :
  parser_ok self -> accepts k -> at_boundary (place self) = false ->
  returns (let! recovered := recover_until is_alphanumeric self k (recovery_kinds spec) in
           let '(skipped_any, self, builder) := recovered in
           let! stop := if (skipped_any : bool) then Ret (true, self) else at_list_boundary_until is_alphanumeric self spec at_end in
           if stop.1 then Ret (stop.2, builder) else recover_current_token is_alphanumeric stop.2 builder) (fun r =>
    exists evs, Forall is_skip evs /\ lists self k evs r.1 r.2 /\ place self < place r.1).
Proof using All.
  intros Hok Hk Hno. unfold recover_until, recover_until_set.
  destruct (skip_until_does is_alphanumeric s self (RecoverySet_new (recovery_kinds spec)) Hok) as ([l x] & -> & Hd & Hp & Hpl).
  unfold push_recovered. cbn [outcome_bind fst snd] in *. destruct (push_skipped_ok k l Hk Hp) as (k1 & Ek & Hk1). rewrite Ek.
  cbn [outcome_bind]. assert (lists self k [EventSkipped l] x k1) as Hl by by apply lists_event.
  destruct l as [|t l]; cbn [is_nil negb] in *.
  2: { cbn [outcome_bind fst snd]. apply returns_ret. cbn [fst snd]. exists [EventSkipped (t :: l)]. split; [by constructor|by split]. }
  assert (parser_ok x) as Hx by apply Hd.
  destruct (boundary_looks x Hx) as ([b y] & -> & Hy & Hb). cbn [outcome_bind fst snd] in *. rewrite Hpl in Hb. rewrite Hb, Hno.
  assert (parser_ok y) as Hyok by apply Hy. assert (place y = place self) as Hpy by (destruct Hy as [_ ->]; done).
  unfold recover_current_token. destruct (skip_one_does is_alphanumeric s y Hyok) as ([o z] & -> & t & Ho & Hdz & Hpz & Hlt).
  { rewrite Hpy. intros E. apply lc_eof in E; [|done]. unfold at_boundary in Hno. by rewrite E in Hno. }
  cbn [outcome_bind fst snd] in *. subst o. destruct (push_skipped_ok k1 [t] Hk1 Hpz) as (k2 & Ek2 & Hk2). rewrite Ek2. cbn [outcome_bind].
  apply returns_ret. cbn [fst snd]. exists ([EventSkipped []] ++ [EventSkipped [t]]). split; [by repeat constructor|]. split; [|lia].
  eapply lists_app; [exact Hl|]. eapply lists_looks; [exact Hy|]. by apply lists_event.
Qed.

Lemma list_item_ok self k :
  parser_ok self -> accepts k ->
  returns (parse_separated_list_item_until is_alphanumeric self k spec at_end parse_item) (fun r =>
    exists item skips, Forall is_skip skips /\ lists self k (EventItem item :: skips) r.1 r.2 /\ settled self r.1).
Proof using All.
  intros Hok Hk. unfold parse_separated_list_item_until.
  destruct (peek_looks is_alphanumeric s self Hok) as ([t x] & -> & Hx & _ & Hstart). cbn [outcome_bind fst snd] in *.
  assert (parser_ok x) as Hxok by apply Hx. assert (place x = place self) as Hpx by apply Hx.
  destruct (lc_item Hlist x Hxok) as ([i y] & -> & Hy & Hitem). cbn [outcome_bind fst snd] in *.
  assert (lists self k [EventItem i] y (push_item k i)) as Hi.
  { eapply lists_looks; [exact Hx|]. apply lists_event; [done|done|by apply push_item_ok|done]. }
  assert (parser_ok y) as Hyok by apply Hy. pose proof (does_le is_alphanumeric s _ _ _ Hy) as Hle.
  destruct (boundary_looks y Hyok) as ([b z] & -> & Hz & Hb). cbn [outcome_bind fst snd] in *.
  assert (parser_ok z) as Hzok by apply Hz. assert (place z = place y) as Hpz by apply Hz.
  assert (lists self k [EventItem i] z (push_item k i)) as Hiz.
  { rewrite <- (app_nil_r [EventItem i]). eapply lists_app; [exact Hi|]. apply lists_still; [done|apply Hi]. }
  rewrite Hb. destruct (at_boundary (place y)) eqn:Eb; cbn [outcome_bind fst snd].
  { apply returns_ret. cbn [fst snd]. exists i, []. split; [done|]. split; [exact Hiz|]. left. by rewrite Hpz. }
  destruct (peek_looks is_alphanumeric s z Hzok) as ([t2 w] & -> & Hw & _ & Hstart2). cbn [outcome_bind fst snd] in *.
  assert (parser_ok w) as Hwok by apply Hw. assert (place w = place z) as Hpw by apply Hw.
  assert (lists self k [EventItem i] w (push_item k i)) as Hiw.
  { rewrite <- (app_nil_r [EventItem i]). eapply lists_app; [exact Hiz|]. apply lists_still; [done|apply Hi]. }
  destruct (token_start t2 =? token_start t) eqn:Es; cbn [negb].
  - eapply returns_mono; [apply (item_recovery_ok w _ Hwok); [apply Hi|by rewrite Hpw, Hpz]|].
    intros [v k2] (evs & Hskip & Hev & Hlt). cbn [fst snd] in *. exists i, evs. split; [done|]. split; [|right; lia].
    change (EventItem i :: evs) with ([EventItem i] ++ evs). by eapply lists_app.
  - apply returns_ret. cbn [fst snd]. exists i, []. split; [done|]. split; [exact Hiw|]. right.
    assert (place self <> place z) as Hneq; [|lia]. intros E. rewrite <- E, <- Hstart in Hstart2. injection Hstart2 as Et.
    apply Z.eqb_neq in Es. done.
Qed.

(** What a state of the loop owes: the events so far, which what follows from
    its position completes. *)
Definition listing (self : Parser B) (k : K) (st : SeparatedListPosition * Parser B * K) : Prop :=
  let '(position, self', k') := st in
  exists evs, lists self k evs self' k' /\ forall rest,
    follows position rest ->
    follows (PositionItem true) (evs ++ rest).

(** A turn uses tokens, or brings the list closer to a turn that does. *)
Definition list_measure (st : SeparatedListPosition * Parser B * K) : nat :=
  let '(position, self', k') := st in
  (3 * remaining s (place self') +
   match position with PositionItem _ => 1 | PositionSeparator => if at_boundary (place self') then 0 else 2 end)%nat.

Lemma listing_step self k position x kx evs position' y ky :
  listing self k (position, x, kx) -> lists x kx evs y ky ->
  (forall rest, follows position' rest ->
    follows position (evs ++ rest)) ->
  listing self k (position', y, ky).
Proof using.
  intros (evs0 & H1 & H2) H3 H4. exists (evs0 ++ evs). split; [by eapply lists_app|]. intros rest Hr. rewrite <- app_assoc.
  apply H2, H4, Hr.
Qed.

Lemma place_remaining x y : parser_ok x -> parser_ok y -> place x < place y -> (remaining s (place y) < remaining s (place x))%nat.
Proof using. intros Hx Hy. apply (cursor_remaining is_alphanumeric s); [apply Hx|apply Hy]. Qed.

Lemma list_step_ok self k st :
  listing self k st -> parser_ok st.1.2 ->
  returns (list_step is_alphanumeric spec at_end parse_item st) (fun step =>
    match step with
    | inl st' => (listing self k st' /\ parser_ok st'.1.2) /\ (list_measure st' < list_measure st)%nat
    | inr r => exists evs, lists self k evs r.1 r.2 /\
        follows (PositionItem true) evs /\ ends (place r.1) = true
    end).
Proof using All.
  destruct st as [[position x] kx]. cbn [fst snd]. intros Hlisting Hx. assert (accepts kx) as Hkx by (by destruct Hlisting as (? & (_ & _ & ? & _) & _)).
  unfold list_step. destruct (lc_at_end Hlist x Hx) as ([b y] & -> & Hy & Hb). cbn [outcome_bind fst snd] in *. rewrite Hb.
  assert (parser_ok y) as Hyok by apply Hy. assert (place y = place x) as Hpy by apply Hy.
  assert (lists x kx [] y kx) as Hstill by by apply lists_still.
  assert (listing self k (position, y, kx)) as Hly by by eapply listing_step.
  assert (follows position [] -> ends (place x) = true -> exists evs, lists self k evs y kx /\ follows (PositionItem true) evs /\
    ends (place y) = true) as Hstop.
  { intros Hend E. destruct Hly as (evs & Hl & Hrest). exists evs. split; [done|]. split; [|by rewrite Hpy].
    rewrite <- (app_nil_r evs). by apply Hrest. }
  destruct position as [allow_end|].
  - destruct (allow_end && ends (place x)) eqn:E.
    { apply returns_ret. apply andb_true_iff in E as [-> E]. apply Hstop; [constructor|exact E]. }
    eapply returns_bind; [by apply list_item_ok|]. intros [z kz] (item & skips & Hskip & Hz & Hset). cbn [fst snd] in *.
    assert (parser_ok z) as Hzok by apply Hz. apply returns_ret. cbn [fst snd]. split; [split; [|done]|].
    + eapply listing_step; [exact Hly|exact Hz|]. intros rest Hr. by constructor.
    + pose proof (does_le is_alphanumeric s _ _ _ (proj1 Hz)) as Hle. cbn [list_measure]. destruct Hset as [Hbd|Hlt].
      * rewrite Hbd. unfold remaining. lia.
      * pose proof (place_remaining y z Hyok Hzok Hlt). rewrite Hpy in *. destruct (at_boundary (place z)); lia.
  - destruct (ends (place x)) eqn:E.
    { apply returns_ret. by apply Hstop; [constructor|]. }
    destruct (consume_if_does is_alphanumeric s y (spec_separator_kind spec) Hyok (lc_not_eof Hlist)) as ([[t|] z] & -> & Hsep);
      cbn [outcome_bind fst snd] in *.
    + destruct Hsep as (Hz & Hkind & Hpres & Hpiece & Hlt). destruct (push_separator_ok kx t Hkx Hkind Hpiece) as (kz & Ek & Hkz).
      rewrite Ek. cbn [outcome_bind]. assert (parser_ok z) as Hzok by apply Hz. apply returns_ret. cbn [fst snd]. split; [split; [|done]|].
      * eapply listing_step; [exact Hly|by apply (lists_event y kx (EventSeparator t))|]. intros rest Hr. by constructor.
      * pose proof (place_remaining y z Hyok Hzok Hlt). rewrite Hpy in *. cbn [list_measure]. lia.
    + destruct Hsep as (Hz & Hne). assert (parser_ok z) as Hzok by apply Hz. assert (place z = place y) as Hpz by apply Hz.
      destruct (expect_missing is_alphanumeric s z (spec_separator_kind spec) Hzok (lc_token Hlist)) as ([m w] & -> & Hw & Hkind & Hmiss & Hpiece & Hpw).
      { by rewrite Hpz. }
      cbn [outcome_bind fst snd] in *. destruct (push_separator_ok kx m Hkx Hkind Hpiece) as (kw & Ek & Hkw). rewrite Ek. cbn [outcome_bind].
      apply returns_ret. cbn [fst snd]. split; [split; [|apply Hw]|].
      * eapply listing_step; [exact Hly|eapply lists_looks; [exact Hz|by apply (lists_event z kx (EventSeparator m))]|].
        intros rest Hr. by apply listed_missing.
      * cbn [list_measure]. rewrite Hpw, Hpz, Hpy in *. unfold at_boundary. rewrite E, bool_decide_eq_false_2 by done. cbn [orb]. lia.
Qed.

Lemma separated_list_ok self k :
  parser_ok self -> accepts k ->
  returns (parse_separated_list_until is_alphanumeric self k spec at_end parse_item) (fun r =>
    exists evs, lists self k evs r.1 r.2 /\
      follows (PositionItem true) evs /\ ends (place r.1) = true).
Proof using All.
  intros Hok Hk. unfold parse_separated_list_until.
  apply (loop_rule (fun st => listing self k st /\ parser_ok st.1.2) list_measure).
  - intros st [H1 H2]. by apply list_step_ok.
  - split; [|done]. exists []. split; [|done]. split; [by apply does_refl|done].
  - cbn [list_measure]. unfold list_fuel, parser_fuel. rewrite (po_snapshot _ _ _ Hok).
    pose proof (remaining_fuel s (place self)) as Hf.
    assert (0 <= place self) by (apply (boundary_range (text s)), (cursor_boundary is_alphanumeric s), Hok). specialize (Hf ltac:(done)). lia.
Qed.
End separated_ok.

(** ** Lists of terminators *)

Section list_end.
Context {B : Type} `{!DiagnosticSink B, !DiagnosticSinkLaws B}.
Context (is_alphanumeric : char -> bool).
Context (s : SourceSnapshot) `{!WfSnapshot s}.

Definition at_terminator (terminators : list SyntaxKind) (o : Z) : bool :=
  match kind_at (B := B) is_alphanumeric s o with
  | Some kind => kinds_contain terminators kind || bool_decide (kind = EndOfFileToken)
  | None => false
  end.

Lemma at_list_end_looks terminators self :
  parser_ok (B := B) is_alphanumeric s self ->
  returns (at_list_end is_alphanumeric terminators self) (fun r =>
    looks is_alphanumeric s self r.2 /\ r.1 = at_terminator terminators (place self)).
Proof using All.
  intros Hok. unfold at_list_end, at_terminator. destruct (next_token_ok is_alphanumeric s self Hok) as (t & b & Hn & _).
  assert (kind_at (B := B) is_alphanumeric s (place self) = Some (token_kind t)) as Hk by (unfold kind_at; by rewrite Hn).
  rewrite Hk. eapply returns_bind; [by apply (at_any_looks is_alphanumeric s)|]. intros [c x] [Hl ->]. cbn [fst snd] in *. rewrite Hk.
  destruct (kinds_contain terminators (token_kind t)); [apply returns_ret; by split|].
  eapply returns_mono; [apply (at_looks is_alphanumeric s), Hl|]. intros [d y] [Hl2 ->]. cbn [fst snd] in *.
  split; [by eapply looks_trans|]. destruct Hl as [_ ->]. rewrite Hk. apply bool_decide_ext. split; congruence.
Qed.
End list_end.

(** ** Lists as nodes

    The builders of lists in [bray-syntax].  An item is its node, with the tree
    that it was built from beside it to say which tokens it holds. *)

#[export] Instance green_list_sink : SeparatedListSyntaxSink SyntaxListBuilder (GreenNode * Cst) := {
  separated_recovery := list_push_skipped_tokens;
  push_item builder item := push_item_node builder item.1;
  push_separator := push_separator_token;
}.

Lemma push_csts_tokens l builder :
  Forall (fun t => is_present t = true) l -> push_present_tokens builder l = push_csts (map CstToken l) builder.
Proof.
  intros H. revert builder. induction H as [|t l Hp _ IH]; intros builder; [done|]. simpl. rewrite Hp. cbn [assert_ outcome_bind].
  destruct (push_token builder t); cbn [outcome_bind]; [apply IH|done|done].
Qed.

Lemma skipped_node l :
  Forall (fun t => is_present t = true) l -> l <> [] ->
  skipped_syntax_node l = let! node := build_cst SkippedSyntax (map CstToken l) in Ret (Some node).
Proof.
  intros H Hne. unfold skipped_syntax_node, build_cst. rewrite push_csts_tokens by done.
  destruct (push_csts (map CstToken l) GreenNodeBuilder_new); [|done|done]. cbn [outcome_bind]. by destruct l.
Qed.

Lemma cst_tokens_tokens l : concat (map cst_tokens (map CstToken l)) = l.
Proof. induction l as [|t l IH]; [done|]. simpl. by rewrite IH. Qed.

Section green.
Context (s : SourceSnapshot) `{!WfSnapshot s}.

Lemma push_token_piece t builder : token_piece s t -> exists builder', push_token builder t = Ret builder'.
Proof using All.
  intros (a & b & Hp). apply parsed_settle in Hp. cbn [settle] in Hp.
  destruct (push_cst_ok (text s) (CstToken (settle_token a t)) wf_fits I a b builder) as (new & E & _); [exact Hp|].
  destruct (settle_cst_spec (CstToken t) a) as (_ & Heq & _). cbn [settle_cst] in Heq. rewrite Heq in E. by eexists.
Qed.

#[export] Instance green_list_laws separator : SeparatedSinkLaws SyntaxListBuilder (GreenNode * Cst) s separator.
Proof using All.
  refine {| accepts := fun builder => separator_kind builder = Some separator |}.
  - by intros k i H.
  - intros k t Hk Ht Hp. cbn. unfold push_separator_token, require_token_kind. rewrite Hk. cbn [expect outcome_bind].
    rewrite bool_decide_eq_true_2 by done. cbn [assert_ outcome_bind].
    destruct (push_token_piece t (list_node k) Hp) as [node ->]. by apply returns_ret.
  - intros k l Hk (Hall & a & b & Hp). cbn. unfold push_skipped, list_push_skipped_tokens, push_skipped_tokens.
    destruct l as [|t l]; [by apply returns_ret|]. rewrite skipped_node by done.
    destruct (parsed_tree (text s) SkippedSyntax (map CstToken (t :: l)) (t :: l) a b) as (node & -> & _);
      [apply wf_fits|done|by apply List.Forall_forall; intros c (u & <- & _)%in_map_iff|apply cst_tokens_tokens|done|].
    by apply returns_ret.
Defined.
End green.

(** The tree of an item is that of its node. *)
Definition built (item : GreenNode * Cst) : Prop :=
  exists kind children, item.2 = CstNode kind children /\ cst_ok item.2 /\ build_cst kind children = Ret item.1.

(** What an event adds to a list; skipped tokens make a node of their own. *)
Definition event_csts (e : list_event (GreenNode * Cst)) : list Cst :=
  match e with
  | EventItem item => [item.2]
  | EventSeparator t => [CstToken t]
  | EventSkipped [] => []
  | EventSkipped l => [CstNode SkippedSyntax (map CstToken l)]
  end.

Lemma event_csts_tokens e : concat (map cst_tokens (event_csts e)) = event_tokens (fun item => cst_tokens item.2) e.
Proof.
  destruct e as [[node c]|t|[|t l]]; simpl; [by rewrite app_nil_r|done|done|]. by rewrite app_nil_r, cst_tokens_tokens.
Qed.

Lemma push_present_inv l builder builder' :
  push_present_tokens builder l = Ret builder' -> Forall (fun t => is_present t = true) l.
Proof.
  revert builder. induction l as [|t l IH]; intros builder H; [done|]. simpl in H. destruct (is_present t) eqn:E; [|done].
  cbn [assert_ outcome_bind] in H. destruct (push_token builder t) as [b| |]; [|done|done]. constructor; [done|by eapply IH].
Qed.

Lemma push_event_csts e builder builder' :
  event_ok built e -> push_event builder e = Ret builder' ->
  push_csts (event_csts e) (list_node builder) = Ret (list_node builder') /\ list_kind builder' = list_kind builder /\
  Forall cst_ok (event_csts e).
Proof.
  intros Hok Hpush. destruct e as [[node c]|t|l]; simpl in Hok, Hpush.
  - destruct Hok as (kind & children & Hc & Hcok & Hb). cbn [fst snd] in *. injection Hpush as <-. cbn [event_csts push_csts fst snd].
    subst c. rewrite push_cst_node, Hb. split_and!; [done|done|by constructor].
  - unfold push_separator, green_list_sink, push_separator_token, require_token_kind in Hpush.
    destruct (separator_kind builder); [|done]. cbn [expect outcome_bind] in Hpush. destruct (bool_decide _); [|done].
    cbn [assert_ outcome_bind] in Hpush. cbn [event_csts push_csts push_cst]. destruct (push_token (list_node builder) t); [|done|done].
    cbn [outcome_bind] in *. injection Hpush as <-. split_and!; [done|done|by repeat constructor].
  - unfold push_skipped, separated_recovery, green_list_sink, list_push_skipped_tokens, push_skipped_tokens in Hpush.
    destruct l as [|t l]; [injection Hpush as <-; by split_and!|].
    assert (Forall (fun t => is_present t = true) (t :: l)) as Hall.
    { unfold skipped_syntax_node in Hpush. destruct (push_present_tokens GreenNodeBuilder_new (t :: l)) eqn:E; [|done|done].
      by eapply push_present_inv. }
    rewrite skipped_node in Hpush by done. cbn [event_csts push_csts]. rewrite push_cst_node.
    destruct (build_cst SkippedSyntax (map CstToken (t :: l))) as [node| |]; [|done|done]. cbn [outcome_bind] in *.
    injection Hpush as <-. split_and!; [done|done|]. constructor; [|done]. apply cst_ok_node. split; [done|].
    by apply List.Forall_forall; intros c (u & <- & _)%in_map_iff.
Qed.

Lemma push_csts_app l1 l2 builder : push_csts (l1 ++ l2) builder = let! builder := push_csts l1 builder in push_csts l2 builder.
Proof. revert builder. induction l1 as [|c l1 IH]; intros builder; [done|]. simpl. destruct (push_cst c builder); [apply IH|done|done]. Qed.

Lemma replay_csts evs builder builder' :
  Forall (event_ok built) evs -> replay builder evs = Ret builder' ->
  push_csts (concat (map event_csts evs)) (list_node builder) = Ret (list_node builder') /\ list_kind builder' = list_kind builder /\
  Forall cst_ok (concat (map event_csts evs)).
Proof.
  intros H. revert builder. induction H as [|e evs He _ IH]; intros builder Hr; simpl in *; [by injection Hr as <-|].
  destruct (push_event builder e) as [b| |] eqn:E; [|done|done]. destruct (push_event_csts e builder b He E) as (H1 & H2 & H3).
  destruct (IH b Hr) as (H4 & H5 & H6). rewrite push_csts_app, H1. split_and!; [exact H4|congruence|by apply Forall_app].
Qed.

Lemma event_csts_all evs :
  concat (map cst_tokens (concat (map event_csts evs))) = concat (map (event_tokens (fun item : GreenNode * Cst => cst_tokens item.2)) evs).
Proof. induction evs as [|e evs IH]; [done|]. simpl. by rewrite map_app, concat_app, event_csts_tokens, IH. Qed.

(** C4. A list of items between separators, as every list of the grammar is
    parsed: whatever its items are and whatever tokens come, the loop ends, at a
    terminator or the end of file, and no call panics.  Items and separators
    alternate, with the tokens that recovery skips behind an item; a missing
    separator is always followed by an item, and a trailing separator stands at
    the end only where the list admits one.  The parser goes over exactly the
    tokens that the list is given, in order; and if it has not read past the end
    of file, the node of the list writes the text that it has gone over. *)
Theorem separated_list_lossless {B} `{!DiagnosticSink B, !DiagnosticSinkLaws B} is_alphanumeric s `{!WfSnapshot s}
    (self : Parser B) kind builder spec parse_item :
  parser_ok is_alphanumeric s self -> spec_separator_kind spec <> EndOfFileToken ->
  with_separator kind (spec_separator_kind spec) = Ret builder ->
  (forall p, parser_ok is_alphanumeric s p ->
    returns (parse_item p) (fun r => does is_alphanumeric s p (cst_tokens r.1.2) r.2 /\ built r.1)) ->
  returns (parse_separated_list is_alphanumeric self builder spec parse_item) (fun '(self', builder') =>
    at_terminator (B := B) is_alphanumeric s (terminators spec) (place self') = true /\
    exists evs, let tokens := concat (map (event_tokens (fun item : GreenNode * Cst => cst_tokens item.2)) evs) in
      listed (spec_separator_kind spec) (allow_trailing_separator spec) (PositionItem true) evs /\
      replay builder evs = Ret builder' /\
      does is_alphanumeric s self tokens self' /\
      (exact is_alphanumeric s (parser_cursor self) -> past_end tokens = false ->
       returns (SyntaxListBuilder_build builder') (fun node =>
         GreenNode_kind node = kind /\
         forall w, write_source_text node (text s) (place self) w = Ret (w ++ between (text s) (place self) (place self'))))).
Proof.
  intros Hok Hneq Hnew Hitem. unfold with_separator, SyntaxListBuilder_new in Hnew.
  destruct (is_token (spec_separator_kind spec)) eqn:Htok; [|done]. destruct (is_node kind) eqn:Hnode; [|done].
  injection Hnew as Hnew. unfold parse_separated_list.
  eapply returns_mono.
  - apply (separated_list_ok is_alphanumeric s spec _ parse_item (at_terminator (B := B) is_alphanumeric s (terminators spec))
             (fun item => cst_tokens item.2) built); [|done|by rewrite <- Hnew].
    constructor; [done|done|by apply at_list_end_looks| |done].
    intros o E. unfold at_terminator. rewrite E. by rewrite bool_decide_eq_true_2, orb_true_r.
  - intros [self' builder'] (evs & (Hd & Hr & _ & Hb) & Hl & He). cbn [fst snd] in *. split; [done|]. exists evs.
    split; [done|]. split; [done|]. split; [exact Hd|].
    intros Hex Hpast. destruct (ad_exact _ _ _ _ _ (proj2 (proj2 Hd)) Hex) as [Hp|[Hp _]]; [congruence|].
    destruct (replay_csts evs builder builder' Hb Hr) as (H1 & H2 & H3).
    destruct (parsed_tree (text s) kind (concat (map event_csts evs)) _ _ _ wf_fits Hnode H3 eq_refl
                ltac:(rewrite event_csts_all; exact Hp)) as (node & En & Hk & _ & _ & Hw).
    exists node. split; [|by split]. unfold SyntaxListBuilder_build. rewrite H2. rewrite <- Hnew in H1 |- *. cbn [list_node list_kind] in *.
    unfold build_cst in En. by rewrite H1 in En.
Qed.

(** A list of identifiers between commas, up to a semicolon. *)
Definition sample_item (self : Parser Bag) : outcome (GreenNode * Cst * Parser Bag) :=
  let! r := Parser_expect ascii_table self IdentifierToken in
  let! node := build_cst IdentifierListItem [CstToken r.1] in
  Ret ((node, CstNode IdentifierListItem [CstToken r.1]), r.2).

Definition sample_spec : SeparatedListSpec :=
  {| spec_separator_kind := CommaToken; terminators := [SemicolonToken];
     recovery_kinds := separated_list_recovery_kinds [IdentifierToken] CommaToken [SemicolonToken]; allow_trailing_separator := true |}.

Definition list_sample : SourceSnapshot := unit_snapshot (lit "a, { b c, ; d").

Definition sample_builder : SyntaxListBuilder :=
  {| list_node := GreenNodeBuilder_new; list_kind := IdentifierList; separator_kind := Some CommaToken |}.

Lemma sample_item_ok `{!WfSnapshot list_sample} p :
  parser_ok ascii_table list_sample p ->
  returns (sample_item p) (fun r => does ascii_table list_sample p (cst_tokens r.1.2) r.2 /\ built r.1).
Proof.
  intros Hp. unfold sample_item.
  eapply returns_bind; [by apply (expect_does ascii_table list_sample)|]. intros [t x] (Hd & _ & a & b & Hpar). cbn [fst snd] in *.
  destruct (parsed_tree (text list_sample) IdentifierListItem [CstToken t] [t] a b) as (node & E & _);
    [apply wf_fits|done|by repeat constructor|done|done|].
  rewrite E. apply returns_ret. cbn [fst snd]. split; [exact Hd|]. exists IdentifierListItem, [CstToken t]. cbn [fst snd].
  split; [done|]. split; [|exact E]. apply cst_ok_node. split; [done|by repeat constructor].
Qed.

(** Behind [a,] an item is missing and the brace is skipped; the comma between
    [b] and [c] is missing; the comma before the semicolon is a trailing one. *)
Example list_sample_text :
  (let! r := parse_separated_list ascii_table (Parser_new list_sample) sample_builder sample_spec sample_item in
   let! node := SyntaxListBuilder_build r.2 in write_source_text node (text list_sample) 0 []) = Ret (lit "a, { b c, ").
Proof. by vm_compute. Qed.

Lemma separated_list_lossless_witness :
  returns (parse_separated_list ascii_table (Parser_new list_sample) sample_builder sample_spec sample_item) (fun '(self', builder') =>
    at_terminator (B := Bag) ascii_table list_sample [SemicolonToken] (place self') = true).
Proof.
  assert (WfSnapshot list_sample) as Hwf by by apply ascii_snapshot_wf.
  eapply returns_mono.
  - apply (separated_list_lossless ascii_table list_sample (Parser_new list_sample) IdentifierList sample_builder sample_spec sample_item);
      [exact (proj1 (parser_new_ok (B := Bag) ascii_table list_sample))|done|done|exact sample_item_ok].
  - intros [self' builder'] [H _]. exact H.
Defined.
