(* ===== verification/ParserExpression.v ===== *)
(** * Operator expressions

    [bray-parser/src/parser/expression/operator.rs]: the precedence engine, with
    the nodes that it builds ([bray-syntax/src/node/definition.rs],
    [syntax/expression/root.rs]) and the two ways out that it takes by itself, a
    missing operand and the nesting limit ([expression/primary.rs]).

    The parsers of a postfix expression and of a case pattern are arguments, as
    is the closure that says where an expression ends.  They are called with this
    closure, and change nothing but the parser.

    The grammar that the language documents ([docs/language/syntax-grammar.md])
    is stated apart from the binding powers of the code. *)

From Stdlib Require Import ZArith Lia String.
From stdpp Require Import base list numbers option.
From S2P Require Import Prelude Utf8 SourceText Snapshot SyntaxKind SyntaxToken.
From S2P Require Import DiagnosticKind Diagnostic DiagnosticBag LexText LexTrivia LexLiteral LexScanner TokenSource.
From S2P Require Import GreenTree SyntaxWalk ParserDiagnostic ParserCursor ParserState ParserList.

(** ** Typed nodes

    What the macro [define_source_syntax_node] makes for every kind of node. *)

Record source_node := { sn_source : SourceSnapshot; sn_node : GreenNode; sn_start : TextSize }.

Record source_builder := { sb_source : SourceSnapshot; sb_node : GreenNodeBuilder; sb_start : TextSize }.

Definition node_builder (source : SourceSnapshot) (start : TextSize) : source_builder :=
  {| sb_source := source; sb_node := GreenNodeBuilder_new; sb_start := start |}.

Definition sb_with (self : source_builder) (node : GreenNodeBuilder) : source_builder :=
  {| sb_source := sb_source self; sb_node := node; sb_start := sb_start self |}.

Definition push_child (self : source_builder) (child : source_node) : source_builder := sb_with self (push_node (sb_node self) (sn_node child)).

Definition from_builder (kind : SyntaxKind) (self : source_builder) : outcome source_node :=
  let! node := GreenNodeBuilder_build (sb_node self) kind in
  Ret {| sn_source := sb_source self; sn_node := node; sn_start := sb_start self |}.

Definition sn_full_range (self : source_node) : outcome TextRange := full_range_from_width (sn_start self) (GreenNode_full_width (sn_node self)).

#[export] Instance source_builder_sink : RecoverySyntaxSink source_builder := fun self tokens =>
  let! node := push_skipped_tokens (sb_node self) tokens in Ret (sb_with self node).

(** [ExpressionSyntax] and [PrimaryExpressionSyntax] *)
Definition ExpressionSyntax_build : source_builder -> outcome source_node := from_builder Expression.

Definition push_operator_token (self : source_builder) (token : SyntaxToken) : outcome source_builder :=
  let! _ := assert_ (is_expression_operator (token_kind token)) in
  let! node := push_token (sb_node self) token in
  Ret (sb_with self node).

Definition PrimaryExpressionSyntax_build : source_builder -> outcome source_node := from_builder PrimaryExpression.

Definition primary_push_token (self : source_builder) (token : SyntaxToken) : outcome source_builder :=
  let! _ := assert_ (is_token (token_kind token)) in
  let! node := push_token (sb_node self) token in
  Ret (sb_with self node).

(** ** operator.rs *)

Definition PREFIX_RIGHT_BINDING_POWER : u8 := 20.

Inductive OperatorAssociativity := AssocLeft | AssocRight | AssocNone.

#[export] Instance associativity_eq_dec : EqDecision OperatorAssociativity.
Proof. solve_decision. Defined.

Record InfixOperator := { left_binding_power : u8; right_binding_power : u8; associativity : OperatorAssociativity }.

Definition infix_operator (kind : SyntaxKind) : option InfixOperator :=
  let operator l r a := Some {| left_binding_power := l; right_binding_power := r; associativity := a |} in
  match kind with
  | DotDotToken => operator 0 1 AssocNone
  | PipePipeToken => operator 1 2 AssocLeft
  | AmpersandAmpersandToken => operator 3 4 AssocLeft
  | MatchesKeyword | EqualsEqualsToken | BangEqualsToken | LessToken | LessEqualsToken | GreaterToken | GreaterEqualsToken =>
      operator 5 6 AssocNone
  | PipeToken => operator 7 8 AssocLeft
  | CaretToken => operator 9 10 AssocLeft
  | AmpersandToken => operator 11 12 AssocLeft
  | LessLessToken | GreaterGreaterToken => operator 13 14 AssocLeft
  | PlusToken | MinusToken => operator 15 16 AssocLeft
  | StarToken | SlashToken | PercentToken | AtToken => operator 17 18 AssocLeft
  | StarStarToken => operator 21 20 AssocRight
  | _ => None
  end.

Definition at_infix_operator (kind : SyntaxKind) : bool := match infix_operator kind with Some _ => true | None => false end.

Definition at_assignment_operator (kind : SyntaxKind) : bool :=
  match kind with
  | EqualsToken | PlusEqualsToken | MinusEqualsToken | StarEqualsToken | SlashEqualsToken | PercentEqualsToken | AtEqualsToken
  | AmpersandEqualsToken | PipeEqualsToken | CaretEqualsToken | LessLessEqualsToken | GreaterGreaterEqualsToken | StarStarEqualsToken => true
  | _ => false
  end.

Definition at_unary_operator (kind : SyntaxKind) : bool :=
  match kind with MinusToken | TildeToken | BangToken => true | _ => false end.

Definition at_primary_hard_boundary (kind : SyntaxKind) : bool :=
  match kind with
  | CommaToken | CloseParenToken | CloseBracketToken | CloseBraceToken | SemicolonToken | EndOfFileToken => true
  | _ => false
  end.

Section expression.
Context {B : Type} `{!DiagnosticSink B}.
Context (is_alphanumeric : char -> bool).
Context (at_boundary : Parser B -> outcome (bool * Parser B)).
Context (parse_postfix_expression_until parse_case_pattern_until : Parser B -> outcome (source_node * Parser B)).

Definition primary_to_expression (self : Parser B) (primary : source_node) : outcome source_node :=
  let! range := sn_full_range primary in
  ExpressionSyntax_build (push_child (node_builder (syntax_source self) (start range)) primary).

Definition missing_primary_expression (self : Parser B) : outcome (source_node * Parser B) :=
  let! r := Parser_peek is_alphanumeric self in
  let builder := node_builder (syntax_source r.2) (start (full_range r.1)) in
  let! identifier := Parser_expect is_alphanumeric r.2 IdentifierToken in
  let! builder := primary_push_token builder identifier.1 in
  let! primary := PrimaryExpressionSyntax_build builder in
  Ret (primary, identifier.2).

Definition missing_expression (self : Parser B) : outcome (source_node * Parser B) :=
  let! r := missing_primary_expression self in
  let! expression := primary_to_expression r.2 r.1 in
  Ret (expression, r.2).

Definition at_primary_tail_boundary (self : Parser B) : outcome (bool * Parser B) :=
  let! r := Parser_peek is_alphanumeric self in
  let kind := token_kind r.1 in
  let! b := at_boundary r.2 in
  Ret (b.1 || at_primary_hard_boundary kind || bool_decide (kind = EqualsToken) || at_infix_operator kind, b.2).

Definition recover_expression_nesting_limit (self : Parser B) : outcome (source_node * Parser B) :=
  let! r := Parser_peek is_alphanumeric self in
  let builder := node_builder (syntax_source r.2) (start (full_range r.1)) in
  let! recovered := recover_until_predicate is_alphanumeric r.2 builder at_primary_tail_boundary in
  let '(_, self, builder) := recovered in
  let! primary := PrimaryExpressionSyntax_build builder in
  let! expression := primary_to_expression self primary in
  Ret (expression, self).

(** The functions that call each other take the recursive one as an argument. *)
Definition parse_prefix_expression_until (recurse : Parser B -> u8 -> outcome (source_node * Parser B)) (self : Parser B)
    : outcome (source_node * Parser B) :=
  let! b := at_boundary self in
  if b.1 then missing_expression b.2
  else
    let! r := Parser_peek is_alphanumeric b.2 in
    if negb (at_unary_operator (token_kind r.1)) then parse_postfix_expression_until r.2
    else
      let builder := node_builder (syntax_source r.2) (start (full_range r.1)) in
      let! token := Parser_consume is_alphanumeric r.2 in
      let! builder := push_operator_token builder token.1 in
      let! operand := recurse token.2 PREFIX_RIGHT_BINDING_POWER in
      let! expression := ExpressionSyntax_build (push_child builder operand.1) in
      Ret (expression, operand.2).

(** One turn of the loop over infix operators, from the parser, the expression so
    far and [non_associative_binding_power]. *)
Definition infix_step (recurse : Parser B -> u8 -> outcome (source_node * Parser B)) (min_binding_power : u8)
    (state : Parser B * source_node * option u8) : outcome (Parser B * source_node * option u8 + source_node * Parser B) :=
  let '(self, expression, non_associative_binding_power) := state in
  let! b := at_boundary self in
  if b.1 then break_ (expression, b.2)
  else
    let! r := Parser_peek is_alphanumeric b.2 in
    let self := r.2 in
    match infix_operator (token_kind r.1) with
    | None => break_ (expression, self)
    | Some operator =>
        if bool_decide (non_associative_binding_power = Some (left_binding_power operator)) then break_ (expression, self)
        else if left_binding_power operator <? min_binding_power then break_ (expression, self)
        else
          let! range := sn_full_range expression in
          let builder := push_child (node_builder (syntax_source self) (start range)) expression in
          let! token := Parser_consume is_alphanumeric self in
          let is_pattern_test := bool_decide (token_kind token.1 = MatchesKeyword) in
          let! builder := push_operator_token builder token.1 in
          let! operand := if is_pattern_test then parse_case_pattern_until token.2 else recurse token.2 (right_binding_power operator) in
          let! expression := ExpressionSyntax_build (push_child builder operand.1) in
          continue_ (operand.2, expression,
            if decide (associativity operator = AssocNone) then Some (left_binding_power operator) else non_associative_binding_power)
    end.

Fixpoint parse_expression_with_min_binding_power_until (fuel : nat) (self : Parser B) (min_binding_power : u8)
    : outcome (source_node * Parser B) :=
  match fuel with
  | O => OutOfFuel
  | S fuel =>
      let recurse := parse_expression_with_min_binding_power_until fuel in
      let! entered := try_enter_syntax_nesting is_alphanumeric self in
      if negb entered.1 then recover_expression_nesting_limit entered.2
      else
        let! prefix := parse_prefix_expression_until recurse entered.2 in
        let! r := loop (parser_fuel self) (infix_step recurse min_binding_power) (prefix.2, prefix.1, None) in
        let! self := leave_syntax_nesting r.2 in
        Ret (r.1, self)
  end.

(** Every call is one level deeper, and the deepest fails to enter. *)
Definition nesting_fuel : nat := S (Z.to_nat MAX_SYNTAX_NESTING_DEPTH).

Definition parse_non_assignment_expression_until (self : Parser B) : outcome (source_node * Parser B) :=
  parse_expression_with_min_binding_power_until nesting_fuel self 0.

Definition parse_assignment_expression_until (recurse : Parser B -> outcome (source_node * Parser B)) (self : Parser B)
    : outcome (source_node * Parser B) :=
  let! lhs := parse_non_assignment_expression_until self in
  let! b := at_boundary lhs.2 in
  if b.1 then Ret (lhs.1, b.2)
  else
    let! r := Parser_peek is_alphanumeric b.2 in
    if negb (at_assignment_operator (token_kind r.1)) then Ret (lhs.1, r.2)
    else
      let! range := sn_full_range lhs.1 in
      let builder := push_child (node_builder (syntax_source r.2) (start range)) lhs.1 in
      let! token := Parser_consume is_alphanumeric r.2 in
      let! builder := push_operator_token builder token.1 in
      let! rhs := recurse token.2 in
      let! expression := ExpressionSyntax_build (push_child builder rhs.1) in
      Ret (expression, rhs.2).

Fixpoint parse_expression_until (fuel : nat) (self : Parser B) : outcome (source_node * Parser B) :=
  match fuel with
  | O => OutOfFuel
  | S fuel =>
      let! entered := try_enter_syntax_nesting is_alphanumeric self in
      if negb entered.1 then recover_expression_nesting_limit entered.2
      else
        let! expression := parse_assignment_expression_until (parse_expression_until fuel) entered.2 in
        let! self := leave_syntax_nesting expression.2 in
        Ret (expression.1, self)
  end.
End expression.

(** ** Going over the text *)

Section goes.
Context {B : Type} `{!DiagnosticSink B, !DiagnosticSinkLaws B}.
Context (is_alphanumeric : char -> bool).
Context (s : SourceSnapshot) `{!WfSnapshot s}.

Abbreviation parser_ok := (parser_ok (B := B) is_alphanumeric s).
Abbreviation does := (does (B := B) is_alphanumeric s).
Abbreviation looks := (looks (B := B) is_alphanumeric s).
Abbreviation next_token := (next_token (B := B) is_alphanumeric s).

(** A parser whose cached tokens are those of the text. *)
Definition ready (self : Parser B) : Prop := parser_ok self /\ exact is_alphanumeric s (parser_cursor self).

(** The parser has gone over [l] and has not taken the end of file. *)
Definition goes (self : Parser B) (l : list SyntaxToken) (self' : Parser B) : Prop := does self l self' /\ existsb present_eof l = false.

Lemma not_past_end l : existsb present_eof l = false -> past_end l = false.
Proof using. induction l as [|t l IH]; simpl; [done|]. intros [-> H]%orb_false_iff. by rewrite IH. Qed.

Lemma goes_ready self l self' : ready self -> goes self l self' -> ready self' /\ parsed (text s) (place self) l (place self').
Proof using.
  intros [_ Hex] [Hd He]. destruct (ad_exact _ _ _ _ _ (proj2 (proj2 Hd)) Hex) as [H|[Hp Hx]]; [by rewrite not_past_end in H|].
  split; [|done]. split; [apply Hd|by apply Hx].
Qed.

Lemma goes_trans x l1 y l2 z : goes x l1 y -> goes y l2 z -> goes x (l1 ++ l2) z.
Proof using. intros [H1 H2] [H3 H4]. split; [by eapply does_trans|]. by rewrite existsb_app, H2. Qed.

Lemma looks_goes x y l z : looks x y -> goes y l z -> goes x l z.
Proof using. intros H [H1 H2]. split; [by eapply looks_does|done]. Qed.

Lemma goes_nil self : ready self -> goes self [] self.
Proof using. intros [H _]. split; [by apply does_refl|done]. Qed.

Lemma looks_ready x y : ready x -> looks x y -> ready y.
Proof using. intros Hx [Hd _]. apply (goes_ready x [] y Hx). by split. Qed.

Lemma peek_ready self :
  ready self -> returns (Parser_peek is_alphanumeric self) (fun r => looks self r.2 /\ ready r.2 /\ next_token (place self) = Some r.1 /\
    start (full_range r.1) = place self /\ place self <= zlen (text s)).
Proof using All.
  intros Hr. pose proof Hr as [Hok Hex].
  eapply returns_mono; [apply (on_cursor_place is_alphanumeric s self _ (sees is_alphanumeric s (parser_cursor self) 0) (fun _ => []) Hok);
    [apply cursor_lookahead_ok; [done|apply Hok]|]|].
  { intros u x. apply advances_sees, Hok. }
  intros [u x] (Hd & _ & Ho & _ & _ & Hsee). cbn [fst snd] in *. destruct (Hsee Hex) as [_ Hu]. specialize (Hu eq_refl).
  assert (looks self x) as Hl by by split. split; [done|]. split; [by eapply looks_ready|].
  destruct (next_token_ok is_alphanumeric s self Hok) as (t & b & Hn & Ht & Hsc). unfold place in *. assert (u = t) as -> by congruence.
  split; [done|]. rewrite (token_tile_full_range _ _ _ _ (proj1 Hsc)). split; [done|].
  pose proof (cursor_boundary _ _ _ (po_cursor _ _ _ Hok)) as Hb. apply boundary_range in Hb. lia.
Qed.

Lemma takes_ready self t (call : ParserCursor B -> outcome (SyntaxToken * ParserCursor B)) :
  ready self -> next_token (place self) = Some t -> token_kind t <> EndOfFileToken ->
  returns (call (parser_cursor self)) (fun r => takes is_alphanumeric s Normal (parser_cursor self) r.1 r.2) ->
  returns (on_cursor self call) (fun r => r.1 = t /\ goes self [t] r.2 /\ place r.2 = end_ (full_range t) /\ place self < place r.2).
Proof using All.
  intros [Hok Hex] Hn Hk Hcall. destruct (next_token_ok is_alphanumeric s self Hok) as (u & b & Hu & Ht & Hsc). assert (u = t) as -> by congruence.
  eapply returns_mono; [apply (on_cursor_place is_alphanumeric s self _ (takes is_alphanumeric s Normal (parser_cursor self)) (fun m => [m]) Hok); [exact Hcall|]|].
  - intros m x. eapply advances_takes; [done|apply Hok].
  - intros [m x] (Hd & _ & _ & t' & Ht' & _ & Ho & Hx). cbn [fst snd] in *. unfold place in *. assert (t' = t) as -> by congruence.
    destruct (Hx Hex) as [-> _]. assert (is_eof t = false) as He by (unfold is_eof, is_end_of_file; by destruct (token_kind t)).
    split; [done|]. split; [|split; [done|]].
    + split; [done|]. cbn [existsb]. rewrite orb_false_r. unfold present_eof. unfold is_eof in He. rewrite He. by rewrite andb_false_r.
    + rewrite Ho. destruct (scanned_end _ _ _ _ Hsc) as (-> & _). by eapply scanned_progress.
Qed.

Lemma consume_ready self t :
  ready self -> next_token (place self) = Some t -> token_kind t <> EndOfFileToken ->
  returns (Parser_consume is_alphanumeric self) (fun r =>
    r.1 = t /\ goes self [t] r.2 /\ place r.2 = end_ (full_range t) /\ place self < place r.2).
Proof using All. intros Hr Hn Hk. apply takes_ready; [done|done|done|]. apply cursor_consume_ok; [done|apply Hr]. Qed.

Lemma expect_present self t :
  ready self -> next_token (place self) = Some t -> token_kind t <> EndOfFileToken -> is_token (token_kind t) = true ->
  returns (Parser_expect is_alphanumeric self (token_kind t)) (fun r =>
    r.1 = t /\ goes self [t] r.2 /\ place r.2 = end_ (full_range t) /\ place self < place r.2).
Proof using All.
  intros Hr Hn Hk Htok. destruct (next_token_ok is_alphanumeric s self (proj1 Hr)) as (u & b & Hu & Ht & _). assert (u = t) as -> by congruence.
  apply takes_ready; [done|done|done|]. eapply returns_mono; [by apply (expect_ok is_alphanumeric s _ (token_kind t) t); [apply Hr| |]|].
  intros r. by rewrite bool_decide_eq_true_2.
Qed.

Lemma expect_ready self kind :
  ready self -> is_token kind = true -> kind <> EndOfFileToken ->
  returns (Parser_expect is_alphanumeric self kind) (fun r => goes self [r.1] r.2 /\ token_kind r.1 = kind).
Proof using All.
  intros [Hok _] Hk Hne. eapply returns_mono; [by apply (expect_does is_alphanumeric s)|]. intros r (Hd & Ht & _). split; [|done].
  split; [done|]. cbn [existsb]. rewrite orb_false_r. unfold present_eof, is_end_of_file. rewrite Ht. destruct kind; try done; by rewrite andb_false_r.
Qed.

(** ** Nodes over the text *)

(** A node at [a] that was built from the tree [c]. *)
Definition node_is (e : source_node) (a : Z) (c : Cst) : Prop :=
  sn_source e = s /\ sn_start e = a /\ exists kind children, c = CstNode kind children /\ cst_ok c /\ build_cst kind children = Ret (sn_node e).

(** A builder at [a] that was given the trees [l]. *)
Definition builder_is (b : source_builder) (a : Z) (l : list Cst) : Prop :=
  sb_source b = s /\ sb_start b = a /\ Forall cst_ok l /\ push_csts l GreenNodeBuilder_new = Ret (sb_node b).

Lemma builder_new a : builder_is (node_builder s a) a [].
Proof using. by split_and!. Qed.

Lemma builder_child b a l e a' c : builder_is b a l -> node_is e a' c -> builder_is (push_child b e) a (l ++ [c]).
Proof using.
  intros (H1 & H2 & H3 & H4) (_ & _ & kind & children & -> & Hc & Hb). split_and!; [done|done|apply Forall_app; by split; [|constructor]|].
  rewrite push_csts_app, H4. cbn [outcome_bind push_csts]. rewrite push_cst_node, Hb. done.
Qed.

Lemma builder_token b a l t :
  builder_is b a l -> token_piece s t -> returns (push_token (sb_node b) t) (fun node => builder_is (sb_with b node) a (l ++ [CstToken t])).
Proof using WfSnapshot0.
  intros (H1 & H2 & H3 & H4) Hp. destruct (push_token_piece s t (sb_node b) Hp) as [node E]. exists node. split; [done|].
  split_and!; [done|done|apply Forall_app; by split; [|constructor]|]. rewrite push_csts_app, H4. cbn [outcome_bind push_csts push_cst]. by rewrite E.
Qed.

Lemma operator_token b a l t :
  builder_is b a l -> token_piece s t -> is_expression_operator (token_kind t) = true ->
  returns (push_operator_token b t) (fun b' => builder_is b' a (l ++ [CstToken t])).
Proof using WfSnapshot0.
  intros Hb Hp Ht. unfold push_operator_token. rewrite Ht. cbn [assert_ outcome_bind].
  eapply returns_bind; [by eapply builder_token|]. intros node Hn. by apply returns_ret.
Qed.

Lemma builder_build kind b a l z :
  builder_is b a l -> is_node kind = true -> parsed (text s) a (concat (map cst_tokens l)) z ->
  returns (from_builder kind b) (fun e => node_is e a (CstNode kind l)).
Proof using WfSnapshot0.
  intros (H1 & H2 & H3 & H4) Hk Hp. destruct (parsed_tree (text s) kind l _ a z wf_fits Hk H3 eq_refl Hp) as (node & E & _).
  unfold from_builder. unfold build_cst in E. rewrite H4 in E. cbn [outcome_bind] in E. rewrite E. apply returns_ret.
  split; [done|]. split; [done|]. exists kind, l. split; [done|]. split; [by apply cst_ok_node|]. unfold build_cst. by rewrite H4.
Qed.

Lemma node_full_range e a c z : node_is e a c -> parsed (text s) a (cst_tokens c) z -> sn_full_range e = Ret {| start := a; end_ := z |}.
Proof using WfSnapshot0.
  intros (_ & <- & kind & children & -> & [Hk Hc]%cst_ok_node & Hb) Hp.
  destruct (parsed_tree (text s) kind children _ _ z wf_fits Hk Hc eq_refl Hp) as (node & E & _ & Hw & _). rewrite Hb in E. injection E as <-.
  unfold sn_full_range, full_range_from_width, TextRange_with_len, TextSize_checked_add, u32_checked_add. rewrite Hw.
  apply parsed_boundaries in Hp as (Ha & Hz & Hle). apply boundary_range in Ha. apply boundary_range in Hz. pose proof (wf_fits (s := s)).
  rewrite checked_ok by lia. cbn [expect]. do 2 f_equal. lia.
Qed.

Lemma parsed_piece a t z : parsed (text s) a [t] z -> token_piece s t.
Proof using. intros H. by exists a, z. Qed.
End goes.

(** ** The ways out *)

Section ways_out.
Context {B : Type} `{!DiagnosticSink B, !DiagnosticSinkLaws B}.
Context (is_alphanumeric : char -> bool).
Context (s : SourceSnapshot) `{!WfSnapshot s}.
Context (at_boundary : Parser B -> outcome (bool * Parser B)) (bounds : Z -> bool).

Abbreviation parser_ok := (parser_ok (B := B) is_alphanumeric s).
Abbreviation ready := (ready (B := B) is_alphanumeric s).
Abbreviation goes := (goes (B := B) is_alphanumeric s).
Abbreviation looks := (looks (B := B) is_alphanumeric s).
Abbreviation next_token := (next_token (B := B) is_alphanumeric s).

(** The test for the end of the expression looks, and decides by the place. *)
Definition boundary_contract : Prop :=
  forall self, parser_ok self -> returns (at_boundary self) (fun r => looks self r.2 /\ r.1 = bounds (place self)).

Context (Hbounds : boundary_contract).

(** The parser has gone over the tree of the node that it returns. *)
Definition parses (self : Parser B) (c : Cst) (r : source_node * Parser B) : Prop :=
  goes self (cst_tokens c) r.2 /\ node_is s r.1 (place self) c.

Lemma parses_looks x y c r : looks x y -> parses y c r -> parses x c r.
Proof using. intros Hl [H1 H2]. split; [by eapply looks_goes|]. destruct Hl as [_ <-]. done. Qed.

Lemma looks_place x y : looks x y -> place y = place x.
Proof using. by intros [_ H]. Qed.

Lemma source_of self : ready self -> syntax_source self = s.
Proof using. intros [Hok _]. apply Hok. Qed.

Lemma primary_expression_ok self a c z e x :
  ready x -> node_is s e a c -> parsed (text s) a (cst_tokens c) z -> goes self (cst_tokens c) x -> place self = a ->
  returns (primary_to_expression x e) (fun r => parses self (CstNode Expression [c]) (r, x)).
Proof using All.
  intros Hx Hn Hp Hg Ha. unfold primary_to_expression. rewrite (node_full_range s _ _ _ _ Hn Hp), (source_of _ Hx). cbn [outcome_bind start].
  eapply returns_mono; [eapply (builder_build s Expression _ a [c] z); [eapply (builder_child _ _ _ []); [apply builder_new|exact Hn]|done|]|].
  - cbn [map concat]. by rewrite app_nil_r.
  - intros r Hr. split; [cbn [cst_tokens map concat]; by rewrite app_nil_r|by rewrite Ha].
Qed.

(** An expression of one identifier, [t], from whatever [expect] returns. *)
Lemma identifier_expression self K :
  ready self ->
  (forall x, looks self x -> ready x -> returns (Parser_expect is_alphanumeric x IdentifierToken) (fun r => goes x [r.1] r.2 /\ token_kind r.1 = IdentifierToken /\ K r.1 r.2)) ->
  returns (missing_expression is_alphanumeric self) (fun r =>
    exists t, parses self (CstNode Expression [CstNode PrimaryExpression [CstToken t]]) r /\ K t r.2).
Proof using All.
  intros Hr Hexp. unfold missing_expression, missing_primary_expression.
  destruct (peek_ready is_alphanumeric s self Hr) as ([u x] & -> & Hl & Hx & _ & Hs & _). cbn [outcome_bind fst snd] in *. rewrite Hs, (source_of _ Hx).
  destruct (Hexp x Hl Hx) as ([t y] & -> & Hg & Ht & HK). cbn [outcome_bind fst snd] in *.
  destruct (goes_ready is_alphanumeric s _ _ _ Hx Hg) as [Hy Hp]. rewrite (looks_place _ _ Hl) in Hp.
  unfold primary_push_token. rewrite Ht. change (is_token IdentifierToken) with true. cbn [assert_ outcome_bind].
  destruct (builder_token s (node_builder s (place self)) (place self) [] t (builder_new s _) (parsed_piece s _ _ _ Hp)) as (node & -> & Hn).
  cbn [outcome_bind app] in *. unfold PrimaryExpressionSyntax_build. destruct (builder_build s PrimaryExpression _ _ _ (place y) Hn eq_refl Hp) as (e & -> & He). cbn [outcome_bind fst snd] in *.
  eapply returns_bind; [apply (primary_expression_ok self (place self) _ (place y) e y Hy He Hp); [by eapply looks_goes|done]|].
  intros r Hrr. apply returns_ret. exists t. split; [exact Hrr|exact HK].
Qed.

Lemma missing_expression_ok self : ready self -> returns (missing_expression is_alphanumeric self) (fun r => exists c, parses self c r).
Proof using All.
  intros Hr. eapply returns_mono; [apply (identifier_expression self (fun _ _ => True) Hr)|].
  - intros x _ Hx. eapply returns_mono; [by apply (expect_ready is_alphanumeric s)|]. intros r [H1 H2]. by split_and!.
  - intros r (t & H & _). by eexists.
Qed.

Lemma present_identifier self t :
  ready self -> next_token (place self) = Some t -> token_kind t = IdentifierToken ->
  returns (missing_expression is_alphanumeric self) (fun r =>
    parses self (CstNode Expression [CstNode PrimaryExpression [CstToken t]]) r /\ place r.2 = end_ (full_range t)).
Proof using All.
  intros Hr Hn Ht. eapply returns_mono; [apply (identifier_expression self (fun u x => u = t /\ place x = end_ (full_range t)) Hr)|].
  - intros x Hl Hx. rewrite <- (looks_place _ _ Hl) in Hn. rewrite <- Ht. eapply returns_mono; [apply (expect_present is_alphanumeric s x t Hx Hn); by rewrite Ht|].
    intros [u y] (Eu & Hg & Hpy & _). cbn [fst snd] in *. subst u. by split_and!.
  - intros r (u & H & -> & Hp). by split.
Qed.

(** Skipping up to a test that holds at the end of file. *)
Lemma tail_boundary_looks self :
  ready self -> returns (at_primary_tail_boundary is_alphanumeric at_boundary self) (fun r => looks self r.2).
Proof using All.
  intros Hr. unfold at_primary_tail_boundary. destruct (peek_ready is_alphanumeric s self Hr) as ([u x] & -> & Hl & Hx & _). cbn [outcome_bind fst snd] in *.
  eapply returns_bind; [apply Hbounds, Hx|]. intros [b y] [Hl2 _]. apply returns_ret. cbn [fst snd] in *. by eapply looks_trans.
Qed.

Definition skipped_over (self : Parser B) (st : Parser B * list SyntaxToken) : Prop :=
  ready st.1 /\ goes self st.2 st.1 /\ Forall (fun t => is_present t = true) st.2.

Lemma predicate_step_ok self st :
  skipped_over self st ->
  returns (predicate_step is_alphanumeric (at_primary_tail_boundary is_alphanumeric at_boundary) st) (fun step =>
    match step with
    | inl st' => skipped_over self st' /\ (remaining s (place st'.1) < remaining s (place st.1))%nat
    | inr r => skipped_over self (r.2, r.1)
    end).
Proof using All.
  destruct st as [x l]. intros (Hx & Hg & Hall). cbn [fst snd] in *. unfold predicate_step, Parser_at.
  destruct (peek_ready is_alphanumeric s x Hx) as ([u y] & -> & Hl & Hy & Hn & _ & _). cbn [outcome_bind fst snd] in *.
  assert (forall y, looks x y -> skipped_over self (y, l)) as Hlook.
  { intros z Hz. split_and!; [by apply (looks_ready is_alphanumeric s x)| |done]. cbn [fst snd]. rewrite <- (app_nil_r l). eapply goes_trans; [exact Hg|]. split; [apply Hz|done]. }
  case_bool_decide as E; [apply returns_ret; by apply Hlook|].
  destruct (tail_boundary_looks y Hy) as ([b z] & -> & Hl2). cbn [outcome_bind fst snd] in *.
  assert (looks x z) as Hxz by by eapply looks_trans. destruct b; [apply returns_ret; by apply Hlook|].
  assert (ready z) as Hz by by apply (looks_ready is_alphanumeric s x). rewrite <- (looks_place _ _ Hxz) in Hn.
  destruct (consume_ready is_alphanumeric s z u Hz Hn E) as ([t w] & -> & Et & Hgw & _ & Hlt). cbn [outcome_bind fst snd] in *. subst t. apply returns_ret.
  destruct (goes_ready is_alphanumeric s _ _ _ Hz Hgw) as [Hw Hp].
  split.
  - split; [done|]. cbn [fst snd]. split; [eapply goes_trans; [apply (Hlook z Hxz)|exact Hgw]|]. apply Forall_app. split; [done|].
    constructor; [|done]. destruct (next_token_ok is_alphanumeric s z (proj1 Hz)) as (v & b & Hv & _ & Hsc). assert (v = u) as -> by congruence.
    unfold is_present. by rewrite (tile_presence _ _ _ _ (proj1 Hsc)).
  - cbn [fst]. rewrite <- (looks_place _ _ Hxz). apply (place_remaining is_alphanumeric s); [apply Hz|apply Hw|done].
Qed.

Lemma nesting_limit_ok self : ready self -> returns (recover_expression_nesting_limit is_alphanumeric at_boundary self) (fun r => exists c, parses self c r).
Proof using All.
  intros Hr. unfold recover_expression_nesting_limit, recover_until_predicate.
  destruct (peek_ready is_alphanumeric s self Hr) as ([u x] & -> & Hl & Hx & _ & Hs & _). cbn [outcome_bind fst snd] in *. rewrite Hs, (source_of _ Hx).
  assert (returns (loop (parser_fuel x) (predicate_step is_alphanumeric (at_primary_tail_boundary is_alphanumeric at_boundary)) (x, []))
            (fun r => skipped_over x (r.2, r.1))) as ([l y] & -> & Hy & Hg & Hall).
  { apply (loop_rule (skipped_over x) (fun st => remaining s (place st.1))); [intros st; apply predicate_step_ok| |].
    - split_and!; [done|by apply goes_nil|done].
    - cbn [fst]. unfold parser_fuel. rewrite (po_snapshot _ _ _ (proj1 Hx)). apply remaining_fuel.
      pose proof (cursor_boundary _ _ _ (po_cursor _ _ _ (proj1 Hx))) as Hb. apply boundary_range in Hb. unfold place. lia. }
  cbn [outcome_bind fst snd] in *. unfold push_recovered, push_skipped, source_builder_sink. cbn [fst snd].
  destruct (goes_ready is_alphanumeric s _ _ _ Hx Hg) as [_ Hp]. rewrite (looks_place _ _ Hl) in Hp.
  set (c := if is_nil l then [] else [CstNode SkippedSyntax (map CstToken l)]).
  assert (concat (map cst_tokens c) = l) as Hc by (unfold c; destruct l; [done|]; cbn [is_nil map concat cst_tokens]; by rewrite app_nil_r, cst_tokens_tokens).
  assert (returns (push_skipped_tokens (sb_node (node_builder s (place self))) l) (fun node =>
            builder_is s (sb_with (node_builder s (place self)) node) (place self) c)) as (node & -> & Hb).
  { unfold push_skipped_tokens. destruct l as [|t l]; [apply returns_ret; apply builder_new|].
    rewrite skipped_node by done. destruct (parsed_tree (text s) SkippedSyntax (map CstToken (t :: l)) (t :: l) (place self) (place y)) as (g & Eg & _);
      [apply wf_fits|done|by apply List.Forall_forall; intros d (v & <- & _)%in_map_iff|apply cst_tokens_tokens|done|].
    rewrite Eg. cbn [outcome_bind]. apply returns_ret. split_and!; [done|done| |].
    - constructor; [|done]. apply cst_ok_node. split; [done|by apply List.Forall_forall; intros d (v & <- & _)%in_map_iff].
    - unfold c. cbn [is_nil push_csts]. by rewrite push_cst_node, Eg. }
  cbn [outcome_bind fst snd]. unfold PrimaryExpressionSyntax_build. destruct (builder_build s PrimaryExpression _ _ _ (place y) Hb eq_refl ltac:(by rewrite Hc)) as (e & -> & He). cbn [outcome_bind].
  eapply returns_bind; [apply (primary_expression_ok self (place self) _ (place y) e y Hy He); [by cbn [cst_tokens]; rewrite Hc|cbn [cst_tokens]; rewrite Hc; by eapply looks_goes|done]|].
  intros r Hrr. apply returns_ret. eexists. exact Hrr.
Qed.
End ways_out.

(** ** The engine *)

Section engine.
Context {B : Type} `{!DiagnosticSink B, !DiagnosticSinkLaws B}.
Context (is_alphanumeric : char -> bool).
Context (s : SourceSnapshot) `{!WfSnapshot s}.
Context (at_boundary : Parser B -> outcome (bool * Parser B)) (bounds : Z -> bool).
Context (Hbounds : boundary_contract is_alphanumeric s at_boundary bounds).
Context (parse_postfix parse_pattern : Parser B -> outcome (source_node * Parser B)).

Abbreviation ready := (ready (B := B) is_alphanumeric s).
Abbreviation goes := (goes (B := B) is_alphanumeric s).
Abbreviation looks := (looks (B := B) is_alphanumeric s).
Abbreviation next_token := (next_token (B := B) is_alphanumeric s).
Abbreviation parses := (parses (B := B) is_alphanumeric s).
Abbreviation advances := (advances (B := B) is_alphanumeric s).

(** One level deeper at the same place. *)
Definition nested (self x : Parser B) : Prop :=
  ready x /\ place x = place self /\ syntax_nesting_depth x = syntax_nesting_depth self + 1 /\ advances (parser_cursor self) [] (parser_cursor x).

Lemma enter_ready self :
  ready self -> returns (try_enter_syntax_nesting is_alphanumeric self) (fun r =>
    r.1 = (syntax_nesting_depth self <? MAX_SYNTAX_NESTING_DEPTH) /\ if r.1 then nested self r.2 else looks self r.2).
Proof using All.
  intros [Hok Hex]. pose proof (po_depth _ _ _ Hok) as Hd.
  destruct (try_enter_ok is_alphanumeric s self Hok) as ([b x] & E & Hx & Ha & Hdx). exists (b, x). split; [done|]. cbn [fst snd] in *.
  assert (b = (syntax_nesting_depth self <? MAX_SYNTAX_NESTING_DEPTH)) as Hb.
  { unfold try_enter_syntax_nesting in E. destruct (MAX_SYNTAX_NESTING_DEPTH <=? syntax_nesting_depth self) eqn:E1.
    - assert (b = false) as ->; [|lia]. destruct (syntax_nesting_limit_reported self); cbn [negb] in E; [by injection E|].
      destruct (Parser_peek is_alphanumeric self) as [[t y]| |]; cbn [outcome_bind] in E; [by injection E|done|done].
    - destruct (expect _); cbn [outcome_bind] in E; [|done|done]. injection E as <- _. lia. }
  split; [done|]. destruct (ad_exact _ _ _ _ _ Ha Hex) as [|[Hp Hxx]]; [done|]. specialize (Hxx eq_refl).
  assert (place x = place self) as Hpl by (inversion Hp; done).
  destruct b; [by split_and!; [split| | |]|]. split; [|done]. split_and!; [done|lia|done].
Qed.

Lemma leave_nested self x l y :
  ready self -> nested self x -> goes x l y -> returns (leave_syntax_nesting y) (fun z => goes self l z /\ place z = place y).
Proof using.
  intros [Hok _] (_ & Hpl & Hdx & Ha) [(Hy & Hdy & Hay) He]. pose proof (po_depth _ _ _ Hok).
  eapply returns_mono; [apply (leave_ok is_alphanumeric s y Hy); lia|]. intros z (Hz & Hc & Hd). unfold place. rewrite Hc. split; [|done].
  split; [|done]. split_and!; [done|lia|]. rewrite Hc. by apply (advances_app _ _ _ [] _ l _ Ha).
Qed.

(** An operator between a left operand that is there and a right one. *)
Lemma operator_node {A} self c e x t (operand : SyntaxToken -> Parser B -> outcome (source_node * Parser B)) K (k : source_node -> Parser B -> outcome A) Q :
  ready self -> parses self c (e, x) -> next_token (place x) = Some t -> is_expression_operator (token_kind t) = true ->
  (forall y, ready y -> goes x [t] y -> place y = end_ (full_range t) -> place x < place y ->
     returns (operand t y) (fun r => exists c2, parses y c2 r /\ K c2 r.2)) ->
  (forall c2 e' z, parses self (CstNode Expression [c; CstToken t; c2]) (e', z) -> K c2 z -> place x < place z -> returns (k e' z) Q) ->
  returns (let! range := sn_full_range e in
           let! token := Parser_consume is_alphanumeric x in
           let! builder := push_operator_token (push_child (node_builder (syntax_source x) (start range)) e) token.1 in
           let! r := operand token.1 token.2 in
           let! expression := ExpressionSyntax_build (push_child builder r.1) in k expression r.2) Q.
Proof using All.
  intros Hself [Hg Hn] Ht Hop Hoperand Hk. cbn [fst snd] in *. destruct (goes_ready is_alphanumeric s _ _ _ Hself Hg) as [Hx Hp].
  rewrite (node_full_range s _ _ _ _ Hn Hp), (source_of is_alphanumeric s _ Hx). cbn [outcome_bind start].
  assert (token_kind t <> EndOfFileToken) as Hne by (intros E; by rewrite E in Hop).
  destruct (consume_ready is_alphanumeric s x t Hx Ht Hne) as ([t' y] & -> & Et & Hgy & Hpy & Hlt). cbn [outcome_bind fst snd] in *. subst t'.
  destruct (goes_ready is_alphanumeric s _ _ _ Hx Hgy) as [Hy Hpt].
  eapply returns_bind; [eapply (operator_token s); [apply (builder_child s _ _ [] e (place self) c (builder_new s (place self)) Hn)|by eapply parsed_piece|done]|].
  intros b Hb. eapply returns_bind; [by apply Hoperand|]. intros [e2 z] (c2 & [Hg2 Hn2] & HK). cbn [fst snd] in *.
  destruct (goes_ready is_alphanumeric s _ _ _ Hy Hg2) as [Hz Hp2]. pose proof (builder_child s _ _ _ _ _ _ Hb Hn2) as Hb2. cbn [app] in Hb2.
  assert (goes self (cst_tokens (CstNode Expression [c; CstToken t; c2])) z) as Hgo.
  { cbn [cst_tokens map concat]. rewrite app_nil_r. eapply goes_trans; [exact Hg|]. by eapply goes_trans. }
  destruct (goes_ready is_alphanumeric s _ _ _ Hself Hgo) as [_ Hpa].
  eapply returns_bind; [by apply (builder_build s Expression _ _ _ (place z) Hb2 eq_refl)|]. intros e' He'. apply (Hk c2); [by split|done|].
  apply parsed_boundaries in Hp2. lia.
Qed.

(** An operator in front of its operand. *)
Lemma prefix_node self u x t (operand : Parser B -> outcome (source_node * Parser B)) K :
  ready self -> looks self x -> next_token (place self) = Some t -> start (full_range u) = place self -> is_expression_operator (token_kind t) = true ->
  (forall y, ready y -> syntax_nesting_depth y = syntax_nesting_depth self -> place y = end_ (full_range t) -> place self < place y ->
     returns (operand y) (fun r => exists c, parses y c r /\ K c r.2)) ->
  returns (let! token := Parser_consume is_alphanumeric x in
           let! builder := push_operator_token (node_builder (syntax_source x) (start (full_range u))) token.1 in
           let! r := operand token.2 in
           let! expression := ExpressionSyntax_build (push_child builder r.1) in Ret (expression, r.2)) (fun r =>
    exists c, parses self (CstNode Expression [CstToken t; c]) r /\ K c r.2).
Proof using All.
  intros Hself Hl Ht Hu Hop Hoperand. pose proof (looks_ready is_alphanumeric s _ _ Hself Hl) as Hx. pose proof (looks_place is_alphanumeric s _ _ Hl) as Hpl.
  rewrite Hu, (source_of is_alphanumeric s _ Hx). assert (token_kind t <> EndOfFileToken) as Hne by (intros E; by rewrite E in Hop).
  destruct (consume_ready is_alphanumeric s x t Hx ltac:(by rewrite Hpl) Hne) as ([t' y] & -> & Et & Hgy & Hpy & Hlt). cbn [outcome_bind fst snd] in *. subst t'.
  destruct (goes_ready is_alphanumeric s _ _ _ Hx Hgy) as [Hy Hpt]. rewrite Hpl in Hpt, Hlt.
  eapply returns_bind; [eapply (operator_token s); [apply (builder_new s (place self))|by eapply parsed_piece|done]|].
  intros b Hb. eapply returns_bind; [apply Hoperand; try done; destruct Hgy as [(_ & -> & _) _]; apply Hl|]. intros [e2 z] (c & [Hg2 Hn2] & HK). cbn [fst snd] in *.
  pose proof (builder_child s _ _ _ _ _ _ Hb Hn2) as Hb2. cbn [app] in Hb2.
  assert (goes self (cst_tokens (CstNode Expression [CstToken t; c])) z) as Hgo.
  { cbn [cst_tokens map concat]. rewrite app_nil_r. eapply looks_goes; [exact Hl|]. by eapply goes_trans. }
  destruct (goes_ready is_alphanumeric s _ _ _ Hself Hgo) as [_ Hpa].
  eapply returns_bind; [by apply (builder_build s Expression _ _ _ (place z) Hb2 eq_refl)|]. intros e' He'. apply returns_ret. exists c. by split; [split|].
Qed.

Lemma operators_are_tokens kind :
  (at_infix_operator kind = true \/ at_assignment_operator kind = true \/ at_unary_operator kind = true) -> is_expression_operator kind = true.
Proof using. unfold at_infix_operator. destruct kind; cbn; tauto || done. Qed.

(** *** Any text *)

(** The parsers of operands go over what they return, whatever comes. *)
Record operand_contract : Prop := {
  oc_postfix self : ready self -> returns (parse_postfix self) (fun r => exists c, parses self c r);
  oc_pattern self : ready self -> returns (parse_pattern self) (fun r => exists c, parses self c r);
}.

Context (Hoperand : operand_contract).

Abbreviation engine := (parse_expression_with_min_binding_power_until is_alphanumeric at_boundary parse_postfix parse_pattern).

Lemma prefix_total recurse self :
  ready self -> (forall y m, ready y -> syntax_nesting_depth y = syntax_nesting_depth self -> returns (recurse y m) (fun r => exists c, parses y c r)) ->
  returns (parse_prefix_expression_until is_alphanumeric at_boundary parse_postfix recurse self) (fun r => exists c, parses self c r).
Proof using All.
  intros Hself Hrec. unfold parse_prefix_expression_until. destruct (Hbounds self (proj1 Hself)) as ([b x] & -> & Hl & _). cbn [outcome_bind fst snd] in *.
  assert (ready x) as Hx by by apply (looks_ready is_alphanumeric s self).
  destruct b; [eapply returns_mono; [by apply (missing_expression_ok is_alphanumeric s at_boundary bounds Hbounds)|]; intros r (c & Hc); exists c; by eapply parses_looks|].
  destruct (peek_ready is_alphanumeric s x Hx) as ([t y] & -> & Hl2 & Hy & Hn & Hst & _). cbn [outcome_bind fst snd] in *.
  assert (looks self y) as Hly by by eapply looks_trans. rewrite (looks_place is_alphanumeric s _ _ Hl) in Hn, Hst.
  destruct (at_unary_operator (token_kind t)) eqn:Eu; cbn [negb].
  - eapply returns_mono; [apply (prefix_node self t y t (fun p => recurse p PREFIX_RIGHT_BINDING_POWER) (fun _ _ => True)); try done; [apply operators_are_tokens; tauto|]|].
    + intros z Hz Hd _ _. eapply returns_mono; [by apply Hrec|]. intros r (c & Hc). by exists c.
    + intros r (c & Hc & _). by eexists.
  - eapply returns_mono; [by apply (oc_postfix Hoperand)|]. intros r (c & Hc). exists c. by eapply parses_looks.
Qed.

(** What stands behind an infix operator. *)
Definition right_operand (recurse : Parser B -> u8 -> outcome (source_node * Parser B)) (o : InfixOperator) (t : SyntaxToken) (self : Parser B)
    : outcome (source_node * Parser B) :=
  if bool_decide (token_kind t = MatchesKeyword) then parse_pattern self else recurse self (right_binding_power o).

Lemma infix_step_total recurse m self st :
  ready self -> (exists c, parses self c (st.1.2, st.1.1)) ->
  (forall y m, ready y -> syntax_nesting_depth y = syntax_nesting_depth self -> returns (recurse y m) (fun r => exists c, parses y c r)) ->
  returns (infix_step is_alphanumeric at_boundary parse_pattern recurse m st) (fun step =>
    match step with
    | inl st' => (exists c, parses self c (st'.1.2, st'.1.1)) /\ (remaining s (place st'.1.1) < remaining s (place st.1.1))%nat
    | inr r => exists c, parses self c r
    end).
Proof using All.
  intros Hself (c & Hc) Hrec. destruct st as [[x e] na]. cbn [fst snd] in *. unfold infix_step.
  destruct (goes_ready is_alphanumeric s _ _ _ Hself (proj1 Hc)) as [Hx _].
  assert (forall y, looks x y -> parses self c (e, y)) as Hlook.
  { intros y Hy. destruct Hc as [Hg Hn]. split; [|done]. cbn [fst snd] in *. rewrite <- (app_nil_r (cst_tokens c)). eapply goes_trans; [exact Hg|]. split; [apply Hy|done]. }
  destruct (Hbounds x (proj1 Hx)) as ([b y] & -> & Hl & _). cbn [outcome_bind fst snd] in *.
  destruct b; [apply returns_ret; exists c; by apply Hlook|].
  destruct (peek_ready is_alphanumeric s y ltac:(by apply (looks_ready is_alphanumeric s x))) as ([t z] & -> & Hl2 & Hz & Hn & _). cbn [outcome_bind fst snd] in *.
  assert (looks x z) as Hxz by by eapply looks_trans. rewrite (looks_place is_alphanumeric s _ _ Hl), <- (looks_place is_alphanumeric s _ _ Hxz) in Hn.
  destruct (infix_operator (token_kind t)) as [o|] eqn:Eo; [|apply returns_ret; exists c; by apply Hlook].
  case_bool_decide; [apply returns_ret; exists c; by apply Hlook|]. destruct (left_binding_power o <? m); [apply returns_ret; exists c; by apply Hlook|].
  assert (syntax_nesting_depth z = syntax_nesting_depth self) as Hdz by apply (proj1 (Hlook z Hxz)).
  apply (operator_node self c e z t
    (right_operand recurse o) (fun _ _ => True)
    (fun e' y => continue_ (y, e', if decide (associativity o = AssocNone) then Some (left_binding_power o) else na))); try done.
  - by apply Hlook.
  - apply operators_are_tokens. left. unfold at_infix_operator. by rewrite Eo.
  - intros w Hw Hg _ _. assert (syntax_nesting_depth w = syntax_nesting_depth self) as Hdw by (rewrite <- Hdz; apply Hg).
    unfold right_operand. case_bool_decide; (eapply returns_mono; [by first [apply (oc_pattern Hoperand)|apply Hrec]|]); intros r (c2 & Hc2); by exists c2.
  - intros c2 e' w Hp _ Hlt. apply returns_ret. cbn [fst snd]. split; [by eexists|].
    rewrite <- (looks_place is_alphanumeric s _ _ Hxz). apply (place_remaining is_alphanumeric s); [apply Hz|apply Hp|done].
Qed.

Lemma fuel_remaining self (x : Parser B) : ready self -> parser_snapshot x = s -> (remaining s (place self) < parser_fuel x)%nat.
Proof using.
  intros [Hok _] Hs. unfold parser_fuel. rewrite Hs. apply remaining_fuel.
  pose proof (cursor_boundary _ _ _ (po_cursor _ _ _ Hok)) as Hb. apply boundary_range in Hb. unfold place. lia.
Qed.

Lemma engine_total fuel : forall self m,
  ready self -> MAX_SYNTAX_NESTING_DEPTH - syntax_nesting_depth self < Z.of_nat fuel -> returns (engine fuel self m) (fun r => exists c, parses self c r).
Proof using All.
  induction fuel as [|fuel IH]; intros self m Hself Hf; [pose proof (po_depth _ _ _ (proj1 Hself)); lia|]. cbn [parse_expression_with_min_binding_power_until].
  destruct (enter_ready self Hself) as ([b x] & -> & _ & Hx). cbn [outcome_bind fst snd] in *. destruct b; cbn [negb].
  2: { eapply returns_mono; [apply (nesting_limit_ok is_alphanumeric s at_boundary bounds Hbounds); by apply (looks_ready is_alphanumeric s self)|].
       intros r (c & Hc). exists c. by eapply parses_looks. }
  pose proof Hx as (Hxr & Hpl & Hd & _).
  assert (forall y m, ready y -> syntax_nesting_depth y = syntax_nesting_depth x -> returns (engine fuel y m) (fun r => exists c, parses y c r)) as Hrec
    by (intros y m' Hy Hdy; apply IH; [done|lia]).
  eapply returns_bind; [by apply prefix_total|]. intros [e y] (c & Hc). cbn [fst snd].
  assert (ready y) as Hy by apply (goes_ready is_alphanumeric s _ _ _ Hxr (proj1 Hc)).
  eapply returns_bind.
  - apply (loop_rule (fun st => exists c, parses x c (st.1.2, st.1.1)) (fun st => remaining s (place st.1.1)) (fun r => exists c, parses x c r)).
    + intros st Hst. by apply infix_step_total.
    + by exists c.
    + cbn [fst snd]. apply fuel_remaining; [done|apply Hself].
  - intros [e' z] (c' & [Hg Hn]). cbn [fst snd] in *. eapply returns_bind; [by apply (leave_nested self x)|]. intros w [Hw _].
    apply returns_ret. exists c'. split; [done|]. by rewrite <- Hpl.
Qed.

Lemma expression_total fuel : forall self,
  ready self -> MAX_SYNTAX_NESTING_DEPTH - syntax_nesting_depth self < Z.of_nat fuel ->
  returns (parse_expression_until is_alphanumeric at_boundary parse_postfix parse_pattern fuel self) (fun r => exists c, parses self c r).
Proof using All.
  induction fuel as [|fuel IH]; intros self Hself Hf; [pose proof (po_depth _ _ _ (proj1 Hself)); lia|]. cbn [parse_expression_until].
  destruct (enter_ready self Hself) as ([b x] & -> & _ & Hx). cbn [outcome_bind fst snd] in *. destruct b; cbn [negb].
  2: { eapply returns_mono; [apply (nesting_limit_ok is_alphanumeric s at_boundary bounds Hbounds); by apply (looks_ready is_alphanumeric s self)|].
       intros r (c & Hc). exists c. by eapply parses_looks. }
  pose proof Hx as (Hxr & Hpl & Hd & _). eapply (returns_bind _ _ (fun r => exists c, parses x c r)).
  2: { intros [e z] (c & [Hg Hn]). cbn [fst snd] in *. eapply returns_bind; [by apply (leave_nested self x)|]. intros w [Hw _].
       apply returns_ret. exists c. split; [done|]. by rewrite <- Hpl. }
  unfold parse_assignment_expression_until, parse_non_assignment_expression_until.
  destruct (engine_total nesting_fuel x 0 Hxr) as ([e y] & -> & c & Hc).
  { pose proof (po_depth _ _ _ (proj1 Hxr)). unfold nesting_fuel. rewrite Nat2Z.inj_succ, Z2Nat.id by done. lia. }
  cbn [outcome_bind fst snd] in *. destruct (goes_ready is_alphanumeric s _ _ _ Hxr (proj1 Hc)) as [Hy _].
  assert (forall z, looks y z -> parses x c (e, z)) as Hlook.
  { intros z Hz. destruct Hc as [Hg Hn]. split; [|done]. cbn [fst snd] in *. rewrite <- (app_nil_r (cst_tokens c)). eapply goes_trans; [exact Hg|]. split; [apply Hz|done]. }
  destruct (Hbounds y (proj1 Hy)) as ([b z] & -> & Hl & _). cbn [outcome_bind fst snd] in *.
  destruct b; [apply returns_ret; exists c; by apply Hlook|].
  destruct (peek_ready is_alphanumeric s z ltac:(by apply (looks_ready is_alphanumeric s y))) as ([t w] & -> & Hl2 & Hw & Hn & _). cbn [outcome_bind fst snd] in *.
  assert (looks y w) as Hyw by by eapply looks_trans. rewrite (looks_place is_alphanumeric s _ _ Hl), <- (looks_place is_alphanumeric s _ _ Hyw) in Hn.
  destruct (at_assignment_operator (token_kind t)) eqn:Ea; cbn [negb]; [|apply returns_ret; exists c; by apply Hlook].
  assert (syntax_nesting_depth w = syntax_nesting_depth x) as Hdw by apply (proj1 (Hlook w Hyw)).
  apply (operator_node x c e w t (fun _ y => parse_expression_until is_alphanumeric at_boundary parse_postfix parse_pattern fuel y) (fun _ _ => True)
    (fun e' y => Ret (e', y))); try done.
  - by apply Hlook.
  - apply operators_are_tokens. tauto.
  - intros v Hv Hg _ _. assert (syntax_nesting_depth v = syntax_nesting_depth x) as Hdv by (rewrite <- Hdw; apply Hg).
    eapply returns_mono; [apply IH; [done|lia]|]. intros r (c2 & Hc2). by exists c2.
  - intros c2 e' v Hp _ _. apply returns_ret. by eexists.
Qed.
End engine.

(** ** The documented grammar *)

(** Expressions over operands and patterns. *)
Inductive etree :=
| Operand (c : Cst)
| Prefix (op : SyntaxToken) (x : etree)
| Infix (l : etree) (op : SyntaxToken) (r : etree)
| Tests (l : etree) (op : SyntaxToken) (pattern : Cst).

Fixpoint etree_cst (t : etree) : Cst :=
  match t with
  | Operand c => c
  | Prefix op x => CstNode Expression [CstToken op; etree_cst x]
  | Infix l op r => CstNode Expression [etree_cst l; CstToken op; etree_cst r]
  | Tests l op c => CstNode Expression [etree_cst l; CstToken op; c]
  end.

Inductive nonterminal :=
| NonAssignment | LogicalOr | LogicalAnd | Comparison | BitwiseOr | BitwiseXor | BitwiseAnd | Shift | Additive | Multiplicative | Unary | Exponentiation.

(** The next tighter level of the ladder. *)
Definition tighter (n : nonterminal) : nonterminal :=
  match n with
  | NonAssignment => LogicalOr | LogicalOr => LogicalAnd | LogicalAnd => Comparison | Comparison => BitwiseOr | BitwiseOr => BitwiseXor
  | BitwiseXor => BitwiseAnd | BitwiseAnd => Shift | Shift => Additive | Additive => Multiplicative | Multiplicative => Unary
  | Unary => Exponentiation | Exponentiation => Exponentiation
  end.

(** The infix operators of a level, and whether it repeats them. *)
Definition level_operator (n : nonterminal) (kind : SyntaxKind) : bool :=
  match n, kind with
  | NonAssignment, DotDotToken | LogicalOr, PipePipeToken | LogicalAnd, AmpersandAmpersandToken
  | Comparison, (EqualsEqualsToken | BangEqualsToken | LessToken | LessEqualsToken | GreaterToken | GreaterEqualsToken)
  | BitwiseOr, PipeToken | BitwiseXor, CaretToken | BitwiseAnd, AmpersandToken | Shift, (LessLessToken | GreaterGreaterToken)
  | Additive, (PlusToken | MinusToken) | Multiplicative, (StarToken | SlashToken | PercentToken | AtToken) => true
  | _, _ => false
  end.

Definition repeats (n : nonterminal) : bool := match n with NonAssignment | Comparison | Unary | Exponentiation => false | _ => true end.

Inductive derives : nonterminal -> etree -> Prop :=
| derives_operand c : derives Exponentiation (Operand c)
| derives_tighter n t : derives (tighter n) t -> derives n t
| derives_repeated n l op r :
    repeats n = true -> level_operator n (token_kind op) = true -> derives n l -> derives (tighter n) r -> derives n (Infix l op r)
| derives_once n l op r :
    repeats n = false -> level_operator n (token_kind op) = true -> derives (tighter n) l -> derives (tighter n) r -> derives n (Infix l op r)
| derives_matches l op c : token_kind op = MatchesKeyword -> derives BitwiseOr l -> derives Comparison (Tests l op c)
| derives_unary op x : at_unary_operator (token_kind op) = true -> derives Unary x -> derives Unary (Prefix op x)
| derives_power c op r : token_kind op = StarStarToken -> derives Unary r -> derives Exponentiation (Infix (Operand c) op r).

(** [assignment-expression]: the operator of an assignment is behind a
    [non-assignment-expression], and any expression follows. *)
Inductive atree :=
| Plain (t : etree)
| Assign (l : etree) (op : SyntaxToken) (r : atree).

Fixpoint atree_cst (t : atree) : Cst :=
  match t with Plain t => etree_cst t | Assign l op r => CstNode Expression [etree_cst l; CstToken op; atree_cst r] end.

Inductive derives_assignment : atree -> Prop :=
| derives_plain t : derives NonAssignment t -> derives_assignment (Plain t)
| derives_assign l op r :
    derives NonAssignment l -> at_assignment_operator (token_kind op) = true -> derives_assignment r -> derives_assignment (Assign l op r).

(** The infix operators of a tree, in the order of the text. *)
Fixpoint operators (t : etree) : list SyntaxKind :=
  match t with
  | Operand _ => []
  | Prefix _ x => operators x
  | Infix l op r => operators l ++ token_kind op :: operators r
  | Tests l op _ => operators l ++ [token_kind op]
  end.

(** *** Binding powers of trees *)

(** The left power from which on an operator is not left behind by what precedes it. *)
Definition follow_power (o : InfixOperator) : Z := if decide (associativity o = AssocNone) then left_binding_power o else right_binding_power o.

(** An operator of the left power [p] behind [t] is taken by none of the calls
    for the right operands of [t]. *)
Fixpoint yields (t : etree) (p : Z) : Prop :=
  match t with
  | Operand _ => True
  | Prefix _ x => p < PREFIX_RIGHT_BINDING_POWER /\ yields x p
  | Infix _ op r => match infix_operator (token_kind op) with Some o => p < follow_power o | None => False end /\ yields r p
  | Tests _ op _ => match infix_operator (token_kind op) with Some o => p < follow_power o | None => False end
  end.

(** What a call with the minimum [m] makes. *)
Fixpoint spined (m : Z) (t : etree) : Prop :=
  match t with
  | Operand _ => True
  | Prefix op x => at_unary_operator (token_kind op) = true /\ spined PREFIX_RIGHT_BINDING_POWER x
  | Infix l op r =>
      token_kind op <> MatchesKeyword /\
      match infix_operator (token_kind op) with
      | Some o => m <= left_binding_power o /\ spined m l /\ yields l (left_binding_power o) /\ spined (right_binding_power o) r
      | None => False
      end
  | Tests l op _ =>
      token_kind op = MatchesKeyword /\
      match infix_operator (token_kind op) with Some o => m <= left_binding_power o /\ spined m l /\ yields l (left_binding_power o) | None => False end
  end.

Lemma yields_mono t p q : q <= p -> yields t p -> yields t q.
Proof.
  intros Hle. induction t as [c|op x IH|l IHl op r IHr|l IHl op c]; cbn [yields]; [done| | |].
  - intros [H1 H2]. split; [lia|auto].
  - destruct (infix_operator (token_kind op)); [|by intros [[] _]]. intros [H1 H2]. split; [lia|auto].
  - destruct (infix_operator (token_kind op)); [lia|done].
Qed.

Lemma spined_mono t m m' : m' <= m -> spined m t -> spined m' t.
Proof.
  intros Hle. induction t as [c|op x IH|l IHl op r IHr|l IHl op c]; cbn [spined]; [done|done| |];
    (intros [H0 H]; split; [done|]; destruct (infix_operator (token_kind op)); [|done]).
  - destruct H as (H1 & H2 & H3 & H4). split_and!; [lia|auto|done|done].
  - destruct H as (H1 & H2 & H3). split_and!; [lia|auto|done].
Qed.

Definition level_power (n : nonterminal) : Z :=
  match n with
  | NonAssignment => 0 | LogicalOr => 1 | LogicalAnd => 3 | Comparison => 5 | BitwiseOr => 7 | BitwiseXor => 9 | BitwiseAnd => 11
  | Shift => 13 | Additive => 15 | Multiplicative => 17 | Unary => 20 | Exponentiation => 21
  end.

Lemma level_operator_power n kind :
  level_operator n kind = true -> kind <> MatchesKeyword /\ level_power n <= 17 /\ level_power n + 1 <= level_power (tighter n) /\
  infix_operator kind = Some {| left_binding_power := level_power n; right_binding_power := level_power n + 1;
                                associativity := if repeats n then AssocLeft else AssocNone |}.
Proof. intros H. destruct n, kind; try discriminate H; (split; [done|]); (split; [cbn; lia|]); (split; [cbn; lia|reflexivity]). Qed.

Lemma tighter_power n : level_power n <= level_power (tighter n).
Proof. by destruct n. Qed.

(** The powers of the code are those of the ladder. *)
Lemma derives_spined n t :
  derives n t ->
  spined (level_power n) t /\ (forall p, p < level_power n `min` 20 -> yields t p) /\ (repeats n = true -> yields t (level_power n)).
Proof.
  induction 1 as [c|n t _ (IH1 & IH2 & IH3)|n l op r Hn Hop _ (L1 & L2 & L3) _ (R1 & R2 & R3)|n l op r Hn Hop _ (L1 & L2 & L3) _ (R1 & R2 & R3)
                 |l op c Hop _ (L1 & L2 & L3)|op x Hop _ (IH1 & IH2 & IH3)|c op r Hop _ (R1 & R2 & R3)].
  - done.
  - pose proof (tighter_power n). split; [by eapply spined_mono|]. split; [intros p Hp; apply IH2; lia|]. intros Hr. apply IH2. by destruct n.
  - destruct (level_operator_power n _ Hop) as (Hm & H17 & Ht & E). cbn [spined yields]. rewrite E, Hn. unfold follow_power. cbn [left_binding_power right_binding_power associativity].
    destruct (decide (AssocLeft = AssocNone)) as [|_]; [done|]. split; [split_and!; [done|lia|done|by apply L3|by eapply spined_mono]|].
    split; [intros p Hp; split; [lia|apply R2; lia]|]. intros _. split; [lia|apply R2; lia].
  - destruct (level_operator_power n _ Hop) as (Hm & H17 & Ht & E). cbn [spined yields]. rewrite E, Hn. unfold follow_power. cbn [left_binding_power right_binding_power associativity].
    destruct (decide (AssocNone = AssocNone)) as [_|]; [|done]. split; [split_and!; [done|lia|by eapply spined_mono; [|exact L1]; apply tighter_power|apply L2; lia|by eapply spined_mono]|].
    split; [intros p Hp; split; [lia|apply R2; lia]|done].
  - cbn [spined yields]. rewrite Hop. change (level_power BitwiseOr) with 7 in *. change (level_power Comparison) with 5.
    cbn [infix_operator left_binding_power]. unfold follow_power. cbn [associativity left_binding_power].
    destruct (decide (AssocNone = AssocNone)) as [_|]; [|done]. split; [split_and!; [done|lia|by eapply spined_mono; [|exact L1]|apply L2; lia]|].
    split; [intros p Hp; lia|done].
  - cbn [spined yields]. split; [by split|]. split; [|done]. intros p Hp. split; [change (level_power Unary) with 20 in Hp; unfold PREFIX_RIGHT_BINDING_POWER; lia|by apply IH2].
  - cbn [spined yields]. rewrite Hop. cbn [infix_operator left_binding_power right_binding_power]. unfold follow_power. cbn [associativity right_binding_power].
    destruct (decide (AssocRight = AssocNone)) as [|_]; [done|]. change (level_power Exponentiation) with 21. change (level_power Unary) with 20 in *.
    split; [split_and!; [done|lia|done|done|done]|]. split; [|done]. intros p Hp. split; [lia|apply R2; lia].
Qed.

(** *** Reading trees back

    The text spells a tree between two places: what the parsers of operands and
    patterns return there is given, with the levels of nesting that they need. *)

Section reading.
Context {B : Type} `{!DiagnosticSink B, !DiagnosticSinkLaws B}.
Context (is_alphanumeric : char -> bool).
Context (s : SourceSnapshot) `{!WfSnapshot s}.
Context (at_boundary : Parser B -> outcome (bool * Parser B)) (bounds : Z -> bool).
Context (Hbounds : boundary_contract is_alphanumeric s at_boundary bounds).
Context (parse_postfix parse_pattern : Parser B -> outcome (source_node * Parser B)).
Context (operand_at pattern_at : Z -> Cst -> Z -> Z -> Prop).

Abbreviation ready := (ready (B := B) is_alphanumeric s).
Abbreviation goes := (goes (B := B) is_alphanumeric s).
Abbreviation looks := (looks (B := B) is_alphanumeric s).
Abbreviation next_token := (next_token (B := B) is_alphanumeric s).
Abbreviation parses := (parses (B := B) is_alphanumeric s).
Abbreviation engine := (parse_expression_with_min_binding_power_until is_alphanumeric at_boundary parse_postfix parse_pattern).

Record reading_contract : Prop := {
  rc_operand self c b n :
    operand_at (place self) c b n -> ready self -> syntax_nesting_depth self + n <= MAX_SYNTAX_NESTING_DEPTH ->
    returns (parse_postfix self) (fun r => parses self c r /\ place r.2 = b);
  rc_pattern self c b n :
    pattern_at (place self) c b n -> ready self -> syntax_nesting_depth self + n <= MAX_SYNTAX_NESTING_DEPTH ->
    returns (parse_pattern self) (fun r => parses self c r /\ place r.2 = b);
}.

Context (Hreading : reading_contract).

(** The operator [op] comes at [b], and the expression does not end there. *)
Definition operator_at (b : Z) (op : SyntaxToken) : Prop := bounds b = false /\ next_token b = Some op.

Inductive spells : Z -> etree -> Z -> Z -> Prop :=
| spells_operand a t c b n :
    operator_at a t -> at_unary_operator (token_kind t) = false -> 0 <= n -> operand_at a c b n -> spells a (Operand c) b n
| spells_prefix a op x b n : operator_at a op -> spells (end_ (full_range op)) x b n -> spells a (Prefix op x) b (n + 1)
| spells_infix a l b op r c n1 n2 :
    spells a l b n1 -> operator_at b op -> spells (end_ (full_range op)) r c n2 -> spells a (Infix l op r) c (n1 `max` (n2 + 1))
| spells_tests a l b op p c n1 n2 :
    spells a l b n1 -> operator_at b op -> pattern_at (end_ (full_range op)) p c n2 -> spells a (Tests l op p) c (n1 `max` n2).

(** What may come behind a tree. *)
Definition followed (b : Z) (Q : InfixOperator -> Prop) : Prop :=
  bounds b = true \/ forall t o, next_token b = Some t -> infix_operator (token_kind t) = Some o -> Q o.

Definition closes (m : Z) (t : etree) (o : InfixOperator) : Prop := left_binding_power o < m /\ yields t (left_binding_power o).

Lemma operator_powers kind o : infix_operator kind = Some o ->
  follow_power o <= right_binding_power o /\ (associativity o <> AssocNone -> right_binding_power o <= left_binding_power o + 1).
Proof using. intros H. unfold follow_power. destruct kind; try discriminate H; injection H as <-; cbn [associativity left_binding_power right_binding_power];
  (split; [case_decide as E; first [discriminate E|lia]|intros Hne; first [lia|by destruct Hne]]). Qed.

(** The operator that a turn of the loop sees. *)
Lemma peek_operator x t y :
  ready x -> looks x y -> next_token (place x) = Some t ->
  returns (Parser_peek is_alphanumeric y) (fun r => r.1 = t /\ looks x r.2 /\ ready r.2 /\ start (full_range t) = place x).
Proof using All.
  intros Hx Hl Ht. pose proof (looks_place is_alphanumeric s _ _ Hl) as Hpl.
  eapply returns_mono; [apply (peek_ready is_alphanumeric s y); by apply (looks_ready is_alphanumeric s x)|]. intros [u z] (Hl2 & Hz & Hn & Hst & _). cbn [fst snd] in *.
  rewrite Hpl in Hn, Hst. assert (u = t) as -> by congruence. split_and!; [done|by eapply looks_trans|done|done].
Qed.

Lemma parses_still self c e x y : parses self c (e, x) -> looks x y -> parses self c (e, y).
Proof using. intros [Hg Hn] Hl. split; [|done]. cbn [fst snd] in *. rewrite <- (app_nil_r (cst_tokens c)). eapply goes_trans; [exact Hg|]. split; [apply Hl|done]. Qed.

(** [non_associative_binding_power] does not stop an operator that the tree yields to. *)
Definition blocks (t : etree) (na : option u8) : Prop := forall p, na = Some p -> ~ yields t p.

(** A turn that takes an operator. *)
Lemma infix_turn recurse m self c e x na t o K :
  ready self -> parses self c (e, x) -> operator_at (place x) t -> infix_operator (token_kind t) = Some o ->
  na <> Some (left_binding_power o) -> m <= left_binding_power o ->
  (forall y, ready y -> syntax_nesting_depth y = syntax_nesting_depth self -> place y = end_ (full_range t) ->
     returns (right_operand parse_pattern recurse o t y) (fun r => exists c2, parses y c2 r /\ K c2 r.2)) ->
  returns (infix_step is_alphanumeric at_boundary parse_pattern recurse m (x, e, na)) (fun step =>
    exists c2 e' z, step = inl (z, e', if decide (associativity o = AssocNone) then Some (left_binding_power o) else na) /\
      parses self (CstNode Expression [c; CstToken t; c2]) (e', z) /\ K c2 z /\ place x < place z).
Proof using All.
  intros Hself Hc [Hb Ht] Ho Hna Hm Hright. destruct (goes_ready is_alphanumeric s _ _ _ Hself (proj1 Hc)) as [Hx _]. cbn [fst snd] in *. unfold infix_step.
  destruct (Hbounds x (proj1 Hx)) as ([b y] & -> & Hl & Eb). cbn [outcome_bind fst snd] in *. rewrite Eb, Hb.
  destruct (peek_operator x t y Hx Hl Ht) as ([u z] & -> & Eu & Hz & Hzr & _). cbn [outcome_bind fst snd] in *. subst u. rewrite Ho.
  rewrite bool_decide_eq_false_2 by done. destruct (left_binding_power o <? m) eqn:E; [lia|].
  pose proof (parses_still _ _ _ _ _ Hc Hz) as Hcz. assert (syntax_nesting_depth z = syntax_nesting_depth self) as Hdz by apply (proj1 Hcz).
  pose proof (looks_place is_alphanumeric s _ _ Hz) as Hpl.
  apply (operator_node is_alphanumeric s at_boundary bounds Hbounds parse_postfix parse_pattern self c e z t (right_operand parse_pattern recurse o) K
    (fun e' y => continue_ (y, e', if decide (associativity o = AssocNone) then Some (left_binding_power o) else na))); try done.
  - by rewrite Hpl.
  - apply operators_are_tokens. left. unfold at_infix_operator. by rewrite Ho.
  - intros w Hw Hg Hpw _. apply Hright; [done| |done]. rewrite <- Hdz. apply Hg.
  - intros c2 e' w Hp HK Hlt. apply returns_ret. exists c2, e', w. split; [done|]. split; [done|]. split; [done|lia].
Qed.

Lemma remaining_parses self c r : ready self -> parses self c r -> (remaining s (place r.2) <= remaining s (place self))%nat.
Proof using.
  intros Hself [Hg _]. destruct (goes_ready is_alphanumeric s _ _ _ Hself Hg) as [_ Hp]. apply parsed_boundaries in Hp as (_ & _ & Hle).
  unfold remaining. lia.
Qed.

(** A turn of the loop adds an operator to the tree. *)
Lemma spine_turn recurse m self l op o c2 b x e na f Q :
  ready self -> parses self (etree_cst l) (e, x) -> operator_at (place x) op -> infix_operator (token_kind op) = Some o ->
  m <= left_binding_power o -> yields l (left_binding_power o) -> blocks l na -> (remaining s (place x) < f)%nat ->
  (forall y, ready y -> syntax_nesting_depth y = syntax_nesting_depth self -> place y = end_ (full_range op) ->
     returns (right_operand parse_pattern recurse o op y) (fun r => parses y c2 r /\ place r.2 = b)) ->
  (forall z e' na' f', parses self (CstNode Expression [etree_cst l; CstToken op; c2]) (e', z) -> place z = b ->
     (forall p, na' = Some p -> follow_power o <= p) -> (remaining s b < f')%nat ->
     returns (loop f' (infix_step is_alphanumeric at_boundary parse_pattern recurse m) (z, e', na')) Q) ->
  returns (loop f (infix_step is_alphanumeric at_boundary parse_pattern recurse m) (x, e, na)) Q.
Proof using All.
  intros Hself Hl Hop Ho Hm Hy Hna Hf Hright Hk. destruct f as [|f]; [lia|]. cbn [loop].
  destruct (goes_ready is_alphanumeric s _ _ _ Hself (proj1 Hl)) as [Hx _]. cbn [fst snd] in Hx.
  eapply returns_bind; [apply (infix_turn recurse m self (etree_cst l) e x na op o (fun c z => c = c2 /\ place z = b)); try done|].
  - intros E. exact (Hna _ E Hy).
  - intros y H1 H2 H3. eapply returns_mono; [by apply Hright|]. intros r [Hr Hb]. by exists c2.
  - intros step (c & e' & z & -> & Hz & [-> Hb] & Hlt). apply Hk; [done|done| |].
    + destruct (operator_powers _ _ Ho) as [_ Ha]. unfold follow_power. case_decide as E; [intros p [= <-]; done|]. intros p Hp.
      destruct (decide (right_binding_power o <= p)) as [|Hlt2]; [done|]. destruct (Hna p Hp). specialize (Ha E). eapply yields_mono; [|exact Hy]. lia.
    + destruct (goes_ready is_alphanumeric s _ _ _ Hself (proj1 Hz)) as [Hzr _]. rewrite <- Hb.
      pose proof (place_remaining is_alphanumeric s x z (proj1 Hx) (proj1 Hzr) Hlt). lia.
Qed.

(** The prefix and the turns that follow read the tree along its left spine. *)
Lemma spine fuel m :
  (forall y m t b n, ready y -> spells (place y) t b n -> spined m t -> followed b (closes m t) -> syntax_nesting_depth y + 1 + n <= MAX_SYNTAX_NESTING_DEPTH ->
     MAX_SYNTAX_NESTING_DEPTH - syntax_nesting_depth y < Z.of_nat fuel -> returns (engine fuel y m) (fun r => parses y (etree_cst t) r /\ place r.2 = b)) ->
  forall t self b n F Q,
  ready self -> spells (place self) t b n -> spined m t -> followed b (fun o => yields t (left_binding_power o)) ->
  syntax_nesting_depth self + n <= MAX_SYNTAX_NESTING_DEPTH -> MAX_SYNTAX_NESTING_DEPTH - syntax_nesting_depth self < Z.of_nat fuel ->
  (remaining s (place self) < F)%nat ->
  (forall x e na f, parses self (etree_cst t) (e, x) -> place x = b -> blocks t na -> (remaining s b < f)%nat ->
     returns (loop f (infix_step is_alphanumeric at_boundary parse_pattern (engine fuel) m) (x, e, na)) Q) ->
  returns (let! p := parse_prefix_expression_until is_alphanumeric at_boundary parse_postfix (engine fuel) self in
           loop F (infix_step is_alphanumeric at_boundary parse_pattern (engine fuel) m) (p.2, p.1, None)) Q.
Proof using All.
  intros IH. induction t as [c|op t IHt|l IHl op r _|l IHl op c]; intros self b n F Q Hself Hsp Hspine Hfol Hn Hfuel HF Hk.
  - inversion Hsp as [? t0 ? ? ? [Hb Ht] Hu _ Ho| | |]; subst. unfold parse_prefix_expression_until.
    destruct (Hbounds self (proj1 Hself)) as ([b0 x] & -> & Hl & Eb). cbn [outcome_bind fst snd] in *. rewrite Eb, Hb.
    destruct (peek_operator self t0 x Hself Hl Ht) as ([u z] & -> & Eu & Hz & Hzr & _). cbn [outcome_bind fst snd] in *. subst u. rewrite Hu. cbn [negb].
    rewrite <- (looks_place is_alphanumeric s _ _ Hz) in Ho. assert (syntax_nesting_depth z = syntax_nesting_depth self) as Hd by apply Hz.
    destruct (rc_operand Hreading z c b n Ho Hzr ltac:(lia)) as ([e w] & -> & Hp & Hw). cbn [outcome_bind fst snd] in *.
    pose proof (parses_looks is_alphanumeric s _ _ _ _ Hz Hp) as Hps. apply Hk; [done|done|by intros p|].
    pose proof (remaining_parses self c _ Hself Hps) as Hrem. cbn [fst snd] in Hrem. rewrite Hw in Hrem. lia.
  - inversion Hsp as [|? ? ? ? n0 [Hb Ht] Hx| |]; subst. destruct Hspine as [Hu Hspine].
    eapply returns_bind.
    + unfold parse_prefix_expression_until. destruct (Hbounds self (proj1 Hself)) as ([b0 x] & -> & Hl & Eb). cbn [outcome_bind fst snd] in *. rewrite Eb, Hb.
      destruct (peek_operator self op x Hself Hl Ht) as ([u z] & -> & Eu & Hz & Hzr & Hst). cbn [outcome_bind fst snd] in *. subst u. rewrite Hu. cbn [negb].
      apply (prefix_node is_alphanumeric s at_boundary bounds Hbounds parse_postfix parse_pattern self op z op (fun p => engine fuel p PREFIX_RIGHT_BINDING_POWER)
        (fun c w => c = etree_cst t /\ place w = b)); try done; [apply operators_are_tokens; tauto|].
      intros y Hy Hdy Hpy _. rewrite <- Hpy in Hx. eapply returns_mono; [by apply (IH y _ t b n0); try done; lia|]. intros q [Hq Hqb]. by exists (etree_cst t).
    + intros [e w] (c & Hp & -> & Hw). cbn [fst snd] in *. apply Hk; [done|done|by intros p|].
      pose proof (remaining_parses self _ _ Hself Hp) as Hrem. cbn [fst snd] in Hrem. rewrite Hw in Hrem. lia.
  - inversion Hsp as [| |? ? b1 ? ? ? n1 n2 Hl Hop Hr|]; subst. destruct Hspine as [Hne Hspine].
    destruct (infix_operator (token_kind op)) as [o|] eqn:Eo; [|done]. destruct Hspine as (Hm & Hsl & Hyl & Hsr).
    apply (IHl self b1 n1 F Q Hself Hl Hsl); [|lia|lia|done|].
    + right. intros t o' H1 H2. destruct Hop as [_ Hop]. assert (t = op) as -> by congruence. by assert (o' = o) as -> by congruence.
    + intros x e na f Hp Hx Hna Hf. subst b1. apply (spine_turn _ m self l op o (etree_cst r) b x e na f Q); try done.
      * intros y Hy Hdy Hpy. unfold right_operand. rewrite bool_decide_eq_false_2 by done. rewrite <- Hpy in Hr. apply (IH y _ r b n2); try done; [|lia|lia].
        destruct Hfol as [|Hfol]; [by left|right]. intros t o' H1 H2. specialize (Hfol t o' H1 H2). cbn [yields] in Hfol. rewrite Eo in Hfol.
        destruct (operator_powers _ _ Eo). split; [lia|apply Hfol].
      * intros z e' na' f' Hz Hb Hna' Hf'. apply Hk; [done|done| |done]. intros p Hp'. cbn [yields]. rewrite Eo. intros [H1 _]. specialize (Hna' p Hp'). lia.
  - inversion Hsp as [| | |? ? b1 ? ? ? n1 n2 Hl Hop Hr]; subst. destruct Hspine as [He Hspine].
    destruct (infix_operator (token_kind op)) as [o|] eqn:Eo; [|done]. destruct Hspine as (Hm & Hsl & Hyl).
    apply (IHl self b1 n1 F Q Hself Hl Hsl); [|lia|lia|done|].
    + right. intros t o' H1 H2. destruct Hop as [_ Hop]. assert (t = op) as -> by congruence. by assert (o' = o) as -> by congruence.
    + intros x e na f Hp Hx Hna Hf. subst b1. apply (spine_turn _ m self l op o c b x e na f Q); try done.
      * intros y Hy Hdy Hpy. unfold right_operand. rewrite bool_decide_eq_true_2 by done. rewrite <- Hpy in Hr. apply (rc_pattern Hreading y c b n2); try done. lia.
      * intros z e' na' f' Hz Hb Hna' Hf'. apply Hk; [done|done| |done]. intros p Hp'. cbn [yields]. rewrite Eo. intros H1. specialize (Hna' p Hp'). lia.
Qed.

Lemma spells_depth a t b n : spells a t b n -> 0 <= n.
Proof using. induction 1; lia. Qed.

(** The last turn leaves what it sees. *)
Lemma last_turn recurse m self t e x na f :
  ready self -> parses self (etree_cst t) (e, x) -> followed (place x) (closes m t) -> (0 < f)%nat ->
  returns (loop f (infix_step is_alphanumeric at_boundary parse_pattern recurse m) (x, e, na)) (fun r => parses self (etree_cst t) r /\ place r.2 = place x).
Proof using All.
  intros Hself Hp Hfol Hf. destruct f as [|f]; [lia|]. cbn [loop]. destruct (goes_ready is_alphanumeric s _ _ _ Hself (proj1 Hp)) as [Hx _]. cbn [fst snd] in Hx.
  assert (forall y, looks x y -> returns (Ret (e, y)) (fun r => parses self (etree_cst t) r /\ place r.2 = place x)) as Hout.
  { intros y Hy. apply returns_ret. split; [by eapply parses_still|by apply (looks_place is_alphanumeric s)]. }
  unfold infix_step. destruct (Hbounds x (proj1 Hx)) as ([b y] & -> & Hl & Eb). cbn [outcome_bind fst snd] in *. rewrite Eb.
  destruct (bounds (place x)) eqn:Ebx; [by apply Hout|]. destruct Hfol as [|Hfol]; [congruence|].
  destruct (peek_ready is_alphanumeric s y ltac:(by apply (looks_ready is_alphanumeric s x))) as ([u z] & -> & Hl2 & _ & Hn & _). cbn [outcome_bind fst snd] in *.
  assert (looks x z) as Hxz by by eapply looks_trans. rewrite (looks_place is_alphanumeric s _ _ Hl) in Hn.
  destruct (infix_operator (token_kind u)) as [o|] eqn:Eo; [|by apply Hout]. destruct (Hfol u o Hn Eo) as [Hlt _].
  case_bool_decide; [by apply Hout|]. destruct (left_binding_power o <? m) eqn:E; [by apply Hout|lia].
Qed.

Lemma engine_reads fuel : forall self m t b n,
  ready self -> spells (place self) t b n -> spined m t -> followed b (closes m t) -> syntax_nesting_depth self + 1 + n <= MAX_SYNTAX_NESTING_DEPTH ->
  MAX_SYNTAX_NESTING_DEPTH - syntax_nesting_depth self < Z.of_nat fuel -> returns (engine fuel self m) (fun r => parses self (etree_cst t) r /\ place r.2 = b).
Proof using All.
  induction fuel as [|fuel IH]; intros self m t b n Hself Hsp Hspine Hfol Hn Hf; [pose proof (po_depth _ _ _ (proj1 Hself)); lia|].
  cbn [parse_expression_with_min_binding_power_until]. pose proof (spells_depth _ _ _ _ Hsp) as H0.
  destruct (enter_ready is_alphanumeric s at_boundary bounds Hbounds parse_postfix parse_pattern self Hself) as ([d x] & -> & Ed & Hx). cbn [outcome_bind fst snd] in *.
  destruct d; [|lia]. cbn [negb]. pose proof Hx as (Hxr & Hpl & Hd & _).
  assert (returns (let! p := parse_prefix_expression_until is_alphanumeric at_boundary parse_postfix (engine fuel) x in
                   loop (parser_fuel self) (infix_step is_alphanumeric at_boundary parse_pattern (engine fuel) m) (p.2, p.1, None))
            (fun r => parses x (etree_cst t) r /\ place r.2 = b)) as (r & Er & Hr & Hb).
  { apply (spine fuel m IH t x b n); try done; [by rewrite Hpl| |lia|lia| |].
    - destruct Hfol as [|Hfol]; [by left|right]. intros u o H1 H2. by destruct (Hfol u o H1 H2).
    - rewrite Hpl. apply (fuel_remaining is_alphanumeric s); [done|apply Hself].
    - intros y e na f Hp Hy _ Hf'. subst b. apply last_turn; [done|done|done|lia]. }
  destruct (parse_prefix_expression_until _ _ _ _ x) as [p| |]; cbn [outcome_bind] in Er |- *; [|done|done]. rewrite Er. cbn [outcome_bind].
  destruct Hr as [Hg Hnode]. eapply returns_bind; [by apply (leave_nested is_alphanumeric s self x (cst_tokens (etree_cst t)) r.2)|].
  intros w [Hw Hpw]. apply returns_ret. cbn [fst snd]. split; [|by rewrite Hpw]. split; [done|]. by rewrite <- Hpl.
Qed.

(** Neither an infix operator nor an assignment comes at [b], or the expression ends there. *)
Definition ends_at (b : Z) : Prop :=
  bounds b = true \/ forall t, next_token b = Some t -> at_infix_operator (token_kind t) = false /\ at_assignment_operator (token_kind t) = false.

Inductive spells_assignment : Z -> atree -> Z -> Z -> Prop :=
| spells_plain a t b n : spells a t b n -> ends_at b -> spells_assignment a (Plain t) b (n + 2)
| spells_assign a l b op r c n1 n2 :
    spells a l b n1 -> operator_at b op -> spells_assignment (end_ (full_range op)) r c n2 ->
    spells_assignment a (Assign l op r) c ((n1 + 2) `max` (n2 + 1)).

Lemma ends_followed b Q : ends_at b -> followed b Q.
Proof using.
  intros [H|H]; [by left|right]. intros t o Ht Ho. destruct (H t Ht) as [Hi _]. unfold at_infix_operator in Hi. by rewrite Ho in Hi.
Qed.

Lemma assignment_followed b op Q : operator_at b op -> at_assignment_operator (token_kind op) = true -> followed b Q.
Proof using. intros [_ H] Ha. right. intros t o Ht Ho. assert (t = op) as -> by congruence. by destruct (token_kind op). Qed.

Lemma non_assignment_reads self t b n :
  ready self -> derives NonAssignment t -> spells (place self) t b n -> followed b (closes 0 t) -> syntax_nesting_depth self + 1 + n <= MAX_SYNTAX_NESTING_DEPTH ->
  returns (parse_non_assignment_expression_until is_alphanumeric at_boundary parse_postfix parse_pattern self) (fun r => parses self (etree_cst t) r /\ place r.2 = b).
Proof using All.
  intros Hself Hd Hsp Hf Hn. apply (engine_reads nesting_fuel self 0 t b n); try done; [by apply (derives_spined NonAssignment)|].
  pose proof (po_depth _ _ _ (proj1 Hself)). unfold nesting_fuel. rewrite Nat2Z.inj_succ, Z2Nat.id by done. lia.
Qed.

Lemma expression_reads fuel : forall self t b n,
  ready self -> derives_assignment t -> spells_assignment (place self) t b n -> syntax_nesting_depth self + n <= MAX_SYNTAX_NESTING_DEPTH ->
  MAX_SYNTAX_NESTING_DEPTH - syntax_nesting_depth self < Z.of_nat fuel ->
  returns (parse_expression_until is_alphanumeric at_boundary parse_postfix parse_pattern fuel self) (fun r => parses self (atree_cst t) r /\ place r.2 = b).
Proof using All.
  induction fuel as [|fuel IH]; intros self t b n Hself Hd Hsp Hn Hf; [pose proof (po_depth _ _ _ (proj1 Hself)); lia|]. cbn [parse_expression_until].
  destruct (enter_ready is_alphanumeric s at_boundary bounds Hbounds parse_postfix parse_pattern self Hself) as ([d x] & -> & Ed & Hx). cbn [outcome_bind fst snd] in *.
  assert (2 <= n) as H2 by (inversion Hsp as [? ? ? ? H|? ? ? ? ? ? ? ? H]; subst; apply spells_depth in H; lia).
  destruct d; [|lia]. cbn [negb]. pose proof Hx as (Hxr & Hpl & Hdx & _). rewrite <- Hpl in Hsp.
  eapply (returns_bind _ _ (fun r => parses x (atree_cst t) r /\ place r.2 = b)).
  2: { intros [e z] [[Hg Hnode] Hb]. cbn [fst snd] in *. eapply returns_bind; [by apply (leave_nested is_alphanumeric s self x (cst_tokens (atree_cst t)) z)|].
       intros w [Hw Hpw]. apply returns_ret. cbn [fst snd]. split; [|by rewrite Hpw]. split; [done|]. by rewrite <- Hpl. }
  unfold parse_assignment_expression_until. destruct Hd as [t Hd|l op r Hl Hop Hd].
  - inversion Hsp as [? ? ? n0 H He|]; subst.
    destruct (non_assignment_reads x t b n0 Hxr Hd H (ends_followed _ _ He) ltac:(lia)) as ([e y] & -> & Hc & Hb). cbn [outcome_bind fst snd] in *. subst b.
    destruct (goes_ready is_alphanumeric s _ _ _ Hxr (proj1 Hc)) as [Hy _]. cbn [fst snd] in Hy.
    assert (forall z, looks y z -> returns (Ret (e, z)) (fun r => parses x (etree_cst t) r /\ place r.2 = place y)) as Hout.
    { intros z Hz. apply returns_ret. split; [by eapply parses_still|by apply (looks_place is_alphanumeric s)]. }
    destruct (Hbounds y (proj1 Hy)) as ([b0 z] & -> & Hlk & Eb). cbn [outcome_bind fst snd] in *. destruct b0; [by apply Hout|].
    destruct He as [He|He]; [congruence|].
    destruct (peek_ready is_alphanumeric s z ltac:(by apply (looks_ready is_alphanumeric s y))) as ([u w] & -> & Hl2 & _ & Hu & _). cbn [outcome_bind fst snd] in *.
    rewrite (looks_place is_alphanumeric s _ _ Hlk) in Hu. destruct (He u Hu) as [_ ->]. cbn [negb]. apply Hout. by eapply looks_trans.
  - inversion Hsp as [|? ? b1 ? ? ? n1 n2 H Hat Hr]; subst.
    destruct (non_assignment_reads x l b1 n1 Hxr Hl H (assignment_followed _ _ _ Hat Hop) ltac:(lia)) as ([e y] & -> & Hc & Hb). cbn [outcome_bind fst snd] in *. subst b1.
    destruct (goes_ready is_alphanumeric s _ _ _ Hxr (proj1 Hc)) as [Hy _]. cbn [fst snd] in Hy. destruct Hat as [Hnb Hat].
    destruct (Hbounds y (proj1 Hy)) as ([b0 z] & -> & Hlk & Eb). cbn [outcome_bind fst snd] in *. rewrite Eb, Hnb.
    destruct (peek_operator y op z Hy Hlk Hat) as ([u w] & -> & Eu & Hw & Hwr & _). cbn [outcome_bind fst snd] in *. subst u. rewrite Hop. cbn [negb].
    pose proof (parses_still _ _ _ _ _ Hc Hw) as Hcw. assert (syntax_nesting_depth w = syntax_nesting_depth x) as Hdw by apply (proj1 Hcw).
    apply (operator_node is_alphanumeric s at_boundary bounds Hbounds parse_postfix parse_pattern x (etree_cst l) e w op
      (fun _ y => parse_expression_until is_alphanumeric at_boundary parse_postfix parse_pattern fuel y) (fun c2 z => c2 = atree_cst r /\ place z = b)
      (fun e' y => Ret (e', y))); try done.
    + by rewrite (looks_place is_alphanumeric s _ _ Hw).
    + apply operators_are_tokens. tauto.
    + intros v Hv Hg Hpv _. assert (syntax_nesting_depth v = syntax_nesting_depth x) as Hdv by (rewrite <- Hdw; apply Hg). rewrite <- Hpv in Hr.
      eapply returns_mono; [apply (IH v r b n2); try done; lia|]. intros q [Hq Hqb]. by exists (atree_cst r).
    + intros c2 e' v Hp [-> Hv] _. apply returns_ret. by split.
Qed.
End reading.

(** *** Chains of comparisons *)

(** Two comparisons with no looser operator between them; [seen] is whether one precedes. *)
Fixpoint chained (seen : bool) (l : list SyntaxKind) : bool :=
  match l with
  | [] => false
  | kind :: l =>
      match infix_operator kind with
      | Some o =>
          if left_binding_power o <? level_power Comparison then chained false l
          else if left_binding_power o =? level_power Comparison then seen || chained true l
          else chained seen l
      | None => chained seen l
      end
  end.

Definition tight (p : Z) (kind : SyntaxKind) : Prop := exists o, infix_operator kind = Some o /\ p <= left_binding_power o.

Lemma tight_mono p q l : p <= q -> Forall (tight q) l -> Forall (tight p) l.
Proof. intros Hpq. apply Forall_impl. intros k (o & E & H). exists o. split; [done|lia]. Qed.

(** A level has no operators that are looser than it. *)
Lemma derives_tight n t : derives n t -> Forall (tight (level_power n `min` 20)) (operators t).
Proof.
  induction 1 as [c|n t _ IH|n l op r Hn Hop _ IHl _ IHr|n l op r Hn Hop _ IHl _ IHr|l op c Hop _ IHl|op x Hop _ IH|c op r Hop _ IHr]; cbn [operators]; [done| | | | |done|].
  - pose proof (tighter_power n). eapply tight_mono; [|exact IH]. lia.
  - destruct (level_operator_power n _ Hop) as (_ & H17 & Ht & E). apply Forall_app. split; [done|].
    constructor; [eexists; split; [exact E|cbn [left_binding_power]; lia]|]. eapply tight_mono; [|exact IHr]. lia.
  - destruct (level_operator_power n _ Hop) as (_ & H17 & Ht & E). apply Forall_app. split; [eapply tight_mono; [|exact IHl]; lia|].
    constructor; [eexists; split; [exact E|cbn [left_binding_power]; lia]|]. eapply tight_mono; [|exact IHr]. lia.
  - apply Forall_app. split; [by eapply tight_mono; [|exact IHl]|]. constructor; [|done]. rewrite Hop. by eexists.
  - rewrite Hop. constructor; [by eexists|done].
Qed.

(** Operators that bind tighter than comparisons chain nothing. *)
Lemma chained_tight seen l l' : Forall (tight 6) l -> chained seen (l ++ l') = chained seen l'.
Proof.
  induction 1 as [|k l (o & E & Hk) _ IH]; [done|]. cbn [chained app]. rewrite E. change (level_power Comparison) with 5.
  destruct (left_binding_power o <? 5) eqn:E1; [lia|]. destruct (left_binding_power o =? 5) eqn:E2; [lia|done].
Qed.

Lemma chained_looser o kind l l' seen :
  infix_operator kind = Some o -> left_binding_power o < 5 -> chained seen (l ++ kind :: l') = chained seen l || chained false l'.
Proof.
  intros E Ho. revert seen. induction l as [|k l IH]; intros seen; cbn [chained app].
  - rewrite E. change (level_power Comparison) with 5. by destruct (left_binding_power o <? 5) eqn:E1; [|lia].
  - destruct (infix_operator k) as [ok|]; [|done]. destruct (_ <? _); [done|]. destruct (_ =? _); [|done]. by rewrite IH, orb_assoc.
Qed.

Lemma derives_unchained n t : derives n t -> level_power n <= 5 -> chained false (operators t) = false.
Proof.
  assert (forall n t l, derives n t -> 6 <= level_power n -> chained false (operators t ++ l) = chained false l) as Htight.
  { intros m u l Hu Hm. apply chained_tight. eapply tight_mono; [|exact (derives_tight _ _ Hu)]. lia. }
  assert (forall n t, derives n t -> 6 <= level_power n -> forall seen, chained seen (operators t) = false) as Hnone.
  { intros m u Hu Hm seen. rewrite <- (app_nil_r (operators u)). apply chained_tight. eapply tight_mono; [|exact (derives_tight _ _ Hu)]. lia. }
  induction 1 as [c|n t Ht IH|n l op r Hn Hop Hl IHl Hr IHr|n l op r Hn Hop Hl IHl Hr IHr|l op c Hop Hl IHl|op x Hop _ IH|c op r Hop _ IHr]; intros Hp; cbn [operators]; [done| | | | |done|].
  - destruct (decide (level_power (tighter n) <= 5)); [by apply IH|]. eapply Hnone; [exact Ht|lia].
  - destruct (level_operator_power n _ Hop) as (_ & _ & Ht & E). destruct n; try discriminate Hn; try (by exfalso; apply Hp); rewrite (chained_looser _ _ _ _ _ E) by done;
      rewrite IHl by done; rewrite IHr by done; done.
  - destruct n; try discriminate Hn; try (by exfalso; apply Hp).
    + destruct (level_operator_power _ _ Hop) as (_ & _ & Ht & E). rewrite (chained_looser _ _ _ _ _ E) by done. rewrite IHl by done. by rewrite IHr.
    + rewrite (Htight BitwiseOr) by done. destruct (level_operator_power _ _ Hop) as (_ & _ & Ht & E). cbn [chained]. rewrite E. cbn. by rewrite (Hnone BitwiseOr).
  - rewrite (Htight BitwiseOr) by done. rewrite Hop. done.
  - by exfalso; apply Hp.
Qed.

(** ** The claims *)

(** C6. The engine of expressions is lossless over lossless operands.  Take any text,
    a test for the end of the expression that only looks ahead, and parsers of
    postfix operands and of case patterns that, wherever they are called, return,
    have gone over their tokens and have built the node of these.  Then the parser
    of expressions returns: no call panics, the nesting of operators is cut off at
    the limit, and every loop ends.  It has gone over the tokens of the expression in
    order, up to the place where it stops, and is at the nesting depth at which it
    was called; the node that it returns writes exactly the text between the two
    places. *)
Theorem expression_lossless {B} `{!DiagnosticSink B, !DiagnosticSinkLaws B} is_alphanumeric s `{!WfSnapshot s}
    at_boundary bounds parse_postfix parse_pattern (self : Parser B) :
  boundary_contract is_alphanumeric s at_boundary bounds -> operand_contract is_alphanumeric s parse_postfix parse_pattern ->
  ready is_alphanumeric s self ->
  returns (parse_expression_until is_alphanumeric at_boundary parse_postfix parse_pattern nesting_fuel self) (fun r =>
    ready is_alphanumeric s r.2 /\ syntax_nesting_depth r.2 = syntax_nesting_depth self /\
    sn_start r.1 = place self /\
    (exists tokens, parsed (text s) (place self) tokens (place r.2) /\ advances is_alphanumeric s (parser_cursor self) tokens (parser_cursor r.2) /\
      syntax_tokens (sn_node r.1) (place self) = Ret (settle (place self) tokens)) /\
    forall w, write_source_text (sn_node r.1) (text s) (place self) w = Ret (w ++ between (text s) (place self) (place r.2))).
Proof.
  intros Hb Ho Hr. eapply returns_mono; [apply (expression_total is_alphanumeric s at_boundary bounds Hb parse_postfix parse_pattern Ho nesting_fuel self Hr)|].
  { pose proof (po_depth _ _ _ (proj1 Hr)). unfold nesting_fuel. rewrite Nat2Z.inj_succ, Z2Nat.id by done. lia. }
  intros [e x] (c & Hg & _ & Hst & kind & children & -> & [Hk Hc]%cst_ok_node & Hn). cbn [fst snd] in *.
  destruct (goes_ready is_alphanumeric s _ _ _ Hr Hg) as [Hx Hp]. split; [done|]. split; [apply Hg|]. split; [done|].
  destruct (parsed_tree (text s) kind children _ _ _ wf_fits Hk Hc eq_refl Hp) as (node & En & _ & _ & Ht & Hw).
  assert (node = sn_node e) as -> by congruence. split; [|done]. eexists. split; [exact Hp|]. split; [apply Hg|exact Ht].
Qed.

(** C5. The documented grammar is parsed.  Take any expression that the precedence
    ladder of the grammar derives and that the text spells up to a place where
    neither an infix operator nor an assignment follows.  Then the parser returns
    the node of this very tree and stops at this place, provided that the nesting
    stays within the limit. *)
Theorem expression_grammar_parsed {B} `{!DiagnosticSink B, !DiagnosticSinkLaws B} is_alphanumeric s `{!WfSnapshot s}
    at_boundary bounds parse_postfix parse_pattern operand_at pattern_at (self : Parser B) t b n :
  boundary_contract is_alphanumeric s at_boundary bounds ->
  reading_contract is_alphanumeric s parse_postfix parse_pattern operand_at pattern_at ->
  ready is_alphanumeric s self -> derives_assignment t ->
  spells_assignment (B := B) is_alphanumeric s bounds operand_at pattern_at (place self) t b n ->
  syntax_nesting_depth self + n <= MAX_SYNTAX_NESTING_DEPTH ->
  returns (parse_expression_until is_alphanumeric at_boundary parse_postfix parse_pattern nesting_fuel self) (fun r =>
    parses is_alphanumeric s self (atree_cst t) r /\ place r.2 = b).
Proof.
  intros Hb Hc Hr Hd Hs Hn. apply (expression_reads is_alphanumeric s at_boundary bounds Hb parse_postfix parse_pattern operand_at pattern_at Hc nesting_fuel self t b n); try done.
  pose proof (po_depth _ _ _ (proj1 Hr)). unfold nesting_fuel. rewrite Nat2Z.inj_succ, Z2Nat.id by done. lia.
Qed.

(** *** Samples

    Expressions of identifiers up to a semicolon. *)

Definition sample_boundary (p : Parser Bag) : outcome (bool * Parser Bag) := Parser_at ascii_table p SemicolonToken.

Definition sample_operand (p : Parser Bag) : outcome (source_node * Parser Bag) := missing_expression ascii_table p.

Definition sample_bounds (s : SourceSnapshot) (a : Z) : bool := bool_decide (kind_at (B := Bag) ascii_table s a = Some SemicolonToken).

Definition identifier_cst (t : SyntaxToken) : Cst := CstNode Expression [CstNode PrimaryExpression [CstToken t]].

Definition identifier_at (s : SourceSnapshot) (a : Z) (c : Cst) (b n : Z) : Prop :=
  exists t, next_token (B := Bag) ascii_table s a = Some t /\ token_kind t = IdentifierToken /\ c = identifier_cst t /\ b = end_ (full_range t).

Lemma sample_boundary_ok s `{!WfSnapshot s} : boundary_contract ascii_table s sample_boundary (sample_bounds s).
Proof. intros self Hok. by apply (at_looks ascii_table s). Qed.

Lemma sample_total s `{!WfSnapshot s} : operand_contract ascii_table s sample_operand sample_operand.
Proof. split; intros self Hr; by apply (missing_expression_ok ascii_table s sample_boundary (sample_bounds s) (sample_boundary_ok s)). Qed.

Lemma sample_reading s `{!WfSnapshot s} : reading_contract ascii_table s sample_operand sample_operand (identifier_at s) (identifier_at s).
Proof.
  split; intros self c b n (t & Ht & Hk & -> & ->) Hr _;
    by apply (present_identifier ascii_table s sample_boundary (sample_bounds s) (sample_boundary_ok s)).
Qed.

Lemma sample_ready s `{!WfSnapshot s} : ready (B := Bag) ascii_table s (Parser_new s).
Proof. split; [exact (proj1 (parser_new_ok (B := Bag) ascii_table s))|by apply cursor_new_exact]. Qed.

Definition expression_sample : SourceSnapshot := unit_snapshot (lit "a = -b ** c + d * e;").

(** Operands that nest: an identifier, or an expression in parentheses, up to some
    depth, whose own operands are of this kind. *)
Definition grouped_boundary (p : Parser Bag) : outcome (bool * Parser Bag) :=
  let! r := Parser_at ascii_table p SemicolonToken in
  if r.1 then Ret r else Parser_at ascii_table r.2 CloseParenToken.

Definition grouped_bounds (s : SourceSnapshot) (a : Z) : bool :=
  sample_bounds s a || bool_decide (kind_at (B := Bag) ascii_table s a = Some CloseParenToken).

Fixpoint grouped_operand (depth : nat) (p : Parser Bag) : outcome (source_node * Parser Bag) :=
  match depth with
  | O => missing_expression ascii_table p
  | S depth =>
      let! r := Parser_peek ascii_table p in
      if negb (bool_decide (token_kind r.1 = OpenParenToken)) then missing_expression ascii_table r.2
      else
        let! open := Parser_consume ascii_table r.2 in
        let! builder := primary_push_token (node_builder (syntax_source r.2) (start (full_range r.1))) open.1 in
        let! inner := parse_expression_until ascii_table grouped_boundary (grouped_operand depth) (grouped_operand depth) nesting_fuel open.2 in
        let! close := Parser_expect ascii_table inner.2 CloseParenToken in
        let! builder := primary_push_token (push_child builder inner.1) close.1 in
        let! primary := PrimaryExpressionSyntax_build builder in
        let! expression := primary_to_expression close.2 primary in
        Ret (expression, close.2)
  end.

Lemma grouped_boundary_ok s `{!WfSnapshot s} : boundary_contract ascii_table s grouped_boundary (grouped_bounds s).
Proof.
  intros self Hok. unfold grouped_boundary, grouped_bounds. destruct (sample_boundary_ok s self Hok) as ([b x] & E & Hl & Hb). unfold sample_boundary in E. rewrite E.
  cbn [outcome_bind fst snd] in *. destruct b; [apply returns_ret; by rewrite <- Hb|]. rewrite <- Hb. cbn [orb].
  eapply returns_mono; [apply (at_looks ascii_table s); apply Hl|]. intros r [Hl2 ->]. split; [by eapply looks_trans|].
  by rewrite (looks_place ascii_table s _ _ Hl).
Qed.

Lemma grouped_total s `{!WfSnapshot s} depth : operand_contract ascii_table s (grouped_operand depth) (grouped_operand depth).
Proof.
  assert (forall self, ready ascii_table s self -> returns (grouped_operand depth self) (fun r => exists c, parses ascii_table s self c r)) as H; [|by split].
  induction depth as [|depth IH]; intros self Hr; cbn [grouped_operand].
  { by apply (missing_expression_ok ascii_table s sample_boundary (sample_bounds s) (sample_boundary_ok s)). }
  destruct (peek_ready ascii_table s self Hr) as ([u x] & -> & Hl & Hx & Hn & Hs & _). cbn [outcome_bind fst snd] in *. case_bool_decide as Hu; cbn [negb].
  2: { eapply returns_mono; [by apply (missing_expression_ok ascii_table s sample_boundary (sample_bounds s) (sample_boundary_ok s))|].
       intros r (c & Hc). exists c. by eapply parses_looks. }
  rewrite <- (looks_place ascii_table s _ _ Hl) in Hn. rewrite Hs, (source_of ascii_table s _ Hx).
  destruct (consume_ready ascii_table s x u Hx Hn ltac:(by rewrite Hu)) as ([t y] & -> & Et & Hgy & _). cbn [outcome_bind fst snd] in *. subst t.
  destruct (goes_ready ascii_table s _ _ _ Hx Hgy) as [Hy Hpt]. unfold primary_push_token. rewrite Hu. change (is_token OpenParenToken) with true. cbn [assert_ outcome_bind].
  rewrite (looks_place ascii_table s _ _ Hl) in Hpt. destruct (builder_token s (node_builder s (place self)) (place self) [] u (builder_new s _) (parsed_piece s _ _ _ Hpt)) as (node & -> & Hb).
  cbn [outcome_bind app] in *.
  destruct (expression_total ascii_table s grouped_boundary (grouped_bounds s) (grouped_boundary_ok s) _ _ ltac:(split; exact IH) nesting_fuel y Hy) as ([e z] & -> & c & [Hg Hc]).
  { pose proof (po_depth _ _ _ (proj1 Hy)). unfold nesting_fuel. rewrite Nat2Z.inj_succ, Z2Nat.id by done. lia. }
  cbn [outcome_bind fst snd] in *. destruct (goes_ready ascii_table s _ _ _ Hy Hg) as [Hz _].
  destruct (expect_ready ascii_table s z CloseParenToken Hz eq_refl ltac:(done)) as ([t w] & -> & Hgw & Ht). cbn [outcome_bind fst snd] in *.
  destruct (goes_ready ascii_table s _ _ _ Hz Hgw) as [Hw Hpw]. rewrite Ht. change (is_token CloseParenToken) with true. cbn [assert_ outcome_bind].
  pose proof (builder_child s _ _ _ _ _ _ Hb Hc) as Hb2. destruct (builder_token s _ _ _ t Hb2 (parsed_piece s _ _ _ Hpw)) as (node2 & -> & Hb3). cbn [outcome_bind app] in *.
  assert (goes ascii_table s self (cst_tokens (CstNode PrimaryExpression [CstToken u; c; CstToken t])) w) as Hgo.
  { cbn [cst_tokens map concat]. eapply looks_goes; [exact Hl|]. eapply goes_trans; [exact Hgy|]. eapply goes_trans; [exact Hg|exact Hgw]. }
  destruct (goes_ready ascii_table s _ _ _ Hr Hgo) as [_ Hpa]. unfold PrimaryExpressionSyntax_build.
  destruct (builder_build s PrimaryExpression _ _ _ (place w) Hb3 eq_refl Hpa) as (primary & -> & Hpr). cbn [outcome_bind fst snd].
  eapply returns_bind; [by apply (primary_expression_ok ascii_table s grouped_boundary (grouped_bounds s) (grouped_boundary_ok s) self (place self) _ (place w) primary w Hw Hpr Hpa)|].
  intros expression He. apply returns_ret. eexists. exact He.
Qed.

Definition grouped_sample : SourceSnapshot := unit_snapshot (lit "x = (a + -b) * (c ** (d - e)) == (f) /* rest */ ;").

Lemma expression_lossless_witness :
  exists r, parse_expression_until ascii_table grouped_boundary (grouped_operand 4) (grouped_operand 4) nesting_fuel (Parser_new grouped_sample) = Ret r /\
    place r.2 = 48 /\ write_source_text (sn_node r.1) (text grouped_sample) 0 [] = Ret (between (text grouped_sample) 0 (place r.2)).
Proof.
  assert (WfSnapshot grouped_sample) as Hwf by by apply ascii_snapshot_wf.
  destruct (expression_lossless ascii_table grouped_sample grouped_boundary (grouped_bounds grouped_sample) (grouped_operand 4) (grouped_operand 4)
    (Parser_new grouped_sample)) as (r & Hr & _ & _ & _ & _ & H); [by apply grouped_boundary_ok|by apply grouped_total|by apply sample_ready|].
  exists r. split; [exact Hr|]. split; [|exact (H [])]. clear H. vm_compute in Hr. injection Hr as <-. vm_compute. reflexivity.
Defined.

(** The tokens of a sample, by the places where they come. *)
Definition sample_token (s : SourceSnapshot) (a : Z) : SyntaxToken :=
  default {| token_kind := InvalidToken; token_range := TextRange_empty a; presence := Missing; leading_trivia := []; trailing_trivia := [] |}
    (next_token (B := Bag) ascii_table s a).

Definition sample_identifier (s : SourceSnapshot) (a : Z) : etree := Operand (identifier_cst (sample_token s a)).

Definition expression_sample_tree : atree :=
  let id := sample_identifier expression_sample in
  let op := sample_token expression_sample in
  Assign (id 0) (op 2) (Plain (Infix (Prefix (op 4) (Infix (id 5) (op 7) (id 10))) (op 12) (Infix (id 14) (op 16) (id 18)))).

Lemma expression_sample_derived : derives_assignment expression_sample_tree.
Proof.
  assert (forall n c, derives n (Operand c)) as Hop by (intros n c; destruct n; do 11 (try apply derives_operand; apply derives_tighter); apply derives_operand).
  constructor; [apply Hop|by vm_compute|]. constructor. do 8 apply derives_tighter. apply derives_repeated; [done|by vm_compute| |].
  - do 2 apply derives_tighter. apply derives_unary; [by vm_compute|]. apply derives_tighter. apply derives_power; [by vm_compute|apply Hop].
  - apply derives_repeated; [done|by vm_compute|apply Hop|apply Hop].
Qed.

Section spelled.
Context (s : SourceSnapshot).
Abbreviation spells := (spells (B := Bag) ascii_table s (sample_bounds s) (identifier_at s) (identifier_at s)).

Lemma identifier_spelled a b :
  sample_bounds s a = false -> token_kind (sample_token s a) = IdentifierToken -> end_ (full_range (sample_token s a)) = b ->
  spells a (sample_identifier s a) b 0.
Proof.
  unfold sample_identifier, sample_token. intros Hb Hk He. destruct (next_token _ _ a) as [t|] eqn:Et; [|done]. cbn [from_option id] in *.
  apply (spells_operand _ _ _ _ _ a t); [by split|by rewrite Hk|done|]. by exists t.
Qed.

Lemma operator_spelled a :
  sample_bounds s a = false -> token_kind (sample_token s a) <> InvalidToken -> operator_at (B := Bag) ascii_table s (sample_bounds s) a (sample_token s a).
Proof. unfold sample_token. intros Hb Hk. split; [done|]. by destruct (next_token _ _ a). Qed.

Lemma prefix_spelled a x b n :
  sample_bounds s a = false -> token_kind (sample_token s a) <> InvalidToken -> spells (end_ (full_range (sample_token s a))) x b n ->
  spells a (Prefix (sample_token s a) x) b (n + 1).
Proof. intros H1 H2 H3. apply spells_prefix; [by apply operator_spelled|done]. Qed.

Lemma infix_spelled a l b r c n1 n2 :
  spells a l b n1 -> sample_bounds s b = false -> token_kind (sample_token s b) <> InvalidToken -> spells (end_ (full_range (sample_token s b))) r c n2 ->
  spells a (Infix l (sample_token s b) r) c (n1 `max` (n2 + 1)).
Proof. intros H1 H2 H3 H4. by eapply spells_infix; [|apply operator_spelled|]. Qed.
End spelled.

Lemma expression_sample_spelled :
  spells_assignment (B := Bag) ascii_table expression_sample (sample_bounds expression_sample) (identifier_at expression_sample) (identifier_at expression_sample)
    0 expression_sample_tree 19 5.
Proof.
  apply (spells_assign _ _ _ _ _ 0 _ 2 _ _ 19 0 4); [by apply identifier_spelled|by apply operator_spelled|].
  apply (spells_plain _ _ _ _ _ _ _ 19 2); [|left; by vm_compute].
  apply (infix_spelled expression_sample _ _ 12 _ 19 2 1); [|by vm_compute|by vm_compute|].
  - apply (prefix_spelled expression_sample 4 _ 12 1); [by vm_compute|by vm_compute|].
    apply (infix_spelled expression_sample _ _ 7 _ 12 0 0); [|by vm_compute|by vm_compute|]; by apply identifier_spelled.
  - apply (infix_spelled expression_sample _ _ 16 _ 19 0 0); [|by vm_compute|by vm_compute|]; by apply identifier_spelled.
Qed.

Lemma expression_grammar_parsed_witness :
  returns (parse_expression_until ascii_table sample_boundary sample_operand sample_operand nesting_fuel (Parser_new expression_sample)) (fun r =>
    parses ascii_table expression_sample (Parser_new expression_sample) (atree_cst expression_sample_tree) r /\ place r.2 = 19).
Proof.
  assert (WfSnapshot expression_sample) as Hwf by by apply ascii_snapshot_wf.
  apply (expression_grammar_parsed ascii_table expression_sample sample_boundary (sample_bounds expression_sample) sample_operand sample_operand
    (identifier_at expression_sample) (identifier_at expression_sample) (Parser_new expression_sample) expression_sample_tree 19 5).
  - apply sample_boundary_ok. exact Hwf.
  - apply sample_reading. exact Hwf.
  - apply sample_ready. exact Hwf.
  - exact expression_sample_derived.
  - exact expression_sample_spelled.
  - vm_compute. discriminate.
Defined.

(** *** The chain that is taken *)

Definition parse_sample (text : string) : outcome (GreenNode * Z * bool) :=
  let! r := parse_expression_until ascii_table sample_boundary sample_operand sample_operand nesting_fuel (Parser_new (unit_snapshot (lit text))) in
  Ret (sn_node r.1, place r.2, DiagnosticBag_is_empty (Parser_finish r.2)).

Definition chain_sample : SourceSnapshot := unit_snapshot (lit "a || b == c == d;").

Definition chain_tree : etree :=
  let id := sample_identifier chain_sample in
  let op := sample_token chain_sample in
  Infix (Infix (id 0) (op 2) (Infix (id 5) (op 7) (id 10))) (op 12) (id 15).

Definition etree_node (t : etree) : outcome GreenNode := match etree_cst t with CstNode kind children => build_cst kind children | CstToken _ => Panic end.

(** C37. Comparisons are not associative, and the parser leaves the second one of
    [a == b == c] behind: it stops there.  Yet it takes the second comparison of
    [a || b == c == d]: the call for the right operand of [||] has taken the first
    and forgets it, and the call around it takes the second, as the comparison of
    the disjunction with [d], up to the semicolon and without a diagnostic.  No
    expression of the grammar has these operators in this order. *)
Theorem chained_comparison_accepted :
  (let! r := parse_sample "a == b == c;" in Ret (r.1.2, r.2)) = Ret (7, true) /\
  (exists node, etree_node chain_tree = Ret node /\ parse_sample "a || b == c == d;" = Ret (node, 16, true)) /\
  operators chain_tree = [PipePipeToken; EqualsEqualsToken; EqualsEqualsToken] /\
  forall t, derives NonAssignment t -> operators t <> operators chain_tree.
Proof.
  split; [by vm_compute|]. split; [eexists; split; vm_compute; reflexivity|]. assert (operators chain_tree = [PipePipeToken; EqualsEqualsToken; EqualsEqualsToken]) as E by by vm_compute.
  split; [done|]. intros t Ht Et. pose proof (derives_unchained _ _ Ht ltac:(done)) as H. rewrite Et, E in H. by vm_compute in H.
Qed.
