(* ===== verification/BigFloat.v ===== *)
(** * Arbitrary-precision floats

    [bray-numeric] computes with the [BigFloat] of a library outside the
    repository.  Here it is a class of the operations that the crate uses, with
    a second class of what the crate relies on, in the words of the library's
    documentation: a number has a sign, a mantissa of whole words whose top bit
    is set and an exponent, so that it is the mantissa read as a fraction below
    one, times two to the exponent; the result of an operation has at least the
    requested precision, is exact where that precision admits it, and otherwise
    rounded to it.  The rounding mode is always [RoundingMode::ToEven].

    Values are dyadic: [m * 2^e], compared at a common exponent.  The instance at
    the end shows that the laws can hold. *)

From Stdlib Require Import ZArith Lia.
From stdpp Require Import base list numbers option.
From S2P Require Import Prelude.

(** ** The operations *)

Inductive Sign := Pos | Neg.

#[export] Instance sign_eq_dec : EqDecision Sign.
Proof. solve_decision. Defined.

Definition sign_xor (a b : Sign) : Sign := if decide (a = b) then Pos else Neg.

Class BigFloat (F : Type) := {
  WORD_BIT_SIZE : usize;
  NAN : F;
  INF_POS : F;
  INF_NEG : F;
  from_u8 : u8 -> usize -> F;
  from_u128 : Z -> usize -> F;
  is_err : F -> bool;
  is_nan : F -> bool;
  is_inf : F -> bool;
  is_zero : F -> bool;
  big_sign : F -> option Sign;
  big_exponent : F -> option Z;
  mantissa_max_bit_len : F -> option usize;
  as_raw_parts : F -> option (list Z * usize * Sign * Z * bool);
  set_sign : F -> Sign -> F;
  set_exponent : F -> Z -> F;
  big_add : F -> F -> usize -> F;
  big_sub : F -> F -> usize -> F;
  big_mul : F -> F -> usize -> F;
  big_div : F -> F -> usize -> F;
}.

(** ** Dyadic values *)

Definition dy_eq (m1 e1 m2 e2 : Z) : Prop := forall k, k <= e1 -> k <= e2 -> m1 * 2 ^ (e1 - k) = m2 * 2 ^ (e2 - k).

Lemma pow2_pos k : 0 <= k -> 0 < 2 ^ k.
Proof. intros H. apply Z.pow_pos_nonneg; lia. Qed.

Lemma pow2_split a b : 0 <= a <= b -> 2 ^ b = 2 ^ a * 2 ^ (b - a).
Proof. intros H. rewrite <- Z.pow_add_r by lia. f_equal. lia. Qed.

Lemma dy_eq_intro k m1 e1 m2 e2 : k <= e1 -> k <= e2 -> m1 * 2 ^ (e1 - k) = m2 * 2 ^ (e2 - k) -> dy_eq m1 e1 m2 e2.
Proof.
  intros H1 H2 E j J1 J2. destruct (Z.le_ge_cases j k) as [Hj|Hj].
  - replace (e1 - j) with ((e1 - k) + (k - j)) by lia. replace (e2 - j) with ((e2 - k) + (k - j)) by lia.
    rewrite !Z.pow_add_r, !Z.mul_assoc, E by lia. done.
  - replace (e1 - k) with ((e1 - j) + (j - k)) in E by lia. replace (e2 - k) with ((e2 - j) + (j - k)) in E by lia.
    rewrite !Z.pow_add_r, !Z.mul_assoc in E by lia. pose proof (pow2_pos (j - k)). nia.
Qed.

Lemma dy_eq_refl m e : dy_eq m e m e.
Proof. by intros k _ _. Qed.

Lemma dy_eq_sym m1 e1 m2 e2 : dy_eq m1 e1 m2 e2 -> dy_eq m2 e2 m1 e1.
Proof. intros H k H1 H2. symmetry. by apply H. Qed.

Lemma dy_eq_trans m1 e1 m2 e2 m3 e3 : dy_eq m1 e1 m2 e2 -> dy_eq m2 e2 m3 e3 -> dy_eq m1 e1 m3 e3.
Proof. intros H1 H2. apply (dy_eq_intro (e1 `min` e2 `min` e3)); [lia|lia|]. rewrite H1, H2 by lia. done. Qed.

Lemma dy_eq_scale m e k : 0 <= k -> dy_eq (m * 2 ^ k) (e - k) m e.
Proof. intros Hk. apply (dy_eq_intro (e - k)); [lia|lia|]. rewrite Z.sub_diag, Z.mul_1_r. do 2 f_equal. lia. Qed.

Lemma dy_eq_zero m1 e1 e2 : dy_eq m1 e1 0 e2 <-> m1 = 0.
Proof.
  split; [|intros ->; by intros k]. intros H. specialize (H (e1 `min` e2)). pose proof (pow2_pos (e1 - e1 `min` e2)). nia.
Qed.

Lemma dy_eq_mul m1 e1 n1 f1 m2 e2 n2 f2 : dy_eq m1 e1 n1 f1 -> dy_eq m2 e2 n2 f2 -> dy_eq (m1 * m2) (e1 + e2) (n1 * n2) (f1 + f2).
Proof.
  intros H1 H2. set (k := e1 `min` f1). set (j := e2 `min` f2). apply (dy_eq_intro (k + j)); [lia|lia|].
  specialize (H1 k ltac:(lia) ltac:(lia)). specialize (H2 j ltac:(lia) ltac:(lia)).
  replace (e1 + e2 - (k + j)) with ((e1 - k) + (e2 - j)) by lia. replace (f1 + f2 - (k + j)) with ((f1 - k) + (f2 - j)) by lia.
  rewrite !Z.pow_add_r by lia.
  transitivity ((m1 * 2 ^ (e1 - k)) * (m2 * 2 ^ (e2 - j))); [ring|]. rewrite H1, H2. ring.
Qed.

(** ** Mantissas *)

Lemma testbit_small p n i : 0 < p -> 0 <= n < 2 ^ p -> p <= i -> Z.testbit n i = false.
Proof. intros Hp Hn Hi. rewrite <- (Z.mod_small n (2 ^ p)) by done. apply Z.mod_pow2_bits_high. lia. Qed.

Section words.
Context (width : Z) (Hwidth : 0 < width).

Fixpoint mantissa (words : list Z) : Z :=
  match words with [] => 0 | w :: words => w + 2 ^ width * mantissa words end.

Definition words_ok (words : list Z) : Prop := Forall (fun w => 0 <= w < 2 ^ width) words.

(** Bit [index] as the code reads it, from the word that holds it. *)
Definition word_bit (words : list Z) (index : Z) : option bool :=
  w ← get words (index / width); Some (Z.testbit w (index mod width)).

Lemma mantissa_bounds words : words_ok words -> 0 <= mantissa words < 2 ^ (width * zlen words).
Proof using Hwidth.
  induction 1 as [|w words Hw _ IH]; [change (zlen (@nil Z)) with 0; rewrite Z.mul_0_r; simpl; lia|]. cbn [mantissa]. rewrite zlen_cons.
  pose proof (zlen_nonneg words). rewrite Z.mul_add_distr_l, Z.mul_1_r, Z.pow_add_r by lia.
  pose proof (pow2_pos (width * zlen words)). nia.
Qed.

Lemma mantissa_testbit words i :
  words_ok words -> 0 <= i < width * zlen words -> word_bit words i = Some (Z.testbit (mantissa words) i).
Proof using Hwidth.
  intros H. revert i. induction H as [|w words Hw Hws IH]; intros i Hi; [change (zlen (@nil Z)) with 0 in Hi; lia|]. rewrite zlen_cons in Hi.
  unfold word_bit in *. cbn [mantissa]. rewrite (Z.add_comm w), (Z.mul_comm (2 ^ width)), <- Z.shiftl_mul_pow2 by lia.
  assert (Z.land (Z.shiftl (mantissa words) width) w = 0) as Hland.
  { apply Z.bits_inj'. intros j Hj. rewrite Z.land_spec, Z.bits_0. destruct (Z.lt_ge_cases j width) as [Hlt|Hge].
    - rewrite Z.shiftl_spec_low by lia. done.
    - rewrite (testbit_small width w j) by lia. by rewrite andb_comm. }
  rewrite Z.add_nocarry_lxor, Z.lxor_spec by done. destruct (Z.lt_ge_cases i width) as [Hlt|Hge].
  - rewrite Z.div_small, Z.mod_small, Z.shiftl_spec_low by lia. done.
  - assert (i / width = (i - width) / width + 1) as -> by (rewrite <- Z.div_add by lia; f_equal; lia).
    assert (i mod width = (i - width) mod width) as -> by (rewrite <- (Z.mod_add (i - width) 1) by lia; f_equal; lia).
    assert (0 <= (i - width) / width) as Hq by (apply Z.div_pos; lia).
    replace (get (w :: words) ((i - width) / width + 1)) with (get words ((i - width) / width)).
    2: { rewrite !get_nonneg by lia. by replace (Z.to_nat ((i - width) / width + 1)) with (S (Z.to_nat ((i - width) / width))) by lia. }
    rewrite IH by lia. rewrite Z.shiftl_spec by lia. f_equal.
    by rewrite (testbit_small width w i), xorb_false_r by lia.
Qed.
End words.

(** ** What a float is *)

Inductive big_view :=
| ViewNaN
| ViewInf (s : Sign)
| ViewNumber (s : Sign) (words : list Z) (e : Z).

Section view.
Context {F : Type} `{!BigFloat F}.

Abbreviation width := (WORD_BIT_SIZE (F := F)).

Definition mantissa_bits (words : list Z) : Z := width * zlen words.

(** The number [m * 2^e] with the sign [s], in [p] bits rounded up to whole
    words; the top bit of the mantissa is set unless it is zero. *)
Definition denotes (p : Z) (v : big_view) (s : Sign) (m e : Z) : Prop :=
  exists words ex, v = ViewNumber s words ex /\ words_ok width words /\ p <= mantissa_bits words < p + width /\
    dy_eq (mantissa width words) (ex - mantissa_bits words) m e /\
    (m = 0 \/ 2 ^ (mantissa_bits words - 1) <= mantissa width words).

(** The precisions that are asked for. *)
Definition precision_ok (p : Z) : Prop := 0 < p <= 2 ^ 32.

Definition sign_of (m : Z) : Sign := if m <? 0 then Neg else Pos.

(** The same for a signed [m]; a zero has either sign. *)
Definition holds (p : Z) (v : big_view) (m e : Z) : Prop :=
  exists s, denotes p v s (Z.abs m) e /\ (m <> 0 -> s = sign_of m).

(** Far from the limits of the exponent, which has 32 bits. *)
Definition fits_exponent (m e : Z) : Prop := m = 0 \/ - 2 ^ 30 <= e + Z.log2 (Z.abs m) + 1 < 2 ^ 30.
End view.

Class BigFloatLaws (F : Type) `{!BigFloat F} := {
  view : F -> big_view;
  word_size : 0 < WORD_BIT_SIZE <= 64;
  is_err_number f : view f <> ViewNaN -> is_err f = false;
  is_nan_view f : is_nan f = match view f with ViewNaN => true | _ => false end;
  is_inf_view f : is_inf f = match view f with ViewInf _ => true | _ => false end;
  is_zero_view f : is_zero f = match view f with ViewNumber _ words _ => mantissa WORD_BIT_SIZE words =? 0 | _ => false end;
  sign_view f : big_sign f = match view f with ViewNaN => None | ViewInf s => Some s | ViewNumber s _ _ => Some s end;
  exponent_view f : big_exponent f = match view f with ViewNumber _ _ e => Some e | _ => None end;
  bit_len_view f : mantissa_max_bit_len f = match view f with ViewNumber _ words _ => Some (mantissa_bits words) | _ => None end;
  raw_parts_view f :
    match view f with
    | ViewNumber s words e => exists n inexact, as_raw_parts f = Some (words, n, s, e, inexact)
    | _ => as_raw_parts f = None
    end;
  nan_view : view NAN = ViewNaN /\ is_err NAN = false;
  inf_pos_view : view INF_POS = ViewInf Pos;
  inf_neg_view : view INF_NEG = ViewInf Neg;
  set_sign_view f s :
    view (set_sign f s) = match view f with ViewNaN => ViewNaN | ViewInf _ => ViewInf s | ViewNumber _ words e => ViewNumber s words e end;
  set_exponent_view f s words e e' :
    view f = ViewNumber s words e -> 2 ^ (mantissa_bits words - 1) <= mantissa WORD_BIT_SIZE words -> - 2 ^ 30 <= e' < 2 ^ 30 ->
    view (set_exponent f e') = ViewNumber s words e';
  from_u8_number n p : 0 <= n <= 255 -> 8 <= p -> precision_ok p -> denotes p (view (from_u8 n p)) Pos n 0;
  from_u128_number n p : 0 <= n < 2 ^ 128 -> 128 <= p -> precision_ok p -> denotes p (view (from_u128 n p)) Pos n 0;
  mul_exact a b q1 q2 m1 e1 m2 e2 p :
    holds q1 (view a) m1 e1 -> holds q2 (view b) m2 e2 -> Z.abs (m1 * m2) < 2 ^ p -> precision_ok p -> fits_exponent (m1 * m2) (e1 + e2) ->
    holds p (view (big_mul a b p)) (m1 * m2) (e1 + e2);
  add_exact a b q1 q2 m1 m2 e p :
    holds q1 (view a) m1 e -> holds q2 (view b) m2 e -> Z.abs (m1 + m2) < 2 ^ p -> precision_ok p -> fits_exponent (m1 + m2) e ->
    holds p (view (big_add a b p)) (m1 + m2) e;
  add_zeros a b q1 q2 s e p :
    denotes q1 (view a) s 0 e -> denotes q2 (view b) s 0 e -> precision_ok p -> denotes p (view (big_add a b p)) s 0 e;
  sub_exact a b q1 q2 m1 m2 e p :
    holds q1 (view a) m1 e -> holds q2 (view b) m2 e -> Z.abs (m1 - m2) < 2 ^ p -> precision_ok p -> fits_exponent (m1 - m2) e ->
    holds p (view (big_sub a b p)) (m1 - m2) e;
  div_rounded a b q1 q2 m1 e1 m2 e2 p :
    holds q1 (view a) m1 e1 -> holds q2 (view b) m2 e2 -> m2 <> 0 -> precision_ok p ->
    m1 = 0 \/ - 2 ^ 29 <= e1 + Z.log2 (Z.abs m1) - (e2 + Z.log2 (Z.abs m2)) < 2 ^ 29 ->
    exists m e, holds p (view (big_div a b p)) m e /\ fits_exponent m e /\
      (forall k, k <= e + e2 -> k <= e1 ->
        Z.abs (m * m2 * 2 ^ (e + e2 - k) - m1 * 2 ^ (e1 - k)) * 2 ^ p <= Z.abs m1 * 2 ^ (e1 - k)) /\
      (forall q f, Z.abs q < 2 ^ p -> dy_eq (q * m2) (f + e2) m1 e1 -> dy_eq m e q f);
}.

(** ** A model of the laws

    Floats as their views, with words of 64 bits. *)

Definition half_even (m shift : Z) : Z :=
  let q := m / 2 ^ shift in
  match 2 * (m mod 2 ^ shift) ?= 2 ^ shift with Lt => q | Eq => q + q mod 2 | Gt => q + 1 end.

Fixpoint words_of (n : nat) (m : Z) : list Z :=
  match n with O => [] | S n => m mod 2 ^ 64 :: words_of n (m / 2 ^ 64) end.

Definition word_count (p : Z) : nat := Z.to_nat ((p `max` 1 + 63) / 64).

(** [m * 2^e] in the precision [p]. *)
Definition model_number (s : Sign) (m e p : Z) : big_view :=
  let n := word_count p in
  let bits := 64 * Z.of_nat n in
  if m =? 0 then ViewNumber s (words_of n 0) 0
  else
    let length := Z.log2 m + 1 in
    let q := if length <=? bits then m * 2 ^ (bits - length) else half_even m (length - bits) in
    if q =? 2 ^ bits then ViewNumber s (words_of n (2 ^ (bits - 1))) (e + length + 1) else ViewNumber s (words_of n q) (e + length).

Definition model_signed (zero : Sign) (m e p : Z) : big_view := model_number (if m =? 0 then zero else sign_of m) (Z.abs m) e p.

Definition model_value (words : list Z) (ex : Z) : Z * Z := (mantissa 64 words, ex - 64 * zlen words).

Definition signed (s : Sign) (m : Z) : Z := match s with Pos => m | Neg => - m end.

(** Sums at the lower of the two exponents. *)
Definition model_sum (s1 : Sign) (v1 : Z * Z) (s2 : Sign) (v2 : Z * Z) (p : Z) : big_view :=
  let k := v1.2 `min` v2.2 in
  model_signed (if decide (s1 = s2) then s1 else Pos) (signed s1 (v1.1 * 2 ^ (v1.2 - k)) + signed s2 (v2.1 * 2 ^ (v2.2 - k))) k p.

Definition model_add (a b : big_view) (p : Z) : big_view :=
  match a, b with
  | ViewNumber s1 w1 e1, ViewNumber s2 w2 e2 => model_sum s1 (model_value w1 e1) s2 (model_value w2 e2) p
  | ViewInf s1, ViewNumber _ _ _ => ViewInf s1
  | ViewNumber _ _ _, ViewInf s2 => ViewInf s2
  | ViewInf s1, ViewInf s2 => if decide (s1 = s2) then ViewInf s1 else ViewNaN
  | _, _ => ViewNaN
  end.

Definition model_neg (a : big_view) : big_view :=
  match a with
  | ViewNaN => ViewNaN
  | ViewInf s => ViewInf (sign_xor s Neg)
  | ViewNumber s w e => ViewNumber (sign_xor s Neg) w e
  end.

Definition model_mul (a b : big_view) (p : Z) : big_view :=
  match a, b with
  | ViewNumber s1 w1 e1, ViewNumber s2 w2 e2 =>
      model_number (sign_xor s1 s2) (mantissa 64 w1 * mantissa 64 w2) (e1 - 64 * zlen w1 + (e2 - 64 * zlen w2)) p
  | ViewInf s1, ViewNumber s2 w _ | ViewNumber s2 w _, ViewInf s1 =>
      if mantissa 64 w =? 0 then ViewNaN else ViewInf (sign_xor s1 s2)
  | ViewInf s1, ViewInf s2 => ViewInf (sign_xor s1 s2)
  | _, _ => ViewNaN
  end.

(** The quotient to enough bits, with one more that says whether it is exact. *)
Definition model_quotient (m1 m2 e : Z) (s : Sign) (p : Z) : big_view :=
  let k := 64 * Z.of_nat (word_count p) + Z.log2 m2 + 2 in
  let q := m1 * 2 ^ k / m2 in
  let sticky := if m1 * 2 ^ k mod m2 =? 0 then 0 else 1 in
  model_number s (2 * q + sticky) (e - k - 1) p.

Definition model_div (a b : big_view) (p : Z) : big_view :=
  match a, b with
  | ViewNumber s1 w1 e1, ViewNumber s2 w2 e2 =>
      if mantissa 64 w2 =? 0 then (if mantissa 64 w1 =? 0 then ViewNaN else ViewInf (sign_xor s1 s2))
      else model_quotient (mantissa 64 w1) (mantissa 64 w2) (e1 - 64 * zlen w1 - (e2 - 64 * zlen w2)) (sign_xor s1 s2) p
  | ViewInf s1, ViewNumber s2 _ _ => ViewInf (sign_xor s1 s2)
  | ViewNumber s1 _ _, ViewInf s2 => model_number (sign_xor s1 s2) 0 0 p
  | _, _ => ViewNaN
  end.

#[export] Instance model_float : BigFloat big_view := {
  WORD_BIT_SIZE := 64;
  NAN := ViewNaN;
  INF_POS := ViewInf Pos;
  INF_NEG := ViewInf Neg;
  from_u8 n p := model_number Pos n 0 p;
  from_u128 n p := model_number Pos n 0 p;
  is_err _ := false;
  is_nan v := match v with ViewNaN => true | _ => false end;
  is_inf v := match v with ViewInf _ => true | _ => false end;
  is_zero v := match v with ViewNumber _ words _ => mantissa 64 words =? 0 | _ => false end;
  big_sign v := match v with ViewNaN => None | ViewInf s => Some s | ViewNumber s _ _ => Some s end;
  big_exponent v := match v with ViewNumber _ _ e => Some e | _ => None end;
  mantissa_max_bit_len v := match v with ViewNumber _ words _ => Some (64 * zlen words) | _ => None end;
  as_raw_parts v := match v with ViewNumber s words e => Some (words, 64 * zlen words, s, e, false) | _ => None end;
  set_sign v s := match v with ViewNaN => ViewNaN | ViewInf _ => ViewInf s | ViewNumber _ words e => ViewNumber s words e end;
  set_exponent v e := match v with ViewNumber s words _ => ViewNumber s words e | v => v end;
  big_add := model_add;
  big_sub a b := model_add a (model_neg b);
  big_mul := model_mul;
  big_div := model_div;
}.

Lemma zlen_words_of n m : zlen (words_of n m) = Z.of_nat n.
Proof. revert m. induction n as [|n IH]; intros m; [done|]. cbn [words_of]. rewrite zlen_cons, IH. lia. Qed.

Lemma words_of_ok n m : words_ok 64 (words_of n m).
Proof. revert m. induction n as [|n IH]; intros m; constructor; [|apply IH]. apply Z.mod_pos_bound. done. Qed.

Lemma mantissa_words_of n m : 0 <= m < 2 ^ (64 * Z.of_nat n) -> mantissa 64 (words_of n m) = m.
Proof.
  revert m. induction n as [|n IH]; intros m Hm; [simpl in *; lia|]. cbn [words_of mantissa]. rewrite IH.
  - pose proof (Z.div_mod m (2 ^ 64)). lia.
  - replace (64 * Z.of_nat (S n)) with (64 + 64 * Z.of_nat n) in Hm by lia. rewrite Z.pow_add_r in Hm by lia.
    split; [apply Z.div_pos; lia|]. apply Z.div_lt_upper_bound; lia.
Qed.

Lemma word_count_bits p : precision_ok p -> p <= 64 * Z.of_nat (word_count p) < p + 64.
Proof.
  intros Hp. unfold precision_ok, word_count in *. pose proof (Z.div_mod (p `max` 1 + 63) 64). pose proof (Z.mod_pos_bound (p `max` 1 + 63) 64).
  assert (0 <= (p `max` 1 + 63) / 64) by (apply Z.div_pos; lia). rewrite Z2Nat.id by done. lia.
Qed.

(** A number of the model, from its mantissa. *)
Lemma model_denotes p n s q ex m e :
  0 < n -> p <= 64 * n < p + 64 -> 2 ^ (64 * n - 1) <= q < 2 ^ (64 * n) -> dy_eq q (ex - 64 * n) m e ->
  denotes (F := big_view) p (ViewNumber s (words_of (Z.to_nat n) q) ex) s m e.
Proof.
  intros Hn Hp Hq Hd. unfold denotes, mantissa_bits. cbn [WORD_BIT_SIZE model_float]. eexists _, _. split; [done|]. split; [apply words_of_ok|].
  pose proof (pow2_pos (64 * n - 1) ltac:(lia)). rewrite zlen_words_of, mantissa_words_of by (rewrite Z2Nat.id by lia; lia). rewrite Z2Nat.id by lia.
  split; [done|]. split; [done|]. right. lia.
Qed.

Lemma half_even_bounds m shift :
  0 <= m -> 0 <= shift -> 2 * Z.abs (m - half_even m shift * 2 ^ shift) <= 2 ^ shift /\ m / 2 ^ shift <= half_even m shift <= m / 2 ^ shift + 1.
Proof.
  intros Hm Hs. pose proof (pow2_pos shift Hs). pose proof (Z.div_mod m (2 ^ shift) ltac:(lia)) as E. pose proof (Z.mod_pos_bound m (2 ^ shift) ltac:(lia)).
  pose proof (Z.mod_pos_bound (m / 2 ^ shift) 2 ltac:(lia)). unfold half_even. destruct (Z.compare_spec (2 * (m mod 2 ^ shift)) (2 ^ shift)) as [C|C|C].
  - assert ((m / 2 ^ shift) mod 2 = 0 \/ (m / 2 ^ shift) mod 2 = 1) as [-> | ->] by lia; lia.
  - lia.
  - lia.
Qed.

Lemma log2_bounds m : 0 < m -> 2 ^ Z.log2 m <= m < 2 ^ (Z.log2 m + 1).
Proof. intros H. pose proof (Z.log2_spec m H). by rewrite Z.add_1_r. Qed.

(** What a number of the model denotes: the value itself if it has no more bits
    than there are, and otherwise that value rounded. *)
Lemma model_number_rounded s m e p :
  0 < m -> precision_ok p ->
  let bits := 64 * Z.of_nat (word_count p) in
  let shift := Z.log2 m + 1 - bits in
  if shift <=? 0 then denotes (F := big_view) p (model_number s m e p) s m e
  else exists q, q = half_even m shift /\ 2 ^ (bits - 1) <= q <= 2 ^ bits /\ denotes (F := big_view) p (model_number s m e p) s q (e + shift).
Proof.
  intros Hm Hp bits shift. pose proof (word_count_bits p Hp) as Hw. unfold model_number. fold bits. fold bits in Hw.
  set (n := word_count p) in *. destruct (m =? 0) eqn:E0; [lia|].
  assert (0 < bits) as Hbits by (unfold precision_ok in Hp; lia). pose proof (Z.log2_nonneg m). pose proof (log2_bounds m Hm) as Hl.
  assert (64 * Z.of_nat n = bits) as En by done. rewrite <- (Nat2Z.id n). generalize (Z.of_nat n), En. intros n' En'.
  destruct (shift <=? 0) eqn:Es.
  - destruct (Z.log2 m + 1 <=? bits) eqn:El; [|lia].
    assert (2 ^ (bits - 1) <= m * 2 ^ (- shift) < 2 ^ bits) as Hq.
    { pose proof (pow2_pos (- shift) ltac:(lia)). split.
      - replace (bits - 1) with (Z.log2 m + (- shift)) by lia. rewrite Z.pow_add_r by lia. apply Z.mul_le_mono_nonneg_r; lia.
      - replace (2 ^ bits) with (2 ^ (Z.log2 m + 1) * 2 ^ (- shift)) by (rewrite <- Z.pow_add_r by lia; f_equal; lia).
        apply Z.mul_lt_mono_pos_r; lia. }
    replace (bits - (Z.log2 m + 1)) with (- shift) by lia. destruct (m * 2 ^ (- shift) =? 2 ^ bits) eqn:Eq; [lia|].
    apply model_denotes; [lia|lia|by rewrite En'|]. rewrite En'.
    replace (e + (Z.log2 m + 1) - bits) with (e - (- shift)) by lia. apply dy_eq_scale. lia.
  - destruct (Z.log2 m + 1 <=? bits) eqn:El; [lia|]. exists (half_even m shift). split; [done|].
    destruct (half_even_bounds m shift ltac:(lia) ltac:(lia)) as [_ Hh]. pose proof (pow2_pos shift ltac:(lia)).
    assert (2 ^ (bits - 1) <= m / 2 ^ shift < 2 ^ bits) as Hq.
    { split; [apply Z.div_le_lower_bound|apply Z.div_lt_upper_bound]; try lia; rewrite <- Z.pow_add_r by lia.
      - replace (shift + (bits - 1)) with (Z.log2 m) by lia. lia.
      - replace (shift + bits) with (Z.log2 m + 1) by lia. lia. }
    split; [lia|]. destruct (half_even m (Z.log2 m + 1 - bits) =? 2 ^ bits) eqn:Eq; fold shift in Eq |- *.
    + apply model_denotes; [lia|lia|rewrite En'; split; [lia|apply Z.pow_lt_mono_r; lia]|]. rewrite En'.
      replace (half_even m shift) with (2 ^ bits) by lia. apply dy_eq_sym.
      replace (e + shift) with (e + (Z.log2 m + 1) + 1 - bits - 1) by lia. replace (2 ^ bits) with (2 ^ (bits - 1) * 2 ^ 1) by (rewrite <- Z.pow_add_r by lia; f_equal; lia).
      apply dy_eq_scale. lia.
    + apply model_denotes; [lia|lia|rewrite En'; lia|]. rewrite En'.
      replace (e + (Z.log2 m + 1) - bits) with (e + shift) by lia. apply dy_eq_refl.
Qed.

Lemma dy_eq_log2 m e m' e' : 0 < m -> 0 < m' -> dy_eq m e m' e' -> e + Z.log2 m = e' + Z.log2 m'.
Proof.
  intros Hm Hm' Hd. specialize (Hd (e `min` e') ltac:(lia) ltac:(lia)). apply (f_equal Z.log2) in Hd. rewrite !Z.log2_mul_pow2 in Hd by lia. lia.
Qed.

(** A value of at most [p] bits is kept, however it is written. *)
Lemma model_number_exact s m e m' e' p :
  0 <= m -> 0 <= m' < 2 ^ p -> dy_eq m e m' e' -> precision_ok p -> denotes (F := big_view) p (model_number s m e p) s m' e'.
Proof.
  intros Hm Hm' Hd Hp. pose proof (word_count_bits p Hp) as Hw. destruct (Z.eq_dec m 0) as [->|Hne].
  - apply dy_eq_sym, dy_eq_zero in Hd as ->. unfold model_number. cbn [Z.eqb]. unfold denotes, mantissa_bits. cbn [WORD_BIT_SIZE model_float].
    eexists _, _. split; [done|]. split; [apply words_of_ok|]. rewrite zlen_words_of, mantissa_words_of by (split; [lia|apply pow2_pos; lia]).
    split; [lia|]. split; [by intros k|by left].
  - assert (m' <> 0) as Hne' by (intros ->; by apply dy_eq_zero in Hd).
    pose proof (model_number_rounded s m e p ltac:(lia) Hp) as H. cbv zeta in H. set (shift := Z.log2 m + 1 - 64 * Z.of_nat (word_count p)) in H.
    assert (forall q f, dy_eq q f m e -> denotes (F := big_view) p (model_number s m e p) s q f -> denotes (F := big_view) p (model_number s m e p) s m' e') as Hmove.
    { intros q f Hqf (words & ex & H1 & H2 & H3 & H4 & H5). exists words, ex. do 3 (split; [done|]). split.
      - eapply dy_eq_trans; [exact H4|]. by eapply dy_eq_trans.
      - destruct H5 as [->|H5]; [|by right]. by apply dy_eq_sym, dy_eq_zero in Hqf. }
    destruct (shift <=? 0) eqn:Es; [eapply Hmove; [apply dy_eq_refl|done]|]. destruct H as (q & -> & _ & H).
    eapply Hmove; [|exact H]. pose proof (dy_eq_log2 m e m' e' ltac:(lia) ltac:(lia) Hd) as Hlog.
    assert (Z.log2 m' < p) as Hlp by (apply Z.log2_lt_pow2; lia).
    assert (m = m' * 2 ^ (e' - e)) as Em by (specialize (Hd e ltac:(lia) ltac:(lia)); rewrite Z.sub_diag, Z.mul_1_r in Hd; done).
    assert (m = m' * 2 ^ (e' - e - shift) * 2 ^ shift) as Em2 by (rewrite <- Z.mul_assoc, <- Z.pow_add_r by lia; rewrite Em at 1; do 2 f_equal; lia).
    pose proof (pow2_pos shift ltac:(lia)). assert (half_even m shift = m' * 2 ^ (e' - e - shift)) as ->.
    { assert (m mod 2 ^ shift = 0) as E1 by (rewrite Em2; apply Z.mod_mul; lia).
      assert (m / 2 ^ shift = m' * 2 ^ (e' - e - shift)) as E2 by (rewrite Em2 at 1; apply Z.div_mul; lia).
      unfold half_even. rewrite E1, E2. destruct (Z.compare_spec (2 * 0) (2 ^ shift)); lia. }
    pose proof (dy_eq_scale (m' * 2 ^ (e' - e - shift)) (e + shift) shift ltac:(lia)) as X.
    rewrite <- Em2, Z.add_simpl_r in X. by apply dy_eq_sym.
Qed.

(** ** The laws of the model *)

Lemma model_holds q0 v m e :
  holds (F := big_view) q0 v m e ->
  exists s words ex, v = ViewNumber s words ex /\ words_ok 64 words /\ dy_eq (signed s (mantissa 64 words)) (ex - 64 * zlen words) m e /\
    (m <> 0 -> s = sign_of m).
Proof.
  intros (s & (words & ex & H1 & H2 & H3 & H4 & H5) & Hs). exists s, words, ex. split; [done|]. split; [done|]. split; [|done].
  unfold mantissa_bits in H4. cbn [WORD_BIT_SIZE model_float] in *. destruct (Z.eq_dec m 0) as [->|Hne].
  - apply dy_eq_zero in H4. rewrite H4. apply dy_eq_zero. by destruct s.
  - rewrite (Hs Hne) in *. unfold sign_of in *. destruct (m <? 0) eqn:E; cbn [signed].
    + intros k K1 K2. specialize (H4 k K1 K2). rewrite Z.abs_neq in H4 by lia. lia.
    + by rewrite Z.abs_eq in H4 by lia.
Qed.

Lemma model_signed_holds zero m e m' e' p :
  dy_eq m e m' e' -> Z.abs m' < 2 ^ p -> precision_ok p -> holds (F := big_view) p (model_signed zero m e p) m' e'.
Proof.
  intros Hd Hm Hp. exists (if m =? 0 then zero else sign_of m). split.
  - apply model_number_exact; [lia|lia| |done]. intros k K1 K2. specialize (Hd k K1 K2).
    rewrite <- (Z.abs_eq (2 ^ (e - k))), <- (Z.abs_eq (2 ^ (e' - k))), <- !Z.abs_mul by (apply Z.pow_nonneg; lia). by f_equal.
  - intros Hne. destruct (m =? 0) eqn:E0; [exfalso; apply Hne, (dy_eq_zero m' e' e); assert (m = 0) as <- by lia; by apply dy_eq_sym|].
    unfold sign_of. specialize (Hd (e `min` e') ltac:(lia) ltac:(lia)).
    pose proof (pow2_pos (e - e `min` e') ltac:(lia)). pose proof (pow2_pos (e' - e `min` e') ltac:(lia)).
    destruct (m <? 0) eqn:E1, (m' <? 0) eqn:E2; try done; nia.
Qed.

Lemma model_add_holds q0 q1 a b m1 m2 e p :
  holds (F := big_view) q0 a m1 e -> holds (F := big_view) q1 b m2 e -> Z.abs (m1 + m2) < 2 ^ p -> precision_ok p ->
  holds (F := big_view) p (model_add a b p) (m1 + m2) e.
Proof.
  intros Ha Hb Hm Hp. destruct (model_holds q0 a m1 e Ha) as (s1 & w1 & x1 & -> & _ & D1 & _).
  destruct (model_holds q1 b m2 e Hb) as (s2 & w2 & x2 & -> & _ & D2 & _). cbn [model_add]. unfold model_sum, model_value. cbn [fst snd].
  apply model_signed_holds; [|done|done]. set (y1 := x1 - 64 * zlen w1) in *. set (y2 := x2 - 64 * zlen w2) in *.
  apply (dy_eq_intro (y1 `min` y2 `min` e)); [lia|lia|].
  specialize (D1 (y1 `min` y2 `min` e) ltac:(lia) ltac:(lia)). specialize (D2 (y1 `min` y2 `min` e) ltac:(lia) ltac:(lia)).
  rewrite (Z.mul_add_distr_r m1), <- D1, <- D2. set (k := y1 `min` y2). set (j := k `min` e).
  assert (2 ^ (y1 - j) = 2 ^ (y1 - k) * 2 ^ (k - j)) as -> by (rewrite <- Z.pow_add_r by lia; f_equal; lia).
  assert (2 ^ (y2 - j) = 2 ^ (y2 - k) * 2 ^ (k - j)) as -> by (rewrite <- Z.pow_add_r by lia; f_equal; lia).
  destruct s1, s2; cbn [signed]; ring.
Qed.

Lemma model_add_zeros q0 q1 a b s e p :
  denotes (F := big_view) q0 a s 0 e -> denotes (F := big_view) q1 b s 0 e -> precision_ok p ->
  denotes (F := big_view) p (model_add a b p) s 0 e.
Proof.
  intros (w1 & x1 & -> & _ & _ & D1 & _) (w2 & x2 & -> & _ & _ & D2 & _) Hp. apply dy_eq_zero in D1, D2.
  cbn [WORD_BIT_SIZE model_float] in *. cbn [model_add]. unfold model_sum, model_value. cbn [fst snd]. rewrite D1, D2, !Z.mul_0_l.
  case_decide; [|done]. assert (signed s 0 + signed s 0 = 0) as -> by (by destruct s). unfold model_signed. cbn [Z.eqb Z.abs].
  apply model_number_exact; [done|split; [done|apply pow2_pos; unfold precision_ok in Hp; lia]|by apply dy_eq_zero|done].
Qed.

Lemma model_neg_holds q0 b m e : holds (F := big_view) q0 b m e -> holds (F := big_view) q0 (model_neg b) (- m) e.
Proof.
  intros (s & (words & ex & -> & H) & Hs). exists (sign_xor s Neg). split.
  - exists words, ex. split; [done|]. by rewrite Z.abs_opp.
  - intros Hne. rewrite Hs by lia. unfold sign_of, sign_xor. destruct (m <? 0) eqn:E1, (- m <? 0) eqn:E2; try lia; by case_decide.
Qed.

Lemma model_mul_holds q0 q1 a b m1 e1 m2 e2 p :
  holds (F := big_view) q0 a m1 e1 -> holds (F := big_view) q1 b m2 e2 -> Z.abs (m1 * m2) < 2 ^ p -> precision_ok p ->
  holds (F := big_view) p (model_mul a b p) (m1 * m2) (e1 + e2).
Proof.
  intros Ha Hb Hm Hp. destruct (model_holds q0 a m1 e1 Ha) as (s1 & w1 & x1 & -> & W1 & D1 & S1).
  destruct (model_holds q1 b m2 e2 Hb) as (s2 & w2 & x2 & -> & W2 & D2 & S2). cbn [model_mul].
  pose proof (mantissa_bounds 64 ltac:(lia) w1 W1). pose proof (mantissa_bounds 64 ltac:(lia) w2 W2).
  exists (sign_xor s1 s2). split.
  - apply model_number_exact; [apply Z.mul_nonneg_nonneg; lia|lia| |done].
    pose proof (dy_eq_mul _ _ _ _ _ _ _ _ D1 D2) as D. intros k K1 K2. specialize (D k K1 K2). apply (f_equal Z.abs) in D.
    rewrite !(Z.abs_mul _ (2 ^ _)), !(Z.abs_eq (2 ^ _)) in D by (apply Z.pow_nonneg; lia). rewrite <- D. f_equal. destruct s1, s2; cbn [signed]; lia.
  - intros Hne. rewrite S1, S2 by lia. unfold sign_of, sign_xor. destruct (m1 <? 0) eqn:E1, (m2 <? 0) eqn:E2, (m1 * m2 <? 0) eqn:E3; case_decide; try done; nia.
Qed.

(** The quotient of two positive integers in the model. *)
Section quotient.
Context (A D p : Z) (HA : 0 < A) (HD : 0 < D) (Hp : precision_ok p).

Definition quotient_bits : Z := 64 * Z.of_nat (word_count p).
Definition quotient_shift : Z := quotient_bits + Z.log2 D + 2.
Definition quotient_number : Z := 2 * (A * 2 ^ quotient_shift / D) + (if A * 2 ^ quotient_shift mod D =? 0 then 0 else 1).

Abbreviation k := quotient_shift.
Abbreviation N := quotient_number.

Lemma quotient_sizes : 0 < k /\ p <= quotient_bits /\ 2 ^ (quotient_bits + 2) <= N.
Proof using All.
  pose proof (word_count_bits p Hp) as Hw. fold quotient_bits in Hw. pose proof (Z.log2_nonneg D). pose proof (log2_bounds D HD) as HlD.
  unfold precision_ok in Hp. assert (0 < k) as Hk by (unfold k; lia). split; [done|]. split; [lia|].
  assert (2 ^ (quotient_bits + 1) <= A * 2 ^ k / D) as Hq.
  { apply Z.div_le_lower_bound; [done|]. apply (Z.le_trans _ (2 ^ (Z.log2 D + 1) * 2 ^ (quotient_bits + 1))).
    - apply Z.mul_le_mono_nonneg_r; [apply Z.pow_nonneg|]; lia.
    - rewrite <- Z.pow_add_r by lia. replace (Z.log2 D + 1 + (quotient_bits + 1)) with k by (unfold k; lia).
      pose proof (pow2_pos k ltac:(lia)). rewrite <- (Z.mul_1_l (2 ^ k)) at 1. apply Z.mul_le_mono_nonneg_r; lia. }
  unfold N. replace (quotient_bits + 2) with (1 + (quotient_bits + 1)) by lia. rewrite Z.pow_add_r, Z.pow_1_r by lia.
  destruct (_ =? 0); lia.
Qed.

(** The exact quotient lies within one unit, and is the even number [N] or
    strictly beside the odd one. *)
Lemma quotient_near :
  (N * D = A * 2 ^ (k + 1) /\ Z.even N = true) \/ (Z.abs (N * D - A * 2 ^ (k + 1)) < D /\ Z.odd N = true).
Proof using All.
  destruct quotient_sizes as (Hk & _ & _). rewrite Z.pow_add_r, Z.pow_1_r by lia. unfold N. pose proof (Z.div_mod (A * 2 ^ k) D ltac:(lia)) as E.
  pose proof (Z.mod_pos_bound (A * 2 ^ k) D HD). destruct (A * 2 ^ k mod D =? 0) eqn:E0.
  - left. split; [lia|]. by rewrite Z.add_0_r, Z.even_mul.
  - right. split; [lia|]. by rewrite Z.add_comm, Z.odd_add_mul_2.
Qed.

Lemma quotient_even : exists h, A * 2 ^ (k + 1) = (2 * h) * D + (A * 2 ^ (k + 1) - 2 * h * D) /\ 2 * h <= N <= 2 * h + 1 /\
  0 <= A * 2 ^ (k + 1) - 2 * h * D < 2 * D.
Proof using All.
  destruct quotient_sizes as (Hk & _ & _). exists (A * 2 ^ k / D). rewrite Z.pow_add_r, Z.pow_1_r by lia. unfold N.
  pose proof (Z.div_mod (A * 2 ^ k) D ltac:(lia)). pose proof (Z.mod_pos_bound (A * 2 ^ k) D HD).
  split; [lia|]. split; [destruct (_ =? 0); lia|lia].
Qed.

Lemma quotient_log :
  Z.log2 N + Z.log2 D < Z.log2 A + k + 2 /\ Z.log2 A + k < Z.log2 N + Z.log2 D + 2 /\ 2 ^ Z.log2 N * D <= A * 2 ^ (k + 1).
Proof using All.
  destruct quotient_sizes as (Hk & _ & HN). destruct quotient_even as (h & _ & Hh & HX).
  assert (0 < 2 ^ (quotient_bits + 2)) as Hpos by (apply pow2_pos; unfold quotient_bits; lia).
  pose proof (log2_bounds N ltac:(lia)) as HlN. pose proof (log2_bounds D HD) as HlD. pose proof (log2_bounds A HA) as HlA.
  assert (1 <= Z.log2 N) as H1 by (apply Z.log2_le_pow2; [lia|]; rewrite Z.pow_1_r; pose proof (Z.pow_le_mono_r 2 1 (quotient_bits + 2)); unfold quotient_bits in *; lia).
  pose proof (Z.log2_nonneg D). pose proof (Z.log2_nonneg A).
  assert (2 ^ Z.log2 N <= 2 * h) as Hl.
  { rewrite (pow2_split 1 (Z.log2 N)) in * by lia. rewrite Z.pow_1_r in *. lia. }
  assert (2 ^ Z.log2 N * D <= A * 2 ^ (k + 1)) as Hle by (apply (Z.le_trans _ (2 * h * D)); [apply Z.mul_le_mono_nonneg_r; lia|lia]).
  pose proof (pow2_pos (k + 1) ltac:(lia)). pose proof (pow2_pos (Z.log2 N) ltac:(lia)).
  split_and!; [| |done].
  - assert (2 ^ (Z.log2 N + Z.log2 D) < 2 ^ (Z.log2 A + k + 2)) as Hpw; [|apply Z.pow_lt_mono_r_iff in Hpw; lia].
    rewrite Z.pow_add_r by lia. apply (Z.le_lt_trans _ (2 ^ Z.log2 N * D)); [apply Z.mul_le_mono_nonneg_l; lia|].
    apply (Z.le_lt_trans _ (A * 2 ^ (k + 1))); [done|].
    replace (Z.log2 A + k + 2) with ((Z.log2 A + 1) + (k + 1)) by lia. rewrite (Z.pow_add_r _ (Z.log2 A + 1)) by lia. apply Z.mul_lt_mono_pos_r; lia.
  - assert (2 ^ (Z.log2 A + (k + 1)) < 2 ^ (Z.log2 N + 2 + (Z.log2 D + 1))) as Hpw; [|apply Z.pow_lt_mono_r_iff in Hpw; lia].
    rewrite !(Z.pow_add_r 2 (_ + _)), (Z.pow_add_r 2 (Z.log2 A)), (Z.pow_add_r 2 (Z.log2 N)) by lia. change (2 ^ 2) with 4.
    apply (Z.le_lt_trans _ (A * 2 ^ (k + 1))); [apply Z.mul_le_mono_nonneg_r; lia|].
    rewrite Z.pow_add_r, Z.pow_1_r in HlN by lia.
    apply (Z.lt_le_trans _ ((2 * h + 2) * D)); [lia|]. apply Z.mul_le_mono_nonneg; lia.
Qed.

(** Rounded to [quotient_bits] bits, it is within the last of them. *)
Lemma quotient_rounded :
  let shift := Z.log2 N + 1 - quotient_bits in
  0 < shift /\ Z.abs (half_even N shift * 2 ^ shift * D - A * 2 ^ (k + 1)) * 2 ^ p <= A * 2 ^ (k + 1).
Proof using All.
  intros shift. destruct quotient_sizes as (Hk & Hbits & HN). destruct quotient_log as (_ & _ & Hle).
  assert (0 < 2 ^ (quotient_bits + 2)) as Hpos by (apply pow2_pos; unfold quotient_bits; lia).
  assert (quotient_bits + 2 <= Z.log2 N) as Hlog by (apply Z.log2_le_pow2; lia). split; [lia|].
  destruct (half_even_bounds N shift ltac:(lia) ltac:(lia)) as [Hh _]. set (Q := half_even N shift) in *.
  unfold precision_ok in Hp.
  assert (2 ^ shift = 2 * (2 * 2 ^ (shift - 2))) as E2 by (rewrite (pow2_split 2 shift) by lia; change (2 ^ 2) with 4; lia).
  assert (Z.abs (Q * 2 ^ shift * D - A * 2 ^ (k + 1)) <= D * 2 ^ (shift - 1)) as Herr.
  { assert (2 ^ (shift - 1) = 2 * 2 ^ (shift - 2)) as E1 by (rewrite (pow2_split 1 (shift - 1)) by lia; rewrite Z.pow_1_r; do 2 f_equal; lia).
    rewrite E1. set (u := 2 ^ (shift - 2)) in *. destruct quotient_near as [[E _]|[E Ho]].
    - rewrite <- E. rewrite <- Z.mul_sub_distr_r, Z.abs_mul, (Z.abs_eq D), Z.mul_comm by lia. apply Z.mul_le_mono_nonneg_l; lia.
    - assert (Z.abs (N - Q * 2 ^ shift) <= 2 * u - 1) as Hodd.
      { rewrite E2 in *. apply Z.odd_spec in Ho as [n Hn]. lia. }
      assert (Z.abs (Q * 2 ^ shift * D - N * D) <= (2 * u - 1) * D) as Hstep.
      { rewrite <- Z.mul_sub_distr_r, Z.abs_mul, (Z.abs_eq D) by lia. apply Z.mul_le_mono_nonneg_r; lia. }
      lia. }
  apply (Z.le_trans _ (D * 2 ^ (shift - 1) * 2 ^ p)); [apply Z.mul_le_mono_nonneg_r; [apply Z.pow_nonneg; lia|done]|].
  apply (Z.le_trans _ (2 ^ Z.log2 N * D)); [|done].
  rewrite <- Z.mul_assoc, <- Z.pow_add_r, (Z.mul_comm _ D) by lia. apply Z.mul_le_mono_nonneg_l; [lia|]. apply Z.pow_le_mono_r; lia.
Qed.

(** A quotient that the precision admits is exact before it is rounded. *)
Lemma quotient_exact q d : 0 <= q < 2 ^ p -> 0 <= d -> A * 2 ^ (k + 1) = q * 2 ^ d * D -> N = q * 2 ^ d.
Proof using All.
  intros Hq Hd E. destruct quotient_sizes as (Hk & Hbits & HN). rewrite Z.pow_add_r, Z.pow_1_r in E by lia.
  assert (0 < d) as Hd1.
  { destruct (Z.eq_dec d 0) as [->|]; [|lia]. exfalso. rewrite Z.pow_0_r, Z.mul_1_r in E.
    assert (2 ^ p * 4 <= 2 ^ (quotient_bits + 2)) as H4.
    { change 4 with (2 ^ 2). rewrite <- Z.pow_add_r by (unfold precision_ok in Hp; lia). apply Z.pow_le_mono_r; lia. }
    destruct quotient_even as (h & _ & Hh & HX). rewrite Z.pow_add_r, Z.pow_1_r, E in HX by lia.
    assert (2 * h <= q) as Hhq by (apply (Z.mul_le_mono_pos_r _ _ D); lia). lia. }
  rewrite (pow2_split 1 d) in E |- * by lia. rewrite Z.pow_1_r in *.
  assert (A * 2 ^ k = q * 2 ^ (d - 1) * D) as E1 by lia. unfold N. rewrite E1, Z.mod_mul, Z.div_mul by lia. simpl. lia.
Qed.
End quotient.

Lemma denotes_unique p v s m e m' e' : denotes (F := big_view) p v s m e -> denotes (F := big_view) p v s m' e' -> dy_eq m e m' e'.
Proof.
  intros (w1 & x1 & -> & _ & _ & D1 & _) (w2 & x2 & [= -> ->] & _ & _ & D2 & _). eapply dy_eq_trans; [apply dy_eq_sym|]; done.
Qed.

Lemma signed_abs s m : 0 <= m -> Z.abs (signed s m) = m.
Proof. destruct s; simpl; lia. Qed.

Lemma sign_of_signed s m : 0 < m -> sign_of (signed s m) = s.
Proof. unfold sign_of. destruct s; simpl; intros H; [destruct (m <? 0) eqn:E|destruct (- m <? 0) eqn:E]; done || lia. Qed.

Lemma dy_eq_signed s m e n f : dy_eq m e n f -> dy_eq (signed s m) e (signed s n) f.
Proof. intros H k H1 H2. specialize (H k H1 H2). destruct s; simpl; lia. Qed.

Lemma dy_eq_abs m e n f : dy_eq m e n f -> dy_eq (Z.abs m) e (Z.abs n) f.
Proof.
  intros H k H1 H2. specialize (H k H1 H2). apply (f_equal Z.abs) in H.
  by rewrite !Z.abs_mul, (Z.abs_eq (2 ^ (e - k))), (Z.abs_eq (2 ^ (f - k))) in H by (apply Z.pow_nonneg; lia).
Qed.

(** The law of division, on magnitudes. *)
Lemma model_quotient_rounded A D e s p :
  0 < A -> 0 < D -> precision_ok p ->
  exists Q ee, denotes (F := big_view) p (model_quotient A D e s p) s Q ee /\ 0 < Q /\
    - 4 <= ee + Z.log2 Q - (e + Z.log2 A - Z.log2 D) <= 4 /\
    (forall j, j <= ee -> j <= e -> Z.abs (Q * D * 2 ^ (ee - j) - A * 2 ^ (e - j)) * 2 ^ p <= A * 2 ^ (e - j)) /\
    (forall q f, 0 <= q < 2 ^ p -> dy_eq (q * D) f A e -> dy_eq Q ee q f).
Proof.
  intros HA HD Hp. unfold model_quotient. fold (quotient_bits p). fold (quotient_shift D p). fold (quotient_number A D p).
  destruct (quotient_sizes A D p HA HD Hp) as (Hk & Hbits & HN). destruct (quotient_log A D p HA HD Hp) as (L1 & L2 & _).
  destruct (quotient_rounded A D p HA HD Hp) as [Hshift Herr]. set (k := quotient_shift D p) in *. set (N := quotient_number A D p) in *.
  set (shift := Z.log2 N + 1 - quotient_bits p) in *.
  assert (0 < 2 ^ (quotient_bits p + 2)) as Hpos by (apply pow2_pos; unfold quotient_bits; lia).
  pose proof (model_number_rounded s N (e - k - 1) p ltac:(lia) Hp) as Hmodel. cbv zeta in Hmodel. fold (quotient_bits p) in Hmodel. fold shift in Hmodel.
  destruct (shift <=? 0) eqn:Es; [lia|]. destruct Hmodel as (Q & EQ & HQ & Hden). rewrite <- EQ in Herr.
  unfold precision_ok in Hp. pose proof (pow2_pos (quotient_bits p - 1) ltac:(lia)) as Hpb.
  exists Q, (e - k - 1 + shift). split; [done|]. split; [lia|]. split; [|split].
  - assert (quotient_bits p - 1 <= Z.log2 Q <= quotient_bits p) as HlQ.
    { split; [apply Z.log2_le_pow2; lia|]. rewrite <- (Z.log2_pow2 (quotient_bits p)) by lia. apply Z.log2_le_mono. lia. }
    lia.
  - intros j J1 J2.
    assert (forall i, i <= e - k - 1 -> Z.abs (Q * D * 2 ^ (e - k - 1 + shift - i) - A * 2 ^ (e - i)) * 2 ^ p <= A * 2 ^ (e - i)) as Hlow.
    { intros i Hi. set (t := e - k - 1 - i). replace (e - k - 1 + shift - i) with (shift + t) by lia. replace (e - i) with (k + 1 + t) by lia.
      rewrite (Z.pow_add_r 2 shift), (Z.pow_add_r 2 (k + 1)) by lia. pose proof (pow2_pos t ltac:(lia)).
      replace (Q * D * (2 ^ shift * 2 ^ t) - A * (2 ^ (k + 1) * 2 ^ t)) with ((Q * 2 ^ shift * D - A * 2 ^ (k + 1)) * 2 ^ t) by ring.
      rewrite Z.abs_mul, (Z.abs_eq (2 ^ t)) by lia.
      replace (Z.abs (Q * 2 ^ shift * D - A * 2 ^ (k + 1)) * 2 ^ t * 2 ^ p) with (Z.abs (Q * 2 ^ shift * D - A * 2 ^ (k + 1)) * 2 ^ p * 2 ^ t) by ring.
      rewrite Z.mul_assoc. apply Z.mul_le_mono_nonneg_r; lia. }
    specialize (Hlow (j `min` (e - k - 1)) ltac:(lia)). set (i := j `min` (e - k - 1)) in *. pose proof (pow2_pos (j - i) ltac:(lia)) as Hpos2.
    assert (2 ^ (e - k - 1 + shift - i) = 2 ^ (e - k - 1 + shift - j) * 2 ^ (j - i)) as E1 by (rewrite <- Z.pow_add_r by lia; f_equal; lia).
    assert (2 ^ (e - i) = 2 ^ (e - j) * 2 ^ (j - i)) as E2 by (rewrite <- Z.pow_add_r by lia; f_equal; lia).
    rewrite E1, E2, !Z.mul_assoc, <- Z.mul_sub_distr_r, Z.abs_mul, (Z.abs_eq (2 ^ (j - i))) in Hlow by lia.
    apply (Z.mul_le_mono_pos_r _ _ (2 ^ (j - i))); [done|]. lia.
  - intros q f Hq Hd. assert (q <> 0) as Hne by (intros ->; rewrite Z.mul_0_l in Hd; apply dy_eq_sym, dy_eq_zero in Hd; lia).
    assert (0 < q * D) as HqD by (apply Z.mul_pos_pos; lia). pose proof (dy_eq_log2 _ _ _ _ HqD HA Hd) as Hlog.
    assert (Z.log2 q < p) as Hlq by (apply Z.log2_lt_pow2; lia).
    pose proof (Z.log2_mul_above q D ltac:(lia) ltac:(lia)) as Hla. pose proof (Z.log2_nonneg A).
    set (d := f - (e - k - 1)). assert (0 <= d) as Hd0 by (unfold d, k, quotient_shift in *; lia).
    assert (N = q * 2 ^ d) as EN.
    { apply quotient_exact; try done. fold k. specialize (Hd (e - k - 1) ltac:(lia) ltac:(lia)).
      replace (e - (e - k - 1)) with (k + 1) in Hd by lia. fold d in Hd. lia. }
    eapply denotes_unique; [exact Hden|]. apply model_number_exact; [lia|done| |done].
    rewrite EN. replace (e - k - 1) with (f - d) by lia. apply dy_eq_scale. done.
Qed.

Lemma model_div_rounded q0 q1 a b m1 e1 m2 e2 p :
  holds (F := big_view) q0 a m1 e1 -> holds (F := big_view) q1 b m2 e2 -> m2 <> 0 -> precision_ok p ->
  m1 = 0 \/ - 2 ^ 29 <= e1 + Z.log2 (Z.abs m1) - (e2 + Z.log2 (Z.abs m2)) < 2 ^ 29 ->
  exists m e, holds (F := big_view) p (model_div a b p) m e /\ fits_exponent m e /\
    (forall k, k <= e + e2 -> k <= e1 ->
      Z.abs (m * m2 * 2 ^ (e + e2 - k) - m1 * 2 ^ (e1 - k)) * 2 ^ p <= Z.abs m1 * 2 ^ (e1 - k)) /\
    (forall q f, Z.abs q < 2 ^ p -> dy_eq (q * m2) (f + e2) m1 e1 -> dy_eq m e q f).
Proof.
  intros Ha Hb Hne Hp Hrange. destruct (model_holds q0 a m1 e1 Ha) as (s1 & w1 & x1 & -> & W1 & D1 & S1).
  destruct (model_holds q1 b m2 e2 Hb) as (s2 & w2 & x2 & -> & W2 & D2 & S2). cbn [model_div].
  pose proof (mantissa_bounds 64 ltac:(lia) w1 W1) as H1. pose proof (mantissa_bounds 64 ltac:(lia) w2 W2) as H2.
  set (A := mantissa 64 w1) in *. set (D := mantissa 64 w2) in *. set (y1 := x1 - 64 * zlen w1) in *. set (y2 := x2 - 64 * zlen w2) in *.
  set (s := sign_xor s1 s2).
  assert (D <> 0) as HD by (intros E; rewrite E in D2; apply Hne, (dy_eq_zero m2 e2 y2), dy_eq_sym; by destruct s2).
  destruct (D =? 0) eqn:E0; [lia|]. destruct (Z.eq_dec A 0) as [EA|HA].
  - assert (m1 = 0) as -> by (rewrite EA in D1; apply (dy_eq_zero m1 e1 y1), dy_eq_sym; by destruct s1).
    exists 0, 0. split_and!; [|by left| |].
    + exists s. split; [|done]. rewrite EA. unfold model_quotient. rewrite Z.mul_0_l, Z.div_0_l, Z.mod_0_l by lia. cbn [Z.eqb Z.mul Z.add].
      apply model_number_exact; [done|split; [done|apply pow2_pos; unfold precision_ok in Hp; lia]|by apply dy_eq_zero|done].
    + intros k _ _. rewrite !Z.mul_0_l. simpl. lia.
    + intros q f _ Hd. apply dy_eq_zero in Hd. assert (q = 0) as -> by nia. by apply dy_eq_zero.
  - assert (m1 <> 0) as Hm1 by (intros ->; apply dy_eq_zero in D1; destruct s1; simpl in D1; lia).
    destruct Hrange as [|Hrange]; [done|].
    pose proof (dy_eq_abs _ _ _ _ D1) as DA. rewrite signed_abs in DA by lia. pose proof (dy_eq_abs _ _ _ _ D2) as DD. rewrite signed_abs in DD by lia.
    pose proof (dy_eq_log2 A y1 (Z.abs m1) e1 ltac:(lia) ltac:(lia) DA) as LA. pose proof (dy_eq_log2 D y2 (Z.abs m2) e2 ltac:(lia) ltac:(lia) DD) as LD.
    destruct (model_quotient_rounded A D (y1 - y2) s p ltac:(lia) ltac:(lia) Hp) as (Q & ee & Hden & HQ & Hlog & Herr & Hexact).
    assert (forall n f, dy_eq (n * m2) (f + e2) (signed s2 (n * D)) (f + y2)) as Hmul.
    { intros n f. apply dy_eq_sym. replace (signed s2 (n * D)) with (n * signed s2 D) by (destruct s2; simpl; lia). apply dy_eq_mul; [apply dy_eq_refl|done]. }
    exists (signed s Q), ee. split_and!.
    + exists s. rewrite signed_abs by lia. split; [done|]. intros _. by rewrite sign_of_signed.
    + right. rewrite signed_abs by lia. lia.
    + intros k K1 K2. set (j := k `min` (ee + y2) `min` y1).
      assert (Z.abs (signed s Q * m2 * 2 ^ (ee + e2 - j) - m1 * 2 ^ (e1 - j)) * 2 ^ p <= Z.abs m1 * 2 ^ (e1 - j)) as Hj.
      { rewrite (Hmul (signed s Q) ee j) by lia. rewrite <- (D1 j) by lia. rewrite <- (DA j) by lia.
        replace (signed s2 (signed s Q * D) * 2 ^ (ee + y2 - j) - signed s1 A * 2 ^ (y1 - j))
          with (signed s1 (Q * D * 2 ^ (ee + y2 - j) - A * 2 ^ (y1 - j))) by (unfold s, sign_xor; destruct s1, s2; case_decide; try done; simpl; ring).
        specialize (Herr (j - y2) ltac:(lia) ltac:(lia)).
        replace (ee - (j - y2)) with (ee + y2 - j) in Herr by lia. replace (y1 - y2 - (j - y2)) with (y1 - j) in Herr by lia.
        destruct s1; simpl; [done|]. by rewrite Z.abs_opp. }
      pose proof (pow2_pos (k - j) ltac:(lia)) as Hpos.
      assert (2 ^ (ee + e2 - j) = 2 ^ (ee + e2 - k) * 2 ^ (k - j)) as E1 by (rewrite <- Z.pow_add_r by lia; f_equal; lia).
      assert (2 ^ (e1 - j) = 2 ^ (e1 - k) * 2 ^ (k - j)) as E2 by (rewrite <- Z.pow_add_r by lia; f_equal; lia).
      rewrite E1, E2, !Z.mul_assoc, <- Z.mul_sub_distr_r, Z.abs_mul, (Z.abs_eq (2 ^ (k - j))) in Hj by lia.
      apply (Z.mul_le_mono_pos_r _ _ (2 ^ (k - j))); [done|]. lia.
    + intros q f Hq Hd.
      assert (dy_eq (signed s2 (q * D)) (f + y2) (signed s1 A) y1) as Hd2.
      { eapply dy_eq_trans; [apply dy_eq_sym, Hmul|]. eapply dy_eq_trans; [exact Hd|]. by apply dy_eq_sym. }
      assert (dy_eq (Z.abs q * D) f A (y1 - y2)) as Hd3.
      { apply dy_eq_abs in Hd2. rewrite (signed_abs s1) in Hd2 by lia.
        replace (Z.abs (signed s2 (q * D))) with (Z.abs q * D) in Hd2 by (destruct s2; simpl; lia).
        intros k K1 K2. specialize (Hd2 (k + y2) ltac:(lia) ltac:(lia)).
        replace (f + y2 - (k + y2)) with (f - k) in Hd2 by lia. by replace (y1 - (k + y2)) with (y1 - y2 - k) in Hd2 by lia. }
      pose proof (Hexact (Z.abs q) f ltac:(lia) Hd3) as HQf. apply (dy_eq_signed s) in HQf. replace (signed s (Z.abs q)) with q in HQf; [done|].
      specialize (Hd2 ((f + y2) `min` y1) ltac:(lia) ltac:(lia)).
      pose proof (pow2_pos (f + y2 - (f + y2) `min` y1) ltac:(lia)). pose proof (pow2_pos (y1 - (f + y2) `min` y1) ltac:(lia)).
      unfold s, sign_xor. destruct s1, s2; simpl in Hd2; case_decide; try done; simpl; nia.
Qed.

#[export] Instance model_laws : BigFloatLaws big_view.
Proof.
  refine {| view := fun v => v |}; try done.
  - intros f. destruct f as [| |s words e]; try done. by eexists _, _.
  - intros f s words e e' -> _ _. done.
  - intros n p Hn Hp Hpok. apply model_number_exact; [lia| |apply dy_eq_refl|done].
    split; [lia|]. apply (Z.lt_le_trans _ (2 ^ 8)); [lia|]. apply Z.pow_le_mono_r; lia.
  - intros n p Hn Hp Hpok. apply model_number_exact; [lia| |apply dy_eq_refl|done].
    split; [lia|]. apply (Z.lt_le_trans _ (2 ^ 128)); [lia|]. apply Z.pow_le_mono_r; lia.
  - intros a b q1 q2 m1 e1 m2 e2 p Ha Hb Hm Hp _. by eapply model_mul_holds.
  - intros a b q1 q2 m1 m2 e p Ha Hb Hm Hp _. by eapply model_add_holds.
  - intros a b q1 q2 s e p. apply model_add_zeros.
  - intros a b q1 q2 m1 m2 e p Ha Hb Hm Hp _. eapply model_add_holds; [done|by apply model_neg_holds|done|done].
  - intros a b q1 q2 m1 e1 m2 e2 p. apply model_div_rounded.
Defined.
