(* ===== verification/NumericFormat.v ===== *)
(** * IEEE formats

    [bray-numeric/src/format.rs]: the bit layout of the four binary formats, and
    the conversions from and to arbitrary-precision floats.

    The magnitudes of a format, as codes from zero to infinity, stand for the
    integers [code_units] in units of the smallest subnormal number; the code of
    infinity stands for the power of two above all finite ones, which is how
    rounding to nearest decides about overflow. *)

From Stdlib Require Import ZArith Lia.
From stdpp Require Import base list numbers option.
From S2P Require Import Prelude BigFloat.

(** ** format.rs *)

Inductive BinaryFormat := Binary16 | Binary32 | Binary64 | Binary128.

Definition fraction_bits (self : BinaryFormat) : usize :=
  match self with Binary16 => 10 | Binary32 => 23 | Binary64 => 52 | Binary128 => 112 end.

Definition exponent_bits (self : BinaryFormat) : usize :=
  match self with Binary16 => 5 | Binary32 => 8 | Binary64 => 11 | Binary128 => 15 end.

Definition sign_mask (self : BinaryFormat) : Z := Z.shiftl 1 (fraction_bits self + exponent_bits self).

Definition infinity (self : BinaryFormat) : Z := Z.shiftl (Z.shiftl 1 (exponent_bits self) - 1) (fraction_bits self).

Definition nan (self : BinaryFormat) : Z := Z.lor (infinity self) (Z.shiftl 1 (fraction_bits self - 1)).

(** [!x] of a [u128]. *)
Definition u128_not (x : Z) : Z := (2 ^ 128 - 1) - x.

Definition format_is_nan (self : BinaryFormat) (bits : Z) : bool := infinity self <? Z.land bits (u128_not (sign_mask self)).

Definition format_is_infinite (self : BinaryFormat) (bits : Z) : bool := Z.land bits (u128_not (sign_mask self)) =? infinity self.

Definition format_is_zero (self : BinaryFormat) (bits : Z) : bool := Z.land bits (u128_not (sign_mask self)) =? 0.

(** [i32] arithmetic, which is checked. *)
Definition i32_checked (x : Z) : outcome Z := if (- 2 ^ 31 <=? x) && (x <? 2 ^ 31) then Ret x else Panic.

Section format.
Context {F : Type} `{!BigFloat F}.

Definition decode (self : BinaryFormat) (bits : Z) (precision : usize) : outcome F :=
  let mask := Z.lor (sign_mask self) (sign_mask self - 1) in
  let! _ := assert_ (Z.land bits (u128_not mask) =? 0) in
  let sign := if Z.land bits (sign_mask self) =? 0 then Pos else Neg in
  let magnitude := Z.land bits (u128_not (sign_mask self)) in
  if infinity self <=? magnitude
  then Ret (if infinity self <? magnitude then NAN else if decide (sign = Pos) then INF_POS else INF_NEG)
  else
    let fraction_bits := fraction_bits self in
    let field := Z.shiftr magnitude fraction_bits in
    let bias := Z.shiftl 1 (exponent_bits self - 1) - 1 in
    let fraction := Z.land magnitude (Z.shiftl 1 fraction_bits - 1) in
    let significand := if field =? 0 then fraction else Z.lor fraction (Z.shiftl 1 fraction_bits) in
    let result := from_u128 significand precision in
    let! result :=
      if negb (significand =? 0)
      then
        let! field := i32_checked (field `max` 1) in
        let! exponent := i32_checked (field - bias) in
        let! exponent := i32_checked (exponent - fraction_bits) in
        let! original := expect (big_exponent result) in
        let! exponent := i32_checked (original + exponent) in
        Ret (set_exponent result exponent)
      else Ret result in
    Ret (set_sign result sign).

(** The bits from [index] on, [count] of them, the highest first. *)
Fixpoint collect_bits (words : list Z) (index : Z) (count : nat) (significand : Z) : outcome Z :=
  match count with
  | O => Ret significand
  | S count =>
      let! b := expect (word_bit (WORD_BIT_SIZE (F := F)) words (index + Z.of_nat count)) in
      collect_bits words index count (Z.lor (Z.shiftl significand 1) (Z.b2z b))
  end.

(** Whether one of the lowest [count] bits is set; the lowest is tried first. *)
Fixpoint any_bit (words : list Z) (index : Z) (count : nat) : outcome bool :=
  match count with
  | O => Ret false
  | S count =>
      let! b := expect (word_bit (WORD_BIT_SIZE (F := F)) words index) in
      if b then Ret true else any_bit words (index + 1) count
  end.

Definition round_up (words : list Z) (shift : usize) (significand : Z) : outcome bool :=
  if shift =? 0 then Ret false
  else
    let! half := expect (word_bit (WORD_BIT_SIZE (F := F)) words (shift - 1)) in
    if half
    then if negb (Z.land significand 1 =? 0) then Ret true else any_bit words 0 (Z.to_nat (shift - 1))
    else Ret false.

Definition encode (self : BinaryFormat) (value : F) : outcome Z :=
  let! _ := assert_ (negb (is_err value)) in
  if is_nan value then Ret (nan self)
  else
    let sign := if decide (big_sign value = Some Neg) then sign_mask self else 0 in
    if is_inf value then Ret (Z.lor sign (infinity self))
    else if is_zero value then Ret sign
    else
      let! parts := expect (as_raw_parts value) in
      let '(words, _, _, exponent, _) := parts in
      let fraction_bits := fraction_bits self in
      let bias := Z.shiftl 1 (exponent_bits self - 1) - 1 in
      let! field := i32_checked (exponent - 1) in
      let! field := i32_checked (field + bias) in
      let! retained := i32_checked (fraction_bits + 1 + field `min` 1) in
      let! retained := i32_checked (retained - 1) in
      if retained <? 0 then Ret sign
      else if Z.shiftl 1 (exponent_bits self) - 1 <=? field then Ret (Z.lor sign (infinity self))
      else
        let total_bits := zlen words * WORD_BIT_SIZE (F := F) in
        let! shift := expect (usize_checked_sub total_bits retained) in
        let! significand := collect_bits words shift (Z.to_nat (total_bits - shift)) 0 in
        let! up := round_up words shift significand in
        let significand := if (up : bool) then significand + 1 else significand in
        if field <=? 0 then Ret (Z.lor sign significand)
        else Ret (Z.lor sign (Z.shiftl (field - 1) fraction_bits + significand)).
End format.

(** ** The values of a format *)

Definition format_bias (f : BinaryFormat) : Z := 2 ^ (exponent_bits f - 1) - 1.

(** The exponent of the unit, which is the smallest subnormal number. *)
Definition unit_exponent (f : BinaryFormat) : Z := 1 - format_bias f - fraction_bits f.

Definition code_field (f : BinaryFormat) (code : Z) : Z := code / 2 ^ fraction_bits f.
Definition code_fraction (f : BinaryFormat) (code : Z) : Z := code mod 2 ^ fraction_bits f.

Definition code_units (f : BinaryFormat) (code : Z) : Z :=
  if code_field f code =? 0 then code_fraction f code
  else (2 ^ fraction_bits f + code_fraction f code) * 2 ^ (code_field f code - 1).

(** [code] is nearest to [m * 2^e] among all magnitudes of the format, and even
    if another one is as near. *)
Definition nearest_even (f : BinaryFormat) (m e : Z) (code : Z) : Prop :=
  let k := e `min` unit_exponent f in
  let distance c := Z.abs (m * 2 ^ (e - k) - code_units f c * 2 ^ (unit_exponent f - k)) in
  0 <= code <= infinity f /\
  forall c, 0 <= c <= infinity f -> distance code <= distance c /\ (distance code = distance c -> c <> code -> Z.even code = true).

(** ** Layout *)

Lemma format_ranges f : 10 <= fraction_bits f <= 112 /\ 5 <= exponent_bits f <= 15 /\ fraction_bits f + exponent_bits f <= 127.
Proof. destruct f; simpl; lia. Qed.

Lemma pow_format_pos f : 0 < 2 ^ fraction_bits f.
Proof. destruct (format_ranges f). apply pow2_pos. lia. Qed.

Lemma infinity_eq f : infinity f = (2 ^ exponent_bits f - 1) * 2 ^ fraction_bits f.
Proof. destruct (format_ranges f) as (? & ? & ?). unfold infinity. by rewrite !Z.shiftl_mul_pow2, Z.mul_1_l by lia. Qed.

Lemma sign_mask_eq f : sign_mask f = 2 ^ (fraction_bits f + exponent_bits f).
Proof. destruct (format_ranges f) as (? & ? & ?). unfold sign_mask. by rewrite Z.shiftl_mul_pow2, Z.mul_1_l by lia. Qed.

Lemma bias_eq f : Z.shiftl 1 (exponent_bits f - 1) - 1 = format_bias f.
Proof. destruct (format_ranges f) as (? & ? & ?). unfold format_bias. by rewrite Z.shiftl_mul_pow2, Z.mul_1_l by lia. Qed.

Lemma infinity_sign_mask f : 0 < infinity f < sign_mask f.
Proof. by destruct f. Qed.

(** ** The order of the codes *)

Definition code_gap (f : BinaryFormat) (code : Z) : Z := 2 ^ (code_field f code `max` 1 - 1).

Lemma code_split f code : code = code_field f code * 2 ^ fraction_bits f + code_fraction f code.
Proof. pose proof (pow_format_pos f). unfold code_field, code_fraction. pose proof (Z.div_mod code (2 ^ fraction_bits f)). lia. Qed.

Lemma code_of f field fraction :
  0 <= fraction < 2 ^ fraction_bits f ->
  code_field f (field * 2 ^ fraction_bits f + fraction) = field /\ code_fraction f (field * 2 ^ fraction_bits f + fraction) = fraction.
Proof.
  intros H. pose proof (pow_format_pos f). unfold code_field, code_fraction. rewrite Z.add_comm. split.
  - rewrite Z.div_add by lia. rewrite Z.div_small by lia. lia.
  - rewrite Z.mod_add by lia. by apply Z.mod_small.
Qed.

Lemma code_fraction_range f code : 0 <= code_fraction f code < 2 ^ fraction_bits f.
Proof. apply Z.mod_pos_bound, pow_format_pos. Qed.

Lemma code_field_nonneg f code : 0 <= code -> 0 <= code_field f code.
Proof. intros H. apply Z.div_pos; [done|apply pow_format_pos]. Qed.

(** The value of a significand with an exponent field, the hidden bit included;
    a significand that rounding has carried over is the next field's. *)
Lemma units_compose f field s :
  1 <= field -> 0 <= s <= 2 ^ (fraction_bits f + 1) -> field = 1 \/ 2 ^ fraction_bits f <= s ->
  code_units f ((field - 1) * 2 ^ fraction_bits f + s) = s * 2 ^ (field - 1).
Proof.
  intros Hf Hs Hn. pose proof (pow_format_pos f). destruct (format_ranges f) as (? & _). rewrite Z.pow_add_r, Z.pow_1_r in Hs by lia.
  unfold code_units. destruct (Z.lt_ge_cases s (2 ^ fraction_bits f)) as [Hlt|Hge].
  - destruct (code_of f (field - 1) s ltac:(lia)) as [-> ->]. destruct Hn as [->|]; [|lia]. simpl. lia.
  - destruct (Z.eq_dec s (2 * 2 ^ fraction_bits f)) as [->|Hne].
    + replace ((field - 1) * 2 ^ fraction_bits f + 2 * 2 ^ fraction_bits f) with ((field + 1) * 2 ^ fraction_bits f + 0) by lia.
      destruct (code_of f (field + 1) 0 ltac:(lia)) as [-> ->]. destruct (field + 1 =? 0) eqn:E; [lia|].
      replace (field + 1 - 1) with (1 + (field - 1)) by lia. rewrite Z.pow_add_r, Z.pow_1_r by lia. lia.
    + replace ((field - 1) * 2 ^ fraction_bits f + s) with (field * 2 ^ fraction_bits f + (s - 2 ^ fraction_bits f)) by lia.
      destruct (code_of f field (s - 2 ^ fraction_bits f) ltac:(lia)) as [-> ->]. destruct (field =? 0) eqn:E; [lia|]. f_equal. lia.
Qed.

Lemma units_significand f code :
  0 <= code ->
  exists s, code = (code_field f code `max` 1 - 1) * 2 ^ fraction_bits f + s /\ 0 <= s < 2 ^ (fraction_bits f + 1) /\
    (code_field f code `max` 1 = 1 \/ 2 ^ fraction_bits f <= s) /\ code_units f code = s * code_gap f code.
Proof.
  intros Hc. pose proof (pow_format_pos f). destruct (format_ranges f) as (? & _). pose proof (code_fraction_range f code).
  pose proof (code_split f code) as Hs. pose proof (code_field_nonneg f code Hc). rewrite Z.pow_add_r, Z.pow_1_r by lia.
  unfold code_units, code_gap. destruct (code_field f code =? 0) eqn:E.
  - assert (code_field f code = 0) as E0 by lia. rewrite E0 in *. exists (code_fraction f code). change (2 ^ (0 `max` 1 - 1)) with 1. lia.
  - exists (2 ^ fraction_bits f + code_fraction f code). replace (code_field f code `max` 1) with (code_field f code) by lia.
    split_and!; [lia|lia|lia|by right; lia|done].
Qed.

Lemma units_step f code : 0 <= code -> code_units f (code + 1) = code_units f code + code_gap f code.
Proof.
  intros Hc. destruct (units_significand f code Hc) as (s & Hs & Hr & Hn & ->). unfold code_gap.
  set (field := code_field f code `max` 1) in *. rewrite Hs. rewrite <- Z.add_assoc.
  rewrite units_compose by lia. lia.
Qed.

Lemma units_lt f c d : 0 <= c < d -> code_units f c < code_units f d.
Proof.
  intros H. replace d with (c + 1 + (d - c - 1)) by lia. assert (0 <= d - c - 1) as Hn by lia. revert Hn. generalize (d - c - 1).
  apply natlike_ind.
  - rewrite Z.add_0_r, units_step by lia. assert (0 < code_gap f c); [|lia]. apply pow2_pos. lia.
  - intros n Hn IH. rewrite <- Z.add_1_r, Z.add_assoc, units_step by lia.
    assert (0 < code_gap f (c + 1 + n)); [|lia]. apply pow2_pos. lia.
Qed.

Lemma units_0 f : code_units f 0 = 0.
Proof. by destruct f. Qed.

Lemma units_le f c d : 0 <= c <= d -> code_units f c <= code_units f d.
Proof. intros H. destruct (Z.eq_dec c d) as [->|Hne]; [lia|]. pose proof (units_lt f c d). lia. Qed.

Lemma units_inj f c d : 0 <= c -> 0 <= d -> code_units f c = code_units f d -> c = d.
Proof. intros Hc Hd E. pose proof (units_lt f c d). pose proof (units_lt f d c). lia. Qed.

Lemma units_infinity f : code_units f (infinity f) = 2 ^ (fraction_bits f + (2 ^ exponent_bits f - 2)).
Proof.
  destruct (format_ranges f) as (? & ? & _). pose proof (pow_format_pos f). assert (32 <= 2 ^ exponent_bits f) by (by destruct f).
  rewrite infinity_eq. replace ((2 ^ exponent_bits f - 1) * 2 ^ fraction_bits f)
    with ((2 ^ exponent_bits f - 1 - 1) * 2 ^ fraction_bits f + 2 ^ fraction_bits f) by lia.
  rewrite units_compose; [|lia| |by right].
  - rewrite Z.pow_add_r by lia. do 2 f_equal. lia.
  - rewrite Z.pow_add_r, Z.pow_1_r by lia. lia.
Qed.

(** Codes at or above a field are multiples of its gap; lower ones are below. *)
Lemma units_multiple f code g :
  0 <= code -> 0 <= g ->
  (exists q, code_units f code = q * 2 ^ g) \/ (1 <= g /\ code_units f code < 2 ^ fraction_bits f * 2 ^ g).
Proof.
  intros Hc Hg. destruct (units_significand f code Hc) as (s & Hs & Hr & Hn & E). unfold code_gap in E. rewrite E.
  set (field := code_field f code `max` 1) in *. pose proof (pow_format_pos f). destruct (format_ranges f) as (? & _).
  destruct (Z.le_gt_cases g (field - 1)) as [Hle|Hgt].
  - left. exists (s * 2 ^ (field - 1 - g)). rewrite (pow2_split g (field - 1)) by lia. lia.
  - right. split; [lia|]. rewrite Z.pow_add_r, Z.pow_1_r in Hr by lia.
    rewrite (pow2_split 1 g) by lia. pose proof (pow2_pos (field - 1)). 
    assert (2 ^ (field - 1) <= 2 ^ (g - 1)) by (apply Z.pow_le_mono_r; lia). rewrite Z.pow_1_r. nia.
Qed.

(** ** Rounding *)

(** [s] is [M / 2^shift] rounded to the nearest integer, ties to even. *)
Definition rounded (M shift s : Z) : Prop :=
  2 * Z.abs (M - s * 2 ^ shift) <= 2 ^ shift /\ (2 * Z.abs (M - s * 2 ^ shift) = 2 ^ shift -> Z.even s = true).

Lemma rounded_best M shift s q :
  0 <= shift -> rounded M shift s -> q <> s ->
  Z.abs (M - s * 2 ^ shift) <= Z.abs (M - q * 2 ^ shift) /\
  (Z.abs (M - s * 2 ^ shift) = Z.abs (M - q * 2 ^ shift) -> Z.even s = true).
Proof.
  intros Hs [H1 H2] Hq. pose proof (pow2_pos shift Hs) as Hp.
  assert (2 ^ shift <= Z.abs ((q - s) * 2 ^ shift)) as Hd by nia.
  assert ((q - s) * 2 ^ shift = (M - s * 2 ^ shift) - (M - q * 2 ^ shift)) as E by ring.
  split; [lia|]. intros He. apply H2. lia.
Qed.

Lemma even_shifted f a s : Z.even (a * 2 ^ fraction_bits f + s) = Z.even s.
Proof.
  destruct (format_ranges f) as (? & _). rewrite Z.even_add, Z.even_mul, Z.even_pow by lia. simpl. rewrite orb_true_r. by destruct (Z.even s).
Qed.

Lemma abs_scale a b c : 0 <= c -> Z.abs (a * c - b * c) = Z.abs (a - b) * c.
Proof. intros H. rewrite <- Z.mul_sub_distr_r, Z.abs_mul, (Z.abs_eq c) by lia. done. Qed.

(** The distance in the definition of [nearest_even], in the units of [M]. *)
Lemma scaled_distance f m e M g shift c d :
  0 <= shift -> 0 <= g -> dy_eq m e M (unit_exponent f + g - shift) ->
  let k := e `min` unit_exponent f in
  let distance c := Z.abs (m * 2 ^ (e - k) - code_units f c * 2 ^ (unit_exponent f - k)) in
  let scaled c := Z.abs (M * 2 ^ g - code_units f c * 2 ^ shift) in
  (scaled c <= scaled d -> distance c <= distance d) /\ (distance c = distance d -> scaled c = scaled d).
Proof.
  intros Hs Hg Hd k distance scaled.
  assert (exists U, 0 < U /\ forall c, distance c * 2 ^ shift = U * scaled c) as (U & HU & HE).
  { exists (2 ^ (unit_exponent f - k)). split; [apply pow2_pos; lia|]. intros x. unfold distance, scaled.
    specialize (Hd (k - shift) ltac:(lia) ltac:(lia)).
    replace (e - (k - shift)) with ((e - k) + shift) in Hd by lia.
    replace (unit_exponent f + g - shift - (k - shift)) with (g + (unit_exponent f - k)) in Hd by lia.
    rewrite !Z.pow_add_r in Hd by lia. pose proof (pow2_pos shift Hs). pose proof (pow2_pos (unit_exponent f - k) ltac:(lia)).
    rewrite <- abs_scale by lia. rewrite (Z.mul_comm (2 ^ (unit_exponent f - k))), <- abs_scale by lia. f_equal. lia. }
  pose proof (pow2_pos shift Hs). pose proof (HE c). pose proof (HE d). split; intros; nia.
Qed.

Lemma nearest_rounded f m e M shift g s :
  0 <= shift -> 0 <= g -> dy_eq m e M (unit_exponent f + g - shift) -> rounded M shift s ->
  0 <= s <= 2 ^ (fraction_bits f + 1) -> g = 0 \/ (2 ^ fraction_bits f <= s /\ 2 ^ fraction_bits f * 2 ^ shift <= M) ->
  g * 2 ^ fraction_bits f + s <= infinity f ->
  nearest_even f m e (g * 2 ^ fraction_bits f + s).
Proof.
  intros Hshift Hg Hd Hr Hs Hn Hinf. pose proof (pow_format_pos f) as Hp. pose proof (pow2_pos shift Hshift) as Hps.
  pose proof (pow2_pos g Hg) as Hpg.
  assert (code_units f (g * 2 ^ fraction_bits f + s) = s * 2 ^ g) as Hu.
  { replace g with (g + 1 - 1) at 1 2 by lia. apply units_compose; [lia|lia|]. destruct Hn as [->|[Hn _]]; [by left|by right]. }
  assert (0 <= g * 2 ^ fraction_bits f) by (apply Z.mul_nonneg_nonneg; lia). split; [lia|]. intros c Hc. cbv zeta.
  destruct (Z.eq_dec c (g * 2 ^ fraction_bits f + s)) as [->|Hne]; [done|].
  destruct (scaled_distance f m e M g shift (g * 2 ^ fraction_bits f + s) c Hshift Hg Hd) as [Hle Heq].
  rewrite Hu in Hle, Heq. replace (s * 2 ^ g * 2 ^ shift) with (s * 2 ^ shift * 2 ^ g) in Hle, Heq by lia. rewrite abs_scale in Hle, Heq by lia.
  rewrite Hu. rewrite even_shifted.
  destruct (units_multiple f c g (proj1 Hc) Hg) as [[q Hq]|[Hg1 Hlow]].
  - rewrite Hq in *. assert (q <> s) as Hqs by (intros ->; apply Hne, (units_inj f); [lia|lia|congruence]).
    destruct (rounded_best M shift s q Hshift Hr Hqs) as [H1 H2].
    replace (q * 2 ^ g * 2 ^ shift) with (q * 2 ^ shift * 2 ^ g) in Hle, Heq by lia. rewrite abs_scale in Hle, Heq by lia.
    split; [apply Hle, Z.mul_le_mono_nonneg_r; lia|]. intros E _. apply H2. apply (Z.mul_reg_r _ _ (2 ^ g)); [lia|by apply Heq].
  - destruct Hn as [->|[Hn HM]]; [lia|].
    assert (Z.abs (M - s * 2 ^ shift) * 2 ^ g < Z.abs (M * 2 ^ g - code_units f c * 2 ^ shift)) as Hlt.
    { assert (Z.abs (M - s * 2 ^ shift) <= Z.abs (M - 2 ^ fraction_bits f * 2 ^ shift)) as H1.
      { destruct (Z.eq_dec (2 ^ fraction_bits f) s) as [->|]; [done|]. by apply (rounded_best M shift s (2 ^ fraction_bits f)). }
      rewrite (Z.abs_eq (M - 2 ^ fraction_bits f * 2 ^ shift)) in H1 by lia.
      assert (Z.abs (M - s * 2 ^ shift) * 2 ^ g <= (M - 2 ^ fraction_bits f * 2 ^ shift) * 2 ^ g) as H2 by (apply Z.mul_le_mono_nonneg_r; lia).
      assert (code_units f c * 2 ^ shift < 2 ^ fraction_bits f * 2 ^ g * 2 ^ shift) as H3 by (apply Z.mul_lt_mono_pos_r; lia).
      assert (2 ^ fraction_bits f * 2 ^ shift * 2 ^ g <= M * 2 ^ g) as H4 by (apply Z.mul_le_mono_nonneg_r; lia).
      lia. }
    split; [apply Hle; lia|]. intros E. specialize (Heq E). lia.
Qed.

(** ** Reading the mantissa *)

Lemma lor_double acc b : Z.lor (acc * 2) (Z.b2z b) = acc * 2 + Z.b2z b.
Proof.
  destruct b; cbn [Z.b2z]; [|by rewrite Z.lor_0_r, Z.add_0_r]. rewrite <- Z.lxor_lor, <- Z.add_nocarry_lxor; [done| |].
  all: change 1 with (Z.ones 1); rewrite Z.land_ones by lia; rewrite Z.pow_1_r; by apply Z.mod_mul.
Qed.

Section bits.
Context {F : Type} `{!BigFloat F, !BigFloatLaws F}.
Context (words : list Z) (Hwords : words_ok (WORD_BIT_SIZE (F := F)) words).

Abbreviation M := (mantissa (WORD_BIT_SIZE (F := F)) words).
Abbreviation total := (mantissa_bits (F := F) words).

Lemma word_bit_ok i : 0 <= i < total -> word_bit (WORD_BIT_SIZE (F := F)) words i = Some (Z.testbit M i).
Proof using All. intros H. apply mantissa_testbit; [apply (proj1 word_size)|done|exact H]. Qed.

Lemma top_bit i n : 0 <= i -> (M / 2 ^ i) mod 2 ^ Z.of_nat (S n) = Z.b2z (Z.testbit M (i + Z.of_nat n)) * 2 ^ Z.of_nat n + (M / 2 ^ i) mod 2 ^ Z.of_nat n.
Proof using.
  intros Hi. replace (Z.of_nat (S n)) with (Z.of_nat n + 1) by lia. rewrite Z.pow_add_r, Z.pow_1_r by lia.
  rewrite Z.rem_mul_r by (pose proof (pow2_pos (Z.of_nat n)); lia). rewrite Z.div_div by (try apply Z.pow_nonzero; pose proof (pow2_pos (Z.of_nat n)); lia).
  rewrite <- Z.pow_add_r by lia. rewrite (Z.testbit_spec' M (i + Z.of_nat n)) by lia. lia.
Qed.

Lemma low_bit i n : 0 <= i -> (M / 2 ^ i) mod 2 ^ Z.of_nat (S n) = Z.b2z (Z.testbit M i) + 2 * ((M / 2 ^ (i + 1)) mod 2 ^ Z.of_nat n).
Proof using.
  intros Hi. replace (Z.of_nat (S n)) with (1 + Z.of_nat n) by lia. rewrite Z.pow_add_r, Z.pow_1_r by lia.
  rewrite Z.rem_mul_r by (pose proof (pow2_pos (Z.of_nat n)); lia). rewrite Z.div_div by (try apply Z.pow_nonzero; lia).
  rewrite <- (Z.pow_1_r 2) at 5. rewrite <- Z.pow_add_r by lia. by rewrite (Z.testbit_spec' M i) by lia.
Qed.

Lemma collect_bits_ok i n acc :
  0 <= i -> i + Z.of_nat n <= total ->
  collect_bits (F := F) words i n acc = Ret (acc * 2 ^ Z.of_nat n + (M / 2 ^ i) mod 2 ^ Z.of_nat n).
Proof using All.
  intros Hi. revert acc. induction n as [|n IH]; intros acc Hn; cbn [collect_bits].
  - change (2 ^ Z.of_nat 0) with 1. rewrite Z.mod_1_r. f_equal. lia.
  - rewrite word_bit_ok by lia. cbn [expect outcome_bind]. rewrite IH by lia. f_equal. rewrite top_bit by done.
    rewrite Z.shiftl_mul_pow2, Z.pow_1_r, lor_double by lia.
    replace (Z.of_nat (S n)) with (1 + Z.of_nat n) by lia. rewrite Z.pow_add_r by lia. lia.
Qed.

Lemma any_bit_ok i n :
  0 <= i -> i + Z.of_nat n <= total -> any_bit (F := F) words i n = Ret (negb ((M / 2 ^ i) mod 2 ^ Z.of_nat n =? 0)).
Proof using All.
  revert i. induction n as [|n IH]; intros i Hi Hn; cbn [any_bit].
  - change (2 ^ Z.of_nat 0) with 1. by rewrite Z.mod_1_r.
  - rewrite word_bit_ok by lia. cbn [expect outcome_bind]. rewrite low_bit by done.
    pose proof (Z.mod_pos_bound (M / 2 ^ (i + 1)) (2 ^ Z.of_nat n) ltac:(apply pow2_pos; lia)) as Hb.
    destruct (Z.testbit M i); cbn [Z.b2z].
    + destruct (1 + 2 * ((M / 2 ^ (i + 1)) mod 2 ^ Z.of_nat n) =? 0) eqn:E; [lia|done].
    + rewrite IH by lia. f_equal. f_equal. apply eq_true_iff_eq. rewrite !Z.eqb_eq. lia.
Qed.

Lemma round_up_ok shift :
  0 <= shift <= total ->
  returns (round_up (F := F) words shift (M / 2 ^ shift)) (fun up => rounded M shift (M / 2 ^ shift + Z.b2z up)).
Proof using All.
  intros Hs. pose proof (pow2_pos shift ltac:(lia)) as Hp. pose proof (Z.div_mod M (2 ^ shift) ltac:(lia)) as Hdm.
  pose proof (Z.mod_pos_bound M (2 ^ shift) Hp) as Hm. unfold round_up. destruct (shift =? 0) eqn:E0.
  { apply returns_ret. assert (shift = 0) as -> by lia. change (2 ^ 0) with 1 in *. rewrite Z.div_1_r. unfold rounded. cbn [Z.b2z].
    change (2 ^ 0) with 1. replace (M - (M + 0) * 1) with 0 by lia. split; [simpl; lia|simpl; lia]. }
  rewrite word_bit_ok by lia. cbn [expect outcome_bind].
  assert (M mod 2 ^ shift = Z.b2z (Z.testbit M (shift - 1)) * 2 ^ (shift - 1) + M mod 2 ^ (shift - 1)) as Hsplit.
  { pose proof (top_bit 0 (Z.to_nat (shift - 1)) ltac:(lia)) as H. rewrite Z.pow_0_r, Z.div_1_r in H.
    replace (Z.of_nat (S (Z.to_nat (shift - 1)))) with shift in H by lia. rewrite Z2Nat.id in H by lia. by rewrite Z.add_0_l in H. }
  assert (2 ^ shift = 2 * 2 ^ (shift - 1)) as Hhalf by (rewrite (pow2_split 1 shift) by lia; done).
  pose proof (Z.mod_pos_bound M (2 ^ (shift - 1)) ltac:(apply pow2_pos; lia)) as Hl.
  assert (forall up : bool, M - (M / 2 ^ shift + Z.b2z up) * 2 ^ shift = M mod 2 ^ shift - Z.b2z up * 2 ^ shift) as Hrem by (intros []; simpl; lia).
  assert (Z.land (M / 2 ^ shift) 1 = (M / 2 ^ shift) mod 2) as Hland by (change 1 with (Z.ones 1); rewrite Z.land_ones by lia; done).
  assert (forall up : bool, Z.even (M / 2 ^ shift + Z.b2z up) = xorb up ((M / 2 ^ shift) mod 2 =? 0)) as Heven.
  { intros up. rewrite Z.even_add, Zeven_mod. unfold Zeq_bool. destruct up, ((M / 2 ^ shift) mod 2) eqn:Em; done. }
  destruct (Z.testbit M (shift - 1)); cbn [Z.b2z] in Hsplit.
  2: { apply returns_ret. unfold rounded. rewrite Hrem. cbn [Z.b2z]. lia. }
  rewrite Hland. destruct ((M / 2 ^ shift) mod 2 =? 0) eqn:Epar; cbn [negb].
  - rewrite any_bit_ok by lia. rewrite Z.pow_0_r, Z.div_1_r, Z2Nat.id by lia. apply returns_ret. unfold rounded. rewrite Hrem, Heven.
    destruct (M mod 2 ^ (shift - 1) =? 0) eqn:Elow; cbn [negb Z.b2z xorb]; lia.
  - apply returns_ret. unfold rounded. rewrite Hrem, Heven. cbn [Z.b2z xorb negb]. lia.
Qed.
End bits.

(** ** Encoding *)

Definition sign_bits (f : BinaryFormat) (s : Sign) : Z := if decide (s = Neg) then sign_mask f else 0.

Lemma i32_ok x : - 2 ^ 31 <= x < 2 ^ 31 -> i32_checked x = Ret x.
Proof.
  intros H. unfold i32_checked. destruct (- 2 ^ 31 <=? x) eqn:E1; [|lia]. destruct (x <? 2 ^ 31) eqn:E2; [done|lia].
Qed.

Lemma bias_range f : 15 <= format_bias f <= 16383.
Proof. by destruct f. Qed.

(** Too small to round to anything but zero. *)
Lemma nearest_underflow f m e M ex : dy_eq m e M ex -> 0 <= M -> M * 2 < 2 ^ (unit_exponent f - ex) -> ex <= unit_exponent f -> nearest_even f m e 0.
Proof.
  intros Hd HM Hlt Hle. pose proof (infinity_sign_mask f).
  replace ex with (unit_exponent f + 0 - (unit_exponent f - ex)) in Hd by lia. set (shift := unit_exponent f - ex) in *.
  split; [lia|]. intros c Hc. cbv zeta. destruct (scaled_distance f m e M 0 shift 0 c ltac:(lia) ltac:(lia) Hd) as [H1 H2].
  rewrite units_0, Z.pow_0_r, !Z.mul_1_r in *. pose proof (pow2_pos shift ltac:(lia)).
  destruct (Z.eq_dec c 0) as [->|Hne]; [done|].
  assert (1 <= code_units f c) as Hu by (pose proof (units_lt f 0 c); rewrite units_0 in *; lia).
  assert (2 ^ shift <= code_units f c * 2 ^ shift) by (rewrite <- (Z.mul_1_l (2 ^ shift)) at 1; apply Z.mul_le_mono_nonneg_r; lia).
  split; [apply H1; lia|]. intros E _. done.
Qed.

(** At least as large as the value that infinity stands for. *)
Lemma nearest_overflow f m e M g shift :
  0 <= shift -> 0 <= g -> dy_eq m e M (unit_exponent f + g - shift) -> code_units f (infinity f) * 2 ^ shift <= M * 2 ^ g ->
  nearest_even f m e (infinity f).
Proof.
  intros Hs Hg Hd HM. pose proof (infinity_sign_mask f). split; [lia|]. intros c Hc. cbv zeta.
  destruct (scaled_distance f m e M g shift (infinity f) c Hs Hg Hd) as [H1 H2]. pose proof (pow2_pos shift Hs).
  pose proof (Z.mul_le_mono_nonneg_r _ _ (2 ^ shift) ltac:(lia) (units_le f c (infinity f) ltac:(lia))).
  split; [apply H1; lia|]. intros E Hne. specialize (H2 E).
  pose proof (units_lt f c (infinity f) ltac:(lia)) as Hlt. apply (Z.mul_lt_mono_pos_r (2 ^ shift)) in Hlt; lia.
Qed.

Section encode.
Context {F : Type} `{!BigFloat F, !BigFloatLaws F}.

Lemma encode_number f (value : F) s words ex :
  view value = ViewNumber s words ex -> words_ok WORD_BIT_SIZE words ->
  2 ^ (mantissa_bits (F := F) words - 1) <= mantissa (WORD_BIT_SIZE (F := F)) words -> fraction_bits f < mantissa_bits (F := F) words ->
  - 2 ^ 30 <= ex < 2 ^ 30 -> mantissa_bits (F := F) words <= USIZE_MAX ->
  returns (encode f value) (fun bits => exists code, bits = Z.lor (sign_bits f s) code /\
    forall m e, dy_eq m e (mantissa (WORD_BIT_SIZE (F := F)) words) (ex - mantissa_bits (F := F) words) -> nearest_even f m e code).
Proof using All.
  intros Hv Hw Hnorm Hbits Hex Husize. set (M := mantissa WORD_BIT_SIZE words) in *. set (total := mantissa_bits words) in *.
  destruct (format_ranges f) as (Hfb & Heb & _). pose proof (bias_range f) as Hbias. pose proof (pow_format_pos f) as Hpf.
  pose proof (mantissa_bounds WORD_BIT_SIZE (proj1 word_size) words Hw) as HM. change (0 <= M < 2 ^ total) in HM.
  assert (0 < 2 ^ (total - 1)) as Hpt by (apply pow2_pos; lia).
  unfold encode. rewrite is_err_number by congruence. cbn [negb assert_ outcome_bind].
  rewrite is_nan_view, is_inf_view, is_zero_view, sign_view, Hv. fold M. destruct (M =? 0) eqn:E0; [lia|].
  pose proof (raw_parts_view value) as Hraw. rewrite Hv in Hraw. destruct Hraw as (n & inexact & ->). cbn [expect outcome_bind].
  replace (if decide (Some s = Some Neg) then sign_mask f else 0) with (sign_bits f s)
    by (unfold sign_bits; destruct s; by repeat case_decide).
  rewrite bias_eq. rewrite (i32_ok (ex - 1)) by lia. cbn [outcome_bind]. rewrite (i32_ok (ex - 1 + format_bias f)) by lia. cbn [outcome_bind].
  set (field := ex - 1 + format_bias f). rewrite (i32_ok (_ + 1 + _)) by lia. cbn [outcome_bind]. rewrite i32_ok by lia. cbn [outcome_bind].
  replace (fraction_bits f + 1 + field `min` 1 - 1) with (fraction_bits f + field `min` 1) by lia.
  set (retained := fraction_bits f + field `min` 1). destruct (retained <? 0) eqn:Er.
  { apply returns_ret. exists 0. rewrite Z.lor_0_r. split; [done|]. intros m e Hd. apply (nearest_underflow _ _ _ _ _ Hd); [lia| |unfold unit_exponent; lia].
    apply (Z.lt_le_trans _ (2 ^ (total + 1))); [rewrite Z.pow_add_r, Z.pow_1_r by lia; lia|]. apply Z.pow_le_mono_r; unfold unit_exponent; lia. }
  rewrite Z.shiftl_mul_pow2, Z.mul_1_l by lia. assert (32 <= 2 ^ exponent_bits f <= 32768) as Hpe by (by destruct f).
  destruct (2 ^ exponent_bits f - 1 <=? field) eqn:Ei.
  { apply returns_ret. exists (infinity f). split; [done|]. intros m e Hd.
    apply (nearest_overflow _ _ _ M (field + fraction_bits f) total); [lia|lia| |].
    - replace (unit_exponent f + (field + fraction_bits f) - total) with (ex - total) by (unfold unit_exponent, field; lia). done.
    - rewrite units_infinity. apply (Z.le_trans _ (2 ^ (total - 1) * 2 ^ (field + fraction_bits f)));
        [rewrite <- !Z.pow_add_r by lia; apply Z.pow_le_mono_r; lia|apply Z.mul_le_mono_nonneg_r; [apply Z.lt_le_incl, pow2_pos; lia|done]]. }
  assert (zlen words * WORD_BIT_SIZE = total) as -> by (unfold total, mantissa_bits; lia).
  unfold usize_checked_sub. rewrite checked_ok by lia. cbn [expect outcome_bind]. set (shift := total - retained).
  rewrite collect_bits_ok by (done || fold total; lia). cbn [outcome_bind]. fold M. rewrite Z.mul_0_l, Z.add_0_l, Z2Nat.id by lia.
  replace (total - shift) with retained by lia.
  assert (2 ^ total = 2 ^ shift * 2 ^ retained) as Hsplit by (rewrite (pow2_split shift total) by lia; do 2 f_equal; lia).
  pose proof (pow2_pos shift ltac:(lia)) as Hps. pose proof (pow2_pos retained ltac:(lia)) as Hpr.
  assert (0 <= M / 2 ^ shift < 2 ^ retained) as Hq by (split; [apply Z.div_pos; lia|apply Z.div_lt_upper_bound; lia]).
  rewrite Z.mod_small by done. pose proof (round_up_ok words Hw shift ltac:(fold total; lia)) as Hr. fold M in Hr.
  destruct Hr as (up & -> & Hround). cbn [outcome_bind].
  replace (if up then M / 2 ^ shift + 1 else M / 2 ^ shift) with (M / 2 ^ shift + Z.b2z up) by (destruct up; simpl; lia).
  set (sig := M / 2 ^ shift + Z.b2z up) in *. assert (0 <= sig <= 2 ^ retained) as Hsig by (unfold sig; destruct up; simpl; lia).
  assert (2 ^ retained <= 2 ^ (fraction_bits f + 1)) as Hret by (apply Z.pow_le_mono_r; lia).
  set (g := field `max` 1 - 1).
  assert (forall m e, dy_eq m e M (ex - total) -> nearest_even f m e (g * 2 ^ fraction_bits f + sig)) as Hnear.
  { intros m e Hd. apply (nearest_rounded f m e M shift g sig); [lia|lia| |done|lia| |].
    - replace (unit_exponent f + g - shift) with (ex - total) by (unfold unit_exponent, g, shift, retained, field; lia). done.
    - destruct (Z.le_gt_cases field 1) as [Hle|Hgt]; [left; lia|right].
      assert (retained = fraction_bits f + 1) as Hre by lia.
      assert (2 ^ fraction_bits f * 2 ^ shift = 2 ^ (total - 1)) as E2 by (rewrite <- Z.pow_add_r by lia; f_equal; lia).
      split; [|lia]. assert (2 ^ fraction_bits f <= M / 2 ^ shift) by (apply Z.div_le_lower_bound; lia). unfold sig. destruct up; simpl; lia.
    - rewrite infinity_eq. rewrite Z.pow_add_r, Z.pow_1_r in Hret by lia.
      assert (g * 2 ^ fraction_bits f <= (2 ^ exponent_bits f - 3) * 2 ^ fraction_bits f) by (apply Z.mul_le_mono_nonneg_r; lia). lia. }
  destruct (field <=? 0) eqn:Ef; apply returns_ret.
  - exists sig. split; [done|]. intros m e Hd. replace sig with (g * 2 ^ fraction_bits f + sig) by (replace g with 0 by lia; lia). by apply Hnear.
  - exists (g * 2 ^ fraction_bits f + sig). split; [|done]. rewrite Z.shiftl_mul_pow2 by lia. do 3 f_equal. lia.
Qed.
End encode.

(** ** Signs and masks *)

Lemma u128_not_eq x : 0 <= x < 2 ^ 128 -> u128_not x = Z.ldiff (Z.ones 128) x.
Proof.
  intros Hx. unfold u128_not. change (2 ^ 128 - 1) with (Z.ones 128). apply Z.sub_nocarry_ldiff.
  apply Z.bits_inj'. intros i Hi. rewrite Z.ldiff_spec, Z.bits_0. destruct (Z.lt_ge_cases i 128) as [Hlt|Hge].
  - rewrite Z.ones_spec_low by lia. by rewrite andb_comm.
  - by rewrite (testbit_small 128) by lia.
Qed.

(** The bits of a sign and a magnitude. *)
Lemma sign_code_bits f s code i :
  0 <= code < sign_mask f -> 0 <= i ->
  Z.testbit (Z.lor (sign_bits f s) code) i =
  if i =? fraction_bits f + exponent_bits f then bool_decide (s = Neg) else Z.testbit code i.
Proof.
  intros Hc Hi. destruct (format_ranges f) as (? & ? & ?). rewrite sign_mask_eq in Hc. rewrite Z.lor_spec.
  assert (Z.testbit (sign_bits f s) i = bool_decide (s = Neg) && (i =? fraction_bits f + exponent_bits f)) as ->.
  { unfold sign_bits. rewrite sign_mask_eq. destruct s; repeat case_decide; try done; cbn [andb bool_decide]; [by rewrite Z.bits_0|].
    by rewrite Z.pow2_bits_eqb, Z.eqb_sym by lia. }
  destruct (i =? fraction_bits f + exponent_bits f) eqn:E; [|by rewrite andb_false_r].
  rewrite (testbit_small (fraction_bits f + exponent_bits f) code i) by lia. by rewrite andb_true_r, orb_false_r.
Qed.

Lemma sign_mask_range f : 0 < sign_mask f /\ 2 * sign_mask f <= 2 ^ 128.
Proof. by destruct f. Qed.

Lemma sign_bits_sign f s : (if sign_bits f s =? 0 then Pos else Neg) = s.
Proof. pose proof (sign_mask_range f). unfold sign_bits. destruct s; case_decide; try done. by destruct (sign_mask f =? 0) eqn:E0; [lia|]. Qed.

Lemma magnitude_of f s code : 0 <= code < sign_mask f -> Z.land (Z.lor (sign_bits f s) code) (u128_not (sign_mask f)) = code.
Proof.
  intros Hc. destruct (format_ranges f) as (? & ? & ?). pose proof (sign_mask_range f). rewrite u128_not_eq by lia.
  apply Z.bits_inj'. intros i Hi. rewrite Z.land_spec, Z.ldiff_spec, sign_code_bits, sign_mask_eq, Z.pow2_bits_eqb by lia.
  rewrite (Z.eqb_sym _ i). rewrite sign_mask_eq in Hc. destruct (i =? fraction_bits f + exponent_bits f) eqn:E.
  - rewrite andb_false_r, andb_comm. by rewrite (testbit_small (fraction_bits f + exponent_bits f)) by lia.
  - cbn [negb]. rewrite andb_true_r. destruct (Z.lt_ge_cases i 128); [by rewrite Z.ones_spec_low, andb_true_r by lia|].
    by rewrite (testbit_small (fraction_bits f + exponent_bits f)) by lia.
Qed.

Lemma sign_bit_of f s code : 0 <= code < sign_mask f -> Z.land (Z.lor (sign_bits f s) code) (sign_mask f) = sign_bits f s.
Proof.
  intros Hc. destruct (format_ranges f) as (? & ? & ?). apply Z.bits_inj'. intros i Hi.
  rewrite Z.land_spec, sign_code_bits, sign_mask_eq, Z.pow2_bits_eqb by lia. rewrite (Z.eqb_sym _ i).
  unfold sign_bits. rewrite sign_mask_eq. destruct (i =? fraction_bits f + exponent_bits f) eqn:E.
  - destruct s; repeat case_decide; try done; cbn [andb bool_decide]; [by rewrite Z.bits_0|].
    by rewrite Z.pow2_bits_eqb, Z.eqb_sym by lia.
  - rewrite andb_false_r. case_decide; [|by rewrite Z.bits_0]. by rewrite Z.pow2_bits_eqb, Z.eqb_sym by lia.
Qed.

Lemma bits_fit f s code : 0 <= code < sign_mask f -> Z.land (Z.lor (sign_bits f s) code) (u128_not (Z.lor (sign_mask f) (sign_mask f - 1))) = 0.
Proof.
  intros Hc. destruct (format_ranges f) as (? & ? & ?). pose proof (sign_mask_range f).
  assert (Z.lor (sign_mask f) (sign_mask f - 1) = Z.ones (fraction_bits f + exponent_bits f + 1)) as -> by (by destruct f).
  rewrite u128_not_eq by (by destruct f).
  apply Z.bits_inj'. intros i Hi. rewrite Z.land_spec, Z.ldiff_spec, sign_code_bits, Z.bits_0 by lia. rewrite sign_mask_eq in Hc.
  destruct (Z.lt_ge_cases i (fraction_bits f + exponent_bits f + 1)).
  - rewrite (Z.ones_spec_low (_ + 1)) by lia. by rewrite !andb_false_r.
  - destruct (i =? fraction_bits f + exponent_bits f) eqn:E; [lia|]. by rewrite (testbit_small (fraction_bits f + exponent_bits f)) by lia.
Qed.

Lemma sign_code_add f s code : 0 <= code < sign_mask f -> Z.lor (sign_bits f s) code = sign_bits f s + code.
Proof.
  intros Hc. destruct (format_ranges f) as (? & ? & ?). unfold sign_bits. case_decide; [|by rewrite Z.lor_0_l].
  assert (Z.land (sign_mask f) code = 0) as Hland; [|by rewrite <- Z.lxor_lor, <- Z.add_nocarry_lxor].
  apply Z.bits_inj'; intros i Hi; rewrite Z.land_spec, Z.bits_0, sign_mask_eq, Z.pow2_bits_eqb by lia.
  destruct (fraction_bits f + exponent_bits f =? i) eqn:E; [|done]. cbn [andb].
  apply (testbit_small (fraction_bits f + exponent_bits f)); [lia|rewrite <- sign_mask_eq; lia|lia].
Qed.

Lemma split_bits f bits :
  0 <= bits < 2 * sign_mask f -> exists s code, bits = Z.lor (sign_bits f s) code /\ 0 <= code < sign_mask f.
Proof.
  intros Hb. destruct (Z.lt_ge_cases bits (sign_mask f)) as [Hlt|Hge]; [exists Pos, bits|exists Neg, (bits - sign_mask f)];
    (split; [|lia]); rewrite sign_code_add by lia; unfold sign_bits; case_decide; done || lia.
Qed.

Lemma sign_code_range f s code : 0 <= code < sign_mask f -> 0 <= Z.lor (sign_bits f s) code < 2 * sign_mask f.
Proof. intros Hc. rewrite sign_code_add by done. unfold sign_bits. case_decide; lia. Qed.

(** ** Decoding *)

Section decode.
Context {F : Type} `{!BigFloat F, !BigFloatLaws F}.

Lemma set_sign_denotes p (x : F) s s' m e : denotes p (view x) s m e -> denotes p (view (set_sign x s')) s' m e.
Proof using. intros (words & ex & E & H). exists words, ex. by rewrite set_sign_view, E. Qed.

Lemma denotes_bits p (x : F) s m e : denotes p (view x) s m e -> m <> 0 ->
  exists words ex, view x = ViewNumber s words ex /\ words_ok WORD_BIT_SIZE words /\ p <= mantissa_bits (F := F) words < p + WORD_BIT_SIZE (F := F) /\
    dy_eq (mantissa (WORD_BIT_SIZE (F := F)) words) (ex - mantissa_bits (F := F) words) m e /\
    2 ^ (mantissa_bits (F := F) words - 1) <= mantissa (WORD_BIT_SIZE (F := F)) words /\ 0 < mantissa_bits (F := F) words.
Proof using All.
  intros (words & ex & H1 & H2 & H3 & H4 & [H5|H5]) Hm; [done|]. exists words, ex. do 5 (split; [done|]).
  destruct words as [|w words]; [exfalso; by apply dy_eq_sym, dy_eq_zero in H4|].
  unfold mantissa_bits. rewrite zlen_cons. pose proof (zlen_nonneg words). pose proof word_size. apply Z.mul_pos_pos; lia.
Qed.

(** The exponent of a normalized number is one more than that of its top bit. *)
Lemma denotes_exponent p (x : F) s m e :
  denotes p (view x) s m e -> 0 < m -> exists ex, big_exponent x = Some ex /\ ex = e + Z.log2 m + 1.
Proof using All.
  intros Hd Hm. destruct (denotes_bits _ _ _ _ _ Hd) as (words & ex & E & Hw & _ & Hdy & Hn & HT); [lia|].
  exists ex. split; [by rewrite exponent_view, E|]. pose proof (mantissa_bounds WORD_BIT_SIZE (proj1 word_size) words Hw) as HM.
  fold (mantissa_bits (F := F) words) in HM. set (T := mantissa_bits words) in *. set (M := mantissa WORD_BIT_SIZE words) in *.
  pose proof (pow2_pos (T - 1) ltac:(lia)) as Hp.
  assert (Z.log2 M = T - 1) as HlM by (apply Z.log2_unique; [lia|]; replace (Z.succ (T - 1)) with T by lia; lia).
  specialize (Hdy ((ex - T) `min` e) ltac:(lia) ltac:(lia)). apply (f_equal Z.log2) in Hdy.
  rewrite !Z.log2_mul_pow2 in Hdy by lia. lia.
Qed.

Lemma decode_finite f s code p :
  0 <= code < infinity f -> 128 <= p -> precision_ok p ->
  returns (decode f (Z.lor (sign_bits f s) code) p) (fun x : F => denotes p (view x) s (code_units f code) (unit_exponent f)).
Proof using All.
  intros Hc Hp Hpok. destruct (format_ranges f) as (? & ? & ?). pose proof (pow_format_pos f) as Hpf. pose proof (bias_range f) as Hb.
  pose proof (infinity_sign_mask f) as Hinf. unfold decode.
  rewrite bits_fit, magnitude_of, sign_bit_of by lia. cbn [assert_ outcome_bind Z.eqb].
  destruct (infinity f <=? code) eqn:E; [lia|]. rewrite bias_eq, Z.shiftr_div_pow2, Z.shiftl_mul_pow2, Z.mul_1_l by lia.
  fold (code_field f code). assert (2 ^ fraction_bits f - 1 = Z.ones (fraction_bits f)) as -> by (rewrite Z.ones_equiv; lia).
  rewrite Z.land_ones by lia. fold (code_fraction f code).
  rewrite sign_bits_sign.
  pose proof (code_fraction_range f code) as Hfr. pose proof (code_field_nonneg f code ltac:(lia)) as Hfd.
  assert (code_field f code < 32768) as Hfd2.
  { apply (Z.lt_le_trans _ (2 ^ exponent_bits f - 1)); [|by destruct f]. apply Z.div_lt_upper_bound; [lia|]. rewrite infinity_eq in Hc. lia. }
  assert (2 ^ (fraction_bits f + 1) <= 2 ^ 113) as H113 by (apply Z.pow_le_mono_r; lia). rewrite Z.pow_add_r, Z.pow_1_r in H113 by lia.
  set (sig := if code_field f code =? 0 then code_fraction f code else Z.lor (code_fraction f code) (2 ^ fraction_bits f)).
  assert (sig = if code_field f code =? 0 then code_fraction f code else 2 ^ fraction_bits f + code_fraction f code) as Esig.
  { unfold sig. destruct (code_field f code =? 0); [done|]. rewrite Z.lor_comm. symmetry.
    assert (Z.land (2 ^ fraction_bits f) (code_fraction f code) = 0) as Hland; [|by rewrite <- Z.lxor_lor, <- Z.add_nocarry_lxor].
    apply Z.bits_inj'. intros i Hi. rewrite Z.land_spec, Z.bits_0, Z.pow2_bits_eqb by lia.
    destruct (fraction_bits f =? i) eqn:Ei; [|done]. apply (testbit_small (fraction_bits f)); lia. }
  assert (code_units f code = sig * 2 ^ (code_field f code `max` 1 - 1)) as Hunits.
  { unfold code_units. rewrite Esig. destruct (code_field f code =? 0) eqn:E0.
    - replace (code_field f code `max` 1 - 1) with 0 by lia. lia.
    - by replace (code_field f code `max` 1) with (code_field f code) by lia. }
  assert (0 <= sig < 2 ^ 113) as Hsig by (rewrite Esig; destruct (code_field f code =? 0); lia). clearbody sig.
  pose proof (from_u128_number (F := F) sig p ltac:(lia) Hp Hpok) as Hfrom.
  destruct (sig =? 0) eqn:Es; cbn [negb].
  { apply returns_ret. apply (set_sign_denotes p _ Pos). assert (sig = 0) as -> by lia. rewrite Hunits, Z.mul_0_l.
    destruct Hfrom as (words & ex & E1 & E2 & E3 & E4 & E5). exists words, ex. do 3 (split; [done|]). split; [|by left].
    apply dy_eq_zero in E4. by apply dy_eq_zero. }
  rewrite !i32_ok by lia. cbn [outcome_bind]. rewrite i32_ok by lia. cbn [outcome_bind]. rewrite i32_ok by lia. cbn [outcome_bind].
  destruct (denotes_exponent _ _ _ _ _ Hfrom) as (ex & Eex & Hex); [lia|]. rewrite Eex. cbn [expect outcome_bind].
  assert (Z.log2 sig < 113) as Hlog by (apply Z.log2_lt_pow2; lia). pose proof (Z.log2_nonneg sig).
  rewrite i32_ok by lia. cbn [outcome_bind]. apply returns_ret. apply (set_sign_denotes p _ Pos).
  destruct (denotes_bits _ _ _ _ _ Hfrom) as (words & ex' & E1 & E2 & E3 & E4 & E5 & _); [lia|].
  assert (ex' = ex) as -> by (rewrite exponent_view, E1 in Eex; by injection Eex).
  exists words, (ex + (code_field f code `max` 1 - format_bias f - fraction_bits f)).
  rewrite (set_exponent_view _ _ _ _ _ E1 E5) by lia. do 3 (split; [done|]). split; [|by right].
  set (T := mantissa_bits words) in *. set (d := code_field f code `max` 1 - format_bias f - fraction_bits f).
  pose proof (dy_eq_mul _ _ _ _ 1 d 1 d E4 (dy_eq_refl 1 d)) as Hm. rewrite !Z.mul_1_r, Z.add_0_l in Hm.
  replace (ex + d - T) with (ex - T + d) by lia. eapply dy_eq_trans; [exact Hm|].
  replace (unit_exponent f) with (d - (code_field f code `max` 1 - 1)) by (unfold d, unit_exponent; lia).
  rewrite Hunits. apply dy_eq_sym, dy_eq_scale. lia.
Qed.
End decode.

Section round_trip.
Context {F : Type} `{!BigFloat F, !BigFloatLaws F}.

Lemma nearest_zero f e : nearest_even f 0 e 0.
Proof using.
  pose proof (infinity_sign_mask f). split; [lia|]. intros c Hc. cbv zeta. rewrite units_0, !Z.mul_0_l. split; [|done]. simpl. lia.
Qed.

Lemma nearest_exact f code c : 0 <= c <= infinity f -> nearest_even f (code_units f c) (unit_exponent f) code -> code = c.
Proof using.
  intros Hc [Hr Hn]. destruct (Hn c Hc) as [Hle _]. rewrite Z.min_id, Z.sub_diag, Z.pow_0_r, !Z.mul_1_r in Hle.
  apply (units_inj f); lia.
Qed.

Lemma encode_denotes f p (x : F) s m e :
  denotes p (view x) s m e -> 0 <= m -> fraction_bits f < p -> precision_ok p -> fits_exponent m e ->
  returns (encode f x) (fun bits => exists code, bits = Z.lor (sign_bits f s) code /\ nearest_even f m e code).
Proof using All.
  intros Hd Hm Hp Hpok Hfit. destruct (Z.eq_dec m 0) as [->|Hne].
  - destruct Hd as (words & ex & E1 & E2 & E3 & E4 & _). apply dy_eq_zero in E4. unfold encode. rewrite is_err_number by congruence.
    cbn [negb assert_ outcome_bind]. rewrite is_nan_view, is_inf_view, is_zero_view, sign_view, E1, E4. cbn [Z.eqb]. apply returns_ret.
    exists 0. rewrite Z.lor_0_r. split; [|apply nearest_zero]. unfold sign_bits. destruct s; by repeat case_decide.
  - destruct Hfit as [|Hfit]; [done|]. rewrite Z.abs_eq in Hfit by done.
    destruct (denotes_exponent _ _ _ _ _ Hd) as (ex & Eex & Hex); [lia|]. pose proof (Z.log2_nonneg m).
    destruct (denotes_bits _ _ _ _ _ Hd Hne) as (words & ex' & E1 & E2 & E3 & E4 & E5 & E6).
    rewrite exponent_view, E1 in Eex. injection Eex as ->.
    eapply returns_mono; [apply (encode_number f x s words ex E1 E2 E5); [lia|lia|]|].
    + pose proof (word_size (F := F)). unfold precision_ok, USIZE_MAX in *. lia.
    + intros bits (code & -> & Hn). exists code. split; [done|]. apply Hn. by apply dy_eq_sym.
Qed.

Lemma units_bound f code : 0 <= code < infinity f -> fits_exponent (code_units f code) (unit_exponent f).
Proof using.
  intros Hc. pose proof (units_lt f code (infinity f) Hc) as Hlt. rewrite units_infinity in Hlt.
  pose proof (units_le f 0 code ltac:(lia)) as H0. rewrite units_0 in H0. pose proof (bias_range f). destruct (format_ranges f) as (? & ? & _).
  destruct (Z.eq_dec (code_units f code) 0) as [->|Hne]; [by left|right]. unfold unit_exponent. rewrite Z.abs_eq by lia.
  assert (32 <= 2 ^ exponent_bits f <= 32768) as Hpe by (by destruct f).
  pose proof (Z.log2_nonneg (code_units f code)). apply Z.log2_lt_pow2 in Hlt; [|lia]. lia.
Qed.


(** C19. In each of the four formats, every pattern of bits decodes, with any
    precision of at least 128 bits that the float library accepts, to the float that
    it stands for: codes below that of infinity to zero or the finite number that
    they denote, exactly and with their sign, the code of infinity to the infinity of
    that sign, and all others to NaN.  Encoding that float gives the same bits, or the quiet NaN for any NaN. *)
Theorem encode_decode_round_trip f bits p :
  0 <= bits < 2 * sign_mask f -> 128 <= p -> precision_ok p ->
  returns (decode f bits p) (fun x : F =>
    (forall s code, bits = Z.lor (sign_bits f s) code -> 0 <= code < sign_mask f ->
       if code <? infinity f then denotes p (view x) s (code_units f code) (unit_exponent f)
       else view x = if code =? infinity f then ViewInf s else ViewNaN) /\
    encode f x = Ret (if format_is_nan f bits then nan f else bits)).
Proof using All.
  intros Hb Hp Hpok. destruct (split_bits f bits Hb) as (s & code & -> & Hc). pose proof (infinity_sign_mask f) as Hinf.
  assert (forall s' code', Z.lor (sign_bits f s) code = Z.lor (sign_bits f s') code' -> 0 <= code' < sign_mask f -> s' = s /\ code' = code) as Huniq.
  { intros s' code' E Hc'. pose proof (magnitude_of f s code Hc) as H1. rewrite E, magnitude_of in H1 by lia. split; [|done].
    pose proof (sign_bit_of f s code Hc) as H2. rewrite E, sign_bit_of in H2 by lia. unfold sign_bits in H2. pose proof (sign_mask_range f).
    destruct s, s'; repeat case_decide; try done; lia. }
  unfold format_is_nan. rewrite magnitude_of by done. destruct (Z.lt_ge_cases code (infinity f)) as [Hlt|Hge].
  - eapply returns_mono; [apply (decode_finite f s code p); [lia|done|done]|]. intros x Hd. split.
    + intros s' code' E Hc'. destruct (Huniq s' code' E Hc') as [-> ->]. by destruct (code <? infinity f) eqn:El; [|lia].
    + destruct (infinity f <? code) eqn:E; [lia|]. destruct (format_ranges f) as (? & _).
      pose proof (units_le f 0 code ltac:(lia)) as H0. rewrite units_0 in H0.
      destruct (encode_denotes f p x s _ _ Hd H0 ltac:(lia) Hpok (units_bound f code ltac:(lia))) as (bits & -> & code' & -> & Hn).
      by rewrite (nearest_exact f code' code ltac:(lia) Hn).
  - unfold decode. rewrite bits_fit, magnitude_of, sign_bit_of by lia. cbn [assert_ outcome_bind Z.eqb].
    destruct (infinity f <=? code) eqn:E; [|lia]. apply returns_ret. rewrite sign_bits_sign.
    set (y := if infinity f <? code then NAN else if decide (s = Pos) then INF_POS else INF_NEG).
    assert (view y = if code =? infinity f then ViewInf s else ViewNaN) as Hy.
    { unfold y. destruct (infinity f <? code) eqn:E2, (code =? infinity f) eqn:E3; try lia; [apply nan_view|]. destruct s; case_decide; try done; [apply inf_pos_view|apply inf_neg_view]. }
    split; [intros s' code' E' Hc'; destruct (Huniq s' code' E' Hc') as [-> ->]; by destruct (code <? infinity f) eqn:El; [lia|]|].
    unfold encode. destruct (infinity f <? code) eqn:E2.
    + unfold y. destruct nan_view as [Hv ->]. cbn [negb assert_ outcome_bind]. by rewrite is_nan_view, Hv.
    + assert (code = infinity f) as Ec by lia. rewrite Ec, Z.eqb_refl in Hy. rewrite is_err_number by congruence. cbn [negb assert_ outcome_bind]. rewrite is_nan_view, is_inf_view, sign_view, Hy, Ec.
      unfold sign_bits. destruct s; by repeat case_decide.
Qed.
End round_trip.


(** Too few bits: the 128-bit format retains 113. *)
Lemma encode_short_panics : encode Binary128 (from_u8 (F := big_view) 1 8) = Panic.
Proof. vm_compute. reflexivity. Qed.

(** The smallest negative subnormal number of the 32-bit format, and its positive
    infinity. *)
Lemma encode_decode_round_trip_witness :
  returns (decode (F := big_view) Binary32 2147483649 128) (fun x => encode Binary32 x = Ret 2147483649) /\
  returns (decode (F := big_view) Binary32 2139095040 128) (fun x => view x = ViewInf Pos).
Proof.
  split; eapply returns_mono.
  - apply (encode_decode_round_trip (F := big_view) Binary32 2147483649 128); [split; vm_compute; [discriminate|reflexivity]|lia|].
    unfold precision_ok. lia.
  - intros x [_ H]. exact H.
  - apply (encode_decode_round_trip (F := big_view) Binary32 2139095040 128); [split; vm_compute; [discriminate|reflexivity]|lia|].
    unfold precision_ok. lia.
  - intros x [H _]. apply (H Pos 2139095040); [reflexivity|]. split; vm_compute; [discriminate|reflexivity].
Defined.
