(* ===== verification/NumericRatio.v ===== *)
(** * Rounding a quotient twice

    Rounding to the nearest magnitude of a format, for a rational number, stated
    by distances and by midpoints; and that a quotient which is first rounded to
    a precision that exceeds the bits of both operands and of the format rounds
    to the same magnitude as the exact one, since no midpoint lies between. *)

From Stdlib Require Import ZArith Lia.
From stdpp Require Import base list numbers option.
From S2P Require Import Prelude BigFloat NumericFormat.

Section ratio.
Context (f : BinaryFormat).

(** The magnitude [code] is nearest to [x], and even if another is as near; both
    are scaled, so that a unit of the format is [w]. *)
Definition nearest_scaled (x w code : Z) : Prop :=
  0 <= code <= infinity f /\
  forall c, 0 <= c <= infinity f ->
    Z.abs (x - code_units f code * w) <= Z.abs (x - code_units f c * w) /\
    (Z.abs (x - code_units f code * w) = Z.abs (x - code_units f c * w) -> c <> code -> Z.even code = true).

(** The same for [n * 2^e / d]. *)
Definition nearest_ratio (n d e code : Z) : Prop :=
  let k := e `min` unit_exponent f in nearest_scaled (n * 2 ^ (e - k)) (d * 2 ^ (unit_exponent f - k)) code.

Lemma nearest_scaled_mul x w t code : 0 < t -> nearest_scaled x w code <-> nearest_scaled (x * t) (w * t) code.
Proof.
  intros Ht. assert (forall c, Z.abs (x * t - code_units f c * (w * t)) = Z.abs (x - code_units f c * w) * t) as E.
  { intros c. rewrite Z.mul_assoc, <- Z.mul_sub_distr_r, Z.abs_mul, (Z.abs_eq t) by lia. done. }
  unfold nearest_scaled. split; intros [Hr H]; (split; [done|]); intros c Hc; specialize (H c Hc); rewrite ?E in *; destruct H as [H1 H2].
  - split; [apply Z.mul_le_mono_nonneg_r; lia|]. intros Heq. apply H2. apply (Z.mul_reg_r _ _ t); lia.
  - split; [apply (Z.mul_le_mono_pos_r _ _ t); lia|]. intros Heq. apply H2. by rewrite Heq.
Qed.

Lemma nearest_scaled_at x e w d k k' code :
  k' <= k -> k <= e -> k <= w ->
  nearest_scaled (x * 2 ^ (e - k)) (d * 2 ^ (w - k)) code <-> nearest_scaled (x * 2 ^ (e - k')) (d * 2 ^ (w - k')) code.
Proof.
  intros H1 H2 H3. rewrite (nearest_scaled_mul _ _ (2 ^ (k - k'))) by (apply pow2_pos; lia).
  rewrite <- !Z.mul_assoc, <- !Z.pow_add_r by lia. replace (e - k + (k - k')) with (e - k') by lia. by replace (w - k + (k - k')) with (w - k') by lia.
Qed.

Lemma nearest_ratio_at n d e k code :
  k <= e -> k <= unit_exponent f -> nearest_ratio n d e code <-> nearest_scaled (n * 2 ^ (e - k)) (d * 2 ^ (unit_exponent f - k)) code.
Proof. intros H1 H2. unfold nearest_ratio. cbv zeta. apply nearest_scaled_at; lia. Qed.

Lemma nearest_even_ratio m e code : nearest_even f m e code <-> nearest_ratio m 1 e code.
Proof. unfold nearest_even, nearest_ratio, nearest_scaled. cbv zeta. by rewrite Z.mul_1_l. Qed.

(** Only the value matters. *)
Lemma nearest_ratio_eq n d e n' d' e' code :
  0 < d -> 0 < d' -> dy_eq (n * d') e (n' * d) e' -> nearest_ratio n d e code -> nearest_ratio n' d' e' code.
Proof.
  intros Hd Hd' He. set (k := e `min` e' `min` unit_exponent f).
  rewrite (nearest_ratio_at n d e k), (nearest_ratio_at n' d' e' k) by lia.
  rewrite (nearest_scaled_mul _ _ d' code Hd'), (nearest_scaled_mul (n' * _) _ d code Hd). specialize (He k ltac:(lia) ltac:(lia)).
  replace (n * 2 ^ (e - k) * d') with (n' * 2 ^ (e' - k) * d) by lia.
  by replace (d * 2 ^ (unit_exponent f - k) * d') with (d' * 2 ^ (unit_exponent f - k) * d) by lia.
Qed.

(** Twice the midpoint behind a code. *)
Definition twice_midpoint (c : Z) : Z := code_units f c + code_units f (c + 1).

Definition between_midpoints (x w code : Z) : Prop :=
  0 <= code <= infinity f /\
  (0 < code -> twice_midpoint (code - 1) * w <= 2 * x /\ (twice_midpoint (code - 1) * w = 2 * x -> Z.even code = true)) /\
  (code < infinity f -> 2 * x <= twice_midpoint code * w /\ (2 * x = twice_midpoint code * w -> Z.even code = true)).

Lemma nearest_midpoints x w code : 0 < w -> nearest_scaled x w code <-> between_midpoints x w code.
Proof.
  intros Hw. unfold between_midpoints, twice_midpoint. split.
  - intros [Hr H]. split; [done|]. rewrite Z.sub_add. split; intros Hlt.
    + destruct (H (code - 1) ltac:(lia)) as [H1 H2]. pose proof (units_lt f (code - 1) code ltac:(lia)) as Hu.
      apply (Z.mul_lt_mono_pos_r w) in Hu; [|done]. split; [lia|]. intros E. apply H2; lia.
    + destruct (H (code + 1) ltac:(lia)) as [H1 H2]. pose proof (units_lt f code (code + 1) ltac:(lia)) as Hu.
      apply (Z.mul_lt_mono_pos_r w) in Hu; [|done]. split; [lia|]. intros E. apply H2; lia.
  - intros (Hr & Hlo & Hhi). split; [done|]. rewrite Z.sub_add in Hlo. intros c Hc.
    destruct (Z.lt_trichotomy c code) as [Hlt|[->|Hgt]]; [|done|].
    + destruct (Hlo ltac:(lia)) as [H1 H2]. pose proof (units_lt f c code ltac:(lia)) as Hu. pose proof (units_le f c (code - 1) ltac:(lia)) as Hv.
      apply (Z.mul_lt_mono_pos_r w) in Hu; [|done]. apply (Z.mul_le_mono_nonneg_r _ _ w) in Hv; [|lia].
      split; [lia|]. intros E _. apply H2. lia.
    + destruct (Hhi ltac:(lia)) as [H1 H2]. pose proof (units_lt f code c ltac:(lia)) as Hu. pose proof (units_le f (code + 1) c ltac:(lia)) as Hv.
      apply (Z.mul_lt_mono_pos_r w) in Hu; [|done]. apply (Z.mul_le_mono_nonneg_r _ _ w) in Hv; [|lia].
      split; [lia|]. intros E _. apply H2. lia.
Qed.

(** A midpoint has one bit more than a significand. *)
Lemma midpoint_bits c :
  0 <= c -> exists q g, twice_midpoint c = q * 2 ^ g /\ 0 <= g /\ 0 <= q < 2 ^ (fraction_bits f + 2).
Proof.
  intros Hc. destruct (units_significand f c Hc) as (s & _ & Hs & _ & E). unfold twice_midpoint. rewrite units_step, E by done.
  destruct (format_ranges f) as (? & _). exists (2 * s + 1), (code_field f c `max` 1 - 1). unfold code_gap. split; [lia|]. split; [lia|].
  replace (fraction_bits f + 2) with (1 + (fraction_bits f + 1)) by lia. rewrite (Z.pow_add_r 2 1), Z.pow_1_r by lia. lia.
Qed.

(** A quotient that is not a midpoint keeps away from it. *)
Lemma midpoint_apart n d e q g P k :
  0 < n < 2 ^ P -> 0 < d -> 2 ^ (fraction_bits f + 3) * d <= 2 ^ P -> 0 <= q < 2 ^ (fraction_bits f + 2) -> 2 <= P -> k <= e + 1 -> k <= g ->
  let delta := q * d * 2 ^ (g - k) - n * 2 ^ (e + 1 - k) in
  delta <> 0 -> n * 2 ^ (e + 1 - k) < Z.abs delta * 2 ^ P.
Proof.
  intros Hn Hd HP Hq HP2 H1 H2 delta Hne. set (K := (e + 1) `min` g). destruct (format_ranges f) as (? & _).
  assert (delta = (q * d * 2 ^ (g - K) - n * 2 ^ (e + 1 - K)) * 2 ^ (K - k)) as E.
  { unfold delta. rewrite Z.mul_sub_distr_r, <- !Z.mul_assoc, <- !Z.pow_add_r by lia. do 4 f_equal; lia. }
  set (D := q * d * 2 ^ (g - K) - n * 2 ^ (e + 1 - K)) in *. pose proof (pow2_pos (K - k) ltac:(lia)) as Hp.
  assert (D <> 0) as HD by (intros E0; apply Hne; by rewrite E, E0).
  assert (n * 2 ^ (e + 1 - K) < Z.abs D * 2 ^ P) as Hmain.
  { destruct (Z.le_gt_cases (e + 1) g) as [Hle|Hgt].
    - replace (e + 1 - K) with 0 by lia. rewrite Z.pow_0_r, Z.mul_1_r. apply (Z.lt_le_trans _ (1 * 2 ^ P)); [lia|].
      apply Z.mul_le_mono_nonneg_r; lia.
    - set (n' := n * 2 ^ (e + 1 - K)) in *.
      assert (D = q * d - n') as ED by (unfold D; replace (g - K) with 0 by lia; rewrite Z.pow_0_r; lia).
      assert (0 < n') as Hn' by (apply Z.mul_pos_pos; [lia|apply pow2_pos; lia]).
      assert (4 <= 2 ^ P) as H4 by (change 4 with (2 ^ 2); apply Z.pow_le_mono_r; lia).
      destruct (Z.le_gt_cases (2 * (q * d)) n') as [Hbig|Hsmall].
      + assert (n' <= 2 * Z.abs D) by lia. assert (Z.abs D * 4 <= Z.abs D * 2 ^ P) by (apply Z.mul_le_mono_nonneg_l; lia). lia.
      + assert (2 * (q * d) <= 2 ^ P) as Hqd.
        { apply (Z.le_trans _ (2 ^ (fraction_bits f + 3) * d)); [|done]. replace (fraction_bits f + 3) with (1 + (fraction_bits f + 2)) by lia.
          rewrite (Z.pow_add_r 2 1), Z.pow_1_r, <- Z.mul_assoc by lia. apply Z.mul_le_mono_nonneg_l; [lia|]. apply Z.mul_le_mono_nonneg_r; lia. }
        assert (1 * 2 ^ P <= Z.abs D * 2 ^ P) by (apply Z.mul_le_mono_nonneg_r; lia). lia. }
  rewrite E, Z.abs_mul, (Z.abs_eq (2 ^ (K - k))) by lia.
  replace (n * 2 ^ (e + 1 - k)) with (n * 2 ^ (e + 1 - K) * 2 ^ (K - k)) by (rewrite <- Z.mul_assoc, <- Z.pow_add_r by lia; do 2 f_equal; lia).
  replace (Z.abs D * 2 ^ (K - k) * 2 ^ P) with (Z.abs D * 2 ^ P * 2 ^ (K - k)) by ring. by apply Z.mul_lt_mono_pos_r.
Qed.

(** [m * 2^ee] is the quotient [n * 2^e / d] rounded to [P] bits. *)
Record rounded_quotient (n d e P m ee : Z) : Prop := {
  rq_error k : k <= ee -> k <= e -> Z.abs (m * d * 2 ^ (ee - k) - n * 2 ^ (e - k)) * 2 ^ P <= n * 2 ^ (e - k);
  rq_exact q g : 0 <= q < 2 ^ P -> dy_eq (q * d) g n e -> dy_eq m ee q g;
}.

(** On which side of a midpoint the exact and the rounded quotient lie. *)
Lemma same_side n d e P m ee c k :
  rounded_quotient n d e P m ee -> 0 < n < 2 ^ P -> 0 < d -> 2 ^ (fraction_bits f + 3) * d <= 2 ^ P -> 0 <= c -> 0 <= m ->
  k <= e -> k <= ee -> k < unit_exponent f ->
  let exact := 2 * (n * 2 ^ (e - k)) in
  let near := 2 * (m * 2 ^ (ee - k)) in
  let middle := twice_midpoint c * 2 ^ (unit_exponent f - k) in
  (exact < middle * d <-> near < middle) /\ (exact = middle * d <-> near = middle).
Proof.
  intros [Herr Hexact] Hn Hd HP Hc Hm K1 K2 K3 exact near middle. destruct (midpoint_bits c Hc) as (q & g & Eq & Hg & Hq).
  destruct (format_ranges f) as (? & _).
  assert (fraction_bits f + 3 <= P) as HP3.
  { apply (Z.pow_le_mono_r_iff 2); [lia|destruct (Z.le_gt_cases 0 P); [done|rewrite (Z.pow_neg_r 2 P) in Hn by lia; lia]|].
    apply (Z.le_trans _ (2 ^ (fraction_bits f + 3) * d)); [|done]. pose proof (pow2_pos (fraction_bits f + 3) ltac:(lia)).
    rewrite <- (Z.mul_1_r (2 ^ (fraction_bits f + 3))) at 1. apply Z.mul_le_mono_nonneg_l; lia. }
  assert (middle = q * 2 ^ (g + unit_exponent f - k)) as Em by (unfold middle; rewrite Eq, <- Z.mul_assoc, <- Z.pow_add_r by lia; do 2 f_equal; lia).
  assert (exact = n * 2 ^ (e + 1 - k)) as Ee by (unfold exact; replace (e + 1 - k) with (1 + (e - k)) by lia; rewrite Z.pow_add_r, Z.pow_1_r by lia; ring).
  assert (exact = middle * d -> near = middle) as Heq.
  { intros E. assert (dy_eq m ee q (g + unit_exponent f - 1)) as D.
    { apply Hexact.
      - split; [lia|]. apply (Z.lt_le_trans _ (2 ^ (fraction_bits f + 2))); [lia|]. apply Z.pow_le_mono_r; lia.
      - apply (dy_eq_intro k); [lia|lia|]. apply (Z.mul_reg_l _ _ 2); [lia|]. fold exact. rewrite E, Em.
        replace (g + unit_exponent f - k) with (1 + (g + unit_exponent f - 1 - k)) by lia. rewrite (Z.pow_add_r 2 1), Z.pow_1_r by lia. ring. }
    unfold near. rewrite (D k) by lia. rewrite Em. replace (g + unit_exponent f - k) with (1 + (g + unit_exponent f - 1 - k)) by lia.
    rewrite (Z.pow_add_r 2 1), Z.pow_1_r by lia. ring. }
  assert (exact <> middle * d -> exact < Z.abs (middle * d - exact) * 2 ^ P) as Hapart.
  { intros Hne. rewrite Ee. replace (middle * d) with (q * d * 2 ^ (g + unit_exponent f - k)) by (rewrite Em; ring).
    apply (midpoint_apart n d e q (g + unit_exponent f) P k); try done; try lia. rewrite <- Ee.
    replace (q * d * 2 ^ (g + unit_exponent f - k)) with (middle * d) by (rewrite Em; ring). lia. }
  specialize (Herr k ltac:(lia) ltac:(lia)).
  assert (Z.abs (near * d - exact) * 2 ^ P <= exact) as Herr2.
  { unfold near, exact. replace (2 * (m * 2 ^ (ee - k)) * d - 2 * (n * 2 ^ (e - k))) with (2 * (m * d * 2 ^ (ee - k) - n * 2 ^ (e - k))) by ring.
    rewrite Z.abs_mul, (Z.abs_eq 2) by lia. lia. }
  pose proof (pow2_pos P ltac:(lia)) as HPp.
  assert (exact <> middle * d -> Z.abs (near * d - exact) < Z.abs (middle * d - exact)) as Hcloser.
  { intros Hne. specialize (Hapart Hne). apply (Z.mul_lt_mono_pos_r (2 ^ P)); lia. }
  assert (forall x y, x * d < y * d <-> x < y) as Hcancel by (intros; symmetry; by apply Z.mul_lt_mono_pos_r).
  destruct (Z.lt_trichotomy exact (middle * d)) as [Hlt|[E|Hgt]].
  - specialize (Hcloser ltac:(lia)). assert (near < middle) by (apply Hcancel; lia). lia.
  - specialize (Heq E). lia.
  - specialize (Hcloser ltac:(lia)). assert (middle < near) by (apply Hcancel; lia). lia.
Qed.

Lemma double_rounding n d e P m ee code :
  rounded_quotient n d e P m ee -> 0 < n < 2 ^ P -> 0 < d -> 2 ^ (fraction_bits f + 3) * d <= 2 ^ P -> 0 <= m ->
  nearest_even f m ee code -> nearest_ratio n d e code.
Proof.
  intros Hrq Hn Hd HP Hm Hnear. set (k := e `min` ee `min` (unit_exponent f - 1)).
  apply nearest_even_ratio, (nearest_ratio_at _ _ _ k) in Hnear; [|lia|lia]. apply (nearest_ratio_at _ _ _ k); [lia|lia|].
  pose proof (pow2_pos (unit_exponent f - k) ltac:(lia)) as Hp. rewrite Z.mul_1_l in Hnear.
  apply nearest_midpoints in Hnear; [|lia]. apply nearest_midpoints; [by apply Z.mul_pos_pos|].
  destruct Hnear as (Hr & Hlo & Hhi). split; [done|].
  assert (forall c, twice_midpoint c * (d * 2 ^ (unit_exponent f - k)) = twice_midpoint c * 2 ^ (unit_exponent f - k) * d) as E by (intros; ring).
  split; intros Hc; rewrite E.
  - destruct (same_side n d e P m ee (code - 1) k Hrq Hn Hd HP ltac:(lia) Hm ltac:(lia) ltac:(lia) ltac:(lia)) as [S1 S2].
    destruct (Hlo Hc) as [L1 L2]. split; [lia|]. intros Heq. apply L2. symmetry. apply S2. lia.
  - destruct (same_side n d e P m ee code k Hrq Hn Hd HP ltac:(lia) Hm ltac:(lia) ltac:(lia) ltac:(lia)) as [S1 S2].
    destruct (Hhi Hc) as [L1 L2]. split; [lia|]. intros Heq. apply L2, S2. lia.
Qed.

Lemma nearest_ratio_zero d e : nearest_ratio 0 d e 0.
Proof.
  pose proof (infinity_sign_mask f). split; [lia|]. intros c Hc. rewrite units_0, !Z.mul_0_l. split; [simpl; lia|done].
Qed.
End ratio.
