(* ===== verification/NumericComplex.v ===== *)
(** * Complex arithmetic

    [bray-numeric/src/complex.rs]: products and quotients of complex numbers
    whose components are IEEE numbers.  Intermediate results are exact, and the
    precision of a quotient is chosen so that rounding it to the format is the
    same as rounding the exact quotient once. *)

From Stdlib Require Import ZArith Lia.
From stdpp Require Import base list numbers option.
From S2P Require Import Prelude BigFloat NumericFormat NumericRatio.

(** ** complex.rs *)

Definition INPUT_PRECISION : usize := 128.

Definition usize_add (a b : usize) : outcome usize := expect (usize_checked_add a b).

Section complex.
Context {F : Type} `{!BigFloat F}.

(** [mantissa_max_bit_len().unwrap_or(INPUT_PRECISION)] *)
Definition bit_len (x : F) : usize := default INPUT_PRECISION (mantissa_max_bit_len x).

Definition product (left right : F) : outcome F :=
  let! precision := usize_add (bit_len left) (bit_len right) in
  let result := big_mul left right precision in
  Ret (if is_zero result then set_sign result (if decide (big_sign left = big_sign right) then Pos else Neg) else result).

Definition sum_precision (left right : F) : outcome usize :=
  if is_zero left then Ret (bit_len right)
  else if is_zero right then Ret (bit_len left)
  else
    let gap := Z.abs (default 0 (big_exponent left) - default 0 (big_exponent right)) in
    let! precision := usize_add (bit_len left `max` bit_len right) gap in
    usize_add precision 1.

Definition rounded_sum (left right : F) (precision : usize) : F :=
  let result := big_add left right precision in
  if is_zero result && negb (bool_decide (big_sign left = big_sign right)) then set_sign result Pos else result.

Definition rounded_difference (left right : F) (precision : usize) : F :=
  let result := big_sub left right precision in
  if is_zero result
  then
    let negative := is_zero left && is_zero right && bool_decide (big_sign left = Some Neg) && bool_decide (big_sign right = Some Pos) in
    set_sign result (if negative then Neg else Pos)
  else result.

Definition sum (left right : F) : outcome F :=
  let! precision := sum_precision left right in Ret (rounded_sum left right precision).

Definition difference (left right : F) : outcome F :=
  let! precision := sum_precision left right in Ret (rounded_difference left right precision).

Definition decode_component (format : BinaryFormat) (recover_infinity has_infinity : bool) (bits : Z) : outcome F :=
  let sign := Z.land bits (sign_mask format) in
  let! magnitude :=
    if recover_infinity && has_infinity
    then
      if format_is_infinite format bits then encode format (from_u8 (F := F) 1 INPUT_PRECISION) else Ret 0
    else if recover_infinity && format_is_nan format bits then Ret 0
    else Ret (Z.land bits (u128_not (sign_mask format))) in
  decode format (Z.lor sign magnitude) INPUT_PRECISION.

Definition complex_decode (format : BinaryFormat) (bits : Z * Z) (recover_infinity : bool) : outcome (F * F) :=
  let has_infinity := format_is_infinite format bits.1 || format_is_infinite format bits.2 in
  let! real := decode_component format recover_infinity has_infinity bits.1 in
  let! imaginary := decode_component format recover_infinity has_infinity bits.2 in
  Ret (real, imaginary).

Definition encode_component (format : BinaryFormat) (scale : option F) (value : F) : outcome Z :=
  encode format (match scale with Some scale => big_mul value scale INPUT_PRECISION | None => value end).

Definition complex_encode (format : BinaryFormat) (values : F * F) (scale : option F) : outcome (Z * Z) :=
  let! real := encode_component format scale values.1 in
  let! imaginary := encode_component format scale values.2 in
  Ret (real, imaginary).

Definition multiply (format : BinaryFormat) (left right : Z * Z) : outcome (Z * Z) :=
  let infinite := format_is_infinite format left.1 || format_is_infinite format left.2 ||
                  format_is_infinite format right.1 || format_is_infinite format right.2 in
  let! left := complex_decode format left infinite in
  let! right := complex_decode format right infinite in
  let! a := product left.1 right.1 in
  let! b := product left.2 right.2 in
  let! real := difference a b in
  let! c := product left.1 right.2 in
  let! d := product left.2 right.1 in
  let! imaginary := sum c d in
  complex_encode format (real, imaginary) (if infinite then Some INF_POS else None).

Definition divide (format : BinaryFormat) (left right : Z * Z) : outcome (Z * Z) :=
  let left_infinite := format_is_infinite format left.1 || format_is_infinite format left.2 in
  let right_infinite := format_is_infinite format right.1 || format_is_infinite format right.2 in
  let right_zero := format_is_zero format right.1 && format_is_zero format right.2 in
  if right_zero
  then
    let sign := Z.land right.1 (sign_mask format) in
    let! infinity := decode format (Z.lor (infinity format) sign) INPUT_PRECISION in
    let! left := complex_decode format left false in
    complex_encode format left (Some infinity)
  else if left_infinite && right_infinite then Ret (nan format, nan format)
  else
    let! numerator := complex_decode format left left_infinite in
    let! denominator := complex_decode format right right_infinite in
    let! a := product numerator.1 denominator.1 in
    let! b := product numerator.2 denominator.2 in
    let! real := sum a b in
    let! c := product numerator.2 denominator.1 in
    let! d := product numerator.1 denominator.2 in
    let! imaginary := difference c d in
    if left_infinite || right_infinite
    then complex_encode format (real, imaginary) (Some (if left_infinite then INF_POS else from_u8 0 INPUT_PRECISION))
    else
      let! e := product denominator.1 denominator.1 in
      let! f := product denominator.2 denominator.2 in
      let! divisor := sum e f in
      let numerator_precision := bit_len real `max` bit_len imaginary in
      let! precision := usize_add numerator_precision (bit_len divisor) in
      let! precision := usize_add precision (fraction_bits format) in
      let! precision := usize_add precision 1 in
      let! precision := usize_add precision (WORD_BIT_SIZE (F := F)) in
      complex_encode format (big_div real divisor precision, big_div imaginary divisor precision) None.
End complex.

(** The arithmetic of the model on numbers of the 64-bit format: [(3 + 4i) / (1 + 2i)]
    is [2.2 - 0.4i], and [(1 + i)^2] is [2i]. *)
Definition one64 : Z := 4607182418800017408.

Example complex_samples :
  multiply (F := big_view) Binary64 (one64, one64) (one64, one64) = Ret (0, 4611686018427387904) /\
  divide (F := big_view) Binary64 (4613937818241073152, 4616189618054758400) (one64, 4611686018427387904) =
    Ret (4612136378390124954, 13824249416176474522).
Proof. split; vm_compute; reflexivity. Qed.

(** ** Exact intermediate results *)

Section exact.
Context {F : Type} `{!BigFloat F, !BigFloatLaws F}.

Lemma denotes_dy p v s m e m' e' : denotes (F := F) p v s m e -> dy_eq m e m' e' -> denotes (F := F) p v s m' e'.
Proof using.
  intros (words & ex & H1 & H2 & H3 & H4 & H5) Hd. exists words, ex. do 3 (split; [done|]). split; [by eapply dy_eq_trans|].
  destruct H5 as [->|H5]; [left; by apply dy_eq_sym, dy_eq_zero in Hd|by right].
Qed.

(** A number at the exponent of its own mantissa. *)
Lemma denotes_mantissa q (x : F) s m e :
  denotes q (view x) s m e ->
  exists T M y, mantissa_max_bit_len x = Some T /\ q <= T < q + 64 /\ 0 <= M < 2 ^ T /\ dy_eq M y m e /\ denotes q (view x) s M y.
Proof using All.
  intros Hd. pose proof Hd as (words & ex & H1 & H2 & H3 & H4 & _). pose proof (word_size (F := F)).
  exists (mantissa_bits (F := F) words), (mantissa (WORD_BIT_SIZE (F := F)) words), (ex - mantissa_bits (F := F) words).
  split; [by rewrite bit_len_view, H1|]. split; [lia|]. split; [apply mantissa_bounds; [lia|done]|]. split; [done|].
  eapply denotes_dy; [exact Hd|]. by apply dy_eq_sym.
Qed.

Lemma denotes_holds q (x : F) s m e : 0 <= m -> denotes q (view x) s m e -> holds q (view x) (signed s m) e.
Proof using.
  intros Hm Hd. exists s. rewrite signed_abs by done. split; [done|]. intros Hne. symmetry. apply sign_of_signed. destruct s; simpl in Hne; lia.
Qed.

Lemma holds_denotes p (x : F) n e : holds p (view x) n e -> n <> 0 -> denotes p (view x) (sign_of n) (Z.abs n) e.
Proof using. intros (s & Hd & Hs) Hne. by rewrite <- Hs. Qed.

Lemma denotes_sign q (x : F) s m e : denotes q (view x) s m e -> big_sign x = Some s.
Proof using. intros (words & ex & H1 & _). by rewrite sign_view, H1. Qed.

Lemma denotes_is_zero q (x : F) s m e : denotes q (view x) s m e -> is_zero x = (m =? 0).
Proof using.
  intros (words & ex & H1 & _ & _ & H4 & _). rewrite is_zero_view, H1. apply eq_true_iff_eq. rewrite !Z.eqb_eq. split; intros E.
  - rewrite E in H4. by apply dy_eq_sym, dy_eq_zero in H4.
  - rewrite E in H4. by apply dy_eq_zero in H4.
Qed.

Lemma sign_of_product s1 s2 m1 m2 : 0 < m1 -> 0 < m2 -> sign_of (signed s1 m1 * signed s2 m2) = sign_xor s1 s2.
Proof using.
  intros H1 H2. assert (0 < m1 * m2) by (by apply Z.mul_pos_pos). unfold sign_of, sign_xor.
  destruct s1, s2; cbn [signed]; repeat case_decide; try done; match goal with |- context [?a <? 0] => destruct (a <? 0) eqn:E end; done || lia.
Qed.

(** Exponents and precisions far from their limits. *)
Definition moderate (m e : Z) (L : Z) : Prop := 0 <= m < 2 ^ L /\ - 2 ^ 29 <= e /\ e + L < 2 ^ 29 /\ 0 <= L.

Lemma bounded_fits m e L : 0 <= m < 2 ^ L -> - 2 ^ 30 <= e -> e + L < 2 ^ 30 -> 0 <= L -> fits_exponent m e.
Proof using.
  intros H1 H2 H3 H4. destruct (Z.eq_dec m 0) as [->|Hne]; [by left|right]. rewrite Z.abs_eq by lia.
  pose proof (Z.log2_nonneg m). assert (Z.log2 m < L) by (apply Z.log2_lt_pow2; lia). lia.
Qed.

Lemma fits_dy m e m' e' : 0 <= m -> 0 <= m' -> dy_eq m e m' e' -> fits_exponent m e -> fits_exponent m' e'.
Proof using.
  intros Hm Hm' Hd [->|H]; [left; by apply dy_eq_sym, dy_eq_zero in Hd|]. destruct (Z.eq_dec m 0) as [->|Hne]; [left; by apply dy_eq_sym, dy_eq_zero in Hd|].
  assert (m' <> 0) as Hne' by (intros ->; by apply dy_eq_zero in Hd). pose proof (dy_eq_log2 m e m' e' ltac:(lia) ltac:(lia) Hd).
  right. rewrite !Z.abs_eq in * by lia. lia.
Qed.

Lemma usize_add_ok a b : 0 <= a + b <= 2 ^ 40 -> usize_add a b = Ret (a + b).
Proof using. intros H. unfold usize_add, usize_checked_add. rewrite checked_ok by (unfold USIZE_MAX; lia). done. Qed.

Lemma product_ok q1 q2 (x y : F) s1 m1 e1 s2 m2 e2 :
  denotes q1 (view x) s1 m1 e1 -> denotes q2 (view y) s2 m2 e2 -> 0 <= m1 -> 0 <= m2 -> 0 < q1 <= 2 ^ 30 -> 0 < q2 <= 2 ^ 30 ->
  fits_exponent (m1 * m2) (e1 + e2) ->
  returns (product x y) (fun r => exists P, q1 + q2 <= P < q1 + q2 + 128 /\ denotes P (view r) (sign_xor s1 s2) (m1 * m2) (e1 + e2)).
Proof using All.
  intros Hx Hy Hm1 Hm2 Hq1 Hq2 Hfit. unfold product, bit_len.
  destruct (denotes_mantissa _ _ _ _ _ Hx) as (T1 & M1 & y1 & -> & HT1 & HM1 & D1 & Hx').
  destruct (denotes_mantissa _ _ _ _ _ Hy) as (T2 & M2 & y2 & -> & HT2 & HM2 & D2 & Hy').
  cbn [default from_option id]. rewrite usize_add_ok by lia. cbn [outcome_bind]. apply returns_ret. exists (T1 + T2). split; [lia|].
  pose proof (dy_eq_mul _ _ _ _ _ _ _ _ D1 D2) as D. assert (0 <= M1 * M2) as HMM by (apply Z.mul_nonneg_nonneg; lia).
  assert (0 <= m1 * m2) as Hmm by (apply Z.mul_nonneg_nonneg; lia).
  assert (Z.abs (signed s1 M1 * signed s2 M2) = M1 * M2) as Habs by (rewrite Z.abs_mul, !signed_abs by lia; done).
  assert (precision_ok (T1 + T2)) as Hp by (unfold precision_ok; lia).
  assert (holds (T1 + T2) (view (big_mul x y (T1 + T2))) (signed s1 M1 * signed s2 M2) (y1 + y2)) as Hh.
  { eapply mul_exact; [apply denotes_holds; [lia|exact Hx']|apply denotes_holds; [lia|exact Hy']| |done|].
    - rewrite Habs, Z.pow_add_r by lia. apply Z.mul_lt_mono_nonneg; lia.
    - destruct (fits_dy _ _ _ _ Hmm HMM (dy_eq_sym _ _ _ _ D) Hfit) as [E|H]; [left; destruct s1, s2; simpl; lia|right; by rewrite Habs, <- (Z.abs_eq (M1 * M2))]. }
  rewrite (denotes_sign _ _ _ _ _ Hx), (denotes_sign _ _ _ _ _ Hy). destruct (Z.eq_dec (M1 * M2) 0) as [E0|Hne].
  - destruct Hh as (s & Hd & _). rewrite Habs, E0 in Hd. rewrite (denotes_is_zero _ _ _ _ _ Hd). cbn [Z.eqb].
    replace (if decide (Some s1 = Some s2) then Pos else Neg) with (sign_xor s1 s2) by (unfold sign_xor; destruct s1, s2; by repeat case_decide).
    eapply set_sign_denotes, denotes_dy; [exact Hd|]. by rewrite <- E0.
  - assert (signed s1 M1 * signed s2 M2 <> 0) as Hne' by lia. apply holds_denotes in Hh; [|done].
    assert (0 < M1 /\ 0 < M2) as [Hp1 Hp2] by (split; apply Z.le_neq; split; try lia; intros <-; apply Hne; lia).
    rewrite Habs, sign_of_product in Hh by done. rewrite (denotes_is_zero _ _ _ _ _ Hh). destruct (M1 * M2 =? 0) eqn:E; [lia|].
    eapply denotes_dy; [exact Hh|exact D].
Qed.

(** The precision of a sum has room for both terms at a common exponent. *)
Lemma sum_precision_ok q1 q2 (x y : F) s1 m1 s2 m2 e L :
  denotes q1 (view x) s1 m1 e -> denotes q2 (view y) s2 m2 e -> moderate m1 e L -> moderate m2 e L ->
  0 < q1 <= 2 ^ 30 -> 0 < q2 <= 2 ^ 30 -> L <= 2 ^ 30 ->
  returns (sum_precision x y) (fun P => q1 `min` q2 <= P <= q1 `max` q2 + 65 + L /\
    exists n1 n2 k, 0 <= n1 /\ 0 <= n2 /\ dy_eq n1 k m1 e /\ dy_eq n2 k m2 e /\ n1 + n2 < 2 ^ P).
Proof using All.
  intros Hx Hy (Hm1 & He & HeL & HL) (Hm2 & _) Hq1 Hq2 HL2. unfold sum_precision, bit_len.
  rewrite (denotes_is_zero _ _ _ _ _ Hx), (denotes_is_zero _ _ _ _ _ Hy).
  destruct (denotes_mantissa _ _ _ _ _ Hx) as (T1 & M1 & y1 & -> & HT1 & HM1 & D1 & Hx').
  destruct (denotes_mantissa _ _ _ _ _ Hy) as (T2 & M2 & y2 & -> & HT2 & HM2 & D2 & Hy'). cbn [default from_option id].
  destruct (m1 =? 0) eqn:E1.
  { apply returns_ret. split; [lia|]. assert (m1 = 0) as -> by lia. exists 0, M2, y2. split_and!; [lia|lia|by apply dy_eq_zero|done|lia]. }
  destruct (m2 =? 0) eqn:E2.
  { apply returns_ret. split; [lia|]. assert (m2 = 0) as -> by lia. exists M1, 0, y1. split_and!; [lia|lia|done|by apply dy_eq_zero|lia]. }
  destruct (denotes_exponent _ _ _ _ _ Hx) as (x1 & -> & X1); [lia|]. destruct (denotes_exponent _ _ _ _ _ Hy) as (x2 & -> & X2); [lia|].
  cbn [default from_option id]. assert (Z.log2 m1 < L) by (apply Z.log2_lt_pow2; lia). assert (Z.log2 m2 < L) by (apply Z.log2_lt_pow2; lia).
  pose proof (Z.log2_nonneg m1). pose proof (Z.log2_nonneg m2).
  rewrite usize_add_ok by lia. cbn [outcome_bind]. rewrite usize_add_ok by lia. apply returns_ret. split; [lia|].
  assert (M1 <> 0) by (intros ->; apply dy_eq_sym, dy_eq_zero in D1; lia). assert (M2 <> 0) by (intros ->; apply dy_eq_sym, dy_eq_zero in D2; lia).
  pose proof (dy_eq_log2 M1 y1 m1 e ltac:(lia) ltac:(lia) D1) as L1. pose proof (dy_eq_log2 M2 y2 m2 e ltac:(lia) ltac:(lia) D2) as L2.
  assert (Z.log2 M1 < T1) by (apply Z.log2_lt_pow2; lia). assert (Z.log2 M2 < T2) by (apply Z.log2_lt_pow2; lia).
  set (k := y1 `min` y2). exists (M1 * 2 ^ (y1 - k)), (M2 * 2 ^ (y2 - k)), k.
  pose proof (pow2_pos (y1 - k) ltac:(lia)). pose proof (pow2_pos (y2 - k) ltac:(lia)).
  split; [apply Z.mul_nonneg_nonneg; lia|]. split; [apply Z.mul_nonneg_nonneg; lia|].
  assert (forall M y, k <= y -> dy_eq (M * 2 ^ (y - k)) k M y) as Hs.
  { intros M z Hz. replace k with (z - (z - k)) at 2 by lia. apply dy_eq_scale. lia. }
  split; [eapply dy_eq_trans; [apply Hs; lia|done]|]. split; [eapply dy_eq_trans; [apply Hs; lia|done]|].
  pose proof (log2_bounds M1 ltac:(lia)) as B1. pose proof (log2_bounds M2 ltac:(lia)) as B2. set (X := x1 `max` x2).
  assert (forall M y, 0 < M -> 0 <= Z.log2 M -> k <= y -> y + Z.log2 M + 1 <= X -> M * 2 ^ (y - k) < 2 ^ (X - k)) as Hb.
  { intros M z HM HlM Hz Hle. pose proof (log2_bounds M HM) as B. apply (Z.lt_le_trans _ (2 ^ (Z.log2 M + 1) * 2 ^ (z - k))).
    - apply Z.mul_lt_mono_pos_r; [apply pow2_pos|]; lia.
    - rewrite <- Z.pow_add_r by lia. apply Z.pow_le_mono_r; lia. }
  pose proof (Hb M1 y1 ltac:(lia) (Z.log2_nonneg M1) ltac:(lia) ltac:(lia)). pose proof (Hb M2 y2 ltac:(lia) (Z.log2_nonneg M2) ltac:(lia) ltac:(lia)).
  apply (Z.lt_le_trans _ (2 ^ (X - k + 1))); [rewrite Z.pow_add_r, Z.pow_1_r by (pose proof (Z.log2_nonneg M1); pose proof (Z.log2_nonneg M2); lia); lia|].
  apply Z.pow_le_mono_r; lia.
Qed.

Definition exact_sign (n : Z) (zero : Sign) : Sign := if n =? 0 then zero else sign_of n.

(** Both operations on the common exponent, given what the library does there. *)
Lemma combine_ok q1 q2 (x y : F) s1 m1 s2 m2 e L (op : F -> F -> usize -> F) (n : Z -> Z -> Z) zero :
  denotes q1 (view x) s1 m1 e -> denotes q2 (view y) s2 m2 e -> moderate m1 e L -> moderate m2 e L ->
  0 < q1 <= 2 ^ 30 -> 0 < q2 <= 2 ^ 30 -> L <= 2 ^ 30 ->
  (forall a b c, n a b * c = n (a * c) (b * c)) -> (forall a b, Z.abs (n (signed s1 a) (signed s2 b)) <= Z.abs a + Z.abs b) ->
  (forall P n1 n2 k, precision_ok P -> denotes q1 (view x) s1 n1 k -> denotes q2 (view y) s2 n2 k -> 0 <= n1 -> 0 <= n2 ->
    Z.abs (n (signed s1 n1) (signed s2 n2)) < 2 ^ P -> fits_exponent (n (signed s1 n1) (signed s2 n2)) k ->
    denotes P (view (op x y P)) (exact_sign (n (signed s1 n1) (signed s2 n2)) zero) (Z.abs (n (signed s1 n1) (signed s2 n2))) k) ->
  returns (let! precision := sum_precision x y in Ret (op x y precision)) (fun r => exists P,
    q1 `min` q2 <= P <= q1 `max` q2 + 65 + L /\
    denotes P (view r) (exact_sign (n (signed s1 m1) (signed s2 m2)) zero) (Z.abs (n (signed s1 m1) (signed s2 m2))) e).
Proof using All.
  intros Hx Hy Hmod1 Hmod2 Hq1 Hq2 HL Hlin Habs Hop.
  eapply returns_bind; [by apply (sum_precision_ok q1 q2 x y s1 m1 s2 m2 e L)|]. intros P (HP & n1 & n2 & k & Hn1 & Hn2 & D1 & D2 & Hlt).
  apply returns_ret. exists P. split; [done|].
  assert (dy_eq (n (signed s1 n1) (signed s2 n2)) k (n (signed s1 m1) (signed s2 m2)) e) as D.
  { intros j J1 J2. rewrite !Hlin. apply (dy_eq_signed s1) in D1. apply (dy_eq_signed s2) in D2. by rewrite (D1 j J1 J2), (D2 j J1 J2). }
  destruct Hmod1 as (Hm1 & He & HeL & HL0). destruct Hmod2 as (Hm2 & _).
  pose proof (Habs n1 n2) as Hn. pose proof (Habs m1 m2) as Hm. rewrite (Z.abs_eq n1), (Z.abs_eq n2) in Hn by lia. rewrite (Z.abs_eq m1), (Z.abs_eq m2) in Hm by lia.
  set (N := n (signed s1 n1) (signed s2 n2)) in *. set (N' := n (signed s1 m1) (signed s2 m2)) in *.
  assert (precision_ok P) as Hpok by (unfold precision_ok; lia).
  assert (fits_exponent (Z.abs N') e) as Hfit.
  { apply (bounded_fits _ _ (L + 1)); [rewrite Z.pow_add_r, Z.pow_1_r by lia; lia|lia|lia|lia]. }
  pose proof (fits_dy _ _ _ _ (Z.abs_nonneg N') (Z.abs_nonneg N) (dy_eq_sym _ _ _ _ (dy_eq_abs _ _ _ _ D)) Hfit) as Hfit'.
  pose proof (Hop P n1 n2 k Hpok) as H. fold N in H. eapply denotes_dy; [|by apply dy_eq_abs].
  replace (exact_sign N' zero) with (exact_sign N zero).
  - apply H; [eapply denotes_dy; [exact Hx|by apply dy_eq_sym]|eapply denotes_dy; [exact Hy|by apply dy_eq_sym]|done|done|lia|].
    destruct Hfit' as [E|E]; [left; lia|right; by rewrite Z.abs_involutive in E].
  - unfold exact_sign, sign_of. specialize (D (k `min` e) ltac:(lia) ltac:(lia)).
    pose proof (pow2_pos (k - k `min` e) ltac:(lia)) as P1. pose proof (pow2_pos (e - k `min` e) ltac:(lia)) as P2.
    destruct (N =? 0) eqn:E1, (N' =? 0) eqn:E2, (N <? 0) eqn:E3, (N' <? 0) eqn:E4; try done; nia.
Qed.

Lemma sum_ok q1 q2 (x y : F) s1 m1 s2 m2 e L :
  denotes q1 (view x) s1 m1 e -> denotes q2 (view y) s2 m2 e -> moderate m1 e L -> moderate m2 e L ->
  0 < q1 <= 2 ^ 30 -> 0 < q2 <= 2 ^ 30 -> L <= 2 ^ 30 ->
  returns (sum x y) (fun r => exists P, q1 `min` q2 <= P <= q1 `max` q2 + 65 + L /\
    denotes P (view r) (exact_sign (signed s1 m1 + signed s2 m2) (if decide (s1 = s2) then s1 else Pos)) (Z.abs (signed s1 m1 + signed s2 m2)) e).
Proof using All.
  intros Hx Hy H1 H2 Hq1 Hq2 HL.
  apply (combine_ok q1 q2 x y s1 m1 s2 m2 e L rounded_sum Z.add (if decide (s1 = s2) then s1 else Pos)); try done; [intros; ring|destruct s1, s2; simpl; lia|].
  intros P n1 n2 k HP Hdx Hdy Hn1 Hn2 Hlt Hfit. unfold rounded_sum. rewrite (denotes_sign _ _ _ _ _ Hdx), (denotes_sign _ _ _ _ _ Hdy).
  pose proof (add_exact x y q1 q2 _ _ k P (denotes_holds _ _ _ _ _ Hn1 Hdx) (denotes_holds _ _ _ _ _ Hn2 Hdy) Hlt HP Hfit) as Hh.
  set (S := signed s1 n1 + signed s2 n2) in *. unfold exact_sign. destruct (S =? 0) eqn:E0.
  - assert (S = 0) as ES by lia. rewrite ES. cbn [Z.abs]. destruct (decide (s1 = s2)) as [<-|Hne].
    + assert (n1 = 0) as -> by (unfold S in ES; destruct s1; simpl in ES; lia). assert (n2 = 0) as -> by (unfold S in ES; destruct s1; simpl in ES; lia).
      pose proof (add_zeros x y q1 q2 s1 k P Hdx Hdy HP) as Hz. rewrite (denotes_is_zero _ _ _ _ _ Hz). by rewrite bool_decide_eq_true_2.
    + destruct Hh as (t & Hd & _). rewrite ES in Hd. rewrite (denotes_is_zero _ _ _ _ _ Hd).
      rewrite bool_decide_eq_false_2 by congruence. cbn [Z.eqb Z.abs andb negb]. by eapply set_sign_denotes.
  - apply holds_denotes in Hh; [|lia]. rewrite (denotes_is_zero _ _ _ _ _ Hh). destruct (Z.abs S =? 0) eqn:E; [lia|]. done.
Qed.

Lemma difference_ok q1 q2 (x y : F) s1 m1 s2 m2 e L :
  denotes q1 (view x) s1 m1 e -> denotes q2 (view y) s2 m2 e -> moderate m1 e L -> moderate m2 e L ->
  0 < q1 <= 2 ^ 30 -> 0 < q2 <= 2 ^ 30 -> L <= 2 ^ 30 ->
  returns (difference x y) (fun r => exists P, q1 `min` q2 <= P <= q1 `max` q2 + 65 + L /\
    denotes P (view r) (exact_sign (signed s1 m1 - signed s2 m2) (if decide (s1 = Neg /\ s2 = Pos) then Neg else Pos))
      (Z.abs (signed s1 m1 - signed s2 m2)) e).
Proof using All.
  intros Hx Hy H1 H2 Hq1 Hq2 HL.
  apply (combine_ok q1 q2 x y s1 m1 s2 m2 e L rounded_difference Z.sub (if decide (s1 = Neg /\ s2 = Pos) then Neg else Pos)); try done;
    [intros; ring|destruct s1, s2; simpl; lia|].
  intros P n1 n2 k HP Hdx Hdy Hn1 Hn2 Hlt Hfit. unfold rounded_difference. rewrite (denotes_sign _ _ _ _ _ Hdx), (denotes_sign _ _ _ _ _ Hdy).
  rewrite (denotes_is_zero _ _ _ _ _ Hdx), (denotes_is_zero _ _ _ _ _ Hdy).
  pose proof (sub_exact x y q1 q2 _ _ k P (denotes_holds _ _ _ _ _ Hn1 Hdx) (denotes_holds _ _ _ _ _ Hn2 Hdy) Hlt HP Hfit) as Hh.
  set (S := signed s1 n1 - signed s2 n2) in *. unfold exact_sign. destruct (S =? 0) eqn:E0.
  - assert (S = 0) as ES by lia. rewrite ES in *. destruct Hh as (t & Hd & _). rewrite (denotes_is_zero _ _ _ _ _ Hd). cbn [Z.eqb Z.abs].
    replace (if (n1 =? 0) && (n2 =? 0) && bool_decide (Some s1 = Some Neg) && bool_decide (Some s2 = Some Pos) then Neg else Pos)
      with (if decide (s1 = Neg /\ s2 = Pos) then Neg else Pos); [by eapply set_sign_denotes|].
    unfold S in ES. destruct (decide (s1 = Neg /\ s2 = Pos)) as [[-> ->]|Hn].
    + simpl in ES. assert (n1 = 0) as -> by lia. assert (n2 = 0) as -> by lia. by rewrite !bool_decide_eq_true_2.
    + destruct (bool_decide_reflect (Some s1 = Some Neg)), (bool_decide_reflect (Some s2 = Some Pos)); rewrite ?andb_false_r; try done.
      exfalso. apply Hn. split; congruence.
  - apply holds_denotes in Hh; [|lia]. rewrite (denotes_is_zero _ _ _ _ _ Hh). destruct (Z.abs S =? 0) eqn:E; [lia|]. done.
Qed.

(** ** Finite components *)

(** The signed value of a component, in units of the format. *)
Definition finite_component (f : BinaryFormat) (bits : Z) (s : Sign) (code : Z) : Prop :=
  bits = Z.lor (sign_bits f s) code /\ 0 <= code < infinity f.

Lemma finite_not_infinite f bits s code : finite_component f bits s code -> format_is_infinite f bits = false /\ format_is_zero f bits = (code =? 0).
Proof using.
  intros [-> Hc]. pose proof (infinity_sign_mask f). unfold format_is_infinite, format_is_zero. rewrite magnitude_of by lia.
  split; [|done]. destruct (code =? infinity f) eqn:E; [lia|done].
Qed.

Lemma component_ok f bits s code inf :
  finite_component f bits s code ->
  returns (decode_component (F := F) f false inf bits) (fun x => denotes 128 (view x) s (code_units f code) (unit_exponent f)).
Proof using All.
  intros [-> Hc]. pose proof (infinity_sign_mask f). unfold decode_component. cbn [andb outcome_bind].
  rewrite magnitude_of, sign_bit_of by lia. apply decode_finite; [done|lia|unfold precision_ok; lia].
Qed.

Lemma complex_decode_ok f b1 b2 s1 c1 s2 c2 :
  finite_component f b1 s1 c1 -> finite_component f b2 s2 c2 ->
  returns (complex_decode (F := F) f (b1, b2) false) (fun x =>
    denotes 128 (view x.1) s1 (code_units f c1) (unit_exponent f) /\ denotes 128 (view x.2) s2 (code_units f c2) (unit_exponent f)).
Proof using All.
  intros H1 H2. unfold complex_decode. cbn [fst snd]. eapply returns_bind; [by eapply component_ok|]. intros x Hx.
  eapply returns_bind; [by eapply component_ok|]. intros y Hy. by apply returns_ret.
Qed.

(** Every format is far from the limits: its numbers have fewer than
    [component_room] bits above the unit. *)
Definition component_room : Z := 65536.

Lemma component_room_eq : component_room = 65536.
Proof using. done. Qed.

#[local] Opaque component_room.

Lemma units_room f c : 0 <= c < infinity f -> 0 <= code_units f c < 2 ^ component_room.
Proof using.
  intros Hc. destruct (format_ranges f) as (? & ? & _). pose proof component_room_eq.
  pose proof (units_lt f c (infinity f) Hc) as Hlt. pose proof (units_le f 0 c ltac:(lia)) as Hz. rewrite units_0 in Hz.
  rewrite units_infinity in Hlt. split; [done|]. apply (Z.lt_le_trans _ _ _ Hlt). apply Z.pow_le_mono_r; [lia|].
  assert (2 ^ exponent_bits f <= 2 ^ 15) by (apply Z.pow_le_mono_r; lia). lia.
Qed.

Lemma units_moderate f c1 c2 :
  0 <= c1 < infinity f -> 0 <= c2 < infinity f ->
  moderate (code_units f c1 * code_units f c2) (unit_exponent f + unit_exponent f) (component_room + component_room).
Proof using.
  intros H1 H2. pose proof (bias_range f). destruct (format_ranges f) as (? & ? & _). pose proof component_room_eq.
  destruct (units_room f c1 H1). destruct (units_room f c2 H2). unfold moderate, unit_exponent. split; [|lia].
  split; [by apply Z.mul_nonneg_nonneg|]. rewrite Z.pow_add_r by lia. by apply Z.mul_lt_mono_nonneg.
Qed.

Lemma signed_product s1 s2 m1 m2 : signed (sign_xor s1 s2) (m1 * m2) = signed s1 m1 * signed s2 m2.
Proof using. unfold sign_xor. destruct s1, s2; case_decide; try done; cbn [signed]; ring. Qed.

(** The bits are [n * 2^e] rounded once, with its sign; a zero has the sign given. *)
Definition rounds_to (f : BinaryFormat) (bits : Z) (n e : Z) (zero : Sign) : Prop :=
  exists code, bits = Z.lor (sign_bits f (exact_sign n zero)) code /\ nearest_even f (Z.abs n) e code.

Lemma encode_component_ok f P (x : F) n e zero :
  denotes P (view x) (exact_sign n zero) (Z.abs n) e -> 128 <= P -> precision_ok P -> fits_exponent (Z.abs n) e ->
  returns (encode_component f None x) (fun bits => rounds_to f bits n e zero).
Proof using All.
  intros Hd HP Hok Hfit. destruct (format_ranges f) as (? & _). unfold encode_component. apply (encode_denotes f P x); [done|lia|lia|done|done].
Qed.

Lemma product_units f (x y : F) s1 c1 s2 c2 :
  denotes 128 (view x) s1 (code_units f c1) (unit_exponent f) -> denotes 128 (view y) s2 (code_units f c2) (unit_exponent f) ->
  0 <= c1 < infinity f -> 0 <= c2 < infinity f ->
  returns (product x y) (fun r => exists P, 256 <= P < 384 /\
    denotes P (view r) (sign_xor s1 s2) (code_units f c1 * code_units f c2) (unit_exponent f + unit_exponent f)).
Proof using All.
  intros Hx Hy H1 H2. destruct (units_room f c1 H1). destruct (units_room f c2 H2). pose proof component_room_eq.
  eapply returns_mono; [apply (product_ok 128 128 x y s1 (code_units f c1) (unit_exponent f) s2 (code_units f c2) (unit_exponent f))|];
    [done|done|done|done|lia|lia| |].
  - destruct (units_moderate f c1 c2 H1 H2) as (Hm & He & HL & _). apply (bounded_fits _ _ (component_room + component_room)); [done|lia|lia|lia].
  - intros r (P & HP & Hd). exists P. split; [lia|done].
Qed.

(** ** Quotients *)

(** The bits are the ratio [n / d] rounded once, with its sign; a zero has either sign. *)
Definition rounds_to_ratio (f : BinaryFormat) (bits : Z) (n d : Z) : Prop :=
  exists zero code, bits = Z.lor (sign_bits f (exact_sign n zero)) code /\ nearest_ratio f (Z.abs n) d 0 code.

Lemma dy_eq_shift m1 e1 m2 e2 t : dy_eq m1 (e1 + t) m2 (e2 + t) -> dy_eq m1 e1 m2 e2.
Proof using.
  intros H k H1 H2. specialize (H (k + t) ltac:(lia) ltac:(lia)). replace (e1 + t - (k + t)) with (e1 - k) in H by lia.
  by replace (e2 + t - (k + t)) with (e2 - k) in H by lia.
Qed.

(** A small relative error keeps the sign. *)
Lemma close_sign m n t : 1 <= t -> n <> 0 -> Z.abs (m - n) * 2 ^ t <= Z.abs n -> m <> 0 /\ sign_of m = sign_of n.
Proof using.
  intros Ht Hn H. assert (2 ^ 1 <= 2 ^ t) as Hp by (apply Z.pow_le_mono_r; lia). rewrite Z.pow_1_r in Hp.
  assert (Z.abs (m - n) * 2 <= Z.abs (m - n) * 2 ^ t) by (apply Z.mul_le_mono_nonneg_l; lia). unfold sign_of.
  split; [lia|]. destruct (m <? 0) eqn:E1, (n <? 0) eqn:E2; done || lia.
Qed.

Lemma sign_of_scale m c : 0 < c -> sign_of (m * c) = sign_of m.
Proof using. intros Hc. unfold sign_of. destruct (m * c <? 0) eqn:E1, (m <? 0) eqn:E2; try done; nia. Qed.

Lemma signed_sub s a b : Z.abs (signed s a - signed s b) = Z.abs (a - b).
Proof using. destruct s; cbn [signed]; lia. Qed.

Lemma signed_mul_l s a b : signed s a * b = signed s (a * b).
Proof using. destruct s; cbn [signed]; ring. Qed.

Lemma signed_sign_of m : signed (sign_of m) (Z.abs m) = m.
Proof using. unfold sign_of. destruct (m <? 0) eqn:E; cbn [signed]; lia. Qed.

(** The quotient that the library returns, on magnitudes. *)
Lemma big_quotient_rounded q1 q2 (x y : F) s m1 e1 m2 e2 p :
  denotes q1 (view x) s m1 e1 -> denotes q2 (view y) Pos m2 e2 -> 0 < m1 -> 0 < m2 -> precision_ok p ->
  - 2 ^ 29 <= e1 + Z.log2 m1 - (e2 + Z.log2 m2) < 2 ^ 29 ->
  exists m e, denotes p (view (big_div x y p)) s m e /\ fits_exponent m e /\ 0 <= m /\ rounded_quotient m1 m2 (e1 - e2) p m e.
Proof using All.
  intros Hx Hy H1 H2 Hp Hrange. apply denotes_holds in Hx; [|lia]. apply denotes_holds in Hy; [|lia]. cbn [signed] in Hy.
  destruct (div_rounded x y q1 q2 (signed s m1) e1 m2 e2 p Hx Hy ltac:(lia) Hp) as (m & e & Hh & Hfit & Herr & Hexact).
  { right. rewrite signed_abs, (Z.abs_eq m2) by lia. done. }
  assert (signed s m1 <> 0) as Hne by (destruct s; cbn [signed]; lia).
  set (k := (e + e2) `min` e1). pose proof (Herr k ltac:(lia) ltac:(lia)) as Hk.
  pose proof (pow2_pos (e + e2 - k) ltac:(lia)) as Hp1. pose proof (pow2_pos (e1 - k) ltac:(lia)) as Hp2.
  rewrite <- (Z.abs_eq (2 ^ (e1 - k))), <- Z.abs_mul, (Z.abs_eq (2 ^ (e1 - k))) in Hk by lia.
  apply close_sign in Hk as [Hm Hs]; [|unfold precision_ok in Hp; lia|by apply Z.neq_mul_0; lia].
  rewrite <- Z.mul_assoc, !sign_of_scale, sign_of_signed in Hs by (done || by apply Z.mul_pos_pos).
  assert (m <> 0) as Hm0 by (intros ->; by rewrite !Z.mul_0_l in Hm). assert (signed s (Z.abs m) = m) as Em by (rewrite <- Hs; apply signed_sign_of).
  exists (Z.abs m), e. split; [rewrite <- Hs; by apply holds_denotes|]. split; [|split; [lia|]].
  { destruct Hfit as [?|?]; [lia|right; by rewrite Z.abs_involutive]. }
  split.
  - intros j J1 J2. specialize (Herr (j + e2) ltac:(lia) ltac:(lia)).
    replace (e + e2 - (j + e2)) with (e - j) in Herr by lia. replace (e1 - (j + e2)) with (e1 - e2 - j) in Herr by lia.
    rewrite <- Em, !signed_mul_l, signed_sub, signed_abs in Herr by lia. done.
  - intros q g Hq Hd. rewrite <- (signed_abs s q) by lia. apply dy_eq_abs, Hexact.
    + rewrite signed_abs by lia. lia.
    + rewrite signed_mul_l. apply dy_eq_signed, (dy_eq_shift _ _ _ _ (- e2)). replace (g + e2 + - e2) with g by lia. done.
Qed.

(** A zero numerator gives a zero. *)
Lemma quotient_zero q1 q2 (x y : F) s e1 m2 e2 p :
  denotes q1 (view x) s 0 e1 -> denotes q2 (view y) Pos m2 e2 -> 0 < m2 -> precision_ok p ->
  exists t e, denotes p (view (big_div x y p)) t 0 e.
Proof using All.
  intros Hx Hy H2 Hp. apply denotes_holds in Hx; [|lia]. apply denotes_holds in Hy; [|lia]. replace (signed s 0) with 0 in Hx by (by destruct s).
  destruct (div_rounded x y q1 q2 0 e1 m2 e2 p Hx Hy ltac:(lia) Hp (or_introl eq_refl)) as (m & e & (t & Hh & _) & _ & Herr & _).
  exists t, e. specialize (Herr ((e + e2) `min` e1) ltac:(lia) ltac:(lia)). pose proof (pow2_pos p ltac:(unfold precision_ok in Hp; lia)).
  pose proof (pow2_pos (e + e2 - (e + e2) `min` e1) ltac:(lia)). cbn [Z.abs] in Herr. rewrite !Z.mul_0_l, Z.sub_0_r, !Z.abs_mul in Herr.
  replace m with 0 in Hh; [done|]. symmetry. apply Z.abs_0_iff. rewrite (Z.abs_eq m2), (Z.abs_eq (2 ^ _)) in Herr by lia.
  assert (0 < m2 * 2 ^ (e + e2 - (e + e2) `min` e1) * 2 ^ p) by (repeat apply Z.mul_pos_pos; done). nia.
Qed.

(** The quotient of exact operands at a precision above their bits and those of
    the format encodes to the exact ratio rounded once. *)
Lemma quotient_ok f q1 q2 (x y : F) n zero d e L p :
  denotes q1 (view x) (exact_sign n zero) (Z.abs n) e -> denotes q2 (view y) Pos d e -> 0 < d -> 0 < q1 -> 0 < q2 ->
  Z.abs n < 2 ^ L -> d < 2 ^ L -> 0 <= L < 2 ^ 29 -> precision_ok p -> bit_len x + bit_len y + fraction_bits f + 2 <= p ->
  returns (encode_component f None (big_div x y p)) (fun bits => rounds_to_ratio f bits n d).
Proof using All.
  intros Hx Hy Hd Hq1 Hq2 HnL HdL HL Hp Hbits. unfold encode_component. destruct (format_ranges f) as (? & _).
  destruct (denotes_mantissa _ _ _ _ _ Hx) as (T1 & M1 & y1 & HT1 & HTq1 & HM1 & D1 & Hx').
  destruct (denotes_mantissa _ _ _ _ _ Hy) as (T2 & M2 & y2 & HT2 & HTq2 & HM2 & D2 & Hy').
  unfold bit_len in Hbits. rewrite HT1, HT2 in Hbits. cbn [default from_option id] in Hbits.
  assert (M2 <> 0) as HM2' by (intros ->; apply dy_eq_sym, dy_eq_zero in D2; lia).
  destruct (Z.eq_dec n 0) as [->|Hn].
  - destruct (quotient_zero q1 q2 x y _ _ _ _ p Hx Hy Hd Hp) as (t & g & Hz).
    eapply returns_mono; [apply (encode_denotes f p _ t 0 g Hz); [lia|lia|done|by left]|]. intros bits (code & -> & Hnear).
    exists t, code. split; [done|]. apply nearest_even_ratio in Hnear. revert Hnear. apply nearest_ratio_eq; [lia|done|by intros k].
  - assert (M1 <> 0) as HM1' by (intros ->; apply dy_eq_sym, dy_eq_zero in D1; lia).
    pose proof (dy_eq_log2 M1 y1 (Z.abs n) e ltac:(lia) ltac:(lia) D1). pose proof (dy_eq_log2 M2 y2 d e ltac:(lia) Hd D2).
    assert (Z.log2 (Z.abs n) < L) by (apply Z.log2_lt_pow2; lia). assert (Z.log2 d < L) by (apply Z.log2_lt_pow2; lia).
    pose proof (Z.log2_nonneg (Z.abs n)). pose proof (Z.log2_nonneg d).
    destruct (big_quotient_rounded q1 q2 x y _ M1 y1 M2 y2 p Hx' Hy' ltac:(lia) ltac:(lia) Hp ltac:(lia)) as (m & g & Hm & Hfit & Hm0 & Hrq).
    eapply returns_mono; [apply (encode_denotes f p _ _ m g Hm); [done|lia|done|done]|]. intros bits (code & -> & Hnear).
    exists zero, code. split; [done|].
    assert (nearest_ratio f M1 M2 (y1 - y2) code) as Hr.
    { apply (double_rounding f M1 M2 (y1 - y2) p m g); try done; [|lia|].
      - split; [lia|]. apply (Z.lt_le_trans _ (2 ^ T1)); [lia|]. apply Z.pow_le_mono_r; lia.
      - apply (Z.le_trans _ (2 ^ (fraction_bits f + 3) * 2 ^ T2)); [apply Z.mul_le_mono_nonneg_l; [apply Z.pow_nonneg|]; lia|].
        rewrite <- Z.pow_add_r by lia. apply Z.pow_le_mono_r; lia. }
    revert Hr. apply nearest_ratio_eq; [lia|done|]. apply (dy_eq_shift _ _ _ _ (y2 + e)).
    replace (y1 - y2 + (y2 + e)) with (y1 + e) by lia. replace (0 + (y2 + e)) with (e + y2) by lia. apply dy_eq_mul; [done|by apply dy_eq_sym].
Qed.

(** ** Products, sums and differences of components *)

Section components.
Context (f : BinaryFormat).

Abbreviation unit2 := (unit_exponent f + unit_exponent f).

(** A component as [decode] returns it. *)
Definition component (x : F) (s : Sign) (code : Z) : Prop :=
  denotes 128 (view x) s (code_units f code) (unit_exponent f) /\ 0 <= code < infinity f.

Abbreviation value s code := (signed s (code_units f code)).

(** Exact, of a precision that is far from the limits. *)
Definition exactly (x : F) (n : Z) (zero : Sign) : Prop :=
  exists P, 256 <= P <= 2 ^ 20 /\ denotes P (view x) (exact_sign n zero) (Z.abs n) unit2.

Lemma sum_products {B} (x y z w : F) s1 c1 s2 c2 s3 c3 s4 c4 (k : F -> outcome B) Q :
  component x s1 c1 -> component y s2 c2 -> component z s3 c3 -> component w s4 c4 ->
  (forall r, exactly r (value s1 c1 * value s2 c2 + value s3 c3 * value s4 c4)
               (if decide (sign_xor s1 s2 = sign_xor s3 s4) then sign_xor s1 s2 else Pos) -> returns (k r) Q) ->
  returns (let! p := product x y in let! q := product z w in let! r := sum p q in k r) Q.
Proof using All.
  intros [Hx X] [Hy Y] [Hz Z'] [Hw W] Hk. pose proof component_room_eq as Hroom.
  eapply returns_bind; [by apply (product_units f x y s1 c1 s2 c2)|]. intros p (P1 & HP1 & D1).
  eapply returns_bind; [by apply (product_units f z w s3 c3 s4 c4)|]. intros q (P2 & HP2 & D2).
  eapply returns_bind; [apply (sum_ok P1 P2 p q _ _ _ _ _ (component_room + component_room) D1 D2);
    [by apply units_moderate|by apply units_moderate|lia|lia|lia]|]. intros r (P & HP & D).
  apply Hk. exists P. rewrite !signed_product in D. split; [lia|done].
Qed.

Lemma difference_products {B} (x y z w : F) s1 c1 s2 c2 s3 c3 s4 c4 (k : F -> outcome B) Q :
  component x s1 c1 -> component y s2 c2 -> component z s3 c3 -> component w s4 c4 ->
  (forall r, exactly r (value s1 c1 * value s2 c2 - value s3 c3 * value s4 c4)
               (if decide (sign_xor s1 s2 = Neg /\ sign_xor s3 s4 = Pos) then Neg else Pos) -> returns (k r) Q) ->
  returns (let! p := product x y in let! q := product z w in let! r := difference p q in k r) Q.
Proof using All.
  intros [Hx X] [Hy Y] [Hz Z'] [Hw W] Hk. pose proof component_room_eq as Hroom.
  eapply returns_bind; [by apply (product_units f x y s1 c1 s2 c2)|]. intros p (P1 & HP1 & D1).
  eapply returns_bind; [by apply (product_units f z w s3 c3 s4 c4)|]. intros q (P2 & HP2 & D2).
  eapply returns_bind; [apply (difference_ok P1 P2 p q _ _ _ _ _ (component_room + component_room) D1 D2);
    [by apply units_moderate|by apply units_moderate|lia|lia|lia]|]. intros r (P & HP & D).
  apply Hk. exists P. rewrite !signed_product in D. split; [lia|done].
Qed.

(** Bounds on a sum or difference of two products of components. *)
Lemma combined_bound c1 c2 c3 c4 s1 s2 s3 s4 :
  0 <= c1 < infinity f -> 0 <= c2 < infinity f -> 0 <= c3 < infinity f -> 0 <= c4 < infinity f ->
  Z.abs (value s1 c1 * value s2 c2 + value s3 c3 * value s4 c4) < 2 ^ (component_room + component_room + 1) /\
  Z.abs (value s1 c1 * value s2 c2 - value s3 c3 * value s4 c4) < 2 ^ (component_room + component_room + 1).
Proof using.
  intros H1 H2 H3 H4. destruct (units_moderate f c1 c2 H1 H2) as ([? ?] & _ & _ & ?), (units_moderate f c3 c4 H3 H4) as ([? ?] & _ & _ & ?).
  rewrite <- !signed_product, Z.pow_add_r, Z.pow_1_r by lia. destruct (sign_xor s1 s2), (sign_xor s3 s4); cbn [signed]; lia.
Qed.

Lemma combined_fits n : Z.abs n < 2 ^ (component_room + component_room + 1) -> fits_exponent (Z.abs n) unit2.
Proof using.
  intros Hn. pose proof component_room_eq. pose proof (bias_range f). destruct (format_ranges f) as (? & _). unfold unit_exponent.
  apply (bounded_fits _ _ (component_room + component_room + 1)); lia.
Qed.

(** Finite operands, and what they decode to. *)
Lemma finite_operands bits s code :
  finite_component f bits s code -> forall bits' s' code', finite_component f bits' s' code' ->
  returns (complex_decode (F := F) f (bits, bits') false) (fun x => component x.1 s code /\ component x.2 s' code').
Proof using All.
  intros H bits' s' code' H'. eapply returns_mono; [by apply complex_decode_ok|]. intros x [H1 H2].
  split; (split; [done|]); [by destruct H|by destruct H'].
Qed.
End components.

Context (f : BinaryFormat) (sa sb sc sd : Sign) (ca cb cc cd : Z).
Context (Ha : 0 <= ca < infinity f) (Hb : 0 <= cb < infinity f) (Hc : 0 <= cc < infinity f) (Hd : 0 <= cd < infinity f).

Abbreviation a := (signed sa (code_units f ca)).
Abbreviation b := (signed sb (code_units f cb)).
Abbreviation c := (signed sc (code_units f cc)).
Abbreviation d := (signed sd (code_units f cd)).
Abbreviation unit2 := (unit_exponent f + unit_exponent f).
Abbreviation left := (Z.lor (sign_bits f sa) ca, Z.lor (sign_bits f sb) cb).
Abbreviation right := (Z.lor (sign_bits f sc) cc, Z.lor (sign_bits f sd) cd).

Lemma operand_class s k : 0 <= k < infinity f ->
  finite_component f (Z.lor (sign_bits f s) k) s k /\
  format_is_infinite f (Z.lor (sign_bits f s) k) = false /\ format_is_zero f (Z.lor (sign_bits f s) k) = (k =? 0).
Proof using. intros Hk. assert (finite_component f (Z.lor (sign_bits f s) k) s k) as H by done. split; [done|]. by apply (finite_not_infinite f _ s k). Qed.

(** C18. The product of two complex numbers with finite components, in any of the
    four formats: the operation returns, and each component is the exact real or
    imaginary part of the product, rounded once to the nearest number of the
    format, ties to even; only the final result can overflow or underflow.  An
    exact zero is negative only as the difference of a negative and a positive
    zero, or as the sum of two negative zeros. *)
Theorem complex_multiply_correct :
  returns (multiply (F := F) f left right)
    (fun '(re, im) =>
      rounds_to f re (a * c - b * d) unit2 (if decide (sign_xor sa sc = Neg /\ sign_xor sb sd = Pos) then Neg else Pos) /\
      rounds_to f im (a * d + b * c) unit2 (if decide (sign_xor sa sd = sign_xor sb sc) then sign_xor sa sd else Pos)).
Proof using All.
  destruct (operand_class sa ca Ha) as (Fa & Ia & _), (operand_class sb cb Hb) as (Fb & Ib & _).
  destruct (operand_class sc cc Hc) as (Fc & Ic & _), (operand_class sd cd Hd) as (Fd & Id & _).
  unfold multiply. cbn [fst snd]. rewrite Ia, Ib, Ic, Id. cbn [orb].
  eapply returns_bind; [by apply finite_operands|]. intros [xa xb] [Xa Xb]. cbn [fst snd] in *.
  eapply returns_bind; [by apply finite_operands|]. intros [xc xd] [Xc Xd]. cbn [fst snd] in *.
  apply (difference_products f xa xc xb xd sa ca sc cc sb cb sd cd); try done. intros re (P & HP & D).
  apply (sum_products f xa xd xb xc sa ca sd cd sb cb sc cc); try done. intros im (P' & HP' & D').
  destruct (combined_bound f ca cc cb cd sa sc sb sd) as [_ B]; try done. destruct (combined_bound f ca cd cb cc sa sd sb sc) as [B' _]; try done.
  unfold complex_encode. cbn [fst snd].
  eapply returns_bind; [apply (encode_component_ok f P re _ _ _ D); [lia|unfold precision_ok; lia|by apply combined_fits]|]. intros rbits Hre.
  eapply returns_bind; [apply (encode_component_ok f P' im _ _ _ D'); [lia|unfold precision_ok; lia|by apply combined_fits]|]. intros ibits Him.
  by apply returns_ret.
Qed.

(** The square of the modulus of a divisor that is not zero. *)
Lemma divisor_positive : ~ (cc = 0 /\ cd = 0) -> 0 < c * c + d * d.
Proof using Hc Hd.
  intros Hnz. assert (forall s k, 0 <= k -> signed s (code_units f k) = 0 -> k = 0) as Hz.
  { intros s k Hk E. apply (units_inj f); [done|lia|]. rewrite units_0. destruct s; cbn [signed] in E; lia. }
  destruct (Z.eq_dec c 0) as [Ec|Ec]; [destruct (Z.eq_dec d 0) as [Ed|Ed]|]; [|nia|nia].
  exfalso. apply Hnz. split; [apply (Hz sc)|apply (Hz sd)]; done || lia.
Qed.

Lemma bit_len_exactly x n zero : exactly f x n zero -> exists T, mantissa_max_bit_len x = Some T /\ 256 <= T < 2 ^ 20 + 64.
Proof using All.
  intros (P & HP & D). destruct (denotes_mantissa _ _ _ _ _ D) as (T & M & y & E & HT & _). exists T. split; [done|lia].
Qed.

(** C9. The quotient of two complex numbers with finite components, the divisor
    not zero: the operation returns, and each component is the exact rational
    part of the quotient, rounded once to the nearest number of the format, ties
    to even, although the code rounds it first to the precision that it computes
    from the bits of its operands. *)
Theorem complex_divide_correct :
  ~ (cc = 0 /\ cd = 0) ->
  returns (divide (F := F) f left right)
    (fun '(re, im) => rounds_to_ratio f re (a * c + b * d) (c * c + d * d) /\ rounds_to_ratio f im (b * c - a * d) (c * c + d * d)).
Proof using All.
  intros Hnz. destruct (operand_class sa ca Ha) as (Fa & Ia & _), (operand_class sb cb Hb) as (Fb & Ib & _).
  destruct (operand_class sc cc Hc) as (Fc & Ic & Zc), (operand_class sd cd Hd) as (Fd & Id & Zd).
  unfold divide. cbn [fst snd]. rewrite Ia, Ib, Ic, Id, Zc, Zd. cbn [orb].
  assert ((cc =? 0) && (cd =? 0) = false) as -> by (destruct (cc =? 0) eqn:E1, (cd =? 0) eqn:E2; try done; exfalso; apply Hnz; lia).
  cbn [andb]. eapply returns_bind; [by apply finite_operands|]. intros [xa xb] [Xa Xb]. cbn [fst snd] in *.
  eapply returns_bind; [by apply finite_operands|]. intros [xc xd] [Xc Xd]. cbn [fst snd] in *.
  apply (sum_products f xa xc xb xd sa ca sc cc sb cb sd cd); try done. intros re Hre.
  apply (difference_products f xb xc xa xd sb cb sc cc sa ca sd cd); try done. intros im Him. cbn [orb].
  apply (sum_products f xc xc xd xd sc cc sc cc sd cd sd cd); try done. intros dv Hdv.
  destruct (combined_bound f ca cc cb cd sa sc sb sd) as [B1 _]; try done. destruct (combined_bound f cb cc ca cd sb sc sa sd) as [_ B2]; try done.
  destruct (combined_bound f cc cc cd cd sc sc sd sd) as [B3 _]; try done. pose proof (divisor_positive Hnz) as Hpos. rewrite Z.abs_eq in B3 by lia.
  destruct (bit_len_exactly _ _ _ Hre) as (T1 & E1 & HT1), (bit_len_exactly _ _ _ Him) as (T2 & E2 & HT2), (bit_len_exactly _ _ _ Hdv) as (T3 & E3 & HT3).
  destruct (format_ranges f) as (? & _). pose proof (word_size (F := F)). pose proof component_room_eq.
  unfold bit_len at 1 2 3. rewrite E1, E2, E3. cbn [default from_option id].
  do 4 (rewrite usize_add_ok by lia; cbn [outcome_bind]). set (p := T1 `max` T2 + T3 + fraction_bits f + 1 + WORD_BIT_SIZE).
  assert (precision_ok p) as Hp by (unfold precision_ok; lia).
  destruct Hre as (P1 & HP1 & D1), Him as (P2 & HP2 & D2), Hdv as (P3 & HP3 & D3). unfold exact_sign in D3 at 1. rewrite (Z.abs_eq (c * c + d * d)) in D3 by lia.
  replace (if c * c + d * d =? 0 then _ else _) with Pos in D3 by (unfold sign_of; destruct (c * c + d * d =? 0) eqn:X1, (c * c + d * d <? 0) eqn:X2; done || lia).
  unfold complex_encode. cbn [fst snd].
  eapply returns_bind; [apply (quotient_ok f P1 P3 re dv _ _ _ _ (component_room + component_room + 1) p D1 D3); try done; try lia|].
  { unfold bit_len. rewrite E1, E3. cbn [default from_option id]. lia. }
  intros rbits Hr. eapply returns_bind; [apply (quotient_ok f P2 P3 im dv _ _ _ _ (component_room + component_room + 1) p D2 D3); try done; try lia|].
  { unfold bit_len. rewrite E2, E3. cbn [default from_option id]. lia. }
  intros ibits Hi. by apply returns_ret.
Qed.
End exact.

(** [(1 + i) (1 - i)] is [2 + 0i]. *)
Lemma complex_multiply_correct_witness :
  returns (multiply (F := big_view) Binary64
      (Z.lor (sign_bits Binary64 Pos) one64, Z.lor (sign_bits Binary64 Pos) one64) (Z.lor (sign_bits Binary64 Pos) one64, Z.lor (sign_bits Binary64 Neg) one64))
    (fun '(re, im) => re = 4611686018427387904 /\ im = 0 /\
      rounds_to Binary64 re (2 * (code_units Binary64 one64 * code_units Binary64 one64)) (unit_exponent Binary64 + unit_exponent Binary64) Pos).
Proof.
  assert (0 <= one64 < infinity Binary64) as H by (split; vm_compute; [discriminate|reflexivity]).
  destruct (complex_multiply_correct (F := big_view) Binary64 Pos Pos Pos Neg one64 one64 one64 one64 H H H H) as ([re im] & E & Hre & _).
  exists (re, im). split; [exact E|].
  assert (Ret (re, im) = Ret (4611686018427387904, 0)) as E' by (rewrite <- E; vm_compute; reflexivity). injection E' as -> ->.
  split; [done|]. split; [done|]. cbn [signed] in Hre. revert Hre. generalize (code_units Binary64 one64). intros u.
  replace (u * u - u * - u) with (2 * (u * u)) by ring. done.
Defined.

(** [(1 + i) / (1 - i)] is [i]. *)
Lemma complex_divide_correct_witness :
  returns (divide (F := big_view) Binary64
      (Z.lor (sign_bits Binary64 Pos) one64, Z.lor (sign_bits Binary64 Pos) one64) (Z.lor (sign_bits Binary64 Pos) one64, Z.lor (sign_bits Binary64 Neg) one64))
    (fun '(re, im) => re = 0 /\ im = one64 /\
      rounds_to_ratio Binary64 im (2 * (code_units Binary64 one64 * code_units Binary64 one64)) (2 * (code_units Binary64 one64 * code_units Binary64 one64))).
Proof.
  assert (0 <= one64 < infinity Binary64) as H by (split; vm_compute; [discriminate|reflexivity]).
  destruct (complex_divide_correct (F := big_view) Binary64 Pos Pos Pos Neg one64 one64 one64 one64 H H H H) as ([re im] & E & _ & Him); [by intros [? _]|].
  exists (re, im). split; [exact E|].
  assert (Ret (re, im) = Ret (0, one64)) as E' by (rewrite <- E; vm_compute; reflexivity). injection E' as -> ->.
  split; [done|]. split; [done|]. cbn [signed] in Him. revert Him. generalize (code_units Binary64 one64). intros u.
  replace (u * u - u * - u) with (2 * (u * u)) by ring. replace (u * u + - u * - u) with (2 * (u * u)) by ring. done.
Defined.
