(* ===== verification/NumericPower.v ===== *)
(** * Real and complex powers

    [bray-numeric/src/real.rs] and [bray-numeric/src/power.rs].  The elementary
    functions of the float library are parameters, like its arithmetic; what the
    crate decides itself is modelled and proved: the special cases of the real
    power, how integral exponents are recognized and what they do to signs, and
    repeated squaring. *)

From Stdlib Require Import ZArith Lia.
From stdpp Require Import base list numbers option.
From S2P Require Import Prelude BigFloat NumericFormat NumericRatio NumericComplex.

(** The functions of the library; [Consts] is its cache of constants, which they
    update. *)
Class BigFunctions (F : Type) := {
  Consts : Type;
  consts_new : option Consts;
  big_neg : F -> F;
  big_cmp : F -> F -> option Z;
  big_abs_cmp : F -> F -> option Z;
  big_sqrt : F -> usize -> F;
  big_powi : F -> usize -> usize -> F;
  big_ln : F -> usize -> Consts -> F * Consts;
  big_exp : F -> usize -> Consts -> F * Consts;
  big_sin : F -> usize -> Consts -> F * Consts;
  big_cos : F -> usize -> Consts -> F * Consts;
  big_atan : F -> usize -> Consts -> F * Consts;
  big_pi : usize -> Consts -> F * Consts;
}.

(** ** power.rs *)

Definition next_multiple_of (x y : usize) : usize := (x + y - 1) / y * y.

Definition working_precision (format : BinaryFormat) (exponent_growth : Z) : outcome usize :=
  let! growth := expect (usize_try_from (exponent_growth `max` 0)) in
  let! precision := usize_add (fraction_bits format + 1 + 128) growth in
  Ret (next_multiple_of (precision `max` 256) 64).

Definition I64_MAX : Z := 2 ^ 63 - 1.

Definition U64_MAX : Z := 2 ^ 64 - 1.

(** [(index..index + count).any(bit)] *)
Fixpoint any_index (bit : Z -> outcome bool) (index : Z) (count : nat) : outcome bool :=
  match count with
  | O => Ret false
  | S count =>
      let! b := bit index in
      if (b : bool) then Ret true else any_index bit (index + 1) count
  end.

Section power.
Context {F : Type} `{!BigFloat F, !BigFunctions F}.

(** The closure [bit] of [integer_modulo_four]: false outside of the mantissa. *)
Definition mantissa_bit (words : list Z) (total index : Z) : outcome bool :=
  if (0 <=? index) && (index <? total) then expect (word_bit (WORD_BIT_SIZE (F := F)) words index) else Ret false.

Definition integer_modulo_four (value : F) : outcome (option u8) :=
  match as_raw_parts value with
  | None => Ret None
  | Some (words, _, sign, exponent, _) =>
      let! total := expect (checked I64_MAX (zlen words * WORD_BIT_SIZE (F := F))) in
      let shift := total - exponent in
      let bit := mantissa_bit words total in
      let! fractional := any_index bit 0 (Z.to_nat ((shift `max` 0) `min` total)) in
      if (fractional : bool) then Ret None
      else
        let! low := bit shift in
        let! high := bit (shift + 1) in
        let quadrant := Z.lor (Z.b2z low) (Z.shiftl (Z.b2z high) 1) in
        Ret (Some (if decide (sign = Neg) then (4 - quadrant) mod 4 else quadrant))
  end.

(** The bits from [index] on, [count] of them, the highest first, in a [u64]. *)
Fixpoint collect_u64 (words : list Z) (index : Z) (count : nat) (integer : u64) : outcome u64 :=
  match count with
  | O => Ret integer
  | S count =>
      let! b := expect (word_bit (WORD_BIT_SIZE (F := F)) words (index + Z.of_nat count)) in
      collect_u64 words index count (Z.lor (Z.land (Z.shiftl integer 1) U64_MAX) (Z.b2z b))
  end.

Definition integer_exponent (value : F) (maximum_factor_exponent : u32) : outcome (option (bool * u64)) :=
  match big_exponent value with
  | None => Ret None
  | Some exponent =>
      if negb ((1 <=? exponent) && (exponent <=? 64)) then Ret None
      else
        match as_raw_parts value with
        | None => Ret None
        | Some (words, _, sign, _, _) =>
            let bit_count := zlen words * WORD_BIT_SIZE (F := F) in
            let! shift := expect (usize_checked_sub bit_count exponent) in
            let! fractional := any_bit (F := F) words 0 (Z.to_nat shift) in
            if (fractional : bool) then Ret None
            else
              let! integer := collect_u64 words shift (Z.to_nat (bit_count - shift)) 0 in
              let limit := (2 ^ 31 - 1) / 4 / (maximum_factor_exponent `max` 1) in
              Ret (if integer <=? limit then Some (bool_decide (sign = Neg), integer) else None)
        end
  end.

Definition positive_exponential (value : F) (precision : usize) (constants : Consts) : F * Consts :=
  let '(result, constants) := big_exp value precision constants in
  (if is_zero result then set_sign result Pos else result, constants).

Definition is_order (order : option Z) (test : Z -> bool) : bool := match order with Some order => test order | None => false end.

Definition magnitude_power (base exponent : F) (precision : usize) (constants : Consts) : outcome (F * Consts) :=
  let zero := from_u8 0 precision in
  let one := from_u8 1 precision in
  if is_zero exponent || bool_decide (big_cmp base one = Some 0) then Ret (one, constants)
  else if is_inf exponent
  then
    let grows := bool_decide (is_order (big_cmp base one) (fun order => 0 <? order) = bool_decide (big_sign exponent = Some Pos)) in
    Ret (if grows then INF_POS else zero, constants)
  else if is_zero base || is_inf base
  then
    let grows := bool_decide (bool_decide (big_sign exponent = Some Pos) = is_inf base) in
    Ret (if grows then INF_POS else zero, constants)
  else
    let! integer := integer_exponent exponent (Z.abs (default 0 (big_exponent base))) in
    match integer with
    | Some (negative, count) =>
        let! count := expect (usize_try_from count) in
        let result := big_powi base count precision in
        Ret (if (negative : bool) then big_div one result precision else result, constants)
    | None =>
        let '(logarithm, constants) := big_ln base precision constants in
        let exponent := big_mul logarithm exponent precision in
        Ret (positive_exponential exponent precision constants)
    end.

Definition argument (real imaginary : F) (precision : usize) (constants : Consts) : outcome (F * Consts) :=
  let '(pi, constants) := big_pi precision constants in
  let zero := from_u8 0 precision in
  let '(angle, constants) :=
    if is_zero imaginary then (if decide (big_sign real = Some Neg) then pi else zero, constants)
    else if is_inf real && is_inf imaginary
    then
      let quarter := big_div pi (from_u8 4 precision) precision in
      (if decide (big_sign real = Some Neg) then big_sub pi quarter precision else quarter, constants)
    else if is_zero real || is_inf imaginary then (big_div pi (from_u8 2 precision) precision, constants)
    else
      let real_magnitude := set_sign real Pos in
      let imaginary_magnitude := set_sign imaginary Pos in
      let '(acute, constants) := big_atan (big_div imaginary_magnitude real_magnitude precision) precision constants in
      (if decide (big_sign real = Some Neg) then big_sub pi acute precision else acute, constants) in
  let! sign := expect (big_sign imaginary) in
  Ret (set_sign angle sign, constants).

Definition polar_component (scale : F) (precision : usize) (component : F) : F :=
  if is_inf scale && is_zero component then component else big_mul scale component precision.

Definition polar (scale angle : F) (precision : usize) (constants : Consts) : F * F * Consts :=
  let '(cosine, constants) := big_cos angle precision constants in
  let '(sine, constants) := big_sin angle precision constants in
  (polar_component scale precision cosine, polar_component scale precision sine, constants).

Definition power_multiply (left right : F * F) (precision : usize) : F * F :=
  (rounded_difference (big_mul left.1 right.1 precision) (big_mul left.2 right.2 precision) precision,
   rounded_sum (big_mul left.1 right.2 precision) (big_mul left.2 right.1 precision) precision).

Definition reciprocal (value : F * F) (precision : usize) : outcome (F * F) :=
  let! a := product value.1 value.1 in
  let! b := product value.2 value.2 in
  let! squared := sum a b in
  Ret (big_div value.1 squared precision, big_div (big_neg value.2) squared precision).

Definition square_root (real imaginary : F) (precision : usize) : outcome (F * F) :=
  let zero := from_u8 0 precision in
  let two := from_u8 2 precision in
  if is_inf imaginary
  then
    let! sign := expect (big_sign imaginary) in
    Ret (INF_POS, set_sign INF_POS sign)
  else if is_zero real && is_zero imaginary then Ret (zero, imaginary)
  else
    let! a := product real real in
    let! b := product imaginary imaginary in
    let! squared := sum a b in
    let radius := big_sqrt squared precision in
    let negative_real := bool_decide (big_sign real = Some Neg) in
    let large :=
      big_sqrt (big_div (if negative_real then big_sub radius real precision else big_add radius real precision) two precision) precision in
    let small := if is_inf large then zero else big_div imaginary (big_mul two large precision) precision in
    let! sign := expect (big_sign imaginary) in
    let small := set_sign small sign in
    if negative_real
    then
      let real := set_sign small Pos in
      let imaginary_part := set_sign large sign in
      Ret (real, imaginary_part)
    else Ret (large, small).

(** The magnitude of a base on an axis or a diagonal, and its angle times the
    exponent, in quarter turns. *)
Definition axis_turns (real imaginary exponent : F) (precision : usize) : outcome (option (F * F)) :=
  if is_zero imaginary
  then
    Ret (Some (set_sign real Pos,
      if decide (big_sign real = Some Neg) then big_mul exponent (from_u8 2 precision) precision else from_u8 0 precision))
  else if is_zero real then Ret (Some (set_sign imaginary Pos, exponent))
  else if decide (big_abs_cmp real imaginary = Some 0)
  then
    let! a := product real real in
    let! b := product imaginary imaginary in
    let! squared := sum a b in
    let magnitude := big_sqrt squared precision in
    let numerator := from_u8 (if decide (big_sign real = Some Neg) then 3 else 1) precision in
    let turns := big_div (big_mul exponent numerator precision) (from_u8 2 precision) precision in
    Ret (Some (magnitude, turns))
  else Ret None.

Definition axis_power (real imaginary exponent : F) (precision : usize) (constants : Consts) : outcome (option (F * F) * Consts) :=
  let! selected := axis_turns real imaginary exponent precision in
  match selected with
  | None => Ret (None, constants)
  | Some (magnitude, turns) =>
      let! quadrant := integer_modulo_four turns in
      match quadrant with
      | None => Ret (None, constants)
      | Some quadrant =>
          let quadrant := if decide (big_sign imaginary = Some Neg) then (4 - quadrant) mod 4 else quadrant in
          let! (scale, constants) := magnitude_power magnitude exponent precision constants in
          let negative_angle :=
            negb (bool_decide (bool_decide (big_sign imaginary = Some Neg) = bool_decide (big_sign exponent = Some Neg))) in
          let zero := set_sign (from_u8 0 precision) (if negative_angle then Neg else Pos) in
          let! result :=
            if quadrant =? 0 then Ret (scale, zero)
            else if quadrant =? 1 then Ret (from_u8 0 precision, scale)
            else if quadrant =? 2 then Ret (big_neg scale, zero)
            else if quadrant =? 3 then Ret (from_u8 0 precision, big_neg scale)
            else Panic in
          Ret (Some result, constants)
      end
  end.

(** One round of the loop that multiplies: [count], [result] and [factor]. *)
Definition squaring_step (precision : usize) (state : u64 * (F * F) * (F * F)) : outcome (u64 * (F * F) * (F * F) + F * F) :=
  let '(count, result, factor) := state in
  if count =? 0 then break_ result
  else
    let result := if negb (Z.land count 1 =? 0) then power_multiply result factor precision else result in
    let count := Z.shiftr count 1 in
    let factor := if negb (count =? 0) then power_multiply factor factor precision else factor in
    continue_ (count, result, factor).

(** A 64-bit count has at most 64 rounds. *)
Definition squarings (precision : usize) (base : F * F) (count : u64) : outcome (F * F) :=
  loop 65 (squaring_step precision) (count, (from_u8 1 precision, from_u8 0 precision), base).

(** A base or an exponent part without a limit, once the exponent is real. *)
Definition limit_power (phase a b c : F) (precision : usize) (constants : Consts) : F * F * Consts :=
  let zero := from_u8 0 precision in
  let grows := is_order (big_cmp c zero) (fun order => 0 <? order) in
  let infinite_base := is_inf a || is_inf b in
  let scale := if bool_decide (grows = infinite_base) then INF_POS else zero in
  let angle := big_mul phase c precision in
  polar scale angle precision constants.

(** The definition by the exponential function. *)
Definition general_power (phase a b c d : F) (precision : usize) (constants : Consts) : outcome (F * F * Consts) :=
  let half := big_div (from_u8 1 precision) (from_u8 2 precision) precision in
  let! x := product a a in
  let! y := product b b in
  let! squared := sum x y in
  let '(logarithm, constants) := big_ln squared precision constants in
  let logarithm := big_mul logarithm half precision in
  let magnitude_exponent := big_sub (big_mul c logarithm precision) (big_mul d phase precision) precision in
  let '(magnitude, constants) := positive_exponential magnitude_exponent precision constants in
  let angle := rounded_sum (big_mul d logarithm precision) (big_mul c phase precision) precision in
  Ret (polar magnitude angle precision constants).

Definition evaluate (base exponent : F * F) (precision : usize) (constants : Consts) : outcome (F * F * Consts) :=
  let '(a, b) := base in
  let '(c, d) := exponent in
  let zero := from_u8 0 precision in
  let one := from_u8 1 precision in
  let half := big_div one (from_u8 2 precision) precision in
  if is_zero d && bool_decide (big_cmp c half = Some 0)
  then let! root := square_root a b precision in Ret (root, constants)
  else if is_zero b && is_order (big_cmp a zero) (fun order => 0 <? order) && is_zero d
  then
    let! (real, constants) := magnitude_power a c precision constants in
    let negative := negb (bool_decide (bool_decide (big_sign b = Some Neg) = bool_decide (big_sign c = Some Neg))) in
    Ret (real, set_sign zero (if negative then Neg else Pos), constants)
  else if is_inf c || is_inf d then Ret (NAN, NAN, constants)
  else
    let! (axis, constants) := if is_zero d then axis_power a b c precision constants else Ret (None, constants) in
    match axis with
    | Some result => Ret (result, constants)
    | None =>
        let! (phase, constants) := argument a b precision constants in
        if (is_zero a && is_zero b) || is_inf a || is_inf b
        then if negb (is_zero d) then Ret (NAN, NAN, constants) else Ret (limit_power phase a b c precision constants)
        else
          let! integer :=
            if is_zero d then integer_exponent c (Z.abs (default 0 (big_exponent a)) `max` Z.abs (default 0 (big_exponent b))) else Ret None in
          match integer with
          | Some (negative, count) =>
              let! result := squarings precision base count in
              let! result := if (negative : bool) then reciprocal result precision else Ret result in
              Ret (result, constants)
          | None => general_power phase a b c d precision constants
          end
    end.

(** [.iter().filter_map(BigFloat::exponent).max()] of two floats. *)
Definition max_exponent (x y : F) : option Z :=
  match big_exponent x, big_exponent y with
  | Some a, Some b => Some (a `max` b)
  | Some a, None => Some a
  | None, b => b
  end.

Definition complex_power (format : BinaryFormat) (base exponent : Z * Z) : outcome (Z * Z) :=
  let! one := encode format (from_u8 (F := F) 1 128) in
  if (format_is_zero format exponent.1 && format_is_zero format exponent.2) || ((base.1 =? one) && format_is_zero format base.2) then Ret (one, 0)
  else if (exponent.1 =? one) && format_is_zero format exponent.2
  then
    let quiet bits := if format_is_nan format bits then nan format else bits in
    Ret (quiet base.1, quiet base.2)
  else if format_is_nan format base.1 || format_is_nan format base.2 || format_is_nan format exponent.1 || format_is_nan format exponent.2
  then Ret (nan format, nan format)
  else
    let! probe1 := decode (F := F) format exponent.1 128 in
    let! probe2 := decode (F := F) format exponent.2 128 in
    let growth := default 0 (max_exponent probe1 probe2) `max` 0 in
    let! precision := working_precision format growth in
    let! a := decode (F := F) format base.1 precision in
    let! b := decode (F := F) format base.2 precision in
    let! c := decode (F := F) format exponent.1 precision in
    let! d := decode (F := F) format exponent.2 precision in
    let! constants := expect consts_new in
    let! (result, _) := evaluate (a, b) (c, d) precision constants in
    let! real := encode format result.1 in
    let! imaginary := encode format result.2 in
    Ret (real, imaginary).

(** ** real.rs *)

Definition real_power (format : BinaryFormat) (base exponent : Z) : outcome Z :=
  let! one := encode format (from_u8 (F := F) 1 128) in
  if format_is_zero format exponent || (base =? one) then Ret one
  else if format_is_nan format base || format_is_nan format exponent then Ret (nan format)
  else if exponent =? one then Ret base
  else
    let magnitude := Z.land base (u128_not (sign_mask format)) in
    let negative_exponent := negb (Z.land exponent (sign_mask format) =? 0) in
    if format_is_infinite format exponent
    then
      Ret (match magnitude ?= one with
           | Eq => one
           | Gt => if negative_exponent then 0 else infinity format
           | Lt => if negative_exponent then infinity format else 0
           end)
    else
      let! exponent_value := decode (F := F) format exponent 128 in
      let! integer := integer_modulo_four exponent_value in
      let negative_base := negb (Z.land base (sign_mask format) =? 0) in
      let odd := match integer with Some value => negb (Z.land value 1 =? 0) | None => false end in
      let sign := if negative_base && odd then sign_mask format else 0 in
      if format_is_zero format base then Ret (Z.lor sign (if negative_exponent then infinity format else 0))
      else if format_is_infinite format base then Ret (Z.lor sign (if negative_exponent then 0 else infinity format))
      else if negative_base && match integer with None => true | Some _ => false end then Ret (nan format)
      else if magnitude =? one then Ret (Z.lor one sign)
      else
        let! precision := working_precision format (default 0 (big_exponent exponent_value)) in
        let! base := decode (F := F) format magnitude precision in
        let! exponent := decode (F := F) format exponent precision in
        let! constants := expect consts_new in
        let! (result, _) := magnitude_power base exponent precision constants in
        let! bits := encode format result in
        Ret (Z.lor bits sign).
End power.

(** ** Integers among dyadic numbers *)

(** [m * 2^e] as an integer, if it is one. *)
Definition dy_integer (m e : Z) : option Z :=
  if 0 <=? e then Some (m * 2 ^ e) else if m mod 2 ^ (- e) =? 0 then Some (m / 2 ^ (- e)) else None.

Lemma dy_integer_Some m e n : dy_integer m e = Some n <-> dy_eq m e n 0.
Proof.
  unfold dy_integer. destruct (0 <=? e) eqn:E.
  - transitivity (m * 2 ^ e = n); [split; congruence|]. split; intros H.
    + apply (dy_eq_intro 0); [lia|lia|]. by rewrite Z.sub_0_r, Z.pow_0_r, Z.mul_1_r.
    + specialize (H 0 ltac:(lia) ltac:(lia)). by rewrite Z.sub_0_r, Z.pow_0_r, Z.mul_1_r in H.
  - pose proof (pow2_pos (- e) ltac:(lia)) as Hp. assert (dy_eq m e n 0 <-> m = n * 2 ^ (- e)) as ->.
    { split; intros H.
      - specialize (H e ltac:(lia) ltac:(lia)). by rewrite Z.sub_diag, Z.pow_0_r, Z.mul_1_r, Z.sub_0_l in H.
      - apply (dy_eq_intro e); [lia|lia|]. by rewrite Z.sub_diag, Z.pow_0_r, Z.mul_1_r, Z.sub_0_l. }
    destruct (m mod 2 ^ (- e) =? 0) eqn:E0.
    + pose proof (Z.div_mod m (2 ^ (- e)) ltac:(lia)) as Hd. transitivity (m / 2 ^ (- e) = n); [split; congruence|].
      split; [intros <-; lia|intros ->; apply Z.div_mul; lia].
    + split; [done|]. intros ->. rewrite Z.mod_mul in E0 by lia. done.
Qed.

Lemma dy_integer_eq m e m' e' : dy_eq m e m' e' -> dy_integer m e = dy_integer m' e'.
Proof.
  intros H. apply option_eq. intros n. rewrite !dy_integer_Some. split; intros H'; [apply dy_eq_sym in H|]; by eapply dy_eq_trans.
Qed.

Lemma mod4_bits n : n mod 4 = Z.lor (Z.b2z (Z.testbit n 0)) (Z.shiftl (Z.b2z (Z.testbit n 1)) 1).
Proof.
  change 4 with (2 * 2). rewrite Z.rem_mul_r, Z.testbit_spec', Z.testbit_spec' by lia. rewrite Z.pow_0_r, Z.pow_1_r, Z.div_1_r.
  pose proof (Z.mod_pos_bound n 2 ltac:(lia)). pose proof (Z.mod_pos_bound (n / 2) 2 ltac:(lia)).
  assert (n mod 2 = 0 \/ n mod 2 = 1) as [-> | ->] by lia; assert ((n / 2) mod 2 = 0 \/ (n / 2) mod 2 = 1) as [-> | ->] by lia; done.
Qed.

Lemma opposite_mod4 n : (4 - n mod 4) mod 4 = (- n) mod 4.
Proof.
  pose proof (Z.div_mod n 4 ltac:(lia)). replace (4 - n mod 4) with (- n + (n / 4 + 1) * 4) by lia. by rewrite Z.mod_add.
Qed.

Section recognition.
Context {F : Type} `{!BigFloat F, !BigFloatLaws F}.

Section words.
Context (words : list Z) (Hwords : words_ok (WORD_BIT_SIZE (F := F)) words).

Abbreviation M := (mantissa (WORD_BIT_SIZE (F := F)) words).
Abbreviation total := (mantissa_bits (F := F) words).

Lemma mantissa_range : 0 <= M < 2 ^ total /\ 0 <= total.
Proof using All. split; [apply mantissa_bounds; [apply word_size|done]|]. unfold mantissa_bits. pose proof (zlen_nonneg words). pose proof (word_size (F := F)). nia. Qed.

Lemma mantissa_bit_ok i : mantissa_bit (F := F) words total i = Ret (Z.testbit M i).
Proof using All.
  destruct mantissa_range as [HM HT]. unfold mantissa_bit. destruct (0 <=? i) eqn:E1; cbn [andb]; [|by rewrite Z.testbit_neg_r by lia].
  destruct (i <? total) eqn:E2; [by rewrite (word_bit_ok words Hwords) by lia|]. destruct (Z.eq_dec total 0) as [E0|Hne].
  - rewrite E0 in HM. assert (M = 0) as -> by lia. by rewrite Z.bits_0.
  - by rewrite (testbit_small total) by lia.
Qed.

Lemma any_index_ok i n : 0 <= i -> i + Z.of_nat n <= total -> any_index (mantissa_bit (F := F) words total) i n = any_bit (F := F) words i n.
Proof using All.
  revert i. induction n as [|n IH]; intros i Hi Hn; [done|]. cbn [any_index any_bit]. rewrite mantissa_bit_ok, (word_bit_ok words Hwords) by lia.
  cbn [expect outcome_bind]. destruct (Z.testbit M i); [done|]. apply IH; lia.
Qed.

(** Whether a bit below the point is set. *)
Lemma fractional_bits shift :
  any_index (mantissa_bit (F := F) words total) 0 (Z.to_nat ((shift `max` 0) `min` total)) = Ret (if dy_integer M (- shift) then false else true).
Proof using All.
  destruct mantissa_range as [HM HT]. rewrite any_index_ok, (any_bit_ok words Hwords), Z.pow_0_r, Z.div_1_r, Z2Nat.id by lia. f_equal.
  unfold dy_integer. rewrite Z.opp_involutive. destruct (0 <=? - shift) eqn:E.
  - replace (shift `max` 0 `min` total) with 0 by lia. by rewrite Z.pow_0_r, Z.mod_1_r.
  - replace (M mod 2 ^ (shift `max` 0 `min` total)) with (M mod 2 ^ shift); [by destruct (M mod 2 ^ shift =? 0)|].
    destruct (Z.le_gt_cases shift total) as [Hle|Hgt]; [by replace (shift `max` 0 `min` total) with shift by lia|].
    replace (shift `max` 0 `min` total) with total by lia. rewrite !Z.mod_small; [done|lia|]. split; [lia|]. apply (Z.lt_le_trans _ (2 ^ total)); [lia|].
    apply Z.pow_le_mono_r; lia.
Qed.

Lemma collect_u64_ok i n acc : (n <= 64)%nat -> 0 <= acc < 2 ^ (64 - Z.of_nat n) -> 0 <= i -> i + Z.of_nat n <= total ->
  collect_u64 (F := F) words i n acc = collect_bits (F := F) words i n acc.
Proof using All.
  intros H64. revert acc. induction n as [|n IH]; intros acc Hacc Hi Hn; [done|]. cbn [collect_u64 collect_bits].
  rewrite (word_bit_ok words Hwords) by lia. cbn [expect outcome_bind].
  assert (2 ^ (64 - Z.of_nat n) = 2 ^ (64 - Z.of_nat (S n)) * 2) as Hp by (rewrite <- (Z.pow_1_r 2) at 3; rewrite <- Z.pow_add_r by lia; f_equal; lia).
  assert (Z.shiftl acc 1 = acc * 2) as Es by (by rewrite Z.shiftl_mul_pow2 by lia).
  assert (2 ^ (64 - Z.of_nat n) <= 2 ^ 64) by (apply Z.pow_le_mono_r; lia).
  change U64_MAX with (Z.ones 64). rewrite Z.land_ones, Es, Z.mod_small by lia. apply IH; [lia| |lia|lia].
  rewrite lor_double. destruct (Z.testbit M (i + Z.of_nat n)); cbn [Z.b2z]; lia.
Qed.
End words.

Lemma integer_modulo_four_ok p (x : F) s m e :
  denotes p (view x) s m e -> precision_ok p ->
  integer_modulo_four x = Ret (n ← dy_integer m e; Some (signed s n mod 4)).
Proof using All.
  intros (words & ex & E & Hw & HT & Hd & _) Hp. destruct (mantissa_range words Hw) as [HM HT0].
  unfold integer_modulo_four. pose proof (raw_parts_view x) as Hraw. rewrite E in Hraw. destruct Hraw as (n0 & inexact & ->).
  replace (zlen words * WORD_BIT_SIZE) with (mantissa_bits (F := F) words) by (unfold mantissa_bits; ring). pose proof (word_size (F := F)).
  rewrite checked_ok by (unfold I64_MAX, precision_ok in *; lia). cbn [expect outcome_bind]. rewrite fractional_bits by done. cbn [outcome_bind].
  rewrite !mantissa_bit_ok by done. cbn [outcome_bind]. rewrite <- (dy_integer_eq _ _ _ _ Hd).
  replace (ex - mantissa_bits words) with (- (mantissa_bits (F := F) words - ex)) by lia. set (shift := mantissa_bits words - ex).
  destruct (dy_integer (mantissa WORD_BIT_SIZE words) (- shift)) as [n|] eqn:En; [|done]. cbn [option_bind mbind].
  assert (n = Z.shiftr (mantissa WORD_BIT_SIZE words) shift) as Hn.
  { unfold dy_integer in En. rewrite Z.opp_involutive in En. destruct (0 <=? - shift) eqn:Es.
    - injection En as <-. rewrite <- (Z.opp_involutive shift) at 2. rewrite Z.shiftr_opp_r, Z.shiftl_mul_pow2; [done|lia].
    - destruct (_ =? 0) in En; [|done]. injection En as <-. by rewrite Z.shiftr_div_pow2 by lia. }
  assert (forall i, 0 <= i -> Z.testbit (mantissa WORD_BIT_SIZE words) (shift + i) = Z.testbit n i) as Hbit
    by (intros i Hi; by rewrite Hn, Z.shiftr_spec, Z.add_comm by done).
  pose proof (Hbit 0 ltac:(lia)) as Hlow. rewrite Z.add_0_r in Hlow. rewrite Hlow, (Hbit 1), <- mod4_bits by lia. do 2 f_equal.
  destruct s; case_decide; try done; cbn [signed]. apply opposite_mod4.
Qed.

(** The bound on the exponents that are multiplied out. *)
Definition power_limit (factor : Z) : Z := (2 ^ 31 - 1) / 4 / (factor `max` 1).

Lemma integer_exponent_ok p (x : F) s m e factor :
  denotes p (view x) s m e -> 0 < m -> 64 <= p -> precision_ok p ->
  integer_exponent x factor = Ret (n ← dy_integer m e; if n <=? power_limit factor then Some (bool_decide (s = Neg), n) else None).
Proof using All.
  intros Hden Hm Hp64 Hp. destruct (denotes_exponent _ _ _ _ _ Hden Hm) as (ex & Eex & Hex). unfold integer_exponent. rewrite Eex. fold (power_limit factor).
  assert (power_limit factor < 2 ^ 31) as Hlim.
  { unfold power_limit. apply Z.div_lt_upper_bound; [lia|]. change ((2 ^ 31 - 1) / 4) with 536870911. nia. }
  assert (forall n, dy_integer m e = Some n -> 0 < n /\ Z.log2 n + 1 = ex) as Hlog.
  { intros n Hn. apply dy_integer_Some in Hn. assert (n <> 0) by (intros ->; apply dy_eq_zero in Hn; lia).
    assert (0 <= n). { specialize (Hn (e `min` 0) ltac:(lia) ltac:(lia)). pose proof (pow2_pos (e - e `min` 0) ltac:(lia)). pose proof (pow2_pos (0 - e `min` 0) ltac:(lia)). nia. }
    pose proof (dy_eq_log2 m e n 0 Hm ltac:(lia) Hn). lia. }
  destruct ((1 <=? ex) && (ex <=? 64)) eqn:Erange; cbn [negb].
  2: { f_equal. destruct (dy_integer m e) as [n|] eqn:En; [|done]. destruct (Hlog n eq_refl) as [Hn Hl]. cbn [mbind option_bind].
       destruct (n <=? power_limit factor) eqn:El; [|done]. assert (Z.log2 n < 31) by (apply Z.log2_lt_pow2; lia). pose proof (Z.log2_nonneg n). lia. }
  destruct (denotes_bits _ _ _ _ _ Hden ltac:(lia)) as (words & ex' & E & Hw & HT & Hd & Htop & HT0). destruct (mantissa_range words Hw) as [HM _].
  rewrite exponent_view, E in Eex. injection Eex as ->. pose proof (raw_parts_view x) as Hraw. rewrite E in Hraw. destruct Hraw as (n0 & inexact & ->).
  replace (zlen words * WORD_BIT_SIZE) with (mantissa_bits (F := F) words) by (unfold mantissa_bits; ring). pose proof (word_size (F := F)).
  set (T := mantissa_bits words) in *. unfold usize_checked_sub. rewrite checked_ok by (unfold USIZE_MAX, precision_ok in *; lia). cbn [expect outcome_bind].
  rewrite (any_bit_ok words Hw), Z.pow_0_r, Z.div_1_r, Z2Nat.id by (rewrite ?Z2Nat.id by lia; fold T; lia). cbn [outcome_bind].
  rewrite <- (dy_integer_eq _ _ _ _ Hd). replace (ex - T) with (- (T - ex)) by lia. set (shift := T - ex).
  rewrite collect_u64_ok, (collect_bits_ok words Hw) by (try done; try rewrite Z2Nat.id by lia; fold T; (lia || (split; [lia|apply pow2_pos; lia]))).
  cbn [outcome_bind]. rewrite Z.mul_0_l, Z.add_0_l, Z2Nat.id, (Z.mod_small _ (2 ^ (T - shift))).
  2: { pose proof (pow2_pos shift ltac:(lia)). split; [apply Z.div_pos; lia|]. apply Z.div_lt_upper_bound; [lia|]. rewrite <- Z.pow_add_r by lia. replace (shift + (T - shift)) with T by lia. lia. }
  2: lia.
  unfold dy_integer. rewrite Z.opp_involutive. destruct (0 <=? - shift) eqn:Es.
  - assert (shift = 0) as -> by lia. by rewrite !Z.pow_0_r, Z.mod_1_r, Z.div_1_r, Z.mul_1_r.
  - destruct (_ =? 0); done.
Qed.
End recognition.

(** ** The real power *)

(** Splits on the tests of a goal, and on their arithmetic. *)
Ltac settle_tests :=
  repeat match goal with
  | |- context [?a =? ?b] => destruct (Z.eqb_spec a b); try (exfalso; lia)
  | |- context [?a <? ?b] => destruct (Z.ltb_spec a b); try (exfalso; lia)
  | |- context [?a ?= ?b] => destruct (Z.compare_spec a b); try (exfalso; lia)
  | |- context [bool_decide ?P] => destruct (bool_decide_reflect P); try congruence
  end; cbn [orb andb].

(** The code of one. *)
Definition one_code (f : BinaryFormat) : Z := format_bias f * 2 ^ fraction_bits f.

Lemma one_code_range f : 0 < one_code f < infinity f.
Proof. by destruct f. Qed.

Lemma one_code_units f : dy_eq (code_units f (one_code f)) (unit_exponent f) 1 0.
Proof.
  destruct (format_ranges f) as (? & ? & _). pose proof (bias_range f). pose proof (pow_format_pos f). apply dy_eq_sym.
  assert (code_units f (one_code f) = 1 * 2 ^ (- unit_exponent f)) as ->.
  { unfold code_units, code_field, code_fraction, one_code. rewrite Z.div_mul, Z.mod_mul, Z.add_0_r, Z.mul_1_l by lia.
    destruct (format_bias f =? 0) eqn:E; [lia|]. rewrite <- Z.pow_add_r by lia. f_equal. unfold unit_exponent. lia. }
  replace (unit_exponent f) with (0 - (- unit_exponent f)) at 2 by lia. apply dy_eq_sym, dy_eq_scale. unfold unit_exponent. lia.
Qed.

(** A finite exponent as an integer, if it is one, and whether it is odd. *)
Definition exponent_integer (f : BinaryFormat) (code : Z) : option Z := dy_integer (code_units f code) (unit_exponent f).

Definition odd_exponent (f : BinaryFormat) (code : Z) : bool :=
  match exponent_integer f code with Some n => Z.odd n | None => false end.

Lemma one_code_odd f : exponent_integer f (one_code f) = Some 1.
Proof. apply dy_integer_Some, one_code_units. Qed.

(** The result of an infinite exponent: whether the power grows without bound. *)
Definition unbounded (f : BinaryFormat) (grows : bool) : Z := if grows then infinity f else 0.

Lemma odd_mod4 s n : negb (Z.land (signed s n mod 4) 1 =? 0) = Z.odd n.
Proof.
  change 1 with (Z.ones 1). rewrite Z.land_ones, Z.pow_1_r, Zmod_odd, <- Z.bit0_odd by lia. change 4 with (2 ^ 2).
  rewrite Z.mod_pow2_bits_low, Z.bit0_odd by lia. replace (Z.odd (signed s n)) with (Z.odd n) by (destruct s; cbn [signed]; by rewrite ?Z.odd_opp).
  by destruct (Z.odd n).
Qed.

Section real.
Context {F : Type} `{!BigFloat F, !BigFloatLaws F, !BigFunctions F}.
Context (f : BinaryFormat).

Abbreviation one := (one_code f).
Abbreviation number s code := (Z.lor (sign_bits f s) code).

Lemma encode_one : encode f (from_u8 (F := F) 1 128) = Ret one.
Proof using All.
  assert (precision_ok 128) as Hp by (unfold precision_ok; lia). destruct (format_ranges f) as (? & _). pose proof (one_code_range f).
  destruct (encode_denotes f 128 (from_u8 (F := F) 1 128) Pos (code_units f one) (unit_exponent f)) as (bits & -> & code & -> & Hn).
  - eapply denotes_dy; [by apply (from_u8_number (F := F) 1 128)|]. apply dy_eq_sym, one_code_units.
  - pose proof (units_le f 0 one ltac:(lia)) as Hz. by rewrite units_0 in Hz.
  - lia.
  - done.
  - by apply units_bound; lia.
  - by rewrite (nearest_exact f code one ltac:(lia) Hn).
Qed.

Lemma number_eq s c t d : 0 <= c < sign_mask f -> 0 <= d < sign_mask f -> (number s c =? number t d) = bool_decide (s = t) && (c =? d).
Proof using.
  intros Hc Hd. rewrite !sign_code_add by done. unfold sign_bits.
  destruct s, t; repeat case_decide; try done; destruct (c =? d) eqn:E; cbn [bool_decide andb]; apply eq_true_iff_eq; rewrite Z.eqb_eq; lia || (split; [lia|done]).
Qed.

(** The value of the exponent. *)
Lemma decode_exponent s c :
  0 <= c < infinity f -> exists x : F, decode f (number s c) 128 = Ret x /\
    integer_modulo_four x = Ret (n ← exponent_integer f c; Some (signed s n mod 4)) /\ denotes 128 (view x) s (code_units f c) (unit_exponent f).
Proof using All.
  intros Hc. assert (precision_ok 128) as Hp by (unfold precision_ok; lia). destruct (decode_finite (F := F) f s c 128 Hc ltac:(lia) Hp) as (x & E & Hd).
  exists x. split; [done|]. split; [|done]. by apply (integer_modulo_four_ok 128).
Qed.

(** A finite power of the magnitude [c], before its sign. *)
Definition finite_power (c : Z) (exponent_value : F) (exponent : Z) : outcome Z :=
  let! precision := working_precision f (default 0 (big_exponent exponent_value)) in
  let! base := decode (F := F) f c precision in
  let! exponent := decode (F := F) f exponent precision in
  let! constants := expect consts_new in
  let! (result, _) := magnitude_power base exponent precision constants in
  encode f result.

(** The branches of the code on the parts of its operands. *)
Lemma real_power_cases sb cb se ce :
  0 <= cb < sign_mask f -> 0 <= ce < sign_mask f ->
  real_power (F := F) f (number sb cb) (number se ce) =
  if (ce =? 0) || (bool_decide (sb = Pos) && (cb =? one)) then Ret one
  else if (infinity f <? cb) || (infinity f <? ce) then Ret (nan f)
  else if bool_decide (se = Pos) && (ce =? one) then Ret (number sb cb)
  else if ce =? infinity f then Ret (match cb ?= one with Eq => one | Gt => unbounded f (bool_decide (se = Pos)) | Lt => unbounded f (bool_decide (se = Neg)) end)
  else
    let sign := if bool_decide (sb = Neg) && odd_exponent f ce then sign_mask f else 0 in
    if cb =? 0 then Ret (Z.lor sign (unbounded f (bool_decide (se = Neg))))
    else if cb =? infinity f then Ret (Z.lor sign (unbounded f (bool_decide (se = Pos))))
    else if bool_decide (sb = Neg) && match exponent_integer f ce with None => true | Some _ => false end then Ret (nan f)
    else if cb =? one then Ret (Z.lor one sign)
    else
      let! x := decode (F := F) f (number se ce) 128 in
      let! bits := finite_power cb x (number se ce) in
      Ret (Z.lor bits sign).
Proof using All.
  intros Hb He. pose proof (one_code_range f) as Hone. pose proof (infinity_sign_mask f) as Hinf. unfold real_power. rewrite encode_one. cbn [outcome_bind].
  assert (forall s c, 0 <= c < sign_mask f -> format_is_zero f (number s c) = (c =? 0) /\ format_is_nan f (number s c) = (infinity f <? c) /\
    format_is_infinite f (number s c) = (c =? infinity f)) as Hclass
    by (intros s c Hc; unfold format_is_zero, format_is_nan, format_is_infinite; by rewrite magnitude_of).
  destruct (Hclass sb cb Hb) as (-> & -> & ->), (Hclass se ce He) as (-> & -> & ->).
  assert (forall s c, 0 <= c < sign_mask f -> (number s c =? one) = bool_decide (s = Pos) && (c =? one)) as Heq.
  { intros s c Hc. rewrite <- (number_eq s c Pos one) by lia. unfold sign_bits at 3. case_decide; [done|]. by rewrite Z.lor_0_l. }
  rewrite !Heq, !sign_bit_of, magnitude_of by done.
  assert (forall s, negb (sign_bits f s =? 0) = bool_decide (s = Neg)) as Hneg.
  { intros s. pose proof (sign_mask_range f). unfold sign_bits. destruct s; case_decide; try done. destruct (sign_mask f =? 0) eqn:E; [lia|done]. }
  rewrite !Hneg. destruct ((ce =? 0) || _); [done|]. destruct (infinity f <? cb) eqn:Nb, (infinity f <? ce) eqn:Ne; cbn [orb]; try done.
  destruct (bool_decide (se = Pos) && (ce =? one)); [done|]. unfold unbounded. destruct (ce =? infinity f) eqn:Ei; [by destruct se, (cb ?= one)|].
  destruct (decode_exponent se ce ltac:(lia)) as (x & Ex & Em & _). rewrite Ex. cbn [outcome_bind]. rewrite Em. cbn [outcome_bind].
  assert (match n ← exponent_integer f ce; Some (signed se n mod 4) with Some value => negb (Z.land value 1 =? 0) | None => false end = odd_exponent f ce) as ->.
  { unfold odd_exponent. destruct (exponent_integer f ce) as [n|]; [|done]. cbn [mbind option_bind]. apply odd_mod4. }
  assert (match n ← exponent_integer f ce; Some (signed se n mod 4) with None => true | Some _ => false end = match exponent_integer f ce with None => true | Some _ => false end) as -> by (by destruct (exponent_integer f ce)).
  assert ((if bool_decide (se = Neg) then 0 else infinity f) = if bool_decide (se = Pos) then infinity f else 0) as -> by (by destruct se).
  cbv zeta. destruct (cb =? 0); [done|]. destruct (cb =? infinity f); [done|]. destruct (bool_decide (sb = Neg) && _); [done|]. destruct (cb =? one); [done|].
  unfold finite_power. repeat (match goal with |- context [outcome_bind ?m _] => destruct m as [[]| |] || destruct m; cbn [outcome_bind] end; try done).
Qed.

(** What a power is by the classes of its operands, each a sign and a magnitude. *)
Inductive special_power : Sign -> Z -> Sign -> Z -> Z -> Prop :=
| power_zero sb cb se : special_power sb cb se 0 one
| one_power se ce : special_power Pos one se ce one
| power_one sb cb : cb <= infinity f -> special_power sb cb Pos one (number sb cb)
| nan_power sb cb se ce : infinity f < cb -> ce <> 0 -> special_power sb cb se ce (nan f)
| power_nan sb cb se ce : ~ (sb = Pos /\ cb = one) -> infinity f < ce -> special_power sb cb se ce (nan f)
| unit_power_infinity sb se : special_power sb one se (infinity f) one
| large_power_infinity sb cb se : one < cb <= infinity f -> special_power sb cb se (infinity f) (unbounded f (bool_decide (se = Pos)))
| small_power_infinity sb cb se : cb < one -> special_power sb cb se (infinity f) (unbounded f (bool_decide (se = Neg)))
| zero_power sb se ce :
    0 < ce < infinity f ->
    special_power sb 0 se ce (number (if odd_exponent f ce then sb else Pos) (unbounded f (bool_decide (se = Neg))))
| infinity_power sb se ce :
    0 < ce < infinity f ->
    special_power sb (infinity f) se ce (number (if odd_exponent f ce then sb else Pos) (unbounded f (bool_decide (se = Pos))))
| negative_power cb se ce :
    0 < cb < infinity f -> 0 < ce < infinity f -> exponent_integer f ce = None -> special_power Neg cb se ce (nan f)
| minus_one_power se ce :
    0 < ce < infinity f -> exponent_integer f ce <> None -> special_power Neg one se ce (number (if odd_exponent f ce then Neg else Pos) one).

(** The sign of a result as the code writes it. *)
Lemma result_sign sb (odd : bool) :
  (if bool_decide (sb = Neg) && odd then sign_mask f else 0) = sign_bits f (if odd then sb else Pos).
Proof using. unfold sign_bits. by destruct sb, odd. Qed.

Lemma one_odd : odd_exponent f one = true.
Proof using. unfold odd_exponent. by rewrite one_code_odd. Qed.

(** C20. The special cases of the real power, for every pattern of bits: [x^0] and
    [1^y] are one, even for NaN, and another NaN gives the quiet NaN; [x^1] is
    [x]; an infinite exponent gives one, infinity or zero by whether the magnitude
    of the base is one, above or below; a zero or infinite base gives a zero or an
    infinity by the sign of the exponent, negative only for an odd exponent; a
    negative base has no power that is not integral; and powers of minus one are
    one with the parity's sign.  The code recognizes integers and their parity
    from the bits of the exponent's mantissa. *)
Theorem real_power_special sb cb se ce result :
  0 <= cb < sign_mask f -> 0 <= ce < sign_mask f -> special_power sb cb se ce result ->
  real_power (F := F) f (number sb cb) (number se ce) = Ret result.
Proof using All.
  intros Hb He Hs. rewrite real_power_cases by done. pose proof (one_code_range f) as Hone. pose proof (infinity_sign_mask f) as Hinf. rewrite result_sign.
  destruct Hs; cbv zeta; settle_tests; subst; try done.
  all: rewrite ?one_odd; pose proof (one_code_odd f); try done; try congruence; try (by exfalso; tauto).
  all: destruct (exponent_integer f _) as [n'|] eqn:En; try congruence; by rewrite Z.lor_comm.
Qed.

(** For an integral exponent the power of the opposite base is the power of
    the base with the sign of the exponent's parity, whatever the base: finite,
    zero or infinite, the integral exponent of any size, and through whichever
    branch of the code the magnitude is computed. *)
Theorem real_power_sign cb se ce n :
  0 <= cb <= infinity f -> 0 < ce < infinity f -> exponent_integer f ce = Some n ->
  real_power (F := F) f (number Neg cb) (number se ce) =
  let! bits := real_power (F := F) f (number Pos cb) (number se ce) in
  Ret (Z.lor (sign_bits f (if Z.odd n then Neg else Pos)) bits).
Proof using All.
  intros Hb He Hn. pose proof (one_code_range f) as Hone. pose proof (infinity_sign_mask f) as Hinf. rewrite !real_power_cases by lia.
  rewrite !result_sign. unfold odd_exponent. rewrite Hn. cbv zeta. assert (sign_bits f Pos = 0) as HPos by done.
  settle_tests; subst; cbn [outcome_bind]; rewrite ?one_code_odd in Hn; try (injection Hn as <-); try done.
  all: try (destruct (Z.odd n); rewrite ?HPos, ?Z.lor_0_l, ?Z.lor_0_r; try done; by rewrite Z.lor_comm).
  all: try (rewrite Z.lor_comm; done).
  all: destruct (decode f _ 128) as [x| |]; [|done..]; cbn [outcome_bind]; destruct (finite_power cb x _) as [bits| |]; [|done..]; cbn [outcome_bind].
  all: try destruct (Z.odd n); rewrite ?HPos, ?Z.lor_0_l, ?Z.lor_0_r; try done; by rewrite Z.lor_comm.
Qed.
End real.

(** ** Repeated squaring *)

Section squaring.
Context {F : Type} `{!BigFloat F} (precision : usize).

(** The product over the binary digits of the count, the lowest first. *)
Fixpoint digits_power (count : positive) (result factor : F * F) : F * F :=
  match count with
  | xH => power_multiply result factor precision
  | xO count => digits_power count result (power_multiply factor factor precision)
  | xI count => digits_power count (power_multiply result factor precision) (power_multiply factor factor precision)
  end.

Lemma squaring_rounds count : forall fuel result factor,
  (Pos.size_nat count < fuel)%nat -> loop fuel (squaring_step precision) (Zpos count, result, factor) = Ret (digits_power count result factor).
Proof using.
  induction count as [count IH|count IH|]; intros [|fuel] result factor Hf; cbn [Pos.size_nat] in Hf; try lia; cbn [loop digits_power]; unfold squaring_step at 1.
  - replace (Z.shiftr (Z.pos count~1) 1) with (Z.pos count) by done. cbn [Z.eqb Z.land negb Pos.land outcome_bind]. rewrite IH by lia. done.
  - replace (Z.shiftr (Z.pos count~0) 1) with (Z.pos count) by done. cbn [Z.eqb Z.land negb Pos.land outcome_bind]. rewrite IH by lia. done.
  - cbn. destruct fuel; [lia|done].
Qed.

Lemma digits_bound (count : positive) : forall n, Zpos count < 2 ^ Z.of_nat n -> (Pos.size_nat count <= n)%nat.
Proof using.
  induction count as [count IH|count IH|]; intros [|n] Hn; cbn [Pos.size_nat]; try (simpl in Hn; lia).
  all: rewrite Nat2Z.inj_succ, Z.pow_succ_r in Hn by lia; specialize (IH n ltac:(lia)); lia.
Qed.

(** The loop ends within its fuel for every 64-bit count. *)
Lemma squarings_ok base count :
  0 <= count <= U64_MAX ->
  squarings precision base count =
  Ret (match count with Zpos count => digits_power count (from_u8 1 precision, from_u8 0 precision) base | _ => (from_u8 1 precision, from_u8 0 precision) end).
Proof using.
  intros Hc. unfold squarings. destruct count as [|count|count]; [done| |lia]. apply squaring_rounds.
  pose proof (digits_bound count 64). unfold U64_MAX in Hc. lia.
Qed.
End squaring.

(** ** The model

    Comparison and whole powers of the model; its elementary functions are not
    reached below. *)

Definition model_cmp (a b : big_view) : option Z :=
  match model_add a (model_neg b) 64 with
  | ViewNaN => None
  | ViewInf s => Some (signed s 1)
  | ViewNumber s words _ => Some (if mantissa 64 words =? 0 then 0 else signed s 1)
  end.

Definition model_abs (a : big_view) : big_view := set_sign a Pos.

Definition model_powi (a : big_view) (n p : Z) : big_view := Nat.iter (Z.to_nat n) (fun x => model_mul x a p) (model_number Pos 1 0 p).

#[local] Instance model_functions : BigFunctions big_view := {
  Consts := unit;
  consts_new := Some tt;
  big_neg := model_neg;
  big_cmp := model_cmp;
  big_abs_cmp a b := model_cmp (model_abs a) (model_abs b);
  big_sqrt _ _ := ViewNaN;
  big_powi := model_powi;
  big_ln _ _ c := (ViewNaN, c);
  big_exp _ _ c := (ViewNaN, c);
  big_sin _ _ c := (ViewNaN, c);
  big_cos _ _ c := (ViewNaN, c);
  big_atan _ _ c := (ViewNaN, c);
  big_pi _ c := (ViewNaN, c);
}.

(** [(-0)^-3] is minus infinity in the 16-bit format. *)
Lemma real_power_special_witness :
  real_power (F := big_view) Binary16 (Z.lor (sign_bits Binary16 Neg) 0) (Z.lor (sign_bits Binary16 Neg) 16896) = Ret 64512.
Proof.
  rewrite (real_power_special (F := big_view) Binary16 Neg 0 Neg 16896 _ ltac:(done) ltac:(done) (zero_power Binary16 Neg Neg 16896 ltac:(done))).
  vm_compute. reflexivity.
Defined.

