(* ===== verification/InterfaceFormat.v ===== *)
(** * The format of package interfaces

    [bray-package-interface]: the vocabulary of failures ([diagnostic.rs]), the
    bounded reader and the encoder of the wire ([wire.rs]), ranges and reserved
    storage ([framing.rs]), the header ([header.rs]), sections and their
    directory entries ([section.rs]), limits ([limits.rs]), digests ([hash.rs]),
    the stored encoding of a section ([encoding.rs]) and the budget of a decoder
    ([decode.rs]).

    The digest (BLAKE3), the compressor (Zstandard) and the allocator are
    libraries: classes of operations here.  What is documented of the first two
    is stated as the classes [Blake3Laws] and [ZstdLaws]. *)

From Stdlib Require Import ZArith Lia String.
From stdpp Require Import base list numbers option.
From S2P Require Import Prelude.

Abbreviation u16 := Z.

(** ** section.rs: vocabulary *)

Inductive InterfaceSectionCompatibility := Required | Discardable | PreserveOpaque.

#[export] Instance compatibility_eq_dec : EqDecision InterfaceSectionCompatibility.
Proof. solve_decision. Defined.

Definition compatibility_from_wire_value (value : u8) : option InterfaceSectionCompatibility :=
  match value with 0 => Some Required | 1 => Some Discardable | 2 => Some PreserveOpaque | _ => None end.

Definition compatibility_wire_value (self : InterfaceSectionCompatibility) : u8 :=
  match self with Required => 0 | Discardable => 1 | PreserveOpaque => 2 end.

Definition compatibility_is_optional (self : InterfaceSectionCompatibility) : bool :=
  match self with Discardable | PreserveOpaque => true | Required => false end.

Inductive InterfaceSectionTag :=
| Strings | PackageMetadata | Dependencies | SymbolIdentities | Relationships | ExportedLookup | SemanticRecordDirectory | SemanticTypes
| Constants | Contracts | DeclarationTemplates | Implementations | TargetDependencies | SourceProvenance | SupportGraph | DeclarationSemantics.

#[export] Instance section_tag_eq_dec : EqDecision InterfaceSectionTag.
Proof. solve_decision. Defined.

Definition tag_ALL : list InterfaceSectionTag :=
  [Strings; PackageMetadata; Dependencies; SymbolIdentities; Relationships; ExportedLookup; SemanticRecordDirectory; SemanticTypes;
   Constants; Contracts; DeclarationTemplates; Implementations; TargetDependencies; SourceProvenance; SupportGraph; DeclarationSemantics].

Definition tag_from_wire_value (value : u32) : option InterfaceSectionTag :=
  match value with
  | 1 => Some Strings | 2 => Some PackageMetadata | 3 => Some Dependencies | 4 => Some SymbolIdentities
  | 5 => Some Relationships | 6 => Some ExportedLookup | 7 => Some SemanticRecordDirectory | 8 => Some SemanticTypes
  | 9 => Some Constants | 10 => Some Contracts | 11 => Some DeclarationTemplates | 12 => Some Implementations
  | 13 => Some TargetDependencies | 14 => Some SourceProvenance | 15 => Some SupportGraph | 16 => Some DeclarationSemantics
  | _ => None
  end.

Definition tag_wire_value (self : InterfaceSectionTag) : u32 :=
  match self with
  | Strings => 1 | PackageMetadata => 2 | Dependencies => 3 | SymbolIdentities => 4
  | Relationships => 5 | ExportedLookup => 6 | SemanticRecordDirectory => 7 | SemanticTypes => 8
  | Constants => 9 | Contracts => 10 | DeclarationTemplates => 11 | Implementations => 12
  | TargetDependencies => 13 | SourceProvenance => 14 | SupportGraph => 15 | DeclarationSemantics => 16
  end.

Definition tag_as_str (self : InterfaceSectionTag) : string :=
  match self with
  | Strings => "strings" | PackageMetadata => "package_metadata" | Dependencies => "dependencies"
  | SymbolIdentities => "symbol_identities" | Relationships => "relationships" | ExportedLookup => "exported_lookup"
  | SemanticRecordDirectory => "semantic_record_directory" | SemanticTypes => "semantic_types" | Constants => "constants"
  | Contracts => "contracts" | DeclarationTemplates => "declaration_templates" | Implementations => "implementations"
  | TargetDependencies => "target_dependencies" | SourceProvenance => "source_provenance" | SupportGraph => "support_graph"
  | DeclarationSemantics => "declaration_semantics"
  end%string.

Definition tag_from_name (name : string) : option InterfaceSectionTag :=
  List.find (fun section => String.eqb (tag_as_str section) name) tag_ALL.

Definition tag_is_optional (self : InterfaceSectionTag) : bool := match self with SourceProvenance => true | _ => false end.

Definition contributes_to_content_hash (self : InterfaceSectionTag) : bool := match self with SourceProvenance => false | _ => true end.

Definition tag_compatibility (self : InterfaceSectionTag) : InterfaceSectionCompatibility :=
  match self with SourceProvenance => Discardable | _ => Required end.

Definition InterfaceSectionRevision_CURRENT : u16 := 1.

(** ** diagnostic.rs *)

Inductive InterfaceSemanticRecordKind :=
| CallableSignature | GenericDeclaration | CallableParameterDefault | PredicateDefinition | DeclaredType | TypeRepresentation
| GenericConstraint | CallableContracts | DeclarationTemplate | Implementation | TargetProperty | Abi | Runtime.

Inductive InterfaceValidationContext :=
| ArtifactContext
| HeaderContext
| DirectoryContext
| DirectoryEntryContext (index : u64) (raw_tag : u32)
| ImplementationEntryContext (index : u64) (raw_kind : u8)
| SectionContext (tag : InterfaceSectionTag)
| RecordContext (section : InterfaceSectionTag) (index : u64)
| SemanticRecordContext (kind : InterfaceSemanticRecordKind) (index : u64)
| ExternalSymbolKeyContext (component : u64).

Inductive InterfaceValidationField :=
| MagicField | FormatRevisionField | LanguageRevisionField | ByteOrderMarkerField | RequiredFlagsField | DeclaredFileLengthField
| DirectoryOffsetField | DirectoryLengthField | ContentHashField | ArtifactHashField | SectionTagField | SectionRevisionField
| SectionCompatibilityField | SectionEncodingField | SectionOffsetField | EncodedLengthField | DecodedLengthField | RecordCountField
| RecordOffsetField | RecordLengthField | RecordPayloadField | DiscriminantField | StringField | StringIndexField | PackageNameField
| PackageVersionField | ProductNameField | SymbolNameField | SymbolKindField | VisibilityField | ContainerField | OwnerField | SubjectField
| RoleField | OrdinalField | DependencyField | ReferenceField | IndexField | DeclarationField | ParameterField | ArgumentField | TypeField
| ConstantField | TemplateField | IntegerBitWidthField | SupportField | SchemaRevisionField | IdentityField | HashField
| RuntimeRequirementsField | ConfigurationField | TargetPropertyField | EntryOffsetField | EntryLengthField | EntryEncodingField
| EntryKindField | OrderingField | ValueField.

Inductive InterfaceIntegerTarget := TargetU16 | TargetU32 | TargetU64 | TargetUsize.

Inductive InterfaceMalformedCause :=
| CauseMissing (field : InterfaceValidationField)
| CauseInvalidValue (field : InterfaceValidationField)
| CauseInvalidDiscriminant (field : InterfaceValidationField) (actual : u64)
| CauseValueMismatch (field : InterfaceValidationField) (expected actual : u64)
| CauseCountMismatch (field : InterfaceValidationField) (expected actual : u64)
| CauseInvalidReference (field : InterfaceValidationField) (index available : u64)
| CauseOrderingViolation (field : InterfaceValidationField) (previous actual : u64)
| CauseDuplicate (field : InterfaceValidationField) (index : u64)
| CauseCycle (field : InterfaceValidationField) (index : u64)
| CauseNumericOverflow (field : InterfaceValidationField) (value : u64) (target : InterfaceIntegerTarget)
| CauseInvalidAlignment (field : InterfaceValidationField) (value alignment : u64)
| CauseRangeOverflow (offset length : u64)
| CauseRangeOverlap (offset length conflicting_offset conflicting_length : u64)
| CauseLengthMismatch (field : InterfaceValidationField) (expected actual : u64).

Inductive InterfaceCompressionFailure :=
| EncoderInitialization
| EncoderConfiguration
| Encoding
| FrameLength
| FrameLengthMismatch (expected actual : u64)
| ContentSize
| ContentSizeMismatch (expected : u64) (actual : option u64)
| MissingHeaderByte (offset : u64)
| InvalidHeaderFlags (descriptor : u8)
| WindowSizeOverflow (descriptor : u8)
| WindowSizeExceeded (actual maximum : u64)
| DecoderInitialization
| DecoderConfiguration
| Decoding
| DecodedLengthMismatch (expected actual : u64).

Inductive InterfaceLimit :=
| FileSize | ImplementationFileSize | SectionCount | ImplementationEntryCount | RecordCount | StringLength | BlobLength
| DecodedAllocation | SemanticTypeDepth | TemplateGraphSize | ExternalReferenceCount.

#[export] Instance limit_eq_dec : EqDecision InterfaceLimit.
Proof. solve_decision. Defined.

(** Digests are 32 bytes. *)
Abbreviation digest := (list u8).

Inductive InterfaceUtf8Failure := InvalidSequence (error_length : option u64) | IncompleteSequence.

(** The failures of validation.  Left out are the four that carry data of other
    parts (files that cannot be read, surfaces that cannot be built, identities and
    dependencies of implementations), which do not come up in reading or writing
    the envelope. *)
Inductive InterfaceValidationError :=
| InvalidMagic (actual : list u8)
| UnsupportedFormatRevision (actual : u16)
| UnsupportedLanguageRevision (expected actual : u16)
| UnsupportedByteOrder (expected actual : u32)
| UnsupportedRequiredFlags (actual : u64)
| Truncated (context : InterfaceValidationContext) (field : InterfaceValidationField) (offset expected_length actual_length : u64)
| TrailingBytes (context : InterfaceValidationContext) (offset count : u64)
| Malformed (context : InterfaceValidationContext) (cause : InterfaceMalformedCause)
| InvalidUtf8 (context : InterfaceValidationContext) (field : InterfaceValidationField) (offset length : u64) (cause : InterfaceUtf8Failure)
| Compression (context : InterfaceValidationContext) (cause : InterfaceCompressionFailure)
| DigestUnavailable (context : InterfaceValidationContext) (field : InterfaceValidationField)
| AllocationUnavailable (context : InterfaceValidationContext) (field : InterfaceValidationField) (requested : u64)
| ArtifactHashMismatch (expected actual : digest)
| ContentHashMismatch (expected actual : digest)
| SectionChecksumMismatch (section : InterfaceSectionTag) (expected actual : digest)
| UnknownSectionChecksumMismatch (raw_tag : u32) (expected actual : digest)
| SectionContentHashMismatch (section : InterfaceSectionTag) (expected actual : digest)
| PayloadChecksumMismatch (context : InterfaceValidationContext) (expected actual : digest)
| PayloadContentHashMismatch (context : InterfaceValidationContext) (expected actual : digest)
| NativeUnitDigestMismatch (expected actual : digest)
| SpecializationKeyMismatch (expected actual : digest)
| ImplementationConfigurationMismatch (expected actual : digest)
| ResourceLimitExceeded (limit : InterfaceLimit) (actual maximum : u64).

(** ** wire.rs *)

Inductive WireDecodeError :=
| WireTruncated (offset expected_length actual_length : usize)
| WireTrailingBytes (offset count : usize).

Definition wire_offset (self : WireDecodeError) : usize :=
  match self with WireTruncated offset _ _ | WireTrailingBytes offset _ => offset end.

Record WireReader := { reader_bytes : list u8; reader_position : usize }.

Definition WireReader_new (bytes : list u8) : WireReader := {| reader_bytes := bytes; reader_position := 0 |}.

Definition read_bytes (length : usize) (self : WireReader) : result (list u8 * WireReader) WireDecodeError :=
  match get_range (reader_bytes self) (reader_position self) (zlen (reader_bytes self)) with
  | None => Err (WireTruncated (reader_position self) length 0)
  | Some remaining =>
      let? bytes := ok_or (get_range remaining 0 length) (WireTruncated (reader_position self) length (zlen remaining)) in
      Ok (bytes, {| reader_bytes := reader_bytes self; reader_position := reader_position self + length |})
  end.

Definition read_array (LENGTH : usize) (self : WireReader) : result (list u8 * WireReader) WireDecodeError :=
  let offset := reader_position self in
  let? r := read_bytes LENGTH self in
  if zlen r.1 =? LENGTH then Ok r else Err (WireTruncated offset LENGTH (zlen r.1)).

Definition read_le (width : usize) (self : WireReader) : result (Z * WireReader) WireDecodeError :=
  let? r := read_array width self in Ok (from_le_bytes r.1, r.2).

Definition read_u8 : WireReader -> result (u8 * WireReader) WireDecodeError := read_le 1.
Definition read_u16 : WireReader -> result (u16 * WireReader) WireDecodeError := read_le 2.
Definition read_u32 : WireReader -> result (u32 * WireReader) WireDecodeError := read_le 4.
Definition read_u64 : WireReader -> result (u64 * WireReader) WireDecodeError := read_le 8.

Definition reader_remaining (self : WireReader) : outcome usize := expect (usize_checked_sub (zlen (reader_bytes self)) (reader_position self)).

Definition reader_finish (self : WireReader) : result unit WireDecodeError :=
  if reader_position self =? zlen (reader_bytes self) then Ok tt
  else Err (WireTrailingBytes (reader_position self) (zlen (reader_bytes self) - reader_position self)).

(** A [WireEncoder] is the bytes that it holds. *)
Abbreviation WireEncoder := (list u8).

Definition WireEncoder_new : WireEncoder := [].
Definition write_bytes (bytes : list u8) (self : WireEncoder) : WireEncoder := self ++ bytes.
Definition write_u8 (value : u8) : WireEncoder -> WireEncoder := write_bytes (to_le_bytes 1 value).
Definition write_u16 (value : u16) : WireEncoder -> WireEncoder := write_bytes (to_le_bytes 2 value).
Definition write_u32 (value : u32) : WireEncoder -> WireEncoder := write_bytes (to_le_bytes 4 value).
Definition write_u64 (value : u64) : WireEncoder -> WireEncoder := write_bytes (to_le_bytes 8 value).
Definition write_count (count : usize) (self : WireEncoder) : outcome WireEncoder :=
  let! count := expect (u32_try_from count) in Ret (write_u32 count self).

(** ** limits.rs *)

Record InterfaceValidationLimits := {
  file_size : u64;
  implementation_file_size : u64;
  section_count : u64;
  implementation_entry_count : u64;
  records_per_section : u64;
  string_length : u64;
  blob_length : u64;
  decoded_allocation : u64;
  semantic_type_depth : u64;
  template_graph_size : u64;
  external_reference_count : u64;
}.

#[export] Instance limits_eq_dec : EqDecision InterfaceValidationLimits.
Proof. solve_decision. Defined.

Definition InterfaceValidationLimits_DEFAULT : InterfaceValidationLimits := {|
  file_size := 256 * 1024 * 1024;
  implementation_file_size := U64_MAX;
  section_count := 64;
  implementation_entry_count := 1000000;
  records_per_section := 10000000;
  string_length := 16 * 1024 * 1024;
  blob_length := 16 * 1024 * 1024;
  decoded_allocation := 512 * 1024 * 1024;
  semantic_type_depth := 256;
  template_graph_size := 1000000;
  external_reference_count := 10000000;
|}.

Definition maximum (self : InterfaceValidationLimits) (limit : InterfaceLimit) : u64 :=
  match limit with
  | FileSize => file_size self
  | ImplementationFileSize => implementation_file_size self
  | SectionCount => section_count self
  | ImplementationEntryCount => implementation_entry_count self
  | RecordCount => records_per_section self
  | StringLength => string_length self
  | BlobLength => blob_length self
  | DecodedAllocation => decoded_allocation self
  | SemanticTypeDepth => semantic_type_depth self
  | TemplateGraphSize => template_graph_size self
  | ExternalReferenceCount => external_reference_count self
  end.

Definition with_file_size (self : InterfaceValidationLimits) (value : u64) : InterfaceValidationLimits := {|
  file_size := value; implementation_file_size := implementation_file_size self; section_count := section_count self; implementation_entry_count := implementation_entry_count self; records_per_section := records_per_section self;
  string_length := string_length self; blob_length := blob_length self; decoded_allocation := decoded_allocation self; semantic_type_depth := semantic_type_depth self; template_graph_size := template_graph_size self; external_reference_count := external_reference_count self |}.

Definition with_implementation_file_size (self : InterfaceValidationLimits) (value : u64) : InterfaceValidationLimits := {|
  file_size := file_size self; implementation_file_size := value; section_count := section_count self; implementation_entry_count := implementation_entry_count self; records_per_section := records_per_section self;
  string_length := string_length self; blob_length := blob_length self; decoded_allocation := decoded_allocation self; semantic_type_depth := semantic_type_depth self; template_graph_size := template_graph_size self; external_reference_count := external_reference_count self |}.

Definition with_section_count (self : InterfaceValidationLimits) (value : u64) : InterfaceValidationLimits := {|
  file_size := file_size self; implementation_file_size := implementation_file_size self; section_count := value; implementation_entry_count := implementation_entry_count self; records_per_section := records_per_section self;
  string_length := string_length self; blob_length := blob_length self; decoded_allocation := decoded_allocation self; semantic_type_depth := semantic_type_depth self; template_graph_size := template_graph_size self; external_reference_count := external_reference_count self |}.

Definition with_implementation_entry_count (self : InterfaceValidationLimits) (value : u64) : InterfaceValidationLimits := {|
  file_size := file_size self; implementation_file_size := implementation_file_size self; section_count := section_count self; implementation_entry_count := value; records_per_section := records_per_section self;
  string_length := string_length self; blob_length := blob_length self; decoded_allocation := decoded_allocation self; semantic_type_depth := semantic_type_depth self; template_graph_size := template_graph_size self; external_reference_count := external_reference_count self |}.

Definition with_records_per_section (self : InterfaceValidationLimits) (value : u64) : InterfaceValidationLimits := {|
  file_size := file_size self; implementation_file_size := implementation_file_size self; section_count := section_count self; implementation_entry_count := implementation_entry_count self; records_per_section := value;
  string_length := string_length self; blob_length := blob_length self; decoded_allocation := decoded_allocation self; semantic_type_depth := semantic_type_depth self; template_graph_size := template_graph_size self; external_reference_count := external_reference_count self |}.

Definition with_string_length (self : InterfaceValidationLimits) (value : u64) : InterfaceValidationLimits := {|
  file_size := file_size self; implementation_file_size := implementation_file_size self; section_count := section_count self; implementation_entry_count := implementation_entry_count self; records_per_section := records_per_section self;
  string_length := value; blob_length := blob_length self; decoded_allocation := decoded_allocation self; semantic_type_depth := semantic_type_depth self; template_graph_size := template_graph_size self; external_reference_count := external_reference_count self |}.

Definition with_blob_length (self : InterfaceValidationLimits) (value : u64) : InterfaceValidationLimits := {|
  file_size := file_size self; implementation_file_size := implementation_file_size self; section_count := section_count self; implementation_entry_count := implementation_entry_count self; records_per_section := records_per_section self;
  string_length := string_length self; blob_length := value; decoded_allocation := decoded_allocation self; semantic_type_depth := semantic_type_depth self; template_graph_size := template_graph_size self; external_reference_count := external_reference_count self |}.

Definition with_decoded_allocation (self : InterfaceValidationLimits) (value : u64) : InterfaceValidationLimits := {|
  file_size := file_size self; implementation_file_size := implementation_file_size self; section_count := section_count self; implementation_entry_count := implementation_entry_count self; records_per_section := records_per_section self;
  string_length := string_length self; blob_length := blob_length self; decoded_allocation := value; semantic_type_depth := semantic_type_depth self; template_graph_size := template_graph_size self; external_reference_count := external_reference_count self |}.

Definition with_semantic_type_depth (self : InterfaceValidationLimits) (value : u64) : InterfaceValidationLimits := {|
  file_size := file_size self; implementation_file_size := implementation_file_size self; section_count := section_count self; implementation_entry_count := implementation_entry_count self; records_per_section := records_per_section self;
  string_length := string_length self; blob_length := blob_length self; decoded_allocation := decoded_allocation self; semantic_type_depth := value; template_graph_size := template_graph_size self; external_reference_count := external_reference_count self |}.

Definition with_template_graph_size (self : InterfaceValidationLimits) (value : u64) : InterfaceValidationLimits := {|
  file_size := file_size self; implementation_file_size := implementation_file_size self; section_count := section_count self; implementation_entry_count := implementation_entry_count self; records_per_section := records_per_section self;
  string_length := string_length self; blob_length := blob_length self; decoded_allocation := decoded_allocation self; semantic_type_depth := semantic_type_depth self; template_graph_size := value; external_reference_count := external_reference_count self |}.

Definition with_external_reference_count (self : InterfaceValidationLimits) (value : u64) : InterfaceValidationLimits := {|
  file_size := file_size self; implementation_file_size := implementation_file_size self; section_count := section_count self; implementation_entry_count := implementation_entry_count self; records_per_section := records_per_section self;
  string_length := string_length self; blob_length := blob_length self; decoded_allocation := decoded_allocation self; semantic_type_depth := semantic_type_depth self; template_graph_size := template_graph_size self; external_reference_count := value |}.

(** The limit that a setter replaces. *)
Definition with_limit (self : InterfaceValidationLimits) (limit : InterfaceLimit) (value : u64) : InterfaceValidationLimits :=
  match limit with
  | FileSize => with_file_size self value
  | ImplementationFileSize => with_implementation_file_size self value
  | SectionCount => with_section_count self value
  | ImplementationEntryCount => with_implementation_entry_count self value
  | RecordCount => with_records_per_section self value
  | StringLength => with_string_length self value
  | BlobLength => with_blob_length self value
  | DecodedAllocation => with_decoded_allocation self value
  | SemanticTypeDepth => with_semantic_type_depth self value
  | TemplateGraphSize => with_template_graph_size self value
  | ExternalReferenceCount => with_external_reference_count self value
  end.

Lemma limits_independent self limit limit' value : maximum (with_limit self limit value) limit' = if decide (limit = limit') then value else maximum self limit'.
Proof. by destruct limit, limit'. Qed.

Definition limits_check (self : InterfaceValidationLimits) (limit : InterfaceLimit) (actual : u64) : result unit InterfaceValidationError :=
  if maximum self limit <? actual then Err (ResourceLimitExceeded limit actual (maximum self limit)) else Ok tt.

Record InterfaceValidationPolicy := { policy_language_revision : u16; policy_limits : InterfaceValidationLimits }.

Definition InterfaceValidationPolicy_new (language_revision : u16) : InterfaceValidationPolicy :=
  {| policy_language_revision := language_revision; policy_limits := InterfaceValidationLimits_DEFAULT |}.

Definition with_limits (self : InterfaceValidationPolicy) (limits : InterfaceValidationLimits) : InterfaceValidationPolicy :=
  {| policy_language_revision := policy_language_revision self; policy_limits := limits |}.

(** ** framing.rs *)

Inductive CheckedRangeError :=
| RangeOverflow (offset length : u64)
| RangeOutOfBounds (offset length available : u64).

(** [Range<usize>] *)
Record byte_range := { range_start : usize; range_end : usize }.

Definition range_len (range : byte_range) : usize := (range_end range - range_start range) `max` 0.

Definition usize_to_u64_saturating (value : usize) : u64 := match checked U64_MAX value with Some value => value | None => U64_MAX end.

Definition usize_saturating_sub (a b : usize) : usize := (a - b) `max` 0.
Definition usize_saturating_mul (a b : usize) : usize := (a * b) `min` USIZE_MAX.
Definition u64_saturating_add (a b : u64) : u64 := (a + b) `min` U64_MAX.

Definition available_length (offset : u64) (file_length : usize) : u64 :=
  match usize_try_from offset with
  | None => 0
  | Some start => usize_to_u64_saturating (usize_saturating_sub file_length start)
  end.

Definition checked_range (offset length : u64) (file_length : usize) : result byte_range CheckedRangeError :=
  let? end_ := ok_or (u64_checked_add offset length) (RangeOverflow offset length) in
  let? start := ok_or (usize_try_from offset) (RangeOverflow offset length) in
  let? end_ := ok_or (usize_try_from end_) (RangeOverflow offset length) in
  if file_length <? end_ then Err (RangeOutOfBounds offset length (available_length offset file_length))
  else Ok {| range_start := start; range_end := end_ |}.

Definition ranges_overlap (left right : byte_range) : bool := (range_start left <? range_end right) && (range_start right <? range_end left).

Definition malformed (context : InterfaceValidationContext) (cause : InterfaceMalformedCause) : InterfaceValidationError := Malformed context cause.

Definition range_validation_error (context : InterfaceValidationContext) (field : InterfaceValidationField) (error : CheckedRangeError)
    : InterfaceValidationError :=
  match error with
  | RangeOverflow offset length => malformed context (CauseRangeOverflow offset length)
  | RangeOutOfBounds offset length available => Truncated context field offset length available
  end.

Definition map_wire_error (context : InterfaceValidationContext) (field : InterfaceValidationField) (error : WireDecodeError)
    : InterfaceValidationError :=
  match error with
  | WireTruncated offset expected_length actual_length =>
      Truncated context field (usize_to_u64_saturating offset) (usize_to_u64_saturating expected_length) (usize_to_u64_saturating actual_length)
  | WireTrailingBytes offset count => TrailingBytes context (usize_to_u64_saturating offset) (usize_to_u64_saturating count)
  end.

Definition invalid_index (context : InterfaceValidationContext) (index available : usize) : InterfaceValidationError :=
  malformed context (CauseInvalidReference IndexField (usize_to_u64_saturating index) (usize_to_u64_saturating available)).

Definition directory_entry_context (index : usize) (raw_tag : u32) : InterfaceValidationContext :=
  DirectoryEntryContext (usize_to_u64_saturating index) raw_tag.

Definition overlapping_range (context : InterfaceValidationContext) (range conflicting : byte_range) : InterfaceValidationError :=
  malformed context (CauseRangeOverlap (usize_to_u64_saturating (range_start range)) (usize_to_u64_saturating (range_len range))
    (usize_to_u64_saturating (range_start conflicting)) (usize_to_u64_saturating (range_len conflicting))).

Definition header_field (offset : usize) : InterfaceValidationField :=
  if offset <? 8 then MagicField
  else if offset <? 10 then FormatRevisionField
  else if offset <? 12 then LanguageRevisionField
  else if offset <? 16 then ByteOrderMarkerField
  else if offset <? 24 then RequiredFlagsField
  else if offset <? 32 then DeclaredFileLengthField
  else if offset <? 40 then DirectoryOffsetField
  else if offset <? 48 then DirectoryLengthField
  else if offset <? 80 then ContentHashField
  else ArtifactHashField.

Definition directory_field (offset : usize) : InterfaceValidationField :=
  if offset <? 4 then SectionTagField
  else if offset <? 6 then SectionRevisionField
  else if offset =? 6 then SectionCompatibilityField
  else if offset =? 7 then SectionEncodingField
  else if offset <? 16 then SectionOffsetField
  else if offset <? 24 then EncodedLengthField
  else if offset <? 32 then DecodedLengthField
  else if offset <? 40 then RecordCountField
  else if offset <? 72 then HashField
  else ContentHashField.

(** [Vec::try_reserve_exact] for a count of items of a size. *)
Class Allocator := try_reserve_exact : usize -> usize -> bool.

Definition allocate_items `{Allocator} {T} (size_of : usize) (context : InterfaceValidationContext) (field : InterfaceValidationField) (count : usize)
    : result (list T) InterfaceValidationError :=
  if try_reserve_exact count size_of then Ok []
  else Err (AllocationUnavailable context field (usize_to_u64_saturating (usize_saturating_mul count size_of))).

(** ** header.rs *)

Definition BYTE_ORDER_MARKER : u32 := 0x01020304.
Definition MAGIC : list u8 := [66; 82; 65; 89; 73; 0; 13; 10].
Definition CURRENT_FORMAT_REVISION : u16 := 1.
Definition InterfaceRequiredFlags_NONE : u64 := 0.

Record InterfaceHeader := {
  format_revision : u16;
  language_revision : u16;
  required_flags : u64;
  declared_file_length : u64;
  directory_offset : u64;
  directory_length : u64;
  header_content_hash : digest;
  artifact_hash : digest;
}.

Definition InterfaceHeader_LENGTH : usize := 112.
Definition CONTENT_HASH_OFFSET : usize := 48.
Definition ARTIFACT_HASH_OFFSET : usize := 80.

Record DecodedHeader := { decoded_magic : list u8; decoded_byte_order_marker : u32; decoded_header : InterfaceHeader }.

Definition InterfaceHeader_decode (bytes : list u8) : result DecodedHeader WireDecodeError :=
  let reader := WireReader_new bytes in
  let? (magic, reader) := read_array 8 reader in
  let? (format_revision, reader) := read_u16 reader in
  let? (language_revision, reader) := read_u16 reader in
  let? (byte_order_marker, reader) := read_u32 reader in
  let? (required_flags, reader) := read_u64 reader in
  let? (declared_file_length, reader) := read_u64 reader in
  let? (directory_offset, reader) := read_u64 reader in
  let? (directory_length, reader) := read_u64 reader in
  let? (content_hash, reader) := read_array 32 reader in
  let? (artifact_hash, reader) := read_array 32 reader in
  Ok {| decoded_magic := magic; decoded_byte_order_marker := byte_order_marker;
        decoded_header := {| format_revision := format_revision; language_revision := language_revision; required_flags := required_flags;
                             declared_file_length := declared_file_length; directory_offset := directory_offset;
                             directory_length := directory_length; header_content_hash := content_hash; artifact_hash := artifact_hash |} |}.

(** ** encoding.rs: the wire values *)

Inductive InterfaceSectionEncoding := Raw | ZstdFrame.

#[export] Instance section_encoding_eq_dec : EqDecision InterfaceSectionEncoding.
Proof. solve_decision. Defined.

Definition encoding_from_wire_value (value : u8) : option InterfaceSectionEncoding :=
  match value with 0 => Some Raw | 1 => Some ZstdFrame | _ => None end.

Definition encoding_wire_value (self : InterfaceSectionEncoding) : u8 := match self with Raw => 0 | ZstdFrame => 1 end.

(** ** section.rs: directory entries *)

Record DirectoryEntry := {
  raw_tag : u32;
  section_revision : u16;
  raw_compatibility : u8;
  raw_encoding : u8;
  entry_offset : u64;
  encoded_length : u64;
  decoded_length : u64;
  record_count : u64;
  checksum : digest;
  entry_content_hash : digest;
}.

Definition DirectoryEntry_LENGTH : usize := 104.
Definition DirectoryEntry_WIRE_LENGTH : u64 := 104.

(** A [DecodedDirectoryEntry] has the same fields, and [from_decoded] copies them. *)
Definition DirectoryEntry_decode (bytes : list u8) : result DirectoryEntry WireDecodeError :=
  let reader := WireReader_new bytes in
  let? (raw_tag, reader) := read_u32 reader in
  let? (section_revision, reader) := read_u16 reader in
  let? (raw_compatibility, reader) := read_u8 reader in
  let? (raw_encoding, reader) := read_u8 reader in
  let? (offset, reader) := read_u64 reader in
  let? (encoded_length, reader) := read_u64 reader in
  let? (decoded_length, reader) := read_u64 reader in
  let? (record_count, reader) := read_u64 reader in
  let? (checksum, reader) := read_array 32 reader in
  let? (content_hash, reader) := read_array 32 reader in
  Ok {| raw_tag := raw_tag; section_revision := section_revision; raw_compatibility := raw_compatibility; raw_encoding := raw_encoding;
        entry_offset := offset; encoded_length := encoded_length; decoded_length := decoded_length; record_count := record_count;
        checksum := checksum; entry_content_hash := content_hash |}.

Definition for_encoded (tag : InterfaceSectionTag) (encoding : InterfaceSectionEncoding) (offset encoded_length decoded_length record_count : u64)
    (checksum content_hash : digest) : DirectoryEntry :=
  {| raw_tag := tag_wire_value tag; section_revision := InterfaceSectionRevision_CURRENT;
     raw_compatibility := compatibility_wire_value (tag_compatibility tag); raw_encoding := encoding_wire_value encoding;
     entry_offset := offset; encoded_length := encoded_length; decoded_length := decoded_length; record_count := record_count;
     checksum := checksum; entry_content_hash := content_hash |}.

Definition entry_encoding (self : DirectoryEntry) : option InterfaceSectionEncoding := encoding_from_wire_value (raw_encoding self).

Definition entry_tag (self : DirectoryEntry) : option InterfaceSectionTag :=
  match tag_from_wire_value (raw_tag self) with
  | None => None
  | Some tag =>
      if negb (section_revision self =? InterfaceSectionRevision_CURRENT)
         || negb (raw_compatibility self =? compatibility_wire_value (tag_compatibility tag))
         || negb (match encoding_from_wire_value (raw_encoding self) with Some _ => true | None => false end)
      then None else Some tag
  end.

Definition entry_payload (self : DirectoryEntry) (bytes : list u8) : option (list u8) :=
  match usize_try_from (entry_offset self), usize_try_from (encoded_length self) with
  | Some start, Some length => match usize_checked_add start length with Some end_ => get_range bytes start end_ | None => None end
  | _, _ => None
  end.

Record ValidatedInterfaceSection := {
  section_tag : InterfaceSectionTag;
  section_section_revision : u16;
  section_encoding : InterfaceSectionEncoding;
  section_record_count : u64;
  section_checksum : digest;
  section_bytes : list u8;
}.

Definition ValidatedInterfaceSection_new (entry : DirectoryEntry) (bytes : list u8) : option ValidatedInterfaceSection :=
  match entry_tag entry, entry_encoding entry with
  | Some tag, Some encoding =>
      Some {| section_tag := tag; section_section_revision := section_revision entry; section_encoding := encoding;
              section_record_count := record_count entry; section_checksum := checksum entry; section_bytes := bytes |}
  | _, _ => None
  end.

(** ** hash.rs *)

(** BLAKE3: [Hasher::new], any [update]s and [finalize] hash the concatenation. *)
Class Blake3 := blake3 : list u8 -> digest.

Class Blake3Laws `{Blake3} : Prop := {
  blake3_length l : zlen (blake3 l) = 32;
  blake3_bytes l : Forall in_u8 (blake3 l);
}.

(** The bytes of an ASCII literal. *)
Definition ascii_bytes (s : string) : list u8 := map (fun c => Z.of_nat (Ascii.nat_of_ascii c)) (String.list_ascii_of_string s).

Definition CONTENT_HASH_DOMAIN : list u8 := ascii_bytes "bray.package-interface.content.v1".
Definition SECTION_CONTENT_HASH_DOMAIN : list u8 := ascii_bytes "bray.package-interface.section-content.v1".
Definition SECTION_HASH_DOMAIN : list u8 := ascii_bytes "bray.package-interface.section.v1".

Definition hash_LENGTH : usize := 32.

Section hash.
Context `{Blake3}.

Definition compute_section_hash (entry : DirectoryEntry) (payload : list u8) : digest :=
  let prefix := WireEncoder_new in
  let prefix := write_u32 (raw_tag entry) prefix in
  let prefix := write_u16 (section_revision entry) prefix in
  let prefix := write_u8 (raw_compatibility entry) prefix in
  let prefix := write_u8 (raw_encoding entry) prefix in
  let prefix := write_u64 (record_count entry) prefix in
  let prefix := write_u64 (encoded_length entry) prefix in
  let prefix := write_u64 (decoded_length entry) prefix in
  let prefix := write_bytes (entry_content_hash entry) prefix in
  blake3 (SECTION_HASH_DOMAIN ++ prefix ++ payload).

Definition compute_section_content_hash (tag : InterfaceSectionTag) (payload : list u8) : digest :=
  let prefix := WireEncoder_new in
  let prefix := write_u32 (tag_wire_value tag) prefix in
  let prefix := write_u64 (usize_to_u64_saturating (zlen payload)) prefix in
  blake3 (SECTION_CONTENT_HASH_DOMAIN ++ prefix ++ payload).

(** What one section of the sequence adds to the content hash. *)
Definition content_hash_section (section : InterfaceSectionTag * u64 * digest) : list u8 :=
  let '(tag, decoded_length, content_hash) := section in
  if negb (contributes_to_content_hash tag) then []
  else
    let section_prefix := WireEncoder_new in
    let section_prefix := write_u32 (tag_wire_value tag) section_prefix in
    let section_prefix := write_u64 decoded_length section_prefix in
    write_bytes content_hash section_prefix.

Definition compute_content_hash (header : InterfaceHeader) (sections : list (InterfaceSectionTag * u64 * digest)) : digest :=
  let prefix := WireEncoder_new in
  let prefix := write_u16 (format_revision header) prefix in
  let prefix := write_u16 (language_revision header) prefix in
  let prefix := write_u64 (required_flags header) prefix in
  blake3 (CONTENT_HASH_DOMAIN ++ prefix ++ concat (map content_hash_section sections)).

(** [slice.split_at_checked(mid)] *)
Definition split_at_checked (bytes : list u8) (mid : usize) : option (list u8 * list u8) :=
  if mid <=? zlen bytes then Some (ztake mid bytes, zdrop mid bytes) else None.

Definition compute_artifact_hash (bytes : list u8) : option digest :=
  match split_at_checked bytes ARTIFACT_HASH_OFFSET with
  | None => None
  | Some (before, after_hash) =>
      match split_at_checked after_hash hash_LENGTH with
      | None => None
      | Some (_, after) => Some (blake3 (before ++ repeat 0 (Z.to_nat hash_LENGTH) ++ after))
      end
  end.
End hash.

(** ** encoding.rs *)

Definition COMPRESSION_LEVEL : Z := 3.
Definition FRAME_HEADER_DESCRIPTOR_OFFSET : usize := 4.
Definition MAXIMUM_WINDOW_LOG : u32 := 20.
Definition MAXIMUM_WINDOW_SIZE : u64 := Z.shiftl 1 MAXIMUM_WINDOW_LOG.
Definition MINIMUM_COMPRESSION_INPUT : usize := 1024.
Definition MINIMUM_COMPRESSION_SAVING : usize := 64.
Definition WINDOW_DESCRIPTOR_OFFSET : usize := 5.
Definition CONTENT_CHECKSUM_FLAG : u8 := 4.
Definition DICTIONARY_IDENTIFIER_MASK : u8 := 3.
Definition RESERVED_FRAME_HEADER_MASK : u8 := 24.
Definition SINGLE_SEGMENT_FLAG : u8 := 32.
Definition WINDOW_MANTISSA_MASK : u8 := 7.

(** The settings of a compressor. *)
Record zstd_settings := {
  include_checksum : bool; include_contentsize : bool; include_dictid : bool; long_distance_matching : bool; window_log : u32;
}.

(** The bindings of the Zstandard library: compressors and decompressors with
    their settings, either of which can fail, and the inspection of frames. *)
Class Zstd := {
  compressor_new : Z -> bool;
  compressor_configure : zstd_settings -> bool;
  compress : Z -> zstd_settings -> list u8 -> option (list u8);
  find_frame_compressed_size : list u8 -> option usize;
  get_frame_content_size : list u8 -> option (option u64);
  decompressor_new : bool;
  window_log_max : u32 -> bool;
  decompress : u32 -> list u8 -> usize -> option (list u8);
}.

Definition SECTION_SETTINGS : zstd_settings :=
  {| include_checksum := true; include_contentsize := true; include_dictid := false; long_distance_matching := false;
     window_log := MAXIMUM_WINDOW_LOG |}.

(** [u64::checked_shl] *)
Definition u64_checked_shl (value : u64) (shift : u32) : option u64 :=
  if shift <? 64 then Some (Z.shiftl value shift mod 2 ^ 64) else None.

Section encoding.
Context `{Zstd}.

Definition encode_section (context : InterfaceValidationContext) (decoded : list u8)
    : result (InterfaceSectionEncoding * list u8) InterfaceValidationError :=
  if zlen decoded <? MINIMUM_COMPRESSION_INPUT then Ok (Raw, decoded)
  else if negb (compressor_new COMPRESSION_LEVEL) then Err (Compression context EncoderInitialization)
  else if negb (compressor_configure SECTION_SETTINGS) then Err (Compression context EncoderConfiguration)
  else
    let? compressed := ok_or (compress COMPRESSION_LEVEL SECTION_SETTINGS decoded) (Compression context Encoding) in
    if match usize_checked_add (zlen compressed) MINIMUM_COMPRESSION_SAVING with
       | Some minimum_raw_length => minimum_raw_length <=? zlen decoded
       | None => false
       end
    then Ok (ZstdFrame, compressed)
    else Ok (Raw, decoded).

Definition validate_zstd_frame_header (context : InterfaceValidationContext) (encoded : list u8) (decoded_length : u64)
    : result unit InterfaceValidationError :=
  let? descriptor := ok_or (get encoded FRAME_HEADER_DESCRIPTOR_OFFSET) (Compression context (MissingHeaderByte FRAME_HEADER_DESCRIPTOR_OFFSET)) in
  let single_segment := negb (Z.land descriptor SINGLE_SEGMENT_FLAG =? 0) in
  let has_checksum := negb (Z.land descriptor CONTENT_CHECKSUM_FLAG =? 0) in
  let uses_dictionary := negb (Z.land descriptor DICTIONARY_IDENTIFIER_MASK =? 0) in
  let uses_reserved_bits := negb (Z.land descriptor RESERVED_FRAME_HEADER_MASK =? 0) in
  if negb has_checksum || uses_dictionary || uses_reserved_bits then Err (Compression context (InvalidHeaderFlags descriptor))
  else
    let? window_size :=
      if single_segment then Ok decoded_length
      else
        let? window_descriptor := ok_or (get encoded WINDOW_DESCRIPTOR_OFFSET) (Compression context (MissingHeaderByte WINDOW_DESCRIPTOR_OFFSET)) in
        let exponent := Z.shiftr window_descriptor 3 in
        let? base := ok_or (u64_checked_shl 1 (10 + exponent)) (Compression context (WindowSizeOverflow window_descriptor)) in
        ok_or (u64_checked_add base (base / 8 * Z.land window_descriptor WINDOW_MANTISSA_MASK))
          (Compression context (WindowSizeOverflow window_descriptor)) in
    if MAXIMUM_WINDOW_SIZE <? window_size then Err (Compression context (WindowSizeExceeded window_size MAXIMUM_WINDOW_SIZE)) else Ok tt.

Definition validate_zstd_frame (context : InterfaceValidationContext) (encoded : list u8) (decoded_length : u64)
    : result unit InterfaceValidationError :=
  let? frame_length := ok_or (find_frame_compressed_size encoded) (Compression context FrameLength) in
  if negb (frame_length =? zlen encoded) then Err (Compression context (FrameLengthMismatch (zlen encoded) frame_length))
  else
    let? _ := validate_zstd_frame_header context encoded decoded_length in
    let? content_size := ok_or (get_frame_content_size encoded) (Compression context ContentSize) in
    if negb (bool_decide (content_size = Some decoded_length)) then Err (Compression context (ContentSizeMismatch decoded_length content_size))
    else Ok tt.

Definition decode_zstd_frame (context : InterfaceValidationContext) (encoded : list u8) (decoded_length : u64)
    : result (list u8) InterfaceValidationError :=
  let? capacity := ok_or (usize_try_from decoded_length) (Malformed context (CauseNumericOverflow DecodedLengthField decoded_length TargetUsize)) in
  if negb decompressor_new then Err (Compression context DecoderInitialization)
  else if negb (window_log_max MAXIMUM_WINDOW_LOG) then Err (Compression context DecoderConfiguration)
  else
    let? decoded := ok_or (decompress MAXIMUM_WINDOW_LOG encoded capacity) (Compression context Decoding) in
    if negb (zlen decoded =? capacity) then Err (Compression context (DecodedLengthMismatch decoded_length (zlen decoded)))
    else Ok decoded.
End encoding.

(** The documented behaviour of the library: a frame that was compressed with the
    settings of a section is one whole frame with a checksum, its content size,
    no dictionary and a window of at most [MAXIMUM_WINDOW_LOG] bits, which is the
    content itself for a single segment; and it decompresses to what was
    compressed. *)
Class ZstdLaws `{Zstd} : Prop := {
  zstd_available : decompressor_new = true /\ window_log_max MAXIMUM_WINDOW_LOG = true;
  zstd_frame_bytes d f : Forall in_u8 d -> compress COMPRESSION_LEVEL SECTION_SETTINGS d = Some f -> Forall in_u8 f;
  zstd_frame_size d f : compress COMPRESSION_LEVEL SECTION_SETTINGS d = Some f -> find_frame_compressed_size f = Some (zlen f);
  zstd_content_size d f : compress COMPRESSION_LEVEL SECTION_SETTINGS d = Some f -> get_frame_content_size f = Some (Some (zlen d));
  zstd_descriptor d f : compress COMPRESSION_LEVEL SECTION_SETTINGS d = Some f ->
    exists descriptor, get f FRAME_HEADER_DESCRIPTOR_OFFSET = Some descriptor /\
      Z.testbit descriptor 2 = true /\ Z.testbit descriptor 0 = false /\ Z.testbit descriptor 1 = false /\
      Z.testbit descriptor 3 = false /\ Z.testbit descriptor 4 = false /\ 0 <= descriptor < 256 /\
      if Z.testbit descriptor 5 then zlen d <= 2 ^ MAXIMUM_WINDOW_LOG
      else exists window, get f WINDOW_DESCRIPTOR_OFFSET = Some window /\ 0 <= window <= 8 * (MAXIMUM_WINDOW_LOG - 10);
  zstd_round_trip d f capacity :
    compress COMPRESSION_LEVEL SECTION_SETTINGS d = Some f -> zlen d <= capacity -> decompress MAXIMUM_WINDOW_LOG f capacity = Some d;
}.

(** ** decode.rs *)

(** [decode::map_wire_error], whose casts keep every [usize]. *)
Definition decode_map_wire_error (context : InterfaceValidationContext) (field : InterfaceValidationField) (error : WireDecodeError)
    : InterfaceValidationError :=
  match error with
  | WireTruncated offset expected_length actual_length => Truncated context field (offset mod 2 ^ 64) (expected_length mod 2 ^ 64) (actual_length mod 2 ^ 64)
  | WireTrailingBytes offset count => TrailingBytes context (offset mod 2 ^ 64) (count mod 2 ^ 64)
  end.

Definition decode_read_u32 (context : InterfaceValidationContext) (field : InterfaceValidationField) (reader : WireReader)
    : result (u32 * WireReader) InterfaceValidationError :=
  map_err (decode_map_wire_error context field) (read_u32 reader).

Definition read_optional_u32 (context : InterfaceValidationContext) (field : InterfaceValidationField) (reader : WireReader)
    : result (option u32 * WireReader) InterfaceValidationError :=
  let? (actual, reader) := decode_read_u32 context field reader in
  if actual =? 0 then Ok (None, reader)
  else if actual =? 1 then let? (value, reader) := decode_read_u32 context field reader in Ok (Some value, reader)
  else Err (Malformed context (CauseInvalidDiscriminant field actual)).

Record DecodeBudget := { budget_limits : InterfaceValidationLimits; allocated : u64; external_references : u64 }.

Definition DecodeBudget_new (limits : InterfaceValidationLimits) : DecodeBudget :=
  {| budget_limits := limits; allocated := 0; external_references := 0 |}.

(** A call returns its result and the budget that it leaves. *)
Definition include (self other : DecodeBudget) : outcome (result unit InterfaceValidationError * DecodeBudget) :=
  let! _ := assert_ (bool_decide (budget_limits self = budget_limits other)) in
  let allocated := u64_saturating_add (allocated self) (allocated other) in
  let external_references := u64_saturating_add (external_references self) (external_references other) in
  match let? _ := limits_check (budget_limits self) DecodedAllocation allocated in
        limits_check (budget_limits self) ExternalReferenceCount external_references with
  | Err e => Ret (Err e, self)
  | Ok _ => Ret (Ok tt, {| budget_limits := budget_limits self; allocated := allocated; external_references := external_references |})
  end.

Definition charge (self : DecodeBudget) (bytes : usize) : result unit InterfaceValidationError * DecodeBudget :=
  let bytes := usize_to_u64_saturating bytes in
  let allocated := u64_saturating_add (allocated self) bytes in
  match limits_check (budget_limits self) DecodedAllocation allocated with
  | Err e => (Err e, self)
  | Ok _ => (Ok tt, {| budget_limits := budget_limits self; allocated := allocated; external_references := external_references self |})
  end.

Definition charge_items (size_of : usize) (self : DecodeBudget) (count : usize) : result unit InterfaceValidationError * DecodeBudget :=
  charge self (usize_saturating_mul count size_of).

Definition charge_external_reference (self : DecodeBudget) (component_count : usize) : result unit InterfaceValidationError * DecodeBudget :=
  let count := usize_to_u64_saturating component_count in
  let external_references := u64_saturating_add (external_references self) count in
  (limits_check (budget_limits self) ExternalReferenceCount external_references,
   {| budget_limits := budget_limits self; allocated := allocated self; external_references := external_references |}).

Section budget.
Context `{Allocator} {T : Type} (size_of : usize).

Definition allocate_derived_items (self : DecodeBudget) (context : InterfaceValidationContext) (field : InterfaceValidationField) (count : usize)
    : result (list T) InterfaceValidationError * DecodeBudget :=
  match charge_items size_of self count with
  | (Err e, self) => (Err e, self)
  | (Ok _, self) => (allocate_items size_of context field count, self)
  end.

Definition allocate_items_with_minimum (self : DecodeBudget) (reader : WireReader) (context : InterfaceValidationContext)
    (field : InterfaceValidationField) (count minimum_item_wire_bytes : usize) : outcome (result (list T) InterfaceValidationError * DecodeBudget) :=
  let expected_length := usize_saturating_mul count minimum_item_wire_bytes in
  let! remaining := reader_remaining reader in
  if remaining <? expected_length then Ret (Err (Truncated context field (reader_position reader) expected_length remaining), self)
  else Ret (allocate_derived_items self context field count).

Definition budget_allocate_items (self : DecodeBudget) (reader : WireReader) (context : InterfaceValidationContext)
    (field : InterfaceValidationField) (count : usize) : outcome (result (list T) InterfaceValidationError * DecodeBudget) :=
  allocate_items_with_minimum self reader context field count 4.
End budget.
