(* ===== verification/InterfaceArtifact.v ===== *)
(** * Package-interface artifacts

    [bray-package-interface/src/artifact.rs]: assembling sections into the bytes
    of an artifact; [validation.rs]: the eager validation of untrusted bytes, and
    the sections that are decoded on demand into cells that are filled once.

    The encoders of the sections and what the sections say are not part of this
    file: a section is a tag, a count of records and its bytes. *)

From Stdlib Require Import ZArith Lia String.
From stdpp Require Import base list numbers option.
From S2P Require Import Prelude Order InterfaceFormat.

(** Results of computations that can panic. *)
Definition fallible_bind {A B E} (m : outcome (result A E)) (k : A -> outcome (result B E)) : outcome (result B E) :=
  let! r := m in match r with Ok a => k a | Err e => Ret (Err e) end.

Notation "'let*' x ':=' m 'in' k" := (fallible_bind m (fun x => k)) (at level 10, x pattern, m at level 100, k at level 200) : bray_scope.

(** ** artifact.rs *)

Definition usize_to_u64 (context : InterfaceValidationContext) (field : InterfaceValidationField) (value : usize) : result u64 InterfaceValidationError :=
  ok_or (checked U64_MAX value) (Malformed context (CauseNumericOverflow field U64_MAX TargetU64)).

Record EncodedArtifactSection := { encoded_tag : InterfaceSectionTag; encoded_record_count : u64; encoded_payload : list u8 }.

Record StoredArtifactSection := {
  stored_tag : InterfaceSectionTag;
  stored_encoding : InterfaceSectionEncoding;
  stored_decoded_length : u64;
  stored_record_count : u64;
  stored_content_hash : digest;
  stored_payload : list u8;
}.

(** The derived order of the tags is the order of their declaration. *)
Definition tag_discriminant (tag : InterfaceSectionTag) : Z :=
  match tag with
  | Strings => 0 | PackageMetadata => 1 | Dependencies => 2 | SymbolIdentities => 3
  | Relationships => 4 | ExportedLookup => 5 | SemanticRecordDirectory => 6 | SemanticTypes => 7
  | Constants => 8 | Contracts => 9 | DeclarationTemplates => 10 | Implementations => 11
  | TargetDependencies => 12 | SourceProvenance => 13 | SupportGraph => 14 | DeclarationSemantics => 15
  end.

#[export] Instance tag_ord : Ord InterfaceSectionTag := ord_on tag_discriminant.

#[export] Instance tag_ord_laws : OrdLaws InterfaceSectionTag.
Proof. apply ord_on_laws. intros [] []; done. Qed.

Section artifact.
Context `{Blake3, Zstd} {Identity : Type}.

Record InterfaceArtifact := {
  artifact_identity : Identity;
  artifact_bytes : list u8;
  artifact_byte_len : u64;
  artifact_section_count : u64;
  artifact_content_hash : digest;
  artifact_artifact_hash : digest;
}.

Inductive InterfaceArtifactIntegrityError :=
| LengthExceeded
| LengthMismatch (expected actual : u64)
| IntegrityMalformed
| IntegrityContentHashMismatch (expected actual : digest)
| IntegrityArtifactHashMismatch (expected actual : digest).

Definition validate_integrity (self : InterfaceArtifact) : result unit InterfaceArtifactIntegrityError :=
  let? actual_length := ok_or (checked U64_MAX (zlen (artifact_bytes self))) LengthExceeded in
  if negb (actual_length =? artifact_byte_len self) then Err (LengthMismatch (artifact_byte_len self) actual_length)
  else
    let? decoded := map_err (fun _ => IntegrityMalformed) (InterfaceHeader_decode (artifact_bytes self)) in
    if negb (bool_decide (header_content_hash (decoded_header decoded) = artifact_content_hash self))
    then Err (IntegrityContentHashMismatch (artifact_content_hash self) (header_content_hash (decoded_header decoded)))
    else if negb (bool_decide (artifact_hash (decoded_header decoded) = artifact_artifact_hash self))
    then Err (IntegrityArtifactHashMismatch (artifact_artifact_hash self) (artifact_hash (decoded_header decoded)))
    else
      let? actual_hash := ok_or (compute_artifact_hash (artifact_bytes self)) IntegrityMalformed in
      if negb (bool_decide (actual_hash = artifact_artifact_hash self))
      then Err (IntegrityArtifactHashMismatch (artifact_artifact_hash self) actual_hash)
      else Ok tt.

Definition try_from_decoded (section : EncodedArtifactSection) : result StoredArtifactSection InterfaceValidationError :=
  let context := SectionContext (encoded_tag section) in
  let? decoded_length := usize_to_u64 context DecodedLengthField (zlen (encoded_payload section)) in
  let content_hash := compute_section_content_hash (encoded_tag section) (encoded_payload section) in
  let? (encoding, payload) := encode_section context (encoded_payload section) in
  Ok {| stored_tag := encoded_tag section; stored_encoding := encoding; stored_decoded_length := decoded_length;
        stored_record_count := encoded_record_count section; stored_content_hash := content_hash; stored_payload := payload |}.

Definition encode_header (language_revision : u16) (file_length directory_offset directory_length : usize) (encoder : WireEncoder)
    : result WireEncoder InterfaceValidationError :=
  let encoder := write_bytes MAGIC encoder in
  let encoder := write_u16 CURRENT_FORMAT_REVISION encoder in
  let encoder := write_u16 language_revision encoder in
  let encoder := write_u32 BYTE_ORDER_MARKER encoder in
  let encoder := write_u64 InterfaceRequiredFlags_NONE encoder in
  let? file_length := usize_to_u64 HeaderContext DeclaredFileLengthField file_length in
  let encoder := write_u64 file_length encoder in
  let? directory_offset := usize_to_u64 HeaderContext DirectoryOffsetField directory_offset in
  let encoder := write_u64 directory_offset encoder in
  let? directory_length := usize_to_u64 HeaderContext DirectoryLengthField directory_length in
  let encoder := write_u64 directory_length encoder in
  let encoder := write_bytes (repeat 0 32) encoder in
  let encoder := write_bytes (repeat 0 32) encoder in
  Ok encoder.

Definition encoded_directory_entry (section : StoredArtifactSection) (payload_offset : usize) : result DirectoryEntry InterfaceValidationError :=
  let? offset := usize_to_u64 (SectionContext (stored_tag section)) SectionOffsetField payload_offset in
  let? encoded_length := usize_to_u64 (SectionContext (stored_tag section)) EncodedLengthField (zlen (stored_payload section)) in
  Ok (for_encoded (stored_tag section) (stored_encoding section) offset encoded_length (stored_decoded_length section)
        (stored_record_count section) (repeat 0 32) (stored_content_hash section)).

Definition encode_directory_entry (entry : DirectoryEntry) (encoder : WireEncoder) : WireEncoder :=
  let encoder := write_u32 (raw_tag entry) encoder in
  let encoder := write_u16 (section_revision entry) encoder in
  let encoder := write_u8 (raw_compatibility entry) encoder in
  let encoder := write_u8 (raw_encoding entry) encoder in
  let encoder := write_u64 (entry_offset entry) encoder in
  let encoder := write_u64 (encoded_length entry) encoder in
  let encoder := write_u64 (decoded_length entry) encoder in
  let encoder := write_u64 (record_count entry) encoder in
  let encoder := write_bytes (checksum entry) encoder in
  write_bytes (entry_content_hash entry) encoder.

(** The loop over the sections: the encoder, the entries and the offset of the
    next payload. *)
Fixpoint write_sections (sections : list StoredArtifactSection) (encoder : WireEncoder) (entries : list DirectoryEntry) (payload_offset : usize)
    : result (WireEncoder * list DirectoryEntry) InterfaceValidationError :=
  match sections with
  | [] => Ok (encoder, entries)
  | section :: sections =>
      let? entry := encoded_directory_entry section payload_offset in
      let checksum := compute_section_hash entry (stored_payload section) in
      let? offset := usize_to_u64 (SectionContext (stored_tag section)) SectionOffsetField payload_offset in
      let? encoded_length := usize_to_u64 (SectionContext (stored_tag section)) EncodedLengthField (zlen (stored_payload section)) in
      let entries := entries ++ [for_encoded (stored_tag section) (stored_encoding section) offset encoded_length
                                   (stored_decoded_length section) (stored_record_count section) checksum (stored_content_hash section)] in
      let encoder := write_bytes (stored_payload section) encoder in
      let? payload_offset := ok_or (usize_checked_add payload_offset (zlen (stored_payload section)))
        (Malformed (SectionContext (stored_tag section)) (CauseRangeOverflow payload_offset (zlen (stored_payload section)))) in
      write_sections sections encoder entries payload_offset
  end.

(** [bytes[start..end].copy_from_slice(source)] *)
Definition copy_from_slice (bytes : list u8) (start end_ : usize) (source : list u8) : outcome (list u8) :=
  let! target := expect (get_range bytes start end_) in
  let! _ := assert_ (zlen target =? zlen source) in
  Ret (ztake start bytes ++ source ++ zdrop end_ bytes).

(** The tags, lengths and hashes of the entries that are known. *)
Definition known_sections (entries : list DirectoryEntry) : list (InterfaceSectionTag * u64 * digest) :=
  omap (fun entry => (fun tag => (tag, decoded_length entry, entry_content_hash entry)) <$> entry_tag entry) entries.

Definition finish_hashes (identity : Identity) (bytes : list u8) (entries : list DirectoryEntry)
    : outcome (result InterfaceArtifact InterfaceValidationError) :=
  let* decoded := Ret (map_err (decode_map_wire_error HeaderContext ValueField) (InterfaceHeader_decode bytes)) in
  let content_hash := compute_content_hash (decoded_header decoded) (known_sections entries) in
  let! bytes := copy_from_slice bytes CONTENT_HASH_OFFSET (CONTENT_HASH_OFFSET + 32) content_hash in
  let* artifact_hash := Ret (ok_or (compute_artifact_hash bytes) (DigestUnavailable ArtifactContext ArtifactHashField)) in
  let! bytes := copy_from_slice bytes ARTIFACT_HASH_OFFSET (ARTIFACT_HASH_OFFSET + 32) artifact_hash in
  Ret (let? byte_len := usize_to_u64 ArtifactContext DeclaredFileLengthField (zlen bytes) in
       let? section_count := usize_to_u64 DirectoryContext RecordCountField (zlen entries) in
       Ok {| artifact_identity := identity; artifact_bytes := bytes; artifact_byte_len := byte_len;
             artifact_section_count := section_count; artifact_content_hash := content_hash; artifact_artifact_hash := artifact_hash |}).

(** [try_fold(0, checked_add)] over the lengths of the payloads. *)
Definition payload_total (sections : list StoredArtifactSection) : option usize :=
  foldl (fun total section => match total with Some total => usize_checked_add total (zlen (stored_payload section)) | None => None end) (Some 0) sections.

(** [Iterator::sum] of the lengths, which panics on overflow. *)
Definition payload_sum (sections : list StoredArtifactSection) : outcome u64 :=
  foldl (fun total section => let! total := total in expect (u64_checked_add total (zlen (stored_payload section)))) (Ret 0) sections.

Definition assemble_stored_sections (stored_sections : list StoredArtifactSection) (identity : Identity) (language_revision : u16)
    : outcome (result InterfaceArtifact InterfaceValidationError) :=
  let payload_length := payload_total stored_sections in
  let* directory_length := Ret (ok_or (checked USIZE_MAX (zlen stored_sections * DirectoryEntry_LENGTH))
    (Malformed DirectoryContext (CauseRangeOverflow (zlen stored_sections) DirectoryEntry_LENGTH))) in
  let! sum := payload_sum stored_sections in
  let* payload_length := Ret (ok_or payload_length (Malformed ArtifactContext (CauseRangeOverflow 0 sum))) in
  let* directory_offset := Ret (ok_or (usize_checked_add InterfaceHeader_LENGTH payload_length)
    (Malformed ArtifactContext (CauseRangeOverflow InterfaceHeader_LENGTH payload_length))) in
  let* file_length := Ret (ok_or (usize_checked_add directory_offset directory_length)
    (Malformed ArtifactContext (CauseRangeOverflow directory_offset directory_length))) in
  let* encoder := Ret (encode_header language_revision file_length directory_offset directory_length WireEncoder_new) in
  let* (encoder, entries) := Ret (write_sections stored_sections encoder [] InterfaceHeader_LENGTH) in
  let encoder := foldl (fun encoder entry => encode_directory_entry entry encoder) encoder entries in
  finish_hashes identity encoder entries.

(** [collect] into a [Result]: the first failure, or all of the values. *)
Fixpoint try_collect {A B E} (f : A -> result B E) (l : list A) : result (list B) E :=
  match l with
  | [] => Ok []
  | a :: l => let? b := f a in let? bs := try_collect f l in Ok (b :: bs)
  end.

Definition assemble_sections (sections : list EncodedArtifactSection) (identity : Identity) (language_revision : u16)
    : outcome (result InterfaceArtifact InterfaceValidationError) :=
  let* stored_sections := Ret (try_collect try_from_decoded sections) in
  assemble_stored_sections stored_sections identity language_revision.

(** The sections of the surface and of the semantics, in the order of their
    tags; the encoders of both are not modelled. *)
Definition encode_interface_artifact (surface semantics : list EncodedArtifactSection) (identity : Identity) (language_revision : u16)
    : outcome (result InterfaceArtifact InterfaceValidationError) :=
  let sections := sort_by_key encoded_tag (surface ++ semantics) in
  match adjacent_equal encoded_tag sections with
  | Some duplicate => Ret (Err (Malformed DirectoryContext (CauseDuplicate SectionTagField (tag_wire_value (encoded_tag duplicate)))))
  | None => assemble_sections sections identity language_revision
  end.
End artifact.

Arguments InterfaceArtifact Identity : clear implicits.

(** ** validation.rs *)

Definition validate_file_size (byte_length : usize) (policy : InterfaceValidationPolicy) : result unit InterfaceValidationError :=
  let actual := usize_to_u64_saturating byte_length in
  limits_check (policy_limits policy) FileSize actual.

Definition validate_header (magic : list u8) (byte_order_marker : u32) (header : InterfaceHeader) (bytes : list u8) (policy : InterfaceValidationPolicy)
    : outcome (result unit InterfaceValidationError) :=
  if negb (bool_decide (magic = MAGIC)) then Ret (Err (InvalidMagic magic))
  else if negb (format_revision header =? CURRENT_FORMAT_REVISION) then Ret (Err (UnsupportedFormatRevision (format_revision header)))
  else if negb (language_revision header =? policy_language_revision policy)
  then Ret (Err (UnsupportedLanguageRevision (policy_language_revision policy) (language_revision header)))
  else if negb (byte_order_marker =? BYTE_ORDER_MARKER) then Ret (Err (UnsupportedByteOrder BYTE_ORDER_MARKER byte_order_marker))
  else if negb (required_flags header =? InterfaceRequiredFlags_NONE) then Ret (Err (UnsupportedRequiredFlags (required_flags header)))
  else
    let actual_length := usize_to_u64_saturating (zlen bytes) in
    if actual_length <? declared_file_length header then
      let! missing := expect (checked U64_MAX (declared_file_length header - actual_length)) in
      Ret (Err (Truncated ArtifactContext DeclaredFileLengthField actual_length missing 0))
    else if negb (declared_file_length header =? actual_length) then
      let! count := expect (checked U64_MAX (actual_length - declared_file_length header)) in
      Ret (Err (TrailingBytes ArtifactContext (declared_file_length header) count))
    else if negb (directory_length header mod DirectoryEntry_WIRE_LENGTH =? 0) then
      Ret (Err (malformed HeaderContext (CauseInvalidAlignment DirectoryLengthField (directory_length header) DirectoryEntry_WIRE_LENGTH)))
    else Ret (Ok tt).

Definition validate_section_contract (context : InterfaceValidationContext) (tag : option InterfaceSectionTag) (decoded : DirectoryEntry)
    : result unit InterfaceValidationError :=
  match compatibility_from_wire_value (raw_compatibility decoded) with
  | None => Err (malformed context (CauseInvalidDiscriminant SectionCompatibilityField (raw_compatibility decoded)))
  | Some compatibility =>
      match tag with
      | None =>
          if compatibility_is_optional compatibility then Ok tt
          else Err (malformed context (CauseInvalidDiscriminant SectionTagField (raw_tag decoded)))
      | Some tag =>
          if negb (bool_decide (compatibility = tag_compatibility tag)) then
            Err (malformed context (CauseValueMismatch SectionCompatibilityField (compatibility_wire_value (tag_compatibility tag))
                                      (raw_compatibility decoded)))
          else
            let encoding := encoding_from_wire_value (raw_encoding decoded) in
            if negb (section_revision decoded =? InterfaceSectionRevision_CURRENT) then
              if compatibility_is_optional compatibility then Ok tt
              else Err (malformed context (CauseValueMismatch SectionRevisionField InterfaceSectionRevision_CURRENT (section_revision decoded)))
            else
              match encoding with
              | None =>
                  if compatibility_is_optional compatibility then Ok tt
                  else Err (malformed context (CauseInvalidDiscriminant SectionEncodingField (raw_encoding decoded)))
              | Some encoding =>
                  if bool_decide (encoding = Raw) && negb (encoded_length decoded =? decoded_length decoded) then
                    Err (malformed context (CauseLengthMismatch DecodedLengthField (encoded_length decoded) (decoded_length decoded)))
                  else Ok tt
              end
      end
  end.

(** [slice.chunks_exact(size)] *)
Definition chunks_exact {A} (size : usize) (l : list A) : list (list A) :=
  map (fun i => ztake size (zdrop (size * Z.of_nat i) l)) (seq 0 (Z.to_nat (zlen l / size))).

(** A [OnceLock] is empty or holds what it was initialised with. *)
Abbreviation DecodedSection := (option (result (option (list u8)) InterfaceValidationError)).

(** The index of semantic records, a cache of the semantic decoders that none of
    the operations here reads or writes, is left out. *)
Record ValidatedPackageInterface := {
  vpi_bytes : list u8;
  vpi_header : InterfaceHeader;
  directory : list DirectoryEntry;
  decoded_sections : list DecodedSection;
  vpi_limits : InterfaceValidationLimits;
}.

(** What [size_of] returns for the items that are reserved. *)
Class ItemSizes := { size_of_entry : usize; size_of_cell : usize; size_of_section : usize }.

Section validation.
Context `{Blake3, Zstd, Allocator, ItemSizes}.

Section directory.
Context (bytes : list u8) (directory_range : byte_range) (policy : InterfaceValidationPolicy).

(** What the loop over the entries keeps. *)
Record directory_state := {
  previous_tag : option u32;
  previous_range : option byte_range;
  total_allocation : u64;
  entries : list DirectoryEntry;
}.

Definition directory_step (index : usize) (chunk : list u8) (state : directory_state) : result directory_state InterfaceValidationError :=
  let raw := match get_range chunk 0 4 with Some bytes => from_le_bytes bytes | None => 0 end in
  let context := directory_entry_context index raw in
  let? decoded := map_err (fun error => map_wire_error context (directory_field (wire_offset error)) error) (DirectoryEntry_decode chunk) in
  let tag := tag_from_wire_value (raw_tag decoded) in
  let? _ := validate_section_contract context tag decoded in
  if match previous_tag state with Some previous => raw_tag decoded <=? previous | None => false end then
    Err (malformed context (CauseOrderingViolation SectionTagField (default (raw_tag decoded) (previous_tag state)) (raw_tag decoded)))
  else
    let? _ := limits_check (policy_limits policy) RecordCount (record_count decoded) in
    let? allocation := ok_or (u64_checked_add (total_allocation state) (decoded_length decoded))
      (ResourceLimitExceeded DecodedAllocation U64_MAX (maximum (policy_limits policy) DecodedAllocation)) in
    let? _ := limits_check (policy_limits policy) DecodedAllocation allocation in
    let? payload_range := map_err (range_validation_error context EncodedLengthField)
      (checked_range (entry_offset decoded) (encoded_length decoded) (zlen bytes)) in
    let header_range := {| range_start := 0; range_end := InterfaceHeader_LENGTH |} in
    if ranges_overlap payload_range header_range then Err (overlapping_range context payload_range header_range)
    else if ranges_overlap payload_range directory_range then Err (overlapping_range context payload_range directory_range)
    else
      let? _ := match previous_range state with
                | Some previous => if ranges_overlap payload_range previous then Err (overlapping_range context payload_range previous) else Ok tt
                | None => Ok tt
                end in
      let? _ :=
        if bool_decide (is_Some tag) && bool_decide (entry_encoding decoded = Some ZstdFrame) then
          let? payload := ok_or (get_range bytes (range_start payload_range) (range_end payload_range))
            (range_validation_error context EncodedLengthField
               (RangeOutOfBounds (entry_offset decoded) (encoded_length decoded) (available_length (entry_offset decoded) (zlen bytes)))) in
          validate_zstd_frame context payload (decoded_length decoded)
        else Ok tt in
      Ok {| previous_tag := Some (raw_tag decoded); previous_range := Some payload_range; total_allocation := allocation;
            entries := entries state ++ [decoded] |}.

Fixpoint directory_loop (index : usize) (chunks : list (list u8)) (state : directory_state) : result directory_state InterfaceValidationError :=
  match chunks with
  | [] => Ok state
  | chunk :: chunks => let? state := directory_step index chunk state in directory_loop (index + 1) chunks state
  end.
End directory.

Definition decode_directory (bytes : list u8) (directory_range : byte_range) (policy : InterfaceValidationPolicy)
    : outcome (result (list DirectoryEntry) InterfaceValidationError) :=
  let directory_length := usize_to_u64_saturating (range_len directory_range) in
  let count := directory_length / DirectoryEntry_WIRE_LENGTH in
  let* _ := Ret (limits_check (policy_limits policy) SectionCount count) in
  let* capacity := Ret (ok_or (usize_try_from count) (ResourceLimitExceeded SectionCount count (maximum (policy_limits policy) SectionCount))) in
  let* reserved := Ret (allocate_items size_of_entry DirectoryContext RecordCountField capacity) in
  let! slice := expect (get_range bytes (range_start directory_range) (range_end directory_range)) in
  Ret (let? state := directory_loop bytes directory_range policy 0 (chunks_exact DirectoryEntry_LENGTH slice)
         {| previous_tag := None; previous_range := None; total_allocation := 0; entries := reserved |} in
       Ok (entries state)).

(** The loop over the checksums of the entries. *)
Fixpoint validate_checksums (index : usize) (directory : list DirectoryEntry) (bytes : list u8) : result unit InterfaceValidationError :=
  match directory with
  | [] => Ok tt
  | entry :: directory =>
      let context := directory_entry_context index (raw_tag entry) in
      let? payload := ok_or (entry_payload entry bytes)
        (range_validation_error context EncodedLengthField
           (RangeOutOfBounds (entry_offset entry) (encoded_length entry) (available_length (entry_offset entry) (zlen bytes)))) in
      let actual := compute_section_hash entry payload in
      if negb (bool_decide (actual = checksum entry)) then
        match entry_tag entry with
        | Some section => Err (SectionChecksumMismatch section (checksum entry) actual)
        | None => Err (UnknownSectionChecksumMismatch (raw_tag entry) (checksum entry) actual)
        end
      else validate_checksums (index + 1) directory bytes
  end.

Definition validate_hashes (header : InterfaceHeader) (directory : list DirectoryEntry) (bytes : list u8) : result unit InterfaceValidationError :=
  let? _ := validate_checksums 0 directory bytes in
  let? actual := ok_or (compute_artifact_hash bytes) (DigestUnavailable ArtifactContext ArtifactHashField) in
  if negb (bool_decide (actual = artifact_hash header)) then Err (ArtifactHashMismatch (artifact_hash header) actual)
  else
    let content_hash := compute_content_hash header (known_sections directory) in
    if negb (bool_decide (content_hash = header_content_hash header)) then Err (ContentHashMismatch (header_content_hash header) content_hash)
    else Ok tt.

Definition try_new (bytes : list u8) (policy : InterfaceValidationPolicy) : outcome (result ValidatedPackageInterface InterfaceValidationError) :=
  let* _ := Ret (validate_file_size (zlen bytes) policy) in
  let* decoded := Ret (map_err (fun error => map_wire_error HeaderContext (header_field (wire_offset error)) error) (InterfaceHeader_decode bytes)) in
  let* _ := validate_header (decoded_magic decoded) (decoded_byte_order_marker decoded) (decoded_header decoded) bytes policy in
  let* directory_range := Ret (map_err (range_validation_error DirectoryContext DirectoryLengthField)
    (checked_range (directory_offset (decoded_header decoded)) (directory_length (decoded_header decoded)) (zlen bytes))) in
  let* directory := decode_directory bytes directory_range policy in
  let* _ := Ret (validate_hashes (decoded_header decoded) directory bytes) in
  let* reserved := Ret (allocate_items size_of_cell DirectoryContext RecordCountField (zlen directory)) in
  Ret (Ok {| vpi_bytes := bytes; vpi_header := decoded_header decoded; directory := directory;
             decoded_sections := reserved ++ repeat None (length directory); vpi_limits := policy_limits policy |}).

Definition decode_and_verify_section (index : usize) (entry : DirectoryEntry) (stored : list u8) : result (option (list u8)) InterfaceValidationError :=
  let context := directory_entry_context index (raw_tag entry) in
  let? encoding := ok_or (entry_encoding entry) (malformed context (CauseInvalidDiscriminant SectionEncodingField (raw_encoding entry))) in
  let? decoded := match encoding with
                  | Raw => Ok None
                  | ZstdFrame => let? bytes := decode_zstd_frame context stored (decoded_length entry) in Ok (Some bytes)
                  end in
  let bytes := default stored decoded in
  let? tag := ok_or (entry_tag entry) (malformed context (CauseInvalidDiscriminant SectionTagField (raw_tag entry))) in
  let actual := compute_section_content_hash tag bytes in
  if negb (bool_decide (actual = entry_content_hash entry)) then Err (SectionContentHashMismatch tag (entry_content_hash entry) actual)
  else Ok decoded.

Definition with_cells (self : ValidatedPackageInterface) (cells : list DecodedSection) : ValidatedPackageInterface :=
  {| vpi_bytes := vpi_bytes self; vpi_header := vpi_header self; directory := directory self; decoded_sections := cells; vpi_limits := vpi_limits self |}.

(** [OnceLock::get_or_init] of the cell at an index. *)
Definition get_or_init (self : ValidatedPackageInterface) (index : usize) (cell : DecodedSection)
    (init : result (option (list u8)) InterfaceValidationError) : result (option (list u8)) InterfaceValidationError * ValidatedPackageInterface :=
  match cell with
  | Some value => (value, self)
  | None => (init, with_cells self (<[Z.to_nat index := Some init]> (decoded_sections self)))
  end.

Definition section_by_index (self : ValidatedPackageInterface) (index : usize)
    : result ValidatedInterfaceSection InterfaceValidationError * ValidatedPackageInterface :=
  match get (directory self) index with
  | None => (Err (invalid_index DirectoryContext index (zlen (directory self))), self)
  | Some entry =>
      match entry_payload entry (vpi_bytes self) with
      | None =>
          (Err (range_validation_error (directory_entry_context index (raw_tag entry)) EncodedLengthField
             (RangeOutOfBounds (entry_offset entry) (encoded_length entry) (available_length (entry_offset entry) (zlen (vpi_bytes self))))), self)
      | Some stored =>
          match get (decoded_sections self) index with
          | None => (Err (invalid_index DirectoryContext index (zlen (decoded_sections self))), self)
          | Some cell =>
              let '(decoded, self) := get_or_init self index cell (decode_and_verify_section index entry stored) in
              (let? decoded := decoded in
               ok_or (ValidatedInterfaceSection_new entry (default stored decoded))
                 (malformed (directory_entry_context index (raw_tag entry)) (CauseInvalidValue SectionEncodingField)), self)
          end
      end
  end.

Definition section (self : ValidatedPackageInterface) (tag : InterfaceSectionTag)
    : result (option ValidatedInterfaceSection) InterfaceValidationError * ValidatedPackageInterface :=
  match binary_search_by_key raw_tag (directory self) (tag_wire_value tag) with
  | Err _ => (Ok None, self)
  | Ok index =>
      match get (directory self) index with
      | None => (Err (invalid_index DirectoryContext index 0), self)
      | Some entry =>
          if negb (bool_decide (entry_tag entry = Some tag)) then (Ok None, self)
          else let '(view, self) := section_by_index self index in (let? view := view in Ok (Some view), self)
      end
  end.

(** The loop of [sections] over the directory. *)
Fixpoint sections_loop (self : ValidatedPackageInterface) (index : usize) (directory : list DirectoryEntry) (sections : list ValidatedInterfaceSection)
    : result (list ValidatedInterfaceSection) InterfaceValidationError * ValidatedPackageInterface :=
  match directory with
  | [] => (Ok sections, self)
  | entry :: directory =>
      match entry_tag entry with
      | None => sections_loop self (index + 1) directory sections
      | Some _ =>
          match section_by_index self index with
          | (Err e, self) => (Err e, self)
          | (Ok view, self) => sections_loop self (index + 1) directory (sections ++ [view])
          end
      end
  end.

Definition sections (self : ValidatedPackageInterface) : result (list ValidatedInterfaceSection) InterfaceValidationError * ValidatedPackageInterface :=
  match allocate_items size_of_section DirectoryContext RecordCountField (zlen (directory self)) with
  | Err e => (Err e, self)
  | Ok reserved => sections_loop self 0 (directory self) reserved
  end.

Fixpoint sections_by_tag (self : ValidatedPackageInterface) (tags : list InterfaceSectionTag)
    : result (list ValidatedInterfaceSection) InterfaceValidationError * ValidatedPackageInterface :=
  match tags with
  | [] => (Ok [], self)
  | tag :: tags =>
      match section self tag with
      | (Err e, self) => (Err e, self)
      | (Ok None, self) => (Err (malformed (SectionContext tag) (CauseMissing SectionTagField)), self)
      | (Ok (Some view), self) =>
          match sections_by_tag self tags with
          | (Err e, self) => (Err e, self)
          | (Ok views, self) => (Ok (view :: views), self)
          end
      end
  end.
End validation.
