(* ===== verification/InterfaceEnvelope.v ===== *)
(** * The envelope of a package interface

    What the bytes of a valid interface are, stated apart from the code: a header,
    a directory of entries in the order of their tags, payloads within bounds,
    and digests that agree.  The validation of [InterfaceArtifact] accepts exactly
    this, and assembling sections produces it. *)

From Stdlib Require Import ZArith Lia String Sorted.
From stdpp Require Import base list numbers option.
From S2P Require Import Prelude InterfaceFormat InterfaceArtifact.

(** ** Reading the wire *)

(** What is left to read. *)
Definition reads_at (self : WireReader) (rest : list u8) : Prop :=
  0 <= reader_position self <= zlen (reader_bytes self) /\ zdrop (reader_position self) (reader_bytes self) = rest.

Lemma reads_at_new bytes : reads_at (WireReader_new bytes) bytes.
Proof. split; [cbn; pose proof (zlen_nonneg bytes); lia|done]. Qed.

Lemma read_array_at n self rest :
  reads_at self rest -> 0 <= n ->
  if n <=? zlen rest then exists self', read_array n self = Ok (ztake n rest, self') /\ reads_at self' (zdrop n rest)
  else read_array n self = Err (WireTruncated (reader_position self) n (zlen rest)).
Proof.
  intros [Hp <-] Hn. destruct self as [bytes p]. cbn [reader_position reader_bytes] in *. unfold read_array, read_bytes. cbn [reader_position reader_bytes].
  rewrite get_range_ok by lia. rewrite ztake_all by (rewrite ?zlen_zdrop; lia). rewrite zlen_zdrop by lia.
  destruct (n <=? zlen bytes - p) eqn:E.
  - rewrite get_range_ok by (rewrite ?zlen_zdrop; lia). rewrite zdrop_0, Z.sub_0_r. cbn [ok_or result_bind fst]. rewrite zlen_ztake by (rewrite ?zlen_zdrop; lia).
    rewrite Z.eqb_refl. eexists. split; [done|]. split; cbn [reader_position reader_bytes]; [lia|]. by rewrite zdrop_zdrop by lia.
  - unfold get_range. rewrite zlen_zdrop by lia. replace (n <=? zlen bytes - p) with false. by rewrite andb_false_r.
Qed.

Lemma read_array_wire n self x rest :
  reads_at self (x ++ rest) -> zlen x = n -> exists self', read_array n self = Ok (x, self') /\ reads_at self' rest.
Proof.
  intros H Hx. pose proof (zlen_nonneg x). pose proof (read_array_at n self _ H ltac:(lia)) as Hr. rewrite zlen_app in Hr.
  pose proof (zlen_nonneg rest). destruct (n <=? zlen x + zlen rest) eqn:E; [|lia]. by rewrite ztake_app, zdrop_app in Hr.
Qed.

Lemma read_array_inv n self rest x self' :
  reads_at self rest -> 0 <= n -> read_array n self = Ok (x, self') -> exists rest', rest = x ++ rest' /\ zlen x = n /\ reads_at self' rest'.
Proof.
  intros H Hn Hr. pose proof (read_array_at n self rest H Hn) as Ha. rewrite Hr in Ha. destruct (n <=? zlen rest) eqn:E; [|done].
  destruct Ha as (y & [= -> ->] & Hy). exists (zdrop n rest). rewrite ztake_zdrop. split; [done|]. rewrite zlen_ztake by lia. done.
Qed.

Lemma read_array_err n self rest e : reads_at self rest -> 0 <= n -> read_array n self = Err e -> zlen rest < n.
Proof.
  intros H Hn Hr. pose proof (read_array_at n self rest H Hn) as Ha. rewrite Hr in Ha. destruct (n <=? zlen rest) eqn:E; [|lia]. by destruct Ha as (y & ? & _).
Qed.

Lemma read_le_wire (w : nat) self v rest :
  reads_at self (to_le_bytes w v ++ rest) -> 0 <= v < 256 ^ Z.of_nat w -> exists self', read_le (Z.of_nat w) self = Ok (v, self') /\ reads_at self' rest.
Proof.
  intros H Hv. destruct (read_array_wire (Z.of_nat w) self _ _ H) as (self' & E & H'); [unfold zlen; by rewrite to_le_bytes_length|].
  exists self'. split; [|done]. unfold read_le. rewrite E. cbn [result_bind fst snd]. by rewrite from_to_le_bytes.
Qed.

Lemma read_le_inv (w : nat) self rest v self' :
  reads_at self rest -> Forall in_u8 rest -> read_le (Z.of_nat w) self = Ok (v, self') ->
  exists rest', rest = to_le_bytes w v ++ rest' /\ 0 <= v < 256 ^ Z.of_nat w /\ reads_at self' rest' /\ Forall in_u8 rest'.
Proof.
  intros H Hb Hr. unfold read_le in Hr. destruct (read_array _ self) as [[x y]|] eqn:E; [|done]. cbn [result_bind fst snd] in Hr. injection Hr as <- <-.
  destruct (read_array_inv (Z.of_nat w) self rest x y H (Zle_0_nat w) E) as (rest' & -> & Hl & Hy). apply Forall_app in Hb as [Hx Hb]. exists rest'.
  assert (length x = w) as Hw by (unfold zlen in Hl; lia). rewrite <- Hw at 1. rewrite to_from_le_bytes by done. split; [done|].
  pose proof (from_le_bytes_range _ Hx) as Hv. rewrite Hl in Hv. split; [done|]. by split.
Qed.

Lemma read_le_err w self rest e : reads_at self rest -> 0 <= w -> read_le w self = Err e -> zlen rest < w.
Proof.
  intros H Hw Hr. unfold read_le in Hr. destruct (read_array w self) as [[x y]|e'] eqn:E; [done|]. by eapply read_array_err.
Qed.

Definition in_u16 (x : Z) : Prop := 0 <= x < 65536.

(** ** The header and the entries on the wire *)

Definition header_wire (d : DecodedHeader) : list u8 :=
  let h := decoded_header d in
  decoded_magic d ++ to_le_bytes 2 (format_revision h) ++ to_le_bytes 2 (language_revision h) ++ to_le_bytes 4 (decoded_byte_order_marker d) ++
  to_le_bytes 8 (required_flags h) ++ to_le_bytes 8 (declared_file_length h) ++ to_le_bytes 8 (directory_offset h) ++
  to_le_bytes 8 (directory_length h) ++ header_content_hash h ++ artifact_hash h.

Record header_fits (d : DecodedHeader) : Prop := {
  hf_magic : zlen (decoded_magic d) = 8;
  hf_format : in_u16 (format_revision (decoded_header d));
  hf_language : in_u16 (language_revision (decoded_header d));
  hf_marker : in_u32 (decoded_byte_order_marker d);
  hf_flags : in_u64 (required_flags (decoded_header d));
  hf_length : in_u64 (declared_file_length (decoded_header d));
  hf_offset : in_u64 (directory_offset (decoded_header d));
  hf_directory : in_u64 (directory_length (decoded_header d));
  hf_content : zlen (header_content_hash (decoded_header d)) = 32;
  hf_artifact : zlen (artifact_hash (decoded_header d)) = 32;
}.

Definition entry_wire (e : DirectoryEntry) : list u8 :=
  to_le_bytes 4 (raw_tag e) ++ to_le_bytes 2 (section_revision e) ++ to_le_bytes 1 (raw_compatibility e) ++ to_le_bytes 1 (raw_encoding e) ++
  to_le_bytes 8 (entry_offset e) ++ to_le_bytes 8 (encoded_length e) ++ to_le_bytes 8 (decoded_length e) ++ to_le_bytes 8 (record_count e) ++
  checksum e ++ entry_content_hash e.

Record entry_fits (e : DirectoryEntry) : Prop := {
  ef_tag : in_u32 (raw_tag e);
  ef_revision : in_u16 (section_revision e);
  ef_compatibility : in_u8 (raw_compatibility e);
  ef_encoding : in_u8 (raw_encoding e);
  ef_offset : in_u64 (entry_offset e);
  ef_encoded : in_u64 (encoded_length e);
  ef_decoded : in_u64 (decoded_length e);
  ef_records : in_u64 (record_count e);
  ef_checksum : zlen (checksum e) = 32;
  ef_content : zlen (entry_content_hash e) = 32;
}.

Ltac in_width := unfold in_u8, in_u16, in_u32, in_u64, U32_MAX, U64_MAX in *; simpl; lia.

(** Reads the next field off a reader whose bytes are known. *)
Ltac read_field :=
  lazymatch goal with
  | H : reads_at ?self (to_le_bytes ?w ?v ++ ?rest) |- _ =>
      let r := fresh "r" in let E := fresh "E" in let H' := fresh "H" in
      destruct (read_le_wire w self v rest H ltac:(in_width)) as (r & E & H'); clear H;
      let z := eval compute in (Z.of_nat w) in change (Z.of_nat w) with z in E; rewrite E; clear E; cbn [result_bind]
  | H : reads_at ?self (?x ++ ?rest) |- context [read_array ?n ?self] =>
      let r := fresh "r" in let E := fresh "E" in let H' := fresh "H" in
      destruct (read_array_wire n self x rest H ltac:(assumption)) as (r & E & H'); clear H; rewrite E; clear E; cbn [result_bind]
  end.

Lemma header_decode_wire d rest : header_fits d -> InterfaceHeader_decode (header_wire d ++ rest) = Ok d.
Proof.
  intros [Hm Hf Hl Hbo Hfl Hle Ho Hd Hc Ha]. unfold InterfaceHeader_decode, read_u16, read_u32, read_u64. pose proof (reads_at_new (header_wire d ++ rest)) as H.
  unfold header_wire in H at 2. rewrite <- !app_assoc in H. do 10 read_field. by destruct d as [? ? []].
Qed.

Lemma entry_decode_wire e rest : entry_fits e -> DirectoryEntry_decode (entry_wire e ++ rest) = Ok e.
Proof.
  intros [H1 H2 H3 H4 H5 H6 H7 H8 H9 H10]. unfold DirectoryEntry_decode, read_u8, read_u16, read_u32, read_u64. pose proof (reads_at_new (entry_wire e ++ rest)) as H.
  unfold entry_wire in H at 2. rewrite <- !app_assoc in H. do 10 read_field. by destruct e.
Qed.

(** The field that a successful read has taken. *)
Ltac unread_field Hd :=
  lazymatch type of Hd with
  | result_bind (read_le ?n ?r) _ = Ok _ =>
      let v := fresh "v" in let r' := fresh "r" in let E := fresh "E" in let Hv := fresh "Hv" in
      destruct (read_le n r) as [[v r']|] eqn:E; cbn [result_bind] in Hd; [|discriminate Hd];
      match goal with
      | H : reads_at r ?rest, Hb : Forall in_u8 ?rest |- _ =>
          let w := eval compute in (Z.to_nat n) in let H' := fresh "H" in let Hb' := fresh "Hb" in let rest' := fresh "rest" in
          destruct (read_le_inv w r rest v r' H Hb E) as (rest' & -> & Hv & H' & Hb'); clear H Hb E
      end
  | result_bind (read_array ?n ?r) _ = Ok _ =>
      let v := fresh "v" in let r' := fresh "r" in let E := fresh "E" in let Hv := fresh "Hv" in
      destruct (read_array n r) as [[v r']|] eqn:E; cbn [result_bind] in Hd; [|discriminate Hd];
      match goal with
      | H : reads_at r ?rest, Hb : Forall in_u8 ?rest |- _ =>
          let H' := fresh "H" in let Hb' := fresh "Hb" in let rest' := fresh "rest" in
          destruct (read_array_inv n r rest v r' H ltac:(lia) E) as (rest' & -> & Hv & H'); apply Forall_app in Hb as [_ Hb']; clear H E
      end
  end.

Lemma header_decode_inv bytes d :
  Forall in_u8 bytes -> InterfaceHeader_decode bytes = Ok d -> header_fits d /\ exists rest, bytes = header_wire d ++ rest.
Proof.
  intros Hb Hd. unfold InterfaceHeader_decode, read_u16, read_u32, read_u64 in Hd. pose proof (reads_at_new bytes) as H.
  set (r := WireReader_new bytes) in *. clearbody r. do 10 unread_field Hd. injection Hd as <-. split.
  - constructor; cbn [decoded_magic decoded_header decoded_byte_order_marker format_revision language_revision required_flags declared_file_length directory_offset
      directory_length header_content_hash artifact_hash]; first [assumption|in_width].
  - eexists. unfold header_wire. rewrite <- !app_assoc. reflexivity.
Qed.

Lemma entry_decode_inv bytes e :
  Forall in_u8 bytes -> DirectoryEntry_decode bytes = Ok e -> entry_fits e /\ exists rest, bytes = entry_wire e ++ rest.
Proof.
  intros Hb Hd. unfold DirectoryEntry_decode, read_u8, read_u16, read_u32, read_u64 in Hd. pose proof (reads_at_new bytes) as H.
  set (r := WireReader_new bytes) in *. clearbody r. do 10 unread_field Hd. injection Hd as <-. split.
  - constructor; cbn [raw_tag section_revision raw_compatibility raw_encoding entry_offset encoded_length decoded_length record_count checksum entry_content_hash];
      first [assumption|in_width].
  - eexists. unfold entry_wire. rewrite <- !app_assoc. reflexivity.
Qed.

Lemma to_le_bytes_zlen w v : zlen (to_le_bytes w v) = Z.of_nat w.
Proof. unfold zlen. by rewrite to_le_bytes_length. Qed.

Lemma header_wire_length d : header_fits d -> zlen (header_wire d) = 112.
Proof. intros []. unfold header_wire. rewrite !zlen_app, !to_le_bytes_zlen. lia. Qed.

Lemma entry_wire_length e : entry_fits e -> zlen (entry_wire e) = 104.
Proof. intros []. unfold entry_wire. rewrite !zlen_app, !to_le_bytes_zlen. lia. Qed.

(** A chunk of the directory is one entry. *)
Lemma chunk_entry chunk e : Forall in_u8 chunk -> zlen chunk = 104 -> DirectoryEntry_decode chunk = Ok e -> entry_fits e /\ chunk = entry_wire e.
Proof.
  intros Hb Hl Hd. destruct (entry_decode_inv _ _ Hb Hd) as (He & rest & ->). split; [done|]. rewrite zlen_app, (entry_wire_length e He) in Hl.
  by rewrite (zlen_zero_inv rest), app_nil_r by lia.
Qed.

Lemma entry_decode_exact e : entry_fits e -> DirectoryEntry_decode (entry_wire e) = Ok e.
Proof. intros He. rewrite <- (app_nil_r (entry_wire e)). by apply entry_decode_wire. Qed.

(** ** Chunks *)

Lemma chunks_exact_cons {A} size (c l : list A) :
  0 < size -> zlen c = size -> chunks_exact size (c ++ l) = c :: chunks_exact size l.
Proof.
  intros Hs Hc. unfold chunks_exact. rewrite zlen_app, Hc. replace (size + zlen l) with (zlen l + 1 * size) by lia. rewrite Z.div_add by lia.
  pose proof (zlen_nonneg l). pose proof (Z.div_pos (zlen l) size ltac:(lia) Hs). rewrite Z2Nat.inj_add, Nat.add_comm by lia. change (Z.to_nat 1) with 1%nat. cbn [Nat.add seq map].
  f_equal; [by rewrite Z.mul_0_r, zdrop_0, ztake_app|]. rewrite <- seq_shift, map_map. apply map_ext. intros i.
  f_equal. replace (size * Z.of_nat (S i)) with (size + size * Z.of_nat i) by lia. rewrite <- zdrop_zdrop by lia. by rewrite zdrop_app.
Qed.

Lemma chunks_exact_concat {A} size (cs : list (list A)) :
  0 < size -> Forall (fun c => zlen c = size) cs -> chunks_exact size (concat cs) = cs.
Proof.
  intros Hs. induction 1 as [|c cs Hc _ IH]; [unfold chunks_exact; by rewrite Zdiv_0_l|]. cbn [concat]. by rewrite chunks_exact_cons, IH.
Qed.

Lemma chunks_exact_split {A} size (l : list A) :
  0 < size -> zlen l mod size = 0 -> concat (chunks_exact size l) = l /\ Forall (fun c => zlen c = size) (chunks_exact size l).
Proof.
  intros Hs Hm. remember (Z.to_nat (zlen l / size)) as n eqn:En. revert l Hm En. induction n as [|n IH]; intros l Hm En.
  - pose proof (zlen_nonneg l). pose proof (Z.div_mod (zlen l) size ltac:(lia)). pose proof (Z.div_pos (zlen l) size ltac:(lia) Hs).
    assert (l = []) as -> by (apply zlen_zero_inv; nia). unfold chunks_exact. rewrite Zdiv_0_l. by split.
  - pose proof (zlen_nonneg l). pose proof (Z.div_mod (zlen l) size ltac:(lia)) as Hdm. pose proof (Z.div_pos (zlen l) size ltac:(lia) Hs).
    assert (size <= zlen l) as Hge by nia. rewrite <- (ztake_zdrop size l). assert (zlen (ztake size l) = size) as Ht by (apply zlen_ztake; lia).
    rewrite chunks_exact_cons by done. destruct (IH (zdrop size l)) as [H1 H2].
    + rewrite zlen_zdrop by lia. replace (zlen l - size) with (zlen l + -1 * size) by lia. by rewrite Z.mod_add by lia.
    + rewrite zlen_zdrop by lia. replace (zlen l - size) with (zlen l + -1 * size) by lia. rewrite Z.div_add by lia. lia.
    + split; [cbn [concat]; by rewrite H1|by constructor].
Qed.

(** Entries on the wire, one after another, are told apart. *)
Lemma wires_unique d d' : Forall entry_fits d -> Forall entry_fits d' -> concat (map entry_wire d') = concat (map entry_wire d) -> d = d'.
Proof.
  intros F1. revert d'. induction F1 as [|e l He _ IH]; intros [|e' l'] F2 E; cbn [map concat] in E.
  - done.
  - apply Forall_cons_iff in F2 as [He' _]. apply (f_equal zlen) in E. rewrite zlen_app, entry_wire_length in E by done. pose proof (zlen_nonneg (concat (map entry_wire l'))).
    change (zlen []) with 0 in E. lia.
  - apply (f_equal zlen) in E. rewrite zlen_app, entry_wire_length in E by done. pose proof (zlen_nonneg (concat (map entry_wire l))). change (zlen []) with 0 in E. lia.
  - apply Forall_cons_iff in F2 as [He' F2]. apply (f_equal DirectoryEntry_decode) in E as Ed. rewrite !entry_decode_wire in Ed by done. injection Ed as ->.
    apply app_inv_head in E. by rewrite (IH l').
Qed.

(** ** What an entry promises *)

Definition entry_range (e : DirectoryEntry) : byte_range := {| range_start := entry_offset e; range_end := entry_offset e + encoded_length e |}.

(** The compatibility is that of a known tag, or the section may be ignored; a
    section that is read has the current revision, a known encoding and, if it is
    stored as it is, the length of what is stored. *)
Definition contract_met (e : DirectoryEntry) : Prop :=
  exists compatibility, compatibility_from_wire_value (raw_compatibility e) = Some compatibility /\
  match tag_from_wire_value (raw_tag e) with
  | None => compatibility_is_optional compatibility = true
  | Some tag =>
      compatibility = tag_compatibility tag /\
      (section_revision e = InterfaceSectionRevision_CURRENT /\
       (exists encoding, entry_encoding e = Some encoding /\ (encoding = Raw -> encoded_length e = decoded_length e)) \/
       compatibility_is_optional compatibility = true /\
       (section_revision e <> InterfaceSectionRevision_CURRENT \/ entry_encoding e = None))
  end.

Lemma contract_exact context e : validate_section_contract context (tag_from_wire_value (raw_tag e)) e = Ok tt <-> contract_met e.
Proof.
  unfold validate_section_contract, contract_met, entry_encoding.
  destruct (compatibility_from_wire_value (raw_compatibility e)) as [c|]; [|split; [done|by intros (? & ? & _)]].
  transitivity (match tag_from_wire_value (raw_tag e) with
                | None => compatibility_is_optional c = true
                | Some tag => c = tag_compatibility tag /\
                    (section_revision e = InterfaceSectionRevision_CURRENT /\
                     (exists encoding, encoding_from_wire_value (raw_encoding e) = Some encoding /\ (encoding = Raw -> encoded_length e = decoded_length e)) \/
                     compatibility_is_optional c = true /\ (section_revision e <> InterfaceSectionRevision_CURRENT \/ encoding_from_wire_value (raw_encoding e) = None))
                end); [|split; [intros H; by exists c|by intros (? & [= <-] & H)]].
  destruct (tag_from_wire_value (raw_tag e)) as [tag|]; [|by destruct (compatibility_is_optional c)].
  case_bool_decide as Hc; cbn [negb]; [|by split; [done|intros [? _]]].
  destruct (section_revision e =? InterfaceSectionRevision_CURRENT) eqn:Er; cbn [negb].
  - apply Z.eqb_eq in Er. destruct (encoding_from_wire_value (raw_encoding e)) as [enc|].
    + case_bool_decide as Ee; cbn [andb].
      * destruct (encoded_length e =? decoded_length e) eqn:El; cbn [negb].
        -- split; [|done]. intros _. split; [done|]. left. split; [done|]. exists enc. split; [done|]. lia.
        -- split; [done|]. intros (_ & [(_ & enc' & [= <-] & H)|(_ & [|])]); [specialize (H Ee); lia|done|done].
      * split; [|done]. intros _. split; [done|]. left. split; [done|]. by exists enc.
    + destruct (compatibility_is_optional c) eqn:Eo.
      * split; [|done]. intros _. split; [done|]. right. split; [done|by right].
      * split; [done|]. by intros (_ & [(_ & enc' & ? & _)|(? & _)]).
  - apply Z.eqb_neq in Er. destruct (compatibility_is_optional c) eqn:Eo.
    + split; [|done]. intros _. split; [done|]. right. split; [done|by left].
    + split; [done|]. by intros (_ & [(? & _)|(? & _)]).
Qed.

(** A frame of the canonical encoding: one whole frame that knows its content
    size, with a checksum, without a dictionary or reserved bits, and with a
    window that is bounded. *)
Definition window_size (window : u8) : Z := 2 ^ (10 + window / 8) + 2 ^ (10 + window / 8) / 8 * (window mod 8).

Definition frame_header_met (frame : list u8) (length : Z) : Prop :=
  exists descriptor, get frame 4 = Some descriptor /\
  Z.testbit descriptor 2 = true /\ Z.land descriptor 3 = 0 /\ Z.land descriptor 24 = 0 /\
  if Z.testbit descriptor 5 then length <= 2 ^ 20 else exists window, get frame 5 = Some window /\ window_size window <= 2 ^ 20.

Lemma land_bit x n : 0 <= n -> (Z.land x (2 ^ n) =? 0) = negb (Z.testbit x n).
Proof.
  intros Hn. destruct (Z.testbit x n) eqn:E; cbn [negb].
  - apply Z.eqb_neq. intros H. assert (Z.testbit (Z.land x (2 ^ n)) n = false) as H1 by (rewrite H; apply Z.bits_0).
    rewrite Z.land_spec, E, Z.pow2_bits_true in H1 by done. done.
  - apply Z.eqb_eq, Z.bits_inj'. intros m Hm. rewrite Z.land_spec, Z.bits_0. destruct (decide (m = n)) as [->|Hne]; [by rewrite E|].
    rewrite Z.pow2_bits_false by done. by rewrite andb_false_r.
Qed.

Lemma window_ok context window :
  in_u8 window ->
  (let? base := ok_or (u64_checked_shl 1 (10 + Z.shiftr window 3)) (Compression context (WindowSizeOverflow window)) in
   ok_or (u64_checked_add base (base / 8 * Z.land window WINDOW_MANTISSA_MASK)) (Compression context (WindowSizeOverflow window))) = Ok (window_size window).
Proof.
  intros Hw. unfold in_u8 in Hw. rewrite Z.shiftr_div_pow2 by done. change (2 ^ 3) with 8. assert (0 <= window / 8 <= 31) as He.
  { split; [apply Z.div_pos; lia|]. assert (window / 8 < 32) by (apply Z.div_lt_upper_bound; lia). lia. }
  unfold u64_checked_shl. destruct (10 + window / 8 <? 64) eqn:E; [|lia]. rewrite Z.shiftl_mul_pow2, Z.mul_1_l by lia.
  assert (2 ^ 10 <= 2 ^ (10 + window / 8) <= 2 ^ 41) as Hp by (split; apply Z.pow_le_mono_r; lia).
  rewrite Z.mod_small by (change (2 ^ 64) with 18446744073709551616; change (2 ^ 41) with 2199023255552 in Hp; change (2 ^ 10) with 1024 in Hp; lia). cbn [ok_or result_bind].
  change WINDOW_MANTISSA_MASK with (Z.ones 3). rewrite Z.land_ones by done. change (2 ^ 3) with 8. fold (window_size window).
  pose proof (Z.mod_pos_bound window 8 ltac:(lia)). assert (0 <= 2 ^ (10 + window / 8) / 8 <= 2 ^ 41) as Hq.
  { change (2 ^ 41) with 2199023255552 in *. change (2 ^ 10) with 1024 in *. split; [apply Z.div_pos; lia|]. apply Z.div_le_upper_bound; lia. }
  unfold u64_checked_add. rewrite checked_ok; [done|]. unfold U64_MAX. change (2 ^ 41) with 2199023255552 in *. change (2 ^ 10) with 1024 in *. nia.
Qed.

Lemma frame_header_exact context frame length :
  Forall in_u8 frame -> validate_zstd_frame_header context frame length = Ok tt <-> frame_header_met frame length.
Proof.
  intros Hb. unfold validate_zstd_frame_header, frame_header_met, FRAME_HEADER_DESCRIPTOR_OFFSET, WINDOW_DESCRIPTOR_OFFSET.
  destruct (get frame 4) as [d|]; cbn [ok_or result_bind]; [|split; [done|by intros (? & ? & _)]].
  change SINGLE_SEGMENT_FLAG with (2 ^ 5). change CONTENT_CHECKSUM_FLAG with (2 ^ 2). rewrite !land_bit by done. rewrite !negb_involutive.
  change DICTIONARY_IDENTIFIER_MASK with 3. change RESERVED_FRAME_HEADER_MASK with 24. change MAXIMUM_WINDOW_SIZE with (2 ^ 20).
  transitivity (Z.testbit d 2 = true /\ Z.land d 3 = 0 /\ Z.land d 24 = 0 /\
    if Z.testbit d 5 then length <= 2 ^ 20 else exists window, get frame 5 = Some window /\ window_size window <= 2 ^ 20);
    [|split; [intros H; by exists d|by intros (? & [= <-] & H)]].
  destruct (Z.testbit d 2); cbn [negb orb]; [|by split; [|intros [? _]]].
  destruct (Z.land d 3 =? 0) eqn:E3; cbn [negb orb]; [|split; [done|]; intros (_ & ? & _); lia].
  destruct (Z.land d 24 =? 0) eqn:E24; cbn [negb orb]; [|split; [done|]; intros (_ & _ & ? & _); lia].
  apply Z.eqb_eq in E3, E24. destruct (Z.testbit d 5); cbn [result_bind].
  - destruct (2 ^ 20 <? length) eqn:E; split; try done; [intros (_ & _ & _ & ?)|intros _]; lia.
  - destruct (get frame 5) as [w|] eqn:Ew; cbn [ok_or result_bind]; [|split; [done|by intros (_ & _ & _ & ? & ? & _)]].
    assert (in_u8 w) as Hw by (unfold get in Ew; cbn in Ew; by eapply Forall_lookup_1 in Hb). cbv zeta. rewrite window_ok by done. cbn [result_bind].
    destruct (2 ^ 20 <? window_size w) eqn:E; split; try done; [intros (_ & _ & _ & ? & [= <-] & ?); lia|]. intros _. split_and!; [done|done|done|].
    exists w. split; [done|lia].
Qed.

Section frames.
Context {zstd : Zstd}.

Definition frame_met (frame : list u8) (length : Z) : Prop :=
  find_frame_compressed_size frame = Some (zlen frame) /\ frame_header_met frame length /\ get_frame_content_size frame = Some (Some length).

Lemma frame_exact context frame length : Forall in_u8 frame -> validate_zstd_frame context frame length = Ok tt <-> frame_met frame length.
Proof.
  intros Hb. unfold validate_zstd_frame, frame_met. destruct (find_frame_compressed_size frame) as [n|]; cbn [ok_or result_bind]; [|by split; [|intros [? _]]].
  destruct (n =? zlen frame) eqn:En; cbn [negb]; [|split; [done|]; intros ([= ->] & _); lia].
  apply Z.eqb_eq in En as ->. rewrite <- (frame_header_exact context frame length Hb).
  destruct (validate_zstd_frame_header context frame length) as [[]|e]; cbn [result_bind]; [|by split; [|intros (_ & ? & _)]].
  destruct (get_frame_content_size frame) as [size|]; cbn [ok_or result_bind]; [|by split; [|intros (_ & _ & ?)]].
  case_bool_decide as E; cbn [negb]; [subst size; done|]. split; [done|]. intros (_ & _ & [= ?]). done.
Qed.
End frames.

(** ** The directory *)

Section directory.
Context {zstd : Zstd} (bytes : list u8) (directory_range : byte_range) (limits : InterfaceValidationLimits).

(** An entry by itself: its payload lies in the file, outside of the header and
    of the directory, and is a frame where it says so. *)
Record entry_admitted (e : DirectoryEntry) : Prop := {
  ea_contract : contract_met e;
  ea_records : record_count e <= maximum limits RecordCount;
  ea_bounds : entry_offset e + encoded_length e <= zlen bytes;
  ea_header : ranges_overlap (entry_range e) {| range_start := 0; range_end := InterfaceHeader_LENGTH |} = false;
  ea_directory : ranges_overlap (entry_range e) directory_range = false;
  ea_frame : is_Some (tag_from_wire_value (raw_tag e)) -> entry_encoding e = Some ZstdFrame ->
    forall frame, get_range bytes (entry_offset e) (entry_offset e + encoded_length e) = Some frame -> frame_met frame (decoded_length e);
}.

(** Two entries in a row. *)
Definition entry_before (e e' : DirectoryEntry) : Prop := raw_tag e < raw_tag e' /\ ranges_overlap (entry_range e') (entry_range e) = false.

Definition follows (previous : option DirectoryEntry) (e : DirectoryEntry) : Prop :=
  match previous with Some previous => entry_before previous e | None => True end.

Definition allocation (l : list DirectoryEntry) : Z := foldr (fun e total => decoded_length e + total) 0 l.

Definition linked (previous : option DirectoryEntry) (state : directory_state) : Prop :=
  previous_tag state = raw_tag <$> previous /\ previous_range state = entry_range <$> previous.

Definition state_next (state : directory_state) (e : DirectoryEntry) : directory_state :=
  {| previous_tag := Some (raw_tag e); previous_range := Some (entry_range e); total_allocation := total_allocation state + decoded_length e;
     entries := entries state ++ [e] |}.

Context (policy : InterfaceValidationPolicy) (Hlimits : policy_limits policy = limits).
Context (Hbytes : Forall in_u8 bytes) (Hsize : zlen bytes <= USIZE_MAX) (Hmax : maximum limits DecodedAllocation <= U64_MAX).

Lemma checked_range_exact offset length :
  0 <= offset -> 0 <= length ->
  if offset + length <=? zlen bytes then checked_range offset length (zlen bytes) = Ok {| range_start := offset; range_end := offset + length |}
  else exists e, checked_range offset length (zlen bytes) = Err e.
Proof using Hsize.
  intros Ho Hl. change USIZE_MAX with U64_MAX in Hsize. unfold checked_range, u64_checked_add, usize_try_from. change USIZE_MAX with U64_MAX.
  destruct (offset + length <=? zlen bytes) eqn:E.
  - rewrite !checked_ok by lia. cbn [ok_or result_bind]. rewrite ?checked_ok by lia. cbn [ok_or result_bind].
    by destruct (zlen bytes <? offset + length) eqn:E2; [lia|].
  - destruct (checked U64_MAX (offset + length)) as [x|] eqn:E1; [|by eexists]. apply checked_Some in E1 as [-> _]. cbn [ok_or result_bind].
    destruct (checked U64_MAX offset); [|by eexists]. cbn [ok_or result_bind]. destruct (checked U64_MAX (offset + length)) as [x|] eqn:E2; [|by eexists].
    apply checked_Some in E2 as [-> _]. cbn [ok_or result_bind]. destruct (zlen bytes <? offset + length) eqn:E3; [by eexists|lia].
Qed.

Lemma limits_check_exact limit actual : limits_check limits limit actual = Ok tt <-> actual <= maximum limits limit.
Proof using. unfold limits_check. destruct (maximum limits limit <? actual) eqn:E; split; try done; lia. Qed.

Lemma frame_bytes a b frame : get_range bytes a b = Some frame -> Forall in_u8 frame.
Proof using Hbytes. unfold get_range. destruct (_ && _); [|done]. intros [= <-]. unfold ztake, zdrop. by apply Forall_take, Forall_drop. Qed.

Lemma result_ok_cases {A E} (m : result A E) : (exists a, m = Ok a) \/ (exists e, m = Err e).
Proof using. destruct m; eauto. Qed.

(** A turn of the loop takes an entry exactly if it is admitted behind the previous one. *)
Lemma directory_step_exact index e state previous st' :
  entry_fits e -> linked previous state ->
  directory_step bytes directory_range policy index (entry_wire e) state = Ok st' <->
  entry_admitted e /\ follows previous e /\ total_allocation state + decoded_length e <= maximum limits DecodedAllocation /\
  0 <= total_allocation state + decoded_length e /\ st' = state_next state e.
Proof using All.
  intros Hfit [Htag Hrange]. unfold directory_step. rewrite entry_decode_exact by done. cbn [map_err result_bind]. rewrite Hlimits.
  set (context := directory_entry_context _ _). pose proof (contract_exact context e) as Hcontract.
  destruct (validate_section_contract context _ e) as [[]|]; cbn [result_bind]; [|split; [done|]; intros [[H _ _ _ _ _] _]; by apply Hcontract in H].
  rewrite Htag. assert ((match raw_tag <$> previous with Some p => raw_tag e <=? p | None => false end) = false <-> match previous with Some p => raw_tag p < raw_tag e | None => True end) as Hord.
  { destruct previous; cbn; [|done]. rewrite Z.leb_gt. done. }
  destruct (match raw_tag <$> previous with Some p => raw_tag e <=? p | None => false end).
  { split; [done|]. intros (_ & Hf & _). destruct previous; [|by destruct Hord as [_ Hord]; specialize (Hord I)]. destruct Hf as [Hf _]. apply Hord in Hf. done. }
  pose proof (proj1 Hord eq_refl) as Hlt. clear Hord.
  pose proof (limits_check_exact RecordCount (record_count e)) as Hrec.
  destruct (limits_check limits RecordCount _) as [[]|]; cbn [result_bind]; [|split; [done|]; intros [[_ H _ _ _ _] _]; by apply Hrec in H].
  unfold u64_checked_add. destruct (checked U64_MAX (total_allocation state + decoded_length e)) as [total|] eqn:Et; cbn [ok_or result_bind].
  2: { split; [done|]. intros (_ & _ & H1 & H2 & _). apply checked_None in Et. lia. }
  apply checked_Some in Et as [-> [Ht0 _]]. pose proof (limits_check_exact DecodedAllocation (total_allocation state + decoded_length e)) as Hall.
  destruct (limits_check limits DecodedAllocation _) as [[]|]; cbn [result_bind]; [|split; [done|]; intros (_ & _ & H & _); by apply Hall in H].
  pose proof (checked_range_exact (entry_offset e) (encoded_length e) ltac:(apply Hfit) ltac:(apply Hfit)) as Hcr.
  destruct (entry_offset e + encoded_length e <=? zlen bytes) eqn:Eb.
  2: { destruct Hcr as [err ->]. cbn [map_err result_bind]. split; [done|]. intros [[_ _ H _ _ _] _]. lia. }
  rewrite Hcr. cbn [map_err result_bind]. fold (entry_range e).
  destruct (ranges_overlap (entry_range e) {| range_start := 0; range_end := InterfaceHeader_LENGTH |}) eqn:Eh; [split; [done|]; intros [[_ _ _ H _ _] _]; congruence|].
  destruct (ranges_overlap (entry_range e) directory_range) eqn:Ed; [split; [done|]; intros [[_ _ _ _ H _] _]; congruence|].
  rewrite Hrange. destruct (match entry_range <$> previous with Some p => if ranges_overlap (entry_range e) p then _ else Ok tt | None => Ok tt end) as [[]|] eqn:Ep; cbn [result_bind].
  2: { split; [done|]. intros (_ & Hf & _). destruct previous as [p|]; cbn in Ep; [|done]. destruct Hf as [_ Hf]. by rewrite Hf in Ep. }
  assert (follows previous e) as Hfollows.
  { destruct previous as [p|]; [|done]. split; [done|]. cbn in Ep. by destruct (ranges_overlap (entry_range e) (entry_range p)). }
  cbn [range_start range_end entry_range]. destruct (get_range bytes (entry_offset e) (entry_offset e + encoded_length e)) as [frame|] eqn:Ef.
  2: { destruct Hfit. unfold in_u64 in *. rewrite get_range_ok in Ef by lia. done. }
  cbn [ok_or result_bind]. pose proof (frame_exact context frame (decoded_length e) (frame_bytes _ _ _ Ef)) as Hframe.
  destruct (bool_decide (is_Some (tag_from_wire_value (raw_tag e))) && bool_decide (entry_encoding e = Some ZstdFrame)) eqn:Ec.
  - apply andb_true_iff in Ec as [Ec1%bool_decide_eq_true Ec2%bool_decide_eq_true].
    destruct (validate_zstd_frame context frame (decoded_length e)) as [[]|]; cbn [result_bind].
    + split; [intros [= <-]|by intros (_ & _ & _ & _ & ->)]. split_and!; [|done|by apply Hall|done|done].
      constructor; [by apply Hcontract|by apply Hrec|lia|done|done|]. intros _ _ frame' E. assert (frame' = frame) as -> by congruence. by apply Hframe.
    + split; [done|]. intros [[_ _ _ _ _ H'] _]. by apply Hframe in H'.
  - cbn [result_bind]. split; [intros [= <-]|by intros (_ & _ & _ & _ & ->)]. split_and!; [|done|by apply Hall|done|done].
    constructor; [by apply Hcontract|by apply Hrec|lia|done|done|]. intros E1 E2 ? ?. rewrite (bool_decide_eq_true_2 _ E1), (bool_decide_eq_true_2 _ E2) in Ec. done.
Qed.

Fixpoint chained (previous : option DirectoryEntry) (l : list DirectoryEntry) : Prop :=
  match l with [] => True | e :: l => follows previous e /\ chained (Some e) l end.

Lemma chained_some l : forall p, chained (Some p) l <-> Sorted entry_before (p :: l).
Proof using.
  induction l as [|e l IH]; intros p; [split; [by repeat constructor|done]|]. cbn [chained follows]. rewrite IH. split.
  - intros [H1 H2]. by constructor; [|constructor].
  - intros [H1 H2%HdRel_inv]%Sorted_inv. done.
Qed.

Lemma chained_sorted l : chained None l <-> Sorted entry_before l.
Proof using. destruct l as [|e l]; [split; [by constructor|done]|]. cbn [chained follows]. rewrite chained_some. tauto. Qed.

Lemma allocation_nonneg l : Forall entry_fits l -> 0 <= allocation l.
Proof using. induction 1 as [|e l He _ IH]; [done|]. destruct He. unfold in_u64 in *. cbn [allocation foldr]. fold (allocation l). lia. Qed.

Lemma directory_loop_exact l : forall index state previous st',
  Forall entry_fits l -> linked previous state -> 0 <= total_allocation state <= maximum limits DecodedAllocation ->
  directory_loop bytes directory_range policy index (map entry_wire l) state = Ok st' <->
  Forall entry_admitted l /\ chained previous l /\ total_allocation state + allocation l <= maximum limits DecodedAllocation /\ st' = foldl state_next state l.
Proof using All.
  induction l as [|e l IH]; intros index state previous st' Hfit Hlink Ht; cbn [directory_loop map chained allocation foldr foldl].
  - split; [intros [= <-]; split_and!; [done|done|lia|done]|by intros (_ & _ & _ & ->)].
  - inversion Hfit as [|? ? He Hfit']; subst. pose proof (allocation_nonneg l Hfit') as Hnn. fold (allocation l).
    assert (0 <= decoded_length e) as Hd by apply He.
    pose proof (fun st => directory_step_exact index e state previous st He Hlink) as Hstep.
    destruct (directory_step bytes directory_range policy index (entry_wire e) state) as [st|err]; cbn [result_bind].
    + destruct (proj1 (Hstep st) eq_refl) as (Ha & Hf & Hm & _ & ->). rewrite (IH (index + 1) (state_next state e) (Some e)); [|done|done|cbn [total_allocation state_next]; lia].
      cbn [total_allocation state_next]. rewrite Forall_cons_iff. split; [intros (H1 & H2 & H3 & ->)|intros ([_ H1] & [_ H2] & H3 & ->)]; split_and!; try done; lia.
    + split; [done|]. intros (H1 & [H2 _] & H3 & _). apply Forall_cons_iff in H1 as [H1 _].
      assert (Err err = Ok (state_next state e)); [|done]. apply Hstep. split_and!; [done|done|lia|lia|done].
Qed.

Lemma entries_foldl l : forall state, entries (foldl state_next state l) = entries state ++ l.
Proof using. induction l as [|e l IH]; intros state; cbn [foldl]; [by rewrite app_nil_r|]. rewrite IH. cbn [state_next entries]. by rewrite <- app_assoc. Qed.

(** The loop ends well only on the wire forms of entries. *)
Lemma directory_loop_entries chunks : forall index state st',
  Forall (fun c => Forall in_u8 c /\ zlen c = 104) chunks -> directory_loop bytes directory_range policy index chunks state = Ok st' ->
  exists l, chunks = map entry_wire l /\ Forall entry_fits l.
Proof using.
  induction chunks as [|c chunks IH]; intros index state st' Hc Hloop; [by exists []|]. apply Forall_cons_iff in Hc as [[Hb Hl] Hc']. cbn [directory_loop] in Hloop.
  destruct (directory_step bytes directory_range policy index c state) as [st|] eqn:E; [|done]. cbn [result_bind] in Hloop.
  destruct (IH _ _ _ Hc' Hloop) as (l & -> & Hf). unfold directory_step in E. destruct (DirectoryEntry_decode c) as [e|] eqn:Ed; [|done].
  destruct (chunk_entry c e Hb Hl Ed) as [He ->]. exists (e :: l). split; [done|by constructor].
Qed.
End directory.

(** ** The envelope *)

Lemma fallible_ok_inv {A B E} (m : outcome (result A E)) (k : A -> outcome (result B E)) b :
  fallible_bind m k = Ret (Ok b) -> exists a, m = Ret (Ok a) /\ k a = Ret (Ok b).
Proof. destruct m as [[a|e]| |]; cbn; intros H; try done. by exists a. Qed.

Lemma result_ok_inv {A B E} (m : result A E) (k : A -> result B E) b : result_bind m k = Ok b -> exists a, m = Ok a /\ k a = Ok b.
Proof. destruct m as [a|e]; cbn; [|done]. by exists a. Qed.

Lemma map_err_inv {A E F} (f : E -> F) (m : result A E) a : map_err f m = Ok a -> m = Ok a.
Proof. destruct m; cbn; [by intros [= ->]|done]. Qed.

Lemma saturating_id x : 0 <= x <= U64_MAX -> usize_to_u64_saturating x = x.
Proof. intros H. unfold usize_to_u64_saturating. by rewrite checked_ok. Qed.

(** The header of a valid interface. *)
Definition current_header (h : InterfaceHeader) : DecodedHeader :=
  {| decoded_magic := MAGIC; decoded_byte_order_marker := BYTE_ORDER_MARKER; decoded_header := h |}.

Definition header_directory (h : InterfaceHeader) : byte_range :=
  {| range_start := directory_offset h; range_end := directory_offset h + directory_length h |}.

Section envelope.
Context {hash : Blake3} {zstd : Zstd} {allocator : Allocator} {sizes : ItemSizes}.
Context (bytes : list u8) (policy : InterfaceValidationPolicy).

Record envelope (h : InterfaceHeader) (d : list DirectoryEntry) : Prop := {
  en_size : zlen bytes <= maximum (policy_limits policy) FileSize;
  en_fits : header_fits (current_header h);
  en_header : exists rest, bytes = header_wire (current_header h) ++ rest;
  en_format : format_revision h = CURRENT_FORMAT_REVISION;
  en_language : language_revision h = policy_language_revision policy;
  en_flags : required_flags h = InterfaceRequiredFlags_NONE;
  en_length : declared_file_length h = zlen bytes;
  en_directory : get_range bytes (directory_offset h) (directory_offset h + directory_length h) = Some (concat (map entry_wire d));
  en_count : zlen d <= maximum (policy_limits policy) SectionCount;
  en_entries : Forall entry_fits d;
  en_admitted : Forall (entry_admitted bytes (header_directory h) (policy_limits policy)) d;
  en_sorted : Sorted entry_before d;
  en_allocation : allocation d <= maximum (policy_limits policy) DecodedAllocation;
  en_checksums : Forall (fun e => forall payload, get_range bytes (entry_offset e) (entry_offset e + encoded_length e) = Some payload ->
    compute_section_hash e payload = checksum e) d;
  en_artifact : compute_artifact_hash bytes = Some (artifact_hash h);
  en_content : compute_content_hash h (known_sections d) = header_content_hash h;
}.

(** The interface with no section decoded. *)
Definition fresh (h : InterfaceHeader) (d : list DirectoryEntry) : ValidatedPackageInterface :=
  {| vpi_bytes := bytes; vpi_header := h; directory := d; decoded_sections := repeat None (length d); vpi_limits := policy_limits policy |}.

(** Bytes of a slice, and limits of 64 bits. *)
Class SliceBytes : Prop := {
  sb_bytes : Forall in_u8 bytes;
  sb_size : zlen bytes <= USIZE_MAX;
  sb_limit : 0 <= maximum (policy_limits policy) DecodedAllocation <= U64_MAX;
}.

Context {slice : SliceBytes}.

Lemma bytes_saturating : usize_to_u64_saturating (zlen bytes) = zlen bytes.
Proof using slice. apply saturating_id. pose proof (zlen_nonneg bytes). pose proof sb_size. change USIZE_MAX with U64_MAX in *. lia. Qed.

Lemma validate_header_exact d :
  header_fits d ->
  returns (validate_header (decoded_magic d) (decoded_byte_order_marker d) (decoded_header d) bytes policy) (fun r =>
    r = Ok tt <-> d = current_header (decoded_header d) /\ format_revision (decoded_header d) = CURRENT_FORMAT_REVISION /\
      language_revision (decoded_header d) = policy_language_revision policy /\ required_flags (decoded_header d) = InterfaceRequiredFlags_NONE /\
      declared_file_length (decoded_header d) = zlen bytes /\ directory_length (decoded_header d) mod 104 = 0).
Proof using slice.
  intros Hfit. unfold validate_header. destruct d as [magic marker h]. cbn [decoded_magic decoded_byte_order_marker decoded_header] in *.
  case_bool_decide as E1; cbn [negb]; [|apply returns_ret; split; [done|by intros ([= ? ?] & _)]].
  destruct (format_revision h =? CURRENT_FORMAT_REVISION) eqn:E2; cbn [negb]; [|apply returns_ret; split; [done|]; intros (_ & ? & _); lia].
  destruct (language_revision h =? policy_language_revision policy) eqn:E3; cbn [negb]; [|apply returns_ret; split; [done|]; intros (_ & _ & ? & _); lia].
  destruct (marker =? BYTE_ORDER_MARKER) eqn:E4; cbn [negb]; [|apply returns_ret; split; [done|]; intros ([= ? ?] & _); lia].
  destruct (required_flags h =? InterfaceRequiredFlags_NONE) eqn:E5; cbn [negb]; [|apply returns_ret; split; [done|]; intros (_ & _ & _ & ? & _); lia].
  rewrite bytes_saturating. pose proof (hf_length _ Hfit) as Hl. cbn [decoded_header] in Hl. unfold in_u64 in Hl. pose proof (zlen_nonneg bytes).
  pose proof sb_size as Hsz. change USIZE_MAX with U64_MAX in Hsz.
  destruct (zlen bytes <? declared_file_length h) eqn:E6; [rewrite checked_ok by lia; apply returns_ret; split; [done|]; intros (_ & _ & _ & _ & ? & _); lia|].
  destruct (declared_file_length h =? zlen bytes) eqn:E7; cbn [negb]; [|rewrite checked_ok by lia; apply returns_ret; split; [done|]; intros (_ & _ & _ & _ & ? & _); lia].
  change DirectoryEntry_WIRE_LENGTH with 104.
  destruct (directory_length h mod 104 =? 0) eqn:E8; cbn [negb]; apply returns_ret; [|split; [done|]; intros (_ & _ & _ & _ & _ & ?); lia].
  split; [intros _|done]. subst magic. apply Z.eqb_eq in E2, E3, E4, E5, E7, E8. subst marker. by split_and!.
Qed.

Lemma entry_payload_range e :
  entry_fits e -> entry_offset e + encoded_length e <= zlen bytes ->
  entry_payload e bytes = get_range bytes (entry_offset e) (entry_offset e + encoded_length e) /\
  is_Some (get_range bytes (entry_offset e) (entry_offset e + encoded_length e)).
Proof using slice.
  intros Hf Hb. destruct Hf. unfold in_u64 in *. pose proof sb_size as Hsz. change USIZE_MAX with U64_MAX in Hsz.
  unfold entry_payload, usize_try_from, usize_checked_add. change USIZE_MAX with U64_MAX. rewrite !checked_ok by lia. split; [done|]. rewrite get_range_ok by lia. done.
Qed.

Lemma checksums_exact l : forall index,
  Forall entry_fits l -> Forall (fun e => entry_offset e + encoded_length e <= zlen bytes) l ->
  validate_checksums index l bytes = Ok tt <->
  Forall (fun e => forall payload, get_range bytes (entry_offset e) (entry_offset e + encoded_length e) = Some payload -> compute_section_hash e payload = checksum e) l.
Proof using slice.
  induction l as [|e l IH]; intros index Hf Hb; [done|]. apply Forall_cons_iff in Hf as [Hfe Hf], Hb as [Hbe Hb]. rewrite Forall_cons_iff. cbn [validate_checksums].
  destruct (entry_payload_range e Hfe Hbe) as [-> [payload ->]]. cbn [ok_or result_bind]. case_bool_decide as E; cbn [negb].
  - rewrite (IH _ Hf Hb). split; [intros H; split; [by intros ? [= <-]|done]|by intros [_ H]].
  - destruct (entry_tag e); (split; [done|]; intros [H _]; by specialize (H _ eq_refl)).
Qed.

Lemma hashes_exact h l :
  Forall entry_fits l -> Forall (fun e => entry_offset e + encoded_length e <= zlen bytes) l ->
  validate_hashes h l bytes = Ok tt <->
  Forall (fun e => forall payload, get_range bytes (entry_offset e) (entry_offset e + encoded_length e) = Some payload -> compute_section_hash e payload = checksum e) l /\
  compute_artifact_hash bytes = Some (artifact_hash h) /\ compute_content_hash h (known_sections l) = header_content_hash h.
Proof using slice.
  intros Hf Hb. rewrite <- (checksums_exact l 0 Hf Hb). unfold validate_hashes. destruct (validate_checksums 0 l bytes) as [[]|]; cbn [result_bind]; [|by split; [|intros [? _]]].
  destruct (compute_artifact_hash bytes) as [actual|]; cbn [ok_or result_bind]; [|by split; [|intros (_ & ? & _)]].
  case_bool_decide as E1; cbn [negb]; [subst actual|split; [done|]; intros (_ & [= ?] & _); done].
  case_bool_decide as E2; cbn [negb]; [done|]. split; [done|]. by intros (_ & _ & ?).
Qed.

(** The slice of the directory as entries. *)
Lemma directory_slice range wire :
  get_range bytes (range_start range) (range_end range) = Some wire -> range_start range <= range_end range -> (range_end range - range_start range) mod 104 = 0 ->
  zlen wire = range_end range - range_start range /\ concat (chunks_exact 104 wire) = wire /\ Forall (fun c => Forall in_u8 c /\ zlen c = 104) (chunks_exact 104 wire).
Proof using slice.
  intros Hw Hle Hm. apply get_range_Some in Hw as Hw'. pose proof (frame_bytes bytes sb_bytes _ _ _ Hw) as Hb.
  assert (zlen wire = range_end range - range_start range) as Hl.
  { unfold get_range in Hw. destruct (_ && _) eqn:E; [|done]. injection Hw as <-. apply zlen_ztake. rewrite zlen_zdrop by lia. lia. }
  destruct (chunks_exact_split 104 wire) as [H1 H2]; [done|by rewrite Hl|]. split_and!; [done|done|].
  rewrite <- H1 in Hb. clear -Hb H2. induction H2 as [|c cs Hc _ IH]; [done|]. cbn [concat] in Hb. apply Forall_app in Hb as [Hb1 Hb2]. constructor; [done|auto].
Qed.

(** The allocator refused. *)
Definition out_of_memory (e : InterfaceValidationError) : Prop :=
  (exists count size, try_reserve_exact count size = false) /\ match e with AllocationUnavailable _ _ _ => True | _ => False end.

Record directory_of (range : byte_range) (d : list DirectoryEntry) : Prop := {
  do_wire : get_range bytes (range_start range) (range_end range) = Some (concat (map entry_wire d));
  do_count : zlen d <= maximum (policy_limits policy) SectionCount;
  do_entries : Forall entry_fits d;
  do_admitted : Forall (entry_admitted bytes range (policy_limits policy)) d;
  do_sorted : Sorted entry_before d;
  do_allocation : allocation d <= maximum (policy_limits policy) DecodedAllocation;
}.

Lemma wires_length d : Forall entry_fits d -> Forall (fun c => zlen c = 104) (map entry_wire d).
Proof using. induction 1 as [|e d He _ IH]; constructor; [by apply entry_wire_length|done]. Qed.

Lemma wires_total d : Forall entry_fits d -> zlen (concat (map entry_wire d)) = 104 * zlen d.
Proof using. induction 1 as [|e d He _ IH]; [done|]. cbn [map concat]. rewrite zlen_app, zlen_cons, IH, entry_wire_length by done. lia. Qed.

Lemma directory_of_wire range d chunks :
  directory_of range d -> get_range bytes (range_start range) (range_end range) = Some chunks -> chunks_exact 104 chunks = map entry_wire d.
Proof using. intros [Hw _ Hf _ _ _] E. rewrite Hw in E. injection E as <-. apply chunks_exact_concat; [done|by apply wires_length]. Qed.

Lemma directory_of_unique range d d' : directory_of range d -> directory_of range d' -> d = d'.
Proof using.
  intros H1 H2. apply wires_unique; [apply H1|apply H2|]. pose proof (do_wire _ _ H1) as E. rewrite (do_wire _ _ H2) in E. by injection E.
Qed.

Lemma decode_directory_exact range :
  0 <= range_start range <= range_end range -> range_end range <= zlen bytes -> (range_end range - range_start range) mod 104 = 0 ->
  returns (decode_directory bytes range policy) (fun r =>
    match r with Ok d => directory_of range d | Err e => out_of_memory e \/ forall d, ~ directory_of range d end).
Proof using slice.
  intros Hr Hb Hm. unfold decode_directory. pose proof sb_size as Hsz. change USIZE_MAX with U64_MAX in Hsz.
  assert (range_len range = range_end range - range_start range) as -> by (unfold range_len; lia). rewrite saturating_id by lia.
  change DirectoryEntry_WIRE_LENGTH with 104. change DirectoryEntry_LENGTH with 104. set (count := (range_end range - range_start range) / 104).
  assert (0 <= count /\ 104 * count = range_end range - range_start range) as [Hc0 Hcount].
  { pose proof (Z.div_mod (range_end range - range_start range) 104 ltac:(lia)). split; [apply Z.div_pos; lia|]. unfold count. lia. }
  destruct (get_range bytes (range_start range) (range_end range)) as [wire|] eqn:Ew; [|rewrite get_range_ok in Ew by lia; done].
  destruct (directory_slice range wire Ew ltac:(lia) Hm) as (Hl & Hcat & Hchunks).
  assert (forall d, directory_of range d -> zlen d = count) as Hlen.
  { intros d Hd. pose proof (wires_total d (do_entries _ _ Hd)) as Ht. pose proof (do_wire _ _ Hd) as Hw. rewrite Ew in Hw. injection Hw as Hw. rewrite <- Hw in Ht. lia. }
  unfold fallible_bind. cbn [outcome_bind]. pose proof (limits_check_exact (policy_limits policy) SectionCount count) as Hlim.
  destruct (limits_check (policy_limits policy) SectionCount count) as [[]|err].
  2: { apply returns_ret. right. intros d Hd. pose proof (do_count _ _ Hd) as H. rewrite (Hlen d Hd) in H. by apply Hlim in H. }
  unfold usize_try_from. change USIZE_MAX with U64_MAX. rewrite checked_ok by lia. cbn [ok_or]. unfold allocate_items.
  destruct (try_reserve_exact count size_of_entry) eqn:Eres; [|apply returns_ret; left; split; [by eexists _, _|done]]. cbn [expect outcome_bind]. apply returns_ret.
  set (st := {| previous_tag := None; previous_range := None; total_allocation := 0; entries := [] |}).
  pose proof sb_limit as Hmax. assert (linked None st) as Hlink by done.
  assert (0 <= total_allocation st <= maximum (policy_limits policy) DecodedAllocation) as Hst by (unfold st; cbn [total_allocation]; lia).
  destruct (directory_loop bytes range policy 0 (chunks_exact 104 wire) st) as [st'|err] eqn:Eloop; cbn [result_bind].
  - destruct (directory_loop_entries bytes range policy _ _ _ _ Hchunks Eloop) as (l & El & Hf). rewrite El in Eloop.
    apply (directory_loop_exact bytes range (policy_limits policy) policy eq_refl sb_bytes sb_size (proj2 Hmax) l 0 st None st' Hf Hlink Hst) in Eloop as (H1 & H2 & H3 & ->).
    rewrite entries_foldl. cbn [entries st app]. assert (concat (map entry_wire l) = wire) as Hwire by by rewrite <- El. constructor; [by rewrite Hwire| |done|done|by apply chained_sorted|done].
    assert (zlen l = count) as ->; [|by apply Hlim]. pose proof (wires_total l Hf) as Ht. rewrite Hwire in Ht. lia.
  - right. intros d Hd. rewrite (directory_of_wire range d wire Hd Ew) in Eloop.
    pose proof (directory_loop_exact bytes range (policy_limits policy) policy eq_refl sb_bytes sb_size (proj2 Hmax) d 0 st None (foldl state_next st d) (do_entries _ _ Hd) Hlink Hst) as Hex.
    rewrite Eloop in Hex. assert (Err err = Ok (foldl state_next st d)); [|done]. apply Hex. destruct Hd. split_and!; [done|by apply chained_sorted|done|done].
Qed.

Lemma envelope_decode h d : envelope h d -> InterfaceHeader_decode bytes = Ok (current_header h).
Proof using. intros He. destruct (en_header _ _ He) as [rest ->]. apply header_decode_wire, He. Qed.

Lemma envelope_directory h d : envelope h d -> directory_of (header_directory h) d.
Proof using. by intros []. Qed.

Lemma envelope_directory_length h d : envelope h d ->
  0 <= directory_offset h /\ directory_length h = 104 * zlen d /\ directory_offset h + directory_length h <= zlen bytes.
Proof using.
  intros He. pose proof (en_directory _ _ He) as Hd. apply get_range_Some in Hd as (H1 & H2 & H3).
  assert (zlen (concat (map entry_wire d)) = directory_length h) as Hl by (rewrite H3, zlen_ztake; [lia|rewrite zlen_zdrop; lia]).
  rewrite wires_total in Hl by apply He. lia.
Qed.

Lemma envelope_bounds h d : envelope h d -> Forall (fun e => entry_offset e + encoded_length e <= zlen bytes) d.
Proof using. intros He. eapply List.Forall_impl; [|exact (en_admitted _ _ He)]. intros e H. apply H. Qed.

(** Validation accepts exactly the bytes of an envelope, unless memory runs out. *)
Lemma try_new_ok :
  returns (try_new bytes policy) (fun r =>
    match r with
    | Ok v => envelope (vpi_header v) (directory v) /\ v = fresh (vpi_header v) (directory v) /\
        forall h d, envelope h d -> h = vpi_header v /\ d = directory v
    | Err e => out_of_memory e \/ forall h d, ~ envelope h d
    end).
Proof using slice.
  unfold try_new, fallible_bind. cbn [outcome_bind]. unfold validate_file_size. rewrite bytes_saturating.
  pose proof (limits_check_exact (policy_limits policy) FileSize (zlen bytes)) as Hsize.
  destruct (limits_check (policy_limits policy) FileSize (zlen bytes)) as [[]|]; [|apply returns_ret; right; intros h d He; by apply en_size, Hsize in He].
  destruct (InterfaceHeader_decode bytes) as [dh|] eqn:Edec; cbn [map_err]; [|apply returns_ret; right; intros h d He; apply envelope_decode in He; congruence].
  assert (forall h d, envelope h d -> dh = current_header h) as Hdh by (intros h d He; apply envelope_decode in He; congruence).
  destruct (header_decode_inv bytes dh sb_bytes Edec) as (Hfit & Hwire).
  destruct (validate_header_exact dh Hfit) as (r & -> & Hr). cbn [outcome_bind]. destruct r as [[]|].
  2: { apply returns_ret. right. intros h d He. assert (dh = current_header h) as -> by by eapply Hdh. destruct (envelope_directory_length h d He) as (_ & Hlen & _).
       destruct Hr as [_ Hr]. discriminate Hr. cbn [decoded_header current_header]. destruct He. split_and!; try done. rewrite Hlen, Z.mul_comm. by apply Z.mod_mul. }
  destruct (proj1 Hr eq_refl) as (Ed & H1 & H2 & H3 & H4 & H5). set (h := decoded_header dh) in *. clear Hr.
  pose proof (checked_range_exact bytes sb_size (directory_offset h) (directory_length h) ltac:(apply Hfit) ltac:(apply Hfit)) as Hcr.
  assert (forall h' d, envelope h' d -> h' = h) as Hh by (intros h' d He; unfold h; by rewrite (Hdh h' d He)).
  destruct (directory_offset h + directory_length h <=? zlen bytes) eqn:Eb.
  2: { destruct Hcr as [e ->]. cbn [map_err]. apply returns_ret. right. intros h' d He. destruct (envelope_directory_length h' d He) as (_ & _ & Hb).
       rewrite (Hh h' d He) in Hb. lia. }
  rewrite Hcr. cbn [map_err]. fold (header_directory h). assert (0 <= directory_offset h /\ 0 <= directory_length h) as [Ho Hl] by (split; apply Hfit).
  destruct (decode_directory_exact (header_directory h)) as (r & -> & Hdir); [cbn; lia|cbn; lia| |].
  { cbn [range_end range_start header_directory]. replace (_ - _) with (directory_length h) by lia. done. }
  cbn [outcome_bind]. destruct r as [d|e].
  2: { apply returns_ret. destruct Hdir as [|Hdir]; [by left|right]. intros h' d He. apply (Hdir d). pose proof (Hh h' d He) as ->. by apply envelope_directory. }
  assert (forall h' d', envelope h' d' -> d' = d) as Hd.
  { intros h' d' He. pose proof (Hh h' d' He) as ->. exact (directory_of_unique _ _ _ (envelope_directory h d' He) Hdir). }
  assert (Forall (fun e => entry_offset e + encoded_length e <= zlen bytes) d) as Hbounds by (eapply List.Forall_impl; [|exact (do_admitted _ _ Hdir)]; intros e H; apply H).
  pose proof (hashes_exact h d (do_entries _ _ Hdir) Hbounds) as Hhash. destruct (validate_hashes h d bytes) as [[]|].
  2: { apply returns_ret. right. intros h' d' He. pose proof (Hd h' d' He) as ->. pose proof (Hh h' d He) as ->. destruct Hhash as [_ Hhash]. discriminate Hhash. by destruct He. }
  destruct (proj1 Hhash eq_refl) as (H6 & H7 & H8). unfold allocate_items. destruct (try_reserve_exact (zlen d) size_of_cell) eqn:Eres; [|apply returns_ret; left; split; [by eexists _, _|done]].
  apply returns_ret. cbn [vpi_header directory app]. split_and!; [|done|intros h' d' He; by split; [apply (Hh h' d')|apply (Hd h')]]. rewrite Ed in Hwire, Hfit. destruct Hdir. constructor; try done. by apply Hsize.
Qed.
End envelope.

(** Bytes have one envelope, whatever the limits. *)
Lemma envelope_same {hash : Blake3} {zstd : Zstd} bytes policy policy' h d h' d' :
  envelope bytes policy h d -> envelope bytes policy' h' d' -> h = h' /\ d = d'.
Proof.
  intros He He'. assert (h = h') as <-.
  { pose proof (envelope_decode _ _ _ _ He) as E. rewrite (envelope_decode _ _ _ _ He') in E. by injection E. }
  split; [done|]. pose proof (en_directory _ _ _ _ He) as E. rewrite (en_directory _ _ _ _ He') in E. injection E as E.
  apply wires_unique; [apply He|apply He'|done].
Qed.
