(* ===== verification/InterfaceSections.v ===== *)
(** * The sections of a validated interface

    The cells that keep decoded sections cannot be observed: interfaces that are
    equal in the sense of [PartialEq], which ignores the cells, answer every call
    equally.  What a section returns has the length and the digest that the
    directory declares, so that all sections together stay within the limit. *)

From Stdlib Require Import ZArith Lia String Sorted.
From stdpp Require Import base list numbers option.
From S2P Require Import Prelude InterfaceFormat InterfaceArtifact InterfaceEnvelope.

#[export] Instance header_eq_dec : EqDecision InterfaceHeader.
Proof. solve_decision. Defined.

#[export] Instance entry_eq_dec : EqDecision DirectoryEntry.
Proof. solve_decision. Defined.

(** [PartialEq for ValidatedPackageInterface] *)
Definition interface_eq (self other : ValidatedPackageInterface) : bool :=
  bool_decide (vpi_bytes self = vpi_bytes other) && bool_decide (vpi_header self = vpi_header other) &&
  bool_decide (directory self = directory other) && bool_decide (vpi_limits self = vpi_limits other).

Lemma interface_eq_spec v w :
  interface_eq v w = true <-> vpi_bytes v = vpi_bytes w /\ vpi_header v = vpi_header w /\ directory v = directory w /\ vpi_limits v = vpi_limits w.
Proof. unfold interface_eq. rewrite !andb_true_iff, !bool_decide_eq_true. tauto. Qed.

Section sections.
Context {hash : Blake3} {zstd : Zstd} {allocator : Allocator} {sizes : ItemSizes}.

(** Every cell that is filled holds what decoding its section gives. *)
Definition cells_ok (v : ValidatedPackageInterface) : Prop :=
  length (decoded_sections v) = length (directory v) /\
  forall i value, decoded_sections v !! i = Some (Some value) ->
    exists entry stored, directory v !! i = Some entry /\ entry_payload entry (vpi_bytes v) = Some stored /\
      value = decode_and_verify_section (Z.of_nat i) entry stored.

(** Equal interfaces with cells that are in order. *)
Definition alike (v w : ValidatedPackageInterface) : Prop := cells_ok v /\ cells_ok w /\ interface_eq v w = true.

Lemma alike_refl v : cells_ok v -> alike v v.
Proof. intros H. split_and!; [done|done|by apply interface_eq_spec]. Qed.

#[export] Instance alike_per : RelationClasses.PER alike.
Proof.
  split.
  - intros v w (H1 & H2 & H3). split_and!; [done|done|]. rewrite interface_eq_spec in *. naive_solver.
  - intros u v w (H1 & H2 & H3) (H4 & H5 & H6). split_and!; [done|done|]. rewrite interface_eq_spec in *. naive_solver congruence.
Qed.

(** A call that answers equally on interfaces that are alike, and leaves them so. *)
Definition transparent {A} (call : ValidatedPackageInterface -> A * ValidatedPackageInterface) : Prop :=
  forall v w, alike v w -> (call v).1 = (call w).1 /\ alike v (call v).2.

Lemma transparent_alike {A} (call : ValidatedPackageInterface -> A * ValidatedPackageInterface) v w :
  transparent call -> alike v w -> (call v).1 = (call w).1 /\ alike (call v).2 (call w).2.
Proof.
  intros Hc Hvw. destruct (Hc v w Hvw) as [H1 H2]. split; [done|]. assert (alike w v) as Hwv by by symmetry. destruct (Hc w v Hwv) as [_ H3].
  transitivity v; [by symmetry|]. by transitivity w.
Qed.

Lemma filled_ok v i entry stored :
  cells_ok v -> directory v !! i = Some entry -> entry_payload entry (vpi_bytes v) = Some stored ->
  alike v (with_cells v (<[i := Some (decode_and_verify_section (Z.of_nat i) entry stored)]> (decoded_sections v))).
Proof.
  intros [Hl Hc] Hi Hs. split_and!; [done| |by apply interface_eq_spec]. split; cbn [with_cells decoded_sections directory vpi_bytes].
  - by rewrite length_insert.
  - intros j value Hj. destruct (decide (i = j)) as [<-|Hne].
    + rewrite list_lookup_insert_eq in Hj; [|rewrite Hl; by eapply lookup_lt_Some]. injection Hj as <-. by exists entry, stored.
    + rewrite list_lookup_insert_ne in Hj by done. by apply Hc.
Qed.

Lemma section_by_index_transparent index : transparent (fun v => section_by_index v index).
Proof.
  intros v w (Hv & Hw & Heq). pose proof Heq as (Eb & Eh & Ed & El)%interface_eq_spec. unfold section_by_index. rewrite <- Eb, <- Ed.
  destruct (get (directory v) index) as [entry|] eqn:Eg; cbn [fst snd]; [|split; [done|by apply alike_refl]].
  destruct (entry_payload entry (vpi_bytes v)) as [stored|] eqn:Ep; cbn [fst snd]; [|split; [done|by apply alike_refl]].
  assert (0 <= index) as Hi by (apply get_Some_range in Eg; lia). rewrite get_nonneg in Eg by done.
  pose proof (proj1 Hv) as Hlv. pose proof (proj1 Hw) as Hlw. pose proof (lookup_lt_Some _ _ _ Eg) as Hlt.
  destruct (lookup_lt_is_Some_2 (decoded_sections v) (Z.to_nat index)) as [cv Ecv]; [lia|].
  destruct (lookup_lt_is_Some_2 (decoded_sections w) (Z.to_nat index)) as [cw Ecw]; [rewrite Hlw, <- Ed; lia|].
  rewrite !get_nonneg, Ecv, Ecw by done. set (init := decode_and_verify_section index entry stored).
  assert (forall u c, cells_ok u -> directory u = directory v -> vpi_bytes u = vpi_bytes v -> decoded_sections u !! Z.to_nat index = Some c ->
            (get_or_init u index c init).1 = init /\ alike u (get_or_init u index c init).2) as Hinit.
  { intros u [value|] Hu Edu Ebu Hc; cbn [get_or_init fst snd].
    - split; [|by apply alike_refl]. destruct (proj2 Hu _ _ Hc) as (e' & s' & He' & Hs' & ->). rewrite Edu in He'. rewrite Ebu in Hs'.
      assert (e' = entry) as -> by congruence. assert (s' = stored) as -> by congruence. by rewrite Z2Nat.id.
    - split; [done|]. pose proof (filled_ok u (Z.to_nat index) entry stored Hu ltac:(by rewrite Edu) ltac:(by rewrite Ebu)) as Hfill. by rewrite Z2Nat.id in Hfill. }
  destruct (Hinit v cv Hv eq_refl eq_refl Ecv) as [Hv1 Hv2]. destruct (Hinit w cw Hw (eq_sym Ed) (eq_sym Eb) Ecw) as [Hw1 _].
  destruct (get_or_init v index cv init) as [rv v'], (get_or_init w index cw init) as [rw w']. cbn [fst snd] in *. by subst.
Qed.

Lemma alike_self v w : alike v w -> alike v v.
Proof. intros H. by apply alike_refl, H. Qed.

Lemma alike_directory v w : alike v w -> directory v = directory w.
Proof. intros (_ & _ & H). apply interface_eq_spec in H. apply H. Qed.

Lemma section_transparent tag : transparent (fun v => section v tag).
Proof.
  intros v w Hvw. pose proof (alike_self v w Hvw) as Hvv. unfold section. rewrite <- (alike_directory v w Hvw).
  destruct (binary_search_by_key raw_tag (directory v) (tag_wire_value tag)) as [index|]; [|done].
  destruct (get (directory v) index) as [entry|]; [|done]. case_bool_decide; cbn [negb]; [|done].
  destruct (section_by_index_transparent index v w Hvw) as [H1 H2].
  destruct (section_by_index v index) as [rv v'], (section_by_index w index) as [rw w']. cbn [fst snd] in *. by subst.
Qed.

Lemma sections_loop_transparent l : forall index views, transparent (fun v => sections_loop v index l views).
Proof.
  induction l as [|entry l IH]; intros index views v w Hvw; cbn [sections_loop fst snd]; [split; [done|by eapply alike_self]|].
  destruct (entry_tag entry); [|by apply IH].
  destruct (transparent_alike _ v w (section_by_index_transparent index) Hvw) as [H1 H2]. pose proof (proj2 (section_by_index_transparent index v w Hvw)) as H3. cbv beta in *.
  destruct (section_by_index v index) as [rv v'], (section_by_index w index) as [rw w']. cbn [fst snd] in *. subst rw. destruct rv as [view|]; [|by split].
  destruct (IH (index + 1) (views ++ [view]) v' w' H2) as [H4 H5]. split; [done|]. by transitivity v'.
Qed.

Lemma sections_transparent : transparent sections.
Proof.
  intros v w Hvw. unfold sections. rewrite <- (alike_directory v w Hvw). destruct (allocate_items _ _ _ _) as [reserved|]; [|split; [done|by eapply alike_self]].
  by apply sections_loop_transparent.
Qed.

Lemma sections_by_tag_transparent tags : transparent (fun v => sections_by_tag v tags).
Proof.
  induction tags as [|tag tags IH]; intros v w Hvw; cbn [sections_by_tag fst snd]; [split; [done|by eapply alike_self]|].
  destruct (transparent_alike _ v w (section_transparent tag) Hvw) as [H1 H2]. pose proof (proj2 (section_transparent tag v w Hvw)) as H3. cbv beta in *.
  destruct (section v tag) as [rv v'], (section w tag) as [rw w']. cbn [fst snd] in *. subst rw. destruct rv as [[view|]|]; [|by split|by split].
  destruct (IH v' w' H2) as [H4 H5]. assert (alike v (sections_by_tag v' tags).2) as H6 by by transitivity v'.
  destruct (sections_by_tag v' tags) as [rv' v''], (sections_by_tag w' tags) as [rw' w'']. cbn [fst snd] in *. subst rw'. destruct rv'; by split.
Qed.

(** The calls of a client. *)
Inductive section_call := CallSection (tag : InterfaceSectionTag) | CallSections | CallSectionsByTag (tags : list InterfaceSectionTag).

Definition answer (v : ValidatedPackageInterface) (c : section_call)
    : result (list (option ValidatedInterfaceSection)) InterfaceValidationError * ValidatedPackageInterface :=
  match c with
  | CallSection tag => let '(r, v) := section v tag in (let? view := r in Ok [view], v)
  | CallSections => let '(r, v) := sections v in (let? views := r in Ok (map Some views), v)
  | CallSectionsByTag tags => let '(r, v) := sections_by_tag v tags in (let? views := r in Ok (map Some views), v)
  end.

Lemma answer_transparent c : transparent (fun v => answer v c).
Proof.
  intros v w Hvw. destruct c as [tag| |tags]; cbn [answer].
  - destruct (section_transparent tag v w Hvw) as [H1 H2]. destruct (section v tag), (section w tag). cbn [fst snd] in *. by subst.
  - destruct (sections_transparent v w Hvw) as [H1 H2]. destruct (sections v), (sections w). cbn [fst snd] in *. by subst.
  - destruct (sections_by_tag_transparent tags v w Hvw) as [H1 H2]. destruct (sections_by_tag v tags), (sections_by_tag w tags). cbn [fst snd] in *. by subst.
Qed.

Definition after (v : ValidatedPackageInterface) (calls : list section_call) : ValidatedPackageInterface := foldl (fun v c => (answer v c).2) v calls.

Lemma after_alike calls : forall v, cells_ok v -> alike v (after v calls).
Proof.
  induction calls as [|c calls IH]; intros v Hv; [by apply alike_refl|]. pose proof (proj2 (answer_transparent c v v (alike_refl v Hv))) as H.
  transitivity (answer v c).2; [done|]. apply IH, H.
Qed.

Lemma fresh_cells bytes policy h d : cells_ok (fresh bytes policy h d).
Proof.
  split; cbn [fresh decoded_sections directory]; [by rewrite repeat_length|]. intros i value Hi.
  change (repeat None (length d) !! i = Some (Some value)) in Hi. apply list_elem_of_lookup_2, list_elem_of_In, repeat_spec in Hi. done.
Qed.
End sections.

(** ** What a section returns *)

Lemma entry_tag_Some e tag :
  entry_tag e = Some tag <->
  tag_from_wire_value (raw_tag e) = Some tag /\ section_revision e = InterfaceSectionRevision_CURRENT /\
  raw_compatibility e = compatibility_wire_value (tag_compatibility tag) /\ is_Some (entry_encoding e).
Proof.
  unfold entry_tag, entry_encoding. destruct (tag_from_wire_value (raw_tag e)) as [t|]; [|by split; [|intros [? _]]].
  destruct (section_revision e =? _) eqn:E1; cbn [negb orb]; [|split; [done|]; intros (_ & ? & _); lia].
  destruct (raw_compatibility e =? _) eqn:E2; cbn [negb orb]; [|split; [done|]; intros ([= <-] & _ & ? & _); lia].
  apply Z.eqb_eq in E1, E2. destruct (encoding_from_wire_value (raw_encoding e)) eqn:E3; cbn [negb].
  - split; [intros [= <-]; by split_and!|by intros ([= <-] & _)].
  - split; [done|]. by intros (_ & _ & _ & [? ?]).
Qed.

Section views.
Context {hash : Blake3} {zstd : Zstd} {allocator : Allocator} {sizes : ItemSizes}.
Context (bytes : list u8) (policy : InterfaceValidationPolicy) {slice : SliceBytes bytes policy}.
Context (h : InterfaceHeader) (d : list DirectoryEntry) (Hvalid : envelope bytes policy h d).

(** The view shows the entry: the stored bytes have its checksum, and what they
    decode to has its length and its content hash. *)
Record view_of (e : DirectoryEntry) (view : ValidatedInterfaceSection) : Prop := {
  vo_tag : entry_tag e = Some (section_tag view);
  vo_encoding : entry_encoding e = Some (section_encoding view);
  vo_records : section_record_count view = record_count e;
  vo_checksum : exists stored, get_range bytes (entry_offset e) (entry_offset e + encoded_length e) = Some stored /\
    compute_section_hash e stored = section_checksum view /\
    (section_bytes view = stored \/ decompress MAXIMUM_WINDOW_LOG stored (decoded_length e) = Some (section_bytes view));
  vo_length : zlen (section_bytes view) = decoded_length e;
  vo_content : compute_section_content_hash (section_tag view) (section_bytes view) = entry_content_hash e;
}.

Lemma raw_length e : contract_met e -> is_Some (entry_tag e) -> entry_encoding e = Some Raw -> encoded_length e = decoded_length e.
Proof using.
  intros (c & Hc & Hm) [tag (Ht & Hr & Hcomp & _)%entry_tag_Some] He. rewrite Ht in Hm. destruct Hm as (_ & [(_ & enc & Henc & Hlen)|(_ & [|])]); [|done|congruence].
  apply Hlen. congruence.
Qed.

Lemma decode_zstd_inv context stored n x :
  decode_zstd_frame context stored n = Ok x -> decompress MAXIMUM_WINDOW_LOG stored n = Some x /\ zlen x = n.
Proof using.
  unfold decode_zstd_frame, usize_try_from. destruct (checked USIZE_MAX n) as [c|] eqn:Ec; [|done]. apply checked_Some in Ec as [-> _]. cbn [ok_or result_bind].
  destruct decompressor_new; [|done]. destruct (window_log_max MAXIMUM_WINDOW_LOG); [|done]. cbn [negb].
  destruct (decompress MAXIMUM_WINDOW_LOG stored n) as [y|]; [|done]. cbn [ok_or result_bind]. destruct (zlen y =? n) eqn:El; [|done]. intros [= <-]. split; [done|lia].
Qed.

Lemma section_by_index_view v index view :
  alike (fresh bytes policy h d) v -> (section_by_index v index).1 = Ok view -> exists e, get d index = Some e /\ view_of e view.
Proof using Hvalid slice.
  intros Hv Hview. rewrite <- (proj1 (section_by_index_transparent index _ _ Hv)) in Hview. cbv beta in Hview. unfold section_by_index in Hview. cbn [fresh directory vpi_bytes] in Hview.
  destruct (get d index) as [e|] eqn:Ee; [|done]. exists e. split; [done|]. assert (e ∈ d) as Hin by (unfold get in Ee; destruct (0 <=? index); [by eapply list_elem_of_lookup_2|done]).
  pose proof (proj1 (List.Forall_forall _ _) (en_entries _ _ _ _ Hvalid) e (proj1 (list_elem_of_In _ _) Hin)) as Hfit.
  pose proof (proj1 (List.Forall_forall _ _) (en_admitted _ _ _ _ Hvalid) e (proj1 (list_elem_of_In _ _) Hin)) as Hadm.
  pose proof (proj1 (List.Forall_forall _ _) (en_checksums _ _ _ _ Hvalid) e (proj1 (list_elem_of_In _ _) Hin)) as Hsum. cbv beta in Hsum.
  destruct (entry_payload_range bytes policy e Hfit (ea_bounds _ _ _ _ Hadm)) as [Hpay [stored Hstored]]. rewrite Hpay, Hstored in Hview.
  destruct (get (decoded_sections _) index) as [cell|] eqn:Ecell; [|done].
  assert (cell = None) as ->.
  { unfold get in Ecell. destruct (0 <=? index); [|done]. by apply list_elem_of_lookup_2, list_elem_of_In, repeat_spec in Ecell. }
  cbn [get_or_init fst] in Hview. apply result_ok_inv in Hview as (decoded & Hdec & Hnew).
  assert (zlen stored = encoded_length e) as Hlen.
  { apply get_range_Some in Hstored as (H1 & H2 & ->). destruct Hfit. rewrite zlen_ztake; [lia|]. rewrite zlen_zdrop; lia. }
  unfold ValidatedInterfaceSection_new in Hnew. destruct (entry_tag e) as [tag|] eqn:Etag; [|done]. destruct (entry_encoding e) as [enc|] eqn:Eenc; [|done].
  injection Hnew as <-. unfold decode_and_verify_section in Hdec. rewrite Eenc, Etag in Hdec. cbn [ok_or result_bind] in Hdec.
  apply result_ok_inv in Hdec as (decoded' & Hd1 & Hd2). case_bool_decide as Ehash; cbn [negb] in Hd2; [|done]. injection Hd2 as ->.
  constructor; cbn [section_tag section_encoding section_record_count section_checksum section_bytes]; try done.
  - exists stored. split; [done|]. split; [by apply Hsum|]. destruct enc; [injection Hd1 as <-; by left|]. apply result_ok_inv in Hd1 as (x & Hd1 & [= <-]). right.
    by apply decode_zstd_inv in Hd1 as [? _].
  - destruct enc; [injection Hd1 as <-; cbn [from_option id]; rewrite Hlen; apply raw_length; [apply Hadm|by rewrite Etag|done]|].
    apply result_ok_inv in Hd1 as (x & Hd1 & [= <-]). by apply decode_zstd_inv in Hd1 as [_ ?].
Qed.

Definition known (e : DirectoryEntry) : Prop := is_Some (entry_tag e).

#[export] Instance known_dec e : Decision (known e).
Proof. unfold known. apply _. Defined.

Lemma sections_loop_views l : forall index v views views',
  alike (fresh bytes policy h d) v -> 0 <= index -> l = zdrop index d -> (sections_loop v index l views).1 = Ok views' ->
  exists new, views' = views ++ new /\ Forall2 view_of (filter known l) new.
Proof using Hvalid slice.
  induction l as [|e l IH]; intros index v views views' Hv Hi Hl Hviews; cbn [sections_loop] in Hviews.
  - injection Hviews as <-. exists []. by rewrite app_nil_r.
  - assert (get d index = Some e) as He.
    { pose proof (get_zdrop index d 0 Hi ltac:(lia)) as Hg. rewrite <- Hl, get_cons_0, Z.add_0_r in Hg. done. }
    assert (l = zdrop (index + 1) d) as Hl'. { rewrite (zdrop_cons_get _ _ _ He) in Hl. by injection Hl. }
    rewrite filter_cons. destruct (entry_tag e) as [tag|] eqn:Et.
    2: { destruct (decide (known e)) as [[t Hk]|_]; [congruence|]. by apply (IH (index + 1) v); [|lia|..]. }
    destruct (decide (known e)) as [_|Hk]; [|by destruct Hk; exists tag].
    destruct (section_by_index v index) as [[view|err] v'] eqn:Es; [|done].
    destruct (section_by_index_view v index view Hv ltac:(by rewrite Es)) as (e' & He' & Hview). assert (e' = e) as -> by congruence.
    assert (alike (fresh bytes policy h d) v') as Hv'.
    { transitivity v; [done|]. pose proof (proj2 (section_by_index_transparent index v _ ltac:(symmetry; exact Hv))) as H. cbv beta in H. by rewrite Es in H. }
    destruct (IH (index + 1) v' (views ++ [view]) views' Hv' ltac:(lia) Hl' Hviews) as (new & -> & Hnew). exists (view :: new). rewrite <- app_assoc. split; [done|by constructor].
Qed.

(** All sections together. *)
Lemma sections_views v views : alike (fresh bytes policy h d) v -> (sections v).1 = Ok views -> Forall2 view_of (filter known d) views.
Proof using Hvalid slice.
  intros Hv Hviews. unfold sections in Hviews. rewrite <- (alike_directory _ _ Hv) in Hviews. cbn [fresh directory] in Hviews.
  unfold allocate_items in Hviews. destruct (try_reserve_exact _ _); [|done].
  destruct (sections_loop_views d 0 v [] views Hv ltac:(lia) ltac:(by rewrite zdrop_0) Hviews) as (new & -> & Hnew). done.
Qed.

Lemma views_allocation l views :
  Forall entry_fits l -> Forall2 view_of (filter known l) views -> foldr (fun view total => zlen (section_bytes view) + total) 0 views <= allocation l.
Proof using.
  intros Hf. revert views. induction Hf as [|e l He Hf IH]; intros views Hv; [inversion Hv; done|]. rewrite filter_cons in Hv. cbn [allocation foldr]. fold (allocation l).
  assert (0 <= decoded_length e) as Hd by apply He. case_decide.
  - inversion Hv as [|? view ? views' H1 H2]; subst. cbn [foldr]. specialize (IH _ H2). rewrite (vo_length _ _ H1). lia.
  - specialize (IH _ Hv). lia.
Qed.
End views.
