(* ===== verification/InterfaceRoundTrip.v ===== *)
(** * Assembled interfaces are valid

    What [assemble_sections] writes is an envelope, and reading it back returns
    every section as it was given. *)

From Stdlib Require Import ZArith Lia String Sorted.
From stdpp Require Import base list numbers option.
From S2P Require Import Prelude Order InterfaceFormat InterfaceArtifact InterfaceEnvelope InterfaceSections.

(** ** Pieces *)

Lemma lookup_repeat {A} (x : A) n : forall i, (i < n)%nat -> repeat x n !! i = Some x.
Proof. induction n as [|n IH]; intros [|i] Hi; cbn; [lia|lia|done|apply IH; lia]. Qed.

Lemma get_range_middle {A} (a b c : list A) x y : x = zlen a -> y = zlen a + zlen b -> get_range (a ++ b ++ c) x y = Some b.
Proof.
  intros -> ->. pose proof (zlen_nonneg a). pose proof (zlen_nonneg b). pose proof (zlen_nonneg c). rewrite get_range_ok by (rewrite ?zlen_app; lia).
  rewrite zdrop_app by done. replace (zlen a + zlen b - zlen a) with (zlen b) by lia. by rewrite ztake_app.
Qed.

Lemma copy_middle (a x y c : list u8) start end_ :
  start = zlen a -> end_ = zlen a + zlen x -> zlen x = zlen y -> copy_from_slice (a ++ x ++ c) start end_ y = Ret (a ++ y ++ c).
Proof.
  intros -> -> Hl. unfold copy_from_slice. rewrite get_range_middle by done. cbn [expect outcome_bind]. rewrite Hl, Z.eqb_refl. cbn [assert_ outcome_bind].
  rewrite ztake_app by done. rewrite <- Hl, <- zdrop_zdrop by apply zlen_nonneg. by rewrite !zdrop_app.
Qed.

Lemma tag_wire_round_trip t : tag_from_wire_value (tag_wire_value t) = Some t.
Proof. by destruct t. Qed.

Lemma encoding_wire_round_trip e : encoding_from_wire_value (encoding_wire_value e) = Some e.
Proof. by destruct e. Qed.

Lemma zeros_length n : zlen (repeat (0 : u8) n) = Z.of_nat n.
Proof. unfold zlen. by rewrite repeat_length. Qed.

Definition payloads_length (l : list StoredArtifactSection) : Z := zlen (concat (map stored_payload l)).

Lemma payloads_cons s l : payloads_length (s :: l) = zlen (stored_payload s) + payloads_length l.
Proof. unfold payloads_length. cbn [map concat]. apply zlen_app. Qed.

Lemma payload_total_ok l : forall t, 0 <= t -> t + payloads_length l <= USIZE_MAX ->
  foldl (fun total section => match total with Some total => usize_checked_add total (zlen (stored_payload section)) | None => None end) (Some t) l = Some (t + payloads_length l) /\
  foldl (fun total section => let! total := total in expect (u64_checked_add total (zlen (stored_payload section)))) (Ret t) l = Ret (t + payloads_length l).
Proof.
  induction l as [|s l IH]; intros t Ht Hl; cbn [foldl]; [unfold payloads_length; cbn; by rewrite Z.add_0_r|]. rewrite payloads_cons in *.
  pose proof (zlen_nonneg (stored_payload s)). assert (0 <= payloads_length l) by apply zlen_nonneg.
  unfold usize_checked_add, u64_checked_add. cbn [outcome_bind]. change USIZE_MAX with U64_MAX in *. rewrite checked_ok by lia. cbn [expect].
  rewrite Z.add_assoc. apply IH; lia.
Qed.

(** ** The header with its digests *)

Definition with_hashes (h : InterfaceHeader) (content artifact : digest) : InterfaceHeader :=
  {| format_revision := format_revision h; language_revision := language_revision h; required_flags := required_flags h;
     declared_file_length := declared_file_length h; directory_offset := directory_offset h; directory_length := directory_length h;
     header_content_hash := content; artifact_hash := artifact |}.

Definition header_prefix (h : InterfaceHeader) : list u8 :=
  MAGIC ++ to_le_bytes 2 (format_revision h) ++ to_le_bytes 2 (language_revision h) ++ to_le_bytes 4 BYTE_ORDER_MARKER ++ to_le_bytes 8 (required_flags h) ++
  to_le_bytes 8 (declared_file_length h) ++ to_le_bytes 8 (directory_offset h) ++ to_le_bytes 8 (directory_length h).

Lemma header_prefix_length h : zlen (header_prefix h) = 48.
Proof. unfold header_prefix. rewrite !zlen_app, !to_le_bytes_zlen. done. Qed.

Lemma header_wire_hashes h content artifact rest :
  header_wire (current_header (with_hashes h content artifact)) ++ rest = header_prefix h ++ content ++ artifact ++ rest.
Proof. unfold header_wire, header_prefix. cbn [current_header decoded_magic decoded_header decoded_byte_order_marker with_hashes format_revision language_revision required_flags
  declared_file_length directory_offset directory_length header_content_hash artifact_hash]. by rewrite <- !app_assoc. Qed.

Section pieces.
Context {hash : Blake3} {zstd : Zstd} {hash_laws : Blake3Laws} {zstd_laws : ZstdLaws}.

Lemma artifact_hash_prefix (p c a body : list u8) :
  zlen p = 48 -> zlen c = 32 -> zlen a = 32 -> compute_artifact_hash (p ++ c ++ a ++ body) = Some (blake3 ((p ++ c) ++ repeat 0 32 ++ body)).
Proof.
  intros Hp Hc Ha. unfold compute_artifact_hash, split_at_checked, ARTIFACT_HASH_OFFSET, hash_LENGTH. pose proof (zlen_nonneg body).
  rewrite app_assoc. destruct (80 <=? zlen ((p ++ c) ++ a ++ body)) eqn:E; [|rewrite !zlen_app in E; lia].
  rewrite ztake_app, zdrop_app by (rewrite zlen_app; lia). destruct (32 <=? zlen (a ++ body)) eqn:E2; [|rewrite zlen_app in E2; lia].
  rewrite zdrop_app by done. done.
Qed.

(** ** Stored sections *)

(** What is stored of a section. *)
Record stored_of (e : EncodedArtifactSection) (s : StoredArtifactSection) : Prop := {
  so_tag : stored_tag s = encoded_tag e;
  so_records : stored_record_count s = encoded_record_count e;
  so_length : stored_decoded_length s = zlen (encoded_payload e);
  so_content : stored_content_hash s = compute_section_content_hash (encoded_tag e) (encoded_payload e);
  so_payload : stored_encoding s = Raw /\ stored_payload s = encoded_payload e \/
    stored_encoding s = ZstdFrame /\ compress COMPRESSION_LEVEL SECTION_SETTINGS (encoded_payload e) = Some (stored_payload s);
  so_bytes : Forall in_u8 (stored_payload s);
  so_smaller : zlen (stored_payload s) <= zlen (encoded_payload e);
}.

(** A section that can be stored: the compressor works on it if it is long. *)
Record storable (e : EncodedArtifactSection) : Prop := {
  sa_bytes : Forall in_u8 (encoded_payload e);
  sa_records : in_u64 (encoded_record_count e);
  sa_compress : MINIMUM_COMPRESSION_INPUT <= zlen (encoded_payload e) ->
    compressor_new COMPRESSION_LEVEL = true /\ compressor_configure SECTION_SETTINGS = true /\
    is_Some (compress COMPRESSION_LEVEL SECTION_SETTINGS (encoded_payload e));
}.

Lemma try_from_decoded_ok e : storable e -> zlen (encoded_payload e) <= USIZE_MAX -> exists s, try_from_decoded e = Ok s /\ stored_of e s.
Proof using zstd_laws.
  intros [Hb _ Hc] Hl. unfold try_from_decoded, usize_to_u64. change USIZE_MAX with U64_MAX in Hl. pose proof (zlen_nonneg (encoded_payload e)).
  rewrite checked_ok by lia. cbn [ok_or result_bind]. unfold encode_section.
  destruct (zlen (encoded_payload e) <? MINIMUM_COMPRESSION_INPUT) eqn:E; cbn [result_bind]; [eexists; split; [done|]; constructor; try done; by left|].
  destruct Hc as (-> & -> & [f Hf]); [lia|]. cbn [negb]. rewrite Hf. cbn [ok_or result_bind].
  unfold usize_checked_add. destruct (checked USIZE_MAX (zlen f + MINIMUM_COMPRESSION_SAVING)) as [n|] eqn:En; [|cbn [result_bind]; eexists; split; [done|]; constructor; try done; by left].
  apply checked_Some in En as [-> _]. destruct (zlen f + MINIMUM_COMPRESSION_SAVING <=? zlen (encoded_payload e)) eqn:Es; cbn [result_bind]; (eexists; split; [done|]).
  - constructor; cbn [stored_payload stored_encoding]; try done; [by right|by eapply zstd_frame_bytes|unfold MINIMUM_COMPRESSION_SAVING in Es; lia].
  - constructor; try done. by left.
Qed.

Lemma try_collect_ok l : Forall storable l -> Forall (fun e => zlen (encoded_payload e) <= USIZE_MAX) l -> exists ss, try_collect try_from_decoded l = Ok ss /\ Forall2 stored_of l ss.
Proof using zstd_laws.
  induction 1 as [|e l He _ IH]; intros Hl; [by exists []|]. apply Forall_cons_iff in Hl as [Hle Hl]. destruct (try_from_decoded_ok e He Hle) as (s & Es & Hs).
  destruct (IH Hl) as (ss & Ess & Hss). exists (s :: ss). cbn [try_collect]. rewrite Es. cbn [result_bind]. rewrite Ess. split; [done|by constructor].
Qed.

(** ** Entries *)

Definition finished_entry (s : StoredArtifactSection) (offset : Z) : DirectoryEntry :=
  let entry checksum := for_encoded (stored_tag s) (stored_encoding s) offset (zlen (stored_payload s)) (stored_decoded_length s) (stored_record_count s)
    checksum (stored_content_hash s) in
  entry (compute_section_hash (entry (repeat 0 32)) (stored_payload s)).

Fixpoint entries_from (offset : Z) (l : list StoredArtifactSection) : list DirectoryEntry :=
  match l with [] => [] | s :: l => finished_entry s offset :: entries_from (offset + zlen (stored_payload s)) l end.

Lemma write_sections_ok l : forall encoder es offset,
  0 <= offset -> offset + payloads_length l <= USIZE_MAX ->
  write_sections l encoder es offset = Ok (encoder ++ concat (map stored_payload l), es ++ entries_from offset l).
Proof using.
  induction l as [|s l IH]; intros encoder es offset Ho Hl; cbn [write_sections entries_from map concat]; [by rewrite !app_nil_r|]. rewrite payloads_cons in Hl.
  pose proof (zlen_nonneg (stored_payload s)). assert (0 <= payloads_length l) by apply zlen_nonneg.
  unfold encoded_directory_entry, usize_to_u64, usize_checked_add. change USIZE_MAX with U64_MAX in *. rewrite !checked_ok by lia. cbn [ok_or result_bind].
  rewrite ?checked_ok by lia. cbn [ok_or result_bind]. rewrite IH by lia. unfold write_bytes. by rewrite <- !app_assoc.
Qed.

Lemma encode_entries_ok es : forall encoder,
  foldl (fun encoder entry => encode_directory_entry entry encoder) encoder es = encoder ++ concat (map entry_wire es).
Proof using.
  induction es as [|e es IH]; intros encoder; cbn [foldl map concat]; [by rewrite app_nil_r|]. rewrite IH.
  unfold encode_directory_entry, write_u8, write_u16, write_u32, write_u64, write_bytes, entry_wire. by rewrite <- !app_assoc.
Qed.

(** The header before the digests are written. *)
Definition blank_header (language : Z) (l : list StoredArtifactSection) : InterfaceHeader :=
  {| format_revision := CURRENT_FORMAT_REVISION; language_revision := language; required_flags := InterfaceRequiredFlags_NONE;
     declared_file_length := 112 + payloads_length l + 104 * zlen l; directory_offset := 112 + payloads_length l; directory_length := 104 * zlen l;
     header_content_hash := repeat 0 32; artifact_hash := repeat 0 32 |}.

Definition final_content (language : Z) (l : list StoredArtifactSection) : digest :=
  compute_content_hash (blank_header language l) (known_sections (entries_from 112 l)).

Definition assembled_body (l : list StoredArtifactSection) : list u8 := concat (map stored_payload l) ++ concat (map entry_wire (entries_from 112 l)).

Definition final_artifact (language : Z) (l : list StoredArtifactSection) : digest :=
  blake3 ((header_prefix (blank_header language l) ++ final_content language l) ++ repeat 0 32 ++ assembled_body l).

Definition final_header (language : Z) (l : list StoredArtifactSection) : InterfaceHeader :=
  with_hashes (blank_header language l) (final_content language l) (final_artifact language l).

Definition assembled_bytes (language : Z) (l : list StoredArtifactSection) : list u8 :=
  header_wire (current_header (final_header language l)) ++ assembled_body l.

Context (language : Z) (Hlanguage : in_u16 language).
Context (l : list StoredArtifactSection) (Hfile : 112 + payloads_length l + 104 * zlen l <= USIZE_MAX).

Lemma hashes_fit content artifact : zlen content = 32 -> zlen artifact = 32 -> header_fits (current_header (with_hashes (blank_header language l) content artifact)).
Proof using Hlanguage Hfile.
  intros Hc Ha. pose proof (zlen_nonneg l). assert (0 <= payloads_length l) by apply zlen_nonneg. change USIZE_MAX with U64_MAX in Hfile.
  constructor; cbn [current_header decoded_magic decoded_header decoded_byte_order_marker with_hashes blank_header format_revision language_revision required_flags
    declared_file_length directory_offset directory_length header_content_hash artifact_hash]; try done; unfold in_u64; lia.
Qed.

Lemma blank_fits : header_fits (current_header (blank_header language l)).
Proof using Hlanguage Hfile. apply (hashes_fit (repeat 0 32) (repeat 0 32)); done. Qed.

Lemma final_content_length : zlen (final_content language l) = 32.
Proof using hash_laws. apply blake3_length. Qed.

Lemma final_artifact_length : zlen (final_artifact language l) = 32.
Proof using hash_laws. apply blake3_length. Qed.

Lemma final_fits : header_fits (current_header (final_header language l)).
Proof using Hlanguage Hfile hash_laws. apply hashes_fit; apply blake3_length. Qed.

Lemma entries_from_length : forall o k, zlen (entries_from o k) = zlen k.
Proof using. intros o k. revert o. induction k as [|s k IH]; intros o; [done|]. cbn [entries_from]. by rewrite !zlen_cons, IH. Qed.

Lemma encode_header_ok :
  encode_header language (112 + payloads_length l + 104 * zlen l) (112 + payloads_length l) (104 * zlen l) WireEncoder_new = Ok (header_wire (current_header (blank_header language l))).
Proof using Hfile.
  pose proof (zlen_nonneg l). assert (0 <= payloads_length l) by apply zlen_nonneg. change USIZE_MAX with U64_MAX in Hfile.
  unfold encode_header, usize_to_u64. rewrite !checked_ok by lia. cbn [ok_or result_bind]. rewrite ?checked_ok by lia. cbn [ok_or result_bind]. rewrite ?checked_ok by lia.
  cbn [ok_or result_bind]. unfold write_u16, write_u32, write_u64, write_bytes, WireEncoder_new, header_wire. reflexivity.
Qed.

Lemma blank_wire rest : header_wire (current_header (blank_header language l)) ++ rest = header_prefix (blank_header language l) ++ repeat 0 32 ++ repeat 0 32 ++ rest.
Proof using. apply (header_wire_hashes (blank_header language l) (repeat 0 32) (repeat 0 32)). Qed.

Context (Hentries : Forall entry_fits (entries_from 112 l)).

Lemma assembled_length : zlen (assembled_bytes language l) = 112 + payloads_length l + 104 * zlen l.
Proof using Hlanguage Hfile Hentries hash_laws.
  unfold assembled_bytes, assembled_body. rewrite !zlen_app, wires_total, entries_from_length by done. rewrite header_wire_length by apply final_fits.
  unfold payloads_length. lia.
Qed.

Lemma assemble_stored_ok {Identity} (identity : Identity) :
  assemble_stored_sections l identity language = Ret (Ok {|
    artifact_identity := identity; artifact_bytes := assembled_bytes language l; artifact_byte_len := zlen (assembled_bytes language l);
    artifact_section_count := zlen l; artifact_content_hash := final_content language l; artifact_artifact_hash := final_artifact language l |}).
Proof using Hlanguage Hfile Hentries hash_laws.
  pose proof (zlen_nonneg l). assert (0 <= payloads_length l) by apply zlen_nonneg. unfold assemble_stored_sections, payload_total, payload_sum.
  destruct (payload_total_ok l 0 ltac:(lia) ltac:(lia)) as [-> ->]. unfold fallible_bind, DirectoryEntry_LENGTH, InterfaceHeader_LENGTH, usize_checked_add.
  rewrite checked_ok by lia. cbn [ok_or outcome_bind]. rewrite Z.add_0_l, !checked_ok by lia. cbn [ok_or]. rewrite checked_ok by lia. cbn [ok_or].
  replace (zlen l * 104) with (104 * zlen l) by lia. rewrite encode_header_ok, write_sections_ok by lia. cbn [outcome_bind app]. rewrite encode_entries_ok.
  rewrite <- app_assoc. fold (assembled_body l). unfold finish_hashes, fallible_bind. rewrite header_decode_wire by apply blank_fits. cbn [map_err outcome_bind decoded_header current_header].
  fold (final_content language l). rewrite blank_wire. rewrite copy_middle; [|by rewrite header_prefix_length|by rewrite header_prefix_length, zeros_length|by rewrite zeros_length; symmetry; apply blake3_length].
  cbn [outcome_bind]. rewrite artifact_hash_prefix; [|apply header_prefix_length|apply blake3_length|by rewrite zeros_length]. cbn [ok_or]. fold (final_artifact language l).
  rewrite app_assoc, copy_middle; [|by rewrite zlen_app, header_prefix_length, final_content_length|
    by rewrite zlen_app, header_prefix_length, final_content_length, zeros_length|by rewrite zeros_length; symmetry; apply blake3_length].
  cbn [outcome_bind]. rewrite <- app_assoc. assert (header_prefix (blank_header language l) ++ final_content language l ++ final_artifact language l ++ assembled_body l
    = assembled_bytes language l) as -> by (symmetry; apply header_wire_hashes).
  unfold usize_to_u64. rewrite assembled_length, entries_from_length. change USIZE_MAX with U64_MAX in Hfile. rewrite !checked_ok by lia. cbn [ok_or result_bind].
  rewrite ?checked_ok by lia. done.
Qed.
End pieces.

(** ** The envelope of what was assembled *)

Section assembled.
Context {hash : Blake3} {zstd : Zstd} {hash_laws : Blake3Laws} {zstd_laws : ZstdLaws}.

(** Where the payload of a section is. *)
Record placed (bytes : list u8) (lower upper : Z) (s : StoredArtifactSection) (e : DirectoryEntry) : Prop := {
  pl_entry : e = finished_entry s (entry_offset e);
  pl_payload : get_range bytes (entry_offset e) (entry_offset e + encoded_length e) = Some (stored_payload s);
  pl_lower : lower <= entry_offset e;
  pl_upper : entry_offset e + encoded_length e <= upper;
}.

Lemma entries_placed k : forall (a rest : list u8) o,
  zlen a = o -> Forall2 (placed (a ++ concat (map stored_payload k) ++ rest) o (o + payloads_length k)) k (entries_from o k).
Proof.
  induction k as [|s k IH]; intros a rest o Ho; cbn [entries_from map concat]; [constructor|]. rewrite payloads_cons. pose proof (zlen_nonneg (stored_payload s)).
  assert (0 <= payloads_length k) by apply zlen_nonneg. constructor.
  - constructor; [done| |cbn; lia|cbn; lia]. rewrite <- app_assoc. apply get_range_middle; cbn; lia.
  - specialize (IH (a ++ stored_payload s) rest (o + zlen (stored_payload s)) ltac:(rewrite zlen_app; lia)). rewrite <- !app_assoc in IH |- *.
    eapply Forall2_impl; [|exact IH]. intros s' e []. constructor; [done|done|lia|lia].
Qed.

Lemma entries_sorted k : forall o,
  Sorted (fun a b => tag_wire_value (stored_tag a) < tag_wire_value (stored_tag b)) k -> Sorted entry_before (entries_from o k).
Proof.
  induction k as [|s k IH]; intros o Hs; cbn [entries_from]; [constructor|]. apply Sorted_inv in Hs as [Hs Hhd]. constructor; [by apply IH|].
  destruct k as [|s' k]; cbn [entries_from]; constructor. apply HdRel_inv in Hhd. split; [done|]. unfold ranges_overlap. cbn [entry_range range_start range_end finished_entry for_encoded
    entry_offset encoded_length]. apply andb_false_iff. left. lia.
Qed.

Lemma stored_sorted sections l :
  Forall2 stored_of sections l -> Sorted (fun a b => tag_wire_value (encoded_tag a) < tag_wire_value (encoded_tag b)) sections ->
  Sorted (fun a b => tag_wire_value (stored_tag a) < tag_wire_value (stored_tag b)) l.
Proof.
  induction 1 as [|e s sections l Hs Hall IH]; intros Hsort; [constructor|]. apply Sorted_inv in Hsort as [Hsort Hhd]. constructor; [by apply IH|].
  destruct Hall as [|e' s' ? ? Hs']; constructor. apply HdRel_inv in Hhd. by rewrite (so_tag _ _ Hs), (so_tag _ _ Hs').
Qed.

Definition decoded_total (sections : list EncodedArtifactSection) : Z := foldr (fun e total => zlen (encoded_payload e) + total) 0 sections.

Lemma decoded_total_nonneg sections : 0 <= decoded_total sections.
Proof. induction sections as [|e sections IH]; [done|]. cbn [decoded_total foldr]. fold (decoded_total sections). pose proof (zlen_nonneg (encoded_payload e)). lia. Qed.

Lemma entries_allocation sections l : forall o, Forall2 stored_of sections l -> allocation (entries_from o l) = decoded_total sections.
Proof.
  intros o Hs. revert o. induction Hs as [|e s sections l Hs _ IH]; intros o; [done|]. cbn [entries_from allocation decoded_total foldr]. fold (allocation (entries_from (o + zlen (stored_payload s)) l)).
  fold (decoded_total sections). rewrite IH. cbn [finished_entry for_encoded decoded_length]. by rewrite (so_length _ _ Hs).
Qed.

Lemma entries_fit sections l : forall o,
  Forall2 stored_of sections l -> Forall storable sections -> decoded_total sections <= U64_MAX -> 0 <= o -> o + payloads_length l <= USIZE_MAX ->
  Forall entry_fits (entries_from o l).
Proof using hash_laws.
  intros o Hs. revert o. induction Hs as [|e s sections l Hs _ IH]; intros o Hst Ht Ho Hl; [constructor|]. cbn [decoded_total foldr] in Ht. fold (decoded_total sections) in Ht.
  rewrite payloads_cons in Hl. apply Forall_cons_iff in Hst as [He Hst]. pose proof (zlen_nonneg (stored_payload s)). assert (0 <= payloads_length l) by apply zlen_nonneg.
  pose proof (zlen_nonneg (encoded_payload e)). pose proof (decoded_total_nonneg sections). cbn [entries_from]. constructor; [|apply IH; [done|lia|lia|lia]].
  change USIZE_MAX with U64_MAX in Hl. constructor; cbn [finished_entry for_encoded raw_tag section_revision raw_compatibility raw_encoding entry_offset encoded_length decoded_length record_count
    checksum entry_content_hash]; unfold in_u64.
  - destruct (stored_tag s); done.
  - done.
  - destruct (stored_tag s); done.
  - destruct (stored_encoding s); done.
  - lia.
  - lia.
  - rewrite (so_length _ _ Hs). lia.
  - rewrite (so_records _ _ Hs). apply (sa_records _ He).
  - apply blake3_length.
  - rewrite (so_content _ _ Hs). apply blake3_length.
Qed.

(** The frames of the library meet the contract. *)
Lemma land_mask x m n : 0 <= n -> 0 <= m < 2 ^ n -> (forall i, 0 <= i < n -> Z.testbit m i = true -> Z.testbit x i = false) -> Z.land x m = 0.
Proof.
  intros Hn Hm Hbits. apply Z.bits_inj'. intros i Hi. rewrite Z.land_spec, Z.bits_0. destruct (Z.testbit m i) eqn:E; [|by rewrite andb_false_r].
  assert (i < n) as Hlt. { destruct (Z_lt_le_dec i n) as [|Hge]; [done|]. destruct (decide (m = 0)) as [->|]; [by rewrite Z.bits_0 in E|].
    rewrite Z.bits_above_log2 in E; [done|lia|]. assert (Z.log2 m < n) by (apply Z.log2_lt_pow2; lia). lia. }
  by rewrite Hbits.
Qed.

Lemma frame_stored d f : compress COMPRESSION_LEVEL SECTION_SETTINGS d = Some f -> frame_met f (zlen d).
Proof using zstd_laws.
  intros Hf. split_and!; [by eapply zstd_frame_size| |by eapply zstd_content_size].
  destruct (zstd_descriptor d f Hf) as (x & Hx & B2 & B0 & B1 & B3 & B4 & Hr & Hw). exists x. split_and!; [done|done| | |].
  - apply (land_mask x 3 2); [done|done|]. intros i Hi _. assert (i = 0 \/ i = 1) as [-> | ->] by lia; done.
  - apply (land_mask x 24 5); [done|done|]. intros i Hi Hb. assert (i = 0 \/ i = 1 \/ i = 2 \/ i = 3 \/ i = 4) as [-> |[-> |[-> |[-> | ->]]]] by lia; done.
  - change MAXIMUM_WINDOW_LOG with 20 in Hw. destruct (Z.testbit x 5); [done|]. destruct Hw as (w & Hw & Hb). exists w. split; [done|]. change (8 * (20 - 10)) with 80 in Hb.
    clear -Hb. assert (w = 80 \/ 0 <= w < 80) as [-> |Hlt] by lia; [done|]. unfold window_size.
    assert (0 <= w / 8 <= 9) as He by (split; [apply Z.div_pos; lia|]; assert (w / 8 < 10) by (apply Z.div_lt_upper_bound; lia); lia).
    assert (2 ^ (10 + w / 8) <= 2 ^ 19) as Hp by (apply Z.pow_le_mono_r; lia). assert (0 < 2 ^ (10 + w / 8)) as Hp0 by (apply Z.pow_pos_nonneg; lia).
    pose proof (Z.mod_pos_bound w 8 ltac:(lia)). change (2 ^ 20) with 1048576. change (2 ^ 19) with 524288 in Hp.
    assert (8 * (2 ^ (10 + w / 8) / 8) <= 2 ^ (10 + w / 8)) by (apply Z.mul_div_le; lia). assert (0 <= 2 ^ (10 + w / 8) / 8) by (apply Z.div_pos; lia). nia.
Qed.

Lemma payloads_smaller sections l : Forall2 stored_of sections l -> payloads_length l <= decoded_total sections.
Proof.
  induction 1 as [|e s sections l Hs _ IH]; [done|]. rewrite payloads_cons. cbn [decoded_total foldr]. fold (decoded_total sections). pose proof (so_smaller _ _ Hs). lia.
Qed.

Lemma placed_forall bytes lower upper records (P : DirectoryEntry -> Prop) sections l : forall es,
  Forall2 stored_of sections l -> Forall storable sections -> Forall (fun e => encoded_record_count e <= records) sections ->
  Forall2 (placed bytes lower upper) l es ->
  (forall e s x, stored_of e s -> storable e -> encoded_record_count e <= records -> placed bytes lower upper s x -> P x) -> Forall P es.
Proof.
  intros es Hs. revert es. induction Hs as [|e s sections l Hs _ IH]; intros es Hst Hrec Hplaced HP; inversion Hplaced as [|? x ? es' Hx Hplaced']; subst; [constructor|].
  apply Forall_cons_iff in Hst as [He Hst], Hrec as [Hr Hrec]. constructor; [by eapply HP|]. by apply IH.
Qed.

Lemma stored_bytes sections l : Forall2 stored_of sections l -> Forall in_u8 (concat (map stored_payload l)).
Proof. induction 1 as [|e s sections l Hs _ IH]; [constructor|]. cbn [map concat]. apply Forall_app. split; [apply (so_bytes _ _ Hs)|done]. Qed.

Lemma entries_tags sections l : forall o, Forall2 stored_of sections l -> map raw_tag (entries_from o l) = map (fun e => tag_wire_value (encoded_tag e)) sections.
Proof.
  intros o Hs. revert o. induction Hs as [|e s sections l Hs _ IH]; intros o; [done|]. cbn [entries_from map finished_entry for_encoded raw_tag]. by rewrite IH, (so_tag _ _ Hs).
Qed.

Lemma entries_records sections l : forall o, Forall2 stored_of sections l -> map record_count (entries_from o l) = map encoded_record_count sections.
Proof.
  intros o Hs. revert o. induction Hs as [|e s sections l Hs _ IH]; intros o; [done|]. cbn [entries_from map finished_entry for_encoded record_count]. by rewrite IH, (so_records _ _ Hs).
Qed.

(** Sections in the order of their tags that are stored within the limits of the policy. *)
Record admissible (sections : list EncodedArtifactSection) (language : Z) (policy : InterfaceValidationPolicy) (l : list StoredArtifactSection) : Prop := {
  ad_storable : Forall storable sections;
  ad_sorted : Sorted (fun a b => tag_wire_value (encoded_tag a) < tag_wire_value (encoded_tag b)) sections;
  ad_language : in_u16 language /\ policy_language_revision policy = language;
  ad_size : 112 + decoded_total sections + 104 * zlen sections <= USIZE_MAX;
  ad_file : 112 + payloads_length l + 104 * zlen l <= maximum (policy_limits policy) FileSize;
  ad_count : zlen sections <= maximum (policy_limits policy) SectionCount;
  ad_records : Forall (fun e => encoded_record_count e <= maximum (policy_limits policy) RecordCount) sections;
  ad_allocation : decoded_total sections <= maximum (policy_limits policy) DecodedAllocation <= U64_MAX;
}.

Context (sections : list EncodedArtifactSection) (language : Z) (policy : InterfaceValidationPolicy) (l : list StoredArtifactSection).
Context (Had : admissible sections language policy l) (Hstored : Forall2 stored_of sections l).

Lemma stored_length : zlen l = zlen sections.
Proof using Hstored. unfold zlen. by rewrite (Forall2_length Hstored). Qed.

Lemma stored_smaller : 0 <= payloads_length l <= decoded_total sections.
Proof using Hstored. split; [apply zlen_nonneg|by apply payloads_smaller]. Qed.

Lemma stored_file : 112 + payloads_length l + 104 * zlen l <= USIZE_MAX.
Proof using Had Hstored. pose proof stored_smaller. pose proof (ad_size _ _ _ _ Had). rewrite stored_length. lia. Qed.

Lemma assembled_entries_fit : Forall entry_fits (entries_from 112 l).
Proof using Had Hstored hash_laws.
  apply (entries_fit sections l); [done|apply Had|pose proof (ad_allocation _ _ _ _ Had); lia|lia|]. pose proof stored_file. pose proof (zlen_nonneg l). lia.
Qed.

Lemma assembled_size : zlen (assembled_bytes language l) = 112 + payloads_length l + 104 * zlen l.
Proof using Had Hstored hash_laws. apply assembled_length; [apply Had|apply stored_file|apply assembled_entries_fit]. Qed.

Lemma known_tag s o : entry_tag (finished_entry s o) = Some (stored_tag s) /\ entry_encoding (finished_entry s o) = Some (stored_encoding s).
Proof using.
  assert (entry_encoding (finished_entry s o) = Some (stored_encoding s)) as He by apply encoding_wire_round_trip. split; [|done].
  apply entry_tag_Some. split_and!; [apply tag_wire_round_trip|done|done|by rewrite He].
Qed.

Lemma assembled_placed :
  Forall2 (placed (assembled_bytes language l) 112 (112 + payloads_length l)) l (entries_from 112 l).
Proof using Had Hstored hash_laws.
  unfold assembled_bytes, assembled_body. apply entries_placed. apply header_wire_length, final_fits; [apply Had|apply stored_file].
Qed.

Lemma placed_admitted e s x :
  stored_of e s -> storable e -> encoded_record_count e <= maximum (policy_limits policy) RecordCount ->
  placed (assembled_bytes language l) 112 (112 + payloads_length l) s x ->
  entry_admitted (assembled_bytes language l) (header_directory (final_header language l)) (policy_limits policy) x.
Proof using Had Hstored hash_laws zstd_laws.
  intros Hs He Hr [Hx Hp Hlo Hhi]. pose proof assembled_size as Hsize. pose proof (zlen_nonneg l). rewrite Hx in *. set (o := entry_offset x) in *.
  destruct (known_tag s o) as [Htag Henc]. apply entry_tag_Some in Htag as (H1 & H2 & H3 & H4). constructor.
  - exists (tag_compatibility (stored_tag s)). rewrite H3, H1. split; [by destruct (stored_tag s)|]. split; [done|]. left. split; [done|]. exists (stored_encoding s). split; [done|].
    intros Hraw. cbn [finished_entry for_encoded encoded_length decoded_length]. rewrite (so_length _ _ Hs). destruct (so_payload _ _ Hs) as [[_ ->]|[? _]]; congruence.
  - cbn [finished_entry for_encoded record_count]. by rewrite (so_records _ _ Hs).
  - lia.
  - unfold ranges_overlap. cbn [entry_range range_start range_end]. apply andb_false_iff. left. unfold InterfaceHeader_LENGTH. lia.
  - unfold ranges_overlap. cbn [entry_range range_start range_end header_directory final_header with_hashes blank_header directory_offset]. apply andb_false_iff. right. lia.
  - intros _ Hz frame Hframe. assert (frame = stored_payload s) as -> by congruence. rewrite Henc in Hz. injection Hz as Hz.
    destruct (so_payload _ _ Hs) as [[? _]|[_ Hc]]; [congruence|]. cbn [finished_entry for_encoded decoded_length]. rewrite (so_length _ _ Hs). by apply frame_stored.
Qed.

Lemma assembled_forall (P : DirectoryEntry -> Prop) :
  (forall e s x, stored_of e s -> storable e -> encoded_record_count e <= maximum (policy_limits policy) RecordCount ->
     placed (assembled_bytes language l) 112 (112 + payloads_length l) s x -> P x) -> Forall P (entries_from 112 l).
Proof using Had Hstored hash_laws.
  intros HP. by eapply placed_forall; [exact Hstored|apply Had|apply Had|apply assembled_placed|].
Qed.

Lemma assembled_envelope : envelope (assembled_bytes language l) policy (final_header language l) (entries_from 112 l).
Proof using Had Hstored hash_laws zstd_laws.
  pose proof assembled_size as Hsize. pose proof stored_smaller. pose proof stored_length as Hlen. pose proof assembled_entries_fit as Hfits. destruct Had.
  assert (header_fits (current_header (final_header language l))) as Hh by (apply final_fits; [by destruct ad_language0|apply stored_file]).
  constructor; try done.
  - lia.
  - by eexists.
  - by destruct ad_language0.
  - unfold assembled_bytes, assembled_body. rewrite <- (app_nil_r (concat (map entry_wire _))) at 1. rewrite !app_assoc, <- (app_assoc _ _ []).
    apply get_range_middle; cbn [final_header with_hashes blank_header directory_offset directory_length]; rewrite zlen_app, header_wire_length by done; [done|].
    rewrite wires_total, entries_from_length by done. unfold payloads_length. lia.
  - rewrite entries_from_length. lia.
  - apply assembled_forall. intros e s x. by apply placed_admitted.
  - apply entries_sorted. by eapply stored_sorted.
  - rewrite (entries_allocation sections l) by done. lia.
  - apply assembled_forall. intros e s x _ _ _ [Hx Hp _ _] payload Hpayload. assert (payload = stored_payload s) as -> by congruence. by rewrite Hx.
  - unfold assembled_bytes, final_header. rewrite (header_wire_hashes (blank_header language l)). apply artifact_hash_prefix; [apply header_prefix_length|apply blake3_length|apply blake3_length].
Qed.

(** ** Reading it back *)

Lemma entries_bytes : Forall (fun x => Forall in_u8 (entry_wire x)) (entries_from 112 l).
Proof using Had Hstored hash_laws.
  apply assembled_forall. intros e s x Hs _ _ [Hx _ _ _]. rewrite Hx. unfold entry_wire. rewrite !Forall_app. cbn [finished_entry for_encoded checksum entry_content_hash].
  rewrite (so_content _ _ Hs). split_and!; try apply to_le_bytes_bytes; apply blake3_bytes.
Qed.

Lemma assembled_slice : SliceBytes (assembled_bytes language l) policy.
Proof using Had Hstored hash_laws.
  constructor.
  - unfold assembled_bytes, assembled_body. rewrite !Forall_app. split_and!.
    + unfold header_wire. rewrite !Forall_app. split_and!; try apply to_le_bytes_bytes; try apply blake3_bytes. repeat constructor; done.
    + by eapply stored_bytes.
    + pose proof entries_bytes as H. induction H as [|x es Hx _ IH]; [constructor|]. cbn [map concat]. by apply Forall_app.
  - rewrite assembled_size. apply stored_file.
  - pose proof (ad_allocation _ _ _ _ Had). pose proof (decoded_total_nonneg sections). lia.
Qed.

Lemma tags_increasing : strictly_increasing (map raw_tag (entries_from 112 l)).
Proof using Had Hstored.
  rewrite (entries_tags sections l) by done. intros i j x y Hx Hy Hij. eapply StronglySorted_get; [|exact Hx|exact Hy|exact Hij]. apply Sorted_StronglySorted; [intros ? ? ?; apply Z.lt_trans|].
  pose proof (ad_sorted _ _ _ _ Had) as H. clear -H. induction H as [|e sections _ IH Hhd]; constructor; [done|]. destruct Hhd; by constructor.
Qed.

Definition shows (e : EncodedArtifactSection) (view : ValidatedInterfaceSection) : Prop :=
  section_tag view = encoded_tag e /\ section_record_count view = encoded_record_count e /\ section_bytes view = encoded_payload e.

Lemma decode_stored index e s o :
  stored_of e s -> zlen (encoded_payload e) <= U64_MAX -> exists decoded, decode_and_verify_section index (finished_entry s o) (stored_payload s) = Ok decoded /\ default (stored_payload s) decoded = encoded_payload e.
Proof using zstd_laws.
  intros Hs Hl. unfold decode_and_verify_section. destruct (known_tag s o) as [-> ->]. cbn [ok_or result_bind].
  cbn [finished_entry for_encoded decoded_length entry_content_hash]. rewrite (so_length _ _ Hs), (so_content _ _ Hs), (so_tag _ _ Hs).
  destruct (so_payload _ _ Hs) as [[-> ->]|[-> Hc]]; cbn [result_bind].
  - cbn [from_option id]. rewrite bool_decide_eq_true_2 by done. by eexists.
  - unfold decode_zstd_frame, usize_try_from. pose proof (zlen_nonneg (encoded_payload e)). change USIZE_MAX with U64_MAX. rewrite checked_ok by lia. cbn [ok_or result_bind].
    destruct zstd_available as [-> ->]. cbn [negb]. rewrite (zstd_round_trip _ _ _ Hc) by lia. cbn [ok_or result_bind]. rewrite Z.eqb_refl. cbn [negb result_bind from_option id].
    rewrite bool_decide_eq_true_2 by done. by eexists.
Qed.

Context {allocator : Allocator} {sizes : ItemSizes}.
Abbreviation interface := (fresh (assembled_bytes language l) policy (final_header language l) (entries_from 112 l)).

Lemma payload_fits e : e ∈ sections -> zlen (encoded_payload e) <= U64_MAX.
Proof using Had.
  intros He. pose proof (ad_allocation _ _ _ _ Had) as Ha. assert (zlen (encoded_payload e) <= decoded_total sections); [|lia]. clear -He.
  induction He as [e sections|e e' sections _ IH]; cbn [decoded_total foldr]; fold (decoded_total sections).
  - pose proof (decoded_total_nonneg sections). lia.
  - pose proof (zlen_nonneg (encoded_payload e')). lia.
Qed.

Lemma payloads_fit : Forall (fun e => zlen (encoded_payload e) <= USIZE_MAX) sections.
Proof using Had. apply List.Forall_forall. intros e He. apply payload_fits. by apply list_elem_of_In. Qed.

Lemma section_by_index_stored i e s x :
  sections !! i = Some e -> l !! i = Some s -> entries_from 112 l !! i = Some x ->
  exists view, (section_by_index interface (Z.of_nat i)).1 = Ok view /\ shows e view.
Proof using Had Hstored hash_laws zstd_laws.
  intros He Hs Hx. pose proof (Forall2_lookup_lr _ _ _ _ _ _ Hstored He Hs) as Hst. pose proof (Forall2_lookup_lr _ _ _ _ _ _ assembled_placed Hs Hx) as [Ex Hp _ _].
  pose proof assembled_slice as slice. pose proof assembled_envelope as Henv. unfold section_by_index. cbn [fresh directory vpi_bytes decoded_sections].
  rewrite get_nonneg, Nat2Z.id, Hx by lia.
  pose proof (proj1 (List.Forall_forall _ _) (en_entries _ _ _ _ Henv) x (proj1 (list_elem_of_In _ _) (list_elem_of_lookup_2 _ _ _ Hx))) as Hfit.
  pose proof (proj1 (List.Forall_forall _ _) (en_admitted _ _ _ _ Henv) x (proj1 (list_elem_of_In _ _) (list_elem_of_lookup_2 _ _ _ Hx))) as Hadm.
  destruct (entry_payload_range (assembled_bytes language l) policy x Hfit (ea_bounds _ _ _ _ Hadm)) as [-> _]. rewrite Hp.
  assert (get (repeat (None : DecodedSection) (length (entries_from 112 l))) (Z.of_nat i) = Some None) as ->.
  { rewrite get_nonneg, Nat2Z.id by lia. apply lookup_repeat. by eapply lookup_lt_Some. }
  cbn [get_or_init fst]. destruct (decode_stored (Z.of_nat i) e s (entry_offset x) Hst) as (decoded & Hdec & Hpay); [by eapply payload_fits, list_elem_of_lookup_2|].
  rewrite <- Ex in Hdec. rewrite Hdec. cbn [result_bind]. rewrite Hpay. destruct (known_tag s (entry_offset x)) as [Ht Hen]. rewrite <- Ex in Ht, Hen.
  unfold ValidatedInterfaceSection_new. rewrite Ht, Hen. cbn [ok_or]. eexists. split; [done|]. split_and!; cbn [section_tag section_record_count section_bytes]; [apply Hst| |done].
  rewrite Ex. cbn [finished_entry for_encoded record_count]. apply Hst.
Qed.

Lemma section_stored e : e ∈ sections -> exists view, (section interface (encoded_tag e)).1 = Ok (Some view) /\ shows e view.
Proof using Had Hstored hash_laws zstd_laws.
  intros (i & He)%list_elem_of_lookup_1. destruct (Forall2_lookup_l _ _ _ _ _ Hstored He) as (s & Hs & Hst). destruct (Forall2_lookup_l _ _ _ _ _ assembled_placed Hs) as (x & Hx & Hpl).
  unfold section, binary_search_by_key. cbn [fresh directory]. assert (raw_tag x = tag_wire_value (encoded_tag e)) as Htag.
  { rewrite (pl_entry _ _ _ _ _ Hpl). cbn [finished_entry for_encoded raw_tag]. by rewrite (so_tag _ _ Hst). }
  rewrite (binary_search_found _ (tag_wire_value (encoded_tag e)) tags_increasing (Z.of_nat i)).
  2: { rewrite get_map, get_nonneg, Nat2Z.id, Hx by lia. cbn. by rewrite Htag. }
  rewrite get_nonneg, Nat2Z.id, Hx by lia. assert (entry_tag x = Some (encoded_tag e)) as ->.
  { rewrite (pl_entry _ _ _ _ _ Hpl), (proj1 (known_tag s _)). by rewrite (so_tag _ _ Hst). }
  rewrite bool_decide_eq_true_2 by done. cbn [negb]. destruct (section_by_index_stored i e s x He Hs Hx) as (view & Hv & Hsh).
  destruct (section_by_index interface (Z.of_nat i)) as [r v]. cbn [fst] in *. subst r. by exists view.
Qed.

Lemma section_absent tag : tag ∉ map encoded_tag sections -> (section interface tag).1 = Ok None.
Proof using Had Hstored.
  intros Hnot. unfold section, binary_search_by_key. cbn [fresh directory]. destruct (binary_search _ _) as [i|i] eqn:E; [|done]. destruct Hnot.
  apply binary_search_Ok, get_elem_of in E. rewrite (entries_tags sections l) in E by done. apply list_elem_of_fmap in E as (e & E & He). apply list_elem_of_fmap. exists e. split; [|done].
  apply (f_equal tag_from_wire_value) in E. rewrite !tag_wire_round_trip in E. congruence.
Qed.

Lemma integrity_ok {Identity} (identity : Identity) count :
  validate_integrity {| artifact_identity := identity; artifact_bytes := assembled_bytes language l; artifact_byte_len := zlen (assembled_bytes language l);
    artifact_section_count := count; artifact_content_hash := final_content language l; artifact_artifact_hash := final_artifact language l |} = Ok tt.
Proof using Had Hstored hash_laws zstd_laws.
  unfold validate_integrity. cbn [artifact_bytes artifact_byte_len artifact_content_hash artifact_artifact_hash]. pose proof assembled_slice as slice. pose proof (sb_size (assembled_bytes language l) policy) as Hsz.
  pose proof (zlen_nonneg (assembled_bytes language l)). change USIZE_MAX with U64_MAX in Hsz. rewrite checked_ok by lia. cbn [ok_or result_bind]. rewrite Z.eqb_refl. cbn [negb].
  rewrite (envelope_decode _ _ _ _ assembled_envelope). cbn [map_err result_bind decoded_header current_header final_header with_hashes header_content_hash artifact_hash].
  rewrite !bool_decide_eq_true_2 by done. cbn [negb]. rewrite (en_artifact _ _ _ _ assembled_envelope). cbn [ok_or result_bind]. by rewrite bool_decide_eq_true_2.
Qed.
Lemma sections_loop_stored xs : forall i v views,
  alike interface v -> xs = drop i (entries_from 112 l) ->
  exists new, (sections_loop v (Z.of_nat i) xs views).1 = Ok (views ++ new) /\ Forall2 shows (drop i sections) new.
Proof using Had Hstored hash_laws zstd_laws.
  induction xs as [|x xs IH]; intros i v views Hv Hxs; cbn [sections_loop fst].
  - exists []. rewrite app_nil_r. split; [done|]. apply (f_equal length) in Hxs. rewrite length_drop in Hxs. cbn [length] in Hxs.
    pose proof (Forall2_length Hstored). pose proof (Forall2_length assembled_placed). rewrite drop_ge by lia. constructor.
  - assert (entries_from 112 l !! i = Some x) as Hx by (rewrite <- (Nat.add_0_r i), <- lookup_drop, <- Hxs; done).
    destruct (Forall2_lookup_r _ _ _ _ _ assembled_placed Hx) as (s & Hs & Hpl). destruct (Forall2_lookup_r _ _ _ _ _ Hstored Hs) as (e & He & _).
    assert (is_Some (entry_tag x)) as [tag ->] by (rewrite (pl_entry _ _ _ _ _ Hpl), (proj1 (known_tag s _)); done).
    destruct (section_by_index_stored i e s x He Hs Hx) as (view & Hview & Hsh).
    pose proof (proj1 (section_by_index_transparent (Z.of_nat i) _ _ Hv)) as H1. pose proof (proj2 (section_by_index_transparent (Z.of_nat i) v _ ltac:(symmetry; exact Hv))) as H2.
    cbv beta in H1, H2. rewrite Hview in H1. destruct (section_by_index v (Z.of_nat i)) as [r v']. cbn [fst snd] in *. subst r.
    assert (xs = drop (S i) (entries_from 112 l)) as Hxs' by (erewrite drop_S in Hxs by exact Hx; by injection Hxs).
    replace (Z.of_nat i + 1) with (Z.of_nat (S i)) by lia.
    destruct (IH (S i) v' (views ++ [view]) ltac:(by transitivity v) Hxs') as (new & -> & Hnew). exists (view :: new). rewrite <- app_assoc. split; [done|].
    rewrite (drop_S _ _ _ He). by constructor.
Qed.

(** All sections, in the order in which they were given. *)
Lemma sections_stored v :
  alike interface v -> (forall count size, try_reserve_exact count size = true) -> exists views, (InterfaceArtifact.sections v).1 = Ok views /\ Forall2 shows sections views.
Proof using Had Hstored hash_laws zstd_laws.
  intros Hv Hmemory. unfold InterfaceArtifact.sections, allocate_items. rewrite Hmemory, <- (alike_directory _ _ Hv). cbn [fresh directory].
  destruct (sections_loop_stored (entries_from 112 l) 0 v [] Hv eq_refl) as (new & Hnew & Hall). by exists new.
Qed.

(** What the bytes give after any calls. *)
Lemma assembled_answers v :
  alike interface v ->
  (forall e, e ∈ sections -> exists view, (section v (encoded_tag e)).1 = Ok (Some view) /\ shows e view) /\
  (forall tag, tag ∉ map encoded_tag sections -> (section v tag).1 = Ok None).
Proof using Had Hstored hash_laws zstd_laws.
  intros Hv. split.
  - intros e He. destruct (section_stored e He) as (view & Hview & Hsh). exists view. split; [|done]. by rewrite <- (proj1 (section_transparent (encoded_tag e) _ _ Hv)).
  - intros tag Htag. rewrite <- (proj1 (section_transparent tag _ _ Hv)). by apply section_absent.
Qed.
End assembled.

(** ** Sections in any order *)

Section unordered.
Context {hash : Blake3} {zstd : Zstd} {hash_laws : Blake3Laws} {zstd_laws : ZstdLaws}.

(** What can be written: bytes that the compressor works on where it is used, and
    a file that can be addressed. *)
Record writable (sections : list EncodedArtifactSection) (language : Z) : Prop := {
  wr_storable : Forall storable sections;
  wr_language : in_u16 language;
  wr_size : 112 + decoded_total sections + 104 * zlen sections <= USIZE_MAX;
}.

(** What a policy admits of a file of some size. *)
Record admits (policy : InterfaceValidationPolicy) (language : Z) (sections : list EncodedArtifactSection) (size : Z) : Prop := {
  av_language : policy_language_revision policy = language;
  av_size : size <= maximum (policy_limits policy) FileSize;
  av_sections : zlen sections <= maximum (policy_limits policy) SectionCount;
  av_records : Forall (fun e => encoded_record_count e <= maximum (policy_limits policy) RecordCount) sections;
  av_decoded : decoded_total sections <= maximum (policy_limits policy) DecodedAllocation;
}.

(** The policy without limits. *)
Definition unlimited (language : Z) : InterfaceValidationPolicy :=
  {| policy_language_revision := language;
     policy_limits := {| file_size := U64_MAX; implementation_file_size := U64_MAX; section_count := U64_MAX; implementation_entry_count := U64_MAX;
       records_per_section := U64_MAX; string_length := U64_MAX; blob_length := U64_MAX; decoded_allocation := U64_MAX; semantic_type_depth := U64_MAX;
       template_graph_size := U64_MAX; external_reference_count := U64_MAX |} |}.

Lemma decoded_total_perm l l' : l ≡ₚ l' -> decoded_total l = decoded_total l'.
Proof. induction 1 as [|e l l' _ IH|e e' l|l l' l'' _ IH1 _ IH2]; cbn [decoded_total foldr]; fold decoded_total; unfold decoded_total in *; lia. Qed.

Lemma tag_order_wire a b : cmp (encoded_tag a) (encoded_tag b) = Lt -> tag_wire_value (encoded_tag a) < tag_wire_value (encoded_tag b).
Proof. by destruct (encoded_tag a), (encoded_tag b). Qed.

(** Sorted by a key that tells them apart, the tags increase. *)
Lemma sorted_tags l : key_sorted encoded_tag l -> NoDup (map encoded_tag l) -> Sorted (fun a b => tag_wire_value (encoded_tag a) < tag_wire_value (encoded_tag b)) l.
Proof.
  unfold key_sorted. induction l as [|a l IH]; intros Hs Hn; constructor; cbn [map] in *.
  - apply IH; [by inversion Hs|]. by apply list.NoDup_cons in Hn as [_ ?].
  - destruct l as [|b l]; constructor. cbn [map] in *. apply tag_order_wire, ord_le_lt; [inversion Hs as [|? ? _ Ha]; by inversion Ha|].
    apply list.NoDup_cons in Hn as [Hn _]. intros E. apply Hn. rewrite E. by left.
Qed.

Lemma admits_perm policy language sections sections' size : sections ≡ₚ sections' -> admits policy language sections size -> admits policy language sections' size.
Proof.
  intros Hp [H1 H2 H3 H4 H5]. constructor; [done|done| |by rewrite <- Hp|by rewrite <- (decoded_total_perm _ _ Hp)].
  unfold zlen in *. by rewrite <- (Permutation_length Hp).
Qed.

Lemma writable_sorted sections language : writable sections language -> writable (sort_by_key encoded_tag sections) language.
Proof.
  pose proof (sort_by_key_perm encoded_tag sections) as Hp. intros [H1 H2 H3]. constructor; [by rewrite Hp|done|].
  rewrite (decoded_total_perm _ _ Hp). unfold zlen in *. by rewrite (Permutation_length Hp).
Qed.

Lemma writable_fit sections language : writable sections language -> Forall (fun e => zlen (encoded_payload e) <= USIZE_MAX) sections.
Proof.
  intros [_ _ H]. pose proof (zlen_nonneg sections) as Hn. assert (decoded_total sections <= USIZE_MAX) as Ht by lia. clear H Hn.
  induction sections as [|e sections IH]; [constructor|]. cbn [decoded_total foldr] in Ht. fold (decoded_total sections) in Ht.
  pose proof (zlen_nonneg (encoded_payload e)). pose proof (decoded_total_nonneg sections). constructor; [lia|apply IH; lia].
Qed.

Section stored.
Context (sections : list EncodedArtifactSection) (language : Z) (Hw : writable sections language).
Context (Hsorted : Sorted (fun a b => tag_wire_value (encoded_tag a) < tag_wire_value (encoded_tag b)) sections).
Context (l : list StoredArtifactSection) (Hstored : Forall2 stored_of sections l).

Lemma writable_admissible policy :
  maximum (policy_limits policy) DecodedAllocation <= U64_MAX ->
  admits policy language sections (112 + payloads_length l + 104 * zlen l) -> admissible sections language policy l.
Proof using Hw Hsorted. intros Hmax [H1 H2 H3 H4 H5]. destruct Hw. by constructor. Qed.

Lemma unlimited_admissible : admissible sections language (unlimited language) l.
Proof using Hw Hsorted Hstored.
  apply writable_admissible; [done|]. destruct Hw as [Hst _ Hsize]. pose proof (payloads_smaller _ _ Hstored). pose proof (stored_length _ _ Hstored) as Hl.
  pose proof (decoded_total_nonneg sections). pose proof (zlen_nonneg sections). change USIZE_MAX with U64_MAX in Hsize.
  constructor; cbn [unlimited policy_language_revision policy_limits maximum file_size section_count records_per_section decoded_allocation]; [done|lia|lia| |lia].
  eapply List.Forall_impl; [|exact Hst]. intros e [_ Hrec _]. apply Hrec.
Qed.

(** A policy that accepts the bytes admits them. *)
Lemma accepted_admits policy h d :
  envelope (assembled_bytes language l) policy h d -> admits policy language sections (zlen (assembled_bytes language l)).
Proof using Hw Hsorted Hstored hash_laws zstd_laws.
  intros He. destruct (envelope_same _ _ _ _ _ _ _ He (assembled_envelope _ _ _ _ unlimited_admissible Hstored)) as [-> ->]. constructor.
  - symmetry. apply He.
  - apply He.
  - pose proof (en_count _ _ _ _ He) as H. by rewrite entries_from_length, (stored_length _ _ Hstored) in H.
  - assert (Forall (fun n => n <= maximum (policy_limits policy) RecordCount) (map record_count (entries_from 112 l))) as Hrec.
    { apply List.Forall_map. eapply List.Forall_impl; [|exact (en_admitted _ _ _ _ He)]. by intros x []. }
    rewrite (entries_records sections l) in Hrec by done. exact (proj1 (List.Forall_map _ _ _) Hrec).
  - pose proof (en_allocation _ _ _ _ He) as H. by rewrite (entries_allocation sections l) in H.
Qed.
End stored.
End unordered.
