(* ===== verification/InterfaceCorrect.v ===== *)
(** * Package interfaces: what validation promises

    The theorems about assembling, validating and reading package interfaces, with
    a digest, a compressor and an allocator at which they can be tried. *)

From Stdlib Require Import ZArith Lia String Sorted.
From stdpp Require Import base list numbers option.
From S2P Require Import Prelude Order InterfaceFormat InterfaceArtifact InterfaceEnvelope InterfaceSections InterfaceRoundTrip.

(** ** A sample of the libraries

    A digest of 32 bytes that depends on every byte, and frames that store a run of
    one byte as that byte and anything else as it is. *)

Module Sample.
Definition digest_step (acc : list u8) (b : u8) : list u8 :=
  match acc with [] => [] | x :: acc => acc ++ [(x * 31 + b + 7) mod 256] end.

Definition digest_of (l : list u8) : digest := foldl digest_step (repeat 0 32) l.

Lemma digest_fold l : forall acc, zlen acc = 32 -> Forall in_u8 acc -> zlen (foldl digest_step acc l) = 32 /\ Forall in_u8 (foldl digest_step acc l).
Proof.
  induction l as [|b l IH]; intros acc Hl Hb; cbn [foldl]; [done|]. destruct acc as [|x acc]; [done|]. cbn [digest_step]. rewrite zlen_cons in Hl.
  apply Forall_cons_iff in Hb as [_ Hb]. apply IH; [rewrite zlen_app; change (zlen [_]) with 1; lia|]. apply Forall_app. split; [done|]. constructor; [|constructor].
  pose proof (Z.mod_pos_bound (x * 31 + b + 7) 256 ltac:(lia)). unfold in_u8. lia.
Qed.

Definition is_run (l : list u8) : bool := match l with [] => false | x :: l => forallb (fun y => y =? x) l end.

Lemma is_run_repeat l : is_run l = true -> exists x, l = repeat x (length l) /\ take 1 l = [x].
Proof.
  destruct l as [|x l]; [done|]. cbn [is_run]. intros H. exists x. split; [|done]. cbn [length repeat]. f_equal.
  induction l as [|y l IH]; [done|]. cbn [forallb] in H. apply andb_true_iff in H as [Hy H]. apply Z.eqb_eq in Hy as ->. cbn [length repeat]. f_equal. by apply IH.
Qed.

Definition frame_prefix (d : list u8) : list u8 := [40; 181; 47; 253; 4; 80] ++ to_le_bytes 8 (zlen d).

Definition frame_of (d : list u8) : option (list u8) :=
  if zlen d <=? U64_MAX then Some (frame_prefix d ++ (if is_run d then 1 :: take 1 d else 0 :: d)) else None.

Definition content_size (frame : list u8) : Z := from_le_bytes (ztake 8 (zdrop 6 frame)).

Definition contents (frame : list u8) (capacity : usize) : option (list u8) :=
  if capacity <? content_size frame then None
  else match zdrop 14 frame with
       | [1; x] => Some (repeat x (Z.to_nat (content_size frame)))
       | 0 :: d => Some d
       | _ => None
       end.

#[local] Instance blake3 : Blake3 := digest_of.

#[local] Instance zstd : Zstd := {|
  compressor_new := fun _ => true; compressor_configure := fun _ => true; compress := fun _ _ => frame_of;
  find_frame_compressed_size := fun frame => Some (zlen frame); get_frame_content_size := fun frame => Some (Some (content_size frame));
  decompressor_new := true; window_log_max := fun _ => true; decompress := fun _ => contents |}.

#[local] Instance allocator : Allocator := fun _ _ => true.

#[local] Instance sizes : ItemSizes := {| size_of_entry := 120; size_of_cell := 40; size_of_section := 80 |}.

#[local] Instance blake3_laws : Blake3Laws.
Proof. split; intros l; apply digest_fold; try done; by repeat constructor. Qed.

Lemma content_size_prefix d rest : 0 <= zlen d <= U64_MAX -> content_size (frame_prefix d ++ rest) = zlen d.
Proof.
  intros H. unfold content_size, frame_prefix. rewrite <- app_assoc. rewrite zdrop_app, ztake_app by done. apply from_to_le_bytes. change U64_MAX with 18446744073709551615 in H.
  change (2 ^ (8 * Z.of_nat 8)) with 18446744073709551616. lia.
Qed.

Lemma frame_of_inv d f : frame_of d = Some f -> 0 <= zlen d <= U64_MAX /\ f = frame_prefix d ++ (if is_run d then 1 :: take 1 d else 0 :: d).
Proof.
  unfold frame_of. destruct (zlen d <=? U64_MAX) eqn:E; [|done]. pose proof (zlen_nonneg d). intros H'. split; [lia|congruence].
Qed.

#[local] Instance zstd_laws : ZstdLaws.
Proof.
  split; cbn [decompressor_new window_log_max compress find_frame_compressed_size get_frame_content_size decompress zstd].
  - done.
  - intros d f Hd [_ ->]%frame_of_inv. unfold frame_prefix. rewrite !Forall_app. split_and!; [by repeat constructor|apply to_le_bytes_bytes|].
    destruct (is_run d); (constructor; [done|]); [by apply Forall_take|done].
  - done.
  - intros d f [Hl ->]%frame_of_inv. by rewrite content_size_prefix.
  - intros d f [_ ->]%frame_of_inv. exists 4. split_and!; try done. exists 80. by split.
  - intros d f capacity [Hl ->]%frame_of_inv Hcap. unfold contents. rewrite content_size_prefix by done. destruct (capacity <? zlen d) eqn:E; [lia|]. rewrite zdrop_app by done.
    destruct (is_run d) eqn:Er; [|done]. destruct (is_run_repeat d Er) as (x & Ex & ->). unfold zlen. rewrite Nat2Z.id. by rewrite <- Ex.
Qed.
End Sample.

(** ** The theorems *)

Section correct.
Context {hash : Blake3} {zstd : Zstd} {allocator : Allocator} {sizes : ItemSizes}.

(** What was accepted is an interface with no section decoded. *)
Lemma accepted_fresh bytes policy v :
  SliceBytes bytes policy -> try_new bytes policy = Ret (Ok v) ->
  envelope bytes policy (vpi_header v) (directory v) /\ v = fresh bytes policy (vpi_header v) (directory v) /\ cells_ok v.
Proof.
  intros slice Hv. destruct (try_new_ok bytes policy) as (r & Hr & Hspec). rewrite Hv in Hr. injection Hr as <-. destruct Hspec as (H1 & H2 & _).
  split_and!; [done|done|]. rewrite H2. apply fresh_cells.
Qed.

(** C7. Eager validation is exact: [ValidatedPackageInterface::try_new] never
    panics; it accepts bytes if and only if they are an envelope (a header of the
    current format and of the expected revisions, and a directory of entries in the
    order of their tags that meet their contracts, lie in the file outside of the
    header and the directory, do not overlap their neighbours, stay within the
    limits, and whose checksums and digests are right) unless the allocator refuses
    memory.  Header and directory of what is accepted are the only ones that the
    bytes have, and no section is decoded yet. *)
Theorem try_new_exact (bytes : list u8) (policy : InterfaceValidationPolicy) :
  SliceBytes bytes policy ->
  returns (try_new bytes policy) (fun r =>
    match r with
    | Ok v => envelope bytes policy (vpi_header v) (directory v) /\ v = fresh bytes policy (vpi_header v) (directory v) /\
        forall h d, envelope bytes policy h d -> h = vpi_header v /\ d = directory v
    | Err e => out_of_memory e \/ forall h d, ~ envelope bytes policy h d
    end).
Proof. intros slice. exact (try_new_ok bytes policy). Qed.

(** C13. The cells that keep decoded sections cannot be observed: on an accepted
    interface the answer to every call ([section], [sections],
    [sections_by_tag]), failures included, is the same after any two sequences of
    calls, and the interface stays equal to itself in the sense of [PartialEq]. *)
Theorem section_cache_transparent (bytes : list u8) (policy : InterfaceValidationPolicy) (v : ValidatedPackageInterface)
    (calls calls' : list section_call) (c : section_call) :
  SliceBytes bytes policy -> try_new bytes policy = Ret (Ok v) ->
  (answer (after v calls) c).1 = (answer (after v calls') c).1 /\ interface_eq v (after v calls) = true.
Proof.
  intros slice Hv. destruct (accepted_fresh bytes policy v slice Hv) as (_ & _ & Hcells).
  pose proof (after_alike calls v Hcells) as H1. pose proof (after_alike calls' v Hcells) as H2. split; [|apply H1].
  apply (answer_transparent c). by transitivity v; [symmetry|].
Qed.

(** C14. What [sections] hands out is bounded and authentic: after any calls on an
    accepted interface, each section that is returned belongs to an entry that is
    known, in the order of the directory; its stored bytes are those of the range of
    the entry, with its checksum; what they decode to has the length and the content
    hash that the entry declares; and the lengths of all of them together stay
    within the limit on decoded bytes. *)
Theorem validated_sections_bounded (bytes : list u8) (policy : InterfaceValidationPolicy) (v : ValidatedPackageInterface)
    (calls : list section_call) (views : list ValidatedInterfaceSection) :
  SliceBytes bytes policy -> try_new bytes policy = Ret (Ok v) -> (InterfaceArtifact.sections (after v calls)).1 = Ok views ->
  Forall2 (view_of bytes) (filter known (directory v)) views /\
  foldr (fun view total => zlen (section_bytes view) + total) 0 views <= maximum (policy_limits policy) DecodedAllocation.
Proof.
  intros slice Hv Hviews. destruct (accepted_fresh bytes policy v slice Hv) as (Henv & Hfresh & Hcells). pose proof (after_alike calls v Hcells) as Ha. rewrite Hfresh in Ha at 1.
  pose proof (sections_views bytes policy _ _ Henv _ _ Ha Hviews) as Hall. split; [done|].
  etransitivity; [by eapply views_allocation; [apply Henv|]|]. apply Henv.
Qed.

Context {hash_laws : Blake3Laws} {zstd_laws : ZstdLaws}.

(** C8. Interfaces round trip, and the limits decide: given sections of surface and
    semantics in any order, which the compressor can compress where it is used and
    which fit an addressable file, [encode_interface_artifact] rejects them if two
    have the same tag and otherwise returns an artifact that passes its integrity
    check.  The writer checks no limit.  Validation of the bytes under a policy,
    where memory suffices, accepts them exactly if the language revisions agree and
    the length of the file, the number of sections, their counts of records and
    their decoded bytes are within the limits of the policy ([admits]); after any
    calls each section is then returned with its tag, count of records and bytes,
    however it was stored, a tag that was not given has no section, and [sections]
    returns all of them in the order of their tags. *)
Theorem artifact_round_trip {Identity : Type} (identity : Identity) (surface semantics : list EncodedArtifactSection) (language : u16)
    (policy : InterfaceValidationPolicy) (calls : list section_call) :
  writable (surface ++ semantics) language -> 0 <= maximum (policy_limits policy) DecodedAllocation <= U64_MAX ->
  (forall count size, try_reserve_exact count size = true) ->
  returns (encode_interface_artifact surface semantics identity language) (fun r =>
    match r with
    | Err e => exists a b rest, surface ++ semantics ≡ₚ a :: b :: rest /\ encoded_tag a = encoded_tag b /\
        e = Malformed DirectoryContext (CauseDuplicate SectionTagField (tag_wire_value (encoded_tag b)))
    | Ok artifact => NoDup (map encoded_tag (surface ++ semantics)) /\ validate_integrity artifact = Ok tt /\
        returns (try_new (artifact_bytes artifact) policy) (fun validated =>
          match validated with
          | Err _ => ~ admits policy language (surface ++ semantics) (zlen (artifact_bytes artifact))
          | Ok v => admits policy language (surface ++ semantics) (zlen (artifact_bytes artifact)) /\
              (forall e, e ∈ surface ++ semantics -> exists view, (section (after v calls) (encoded_tag e)).1 = Ok (Some view) /\ shows e view) /\
              (forall tag, tag ∉ map encoded_tag (surface ++ semantics) -> (section (after v calls) tag).1 = Ok None) /\
              (exists views, (InterfaceArtifact.sections (after v calls)).1 = Ok views /\ Forall2 shows (sort_by_key encoded_tag (surface ++ semantics)) views)
          end)
    end).
Proof.
  intros Hen Hmax Hmemory. unfold encode_interface_artifact. set (all := surface ++ semantics) in *. pose proof (sort_by_key_perm encoded_tag all) as Hp.
  assert (map encoded_tag (sort_by_key encoded_tag all) ≡ₚ map encoded_tag all) as Hpt by by apply Permutation_map.
  pose proof (adjacent_equal_None encoded_tag _ (sort_by_key_sorted encoded_tag all)) as Hnone. rewrite Hpt in Hnone.
  destruct (adjacent_equal encoded_tag (sort_by_key encoded_tag all)) as [duplicate|] eqn:Edup.
  { apply returns_ret. apply adjacent_equal_pair in Edup as (a & rest & Hr & Ha). exists a, duplicate, rest. by rewrite <- Hr, Hp. }
  pose proof (writable_sorted _ _ Hen) as Hw.
  assert (Sorted (fun a b => tag_wire_value (encoded_tag a) < tag_wire_value (encoded_tag b)) (sort_by_key encoded_tag all)) as Hs.
  { apply sorted_tags; [apply sort_by_key_sorted|]. rewrite Hpt. by apply Hnone. }
  set (sorted := sort_by_key encoded_tag all) in *. destruct (try_collect_ok sorted) as (l & El & Hl); [apply Hw|by eapply writable_fit|].
  pose proof (unlimited_admissible sorted language Hw Hs l Hl) as Hun. unfold assemble_sections, fallible_bind. rewrite El. cbn [outcome_bind].
  rewrite (assemble_stored_ok language (wr_language _ _ Hw) l (stored_file _ _ _ _ Hun Hl) (assembled_entries_fit _ _ _ _ Hun Hl)).
  apply returns_ret. split; [by apply Hnone|]. split; [by eapply integrity_ok|]. cbn [artifact_bytes].
  pose proof (assembled_size sorted language _ l Hun Hl) as Hsize. assert (SliceBytes (assembled_bytes language l) policy) as slice.
  { destruct (assembled_slice sorted language _ l Hun Hl) as [Hb Hz _]. by constructor. }
  assert (admits policy language all (zlen (assembled_bytes language l)) -> admissible sorted language policy l) as Hadm.
  { intros H. apply writable_admissible; [done|done|lia|]. rewrite <- Hsize. by eapply admits_perm. }
  eapply returns_mono; [apply (try_new_ok (assembled_bytes language l) policy)|]. intros [v|e] Hspec.
  2: { intros Had%Hadm. destruct Hspec as [((count & size & Hno) & _)|Hspec]; [by rewrite Hmemory in Hno|by destruct (Hspec _ _ (assembled_envelope _ _ _ _ Had Hl))]. }
  destruct Hspec as (Henv & Hv & _). pose proof (accepted_admits sorted language Hw Hs l Hl policy _ _ Henv) as Hok. apply (admits_perm _ _ _ _ _ Hp) in Hok.
  split; [done|]. apply Hadm in Hok as Had. destruct (envelope_same _ _ _ _ _ _ _ Henv (assembled_envelope _ _ _ _ Had Hl)) as [Eh Ed]. rewrite Eh, Ed in Hv.
  assert (alike (fresh (assembled_bytes language l) policy (final_header language l) (entries_from 112 l)) (after v calls)) as Ha by (rewrite Hv; apply after_alike, fresh_cells).
  destruct (assembled_answers sorted language policy l Had Hl _ Ha) as [H1 H2]. destruct (sections_stored sorted language policy l Had Hl _ Ha Hmemory) as (views & H3 & H4).
  split_and!; [|intros tag Htag; apply H2; by rewrite Hpt|by exists views]. intros e He. apply H1. by rewrite Hp.
Qed.
End correct.

(** ** Ranges that are compared *)

Section overlap.
Context {hash : Blake3} {zstd : Zstd} {allocator : Allocator} {sizes : ItemSizes} {hash_laws : Blake3Laws}.

Definition raw_section (tag : InterfaceSectionTag) (payload : list u8) : StoredArtifactSection :=
  {| stored_tag := tag; stored_encoding := Raw; stored_decoded_length := zlen payload; stored_record_count := 0;
     stored_content_hash := compute_section_content_hash tag payload; stored_payload := payload |}.

(** Two sections with a range in common, and one with another range between. *)
Definition shared_directory : list DirectoryEntry :=
  [finished_entry (raw_section Strings [1; 2; 3]) 112; finished_entry (raw_section Constants [4]) 115; finished_entry (raw_section SourceProvenance [1; 2; 3]) 112].

Definition shared_blank (language : Z) : InterfaceHeader :=
  {| format_revision := CURRENT_FORMAT_REVISION; language_revision := language; required_flags := InterfaceRequiredFlags_NONE;
     declared_file_length := 428; directory_offset := 116; directory_length := 312; header_content_hash := repeat 0 32; artifact_hash := repeat 0 32 |}.

Definition shared_body : list u8 := [1; 2; 3] ++ [4] ++ concat (map entry_wire shared_directory).

Definition shared_header (language : Z) : InterfaceHeader :=
  let content := compute_content_hash (shared_blank language) (known_sections shared_directory) in
  with_hashes (shared_blank language) content (blake3 ((header_prefix (shared_blank language) ++ content) ++ repeat 0 32 ++ shared_body)).

Definition shared_bytes (language : Z) : list u8 := header_wire (current_header (shared_header language)) ++ shared_body.

Lemma raw_entry_fits tag payload offset : zlen payload <= 3 -> 0 <= offset <= 115 -> entry_fits (finished_entry (raw_section tag payload) offset).
Proof using hash_laws.
  intros Hl Ho. pose proof (zlen_nonneg payload). constructor; cbn [finished_entry for_encoded raw_section raw_tag section_revision raw_compatibility raw_encoding entry_offset
    encoded_length decoded_length record_count checksum entry_content_hash stored_tag stored_payload stored_encoding stored_decoded_length stored_record_count stored_content_hash];
    try apply blake3_length; try (by destruct tag); in_width.
Qed.

Lemma shared_fits : Forall entry_fits shared_directory.
Proof using hash_laws. repeat first [apply List.Forall_nil | apply List.Forall_cons]; by apply raw_entry_fits. Qed.

Lemma shared_header_fits language : in_u16 language -> header_fits (current_header (shared_header language)).
Proof using hash_laws. intros Hl. constructor; try done; apply blake3_length. Qed.

Lemma shared_length language : in_u16 language -> zlen (shared_bytes language) = 428.
Proof using hash_laws.
  intros Hl. unfold shared_bytes, shared_body. rewrite !zlen_app, header_wire_length by by apply shared_header_fits. by rewrite wires_total by apply shared_fits.
Qed.

(** The payloads where the directory says. *)
Lemma shared_payloads language : in_u16 language ->
  get_range (shared_bytes language) 112 115 = Some [1; 2; 3] /\ get_range (shared_bytes language) 115 116 = Some [4] /\
  get_range (shared_bytes language) 116 428 = Some (concat (map entry_wire shared_directory)).
Proof using hash_laws.
  intros Hl. pose proof (header_wire_length _ (shared_header_fits language Hl)) as Hh. unfold shared_bytes, shared_body. split_and!.
  - by apply get_range_middle; rewrite Hh.
  - rewrite app_assoc. by apply get_range_middle; rewrite zlen_app, Hh.
  - rewrite <- (app_nil_r (concat (map entry_wire shared_directory))) at 1. rewrite (app_assoc _ [1; 2; 3]), (app_assoc _ [4]). apply get_range_middle; rewrite !zlen_app, Hh; [done|]. by rewrite wires_total by apply shared_fits.
Qed.

Lemma raw_entry_admitted bytes range limits tag payload offset :
  zlen payload <= 3 -> 112 <= offset -> offset + zlen payload <= 116 -> 116 <= range_start range -> 116 <= zlen bytes -> 0 <= maximum limits RecordCount ->
  entry_admitted bytes range limits (finished_entry (raw_section tag payload) offset).
Proof using.
  intros Hl Ho Hu Hr Hb Hm. pose proof (zlen_nonneg payload). destruct (known_tag (raw_section tag payload) offset) as [Htag Henc]. apply entry_tag_Some in Htag as (H1 & H2 & H3 & H4). constructor.
  - exists (tag_compatibility tag). rewrite H3, H1. split; [by destruct tag|]. split; [done|]. left. split; [done|]. by exists Raw.
  - done.
  - cbn. lia.
  - apply andb_false_iff. left. cbn. unfold InterfaceHeader_LENGTH. lia.
  - apply andb_false_iff. right. cbn. lia.
  - intros _ Hz. rewrite Henc in Hz. done.
Qed.

Lemma shared_envelope language : in_u16 language -> envelope (shared_bytes language) (InterfaceValidationPolicy_new language) (shared_header language) shared_directory.
Proof using hash_laws.
  intros Hl. pose proof (shared_length language Hl) as Hlen. pose proof (shared_header_fits language Hl) as Hfit. destruct (shared_payloads language Hl) as (P1 & P2 & P3).
  constructor; try done.
  - by rewrite Hlen.
  - by exists shared_body.
  - apply shared_fits.
  - repeat first [apply List.Forall_nil | apply List.Forall_cons]; by apply raw_entry_admitted; rewrite ?Hlen.
  - repeat constructor.
  - repeat first [apply List.Forall_nil | apply List.Forall_cons]; intros payload Hpayload.
    + by assert (payload = [1; 2; 3]) as -> by exact (f_equal (default []) (eq_trans (eq_sym Hpayload) P1)).
    + by assert (payload = [4]) as -> by exact (f_equal (default []) (eq_trans (eq_sym Hpayload) P2)).
    + by assert (payload = [1; 2; 3]) as -> by exact (f_equal (default []) (eq_trans (eq_sym Hpayload) P1)).
  - unfold shared_bytes, shared_header. rewrite (header_wire_hashes (shared_blank language)). apply artifact_hash_prefix; [apply header_prefix_length|apply blake3_length|apply blake3_length].
Qed.

Lemma shared_slice language : in_u16 language -> SliceBytes (shared_bytes language) (InterfaceValidationPolicy_new language).
Proof using hash_laws.
  intros Hl. constructor; [|by rewrite shared_length|done]. unfold shared_bytes, shared_body. rewrite !Forall_app. split_and!; [|by repeat constructor|by repeat constructor|].
  - unfold header_wire. rewrite !Forall_app. split_and!; try apply to_le_bytes_bytes; try apply blake3_bytes. by repeat constructor.
  - cbn [shared_directory map concat]. rewrite !Forall_app. unfold entry_wire. rewrite !Forall_app. split_and!; try apply to_le_bytes_bytes; try apply blake3_bytes; constructor.
Qed.

(** C38. Validation compares the range of a section with those of the header, the
    directory and the section before it only, and does not ask for ranges in
    ascending order: with any digest and any compressor there are bytes that are
    accepted under the default limits although the first and the third section of
    the directory have the same range. *)
Theorem distant_overlap_accepted (language : u16) :
  in_u16 language -> (forall count size, try_reserve_exact count size = true) ->
  exists bytes v a b, try_new bytes (InterfaceValidationPolicy_new language) = Ret (Ok v) /\
    directory v !! 0%nat = Some a /\ directory v !! 2%nat = Some b /\ ranges_overlap (entry_range a) (entry_range b) = true.
Proof.
  intros Hl Hmemory. exists (shared_bytes language). pose proof (shared_envelope language Hl) as Henv. pose proof (shared_slice language Hl) as slice.
  destruct (try_new_ok (shared_bytes language) (InterfaceValidationPolicy_new language)) as ([v|e] & Hr & Hspec).
  - exists v. destruct Hspec as (_ & _ & Huniq). destruct (Huniq _ _ Henv) as [_ <-]. by eexists _, _.
  - destruct Hspec as [((count & size & Hno) & _)|Hspec]; [by rewrite Hmemory in Hno|by destruct (Hspec _ _ Henv)].
Qed.
End overlap.

(** ** The budget of a decoder *)

Module Budget.
Inductive budget_call := CallCharge (bytes : usize) | CallItems (size count : usize) | CallReference (components : usize).

Definition call_ok (c : budget_call) : Prop :=
  match c with CallCharge n | CallReference n => 0 <= n <= USIZE_MAX | CallItems size count => 0 <= size <= USIZE_MAX /\ 0 <= count <= USIZE_MAX end.

Definition spend (self : DecodeBudget) (c : budget_call) : result unit InterfaceValidationError * DecodeBudget :=
  match c with
  | CallCharge bytes => charge self bytes
  | CallItems size count => charge_items size self count
  | CallReference components => charge_external_reference self components
  end.

(** Calls until the first failure. *)
Fixpoint spend_all (self : DecodeBudget) (calls : list budget_call) : result unit InterfaceValidationError * DecodeBudget :=
  match calls with
  | [] => (Ok tt, self)
  | c :: calls => match spend self c with (Ok _, self) => spend_all self calls | (Err e, self) => (Err e, self) end
  end.

(** What was asked for, without saturation. *)
Definition bytes_of (c : budget_call) : Z := match c with CallCharge n => n | CallItems size count => count * size | CallReference _ => 0 end.
Definition references_of (c : budget_call) : Z := match c with CallReference n => n | _ => 0 end.
Definition total (f : budget_call -> Z) (calls : list budget_call) : Z := foldr (fun c t => f c + t) 0 calls.

Lemma bytes_nonneg c : call_ok c -> 0 <= bytes_of c.
Proof. destruct c; cbn; nia. Qed.

Lemma references_nonneg c : call_ok c -> 0 <= references_of c.
Proof. destruct c; cbn; lia. Qed.

Lemma total_nonneg (f : budget_call -> Z) calls : (forall c, call_ok c -> 0 <= f c) -> Forall call_ok calls -> 0 <= total f calls.
Proof. intros Hf. induction 1 as [|c calls Hc _ IH]; [done|]. cbn [total foldr]. fold (total f calls). specialize (Hf c Hc). lia. Qed.

Section budget.
Context (limits : InterfaceValidationLimits).
Context (Hbytes : maximum limits DecodedAllocation < U64_MAX) (Hreferences : maximum limits ExternalReferenceCount < U64_MAX).

Definition spent (b r : Z) : DecodeBudget := {| budget_limits := limits; allocated := b; external_references := r |}.

Lemma saturated_check limit a n :
  maximum limits limit < U64_MAX -> 0 <= a -> 0 <= n -> (a + (n `min` U64_MAX)) `min` U64_MAX <= maximum limits limit <-> a + n <= maximum limits limit.
Proof using. lia. Qed.

Lemma charge_exact b r n : 0 <= b -> 0 <= n ->
  charge (spent b r) (n `min` USIZE_MAX) = if decide (b + n <= maximum limits DecodedAllocation) then (Ok tt, spent (b + n) r)
    else (Err (ResourceLimitExceeded DecodedAllocation ((b + (n `min` U64_MAX)) `min` U64_MAX) (maximum limits DecodedAllocation)), spent b r).
Proof using Hbytes.
  intros Hb Hn. assert (0 <= U64_MAX) as Hmax by done. unfold charge, limits_check, u64_saturating_add. cbn [spent allocated budget_limits external_references]. change USIZE_MAX with U64_MAX. rewrite saturating_id by lia.
  pose proof (saturated_check DecodedAllocation b n Hbytes Hb Hn) as Hs. case_decide as Hd.
  - destruct (_ <? _) eqn:E; [lia|]. unfold spent. repeat f_equal. lia.
  - destruct (_ <? _) eqn:E; [done|lia].
Qed.

(** One call, exactly. *)
Lemma spend_exact b r c : call_ok c -> 0 <= b <= maximum limits DecodedAllocation -> 0 <= r <= maximum limits ExternalReferenceCount ->
  if decide (b + bytes_of c <= maximum limits DecodedAllocation /\ r + references_of c <= maximum limits ExternalReferenceCount)
  then spend (spent b r) c = (Ok tt, spent (b + bytes_of c) (r + references_of c))
  else exists e, (spend (spent b r) c).1 = Err e /\ allocated (spend (spent b r) c).2 = b.
Proof using Hbytes Hreferences.
  intros Hc Hb Hr. pose proof (bytes_nonneg c Hc) as Hn. destruct c as [n|size count|n]; cbn [spend bytes_of references_of call_ok] in *.
  - pose proof (charge_exact b r n ltac:(lia) ltac:(lia)) as H. rewrite (Z.min_l n USIZE_MAX) in H by lia. rewrite H. repeat case_decide; try lia; [by rewrite Z.add_0_r|by eexists].
  - unfold charge_items, usize_saturating_mul. rewrite charge_exact by lia. repeat case_decide; try lia; [by rewrite Z.add_0_r|by eexists].
  - unfold charge_external_reference, limits_check, u64_saturating_add. cbn [spent allocated budget_limits external_references]. change USIZE_MAX with U64_MAX in Hc. rewrite saturating_id by lia.
    case_decide; destruct (_ <? _) eqn:E; cbn [fst snd allocated]; try lia; [|by eexists]. unfold spent. repeat f_equal; lia.
Qed.

(** A budget is exact: although its sums saturate, calls succeed exactly as long as
    what was asked for in all fits the limits, and the bytes that are charged never
    exceed their limit, also after a failure. *)
Lemma spend_all_exact calls : forall b r,
  Forall call_ok calls -> 0 <= b <= maximum limits DecodedAllocation -> 0 <= r <= maximum limits ExternalReferenceCount ->
  allocated (spend_all (spent b r) calls).2 <= maximum limits DecodedAllocation /\
  ((spend_all (spent b r) calls).1 = Ok tt <->
    b + total bytes_of calls <= maximum limits DecodedAllocation /\ r + total references_of calls <= maximum limits ExternalReferenceCount).
Proof using Hbytes Hreferences.
  induction calls as [|c calls IH]; intros b r Hok Hb Hr; cbn [spend_all total foldr fst snd spent allocated]; [rewrite !Z.add_0_r; split; [lia|tauto]|].
  apply Forall_cons_iff in Hok as [Hc Hok]. pose proof (spend_exact b r c Hc Hb Hr) as Hs. fold (total bytes_of calls) (total references_of calls).
  pose proof (bytes_nonneg c Hc). pose proof (references_nonneg c Hc). pose proof (total_nonneg _ calls bytes_nonneg Hok). pose proof (total_nonneg _ calls references_nonneg Hok).
  case_decide as Hd.
  - rewrite Hs. destruct (IH (b + bytes_of c) (r + references_of c) Hok ltac:(lia) ltac:(lia)) as [Hle Hiff]. split; [done|]. rewrite Hiff. lia.
  - destruct Hs as (e & He & Ha). destruct (spend (spent b r) c) as [res self]. cbn [fst snd] in *. subst res. cbn [fst snd]. split; [lia|]. split; [done|lia].
Qed.
End budget.
End Budget.

(** ** At the sample *)

#[local] Existing Instances Sample.blake3 Sample.zstd Sample.allocator Sample.sizes Sample.blake3_laws Sample.zstd_laws.

Module Samples.
Definition strings : EncodedArtifactSection := {| encoded_tag := Strings; encoded_record_count := 2; encoded_payload := [1; 2; 3] |}.
Definition constants : EncodedArtifactSection := {| encoded_tag := Constants; encoded_record_count := 1; encoded_payload := repeat 9 1500 |}.
Definition provenance : EncodedArtifactSection := {| encoded_tag := SourceProvenance; encoded_record_count := 0; encoded_payload := [] |}.

Definition all : list EncodedArtifactSection := [constants; strings; provenance].

Definition policy : InterfaceValidationPolicy := InterfaceValidationPolicy_new 7.

Definition bytes : list u8 :=
  match encode_interface_artifact [constants; strings] [provenance] tt 7 with Ret (Ok artifact) => artifact_bytes artifact | _ => [] end.

Definition interface : ValidatedPackageInterface :=
  match try_new bytes policy with Ret (Ok v) => v | _ => fresh [] policy (blank_header 7 []) [] end.

Lemma bytes_ok l : forallb (fun x => (0 <=? x) && (x <=? 255)) l = true -> Forall in_u8 l.
Proof. rewrite forallb_forall. intros Hl. apply List.Forall_forall. intros x Hx. specialize (Hl x Hx). unfold in_u8. lia. Qed.

(** Fewer records than [strings] has. *)
Definition strict : InterfaceValidationPolicy :=
  with_limits policy {| file_size := 4096; implementation_file_size := 4096; section_count := 8; implementation_entry_count := 8; records_per_section := 1; string_length := 64;
    blob_length := 64; decoded_allocation := 4096; semantic_type_depth := 8; template_graph_size := 8; external_reference_count := 8 |}.

Lemma all_writable : writable all 7.
Proof.
  constructor; [|done|by vm_compute].
  repeat first [apply List.Forall_nil | apply List.Forall_cons]; (constructor; [apply bytes_ok; by vm_compute|done|]); intros _; (split; [done|split; [done|]]); eexists; by vm_compute.
Qed.

Lemma all_bytes : SliceBytes bytes policy.
Proof. constructor; [apply bytes_ok; by vm_compute|by vm_compute|by vm_compute]. Qed.

Definition calls : list section_call := [CallSection Constants; CallSections; CallSectionsByTag [Strings; Contracts]].

Definition views : list ValidatedInterfaceSection :=
  match (InterfaceArtifact.sections (after interface calls)).1 with Ok views => views | Err _ => [] end.
End Samples.

Lemma try_new_exact_witness :
  SliceBytes Samples.bytes Samples.policy /\ zlen Samples.bytes = 443 /\ zlen (directory Samples.interface) = 3 /\
  returns (try_new Samples.bytes Samples.policy) (fun r =>
    match r with
    | Ok v => envelope Samples.bytes Samples.policy (vpi_header v) (directory v) /\ v = fresh Samples.bytes Samples.policy (vpi_header v) (directory v) /\
        forall h d, envelope Samples.bytes Samples.policy h d -> h = vpi_header v /\ d = directory v
    | Err e => out_of_memory e \/ forall h d, ~ envelope Samples.bytes Samples.policy h d
    end).
Proof.
  split; [exact Samples.all_bytes|]. split; [by vm_compute|]. split; [by vm_compute|]. apply (try_new_exact Samples.bytes Samples.policy). exact Samples.all_bytes.
Defined.

Lemma section_cache_transparent_witness :
  try_new Samples.bytes Samples.policy = Ret (Ok Samples.interface) /\ decoded_sections Samples.interface <> decoded_sections (after Samples.interface Samples.calls) /\
  (answer (after Samples.interface Samples.calls) (CallSection Constants)).1 = (answer (after Samples.interface []) (CallSection Constants)).1 /\
  interface_eq Samples.interface (after Samples.interface Samples.calls) = true.
Proof.
  assert (try_new Samples.bytes Samples.policy = Ret (Ok Samples.interface)) as Hv by by vm_compute. split; [exact Hv|]. split; [by vm_compute|].
  apply (section_cache_transparent Samples.bytes Samples.policy); [exact Samples.all_bytes|exact Hv].
Defined.

Lemma validated_sections_bounded_witness :
  zlen Samples.views = 3 /\ Forall2 (view_of Samples.bytes) (filter known (directory Samples.interface)) Samples.views /\
  foldr (fun view total => zlen (section_bytes view) + total) 0 Samples.views <= maximum (policy_limits Samples.policy) DecodedAllocation.
Proof.
  split; [by vm_compute|]. apply (validated_sections_bounded Samples.bytes Samples.policy Samples.interface Samples.calls Samples.views); [exact Samples.all_bytes|by vm_compute|by vm_compute].
Defined.

Lemma artifact_round_trip_witness :
  exists artifact, encode_interface_artifact [Samples.constants; Samples.strings] [Samples.provenance] tt 7 = Ret (Ok artifact) /\
    zlen (artifact_bytes artifact) < zlen (encoded_payload Samples.constants) /\ validate_integrity artifact = Ok tt /\
    (exists v, try_new (artifact_bytes artifact) Samples.policy = Ret (Ok v) /\ admits Samples.policy 7 Samples.all (zlen (artifact_bytes artifact)) /\
      exists views, (InterfaceArtifact.sections (after v Samples.calls)).1 = Ok views /\ Forall2 shows (sort_by_key encoded_tag Samples.all) views) /\
    (exists e, try_new (artifact_bytes artifact) Samples.strict = Ret (Err e) /\ ~ admits Samples.strict 7 Samples.all (zlen (artifact_bytes artifact))).
Proof.
  assert (forall count size, try_reserve_exact count size = true) as Hmemory by done.
  assert (0 <= maximum (policy_limits Samples.policy) DecodedAllocation <= U64_MAX) as Hmax by by vm_compute.
  assert (0 <= maximum (policy_limits Samples.strict) DecodedAllocation <= U64_MAX) as Hmax' by by vm_compute.
  destruct (artifact_round_trip tt [Samples.constants; Samples.strings] [Samples.provenance] 7 Samples.policy Samples.calls) as (r & Hr & Hspec);
    [exact Samples.all_writable|exact Hmax|exact Hmemory|].
  destruct (artifact_round_trip tt [Samples.constants; Samples.strings] [Samples.provenance] 7 Samples.strict Samples.calls) as (r' & Hr' & Hspec');
    [exact Samples.all_writable|exact Hmax'|exact Hmemory|].
  rewrite Hr in Hr'. injection Hr' as <-. destruct r as [artifact|e]; [|vm_compute in Hr; discriminate Hr].
  pose proof Hr as E. vm_compute in E. injection E as E. exists artifact. split; [exact Hr|]. clear Hr.
  destruct Hspec as (_ & Hi & validated & Hv & Hspec). destruct Hspec' as (_ & _ & validated' & Hv' & Hspec').
  split; [rewrite <- E; vm_compute; reflexivity|]. split; [exact Hi|]. split.
  - destruct validated as [v|e]; [|rewrite <- E in Hv; vm_compute in Hv; discriminate Hv]. exists v. destruct Hspec as (Ha & _ & _ & Hs). split; [exact Hv|]. split; [exact Ha|exact Hs].
  - destruct validated' as [v|e]; [rewrite <- E in Hv'; vm_compute in Hv'; discriminate Hv'|]. exists e. split; [exact Hv'|exact Hspec'].
Defined.

Lemma distant_overlap_accepted_witness :
  in_u16 7 /\
  exists bytes v a b, try_new bytes (InterfaceValidationPolicy_new 7) = Ret (Ok v) /\
    directory v !! 0%nat = Some a /\ directory v !! 2%nat = Some b /\ ranges_overlap (entry_range a) (entry_range b) = true.
Proof. split; [done|]. by apply (distant_overlap_accepted 7). Defined.
